(* ===== verification/_CoqProject ===== *)
-Q . S2P
Prelude.v
GoStrings.v
GoUnicode.v
GoStd.v
StringFacts.v
UnicodeFacts.v
WordFacts.v
Regexp.v
Calendar.v
Float.v
Hash.v
Json.v
Purl.v
Env.v
Targets.v
Cli.v
CliSubject.v
Failure.v
Experience.v
Summary.v
Boundaries.v
RetryPolicy.v
Anomaly.v
Sanitizer.v
Validate.v
Merge.v
Applicable.v
Search.v
Footprint.v
Relevance.v
Grade.v
Candidate.v
Select.v
Corpus.v
Score.v
OutputGate.v
Pool.v
Measured.v
Upgrade.v
Aggregate.v
Jdk.v
Clusters.v
Ingest.v
Evidence.v
Identity.v
Presence.v
Delivery.v
Uplink.v
Release.v
Launcher.v
UpdateLock.v
Update.v
Repair.v
Queue.v
Ledger.v
Authoring.v
Images.v
Cross.v
Reports.v
Issues.v
Receipts.v
Verification.v
Lease.v
Leader.v
Governor.v
