(* ===== verification/Prelude.v ===== *)
(** * CodeSampleX: a verification development of its core

    CodeSampleX records what happened when code samples and command lines were
    run, on which package versions and in which environments, and answers
    questions from that record.  Clients sanitise and canonicalise what they
    saw; a server stores it under content ids; a builder turns stored receipts
    and observations into claims about versions; the search engine grades,
    selects, scores and ranks samples for a caller; disagreements come back as
    anomaly reports and are settled by verification receipts.  This library
    models the rules: the pure functions of src/internal/domain, the search
    engine (src/internal/search), the comparison products of
    src/internal/compatibility; the path evidence takes from a client's output
    to the rows the builder reads (sanitizer, validation, merge, store,
    endpoint); the path of a verification from a queued job to a signed
    receipt, a status, new observations and the verdict on a report; the work
    given to the writers of samples and the ledger that bounds it; the
    stateful parts that keep the server alive: the database pool with its
    admission gates, the lease by which Builder processes elect a leader, the
    resource governor that acts on both, and the bounded retry series; and the
    parts that live on a user's machine: the queue that delivers evidence, the
    updater with its signed releases, and the launcher that starts only what
    it has verified.  What
    only moves their inputs and outputs (transport, most of the SQL, HTML,
    processes, containers) is outside.

    ** Files and what they model

    The language and its library:
    - Prelude: scope, hint databases, tactics, error results, 64-bit wrapping,
      three-way comparators ([CmpOrder]) and their combinators.
    - GoStrings, GoUnicode, GoStd: the parts of Go's standard library the code
      calls, on byte strings: package strings, UTF-8 decoding and the Unicode
      case tables, strconv, net/url escaping and queries.  Four interfaces
      stand for what the language leaves open, and theorems that mention them
      hold for every instance: [GoSort] promises a permutation that is ordered
      and says nothing about ties ([sort.Slice] is unstable), [GoMapRange]
      promises some order of a map's entries, [GoTime] parses and renders
      instants, and [GoFloat] (file Score) is what the conversion of a double
      outside the range of int64 gives.  [PgInterval] (file Lease) is how
      PostgreSQL rounds a duration, [GoParseFloat] (file Governor) is
      strconv.ParseFloat, [GoNetip] (file Release) classifies addresses and
      [ReleaseJSON] decodes an envelope and a manifest.
    - Regexp: regular expressions as the program uses them, with leftmost-first
      matching, replacement and submatches, and the laws of replacement.
    - Calendar: civil dates, days and instants, formatting and parsing of
      days, [AddDate].
    - StringFacts, UnicodeFacts, WordFacts: shared lemmas: cutting and
      joining, case mapping is idempotent and keeps words, trimming, fields
      of joined words, uniqueness of sorting by a total order.
    - Float: IEEE 754 doubles (of SpecFloat), as the score and the confidence
      use them.
    - Hash, Json: SHA-256 with its word arithmetic, [SHA256Hex] (types.go),
      and canonical JSON (canonical.go), computed, so content ids can be
      evaluated; every digest is 64 lower-case hexadecimal characters.

    The domain (src/internal/domain, and retrypolicy):
    - Purl (purl.go): package URLs, Go version repair, buckets, and
      [CompareVersions].
    - Env (envfp.go): environment fingerprints, [Normalize], [Bucketed],
      [RuntimeLine], [Hash].
    - Targets (wanted_target.go, cliwork.go, and [CommandTool] of search.go):
      the public vocabulary of targets and the symbols of CLI work items.
    - Cli (experience.go, first half): parsing a command line, finding its
      subcommand, replacing every argument by a placeholder, canonical
      coordinates, symbols.
    - CliSubject (clisubject.go): the structured identity of a command, its
      reference syntax, and the match verdict.
    - Failure (failure.go and [ObservationBatch] of types.go): exit codes,
      terminations, fingerprints, repair of stored batches.
    - Experience, Summary, Boundaries (experience.go, second half):
      Experience defines observations and every operation on them
      (compression, boundary detection, ranking, summaries) and proves the
      laws of compression; Summary proves those of ranking and summarising,
      Boundaries those of boundary detection.
    - RetryPolicy (retrypolicy/retry.go, web/background_retry.go): the
      bounded retry series and the gate the site's caches keep before a
      background refresh; the state is threaded explicitly.
    - Anomaly (anomaly.go, [VerificationReceipt] of types.go): reports, the
      admission test with its errors in order, the dedupe key, verdicts.
    - Applicable (applicable.go): which coordinates can hold which assets.
    - Search (search.go, dedupesamples.go, callerquestion.go, [Case] of
      types.go): the caller's words, folding of results, the offer and the
      relevance gate.
    - Footprint (footprint.go, samplebucket.go): self-reported outcomes.

    The search engine (src/internal/search), in the order it works:
    - Relevance (relevance/relevance.go): which words carry a question's
      topic, and whether a question and a sample are about one subject.
    - Grade (grade.go, delta.go, the package relation of rank.go): comparing
      environments and packages, the grade, and the delta that explains it.
    - Candidate (engine.go): a candidate, and which failures are the caller's.
    - Select (engine.go): the one execution of a sample that is graded.
    - Corpus (engine.go, [loadCorpus]): merging samples and cached shards.
    - Score (engine.go, rank.go, compatibility/confidence.go): the fused
      score, its gates, the evidence summary, and [Search] itself.
    - OutputGate (domain/outputrelevance.go, diagnostic.go): the gate between
      what was found and what is shown, and the debug trace that records it.

    The comparisons of the builder (src/internal/compatibility):
    - Measured (aggregate.go, builder.go, receipt_regression.go): receipts,
      samples, and the one grouping that says which measurements compare.
    - Upgrade (receipt_regression.go, safe_upgrade.go, regression_watch.go):
      boundaries, upgrade paths and the watch, computed from that grouping.
    - Aggregate (aggregate.go, regression.go, [Hypotheses] of clusters.go):
      observation rows, environment summaries, the observation rule.
    - Jdk (jdk_boundary.go): boundaries between JDK lines.
    - Clusters (clusters.go, [BuildClusters]): failing observations grouped
      into clusters, with their causes, versions and environments.

    Evidence, from a client to the builder:
    - Sanitizer (sanitizer/sanitizer.go): every rewrite of failure output, the
      summary, and the form the server accepts.
    - Validate (serverstore/validate.go): the admission of a batch.
    - Merge (serverstore/merge.go): the delta-merge of counts and buckets.
    - Ingest (the evidence part of serverstore/fake.go, coresidence.go,
      edges.go, symbolspelling.go): the store, what it returns, its retention
      and its counts.
    - Evidence (httpapi/evidence.go): the endpoint, with the public package
      gate; the registry is a parameter ([publicness_checker]).
    - Identity (identity/identity.go, anonymous.go): keys, ids, signatures, the
      identity file and the race for it; [Ed25519] is the interface of the
      signature scheme.
    - Presence (domain, daemon, httpapi and store parts of presence): anonymous
      counts of installations.
    - Delivery (evidence/batch.go, storage/localdb/observations.go and
      refusedevidence.go): the local tables, the batches made of them, and the
      upload with its chunks, passes and refusals, proved against any server
      that keeps what it accepts ([EvidenceServer]).
    - Uplink: the endpoint of Evidence is such a server, so the two ends
      compose.

    Releases, on a user's machine:
    - Release (update/manifest.go, the addresses of client.go): the signed
      manifest and every check it must pass, release versions, download
      addresses as net/url parses them.
    - Launcher (launcher/active.go, restore.go): the install pointer and its
      payloads: resolving, falling back, healing, committing, rolling back.
    - UpdateLock (the lock of update/client.go): the lock file of the updaters
      as a step relation over any number of processes.
    - Update (update/client.go, state.go, launcherreplace.go): the check, its
      floors, both ways of installing, the pacing of checks, roll back.
    - Repair (update/rehydrate.go, doctorrelease.go, bootstrapmanifest.go,
      launcher/recoveryrecord.go, cmd/csx-launcher/main.go): refetching a lost
      payload, the launcher's main, the repairs of the doctor and the check of
      a directory about to be published.

    Verification, from a sample to a verdict:
    - Queue (the job, receipt and sample part of fake.go, store.go): claims and
      leases of jobs, receipts that answer them, drafts, expiry.
    - Images (sandbox/docker.go, images.go, runner.go, scanner/adapter.go): the
      image a sample runs in and the environment the run reports.
    - Cross (httpapi/samples.go): the job a sample needs, its requeue and end.
    - Reports (httpapi/anomalies.go, serverstore/anomaly.go, anomaly_fake.go):
      reports filed, verified and settled.
    - Issues (domain/csxissue.go, serverstore/csxissue*.go, report_queue.go,
      httpapi/csxissues.go, admin/csxissuetriage.go, reports.go): reports about
      the product itself, the routes by which an operator decides them, and the
      queue over both kinds of report.
    - Receipts (httpapi/verifications.go, receiptobservation.go): what a
      receipt must say, the status receipts earn, and the observations one
      proves.
    - Verification (httpapi/verifications.go): the handlers that list and claim
      jobs and accept a receipt, composed of all of the above.

    Authoring, the work of the farm that writes samples:
    - Ledger (serverstore/authoring_quarantine.go): what is remembered of one
      coordinate: handouts, reports, refunds, the slot budget, and when the
      work of an axis is withheld and comes back; histories of one gate.
    - Authoring (serverstore/authoring.go, authoring_fake.go): sessions, the
      assignments they hold, and every operation of the store over them, as
      runs of steps that visit maps in any order; each run is a history of
      each gate of Ledger.

    The stateful parts of the server:
    - Pool (serverstore/pool.go): policy, classes of work, gates and
      counters, as a step relation over any number of callers.
    - Lease (serverstore/lease.go, the lease part of fake.go): the table
      builder_lease under the statements of lease.go, the in-memory store the
      tests use, and the interface [LeaseStore] with its laws [LeaseLaws],
      which both stores satisfy.
    - Leader (compatibility/leader.go, the loop of builder.go): leader
      election over any store with these laws, as a machine of any number of
      processes whose calls are delayed and whose answers get lost; the pause
      flag; the loop of passes with its retries.
    - Governor (cmd/csx-server/governor.go, hostpressure/steal.go, [stat] of
      pool.go): steal time, the window of pool statistics, the decision, and
      the loop that sheds and restores background work, among the callers of
      Pool and the processes of Leader.

    Definitions keep the names of the source; a method [T.M] whose name is
    used by several types is [t_M] ([env_Normalize], [coord_Canonical],
    [subject_Canonical], [report_Validate]).  Struct fields are record fields
    with a prefix, a nil pointer is [None], an error return is [Err] of an
    inductive type with one constructor per message, or [Some] error where
    there is no other result.  Go strings are arbitrary byte strings.  A loop
    whose body is long is a step function folded over the list it ranges
    over, named after what it does.

    ** What the theorems show

    - The answer of a search (C1, C2): how many results, in which order, one
      per coordinate, and when it is a miss; no result slips past a gate.
    - Grades (C3, C4): each grade exactly under its condition, and the delta
      tells the same story as the grade.
    - Selection (C5): packages, stages, environment and date of a result come
      from one execution, the best one.
    - Receipt comparisons (C6-C8, C10): boundaries, upgrade paths and the JDK
      boundaries are sound and complete with respect to the stored
      measurements and, with the watch, never contradict each other, in every
      map order.
    - Authoring (C9, C36): over every run of the store a coordinate costs a
      bounded number of turns, and is given up only when two machines measured
      that it cannot be done.
    - Output (C11): what is shown is what has a concrete link to the request,
      each kind of link spelled out.
    - Observations (C12): the failure clusters, exactly, and independent of
      every order.
    - The pool (C13, C14): in every reachable state under any interleaving
      the bounds hold and the tokens are accounted for; and each class of
      work gets its guaranteed connections by its own steps.
    - The governor (C15): shed work is restored exactly, by whatever happens
      between its ticks, and a pause never outlives its time.
    - The lease (C16, C17): one Builder at a time under every interleaving of
      delayed calls, lost answers and crashes, with recovery after expiry; and
      the store of the tests behaves as the database.
    - Receipts (C18, C19): a posted receipt changes nothing or is signed, kept
      and reflected in the status of its sample, and that status counts
      independent peers, in whatever order they came.
    - The queue (C20, C21, C28): a claimed job belongs to one peer until its
      lease runs out; jobs and receipts pair up over every run; the listing
      ends, and is the first jobs the peer can run.
    - The evidence store (C22, C25-C27): the rows are exactly what was accepted,
      the merge sees a set and not a sequence, every stored row is typed, and
      the answer to a request accounts for each batch.
    - Delivery (C23, C24): whatever the network answers and whatever is
      recorded meanwhile, what a machine has marked as sent is in the server's
      ledger or on record as refused; and with a server that takes what it is
      sent the queue empties.
    - Derived work (C29): no report of a sample is left waiting for nothing.
    - The sanitizer (C30): no quoted literal survives.
    - Updates (C31, C32): what the updater believes, exactly; over every
      history of checks nothing but a signed and newer release is installed.
    - The launcher (C33-C35): it runs verified bytes or nothing, a rejected
      release stays rejected, and what it starts and what it reports agree
      whatever other processes do to the install.
    - Product issues (C37): one defect is one row, counted, and decided once.
    - Command lines and subjects (C38, C39): the value of a sensitive option
      never influences what is stored; references read back.
    - Versions (C40): version comparison is a total preorder on all strings.

    Further theorems of the components stand beside these, among them the
    order of pre-releases and build metadata (Purl), normal forms of
    environments and coordinates (Env, Cli), work symbols in bijection with
    work items (Targets), folding of results (Search), the closed vocabularies
    of Targets and Footprint, the agreement of the refusal rules with the
    scheduler's lists (Applicable), [Measured.verdicts_count_measurements],
    [Aggregate.envSummary_exact], [Aggregate.PreviousVersion_greatest],
    [Aggregate.observed_regressions_exact],
    [OutputGate.gate_trace_is_complete], [OutputGate.new_trace_is_public],
    [Upgrade.watch_exact], [Update.next_check_paced],
    [Ledger.authoring_cost_is_bounded] (with the slot time of the turns),
    [Authoring.authoring_board_is_sound],
    [Leader.pause_ends], [Leader.builder_loop_delays],
    [Governor.governor_decision_exact], [Validate.accepted_batch_typed],
    [Validate.token_recursion_terminates], [Sanitizer.summary_idempotent],
    [Queue.one_live_claim_per_peer], [Images.selected_images_are_published],
    [Images.declared_libc_is_provided], [Presence.prune_keeps_counts],
    [Identity.own_signature_accepted], [Identity.one_identity_per_machine],
    [Presence.presence_counts_installations], [Reports.report_only_asks],
    [Select.version_relation_is_verified], [Receipts.receipt_observations_admitted],
    [Experience.compress_refines_groups], [Summary.summary_hides_no_failure],
    [Anomaly.admission_characterised], [Anomaly.verdict_from_measurements],
    [RetryPolicy.series_grants_five_retries], [Release.release_order],
    [UpdateLock.update_lock_exclusive], [Repair.repair_is_recorded],
    [Repair.published_release_is_complete], [Repair.doctor_binds_signed_release],
    [Issues.report_queue_is_exact], the laws of
    command boundaries (Boundaries), the repair of exit codes (Failure), round
    trips of symbols and package URLs (Cli, Purl), the spacing of retries
    (RetryPolicy) and the relevance gate (Search, Relevance).

    Twenty-seven lemmas show where the code does not do what its comments say:
    [Cli.sanitizer_keeps_padded_bearer_token] (a padded bearer header keeps
    its token), [Cli.coord_Canonical_doubled_suffix] (a doubled launcher
    suffix is not canonical after one pass), [CliSubject.subject_ref_semicolon]
    (a reference with a semicolon does not read back),
    [Anomaly.fingerprint_separator_collision] (a separator inside a field
    makes two claims collide), [Relevance.NamesSubject_not_narrower] (a scoped
    name matches without its sign), [Upgrade.blocked_by_looks_one_step] (a
    version measured both ways hides a failure above it),
    [Aggregate.release_precedes_its_prerelease] (a release sorts before its
    own pre-release), [Lease.expired_at_the_instant] and
    [Lease.fence_restarts_after_release] (where lease.go's comments and its
    statements part), [Governor.guest_time_does_not_cancel] (guest time
    lowers the reported steal time), [Sanitizer.honest_summary_refused] (a
    client's own summary is refused), [Validate.cli_pass_carries_free_text]
    (a passing command line may carry any text),
    [Merge.bucket_count_is_not_of_the_row], [Ingest.projects_month_counts_epochs]
    and [Ingest.purged_resend_counts_again] (where the counts are not what the
    comments say), [Images.browser_lane_ignores_libc] (the browser image is
    not checked against the declared libc),
    [Verification.observations_filed_in_year_one] (derived observations carry
    the zero date), [Verification.rust_job_has_no_answer] (a job no receipt
    can answer), [Verification.unbound_receipt_ends_the_search] (a receipt
    without a job closes the work and queues none),
    [Verification.origins_disagree] (two notions of a sample's origin),
    [UpdateLock.stale_takeover_is_not_exclusive] (two updaters may hold a lock
    both found stale), [Launcher.repair_refetches_a_rejected_payload] (a
    rejected payload is downloaded again, and not run),
    [Update.upper_launcher_digest_never_installs] (a digest in upper case is
    signed and never matches), [Repair.rebinding_lowers_the_floor] (the doctor
    can lower the version floor), [Uplink.interleaved_record_is_lost] (an
    observation recorded while a drain is sent is marked as sent),
    [Issues.unsupported_anomaly_is_not_blocked] (the queue looks for a status
    the channel never writes) and [Issues.issue_key_collision] (a separator
    inside a field).  The theorems above have side conditions that leave such
    inputs out, or do not speak of them.

    ** Bounds and fuel

    Integers are [Z] with [wrap64] where Go's [int] arithmetic could leave 64
    bits; exit codes go through [int32] and [uint32].  Sums of counts are
    stated under the hypothesis that the exact total fits ([Upgrade.fits]), or
    with the wrapped sum.  [Itoa] prints with 20 digits of fuel, enough for
    every 64-bit number ([Atoi_Itoa]); [compareMixed] has the length of its
    first argument as fuel, each round consuming a byte of it
    ([VersionOrder.compareMixed_runs] equates it with a fuel-free comparison
    of runs); the search for an identifier in a question
    ([Relevance.identifier_loop]) has one unit per byte of the question; the
    loops that compare padded number lists are structural ([pad_loop]);
    SHA-256 runs one block per unit of fuel and is given the length of the
    padded message.  [ParseQuery] enforces the 10000-parameter limit of
    net/url.  UTF-8 decoding skips continuation bytes structurally and needs
    no fuel.  The listing of jobs has one page per job and one more
    ([Verification.pages_fuel]; [job_list_exact] shows it is enough), the
    recursion of the token test the length of its token
    ([Validate.token_recursion_terminates]), and the truncation at a rune
    boundary the length of the text.  An upload has 40 passes of at most 1000
    rows, as the code ([Delivery.upload_drains_queue] says for which queues
    that is enough), each with one chunk per unit of fuel; the backoff doubles
    once per failure ([Update.double_until_day]) and stops at a day.

    A floating-point product and sum are rounded separately, as on amd64 (the
    language permits fusing them on other machines).  The counters of the
    pool are unbounded; those of the program wrap after 2^64 events.  Fences
    of the lease are 64-bit: PostgreSQL refuses the one after the last, the
    in-memory store wraps.  Instants of the lease are unbounded integers.
    Documents stored as JSON enter the model decoded, and what the code skips
    because it does not decode is absent.

    Digests are not assumed to be collision free.  Statements about ids say
    that equal inputs give equal ids, or speak of the digested text.

    ** Not modelled, and what is planned

    Next, in this order: anonymous search (httpapi/search.go), the static
    checks of an uploaded sample, rate limiting (httpapi/ratelimit.go), shard
    generation and the dependency axis (shardgen.go, dependencyaxis.go), the
    ranking of authoring candidates, the API demand collector, and the prose
    renderings [TextSummary] and [RenderDiagnosticText].  The relayed report types of search.go, the debug
    trace and the attached command experience of the engine, and the error
    classification of the pool are left out.  Of the updater and the launcher
    the transfers, the native lock of Windows, permissions and symbolic links
    are outside; of the local tables failing SQLite transactions.  PostgreSQL's
    twin of the store, the transport of the handlers, web pages, command-line
    and MCP front ends, the running of containers and the adapters are I/O
    around these functions and stay outside. *)

From stdpp Require Export base tactics decidable option list strings numbers.
From Stdlib Require Export Ascii ZArith Lia Permutation Sorted.

#[global] Open Scope Z_scope.
#[global] Arguments String.append !_ _ / : simpl nomatch.
#[global] Arguments Ascii.eqb _ _ : simpl never.
#[global] Arguments String.eqb _ _ : simpl never.

(** ** Scope, hint database and tactics *)

Declare Scope csx_scope.
Delimit Scope csx_scope with csx.

(** [csx] collects the resolution lemmas of every component: order laws,
    fixed points of normalisers, membership facts. *)
Create HintDb csx.

(** Case analysis on the first [if]/[match] scrutinee of the goal or of a
    hypothesis, remembering the equation. *)
Ltac split_ifs :=
  repeat match goal with
  | |- context [if ?b then _ else _] => destruct b eqn:?
  end.

Ltac split_all_ifs :=
  repeat match goal with
  | |- context [if ?b then _ else _] => destruct b eqn:?
  | H : context [if ?b then _ else _] |- _ => destruct b eqn:?
  end.

Ltac split_ifs_in H :=
  repeat match type of H with
  | context [if ?b then _ else _] => destruct b eqn:?
  end.

(** Boolean connectives and decided equalities as propositions. *)
Ltac bool_facts :=
  repeat match goal with
  | H : _ && _ = true |- _ => apply andb_true_iff in H as [? ?]
  | H : _ && _ = false |- _ => apply andb_false_iff in H
  | H : _ || _ = false |- _ => apply orb_false_iff in H as [? ?]
  | H : _ || _ = true |- _ => apply orb_true_iff in H
  | H : negb _ = true |- _ => apply negb_true_iff in H
  | H : negb _ = false |- _ => apply negb_false_iff in H
  | H : String.eqb _ _ = true |- _ => apply String.eqb_eq in H
  | H : String.eqb _ _ = false |- _ => apply String.eqb_neq in H
  | H : Ascii.eqb _ _ = true |- _ => apply Ascii.eqb_eq in H
  | H : Ascii.eqb _ _ = false |- _ => apply Ascii.eqb_neq in H
  | H : (_ <? _)%Z = true |- _ => apply Z.ltb_lt in H
  | H : (_ <? _)%Z = false |- _ => apply Z.ltb_ge in H
  | H : (_ <=? _)%Z = true |- _ => apply Z.leb_le in H
  | H : (_ <=? _)%Z = false |- _ => apply Z.leb_gt in H
  | H : (_ =? _)%Z = true |- _ => apply Z.eqb_eq in H
  | H : (_ =? _)%Z = false |- _ => apply Z.eqb_neq in H
  end.

(** ** Results: Go's [(value, error)] pairs

    A Go function that returns [(T, error)] is modelled by [result T E]: a
    non-nil error comes with the zero value, which the callers never read. *)

Inductive result (A E : Type) : Type :=
| Ok (a : A)
| Err (e : E).
Arguments Ok {A E} a.
Arguments Err {A E} e.

Definition res_bind {A B E} (r : result A E) (k : A -> result B E) : result B E :=
  match r with Ok a => k a | Err e => Err e end.

Notation "x <-- r ;; k" := (res_bind r (fun x => k))
  (at level 60, r at next level, right associativity) : csx_scope.

Definition is_ok {A E} (r : result A E) : bool :=
  match r with Ok _ => true | Err _ => false end.

(** ** Machine integers

    [int] and [int64] are 64-bit two's complement on every platform the
    program is released for; arithmetic wraps. *)

Definition int64_min : Z := - 2 ^ 63.
Definition int64_max : Z := 2 ^ 63 - 1.
Definition wrap64 (z : Z) : Z := (z + 2 ^ 63) mod 2 ^ 64 - 2 ^ 63.
Definition in_int64 (z : Z) : Prop := int64_min <= z <= int64_max.

Lemma wrap64_id z : in_int64 z -> wrap64 z = z.
Proof. unfold in_int64, int64_min, int64_max, wrap64. intros H. rewrite Z.mod_small; lia. Qed.

Lemma wrap64_range z : in_int64 (wrap64 z).
Proof. unfold in_int64, int64_min, int64_max, wrap64. pose proof (Z.mod_pos_bound (z + 2 ^ 63) (2 ^ 64)). lia. Qed.

Lemma wrap64_add_l a b : wrap64 (wrap64 a + b) = wrap64 (a + b).
Proof.
  unfold wrap64. f_equal.
  replace ((a + 2 ^ 63) mod 2 ^ 64 - 2 ^ 63 + b + 2 ^ 63) with ((a + 2 ^ 63) mod 2 ^ 64 + b) by lia.
  rewrite Zplus_mod_idemp_l. f_equal. lia.
Qed.

Lemma wrap64_add_r a b : wrap64 (a + wrap64 b) = wrap64 (a + b).
Proof. rewrite (Z.add_comm a (wrap64 b)), wrap64_add_l. f_equal. lia. Qed.

#[export] Hint Resolve wrap64_range : csx.
Create Rewrite HintDb csx.
#[export] Hint Rewrite wrap64_add_l wrap64_add_r : csx.

(** ** Three-way comparators

    Go comparators return -1, 0 or 1.  [CmpOrder cmp] says that [cmp] is the
    sign of a total preorder, which is what [sort] needs of a comparison for
    its result to be ordered. *)

Class CmpOrder {A} (cmp : A -> A -> Z) : Prop := {
  cmp_range : forall x y, cmp x y = -1 \/ cmp x y = 0 \/ cmp x y = 1;
  cmp_antisym : forall x y, cmp y x = - cmp x y;
  cmp_trans : forall x y z, cmp x y <= 0 -> cmp y z <= 0 -> cmp x z <= 0
}.

Section cmp_laws.
  Context {A : Type} {cmp : A -> A -> Z} `{!CmpOrder cmp}.

Lemma cmp_refl x : cmp x x = 0.
  Proof. pose proof (cmp_antisym x x). lia. Qed.

Lemma cmp_eq_sym x y : cmp x y = 0 -> cmp y x = 0.
  Proof. pose proof (cmp_antisym x y). lia. Qed.

Lemma cmp_eq_l x y z : cmp x y = 0 -> cmp x z = cmp y z.
  Proof.
    intros E.
    pose proof (cmp_antisym x y). pose proof (cmp_antisym x z). pose proof (cmp_antisym y z).
    pose proof (cmp_trans x y z). pose proof (cmp_trans y x z).
    pose proof (cmp_trans z x y). pose proof (cmp_trans z y x).
    pose proof (cmp_range x z). pose proof (cmp_range y z). lia.
  Qed.

Lemma cmp_eq_r x y z : cmp y z = 0 -> cmp x y = cmp x z.
  Proof.
    intros E. pose proof (cmp_antisym x y). pose proof (cmp_antisym x z).
    rewrite (cmp_eq_l y z x E) in *. lia.
  Qed.

Lemma cmp_lt_le_trans x y z : cmp x y < 0 -> cmp y z <= 0 -> cmp x z < 0.
  Proof.
    intros H1 H2. pose proof (cmp_trans x y z (Z.lt_le_incl _ _ H1) H2).
    destruct (Z.eq_dec (cmp x z) 0) as [E|]; [|lia].
    pose proof (cmp_eq_l x z y E). pose proof (cmp_antisym z y). lia.
  Qed.

Lemma cmp_le_lt_trans x y z : cmp x y <= 0 -> cmp y z < 0 -> cmp x z < 0.
  Proof.
    intros H1 H2. pose proof (cmp_trans x y z H1 (Z.lt_le_incl _ _ H2)).
    destruct (Z.eq_dec (cmp x z) 0) as [E|]; [|lia].
    pose proof (cmp_eq_r y x z E). pose proof (cmp_antisym x y). lia.
  Qed.
End cmp_laws.

(** Comparators are built from these. *)

Definition cmp_Z (x y : Z) : Z :=
  if x <? y then -1 else if y <? x then 1 else 0.

Definition cmp_on {A B} (f : A -> B) (cmp : B -> B -> Z) (x y : A) : Z := cmp (f x) (f y).

Definition cmp_then {A} (c1 c2 : A -> A -> Z) (x y : A) : Z :=
  if c1 x y =? 0 then c2 x y else c1 x y.

Definition cmp_flip {A} (c : A -> A -> Z) (x y : A) : Z := c y x.

Fixpoint cmp_list {A} (c : A -> A -> Z) (xs ys : list A) : Z :=
  match xs, ys with
  | [], [] => 0
  | [], _ :: _ => -1
  | _ :: _, [] => 1
  | x :: xs', y :: ys' => if c x y =? 0 then cmp_list c xs' ys' else c x y
  end.

(** Instance search goes by the head of the comparator only. *)
#[global] Typeclasses Opaque cmp_Z cmp_on cmp_then cmp_flip cmp_list.

#[export] Instance cmp_Z_order : CmpOrder cmp_Z.
Proof. unfold cmp_Z. split; intros; split_all_ifs; bool_facts; lia. Qed.

Lemma cmp_Z_eq x y : cmp_Z x y = 0 -> x = y.
Proof. unfold cmp_Z. split_ifs; bool_facts; lia. Qed.

#[export] Instance cmp_on_order {A B} (f : A -> B) cmp `{!CmpOrder cmp} : CmpOrder (cmp_on f cmp).
Proof. unfold cmp_on. split; intros; [apply cmp_range | apply cmp_antisym | eauto using cmp_trans]. Qed.

#[export] Instance cmp_flip_order {A} (c : A -> A -> Z) `{!CmpOrder c} : CmpOrder (cmp_flip c).
Proof. unfold cmp_flip. split; intros; [apply cmp_range | apply cmp_antisym | eauto using cmp_trans]. Qed.

#[export] Instance cmp_then_order {A} (c1 c2 : A -> A -> Z) `{!CmpOrder c1, !CmpOrder c2} :
  CmpOrder (cmp_then c1 c2).
Proof.
  unfold cmp_then. split.
  - intros x y. split_ifs; apply cmp_range.
  - intros x y. rewrite (cmp_antisym (cmp := c1) x y), (cmp_antisym (cmp := c2) x y).
    split_ifs; bool_facts; lia.
  - intros x y z.
    destruct (Z.eqb_spec (c1 x y) 0) as [E1|N1]; destruct (Z.eqb_spec (c1 y z) 0) as [E2|N2];
      intros H1 H2.
    + rewrite (cmp_eq_l x y z E1), E2. simpl. eauto using cmp_trans.
    + rewrite (cmp_eq_l x y z E1). apply Z.eqb_neq in N2. rewrite N2. done.
    + rewrite <- (cmp_eq_r x y z E2). apply Z.eqb_neq in N1. rewrite N1. done.
    + assert (H1' : c1 x y < 0) by lia.
      pose proof (cmp_lt_le_trans x y z H1' H2). split_ifs; bool_facts; lia.
Qed.

#[export] Instance cmp_list_order {A} (c : A -> A -> Z) `{!CmpOrder c} : CmpOrder (cmp_list c).
Proof.
  split.
  - induction x as [|x xs IH]; intros [|y ys]; simpl; auto. split_ifs; auto using cmp_range.
  - induction x as [|x xs IH]; intros [|y ys]; simpl; try done.
    rewrite (cmp_antisym x y), (IH ys). split_ifs; bool_facts; lia.
  - induction x as [|x xs IH]; intros [|y ys] [|z zs]; simpl; try lia.
    destruct (Z.eqb_spec (c x y) 0) as [E1|N1]; destruct (Z.eqb_spec (c y z) 0) as [E2|N2];
      intros H1 H2.
    + rewrite (cmp_eq_l x y z E1), E2. simpl. eauto.
    + rewrite (cmp_eq_l x y z E1). apply Z.eqb_neq in N2. rewrite N2. done.
    + rewrite <- (cmp_eq_r x y z E2). apply Z.eqb_neq in N1. rewrite N1. done.
    + assert (H1' : c x y < 0) by lia.
      pose proof (cmp_lt_le_trans x y z H1' H2). split_ifs; bool_facts; lia.
Qed.

(** Lists of numbers compared index by index, the shorter one read as if
    followed by zeros. *)
Fixpoint pad_loop (n : nat) (xs ys : list Z) : Z :=
  match n with
  | O => 0
  | S n' => if negb (List.hd 0 xs =? List.hd 0 ys) then (if List.hd 0 xs <? List.hd 0 ys then -1 else 1)
            else pad_loop n' (List.tl xs) (List.tl ys)
  end.

Definition cmp_padded (xs ys : list Z) : Z := pad_loop (Nat.max (length xs) (length ys)) xs ys.

Definition zero_pad (n : nat) (xs : list Z) : list Z := take n xs ++ replicate (n - length xs) 0.

Lemma pad_S n xs : zero_pad (S n) xs = List.hd 0 xs :: zero_pad n (List.tl xs).
Proof. unfold zero_pad. by destruct xs as [|x xs]; [destruct n|]. Qed.

Lemma pad_loop_cmp n xs ys : pad_loop n xs ys = cmp_list cmp_Z (zero_pad n xs) (zero_pad n ys).
Proof.
  revert xs ys. induction n as [|n IH]; intros xs ys; [done|]. rewrite !pad_S. cbn. rewrite IH.
  generalize (List.hd 0 xs) as x, (List.hd 0 ys) as y. intros x y.
  assert (C : cmp_Z x y = if x =? y then 0 else if x <? y then -1 else 1)
    by (unfold cmp_Z; split_ifs; bool_facts; lia).
  rewrite C. by destruct (x =? y), (x <? y).
Qed.

(** Running the loop longer than the lists compares zeros. *)
Lemma pad_loop_more n m xs ys : (length xs <= n)%nat -> (length ys <= n)%nat -> pad_loop (n + m) xs ys = pad_loop n xs ys.
Proof.
  revert xs ys. induction n as [|n IH]; intros xs ys Hx Hy; cbn.
  - destruct xs, ys; cbn in *; try lia. clear. induction m as [|m IH]; [done|]. cbn. done.
  - rewrite IH; [done| |]; [destruct xs|destruct ys]; cbn in *; lia.
Qed.

Lemma cmp_padded_at n xs ys : (length xs <= n)%nat -> (length ys <= n)%nat ->
  cmp_padded xs ys = cmp_list cmp_Z (zero_pad n xs) (zero_pad n ys).
Proof.
  intros Hx Hy. unfold cmp_padded. set (k := Nat.max (length xs) (length ys)).
  rewrite <- pad_loop_cmp, <- (pad_loop_more k (n - k)) by (unfold k; lia).
  by replace (k + (n - k))%nat with n by (unfold k; lia).
Qed.

#[global] Typeclasses Opaque cmp_padded.

#[export] Instance cmp_padded_order : CmpOrder cmp_padded.
Proof.
  split.
  - intros x y. rewrite (cmp_padded_at _ x y (Nat.le_max_l _ _) (Nat.le_max_r _ _)). apply cmp_range.
  - intros x y. rewrite !(cmp_padded_at (length x + length y)) by lia. apply cmp_antisym.
  - intros x y z. rewrite !(cmp_padded_at (length x + length y + length z)) by lia. apply cmp_trans.
Qed.

(** A comparator that agrees pointwise with an ordered one is ordered. *)
Lemma cmp_order_ext {A} (c1 c2 : A -> A -> Z) :
  (forall x y, c1 x y = c2 x y) -> CmpOrder c2 -> CmpOrder c1.
Proof.
  intros E [R S T]. split; intros *; rewrite !E; eauto.
Qed.
