(* ===== verification/GoStrings.v ===== *)
(** * The byte-level part of Go's [strings] package

    A Go string is a sequence of bytes; [string] (a list of 8-bit [ascii])
    is the same thing.  This file holds the functions of package [strings]
    the program calls that look at bytes, or at the fixed set of Unicode
    spaces, with the laws the components use.  The functions that need the
    Unicode case tables are in [GoUnicode]. *)

From S2P Require Import Prelude.

#[global] Open Scope string_scope.
#[global] Open Scope Z_scope.

(** ** Bytes *)

Definition bv (c : ascii) : Z := Z.of_N (N_of_ascii c).
Definition chr (z : Z) : ascii := ascii_of_N (Z.to_N z).

Lemma bv_range c : 0 <= bv c < 256.
Proof. unfold bv. pose proof (N_ascii_bounded c). lia. Qed.

Lemma bv_inj c d : bv c = bv d -> c = d.
Proof.
  unfold bv. intros H. apply N2Z.inj in H.
  rewrite <- (ascii_N_embedding c), <- (ascii_N_embedding d). congruence.
Qed.

Lemma bv_chr z : 0 <= z < 256 -> bv (chr z) = z.
Proof. intros H. unfold bv, chr. rewrite N_ascii_embedding; lia. Qed.

Lemma chr_bv c : chr (bv c) = c.
Proof. unfold bv, chr. rewrite N2Z.id. apply ascii_N_embedding. Qed.

Definition is_digit (c : ascii) : bool := (48 <=? bv c) && (bv c <=? 57).
Definition is_lower (c : ascii) : bool := (97 <=? bv c) && (bv c <=? 122).
Definition is_upper (c : ascii) : bool := (65 <=? bv c) && (bv c <=? 90).
Definition is_ascii_byte (c : ascii) : bool := bv c <? 128.

(** [str_forall p s]: every byte of [s] satisfies [p]. *)
Fixpoint str_forall (p : ascii -> bool) (s : string) : bool :=
  match s with
  | "" => true
  | String c s' => p c && str_forall p s'
  end.

Definition str_exists (p : ascii -> bool) (s : string) : bool := negb (str_forall (fun c => negb (p c)) s).

Fixpoint str_map (f : ascii -> ascii) (s : string) : string :=
  match s with "" => "" | String c s' => String (f c) (str_map f s') end.

Definition str_len (s : string) : Z := Z.of_nat (String.length s).

Definition single (c : ascii) : string := String c "".

(** ** Slicing: [s[:n]] and [s[n:]] *)

Fixpoint str_take (n : nat) (s : string) : string :=
  match n, s with
  | S n', String c s' => String c (str_take n' s')
  | _, _ => ""
  end.

Fixpoint str_drop (n : nat) (s : string) : string :=
  match n, s with
  | S n', String _ s' => str_drop n' s'
  | _, _ => s
  end.

(** ** Prefixes and suffixes *)

Fixpoint HasPrefix (s p : string) {struct p} : bool :=
  match p, s with
  | "", _ => true
  | String a p', String b s' => Ascii.eqb a b && HasPrefix s' p'
  | String _ _, "" => false
  end.

(** [strings.CutPrefix]: the rest, when [p] is a prefix. *)
Fixpoint CutPrefix (s p : string) {struct p} : option string :=
  match p, s with
  | "", _ => Some s
  | String a p', String b s' => if Ascii.eqb a b then CutPrefix s' p' else None
  | String _ _, "" => None
  end.

Definition TrimPrefix (s p : string) : string :=
  match CutPrefix s p with Some r => r | None => s end.

Fixpoint HasSuffix (s p : string) : bool :=
  String.eqb s p || match s with "" => false | String _ s' => HasSuffix s' p end.

Definition TrimSuffix (s p : string) : string :=
  if HasSuffix s p then str_take (String.length s - String.length p) s else s.

(** ** Searching *)

Fixpoint Contains (s sub : string) : bool :=
  HasPrefix s sub || match s with "" => false | String _ s' => Contains s' sub end.

(** [strings.Index]; [None] is Go's [-1]. *)
Fixpoint Index (s sub : string) : option nat :=
  if HasPrefix s sub then Some O
  else match s with "" => None | String _ s' => option_map S (Index s' sub) end.

(** [strings.IndexByte] and friends. *)
Fixpoint index_by (p : ascii -> bool) (s : string) : option nat :=
  match s with
  | "" => None
  | String c s' => if p c then Some O else option_map S (index_by p s')
  end.

Fixpoint last_index_by (p : ascii -> bool) (s : string) : option nat :=
  match s with
  | "" => None
  | String c s' =>
      match last_index_by p s' with
      | Some i => Some (S i)
      | None => if p c then Some O else None
      end
  end.

Definition IndexByte (s : string) (c : ascii) : option nat := index_by (Ascii.eqb c) s.
Definition LastIndexByte (s : string) (c : ascii) : option nat := last_index_by (Ascii.eqb c) s.

(** Membership of a byte in a cutset (all cutsets of the program are ASCII). *)
Fixpoint in_set (set : string) (c : ascii) : bool :=
  match set with "" => false | String a set' => Ascii.eqb a c || in_set set' c end.

Definition IndexAny (s set : string) : option nat := index_by (in_set set) s.
Definition LastIndexAny (s set : string) : option nat := last_index_by (in_set set) s.
Definition ContainsAny (s set : string) : bool := match IndexAny s set with Some _ => true | None => false end.

(** [strings.Cut] with a one-byte separator. *)
Fixpoint Cut (s : string) (c : ascii) : string * string * bool :=
  match s with
  | "" => ("", "", false)
  | String a s' =>
      if Ascii.eqb a c then ("", s', true)
      else let '(b, r, ok) := Cut s' c in (String a b, r, ok)
  end.

(** ** Splitting and joining *)

(** [strings.Split] with a one-byte separator: head and tail of the list,
    which is never empty. *)
Fixpoint split_ne (c : ascii) (s : string) : string * list string :=
  match s with
  | "" => ("", [])
  | String a s' =>
      let '(h, t) := split_ne c s' in
      if Ascii.eqb a c then ("", h :: t) else (String a h, t)
  end.

Definition Split (s : string) (c : ascii) : list string :=
  let '(h, t) := split_ne c s in h :: t.

Fixpoint Join (ws : list string) (sep : string) : string :=
  match ws with
  | [] => ""
  | [w] => w
  | w :: ws' => w +:+ sep +:+ Join ws' sep
  end.

(** [strings.SplitN(s, sep, n)] for [n > 0]: at most [n] pieces, the last
    one unsplit. *)
Fixpoint SplitN (n : nat) (s : string) (c : ascii) : list string :=
  match n with
  | O => []
  | S O => [s]
  | S n' => match Cut s c with
            | (b, r, true) => b :: SplitN n' r c
            | (_, _, false) => [s]
            end
  end.

(** [strings.ReplaceAll(s, c, "")] for a one-byte [c]. *)
Fixpoint remove_byte (c : ascii) (s : string) : string :=
  match s with
  | "" => ""
  | String a s' => if Ascii.eqb a c then remove_byte c s' else String a (remove_byte c s')
  end.

Fixpoint TrimLeftSet (s set : string) : string :=
  match s with
  | "" => ""
  | String a s' => if in_set set a then TrimLeftSet s' set else s
  end.

Fixpoint TrimRightSet (s set : string) : string :=
  match s with
  | "" => ""
  | String a s' => if str_forall (in_set set) s then "" else String a (TrimRightSet s' set)
  end.

Definition TrimSet (s set : string) : string := TrimRightSet (TrimLeftSet s set) set.

(** ** Unicode white space

    [space_len s] is the byte length of the white-space rune at the front of
    [s], 0 when there is none: [unicode.IsSpace] holds for the ASCII spaces,
    U+0085, U+00A0, U+1680, U+2000..U+200A, U+2028, U+2029, U+202F, U+205F
    and U+3000.  Their UTF-8 encodings start with a byte that is never a
    continuation byte, so they are found at the same places whichever
    direction the string is decoded in. *)

Definition space_len (s : string) : nat :=
  match s with
  | "" => 0%nat
  | String a s1 =>
      let x := bv a in
      if (x =? 32) || ((9 <=? x) && (x <=? 13)) then 1%nat
      else match s1 with
      | "" => 0%nat
      | String b s2 =>
          let y := bv b in
          if (x =? 194) && ((y =? 133) || (y =? 160)) then 2%nat
          else match s2 with
          | "" => 0%nat
          | String c _ =>
              let z := bv c in
              if ((x =? 225) && (y =? 154) && (z =? 128))
                 || ((x =? 226) && (y =? 128) &&
                     (((128 <=? z) && (z <=? 138)) || (z =? 168) || (z =? 169) || (z =? 175)))
                 || ((x =? 226) && (y =? 129) && (z =? 159))
                 || ((x =? 227) && (y =? 128) && (z =? 128))
              then 3%nat else 0%nat
          end
      end
  end.

(** [k] counts the bytes still to skip of the space being removed. *)
Fixpoint trim_left_skip (k : nat) (s : string) : string :=
  match s with
  | "" => ""
  | String _ s' =>
      match k with
      | S k' => trim_left_skip k' s'
      | O => match space_len s with
             | O => s
             | S k' => trim_left_skip k' s'
             end
      end
  end.

Definition TrimLeftSpace (s : string) : string := trim_left_skip 0 s.

Fixpoint TrimRightSpace (s : string) : string :=
  match s with
  | "" => ""
  | String a s' => if String.eqb (TrimLeftSpace s) "" then "" else String a (TrimRightSpace s')
  end.

Definition TrimSpace (s : string) : string := TrimRightSpace (TrimLeftSpace s).

Definition push (w : string) (ws : list string) : list string :=
  if String.eqb w "" then ws else w :: ws.

(** The word that starts here (empty at a space) and the fields after it. *)
Fixpoint fields_go (k : nat) (s : string) : string * list string :=
  match s with
  | "" => ("", [])
  | String a s' =>
      match k with
      | S k' => let '(w, ws) := fields_go k' s' in ("", push w ws)
      | O => match space_len s with
             | O => let '(w, ws) := fields_go 0 s' in (String a w, ws)
             | S k' => let '(w, ws) := fields_go k' s' in ("", push w ws)
             end
      end
  end.

(** [strings.Fields]. *)
Definition Fields (s : string) : list string :=
  let '(w, ws) := fields_go 0 s in push w ws.

(** [strings.FieldsFunc] with the complement of [keep], for a [keep] that
    holds of ASCII bytes only: every byte of any other rune separates. *)
Fixpoint fields_by_go (keep : ascii -> bool) (s : string) : string * list string :=
  match s with
  | "" => ("", [])
  | String c s' =>
      let '(w, ws) := fields_by_go keep s' in
      if keep c then (String c w, ws) else ("", push w ws)
  end.

Definition fields_by (keep : ascii -> bool) (s : string) : list string :=
  let '(w, ws) := fields_by_go keep s in push w ws.

(** No white space starts anywhere in [s]. *)
Fixpoint space_free (s : string) : bool :=
  match s with
  | "" => true
  | String _ s' => Nat.eqb (space_len s) 0 && space_free s'
  end.

(** A word: what [Fields] returns. *)
Definition is_word (s : string) : bool := negb (String.eqb s "") && space_free s.

(** Membership in a literal list of strings: a [switch] over strings, or a
    lookup in a map from strings to true. *)
Definition str_in (s : string) (l : list string) : bool := existsb (String.eqb s) l.
#[global] Arguments str_in _ _ : simpl never.

(** ** Byte order: Go's [<] on strings *)

Fixpoint str_cmp (a b : string) : Z :=
  match a, b with
  | "", "" => 0
  | "", String _ _ => -1
  | String _ _, "" => 1
  | String x a', String y b' =>
      if bv x <? bv y then -1 else if bv y <? bv x then 1 else str_cmp a' b'
  end.

Definition str_lt (a b : string) : bool := str_cmp a b <? 0.

Example Fields_example : Fields "  git   status --short " = ["git"; "status"; "--short"].
Proof. reflexivity. Qed.
Example TrimSpace_example : TrimSpace (String (chr 194) (String (chr 160) " a b ")) = "a b".
Proof. reflexivity. Qed.
