(* ===== verification/GoStd.v ===== *)
(** * Integers as text, URL escaping, sorting, and map iteration

    The parts of [strconv], [net/url] and [sort] the program calls.  Sorting
    and map iteration are interfaces: [sort.Slice] promises an ordered
    permutation and no more (it is not stable), and a [range] over a map
    visits the entries in an unspecified order.  Theorems about code that
    uses them are proved for every implementation of the interface; the
    instances below make the definitions executable. *)

From S2P Require Import Prelude GoStrings GoUnicode.

(** ** strconv *)

(** The value of a string of decimal digits; [None] when a byte is not one. *)
Fixpoint digits_value (acc : Z) (s : string) : option Z :=
  match s with
  | "" => Some acc
  | String c s' => if is_digit c then digits_value (acc * 10 + (bv c - 48)) s' else None
  end.

(** [strconv.Atoi]: the value and whether the error is nil.  A syntax error
    gives 0, an out-of-range number the nearest [int]. *)
Definition Atoi (s : string) : Z * bool :=
  let '(neg, ds) := match s with
    | String c s' => if Ascii.eqb c "-" then (true, s')
                     else if Ascii.eqb c "+" then (false, s') else (false, s)
    | "" => (false, s)
    end in
  if String.eqb ds "" then (0, false)
  else match digits_value 0 ds with
  | None => (0, false)
  | Some v =>
      let n := if neg then - v else v in
      if int64_max <? n then (int64_max, false)
      else if n <? int64_min then (int64_min, false)
      else (n, true)
  end.

(** Decimal rendering ([strconv.Itoa], the [%d] verb). *)
Fixpoint dec_digits (fuel : nat) (n : Z) (acc : string) : string :=
  match fuel with
  | O => acc
  | S fuel' =>
      let acc' := String (chr (48 + n mod 10)) acc in
      if n <? 10 then acc' else dec_digits fuel' (n / 10) acc'
  end.

(** 20 digits hold every 64-bit value. *)
Definition Itoa (n : Z) : string :=
  if n <? 0 then String "-" (dec_digits 20 (- n) "") else dec_digits 20 n "".

(** ** net/url *)

Definition ishex (c : ascii) : bool :=
  is_digit c || ((97 <=? bv c) && (bv c <=? 102)) || ((65 <=? bv c) && (bv c <=? 70)).

Definition unhex (c : ascii) : Z :=
  if is_digit c then bv c - 48
  else if (97 <=? bv c) && (bv c <=? 102) then bv c - 97 + 10
  else if (65 <=? bv c) && (bv c <=? 70) then bv c - 65 + 10 else 0.

(** [plus] is true for [QueryUnescape], where '+' is a space. *)
Fixpoint url_unescape (plus : bool) (s : string) : option string :=
  match s with
  | "" => Some ""
  | String c s' =>
      if Ascii.eqb c "%" then
        match s' with
        | String h1 (String h2 r) =>
            if ishex h1 && ishex h2
            then option_map (String (chr (unhex h1 * 16 + unhex h2))) (url_unescape plus r)
            else None
        | _ => None
        end
      else
        let c' := if plus && Ascii.eqb c "+" then " "%char else c in
        option_map (String c') (url_unescape plus s')
  end.

Definition PathUnescape (s : string) : option string := url_unescape false s.
Definition QueryUnescape (s : string) : option string := url_unescape true s.

Definition is_alnum (c : ascii) : bool := is_digit c || is_lower c || is_upper c.

(** [shouldEscape(c, encodePathSegment)]. *)
Definition escape_path_segment (c : ascii) : bool :=
  negb (is_alnum c || in_set "-_.~$&+:=@" c).

Definition upperhex (z : Z) : ascii := if z <? 10 then chr (48 + z) else chr (55 + z).

Definition pct (c : ascii) : string :=
  String "%" (String (upperhex (bv c / 16)) (single (upperhex (bv c mod 16)))).

Fixpoint escape_by (p : ascii -> bool) (s : string) : string :=
  match s with
  | "" => ""
  | String c s' => (if p c then pct c else single c) +:+ escape_by p s'
  end.

Definition PathEscape (s : string) : string := escape_by escape_path_segment s.

(** [url.ParseQuery]: the decoded pairs in order, [None] on any error.  The
    library refuses queries with more than 10000 parameters. *)
Definition max_query_params : Z := 10000.

Fixpoint parse_pairs (kvs : list string) : option (list (string * string)) :=
  match kvs with
  | [] => Some []
  | kv :: rest =>
      if Contains kv ";" then None
      else if String.eqb kv "" then parse_pairs rest
      else
        let '(k, v, _) := Cut kv "=" in
        match QueryUnescape k, QueryUnescape v, parse_pairs rest with
        | Some k', Some v', Some ps => Some ((k', v') :: ps)
        | _, _, _ => None
        end
  end.

Definition ParseQuery (q : string) : option (list (string * string)) :=
  if String.eqb q "" then Some []
  else
    let kvs := Split q "&" in
    if max_query_params <? Z.of_nat (length kvs) then None else parse_pairs kvs.

(** [values[k]] and [values.Get(k)]. *)
Definition query_values (ps : list (string * string)) (k : string) : list string :=
  map snd (List.filter (fun p => String.eqb (fst p) k) ps).

Definition query_get (ps : list (string * string)) (k : string) : string :=
  match query_values ps k with [] => "" | v :: _ => v end.

(** ** sort *)

(** [less] is the strict part of the total preorder [cmp]. *)
Definition less_of {A} (cmp : A -> A -> Z) (less : A -> A -> bool) : Prop :=
  CmpOrder cmp /\ forall a b, less a b = (cmp a b <? 0).

(** A slice is sorted whenever [less] agrees with some total preorder on the
    elements of that slice; ties come out in any order. *)
Class GoSort := {
  sort_slice : forall {A : Type}, (A -> A -> bool) -> list A -> list A;
  sort_slice_perm : forall A (less : A -> A -> bool) l, Permutation l (sort_slice less l);
  sort_slice_sorted_on : forall A (less : A -> A -> bool) cmp l, CmpOrder cmp ->
    (forall a b, In a l -> In b l -> less a b = (cmp a b <? 0)) ->
    StronglySorted (fun a b => cmp a b <= 0) (sort_slice less l)
}.

Lemma sort_slice_sorted {GS : GoSort} A (less : A -> A -> bool) cmp l : less_of cmp less ->
  StronglySorted (fun a b => cmp a b <= 0) (sort_slice less l).
Proof. intros [O H]. apply sort_slice_sorted_on; auto. Qed.

Fixpoint insert_by {A} (less : A -> A -> bool) (x : A) (l : list A) : list A :=
  match l with
  | [] => [x]
  | y :: l' => if less x y then x :: l else y :: insert_by less x l'
  end.

(** Insertion sort, which is what the library runs on short slices. *)
Definition insertion_sort {A} (less : A -> A -> bool) (l : list A) : list A :=
  fold_left (fun acc x => insert_by less x acc) l [].

(** [sort.Strings]: the order is total, so every correct sort agrees. *)
Definition sort_strings (l : list string) : list string := insertion_sort str_lt l.

(** ** Iteration over a map

    [range_order] lists the entries of a map in the order one particular
    [range] statement visits them. *)
Class GoMapRange := {
  range_order : forall {A : Type}, list A -> list A;
  range_order_perm : forall A (l : list A), Permutation l (range_order l)
}.

Definition range_in_order : GoMapRange :=
  {| range_order := fun A l => l; range_order_perm := fun A l => Permutation_refl l |}.

(** ** Time

    Instants are integers, on whatever scale; [time_zero] is the zero
    [time.Time].  The functions are [time.Parse(time.RFC3339, _)], the zero
    time on error, and the RFC 3339 rendering of an instant in UTC. *)
Class GoTime := {
  time_zero : Z;
  time_Parse : string -> Z;
  time_Format : Z -> string
}.

(** ** Insertion sort implements the interface *)

Section insertion_sort_correct.
  Context {A : Type} (less : A -> A -> bool).

Lemma insert_by_perm x l : Permutation (x :: l) (insert_by less x l).
  Proof.
    induction l as [|y l IH]; simpl; [done|].
    destruct (less x y); [done|]. rewrite perm_swap. by apply perm_skip.
  Qed.

Lemma insertion_fold_perm l acc :
    Permutation (l ++ acc) (fold_left (fun acc x => insert_by less x acc) l acc).
  Proof.
    revert acc. induction l as [|x l IH]; intros acc; simpl; [done|].
    rewrite <- IH, <- insert_by_perm. apply Permutation_middle.
  Qed.

Lemma insertion_sort_perm l : Permutation l (insertion_sort less l).
  Proof. unfold insertion_sort. rewrite <- insertion_fold_perm. by rewrite app_nil_r. Qed.

  Context (cmp : A -> A -> Z) (Hless : less_of cmp less).

Lemma insert_by_sorted x l :
    StronglySorted (fun a b => cmp a b <= 0) l ->
    StronglySorted (fun a b => cmp a b <= 0) (insert_by less x l).
  Proof using Hless.
    destruct Hless as [Ho Hl].
    induction 1 as [|y l Hs IH Hf]; simpl; [repeat constructor|].
    rewrite Hl. destruct (Z.ltb_spec (cmp x y) 0) as [Hlt|Hge].
    - constructor; [by constructor|]. constructor; [lia|].
      eapply List.Forall_impl; [|exact Hf]. simpl. intros a Ha. eapply cmp_trans; [|done]. lia.
    - constructor; [done|]. eapply Permutation_Forall; [apply insert_by_perm|].
      constructor; [|done]. pose proof (cmp_antisym x y). lia.
  Qed.

Lemma insertion_sort_sorted l :
    StronglySorted (fun a b => cmp a b <= 0) (insertion_sort less l).
  Proof using Hless.
    unfold insertion_sort. assert (H : StronglySorted (fun a b => cmp a b <= 0) []) by constructor.
    revert H. generalize (@nil A). induction l as [|x l IH]; intros acc Hacc; simpl; [done|].
    apply IH. by apply insert_by_sorted.
  Qed.
End insertion_sort_correct.

Lemma insert_by_ext {A} (f g : A -> A -> bool) x l : (forall y, In y l -> f x y = g x y) ->
  insert_by f x l = insert_by g x l.
Proof.
  induction l as [|y l IH]; intros H; [done|]. simpl. rewrite H by by left. rewrite IH; [done|].
  intros z Hz. apply H. by right.
Qed.

Lemma insertion_sort_ext {A} (f g : A -> A -> bool) l : (forall x y, In x l -> In y l -> f x y = g x y) ->
  insertion_sort f l = insertion_sort g l.
Proof.
  unfold insertion_sort. intros H.
  assert (G : forall k acc, (forall x, In x k \/ In x acc -> In x l) ->
    fold_left (fun acc x => insert_by f x acc) k acc = fold_left (fun acc x => insert_by g x acc) k acc).
  { induction k as [|x k IH]; intros acc S; [done|]. simpl. rewrite (insert_by_ext f g).
    - apply IH. intros y [Hy|Hy]; [apply S; left; by right|].
      apply (Permutation_in (l' := x :: acc)) in Hy; [|symmetry; apply insert_by_perm].
      destruct Hy as [<-|Hy]; [apply S; left; by left|apply S; by right].
    - intros y Hy. apply H; apply S; [left; by left|by right]. }
  apply G. intros x [Hx|[]]. done.
Qed.

Definition sort_by_insertion : GoSort.
Proof.
  refine {| sort_slice := @insertion_sort; sort_slice_perm := @insertion_sort_perm |}.
  intros A less cmp l O H. rewrite (insertion_sort_ext less (fun a b => cmp a b <? 0)) by done.
  by apply insertion_sort_sorted.
Defined.
