(* ===== verification/StringFacts.v ===== *)
(** * Laws of the string functions

    Concatenation, prefixes, splitting, byte order, white space and ASCII
    case: the lemmas the components' proofs are made of. *)

From S2P Require Import Prelude GoStrings GoUnicode GoStd.

(** ** Concatenation and length *)

Lemma str_app_assoc a b c : (a +:+ b) +:+ c = a +:+ (b +:+ c).
Proof. induction a as [|x a IH]; simpl; [done|]. by rewrite IH. Qed.

Lemma str_app_nil_r a : a +:+ "" = a.
Proof. induction a as [|x a IH]; simpl; [done|]. by rewrite IH. Qed.

Lemma str_len_app a b : String.length (a +:+ b) = (String.length a + String.length b)%nat.
Proof. induction a as [|x a IH]; simpl; [done|]. by rewrite IH. Qed.

Lemma str_app_eq_nil a b : a +:+ b = "" -> a = "" /\ b = "".
Proof. destruct a; simpl; [done|discriminate]. Qed.

Lemma str_app_single_l c s : single c +:+ s = String c s.
Proof. done. Qed.

Lemma str_take_app a b : str_take (String.length a) (a +:+ b) = a.
Proof. induction a as [|x a IH]; simpl; [by destruct b|]. by rewrite IH. Qed.

Lemma str_drop_app a b : str_drop (String.length a) (a +:+ b) = b.
Proof. induction a as [|x a IH]; simpl; [by destruct b|]. done. Qed.

Lemma str_drop_app_S a c b : str_drop (S (String.length a)) (a +:+ String c b) = b.
Proof. induction a as [|x a IH]; simpl in *; [by destruct b|done]. Qed.

Lemma str_take_drop n s : str_take n s +:+ str_drop n s = s.
Proof.
  revert s. induction n as [|n IH]; intros [|c s]; simpl; try done. by rewrite IH.
Qed.

Lemma str_drop_length n s : String.length (str_drop n s) = (String.length s - n)%nat.
Proof. revert s. induction n as [|n IH]; intros [|c s]; simpl; auto. Qed.

#[export] Hint Rewrite str_app_assoc str_app_nil_r str_take_app str_drop_app str_drop_app_S : csx.

(** ** Byte predicates *)

Lemma str_forall_app p a b : str_forall p (a +:+ b) = str_forall p a && str_forall p b.
Proof. induction a as [|x a IH]; simpl; [done|]. rewrite IH. by destruct (p x). Qed.

Lemma str_forall_impl (p q : ascii -> bool) s :
  (forall c, p c = true -> q c = true) -> str_forall p s = true -> str_forall q s = true.
Proof.
  intros H. induction s as [|c s IH]; simpl; [done|].
  intros [? ?]%andb_true_iff. rewrite H, IH; auto.
Qed.

Lemma str_forall_take p n s : str_forall p s = true -> str_forall p (str_take n s) = true.
Proof.
  revert s. induction n as [|n IH]; intros [|c s]; simpl; try done.
  intros [-> ?]%andb_true_iff. simpl. auto.
Qed.

Lemma str_forall_drop p n s : str_forall p s = true -> str_forall p (str_drop n s) = true.
Proof.
  revert s. induction n as [|n IH]; intros [|c s]; simpl; try done.
  intros [? ?]%andb_true_iff. auto.
Qed.

(** [lacks c s]: the byte [c] does not occur in [s]. *)
Definition lacks (c : ascii) (s : string) : bool := str_forall (fun a => negb (Ascii.eqb a c)) s.

Lemma lacks_app c a b : lacks c (a +:+ b) = lacks c a && lacks c b.
Proof. apply str_forall_app. Qed.

Lemma lacks_of_forall p c s :
  p c = false -> str_forall p s = true -> lacks c s = true.
Proof.
  intros Hc. apply str_forall_impl. intros a Ha.
  destruct (Ascii.eqb_spec a c); [congruence|done].
Qed.

(** ** Prefixes *)

Lemma HasPrefix_app p r : HasPrefix (p +:+ r) p = true.
Proof. induction p as [|c p IH]; simpl; [done|]. by rewrite Ascii.eqb_refl. Qed.

Lemma CutPrefix_app p r : CutPrefix (p +:+ r) p = Some r.
Proof. induction p as [|c p IH]; simpl; [done|]. by rewrite Ascii.eqb_refl. Qed.

Lemma CutPrefix_Some s p r : CutPrefix s p = Some r <-> s = p +:+ r.
Proof.
  split; [|intros ->; apply CutPrefix_app].
  revert s. induction p as [|c p IH]; intros [|d s]; simpl; try congruence.
  destruct (Ascii.eqb_spec c d) as [->|]; [|discriminate]. intros H%IH. by subst.
Qed.

Lemma HasPrefix_CutPrefix s p : HasPrefix s p = true <-> exists r, CutPrefix s p = Some r.
Proof.
  revert s. induction p as [|c p IH]; intros [|d s]; simpl.
  1-2: split; [eauto|done].
  - split; [done|]. by intros [r ?].
  - destruct (Ascii.eqb_spec c d); simpl; [apply IH|]. split; [done|]. by intros [r ?].
Qed.

Lemma HasPrefix_spec s p : HasPrefix s p = true <-> exists r, s = p +:+ r.
Proof.
  rewrite HasPrefix_CutPrefix. split; intros [r H]; exists r; by apply CutPrefix_Some.
Qed.

(** ** Cut and LastIndex *)

Lemma Cut_app a c r : lacks c a = true -> Cut (a +:+ String c r) c = (a, r, true).
Proof.
  induction a as [|x a IH]; simpl; [by rewrite Ascii.eqb_refl|].
  intros [Hx Ha]%andb_true_iff. apply negb_true_iff in Hx. by rewrite Hx, IH.
Qed.

Lemma Cut_none s c : lacks c s = true -> Cut s c = (s, "", false).
Proof.
  induction s as [|x a IH]; simpl; [done|].
  intros [Hx Ha]%andb_true_iff. apply negb_true_iff in Hx. by rewrite Hx, IH.
Qed.

Lemma Cut_spec s c b r ok : Cut s c = (b, r, ok) ->
  lacks c b = true /\ if ok then s = b +:+ String c r else s = b /\ r = "".
Proof.
  revert b r ok. induction s as [|a s IH]; simpl; intros b r ok.
  - intros [= <- <- <-]. done.
  - destruct (Ascii.eqb_spec a c) as [->|Hne].
    + intros [= <- <- <-]. done.
    + destruct (Cut s c) as [[b' r'] ok'] eqn:E. intros [= <- <- <-].
      destruct (IH _ _ _ eq_refl) as [Hl Hs]. simpl.
      apply Ascii.eqb_neq in Hne. unfold lacks in *. simpl. rewrite Hne. simpl. split; [done|].
      destruct ok'; simpl; [by subst|]. destruct Hs as [-> ->]. done.
Qed.

Lemma last_index_by_none p s :
  str_forall (fun a => negb (p a)) s = true -> last_index_by p s = None.
Proof.
  induction s as [|x s IH]; simpl; [done|].
  intros [Hx Hs]%andb_true_iff. rewrite (IH Hs). by apply negb_true_iff in Hx as ->.
Qed.

Lemma last_index_by_app p a c b :
  p c = true -> str_forall (fun x => negb (p x)) b = true ->
  last_index_by p (a +:+ String c b) = Some (String.length a).
Proof.
  intros Hc Hb. induction a as [|x a IH]; simpl.
  - by rewrite last_index_by_none, Hc.
  - by rewrite IH.
Qed.

Lemma last_index_by_Some p s i : last_index_by p s = Some i ->
  exists c, s = str_take i s +:+ String c (str_drop (S i) s) /\ p c = true
    /\ str_forall (fun x => negb (p x)) (str_drop (S i) s) = true /\ (i < String.length s)%nat.
Proof.
  revert i. induction s as [|x s IH]; simpl; [done|]. intros i.
  destruct (last_index_by p s) as [j|] eqn:E.
  - intros [= <-]. destruct (IH j eq_refl) as (c & Hs & Hc & Hf & Hlt).
    exists c. simpl. repeat split; try done; [|lia]. f_equal. done.
  - destruct (p x) eqn:Hx; [|done]. intros [= <-]. exists x. simpl.
    assert (str_forall (fun y => negb (p y)) s = true) as Hf.
    { clear IH. revert E. induction s as [|y s IH]; simpl; [done|].
      destruct (last_index_by p s); [done|]. destruct (p y); [done|]. intros. simpl. auto. }
    repeat split; destruct s; simpl in *; try done; lia.
Qed.

Lemma LastIndexByte_app a c b : lacks c b = true ->
  LastIndexByte (a +:+ String c b) c = Some (String.length a).
Proof.
  intros H. apply last_index_by_app; [apply Ascii.eqb_refl|].
  eapply str_forall_impl; [|exact H]. simpl. intros x. by rewrite Ascii.eqb_sym.
Qed.

Lemma LastIndexByte_Some s c i : LastIndexByte s c = Some i ->
  s = str_take i s +:+ String c (str_drop (S i) s)
  /\ lacks c (str_drop (S i) s) = true /\ (i < String.length s)%nat.
Proof.
  intros H. destruct (last_index_by_Some _ _ _ H) as (d & Hs & Hd & Hf & Hlt).
  apply Ascii.eqb_eq in Hd as <-. repeat split; try done.
  eapply str_forall_impl; [|exact Hf]. simpl. intros x. by rewrite Ascii.eqb_sym.
Qed.

(** ** Byte order *)

#[export] Instance str_cmp_order : CmpOrder str_cmp.
Proof.
  split.
  - induction x as [|a x IH]; intros [|b y]; simpl; auto. split_ifs; auto.
  - induction x as [|a x IH]; intros [|b y]; simpl; try done.
    rewrite (IH y). split_ifs; bool_facts; lia.
  - induction x as [|a x IH]; intros [|b y] [|c z]; simpl; try lia.
    split_ifs; bool_facts; try lia. intros. eapply IH; eassumption.
Qed.

Lemma str_cmp_eq a b : str_cmp a b = 0 -> a = b.
Proof.
  revert b. induction a as [|x a IH]; intros [|y b]; simpl; try done.
  split_ifs; try done. bool_facts. intros H. f_equal; [apply bv_inj; lia|auto].
Qed.

Lemma str_lt_less : less_of str_cmp str_lt.
Proof. split; [apply _|done]. Qed.

#[export] Hint Resolve str_cmp_eq str_lt_less : csx.

(** ** Index *)

Lemma index_by_app p a b : index_by p (a +:+ b) =
  match index_by p a with
  | Some i => Some i
  | None => option_map (Nat.add (String.length a)) (index_by p b)
  end.
Proof.
  induction a as [|x a IH]; simpl; [by destruct (index_by p b)|].
  destruct (p x); [done|]. rewrite IH. destruct (index_by p a); [done|]. by destruct (index_by p b).
Qed.

Lemma index_by_none p s : index_by p s = None <-> str_forall (fun c => negb (p c)) s = true.
Proof.
  induction s as [|c s IH]; simpl; [done|]. destruct (p c); simpl; [done|].
  rewrite <- IH. by destruct (index_by p s).
Qed.

Lemma index_by_Some p s i : index_by p s = Some i ->
  str_forall (fun c => negb (p c)) (str_take i s) = true
  /\ exists c, s = str_take i s +:+ String c (str_drop (S i) s) /\ p c = true.
Proof.
  revert i. induction s as [|c s IH]; simpl; [done|]. intros i.
  destruct (p c) eqn:Hc.
  - intros [= <-]. simpl. split; [done|]. exists c. by destruct s.
  - destruct (index_by p s) as [j|]; [|done]. intros [= <-]. simpl.
    destruct (IH j eq_refl) as [H1 (d & H2 & H3)]. rewrite Hc. simpl.
    split; [done|]. exists d. split; [|done]. f_equal. exact H2.
Qed.

Lemma index_by_lt p s i : index_by p s = Some i -> (i < String.length s)%nat.
Proof.
  revert i. induction s as [|c s IH]; simpl; [done|]. intros i.
  destruct (p c); [intros [= <-]; lia|]. destruct (index_by p s) as [j|]; [|done].
  intros [= <-]. specialize (IH j eq_refl). lia.
Qed.

Lemma str_take_app_lt n a b : (n <= String.length a)%nat -> str_take n (a +:+ b) = str_take n a.
Proof.
  revert a. induction n as [|n IH]; intros [|x a] H; simpl in *; try done; try lia.
  rewrite IH by lia. done.
Qed.

Lemma str_drop_app_lt n a b : (n <= String.length a)%nat -> str_drop n (a +:+ b) = str_drop n a +:+ b.
Proof.
  revert a. induction n as [|n IH]; intros [|x a] H; simpl in *; try lia; try (by destruct b); try done.
  by apply IH; lia.
Qed.

Lemma str_take_all s : str_take (String.length s) s = s.
Proof. rewrite <- (str_app_nil_r s) at 2. apply str_take_app. Qed.

(** ** White space *)

Definition ascii_space (c : ascii) : bool := (bv c =? 32) || ((9 <=? bv c) && (bv c <=? 13)).

(** An ASCII byte that is not a space. *)
Definition graph_byte (c : ascii) : bool := is_ascii_byte c && negb (ascii_space c).

Lemma space_len_ascii a s : is_ascii_byte a = true -> space_len (String a s) = if ascii_space a then 1%nat else 0%nat.
Proof.
  unfold is_ascii_byte, ascii_space, space_len. intros H. bool_facts.
  destruct s as [|b [|c s]]; cbn zeta; split_all_ifs; bool_facts; try done; try lia.
Qed.

Lemma space_len_graph a s : graph_byte a = true -> space_len (String a s) = 0%nat.
Proof.
  unfold graph_byte. intros H. bool_facts. rewrite space_len_ascii by done. by rewrite H0.
Qed.

Lemma space_free_graph s : str_forall graph_byte s = true -> space_free s = true.
Proof.
  induction s as [|c s IH]; [done|]. cbn [str_forall space_free].
  intros [Hc Hs]%andb_true_iff. by rewrite space_len_graph, IH.
Qed.

Lemma TrimLeftSpace_id s : space_len s = 0%nat -> TrimLeftSpace s = s.
Proof. unfold TrimLeftSpace. destruct s; [done|]. cbn [trim_left_skip]. by intros ->. Qed.

Lemma space_free_cons c s : space_free (String c s) = true ->
  space_len (String c s) = 0%nat /\ space_free s = true.
Proof. cbn [space_free]. intros [H ?]%andb_true_iff. by apply Nat.eqb_eq in H. Qed.

(** Cutting a string short uncovers no white space. *)
Lemma space_len_app_l a b : a <> "" -> space_len (a +:+ b) = 0%nat -> space_len a = 0%nat.
Proof.
  destruct a as [|x [|y [|z a]]]; try done; intros _; simpl String.append.
  - unfold space_len. cbn zeta. destruct (_ || _); [done|]. done.
  - unfold space_len. cbn zeta. destruct (_ || _); [done|]. destruct (_ && _); [done|]. done.
Qed.

Lemma space_free_app_l a b : space_free (a +:+ b) = true -> space_free a = true.
Proof.
  induction a as [|x a IH]; [done|]. cbn [String.append]. intros H.
  destruct (space_free_cons _ _ H) as [H1 H2].
  cbn [space_free]. rewrite (IH H2). change (String x (a +:+ b)) with (String x a +:+ b) in H1.
  by rewrite (space_len_app_l (String x a) b ltac:(done) H1).
Qed.

Lemma TrimSpace_space_free s : space_free s = true -> TrimSpace s = s.
Proof.
  intros Hs. unfold TrimSpace. rewrite TrimLeftSpace_id.
  - induction s as [|c s IH]; [done|]. cbn [TrimRightSpace].
    destruct (space_free_cons _ _ Hs) as [H1 H2]. rewrite TrimLeftSpace_id by done. by rewrite IH.
  - destruct s as [|c s]; [done|]. by destruct (space_free_cons _ _ Hs).
Qed.

#[export] Hint Resolve TrimSpace_space_free space_free_graph : csx.

(** ** [sort.Strings] depends on the multiset only *)

(** With a comparator that only ties equal values there is one sorted
    arrangement of a multiset. *)
Lemma sorted_unique {A} (cmp : A -> A -> Z) `{!CmpOrder cmp} (cmp_eq : forall x y, cmp x y = 0 -> x = y) l1 l2 :
  StronglySorted (fun a b => cmp a b <= 0) l1 -> StronglySorted (fun a b => cmp a b <= 0) l2 ->
  Permutation l1 l2 -> l1 = l2.
Proof.
  intros H1. revert l2. induction H1 as [|x l1 Hs IH Hf]; intros l2 H2 HP.
  { by apply Permutation_nil in HP. }
  destruct H2 as [|y l2 Hs2 Hf2]; [by apply Permutation_sym, Permutation_nil in HP|].
  assert (x = y) as ->.
  { apply cmp_eq. assert (In x (y :: l2)) as Hx by (rewrite <- HP; by left).
    assert (In y (x :: l1)) as Hy by (rewrite HP; by left).
    destruct Hx as [->|Hx]; [apply cmp_refl|]. destruct Hy as [->|Hy]; [apply cmp_refl|].
    rewrite List.Forall_forall in Hf, Hf2. specialize (Hf _ Hy). specialize (Hf2 _ Hx).
    pose proof (cmp_antisym (cmp:=cmp) x y). lia. }
  f_equal. apply IH; [done|]. by apply Permutation_cons_inv in HP.
Qed.

(** Every correct sort by such a comparator gives the same result, which
    depends on the multiset only. *)
Lemma sort_slice_unique {G1 G2 : GoSort} {A} (cmp : A -> A -> Z) less l1 l2 :
  less_of cmp less -> (forall x y, cmp x y = 0 -> x = y) -> Permutation l1 l2 ->
  sort_slice (GoSort:=G1) less l1 = sort_slice (GoSort:=G2) less l2.
Proof.
  intros Hl He HP. pose proof Hl as [Ho _]. apply (sorted_unique cmp He).
  - by apply sort_slice_sorted.
  - by apply sort_slice_sorted.
  - by rewrite <- !sort_slice_perm.
Qed.

Lemma sort_slice_fixed `{!GoSort} {A} (cmp : A -> A -> Z) less l :
  less_of cmp less -> (forall x y, cmp x y = 0 -> x = y) ->
  sort_slice less (sort_slice less l) = sort_slice less l.
Proof. intros Hl He. apply (sort_slice_unique cmp); [done|done|]. symmetry. apply sort_slice_perm. Qed.

Lemma sort_strings_perm l1 l2 : Permutation l1 l2 -> sort_strings l1 = sort_strings l2.
Proof.
  intros HP. apply (sorted_unique str_cmp str_cmp_eq); try (apply insertion_sort_sorted, str_lt_less).
  unfold sort_strings. by rewrite <- !insertion_sort_perm.
Qed.

(** ** Decimal text *)

Lemma digit_chr n : 0 <= n < 10 -> is_digit (chr (48 + n)) = true /\ bv (chr (48 + n)) = 48 + n.
Proof. intros H. unfold is_digit. rewrite bv_chr by lia. split; [lia|done]. Qed.

Lemma dec_digits_value fuel n acc : 0 <= n < 10 ^ Z.of_nat fuel -> fuel <> 0%nat ->
  digits_value 0 (dec_digits fuel n acc) = digits_value n acc.
Proof.
  revert n acc. induction fuel as [|fuel IH]; intros n acc Hn Hf; [done|]. cbn [dec_digits].
  pose proof (Z.mod_pos_bound n 10 ltac:(lia)) as Hm. destruct (digit_chr (n mod 10) Hm) as [Hd Hv].
  rewrite Nat2Z.inj_succ, Z.pow_succ_r in Hn by lia.
  destruct (Z.ltb_spec n 10) as [L|L].
  - cbn [digits_value]. rewrite Hd, Hv, (Z.mod_small n 10) by lia. f_equal. lia.
  - destruct fuel as [|fuel]; [change (Z.of_nat 0) with 0 in Hn; simpl in Hn; lia|].
    rewrite IH; [|split; [apply Z.div_pos; lia|apply Z.div_lt_upper_bound; lia]|done].
    cbn [digits_value]. rewrite Hd, Hv. f_equal. pose proof (Z.div_mod n 10). lia.
Qed.

Lemma dec_digits_digits fuel n acc : str_forall is_digit acc = true ->
  str_forall is_digit (dec_digits fuel n acc) = true.
Proof.
  revert n acc. induction fuel as [|fuel IH]; intros n acc Ha; [done|]. cbn [dec_digits].
  pose proof (Z.mod_pos_bound n 10 ltac:(lia)) as Hm. destruct (digit_chr (n mod 10) Hm) as [Hd _].
  assert (str_forall is_digit (String (chr (48 + n mod 10)) acc) = true) by (cbn [str_forall]; by rewrite Hd).
  destruct (_ <? _); auto.
Qed.

Lemma dec_digits_cons fuel n acc : (fuel <> 0%nat \/ acc <> "") -> dec_digits fuel n acc <> "".
Proof.
  revert n acc. induction fuel as [|fuel IH]; intros n acc H; cbn [dec_digits]; [by destruct H|].
  destruct (_ <? _); [done|]. apply IH. by right.
Qed.

(** Rendering an [int] and reading it back. *)
Lemma Atoi_Itoa n : in_int64 n -> Atoi (Itoa n) = (n, true).
Proof.
  unfold in_int64, int64_min, int64_max. intros Hn. unfold Itoa. set (f := 20%nat).
  assert (F : f <> 0%nat) by done.
  assert (P : 10 ^ Z.of_nat f = 100000000000000000000) by reflexivity.
  clearbody f.
  assert (K : forall m, 0 <= m <= 2 ^ 63 -> exists c r, dec_digits f m "" = String c r /\ is_digit c = true
              /\ digits_value 0 (String c r) = Some m).
  { intros m Hm. pose proof (dec_digits_digits f m "" eq_refl) as D.
    pose proof (dec_digits_value f m "" ltac:(lia) F) as V.
    pose proof (dec_digits_cons f m "" (or_introl F)) as Q.
    destruct (dec_digits f m "") as [|c r]; [done|].
    exists c, r. cbn [str_forall] in D. apply andb_true_iff in D as [D _]. done. }
  assert (N : forall c, is_digit c = true -> Ascii.eqb c "-" = false /\ Ascii.eqb c "+" = false).
  { intros c Hc. destruct c as [[] [] [] [] [] [] [] []]; vm_compute in Hc |- *; done. }
  destruct (Z.ltb_spec n 0) as [L|L].
  - destruct (K (- n) ltac:(lia)) as (c & r & E & Hc & V). rewrite E. unfold Atoi. rewrite Ascii.eqb_refl.
    change (String.eqb (String c r) "") with false. rewrite V. unfold int64_max, int64_min.
    rewrite Z.opp_involutive. destruct (Z.ltb_spec (2 ^ 63 - 1) n); [lia|]. destruct (Z.ltb_spec n (- 2 ^ 63)); [lia|done].
  - destruct (K n ltac:(lia)) as (c & r & E & Hc & V). rewrite E. unfold Atoi.
    destruct (N c Hc) as [-> ->]. change (String.eqb (String c r) "") with false. rewrite V.
    unfold int64_max, int64_min.
    destruct (Z.ltb_spec (2 ^ 63 - 1) n); [lia|]. destruct (Z.ltb_spec n (- 2 ^ 63)); [lia|done].
Qed.

Lemma Itoa_inj a b : in_int64 a -> in_int64 b -> Itoa a = Itoa b -> a = b.
Proof. intros Ha Hb E. apply Atoi_Itoa in Ha, Hb. rewrite E in Ha. congruence. Qed.
