(* ===== verification/UnicodeFacts.v ===== *)
(** * Laws of the case mapping

    Decoding inverts encoding, [ToLower] and [ToUpper] are idempotent on
    every byte string (valid UTF-8 or not), and neither introduces an ASCII
    byte other than a letter. *)

From S2P Require Import Prelude GoStrings GoUnicode GoStd StringFacts.

(** ** Valid runes *)

Definition valid_rune (r : Z) : Prop := 0 <= r < 55296 \/ 57343 < r <= 1114111.

Lemma decode_rune_valid s : s <> "" -> valid_rune (fst (decode_rune s)).
Proof.
  intros Hs. destruct s as [|a s]; [done|]. unfold decode_rune, rune_error, is_cont, valid_rune.
  pose proof (bv_range a). destruct s as [|b [|c [|d s]]];
    cbn zeta; split_all_ifs; bool_facts; simpl; lia.
Qed.

Lemma decode_rune_width s : s <> "" -> (1 <= snd (decode_rune s) <= 4)%nat.
Proof.
  intros Hs. destruct s as [|a s]; [done|]. unfold decode_rune.
  destruct s as [|b [|c [|d s]]]; cbn zeta; split_all_ifs; simpl; lia.
Qed.

Lemma decode_ascii c s : bv c < 128 -> decode_rune (String c s) = (bv c, 1%nat).
Proof. intros H. unfold decode_rune. cbn zeta. by rewrite (proj2 (Z.ltb_lt _ _) H). Qed.

(** A rune below 128 is its own byte. *)
Lemma decode_small c s : fst (decode_rune (String c s)) < 128 -> bv c = fst (decode_rune (String c s)).
Proof.
  unfold decode_rune, rune_error, is_cont. pose proof (bv_range c).
  destruct s as [|b [|d [|e s]]]; cbn zeta; split_all_ifs; bool_facts; simpl; lia.
Qed.

(** Let [lia] see division and remainder by constants. *)
#[local] Ltac Zify.zify_post_hook ::= Z.to_euclidean_division_equations.

Lemma decode_encode r t : valid_rune r ->
  decode_rune (encode_rune r +:+ t) = (r, String.length (encode_rune r)).
Proof.
  intros Hv. unfold encode_rune.
  assert (((55296 <=? r) && (r <=? 57343)) || (1114111 <? r) || (r <? 0) = false) as ->.
  { unfold valid_rune in Hv. destruct (_ || _) eqn:E; [|done]. bool_facts. lia. }
  cbn zeta. unfold valid_rune, single in *.
  destruct (Z.leb_spec r 127).
  { cbn [String.append String.length]. rewrite decode_ascii; rewrite bv_chr; done || lia. }
  destruct (Z.leb_spec r 2047).
  { cbn [String.append String.length]. unfold decode_rune, is_cont. cbn zeta. rewrite !bv_chr by lia.
    split_all_ifs; bool_facts; try (f_equal; lia). }
  destruct (Z.leb_spec r 65535).
  { cbn [String.append String.length]. unfold decode_rune, is_cont. cbn zeta. rewrite !bv_chr by lia.
    split_all_ifs; bool_facts; try (f_equal; lia). }
  cbn [String.append String.length]. unfold decode_rune, is_cont. cbn zeta. rewrite !bv_chr by lia.
  split_all_ifs; bool_facts; try (f_equal; lia).
Qed.

Lemma encode_rune_cons r : exists c s, encode_rune r = String c s.
Proof. unfold encode_rune, single. cbn zeta. split_ifs; eauto. Qed.

(** ** strings.Map *)

Lemma map_runes_skip_app f a t :
  map_runes_skip f (String.length a) (a +:+ t) = map_runes_skip f 0 t.
Proof. induction a as [|c a IH]; simpl; [done|]. done. Qed.

Lemma map_runes_encode f r t : valid_rune r ->
  map_runes_skip f 0 (encode_rune r +:+ t) = encode_rune (f r) +:+ map_runes_skip f 0 t.
Proof.
  intros Hv. pose proof (decode_encode r t Hv) as D.
  destruct (encode_rune_cons r) as (c & s & E). rewrite E in *. simpl String.append in *.
  cbn [map_runes_skip]. rewrite D. cbn [String.length Nat.sub]. rewrite Nat.sub_0_r.
  by rewrite map_runes_skip_app.
Qed.

Section idempotent_map.
  Context (f : Z -> Z).
  Hypothesis f_valid : forall r, valid_rune r -> valid_rune (f r).
  Hypothesis f_idem : forall r, f (f r) = f r.

Lemma map_runes_idem k s :
    map_runes_skip f 0 (map_runes_skip f k s) = map_runes_skip f k s.
  Proof using f_valid f_idem.
    revert k. induction s as [|c s IH]; intros k; [by destruct k|].
    destruct k as [|k]; cbn [map_runes_skip]; [|done].
    pose proof (decode_rune_valid (String c s) ltac:(done)) as Hv.
    destruct (decode_rune (String c s)) as [r w]. simpl in Hv.
    rewrite map_runes_encode by auto. by rewrite IH, f_idem.
  Qed.
End idempotent_map.

(** ** The tables *)

(** All runes of a table entry. *)
Fixpoint stride (n : nat) (lo step : Z) : list Z :=
  match n with O => [] | S n' => lo :: stride n' (lo + step) step end.

Definition entry_runes (e : Z * Z * Z * Z) : list Z :=
  let '(lo, hi, step, _) := e in stride (Z.to_nat ((hi - lo) / step + 1)) lo step.

Lemma in_stride r n lo step : 0 < step -> lo <= r -> (r - lo) mod step = 0 ->
  (r - lo) / step < Z.of_nat n -> In r (stride n lo step).
Proof.
  intros Hs. revert lo. induction n as [|n IH]; intros lo Hlo Hm Hn.
  - pose proof (Z.div_pos (r - lo) step). lia.
  - simpl. destruct (Z.eq_dec lo r); [by left|]. right.
    pose proof (Z.div_mod (r - lo) step ltac:(lia)) as Hd.
    assert (1 <= (r - lo) / step) by nia.
    assert (r - (lo + step) = (r - lo) + (-1) * step) as E by lia.
    apply IH; [nia| |].
    + rewrite E, Z.mod_add by lia. done.
    + rewrite E, Z.div_add by lia. lia.
Qed.

(** A property of every mapped rune, checked entry by entry. *)
Definition table_all (P : Z -> bool) (tbl : list (Z * Z * Z * Z)) : bool :=
  forallb (fun e => let '(_, _, step, _) := e in (0 <? step) && forallb P (entry_runes e)) tbl.

Lemma table_all_spec P tbl r :
  table_all P tbl = true -> apply_case tbl r = r \/ P r = true.
Proof.
  intros HP. unfold apply_case.
  destruct (List.find (in_case_range r) tbl) as [[[[lo hi] step] d]|] eqn:F; [|by left].
  right. apply List.find_some in F as [Hin Hr]. unfold table_all in HP.
  rewrite forallb_forall in HP. specialize (HP _ Hin). simpl in HP. bool_facts.
  rewrite forallb_forall in H0. apply H0. unfold in_case_range in Hr. bool_facts.
  assert (0 <= (hi - lo) / step) by (apply Z.div_pos; lia).
  apply in_stride; try lia.
  rewrite Z2Nat.id by lia. pose proof (Z.div_le_mono (r - lo) (hi - lo) step). lia.
Qed.

Definition valid_runeb (r : Z) : bool :=
  ((0 <=? r) && (r <? 55296)) || ((57343 <? r) && (r <=? 1114111)).

Definition fixed_by (tbl : list (Z * Z * Z * Z)) (r : Z) : bool := apply_case tbl r =? r.

(** A mapped rune stays valid, is a fixed point, and is not an ASCII byte
    other than a letter of [p]. *)
Definition good_image (tbl : list (Z * Z * Z * Z)) (p : Z -> bool) (r : Z) : bool :=
  let r' := apply_case tbl r in
  valid_runeb r' && fixed_by tbl r' && ((128 <=? r') || p r').

Definition lower_letter (r : Z) : bool := (97 <=? r) && (r <=? 122).
Definition upper_letter (r : Z) : bool := (65 <=? r) && (r <=? 90).

Lemma lower_table_ok :
  table_all (good_image unicode_lower_ranges lower_letter) unicode_lower_ranges = true.
Proof. vm_compute. reflexivity. Qed.

Lemma upper_table_ok :
  table_all (good_image unicode_upper_ranges upper_letter) unicode_upper_ranges = true.
Proof. vm_compute. reflexivity. Qed.

Section table_facts.
  Context (tbl : list (Z * Z * Z * Z)) (p : Z -> bool).
  Hypothesis ok : table_all (good_image tbl p) tbl = true.

Lemma case_valid r : valid_rune r -> valid_rune (apply_case tbl r).
  Proof using ok.
    intros Hv. destruct (table_all_spec _ _ r ok) as [->|G]; [done|].
    unfold good_image, valid_runeb in G. cbn zeta in G. bool_facts. unfold valid_rune. bool_facts.
    destruct H; bool_facts; lia.
  Qed.

Lemma case_idem r : apply_case tbl (apply_case tbl r) = apply_case tbl r.
  Proof using ok.
    destruct (table_all_spec _ _ r ok) as [E|G]; [by rewrite !E|].
    unfold good_image, fixed_by in G. cbn zeta in G. bool_facts. congruence.
  Qed.

Lemma case_small r : apply_case tbl r < 128 -> apply_case tbl r = r \/ p (apply_case tbl r) = true.
  Proof using ok.
    intros Hs. destruct (table_all_spec _ _ r ok) as [->|G]; [by left|].
    unfold good_image in G. cbn zeta in G. bool_facts. destruct H0; bool_facts; [lia|by right].
  Qed.
End table_facts.

Lemma ToLower_idem s : ToLower (ToLower s) = ToLower s.
Proof.
  apply map_runes_idem; intros; [eapply case_valid | eapply case_idem]; eauto using lower_table_ok.
Qed.

Lemma ToUpper_idem s : ToUpper (ToUpper s) = ToUpper s.
Proof.
  apply map_runes_idem; intros; [eapply case_valid | eapply case_idem]; eauto using upper_table_ok.
Qed.

#[export] Hint Resolve ToLower_idem ToUpper_idem : csx.
#[export] Hint Rewrite ToLower_idem ToUpper_idem : csx.

(** ** Bytes the mapping cannot introduce *)

Lemma encode_rune_lacks r c : bv c < 128 -> r <> bv c -> lacks c (encode_rune r) = true.
Proof.
  intros Hc Hr. pose proof (bv_range c).
  assert (Hne : forall z, 0 <= z < 256 -> z <> bv c -> Ascii.eqb (chr z) c = false).
  { intros z Hz Hzc. apply Ascii.eqb_neq. intros <-. rewrite bv_chr in Hzc; lia. }
  unfold encode_rune, rune_error, lacks, single. cbn zeta.
  split_all_ifs; bool_facts; cbn [str_forall]; rewrite !Hne by lia; done.
Qed.

Lemma map_runes_lacks f c k s :
  bv c < 128 -> (forall r, f r = bv c -> r = bv c) ->
  lacks c s = true -> lacks c (map_runes_skip f k s) = true.
Proof.
  intros Hc Hf. revert k. induction s as [|a s IH]; intros k Hl; [by destruct k|].
  unfold lacks in Hl. simpl in Hl. apply andb_true_iff in Hl as [Ha Hs].
  destruct k as [|k]; cbn [map_runes_skip]; [|by apply IH].
  pose proof (decode_small a s). destruct (decode_rune (String a s)) as [r w]. simpl in *.
  rewrite lacks_app, IH by done. rewrite encode_rune_lacks; [done..|].
  intros E%Hf. subst r. bool_facts. apply Ha. apply bv_inj. lia.
Qed.

Lemma ToLower_lacks c s : bv c < 128 -> is_lower c = false ->
  lacks c s = true -> lacks c (ToLower s) = true.
Proof.
  intros Hc Hl. apply map_runes_lacks; [done|]. intros r E.
  destruct (case_small _ _ lower_table_ok r) as [H|H]; unfold unicode_ToLower in E.
  - lia.
  - congruence.
  - unfold is_lower in Hl. unfold lower_letter in H. rewrite E in H. congruence.
Qed.

(** ** ASCII strings *)

Definition lower_byte (c : ascii) : ascii := if is_upper c then chr (bv c + 32) else c.

Lemma unicode_ToLower_ascii z : 0 <= z < 128 ->
  unicode_ToLower z = if upper_letter z then z + 32 else z.
Proof.
  intros Hz.
  assert (forallb (fun z => unicode_ToLower z =? if upper_letter z then z + 32 else z)
            (map Z.of_nat (seq 0 128)) = true) as H by (vm_compute; reflexivity).
  rewrite forallb_forall in H. apply Z.eqb_eq, H. apply in_map_iff.
  exists (Z.to_nat z). split; [lia|]. apply in_seq. lia.
Qed.

Lemma encode_rune_ascii z : 0 <= z < 128 -> encode_rune z = single (chr z).
Proof. intros H. unfold encode_rune. cbn zeta. split_all_ifs; bool_facts; try lia; done. Qed.

Lemma ToLower_ascii_map s : str_forall is_ascii_byte s = true -> ToLower s = str_map lower_byte s.
Proof.
  unfold ToLower. induction s as [|c s IH]; [done|].
  cbn [str_forall]. intros [Hc Hs]%andb_true_iff. unfold is_ascii_byte in Hc. bool_facts.
  cbn [map_runes_skip str_map]. rewrite decode_ascii by done. cbn [Nat.sub].
  rewrite IH by done. pose proof (bv_range c). rewrite unicode_ToLower_ascii by lia.
  rewrite encode_rune_ascii.
  - unfold lower_byte, is_upper, upper_letter. destruct (_ && _); [done|]. by rewrite chr_bv.
  - unfold upper_letter. split_ifs; bool_facts; lia.
Qed.

(** An ASCII string without capitals. *)
Definition plain_byte (c : ascii) : bool := is_ascii_byte c && negb (is_upper c).

Lemma ToLower_plain s : str_forall plain_byte s = true -> ToLower s = s.
Proof.
  intros H. rewrite ToLower_ascii_map.
  - revert H. induction s as [|c s IH]; simpl; [done|]. intros [Hc Hs]%andb_true_iff.
    unfold plain_byte in Hc. apply andb_true_iff in Hc as [_ Hc]. apply negb_true_iff in Hc.
    rewrite IH by done. unfold lower_byte. by rewrite Hc.
  - eapply str_forall_impl; [|exact H]. unfold plain_byte. intros c Hc. by bool_facts.
Qed.

#[export] Hint Resolve ToLower_lacks ToLower_plain : csx.

(** ** Folding *)

Lemma zlist_eqb_spec a b : zlist_eqb a b = true <-> a = b.
Proof.
  revert b. induction a as [|x a IH]; intros [|y b]; simpl; try done.
  rewrite andb_true_iff, Z.eqb_eq, IH. split; [intros [-> ->]|intros [= -> ->]]; done.
Qed.

Lemma EqualFold_spec s w : EqualFold s w = true <-> map fold_rune (runes s) = map fold_rune (runes w).
Proof. apply zlist_eqb_spec. Qed.

Lemma EqualFold_refl s : EqualFold s s = true.
Proof. by apply EqualFold_spec. Qed.

Lemma EqualFold_sym s w : EqualFold s w = EqualFold w s.
Proof. apply eq_true_iff_eq. rewrite !EqualFold_spec. done. Qed.

Lemma EqualFold_trans s w u : EqualFold s w = true -> EqualFold w u = true -> EqualFold s u = true.
Proof. rewrite !EqualFold_spec. congruence. Qed.
