(* ===== verification/WordFacts.v ===== *)
(** * Words

    Facts on [strings.Fields], on [strings.Join] with a space, and on the
    white space of case-mapped strings: the fields of a string are words,
    joining words and splitting again gives them back, and mapping case
    neither makes nor removes white space. *)

From S2P Require Import Prelude GoStrings GoUnicode StringFacts UnicodeFacts.

#[global] Arguments space_len : simpl never.
#[global] Arguments decode_rune : simpl never.
#[global] Arguments TrimSpace : simpl never.
#[global] Arguments ToLower : simpl never.
#[global] Arguments Fields : simpl never.

Definition words (ws : list string) : Prop := Forall (fun w => is_word w = true) ws.

Lemma is_word_spec w : is_word w = true <-> w <> "" /\ space_free w = true.
Proof. unfold is_word. rewrite andb_true_iff, negb_true_iff, String.eqb_neq. done. Qed.

(** An ASCII byte after [a] changes nothing inside [a]. *)
Lemma space_len_byte a c r : a <> "" -> bv c < 128 -> space_len (a +:+ String c r) = space_len a.
Proof.
  intros Ha Hc. pose proof (bv_range c). destruct a as [|x [|y [|z a]]]; [done|..]; cbn [String.append]; unfold space_len;
    cbn zeta; [..|done]; split_all_ifs; try done; bool_facts; try lia.
  all: destruct r as [|? ?]; [done|]; split_all_ifs; try done; bool_facts; try lia.
Qed.

Lemma space_len_sep a r : a <> "" -> space_len (a +:+ String " " r) = space_len a.
Proof. intros Ha. by apply space_len_byte. Qed.

Lemma space_free_byte a c r : bv c < 128 ->
  space_free (a +:+ String c r) = space_free a && space_free (String c r).
Proof.
  intros Hc. induction a as [|d a IH]; [done|]. pose proof (space_len_byte (String d a) c r ltac:(done) Hc) as L.
  cbn [String.append] in *. cbn [space_free]. rewrite L. cbn [space_free] in IH. rewrite IH.
  by rewrite andb_assoc.
Qed.

Lemma push_word w ws : w <> "" -> push w ws = w :: ws.
Proof. intros H. unfold push. by rewrite (proj2 (String.eqb_neq _ _) H). Qed.

Lemma words_push w ws : space_free w = true -> words ws -> words (push w ws).
Proof.
  intros Hw Hws. unfold push. destruct (String.eqb_spec w ""); [done|].
  constructor; [by apply is_word_spec|done].
Qed.

(** The word that starts at the front is a prefix, and all fields are words. *)
Lemma fields_go_spec k s w ws : fields_go k s = (w, ws) ->
  (k = 0%nat -> exists r, s = w +:+ r) /\ space_free w = true /\ words ws.
Proof.
  revert k w ws. induction s as [|a s IH]; intros k w ws E; cbn [fields_go] in E.
  { injection E as <- <-. repeat split; [by exists ""|constructor]. }
  destruct k as [|k].
  - destruct (space_len (String a s)) as [|k] eqn:L; destruct (fields_go _ s) as [w' ws'] eqn:F;
      injection E as <- <-; destruct (IH _ _ _ F) as (Hp & Hw & Hws).
    + destruct (Hp eq_refl) as [r ->]. split; [intros _; by exists r|]. split; [|done].
      cbn [space_free]. rewrite Hw, andb_true_r.
      assert (space_len (String a w') = 0%nat) as ->; [|done].
      apply (space_len_app_l _ r); [done|]. exact L.
    + split; [intros _; by exists (String a s)|]. split; [done|]. by apply words_push.
  - destruct (fields_go k s) as [w' ws'] eqn:F. injection E as <- <-.
    destruct (IH _ _ _ F) as (_ & Hw & Hws). split; [done|]. split; [done|]. by apply words_push.
Qed.

Lemma Fields_words s : words (Fields s).
Proof.
  unfold Fields. destruct (fields_go 0 s) as [w ws] eqn:F.
  destruct (fields_go_spec _ _ _ _ F) as (_ & ? & ?). by apply words_push.
Qed.

Lemma fields_go_word w : space_free w = true -> fields_go 0 w = (w, []).
Proof.
  induction w as [|a w IH]; [done|]. cbn [space_free fields_go]. intros [L H]%andb_true_iff.
  apply Nat.eqb_eq in L. by rewrite L, IH.
Qed.

Lemma fields_go_sep w r : space_free w = true ->
  fields_go 0 (w +:+ String " " r) = (w, Fields r).
Proof.
  induction w as [|a w IH].
  - intros _. cbn [String.append fields_go].
    assert (space_len (String " " r) = 1%nat) as -> by done.
    unfold Fields. by destruct (fields_go 0 r).
  - cbn [space_free]. intros [L H]%andb_true_iff. apply Nat.eqb_eq in L.
    pose proof (space_len_sep (String a w) r ltac:(done)) as S. rewrite L in S.
    cbn [String.append fields_go] in *. by rewrite S, IH.
Qed.

Lemma Fields_word w : is_word w = true -> Fields w = [w].
Proof.
  intros [Hn Hw]%is_word_spec. unfold Fields. rewrite fields_go_word by done. by apply push_word.
Qed.

Lemma Fields_sep w r : is_word w = true -> Fields (w +:+ String " " r) = w :: Fields r.
Proof.
  intros [Hn Hw]%is_word_spec. unfold Fields at 1. rewrite fields_go_sep by done. by apply push_word.
Qed.

Lemma Join_cons2 w w' ws sep : Join (w :: w' :: ws) sep = w +:+ sep +:+ Join (w' :: ws) sep.
Proof. done. Qed.

(** Joining words with a space and splitting again gives the words back. *)
Lemma Fields_Join ws : words ws -> Fields (Join ws " ") = ws.
Proof.
  induction ws as [|w [|w' ws] IH]; intros H; [done|..]; inversion H; subst.
  - by apply Fields_word.
  - rewrite Join_cons2. change (" " +:+ ?x) with (String " " x). rewrite Fields_sep by done.
    by rewrite IH.
Qed.

Lemma Join_app xs ys sep : xs <> [] -> ys <> [] ->
  Join (xs ++ ys) sep = Join xs sep +:+ sep +:+ Join ys sep.
Proof.
  intros Hx Hy. induction xs as [|x [|x' xs] IH]; [done|..].
  - simpl app. by destruct ys.
  - cbn [app] in *. rewrite !Join_cons2, IH by done. by rewrite !str_app_assoc.
Qed.

Lemma Join_nil ws sep : words ws -> Join ws sep = "" -> ws = [].
Proof.
  intros Hw. destruct ws as [|w [|w' ws]]; [done|..]; inversion Hw; subst; intros E.
  - simpl in E. subst. done.
  - rewrite Join_cons2 in E. apply str_app_eq_nil in E as [-> _]. done.
Qed.

(** ** TrimSpace on joined words *)

Lemma trim_right_word w : space_free w = true -> TrimRightSpace w = w.
Proof.
  induction w as [|a w IH]; [done|]. cbn [space_free TrimRightSpace]. intros [L H]%andb_true_iff.
  apply Nat.eqb_eq in L. rewrite TrimLeftSpace_id by done. rewrite IH by done. done.
Qed.

Lemma TrimRightSpace_cons a s : space_len (String a s) = 0%nat ->
  TrimRightSpace (String a s) = String a (TrimRightSpace s).
Proof. intros L. cbn [TrimRightSpace]. by rewrite TrimLeftSpace_id. Qed.

Lemma trim_right_sep w r : space_free w = true -> r <> "" -> space_len r = 0%nat ->
  TrimRightSpace (w +:+ String " " r) = w +:+ String " " (TrimRightSpace r).
Proof.
  intros Hw Hr Lr. induction w as [|a w IH].
  - cbn [String.append TrimRightSpace]. unfold TrimLeftSpace. cbn [trim_left_skip].
    assert (space_len (String " " r) = 1%nat) as -> by done.
    fold (TrimLeftSpace r). rewrite TrimLeftSpace_id by done.
    by rewrite (proj2 (String.eqb_neq _ _) Hr).
  - cbn [space_free] in Hw. apply andb_true_iff in Hw as [L Hw]. apply Nat.eqb_eq in L.
    pose proof (space_len_sep (String a w) r ltac:(done)) as S. rewrite L in S.
    cbn [String.append] in *. by rewrite TrimRightSpace_cons, IH.
Qed.

Lemma Join_words_space_len ws : words ws -> ws <> [] ->
  Join ws " " <> "" /\ space_len (Join ws " ") = 0%nat.
Proof.
  intros Hw Hn. split; [intros E; apply Hn; eauto using Join_nil|].
  destruct ws as [|w [|w' ws]]; [done|..]; inversion Hw as [|? ? [Hne Hf]%is_word_spec Hws]; subst;
    (assert (space_len w = 0%nat) by
       (destruct w; [done|]; cbn [space_free] in Hf; apply andb_true_iff in Hf as [L _];
        by apply Nat.eqb_eq in L)).
  - done.
  - rewrite Join_cons2. change (" " +:+ ?x) with (String " " x). by rewrite space_len_sep.
Qed.

Lemma TrimSpace_Join ws : words ws -> TrimSpace (Join ws " ") = Join ws " ".
Proof.
  intros Hw. unfold TrimSpace. destruct ws as [|w ws]; [done|].
  destruct (Join_words_space_len (w :: ws) Hw ltac:(done)) as [_ L].
  rewrite TrimLeftSpace_id by done. clear L.
  revert w Hw. induction ws as [|w' ws IH]; intros w Hw;
    inversion Hw as [|? ? [Hne Hf]%is_word_spec Hws]; subst.
  - by apply trim_right_word.
  - rewrite Join_cons2. change (" " +:+ ?x) with (String " " x).
    destruct (Join_words_space_len (w' :: ws) Hws ltac:(done)).
    rewrite trim_right_sep by done. by rewrite IH.
Qed.

Lemma TrimSpace_word w : is_word w = true -> TrimSpace w = w.
Proof. intros [_ H]%is_word_spec. by apply TrimSpace_space_free. Qed.

Lemma Join_Fields_idem s : Join (Fields (Join (Fields s) " ")) " " = Join (Fields s) " ".
Proof. by rewrite Fields_Join by apply Fields_words. Qed.

#[export] Hint Resolve Fields_words Join_Fields_idem : csx.
#[export] Hint Rewrite Join_Fields_idem : csx.

(** ** White space and case mapping *)

(** [unicode.IsSpace]. *)
Definition rune_space (r : Z) : bool :=
  ((9 <=? r) && (r <=? 13)) || (r =? 32) || (r =? 133) || (r =? 160) || (r =? 5760)
  || ((8192 <=? r) && (r <=? 8202)) || (r =? 8232) || (r =? 8233) || (r =? 8239)
  || (r =? 8287) || (r =? 12288).

Lemma rune_space_len s : s <> "" -> rune_space (fst (decode_rune s)) = true -> space_len s <> 0%nat.
Proof.
  intros Hs E. destruct s as [|a s]; [done|]. pose proof (bv_range a).
  unfold decode_rune, is_cont in E. unfold space_len. cbn zeta in *.
  destruct (Z.ltb_spec (bv a) 128).
  { cbn [fst] in E. assert ((bv a =? 32) || (9 <=? bv a) && (bv a <=? 13) = true) as ->; [|done].
    unfold rune_space in E. lia. }
  destruct s as [|b s]; [done|].
  destruct ((194 <=? bv a) && (bv a <=? 223)) eqn:C2; bool_facts.
  { destruct (_ && _) eqn:Cb in E; [|done]. cbn [fst] in E. unfold rune_space in E.
    destruct (_ || _) eqn:? in |- *; [done|].
    assert ((bv a =? 194) && ((bv b =? 133) || (bv b =? 160)) = true) as ->; [|done]. lia. }
  destruct s as [|c s]; [done|].
  destruct ((224 <=? bv a) && (bv a <=? 239)) eqn:C3; bool_facts.
  { destruct (_ && _) eqn:Cb in E; [|done]. cbn [fst] in E. unfold rune_space in E.
    destruct (_ || _) eqn:? in |- *; [done|]. destruct (_ && _) eqn:? in |- *; [done|].
    destruct (_ || _) eqn:N in |- *; [done|]. exfalso.
    destruct (bv a =? 224) eqn:?, (bv a =? 237) eqn:?; bool_facts;
    repeat (destruct E as [E|E]; bool_facts); lia. }
  destruct s as [|d s]; [done|]. exfalso.
  destruct ((240 <=? bv a) && (bv a <=? 244)) eqn:C4; [|done]. bool_facts.
  destruct (_ && _) eqn:Cb in E; [|done]. cbn [fst] in E. unfold rune_space in E.
  destruct (bv a =? 240) eqn:?, (bv a =? 244) eqn:?; bool_facts;
    repeat (destruct E as [E|E]; bool_facts); lia.
Qed.

Lemma space_len_decode s : space_len s <> 0%nat ->
  rune_space (fst (decode_rune s)) = true /\ snd (decode_rune s) = space_len s.
Proof.
  intros E. destruct s as [|a s]; [done|]. unfold space_len in *. cbn zeta in *.
  destruct (_ || _) eqn:C1 in E |- *.
  { rewrite decode_ascii by lia. unfold rune_space. cbn [fst snd]. split; [lia|done]. }
  destruct s as [|b s]; [done|]. destruct (_ && _) eqn:C2 in E |- *.
  { unfold decode_rune, is_cont. cbn zeta.
    bool_facts. match goal with H : bv a = 194 |- _ => rewrite H end.
    match goal with H : _ \/ _ |- _ => destruct H; bool_facts end;
      match goal with H : bv b = _ |- _ => by rewrite H end. }
  destruct s as [|c s]; [done|]. destruct (_ || _) eqn:C3 in E |- *; [|done].
  unfold decode_rune, is_cont. cbn zeta. clear C1 C2 E.
  assert (Hz : bv c = 128 \/ bv c = 129 \/ bv c = 130 \/ bv c = 131 \/ bv c = 132 \/ bv c = 133
    \/ bv c = 134 \/ bv c = 135 \/ bv c = 136 \/ bv c = 137 \/ bv c = 138 \/ bv c = 168
    \/ bv c = 169 \/ bv c = 175 \/ bv c = 159) by lia.
  bool_facts. repeat (destruct C3 as [C3|C3]; bool_facts);
    match goal with H : bv a = _, H' : bv b = _ |- _ => rewrite H, H' end;
    repeat match goal with H : bv c = _ |- _ => by rewrite H | H : _ \/ _ |- _ => destruct H; bool_facts end;
    lia.
Qed.

Lemma space_len_rune s : s <> "" -> (space_len s = 0%nat <-> rune_space (fst (decode_rune s)) = false).
Proof.
  intros Hs. pose proof (rune_space_len s Hs). pose proof (space_len_decode s) as H0.
  destruct (space_len s) as [|n]; [|split; intros; [done|]].
  - destruct (rune_space _); [by destruct H|done].
  - destruct (H0 ltac:(done)). congruence.
Qed.

Lemma space_len_cont c s : 128 <= bv c <= 191 -> space_len (String c s) = 0%nat.
Proof.
  intros H. unfold space_len. cbn zeta. destruct (_ || _) eqn:? in |- *; [lia|].
  destruct s as [|b [|d s]]; [done|..]; (destruct (_ && _) eqn:? in |- *; [lia|]); [done|].
  destruct (_ || _) eqn:? in |- *; [lia|done].
Qed.

#[local] Ltac Zify.zify_post_hook ::= Z.to_euclidean_division_equations.

Lemma encode_rune_tail r : exists c s, encode_rune r = String c s
  /\ forall t, space_free (s +:+ t) = space_free t.
Proof.
  unfold encode_rune, rune_error, single. cbn zeta.
  split_ifs; bool_facts; try lia; eexists _, _; (split; [reflexivity|]); intros t;
    cbn [String.append space_free]; rewrite ?space_len_cont by (rewrite bv_chr; lia); done.
Qed.

Lemma space_free_encode r t : valid_rune r ->
  space_free (encode_rune r +:+ t) = negb (rune_space r) && space_free t.
Proof.
  intros Hv. pose proof (decode_encode r t Hv) as D.
  destruct (encode_rune_tail r) as (c & s & E & Hs). rewrite E in *. cbn [String.append] in *.
  cbn [space_free]. rewrite Hs. f_equal.
  pose proof (space_len_rune (String c (s +:+ t)) ltac:(done)) as L. rewrite D in L. cbn [fst] in L.
  destruct (rune_space r); destruct (space_len _); simpl; intuition congruence.
Qed.

(** The case mapping makes no white space. *)
Lemma lower_table_space :
  table_all (fun r => negb (rune_space (apply_case unicode_lower_ranges r))) unicode_lower_ranges = true.
Proof. vm_compute. reflexivity. Qed.

Lemma unicode_ToLower_space r : rune_space r = false -> rune_space (unicode_ToLower r) = false.
Proof.
  intros H. unfold unicode_ToLower.
  destruct (table_all_spec _ _ r lower_table_space) as [->|G]; [done|]. by apply negb_true_iff in G.
Qed.

Lemma ToLower_space_free s : space_free s = true -> space_free (ToLower s) = true.
Proof.
  unfold ToLower. generalize 0%nat as k. induction s as [|c s IH]; intros k; [by destruct k|].
  cbn [space_free]. intros [L H]%andb_true_iff. apply Nat.eqb_eq in L.
  destruct k as [|k]; cbn [map_runes_skip]; [|by apply IH].
  pose proof (decode_rune_valid (String c s) ltac:(done)) as Hv.
  apply space_len_rune in L; [|done].
  destruct (decode_rune (String c s)) as [r w]. cbn [fst] in *.
  rewrite space_free_encode by (eapply case_valid; eauto using lower_table_ok).
  by rewrite unicode_ToLower_space, IH.
Qed.

Lemma ToLower_word w : is_word w = true -> is_word (ToLower w) = true.
Proof.
  rewrite !is_word_spec. intros [Hn Hw]. split; [|by apply ToLower_space_free].
  destruct w as [|c w]; [done|]. unfold ToLower. cbn [map_runes_skip].
  destruct (decode_rune _) as [r ?]. destruct (encode_rune_cons (unicode_ToLower r)) as (? & ? & ->). done.
Qed.

(** An ASCII byte cuts a string into parts that are decoded separately. *)
Lemma decode_rune_sep a c t : a <> "" -> bv c < 128 -> decode_rune (a +:+ String c t) = decode_rune a.
Proof.
  intros Ha Hc. pose proof (bv_range c).
  destruct a as [|a1 [|a2 [|a3 [|a4 a]]]]; [done|..]; cbn [String.append];
    unfold decode_rune, is_cont; cbn zeta; [..|done].
  - split_ifs; try done; destruct t as [|? [|? ?]]; split_ifs; try done; lia.
  - split_ifs; try done; destruct t as [|? [|? ?]]; split_ifs; try done; lia.
  - split_ifs; try done; destruct t as [|? [|? ?]]; split_ifs; try done; lia.
Qed.

Lemma decode_rune_le s : (snd (decode_rune s) <= String.length s)%nat.
Proof. unfold decode_rune. destruct s as [|? [|? [|? [|? ?]]]]; cbn zeta; split_ifs; simpl; lia. Qed.

Lemma map_runes_sep f a c t k : bv c < 128 -> (k <= String.length a)%nat ->
  map_runes_skip f k (a +:+ String c t)
  = map_runes_skip f k a +:+ (encode_rune (f (bv c)) +:+ map_runes_skip f 0 t).
Proof.
  intros Hc. revert k. induction a as [|d a IH]; intros k Hk.
  - assert (k = 0%nat) as -> by (simpl in Hk; lia). cbn [String.append map_runes_skip].
    by rewrite decode_ascii.
  - destruct k as [|k]; cbn [String.append map_runes_skip]; [|apply IH; simpl in Hk; lia].
    pose proof (decode_rune_sep (String d a) c t ltac:(done) Hc) as D. cbn [String.append] in D. rewrite D.
    pose proof (decode_rune_le (String d a)) as W.
    destruct (decode_rune (String d a)) as [r w]. cbn [snd String.length] in W.
    rewrite IH by lia. by rewrite !str_app_assoc.
Qed.

Lemma ToLower_sep a c t : bv c < 128 ->
  ToLower (a +:+ String c t) = ToLower a +:+ String (lower_byte c) (ToLower t).
Proof.
  intros Hc. unfold ToLower. rewrite map_runes_sep by (done || lia). f_equal.
  pose proof (ToLower_ascii_map (single c)) as E. unfold ToLower, single in E.
  cbn [str_forall] in E. unfold is_ascii_byte in E. rewrite (proj2 (Z.ltb_lt _ _) Hc) in E.
  specialize (E eq_refl). cbn [map_runes_skip str_map] in E. rewrite decode_ascii in E by done.
  rewrite str_app_nil_r in E. by rewrite E.
Qed.

Lemma ToLower_Join ws : ToLower (Join ws " ") = Join (map ToLower ws) " ".
Proof.
  induction ws as [|w [|w' ws] IH]; [done|done|].
  cbn [map] in *. rewrite !Join_cons2. change (" " +:+ ?x) with (String " " x).
  rewrite ToLower_sep by done. by rewrite IH.
Qed.

Lemma words_ToLower ws : words ws -> words (map ToLower ws).
Proof. intros H. apply Forall_map. eapply Forall_impl; [|exact H]. intros w. apply ToLower_word. Qed.

(** A subcommand in canonical form: its words, lower case, one space apart. *)
Lemma lower_words_idem s :
  ToLower (Join (Fields (ToLower (Join (Fields s) " "))) " ") = ToLower (Join (Fields s) " ").
Proof.
  rewrite (ToLower_Join (Fields s)).
  rewrite Fields_Join by (apply words_ToLower, Fields_words).
  rewrite ToLower_Join, map_map. f_equal. apply map_ext. intros. apply ToLower_idem.
Qed.
#[export] Hint Rewrite lower_words_idem : csx.

(** ** TrimSpace in general *)

Lemma trim_left_front k s : TrimLeftSpace (trim_left_skip k s) = trim_left_skip k s.
Proof.
  revert k. induction s as [|a s IH]; intros k; [by destruct k|].
  destruct k as [|k]; cbn [trim_left_skip]; [|apply IH].
  destruct (space_len (String a s)) as [|k] eqn:L; [|apply IH]. by apply TrimLeftSpace_id.
Qed.

Lemma trim_left_nil_space s : s <> "" -> trim_left_skip 0 s = "" -> space_len s <> 0%nat.
Proof.
  destruct s as [|a s]; [done|]. intros _. cbn [trim_left_skip]. destruct (space_len (String a s)); done.
Qed.

(** The first [k] bytes are continuation bytes: what follows the first byte
    of a multi-byte space. *)
Fixpoint conts (k : nat) (s : string) : bool :=
  match k, s with
  | O, _ => true
  | S k', String c s' => is_cont (bv c) && conts k' s'
  | S _, "" => false
  end.

Lemma space_len_conts a s k : space_len (String a s) = S k -> conts k s = true.
Proof.
  unfold space_len, is_cont. cbn zeta. destruct (_ || _) eqn:? in |- *; [by intros [= <-]|].
  destruct s as [|b s]; [done|]. destruct (_ && _) eqn:? in |- *.
  { intros [= <-]. cbn [conts]. unfold is_cont. lia. }
  destruct s as [|c s]; [done|]. destruct (_ || _) eqn:? in |- *; [|done].
  intros [= <-]. cbn [conts]. unfold is_cont. lia.
Qed.

Lemma space_len_prefix a p r : space_len (String a p) = 0%nat
  \/ space_len (String a p) = space_len (String a (p +:+ r)).
Proof.
  unfold space_len. cbn zeta. destruct (_ || _); [by right|]. destruct p as [|b p]; [by left|].
  cbn [String.append]. destruct (_ && _); [by right|]. destruct p as [|c p]; [by left|by right].
Qed.

Lemma TrimRightSpace_prefix s : exists r, s = TrimRightSpace s +:+ r.
Proof.
  induction s as [|a s [r IH]]; [by exists ""|]. cbn [TrimRightSpace].
  destruct (String.eqb _ _); [by eexists|]. exists r. cbn [String.append]. by rewrite <- IH.
Qed.

Lemma trim_left_right k s : conts k s = true -> trim_left_skip k s <> "" ->
  trim_left_skip k (TrimRightSpace s) <> "".
Proof.
  revert k. induction s as [|a s IH]; intros k C H; [by destruct k|].
  destruct (TrimRightSpace_prefix s) as [r Hr].
  assert (N : TrimLeftSpace (String a s) <> "").
  { destruct k as [|k]; [exact H|]. cbn [conts] in C. unfold is_cont in C.
    rewrite TrimLeftSpace_id by (apply space_len_cont; lia). done. }
  cbn [TrimRightSpace]. rewrite (proj2 (String.eqb_neq _ _) N).
  destruct k as [|k]; cbn [trim_left_skip] in *.
  - destruct (space_len_prefix a (TrimRightSpace s) r) as [->|E]; [done|].
    rewrite <- Hr in E. rewrite E. destruct (space_len (String a s)) as [|k] eqn:L; [done|].
    apply IH; [by eapply space_len_conts|done].
  - apply IH; [|done]. cbn [conts] in C. by apply andb_true_iff in C as [_ ?].
Qed.

Lemma TrimRightSpace_ne a s : TrimLeftSpace (String a s) <> "" ->
  TrimRightSpace (String a s) = String a (TrimRightSpace s).
Proof. intros N. cbn [TrimRightSpace]. by rewrite (proj2 (String.eqb_neq _ _) N). Qed.

Lemma TrimRightSpace_idem s : TrimRightSpace (TrimRightSpace s) = TrimRightSpace s.
Proof.
  induction s as [|a s IH]; [done|].
  destruct (String.eqb_spec (TrimLeftSpace (String a s)) "") as [E|N].
  - cbn [TrimRightSpace]. by rewrite E.
  - pose proof (trim_left_right 0 (String a s) eq_refl N) as H.
    rewrite TrimRightSpace_ne in * by done. rewrite TrimRightSpace_ne by done. by rewrite IH.
Qed.

Lemma TrimSpace_idem s : TrimSpace (TrimSpace s) = TrimSpace s.
Proof.
  unfold TrimSpace. unfold TrimLeftSpace at 2 3. pose proof (trim_left_front 0 s) as F.
  destruct (trim_left_skip 0 s) as [|a t]; [done|].
  assert (L : space_len (String a t) = 0%nat).
  { destruct (space_len (String a t)) as [|k] eqn:E; [done|]. unfold TrimLeftSpace in F.
    cbn [trim_left_skip] in F. rewrite E in F. exfalso.
    assert (forall k s, String.length (trim_left_skip k s) <= String.length s)%nat as G.
    { clear. intros k s. revert k. induction s as [|c s IH]; intros k; [by destruct k|].
      destruct k; cbn [trim_left_skip]; [destruct (space_len _); [done|]|]; etrans; try apply IH; simpl; lia. }
    specialize (G k t). rewrite F in G. simpl in G. lia. }
  rewrite (TrimLeftSpace_id (TrimRightSpace _)); [apply TrimRightSpace_idem|].
  destruct (TrimRightSpace_prefix (String a t)) as [r Hr]. revert Hr.
  rewrite TrimRightSpace_cons by done. intros Hr.
  apply (space_len_app_l _ r); [done|]. by rewrite <- Hr.
Qed.
#[export] Hint Rewrite TrimSpace_idem : csx.

(** ** Trimmed strings stay trimmed when their case is mapped *)

(** [s] ends with a whole white-space rune. *)
Definition ends_space (s : string) : Prop :=
  exists p q, s = p +:+ q /\ q <> "" /\ space_len q = String.length q.

Lemma trim_left_nil_ends k s : conts k s = true -> (k < String.length s)%nat ->
  trim_left_skip k s = "" -> ends_space s.
Proof.
  revert k. induction s as [|a s IH]; intros k C Hk H; [simpl in Hk; lia|].
  assert (cons : ends_space s -> ends_space (String a s)).
  { intros (p & q & -> & ? & ?). by exists (String a p), q. }
  destruct k as [|k]; cbn [trim_left_skip] in H.
  - destruct (space_len (String a s)) as [|k] eqn:L; [done|]. pose proof (space_len_conts _ _ _ L) as C'.
    destruct (decide (k < String.length s)%nat) as [Hl|Hl]; [by eauto|].
    exists "", (String a s). repeat split; [done|]. rewrite L. cbn [String.length]. f_equal.
    assert (forall k s, conts k s = true -> (k <= String.length s)%nat) as G.
    { clear. induction k as [|k IH]; intros [|c s]; simpl; try done; try lia.
      intros [_ H]%andb_true_iff. apply IH in H. lia. }
    specialize (G _ _ C'). lia.
  - cbn [conts] in C. apply andb_true_iff in C as [_ C]. simpl in Hk. apply cons, (IH k); auto. lia.
Qed.

Lemma TrimRightSpace_fixed s : ~ ends_space s -> TrimRightSpace s = s.
Proof.
  induction s as [|a s IH]; [done|]. intros H. rewrite TrimRightSpace_ne.
  - rewrite IH; [done|]. intros (p & q & -> & ? & ?). apply H. by exists (String a p), q.
  - intros E. apply H, (trim_left_nil_ends 0); [done| |done]. simpl. lia.
Qed.

Lemma ends_space_TrimRightSpace s : TrimRightSpace s = s -> ~ ends_space s.
Proof.
  intros H (p & q & -> & Hq & L). revert H. induction p as [|c p IH]; cbn [String.append]; intros H.
  - destruct q as [|a q]; [done|]. cbn [TrimRightSpace] in H.
    assert (TrimLeftSpace (String a q) = "") as E; [|by rewrite E in H].
    unfold TrimLeftSpace. cbn [trim_left_skip]. rewrite L. cbn [String.length].
    clear. induction q as [|c q IH]; [done|]. exact IH.
  - cbn [TrimRightSpace] in H. destruct (String.eqb _ _); [done|]. injection H as H. auto.
Qed.

Lemma encode_rune_head r : exists c s, encode_rune r = String c s /\ is_cont (bv c) = false.
Proof.
  unfold encode_rune, rune_error, single, is_cont. cbn zeta.
  split_ifs; bool_facts; try lia; eexists _, _; (split; [reflexivity|]); rewrite bv_chr by lia; lia.
Qed.

(** A suffix that straddles the start of a rune is not one space. *)
Lemma space_not_across y c t : y <> "" -> is_cont (bv c) = false ->
  space_len (y +:+ String c t) <> String.length (y +:+ String c t).
Proof.
  intros Hy Hc L. destruct y as [|a y]; [done|]. cbn [String.append String.length] in L.
  apply space_len_conts in L. clear Hy. induction y as [|b y IH]; cbn [String.append conts String.length] in L.
  - by rewrite Hc in L.
  - apply andb_true_iff in L as [_ L]. auto.
Qed.

(** Two splits of one string: one part is a prefix of the other. *)
Lemma app_split_cases a b p q : a +:+ b = p +:+ q ->
  (exists y, a = p +:+ y /\ q = y +:+ b) \/ (exists y, p = a +:+ y /\ b = y +:+ q).
Proof.
  revert p. induction a as [|c a IH]; intros p E.
  - right. by exists p.
  - destruct p as [|d p]; [left; by exists (String c a)|]. injection E as <- E.
    destruct (IH _ E) as [(y & -> & ->)|(y & -> & ->)]; [left|right]; by exists y.
Qed.

Lemma ends_space_encode r : valid_rune r -> rune_space r = false -> ~ ends_space (encode_rune r).
Proof.
  intros Hv Hr (p & q & E & Hq & L). pose proof (space_free_encode r "" Hv) as F.
  rewrite str_app_nil_r, Hr in F. cbn [negb andb space_free] in F. rewrite E in F. clear E.
  induction p as [|c p IH]; cbn [String.append space_free] in F.
  - destruct q as [|a q]; [done|]. cbn [space_free] in F. rewrite L in F. done.
  - apply andb_true_iff in F as [_ F]. auto.
Qed.

Lemma ends_space_app r t : t <> "" -> (exists c t', t = String c t' /\ is_cont (bv c) = false) ->
  ~ ends_space t -> ~ ends_space (encode_rune r +:+ t).
Proof.
  intros Ht (c & t' & -> & Hc) Hn (p & q & E & Hq & L).
  apply app_split_cases in E as [(y & _ & E)|(y & _ & E)].
  - subst q. destruct y as [|b y]; [apply Hn; by exists "", (String c t')|].
    by apply (space_not_across (String b y) c t').
  - apply Hn. by exists y, q.
Qed.

Lemma map_runes_head f k s : (k < String.length s)%nat ->
  exists c t, map_runes_skip f k s = String c t /\ is_cont (bv c) = false.
Proof.
  revert k. induction s as [|a s IH]; intros k Hk; [simpl in Hk; lia|].
  destruct k as [|k]; cbn [map_runes_skip]; [|apply IH; simpl in Hk; lia].
  destruct (decode_rune _) as [r w]. destruct (encode_rune_head (f r)) as (c & t & -> & Hc).
  cbn [String.append]. eauto.
Qed.

Lemma map_runes_skip_all f k s : (String.length s <= k)%nat -> map_runes_skip f k s = "".
Proof.
  revert k. induction s as [|a s IH]; intros k Hk; [by destruct k|].
  destruct k as [|k]; [simpl in Hk; lia|]. cbn [map_runes_skip]. apply IH. simpl in Hk. lia.
Qed.

Lemma ToLower_not_ends_space s : ~ ends_space s -> ~ ends_space (ToLower s).
Proof.
  unfold ToLower. generalize 0%nat as k. induction s as [|a s IH]; intros k H; [by destruct k|].
  assert (Hs : ~ ends_space s).
  { intros (p & q & -> & ? & ?). apply H. by exists (String a p), q. }
  destruct k as [|k]; cbn [map_runes_skip]; [|by apply IH].
  pose proof (decode_rune_valid (String a s) ltac:(done)) as Hv.
  pose proof (rune_space_len (String a s) ltac:(done)) as Sp.
  pose proof (decode_rune_le (String a s) : (_ <= S (String.length s))%nat) as W.
  pose proof (space_len_decode (String a s)) as Sw.
  destruct (decode_rune (String a s)) as [r w]. cbn [fst snd] in *.
  assert (Hv' : valid_rune (unicode_ToLower r)) by (eapply case_valid; eauto using lower_table_ok).
  destruct (decide (w - 1 < String.length s)%nat) as [Hw|Hw].
  - pose proof (map_runes_head unicode_ToLower (w - 1) s Hw) as Hd.
    apply ends_space_app; [|done|by apply IH]. by destruct Hd as (? & ? & -> & _).
  - rewrite map_runes_skip_all by lia. rewrite str_app_nil_r.
    apply ends_space_encode; [done|]. apply unicode_ToLower_space.
    destruct (rune_space r) eqn:R; [|done]. exfalso. apply H. exists "", (String a s).
    repeat split; [done|]. destruct (Sw (Sp eq_refl)) as [_ <-]. cbn [String.length].
    pose proof (Sp eq_refl). destruct (Sw (Sp eq_refl)). lia.
Qed.

Definition trimmed (s : string) : Prop := TrimSpace s = s.

Lemma trimmed_spec s : trimmed s <-> space_len s = 0%nat /\ ~ ends_space s.
Proof.
  split.
  - intros H. unfold trimmed, TrimSpace in H. destruct s as [|a s].
    { split; [done|]. intros (p & q & E & Hq & _). symmetry in E. by apply str_app_eq_nil in E as [_ ->]. }
    assert (L : space_len (String a s) = 0%nat).
    { destruct (space_len (String a s)) as [|k] eqn:E; [done|]. exfalso.
      unfold TrimLeftSpace in H. cbn [trim_left_skip] in H. rewrite E in H.
      assert (forall k s, String.length (trim_left_skip k s) <= String.length s)%nat as G.
      { clear. intros k s. revert k. induction s as [|c s IH]; intros k; [by destruct k|].
        destruct k; cbn [trim_left_skip]; [destruct (space_len _); [done|]|]; etrans; try apply IH; simpl; lia. }
      destruct (TrimRightSpace_prefix (trim_left_skip k s)) as [r Hr]. rewrite H in Hr.
      specialize (G k s). rewrite Hr, str_len_app in G. simpl in G. lia. }
    split; [done|]. rewrite TrimLeftSpace_id in H by done. by apply ends_space_TrimRightSpace.
  - intros [L H]. unfold trimmed, TrimSpace. rewrite TrimLeftSpace_id by done. by apply TrimRightSpace_fixed.
Qed.

Lemma trimmed_ToLower s : trimmed s -> trimmed (ToLower s).
Proof.
  rewrite !trimmed_spec. intros [L H]. split; [|by apply ToLower_not_ends_space].
  destruct s as [|a s]; [done|]. apply space_len_rune in L; [|done].
  pose proof (decode_rune_valid (String a s) ltac:(done)) as Hv. unfold ToLower. cbn [map_runes_skip].
  destruct (decode_rune (String a s)) as [r w]. cbn [fst] in *.
  assert (Hv' : valid_rune (unicode_ToLower r)) by (eapply case_valid; eauto using lower_table_ok).
  apply space_len_rune.
  - destruct (encode_rune_cons (unicode_ToLower r)) as (? & ? & ->). done.
  - rewrite decode_encode by done. by apply unicode_ToLower_space.
Qed.

(** [strings.ToLower(strings.TrimSpace(s))] is a normal form. *)
Lemma TrimSpace_ToLower s : TrimSpace (ToLower (TrimSpace s)) = ToLower (TrimSpace s).
Proof. apply trimmed_ToLower, TrimSpace_idem. Qed.
#[export] Hint Rewrite TrimSpace_ToLower : csx.

(** A space-free word is trimmed, and cutting at a byte keeps words apart. *)
Lemma Join_Forall (P : ascii -> bool) ws sep :
  Forall (fun w => str_forall P w = true) ws -> str_forall P sep = true -> str_forall P (Join ws sep) = true.
Proof.
  intros H Hs. induction ws as [|w [|w' ws] IH]; [done|by inversion H|].
  inversion H; subst. rewrite Join_cons2, !str_forall_app. by rewrite H2, Hs, IH.
Qed.

(** ** Blank strings: what [TrimSpace] removes *)

(** A concatenation of whole white-space runes. *)
Inductive blank : string -> Prop :=
| blank_nil : blank ""
| blank_app q s : q <> "" -> space_len q = String.length q -> blank s -> blank (q +:+ s).

Definition starts_rune (s : string) : Prop := match s with "" => True | String c _ => is_cont (bv c) = false end.

Lemma space_len_full a p r k : space_len (String a (p +:+ r)) = S k -> (k <= String.length p)%nat ->
  space_len (String a p) = S k.
Proof.
  unfold space_len. cbn zeta. destruct (_ || _); [done|]. destruct p as [|b p]; cbn [String.append String.length].
  { destruct r as [|b r]; [done|]. destruct (_ && _); [intros [= <-]; lia|].
    destruct r as [|c r]; [done|]. destruct (_ || _); [intros [= <-]; lia|done]. }
  destruct (_ && _); [done|]. destruct p as [|c p]; cbn [String.append String.length]; [|done].
  destruct r as [|c r]; [done|]. destruct (_ || _); [intros [= <-]; lia|done].
Qed.

Lemma space_len_le s : (space_len s <= String.length s)%nat.
Proof.
  destruct s as [|a s]; [done|]. destruct (space_len (String a s)) as [|k] eqn:L; [lia|].
  apply space_len_conts in L. simpl. apply le_n_S. revert s L.
  induction k as [|k IH]; intros [|c s]; cbn [conts String.length]; try lia; try done.
  intros [_ H]%andb_true_iff. apply IH in H. lia.
Qed.

(** The white space a string starts with, cut off. *)
Lemma space_len_cut s k : space_len s = S k ->
  exists q r, s = q +:+ r /\ String.length q = S k /\ space_len q = S k.
Proof.
  intros L. exists (str_take (S k) s), (str_drop (S k) s). rewrite str_take_drop. split; [done|].
  pose proof (space_len_le s) as B. destruct s as [|a s]; [done|]. cbn [str_take]. simpl in B.
  assert (E : String.length (str_take k s) = k).
  { rewrite L in B. clear L. revert k B. induction s as [|c s IH]; intros [|k] B; cbn [str_take String.length] in *;
      [done|lia|done|]. rewrite IH; lia. }
  split; [simpl; lia|]. apply (space_len_full a _ (str_drop k s)); [by rewrite str_take_drop|lia].
Qed.

Lemma blank_starts s : blank s -> starts_rune s.
Proof.
  intros [|q t Hq L _]; [done|]. destruct q as [|c q]; [done|]. cbn. unfold is_cont.
  destruct ((128 <=? bv c) && (bv c <=? 191)) eqn:C; [|done].
  rewrite space_len_cont in L by lia. done.
Qed.

Lemma trim_left_skip_app q s : trim_left_skip (String.length q) (q +:+ s) = TrimLeftSpace s.
Proof.
  induction q as [|c q IH]; [done|]. cbn [String.append String.length trim_left_skip]. done.
Qed.

Lemma trim_left_space q s : q <> "" -> space_len q = String.length q -> TrimLeftSpace (q +:+ s) = TrimLeftSpace s.
Proof.
  intros Hq L. destruct q as [|a q]; [done|]. cbn [String.append String.length] in *.
  unfold TrimLeftSpace at 1. cbn [trim_left_skip].
  destruct (space_len_prefix a q s) as [E|E]; [by rewrite E in L|]. rewrite <- E, L. apply trim_left_skip_app.
Qed.

Lemma trim_left_blank l x : blank l -> TrimLeftSpace (l +:+ x) = TrimLeftSpace x.
Proof.
  induction 1 as [|q s Hq L _ IH]; [done|]. by rewrite str_app_assoc, trim_left_space.
Qed.

Lemma TrimLeftSpace_split s : exists l, s = l +:+ TrimLeftSpace s /\ blank l.
Proof.
  remember (String.length s) as n eqn:Hn. revert s Hn.
  induction (lt_wf n) as [n _ IH]. intros s ->. destruct (space_len s) as [|k] eqn:L.
  - exists "". rewrite TrimLeftSpace_id by done. split; [done|constructor].
  - destruct (space_len_cut s k L) as (q & r & -> & Lq & Sq).
    assert (q <> "") as Hq by (intros ->; discriminate Lq).
    rewrite trim_left_space by congruence. rewrite str_len_app, Lq in IH.
    destruct (IH (String.length r) ltac:(lia) r eq_refl) as (l & E & B).
    exists (q +:+ l). rewrite str_app_assoc, <- E. split; [done|]. constructor; congruence.
Qed.

Lemma trim_left_nil_blank s : TrimLeftSpace s = "" <-> blank s.
Proof.
  split.
  - intros E. destruct (TrimLeftSpace_split s) as (l & H & B). rewrite E, str_app_nil_r in H. by subst.
  - intros B. rewrite <- (str_app_nil_r s), trim_left_blank by done. done.
Qed.

(** A blank string cut between runes: both parts are blank. *)
Lemma blank_cut x z : starts_rune z -> blank (x +:+ z) -> blank x /\ blank z.
Proof.
  intros Hz H. remember (x +:+ z) as s eqn:E. revert x E.
  induction H as [|q s Hq L Hs IH]; intros x E.
  - symmetry in E. apply str_app_eq_nil in E as [-> ->]. split; constructor.
  - apply app_split_cases in E as [(y & -> & Ey)|(y & -> & Ey)].
    + destruct y as [|c y].
      * rewrite str_app_nil_r in *. cbn in Ey. subst z. split; [|done].
        rewrite <- (str_app_nil_r x). constructor; [done..|constructor].
      * destruct x as [|d x]; [split; [constructor|]; subst z; constructor; done|].
        exfalso. subst z. apply (space_not_across (String d x) c y); done.
    + destruct (IH y Ey) as [B1 B2]. split; [constructor; done|done].
Qed.

Lemma TrimRightSpace_split s : exists r, s = TrimRightSpace s +:+ r /\ blank r.
Proof.
  induction s as [|a s (r & E & B)]; [exists ""; split; [done|constructor]|]. cbn [TrimRightSpace].
  destruct (String.eqb_spec (TrimLeftSpace (String a s)) "") as [N|N].
  - exists (String a s). split; [done|]. by apply trim_left_nil_blank.
  - exists r. cbn [String.append]. by rewrite <- E.
Qed.

Lemma trim_right_blank x r : blank r -> TrimRightSpace (x +:+ r) = TrimRightSpace x.
Proof.
  intros B. induction x as [|a x IH].
  - cbn [String.append]. destruct r as [|c r]; [done|]. cbn [TrimRightSpace].
    by rewrite (proj2 (trim_left_nil_blank _) B).
  - change (String a x +:+ r) with (String a (x +:+ r)). cbn [TrimRightSpace]. rewrite IH.
    assert (TrimLeftSpace (String a (x +:+ r)) = "" <-> TrimLeftSpace (String a x) = "") as E.
    { rewrite !trim_left_nil_blank. change (String a (x +:+ r)) with (String a x +:+ r). split.
      - intros H. by apply blank_cut in H as [? _]; [|apply blank_starts].
      - intros H. apply trim_left_nil_blank. rewrite trim_left_blank by done. by apply trim_left_nil_blank. }
    destruct (String.eqb_spec (TrimLeftSpace (String a (x +:+ r))) "") as [N|N];
      destruct (String.eqb_spec (TrimLeftSpace (String a x)) "") as [M|M]; tauto || done.
Qed.

Lemma space_len_app_rune a x r : starts_rune r -> space_len (String a (x +:+ r)) = space_len (String a x).
Proof.
  intros Hr. destruct (space_len (String a (x +:+ r))) as [|k] eqn:L.
  - destruct (space_len_prefix a x r) as [E|E]; [done|by rewrite E, L].
  - symmetry. apply (space_len_full a x r k L). apply space_len_conts in L.
    destruct (decide (k <= String.length x)%nat) as [|N]; [done|]. exfalso. revert k L N.
    induction x as [|b x IH]; intros k L N; cbn [String.append String.length] in *; destruct k as [|k]; try lia.
    + destruct r as [|c r]; [done|]. cbn [conts] in L. cbn in Hr. by rewrite Hr in L.
    + cbn [conts] in L. apply andb_true_iff in L as [_ L]. apply (IH k); [done|lia].
Qed.

Lemma trim_left_keep x r : starts_rune r -> TrimLeftSpace x <> "" -> TrimLeftSpace (x +:+ r) = TrimLeftSpace x +:+ r.
Proof.
  intros Hr Hx. destruct (TrimLeftSpace_split x) as (l & E & B).
  pose proof (trim_left_front 0 x : TrimLeftSpace (TrimLeftSpace x) = TrimLeftSpace x) as F.
  rewrite E at 1. rewrite str_app_assoc, trim_left_blank by done.
  destruct (TrimLeftSpace x) as [|a y]; [done|]. cbn [String.append]. apply TrimLeftSpace_id.
  rewrite space_len_app_rune by done. destruct (space_len (String a y)) as [|k] eqn:L'; [done|]. exfalso.
  destruct (space_len_cut _ _ L') as (q & t & Eq & Lq & Sq).
  assert (q <> "") as Hq by (intros ->; discriminate Lq).
  rewrite Eq, trim_left_space in F by congruence.
  destruct (TrimLeftSpace_split t) as (l' & Et & _). rewrite F in Et.
  apply (f_equal String.length) in Et. rewrite !str_len_app in Et. lia.
Qed.

(** White space around a text does not matter to [TrimSpace]. *)
Lemma TrimSpace_around l x r : blank l -> blank r -> TrimSpace (l +:+ x +:+ r) = TrimSpace x.
Proof.
  intros Bl Br. unfold TrimSpace. rewrite trim_left_blank by done.
  destruct (String.eqb_spec (TrimLeftSpace x) "") as [E|N].
  - pose proof (proj1 (trim_left_nil_blank x) E). rewrite trim_left_blank by done.
    rewrite E, (proj2 (trim_left_nil_blank r) Br). done.
  - rewrite trim_left_keep by (try apply blank_starts; done). by apply trim_right_blank.
Qed.

Lemma TrimSpace_split s : exists l r, s = l +:+ TrimSpace s +:+ r /\ blank l /\ blank r.
Proof.
  destruct (TrimLeftSpace_split s) as (l & E & B). destruct (TrimRightSpace_split (TrimLeftSpace s)) as (r & E' & B').
  exists l, r. unfold TrimSpace. by rewrite <- E', <- E.
Qed.

(** ** The words of a text, whatever separates them *)

(** What follows a rune boundary is split on its own, up to the word that may
    run across the boundary. *)
Lemma fields_go_app k x r : (k <= String.length x)%nat -> starts_rune r -> fst (fields_go 0 r) = "" ->
  fields_go k (x +:+ r) = let '(w, ws) := fields_go k x in (w, ws ++ snd (fields_go 0 r))%list.
Proof.
  intros Hk Hr H0. revert k Hk. induction x as [|a x IH]; intros k Hk.
  - destruct k; [|simpl in Hk; lia]. cbn [String.append]. destruct (fields_go 0 r) as [w ws]. cbn in *. by subst.
  - cbn [String.append fields_go String.length] in *.
    assert (P : forall w ws F, push w (ws ++ F)%list = (push w ws ++ F)%list) by (intros [] ?; done).
    destruct k as [|k]; [|rewrite IH by lia; destruct (fields_go k x); by rewrite P].
    rewrite space_len_app_rune by done. pose proof (space_len_le (String a x)) as B. simpl in B.
    destruct (space_len (String a x)) as [|k]; [rewrite IH by lia; by destruct (fields_go 0 x)|].
    rewrite IH by lia. destruct (fields_go k x). by rewrite P.
Qed.

Lemma fields_go_skip q s : fields_go (String.length q) (q +:+ s) =
  match q with "" => fields_go 0 s | _ => let '(w, ws) := fields_go 0 s in ("", push w ws) end.
Proof.
  induction q as [|a q IH]; [done|]. cbn [String.append String.length fields_go]. rewrite IH.
  destruct q; destruct (fields_go 0 s); done.
Qed.

Lemma fields_go_space q s : q <> "" -> space_len q = String.length q -> fields_go 0 (q +:+ s) = ("", Fields s).
Proof.
  intros Hq L. destruct q as [|a q]; [done|]. cbn [String.append fields_go].
  destruct (space_len_prefix a q s) as [E|E]; [by rewrite E in L|]. rewrite <- E, L. cbn [String.length].
  rewrite fields_go_skip. unfold Fields. destruct q; destruct (fields_go 0 s); done.
Qed.

Lemma Fields_blank_l l x : blank l -> Fields (l +:+ x) = Fields x.
Proof.
  induction 1 as [|q s Hq L _ IH]; [done|]. rewrite str_app_assoc. unfold Fields at 1.
  by rewrite fields_go_space, IH.
Qed.

Lemma fields_go_blank r : blank r -> fields_go 0 r = ("", []).
Proof.
  intros [|q s Hq L B]; [done|]. rewrite fields_go_space by done.
  by rewrite <- (str_app_nil_r s), Fields_blank_l.
Qed.

Lemma Fields_blank_r x r : blank r -> Fields (x +:+ r) = Fields x.
Proof.
  intros B. pose proof (fields_go_blank r B) as E. unfold Fields.
  rewrite fields_go_app by (rewrite ?E; first [lia | by apply blank_starts | done]).
  rewrite E. destruct (fields_go 0 x). cbn [snd]. by rewrite app_nil_r.
Qed.

Lemma Fields_TrimSpace s : Fields (TrimSpace s) = Fields s.
Proof.
  destruct (TrimSpace_split s) as (l & r & E & Bl & Br). rewrite E at 2.
  by rewrite Fields_blank_l, Fields_blank_r.
Qed.

Lemma Fields_byte a c b : ascii_space c = true -> Fields (a +:+ String c b) = (Fields a ++ Fields b)%list.
Proof.
  intros Hc. assert (S : space_len (single c) = 1%nat).
  { unfold single. rewrite space_len_ascii, Hc; [done|]. unfold ascii_space, is_ascii_byte in *. lia. }
  pose proof (fields_go_space (single c) b ltac:(done) S) as E. change (single c +:+ b) with (String c b) in E.
  unfold Fields at 1. rewrite fields_go_app; [|lia| |by rewrite E].
  - rewrite E. cbn [snd]. unfold Fields at 2. destruct (fields_go 0 a) as [w ws]. unfold push. by destruct (String.eqb w "").
  - cbn. unfold is_cont, ascii_space in *. lia.
Qed.

Lemma Fields_Join_byte ws c : ascii_space c = true -> Fields (Join ws (single c)) = flat_map Fields ws.
Proof.
  intros Hc. induction ws as [|w [|w' ws] IH]; [done|cbn; by rewrite app_nil_r|].
  rewrite Join_cons2. change (single c +:+ Join (w' :: ws) (single c)) with (String c (Join (w' :: ws) (single c))).
  rewrite Fields_byte by done. cbn [flat_map] in *. by rewrite IH.
Qed.
