(* ===== verification/Regexp.v ===== *)
(** * Regular expressions (Go's regexp package)

    What the program uses of package regexp: patterns over the runes of a
    string, matched leftmost-first (the first alternative that leads to a
    match wins, repetition is greedy), with captures, [\b], and the line and
    text anchors.  The matcher is the backtracking definition of that
    semantics; [matches] is the language of a pattern without the priorities,
    and [matchAt] is shown to find a match exactly where there is one. *)

From S2P Require Import Prelude GoStrings GoUnicode StringFacts UnicodeFacts.

(** ** Subjects

    A string as the matcher reads it: each rune with the bytes it came from.
    An invalid byte is [rune_error] and keeps its byte. *)
Definition tok : Type := Z * string.

Fixpoint toks_skip (k : nat) (s : string) : list tok :=
  match s with
  | "" => []
  | String _ s' =>
      match k with
      | S k' => toks_skip k' s'
      | O => let '(r, w) := decode_rune s in (r, str_take w s) :: toks_skip (w - 1) s'
      end
  end.

Definition toks (s : string) : list tok := toks_skip 0 s.

Fixpoint text (l : list tok) : string :=
  match l with [] => "" | t :: l' => snd t +:+ text l' end.

(** ** Patterns *)

Inductive regex :=
| REps
| RClass (p : Z -> bool)
| RSeq (a b : regex)
| RAlt (a b : regex)
| RStar (a : regex)
| RCap (n : nat) (a : regex)
| RTextBegin
| RLineBegin
| RTextEnd
| RWordB.

Definition RPlus (a : regex) : regex := RSeq a (RStar a).
Definition ROpt (a : regex) : regex := RAlt a REps.

Fixpoint RExact (n : nat) (a : regex) : regex :=
  match n with O => REps | S n' => RSeq a (RExact n' a) end.

(** [a{n,}] and [a{n,n+m}]. *)
Definition RAtLeast (n : nat) (a : regex) : regex := RSeq (RExact n a) (RStar a).
Fixpoint RUpTo (m : nat) (a : regex) : regex :=
  match m with O => REps | S m' => ROpt (RSeq a (RUpTo m' a)) end.
Definition RBetween (n m : nat) (a : regex) : regex := RSeq (RExact n a) (RUpTo (m - n) a).

Fixpoint RAlts (a : regex) (rs : list regex) : regex :=
  match rs with [] => a | r :: rs' => RAlt a (RAlts r rs') end.

Fixpoint RSeqs (rs : list regex) : regex :=
  match rs with [] => REps | [r] => r | r :: rs' => RSeq r (RSeqs rs') end.

(** Classes: a range, the bytes of an ASCII string, complements and unions. *)
Definition rng (lo hi : ascii) (r : Z) : bool := (bv lo <=? r) && (r <=? bv hi).
Fixpoint any_of (set : string) (r : Z) : bool :=
  match set with "" => false | String c set' => (r =? bv c) || any_of set' r end.
Definition none_of (p : Z -> bool) (r : Z) : bool := negb (p r).
Definition either (p q : Z -> bool) (r : Z) : bool := p r || q r.

Definition re_digit : Z -> bool := rng "0" "9".
Definition re_lower : Z -> bool := rng "a" "z".
Definition re_upper : Z -> bool := rng "A" "Z".
Definition re_alpha : Z -> bool := either re_upper re_lower.
Definition re_alnum : Z -> bool := either re_alpha re_digit.
(** [\s] is ASCII white space without the vertical tab. *)
Definition re_space (r : Z) : bool := (r =? 9) || (r =? 10) || (r =? 12) || (r =? 13) || (r =? 32).
Definition re_word : Z -> bool := either re_alnum (any_of "_").

(** A literal, and a literal under [(?i)], which folds as
    [unicode.SimpleFold] does. *)
Definition lit_rune (c : Z) : regex := RClass (fun r => r =? c).
Definition fold_lit (c : Z) : regex := RClass (fun r => fold_rune r =? fold_rune c).
Definition RLit (s : string) : regex := RSeqs (map lit_rune (runes s)).
Definition RLitFold (s : string) : regex := RSeqs (map fold_lit (runes s)).

(** ** The matcher *)

Definition captures : Type := list (nat * list tok).

Definition is_wordo (o : option Z) : bool := match o with Some r => re_word r | None => false end.
Definition next_rune (l : list tok) : option Z := match l with [] => None | t :: _ => Some (fst t) end.
Definition at_boundary (prev : option Z) (l : list tok) : bool :=
  xorb (is_wordo prev) (is_wordo (next_rune l)).
Definition at_line (prev : option Z) : bool := match prev with None => true | Some r => r =? 10 end.
Definition at_text (prev : option Z) : bool := match prev with None => true | Some _ => false end.

(** The runes between two positions, the second a suffix of the first. *)
Definition between (l l' : list tok) : list tok := firstn (length l - length l') l.

Section matcher.
  Context {A : Type}.

(** Greedy repetition of a matcher, at most [n] times. *)
Fixpoint star_loop (m : option Z -> list tok -> captures -> (option Z -> list tok -> captures -> option A) -> option A)
    (k : option Z -> list tok -> captures -> option A) (n : nat) (prev : option Z) (l : list tok) (caps : captures) : option A :=
    match n with
    | O => k prev l caps
    | S n' =>
        match m prev l caps (star_loop m k n') with
        | Some x => Some x
        | None => k prev l caps
        end
    end.

(** A repetition cannot take more rounds than there are runes. *)
Fixpoint rmatch (r : regex) (prev : option Z) (l : list tok) (caps : captures)
    (k : option Z -> list tok -> captures -> option A) : option A :=
    match r with
    | REps => k prev l caps
    | RClass p =>
        match l with
        | [] => None
        | t :: l' => if p (fst t) then k (Some (fst t)) l' caps else None
        end
    | RSeq a b => rmatch a prev l caps (fun prev' l' caps' => rmatch b prev' l' caps' k)
    | RAlt a b =>
        match rmatch a prev l caps k with
        | Some x => Some x
        | None => rmatch b prev l caps k
        end
    | RStar a => star_loop (rmatch a) k (length l) prev l caps
    | RCap n a => rmatch a prev l caps (fun prev' l' caps' => k prev' l' ((n, between l l') :: caps'))
    | RTextBegin => if at_text prev then k prev l caps else None
    | RLineBegin => if at_line prev then k prev l caps else None
    | RTextEnd => match l with [] => k prev l caps | _ => None end
    | RWordB => if at_boundary prev l then k prev l caps else None
    end.
End matcher.

(** The match at a position: what is left, and the captures. *)
Definition matchAt (r : regex) (prev : option Z) (l : list tok) : option (list tok * captures) :=
  rmatch r prev l [] (fun _ l' caps => Some (l', caps)).

Definition capture (n : nat) (caps : captures) : string :=
  match List.find (fun c => Nat.eqb (fst c) n) caps with Some c => text (snd c) | None => "" end.

(** The leftmost match: the text before it, the match, the rest. *)
Fixpoint search (r : regex) (prev : option Z) (l : list tok) : option (list tok * captures) :=
  match matchAt r prev l with
  | Some (l', caps) => Some (between l l', caps)
  | None => match l with [] => None | t :: l' => search r (Some (fst t)) l' end
  end.

Definition MatchString (r : regex) (s : string) : bool :=
  match search r None (toks s) with Some _ => true | None => false end.
Definition FindString (r : regex) (s : string) : string :=
  match search r None (toks s) with Some (m, _) => text m | None => "" end.
Definition FindSubmatch (r : regex) (s : string) (n : nat) : string :=
  match search r None (toks s) with Some (_, caps) => capture n caps | None => "" end.

(** [ReplaceAllStringFunc] and [ReplaceAllString], for patterns that match no
    empty string: matches are replaced from left to right, the replacement
    seeing the match and its captures and threading a state.  [n] bounds the
    steps; the length of the subject is enough. *)
Section replace.
  Context {St : Type} (r : regex) (f : list tok -> captures -> St -> string * St).

Fixpoint replace_walk (n : nat) (prev : option Z) (l : list tok) (st : St) : string * St :=
    match n, l with
    | O, _ => (text l, st)
    | _, [] => ("", st)
    | S n', t :: rest =>
        match matchAt r prev l with
        | Some (l', caps) =>
            let m := between l l' in
            let '(out, st1) := f m caps st in
            let '(out', st2) := replace_walk n' (next_rune (rev m)) l' st1 in
            (out +:+ out', st2)
        | None =>
            let '(out', st') := replace_walk n' (Some (fst t)) rest st in
            (snd t +:+ out', st')
        end
    end.

Definition ReplaceAllWith (s : string) (st : St) : string * St :=
    replace_walk (length (toks s)) None (toks s) st.
End replace.

Definition ReplaceAllFunc (r : regex) (f : string -> string) (s : string) : string :=
  fst (ReplaceAllWith r (fun m _ st => (f (text m), st)) s tt).

(** The template [pre ++ ${1} ++ post]. *)
Definition ReplaceAllKeep (r : regex) (post : string) (s : string) : string :=
  fst (ReplaceAllWith r (fun _ caps st => (capture 1 caps +:+ post, st)) s tt).
Definition ReplaceAllString (r : regex) (repl : string) (s : string) : string :=
  ReplaceAllFunc r (fun _ => repl) s.

(** [strings.ReplaceAll] of a non-empty [old]; [k] counts the bytes of the
    current occurrence still to pass over. *)
Fixpoint replace_skip (old new : string) (k : nat) (s : string) : string :=
  match s with
  | "" => ""
  | String c s' =>
      match k with
      | S k' => replace_skip old new k' s'
      | O => if HasPrefix s old then new +:+ replace_skip old new (String.length old - 1) s'
             else String c (replace_skip old new 0 s')
      end
  end.

Definition ReplaceAll (s old new : string) : string := replace_skip old new 0 s.

Example re_uuid_like : ReplaceAllString (RSeqs [RWordB; RBetween 2 3 (RClass re_digit); RWordB]) "<n>" "12 1 1234 999!" = "<n> 1 1234 <n>!".
Proof. vm_compute. reflexivity. Qed.
Example re_keep : ReplaceAllKeep (RSeqs [RCap 1 (RSeq (RLitFold "pid") (RStar (RClass re_space))); RPlus (RClass re_digit)])
  "<pid>" "PID 44, pid5 pid" = "PID <pid>, pid<pid> pid".
Proof. vm_compute. reflexivity. Qed.

(** ** Subjects, again *)

Lemma toks_skip_cons c s : toks_skip 0 (String c s) =
  (fst (decode_rune (String c s)), str_take (snd (decode_rune (String c s))) (String c s))
  :: toks_skip (snd (decode_rune (String c s)) - 1) s.
Proof. cbn [toks_skip]. by destruct (decode_rune (String c s)). Qed.

Lemma toks_skip_text k s : text (toks_skip k s) = str_drop k s.
Proof.
  revert k. induction s as [|c s IH]; intros [|k]; try done; [|apply IH]. rewrite toks_skip_cons. cbn [text].
  pose proof (decode_rune_width (String c s) ltac:(done)) as W.
  destruct (decode_rune (String c s)) as [r w]. simpl in W. cbn [fst snd].
  rewrite IH. destruct w as [|w]; [lia|]. simpl. by rewrite Nat.sub_0_r, str_take_drop.
Qed.

Lemma toks_text s : text (toks s) = s.
Proof. apply toks_skip_text. Qed.

Lemma text_app a b : text (a ++ b) = text a +:+ text b.
Proof. induction a as [|t a IH]; [done|]. simpl. by rewrite IH, str_app_assoc. Qed.

Lemma between_app m l : between (m ++ l) l = m.
Proof.
  unfold between. rewrite length_app. replace (_ - _)%nat with (length m) by lia.
  by rewrite firstn_app, Nat.sub_diag, firstn_all, app_nil_r.
Qed.

(** Each rune of a subject stands for itself: an ASCII rune is its own byte,
    any other has no ASCII byte. *)
Definition tok_ok (t : tok) : Prop :=
  (0 <= fst t < 128 /\ snd t = single (chr (fst t)))
  \/ (128 <= fst t /\ str_forall (fun c => negb (is_ascii_byte c)) (snd t) = true).

Lemma decode_take_ok c s : tok_ok (fst (decode_rune (String c s)), str_take (snd (decode_rune (String c s))) (String c s)).
Proof.
  unfold tok_ok. cbn [fst snd]. destruct (Z.lt_ge_cases (bv c) 128) as [L|G].
  - left. rewrite decode_ascii by done. cbn. pose proof (bv_range c). split; [lia|]. by rewrite chr_bv.
  - right. pose proof (bv_range c) as R.
    pose proof (decode_small c s) as D. split; [destruct (Z.lt_ge_cases (fst (decode_rune (String c s))) 128) as [X|X]; [apply D in X; lia|lia]|].
    assert (NA : negb (is_ascii_byte c) = true) by (unfold is_ascii_byte; destruct (Z.ltb_spec (bv c) 128); [lia|done]).
    clear D. unfold decode_rune. destruct (Z.ltb_spec (bv c) 128); [lia|].
    repeat match goal with
    | |- context [match ?x with "" => _ | String _ _ => _ end] => destruct x
    | |- context [if ?b then _ else _] => let E := fresh "B" in destruct b eqn:E
    end; cbn [snd str_take]; unfold str_forall; fold str_forall; rewrite ?NA; cbn [andb]; try done;
    bool_facts; unfold is_cont in *; bool_facts; unfold is_ascii_byte;
    repeat match goal with |- context [?x <? 128] => destruct (Z.ltb_spec x 128); [exfalso|] end; try done;
    repeat match goal with H : context [if ?b then _ else _] |- _ => destruct b end; lia.
Qed.

Lemma toks_skip_ok k s : Forall tok_ok (toks_skip k s).
Proof.
  revert k. induction s as [|c s IH]; intros [|k]; try (by constructor); [|apply IH].
  rewrite toks_skip_cons. constructor; [apply decode_take_ok|apply IH].
Qed.

Lemma toks_ok s : Forall tok_ok (toks s).
Proof. apply toks_skip_ok. Qed.

(** ** The language of a pattern

    [run r prev l caps prev' l' caps']: the pattern can match from the
    position [prev|l] to [prev'|l'], whatever the priorities. *)
Inductive run : regex -> option Z -> list tok -> captures -> option Z -> list tok -> captures -> Prop :=
| run_eps p l c : run REps p l c p l c
| run_class P t p l c : P (fst t) = true -> run (RClass P) p (t :: l) c (Some (fst t)) l c
| run_seq a b p l c p1 l1 c1 p2 l2 c2 :
    run a p l c p1 l1 c1 -> run b p1 l1 c1 p2 l2 c2 -> run (RSeq a b) p l c p2 l2 c2
| run_alt_l a b p l c p' l' c' : run a p l c p' l' c' -> run (RAlt a b) p l c p' l' c'
| run_alt_r a b p l c p' l' c' : run b p l c p' l' c' -> run (RAlt a b) p l c p' l' c'
| run_star_nil a p l c : run (RStar a) p l c p l c
| run_star_cons a p l c p1 l1 c1 p2 l2 c2 :
    run a p l c p1 l1 c1 -> run (RStar a) p1 l1 c1 p2 l2 c2 -> run (RStar a) p l c p2 l2 c2
| run_cap n a p l c p' l' c' : run a p l c p' l' c' -> run (RCap n a) p l c p' l' ((n, between l l') :: c')
| run_text_begin p l c : at_text p = true -> run RTextBegin p l c p l c
| run_line_begin p l c : at_line p = true -> run RLineBegin p l c p l c
| run_text_end p c : run RTextEnd p [] c p [] c
| run_word_b p l c : at_boundary p l = true -> run RWordB p l c p l c.

Create HintDb regex discriminated.
#[export] Hint Constructors run : regex.

(** The runes a pattern can consume, whether it consumes one at least, and
    whether the body of every repetition does. *)
Fixpoint chars (r : regex) (z : Z) : bool :=
  match r with
  | RClass p => p z
  | RSeq a b | RAlt a b => chars a z || chars b z
  | RStar a | RCap _ a => chars a z
  | _ => false
  end.

Fixpoint consumes (r : regex) : bool :=
  match r with
  | RClass _ => true
  | RSeq a b => consumes a || consumes b
  | RAlt a b => consumes a && consumes b
  | RCap _ a => consumes a
  | _ => false
  end.

Fixpoint productive (r : regex) : bool :=
  match r with
  | RSeq a b | RAlt a b => productive a && productive b
  | RStar a => consumes a && productive a
  | RCap _ a => productive a
  | _ => true
  end.

Lemma run_prefix r p l c p' l' c' : run r p l c p' l' c' ->
  exists w, l = (w ++ l')%list /\ Forall (fun t => chars r (fst t) = true) w
    /\ (consumes r = true -> w <> []) /\ p' = match next_rune (rev w) with Some z => Some z | None => p end.
Proof.
  induction 1 as [p l c|P t p l c E|a b p l c p1 l1 c1 p2 l2 c2 _ [w1 (-> & F1 & N1 & ->)] _ [w2 (-> & F2 & N2 & ->)]
    |a b p l c p' l' c' _ [w (-> & F & N & ->)]|a b p l c p' l' c' _ [w (-> & F & N & ->)]|a p l c
    |a p l c p1 l1 c1 p2 l2 c2 _ [w1 (-> & F1 & N1 & ->)] _ [w2 (-> & F2 & N2 & ->)]
    |n a p l c p' l' c' _ [w (-> & F & N & ->)]|p l c E|p l c E|p c|p l c E];
    try (by exists []; repeat split).
  - exists [t]. repeat split; [|done]. by constructor.
  - exists (w1 ++ w2)%list. rewrite app_assoc. repeat split.
    + apply Forall_app. split; (eapply List.Forall_impl; [|eassumption]); simpl; intros t H; rewrite H; by rewrite ?orb_true_r.
    + simpl. intros H E. apply app_eq_nil in E as [-> ->]. apply orb_true_iff in H as [H|H]; [by apply N1|by apply N2].
    + rewrite rev_app_distr. destruct (rev w2); [done|]. simpl. done.
  - exists w. repeat split; [|simpl; intros H; apply andb_true_iff in H; tauto].
    eapply List.Forall_impl; [|eassumption]. simpl. intros t H. by rewrite H.
  - exists w. repeat split; [|simpl; intros H; apply andb_true_iff in H; tauto].
    eapply List.Forall_impl; [|eassumption]. simpl. intros t H. by rewrite H, orb_true_r.
  - exists (w1 ++ w2)%list. rewrite app_assoc. repeat split; [by apply Forall_app|done|].
    rewrite rev_app_distr. by destruct (rev w2).
  - exists w. by repeat split.
Qed.

Section soundness.
  Context {A : Type}.

(** Whatever the matcher finds is a match of the language ... *)
Lemma rmatch_run r p l c (k : option Z -> list tok -> captures -> option A) x : rmatch r p l c k = Some x ->
    exists p' l' c', run r p l c p' l' c' /\ k p' l' c' = Some x.
  Proof.
    revert p l c k. induction r as [|P|a IHa b IHb|a IHa b IHb|a IHa|n a IHa| | | |]; intros p l c k H; simpl in H.
    - eauto with regex.
    - destruct l as [|t l]; [done|]. destruct (P (fst t)) eqn:E; [|done]. eauto 6 with regex.
    - apply IHa in H as (p1 & l1 & c1 & R1 & H). apply IHb in H as (p2 & l2 & c2 & R2 & H). eauto 6 with regex.
    - destruct (rmatch a p l c k) eqn:E; [injection H as ->; apply IHa in E|apply IHb in H]; naive_solver eauto with regex.
    - revert H. generalize (length l). intros n. revert p l c. induction n as [|n IH]; intros p l c H; [eauto with regex|].
      simpl in H. destruct (rmatch a p l c (star_loop (rmatch a) k n)) eqn:E; [|eauto with regex]. injection H as ->.
      apply IHa in E as (p1 & l1 & c1 & R1 & E). apply IH in E as (p2 & l2 & c2 & R2 & E). eauto 6 with regex.
    - apply IHa in H as (p1 & l1 & c1 & R1 & H). eauto 6 with regex.
    - destruct (at_text p) eqn:E; [|done]. eauto 6 with regex.
    - destruct (at_line p) eqn:E; [|done]. eauto 6 with regex.
    - destruct l; [|done]. eauto 6 with regex.
    - destruct (at_boundary p l) eqn:E; [|done]. eauto 6 with regex.
  Qed.

(** ... and the matcher finds one where there is one. *)
Lemma run_rmatch r p l c p' l' c' (k : option Z -> list tok -> captures -> option A) : productive r = true ->
    run r p l c p' l' c' -> k p' l' c' <> None -> rmatch r p l c k <> None.
  Proof.
    revert p l c p' l' c' k. induction r as [|P|a IHa b IHb|a IHa b IHb|a IHa|n a IHa| | | |];
      intros p l c p' l' c' k Pr R K; simpl in Pr |- *; bool_facts.
    - by inversion R; subst.
    - inversion R as [|? ? ? ? ? E| | | | | | | | | |]; subst. by rewrite E.
    - inversion R; subst. eapply IHa; [done|eassumption|]. eapply IHb; eassumption.
    - destruct (rmatch a p l c k) eqn:E; [done|]. inversion R; subst; [|eapply IHb; eassumption].
      exfalso. eapply IHa; eassumption.
    - rename select (consumes a = true) into Ca. assert (L : (length l <= length l)%nat) by done. revert L. generalize (length l) at 2 3.
      intros n. revert p l c R. induction n as [|n IH]; intros p l c R L.
      + inversion R as [| | | | | |? ? ? ? ? ? ? ? ? ? R1| | | | |]; subst; [done|].
        apply run_prefix in R1 as (w & -> & _ & N & _). specialize (N Ca). destruct w; [done|]. simpl in L. lia.
      + simpl. destruct (rmatch a p l c (star_loop (rmatch a) k n)) eqn:E; [done|].
        inversion R as [| | | | | |? ? ? ? ? ? ? ? ? ? R1 R2| | | | |]; subst; [done|]. exfalso. revert E.
        pose proof R1 as R1'. apply run_prefix in R1' as (w & -> & _ & N & _). specialize (N Ca).
        eapply IHa; [done|exact R1|]. apply IH; [done|]. rewrite length_app in L. destruct w; [done|]. simpl in L. lia.
    - inversion R; subst. eapply IHa; [done|eassumption|done].
    - inversion R as [| | | | | | | |? ? ? E| | |]; subst. by rewrite E.
    - inversion R as [| | | | | | | | |? ? ? E| |]; subst. by rewrite E.
    - by inversion R; subst.
    - inversion R as [| | | | | | | | | | |? ? ? E]; subst. by rewrite E.
  Qed.
End soundness.

(** [matchAt] finds a match exactly where the language has one. *)
Theorem matchAt_decides r p l : productive r = true ->
  (matchAt r p l <> None <-> exists p' l' c', run r p l [] p' l' c').
Proof.
  intros P. split.
  - destruct (matchAt r p l) as [[l' c']|] eqn:E; [|done]. intros _.
    apply rmatch_run in E as (p1 & l1 & c1 & R & _). eauto.
  - intros (p' & l' & c' & R). by eapply run_rmatch.
Qed.

Lemma matchAt_run r p l l' c : matchAt r p l = Some (l', c) -> exists p', run r p l [] p' l' c.
Proof. intros E. apply rmatch_run in E as (p1 & l1 & c1 & R & [= -> ->]). eauto. Qed.

Lemma matchAt_prefix r p l l' c : matchAt r p l = Some (l', c) ->
  exists w, l = (w ++ l')%list /\ between l l' = w /\ Forall (fun t => chars r (fst t) = true) w
    /\ (consumes r = true -> w <> []).
Proof.
  intros (p' & R)%matchAt_run. apply run_prefix in R as (w & -> & F & N & _).
  exists w. by rewrite between_app.
Qed.

Section replaced.
  Context {St : Type} (r : regex) (f : list tok -> captures -> St -> string * St).

(** What [replace_walk] does to a subject, as a relation. *)
Inductive replaced : option Z -> list tok -> St -> string -> St -> Prop :=
  | rp_nil p st : replaced p [] st "" st
  | rp_keep p t l st out st' : matchAt r p (t :: l) = None -> replaced (Some (fst t)) l st out st' ->
      replaced p (t :: l) st (snd t +:+ out) st'
  | rp_sub p m l c st o st1 out st2 : m <> [] -> matchAt r p (m ++ l)%list = Some (l, c) ->
      Forall (fun t => chars r (fst t) = true) m ->
      f m c st = (o, st1) -> replaced (next_rune (rev m)) l st1 out st2 ->
      replaced p (m ++ l)%list st (o +:+ out) st2.

Lemma walk_replaced n p l st : consumes r = true -> (length l <= n)%nat ->
    replaced p l st (fst (replace_walk r f n p l st)) (snd (replace_walk r f n p l st)).
  Proof.
    intros C. revert p l st. induction n as [|n IH]; intros p [|t l] st L; simpl in L; try lia; simpl; try constructor.
    destruct (matchAt r p (t :: l)) as [[l' c]|] eqn:E.
    - pose proof E as E'. apply matchAt_prefix in E as (w & E & -> & F & N). specialize (N C).
      destruct (f w c st) as [o st1] eqn:Ef. specialize (IH (next_rune (rev w)) l' st1).
      destruct (replace_walk r f n (next_rune (rev w)) l' st1) as [out st2]. cbn [fst snd] in *.
      rewrite E in E' |- *. eapply rp_sub; try done. apply IH.
      apply (f_equal length) in E. rewrite length_app in E. simpl in E. destruct w; [done|]. simpl in E. lia.
    - specialize (IH (Some (fst t)) l st ltac:(lia)). destruct (replace_walk r f n (Some (fst t)) l st) as [out st'].
      by constructor.
  Qed.

Lemma ReplaceAllWith_replaced s st : consumes r = true ->
    replaced None (toks s) st (fst (ReplaceAllWith r f s st)) (snd (ReplaceAllWith r f s st)).
  Proof. intros C. by apply walk_replaced. Qed.
End replaced.

(** A subject without a match comes back unchanged. *)
Lemma replace_none {St} r (f : list tok -> captures -> St -> string * St) s st : consumes r = true ->
  (forall m1 m2 p, (m1 ++ m2)%list = toks s -> matchAt r p m2 = None) -> ReplaceAllWith r f s st = (s, st).
Proof.
  intros C N. pose proof (ReplaceAllWith_replaced r f s st C) as R.
  assert (G : forall p l st out st', replaced r f p l st out st' -> (exists m1, (m1 ++ l)%list = toks s) ->
    out = text l /\ st' = st).
  { clear R. induction 1 as [|p t l st0 out st' E R IH|p m l c st0 o st1 out st2 M E F Ef R IH]; intros [m1 Em]; [done| |].
    - destruct IH as [-> ->]; [|done]. exists (m1 ++ [t])%list. by rewrite <- app_assoc.
    - by rewrite (N m1 (m ++ l)%list p Em) in E. }
  apply G in R as [R1 R2]; [|by exists []]. rewrite toks_text in R1.
  destruct (ReplaceAllWith r f s st). simpl in *. by subst.
Qed.

(** ** Captures *)

Fixpoint groups (r : regex) : list nat :=
  match r with
  | RSeq a b | RAlt a b => groups a ++ groups b
  | RStar a => groups a
  | RCap n a => n :: groups a
  | _ => []
  end%list.

(** A match adds captures of the pattern's own groups, of runes the pattern
    consumed. *)
Lemma run_caps r p l c p' l' c' : run r p l c p' l' c' ->
  exists d, c' = (d ++ c)%list
    /\ Forall (fun x => In (fst x) (groups r) /\ Forall (fun t => chars r (fst t) = true) (snd x)
                        /\ exists u v, l = (u ++ snd x ++ v)%list) d.
Proof.
  intros R. induction R as [p l c|P t p l c E|a b p l c p1 l1 c1 p2 l2 c2 R1 [d1 (-> & F1)] R2 [d2 (-> & F2)]
    |a b p l c p' l' c' R [d (-> & F)]|a b p l c p' l' c' R [d (-> & F)]|a p l c
    |a p l c p1 l1 c1 p2 l2 c2 R1 [d1 (-> & F1)] R2 [d2 (-> & F2)]
    |n a p l c p' l' c' R [d (-> & F)]|p l c E|p l c E|p c|p l c E]; try (by exists []).
  - exists (d2 ++ d1)%list. rewrite app_assoc. split; [done|]. apply run_prefix in R1 as (w & -> & _).
    apply Forall_app. split.
    + eapply List.Forall_impl; [|exact F2]. intros x (G & Fx & u & v & ->). simpl. split; [apply in_or_app; tauto|].
      split; [|exists (w ++ u)%list, v; by rewrite app_assoc]. eapply List.Forall_impl; [|exact Fx]. simpl. intros t ->. apply orb_true_r.
    + eapply List.Forall_impl; [|exact F1]. intros x (G & Fx & E). simpl. split; [apply in_or_app; tauto|].
      split; [|done]. eapply List.Forall_impl; [|exact Fx]. by simpl; intros t ->.
  - exists d. split; [done|]. eapply List.Forall_impl; [|exact F]. intros x (G & Fx & E). simpl. split; [apply in_or_app; tauto|].
    split; [|done]. eapply List.Forall_impl; [|exact Fx]. by simpl; intros t ->.
  - exists d. split; [done|]. eapply List.Forall_impl; [|exact F]. intros x (G & Fx & E). simpl. split; [apply in_or_app; tauto|].
    split; [|done]. eapply List.Forall_impl; [|exact Fx]. simpl. intros t ->. apply orb_true_r.
  - exists (d2 ++ d1)%list. rewrite app_assoc. split; [done|]. apply run_prefix in R1 as (w & -> & _).
    apply Forall_app. split; [|done].
    eapply List.Forall_impl; [|exact F2]. intros x (G & Fx & u & v & ->). split; [done|]. split; [done|].
    exists (w ++ u)%list, v. by rewrite app_assoc.
  - exists ((n, between l l') :: d)%list. split; [done|]. apply run_prefix in R as (w & -> & Fw & _). rewrite between_app.
    constructor.
    + simpl. split; [tauto|]. split; [done|]. by exists [], l'.
    + eapply List.Forall_impl; [|exact F]. simpl. tauto.
Qed.

Lemma capture_skip n d c : Forall (fun x => fst x <> n) d -> capture n (d ++ c)%list = capture n c.
Proof.
  unfold capture. induction d as [|x d IH]; [done|]. intros [H F]%Forall_cons_iff. simpl.
  destruct (Nat.eqb_spec (fst x) n); [done|]. by apply IH.
Qed.

(** Where group 1 comes first, it is a prefix of the match. *)
Lemma capture_first pre a b p l l' c : (forall z, chars pre z = false) -> ~ In 1%nat (groups b) ->
  matchAt (RSeq pre (RSeq (RCap 1 a) b)) p l = Some (l', c) ->
  exists w1 w2, l = (w1 ++ w2 ++ l')%list /\ capture 1 c = text w1
    /\ Forall (fun t => chars a (fst t) = true) w1 /\ Forall (fun t => chars b (fst t) = true) w2.
Proof.
  intros Cp Gb (p' & R)%matchAt_run.
  inversion R as [| |? ? ? ? ? p1 l1 c1 ? ? ? R1 R2| | | | | | | | |]; subst.
  inversion R2 as [| |? ? ? ? ? p2 l2 c2 ? ? ? R3 R4| | | | | | | | |]; subst.
  inversion R3 as [| | | | | | |? ? ? ? ? ? ? c3 R5| | | |]; subst.
  pose proof (run_caps _ _ _ _ _ _ _ R1) as (d1 & -> & D1). pose proof (run_caps _ _ _ _ _ _ _ R4) as (d4 & -> & D4).
  apply run_prefix in R1 as (w0 & -> & F0 & _). apply run_prefix in R5 as (w1 & -> & F1 & _).
  apply run_prefix in R4 as (w2 & -> & F2 & _).
  destruct w0 as [|t w0]; [|apply Forall_cons_iff in F0 as [F0 _]; by rewrite Cp in F0].
  exists w1, w2. split; [done|]. rewrite between_app. split; [|done].
  rewrite capture_skip.
  - done.
  - eapply List.Forall_impl; [|exact D4]. intros x (G & _) E. apply Gb. by rewrite <- E.
Qed.

(** ** Bytes of subjects *)

Lemma tok_lacks c t : bv c < 128 -> tok_ok t -> fst t <> bv c -> lacks c (snd t) = true.
Proof.
  intros L [[R ->]|[R F]] N.
  - unfold lacks. simpl. destruct (Ascii.eqb_spec (chr (fst t)) c) as [<-|]; [|done]. by rewrite bv_chr in N by lia.
  - unfold lacks. eapply str_forall_impl; [|exact F]. simpl. intros a Ha.
    destruct (Ascii.eqb_spec a c) as [->|]; [|done]. unfold is_ascii_byte in Ha. destruct (Z.ltb_spec (bv c) 128); [done|lia].
Qed.

Lemma text_lacks c l : bv c < 128 -> Forall tok_ok l -> Forall (fun t => fst t <> bv c) l -> lacks c (text l) = true.
Proof.
  intros L. induction l as [|t l IH]; [done|]. intros [O Os]%Forall_cons_iff [N Ns]%Forall_cons_iff. simpl.
  rewrite lacks_app, tok_lacks by done. by rewrite IH.
Qed.

Lemma text_lacks_chars c r l : bv c < 128 -> Forall tok_ok l -> chars r (bv c) = false ->
  Forall (fun t => chars r (fst t) = true) l -> lacks c (text l) = true.
Proof.
  intros L O C F. apply text_lacks; [done..|]. eapply List.Forall_impl; [|exact F]. simpl. intros t H E. by rewrite E, C in H.
Qed.
