(* ===== verification/Calendar.v ===== *)
(** * Days (Go's time package)

    The proleptic Gregorian calendar of package time as the program uses it:
    days as numbers (days since the Unix epoch), [time.Parse] and
    [Time.Format] with the layout [2006-01-02], and [AddDate] over days. *)

From S2P Require Import Prelude GoStrings GoStd StringFacts.

(** ** Civil dates *)

Record date := mkDate { year : Z; month : Z; mday : Z }.

#[export] Instance date_eq_dec : EqDecision date.
Proof. solve_decision. Defined.

Definition is_leap (y : Z) : bool := (y mod 4 =? 0) && (negb (y mod 100 =? 0) || (y mod 400 =? 0)).

(** [time.daysIn]. *)
Definition days_in (y m : Z) : Z :=
  if m =? 2 then (if is_leap y then 29 else 28)
  else if (m =? 4) || (m =? 6) || (m =? 9) || (m =? 11) then 30 else 31.

Definition valid_date (d : date) : bool :=
  (1 <=? month d) && (month d <=? 12) && (1 <=? mday d) && (mday d <=? days_in (year d) (month d)).

(** Days from 0000-01-01 to the first of January of [y]. *)
Definition days_before_year (y : Z) : Z := 365 * y + (y + 3) / 4 - (y + 99) / 100 + (y + 399) / 400.

(** Days of the year before the month. *)
Definition days_before_month (y m : Z) : Z :=
  let leap := if is_leap y then 1 else 0 in
  if m <=? 1 then 0 else if m =? 2 then 31
  else leap + (if m =? 3 then 59 else if m =? 4 then 90 else if m =? 5 then 120 else if m =? 6 then 151
    else if m =? 7 then 181 else if m =? 8 then 212 else if m =? 9 then 243 else if m =? 10 then 273
    else if m =? 11 then 304 else 334).

(** 1970-01-01 is day 719528 of the count from 0000-01-01. *)
Definition unix_offset : Z := 719528.

Definition day_of_date (d : date) : Z :=
  days_before_year (year d) + days_before_month (year d) (month d) + (mday d - 1) - unix_offset.

(** The year of a day of the count from 0000-01-01: an estimate that is one
    off at most. *)
Definition year_of (n : Z) : Z :=
  let y := 400 * n / 146097 in
  if n <? days_before_year y then y - 1 else if days_before_year (y + 1) <=? n then y + 1 else y.

Fixpoint month_from (fuel : nat) (y yday m : Z) : Z :=
  match fuel with
  | O => m
  | S fuel' => if days_before_month y (m + 1) <=? yday then month_from fuel' y yday (m + 1) else m
  end.

Definition date_of_day (n : Z) : date :=
  let n := n + unix_offset in
  let y := year_of n in
  let yday := n - days_before_year y in
  let m := month_from 11 y yday 1 in
  mkDate y m (yday - days_before_month y m + 1).

Example epoch_day : date_of_day 0 = mkDate 1970 1 1.
Proof. reflexivity. Qed.
Example leap_day : date_of_day 19782 = mkDate 2024 2 29.
Proof. reflexivity. Qed.
Example last_day : day_of_date (mkDate 2025 12 31) = 20453.
Proof. reflexivity. Qed.

#[local] Ltac Zify.zify_post_hook ::= Z.to_euclidean_division_equations.

Lemma year_step y : days_before_year (y + 1) = days_before_year y + (if is_leap y then 366 else 365).
Proof. unfold days_before_year, is_leap. destruct (_ && _) eqn:E; lia. Qed.

Lemma year_mono a b : a < b -> days_before_year a + 365 <= days_before_year b.
Proof. unfold days_before_year. lia. Qed.

Lemma year_of_spec n : days_before_year (year_of n) <= n < days_before_year (year_of n + 1).
Proof.
  unfold year_of. cbv zeta. assert (B : 146097 * (400 * n / 146097) <= 400 * n < 146097 * (400 * n / 146097 + 1)) by lia.
  revert B. generalize (400 * n / 146097). intros y B.
  assert (E1 : days_before_year (y - 1) <= n) by (unfold days_before_year; lia).
  assert (E2 : n < days_before_year (y + 1 + 1)) by (unfold days_before_year; lia).
  destruct (Z.ltb_spec n (days_before_year y)); [rewrite Z.sub_add; lia|].
  destruct (Z.leb_spec (days_before_year (y + 1)) n); lia.
Qed.

Lemma year_of_unique n y : days_before_year y <= n < days_before_year (y + 1) -> year_of n = y.
Proof.
  intros H. pose proof (year_of_spec n) as S. destruct (Z.lt_trichotomy (year_of n) y) as [L|[E|G]]; [|done|].
  - pose proof (year_mono (year_of n) y L). destruct (Z.eq_dec (year_of n + 1) y) as [<-|N]; [lia|].
    pose proof (year_mono (year_of n + 1) y ltac:(lia)). lia.
  - destruct (Z.eq_dec (y + 1) (year_of n)) as [E|N]; [rewrite <- E in S; lia|]. pose proof (year_mono (y + 1) (year_of n) ltac:(lia)). lia.
Qed.

Lemma month_step y m : 1 <= m < 12 -> days_before_month y (m + 1) = days_before_month y m + days_in y m.
Proof.
  intros H. assert (C : m = 1 \/ m = 2 \/ m = 3 \/ m = 4 \/ m = 5 \/ m = 6 \/ m = 7 \/ m = 8 \/ m = 9 \/ m = 10 \/ m = 11) by lia.
  unfold days_before_month, days_in. destruct (is_leap y); destruct C as [->|[->|[->|[->|[->|[->|[->|[->|[->|[->| ->]]]]]]]]]]; reflexivity.
Qed.

Lemma days_in_bounds y m : 28 <= days_in y m <= 31.
Proof. unfold days_in. repeat match goal with |- context [if ?b then _ else _] => destruct b end; lia. Qed.

Lemma days_before_month_nonneg y m : 0 <= days_before_month y m.
Proof. unfold days_before_month. repeat match goal with |- context [if ?b then _ else _] => destruct b end; lia. Qed.

Lemma month_mono y a b : 1 <= a -> a < b -> b <= 12 -> days_before_month y a + days_in y a <= days_before_month y b.
Proof.
  intros A L B. rewrite <- month_step by lia. assert (G : forall k, 0 <= k -> a + 1 + k <= 12 ->
    days_before_month y (a + 1) <= days_before_month y (a + 1 + k)).
  { intros k K. pattern k. apply natlike_ind; [rewrite Z.add_0_r; lia| |done].
    intros j J IH H. replace (a + 1 + Z.succ j) with (a + 1 + j + 1) by lia. rewrite (month_step y (a + 1 + j)) by lia.
    specialize (IH ltac:(lia)). pose proof (days_in_bounds y (a + 1 + j)). lia. }
  specialize (G (b - a - 1) ltac:(lia) ltac:(lia)). by replace (a + 1 + (b - a - 1)) with b in G by lia.
Qed.

Lemma month_from_spec fuel y yday m m' : 1 <= m -> m + Z.of_nat fuel = 12 -> m <= m' <= 12 ->
  days_before_month y m' <= yday < days_before_month y m' + days_in y m' -> month_from fuel y yday m = m'.
Proof.
  revert m. induction fuel as [|fuel IH]; intros m L F R D; cbn [month_from]; [lia|].
  destruct (Z.leb_spec (days_before_month y (m + 1)) yday) as [Le|Gt].
  - apply IH; try lia. destruct (Z.eq_dec m m') as [->|]; [|lia]. rewrite month_step in Le by lia. lia.
  - destruct (Z.eq_dec m m') as [->|N]; [done|]. pose proof (month_mono y m m' ltac:(lia) ltac:(lia) ltac:(lia)).
    rewrite month_step in Gt by lia. lia.
Qed.

Lemma year_length y : days_before_month y 12 + days_in y 12 = if is_leap y then 366 else 365.
Proof. unfold days_before_month, days_in. by destruct (is_leap y). Qed.

(** Every valid date comes back from its day number. *)
Theorem date_of_day_of_date d : valid_date d = true -> date_of_day (day_of_date d) = d.
Proof.
  destruct d as [y m k]. unfold valid_date. cbn [year month mday]. intros V. bool_facts.
  unfold date_of_day, day_of_date. cbn [year month mday]. rewrite Z.sub_add.
  assert (Y : year_of (days_before_year y + days_before_month y m + (k - 1)) = y).
  { apply year_of_unique. rewrite year_step, <- year_length.
    pose proof (days_before_month_nonneg y m).
    destruct (Z.eq_dec m 12) as [->|N]; [lia|]. pose proof (month_mono y m 12 ltac:(lia) ltac:(lia) ltac:(lia)).
    pose proof (days_in_bounds y 12). lia. }
  rewrite Y. replace (days_before_year y + days_before_month y m + (k - 1) - days_before_year y)
    with (days_before_month y m + (k - 1)) by lia.
  rewrite (month_from_spec 11 y _ 1 m) by lia. f_equal. lia.
Qed.

(** ** Text

    [n] decimal digits. *)
Fixpoint fixed_digits (n : nat) (x : Z) : string :=
  match n with
  | O => ""
  | S n' => String (chr (48 + x / 10 ^ Z.of_nat n' mod 10)) (fixed_digits n' x)
  end.

(** [time.appendInt]: decimal, zero-padded to the width. *)
Definition append_int (x : Z) (width : nat) : string :=
  if (0 <=? x) && (x <? 10 ^ Z.of_nat width) then fixed_digits width x
  else if (x <? 0) && (- x <? 10 ^ Z.of_nat width) then "-" +:+ fixed_digits width (- x)
  else Itoa x.

(** [Format(2006-01-02)]. *)
Definition format_date (d : date) : string :=
  append_int (year d) 4 +:+ "-" +:+ append_int (month d) 2 +:+ "-" +:+ append_int (mday d) 2.

Fixpoint read_digits (n : nat) (acc : Z) (s : string) : option (Z * string) :=
  match n with
  | O => Some (acc, s)
  | S n' =>
      match s with
      | "" => None
      | String c s' => if is_digit c then read_digits n' (acc * 10 + (bv c - 48)) s' else None
      end
  end.

(** [time.Parse(2006-01-02, s)]; [None] is the error. *)
Definition parse_date (s : string) : option date :=
  match read_digits 4 0 s with
  | Some (y, String "-" s1) =>
      match read_digits 2 0 s1 with
      | Some (m, String "-" s2) =>
          match read_digits 2 0 s2 with
          | Some (d, "") => if valid_date (mkDate y m d) then Some (mkDate y m d) else None
          | _ => None
          end
      | _ => None
      end
  | _ => None
  end.

Example parse_leap : parse_date "2024-02-29" = Some (mkDate 2024 2 29) /\ parse_date "2023-02-29" = None
  /\ parse_date "2024-2-29" = None /\ parse_date "2024-02-29 " = None.
Proof. repeat split. Qed.

Lemma read_fixed n x acc rest : read_digits n acc (fixed_digits n x +:+ rest) = Some (acc * 10 ^ Z.of_nat n + x mod 10 ^ Z.of_nat n, rest).
Proof.
  revert acc. induction n as [|n IH]; intros acc; [simpl; f_equal; f_equal; rewrite Z.mod_1_r; lia|].
  cbn [fixed_digits String.append read_digits].
  destruct (digit_chr (x / 10 ^ Z.of_nat n mod 10)) as [-> ->]; [apply Z.mod_pos_bound; lia|]. rewrite IH. f_equal. f_equal.
  rewrite Nat2Z.inj_succ, Z.pow_succ_r by lia. set (p := 10 ^ Z.of_nat n). assert (0 < p) by (apply Z.pow_pos_nonneg; lia).
  rewrite (Z.mul_comm 10 p), (Z.rem_mul_r x p 10) by lia. lia.
Qed.

Lemma read_digits_inv n acc s v rest : read_digits n acc s = Some (v, rest) ->
  exists x, 0 <= x < 10 ^ Z.of_nat n /\ v = acc * 10 ^ Z.of_nat n + x /\ s = fixed_digits n x +:+ rest.
Proof.
  revert acc s. induction n as [|n IH]; intros acc s H.
  { injection H as <- <-. exists 0. repeat split; simpl; lia. }
  destruct s as [|c s]; [done|]. cbn [read_digits] in H. destruct (is_digit c) eqn:D; [|done].
  apply IH in H as (x & R & -> & ->). unfold is_digit in D. bool_facts.
  set (p := 10 ^ Z.of_nat n) in *. exists ((bv c - 48) * p + x). rewrite Nat2Z.inj_succ, Z.pow_succ_r by lia. fold p.
  split; [nia|]. split; [lia|]. cbn [fixed_digits String.append]. fold p.
  rewrite Z.div_add_l, (Z.div_small x p) by lia. rewrite Z.add_0_r, Z.mod_small by lia.
  replace (48 + (bv c - 48)) with (bv c) by lia. rewrite chr_bv. f_equal. f_equal. clear IH. subst p.
  assert (G : forall k m y, (k <= m)%nat -> fixed_digits k (y * 10 ^ Z.of_nat m + x) = fixed_digits k x).
  { induction k as [|k IHk]; intros m y L; [done|]. cbn [fixed_digits]. rewrite IHk by lia. f_equal. f_equal. f_equal.
    replace (Z.of_nat m) with (Z.of_nat (m - k - 1) + 1 + Z.of_nat k) by lia. rewrite !Z.pow_add_r by lia.
    rewrite !Z.mul_assoc, Z.div_add_l by (apply Z.pow_nonzero; lia). rewrite Z.pow_1_r.
    rewrite Z.add_comm. apply Z_mod_plus_full. }
  symmetry. by apply G.
Qed.

(** The dates the layout can write: a four-digit year. *)
Definition plain_date (d : date) : Prop := valid_date d = true /\ 0 <= year d <= 9999.

Lemma plain_format d : plain_date d ->
  format_date d = fixed_digits 4 (year d) +:+ "-" +:+ fixed_digits 2 (month d) +:+ "-" +:+ fixed_digits 2 (mday d).
Proof.
  intros [V Y]. unfold valid_date in V. bool_facts. pose proof (days_in_bounds (year d) (month d)).
  unfold format_date, append_int. change (10 ^ Z.of_nat 4) with 10000. change (10 ^ Z.of_nat 2) with 100.
  repeat match goal with |- context [(0 <=? ?x) && (?x <? ?b)] =>
    destruct (Z.leb_spec 0 x); [|lia]; destruct (Z.ltb_spec x b); [|lia] end. done.
Qed.

Lemma parse_format d : plain_date d -> parse_date (format_date d) = Some d.
Proof.
  intros P. rewrite plain_format by done. destruct P as [V Y]. pose proof V as V'. unfold valid_date in V. bool_facts.
  pose proof (days_in_bounds (year d) (month d)). unfold parse_date. rewrite read_fixed. cbn [String.append]. rewrite read_fixed.
  cbn [String.append]. rewrite <- (str_app_nil_r (fixed_digits 2 (mday d))), read_fixed.
  change (10 ^ Z.of_nat 4) with 10000. change (10 ^ Z.of_nat 2) with 100. rewrite !Z.mod_small by lia.
  simpl Z.mul. rewrite !Z.add_0_l. destruct d as [y m k]. cbn [year month mday] in *. by rewrite V'.
Qed.

(** What parses is what the layout writes: the source's second test, that the
    date formats back to the text, never fails. *)
Lemma format_parse s d : parse_date s = Some d -> plain_date d /\ format_date d = s.
Proof.
  unfold parse_date. destruct (read_digits 4 0 s) as [[y s1]|] eqn:Ey; [|done].
  destruct s1 as [|c1 s1]; [done|]. destruct (Ascii.eqb_spec c1 "-") as [->|N]; [|by destruct c1 as [[] [] [] [] [] [] [] []]].
  destruct (read_digits 2 0 s1) as [[m s2]|] eqn:Em; [|done].
  destruct s2 as [|c2 s2]; [done|]. destruct (Ascii.eqb_spec c2 "-") as [->|N]; [|by destruct c2 as [[] [] [] [] [] [] [] []]].
  destruct (read_digits 2 0 s2) as [[k s3]|] eqn:Ek; [|done]. destruct s3; [|done].
  destruct (valid_date (mkDate y m k)) eqn:V; [|done]. intros [= <-].
  apply read_digits_inv in Ey as (y' & Ry & -> & ->), Em as (m' & Rm & -> & ->), Ek as (k' & Rk & -> & ->).
  simpl Z.mul in V. rewrite !Z.add_0_l in V.
  assert (P : plain_date (mkDate (0 * 10 ^ Z.of_nat 4 + y') (0 * 10 ^ Z.of_nat 2 + m') (0 * 10 ^ Z.of_nat 2 + k'))).
  { split; [done|]. change (10 ^ Z.of_nat 4) with 10000 in *. cbn [year]. lia. }
  split; [done|]. rewrite plain_format by done. cbn [year month mday]. simpl Z.mul. rewrite !Z.add_0_l, str_app_nil_r. done.
Qed.

(** Text order is date order. *)
Lemma fixed_digits_cmp n x y a b : 0 <= x < 10 ^ Z.of_nat n -> 0 <= y < 10 ^ Z.of_nat n ->
  str_cmp (fixed_digits n x +:+ a) (fixed_digits n y +:+ b) = if x <? y then -1 else if y <? x then 1 else str_cmp a b.
Proof.
  assert (G : forall x y, str_cmp (fixed_digits n x +:+ a) (fixed_digits n y +:+ b)
    = if x mod 10 ^ Z.of_nat n <? y mod 10 ^ Z.of_nat n then -1
      else if y mod 10 ^ Z.of_nat n <? x mod 10 ^ Z.of_nat n then 1 else str_cmp a b).
  { clear x y. induction n as [|n IH]; intros x y; [simpl; by rewrite !Z.mod_1_r|].
    cbn [fixed_digits String.append str_cmp]. rewrite IH. clear IH.
    pose proof (Z.mod_pos_bound (x / 10 ^ Z.of_nat n) 10 ltac:(lia)). pose proof (Z.mod_pos_bound (y / 10 ^ Z.of_nat n) 10 ltac:(lia)).
    rewrite !bv_chr by lia. rewrite Nat2Z.inj_succ, Z.pow_succ_r by lia. set (p := 10 ^ Z.of_nat n) in *.
    assert (0 < p) by (apply Z.pow_pos_nonneg; lia). rewrite (Z.mul_comm 10 p), !(Z.rem_mul_r _ p 10) by lia.
    pose proof (Z.mod_pos_bound x p ltac:(lia)). pose proof (Z.mod_pos_bound y p ltac:(lia)).
    repeat match goal with |- context [?u <? ?v] => destruct (Z.ltb_spec u v) end; try done; exfalso; nia. }
  intros Hx Hy. rewrite G. by rewrite !Z.mod_small.
Qed.

Definition cmp_date (a b : date) : Z :=
  if year a <? year b then -1 else if year b <? year a then 1
  else if month a <? month b then -1 else if month b <? month a then 1
  else if mday a <? mday b then -1 else if mday b <? mday a then 1 else 0.

Lemma format_cmp a b : plain_date a -> plain_date b -> str_cmp (format_date a) (format_date b) = cmp_date a b.
Proof.
  intros Pa Pb. rewrite !plain_format by done. destruct Pa as [Va Ya], Pb as [Vb Yb]. unfold valid_date in Va, Vb. bool_facts.
  pose proof (days_in_bounds (year a) (month a)). pose proof (days_in_bounds (year b) (month b)).
  rewrite fixed_digits_cmp by (change (10 ^ Z.of_nat 4) with 10000; lia). cbn [String.append str_cmp]. rewrite Z.ltb_irrefl.
  rewrite fixed_digits_cmp by (change (10 ^ Z.of_nat 2) with 100; lia). cbn [String.append str_cmp]. rewrite Z.ltb_irrefl.
  rewrite <- (str_app_nil_r (fixed_digits 2 (mday a))), <- (str_app_nil_r (fixed_digits 2 (mday b))).
  rewrite fixed_digits_cmp by (change (10 ^ Z.of_nat 2) with 100; lia). done.
Qed.

Lemma cmp_date_days a b : valid_date a = true -> valid_date b = true -> (cmp_date a b <? 0) = (day_of_date a <? day_of_date b).
Proof.
  intros Va Vb.
  assert (G : forall a b, valid_date a = true -> valid_date b = true -> cmp_date a b = -1 -> day_of_date a < day_of_date b).
  { clear. intros [ya ma ka] [yb mb kb]. unfold valid_date, cmp_date, day_of_date. cbn [year month mday]. intros Va Vb.
    bool_facts. pose proof (days_before_month_nonneg yb mb).
    destruct (Z.ltb_spec ya yb) as [L|L].
    - intros _. assert (days_before_year ya + (if is_leap ya then 366 else 365) <= days_before_year yb).
      { rewrite <- year_step. destruct (Z.eq_dec (ya + 1) yb) as [<-|N]; [lia|]. pose proof (year_mono (ya + 1) yb ltac:(lia)). lia. }
      assert (days_before_month ya ma + ka <= if is_leap ya then 366 else 365); [|lia]. rewrite <- year_length.
      pose proof (days_in_bounds ya 12). destruct (Z.eq_dec ma 12) as [->|N]; [lia|].
      pose proof (month_mono ya ma 12 ltac:(lia) ltac:(lia) ltac:(lia)). lia.
    - destruct (Z.ltb_spec yb ya); [done|]. assert (ya = yb) as -> by lia.
      destruct (Z.ltb_spec ma mb) as [Lm|Lm]; [intros _; pose proof (month_mono yb ma mb ltac:(lia) ltac:(lia) ltac:(lia)); lia|].
      destruct (Z.ltb_spec mb ma); [done|]. assert (ma = mb) as -> by lia.
      destruct (Z.ltb_spec ka kb); [intros _; lia|]. by destruct (Z.ltb_spec kb ka). }
  assert (C : cmp_date a b = -1 \/ cmp_date b a = -1 \/ a = b).
  { destruct a as [ya ma ka], b as [yb mb kb]. unfold cmp_date. cbn [year month mday].
    repeat match goal with |- context [?u <? ?v] => destruct (Z.ltb_spec u v) end; auto; try lia. right. right. f_equal; lia. }
  assert (A : cmp_date b a = -1 -> cmp_date a b = 1).
  { unfold cmp_date. repeat match goal with |- context [?u <? ?v] => destruct (Z.ltb_spec u v) end; try done; lia. }
  destruct C as [C|[C| ->]].
  - rewrite C. pose proof (G a b Va Vb C). by destruct (Z.ltb_spec (day_of_date a) (day_of_date b)); [|lia].
  - rewrite (A C). pose proof (G b a Vb Va C). by destruct (Z.ltb_spec (day_of_date a) (day_of_date b)); [lia|].
  - unfold cmp_date. rewrite !Z.ltb_irrefl. done.
Qed.

(** [epoch < cutoff], compared as text, compares the days. *)
Theorem date_text_order a b : plain_date a -> plain_date b ->
  str_lt (format_date a) (format_date b) = (day_of_date a <? day_of_date b).
Proof.
  intros Pa Pb. unfold str_lt. rewrite format_cmp by done. destruct Pa, Pb. by apply cmp_date_days.
Qed.

(** ** Instants

    Instants are nanoseconds since the Unix epoch, in UTC. *)
Definition ns_per_day : Z := 86400000000000.

(** The zero [time.Time]: 0001-01-01. *)
Definition zero_time : Z := - 719162 * ns_per_day.
Definition is_zero_time (t : Z) : bool := t =? zero_time.
Definition day_of (t : Z) : Z := t / ns_per_day.
Definition format_day (t : Z) : string := format_date (date_of_day (day_of t)).
Definition AddDays (t n : Z) : Z := t + n * ns_per_day.

Lemma day_of_AddDays t n : day_of (AddDays t n) = day_of t + n.
Proof. unfold day_of, AddDays, ns_per_day. lia. Qed.

Lemma month_from_sound fuel y yday m : 1 <= m -> m + Z.of_nat fuel = 12 ->
  days_before_month y m <= yday < days_before_month y 12 + days_in y 12 ->
  let m' := month_from fuel y yday m in
  m <= m' <= 12 /\ days_before_month y m' <= yday < days_before_month y m' + days_in y m'.
Proof.
  revert m. induction fuel as [|fuel IH]; intros m L F D; cbn [month_from].
  - assert (m = 12) as -> by lia. cbv zeta. lia.
  - destruct (Z.leb_spec (days_before_month y (m + 1)) yday) as [Le|Gt].
    + specialize (IH (m + 1) ltac:(lia) ltac:(lia) ltac:(lia)). cbv zeta in *. lia.
    + cbv zeta. rewrite month_step in Gt by lia. lia.
Qed.

(** Every day number is the day of a valid date. *)
Theorem day_of_date_of_day n : valid_date (date_of_day n) = true /\ day_of_date (date_of_day n) = n.
Proof.
  unfold date_of_day, day_of_date, valid_date. cbv zeta. cbn [year month mday].
  pose proof (year_of_spec (n + unix_offset)) as Y. rewrite year_step, <- year_length in Y.
  revert Y. generalize (year_of (n + unix_offset)). intros y Y.
  pose proof (month_from_sound 11 y (n + unix_offset - days_before_year y) 1 ltac:(lia) ltac:(lia)) as M. cbv zeta in M.
  change (days_before_month y 1) with 0 in M. specialize (M ltac:(lia)). lia.
Qed.

Lemma date_of_day_mono a b : a < b -> cmp_date (date_of_day a) (date_of_day b) < 0.
Proof.
  intros L. destruct (day_of_date_of_day a) as [Va Ea], (day_of_date_of_day b) as [Vb Eb].
  pose proof (cmp_date_days _ _ Va Vb) as C. rewrite Ea, Eb in C. destruct (Z.ltb_spec a b); [|lia]. lia.
Qed.

(** The days of the years 0 to 9999. *)
Definition plain_day (n : Z) : Prop := -719528 <= n <= 2932896.

Lemma plain_day_date n : plain_day n -> plain_date (date_of_day n).
Proof.
  unfold plain_day, plain_date. intros H. split; [apply day_of_date_of_day|]. unfold date_of_day. cbv zeta. cbn [year].
  pose proof (year_of_spec (n + unix_offset)) as Y. revert Y. generalize (year_of (n + unix_offset)). intros y Y.
  unfold unix_offset in *. unfold days_before_year in Y. lia.
Qed.
