(* ===== verification/Float.v ===== *)
(** * IEEE 754 arithmetic

    Go's [float64] operations as the binary64 operations of [SpecFloat], each
    rounded to nearest even; decimal constants are the nearest doubles.  A
    product and a sum are rounded separately, as on amd64.  NaN compares
    unequal to everything; on the other values comparison is a total
    preorder, and [cmp_float] is one that extends it to NaN. *)

From Stdlib Require Import SpecFloat.
From S2P Require Import Prelude.

Definition float64 := spec_float.

#[export] Instance float64_eq_dec : EqDecision float64.
Proof. unfold float64. solve_decision. Defined.

Definition fadd (a b : float64) : float64 := SFadd 53 1024 a b.
Definition fsub (a b : float64) : float64 := SFsub 53 1024 a b.
Definition fmul (a b : float64) : float64 := SFmul 53 1024 a b.
Definition fdiv (a b : float64) : float64 := SFdiv 53 1024 a b.
Definition fltb (a b : float64) : bool := SFltb a b.
Definition fleb (a b : float64) : bool := SFleb a b.
Definition feqb (a b : float64) : bool := SFeqb a b.

(** [float64(n)] for an integer. *)
Definition float_of (n : Z) : float64 := binary_normalize 53 1024 n 0 false.

(** The constant [n / 100]. *)
Definition hundredths (n : Z) : float64 := fdiv (float_of n) (float_of 100).

Definition fzero : float64 := S754_zero false.

Definition is_nan (f : float64) : bool := match f with S754_nan => true | _ => false end.

(** ** Order *)

Definition float_class (f : float64) : Z :=
  match f with
  | S754_nan => -3
  | S754_infinity true => -2
  | S754_finite true _ _ => -1
  | S754_zero _ => 0
  | S754_finite false _ _ => 1
  | S754_infinity false => 2
  end.

Definition float_exponent (f : float64) : Z :=
  match f with S754_finite s _ e => if s then - e else e | _ => 0 end.

Definition float_mantissa (f : float64) : Z :=
  match f with S754_finite s m _ => if s then Z.neg m else Z.pos m | _ => 0 end.

Definition cmp_float : float64 -> float64 -> Z :=
  cmp_then (cmp_on float_class cmp_Z) (cmp_then (cmp_on float_exponent cmp_Z) (cmp_on float_mantissa cmp_Z)).

#[export] Instance cmp_float_order : CmpOrder cmp_float.
Proof. unfold cmp_float. apply _. Qed.

Lemma cmp_Z_compare x y : cmp_Z x y = match x ?= y with Lt => -1 | Eq => 0 | Gt => 1 end.
Proof. unfold cmp_Z. destruct (Z.compare_spec x y); split_ifs; bool_facts; lia. Qed.

Lemma SFcompare_cmp a b : is_nan a = false -> is_nan b = false ->
  SFcompare a b = Some (cmp_float a b ?= 0).
Proof.
  unfold cmp_float, cmp_then, cmp_on. rewrite !cmp_Z_compare.
  destruct a as [sa|sa| |sa ma ea], b as [sb|sb| |sb mb eb]; try done; intros _ _;
    try (destruct sa); try (destruct sb); try done; cbn [SFcompare float_class float_exponent float_mantissa];
    change (Pos.compare_cont Eq ma mb) with (Pos.compare ma mb).
  - rewrite !Z.compare_opp. cbn [Z.compare Z.eqb]. rewrite (Z.compare_antisym ea eb).
    destruct (ea ?= eb); cbn; try done. by destruct (Pos.compare ma mb).
  - cbn [Z.compare Z.eqb]. destruct (ea ?= eb); cbn; try done. by destruct (Pos.compare ma mb).
Qed.

Lemma fltb_cmp a b : is_nan a = false -> is_nan b = false -> fltb a b = (cmp_float a b <? 0).
Proof.
  intros A B. unfold fltb, SFltb. rewrite SFcompare_cmp by done. by destruct (cmp_float a b).
Qed.

Lemma feqb_cmp a b : is_nan a = false -> is_nan b = false -> feqb a b = (cmp_float a b =? 0).
Proof.
  intros A B. unfold feqb, SFeqb. rewrite SFcompare_cmp by done. by destruct (cmp_float a b).
Qed.

Lemma fltb_nan a b : is_nan a = true \/ is_nan b = true -> fltb a b = false.
Proof. unfold fltb, SFltb. destruct a, b; by intros [|]. Qed.

Lemma feqb_nan a b : is_nan a = true \/ is_nan b = true -> feqb a b = false.
Proof. unfold feqb, SFeqb. destruct a, b; by intros [|]. Qed.

Example hundredths_45 : hundredths 45 = S754_finite false 8106479329266893 (-54).
Proof. vm_compute. reflexivity. Qed.
