(* ===== verification/Hash.v ===== *)
(** * SHA-256 and content identifiers

    [crypto/sha256] as FIPS 180-4 defines it, on 32-bit words kept in [Z],
    and [SHA256Hex] of internal/domain/types.go, the content-id form every
    fingerprint of the program has. *)

From S2P Require Import Prelude GoStrings GoStd.

(** ** Words *)

Definition w32 (z : Z) : Z := z mod 2 ^ 32.
Definition add32 (a b : Z) : Z := w32 (a + b).
Definition rotr (n x : Z) : Z := Z.lor (Z.shiftr x n) (w32 (Z.shiftl x (32 - n))).

Definition ch (x y z : Z) : Z := Z.lxor (Z.land x y) (Z.land (Z.lxor x (2 ^ 32 - 1)) z).
Definition maj (x y z : Z) : Z := Z.lxor (Z.lxor (Z.land x y) (Z.land x z)) (Z.land y z).
Definition bsig0 (x : Z) : Z := Z.lxor (Z.lxor (rotr 2 x) (rotr 13 x)) (rotr 22 x).
Definition bsig1 (x : Z) : Z := Z.lxor (Z.lxor (rotr 6 x) (rotr 11 x)) (rotr 25 x).
Definition ssig0 (x : Z) : Z := Z.lxor (Z.lxor (rotr 7 x) (rotr 18 x)) (Z.shiftr x 3).
Definition ssig1 (x : Z) : Z := Z.lxor (Z.lxor (rotr 17 x) (rotr 19 x)) (Z.shiftr x 10).

Definition sha_init : list Z := [
   1779033703; 3144134277; 1013904242; 2773480762; 1359893119; 2600822924;
   528734635; 1541459225].

Definition sha_k : list Z := [
   1116352408; 1899447441; 3049323471; 3921009573; 961987163; 1508970993;
   2453635748; 2870763221; 3624381080; 310598401; 607225278; 1426881987;
   1925078388; 2162078206; 2614888103; 3248222580; 3835390401; 4022224774;
   264347078; 604807628; 770255983; 1249150122; 1555081692; 1996064986;
   2554220882; 2821834349; 2952996808; 3210313671; 3336571891; 3584528711;
   113926993; 338241895; 666307205; 773529912; 1294757372; 1396182291;
   1695183700; 1986661051; 2177026350; 2456956037; 2730485921; 2820302411;
   3259730800; 3345764771; 3516065817; 3600352804; 4094571909; 275423344;
   430227734; 506948616; 659060556; 883997877; 958139571; 1322822218;
   1537002063; 1747873779; 1955562222; 2024104815; 2227730452; 2361852424;
   2428436474; 2756734187; 3204031479; 3329325298].

(** ** Message *)

Fixpoint bytes_of (s : string) : list Z :=
  match s with "" => [] | String c s' => bv c :: bytes_of s' end.

Fixpoint string_of (bs : list Z) : string :=
  match bs with [] => "" | b :: bs' => String (chr b) (string_of bs') end.

(** [n] big-endian bytes of [z]. *)
Fixpoint be_bytes (n : nat) (z : Z) : list Z :=
  match n with
  | O => []
  | S n' => (z / 2 ^ (8 * Z.of_nat n')) mod 256 :: be_bytes n' z
  end.

Definition sha_pad (m : list Z) : list Z :=
  let l := Z.of_nat (length m) in
  m ++ [128] ++ repeat 0 (Z.to_nat ((55 - l) mod 64)) ++ be_bytes 8 (8 * l).

Fixpoint words_of (bs : list Z) : list Z :=
  match bs with
  | a :: b :: c :: d :: rest => (((a * 256 + b) * 256 + c) * 256 + d) :: words_of rest
  | _ => []
  end.

(** The message schedule; the newest word is the head of the list. *)
Fixpoint schedule (n : nat) (rev_w : list Z) : list Z :=
  match n with
  | O => rev_w
  | S n' =>
      let w i := nth (i - 1) rev_w 0 in
      schedule n' (add32 (add32 (ssig1 (w 2%nat)) (w 7%nat)) (add32 (ssig0 (w 15%nat)) (w 16%nat)) :: rev_w)
  end.

Definition sha_round (st : list Z) (kw : Z * Z) : list Z :=
  match st with
  | [a; b; c; d; e; f; g; h] =>
      let t1 := add32 (add32 (add32 h (bsig1 e)) (ch e f g)) (add32 (fst kw) (snd kw)) in
      let t2 := add32 (bsig0 a) (maj a b c) in
      [add32 t1 t2; a; b; c; add32 d t1; e; f; g]
  | _ => st
  end.

Fixpoint zip_with_add (a b : list Z) : list Z :=
  match a, b with
  | x :: a', y :: b' => add32 x y :: zip_with_add a' b'
  | _, _ => []
  end.

Definition sha_block (st : list Z) (block : list Z) : list Z :=
  let ws := rev (schedule 48 (rev (words_of block))) in
  zip_with_add st (fold_left sha_round (combine sha_k ws) st).

(** [fuel] bounds the number of 64-byte blocks. *)
Fixpoint sha_blocks (fuel : nat) (st bs : list Z) : list Z :=
  match fuel with
  | O => st
  | S fuel' =>
      match bs with
      | [] => st
      | _ => sha_blocks fuel' (sha_block st (firstn 64 bs)) (skipn 64 bs)
      end
  end.

(** The 32 bytes of the digest. *)
Definition sha256 (m : string) : list Z :=
  let bs := sha_pad (bytes_of m) in
  flat_map (be_bytes 4) (sha_blocks (length bs) sha_init bs).

Definition lowerhex (z : Z) : ascii := if z <? 10 then chr (48 + z) else chr (87 + z).

Fixpoint hex_encode (bs : list Z) : string :=
  match bs with
  | [] => ""
  | b :: bs' => String (lowerhex (b / 16)) (String (lowerhex (b mod 16)) (hex_encode bs'))
  end.

Definition sha256_hex (m : string) : string := hex_encode (sha256 m).

(** [domain.SHA256Hex]. *)
Definition SHA256Hex (m : string) : string := "sha256:" +:+ sha256_hex m.

Example sha256_abc :
  sha256_hex "abc" = "ba7816bf8f01cfea414140de5dae2223b00361a396177a9cb410ff61f20015ad".
Proof. vm_compute. reflexivity. Qed.
Example sha256_two_blocks :
  sha256_hex "abcdbcdecdefdefgefghfghighijhijkijkljklmklmnlmnomnopnopq"
  = "248d6a61d20638b8e5c026930c3e6039a33ce45964ff2167f6ecedd419db06c1".
Proof. vm_compute. reflexivity. Qed.

(** ** The shape of a digest

    Every digest is 64 lower-case hexadecimal characters. *)

Definition lower_hex (c : ascii) : bool := is_digit c || ((97 <=? bv c) && (bv c <=? 102)).

Lemma zip_with_add_length a b : length (zip_with_add a b) = Nat.min (length a) (length b).
Proof. revert b. induction a as [|x a IH]; intros [|y b]; simpl; auto. Qed.

Lemma sha_round_length st kw : length (sha_round st kw) = length st.
Proof. do 9 (destruct st as [|? st]; [reflexivity|]). reflexivity. Qed.

Lemma sha_block_length st block : length (sha_block st block) = length st.
Proof.
  unfold sha_block. rewrite zip_with_add_length.
  assert (forall kws s, length (fold_left sha_round kws s) = length s) as ->; [|lia].
  induction kws as [|kw kws IH]; intros s; [done|]. simpl. by rewrite IH, sha_round_length.
Qed.

Lemma sha_blocks_length fuel st bs : length (sha_blocks fuel st bs) = length st.
Proof.
  revert st bs. induction fuel as [|fuel IH]; intros st bs; [done|]. simpl. destruct bs; [done|].
  by rewrite IH, sha_block_length.
Qed.

Lemma be_bytes_range n z : Forall (fun b => 0 <= b < 256) (be_bytes n z).
Proof. induction n as [|n IH]; constructor; [apply Z.mod_pos_bound; lia|done]. Qed.

Lemma be_bytes_length n z : length (be_bytes n z) = n.
Proof. induction n as [|n IH]; simpl; congruence. Qed.

Lemma sha256_bytes m : length (sha256 m) = 32%nat /\ Forall (fun b => 0 <= b < 256) (sha256 m).
Proof.
  unfold sha256. cbn zeta. set (ws := sha_blocks _ _ _).
  assert (length ws = 8%nat) as L by apply sha_blocks_length. clearbody ws. split.
  - do 8 (destruct ws as [|? ws]; [discriminate L|]). destruct ws; [reflexivity|discriminate L].
  - clear L. induction ws as [|w ws IH]; [constructor|]. cbn [flat_map].
    apply Forall_app. split; [apply be_bytes_range|done].
Qed.

Lemma lowerhex_hex z : 0 <= z < 16 -> lower_hex (lowerhex z) = true.
Proof.
  intros H. unfold lower_hex, lowerhex, is_digit. destruct (Z.ltb_spec z 10); rewrite bv_chr by lia;
    [apply orb_true_intro; left|apply orb_true_intro; right]; apply andb_true_intro; rewrite !Z.leb_le; lia.
Qed.

Lemma hex_encode_shape bs : Forall (fun b => 0 <= b < 256) bs ->
  String.length (hex_encode bs) = (2 * length bs)%nat /\ str_forall lower_hex (hex_encode bs) = true.
Proof.
  induction 1 as [|b bs Hb _ [L H]]; [done|]. cbn [hex_encode String.length length str_forall]. rewrite L, H.
  pose proof (Z.mod_pos_bound b 16 ltac:(lia)). pose proof (Z.div_pos b 16 ltac:(lia) ltac:(lia)).
  pose proof (Z.div_lt_upper_bound b 16 16 ltac:(lia) ltac:(lia)).
  rewrite !lowerhex_hex by lia. split; [lia|done].
Qed.

Lemma sha256_hex_shape m : String.length (sha256_hex m) = 64%nat /\ str_forall lower_hex (sha256_hex m) = true.
Proof. destruct (sha256_bytes m) as [L F]. destruct (hex_encode_shape _ F) as [L' H]. unfold sha256_hex. by rewrite L', L, H. Qed.
