(* ===== verification/Json.v ===== *)
(** * Canonical JSON (internal/domain/canonical.go)

    [CanonicalJSON] marshals a value, decodes it into a generic tree with
    numbers kept as text, and re-encodes the tree with sorted object keys.
    Here a Go value is given by its tree (struct fields in declaration order,
    empty [omitempty] fields left out); decoding replaces invalid UTF-8 by
    U+FFFD, which is what the marshaller wrote for it. *)

From stdpp Require Import gmap.
From S2P Require Import Prelude GoStrings GoUnicode GoStd StringFacts UnicodeFacts Hash.

(** ** Trees *)

Inductive json :=
| JNull
| JBool (b : bool)
| JNum (text : string)
| JStr (s : string)
| JArr (vs : list json)
| JObj (fs : list (string * json)).

(** ** Strings

    [json.Marshal] of a string, HTML escaping on. *)

Definition hex4 (z : Z) : string :=
  String (lowerhex ((z / 4096) mod 16)) (String (lowerhex ((z / 256) mod 16))
    (String (lowerhex ((z / 16) mod 16)) (single (lowerhex (z mod 16))))).

Definition escape_u (z : Z) : string := "\u" +:+ hex4 z.

(** One rune, given with the bytes it was read from. *)
Definition json_rune (r : Z) (raw : string) : string :=
  if r <? 128 then
    if r =? 34 then "\" +:+ single (chr 34)
    else if r =? 92 then "\\"
    else if r =? 8 then "\b"
    else if r =? 12 then "\f"
    else if r =? 10 then "\n"
    else if r =? 13 then "\r"
    else if r =? 9 then "\t"
    else if (r <? 32) || (r =? 60) || (r =? 62) || (r =? 38) then escape_u r
    else raw
  else if (r =? rune_error) && Nat.eqb (String.length raw) 1 then "\ufffd"
  else if (r =? 8232) || (r =? 8233) then escape_u r
  else raw.

Fixpoint json_body (k : nat) (s : string) : string :=
  match s with
  | "" => ""
  | String _ s' =>
      match k with
      | S k' => json_body k' s'
      | O => let '(r, w) := decode_rune s in
             json_rune r (str_take w s) +:+ json_body (w - 1) s'
      end
  end.

Definition quote : string := single (chr 34).
Definition json_string (s : string) : string := quote +:+ json_body 0 s +:+ quote.

(** Marshalling and decoding a string: invalid bytes become U+FFFD. *)
Definition decoded_string (s : string) : string := map_runes_skip (fun r => r) 0 s.

(** ** Trees *)

(** The generic tree the decoder builds. *)
Fixpoint decoded (v : json) : json :=
  match v with
  | JNull => JNull
  | JBool b => JBool b
  | JNum t => JNum t
  | JStr s => JStr (decoded_string s)
  | JArr vs => JArr (map decoded vs)
  | JObj fs => JObj (map (fun '(k, x) => (decoded_string k, decoded x)) fs)
  end.

(** Keys of an object in byte order; the entries travel with them. *)
Definition key_lt {A} (a b : string * A) : bool := str_lt (fst a) (fst b).
Definition sort_keys {A} (fs : list (string * A)) : list (string * A) := insertion_sort key_lt fs.

(** [canonEncode].  The encodings of the entries are computed first and
    emitted in key order. *)
Fixpoint canonEncode (v : json) : string :=
  match v with
  | JNull => "null"
  | JBool b => if b then "true" else "false"
  | JNum t => t
  | JStr s => json_string s
  | JArr vs => "[" +:+ Join (map canonEncode vs) "," +:+ "]"
  | JObj fs =>
      "{" +:+ Join (map (fun '(k, e) => json_string k +:+ ":" +:+ e)
                      (sort_keys (map (fun '(k, x) => (k, canonEncode x)) fs))) "," +:+ "}"
  end.

Definition CanonicalJSON (v : json) : string := canonEncode (decoded v).

(** ** Struct encodings *)

Definition jint (n : Z) : json := JNum (Itoa n).

(** A field, and the [omitempty] forms. *)
Definition field (k : string) (v : json) : list (string * json) := [(k, v)].
Definition omit_str (k s : string) : list (string * json) :=
  if String.eqb s "" then [] else [(k, JStr s)].
Definition omit_int (k : string) (n : Z) : list (string * json) :=
  if n =? 0 then [] else [(k, jint n)].
Definition omit_bool (k : string) (b : bool) : list (string * json) :=
  if b then [(k, JBool true)] else [].
Definition omit_strs (k : string) (l : list string) : list (string * json) :=
  match l with [] => [] | _ => [(k, JArr (map JStr l))] end.

(** A slice field without [omitempty]: a nil slice is written null. *)
Definition jslice (l : option (list string)) : json :=
  match l with None => JNull | Some l => JArr (map JStr l) end.
(** A map of strings; the encoder sorts its keys. *)
Definition omit_map (k : string) (m : gmap string string) : list (string * json) :=
  if decide (m = ∅) then [] else [(k, JObj (map (fun kv => (fst kv, JStr (snd kv))) (map_to_list m)))].

Example CanonicalJSON_sorted :
  CanonicalJSON (JObj [("tool", JStr "git"); ("args", JArr [JStr "<path>"; jint (-3)])])
  = "{" +:+ quote +:+ "args" +:+ quote +:+ ":[" +:+ quote +:+ "\u003cpath\u003e" +:+ quote +:+ ",-3],"
    +:+ quote +:+ "tool" +:+ quote +:+ ":" +:+ quote +:+ "git" +:+ quote +:+ "}".
Proof. vm_compute. reflexivity. Qed.
