(* ===== verification/Purl.v ===== *)
(** * Package URLs and version order (internal/domain/purl.go)

    [ParsePURL]/[String], the version buckets used for shard keys and
    grading, and [CompareVersions], the order every "newest version" and
    every "V-1" decision rests on. *)

From S2P Require Import Prelude GoStrings GoUnicode GoStd StringFacts UnicodeFacts.

(** ** Data *)

Record PURL := mkPURL {
  purl_Ecosystem : string;
  purl_Name : string;
  purl_Version : string
}.

#[export] Instance PURL_eq_dec : EqDecision PURL.
Proof. solve_decision. Defined.

(** The keys of [AllowedEcosystems], every one of which maps to true. *)
Definition AllowedEcosystems : list string :=
  ["npm"; "pypi"; "cargo"; "golang"; "maven"; "composer"; "gem"; "hex"; "pub"].

Definition VerifiableEcosystems `{!GoMapRange} : list string :=
  sort_strings (range_order AllowedEcosystems).

(** The ways [ParsePURL] refuses its input; the Go error text quotes it. *)
Inductive purl_error :=
| PurlMissingPrefix (s : string)
| PurlMissingEcosystemOrName (s : string)
| PurlMissingVersion (s : string)
| PurlEmptyNameOrVersion (s : string)
| PurlBadEscaping (s : string).

(** ** Operations *)

Definition CanonicalVersion (ecosystem version : string) : string :=
  if negb (String.eqb ecosystem "golang") || String.eqb version "" || HasPrefix version "v"
  then version
  else match version with
       | "" => version
       | String c _ => if negb (is_digit c) then version else "v" +:+ version
       end.

Definition ParsePURL (s : string) : result PURL purl_error :=
  match CutPrefix s "pkg:" with
  | None => Err (PurlMissingPrefix s)
  | Some rest =>
      let '(eco, rest, ok) := Cut rest "/" in
      if negb ok || String.eqb eco "" || String.eqb rest "" then Err (PurlMissingEcosystemOrName s)
      else
        let eco := ToLower eco in
        match LastIndexByte rest "@" with
        | None | Some O => Err (PurlMissingVersion s)
        | Some at_ =>
            let name := str_take at_ rest in
            let version := str_drop (S at_) rest in
            if String.eqb name "" || String.eqb version "" || HasSuffix name "/"
            then Err (PurlEmptyNameOrVersion s)
            else match PathUnescape name with
                 | None => Err (PurlBadEscaping s)
                 | Some decoded => Ok (mkPURL eco decoded (CanonicalVersion eco version))
                 end
        end
  end.

(** [PURL.String]. *)
Definition purl_String (p : PURL) : string :=
  let name := purl_Name p in
  let name := if HasPrefix name "@" then "%40" +:+ str_drop 1 name else name in
  "pkg:" +:+ purl_Ecosystem p +:+ "/" +:+ name +:+ "@" +:+ purl_Version p.

(** The bytes [ConcreteResolvedVersion] accepts.  The Go loop ranges over
    runes; a rune outside ASCII, valid or not, falls to the default case, as
    does each of its bytes here. *)
Definition version_byte (c : ascii) : bool := is_alnum c || in_set "._-+!" c.

Definition ConcreteResolvedVersion (v : string) : bool :=
  if String.eqb v "" || negb (String.eqb (TrimSpace v) v) then false
  else str_forall version_byte v && str_exists is_digit v.

Definition AnyVersionPattern (p : PURL) : string :=
  purl_String (mkPURL (purl_Ecosystem p) (purl_Name p) "%").

Definition cut_suffix (v : string) : string :=
  match IndexAny v "-+" with Some i => str_take i v | None => v end.

Definition versionSegments (p : PURL) : list string := Split (cut_suffix (purl_Version p)) ".".

(** [Split] never returns an empty list, so [segs[0]] is in range. *)
Definition Major (p : PURL) : string :=
  let seg := List.hd "" (versionSegments p) in
  if String.eqb (purl_Ecosystem p) "golang" && negb (HasPrefix seg "v") then "v" +:+ seg else seg.

Definition BreakingBucket (p : PURL) : string :=
  let segs := versionSegments p in
  match segs with
  | [] => ""
  | s0 :: rest =>
      if negb (String.eqb s0 "0") && negb (String.eqb s0 "v0") then Major p
      else match rest with
           | [] => Major p
           | s1 :: _ => Major p +:+ "." +:+ s1
           end
  end.

Definition MajorMinor (p : PURL) : string :=
  match versionSegments p with
  | _ :: s1 :: _ => Major p +:+ "." +:+ s1
  | _ => Major p
  end.

(** *** Version comparison *)

Definition coreVersion (v : string) : string := cut_suffix (TrimPrefix (TrimSpace v) "v").

Definition preRelease (v : string) : string :=
  let v := TrimPrefix (TrimSpace v) "v" in
  let v := match IndexByte v "+" with Some j => str_take j v | None => v end in
  match IndexByte v "-" with None => "" | Some i => str_drop (S i) v end.

(** The maximal prefix of bytes that are digits ([d = true]) or are not. *)
Fixpoint span_digit (d : bool) (s : string) : string * string :=
  match s with
  | "" => ("", "")
  | String c s' =>
      if Bool.eqb (is_digit c) d
      then let '(r, rest) := span_digit d s' in (String c r, rest)
      else ("", s)
  end.

Definition first_digit (s : string) : bool :=
  match s with "" => false | String c _ => is_digit c end.

(** Called on non-empty strings only. *)
Definition leadingRun (s : string) : string * string := span_digit (first_digit s) s.

(** The body of the loop of [compareMixed]: 0 when the runs tie. *)
Definition compare_runs (xr yr : string) : Z :=
  if first_digit xr && first_digit yr then
    let xi := fst (Atoi xr) in
    let yi := fst (Atoi yr) in
    if negb (xi =? yi) then (if xi <? yi then -1 else 1) else 0
  else if negb (String.eqb xr yr) then (if str_lt xr yr then -1 else 1)
  else 0.

Fixpoint compareMixed_loop (fuel : nat) (x y : string) : Z :=
  match x, y with
  | "", "" => 0
  | "", _ => -1
  | _, "" => 1
  | _, _ =>
      match fuel with
      | O => 0
      | S fuel' =>
          let '(xr, xrest) := leadingRun x in
          let '(yr, yrest) := leadingRun y in
          let c := compare_runs xr yr in
          if c =? 0 then compareMixed_loop fuel' xrest yrest else c
      end
  end.

(** Every turn consumes at least one byte of [x]. *)
Definition compareMixed (x y : string) : Z := compareMixed_loop (String.length x) x y.

Definition compareSegment (x y : string) : Z :=
  if String.eqb x y then 0
  else if String.eqb x "" then -1
  else if String.eqb y "" then 1
  else
    let '(xi, xok) := Atoi x in
    let '(yi, yok) := Atoi y in
    if xok && yok then (if negb (xi =? yi) then (if xi <? yi then -1 else 1) else 0)
    else if xok then 1
    else if yok then -1
    else compareMixed x y.

(** One side of the loop of [compareSegments] is exhausted. *)
Fixpoint compare_left_done (ys : list string) : Z :=
  match ys with
  | [] => 0
  | y :: ys' => let c := compareSegment "" y in if c =? 0 then compare_left_done ys' else c
  end.

Fixpoint compare_segment_lists (xs ys : list string) : Z :=
  match xs with
  | [] => compare_left_done ys
  | x :: xs' =>
      let '(y, ys') := match ys with [] => ("", []) | y :: ys' => (y, ys') end in
      let c := compareSegment x y in
      if c =? 0 then compare_segment_lists xs' ys' else c
  end.

Definition compareSegments (a b : string) : Z := compare_segment_lists (Split a ".") (Split b ".").

Definition CompareVersions (a b : string) : Z :=
  let c := compareSegments (coreVersion a) (coreVersion b) in
  if negb (c =? 0) then c
  else
    let ap := preRelease a in
    let bp := preRelease b in
    if String.eqb ap "" && String.eqb bp "" then 0
    else if String.eqb ap "" then 1
    else if String.eqb bp "" then -1
    else compareSegments ap bp.

(** *** Verifier image references

    [PinnedImageReference], the expression [^[^@\s]+@(sha256:[0-9a-f]{64})$]
    as a decision: the first '@' ends the reference, the rest is the digest. *)

Definition regexp_space (c : ascii) : bool :=
  (bv c =? 32) || (bv c =? 9) || (bv c =? 10) || (bv c =? 12) || (bv c =? 13).

Definition is_lower_hex (c : ascii) : bool := is_digit c || ((97 <=? bv c) && (bv c <=? 102)).

Definition sha256_id (s : string) : bool :=
  match CutPrefix s "sha256:" with
  | Some h => Nat.eqb (String.length h) 64 && str_forall is_lower_hex h
  | None => false
  end.

Definition PinnedImageReference (s : string) : bool :=
  let '(ref, digest, ok) := Cut s "@" in
  ok && negb (String.eqb ref "") && str_forall (fun c => negb (regexp_space c)) ref
  && sha256_id digest.

Example CompareVersions_newest : CompareVersions "7.0.3" "14.0.1" = -1.
Proof. vm_compute. reflexivity. Qed.
Example CompareVersions_rc : CompareVersions "1.2.0-rc2" "1.2.0-rc10" = -1.
Proof. vm_compute. reflexivity. Qed.
Example CompareVersions_build : CompareVersions "1.2.0+build-1" "1.2.0" = 0.
Proof. vm_compute. reflexivity. Qed.
Example ParsePURL_scoped :
  ParsePURL "pkg:npm/%40types/node@20.0.0" = Ok (mkPURL "npm" "@types/node" "20.0.0").
Proof. vm_compute. reflexivity. Qed.
Example ParsePURL_go :
  ParsePURL "pkg:golang/github.com/jackc/pgx/v5@5.10.0"
  = Ok (mkPURL "golang" "github.com/jackc/pgx/v5" "v5.10.0").
Proof. vm_compute. reflexivity. Qed.

(** ** The version order

    [CompareVersions] is compared with an explicit lexicographic order: each
    segment has a rank (missing, alphanumeric, numeric) and, within a rank, a
    number or a list of runs. *)

Module VersionOrder.

(** *** Runs of digits and of other bytes *)

Fixpoint runs (s : string) : list string :=
  match s with
  | "" => []
  | String c s' =>
      match runs s' with
      | [] => [single c]
      | r :: rs => if Bool.eqb (is_digit c) (first_digit r) then String c r :: rs
                   else single c :: r :: rs
      end
  end.

(** A non-empty string whose bytes are all digits, or all not digits. *)
Definition run_ok (r : string) : bool :=
  negb (String.eqb r "") && str_forall (fun c => Bool.eqb (is_digit c) (first_digit r)) r.

Lemma span_digit_runs d s r rest :
  span_digit d s = (r, rest) -> r <> "" ->
  runs s = r :: runs rest /\ str_forall (fun c => Bool.eqb (is_digit c) d) r = true
  /\ (String.length rest < String.length s)%nat /\ first_digit r = d.
Proof.
  revert r rest. induction s as [|c s IH]; simpl; intros r rest.
  - by intros [= <- <-].
  - destruct (Bool.eqb (is_digit c) d) eqn:Hc; [|by intros [= <- <-]].
    destruct (span_digit d s) as [r' rest'] eqn:E. intros [= <- <-] _.
    apply Bool.eqb_prop in Hc as <-. simpl. rewrite Bool.eqb_reflx. simpl.
    destruct r' as [|c' r'].
    + assert (rest' = s) as ->.
      { clear IH. destruct s as [|x s]; simpl in E; [by injection E|].
        destruct (Bool.eqb (is_digit x) (is_digit c)); [|by injection E].
        destruct (span_digit _ s). discriminate. }
      clear IH. split; [|repeat split; lia].
      destruct s as [|x s]; simpl; [done|]. simpl in E.
      destruct (Bool.eqb (is_digit x) (is_digit c)) eqn:Hx.
      { destruct (span_digit _ s). discriminate. }
      apply Bool.eqb_false_iff in Hx.
      assert (forall r, first_digit (String x r) <> is_digit c) by (intros; simpl; done).
      destruct (runs s) as [|r rs]; simpl.
      * destruct (Bool.eqb_spec (is_digit c) (is_digit x)); [congruence|done].
      * destruct (Bool.eqb (is_digit x) (first_digit r)); simpl;
          destruct (Bool.eqb_spec (is_digit c) (is_digit x)); solve [congruence | done].
    + destruct (IH _ _ eq_refl ltac:(done)) as (Hr & Hf & Hl & Hd).
      rewrite Hr. simpl in Hd. simpl. rewrite Hd, Bool.eqb_reflx.
      simpl in Hf. rewrite Hd, Bool.eqb_reflx in Hf. repeat split; [done|lia].
Qed.

Lemma leadingRun_runs s r rest :
  s <> "" -> leadingRun s = (r, rest) ->
  runs s = r :: runs rest /\ run_ok r = true /\ (String.length rest < String.length s)%nat.
Proof.
  intros Hs E. unfold leadingRun in E. destruct s as [|c s]; [done|].
  assert (r <> "") as Hr.
  { simpl in E. rewrite Bool.eqb_reflx in E. destruct (span_digit _ s). by injection E as <- <-. }
  destruct (span_digit_runs _ _ _ _ E Hr) as (H1 & H2 & H3 & H4).
  repeat split; try done. unfold run_ok. rewrite H4.
  apply String.eqb_neq in Hr. by rewrite Hr.
Qed.

(** *** Orders on runs and segments *)

(** Digit runs sit between the runs that start below '0' and those that
    start above '9'; two runs of digits compare as numbers. *)
Definition run_rank (r : string) : Z :=
  match r with
  | "" => 0
  | String c _ => if is_digit c then 1 else if bv c <? 48 then 0 else 2
  end.

Definition run_number (r : string) : Z := if first_digit r then fst (Atoi r) else 0.
Definition run_text (r : string) : string := if first_digit r then "" else r.

Definition cmp_run : string -> string -> Z :=
  cmp_then (cmp_on run_rank cmp_Z)
    (cmp_then (cmp_on run_number cmp_Z) (cmp_on run_text str_cmp)).

Lemma str_lt_cmp a b : a <> b -> (if str_lt a b then -1 else 1) = str_cmp a b.
Proof.
  intros Hne. unfold str_lt. pose proof (cmp_range a b). pose proof (str_cmp_eq a b).
  destruct (Z.ltb_spec (str_cmp a b) 0); [lia|].
  destruct (Z.eq_dec (str_cmp a b) 0); [naive_solver|lia].
Qed.

Lemma cmp_Z_code x y : (if negb (x =? y) then if x <? y then -1 else 1 else 0) = cmp_Z x y.
Proof. unfold cmp_Z. split_ifs; bool_facts; lia. Qed.

(** Two runs of different kinds are ordered by their first bytes. *)
Ltac unequal_runs :=
  match goal with |- context [String.eqb ?a ?b] =>
    assert (Hne : a <> b) by congruence;
    rewrite (proj2 (String.eqb_neq a b) Hne); cbn [negb]; rewrite (str_lt_cmp _ _ Hne)
  end;
  cbn [str_cmp]; unfold cmp_Z, is_digit in *; split_all_ifs; bool_facts; lia.

Lemma compare_runs_cmp x y : run_ok x = true -> run_ok y = true -> compare_runs x y = cmp_run x y.
Proof.
  unfold run_ok, compare_runs, cmp_run, cmp_then, cmp_on, run_number, run_text.
  destruct x as [|a x]; [done|]. destruct y as [|b y]; [done|]. intros _ _.
  rewrite cmp_Z_code. unfold run_rank. simpl first_digit.
  destruct (is_digit a) eqn:Ha, (is_digit b) eqn:Hb; cbn [andb].
  - generalize (fst (Atoi (String a x))) (fst (Atoi (String b y))). intros m n.
    unfold cmp_Z. simpl. split_ifs; bool_facts; lia.
  - unequal_runs.
  - unequal_runs.
  - destruct (String.eqb_spec (String a x) (String b y)) as [[= -> ->]|Hne].
    + unfold cmp_Z. rewrite Z.ltb_irrefl. symmetry. apply (cmp_refl (String b y)).
    + cbn [negb]. rewrite (str_lt_cmp _ _ Hne). cbn [str_cmp]. unfold cmp_Z, is_digit in *.
      split_all_ifs; bool_facts; lia.
Qed.

Lemma compareMixed_loop_runs fuel x y :
  (String.length x <= fuel)%nat -> compareMixed_loop fuel x y = cmp_list cmp_run (runs x) (runs y).
Proof.
  revert x y. induction fuel as [|fuel IH]; intros x y Hf.
  - destruct x; [|simpl in Hf; lia]. destruct y as [|b y]; simpl; [done|].
    destruct (runs y) as [|r rs]; [done|]. by destruct (Bool.eqb _ _).
  - destruct x as [|a x].
    { destruct y as [|b y]; simpl; [done|].
      destruct (runs y) as [|r rs]; [done|]. by destruct (Bool.eqb _ _). }
    destruct y as [|b y].
    { simpl. destruct (runs x) as [|r rs]; [done|]. by destruct (Bool.eqb _ _). }
    remember (String a x) as X. remember (String b y) as Y.
    assert (X <> "" /\ Y <> "") as [HX HY] by (subst; done).
    destruct (leadingRun X) as [xr xrest] eqn:EX. destruct (leadingRun Y) as [yr yrest] eqn:EY.
    destruct (leadingRun_runs _ _ _ HX EX) as (RX & OX & LX).
    destruct (leadingRun_runs _ _ _ HY EY) as (RY & OY & LY).
    rewrite RX, RY. simpl cmp_list. rewrite <- (compare_runs_cmp _ _ OX OY).
    rewrite <- IH by lia. subst X Y. cbn [compareMixed_loop]. by rewrite EX, EY.
Qed.

Lemma compareMixed_runs x y : compareMixed x y = cmp_list cmp_run (runs x) (runs y).
Proof. by apply compareMixed_loop_runs. Qed.

(** Missing segments are below alphanumeric ones, those below numbers. *)
Definition seg_rank (x : string) : Z :=
  if String.eqb x "" then 0 else if snd (Atoi x) then 2 else 1.
Definition seg_number (x : string) : Z := if snd (Atoi x) then fst (Atoi x) else 0.
Definition seg_runs (x : string) : list string := if snd (Atoi x) then [] else runs x.

Definition cmp_segment : string -> string -> Z :=
  cmp_then (cmp_on seg_rank cmp_Z)
    (cmp_then (cmp_on seg_number cmp_Z) (cmp_on seg_runs (cmp_list cmp_run))).

#[global] Instance cmp_run_order : CmpOrder cmp_run.
Proof. unfold cmp_run. apply _. Qed.

#[global] Instance cmp_segment_order : CmpOrder cmp_segment.
Proof. unfold cmp_segment. apply _. Qed.

Lemma compareSegment_cmp x y : compareSegment x y = cmp_segment x y.
Proof.
  unfold compareSegment.
  destruct (String.eqb_spec x y) as [->|Hne]; [by rewrite cmp_refl|].
  unfold cmp_segment, cmp_then, cmp_on, seg_rank, seg_number, seg_runs.
  destruct (String.eqb_spec x "") as [->|Hx].
  { destruct (String.eqb_spec y "") as [->|Hy]; [done|]. by destruct (snd (Atoi y)). }
  destruct (String.eqb_spec y "") as [->|Hy]; [by destruct (snd (Atoi x))|].
  destruct (Atoi x) as [xi xok], (Atoi y) as [yi yok]. simpl. rewrite cmp_Z_code.
  destruct xok, yok; simpl; try done.
  - by destruct (cmp_Z xi yi =? 0) eqn:E; bool_facts.
  - apply compareMixed_runs.
Qed.

(** *** Segment lists *)

Fixpoint pad (n : nat) (xs : list string) : list string :=
  match n with
  | O => []
  | S n' => List.hd "" xs :: pad n' (List.tl xs)
  end.

Lemma compare_left_done_pad n ys : (length ys <= n)%nat ->
  compare_left_done ys = cmp_list cmp_segment (pad n []) (pad n ys).
Proof.
  revert ys. induction n as [|n IH]; intros [|y ys] Hl; simpl in *; try done; try lia.
  - rewrite <- (IH [] ltac:(simpl; lia)). done.
  - rewrite <- compareSegment_cmp, <- (IH ys ltac:(lia)). done.
Qed.

Lemma compare_segment_lists_pad n xs ys : (length xs <= n)%nat -> (length ys <= n)%nat ->
  compare_segment_lists xs ys = cmp_list cmp_segment (pad n xs) (pad n ys).
Proof.
  revert n ys. induction xs as [|x xs IH]; intros n ys Hx Hy; simpl.
  - by apply compare_left_done_pad.
  - destruct n as [|n]; simpl in Hx; [lia|]. simpl. rewrite <- compareSegment_cmp.
    destruct ys as [|y ys]; simpl in *; rewrite <- IH by (simpl; lia); done.
Qed.

#[global] Instance compareSegments_order : CmpOrder compareSegments.
Proof.
  unfold compareSegments. split.
  - intros x y. rewrite (compare_segment_lists_pad _ _ _ (Nat.le_max_l _ _) (Nat.le_max_r _ _)).
    apply cmp_range.
  - intros x y. set (n := Nat.max (length (Split x ".")) (length (Split y "."))).
    rewrite !(compare_segment_lists_pad n) by (unfold n; lia). apply cmp_antisym.
  - intros x y z.
    set (n := (length (Split x ".") + length (Split y ".") + length (Split z "."))%nat).
    rewrite !(compare_segment_lists_pad n) by (unfold n; lia). apply cmp_trans.
Qed.

(** *** Versions *)

(** No pre-release is above every pre-release. *)
Definition cmp_pre : string -> string -> Z :=
  cmp_then (cmp_on (fun p => if String.eqb p "" then 1 else 0) cmp_Z) compareSegments.

Definition cmp_version : string -> string -> Z :=
  cmp_then (cmp_on coreVersion compareSegments) (cmp_on preRelease cmp_pre).

#[global] Instance cmp_version_order : CmpOrder cmp_version.
Proof. unfold cmp_version, cmp_pre. apply _. Qed.

Lemma CompareVersions_cmp a b : CompareVersions a b = cmp_version a b.
Proof.
  unfold CompareVersions, cmp_version, cmp_pre, cmp_then, cmp_on.
  destruct (Z.eqb_spec (compareSegments (coreVersion a) (coreVersion b)) 0); simpl; [|done].
  destruct (String.eqb_spec (preRelease a) "") as [->|], (String.eqb_spec (preRelease b) "") as [->|];
    simpl; try done.
Qed.

#[global] Instance CompareVersions_order : CmpOrder CompareVersions.
Proof. apply (cmp_order_ext _ _ CompareVersions_cmp), _. Qed.

End VersionOrder.

(** ** Escaping *)

Lemma url_unescape_id s : lacks "%" s = true -> url_unescape false s = Some s.
Proof.
  induction s as [|c s IH]; simpl; [done|]. unfold lacks. simpl.
  intros [Hc Hs]%andb_true_iff. apply negb_true_iff in Hc. rewrite Hc, IH by done. done.
Qed.

Lemma HasSuffix_app_slash a s : s <> "" -> HasSuffix (a +:+ s) "/" = HasSuffix s "/".
Proof.
  intros Hs. induction a as [|x a IH]; [done|]. cbn [String.append HasSuffix]. rewrite IH.
  destruct (String.eqb_spec (String x (a +:+ s)) "/") as [[= _ E]|]; [|done].
  apply str_app_eq_nil in E as [_ ->]. done.
Qed.

(** ** Well-formed package URLs *)

(** What [String] renders without loss. *)
Definition purl_wf (p : PURL) : bool :=
  negb (String.eqb (purl_Ecosystem p) "") && lacks "/" (purl_Ecosystem p)
  && String.eqb (ToLower (purl_Ecosystem p)) (purl_Ecosystem p)
  && negb (String.eqb (purl_Name p) "") && lacks "%" (purl_Name p)
  && negb (HasSuffix (purl_Name p) "/")
  && negb (String.eqb (purl_Version p) "") && lacks "@" (purl_Version p)
  && String.eqb (CanonicalVersion (purl_Ecosystem p) (purl_Version p)) (purl_Version p).

(** The escaped name reads back, is not empty and does not end in '/'. *)
Lemma escaped_name_ok n :
  n <> "" -> lacks "%" n = true -> HasSuffix n "/" = false ->
  let e := if HasPrefix n "@" then "%40" +:+ str_drop 1 n else n in
  e <> "" /\ PathUnescape e = Some n /\ HasSuffix e "/" = false.
Proof.
  intros Hn Hl Hs e. unfold e. destruct n as [|c n]; [done|]. simpl HasPrefix.
  destruct (Ascii.eqb_spec "@" c) as [<-|Hc]; [|repeat split; [done|by apply url_unescape_id|done]].
  unfold lacks in Hl. simpl in Hl.
  change (str_drop 1 (String "@" n)) with (str_drop 0 n). assert (str_drop 0 n = n) as -> by (by destruct n).
  cbn [andb]. split; [done|]. split.
  - unfold PathUnescape. simpl. by rewrite url_unescape_id.
  - destruct n as [|d n]; [done|]. rewrite HasSuffix_app_slash by done.
    change (String "@" (String d n)) with ("@" +:+ String d n) in Hs.
    by rewrite HasSuffix_app_slash in Hs.
Qed.

Lemma ParsePURL_rendered eco e v n :
  eco <> "" -> lacks "/" eco = true -> e <> "" -> HasSuffix e "/" = false ->
  PathUnescape e = Some n -> v <> "" -> lacks "@" v = true ->
  ParsePURL ("pkg:" +:+ eco +:+ "/" +:+ e +:+ "@" +:+ v)
  = Ok (mkPURL (ToLower eco) n (CanonicalVersion (ToLower eco) v)).
Proof.
  intros He Hl Hne Hs Hu Hv Hat. unfold ParsePURL. rewrite CutPrefix_app.
  change ("/" +:+ e +:+ "@" +:+ v) with (String "/" (e +:+ String "@" v)).
  rewrite Cut_app by done. apply String.eqb_neq in He. rewrite He.
  assert (e +:+ String "@" v <> "") as Hr by (destruct e; done).
  apply String.eqb_neq in Hr. rewrite Hr. cbn [negb orb].
  rewrite LastIndexByte_app by done. destruct e as [|c e]; [done|]. cbn [String.length].
  change (S (String.length e)) with (String.length (String c e)).
  rewrite str_take_app, str_drop_app_S, Hs. apply String.eqb_neq in Hne, Hv.
  rewrite Hne, Hv. cbn [orb]. by rewrite Hu.
Qed.

(** ** Properties *)

(** C40.  [CompareVersions] is a total preorder: every version ties with
    itself, swapping the arguments flips the sign, and it is transitive, for
    all byte strings whatever their spelling.  Sorting versions by it, and
    picking the newest one, is therefore well defined. *)
Theorem CompareVersions_total_preorder :
  (forall a, CompareVersions a a = 0)
  /\ (forall a b, CompareVersions b a = - CompareVersions a b)
  /\ (forall a b, CompareVersions a b = -1 \/ CompareVersions a b = 0 \/ CompareVersions a b = 1)
  /\ (forall a b c, CompareVersions a b <= 0 -> CompareVersions b c <= 0 -> CompareVersions a c <= 0).
Proof.
  pose proof VersionOrder.CompareVersions_order.
  repeat split; intros; [apply cmp_refl|apply cmp_antisym|apply cmp_range|eauto using cmp_trans].
Qed.

Lemma CompareVersions_total_preorder_witness :
  CompareVersions "1.2.0-rc2" "1.2.0-rc10" <= 0 /\ CompareVersions "1.2.0-rc10" "1.2.0" <= 0
  /\ CompareVersions "1.2.0-rc2" "1.2.0" <= 0.
Proof.
  assert (H1 : CompareVersions "1.2.0-rc2" "1.2.0-rc10" <= 0) by (vm_compute; discriminate).
  assert (H2 : CompareVersions "1.2.0-rc10" "1.2.0" <= 0) by (vm_compute; discriminate).
  repeat split; [exact H1|exact H2|].
  exact (proj2 (proj2 (proj2 CompareVersions_total_preorder)) _ _ _ H1 H2).
Defined.

Lemma purl_wf_parse p : purl_wf p = true -> ParsePURL (purl_String p) = Ok p.
Proof.
  unfold purl_wf. intros H. bool_facts. destruct p as [eco n v]. simpl in *.
  destruct (escaped_name_ok n) as (He & Hu & Hs); [done..|].
  unfold purl_String. simpl purl_Name. simpl purl_Ecosystem. simpl purl_Version.
  cbn zeta in *. rewrite (ParsePURL_rendered _ _ _ n) by done. congruence.
Qed.

(** Rendering a well-formed package URL and parsing it back gives the
    same package URL: scoped npm names, Go module paths with slashes and Go
    versions included. *)
Theorem ParsePURL_String_roundtrip p : purl_wf p = true -> ParsePURL (purl_String p) = Ok p.
Proof. apply purl_wf_parse. Qed.

Lemma ParsePURL_String_roundtrip_witness :
  ParsePURL (purl_String (mkPURL "npm" "@types/node" "20.0.0"))
  = Ok (mkPURL "npm" "@types/node" "20.0.0").
Proof. apply (ParsePURL_String_roundtrip (mkPURL "npm" "@types/node" "20.0.0")). vm_compute. reflexivity. Defined.

(** ** Parsing normalises *)

Lemma ParsePURL_inv s p : ParsePURL s = Ok p ->
  exists eco e v n, eco <> "" /\ lacks "/" eco = true /\ e <> "" /\ PathUnescape e = Some n
    /\ v <> "" /\ lacks "@" v = true
    /\ p = mkPURL (ToLower eco) n (CanonicalVersion (ToLower eco) v).
Proof.
  unfold ParsePURL. destruct (CutPrefix s "pkg:") as [rest|]; [|discriminate].
  destruct (Cut rest "/") as [[eco rest'] ok] eqn:Ec.
  destruct (negb ok || _ || _) eqn:E1; [discriminate|]. bool_facts. subst ok.
  destruct (Cut_spec _ _ _ _ _ Ec) as [Hl _].
  destruct (LastIndexByte rest' "@") as [[|i]|] eqn:Ei; [discriminate| |discriminate].
  destruct (String.eqb (str_take (S i) rest') "" || _ || _) eqn:E2; [discriminate|]. bool_facts.
  destruct (PathUnescape (str_take (S i) rest')) as [n|] eqn:Eu; [|discriminate].
  intros [= <-]. destruct (LastIndexByte_Some _ _ _ Ei) as (_ & Hv & _).
  exists eco, (str_take (S i) rest'), (str_drop (S (S i)) rest'), n. repeat split; done.
Qed.

Lemma CanonicalVersion_cases e v :
  CanonicalVersion e v = v
  \/ exists c v', e = "golang" /\ v = String c v' /\ is_digit c = true
       /\ CanonicalVersion e v = String "v" v.
Proof.
  unfold CanonicalVersion. destruct (_ || _ || _) eqn:E; [by left|]. bool_facts.
  destruct v as [|c v]; [by left|]. destruct (is_digit c) eqn:Hd; [|by left].
  right. exists c, v. by rewrite H.
Qed.

Lemma CanonicalVersion_idem e v : CanonicalVersion e (CanonicalVersion e v) = CanonicalVersion e v.
Proof.
  destruct (CanonicalVersion_cases e v) as [E|(c & v' & -> & -> & _ & E)]; rewrite E; [done|].
  reflexivity.
Qed.

Lemma CanonicalVersion_not_nil e v : v <> "" -> CanonicalVersion e v <> "".
Proof. intros H. by destruct (CanonicalVersion_cases e v) as [->|(c & v' & -> & -> & _ & ->)]. Qed.

Lemma CanonicalVersion_lacks e v : lacks "@" v = true -> lacks "@" (CanonicalVersion e v) = true.
Proof. intros H. by destruct (CanonicalVersion_cases e v) as [->|(c & v' & -> & -> & _ & ->)]. Qed.

Lemma ToLower_not_nil s : s <> "" -> ToLower s <> "".
Proof.
  destruct s as [|c s]; [done|]. intros _. unfold ToLower. cbn [map_runes_skip].
  destruct (decode_rune (String c s)) as [r w]. destruct (encode_rune_cons (unicode_ToLower r)) as (a & b & ->).
  done.
Qed.

(** Whatever spelling of a package URL was accepted, its canonical
    rendering parses to the same package URL, as long as the decoded name has
    no '%' and does not end in '/' (a name [String] would not escape). *)
Theorem ParsePURL_canonical s p :
  ParsePURL s = Ok p -> lacks "%" (purl_Name p) = true -> HasSuffix (purl_Name p) "/" = false ->
  purl_Name p <> "" -> ParsePURL (purl_String p) = Ok p.
Proof.
  intros Hp Hn Hs Hne. destruct (ParsePURL_inv s p Hp) as (eco & e & v & n & He & Hl & Hen & Hu & Hv & Hat & ->).
  simpl in *. destruct (escaped_name_ok n) as (He' & Hu' & Hs'); [done..|]. cbn zeta in *.
  unfold purl_String. simpl purl_Name. simpl purl_Ecosystem. simpl purl_Version.
  rewrite (ParsePURL_rendered _ _ _ n); try done.
  - by rewrite ToLower_idem, CanonicalVersion_idem.
  - by apply ToLower_not_nil.
  - by apply ToLower_lacks.
  - by apply CanonicalVersion_not_nil.
  - by apply CanonicalVersion_lacks.
Qed.

Lemma ParsePURL_canonical_witness :
  ParsePURL (purl_String (mkPURL "golang" "github.com/jackc/pgx/v5" "v5.10.0"))
  = Ok (mkPURL "golang" "github.com/jackc/pgx/v5" "v5.10.0").
Proof.
  apply (ParsePURL_canonical "pkg:GoLang/github.com/jackc/pgx/v5@5.10.0");
    [vm_compute; reflexivity|vm_compute; reflexivity|vm_compute; reflexivity|discriminate].
Defined.

(** ** Version buckets *)

Lemma cut_suffix_cons c s : in_set "-+" c = false -> cut_suffix (String c s) = String c (cut_suffix s).
Proof.
  intros H. unfold cut_suffix, IndexAny. cbn [index_by]. rewrite H.
  by destruct (index_by (in_set "-+") s).
Qed.

Lemma Split_cons a s c h t : a <> c -> Split s c = h :: t -> Split (String a s) c = String a h :: t.
Proof.
  intros Hne. unfold Split. simpl. destruct (split_ne c s) as [h' t']. intros [= -> ->].
  apply Ascii.eqb_neq in Hne. by rewrite Hne.
Qed.

Lemma Split_not_nil s c : exists h t, Split s c = h :: t.
Proof. unfold Split. destruct (split_ne c s). eauto. Qed.

Lemma digit_facts c : is_digit c = true -> in_set "-+" c = false /\ c <> "."%char /\ c <> "v"%char.
Proof.
  intros H. destruct c as [[] [] [] [] [] [] [] []]; vm_compute in H; try discriminate H;
    (split; [reflexivity|split; discriminate]).
Qed.

(** The segments of a repaired Go version differ from the bare ones in the
    first letter of the first one. *)
Lemma repaired_segments c v n :
  is_digit c = true ->
  exists h t, versionSegments (mkPURL "golang" n (String c v)) = String c h :: t
    /\ versionSegments (mkPURL "golang" n (String "v" (String c v))) = String "v" (String c h) :: t.
Proof.
  intros Hd. destruct (digit_facts c Hd) as (H1 & H2 & H3). unfold versionSegments. simpl purl_Version.
  rewrite (cut_suffix_cons "v") by done. rewrite cut_suffix_cons by done.
  destruct (Split_not_nil (cut_suffix v) ".") as (h & t & E).
  exists h, t. split; [by apply Split_cons|]. apply Split_cons; [done|]. by apply Split_cons.
Qed.

(** Adding the 'v' a Go version is missing changes none of the buckets
    computed from it, so records written before and after the repair land in
    the same shard and grade alike. *)
Theorem buckets_ignore_version_repair e n v :
  let p := mkPURL e n v in
  let q := mkPURL e n (CanonicalVersion e v) in
  Major q = Major p /\ MajorMinor q = MajorMinor p /\ BreakingBucket q = BreakingBucket p.
Proof.
  cbn zeta. destruct (CanonicalVersion_cases e v) as [->|(c & v' & -> & -> & Hd & ->)]; [done|].
  destruct (repaired_segments c v' n Hd) as (h & t & E1 & E2). destruct (digit_facts c Hd) as (_ & _ & Hv).
  assert (Major (mkPURL "golang" n (String "v" (String c v'))) = String "v" (String c h)) as M1.
  { unfold Major. rewrite E2. done. }
  assert (Major (mkPURL "golang" n (String c v')) = String "v" (String c h)) as M2.
  { unfold Major. rewrite E1. simpl. destruct (Ascii.eqb_spec "v" c); [congruence|done]. }
  unfold MajorMinor, BreakingBucket. rewrite M1, M2, E1, E2. split; [done|]. split; [done|].
  assert (String.eqb (String c h) "v0" = false) as -> by (apply String.eqb_neq; congruence).
  assert (String.eqb (String "v" (String c h)) "0" = false) as -> by (by apply String.eqb_neq).
  destruct (String.eqb_spec (String c h) "0") as [E|E],
           (String.eqb_spec (String "v" (String c h)) "v0") as [E'|E']; try congruence; done.
Qed.

(** ** Pre-release and build suffixes *)

Lemma version_byte_graph c : version_byte c = true -> graph_byte c = true.
Proof. by destruct c as [[] [] [] [] [] [] [] []]; vm_compute. Qed.

Lemma TrimSpace_version s : str_forall version_byte s = true -> TrimSpace s = s.
Proof.
  intros H. apply TrimSpace_space_free, space_free_graph.
  eapply str_forall_impl; [apply version_byte_graph|exact H].
Qed.

Lemma TrimPrefix_v_app s c t : c <> "v"%char ->
  TrimPrefix (s +:+ String c t) "v" = TrimPrefix s "v" +:+ String c t.
Proof.
  intros Hc. unfold TrimPrefix. destruct s as [|a s]; simpl.
  - destruct (Ascii.eqb_spec "v" c); [congruence|done].
  - by destruct (Ascii.eqb "v" a).
Qed.

Lemma cut_suffix_app s c t : in_set "-+" c = true -> cut_suffix (s +:+ String c t) = cut_suffix s.
Proof.
  intros Hc. unfold cut_suffix, IndexAny. rewrite index_by_app. cbn [index_by]. rewrite Hc.
  destruct (index_by (in_set "-+") s) as [i|] eqn:E; simpl.
  - apply str_take_app_lt. apply index_by_lt in E. lia.
  - by rewrite Nat.add_0_r, str_take_app.
Qed.

Lemma lacks_index s c : lacks c s = true -> IndexByte s c = None.
Proof.
  intros H. apply index_by_none. eapply str_forall_impl; [|exact H].
  simpl. intros a. by rewrite Ascii.eqb_sym.
Qed.

Lemma lacks_TrimPrefix c s p : lacks c s = true -> lacks c (TrimPrefix s p) = true.
Proof.
  unfold TrimPrefix. destruct (CutPrefix s p) as [r|] eqn:E; [|done].
  apply CutPrefix_Some in E as ->. rewrite lacks_app. by intros [_ ?]%andb_true_iff.
Qed.

Lemma IndexByte_app s c t : lacks c s = true -> IndexByte (s +:+ String c t) c = Some (String.length s).
Proof.
  intros H. unfold IndexByte. rewrite index_by_app. apply lacks_index in H. unfold IndexByte in H.
  rewrite H. cbn [index_by]. rewrite Ascii.eqb_refl. simpl. by rewrite Nat.add_0_r.
Qed.

Lemma coreVersion_suffix v c t : str_forall version_byte v = true -> str_forall version_byte t = true ->
  in_set "-+" c = true -> version_byte c = true -> coreVersion (v +:+ String c t) = coreVersion v.
Proof.
  intros Hv Ht Hc Hcb. unfold coreVersion.
  rewrite !TrimSpace_version by (rewrite ?str_forall_app; simpl; by rewrite ?Hv, ?Hcb, ?Ht).
  rewrite TrimPrefix_v_app by (intros ->; discriminate). by apply cut_suffix_app.
Qed.

(** Build metadata never changes the order, and a pre-release of a
    version sorts below the version itself: [v+b] ties with [v], and
    [core-pre] is older than [core]. *)
Theorem CompareVersions_suffixes v b core pre :
  str_forall version_byte (v +:+ b +:+ core +:+ pre) = true ->
  lacks "+" v = true -> lacks "-" core = true -> lacks "+" core = true ->
  lacks "+" pre = true -> pre <> "" ->
  CompareVersions (v +:+ "+" +:+ b) v = 0 /\ CompareVersions (core +:+ "-" +:+ pre) core = -1.
Proof.
  rewrite !str_forall_app. intros H Hv Hc1 Hc2 Hp Hpre. bool_facts.
  change ("+" +:+ b) with (String "+" b). change ("-" +:+ pre) with (String "-" pre).
  unfold CompareVersions. rewrite !coreVersion_suffix by done. rewrite !cmp_refl. cbn [negb Z.eqb].
  unfold preRelease.
  rewrite !TrimSpace_version
    by (rewrite ?str_forall_app; simpl; by repeat match goal with H : str_forall _ _ = true |- _ => rewrite H end).
  rewrite !TrimPrefix_v_app by done. split.
  - rewrite IndexByte_app, str_take_app by (by apply lacks_TrimPrefix).
    rewrite (lacks_index _ "+") by (by apply lacks_TrimPrefix). cbn zeta.
    generalize (match IndexByte (TrimPrefix v "v") "-" with Some i => str_drop (S i) (TrimPrefix v "v") | None => "" end).
    intros q. destruct (String.eqb_spec q "") as [->|]; [done|]. apply cmp_refl.
  - rewrite (lacks_index _ "+").
    2: { rewrite lacks_app, lacks_TrimPrefix by done. by unfold lacks; simpl. }
    rewrite IndexByte_app by (by apply lacks_TrimPrefix). rewrite str_drop_app_S.
    rewrite (lacks_index _ "+"), (lacks_index _ "-") by (by apply lacks_TrimPrefix). cbn zeta.
    destruct (String.eqb_spec pre "") as [|]; [done|]. done.
Qed.

Lemma CompareVersions_suffixes_witness :
  CompareVersions ("1.2.0" +:+ "+" +:+ "build-1") "1.2.0" = 0
  /\ CompareVersions ("1.2.0" +:+ "-" +:+ "rc1") "1.2.0" = -1.
Proof. apply (CompareVersions_suffixes "1.2.0" "build-1" "1.2.0" "rc1"); first [reflexivity|discriminate]. Defined.
