(* ===== verification/Env.v ===== *)
(** * Environment fingerprints (internal/domain/envfp.go)

    The sparse description of where something ran, its normalisation (an
    undetected dimension is absent, a bare runtime implies its execution
    context) and the version buckets used where a full version would say too
    much. *)

From S2P Require Import Prelude GoStrings GoUnicode GoStd StringFacts UnicodeFacts Hash Json.

(** ** Data *)

Record EnvironmentFingerprint := mkEnv {
  env_SchemaVersion : Z;
  env_Ecosystem : string;
  env_OS : string;
  env_OSVersionBucket : string;
  env_Arch : string;
  env_Runtime : string;
  env_RuntimeVersion : string;
  env_Language : string;
  env_LanguageVersion : string;
  env_Compiler : string;
  env_CompilerVersion : string;
  env_PackageManager : string;
  env_PackageManagerVersion : string;
  env_ModuleSystem : string;
  env_Frameworks : list string;
  env_ExecutionContext : string;
  env_BrowserFamily : string;
  env_BrowserMajor : string;
  env_Engine : string;
  env_EngineVersion : string;
  env_Virtualization : string;
  env_ContainerRuntime : string;
  env_Libc : string;
  env_LibcVersion : string;
  env_Distro : string;
  env_CI : bool
}.

#[export] Instance EnvironmentFingerprint_eq_dec : EqDecision EnvironmentFingerprint.
Proof. solve_decision. Defined.

Definition env_zero : EnvironmentFingerprint := mkEnv 0 "" "" "" "" "" "" "" "" "" "" "" "" "" []
     "" "" "" "" "" "" "" "" "" "" false.

(** A Node 22 process on Linux. *)
Definition env_example : EnvironmentFingerprint :=
  mkEnv 1 "npm" "linux" "" "x64" "node" "22.18.1" "" "" "" "" "npm" "10.9.0" "esm" [] "" "" "" "" "" "" "" "glibc" "2.39" "" false.

Definition env_json (e : EnvironmentFingerprint) : json :=
  JObj (field "schemaVersion" (jint (env_SchemaVersion e))
    ++ field "ecosystem" (JStr (env_Ecosystem e))
    ++ field "os" (JStr (env_OS e))
    ++ omit_str "osVersionBucket" (env_OSVersionBucket e)
    ++ field "arch" (JStr (env_Arch e))
    ++ omit_str "runtime" (env_Runtime e)
    ++ omit_str "runtimeVersion" (env_RuntimeVersion e)
    ++ omit_str "language" (env_Language e)
    ++ omit_str "languageVersion" (env_LanguageVersion e)
    ++ omit_str "compiler" (env_Compiler e)
    ++ omit_str "compilerVersion" (env_CompilerVersion e)
    ++ omit_str "packageManager" (env_PackageManager e)
    ++ omit_str "packageManagerVersion" (env_PackageManagerVersion e)
    ++ omit_str "moduleSystem" (env_ModuleSystem e)
    ++ omit_strs "frameworks" (env_Frameworks e)
    ++ omit_str "executionContext" (env_ExecutionContext e)
    ++ omit_str "browserFamily" (env_BrowserFamily e)
    ++ omit_str "browserMajor" (env_BrowserMajor e)
    ++ omit_str "engine" (env_Engine e)
    ++ omit_str "engineVersion" (env_EngineVersion e)
    ++ omit_str "virtualization" (env_Virtualization e)
    ++ omit_str "containerRuntime" (env_ContainerRuntime e)
    ++ omit_str "libc" (env_Libc e)
    ++ omit_str "libcVersion" (env_LibcVersion e)
    ++ omit_str "distro" (env_Distro e)
    ++ omit_bool "ci" (env_CI e)).

(** ** Operations *)

(** [ContextLabel]: the execution-context axis, "chrome 140", "node 22.18". *)
Definition ContextLabel (e : EnvironmentFingerprint) : string :=
  if negb (String.eqb (env_BrowserFamily e) "") then
    if negb (String.eqb (env_BrowserMajor e) "")
    then env_BrowserFamily e +:+ " " +:+ env_BrowserMajor e
    else env_BrowserFamily e
  else
    let ctx := env_ExecutionContext e in
    let ctx := if String.eqb ctx "" then env_Runtime e else ctx in
    if String.eqb ctx "" then ""
    else if negb (String.eqb (env_RuntimeVersion e) "") then ctx +:+ " " +:+ env_RuntimeVersion e
    else ctx.

Definition placeholderValues : list string :=
  ["unknown"; "unspecified"; "undefined"; "n/a"; "na"; "null"; "nil"; "?"; "-"; ""].

Definition clearPlaceholder (v : string) : string :=
  if str_in (ToLower (TrimSpace v)) placeholderValues then "" else v.

(** The loop over the field pointers; [Ecosystem] is not among them. *)
Definition clear_placeholders (e : EnvironmentFingerprint) : EnvironmentFingerprint :=
  {| env_SchemaVersion := env_SchemaVersion e;
     env_Ecosystem := env_Ecosystem e;
     env_OS := clearPlaceholder (env_OS e);
     env_OSVersionBucket := clearPlaceholder (env_OSVersionBucket e);
     env_Arch := clearPlaceholder (env_Arch e);
     env_Runtime := clearPlaceholder (env_Runtime e);
     env_RuntimeVersion := clearPlaceholder (env_RuntimeVersion e);
     env_Language := clearPlaceholder (env_Language e);
     env_LanguageVersion := clearPlaceholder (env_LanguageVersion e);
     env_Compiler := clearPlaceholder (env_Compiler e);
     env_CompilerVersion := clearPlaceholder (env_CompilerVersion e);
     env_PackageManager := clearPlaceholder (env_PackageManager e);
     env_PackageManagerVersion := clearPlaceholder (env_PackageManagerVersion e);
     env_ModuleSystem := clearPlaceholder (env_ModuleSystem e);
     env_Frameworks := env_Frameworks e;
     env_ExecutionContext := clearPlaceholder (env_ExecutionContext e);
     env_BrowserFamily := clearPlaceholder (env_BrowserFamily e);
     env_BrowserMajor := clearPlaceholder (env_BrowserMajor e);
     env_Engine := clearPlaceholder (env_Engine e);
     env_EngineVersion := clearPlaceholder (env_EngineVersion e);
     env_Virtualization := clearPlaceholder (env_Virtualization e);
     env_ContainerRuntime := clearPlaceholder (env_ContainerRuntime e);
     env_Libc := clearPlaceholder (env_Libc e);
     env_LibcVersion := clearPlaceholder (env_LibcVersion e);
     env_Distro := clearPlaceholder (env_Distro e);
     env_CI := env_CI e |}.

Definition set_ExecutionContext (v : string) (e : EnvironmentFingerprint) :
     EnvironmentFingerprint :=
  {| env_SchemaVersion := env_SchemaVersion e; env_Ecosystem := env_Ecosystem e;
     env_OS := env_OS e; env_OSVersionBucket := env_OSVersionBucket e; env_Arch := env_Arch e;
     env_Runtime := env_Runtime e; env_RuntimeVersion := env_RuntimeVersion e;
     env_Language := env_Language e; env_LanguageVersion := env_LanguageVersion e;
     env_Compiler := env_Compiler e; env_CompilerVersion := env_CompilerVersion e;
     env_PackageManager := env_PackageManager e;
     env_PackageManagerVersion := env_PackageManagerVersion e;
     env_ModuleSystem := env_ModuleSystem e; env_Frameworks := env_Frameworks e;
     env_ExecutionContext := v; env_BrowserFamily := env_BrowserFamily e;
     env_BrowserMajor := env_BrowserMajor e; env_Engine := env_Engine e;
     env_EngineVersion := env_EngineVersion e; env_Virtualization := env_Virtualization e;
     env_ContainerRuntime := env_ContainerRuntime e; env_Libc := env_Libc e;
     env_LibcVersion := env_LibcVersion e; env_Distro := env_Distro e; env_CI := env_CI e |}.

Definition set_Engine (v : string) (e : EnvironmentFingerprint) : EnvironmentFingerprint :=
  {| env_SchemaVersion := env_SchemaVersion e; env_Ecosystem := env_Ecosystem e;
     env_OS := env_OS e; env_OSVersionBucket := env_OSVersionBucket e; env_Arch := env_Arch e;
     env_Runtime := env_Runtime e; env_RuntimeVersion := env_RuntimeVersion e;
     env_Language := env_Language e; env_LanguageVersion := env_LanguageVersion e;
     env_Compiler := env_Compiler e; env_CompilerVersion := env_CompilerVersion e;
     env_PackageManager := env_PackageManager e;
     env_PackageManagerVersion := env_PackageManagerVersion e;
     env_ModuleSystem := env_ModuleSystem e; env_Frameworks := env_Frameworks e;
     env_ExecutionContext := env_ExecutionContext e; env_BrowserFamily := env_BrowserFamily e;
     env_BrowserMajor := env_BrowserMajor e; env_Engine := v;
     env_EngineVersion := env_EngineVersion e; env_Virtualization := env_Virtualization e;
     env_ContainerRuntime := env_ContainerRuntime e; env_Libc := env_Libc e;
     env_LibcVersion := env_LibcVersion e; env_Distro := env_Distro e; env_CI := env_CI e |}.

Definition set_SchemaVersion (v : Z) (e : EnvironmentFingerprint) : EnvironmentFingerprint :=
  {| env_SchemaVersion := v; env_Ecosystem := env_Ecosystem e;
     env_OS := env_OS e; env_OSVersionBucket := env_OSVersionBucket e; env_Arch := env_Arch e;
     env_Runtime := env_Runtime e; env_RuntimeVersion := env_RuntimeVersion e;
     env_Language := env_Language e; env_LanguageVersion := env_LanguageVersion e;
     env_Compiler := env_Compiler e; env_CompilerVersion := env_CompilerVersion e;
     env_PackageManager := env_PackageManager e;
     env_PackageManagerVersion := env_PackageManagerVersion e;
     env_ModuleSystem := env_ModuleSystem e; env_Frameworks := env_Frameworks e;
     env_ExecutionContext := env_ExecutionContext e; env_BrowserFamily := env_BrowserFamily e;
     env_BrowserMajor := env_BrowserMajor e; env_Engine := env_Engine e;
     env_EngineVersion := env_EngineVersion e; env_Virtualization := env_Virtualization e;
     env_ContainerRuntime := env_ContainerRuntime e; env_Libc := env_Libc e;
     env_LibcVersion := env_LibcVersion e; env_Distro := env_Distro e; env_CI := env_CI e |}.

Definition set_OS (v : string) (e : EnvironmentFingerprint) : EnvironmentFingerprint :=
  {| env_SchemaVersion := env_SchemaVersion e; env_Ecosystem := env_Ecosystem e;
     env_OS := v; env_OSVersionBucket := env_OSVersionBucket e; env_Arch := env_Arch e;
     env_Runtime := env_Runtime e; env_RuntimeVersion := env_RuntimeVersion e;
     env_Language := env_Language e; env_LanguageVersion := env_LanguageVersion e;
     env_Compiler := env_Compiler e; env_CompilerVersion := env_CompilerVersion e;
     env_PackageManager := env_PackageManager e;
     env_PackageManagerVersion := env_PackageManagerVersion e;
     env_ModuleSystem := env_ModuleSystem e; env_Frameworks := env_Frameworks e;
     env_ExecutionContext := env_ExecutionContext e; env_BrowserFamily := env_BrowserFamily e;
     env_BrowserMajor := env_BrowserMajor e; env_Engine := env_Engine e;
     env_EngineVersion := env_EngineVersion e; env_Virtualization := env_Virtualization e;
     env_ContainerRuntime := env_ContainerRuntime e; env_Libc := env_Libc e;
     env_LibcVersion := env_LibcVersion e; env_Distro := env_Distro e; env_CI := env_CI e |}.

Definition fill_context (e : EnvironmentFingerprint) : EnvironmentFingerprint :=
  if String.eqb (env_ExecutionContext e) "" && str_in (env_Runtime e) ["node"; "bun"; "deno"]
  then set_ExecutionContext (env_Runtime e) e else e.

Definition engine_of (family : string) : option string :=
  if str_in family ["chrome"; "edge"; "chromium"; "android-webview"; "electron"] then Some "chromium"
  else if String.eqb family "firefox" then Some "gecko"
  else if str_in family ["safari"; "ios-wkwebview"] then Some "webkit"
  else None.

Definition fill_engine (e : EnvironmentFingerprint) : EnvironmentFingerprint :=
  if String.eqb (env_Engine e) "" then
    match engine_of (env_BrowserFamily e) with
    | Some g => set_Engine g e
    | None => e
    end
  else e.

(** [EnvironmentFingerprint.Normalize]. *)
Definition env_Normalize (e : EnvironmentFingerprint) : EnvironmentFingerprint :=
  fill_engine (fill_context (clear_placeholders e)).

(** [EnvironmentFingerprint.Hash]. *)
Definition env_Hash (e : EnvironmentFingerprint) : string := SHA256Hex (CanonicalJSON (env_json e)).

Definition versionBucket (v : string) : string :=
  if String.eqb v "" then ""
  else match SplitN 3 v "." with
       | s0 :: s1 :: _ => s0 +:+ "." +:+ s1
       | s0 :: _ => s0
       | [] => ""
       end.

Definition majorBucket (v : string) : string :=
  if String.eqb v "" then "" else List.hd "" (SplitN 2 v ".").

Definition Bucketed (e : EnvironmentFingerprint) : EnvironmentFingerprint :=
  {| env_SchemaVersion := env_SchemaVersion e;
     env_Ecosystem := env_Ecosystem e;
     env_OS := env_OS e;
     env_OSVersionBucket := env_OSVersionBucket e;
     env_Arch := env_Arch e;
     env_Runtime := env_Runtime e;
     env_RuntimeVersion := versionBucket (env_RuntimeVersion e);
     env_Language := env_Language e;
     env_LanguageVersion := versionBucket (env_LanguageVersion e);
     env_Compiler := env_Compiler e;
     env_CompilerVersion := versionBucket (env_CompilerVersion e);
     env_PackageManager := env_PackageManager e;
     env_PackageManagerVersion := majorBucket (env_PackageManagerVersion e);
     env_ModuleSystem := env_ModuleSystem e;
     env_Frameworks := env_Frameworks e;
     env_ExecutionContext := env_ExecutionContext e;
     env_BrowserFamily := env_BrowserFamily e;
     env_BrowserMajor := majorBucket (env_BrowserMajor e);
     env_Engine := env_Engine e;
     env_EngineVersion := majorBucket (env_EngineVersion e);
     env_Virtualization := env_Virtualization e;
     env_ContainerRuntime := env_ContainerRuntime e;
     env_Libc := env_Libc e;
     env_LibcVersion := env_LibcVersion e;
     env_Distro := env_Distro e;
     env_CI := env_CI e |}.

Definition RuntimeLine (runtime version : string) : string :=
  let version := TrimSpace version in
  if String.eqb version "" then ""
  else if str_in (ToLower (TrimSpace runtime))
            ["node"; "nodejs"; "bun"; "deno"; "java"; "chrome"; "chromium";
             "firefox"; "safari"; "edge"; "electron"]
       then majorBucket version
       else versionBucket version.

Example RuntimeLine_node : RuntimeLine "Node" "22.23.2" = "22".
Proof. vm_compute. reflexivity. Qed.
Example RuntimeLine_go : RuntimeLine "go" "1.26.5" = "1.26".
Proof. vm_compute. reflexivity. Qed.

(** ** Laws *)

Lemma clearPlaceholder_idem v : clearPlaceholder (clearPlaceholder v) = clearPlaceholder v.
Proof. unfold clearPlaceholder. destruct (str_in (ToLower (TrimSpace v)) _) eqn:E; [done|by rewrite E]. Qed.

Lemma clear_placeholders_idem e : clear_placeholders (clear_placeholders e) = clear_placeholders e.
Proof. unfold clear_placeholders. simpl. by rewrite !clearPlaceholder_idem. Qed.

(** A cleared fingerprint stays cleared when a derived value, itself not a
    placeholder, is filled in. *)
Lemma clear_set_ExecutionContext v e :
  clearPlaceholder v = v -> clear_placeholders e = e ->
  clear_placeholders (set_ExecutionContext v e) = set_ExecutionContext v e.
Proof.
  intros Hv He. destruct e. unfold clear_placeholders, set_ExecutionContext in *. simpl in *.
  injection He. intros. f_equal; assumption.
Qed.

Lemma clear_set_Engine v e :
  clearPlaceholder v = v -> clear_placeholders e = e ->
  clear_placeholders (set_Engine v e) = set_Engine v e.
Proof.
  intros Hv He. destruct e. unfold clear_placeholders, set_Engine in *. simpl in *.
  injection He. intros. f_equal; assumption.
Qed.

Lemma str_in_In s l : str_in s l = true <-> In s l.
Proof.
  unfold str_in. rewrite existsb_exists. split.
  - intros (x & Hx & E). apply String.eqb_eq in E as ->. done.
  - intros H. exists s. by rewrite String.eqb_refl.
Qed.

Lemma engine_of_clear f g : engine_of f = Some g -> clearPlaceholder g = g /\ g <> "".
Proof. unfold engine_of. intros H. split_ifs_in H; simplify_eq; (split; [vm_compute; reflexivity|discriminate]). Qed.

Lemma fill_context_clear e : clear_placeholders e = e ->
  clear_placeholders (fill_context e) = fill_context e /\ fill_context (fill_context e) = fill_context e.
Proof.
  intros He. destruct (String.eqb (env_ExecutionContext e) "" && str_in (env_Runtime e) ["node"; "bun"; "deno"]) eqn:E.
  - assert (fill_context e = set_ExecutionContext (env_Runtime e) e) as -> by (unfold fill_context; by rewrite E).
    bool_facts. apply str_in_In in H0. split.
    + apply clear_set_ExecutionContext; [|done].
      destruct H0 as [<-|[<-|[<-|[]]]]; vm_compute; reflexivity.
    + unfold fill_context. simpl. destruct (String.eqb_spec (env_Runtime e) "") as [R|]; [|done].
      rewrite R in H0. by destruct H0 as [?|[?|[?|[]]]].
  - assert (fill_context e = e) as F by (unfold fill_context; by rewrite E). by rewrite !F.
Qed.

Lemma fill_engine_clear e : clear_placeholders e = e ->
  clear_placeholders (fill_engine e) = fill_engine e /\ fill_engine (fill_engine e) = fill_engine e.
Proof.
  intros He. destruct (String.eqb (env_Engine e) "") eqn:E1.
  - destruct (engine_of (env_BrowserFamily e)) as [g|] eqn:E2.
    + assert (fill_engine e = set_Engine g e) as -> by (unfold fill_engine; by rewrite E1, E2).
      destruct (engine_of_clear _ _ E2) as [Hg Hn]. split; [by apply clear_set_Engine|].
      unfold fill_engine. simpl. by apply String.eqb_neq in Hn as ->.
    + assert (fill_engine e = e) as F by (unfold fill_engine; by rewrite E1, E2). by rewrite !F.
  - assert (fill_engine e = e) as F by (unfold fill_engine; by rewrite E1). by rewrite !F.
Qed.

Lemma fill_context_engine e : fill_context (fill_engine e) = fill_engine (fill_context e).
Proof.
  destruct e. unfold fill_context, fill_engine. simpl.
  destruct (String.eqb env_ExecutionContext0 "" && str_in env_Runtime0 ["node"; "bun"; "deno"]) eqn:A;
  destruct (String.eqb env_Engine0 "") eqn:B; destruct (engine_of env_BrowserFamily0) eqn:C;
  simpl; rewrite ?A, ?B, ?C; reflexivity.
Qed.

Lemma Normalize_idem e :
  env_Normalize (env_Normalize e) = env_Normalize e /\ clear_placeholders (env_Normalize e) = env_Normalize e.
Proof.
  unfold env_Normalize. pose proof (clear_placeholders_idem e) as H.
  destruct (fill_context_clear _ H) as [H1 H2]. destruct (fill_engine_clear _ H1) as [H3 H4].
  split; [by rewrite H3, fill_context_engine, H2, H4|done].
Qed.

(** Normalising an environment fingerprint is idempotent, leaves no
    placeholder such as "unknown" in any dimension, and always names the
    execution context of a Node, Bun or Deno runtime and the engine of a
    known browser family. *)
Theorem env_Normalize_normal_form e :
  env_Normalize (env_Normalize e) = env_Normalize e
  /\ clear_placeholders (env_Normalize e) = env_Normalize e
  /\ (str_in (env_Runtime (env_Normalize e)) ["node"; "bun"; "deno"] = true ->
      env_ExecutionContext (env_Normalize e) <> "")
  /\ (engine_of (env_BrowserFamily (env_Normalize e)) <> None -> env_Engine (env_Normalize e) <> "").
Proof.
  destruct (Normalize_idem e) as [I C]. split; [done|]. split; [done|].
  set (n := env_Normalize e) in *. rewrite <- I. unfold env_Normalize. rewrite C. clear.
  destruct n. unfold fill_context, fill_engine. cbn [Env.env_ExecutionContext Env.env_Runtime].
  destruct (String.eqb_spec env_ExecutionContext0 ""); destruct (str_in env_Runtime0 _) eqn:R;
    cbn; destruct (String.eqb_spec env_Engine0 ""); cbn;
    destruct (engine_of env_BrowserFamily0) as [g|] eqn:G; cbn; rewrite ?R, ?G;
    try (apply engine_of_clear in G as [_ G]); (split; intros H; [|try done]); try done;
    intros ->; vm_compute in R; discriminate R.
Qed.

Lemma env_Normalize_normal_form_witness :
  let e := set_OS "unknown" env_example in
  env_OS (env_Normalize e) = "" /\ env_ExecutionContext (env_Normalize e) <> "".
Proof.
  split; [vm_compute; reflexivity|].
  apply (proj1 (proj2 (proj2 (env_Normalize_normal_form (set_OS "unknown" env_example))))). vm_compute. reflexivity.
Defined.

(** *** Buckets *)

Lemma versionBucket_cases v :
  lacks "." v = true /\ versionBucket v = v
  \/ exists a b r, v = a +:+ String "." (b +:+ r) /\ lacks "." a = true /\ lacks "." b = true
       /\ versionBucket v = a +:+ "." +:+ b.
Proof.
  unfold versionBucket. destruct (String.eqb_spec v "") as [->|Hv]; [by left|].
  cbn [SplitN]. destruct (Cut v ".") as [[a r] ok] eqn:E. destruct (Cut_spec _ _ _ _ _ E) as [Ha Hs].
  destruct ok.
  - right. destruct (Cut r ".") as [[b r'] ok'] eqn:E'. destruct (Cut_spec _ _ _ _ _ E') as [Hb Hs'].
    destruct ok'; subst; [by exists a, b, (String "." r')|].
    destruct Hs' as [-> ->]. exists a, b, "". by rewrite str_app_nil_r.
  - left. destruct Hs as [-> _]. done.
Qed.

Lemma versionBucket_two a b : lacks "." a = true -> lacks "." b = true ->
  versionBucket (a +:+ "." +:+ b) = a +:+ "." +:+ b.
Proof.
  intros Ha Hb. unfold versionBucket. destruct (String.eqb_spec (a +:+ "." +:+ b) "") as [E|_]; [done|].
  change ("." +:+ b) with (String "." b). cbn [SplitN]. rewrite Cut_app by done.
  rewrite Cut_none by done. done.
Qed.

Lemma versionBucket_idem v : versionBucket (versionBucket v) = versionBucket v.
Proof.
  destruct (versionBucket_cases v) as [[_ E]|(a & b & r & -> & Ha & Hb & E)]; rewrite E; [done|].
  by apply versionBucket_two.
Qed.

Lemma majorBucket_lacks v : lacks "." v = true -> majorBucket v = v.
Proof.
  intros H. unfold majorBucket. destruct (String.eqb_spec v "") as [->|]; [done|].
  cbn [SplitN]. by rewrite Cut_none.
Qed.

Lemma majorBucket_dot a r : lacks "." a = true -> majorBucket (a +:+ String "." r) = a.
Proof.
  intros H. unfold majorBucket. destruct (String.eqb_spec (a +:+ String "." r) "") as [E|]; [by destruct a|].
  cbn [SplitN]. by rewrite Cut_app.
Qed.

Lemma majorBucket_idem v : majorBucket (majorBucket v) = majorBucket v.
Proof.
  destruct (Cut v ".") as [[a r] ok] eqn:E. destruct (Cut_spec _ _ _ _ _ E) as [Ha Hs].
  destruct ok; [subst v; rewrite majorBucket_dot by done; by apply majorBucket_lacks|].
  destruct Hs as [-> _]. by rewrite !(majorBucket_lacks a Ha).
Qed.

Lemma majorBucket_versionBucket v : majorBucket (versionBucket v) = majorBucket v.
Proof.
  destruct (versionBucket_cases v) as [[_ E]|(a & b & r & -> & Ha & Hb & E)]; rewrite E; [done|].
  change ("." +:+ b) with (String "." b). by rewrite !majorBucket_dot.
Qed.

Lemma versionBucket_prefix v : exists r, v = versionBucket v +:+ r.
Proof.
  destruct (versionBucket_cases v) as [[_ E]|(a & b & r & E' & Ha & Hb & E)]; rewrite E.
  - exists "". by rewrite str_app_nil_r.
  - exists r. rewrite E', !str_app_assoc. done.
Qed.

(** Bucketing the version fields is idempotent, and it keeps the release
    line: the line a verification job demands is the same whether it is read
    off the full or the bucketed runtime version. *)
Theorem Bucketed_idem_and_line e :
  Bucketed (Bucketed e) = Bucketed e
  /\ (space_free (env_RuntimeVersion e) = true ->
      RuntimeLine (env_Runtime e) (env_RuntimeVersion (Bucketed e))
      = RuntimeLine (env_Runtime e) (env_RuntimeVersion e)).
Proof.
  split.
  - unfold Bucketed. simpl. by rewrite !versionBucket_idem, !majorBucket_idem.
  - simpl. generalize (env_RuntimeVersion e). intros v Hv. unfold RuntimeLine.
    destruct (versionBucket_prefix v) as [r Hr].
    assert (space_free (versionBucket v) = true) as Hb.
    { rewrite Hr in Hv. by apply space_free_app_l in Hv. }
    rewrite (TrimSpace_space_free v Hv), (TrimSpace_space_free _ Hb). cbn zeta.
    destruct (versionBucket_cases v) as [[_ E]|(a & b & r' & E' & Ha & Hb' & E)]; [by rewrite !E|].
    assert (v <> "" /\ versionBucket v <> "") as [N1 N2] by (rewrite E, E'; split; by destruct a).
    apply String.eqb_neq in N1, N2. rewrite N1, N2, majorBucket_versionBucket, versionBucket_idem. done.
Qed.

Lemma Bucketed_idem_and_line_witness :
  env_RuntimeVersion (Bucketed env_example) = "22.18"
  /\ RuntimeLine "node" (env_RuntimeVersion (Bucketed env_example)) = RuntimeLine "node" "22.18.1".
Proof. split; [vm_compute; reflexivity|]. exact (proj2 (Bucketed_idem_and_line env_example) eq_refl). Defined.
