(* ===== verification/Targets.v ===== *)
(** * Tools and public targets

    The tool a command starts with and the ecosystem it builds for
    (internal/domain/search.go), the fixed public vocabulary of engines,
    SDKs, operating systems and command-line tools
    (internal/domain/wanted_target.go), and the symbols of CLI work items
    (internal/domain/cliwork.go). *)

From S2P Require Import Prelude GoStrings GoUnicode GoStd StringFacts UnicodeFacts WordFacts Purl.

(** ** Lookup in a map literal *)

Fixpoint assoc {A} (k : string) (m : list (string * A)) : option A :=
  match m with
  | [] => None
  | (k', v) :: m' => if String.eqb k k' then Some v else assoc k m'
  end.

(** [m[k]] for a map of strings: the zero value when absent. *)
Definition assoc_str (k : string) (m : list (string * string)) : string :=
  match assoc k m with Some v => v | None => "" end.

(** ** Tools *)

Definition buildToolEcosystems : list (string * string) := [
   ("npm", "npm"); ("pnpm", "npm"); ("yarn", "npm"); ("node", "npm"); ("tsc", "npm");
   ("npx", "npm"); ("python", "pypi"); ("python3", "pypi"); ("pytest", "pypi");
   ("pip", "pypi"); ("pip3", "pypi"); ("uv", "pypi"); ("go", "golang"); ("cargo", "cargo");
   ("rustc", "cargo"); ("mvn", "maven"); ("mvnw", "maven"); ("gradle", "maven");
   ("gradlew", "maven"); ("java", "maven"); ("javac", "maven"); ("composer", "composer");
   ("php", "composer"); ("bundle", "gem"); ("ruby", "gem"); ("dart", "pub");
   ("flutter", "pub"); ("mix", "hex"); ("elixir", "hex")].

(** The part after the last '/' or backslash. *)
Definition base_name (s : string) : string :=
  match LastIndexAny s "/\" with Some i => str_drop (S i) s | None => s end.

(** Strip the first of the listed suffixes that is present. *)
Fixpoint strip_ext (exts : list string) (s : string) : string :=
  match exts with
  | [] => s
  | e :: exts' => if HasSuffix s e then TrimSuffix s e else strip_ext exts' s
  end.

Definition CommandTool (argv : list string) : string :=
  match argv with
  | [] => ""
  | tool :: _ => strip_ext [".exe"; ".cmd"; ".bat"; ".ps1"] (ToLower (base_name tool))
  end.

Definition CommandEcosystem (argv : list string) : string :=
  assoc_str (CommandTool argv) buildToolEcosystems.

(** ** Public targets *)

Definition wantedTargetNames : list (string * string) := [
   ("unity", "engine/unity"); ("unreal", "engine/unreal"); ("godot", "engine/godot");
   ("android-sdk", "sdk/android"); ("ios-sdk", "sdk/ios"); ("macos-sdk", "sdk/macos");
   ("windows-sdk", "sdk/windows"); ("jdk", "sdk/jdk"); ("dotnet-sdk", "sdk/dotnet");
   ("xcode", "sdk/xcode"); ("cuda", "sdk/cuda"); ("vulkan", "sdk/vulkan");
   ("windows", "os/windows"); ("ubuntu", "os/ubuntu"); ("debian", "os/debian");
   ("rhel", "os/rhel"); ("alpine", "os/alpine"); ("macos", "os/macos"); ("bash", "cli/bash");
   ("busybox", "cli/busybox"); ("coreutils", "cli/coreutils");
   ("powershell", "cli/powershell"); ("windows-powershell", "cli/windows-powershell");
   ("cmd", "cli/cmd"); ("git", "cli/git"); ("npm", "cli/npm"); ("node", "cli/node");
   ("npx", "cli/npx"); ("tsc", "cli/tsc"); ("go", "cli/go"); ("python", "cli/python");
   ("python3", "cli/python3"); ("pytest", "cli/pytest"); ("rustc", "cli/rustc");
   ("dotnet", "cli/dotnet"); ("java", "cli/java"); ("javac", "cli/javac"); ("php", "cli/php");
   ("ruby", "cli/ruby"); ("elixir", "cli/elixir"); ("flutter", "cli/flutter");
   ("ssh", "cli/ssh"); ("scp", "cli/scp"); ("pwsh", "cli/pwsh"); ("mvn", "cli/mvn");
   ("mvnw", "cli/mvnw"); ("gradlew", "cli/gradlew"); ("pip3", "cli/pip3");
   ("bundle", "cli/bundle"); ("pnpm", "cli/pnpm"); ("yarn", "cli/yarn"); ("bun", "cli/bun");
   ("deno", "cli/deno"); ("maven", "cli/maven"); ("gradle", "cli/gradle"); ("pip", "cli/pip");
   ("uv", "cli/uv"); ("cargo", "cli/cargo"); ("gem", "cli/gem"); ("bundler", "cli/bundler");
   ("composer", "cli/composer"); ("mix", "cli/mix"); ("dart", "cli/dart");
   ("curl", "cli/curl"); ("jq", "cli/jq"); ("openssl", "cli/openssl"); ("tar", "cli/tar");
   ("grep", "cli/grep"); ("sed", "cli/sed"); ("findutils", "cli/findutils");
   ("docker", "cli/docker"); ("docker-compose", "cli/docker-compose");
   ("kubectl", "cli/kubectl"); ("helm", "cli/helm"); ("terraform", "cli/terraform");
   ("opentofu", "cli/opentofu"); ("ffmpeg", "cli/ffmpeg"); ("ripgrep", "cli/ripgrep");
   ("gh", "cli/gh")].

(** The set of values of [wantedTargetNames]. *)
Definition wantedTargetCoordinates : list string := map snd wantedTargetNames.

Definition PublicTargetFromDescriptor (value : string) : option PURL :=
  let value := TrimSpace value in
  match LastIndexByte value "@" with
  | None | Some O => None
  | Some i =>
      if Z.of_nat i =? str_len value - 1 then None
      else
        let name := ToLower (TrimSpace (str_take i value)) in
        let version := TrimSpace (str_drop (S i) value) in
        match assoc name wantedTargetNames with
        | None => None
        | Some coordinate =>
            if negb (ConcreteResolvedVersion version) then None
            else Some (mkPURL "generic" coordinate version)
        end
  end.

Definition WantedTargetFromFramework (value : string) : option PURL := PublicTargetFromDescriptor value.

Definition IsWantedTarget (p : PURL) : bool :=
  String.eqb (purl_Ecosystem p) "generic" && str_in (purl_Name p) wantedTargetCoordinates
  && ConcreteResolvedVersion (purl_Version p).

Definition IsRecognizedCLITool (name : string) : bool :=
  match assoc (CommandTool [name]) wantedTargetNames with
  | Some coord => HasPrefix coord "cli/"
  | None => false
  end.

(** ** CLI work symbols *)

Definition EncodeCLIWorkSymbol (os command : string) : string :=
  let os := ToLower (TrimSpace os) in
  let command := Join (Fields command) " " in
  if String.eqb command "" then "[" +:+ os +:+ "]" else "[" +:+ os +:+ "] " +:+ command.

(** The expression [^\[([a-z]+)\](?: (.+))?$]: the letters between the
    brackets, and what follows the single space after them.  '.' does not
    match a newline. *)
Definition cliWorkSymbolRe (symbol : string) : option (string * string) :=
  match CutPrefix symbol "[" with
  | None => None
  | Some rest =>
      let '(os, tl, ok) := Cut rest "]" in
      if negb ok || String.eqb os "" || negb (str_forall is_lower os) then None
      else match tl with
      | "" => Some (os, "")
      | String c command =>
          if Ascii.eqb c " " && negb (String.eqb command "") && lacks (chr 10) command
          then Some (os, command) else None
      end
  end.

Definition DecodeCLIWorkSymbol (symbol : string) : option (string * string) :=
  match cliWorkSymbolRe symbol with
  | None => None
  | Some (os, m2) =>
      let command := Join (Fields m2) " " in
      if negb (String.eqb m2 "") && negb (String.eqb command m2) then None
      else Some (os, command)
  end.

Definition CLIWorkHasPlaceholders (command : string) : bool :=
  Contains command "<" && Contains command ">".

Definition CLIToolFromTargetName (name : string) : option string :=
  match CutPrefix name "cli/" with
  | None => None
  | Some tool =>
      if String.eqb tool "" || negb (IsRecognizedCLITool tool)
         || negb (String.eqb (assoc_str tool wantedTargetNames) name)
      then None else Some tool
  end.

Definition CLISeedTools : list string :=
  ["gh"; "git"; "docker"; "powershell"; "bash"; "go"; "npm"; "pnpm"; "cargo"].

Fixpoint seed_rank (i : Z) (seeds : list string) (tool : string) : option Z :=
  match seeds with
  | [] => None
  | s :: rest => if String.eqb s tool then Some i else seed_rank (i + 1) rest tool
  end.

Definition CLISeedRank (tool : string) : option Z := seed_rank 0 CLISeedTools tool.

Example CommandTool_windows : CommandTool ["C:\Program Files\nodejs\npm.CMD"; "ci"] = "npm".
Proof. vm_compute. reflexivity. Qed.
Example PublicTarget_git :
  PublicTargetFromDescriptor " Git@2.51.0 " = Some (mkPURL "generic" "cli/git" "2.51.0").
Proof. vm_compute. reflexivity. Qed.

(** ** Properties *)

Lemma lower_word_facts os : os <> "" -> str_forall is_lower os = true ->
  is_word os = true /\ ToLower os = os /\ lacks "]" os = true.
Proof.
  intros Hn H.
  assert (B : forall c, is_lower c = true -> graph_byte c = true /\ plain_byte c = true /\ c <> "]"%char).
  { intros c Hc. destruct c as [[] [] [] [] [] [] [] []]; vm_compute in Hc |- *; repeat split; done. }
  repeat split.
  - apply is_word_spec. split; [done|]. apply space_free_graph. eapply str_forall_impl; [|exact H]. apply B.
  - apply ToLower_plain. eapply str_forall_impl; [|exact H]. apply B.
  - unfold lacks. eapply str_forall_impl; [|exact H]. intros c Hc. apply negb_true_iff, Ascii.eqb_neq, B, Hc.
Qed.

Lemma space_free_lacks_newline w : space_free w = true -> lacks (chr 10) w = true.
Proof.
  induction w as [|c w IH]; [done|]. cbn [space_free]. intros [L H]%andb_true_iff.
  unfold lacks in *. cbn [str_forall]. rewrite IH by done. rewrite andb_true_r. apply negb_true_iff.
  apply Ascii.eqb_neq. intros ->. done.
Qed.

Lemma Join_words_lacks_newline ws : words ws -> lacks (chr 10) (Join ws " ") = true.
Proof.
  intros H. apply Join_Forall; [|done]. eapply Forall_impl; [|exact H].
  intros w [_ Hw]%is_word_spec. by apply space_free_lacks_newline.
Qed.

Lemma cliWorkSymbolRe_render os command : os <> "" -> str_forall is_lower os = true ->
  command <> "" -> lacks (chr 10) command = true ->
  cliWorkSymbolRe ("[" +:+ os +:+ "] " +:+ command) = Some (os, command).
Proof.
  intros Hn Hl Hc Hf. destruct (lower_word_facts os Hn Hl) as (_ & _ & Hb).
  unfold cliWorkSymbolRe. rewrite CutPrefix_app.
  change ("] " +:+ command) with (String "]" (String " " command)). rewrite Cut_app by done.
  rewrite (proj2 (String.eqb_neq os "") Hn), Hl, Hf, (proj2 (String.eqb_neq command "") Hc). done.
Qed.

Lemma cliWorkSymbolRe_render_os os : os <> "" -> str_forall is_lower os = true ->
  cliWorkSymbolRe ("[" +:+ os +:+ "]") = Some (os, "").
Proof.
  intros Hn Hl. destruct (lower_word_facts os Hn Hl) as (_ & _ & Hb).
  unfold cliWorkSymbolRe. rewrite CutPrefix_app. change "]" with (String "]" "") at 1.
  rewrite Cut_app by done.
  by rewrite (proj2 (String.eqb_neq os "") Hn), Hl.
Qed.

Lemma cliWorkSymbolRe_inv s os m2 : cliWorkSymbolRe s = Some (os, m2) ->
  os <> "" /\ str_forall is_lower os = true
  /\ s = if String.eqb m2 "" then "[" +:+ os +:+ "]" else "[" +:+ os +:+ "] " +:+ m2.
Proof.
  unfold cliWorkSymbolRe. destruct (CutPrefix s "[") as [rest|] eqn:P; [|done].
  apply CutPrefix_Some in P as ->. destruct (Cut rest "]") as [[o tl] ok] eqn:K.
  apply Cut_spec in K. destruct (_ || _) eqn:B; [done|]. bool_facts. subst ok.
  destruct tl as [|c command].
  - intros [= -> <-]. destruct K as [_ ->]. done.
  - destruct (_ && _) eqn:E; [|done]. intros [= -> ->]. bool_facts. subst c.
    destruct K as [_ ->]. by rewrite (proj2 (String.eqb_neq m2 "")).
Qed.

(** The symbol of a CLI work item determines the operating system and
    the command it was made from, up to the normal form of both, and a
    symbol that decodes is the one encoding of what it decodes to: no two
    work items share a symbol and no second spelling is accepted. *)
Theorem cli_work_symbol_roundtrip :
  (forall os command, ToLower (TrimSpace os) <> "" -> str_forall is_lower (ToLower (TrimSpace os)) = true ->
     DecodeCLIWorkSymbol (EncodeCLIWorkSymbol os command)
     = Some (ToLower (TrimSpace os), Join (Fields command) " "))
  /\ (forall symbol os command, DecodeCLIWorkSymbol symbol = Some (os, command) ->
        EncodeCLIWorkSymbol os command = symbol).
Proof.
  split.
  - intros os command Hn Hl. unfold EncodeCLIWorkSymbol, DecodeCLIWorkSymbol. cbn zeta.
    destruct (String.eqb_spec (Join (Fields command) " ") "") as [E|N].
    + rewrite cliWorkSymbolRe_render_os by done. by rewrite E.
    + rewrite cliWorkSymbolRe_render by auto using Join_words_lacks_newline, Fields_words.
      rewrite Join_Fields_idem, String.eqb_refl. by rewrite andb_false_r.
  - intros symbol os command. unfold DecodeCLIWorkSymbol, EncodeCLIWorkSymbol.
    destruct (cliWorkSymbolRe symbol) as [[o m2]|] eqn:R; [|done].
    apply cliWorkSymbolRe_inv in R as (Hn & Hl & ->).
    destruct (lower_word_facts o Hn Hl) as (Hw & Hlow & _).
    destruct (_ && _) eqn:B; [done|]. intros [= -> <-].
    rewrite TrimSpace_word, Hlow, Join_Fields_idem by done.
    destruct (String.eqb_spec m2 "") as [->|N]; [done|].
    simpl in B. apply negb_false_iff, String.eqb_eq in B. rewrite B.
    by rewrite (proj2 (String.eqb_neq m2 "") N).
Qed.

Lemma cli_work_symbol_roundtrip_witness :
  DecodeCLIWorkSymbol (EncodeCLIWorkSymbol " Linux " "git  worktree   add") = Some ("linux", "git worktree add")
  /\ EncodeCLIWorkSymbol "linux" "git worktree add" = "[linux] git worktree add".
Proof.
  split.
  - rewrite (proj1 cli_work_symbol_roundtrip) by (vm_compute; done). vm_compute. reflexivity.
  - apply (proj2 cli_work_symbol_roundtrip). vm_compute. reflexivity.
Defined.

(** ** Public targets *)

Lemma assoc_In {A} k (m : list (string * A)) v : assoc k m = Some v -> In (k, v) m.
Proof.
  induction m as [|[k' v'] m IH]; [done|]. cbn [assoc].
  destruct (String.eqb_spec k k') as [->|]; [intros [= ->]; by left|right; auto].
Qed.

(** The table: names are lower-case words without '@' found under their own
    key, and coordinates render without loss. *)
Definition target_entry_ok (e : string * string) : bool :=
  str_forall version_byte (fst e) && negb (String.eqb (fst e) "")
  && String.eqb (ToLower (fst e)) (fst e)
  && String.eqb (assoc_str (fst e) wantedTargetNames) (snd e)
  && negb (String.eqb (snd e) "") && lacks "%" (snd e) && negb (HasSuffix (snd e) "/").

Lemma target_table_ok : forallb target_entry_ok wantedTargetNames = true.
Proof. vm_compute. reflexivity. Qed.

Lemma target_entry name coordinate : In (name, coordinate) wantedTargetNames ->
  target_entry_ok (name, coordinate) = true.
Proof. pose proof target_table_ok as T. rewrite forallb_forall in T. apply T. Qed.

Lemma ConcreteResolvedVersion_inv v : ConcreteResolvedVersion v = true ->
  v <> "" /\ str_forall version_byte v = true.
Proof. unfold ConcreteResolvedVersion. destruct (_ || _) eqn:E; [done|]. intros H. by bool_facts. Qed.

Lemma version_lacks_at v : str_forall version_byte v = true -> lacks "@" v = true.
Proof. apply lacks_of_forall. done. Qed.

Lemma PublicTarget_shape value p : PublicTargetFromDescriptor value = Some p ->
  exists name, In (name, purl_Name p) wantedTargetNames /\ purl_Ecosystem p = "generic"
  /\ ConcreteResolvedVersion (purl_Version p) = true.
Proof.
  unfold PublicTargetFromDescriptor. cbn zeta. destruct (LastIndexByte _ _) as [[|i]|]; try done.
  destruct (_ =? _); [done|]. destruct (assoc _ _) as [coord|] eqn:A; [|done].
  destruct (ConcreteResolvedVersion _) eqn:V; [|done]. intros [= <-]. apply assoc_In in A. eauto.
Qed.

Lemma PublicTarget_descriptor name coordinate v : In (name, coordinate) wantedTargetNames ->
  ConcreteResolvedVersion v = true ->
  PublicTargetFromDescriptor (name +:+ "@" +:+ v) = Some (mkPURL "generic" coordinate v).
Proof.
  intros Hin Hv. pose proof (target_entry _ _ Hin) as T. unfold target_entry_ok in T. cbn [fst snd] in T.
  bool_facts. destruct (ConcreteResolvedVersion_inv v Hv) as [Hne Hb].
  assert (B : str_forall graph_byte (name +:+ "@" +:+ v) = true).
  { rewrite str_forall_app. apply andb_true_iff. split; [|change (str_forall graph_byte v = true)];
      (eapply str_forall_impl; [apply version_byte_graph|done]). }
  unfold PublicTargetFromDescriptor. rewrite (TrimSpace_space_free _ (space_free_graph _ B)).
  change ("@" +:+ v) with (String "@" v). rewrite LastIndexByte_app by auto using version_lacks_at.
  destruct name as [|c name]; [done|]. cbn [String.length].
  change (S (String.length name)) with (String.length (String c name)).
  rewrite str_take_app, str_drop_app_S, !TrimSpace_version by done.
  unfold str_len. rewrite str_len_app. cbn [String.length].
  destruct (Z.eqb_spec (Z.of_nat (S (String.length name)))
              (Z.of_nat (S (String.length name) + S (String.length v)) - 1)) as [E|_].
  { destruct v; [done|]. simpl in E. lia. }
  match goal with H : ToLower _ = _ |- _ => rewrite H end.
  unfold assoc_str in *. destruct (assoc (String c name) wantedTargetNames) as [co|]; [|congruence].
  subst co. by rewrite Hv.
Qed.

Lemma IsWantedTarget_spec p : IsWantedTarget p = true <->
  purl_Ecosystem p = "generic" /\ ConcreteResolvedVersion (purl_Version p) = true
  /\ exists name, In (name, purl_Name p) wantedTargetNames.
Proof.
  unfold IsWantedTarget, str_in, wantedTargetCoordinates.
  rewrite !andb_true_iff, String.eqb_eq, existsb_exists. setoid_rewrite String.eqb_eq. split.
  - intros [[-> (x & Hx & ->)] ?]. repeat split; [done|]. apply in_map_iff in Hx as ([n c] & <- & Hx). eauto.
  - intros (-> & ? & n & Hin). repeat split; [|done]. eexists. split; [|reflexivity].
    apply in_map_iff. exists (n, purl_Name p). auto.
Qed.

(** The admitted public targets are exactly the package URLs a
    descriptor "name@version" of the fixed vocabulary can name, and each of
    them survives being rendered and parsed again. *)
Theorem wanted_targets_characterised p :
  (IsWantedTarget p = true <-> exists value, PublicTargetFromDescriptor value = Some p)
  /\ (IsWantedTarget p = true -> ParsePURL (purl_String p) = Ok p).
Proof.
  split; [split|].
  - intros (E & V & name & Hin)%IsWantedTarget_spec. exists (name +:+ "@" +:+ purl_Version p).
    rewrite (PublicTarget_descriptor _ _ _ Hin V). destruct p; simpl in *. by subst.
  - intros [value H]. apply IsWantedTarget_spec.
    destruct (PublicTarget_shape _ _ H) as (name & ? & ? & ?). eauto.
  - intros (E & V & name & Hin)%IsWantedTarget_spec. apply purl_wf_parse.
    pose proof (target_entry _ _ Hin) as T. unfold target_entry_ok in T. cbn [fst snd] in T. bool_facts.
    destruct (ConcreteResolvedVersion_inv _ V) as [Hne Hb]. unfold purl_wf. rewrite E.
    rewrite version_lacks_at by done.
    repeat match goal with
    | H : ?x <> "" |- context [String.eqb ?x ""] => rewrite (proj2 (String.eqb_neq x "") H)
    | H : lacks "%" _ = true |- _ => rewrite H | H : HasSuffix _ _ = false |- _ => rewrite H
    end. unfold CanonicalVersion. simpl. by rewrite String.eqb_refl.
Qed.

Lemma wanted_targets_characterised_witness :
  ParsePURL (purl_String (mkPURL "generic" "cli/git" "2.51.0")) = Ok (mkPURL "generic" "cli/git" "2.51.0").
Proof. apply (proj2 (wanted_targets_characterised _)). vm_compute. reflexivity. Defined.
