(* ===== verification/Cli.v ===== *)
(** * CLI coordinates

    The command-line half of internal/domain/experience.go: the canonical
    coordinate of a command, the sanitizer that replaces every literal
    argument by a placeholder, the split of a command line into tool,
    subcommand and argument pattern, and the symbol a coordinate is stored
    under. *)

From S2P Require Import Prelude GoStrings GoUnicode GoStd StringFacts UnicodeFacts WordFacts Hash Json.
From S2P Require Import Purl Env Targets.

(** ** Value classes (internal/domain/clisubject.go)

    A class is the string of the Go constant, so that the model can hold
    every value the Go type [CLIValueClass] can. *)

Definition CLIValueArg := "arg".
Definition CLIValuePath := "path".
Definition CLIValueURL := "url".
Definition CLIValueBranch := "branch".
Definition CLIValueHash := "hash".
Definition CLIValueAssignment := "assignment".
Definition CLIValueSecret := "secret".

Definition valueClassByPlaceholder : list (string * string) := [
  ("<arg>", CLIValueArg); ("<path>", CLIValuePath); ("<url>", CLIValueURL);
  ("<branch>", CLIValueBranch); ("<hash>", CLIValueHash); ("<assignment>", CLIValueAssignment);
  ("<redacted-secret>", CLIValueSecret)].

Definition isPlaceholder (tok : string) : bool :=
  match assoc tok valueClassByPlaceholder with Some _ => true | None => false end.

(** ** The coordinate *)

Record CLIExperienceCoordinate := mkCoord {
  co_Tool : string;
  co_ToolVersion : string;
  co_Subcommand : string;
  co_ArgsPattern : string;
  co_Shell : string;
  co_Environment : EnvironmentFingerprint
}.

Definition canonicalizeArgsPattern (args : string) : string :=
  let tokens := Fields args in
  match tokens with [] => "" | _ => Join tokens " " end.

Definition coord_Canonical (c : CLIExperienceCoordinate) : CLIExperienceCoordinate :=
  let tool := ToLower (TrimSpace (co_Tool c)) in
  let tool := base_name tool in
  let tool := strip_ext [".exe"; ".cmd"; ".bat"; ".ps1"; ".sh"] tool in
  let env := env_Normalize (co_Environment c) in
  mkCoord tool (TrimSpace (co_ToolVersion c)) (ToLower (Join (Fields (co_Subcommand c)) " "))
    (canonicalizeArgsPattern (co_ArgsPattern c)) (ToLower (TrimSpace (co_Shell c)))
    (if env_SchemaVersion env =? 0 then set_SchemaVersion 1 env else env).

Definition coord_json (c : CLIExperienceCoordinate) : json :=
  JObj (field "tool" (JStr (co_Tool c))
    ++ omit_str "toolVersion" (co_ToolVersion c)
    ++ omit_str "subcommand" (co_Subcommand c)
    ++ omit_str "argsPattern" (co_ArgsPattern c)
    ++ omit_str "shell" (co_Shell c)
    ++ field "environment" (env_json (co_Environment c))).

Definition CoordinateID (c : CLIExperienceCoordinate) : string :=
  let canon := coord_Canonical c in
  "cliexp:sha256:" +:+ sha256_hex (CanonicalJSON (coord_json canon)).

(** [CLIExperienceCoordinate.PURL]. *)
Definition coord_PURL (c : CLIExperienceCoordinate) : option PURL :=
  let tool := co_Tool (coord_Canonical c) in
  let version := co_ToolVersion c in
  if String.eqb tool "" || String.eqb version "" || negb (ConcreteResolvedVersion version) then None
  else PublicTargetFromDescriptor (tool +:+ "@" +:+ version).

Definition non_empty (ws : list string) : list string := List.filter (fun w => negb (String.eqb w "")) ws.

(** [CLIExperienceCoordinate.DisplayCommand]. *)
Definition coord_DisplayCommand (c : CLIExperienceCoordinate) : string :=
  Join (non_empty [co_Tool c; co_Subcommand c; co_ArgsPattern c]) " ".

(** ** The sanitizer *)

Definition sensitive_parts : list string :=
  ["password"; "passwd"; "pass"; "secret"; "token"; "apikey"; "credential"; "auth"; "privkey";
   "privatekey"; "bearer"].

Definition isSensitiveName (name : string) : bool :=
  let clean := ToLower (TrimLeftSet name "-_") in
  let clean := remove_byte "-" clean in
  let clean := remove_byte "_" clean in
  String.eqb clean "key" || HasSuffix clean "key" || existsb (Contains clean) sensitive_parts.

Definition isValueConsumingFlag (flag : string) : bool :=
  str_in flag ["-f"; "--file"; "-o"; "--output"; "-t"; "--tag"; "-b"; "--branch"; "-m"; "--message";
               "--timeout"; "-p"; "--port"; "-e"; "--env"].

(** The loop ranges over runes; a rune outside ASCII fails the test as each
    of its bytes does. *)
Definition isHex (s : string) : bool :=
  str_forall (fun c => is_digit c || ((97 <=? bv c) && (bv c <=? 102)) || ((65 <=? bv c) && (bv c <=? 70))) s.

Definition sanitizeArgValue (val : string) : string :=
  if isPlaceholder val then val
  else match IndexByte val "=" with
  | Some (S _ as eqIdx) =>
      let k := str_take eqIdx val in
      if isSensitiveName k then k +:+ "=<redacted-secret>" else "<assignment>"
  | _ =>
      let lower := ToLower val in
      if existsb (Contains lower) ["bearer"; "ghp_"; "secret"; "token"] then "<redacted-secret>"
      else if existsb (HasPrefix lower) ["http://"; "https://"] then "<url>"
      else if existsb (HasPrefix lower) ["feature/"; "bugfix/"; "fix/"; "hotfix/"; "release/"] then "<branch>"
      else if ContainsAny val "/\" || HasPrefix val "."
              || existsb (HasSuffix lower) [".yml"; ".yaml"; ".json"; ".toml"; ".go"; ".js"; ".ts"]
      then "<path>"
      else if (20 <=? str_len val) && isHex val then "<hash>"
      else "<arg>"
  end.

(** The loop of [sanitizeAndNormalizeArgs]: the flag [skipNext] is the
    recursion passing over the next token. *)
Fixpoint sanitize_tokens (tokens : list string) : list string :=
  match tokens with
  | [] => []
  | tok :: rest =>
      if HasPrefix tok "-" then
        match IndexByte tok "=" with
        | Some (S _ as eqIdx) =>
            let flagName := str_take eqIdx tok in
            let flagVal := str_drop (S eqIdx) tok in
            (if isSensitiveName flagName then flagName +:+ "=<redacted-secret>"
             else flagName +:+ "=" +:+ sanitizeArgValue flagVal) :: sanitize_tokens rest
        | _ =>
            tok :: match rest with
                   | next :: rest' =>
                       if negb (HasPrefix next "-") then
                         if isSensitiveName tok then "<redacted-secret>" :: sanitize_tokens rest'
                         else if isValueConsumingFlag tok then sanitizeArgValue next :: sanitize_tokens rest'
                         else sanitize_tokens rest
                       else sanitize_tokens rest
                   | [] => sanitize_tokens rest
                   end
        end
      else sanitizeArgValue tok :: sanitize_tokens rest
  end.

Definition sanitizeAndNormalizeArgs (tokens : list string) : string := Join (sanitize_tokens tokens) " ".

(** ** Subcommands *)

Definition multiWordSubcommands : list (string * list string) := [
  ("gh", ["workflow run"; "workflow view"; "workflow list"; "workflow enable"; "workflow disable";
          "pr view"; "pr list"; "pr create"; "pr checkout"; "pr merge"; "pr diff";
          "issue view"; "issue list"; "issue create"; "issue close";
          "repo clone"; "repo create"; "repo view";
          "run view"; "run watch"; "run rerun"; "run list"]);
  ("docker", ["compose up"; "compose down"; "compose build"; "compose restart"; "compose ps"; "compose logs";
              "container run"; "container start"; "container stop"; "container rm"; "container ls";
              "image build"; "image pull"; "image push"; "image ls"; "image rm";
              "volume create"; "volume ls"; "volume rm";
              "network create"; "network ls"; "network rm"]);
  ("git", ["worktree add"; "worktree list"; "worktree remove"; "worktree prune";
           "submodule update"; "submodule add"; "submodule status";
           "remote add"; "remote remove"; "remote set-url"]);
  ("npm", ["run build"; "run test"; "run lint"; "run start"; "run dev"]);
  ("pnpm", ["run build"; "run test"; "run lint"; "run start"; "run dev"])].

Definition maven_options : list string := ["-f"; "--file"; "-s"; "--settings"; "-pl"; "--projects"].

Definition globalValueOptions : list (string * list string) := [
  ("git", ["-C"; "-c"; "--git-dir"; "--work-tree"; "--namespace"; "--config-env"]);
  ("docker", ["-H"; "--host"; "-c"; "--context"; "--config"; "-l"; "--log-level"]);
  ("docker-compose", ["-f"; "--file"; "-p"; "--project-name"; "--project-directory"; "--env-file"; "--profile"]);
  ("kubectl", ["-n"; "--namespace"; "--context"; "--kubeconfig"; "--cluster"; "--user"; "-s"; "--server"]);
  ("helm", ["-n"; "--namespace"; "--kube-context"; "--kubeconfig"]);
  ("gh", ["-R"; "--repo"]);
  ("npm", ["--prefix"; "-w"; "--workspace"]);
  ("pnpm", ["-C"; "--dir"; "-F"; "--filter"]);
  ("yarn", ["--cwd"]);
  ("go", ["-C"]);
  ("cargo", ["-C"; "--config"; "-Z"]);
  ("mvn", maven_options); ("mvnw", maven_options); ("maven", maven_options);
  ("gradle", ["-p"; "--project-dir"]); ("gradlew", ["-p"; "--project-dir"])].

(** [m[k]] for a map of lists: nil when absent. *)
Definition assoc_list (k : string) (m : list (string * list string)) : list string :=
  match assoc k m with Some v => v | None => [] end.

Fixpoint leadingOptionsEnd (tool : string) (args : list string) : nat :=
  match args with
  | [] => 0
  | tok :: rest =>
      if String.eqb tok "-" || String.eqb tok "--" || negb (HasPrefix tok "-") then 0
      else if Contains tok "=" then S (leadingOptionsEnd tool rest)
      else if str_in tok (assoc_list tool globalValueOptions) || isSensitiveName tok then
        match rest with
        | next :: rest' =>
            if negb (HasPrefix next "-") then S (S (leadingOptionsEnd tool rest'))
            else S (leadingOptionsEnd tool rest)
        | [] => S (leadingOptionsEnd tool rest)
        end
      else S (leadingOptionsEnd tool rest)
  end%nat.

Definition subcommandCandidate (tok : string) (afterOptions : bool) : bool :=
  if String.eqb tok "" || HasPrefix tok "-" || Contains tok "=" || isPlaceholder tok then false
  else negb afterOptions || String.eqb (sanitizeArgValue tok) "<arg>".

Fixpoint hasCommandPrefix (args words : list string) : bool :=
  match words, args with
  | [], _ => true
  | w :: words', a :: args' => EqualFold a w && hasCommandPrefix args' words'
  | _ :: _, [] => false
  end.

Definition joinPatterns (parts : list string) : string := Join (non_empty parts) " ".

Definition toolHasSubcommands (tool : string) : bool :=
  str_in tool ["gh"; "git"; "docker"; "docker-compose"; "kubectl"; "helm"; "terraform"; "opentofu";
    "npm"; "pnpm"; "yarn"; "bun"; "deno"; "maven"; "mvn"; "mvnw"; "gradle"; "gradlew";
    "pip"; "pip3"; "uv"; "cargo"; "gem"; "bundle"; "bundler"; "composer"; "mix"; "dart";
    "flutter"; "go"; "dotnet"; "openssl"].

(** The first pattern whose words [rest] starts with. *)
Definition multi_word_match (tool : string) (rest : list string) : option string :=
  List.find (fun pattern => hasCommandPrefix rest (Fields pattern)) (assoc_list tool multiWordSubcommands).

Definition extractSubcommandAndFlags (tool : string) (args : list string) : string * string :=
  match args with
  | [] => ("", "")
  | _ =>
      if negb (toolHasSubcommands tool) then ("", sanitizeAndNormalizeArgs args)
      else
        let start := leadingOptionsEnd tool args in
        let lead := take start args in
        match drop start args with
        | [] => ("", sanitizeAndNormalizeArgs args)
        | (first :: rest') as rest =>
            match multi_word_match tool rest with
            | Some pattern =>
                (pattern, joinPatterns [sanitizeAndNormalizeArgs lead;
                                        sanitizeAndNormalizeArgs (drop (length (Fields pattern)) rest)])
            | None =>
                if subcommandCandidate first (0 <? start)%nat then
                  (ToLower first, joinPatterns [sanitizeAndNormalizeArgs lead; sanitizeAndNormalizeArgs rest'])
                else ("", sanitizeAndNormalizeArgs args)
            end
        end
  end.

Definition ParseCLICommand (argv : list string) (env : EnvironmentFingerprint) : CLIExperienceCoordinate :=
  match argv with
  | [] => mkCoord "" "" "" "" "" (env_Normalize env)
  | _ :: rawArgs =>
      let tool := CommandTool argv in
      let '(subcommand, argsPattern) := extractSubcommandAndFlags tool rawArgs in
      coord_Canonical (mkCoord tool "" subcommand argsPattern "" env)
  end.

(** ** Symbols *)

Definition ProvenanceField := "field".
Definition ProvenanceFarm := "farm".

Definition ProvenanceLabel (p : string) : string :=
  if String.eqb p ProvenanceField then "Observed field experience"
  else if String.eqb p ProvenanceFarm then "CSX Farm supporting verification"
  else p.

Definition EncodeCLISymbol (subcommand argsPattern prov : string) : string :=
  let prov := if String.eqb prov "" then ProvenanceField else prov in
  let subcommand := TrimSpace subcommand in
  let argsPattern := TrimSpace argsPattern in
  prov +:+ ":" +:+
  (if negb (String.eqb subcommand "") then
     subcommand +:+ (if negb (String.eqb argsPattern "") then " " +:+ argsPattern else "")
   else if negb (String.eqb argsPattern "") then argsPattern else "").

Definition cliSymbolProvenancePrefixes : list (string * string) := [
  ("farm:", ProvenanceFarm); ("field:", ProvenanceField);
  ("[farm]", ProvenanceFarm); ("[field]", ProvenanceField)].

Definition CLISymbolHasProvenance (symbol : string) : bool :=
  let raw := TrimSpace symbol in
  existsb (fun p => HasPrefix raw (fst p)) cliSymbolProvenancePrefixes.

(** Cut the first provenance prefix that is present. *)
Fixpoint cut_provenance (prefixes : list (string * string)) (raw : string) : string * string :=
  match prefixes with
  | [] => (ProvenanceField, raw)
  | (prefix, prov) :: rest =>
      match CutPrefix raw prefix with
      | Some r => (prov, r)
      | None => cut_provenance rest raw
      end
  end.

Definition DecodeCLISymbol (symbol tool : string) (env : EnvironmentFingerprint) : string * string * string :=
  let raw := TrimSpace symbol in
  let '(prov, raw) := cut_provenance cliSymbolProvenancePrefixes raw in
  let raw := TrimSpace raw in
  if String.eqb raw "" then ("", "", prov)
  else
    let parsed := ParseCLICommand (tool :: Fields raw) env in
    (co_Subcommand parsed, co_ArgsPattern parsed, prov).

Definition MatchesExactCoordinate (target candidate : CLIExperienceCoordinate) : bool :=
  let t := coord_Canonical target in
  let c := coord_Canonical candidate in
  if negb (String.eqb (co_Tool t) "") && negb (String.eqb (co_Tool c) (co_Tool t)) then false
  else if negb (String.eqb (co_Subcommand t) (co_Subcommand c)) then false
  else String.eqb (co_ArgsPattern t) (co_ArgsPattern c).

Example ParseCLICommand_gh :
  ParseCLICommand ["gh"; "-R"; "me/repo"; "workflow"; "run"; "ci.yml"; "--ref"; "main"; "--token"; "x"] env_zero
  = mkCoord "gh" "" "workflow run" "-R <path> <path> --ref <arg> --token <redacted-secret>" ""
      (set_SchemaVersion 1 env_zero).
Proof. vm_compute. reflexivity. Qed.

(** ** The sanitizer's output vocabulary *)

Lemma isPlaceholder_In p : isPlaceholder p = true -> In p (map fst valueClassByPlaceholder).
Proof.
  unfold isPlaceholder. destruct (assoc p valueClassByPlaceholder) as [v|] eqn:E; [|done].
  intros _. apply assoc_In in E. apply in_map_iff. by exists (p, v).
Qed.

(** A fact on every placeholder, checked on the seven of them. *)
Lemma placeholder_facts p : isPlaceholder p = true ->
  HasPrefix p "-" = false /\ lacks "=" p = true /\ is_word p = true.
Proof.
  intros H. apply isPlaceholder_In in H. simpl in H.
  repeat (destruct H as [<-|H]; [vm_compute; done|]). done.
Qed.

Definition redacted (k : string) : string := k +:+ "=<redacted-secret>".

(** The index of the first '=', as a split. *)
Lemma eq_split tok i : IndexByte tok "=" = Some i ->
  tok = str_take i tok +:+ String "=" (str_drop (S i) tok) /\ lacks "=" (str_take i tok) = true
  /\ String.length (str_take i tok) = i.
Proof.
  intros H. pose proof (index_by_lt _ _ _ H) as Hl.
  apply index_by_Some in H as (Ha & c & E & Hc). apply Ascii.eqb_eq in Hc as <-.
  repeat split; [done| |].
  - unfold lacks. eapply str_forall_impl; [|exact Ha]. intros x Hx. bool_facts.
    apply negb_true_iff, Ascii.eqb_neq. by intros ->.
  - assert (G : forall n s, (n <= String.length s)%nat -> String.length (str_take n s) = n).
    { induction n; intros [|? ?]; simpl; try lia. intros. rewrite IHn; lia. }
    apply G. lia.
Qed.

Lemma eq_index k v : lacks "=" k = true -> IndexByte (k +:+ String "=" v) "=" = Some (String.length k).
Proof. apply IndexByte_app. Qed.

Lemma index_lacks tok : IndexByte tok "=" = None -> lacks "=" tok = true.
Proof.
  intros H. apply index_by_none in H. unfold lacks. eapply str_forall_impl; [|exact H].
  intros x Hx. by rewrite Ascii.eqb_sym.
Qed.

(** What a value becomes: a placeholder, or a sensitive name with its value
    redacted. *)
Inductive value_image (v : string) : string -> Prop :=
| vi_placeholder p : isPlaceholder p = true -> value_image v p
| vi_redacted k w : v = k +:+ String "=" w -> k <> "" -> lacks "=" k = true -> isSensitiveName k = true ->
    value_image v (redacted k).

Lemma sanitizeArgValue_image v : value_image v (sanitizeArgValue v).
Proof.
  unfold sanitizeArgValue. destruct (isPlaceholder v) eqn:P; [by constructor|].
  destruct (IndexByte v "=") as [[|i]|] eqn:I.
  2: { apply eq_split in I as (E & L & Len). destruct (isSensitiveName _) eqn:S; [|by constructor].
       eapply vi_redacted; [exact E| |done|done]. intros Z. by rewrite Z in Len. }
  all: repeat (case_match; [by constructor|]); by constructor.
Qed.

Lemma redacted_not_placeholder k : isPlaceholder (redacted k) = false.
Proof.
  destruct (isPlaceholder (redacted k)) eqn:P; [|done]. apply placeholder_facts in P as (_ & L & _).
  unfold redacted in L. rewrite lacks_app in L. by rewrite andb_false_r in L.
Qed.

Lemma sanitizeArgValue_fixed v w : value_image v w -> sanitizeArgValue w = w.
Proof.
  intros [p P|k x -> Hk L Se]; unfold sanitizeArgValue.
  - by rewrite P.
  - rewrite redacted_not_placeholder. unfold redacted. change "=<redacted-secret>" with (String "=" "<redacted-secret>").
    rewrite eq_index by done. destruct k as [|c k]; [done|]. cbn [String.length].
    change (S (String.length k)) with (String.length (String c k)). rewrite str_take_app. by rewrite Se.
Qed.

(** ** The sanitizer, position by position

    The loop looks one token ahead and skips; the same output is obtained
    token by token, knowing only whether the token before is a bare
    sensitive flag. *)

Definition secret_flag (t : string) : bool := HasPrefix t "-" && lacks "=" t && isSensitiveName t.

Definition flag_image (tok : string) : string :=
  match IndexByte tok "=" with
  | None => tok
  | Some i =>
      if isSensitiveName (str_take i tok) then redacted (str_take i tok)
      else str_take i tok +:+ "=" +:+ sanitizeArgValue (str_drop (S i) tok)
  end.

Definition image (after_secret : bool) (tok : string) : string :=
  if HasPrefix tok "-" then flag_image tok
  else if after_secret then "<redacted-secret>" else sanitizeArgValue tok.

Fixpoint images (after_secret : bool) (tokens : list string) : list string :=
  match tokens with
  | [] => []
  | t :: rest => image after_secret t :: images (secret_flag t) rest
  end.

Lemma secret_flag_value t : HasPrefix t "-" = false -> secret_flag t = false.
Proof. unfold secret_flag. by intros ->. Qed.

Lemma index_zero_flag tok : HasPrefix tok "-" = true -> IndexByte tok "=" <> Some 0%nat.
Proof.
  intros H I. apply HasPrefix_spec in H as [r ->]. apply eq_split in I as (E & _). simpl in E. done.
Qed.

(** The loop and the positional form agree. *)
Lemma sanitize_tokens_images tokens : sanitize_tokens tokens = images false tokens.
Proof.
  induction tokens as [tokens IH] using (induction_ltof1 _ (@length string)).
  assert (R : forall r, (length r < length tokens)%nat -> sanitize_tokens r = images false r) by exact IH.
  clear IH. destruct tokens as [|tok rest]; [done|]. cbn [sanitize_tokens images]. unfold image.
  destruct (HasPrefix tok "-") eqn:F; [|rewrite R by (simpl; lia); by rewrite secret_flag_value].
  unfold flag_image. pose proof (index_zero_flag tok F) as NZ.
  destruct (IndexByte tok "=") as [[|i]|] eqn:I; [done|..].
  - rewrite R by (simpl; lia). assert (secret_flag tok = false) as ->; [|by destruct (isSensitiveName _)].
    unfold secret_flag. destruct (lacks "=" tok) eqn:L; [|by rewrite andb_false_r].
    apply lacks_index in L. congruence.
  - f_equal. assert (secret_flag tok = isSensitiveName tok) as ->.
    { unfold secret_flag. by rewrite F, (index_lacks _ I). }
    destruct rest as [|next rest']; [done|]. cbn [images]. unfold image.
    destruct (HasPrefix next "-") eqn:N; cbn [negb].
    + rewrite R by (simpl; lia). cbn [images]. unfold image. by rewrite N.
    + destruct (isSensitiveName tok).
      { rewrite R by (simpl; lia). by rewrite secret_flag_value. }
      destruct (isValueConsumingFlag tok); rewrite R by (simpl; lia); [by rewrite secret_flag_value|].
      cbn [images]. unfold image. by rewrite N.
Qed.

Lemma HasPrefix_dash_app n t : n <> "" -> HasPrefix (n +:+ t) "-" = HasPrefix n "-".
Proof. by destruct n. Qed.

(** Images keep what the splitters look at: whether a token is a flag, and
    whether it is a bare one. *)
Lemma flag_image_spec tok : HasPrefix tok "-" = true ->
  (lacks "=" tok = true /\ flag_image tok = tok)
  \/ exists n w v, n <> "" /\ HasPrefix n "-" = true /\ lacks "=" n = true /\ tok = n +:+ String "=" v
       /\ flag_image tok = n +:+ String "=" w
       /\ (isSensitiveName n = true -> w = "<redacted-secret>")
       /\ (isSensitiveName n = false -> w = sanitizeArgValue v).
Proof.
  intros F. unfold flag_image. destruct (IndexByte tok "=") as [i|] eqn:I.
  - right. pose proof (index_zero_flag tok F) as NZ.
    apply eq_split in I as (E & L & Len). exists (str_take i tok).
    assert (Hn : str_take i tok <> "").
    { intros Z. rewrite Z in Len. simpl in Len. subst i. apply NZ. rewrite E at 1. rewrite Z. done. }
    assert (HasPrefix (str_take i tok) "-" = true).
    { rewrite E in F. by rewrite HasPrefix_dash_app in F. }
    destruct (isSensitiveName (str_take i tok));
      [exists "<redacted-secret>"|exists (sanitizeArgValue (str_drop (S i) tok))];
      exists (str_drop (S i) tok); auto 10 with congruence.
  - left. split; [by apply index_lacks|done].
Qed.

Lemma lacks_eq_app n w : lacks "=" (n +:+ String "=" w) = false.
Proof. rewrite lacks_app. unfold lacks at 2. cbn [str_forall]. by rewrite Ascii.eqb_refl, andb_false_r. Qed.

Lemma value_image_flag v w : HasPrefix v "-" = false -> value_image v w -> HasPrefix w "-" = false.
Proof.
  intros F [p P|k x -> Hk _ _]; [by apply placeholder_facts in P as [? _]|].
  unfold redacted. rewrite HasPrefix_dash_app in * by done. done.
Qed.

Lemma image_flag s t : HasPrefix (image s t) "-" = HasPrefix t "-".
Proof.
  unfold image. destruct (HasPrefix t "-") eqn:F.
  - destruct (flag_image_spec t F) as [[_ ->]|(n & w & v & Hn & Fn & _ & _ & -> & _)]; [done|].
    by rewrite HasPrefix_dash_app.
  - destruct s; [done|]. eauto using value_image_flag, sanitizeArgValue_image.
Qed.

Lemma image_bare s t : HasPrefix t "-" = true -> lacks "=" (image s t) = lacks "=" t.
Proof.
  intros F. unfold image. rewrite F.
  destruct (flag_image_spec t F) as [[_ ->]|(n & w & v & Hn & Fn & _ & -> & -> & _)]; [done|].
  by rewrite !lacks_eq_app.
Qed.

Lemma image_verbatim s t : HasPrefix t "-" = true -> lacks "=" t = true -> image s t = t.
Proof.
  intros F L. unfold image, flag_image. by rewrite F, (lacks_index _ _ L).
Qed.

Lemma secret_flag_image s t : secret_flag (image s t) = secret_flag t.
Proof.
  unfold secret_flag. rewrite image_flag. destruct (HasPrefix t "-") eqn:F; [|done].
  rewrite image_bare by done. destruct (lacks "=" t) eqn:L; [|done]. by rewrite image_verbatim.
Qed.

Lemma flag_image_idem t : HasPrefix t "-" = true -> flag_image (flag_image t) = flag_image t.
Proof.
  intros F. destruct (flag_image_spec t F) as [[_ E]|(n & w & v & Hn & Fn & L & _ & -> & Hs & Hv)].
  { by rewrite !E. }
  unfold flag_image. rewrite eq_index, str_take_app, str_drop_app_S by done.
  destruct (isSensitiveName n); [by rewrite Hs|].
  rewrite Hv by done. by rewrite (sanitizeArgValue_fixed v) by apply sanitizeArgValue_image.
Qed.

Lemma image_image s' s t : (s' = true -> s = true) -> image s' (image s t) = image s t.
Proof.
  intros Hs. unfold image at 1. rewrite image_flag. unfold image.
  destruct (HasPrefix t "-") eqn:F; [by apply flag_image_idem|].
  destruct s', s; try done; try by specialize (Hs eq_refl).
  by rewrite (sanitizeArgValue_fixed t) by apply sanitizeArgValue_image.
Qed.

Lemma images_images s' s l : (s' = true -> s = true) -> images s' (images s l) = images s l.
Proof.
  revert s' s. induction l as [|t l IH]; intros s' s Hs; [done|]. cbn [images].
  rewrite image_image by done. f_equal. rewrite secret_flag_image. by apply IH.
Qed.

(** Whether the position after [l] follows a bare sensitive flag. *)
Fixpoint last_secret (s : bool) (l : list string) : bool :=
  match l with [] => s | t :: rest => last_secret (secret_flag t) rest end.

Lemma images_app s l1 l2 : images s (l1 ++ l2) = (images s l1 ++ images (last_secret s l1) l2)%list.
Proof. revert s. induction l1 as [|t l1 IH]; intros s; [done|]. cbn. by rewrite IH. Qed.

Lemma last_secret_images s' s l : s' = s \/ l <> [] -> last_secret s' (images s l) = last_secret s l.
Proof.
  destruct l as [|t l]; [intros [->|]; done|]. intros _. cbn. rewrite secret_flag_image.
  generalize (secret_flag t) as b. induction l as [|u l IH]; intros b; [done|].
  cbn. rewrite secret_flag_image. apply IH.
Qed.

(** ** Splitting sanitized tokens again *)

Lemma flag_image_word t : HasPrefix t "-" = true -> is_word t = true -> is_word (flag_image t) = true.
Proof.
  intros F W. destruct (flag_image_spec t F) as [[_ ->]|(n & w & v & Hn & _ & L & -> & -> & Hs & Hv)]; [done|].
  apply is_word_spec in W as [_ W]. apply is_word_spec. split; [by destruct n|].
  rewrite space_free_byte in W |- * by done. apply andb_true_iff in W as [-> W].
  assert (Hw : space_free w = true).
  { destruct (isSensitiveName n); [by rewrite Hs|]. rewrite Hv by done.
    destruct (sanitizeArgValue_image v) as [p P|k x -> _ _ _].
    - apply placeholder_facts in P as (_ & _ & P). by apply is_word_spec in P as [_ P].
    - unfold redacted. apply space_free_cons in W as [_ W]. rewrite space_free_byte in W by done.
      change "=<redacted-secret>" with (String "=" "<redacted-secret>"). rewrite space_free_byte by done.
      apply andb_true_iff in W as [-> _]. done. }
  cbn [space_free]. rewrite Hw. by rewrite space_len_graph.
Qed.

Lemma value_image_word v w : is_word v = true -> value_image v w -> is_word w = true.
Proof.
  intros W [p P|k x -> Hk _ _]; [by apply placeholder_facts in P as (_ & _ & P)|].
  apply is_word_spec in W as [_ W]. rewrite space_free_byte in W by done. apply andb_true_iff in W as [Wk _].
  apply is_word_spec. split; [by destruct k|]. unfold redacted.
  change "=<redacted-secret>" with (String "=" "<redacted-secret>"). rewrite space_free_byte by done. by rewrite Wk.
Qed.

Lemma image_word s t : is_word t = true -> is_word (image s t) = true.
Proof.
  intros W. unfold image. destruct (HasPrefix t "-") eqn:F; [by apply flag_image_word|].
  destruct s; [done|]. eauto using value_image_word, sanitizeArgValue_image.
Qed.

Lemma words_images s l : words l -> words (images s l).
Proof.
  revert s. induction l as [|t l IH]; intros s H; [constructor|]. inversion H; subst.
  constructor; [by apply image_word|]. by apply IH.
Qed.

Lemma Contains_eq t : Contains t "=" = negb (lacks "=" t).
Proof.
  induction t as [|c t IH]; [done|]. cbn [Contains]. unfold lacks in *. cbn [str_forall]. rewrite IH.
  cbn [HasPrefix]. rewrite (Ascii.eqb_sym c). by destruct (Ascii.eqb "=" c).
Qed.

Lemma dash_image s t x : In x ["-"; "--"] -> String.eqb (image s t) x = String.eqb t x.
Proof.
  intros Hx. assert (Fx : HasPrefix x "-" = true /\ lacks "=" x = true) by (destruct Hx as [<-|[<-|[]]]; split; reflexivity).
  destruct (String.eqb_spec t x) as [->|N].
  - destruct Fx. apply String.eqb_eq. by apply image_verbatim.
  - apply String.eqb_neq. intros E. destruct (HasPrefix t "-") eqn:F.
    + pose proof (image_bare s t F) as B. rewrite E in B. destruct Fx as [_ L]. rewrite L in B.
      rewrite image_verbatim in E by done. done.
    + pose proof (image_flag s t) as B. rewrite E, F in B. destruct Fx. congruence.
Qed.

(** The options before the command end at the same place. *)
Lemma leadingOptionsEnd_images tool s l : leadingOptionsEnd tool (images s l) = leadingOptionsEnd tool l.
Proof.
  revert s. induction l as [l IH] using (induction_ltof1 _ (@length string)). intros s.
  assert (R : forall r s, (length r < length l)%nat -> leadingOptionsEnd tool (images s r) = leadingOptionsEnd tool r)
    by (intros r s' H; exact (IH r H s')).
  clear IH. destruct l as [|t rest]; [done|]. cbn [images leadingOptionsEnd].
  rewrite !dash_image by (simpl; auto). rewrite image_flag, !Contains_eq.
  destruct (HasPrefix t "-") eqn:F; [|by rewrite !orb_true_r].
  rewrite image_bare by done. rewrite !R by (simpl; lia). destruct (lacks "=" t) eqn:L; [|done].
  rewrite image_verbatim by done. cbn [negb].
  destruct rest as [|next rest']; [done|]. cbn [images]. rewrite image_flag, !R by (simpl; lia). done.
Qed.

(** A command word never follows an unbound sensitive option. *)
Lemma leading_last_secret tool l x rest : drop (leadingOptionsEnd tool l) l = x :: rest ->
  HasPrefix x "-" = false -> last_secret false (take (leadingOptionsEnd tool l) l) = false.
Proof.
  induction l as [l IH] using (induction_ltof1 _ (@length string)). intros D Hx.
  assert (R : forall r, (length r < length l)%nat -> drop (leadingOptionsEnd tool r) r = x :: rest ->
             last_secret false (take (leadingOptionsEnd tool r) r) = false) by (intros r H E; exact (IH r H E Hx)).
  clear IH. destruct l as [|t l]; [done|]. cbn [leadingOptionsEnd] in *.
  destruct (_ || _ || _) eqn:E0; [done|]. destruct (Contains t "=") eqn:C.
  - cbn [take drop last_secret] in *. assert (secret_flag t = false) as ->; [|apply R; [simpl; lia|done]].
    unfold secret_flag. rewrite Contains_eq in C. apply negb_true_iff in C. by rewrite C, andb_false_r.
  - destruct (str_in _ _ || isSensitiveName t) eqn:G.
    + destruct l as [|next l]; [by cbn [take drop last_secret] in *|].
      destruct (HasPrefix next "-") eqn:N; cbn [negb] in *.
      * cbn [take drop last_secret] in *. specialize (R (next :: l) ltac:(simpl; lia) D).
        destruct (leadingOptionsEnd tool (next :: l)) eqn:Z; [|exact R].
        cbn [drop] in D. injection D as -> _. congruence.
      * cbn [take drop last_secret] in *. rewrite (secret_flag_value next N). apply R; [simpl; lia|done].
    + apply orb_false_iff in G as [_ G]. cbn [take drop last_secret] in *.
      assert (secret_flag t = false) as ->; [|apply R; [simpl; lia|done]].
      unfold secret_flag. by rewrite G, andb_false_r.
Qed.

(** ** Sanitized tokens are no command words *)

Lemma runes_sep a c t k : bv c < 128 -> (k <= String.length a)%nat ->
  runes_skip k (a +:+ String c t) = (runes_skip k a ++ bv c :: runes_skip 0 t)%list.
Proof.
  intros Hc. revert k. induction a as [|d a IH]; intros k Hk.
  - assert (k = 0%nat) as -> by (simpl in Hk; lia). cbn [String.append runes_skip].
    by rewrite decode_ascii.
  - destruct k as [|k]; cbn [String.append runes_skip]; [|apply IH; simpl in Hk; lia].
    pose proof (decode_rune_sep (String d a) c t ltac:(done) Hc) as D. cbn [String.append] in D. rewrite D.
    pose proof (decode_rune_le (String d a)) as W.
    destruct (decode_rune (String d a)) as [r w]. cbn [snd String.length] in W.
    rewrite IH by lia. done.
Qed.

Definition pattern_words : list string :=
  flat_map (fun e => flat_map Fields (snd e)) multiWordSubcommands.

(** No command word contains '<' or '=' or starts with '-'. *)
Definition command_word_ok (w : string) : bool :=
  let rs := map fold_rune (runes w) in
  negb (existsb (Z.eqb 60) rs) && negb (existsb (Z.eqb 61) rs)
  && match rs with r :: _ => negb (r =? 45) | [] => false end.

Lemma pattern_words_ok : forallb command_word_ok pattern_words = true.
Proof. vm_compute. reflexivity. Qed.

Lemma EqualFold_without a c t w : bv c = 60 \/ bv c = 61 -> command_word_ok w = true ->
  EqualFold (a +:+ String c t) w = false.
Proof.
  intros Hc W. destruct (EqualFold _ _) eqn:E; [exfalso|done]. apply EqualFold_spec in E.
  unfold runes in E at 1. rewrite runes_sep, map_app in E by lia. unfold command_word_ok in W.
  rewrite <- E in W. cbn [map] in W. bool_facts.
  assert (fold_rune (bv c) = bv c) as F by (unfold fold_rune; destruct Hc as [-> | ->]; done).
  rewrite F in *. destruct Hc as [Hc|Hc]; rewrite Hc in *.
  - match goal with H : existsb (Z.eqb 60) _ = false |- _ => rewrite existsb_app in H; simpl in H end.
    by rewrite orb_true_r in *.
  - match goal with H : existsb (Z.eqb 61) _ = false |- _ => rewrite existsb_app in H; simpl in H end.
    by rewrite orb_true_r in *.
Qed.

Lemma EqualFold_dash t w : HasPrefix t "-" = true -> command_word_ok w = true -> EqualFold t w = false.
Proof.
  intros F W. destruct (EqualFold _ _) eqn:E; [exfalso|done]. apply EqualFold_spec in E.
  apply HasPrefix_spec in F as [r ->]. unfold command_word_ok in W. rewrite <- E in W.
  change ("-" +:+ r) with (String "-" r) in W. unfold runes in W. cbn [runes_skip] in W.
  rewrite decode_ascii in W by done. cbn [map] in W. bool_facts. done.
Qed.

(** What a sanitized value is: a placeholder, or something with a '='. *)
Lemma image_value s t : HasPrefix t "-" = false ->
  isPlaceholder (image s t) = true \/ exists k r, image s t = k +:+ String "=" r.
Proof.
  intros F. unfold image. rewrite F. destruct s; [by left|].
  destruct (sanitizeArgValue_image t) as [p P|k x _ _ _ _]; [by left|right].
  by exists k, "<redacted-secret>".
Qed.

Lemma image_not_command_word s t w : command_word_ok w = true -> EqualFold (image s t) w = false.
Proof.
  intros W. destruct (HasPrefix t "-") eqn:F.
  { apply EqualFold_dash; [by rewrite image_flag|done]. }
  destruct (image_value s t F) as [P|(k & r & ->)]; [|by apply EqualFold_without; [right|]].
  assert (exists r, image s t = "" +:+ String "<" r) as [r ->]; [|by apply EqualFold_without; [left|]].
  apply isPlaceholder_In in P. simpl in P. repeat (destruct P as [<-|P]; [by eexists|]). done.
Qed.

(** ** Re-reading a stored pattern *)

Definition pattern_ok (tool p : string) : bool :=
  match Fields p with
  | [w1; w2] => command_word_ok w1 && command_word_ok w2 && negb (HasPrefix w1 "-")
  | _ => false
  end
  && String.eqb (Join (Fields p) " ") p && String.eqb (ToLower p) p
  && match multi_word_match tool (Fields p) with Some q => String.eqb q p | None => false end.

Lemma patterns_ok : forallb (fun e => forallb (pattern_ok (fst e)) (snd e)) multiWordSubcommands = true.
Proof. vm_compute. reflexivity. Qed.

Lemma pattern_facts tool p : In p (assoc_list tool multiWordSubcommands) -> pattern_ok tool p = true.
Proof.
  unfold assoc_list. destruct (assoc tool multiWordSubcommands) as [l|] eqn:A; [|done]. intros H.
  apply assoc_In in A. pose proof patterns_ok as P. rewrite forallb_forall in P. specialize (P _ A).
  cbn [fst snd] in P. rewrite forallb_forall in P. auto.
Qed.

Lemma pattern_two_words tool p : In p (assoc_list tool multiWordSubcommands) ->
  exists w1 w2, Fields p = [w1; w2] /\ command_word_ok w1 = true /\ command_word_ok w2 = true
    /\ HasPrefix w1 "-" = false.
Proof.
  intros H. apply pattern_facts in H. unfold pattern_ok in H. bool_facts.
  destruct (Fields p) as [|w1 [|w2 [|]]]; try done. bool_facts. eauto 10.
Qed.

Lemma multi_word_match_inv tool rest p : multi_word_match tool rest = Some p ->
  In p (assoc_list tool multiWordSubcommands) /\ hasCommandPrefix rest (Fields p) = true.
Proof. apply List.find_some. Qed.

Lemma multi_word_match_none tool a b rest :
  (forall w, command_word_ok w = true -> EqualFold a w = false)
  \/ (forall w, command_word_ok w = true -> EqualFold b w = false) ->
  multi_word_match tool (a :: b :: rest) = None /\
  ((forall w, command_word_ok w = true -> EqualFold a w = false) -> multi_word_match tool [a] = None).
Proof.
  intros H. split; [|clear H; intros H]; match goal with |- ?m = None => destruct m as [p|] eqn:M; [exfalso|done] end;
    apply multi_word_match_inv in M as [Hp M]; destruct (pattern_two_words _ _ Hp) as (w1 & w2 & E & W1 & W2 & _);
    rewrite E in M; cbn in M; bool_facts; [|done].
  destruct H as [H|H]; [rewrite H in *|rewrite (H w2) in *]; done.
Qed.

Lemma multi_word_match_image tool s t rest : multi_word_match tool (image s t :: rest) = None.
Proof.
  destruct (multi_word_match_none tool (image s t) (hd "" rest) (tl rest)) as [M1 M2];
    [left; intros; by apply image_not_command_word|].
  destruct rest; [apply M2; intros; by apply image_not_command_word|exact M1].
Qed.

Lemma multi_word_match_second tool x l s : multi_word_match tool (x :: images s l) = None.
Proof.
  destruct l as [|t l]; cbn [images].
  - destruct (multi_word_match tool [x]) as [p|] eqn:M; [exfalso|done].
    apply multi_word_match_inv in M as [Hp M]. destruct (pattern_two_words _ _ Hp) as (w1 & w2 & E & _).
    rewrite E in M. cbn in M. by rewrite andb_false_r in M.
  - apply multi_word_match_none. right. intros. by apply image_not_command_word.
Qed.

Lemma hasCommandPrefix_two a b rest w1 w2 :
  hasCommandPrefix (a :: b :: rest) [w1; w2] = hasCommandPrefix [a; b] [w1; w2].
Proof. by destruct rest. Qed.

Lemma multi_word_match_self tool p X : In p (assoc_list tool multiWordSubcommands) ->
  multi_word_match tool (Fields p ++ X) = Some p.
Proof.
  intros Hp. pose proof (pattern_facts _ _ Hp) as F. unfold pattern_ok in F. bool_facts.
  destruct (pattern_two_words _ _ Hp) as (w1 & w2 & E & _). rewrite E in *. cbn [app].
  destruct (multi_word_match tool [w1; w2]) as [q|] eqn:M; [|done]. bool_facts. subst q. rewrite <- M.
  unfold multi_word_match.
  assert (G : forall l, (forall q, In q l -> In q (assoc_list tool multiWordSubcommands)) ->
    List.find (fun q => hasCommandPrefix (w1 :: w2 :: X) (Fields q)) l
    = List.find (fun q => hasCommandPrefix [w1; w2] (Fields q)) l); [|by apply G].
  induction l as [|q l IH]; intros Hl; [done|]. cbn [List.find].
  destruct (pattern_two_words tool q (Hl q (or_introl eq_refl))) as (v1 & v2 & -> & _).
  rewrite hasCommandPrefix_two, IH by (intros; apply Hl; by right). done.
Qed.

Lemma joinPatterns_words a b : words a -> words b ->
  joinPatterns [Join a " "; Join b " "] = Join (a ++ b) " ".
Proof.
  intros Ha Hb. unfold joinPatterns, non_empty. cbn [List.filter].
  destruct a as [|x a], b as [|y b]; try done.
  - pose proof (Join_words_space_len (y :: b) Hb ltac:(done)) as [N _].
    by rewrite (proj2 (String.eqb_neq _ _) N).
  - pose proof (Join_words_space_len (x :: a) Ha ltac:(done)) as [N _].
    rewrite (proj2 (String.eqb_neq _ _) N). by rewrite app_nil_r.
  - pose proof (Join_words_space_len (y :: b) Hb ltac:(done)) as [N _].
    pose proof (Join_words_space_len (x :: a) Ha ltac:(done)) as [N' _].
    rewrite (proj2 (String.eqb_neq _ _) N), (proj2 (String.eqb_neq _ _) N'). cbn [negb].
    by rewrite Join_app.
Qed.

Lemma ToLower_dash x : HasPrefix x "-" = false -> HasPrefix (ToLower x) "-" = false.
Proof.
  destruct x as [|a s]; [done|]. intros F. unfold ToLower. cbn [map_runes_skip].
  pose proof (decode_small a s) as D. destruct (decode_rune (String a s)) as [r w]. cbn [fst] in D.
  destruct (HasPrefix _ "-") eqn:E in |- *; [exfalso|done].
  assert (R : unicode_ToLower r = 45).
  { destruct (Z.eq_dec (unicode_ToLower r) 45) as [|N]; [done|].
    pose proof (encode_rune_lacks (unicode_ToLower r) "-" ltac:(done) N) as L.
    destruct (encode_rune_cons (unicode_ToLower r)) as (c & t & Ec). rewrite Ec in *.
    cbn [String.append HasPrefix] in E. unfold lacks in L. cbn [str_forall] in L. bool_facts.
    subst c. done. }
  assert (r = 45) as ->.
  { unfold unicode_ToLower in R. destruct (case_small _ _ lower_table_ok r) as [C|C]; rewrite R in *; [lia| |]; done. }
  cbn [HasPrefix] in F. bool_facts. destruct F as [F|F]; [|done]. apply Ascii.eqb_neq in F. apply F.
  apply bv_inj. rewrite D; done.
Qed.

(** The three ways a command line is split. *)
Inductive split_case (tool : string) (args : list string) : string * string -> Prop :=
| split_flags :
    (toolHasSubcommands tool = false \/ drop (leadingOptionsEnd tool args) args = []
     \/ exists first rest, drop (leadingOptionsEnd tool args) args = first :: rest
        /\ multi_word_match tool (first :: rest) = None
        /\ subcommandCandidate first (0 <? leadingOptionsEnd tool args)%nat = false) ->
    split_case tool args ("", Join (images false args) " ")
| split_pattern first rest p :
    toolHasSubcommands tool = true ->
    drop (leadingOptionsEnd tool args) args = first :: rest ->
    multi_word_match tool (first :: rest) = Some p ->
    split_case tool args
      (p, joinPatterns [Join (images false (take (leadingOptionsEnd tool args) args)) " ";
                        Join (images false (drop (length (Fields p)) (first :: rest))) " "])
| split_word first rest :
    toolHasSubcommands tool = true ->
    drop (leadingOptionsEnd tool args) args = first :: rest ->
    multi_word_match tool (first :: rest) = None ->
    subcommandCandidate first (0 <? leadingOptionsEnd tool args)%nat = true ->
    split_case tool args
      (ToLower first, joinPatterns [Join (images false (take (leadingOptionsEnd tool args) args)) " ";
                                    Join (images false rest) " "]).

Lemma extract_split tool args r : extractSubcommandAndFlags tool args = r <-> split_case tool args r.
Proof.
  unfold extractSubcommandAndFlags, sanitizeAndNormalizeArgs. split.
  - intros <-. destruct args as [|a args0]; [apply (split_flags tool []); auto|].
    destruct (toolHasSubcommands tool) eqn:T; cbn [negb];
      [|rewrite sanitize_tokens_images; apply split_flags; auto].
    destruct (drop _ _) as [|first rest] eqn:D; [rewrite sanitize_tokens_images; apply split_flags; auto|].
    destruct (multi_word_match _ _) as [p|] eqn:M; [rewrite !sanitize_tokens_images; by apply split_pattern|].
    destruct (subcommandCandidate _ _) eqn:S; rewrite !sanitize_tokens_images;
      [by apply split_word|apply split_flags; eauto 10].
  - intros H. destruct args as [|a args0].
    + destruct H as [_|? ? ? ? D|? ? ? D]; [done|discriminate D..].
    + destruct H as [H|first rest p T D M|first rest T D M S].
      * destruct (toolHasSubcommands tool) eqn:T; cbn [negb]; [|by rewrite sanitize_tokens_images].
        destruct H as [H|[->|(first & rest & -> & M & S)]]; [done|by rewrite sanitize_tokens_images|].
        by rewrite M, S, sanitize_tokens_images.
      * rewrite T, D. cbn [negb]. by rewrite M, !sanitize_tokens_images.
      * rewrite T, D. cbn [negb]. by rewrite M, S, !sanitize_tokens_images.
Qed.

Lemma images_drop s n l : exists s', drop n (images s l) = images s' (drop n l).
Proof.
  revert s l. induction n as [|n IH]; intros s l; [exists s; by rewrite !drop_0|].
  destruct l as [|t l]; [by exists s|]. cbn [images drop]. apply IH.
Qed.

(** Sanitized options and arguments are fixed, also when the arguments come
    to stand right behind the options. *)
Lemma images_lead_rest lead rest : last_secret false lead = false ->
  images false (images false lead ++ images false rest) = (images false lead ++ images false rest)%list.
Proof.
  intros L. rewrite images_app, images_images by done. f_equal. rewrite last_secret_images by auto.
  rewrite L. by apply images_images.
Qed.

Lemma flags_again tool args :
  (toolHasSubcommands tool = false \/ drop (leadingOptionsEnd tool args) args = []
   \/ exists first rest, drop (leadingOptionsEnd tool args) args = first :: rest
        /\ multi_word_match tool (first :: rest) = None
        /\ subcommandCandidate first (0 <? leadingOptionsEnd tool args)%nat = false) ->
  extractSubcommandAndFlags tool (images false args) = ("", Join (images false args) " ").
Proof.
  intros H. apply extract_split. rewrite <- (images_images false false args) at 2 by done. apply split_flags.
  rewrite leadingOptionsEnd_images. destruct (images_drop false (leadingOptionsEnd tool args) args) as [s' D].
  destruct H as [H|[H|(first & rest & E & M & S)]]; [by left|right; left; by rewrite D, H|].
  right. right. rewrite D, E. cbn [images]. eexists _, _. split; [reflexivity|].
  split; [apply multi_word_match_image|]. unfold subcommandCandidate.
  rewrite image_flag, Contains_eq.
  destruct (HasPrefix first "-") eqn:F; [by rewrite orb_true_r|].
  destruct (image_value s' first F) as [P|(k & r & ->)]; [by rewrite P, !orb_true_r|].
  rewrite lacks_eq_app. by rewrite !orb_true_r.
Qed.

Section reread.
Context (tool : string) (lead rest : list string).
Hypothesis has_sub : toolHasSubcommands tool = true.
Hypothesis lead_words : words lead.
Hypothesis rest_words : words rest.
Hypothesis lead_bound : last_secret false lead = false.

Definition stored : list string := (images false lead ++ images false rest)%list.

Lemma stored_words : words stored.
Proof. apply Forall_app. split; by apply words_images. Qed.

Lemma stored_joined : joinPatterns [Join (images false lead) " "; Join (images false rest) " "] = Join stored " ".
Proof. by apply joinPatterns_words; apply words_images. Qed.

Lemma stored_fixed : joinPatterns [Join (images false []) " "; Join (images false stored) " "] = Join stored " ".
Proof.
  assert (images false stored = stored) as -> by (by apply images_lead_rest).
  apply joinPatterns_words; [constructor|apply stored_words].
Qed.

Lemma pattern_again p : In p (assoc_list tool multiWordSubcommands) ->
  extractSubcommandAndFlags tool (Fields p ++ stored) = (p, Join stored " ").
Proof.
  intros Hp. destruct (pattern_two_words _ _ Hp) as (w1 & w2 & E & _ & _ & N1).
  pose proof (multi_word_match_self tool p stored Hp) as Self.
  rewrite E in *. cbn [app] in *. apply extract_split. rewrite <- stored_fixed.
  pose proof (split_pattern tool (w1 :: w2 :: stored) w1 (w2 :: stored) p has_sub) as SP.
  assert (L0 : leadingOptionsEnd tool (w1 :: w2 :: stored) = 0%nat).
  { cbn [leadingOptionsEnd]. by rewrite N1, !orb_true_r. }
  rewrite L0, E in SP. cbn [take drop length] in SP. by apply SP.
Qed.

Lemma word_again x : x <> "" -> HasPrefix x "-" = false -> lacks "=" x = true ->
  isPlaceholder x = false -> ToLower x = x ->
  extractSubcommandAndFlags tool (x :: stored) = (x, Join stored " ").
Proof.
  intros Hx Fx Lx Px Lo. apply extract_split. rewrite <- stored_fixed.
  pose proof (split_word tool (x :: stored) x stored has_sub) as SP.
  assert (L0 : leadingOptionsEnd tool (x :: stored) = 0%nat).
  { cbn [leadingOptionsEnd]. by rewrite Fx, !orb_true_r. }
  rewrite L0, Lo in SP. cbn [take drop Nat.ltb Nat.leb] in SP. apply SP; [done| |].
  - unfold stored. rewrite <- images_lead_rest by done. apply multi_word_match_second.
  - unfold subcommandCandidate. rewrite Fx, Px, Contains_eq, Lx.
    by rewrite (proj2 (String.eqb_neq _ _) Hx).
Qed.
End reread.

(** Reading a stored coordinate again, command words first and then the
    sanitized tokens, finds the same command and the same pattern. *)
Lemma extract_stable tool args sub pat : words args ->
  extractSubcommandAndFlags tool args = (sub, pat) -> isPlaceholder sub = false ->
  exists ws toks, words ws /\ words toks /\ sub = Join ws " " /\ ToLower sub = sub
    /\ pat = Join toks " " /\ extractSubcommandAndFlags tool (ws ++ toks) = (sub, pat).
Proof.
  intros Hw E P. apply extract_split in E.
  pose proof (Forall_take _ (leadingOptionsEnd tool args) _ Hw) as Wl.
  pose proof (Forall_drop _ (leadingOptionsEnd tool args) _ Hw) as Wr.
  remember (sub, pat) as r eqn:Er. destruct E as [H|first rest p T D M|first rest T D M S]; injection Er as <- <-.
  - exists [], (images false args). do 2 (split; [by constructor || by apply words_images|]).
    repeat split; [done..|]. by apply flags_again.
  - destruct (multi_word_match_inv _ _ _ M) as [Hp HM]. rewrite D in Wr.
    pose proof (pattern_facts _ _ Hp) as F. unfold pattern_ok in F. bool_facts.
    destruct (pattern_two_words _ _ Hp) as (w1 & w2 & E & W1 & _ & _). rewrite E in HM.
    destruct rest as [|b rest]; [cbn in HM; by rewrite andb_false_r in HM|].
    assert (Fd : HasPrefix first "-" = false).
    { destruct (HasPrefix first "-") eqn:Fd; [|done]. cbn in HM. by rewrite EqualFold_dash in HM. }
    pose proof (leading_last_secret _ _ _ _ D Fd) as LS. rewrite E. cbn [length drop].
    inversion Wr as [|? ? _ Wr']. inversion Wr' as [|? ? _ Wr'']. subst.
    exists (Fields p), (stored (take (leadingOptionsEnd tool args) args) rest).
    rewrite stored_joined, pattern_again by done.
    repeat split; [apply Fields_words|by apply stored_words|by symmetry|done].
  - rewrite D in Wr. inversion Wr as [|? ? Wf Wr']. subst. unfold subcommandCandidate in S.
    destruct (_ || _ || _ || _) eqn:B in S; [done|]. bool_facts.
    pose proof (leading_last_secret _ _ _ _ D ltac:(done)) as LS.
    assert (Wl' : is_word (ToLower first) = true) by (by apply ToLower_word).
    exists [ToLower first], (stored (take (leadingOptionsEnd tool args) args) rest).
    rewrite stored_joined by done. cbn [app]. rewrite word_again; auto using ToLower_dash, ToLower_idem.
    + repeat split; [by repeat constructor|by apply stored_words|by rewrite ToLower_idem].
    + by apply is_word_spec in Wl' as [Wn _].
    + apply ToLower_lacks; [done..|].
      match goal with H : Contains first "=" = false |- _ => rewrite Contains_eq in H; by apply negb_false_iff in H end.
Qed.

(** ** Properties of the sanitizer *)

(** How one token of the output arises from the token at its position. *)
Inductive token_image : string -> string -> Prop :=
| ti_flag t : HasPrefix t "-" = true -> lacks "=" t = true -> token_image t t
| ti_flag_value n v w : HasPrefix n "-" = true -> lacks "=" n = true -> value_image v w ->
    (isSensitiveName n = true -> w = "<redacted-secret>") ->
    token_image (n +:+ String "=" v) (n +:+ String "=" w)
| ti_value t w : HasPrefix t "-" = false -> value_image t w -> token_image t w.

Lemma image_token s t : token_image t (image s t).
Proof.
  unfold image. destruct (HasPrefix t "-") eqn:F.
  - destruct (flag_image_spec t F) as [[L ->]|(n & w & v & Hn & Fn & L & -> & -> & Hs & Hv)]; [by constructor|].
    constructor; [done|done| |done]. destruct (isSensitiveName n); [rewrite Hs by done; by constructor|].
    rewrite Hv by done. apply sanitizeArgValue_image.
  - constructor; [done|]. destruct s; [by constructor|apply sanitizeArgValue_image].
Qed.

Lemma images_tokens s l : Forall2 token_image l (images s l).
Proof. revert s. induction l; intros s; constructor; [apply image_token|auto]. Qed.



(** The sanitizer keeps one output token per input token, each output
    token is an option name kept as it is, a placeholder of the closed
    vocabulary or a sensitive name with a redacted value, and sanitizing
    again changes nothing. *)
Theorem sanitizer_closed_and_idempotent tokens :
  Forall2 token_image tokens (sanitize_tokens tokens)
  /\ sanitize_tokens (sanitize_tokens tokens) = sanitize_tokens tokens.
Proof.
  rewrite !sanitize_tokens_images. split; [apply images_tokens|]. by apply images_images.
Qed.

(** A value that holds a '=' after a sensitive word keeps the text in front
    of it: the base64 padding of a bearer token is enough. *)
Example sanitizer_keeps_padded_bearer_token :
  sanitizeAndNormalizeArgs ["-H"; "Authorization: Bearer c2VjcmV0LXRva2Vu=="]
  = "-H Authorization: Bearer c2VjcmV0LXRva2Vu=<redacted-secret>".
Proof. vm_compute. reflexivity. Qed.

(** ** Properties of the symbols *)

Lemma cut_provenance_encoded prov rest : prov = ProvenanceField \/ prov = ProvenanceFarm ->
  cut_provenance cliSymbolProvenancePrefixes (prov +:+ ":" +:+ rest) = (prov, rest).
Proof. intros [-> | ->]; unfold cliSymbolProvenancePrefixes, ProvenanceField, ProvenanceFarm; by simpl. Qed.

Lemma encoded_words sub pat ws toks prov : prov = ProvenanceField \/ prov = ProvenanceFarm ->
  words ws -> words toks -> sub = Join ws " " -> pat = Join toks " " ->
  EncodeCLISymbol sub pat prov = prov +:+ ":" +:+ Join (ws ++ toks) " ".
Proof.
  intros Hp Hw Ht -> ->. unfold EncodeCLISymbol. cbn zeta. rewrite !TrimSpace_Join by done.
  assert (String.eqb prov "" = false) as -> by (destruct Hp; by subst).
  do 2 f_equal. destruct ws as [|w ws], toks as [|t toks]; cbn [negb].
  - done.
  - destruct (Join_words_space_len (t :: toks) Ht ltac:(done)) as [N _].
    by rewrite (proj2 (String.eqb_neq _ _) N).
  - destruct (Join_words_space_len (w :: ws) Hw ltac:(done)) as [N _].
    rewrite (proj2 (String.eqb_neq _ _) N), app_nil_r. cbn [negb]. by rewrite str_app_nil_r.
  - destruct (Join_words_space_len (w :: ws) Hw ltac:(done)) as [N _].
    destruct (Join_words_space_len (t :: toks) Ht ltac:(done)) as [N' _].
    rewrite (proj2 (String.eqb_neq _ _) N), (proj2 (String.eqb_neq _ _) N'). cbn [negb].
    by rewrite Join_app.
Qed.

Lemma prefixed_join_trimmed prov l : prov = ProvenanceField \/ prov = ProvenanceFarm -> words l ->
  TrimSpace (prov +:+ ":" +:+ Join l " ") = prov +:+ ":" +:+ Join l " ".
Proof.
  intros Hp Hl. destruct l as [|w l].
  - destruct Hp as [-> | ->]; reflexivity.
  - assert (prov +:+ ":" +:+ Join (w :: l) " " = Join ((prov +:+ ":" +:+ w) :: l) " ") as ->.
    { destruct l; [done|]. rewrite !Join_cons2. by rewrite !str_app_assoc. }
    inversion Hl as [|? ? Hw Hl']; subst. apply TrimSpace_Join. constructor; [|done].
    apply is_word_spec in Hw as [_ Hw]. apply is_word_spec.
    split; [by destruct Hp as [-> | ->]|].
    destruct Hp as [-> | ->]; cbn [String.append ProvenanceField ProvenanceFarm space_free];
      rewrite !space_len_graph by done; by rewrite Hw.
Qed.

(** The symbol a command is stored under gives back the subcommand, the
    argument pattern and the provenance it was made from, for every argument
    vector of words and every spelling of the tool. *)
Theorem cli_symbol_roundtrip tool tool' args env env' prov :
  prov = ProvenanceField \/ prov = ProvenanceFarm ->
  words args -> CommandTool [tool'] = CommandTool [tool] ->
  let c := ParseCLICommand (tool :: args) env in
  isPlaceholder (fst (extractSubcommandAndFlags (CommandTool [tool]) args)) = false ->
  DecodeCLISymbol (EncodeCLISymbol (co_Subcommand c) (co_ArgsPattern c) prov) tool' env'
  = (co_Subcommand c, co_ArgsPattern c, prov).
Proof.
  intros Hp Hw Ht c P. unfold c, ParseCLICommand. clear c.
  change (CommandTool (tool :: args)) with (CommandTool [tool]).
  destruct (extractSubcommandAndFlags (CommandTool [tool]) args) as [sub pat] eqn:E. cbn [fst] in P.
  destruct (extract_stable _ _ _ _ Hw E P) as (ws & toks & Wws & Wt & Es & Ls & Ep & Again).
  assert (Cs : forall e, co_Subcommand (coord_Canonical (mkCoord (CommandTool [tool]) "" sub pat "" e)) = sub
                      /\ co_ArgsPattern (coord_Canonical (mkCoord (CommandTool [tool]) "" sub pat "" e)) = pat).
  { intros e. cbn. unfold canonicalizeArgsPattern. rewrite Es, Ep, !Fields_Join by done. rewrite <- Es, Ls.
    split; [done|]. by destruct toks. }
  destruct (Cs env) as [-> ->]. rewrite (encoded_words _ _ ws toks) by done.
  assert (Wall : words (ws ++ toks)) by (by apply Forall_app).
  unfold DecodeCLISymbol. rewrite prefixed_join_trimmed by done.
  rewrite cut_provenance_encoded by done. rewrite TrimSpace_Join by done.
  destruct (String.eqb_spec (Join (ws ++ toks) " ") "") as [Z|N].
  - apply Join_nil in Z; [|done]. apply app_eq_nil in Z as [-> ->]. by subst.
  - rewrite Fields_Join by done. unfold ParseCLICommand.
    change (CommandTool (tool' :: ws ++ toks)) with (CommandTool [tool']). rewrite Ht, Again.
    by destruct (Cs env') as [-> ->].
Qed.

Lemma cli_symbol_roundtrip_witness :
  DecodeCLISymbol
    (EncodeCLISymbol "workflow run" "-R <path> <path> --ref <arg> --token <redacted-secret>" ProvenanceFarm) "gh" env_zero
  = ("workflow run", "-R <path> <path> --ref <arg> --token <redacted-secret>", ProvenanceFarm).
Proof.
  apply (cli_symbol_roundtrip "gh.exe" "gh"
    ["-R"; "me/repo"; "workflow"; "run"; "ci.yml"; "--ref"; "main"; "--token"; "x"] env_zero env_zero ProvenanceFarm);
    [by right|by repeat constructor|reflexivity|vm_compute; reflexivity].
Defined.

(** ** Properties of the coordinate *)

Definition launcher_exts : list string := [".exe"; ".cmd"; ".bat"; ".ps1"; ".sh"].

Definition canonical_tool (t : string) : string := strip_ext launcher_exts (base_name (ToLower (TrimSpace t))).

(** A canonical tool name that is not itself spelled like a launcher:
    "git.exe.exe" is left as "git.exe" by one pass. *)
Definition plain_tool (t : string) : bool :=
  String.eqb (TrimSpace t) t && negb (existsb (HasSuffix t) launcher_exts).

Lemma HasSuffix_app s e : HasSuffix s e = true -> exists p, s = p +:+ e.
Proof.
  induction s as [|c s IH]; cbn [HasSuffix]; intros H.
  - bool_facts. destruct H as [H|H]; [|done]. bool_facts. subst e. by exists "".
  - bool_facts. destruct H as [H|H].
    + bool_facts. subst e. by exists "".
    + destruct (IH H) as [p ->]. by exists (String c p).
Qed.

Lemma str_app_inj_r a b c : a +:+ c = b +:+ c -> a = b.
Proof.
  intros H. assert (L : String.length a = String.length b).
  { apply (f_equal String.length) in H. rewrite !str_len_app in H. lia. }
  revert b H L. induction a as [|x a IH]; intros [|y b] H L; try done.
  injection H as <- H. injection L as L. f_equal. auto.
Qed.

Definition path_sep (c : ascii) : bool := in_set "/\" c.
Definition no_sep (s : string) : bool := str_forall (fun c => negb (path_sep c)) s.

Lemma base_name_cases s : (no_sep s = true /\ base_name s = s)
  \/ exists a c b, s = a +:+ String c b /\ path_sep c = true /\ no_sep b = true /\ base_name s = b.
Proof.
  unfold base_name, LastIndexAny. destruct (last_index_by (in_set "/\") s) as [i|] eqn:E.
  - right. destruct (last_index_by_Some _ _ _ E) as (c & Es & Hc & Hb & _). eauto 10.
  - left. split; [|done]. induction s as [|x s IH]; [done|]. cbn [last_index_by] in E.
    destruct (last_index_by _ s); [done|]. destruct (in_set "/\" x) eqn:X; [done|].
    unfold no_sep, path_sep. cbn [str_forall]. rewrite X. by apply IH.
Qed.

Lemma base_name_no_sep s : no_sep s = true -> base_name s = s.
Proof. intros H. unfold base_name, LastIndexAny. by rewrite last_index_by_none. Qed.

Lemma base_name_app a c b : path_sep c = true -> no_sep b = true -> base_name (a +:+ String c b) = b.
Proof.
  intros Hc Hb. unfold base_name, LastIndexAny. rewrite last_index_by_app by done. apply str_drop_app_S.
Qed.

Lemma path_sep_cases c : path_sep c = true -> c = "/"%char \/ c = "\"%char.
Proof. unfold path_sep. cbn [in_set]. rewrite orb_false_r. intros H. bool_facts. destruct H; bool_facts; auto. Qed.

Lemma no_sep_lacks s : no_sep s = true <-> lacks "/" s = true /\ lacks "\" s = true.
Proof.
  unfold no_sep, lacks, path_sep. induction s as [|c s IH]; [done|]. cbn [str_forall].
  rewrite !andb_true_iff, IH. cbn [in_set]. rewrite !(Ascii.eqb_sym c). rewrite orb_false_r.
  rewrite negb_orb, andb_true_iff. tauto.
Qed.

Lemma no_sep_ToLower s : no_sep s = true -> no_sep (ToLower s) = true.
Proof. rewrite !no_sep_lacks. intros [H1 H2]. split; by apply ToLower_lacks. Qed.

Lemma base_name_ToLower s : base_name (ToLower s) = ToLower (base_name s).
Proof.
  destruct (base_name_cases s) as [[H ->]|(a & c & b & -> & Hc & Hb & ->)].
  - apply base_name_no_sep. by apply no_sep_ToLower.
  - destruct (path_sep_cases c Hc) as [-> | ->]; rewrite ToLower_sep by done;
      (rewrite base_name_app; [done|done|by apply no_sep_ToLower]).
Qed.

Lemma strip_ext_cases exts s : strip_ext exts s = s \/ exists e, In e exts /\ s = strip_ext exts s +:+ e.
Proof.
  induction exts as [|e exts IH]; [by left|]. cbn [strip_ext]. destruct (HasSuffix s e) eqn:H.
  - right. exists e. split; [by left|]. unfold TrimSuffix. rewrite H. apply HasSuffix_app in H as [p ->].
    rewrite str_len_app, Nat.add_sub. by rewrite str_take_app.
  - destruct IH as [IH|(x & Hx & IH)]; [by left|right]. exists x. split; [by right|done].
Qed.

Lemma strip_ext_none exts s : existsb (HasSuffix s) exts = false -> strip_ext exts s = s.
Proof. induction exts as [|e exts IH]; [done|]. cbn. intros H. bool_facts. by rewrite H, IH. Qed.

Lemma ext_lower p e : In e launcher_exts -> ToLower (p +:+ e) = ToLower p +:+ e.
Proof.
  intros H. assert (exists e', e = String "." e' /\ ToLower e' = e') as (e' & -> & E).
  { simpl in H. repeat (destruct H as [<-|H]; [eexists; split; [reflexivity|vm_compute; reflexivity]|]). done. }
  rewrite ToLower_sep by done. by rewrite E.
Qed.

Lemma canonical_tool_lower t : ToLower (canonical_tool t) = canonical_tool t.
Proof.
  unfold canonical_tool. rewrite base_name_ToLower. set (s := ToLower (base_name _)).
  assert (L : ToLower s = s) by apply ToLower_idem.
  destruct (strip_ext_cases launcher_exts s) as [-> | (e & He & E)]; [done|].
  apply (str_app_inj_r _ _ e). rewrite <- ext_lower, <- E by done. done.
Qed.

Lemma canonical_tool_no_sep t : no_sep (canonical_tool t) = true.
Proof.
  unfold canonical_tool. set (s := base_name _).
  assert (N : no_sep s = true).
  { unfold s. destruct (base_name_cases (ToLower (TrimSpace t))) as [[H ->]|(? & ? & ? & _ & _ & H & ->)]; done. }
  destruct (strip_ext_cases launcher_exts s) as [-> | (e & He & E)]; [done|].
  rewrite E in N. unfold no_sep in *. rewrite str_forall_app in N. by apply andb_true_iff in N as [N _].
Qed.

Lemma canonical_tool_idem t : plain_tool (canonical_tool t) = true ->
  canonical_tool (canonical_tool t) = canonical_tool t.
Proof.
  unfold plain_tool. intros H. bool_facts. unfold canonical_tool at 1.
  match goal with H : TrimSpace _ = _ |- _ => rewrite H end.
  rewrite canonical_tool_lower, base_name_no_sep by apply canonical_tool_no_sep. by apply strip_ext_none.
Qed.

Lemma Normalize_SchemaVersion v e :
  env_Normalize (set_SchemaVersion v e) = set_SchemaVersion v (env_Normalize e).
Proof.
  unfold env_Normalize. assert (clear_placeholders (set_SchemaVersion v e)
    = set_SchemaVersion v (clear_placeholders e)) as -> by done.
  generalize (clear_placeholders e) as n. intros []. unfold fill_context, fill_engine. cbn.
  destruct (_ && _); cbn; (destruct (String.eqb _ _); [|done]); destruct (engine_of _); done.
Qed.

Lemma canonical_env_idem e :
  let c e := let n := env_Normalize e in if env_SchemaVersion n =? 0 then set_SchemaVersion 1 n else n in
  c (c e) = c e.
Proof.
  cbn beta zeta. destruct (env_SchemaVersion (env_Normalize e) =? 0) eqn:Z.
  - by rewrite Normalize_SchemaVersion, (proj1 (Normalize_idem e)).
  - by rewrite (proj1 (Normalize_idem e)), Z.
Qed.

Lemma canonicalizeArgsPattern_join a : canonicalizeArgsPattern a = Join (Fields a) " ".
Proof. unfold canonicalizeArgsPattern. by destruct (Fields a). Qed.

Lemma coord_ext a b : co_Tool a = co_Tool b -> co_ToolVersion a = co_ToolVersion b ->
  co_Subcommand a = co_Subcommand b -> co_ArgsPattern a = co_ArgsPattern b -> co_Shell a = co_Shell b ->
  co_Environment a = co_Environment b -> a = b.
Proof. destruct a, b; cbn. congruence. Qed.

(** Canonicalising a coordinate twice is canonicalising it once, so
    the content id of a recorded coordinate is the id of the command it was
    recorded for, and a command matches its own canonical coordinate. *)
Theorem coord_Canonical_idempotent c : plain_tool (co_Tool (coord_Canonical c)) = true ->
  coord_Canonical (coord_Canonical c) = coord_Canonical c
  /\ CoordinateID (coord_Canonical c) = CoordinateID c
  /\ MatchesExactCoordinate (coord_Canonical c) c = true.
Proof.
  intros H. assert (I : coord_Canonical (coord_Canonical c) = coord_Canonical c).
  { apply coord_ext; unfold coord_Canonical;
      cbn [co_Tool co_ToolVersion co_Subcommand co_ArgsPattern co_Shell co_Environment].
    - exact (canonical_tool_idem _ H).
    - apply TrimSpace_idem.
    - apply lower_words_idem.
    - rewrite !canonicalizeArgsPattern_join. apply Join_Fields_idem.
    - by rewrite TrimSpace_ToLower, ToLower_idem.
    - apply canonical_env_idem. }
  split; [done|]. split; [unfold CoordinateID; by rewrite I|].
  unfold MatchesExactCoordinate. rewrite I, !String.eqb_refl. by rewrite andb_false_r.
Qed.

Definition coord_example : CLIExperienceCoordinate :=
  mkCoord "C:\Program Files\Git\cmd\GIT.EXE" " 2.51.0 " " Worktree   ADD " "  <path>  --force " "PWSH" env_zero.

Lemma coord_Canonical_idempotent_witness :
  coord_Canonical (coord_Canonical coord_example) = coord_Canonical coord_example
  /\ co_Tool (coord_Canonical coord_example) = "git"
  /\ co_Subcommand (coord_Canonical coord_example) = "worktree add".
Proof.
  split; [apply coord_Canonical_idempotent; vm_compute; reflexivity|]. split; vm_compute; reflexivity.
Defined.

(** One pass strips one launcher suffix, so a doubled one is not canonical
    after it. *)
Example coord_Canonical_doubled_suffix :
  co_Tool (coord_Canonical (mkCoord "git.exe.exe" "" "" "" "" env_zero)) = "git.exe"
  /\ co_Tool (coord_Canonical (coord_Canonical (mkCoord "git.exe.exe" "" "" "" "" env_zero))) = "git".
Proof. split; vm_compute; reflexivity. Qed.
