(* ===== verification/CliSubject.v ===== *)
(** * Command subjects (internal/domain/clisubject.go)

    The first-class identity of a command-line invocation: its canonical
    form, its content id, its addressable reference and the parser of
    references, and the grading of one subject against another. *)

From stdpp Require Import sets.
From S2P Require Import Prelude GoStrings GoUnicode GoStd StringFacts UnicodeFacts WordFacts Hash Json.
From S2P Require Import Purl Env Targets Cli.

(** ** Data *)

Definition CLISubjectSchemaVersion : Z := 1.
Definition CLISubjectRefPrefix := "cli:".

Record CLIOption := mkOption {
  opt_Name : string;
  opt_ValueClass : string
}.

Record CLISubject := mkSubject {
  sub_SchemaVersion : Z;
  sub_Tool : string;
  sub_ToolVersion : string;
  sub_Path : list string;
  sub_Options : list CLIOption;
  sub_Operands : list string;
  sub_OS : string;
  sub_Arch : string;
  sub_Shell : string;
  sub_Runtime : string
}.

#[export] Instance CLIOption_eq_dec : EqDecision CLIOption.
Proof. solve_decision. Defined.
#[export] Instance CLISubject_eq_dec : EqDecision CLISubject.
Proof. solve_decision. Defined.

(** How safely a result fits the question (internal/domain/types.go). *)
Inductive MatchGrade :=
| GradeExact
| GradeCompatible
| GradeAdaptationRequired
| GradeReferenceOnly
| GradeNoSafeMatch.

#[export] Instance MatchGrade_eq_dec : EqDecision MatchGrade.
Proof. solve_decision. Defined.

Record CLISubjectMatch := mkMatch {
  m_Grade : MatchGrade;
  m_Different : list string;
  m_Undeclared : list string
}.

(** ** Value classes *)

Definition knownValueClass (c : string) : bool := str_in c (map snd valueClassByPlaceholder).

Definition classOfPlaceholder (tok : string) : string :=
  match assoc tok valueClassByPlaceholder with Some class => class | None => CLIValueArg end.

(** The classes of the table are distinct, so the order in which the map is
    visited does not matter. *)
Definition placeholderOfClass (c : string) : string :=
  match List.find (fun e => String.eqb (snd e) c) valueClassByPlaceholder with
  | Some (placeholder, _) => TrimSet placeholder "<>"
  | None => CLIValueArg
  end.

(** ** From a coordinate *)

Fixpoint split_args (tokens : list string) : list CLIOption * list string :=
  match tokens with
  | [] => ([], [])
  | tok :: rest =>
      if negb (HasPrefix tok "-") || String.eqb tok "-" then
        let '(options, operands) := split_args rest in
        (options, classOfPlaceholder tok :: operands)
      else
        let '(name, value, ok) := Cut tok "=" in
        if ok then
          let '(options, operands) := split_args rest in
          (mkOption name (classOfPlaceholder value) :: options, operands)
        else if isSensitiveName tok || isValueConsumingFlag tok then
          match rest with
          | next :: rest' =>
              match assoc next valueClassByPlaceholder with
              | Some class =>
                  let '(options, operands) := split_args rest' in
                  (mkOption tok class :: options, operands)
              | None =>
                  let '(options, operands) := split_args rest in (mkOption tok "" :: options, operands)
              end
          | [] => ([mkOption tok ""], [])
          end
        else
          let '(options, operands) := split_args rest in (mkOption tok "" :: options, operands)
  end.

Definition splitArgsPattern (pattern : string) : list CLIOption * list string := split_args (Fields pattern).

(** ** Canonical form *)

Definition canonicalShell (shell : string) : string :=
  TrimSuffix (base_name (ToLower (TrimSpace shell))) ".exe".

(** The order of [sort.Slice]: by name, then by class. *)
Definition option_lt (a b : CLIOption) : bool :=
  if negb (String.eqb (opt_Name a) (opt_Name b)) then str_lt (opt_Name a) (opt_Name b)
  else str_lt (opt_ValueClass a) (opt_ValueClass b).

(** The loop over the options: names trimmed, empty ones and repetitions
    dropped; [seen] holds the options kept so far. *)
Fixpoint keep_options (seen : list CLIOption) (os : list CLIOption) : list CLIOption :=
  match os with
  | [] => []
  | o :: rest =>
      let o := mkOption (TrimSpace (opt_Name o)) (opt_ValueClass o) in
      if String.eqb (opt_Name o) "" || bool_decide (o ∈ seen) then keep_options seen rest
      else o :: keep_options (o :: seen) rest
  end.

Definition canonical_path (path : list string) : list string :=
  non_empty (map (fun seg => ToLower (TrimSpace seg)) path).

Definition canonical_operands (ops : list string) : list string :=
  map (fun c => if String.eqb c "" then CLIValueArg else c) ops.

Section Sorted.
Context `{GS : !GoSort}.

(** [CLISubject.Canonical]. *)
Definition subject_Canonical (s : CLISubject) : CLISubject := {|
  sub_SchemaVersion := if sub_SchemaVersion s =? 0 then CLISubjectSchemaVersion else sub_SchemaVersion s;
  sub_Tool := CommandTool [sub_Tool s];
  sub_ToolVersion := TrimSpace (sub_ToolVersion s);
  sub_Path := canonical_path (sub_Path s);
  sub_Options := sort_slice option_lt (keep_options [] (sub_Options s));
  sub_Operands := canonical_operands (sub_Operands s);
  sub_OS := ToLower (TrimSpace (sub_OS s));
  sub_Arch := ToLower (TrimSpace (sub_Arch s));
  sub_Shell := canonicalShell (sub_Shell s);
  sub_Runtime := Join (Fields (sub_Runtime s)) " "
|}.

(** [CLIExperienceCoordinate.Subject]. *)
Definition coord_Subject (c : CLIExperienceCoordinate) : CLISubject :=
  let canon := coord_Canonical c in
  let '(options, operands) := splitArgsPattern (co_ArgsPattern canon) in
  let eco := assoc_str (co_Tool canon) buildToolEcosystems in
  let runtime :=
    if negb (String.eqb eco "") && String.eqb eco (env_Ecosystem (co_Environment canon))
    then ContextLabel (co_Environment canon) else "" in
  subject_Canonical {|
    sub_SchemaVersion := CLISubjectSchemaVersion;
    sub_Tool := co_Tool canon;
    sub_ToolVersion := co_ToolVersion canon;
    sub_Path := Fields (co_Subcommand canon);
    sub_Options := options;
    sub_Operands := operands;
    sub_OS := env_OS (co_Environment canon);
    sub_Arch := env_Arch (co_Environment canon);
    sub_Shell := co_Shell canon;
    sub_Runtime := runtime |}.

Definition CLISubjectFromArgv (argv : list string) (env : EnvironmentFingerprint)
    (toolVersion shell : string) : CLISubject :=
  let c := ParseCLICommand argv env in
  coord_Subject (mkCoord (co_Tool c) toolVersion (co_Subcommand c) (co_ArgsPattern c) shell (co_Environment c)).

Definition option_json (o : CLIOption) : json :=
  JObj (field "name" (JStr (opt_Name o)) ++ omit_str "valueClass" (opt_ValueClass o)).

Definition subject_json (s : CLISubject) : json :=
  JObj (field "schemaVersion" (jint (sub_SchemaVersion s))
    ++ field "tool" (JStr (sub_Tool s))
    ++ omit_str "toolVersion" (sub_ToolVersion s)
    ++ omit_strs "path" (sub_Path s)
    ++ (match sub_Options s with [] => [] | os => [("options", JArr (map option_json os))] end)
    ++ omit_strs "operands" (sub_Operands s)
    ++ omit_str "os" (sub_OS s)
    ++ omit_str "arch" (sub_Arch s)
    ++ omit_str "shell" (sub_Shell s)
    ++ omit_str "runtime" (sub_Runtime s)).

Definition SubjectID (s : CLISubject) : string :=
  "clisubject:sha256:" +:+ sha256_hex (CanonicalJSON (subject_json (subject_Canonical s))).

(** ** References *)

(** [strings.NewReplacer] over single bytes. *)
Definition ref_special (c : ascii) : bool := in_set "%&=+# ?" c.
Definition refEscape (s : string) : string := escape_by ref_special s.

Definition option_param (o : CLIOption) : string :=
  "opt=" +:+ refEscape (if negb (String.eqb (opt_ValueClass o) "")
                        then opt_Name o +:+ ":" +:+ opt_ValueClass o else opt_Name o).

Definition dim_params (c : CLISubject) : list string :=
  map (fun '(k, v) => k +:+ "=" +:+ refEscape v)
    (List.filter (fun '(_, v) => negb (String.eqb v ""))
       [("os", sub_OS c); ("arch", sub_Arch c); ("shell", sub_Shell c); ("runtime", sub_Runtime c)]).

Definition Ref (s : CLISubject) : string :=
  let c := subject_Canonical s in
  let params := (map option_param (sub_Options c)
                 ++ map (fun op => "operand=" +:+ refEscape op) (sub_Operands c)
                 ++ dim_params c)%list in
  CLISubjectRefPrefix +:+ PathEscape (sub_Tool c)
  +:+ (if negb (String.eqb (sub_ToolVersion c) "") then "@" +:+ PathEscape (sub_ToolVersion c) else "")
  +:+ String.concat "" (map (fun seg => "/" +:+ PathEscape seg) (sub_Path c))
  +:+ match params with [] => "" | _ => "?" +:+ Join params "&" end.

Definition IsCLISubjectRef (s : string) : bool := HasPrefix (TrimSpace s) CLISubjectRefPrefix.

Inductive ref_error :=
| RefMissingPrefix
| RefBadEscaping
| RefMissingTool
| RefBadQuery
| RefEmptyOption
| RefUnknownClass
| RefUnknownDimension.

(** The path segments after the first, unescaped; empty ones are dropped. *)
Fixpoint parse_segments (segments : list string) : option (list string) :=
  match segments with
  | [] => Some []
  | seg :: rest =>
      match PathUnescape seg with
      | None => None
      | Some seg => option_map (fun path => if String.eqb seg "" then path else seg :: path) (parse_segments rest)
      end
  end.

Fixpoint parse_options (vs : list string) : result (list CLIOption) ref_error :=
  match vs with
  | [] => Ok []
  | v :: rest =>
      let '(name, class, _) := Cut v ":" in
      if String.eqb name "" then Err RefEmptyOption
      else if negb (String.eqb class "") && negb (knownValueClass class) then Err RefUnknownClass
      else res_bind (parse_options rest) (fun os => Ok (mkOption name class :: os))
  end.

Definition known_dimensions : list string := ["opt"; "operand"; "os"; "arch"; "shell"; "runtime"].

Definition ParseCLISubjectRef (ref : string) : result CLISubject ref_error :=
  match CutPrefix (TrimSpace ref) CLISubjectRefPrefix with
  | None => Err RefMissingPrefix
  | Some rest =>
      let '(head, query, _) := Cut rest "?" in
      match Split head "/" with
      | [] => Err RefMissingTool
      | first :: segments =>
          match PathUnescape first with
          | None => Err RefBadEscaping
          | Some toolAndVersion =>
              let '(tool, version) :=
                match LastIndexByte toolAndVersion "@" with
                | Some (S _ as at_) => (str_take at_ toolAndVersion, str_drop (S at_) toolAndVersion)
                | _ => (toolAndVersion, "")
                end in
              if String.eqb (TrimSpace tool) "" then Err RefMissingTool
              else match parse_segments segments with
              | None => Err RefBadEscaping
              | Some path =>
                  let subject := fun options operands os arch shell runtime =>
                    subject_Canonical (mkSubject CLISubjectSchemaVersion tool version path options operands
                                         os arch shell runtime) in
                  if String.eqb query "" then Ok (subject [] [] "" "" "" "")
                  else match ParseQuery query with
                  | None => Err RefBadQuery
                  | Some values =>
                      res_bind (parse_options (query_values values "opt")) (fun options =>
                      if negb (forallb knownValueClass (query_values values "operand")) then Err RefUnknownClass
                      else if negb (forallb (fun kv => str_in (fst kv) known_dimensions) values)
                      then Err RefUnknownDimension
                      else Ok (subject options (query_values values "operand") (query_get values "os")
                                 (query_get values "arch") (query_get values "shell")
                                 (query_get values "runtime")))
                  end
              end
          end
      end
  end.

(** ** Projections *)

(** [CLISubject.Coordinate]. *)
Definition subject_Coordinate (s : CLISubject) : CLIExperienceCoordinate :=
  let c := subject_Canonical s in
  let opt_args o := if negb (String.eqb (opt_ValueClass o) "")
                    then [opt_Name o; "<" +:+ placeholderOfClass (opt_ValueClass o) +:+ ">"]
                    else [opt_Name o] in
  let args := (flat_map opt_args (sub_Options c)
               ++ map (fun op => "<" +:+ placeholderOfClass op +:+ ">") (sub_Operands c))%list in
  mkCoord (sub_Tool c) (sub_ToolVersion c) (Join (sub_Path c) " ") (Join args " ") (sub_Shell c)
    (mkEnv 1 "" (sub_OS c) "" (sub_Arch c) "" "" "" "" "" "" "" "" "" [] "" "" "" "" "" "" "" "" "" "" false).

(** [CLISubject.DisplayCommand]. *)
Definition subject_DisplayCommand (s : CLISubject) : string :=
  let c := subject_Canonical s in
  Join (sub_Tool c :: sub_Path c
        ++ map (fun o => if negb (String.eqb (opt_ValueClass o) "")
                         then opt_Name o +:+ " <" +:+ opt_ValueClass o +:+ ">" else opt_Name o) (sub_Options c)
        ++ map (fun op => "<" +:+ op +:+ ">") (sub_Operands c)) " ".

(** ** Matching *)

Definition sameOptions (a b : list CLIOption) : bool := bool_decide (a = b).
Definition sameOperands (a b : list string) : bool := bool_decide (a = b).

(** [declared]: what one dimension adds to (different, undeclared). *)
Definition declared (name a b : string) (m : list string * list string) : list string * list string :=
  let '(different, undeclared) := m in
  if String.eqb a "" && String.eqb b "" then m
  else if String.eqb a "" || String.eqb b "" then (different, undeclared ++ [name])%list
  else if negb (String.eqb a b) then (different ++ [name], undeclared)%list
  else m.

Definition differ (name : string) (same : bool) (m : list string * list string) : list string * list string :=
  let '(different, undeclared) := m in
  if negb same then (different ++ [name], undeclared)%list else m.

Definition match_dimensions (t c : CLISubject) : list string * list string :=
  let m := declared "toolVersion" (sub_ToolVersion t) (sub_ToolVersion c) ([], []) in
  let m := differ "options" (sameOptions (sub_Options t) (sub_Options c)) m in
  let m := differ "operands" (sameOperands (sub_Operands t) (sub_Operands c)) m in
  let m := declared "os" (sub_OS t) (sub_OS c) m in
  let m := declared "arch" (sub_Arch t) (sub_Arch c) m in
  let m := declared "shell" (sub_Shell t) (sub_Shell c) m in
  declared "runtime" (sub_Runtime t) (sub_Runtime c) m.

Definition MatchCLISubject (target candidate : CLISubject) : CLISubjectMatch :=
  let t := subject_Canonical target in
  let c := subject_Canonical candidate in
  if String.eqb (sub_Tool t) "" || negb (String.eqb (sub_Tool t) (sub_Tool c)) then
    mkMatch GradeNoSafeMatch ["tool"] []
  else if negb (String.eqb (Join (sub_Path t) "/") (Join (sub_Path c) "/")) then
    mkMatch GradeNoSafeMatch ["path"] []
  else
    let '(different, undeclared) := match_dimensions t c in
    mkMatch (if negb (bool_decide (different = [])) then GradeAdaptationRequired
             else if negb (bool_decide (undeclared = [])) then GradeCompatible
             else GradeExact) different undeclared.
End Sorted.

Example Ref_gh :
  Ref (GS:=sort_by_insertion) (CLISubjectFromArgv (GS:=sort_by_insertion) ["gh"; "workflow"; "run"; "ci.yml"; "--yes"; "--ref"; "main"]
         env_example "2.40.0" "/bin/bash")
  = "cli:gh@2.40.0/workflow/run?opt=--ref&opt=--yes&operand=path&operand=arg&os=linux&arch=x64&shell=bash".
Proof. vm_compute. reflexivity. Qed.

(** ** Laws of the canonical form *)

Definition cmp_option : CLIOption -> CLIOption -> Z :=
  cmp_then (cmp_on opt_Name str_cmp) (cmp_on opt_ValueClass str_cmp).

Lemma option_lt_less : less_of cmp_option option_lt.
Proof.
  split; [unfold cmp_option; apply _|]. intros a b. unfold option_lt, cmp_option, cmp_then, cmp_on, str_lt.
  destruct (String.eqb_spec (opt_Name a) (opt_Name b)) as [->|N]; cbn [negb].
  - by rewrite (cmp_refl (cmp:=str_cmp)).
  - destruct (Z.eqb_spec (str_cmp (opt_Name a) (opt_Name b)) 0) as [E|]; [|done].
    by apply str_cmp_eq in E.
Qed.

Lemma cmp_option_eq a b : cmp_option a b = 0 -> a = b.
Proof.
  unfold cmp_option, cmp_then, cmp_on. destruct (Z.eqb_spec (str_cmp (opt_Name a) (opt_Name b)) 0) as [E|]; [|done].
  intros E'. apply str_cmp_eq in E, E'. destruct a, b. cbn in *. congruence.
Qed.

Definition trim_option (o : CLIOption) : CLIOption := mkOption (TrimSpace (opt_Name o)) (opt_ValueClass o).
Definition option_normal (o : CLIOption) : Prop := trim_option o = o /\ opt_Name o <> "".

Lemma trim_option_idem o : trim_option (trim_option o) = trim_option o.
Proof. unfold trim_option. cbn. by rewrite TrimSpace_idem. Qed.

(** What the loop over the options keeps. *)
Lemma elem_of_keep_options seen os o :
  o ∈ keep_options seen os <-> o ∉ seen /\ opt_Name o <> "" /\ o ∈ map trim_option os.
Proof.
  revert seen. induction os as [|x os IH]; intros seen; cbn [keep_options map]; cbn zeta.
  - set_solver.
  - fold (trim_option x). rewrite elem_of_cons.
    destruct (String.eqb_spec (opt_Name (trim_option x)) "") as [E|N]; cbn [orb].
    { rewrite IH. split; [intuition|]. intros (? & ? & [->|?]); [done|intuition]. }
    destruct (bool_decide_reflect (trim_option x ∈ seen)) as [I|I].
    { rewrite IH. split; [intuition|]. intros (? & ? & [->|?]); [done|intuition]. }
    rewrite elem_of_cons, IH, not_elem_of_cons.
    destruct (decide (o = trim_option x)) as [->|]; intuition.
Qed.

Lemma keep_options_nodup seen os : NoDup (keep_options seen os).
Proof.
  revert seen. induction os as [|x os IH]; intros seen; cbn [keep_options]; [constructor|].
  cbn zeta. destruct (_ || _); [done|]. constructor; [|done]. rewrite elem_of_keep_options. set_solver.
Qed.

Lemma keep_options_normal seen os : Forall option_normal (keep_options seen os).
Proof.
  apply List.Forall_forall. intros o Ho. apply list_elem_of_In, elem_of_keep_options in Ho as (_ & N & H).
  apply list_elem_of_In, in_map_iff in H as (x & <- & _). split; [apply trim_option_idem|done].
Qed.

Lemma keep_options_id seen os : NoDup os -> Forall option_normal os -> (forall o, o ∈ os -> o ∉ seen) ->
  keep_options seen os = os.
Proof.
  revert seen. induction os as [|x os IH]; intros seen Hd Hn Hs; [done|]. inversion Hd; subst.
  inversion Hn as [|? ? [T N] Hn']; subst. cbn [keep_options]. cbn zeta. fold (trim_option x). rewrite T.
  rewrite (proj2 (String.eqb_neq _ _) N), bool_decide_false by (apply Hs; by left).
  cbn [orb]. f_equal. apply IH; [done|done|]. intros o Ho. apply not_elem_of_cons. split; [|set_solver].
  by intros ->.
Qed.

Section laws.
Context `{GS : !GoSort}.

Definition canonical_options (os : list CLIOption) : list CLIOption := sort_slice option_lt (keep_options [] os).

Lemma canonical_options_perm os : Permutation (keep_options [] os) (canonical_options os).
Proof. apply sort_slice_perm. Qed.

Lemma keep_canonical_options os : keep_options [] (canonical_options os) = canonical_options os.
Proof.
  apply keep_options_id; [..|set_solver]; rewrite <- canonical_options_perm;
    [apply keep_options_nodup|apply keep_options_normal].
Qed.

Lemma canonical_options_idem os : canonical_options (canonical_options os) = canonical_options os.
Proof.
  unfold canonical_options at 1. rewrite keep_canonical_options.
  apply (sort_slice_fixed cmp_option); [apply option_lt_less|apply cmp_option_eq].
Qed.

Lemma elem_of_canonical_options os o :
  o ∈ canonical_options os <-> opt_Name o <> "" /\ o ∈ map trim_option os.
Proof. rewrite <- canonical_options_perm, elem_of_keep_options. set_solver. Qed.

(** The canonical options depend on the set of options only. *)
Lemma canonical_options_set os1 os2 :
  (forall o, o ∈ map trim_option os1 <-> o ∈ map trim_option os2) -> canonical_options os1 = canonical_options os2.
Proof.
  intros H. apply (sort_slice_unique cmp_option); [apply option_lt_less|apply cmp_option_eq|].
  apply list.NoDup_Permutation; [apply keep_options_nodup..|]. intros o. rewrite !elem_of_keep_options, H. done.
Qed.
End laws.

Lemma canonical_path_idem p : canonical_path (canonical_path p) = canonical_path p.
Proof.
  unfold canonical_path, non_empty. induction p as [|x p IH]; [done|]. cbn [map List.filter].
  destruct (negb _) eqn:E; [|done]. cbn [map List.filter].
  by rewrite TrimSpace_ToLower, ToLower_idem, E, IH.
Qed.

Lemma canonical_operands_idem ops : canonical_operands (canonical_operands ops) = canonical_operands ops.
Proof.
  unfold canonical_operands. rewrite map_map. apply map_ext. intros c.
  destruct (String.eqb_spec c "") as [->|N]; [done|]. by rewrite (proj2 (String.eqb_neq _ _) N).
Qed.

(** ** Tool and shell *)

Definition command_exts : list string := [".exe"; ".cmd"; ".bat"; ".ps1"].

Lemma CommandTool_facts t :
  ToLower (CommandTool [t]) = CommandTool [t] /\ no_sep (CommandTool [t]) = true.
Proof.
  cbn [CommandTool]. set (s := ToLower (base_name t)).
  assert (L : ToLower s = s) by apply ToLower_idem.
  assert (N : no_sep s = true).
  { apply no_sep_ToLower. destruct (base_name_cases t) as [[H ->]|(? & ? & ? & _ & _ & H & ->)]; done. }
  destruct (strip_ext_cases command_exts s) as [E|(e & He & E)]; fold command_exts; [by rewrite E|].
  split.
  - apply (str_app_inj_r _ _ e). rewrite <- ext_lower, <- E; [done|]. simpl in He |- *. tauto.
  - rewrite E in N. unfold no_sep in *. rewrite str_forall_app in N. by apply andb_true_iff in N as [N _].
Qed.

Lemma CommandTool_idem t : existsb (HasSuffix (CommandTool [t])) command_exts = false ->
  CommandTool [CommandTool [t]] = CommandTool [t].
Proof.
  intros H. destruct (CommandTool_facts t) as [L N]. generalize dependent (CommandTool [t]). intros u H L N.
  cbn [CommandTool]. rewrite base_name_no_sep by done. rewrite L. by apply strip_ext_none.
Qed.

Lemma TrimSuffix_cases s e : TrimSuffix s e = s \/ s = TrimSuffix s e +:+ e.
Proof.
  unfold TrimSuffix. destruct (HasSuffix s e) eqn:H; [right|by left].
  apply HasSuffix_app in H as [p ->]. by rewrite str_len_app, Nat.add_sub, str_take_app.
Qed.

Lemma canonicalShell_facts s :
  ToLower (canonicalShell s) = canonicalShell s /\ no_sep (canonicalShell s) = true.
Proof.
  unfold canonicalShell. rewrite base_name_ToLower. set (b := ToLower (base_name _)).
  assert (L : ToLower b = b) by apply ToLower_idem.
  assert (N : no_sep b = true).
  { apply no_sep_ToLower. destruct (base_name_cases (TrimSpace s)) as [[H ->]|(? & ? & ? & _ & _ & H & ->)]; done. }
  destruct (TrimSuffix_cases b ".exe") as [-> |E]; [done|]. split.
  - apply (str_app_inj_r _ _ ".exe"). rewrite <- ext_lower, <- E; [done|]. simpl. tauto.
  - rewrite E in N. unfold no_sep in *. rewrite str_forall_app in N. by apply andb_true_iff in N as [N _].
Qed.

Lemma canonicalShell_idem s : TrimSpace (canonicalShell s) = canonicalShell s ->
  HasSuffix (canonicalShell s) ".exe" = false ->
  canonicalShell (canonicalShell s) = canonicalShell s.
Proof.
  intros T H. destruct (canonicalShell_facts s) as [L N]. unfold canonicalShell at 1.
  rewrite T, L, base_name_no_sep by done. unfold TrimSuffix. by rewrite H.
Qed.

(** ** Idempotence *)

(** A subject whose tool and shell are not spelled with a second launcher
    suffix, nor with white space right behind a path separator. *)
Definition plain_subject (c : CLISubject) : bool :=
  negb (existsb (HasSuffix (sub_Tool c)) command_exts)
  && String.eqb (TrimSpace (sub_Shell c)) (sub_Shell c) && negb (HasSuffix (sub_Shell c) ".exe").

Section canonical.
Context `{GS : !GoSort}.

Lemma subject_Canonical_idem s : plain_subject (subject_Canonical s) = true ->
  subject_Canonical (subject_Canonical s) = subject_Canonical s.
Proof.
  unfold plain_subject. intros H. bool_facts. unfold subject_Canonical at 1.
  destruct s. unfold subject_Canonical in *. cbn in *. f_equal.
  - destruct (sub_SchemaVersion0 =? 0) eqn:E; [done|by rewrite E].
  - by apply CommandTool_idem.
  - apply TrimSpace_idem.
  - apply canonical_path_idem.
  - apply canonical_options_idem.
  - apply canonical_operands_idem.
  - by rewrite TrimSpace_ToLower, ToLower_idem.
  - by rewrite TrimSpace_ToLower, ToLower_idem.
  - by apply canonicalShell_idem.
  - apply Join_Fields_idem.
Qed.
End canonical.

Definition with_options (os : list CLIOption) (s : CLISubject) : CLISubject :=
  mkSubject (sub_SchemaVersion s) (sub_Tool s) (sub_ToolVersion s) (sub_Path s) os (sub_Operands s)
    (sub_OS s) (sub_Arch s) (sub_Shell s) (sub_Runtime s).

(** A command has one identity: the canonical form, the content id and
    the reference of a subject are those of its canonical form; they depend
    on the set of options and not on their order or repetition; and they do
    not depend on how the library breaks ties while sorting. *)
Theorem subject_identity {GS : GoSort} s :
  (plain_subject (subject_Canonical s) = true ->
     subject_Canonical (subject_Canonical s) = subject_Canonical s
     /\ SubjectID (subject_Canonical s) = SubjectID s /\ Ref (subject_Canonical s) = Ref s)
  /\ (forall os, (forall o, o ∈ map trim_option os <-> o ∈ map trim_option (sub_Options s)) ->
       subject_Canonical (with_options os s) = subject_Canonical s)
  /\ (forall GS' : GoSort, subject_Canonical (GS:=GS') s = subject_Canonical (GS:=GS) s).
Proof.
  split; [|split].
  - intros P. pose proof (subject_Canonical_idem s P) as I. unfold SubjectID, Ref. by rewrite I.
  - intros os H. unfold subject_Canonical. cbn. f_equal. by apply canonical_options_set.
  - intros GS'. unfold subject_Canonical. f_equal.
    apply (sort_slice_unique cmp_option); [apply option_lt_less|apply cmp_option_eq|done].
Qed.

Definition subject_example : CLISubject :=
  mkSubject 0 "C:\tools\GH.exe" " 2.40.0" [" Workflow"; "RUN"; ""]
    [mkOption "--yes" ""; mkOption " --ref" ""; mkOption "--yes" ""; mkOption "-f" "path"] ["path"; ""]
    "Linux" "X64" "/bin/Bash" "".

Lemma subject_identity_witness :
  subject_Canonical (GS:=sort_by_insertion) (subject_Canonical (GS:=sort_by_insertion) subject_example)
  = subject_Canonical (GS:=sort_by_insertion) subject_example
  /\ Ref (GS:=sort_by_insertion) subject_example
    = "cli:gh@2.40.0/workflow/run?opt=--ref&opt=--yes&opt=-f:path&operand=path&operand=arg&os=linux&arch=x64&shell=bash".
Proof.
  split; [|vm_compute; reflexivity].
  apply (proj1 (subject_identity (GS:=sort_by_insertion) subject_example)). vm_compute. reflexivity.
Defined.

(** ** Escaping *)

Lemma hex_pair c : ishex (upperhex (bv c / 16)) = true /\ ishex (upperhex (bv c mod 16)) = true
  /\ chr (unhex (upperhex (bv c / 16)) * 16 + unhex (upperhex (bv c mod 16))) = c.
Proof. destruct c as [[] [] [] [] [] [] [] []]; vm_compute; done. Qed.

(** Unescaping undoes an escaping that covers '%' and, in a query, '+'. *)
Lemma unescape_escape plus p s t : p "%"%char = true -> (plus = true -> p "+"%char = true) ->
  url_unescape plus (escape_by p s +:+ t) = option_map (String.append s) (url_unescape plus t).
Proof.
  intros Hp Hq. induction s as [|c s IH]; cbn [escape_by].
  - cbn. by destruct (url_unescape plus t).
  - rewrite str_app_assoc. destruct (p c) eqn:Pc.
    + unfold pct, single. cbn [String.append url_unescape]. rewrite Ascii.eqb_refl.
      destruct (hex_pair c) as (-> & -> & ->). cbn [andb]. rewrite IH. by destruct (url_unescape plus t).
    + unfold single. cbn [String.append url_unescape].
      destruct (Ascii.eqb_spec c "%") as [->|]; [congruence|].
      assert ((if plus && Ascii.eqb c "+" then " "%char else c) = c) as ->.
      { destruct plus; [|done]. destruct (Ascii.eqb_spec c "+") as [->|]; [|done]. rewrite Hq in Pc; done. }
      rewrite IH. by destruct (url_unescape plus t).
Qed.

Lemma unescape_escape_all plus p s : p "%"%char = true -> (plus = true -> p "+"%char = true) ->
  url_unescape plus (escape_by p s) = Some s.
Proof.
  intros Hp Hq. rewrite <- (str_app_nil_r (escape_by p s)), unescape_escape by done. cbn. by rewrite str_app_nil_r.
Qed.

Lemma pct_lacks c d : is_alnum d = false -> d <> "%"%char -> lacks d (pct c) = true.
Proof.
  intros Hd Hp. assert (H : forall x, Ascii.eqb (upperhex x) d = false \/ ~ (0 <= x < 16)).
  { intros x. destruct (Ascii.eqb_spec (upperhex x) d) as [E|]; [|by left]. right. intros Hx.
    assert (is_alnum (upperhex x) = true) as A; [|congruence].
    assert (In x [0;1;2;3;4;5;6;7;8;9;10;11;12;13;14;15]) as I by (simpl; lia).
    simpl in I. repeat (destruct I as [<-|I]; [vm_compute; reflexivity|]). done. }
  unfold lacks, pct, single. cbn [str_forall]. pose proof (bv_range c).
  destruct (Ascii.eqb_spec "%" d) as [<-|]; [done|].
  destruct (H (bv c / 16)) as [-> |N]; [|exfalso; apply N; split; [apply Z.div_pos; lia|apply Z.div_lt_upper_bound; lia]].
  destruct (H (bv c mod 16)) as [-> |N]; [done|exfalso; apply N; apply Z.mod_pos_bound; lia].
Qed.

Lemma escape_lacks p s d : is_alnum d = false -> d <> "%"%char -> p d = true \/ lacks d s = true ->
  lacks d (escape_by p s) = true.
Proof.
  intros Hd Hp H. induction s as [|c s IH]; [done|]. cbn [escape_by].
  assert (Hs : p d = true \/ lacks d s = true).
  { destruct H as [H|H]; [by left|right]. unfold lacks in *. cbn [str_forall] in H. by bool_facts. }
  rewrite lacks_app, IH, andb_true_r by done. destruct (p c) eqn:Pc; [by apply pct_lacks|].
  unfold lacks, single. cbn [str_forall]. rewrite andb_true_r. apply negb_true_iff, Ascii.eqb_neq. intros ->.
  destruct H as [H|H]; [congruence|]. unfold lacks in H. cbn [str_forall] in H. by rewrite Ascii.eqb_refl in H.
Qed.

Lemma escape_graph p s : str_forall (fun c => p c || graph_byte c) s = true ->
  str_forall graph_byte (escape_by p s) = true.
Proof.
  induction s as [|c s IH]; [done|]. cbn [escape_by str_forall]. intros H. apply andb_true_iff in H as [Hc Hs].
  rewrite str_forall_app, IH, andb_true_r by done. destruct (p c) eqn:Pc.
  - clear. destruct c as [[] [] [] [] [] [] [] []]; vm_compute; done.
  - unfold single. cbn [str_forall]. cbn [orb] in Hc. by rewrite Hc.
Qed.

Lemma PathEscape_graph s : str_forall graph_byte (PathEscape s) = true.
Proof.
  apply escape_graph. induction s as [|c s IH]; [done|]. cbn [str_forall]. rewrite IH, andb_true_r.
  clear. destruct c as [[] [] [] [] [] [] [] []]; vm_compute; done.
Qed.

Lemma PathEscape_lacks d s : In d ["/"%char; "?"%char; ";"%char] -> lacks d (PathEscape s) = true.
Proof.
  intros H. simpl in H. destruct H as [<-|[<-|[<-|[]]]]; (apply escape_lacks; [done|done|by left]).
Qed.

Lemma PathUnescape_PathEscape s : PathUnescape (PathEscape s) = Some s.
Proof. by apply unescape_escape_all. Qed.

Lemma PathEscape_nil s : PathEscape s = "" -> s = "".
Proof.
  intros H. pose proof (PathUnescape_PathEscape s) as E. rewrite H in E. by injection E.
Qed.

(** ** Splitting what was joined *)

Lemma Split_Join_sep ws c : ws <> [] -> Forall (fun w => lacks c w = true) ws ->
  Split (Join ws (single c)) c = ws.
Proof.
  intros Hn H. unfold Split. induction ws as [|w [|w' ws] IH]; [done|..]; inversion H as [|? ? Hw Hws]; subst.
  - cbn [Join]. clear -Hw. induction w as [|a w IH]; [done|]. unfold lacks in Hw. cbn [str_forall] in Hw. bool_facts.
    cbn [split_ne]. specialize (IH ltac:(done)). destruct (split_ne c w) as [x xs].
    rewrite (proj2 (Ascii.eqb_neq a c)) by done. by injection IH as -> ->.
  - specialize (IH ltac:(done) Hws). rewrite Join_cons2. unfold single in *. cbn [String.append].
    generalize dependent (Join (w' :: ws) (String c "")). intros r IH. clear -Hw IH.
    induction w as [|a w IHw]; cbn [String.append split_ne].
    + destruct (split_ne c r) as [x xs]. rewrite Ascii.eqb_refl. by rewrite IH.
    + unfold lacks in Hw. cbn [str_forall] in Hw. bool_facts. specialize (IHw ltac:(done)).
      destruct (split_ne c (w +:+ String c r)) as [x xs]. rewrite (proj2 (Ascii.eqb_neq a c)) by done.
      by injection IHw as -> ->.
Qed.

(** ** The parts of a reference *)

Definition option_value (o : CLIOption) : string :=
  if negb (String.eqb (opt_ValueClass o) "") then opt_Name o +:+ ":" +:+ opt_ValueClass o else opt_Name o.

(** The query as key-value pairs, before escaping. *)
Definition ref_pairs (c : CLISubject) : list (string * string) :=
  (map (fun o => ("opt", option_value o)) (sub_Options c)
   ++ map (fun op => ("operand", op)) (sub_Operands c)
   ++ List.filter (fun '(_, v) => negb (String.eqb v ""))
        [("os", sub_OS c); ("arch", sub_Arch c); ("shell", sub_Shell c); ("runtime", sub_Runtime c)])%list.

Definition render_pair (kv : string * string) : string := fst kv +:+ "=" +:+ refEscape (snd kv).

Definition ref_first (c : CLISubject) : string :=
  PathEscape (sub_Tool c)
  +:+ (if negb (String.eqb (sub_ToolVersion c) "") then "@" +:+ PathEscape (sub_ToolVersion c) else "").

Definition ref_head (c : CLISubject) : string := Join (ref_first c :: map PathEscape (sub_Path c)) "/".

Lemma concat_segments first segs :
  first +:+ String.concat "" (map (fun seg => "/" +:+ PathEscape seg) segs) = Join (first :: map PathEscape segs) "/".
Proof.
  revert first. induction segs as [|s segs IH]; intros first; [cbn; by rewrite str_app_nil_r|].
  cbn [map]. rewrite Join_cons2, <- IH. f_equal. cbn [map String.concat].
  destruct (map _ segs) eqn:E; [cbn; by rewrite str_app_nil_r|]. cbn [String.append]. done.
Qed.

Lemma Ref_parts {GS : GoSort} s : let c := subject_Canonical s in
  Ref s = CLISubjectRefPrefix +:+ ref_head c
    +:+ match ref_pairs c with [] => "" | ps => "?" +:+ Join (map render_pair ps) "&" end.
Proof.
  cbn zeta. unfold Ref. set (c := subject_Canonical s). unfold ref_head. rewrite <- concat_segments.
  unfold ref_first. rewrite !str_app_assoc. do 4 f_equal.
  assert (E : (map option_param (sub_Options c) ++ map (fun op => "operand=" +:+ refEscape op) (sub_Operands c)
              ++ dim_params c)%list = map render_pair (ref_pairs c)).
  { unfold ref_pairs. rewrite !map_app, !map_map. f_equal. f_equal.
    unfold dim_params. apply map_ext. by intros [k v]. }
  rewrite E. by destruct (ref_pairs c).
Qed.

(** What a reference can carry without loss. *)
Definition ref_text (s : string) : bool := str_forall (fun c => (32 <=? bv c) && (bv c <? 127)) s && lacks ";" s.

Definition option_ref_ok (o : CLIOption) : bool :=
  ref_text (opt_Name o) && lacks ":" (opt_Name o)
  && (String.eqb (opt_ValueClass o) "" || knownValueClass (opt_ValueClass o)).

Definition ref_ok (c : CLISubject) : bool :=
  (sub_SchemaVersion c =? CLISubjectSchemaVersion)
  && negb (String.eqb (TrimSpace (sub_Tool c)) "") && lacks "@" (sub_Tool c) && lacks "@" (sub_ToolVersion c)
  && forallb option_ref_ok (sub_Options c) && forallb knownValueClass (sub_Operands c)
  && forallb ref_text [sub_OS c; sub_Arch c; sub_Shell c; sub_Runtime c]
  && (Z.of_nat (length (ref_pairs c)) <=? max_query_params).

Lemma known_class_text c : knownValueClass c = true -> ref_text c = true /\ c <> "".
Proof.
  unfold knownValueClass. intros H. apply str_in_In in H. simpl in H.
  repeat (destruct H as [<-|H]; [vm_compute; split; [done|discriminate]|]). done.
Qed.

Lemma ref_text_app a b : ref_text (a +:+ b) = ref_text a && ref_text b.
Proof. unfold ref_text. rewrite str_forall_app, lacks_app. by destruct (str_forall _ a), (str_forall _ b), (lacks _ a). Qed.

Lemma option_value_text o : option_ref_ok o = true -> ref_text (option_value o) = true.
Proof.
  unfold option_ref_ok, option_value. intros H. bool_facts.
  destruct (String.eqb_spec (opt_ValueClass o) "") as [E|N]; cbn [negb]; [done|].
  destruct H0 as [H0|H0]; [done|]. rewrite !ref_text_app. apply known_class_text in H0 as [-> _]. by rewrite H.
Qed.

Definition pair_ok (kv : string * string) : bool := str_in (fst kv) known_dimensions && ref_text (snd kv).

Lemma ref_pairs_ok c : ref_ok c = true -> forallb pair_ok (ref_pairs c) = true.
Proof.
  unfold ref_ok. intros H. bool_facts. rewrite forallb_forall in *. unfold ref_pairs, pair_ok.
  intros kv [Hkv|[Hkv|Hkv]%in_app_iff]%in_app_iff.
  - apply in_map_iff in Hkv as (o & <- & Ho). cbn [fst snd]. by rewrite option_value_text by auto.
  - apply in_map_iff in Hkv as (op & <- & Ho). cbn [fst snd].
    match goal with K : forall x, In x (sub_Operands c) -> _ |- _ => apply K, known_class_text in Ho as [-> _] end. done.
  - apply List.filter_In in Hkv as [Hkv _]. simpl in Hkv.
    assert (str_in (fst kv) known_dimensions = true) as -> by (destruct Hkv as [<-|[<-|[<-|[<-|[]]]]]; reflexivity).
    match goal with K : forall x, In x [_; _; _; _] -> _ |- _ => apply K end.
    simpl. destruct Hkv as [<-|[<-|[<-|[<-|[]]]]]; cbn; tauto.
Qed.

(** One rendered pair parses back. *)
Lemma render_pair_facts kv : pair_ok kv = true ->
  lacks "&" (render_pair kv) = true /\ Contains (render_pair kv) ";" = false /\ render_pair kv <> ""
  /\ str_forall graph_byte (render_pair kv) = true
  /\ Cut (render_pair kv) "=" = (fst kv, refEscape (snd kv), true)
  /\ QueryUnescape (fst kv) = Some (fst kv) /\ QueryUnescape (refEscape (snd kv)) = Some (snd kv).
Proof.
  destruct kv as [k v]. unfold pair_ok, render_pair, ref_text. cbn [fst snd]. intros H. bool_facts.
  assert (K : lacks "&" k = true /\ lacks ";" k = true /\ k <> "" /\ str_forall graph_byte k = true
              /\ lacks "=" k = true /\ QueryUnescape k = Some k).
  { apply str_in_In in H. simpl in H.
    repeat (destruct H as [<-|H]; [vm_compute; repeat split; done|]). done. }
  destruct K as (K1 & K2 & K3 & K4 & K5 & K6).
  assert (E : forall d, d = "&"%char \/ d = ";"%char -> lacks d (refEscape v) = true).
  { intros d [-> | ->]; (apply escape_lacks; [done|done|]); [by left|by right]. }
  assert (Cs : forall s, Contains s ";" = negb (lacks ";" s)).
  { clear. induction s as [|c s IH]; [done|]. cbn [Contains]. unfold lacks in *. cbn [str_forall]. rewrite IH.
    cbn [HasPrefix]. rewrite (Ascii.eqb_sym c). by destruct (Ascii.eqb ";" c). }
  repeat split.
  - rewrite !lacks_app, K1, E by auto. done.
  - rewrite Cs, !lacks_app, K2, E by auto. done.
  - by destruct k.
  - rewrite !str_forall_app, K4. cbn [andb]. apply andb_true_iff. split; [done|]. apply escape_graph.
    match goal with T : str_forall _ v = true |- _ => eapply str_forall_impl; [|exact T] end. intros c Hc. clear -Hc.
    destruct c as [[] [] [] [] [] [] [] []]; vm_compute in Hc |- *; done.
  - by apply Cut_app.
  - done.
  - by apply unescape_escape_all.
Qed.

Lemma parse_rendered_pairs ps : forallb pair_ok ps = true -> parse_pairs (map render_pair ps) = Some ps.
Proof.
  induction ps as [|kv ps IH]; [done|]. cbn [forallb map parse_pairs]. intros H. bool_facts.
  destruct (render_pair_facts kv) as (_ & -> & Hn & _ & -> & -> & ->); [done|].
  rewrite (proj2 (String.eqb_neq _ _) Hn), IH by done. by destruct kv.
Qed.

Lemma ParseQuery_rendered ps : ps <> [] -> forallb pair_ok ps = true ->
  Z.of_nat (length ps) <= max_query_params -> ParseQuery (Join (map render_pair ps) "&") = Some ps.
Proof.
  intros Hn H L. unfold ParseQuery.
  assert (A : Forall (fun w => lacks "&" w = true) (map render_pair ps)).
  { apply List.Forall_forall. intros w (kv & <- & Hkv)%in_map_iff. rewrite forallb_forall in H.
    by apply render_pair_facts, H. }
  destruct (String.eqb_spec (Join (map render_pair ps) "&") "") as [E|_].
  { exfalso. destruct ps as [|kv [|kv' ps]]; [done|..]; cbn [map forallb] in *; bool_facts;
      destruct (render_pair_facts kv) as (_ & _ & N & _); try done.
    rewrite Join_cons2 in E. by apply str_app_eq_nil in E as [E _]. }
  change "&" with (single "&"). rewrite Split_Join_sep; [|by destruct ps|done].
  rewrite length_map. destruct (Z.ltb_spec max_query_params (Z.of_nat (length ps))); [lia|].
  by apply parse_rendered_pairs.
Qed.

(** ** Reading the pairs *)

Lemma query_values_app p q k : query_values (p ++ q) k = (query_values p k ++ query_values q k)%list.
Proof. unfold query_values. by rewrite List.filter_app, map_app. Qed.

Lemma query_values_const {A} (f : A -> string) key k l :
  query_values (map (fun x => (key, f x)) l) k = if String.eqb key k then map f l else [].
Proof.
  unfold query_values. induction l as [|x l IH]; cbn; [by destruct (String.eqb key k)|].
  destruct (String.eqb key k) eqn:E; cbn; by rewrite IH.
Qed.

Lemma ref_pairs_values c :
  query_values (ref_pairs c) "opt" = map option_value (sub_Options c)
  /\ query_values (ref_pairs c) "operand" = sub_Operands c
  /\ query_get (ref_pairs c) "os" = sub_OS c /\ query_get (ref_pairs c) "arch" = sub_Arch c
  /\ query_get (ref_pairs c) "shell" = sub_Shell c /\ query_get (ref_pairs c) "runtime" = sub_Runtime c.
Proof.
  unfold ref_pairs, query_get. rewrite !query_values_app.
  assert (M : forall k, query_values (map (fun op => ("operand", op)) (sub_Operands c)) k
                      = if String.eqb "operand" k then sub_Operands c else []).
  { intros k. rewrite (query_values_const (fun op => op)). by rewrite map_id. }
  rewrite !M, !(query_values_const option_value).
  destruct c as [? ? ? ? ? ? os arch shell runtime]. cbn [sub_OS sub_Arch sub_Shell sub_Runtime sub_Operands sub_Options].
  clear M. unfold query_values. cbn [List.filter].
  destruct (String.eqb os "") eqn:E1, (String.eqb arch "") eqn:E2, (String.eqb shell "") eqn:E3,
    (String.eqb runtime "") eqn:E4; cbn [negb List.filter fst]; cbv [String.eqb Ascii.eqb Bool.eqb];
    cbn [map snd app]; rewrite ?app_nil_r; bool_facts; subst; done.
Qed.

Lemma parse_option_values os : forallb option_ref_ok os = true -> Forall (fun o => opt_Name o <> "") os ->
  parse_options (map option_value os) = Ok os.
Proof.
  induction os as [|[name class] os IH]; [done|]. cbn [forallb map parse_options]. intros H N. bool_facts.
  inversion N as [|? ? Hn N']; subst. cbn [opt_Name] in Hn. rewrite (IH ltac:(done) N').
  unfold option_ref_ok in *. cbn [opt_Name opt_ValueClass] in *. bool_facts.
  unfold option_value. cbn [opt_Name opt_ValueClass].
  destruct (String.eqb_spec class "") as [->|Nc]; cbn [negb].
  - rewrite Cut_none by done. by rewrite (proj2 (String.eqb_neq _ _) Hn).
  - change (":" +:+ class) with (String ":" class). rewrite Cut_app by done.
    rewrite (proj2 (String.eqb_neq _ _) Hn), (proj2 (String.eqb_neq _ _) Nc).
    match goal with H : _ \/ knownValueClass _ = true |- _ => destruct H as [H|H]; [done|by rewrite H] end.
Qed.

Lemma parse_escaped_path path : Forall (fun s => s <> "") path ->
  parse_segments (map PathEscape path) = Some path.
Proof.
  induction 1 as [|s path Hs _ IH]; [done|]. cbn [map parse_segments].
  rewrite PathUnescape_PathEscape, IH. cbn. by rewrite (proj2 (String.eqb_neq _ _) Hs).
Qed.

Lemma ref_first_unescape c : PathUnescape (ref_first c)
  = Some (sub_Tool c +:+ if negb (String.eqb (sub_ToolVersion c) "") then "@" +:+ sub_ToolVersion c else "").
Proof.
  unfold ref_first, PathUnescape, PathEscape. rewrite unescape_escape by done.
  destruct (negb _); [|done]. cbn [String.append url_unescape].
  rewrite unescape_escape_all by done. done.
Qed.

(** The tool and version read from the first segment. *)
Lemma tool_version_split tool version : tool <> "" -> lacks "@" tool = true -> lacks "@" version = true ->
  let tv := tool +:+ if negb (String.eqb version "") then "@" +:+ version else "" in
  match LastIndexByte tv "@" with
  | Some (S _ as at_) => (str_take at_ tv, str_drop (S at_) tv)
  | _ => (tv, "")
  end = (tool, version).
Proof.
  intros Hn Ht Hv. cbn zeta. destruct (String.eqb_spec version "") as [->|N]; cbn [negb].
  - rewrite str_app_nil_r. unfold LastIndexByte. rewrite last_index_by_none; [done|].
    unfold lacks in Ht. eapply str_forall_impl; [|exact Ht]. intros c. by rewrite Ascii.eqb_sym.
  - change ("@" +:+ version) with (String "@" version). rewrite LastIndexByte_app by done.
    destruct tool as [|c tool]; [done|]. cbn [String.length].
    change (S (String.length tool)) with (String.length (String c tool)).
    by rewrite str_take_app, str_drop_app_S.
Qed.

Lemma ref_head_facts c : lacks "?" (ref_head c) = true /\ str_forall graph_byte (ref_head c) = true
  /\ Split (ref_head c) "/" = ref_first c :: map PathEscape (sub_Path c).
Proof.
  assert (F : forall (P : string -> Prop), (forall s, P (PathEscape s)) -> P (ref_first c) ->
              Forall P (ref_first c :: map PathEscape (sub_Path c))).
  { intros P HP H1. constructor; [done|]. apply List.Forall_forall. intros w (s & <- & _)%in_map_iff. apply HP. }
  assert (L : forall d, In d ["/"%char; "?"%char; ";"%char] -> lacks d (ref_first c) = true).
  { intros d Hd. unfold ref_first. rewrite lacks_app, PathEscape_lacks by done.
    destruct (negb _); [|done]. rewrite lacks_app, PathEscape_lacks by done.
    simpl in Hd. by destruct Hd as [<-|[<-|[<-|[]]]]. }
  unfold ref_head. repeat split.
  - apply (Join_Forall (fun a => negb (Ascii.eqb a "?"))); [|done].
    apply F; [intros; apply PathEscape_lacks|apply L]; simpl; tauto.
  - apply Join_Forall; [|done]. apply F; [intros; apply PathEscape_graph|].
    unfold ref_first. rewrite str_forall_app, PathEscape_graph. destruct (negb _); [|done]. apply PathEscape_graph.
  - apply (Split_Join_sep _ "/"); [done|].
    apply F; [intros; apply PathEscape_lacks|apply L]; simpl; tauto.
Qed.

Lemma Ref_graph {GS : GoSort} s : ref_ok (subject_Canonical s) = true -> str_forall graph_byte (Ref s) = true.
Proof.
  intros H. rewrite Ref_parts. set (c := subject_Canonical s) in *. rewrite !str_forall_app.
  destruct (ref_head_facts c) as (_ & -> & _). cbn [andb]. apply andb_true_iff. split; [done|].
  pose proof (ref_pairs_ok c H) as P. destruct (ref_pairs c) as [|kv ps] eqn:E; [done|]. rewrite <- E in *.
  rewrite str_forall_app. apply andb_true_iff. split; [done|]. apply Join_Forall; [|done].
  apply List.Forall_forall. intros w (x & <- & Hx)%in_map_iff. rewrite forallb_forall in P.
  destruct (render_pair_facts x (P x Hx)) as (_ & _ & _ & G & _). done.
Qed.

(** What the canonical form guarantees of the parts. *)
Lemma canonical_parts {GS : GoSort} s : let c := subject_Canonical s in
  Forall (fun x => x <> "") (sub_Path c) /\ Forall (fun o => opt_Name o <> "") (sub_Options c).
Proof.
  cbn zeta. split; apply List.Forall_forall.
  - intros x Hx. unfold subject_Canonical, canonical_path, non_empty in Hx. cbn in Hx.
    apply List.filter_In in Hx as [_ Hx]. by bool_facts.
  - intros o Ho. apply list_elem_of_In in Ho. by apply elem_of_canonical_options in Ho as [? _].
Qed.

(** C39.  A reference addresses exactly the subject it was rendered from:
    parsing it gives the canonical subject back, for every subject whose
    parts a reference can carry. *)
Theorem subject_ref_roundtrip {GS : GoSort} s :
  plain_subject (subject_Canonical s) = true -> ref_ok (subject_Canonical s) = true ->
  IsCLISubjectRef (Ref s) = true /\ ParseCLISubjectRef (Ref s) = Ok (subject_Canonical s).
Proof.
  intros Hp Hr. pose proof (subject_Canonical_idem s Hp) as I. pose proof (Ref_graph s Hr) as G.
  destruct (canonical_parts s) as [Hpath Hopts]. unfold IsCLISubjectRef, ParseCLISubjectRef.
  rewrite (TrimSpace_space_free (Ref s)) by (by apply space_free_graph). rewrite Ref_parts. cbn zeta.
  clear G Hp. generalize dependent (subject_Canonical s). clear s. intros c Hr I Hpath Hopts.
  split; [apply HasPrefix_app|]. rewrite CutPrefix_app.
  destruct (ref_head_facts c) as (Hq & _ & Hs). pose proof (ref_pairs_ok c Hr) as Hps.
  pose proof Hr as Hr'. unfold ref_ok in Hr'. bool_facts.
  assert (Hsch : sub_SchemaVersion c = CLISubjectSchemaVersion) by done.
  assert (Htt : TrimSpace (sub_Tool c) <> "") by done.
  assert (Ht : sub_Tool c <> "") by (intros E; rewrite E in *; done).
  destruct (ref_pairs_values c) as (V1 & V2 & V3 & V4 & V5 & V6).
  destruct (ref_pairs c) as [|kv ps] eqn:E.
  - rewrite str_app_nil_r, Cut_none by done. rewrite Hs, ref_first_unescape, tool_version_split by done.
    rewrite (proj2 (String.eqb_neq _ _) Htt). rewrite parse_escaped_path by done.
    change (String.eqb "" "") with true. cbv iota.
    f_equal. etransitivity; [|exact I]. f_equal. clear -V1 V2 V3 V4 V5 V6 Hsch. destruct c as [? ? ? ? os]. cbn in *.
    destruct os; [|done]. by subst.
  - rewrite <- E in *. change ("?" +:+ ?x) with (String "?" x). rewrite Cut_app by done.
    rewrite Hs, ref_first_unescape, tool_version_split by done.
    rewrite (proj2 (String.eqb_neq _ _) Htt). rewrite parse_escaped_path by done.
    destruct (String.eqb_spec (Join (map render_pair (ref_pairs c)) "&") "") as [Z|_].
    { exfalso. pose proof (ParseQuery_rendered (ref_pairs c) ltac:(by rewrite E) Hps ltac:(lia)) as Q.
      rewrite Z, E in Q. done. }
    rewrite ParseQuery_rendered; [|by rewrite E|done|lia].
    rewrite V1, V2, V3, V4, V5, V6, parse_option_values by done. cbn [res_bind].
    match goal with K : forallb knownValueClass _ = true |- _ => rewrite K end. cbn [negb].
    assert (forallb (fun kv => str_in (fst kv) known_dimensions) (ref_pairs c) = true) as ->.
    { rewrite forallb_forall in *. intros x Hx. specialize (Hps x Hx). unfold pair_ok in Hps. by bool_facts. }
    cbn [negb]. f_equal. etransitivity; [|exact I]. f_equal. clear -Hsch. destruct c. cbn in *. by subst.
Qed.

Lemma subject_ref_roundtrip_witness :
  ParseCLISubjectRef (GS:=sort_by_insertion)
    "cli:gh@2.40.0/workflow/run?opt=--ref&opt=--yes&opt=-f:path&operand=path&operand=arg&os=linux&arch=x64&shell=bash"
  = Ok (subject_Canonical (GS:=sort_by_insertion) subject_example).
Proof.
  assert (R : Ref (GS:=sort_by_insertion) subject_example
    = "cli:gh@2.40.0/workflow/run?opt=--ref&opt=--yes&opt=-f:path&operand=path&operand=arg&os=linux&arch=x64&shell=bash")
    by (vm_compute; reflexivity).
  rewrite <- R. apply (subject_ref_roundtrip (GS:=sort_by_insertion) subject_example); vm_compute; reflexivity.
Defined.

(** An option whose name holds ';' renders to a reference the parser refuses:
    the escaping leaves ';' alone and the query parser rejects it. *)
Example subject_ref_semicolon :
  ParseCLISubjectRef (GS:=sort_by_insertion)
    (Ref (GS:=sort_by_insertion) (mkSubject 1 "sed" "" [] [mkOption "-ne;p" ""] [] "" "" "" ""))
  = Err RefBadQuery.
Proof. vm_compute. reflexivity. Qed.

(** ** Grading *)

(** Neither side contradicts the other. *)
Definition agree (a b : string) : Prop := a = "" \/ b = "" \/ a = b.

Definition same_command (t c : CLISubject) : Prop :=
  sub_Tool t <> "" /\ sub_Tool t = sub_Tool c /\ Join (sub_Path t) "/" = Join (sub_Path c) "/".

Definition no_difference (t c : CLISubject) : Prop :=
  sub_Options t = sub_Options c /\ sub_Operands t = sub_Operands c
  /\ agree (sub_ToolVersion t) (sub_ToolVersion c) /\ agree (sub_OS t) (sub_OS c)
  /\ agree (sub_Arch t) (sub_Arch c) /\ agree (sub_Shell t) (sub_Shell c)
  /\ agree (sub_Runtime t) (sub_Runtime c).

Definition same_dimensions (t c : CLISubject) : Prop :=
  sub_Options t = sub_Options c /\ sub_Operands t = sub_Operands c
  /\ sub_ToolVersion t = sub_ToolVersion c /\ sub_OS t = sub_OS c /\ sub_Arch t = sub_Arch c
  /\ sub_Shell t = sub_Shell c /\ sub_Runtime t = sub_Runtime c.

Lemma declared_spec name a b m :
  (fst (declared name a b m) = [] <-> fst m = [] /\ agree a b)
  /\ ((fst (declared name a b m) = [] /\ snd (declared name a b m) = []) <-> (fst m = [] /\ snd m = []) /\ a = b).
Proof.
  destruct m as [d u]. unfold declared, agree.
  assert (N : forall l : list string, (l ++ [name])%list <> []) by (by destruct l).
  destruct (String.eqb_spec a "") as [->|Ha], (String.eqb_spec b "") as [->|Hb]; cbn;
    try (destruct (String.eqb_spec a b)); cbn;
    (split; split; intros; repeat split; intuition (try congruence; try (exfalso; eapply N; eassumption))).
Qed.

Lemma differ_spec name same m :
  (fst (differ name same m) = [] <-> fst m = [] /\ same = true)
  /\ ((fst (differ name same m) = [] /\ snd (differ name same m) = [])
      <-> (fst m = [] /\ snd m = []) /\ same = true).
Proof.
  destruct m as [d u]. unfold differ. assert (N : forall l : list string, (l ++ [name])%list <> []) by (by destruct l).
  destruct same; cbn; (split; split; intros; repeat split;
    intuition (try congruence; try (exfalso; eapply N; eassumption))).
Qed.

Lemma match_dimensions_spec t c :
  (fst (match_dimensions t c) = [] <-> no_difference t c)
  /\ ((fst (match_dimensions t c) = [] /\ snd (match_dimensions t c) = []) <-> same_dimensions t c).
Proof.
  unfold match_dimensions, no_difference, same_dimensions, sameOptions, sameOperands. cbn zeta. split.
  - do 3 rewrite (proj1 (declared_spec _ _ _ _)). rewrite (proj1 (declared_spec _ _ _ _)).
    rewrite (proj1 (differ_spec _ _ _)), (proj1 (differ_spec _ _ _)), (proj1 (declared_spec _ _ _ _)).
    rewrite !bool_decide_eq_true. cbn [fst]. tauto.
  - do 3 rewrite (proj2 (declared_spec _ _ _ _)). rewrite (proj2 (declared_spec _ _ _ _)).
    rewrite (proj2 (differ_spec _ _ _)), (proj2 (differ_spec _ _ _)), (proj2 (declared_spec _ _ _ _)).
    rewrite !bool_decide_eq_true. cbn [fst snd]. tauto.
Qed.

Lemma declared_sym name a b m : declared name a b m = declared name b a m.
Proof.
  unfold declared. destruct m. rewrite (String.eqb_sym a b).
  by destruct (String.eqb a ""), (String.eqb b "").
Qed.

Lemma match_dimensions_sym t c : match_dimensions t c = match_dimensions c t.
Proof.
  assert (D : forall A `{EqDecision A} (x y : A), bool_decide (x = y) = bool_decide (y = x)).
  { intros. by apply bool_decide_ext. }
  unfold match_dimensions, sameOptions, sameOperands. cbn zeta.
  rewrite (declared_sym "runtime"), (declared_sym "shell"), (declared_sym "arch"), (declared_sym "os"),
    (declared_sym "toolVersion"), (D _ _ (sub_Options t)), (D _ _ (sub_Operands t)). done.
Qed.

Section grading.
Context `{GS : !GoSort}.

Lemma MatchCLISubject_cases target candidate :
  let t := subject_Canonical target in let c := subject_Canonical candidate in
  let m := MatchCLISubject target candidate in
  (~ same_command t c /\ m_Grade m = GradeNoSafeMatch)
  \/ (same_command t c /\ m = mkMatch (if negb (bool_decide (fst (match_dimensions t c) = [])) then GradeAdaptationRequired
             else if negb (bool_decide (snd (match_dimensions t c) = [])) then GradeCompatible
             else GradeExact) (fst (match_dimensions t c)) (snd (match_dimensions t c))).
Proof.
  cbn zeta. unfold MatchCLISubject, same_command. cbn zeta.
  destruct (String.eqb_spec (sub_Tool (subject_Canonical target)) "") as [->|N]; [left; intuition|].
  destruct (String.eqb_spec (sub_Tool (subject_Canonical target)) (sub_Tool (subject_Canonical candidate)));
    cbn [orb negb]; [|left; intuition].
  destruct (String.eqb_spec (Join (sub_Path (subject_Canonical target)) "/")
              (Join (sub_Path (subject_Canonical candidate)) "/")); cbn [negb]; [|left; intuition].
  right. split; [done|]. by destruct (match_dimensions _ _).
Qed.

(** The verdict on a candidate: NO_SAFE_MATCH exactly for another tool
    or command path, ADAPTATION_REQUIRED exactly when the same command has a
    declared dimension that differs, EXACT exactly when every dimension is
    equal, COMPATIBLE in the remaining case; REFERENCE_ONLY is never given
    and the verdict does not depend on which side asks. *)
Theorem MatchCLISubject_verdict target candidate :
  let t := subject_Canonical target in let c := subject_Canonical candidate in
  let m := MatchCLISubject target candidate in
  (m_Grade m = GradeNoSafeMatch <-> ~ same_command t c)
  /\ (m_Grade m = GradeAdaptationRequired <-> same_command t c /\ ~ no_difference t c)
  /\ (m_Grade m = GradeExact <-> same_command t c /\ same_dimensions t c)
  /\ (m_Grade m = GradeCompatible <-> same_command t c /\ no_difference t c /\ ~ same_dimensions t c)
  /\ m_Grade m <> GradeReferenceOnly
  /\ MatchCLISubject candidate target = m.
Proof.
  cbn zeta. pose proof (match_dimensions_spec (subject_Canonical target) (subject_Canonical candidate)) as [S1 S2].
  assert (Sy : MatchCLISubject candidate target = MatchCLISubject target candidate).
  { unfold MatchCLISubject. cbn zeta. rewrite match_dimensions_sym.
    rewrite !(String.eqb_sym (sub_Tool (subject_Canonical candidate)) (sub_Tool (subject_Canonical target))).
    rewrite (String.eqb_sym (Join (sub_Path (subject_Canonical candidate)) "/")).
    destruct (String.eqb_spec (sub_Tool (subject_Canonical target)) (sub_Tool (subject_Canonical candidate))) as [->|];
      [done|]. by rewrite !orb_true_r. }
  rewrite Sy. destruct (MatchCLISubject_cases target candidate) as [[N G]|[C ->]].
  - rewrite G. repeat split; intros; try done; intuition.
  - cbn [m_Grade]. generalize dependent (match_dimensions (subject_Canonical target) (subject_Canonical candidate)).
    intros [d u] S1 S2. cbn [fst snd] in *.
    destruct (bool_decide_reflect (d = [])), (bool_decide_reflect (u = [])); cbn [negb];
      intuition (try done; try congruence).
Qed.
End grading.
