(* ===== verification/Failure.v ===== *)
(** * Structured failure evidence (internal/domain/failure.go)

    How an executable stage ended, the signed 32-bit form of exit codes, the
    cluster fingerprints of a failure, and the repair of batches that were
    written with the unsigned spelling of a Windows status.  The wire unit
    [ObservationBatch] is from internal/domain/types.go. *)

From S2P Require Import Prelude GoStrings GoUnicode GoStd StringFacts UnicodeFacts WordFacts Hash Json.
From S2P Require Import Purl Env.

(** ** Data *)

Definition TerminationExit := "exit".
Definition TerminationSignal := "signal".
Definition TerminationTimeout := "timeout".
Definition TerminationProcessStartFailed := "process-start-failed".

Definition EvidenceComplete := "complete".
Definition EvidencePartial := "partial".
Definition EvidenceMissing := "missing".
Definition EvidenceLegacyIncomplete := "legacy-evidence-incomplete".

Definition ResultPass := "PASS".
Definition ResultFail := "FAIL".

(** [ExitCode] is a pointer in the source: [None] is "not recorded". *)
Record FailureTermination := mkTerm {
  t_Kind : string;
  t_ExitCode : option Z;
  t_Signal : string;
  t_TimeoutMillis : Z
}.

#[export] Instance FailureTermination_eq_dec : EqDecision FailureTermination.
Proof. solve_decision. Defined.

Record ObservationBatch := mkBatch {
  b_SchemaVersion : Z;
  b_Epoch : string;
  b_AnonID : string;
  b_ProjectBucket : string;
  b_Package : string;
  b_Symbol : string;
  b_SymbolConfidence : string;
  b_Environment : EnvironmentFingerprint;
  b_Stage : string;
  b_Result : string;
  b_ObservationCount : Z;
  b_ErrorFingerprint : string;
  b_ErrorCode : string;
  b_TerminationKind : string;
  b_ExitCode : option Z;
  b_Signal : string;
  b_TimeoutMillis : Z;
  b_ErrorSummary : string;
  b_EvidenceQuality : string;
  b_OuterCommand : string;
  b_OuterStage : string;
  b_ActualToolchain : string;
  b_StageEvidence : string;
  b_FailureEvidenceGap : string;
  b_Direct : bool;
  b_Coresident : list string;
  b_DependsOn : list string;
  b_DependsOnNone : bool
}.

Definition set_failure (fingerprint : string) (code : option Z) (b : ObservationBatch) : ObservationBatch :=
  mkBatch (b_SchemaVersion b) (b_Epoch b) (b_AnonID b) (b_ProjectBucket b) (b_Package b) (b_Symbol b)
    (b_SymbolConfidence b) (b_Environment b) (b_Stage b) (b_Result b) (b_ObservationCount b)
    fingerprint (b_ErrorCode b) (b_TerminationKind b) code (b_Signal b) (b_TimeoutMillis b)
    (b_ErrorSummary b) (b_EvidenceQuality b) (b_OuterCommand b) (b_OuterStage b) (b_ActualToolchain b)
    (b_StageEvidence b) (b_FailureEvidenceGap b) (b_Direct b) (b_Coresident b) (b_DependsOn b)
    (b_DependsOnNone b).

(** ** Exit codes *)

Definition minSignedProcessExitCode : Z := - 2 ^ 31.
Definition maxSignedProcessExitCode : Z := 2 ^ 31 - 1.
Definition maxLegacyWindowsExitCode : Z := 2 ^ 32 - 1.

(** [int32(uint32(v))]. *)
Definition uint32 (v : Z) : Z := v mod 2 ^ 32.
Definition int32 (v : Z) : Z := (v + 2 ^ 31) mod 2 ^ 32 - 2 ^ 31.

(** [None] is the refused code, with which the source returns 0. *)
Definition CanonicalExitCode (code : Z) : option Z :=
  if (minSignedProcessExitCode <=? code) && (code <=? maxSignedProcessExitCode) then Some code
  else if (maxSignedProcessExitCode <? code) && (code <=? maxLegacyWindowsExitCode)
  then Some (int32 (uint32 code))
  else None.

(** [FailureTermination.Canonical]. *)
Definition term_Canonical (t : FailureTermination) : FailureTermination :=
  match t_ExitCode t with
  | None => t
  | Some old =>
      match CanonicalExitCode old with
      | None => t
      | Some code => if code =? old then t else mkTerm (t_Kind t) (Some code) (t_Signal t) (t_TimeoutMillis t)
      end
  end.

Definition Structured (t : FailureTermination) : bool :=
  if String.eqb (t_Kind t) TerminationExit then match t_ExitCode t with Some _ => true | None => false end
  else if String.eqb (t_Kind t) TerminationSignal then negb (String.eqb (TrimSpace (t_Signal t)) "")
  else String.eqb (t_Kind t) TerminationTimeout || String.eqb (t_Kind t) TerminationProcessStartFailed.

Definition FingerprintCoordinate (t : FailureTermination) : string :=
  if String.eqb (t_Kind t) TerminationExit then
    match t_ExitCode t with None => "exit:unknown" | Some code => "exit:" +:+ Itoa code end
  else if String.eqb (t_Kind t) TerminationSignal then "signal:" +:+ ToUpper (TrimSpace (t_Signal t))
  else if String.eqb (t_Kind t) TerminationTimeout then
    if 0 <? t_TimeoutMillis t then "timeout:" +:+ Itoa (t_TimeoutMillis t) +:+ "ms" else "timeout"
  else if String.eqb (t_Kind t) TerminationProcessStartFailed then TerminationProcessStartFailed
  else "unknown".

(** ** Fingerprints *)

Definition FailureFingerprint (stage : string) (term : FailureTermination) (errorCode errorSummary : string) : string :=
  SHA256Hex ("v2|" +:+ stage +:+ "|" +:+ FingerprintCoordinate term +:+ "|" +:+ errorCode +:+ "|" +:+ errorSummary).

Definition ClassifiedFailureFingerprint (stage actualToolchain : string) (term : FailureTermination)
    (errorCode errorSummary : string) : string :=
  SHA256Hex ("v3|" +:+ stage +:+ "|" +:+ ToLower (TrimSpace actualToolchain) +:+ "|"
             +:+ FingerprintCoordinate term +:+ "|" +:+ errorCode +:+ "|" +:+ errorSummary).

Definition batch_term (b : ObservationBatch) (code : option Z) : FailureTermination :=
  mkTerm (b_TerminationKind b) code (b_Signal b) (b_TimeoutMillis b).

(** The digest the batch's contract prescribes for a termination. *)
Definition batch_fingerprint (b : ObservationBatch) (term : FailureTermination) : string :=
  if negb (String.eqb (b_ActualToolchain b) "")
  then ClassifiedFailureFingerprint (b_Stage b) (b_ActualToolchain b) term (b_ErrorCode b) (b_ErrorSummary b)
  else FailureFingerprint (b_Stage b) term (b_ErrorCode b) (b_ErrorSummary b).

(** Modern evidence: the fingerprint is derived from the termination. *)
Definition derived_fingerprint (b : ObservationBatch) : bool :=
  negb (String.eqb (b_ErrorFingerprint b) "")
  && (String.eqb (b_EvidenceQuality b) EvidenceComplete || String.eqb (b_EvidenceQuality b) EvidencePartial).

Definition CanonicalizeObservationFailure (b : ObservationBatch) : ObservationBatch :=
  match b_ExitCode b with
  | None => b
  | Some old =>
      match CanonicalExitCode old with
      | None => b
      | Some code =>
          if code =? old then b
          else if derived_fingerprint b
                  && negb (String.eqb (b_ErrorFingerprint b) (batch_fingerprint b (batch_term b (Some old))))
          then b
          else set_failure (if derived_fingerprint b then batch_fingerprint b (batch_term b (Some code))
                            else b_ErrorFingerprint b) (Some code) b
      end
  end.

(** ** Properties *)

#[local] Ltac Zify.zify_post_hook ::= Z.to_euclidean_division_equations.

Lemma CanonicalExitCode_facts code code' : CanonicalExitCode code = Some code' ->
  minSignedProcessExitCode <= code' <= maxSignedProcessExitCode
  /\ (code' - code) mod 2 ^ 32 = 0 /\ CanonicalExitCode code' = Some code'.
Proof.
  unfold CanonicalExitCode, minSignedProcessExitCode, maxSignedProcessExitCode, maxLegacyWindowsExitCode,
    int32, uint32. intros H.
  assert (R : - 2 ^ 31 <= code' <= 2 ^ 31 - 1 /\ (code' - code) mod 2 ^ 32 = 0).
  { destruct (_ && _) eqn:E1 in H; [injection H as <-; split; [lia|by rewrite Z.sub_diag]|].
    destruct (_ && _) eqn:E2 in H; [|done]. injection H as <-. bool_facts. lia. }
  destruct R as [R M]. split; [done|]. split; [done|].
  destruct (_ && _) eqn:E in |- *; [done|]. lia.
Qed.

(** Exit codes: a status is accepted exactly when it is a signed or an
    unsigned 32-bit number; the canonical code is the signed 32-bit number
    with the same bits, and canonicalising again changes nothing. *)
Theorem CanonicalExitCode_spec code :
  (CanonicalExitCode code <> None <-> - 2 ^ 31 <= code < 2 ^ 32)
  /\ (forall code', CanonicalExitCode code = Some code' ->
        - 2 ^ 31 <= code' < 2 ^ 31 /\ (code' - code) mod 2 ^ 32 = 0
        /\ CanonicalExitCode code' = Some code')
  /\ (forall t, term_Canonical (term_Canonical t) = term_Canonical t).
Proof.
  split; [|split].
  - unfold CanonicalExitCode, minSignedProcessExitCode, maxSignedProcessExitCode, maxLegacyWindowsExitCode.
    destruct (_ && _) eqn:E1; [split; [lia|done]|]. destruct (_ && _) eqn:E2 in |- *; [split; [lia|done]|].
    split; [done|lia].
  - intros code' H. destruct (CanonicalExitCode_facts _ _ H) as (R & M & I).
    unfold minSignedProcessExitCode, maxSignedProcessExitCode in R. repeat split; [lia..|done|done].
  - intros t. unfold term_Canonical. destruct (t_ExitCode t) as [old|] eqn:E; [|by rewrite E].
    destruct (CanonicalExitCode old) as [c|] eqn:C; [|by rewrite E, C].
    destruct (c =? old) eqn:Q; [by rewrite E, C, Q|]. cbn [t_ExitCode].
    destruct (CanonicalExitCode_facts _ _ C) as (_ & _ & ->). by rewrite Z.eqb_refl.
Qed.

Lemma CanonicalExitCode_spec_witness :
  CanonicalExitCode 4294967295 = Some (-1) /\ CanonicalExitCode (-1) = Some (-1).
Proof.
  split; [vm_compute; reflexivity|].
  apply (proj1 (proj2 (CanonicalExitCode_spec 4294967295))). vm_compute. reflexivity.
Defined.

Lemma set_failure_same b : set_failure (b_ErrorFingerprint b) (b_ExitCode b) b = b.
Proof. by destruct b. Qed.

(** The three outcomes of the repair. *)
Lemma repair_cases b :
  let r := CanonicalizeObservationFailure b in
  (r = b /\ (derived_fingerprint b = true ->
             b_ErrorFingerprint b = batch_fingerprint b (batch_term b (b_ExitCode b)) ->
             t_ExitCode (term_Canonical (batch_term b (b_ExitCode b))) = b_ExitCode b))
  \/ (exists old code, b_ExitCode b = Some old /\ CanonicalExitCode old = Some code /\ code <> old
      /\ (derived_fingerprint b = true ->
          b_ErrorFingerprint b = batch_fingerprint b (batch_term b (Some old)))
      /\ r = set_failure (if derived_fingerprint b then batch_fingerprint b (batch_term b (Some code))
                          else b_ErrorFingerprint b) (Some code) b).
Proof.
  cbn zeta. unfold CanonicalizeObservationFailure.
  assert (T : forall x, t_ExitCode (batch_term b x) = x) by done.
  unfold term_Canonical. rewrite T.
  destruct (b_ExitCode b) as [old|] eqn:E; [|by left; auto].
  destruct (CanonicalExitCode old) as [code|] eqn:C; [|by left; auto].
  destruct (Z.eqb_spec code old) as [->|N]; [by left; auto|].
  destruct (derived_fingerprint b) eqn:D; cbn [andb].
  - destruct (String.eqb_spec (b_ErrorFingerprint b) (batch_fingerprint b (batch_term b (Some old)))) as [Q|Q];
      cbn [negb]; [right; exists old, code; by rewrite ?D|left]. split; [done|]. intros _ H. done.
  - right. exists old, code. by rewrite ?D.
Qed.

(** Repairing a batch with an unsigned exit code: the repair changes
    the exit code and its fingerprint and nothing else, is idempotent, keeps
    the code's 32 bits, turns a fingerprint that matches the old spelling
    into the one that matches the new, and leaves a batch alone whose
    fingerprint was not derived from its own termination. *)
Theorem CanonicalizeObservationFailure_spec b :
  let r := CanonicalizeObservationFailure b in
  r = set_failure (b_ErrorFingerprint r) (b_ExitCode r) b
  /\ CanonicalizeObservationFailure r = r
  /\ (derived_fingerprint b = true ->
      b_ErrorFingerprint b = batch_fingerprint b (batch_term b (b_ExitCode b)) ->
      b_ErrorFingerprint r = batch_fingerprint r (batch_term r (b_ExitCode r))
      /\ b_ExitCode r = t_ExitCode (term_Canonical (batch_term b (b_ExitCode b))))
  /\ (derived_fingerprint b = true ->
      b_ErrorFingerprint b <> batch_fingerprint b (batch_term b (b_ExitCode b)) -> r = b).
Proof.
  cbn zeta. destruct (repair_cases b) as [[E H]|(old & code & Eo & C & N & D & E)].
  - rewrite E, E. split; [by rewrite set_failure_same|]. split; [done|]. split; [|done].
    intros H1 H2. split; [done|]. symmetry. auto.
  - rewrite E. split; [done|]. split; [|split].
    + unfold CanonicalizeObservationFailure at 1. cbn [set_failure b_ExitCode].
      destruct (CanonicalExitCode_facts _ _ C) as (_ & _ & ->). by rewrite Z.eqb_refl.
    + intros H1 _. rewrite H1. split; [done|]. unfold term_Canonical, batch_term. cbn.
      rewrite Eo. cbn. rewrite C. by rewrite (proj2 (Z.eqb_neq code old) N).
    + intros H1 H2. rewrite Eo in H2. by apply D in H1.
Qed.

Definition batch_example : ObservationBatch :=
  let b := mkBatch 1 "2026-08-13" "anon" "bucket" "pkg:npm/left-pad@1.3.0" "" "" env_example "PROJECT_TEST"
    ResultFail 1 "?" "E1" TerminationExit (Some 4294967295) "" 0 "boom" EvidenceComplete "" "" "" "" ""
    true [] [] false in
  set_failure (batch_fingerprint b (batch_term b (Some 4294967295))) (b_ExitCode b) b.

Lemma CanonicalizeObservationFailure_spec_witness :
  b_ErrorFingerprint (CanonicalizeObservationFailure batch_example)
  = batch_fingerprint (CanonicalizeObservationFailure batch_example)
      (batch_term (CanonicalizeObservationFailure batch_example) (Some (-1))).
Proof.
  apply (proj1 (proj2 (proj2 (CanonicalizeObservationFailure_spec batch_example)))); vm_compute; reflexivity.
Defined.

(** ** Terminations are told apart *)

Definition known_kind (t : FailureTermination) : bool :=
  str_in (t_Kind t) [TerminationExit; TerminationSignal; TerminationTimeout; TerminationProcessStartFailed].

(** What distinguishes two terminations of one kind. *)
Definition same_ending (a b : FailureTermination) : Prop :=
  t_Kind a = t_Kind b
  /\ (t_Kind a = TerminationExit -> t_ExitCode a = t_ExitCode b)
  /\ (t_Kind a = TerminationSignal -> ToUpper (TrimSpace (t_Signal a)) = ToUpper (TrimSpace (t_Signal b)))
  /\ (t_Kind a = TerminationTimeout -> Z.max 0 (t_TimeoutMillis a) = Z.max 0 (t_TimeoutMillis b)).

Definition term_in_range (t : FailureTermination) : Prop :=
  in_int64 (t_TimeoutMillis t) /\ match t_ExitCode t with Some c => in_int64 c | None => True end.

Lemma Itoa_not_unknown n : in_int64 n -> Itoa n <> "unknown".
Proof. intros H E. apply Atoi_Itoa in H. rewrite E in H. vm_compute in H. congruence. Qed.

Lemma known_kind_cases t : known_kind t = true ->
  t_Kind t = TerminationExit \/ t_Kind t = TerminationSignal \/ t_Kind t = TerminationTimeout
  \/ t_Kind t = TerminationProcessStartFailed.
Proof. intros H. apply str_in_In in H. simpl in H. intuition. Qed.

Lemma FingerprintCoordinate_kind t : known_kind t = true ->
  (t_Kind t = TerminationExit /\ FingerprintCoordinate t
     = "exit:" +:+ match t_ExitCode t with None => "unknown" | Some c => Itoa c end)
  \/ (t_Kind t = TerminationSignal /\ FingerprintCoordinate t = "signal:" +:+ ToUpper (TrimSpace (t_Signal t)))
  \/ (t_Kind t = TerminationTimeout /\ FingerprintCoordinate t
      = "timeout" +:+ if 0 <? t_TimeoutMillis t then ":" +:+ Itoa (t_TimeoutMillis t) +:+ "ms" else "")
  \/ (t_Kind t = TerminationProcessStartFailed /\ FingerprintCoordinate t = TerminationProcessStartFailed).
Proof.
  intros H. unfold FingerprintCoordinate. destruct (known_kind_cases t H) as [-> | [-> | [-> | ->]]]; cbn.
  - left. split; [done|]. by destruct (t_ExitCode t).
  - right. left. done.
  - right. right. left. split; [done|]. by destruct (_ <? _).
  - do 3 right. done.
Qed.

Lemma str_app_inj_l a b c : a +:+ b = a +:+ c -> b = c.
Proof. induction a as [|x a IH]; [done|]. cbn. intros [= H]. auto. Qed.

(** Two terminations of a known kind have the same fingerprint
    coordinate exactly when they are the same ending: the same kind, and the
    same exit status, signal or timeout.  In particular "no exit status" is
    never confused with a status, and no two exit codes are. *)
Theorem FingerprintCoordinate_injective a b :
  known_kind a = true -> known_kind b = true -> term_in_range a -> term_in_range b ->
  (FingerprintCoordinate a = FingerprintCoordinate b <-> same_ending a b).
Proof.
  intros Ka Kb [Ta Ea] [Tb Eb]. unfold same_ending.
  destruct (FingerprintCoordinate_kind a Ka) as [[Qa ->]|[[Qa ->]|[[Qa ->]|[Qa ->]]]];
    destruct (FingerprintCoordinate_kind b Kb) as [[Qb ->]|[[Qb ->]|[[Qb ->]|[Qb ->]]]];
    rewrite Qa, Qb; (split; [intros H|intros (H & H1 & H2 & H3)]); try discriminate H;
    try (exfalso; revert H; cbn; congruence).
  - apply str_app_inj_l in H. repeat split; try done. intros _.
    destruct (t_ExitCode a) as [x|], (t_ExitCode b) as [y|]; [|by apply Itoa_not_unknown in H
      |by symmetry in H; apply Itoa_not_unknown in H|done]. f_equal. by apply Itoa_inj.
  - by rewrite H1.
  - apply str_app_inj_l in H. done.
  - by rewrite H2.
  - apply str_app_inj_l in H. repeat split; try done. intros _.
    destruct (Z.ltb_spec 0 (t_TimeoutMillis a)), (Z.ltb_spec 0 (t_TimeoutMillis b)); try done; [|lia].
    apply str_app_inj_l in H. assert (Itoa (t_TimeoutMillis a) = Itoa (t_TimeoutMillis b)) as H'.
    { apply (f_equal (fun s => str_take (String.length s - 2) s)) in H. rewrite !str_len_app in H.
      cbn [String.length] in H. rewrite !Nat.add_sub, !str_take_app in H. done. }
    apply Itoa_inj in H'; [lia|done|done].
  - specialize (H3 eq_refl). destruct (Z.ltb_spec 0 (t_TimeoutMillis a)), (Z.ltb_spec 0 (t_TimeoutMillis b));
      try lia; [|done]. by replace (t_TimeoutMillis a) with (t_TimeoutMillis b) by lia.
  - done.
  - done.
Qed.

Lemma FingerprintCoordinate_injective_witness :
  same_ending (mkTerm TerminationSignal None " sigkill " 0) (mkTerm TerminationSignal (Some 1) "SIGKILL" 7).
Proof.
  apply FingerprintCoordinate_injective; try (vm_compute; reflexivity);
    (split; [|exact I || idtac]; vm_compute; split; discriminate).
Defined.
