(* ===== verification/Experience.v ===== *)
(** * CLI execution experience (internal/domain/experience.go)

    Observations of command runs: their content ids, the compression of
    repeated runs into counts, the detection of version and OS boundaries,
    the ranking of observations for a question, and the summary an agent is
    given. *)

From S2P Require Import Prelude GoStrings GoUnicode GoStd StringFacts UnicodeFacts WordFacts Hash Json.
From S2P Require Import Purl Env Targets Cli CliSubject Failure.

(** ** Data *)

Record CLIStreamEvidence := mkStream {
  st_Fingerprint : string;
  st_Excerpt : string;
  st_Truncated : bool
}.

Record CLIExperienceObservation := mkObs {
  o_ID : string;
  o_Coordinate : CLIExperienceCoordinate;
  o_Provenance : string;
  o_Result : string;
  o_Stage : string;
  o_Termination : FailureTermination;
  o_ErrorFingerprint : string;
  o_ErrorCode : string;
  o_ErrorSummary : string;
  o_EvidenceQuality : string;
  o_OuterStage : string;
  o_ActualToolchain : string;
  o_StageEvidence : string;
  o_FailureEvidenceGap : string;
  o_ObservedAt : string;
  o_StartedAt : string;
  o_FinishedAt : string;
  o_EnvironmentID : string;
  o_Stdout : CLIStreamEvidence;
  o_Stderr : CLIStreamEvidence;
  o_Count : Z;
  o_IsHighInformation : bool
}.

(** Assignment to the fields the program updates. *)
Definition obs_update (id : string) (coordinate : CLIExperienceCoordinate) (observedAt : string) (count : Z)
    (high : bool) (o : CLIExperienceObservation) : CLIExperienceObservation :=
  mkObs id coordinate (o_Provenance o) (o_Result o) (o_Stage o) (o_Termination o) (o_ErrorFingerprint o)
    (o_ErrorCode o) (o_ErrorSummary o) (o_EvidenceQuality o) (o_OuterStage o) (o_ActualToolchain o)
    (o_StageEvidence o) (o_FailureEvidenceGap o) observedAt (o_StartedAt o) (o_FinishedAt o)
    (o_EnvironmentID o) (o_Stdout o) (o_Stderr o) count high.

Definition set_ID (id : string) (o : CLIExperienceObservation) :=
  obs_update id (o_Coordinate o) (o_ObservedAt o) (o_Count o) (o_IsHighInformation o) o.
Definition set_Coordinate (c : CLIExperienceCoordinate) (o : CLIExperienceObservation) :=
  obs_update (o_ID o) c (o_ObservedAt o) (o_Count o) (o_IsHighInformation o) o.
Definition set_run (observedAt : string) (count : Z) (high : bool) (o : CLIExperienceObservation) :=
  obs_update (o_ID o) (o_Coordinate o) observedAt count high o.

Record ExperienceBoundary := mkBoundary {
  bd_Axis : string;
  bd_TransitionFrom : string;
  bd_TransitionTo : string;
  bd_FromVerdict : string;
  bd_ToVerdict : string;
  bd_Explanation : string
}.

Record CLIAdaptableExperience := mkAdaptable {
  ad_Match : CLISubjectMatch;
  ad_Observation : CLIExperienceObservation
}.

Record CLIExperienceSummary := mkSummary {
  sm_Coordinate : CLIExperienceCoordinate;
  sm_Status : string;
  sm_RecentFailures : list CLIExperienceObservation;
  sm_RecentSuccesses : list CLIExperienceObservation;
  sm_Boundaries : list ExperienceBoundary;
  sm_FieldPassCount : Z;
  sm_FieldFailCount : Z;
  sm_FarmPassCount : Z;
  sm_FarmFailCount : Z;
  sm_Quality : string;
  sm_Subject : option CLISubject;
  sm_SubjectRef : string;
  sm_Adaptable : list CLIAdaptableExperience
}.

(** ** Identities *)

Definition term_json (t : FailureTermination) : json :=
  JObj (omit_str "kind" (t_Kind t)
    ++ (match t_ExitCode t with Some c => field "exitCode" (jint c) | None => [] end)
    ++ omit_str "signal" (t_Signal t)
    ++ omit_int "timeoutMillis" (t_TimeoutMillis t)).

(** [CLIExperienceObservation.ComputeID]; [omitempty] has no effect on the
    struct-valued termination. *)
Definition obs_ComputeID (o : CLIExperienceObservation) : string :=
  "cliobs:sha256:" +:+ sha256_hex (CanonicalJSON (JObj (
    field "coordId" (JStr (CoordinateID (o_Coordinate o)))
    ++ field "provenance" (JStr (o_Provenance o))
    ++ field "result" (JStr (o_Result o))
    ++ field "termination" (term_json (term_Canonical (o_Termination o)))
    ++ omit_str "errorFp" (o_ErrorFingerprint o)
    ++ omit_str "errorCode" (o_ErrorCode o)
    ++ omit_str "observedAt" (o_ObservedAt o)))).

Definition EvidenceID (o : CLIExperienceObservation) : string :=
  "clievidence:sha256:" +:+ sha256_hex (CanonicalJSON (JObj (
    field "coordinateId" (JStr (CoordinateID (o_Coordinate o)))
    ++ field "provenance" (JStr (o_Provenance o))
    ++ field "result" (JStr (o_Result o))
    ++ field "termination" (term_json (term_Canonical (o_Termination o)))
    ++ omit_str "errorFingerprint" (o_ErrorFingerprint o)
    ++ omit_str "stdoutFingerprint" (st_Fingerprint (o_Stdout o))
    ++ omit_str "stderrFingerprint" (st_Fingerprint (o_Stderr o))
    ++ omit_bool "stdoutTruncated" (st_Truncated (o_Stdout o))
    ++ omit_bool "stderrTruncated" (st_Truncated (o_Stderr o))
    ++ omit_str "evidenceQuality" (o_EvidenceQuality o)))).

(** ** Compression *)

Record groupKey := mkKey {
  gk_CoordID : string;
  gk_Provenance : string;
  gk_Result : string;
  gk_TermKind : string;
  gk_HasExitCode : bool;
  gk_ExitCode : Z;
  gk_Signal : string;
  gk_TimeoutMillis : Z;
  gk_ErrorFP : string;
  gk_ErrorCode : string
}.

#[export] Instance groupKey_eq_dec : EqDecision groupKey.
Proof. solve_decision. Defined.

Definition group_key (o : CLIExperienceObservation) : groupKey :=
  let term := term_Canonical (o_Termination o) in
  {| gk_CoordID := CoordinateID (o_Coordinate o);
     gk_Provenance := o_Provenance o;
     gk_Result := o_Result o;
     gk_TermKind := t_Kind term;
     gk_HasExitCode := match t_ExitCode term with Some _ => true | None => false end;
     gk_ExitCode := match t_ExitCode term with Some c => c | None => 0 end;
     gk_Signal := t_Signal term;
     gk_TimeoutMillis := t_TimeoutMillis term;
     gk_ErrorFP := o_ErrorFingerprint o;
     gk_ErrorCode := o_ErrorCode o |}.

Definition effective_count (o : CLIExperienceObservation) : Z := if o_Count o <=? 0 then 1 else o_Count o.

(** [groups] and [order] together: the entries of the map in the order their
    keys were first seen. *)
Definition grouped := list (groupKey * CLIExperienceObservation).

(** A new group: a copy of the observation. *)
Definition new_group (o : CLIExperienceObservation) : CLIExperienceObservation :=
  set_run (o_ObservedAt o) (effective_count o)
    (if String.eqb (o_Result o) ResultFail then true else o_IsHighInformation o) o.

(** The update of the existing entry through its pointer. *)
Definition merge_into (o existing : CLIExperienceObservation) : CLIExperienceObservation :=
  set_run (if str_lt (o_ObservedAt existing) (o_ObservedAt o) then o_ObservedAt o else o_ObservedAt existing)
    (wrap64 (o_Count existing + effective_count o))
    (if o_IsHighInformation o then true else o_IsHighInformation existing) existing.

Fixpoint add_observation (key : groupKey) (o : CLIExperienceObservation) (gs : grouped) : grouped :=
  match gs with
  | [] => [(key, new_group o)]
  | (k, existing) :: rest =>
      if decide (k = key) then (k, merge_into o existing) :: rest else (k, existing) :: add_observation key o rest
  end.

Definition group_all (observations : list CLIExperienceObservation) : grouped :=
  fold_left (fun gs o => add_observation (group_key o) o gs) observations [].

Definition finish (o : CLIExperienceObservation) : CLIExperienceObservation :=
  if String.eqb (o_ID o) "" then set_ID (obs_ComputeID o) o else o.

Definition CompressExperienceObservations (observations : list CLIExperienceObservation) :
    list CLIExperienceObservation :=
  map (fun g => finish (snd g)) (group_all observations).

(** ** Boundaries *)

(** Go's [fmt.Sprintf] of the explanations. *)
Definition version_explanation (tool currVerdict currVersion nextVerdict nextVersion failSummary : string) : string :=
  tool +:+ " was " +:+ currVerdict +:+ " at " +:+ currVersion +:+ ", changed to " +:+ nextVerdict +:+ " at "
  +:+ nextVersion
  +:+ (if String.eqb nextVerdict ResultFail && negb (String.eqb failSummary "")
       then " (" +:+ failSummary +:+ ")" else "").

Record outcome := mkOutcome {
  oc_name : string;
  oc_hasPass : bool;
  oc_hasFail : bool;
  oc_failSummary : string
}.

(** Group a list by a key: the entries of the map in first-seen order, each
    with its observations in input order. *)
Fixpoint add_bucket {K} `{EqDecision K} {A} (k : K) (x : A) (m : list (K * list A)) : list (K * list A) :=
  match m with
  | [] => [(k, [x])]
  | (k', xs) :: rest => if decide (k' = k) then (k', xs ++ [x])%list :: rest else (k', xs) :: add_bucket k x rest
  end.

Definition bucket_by {K} `{EqDecision K} {A} (key : A -> K) (l : list A) : list (K * list A) :=
  fold_left (fun m x => add_bucket (key x) x m) l [].

Record versionGroupKey := mkVKey { vk_Tool : string; vk_Subcommand : string; vk_ArgsPattern : string; vk_OS : string }.
#[export] Instance versionGroupKey_eq_dec : EqDecision versionGroupKey.
Proof. solve_decision. Defined.

Definition version_key (o : CLIExperienceObservation) : versionGroupKey :=
  mkVKey (co_Tool (o_Coordinate o)) (co_Subcommand (o_Coordinate o)) (co_ArgsPattern (o_Coordinate o))
    (env_OS (co_Environment (o_Coordinate o))).

(** One observation of a version or of an operating system: the first failure
    summary that is not empty is kept. *)
Definition add_outcome (vo : outcome) (o : CLIExperienceObservation) : outcome :=
  if String.eqb (o_Result o) ResultPass then mkOutcome (oc_name vo) true (oc_hasFail vo) (oc_failSummary vo)
  else if String.eqb (o_Result o) ResultFail then
    mkOutcome (oc_name vo) (oc_hasPass vo) true
      (if String.eqb (oc_failSummary vo) "" then o_ErrorSummary o else oc_failSummary vo)
  else vo.

Definition outcome_of (name : string) (os : list CLIExperienceObservation) : outcome :=
  fold_left add_outcome os (mkOutcome name false false "").

Definition outcomes_by (name : CLIExperienceObservation -> string) (bucket : list CLIExperienceObservation) :
    list outcome :=
  map (fun '(n, os) => outcome_of n os) (bucket_by name bucket).

(** [currVerdict]: empty when both outcomes were seen. *)
Definition verdict (vo : outcome) : string :=
  if oc_hasPass vo && negb (oc_hasFail vo) then ResultPass
  else if oc_hasFail vo && negb (oc_hasPass vo) then ResultFail
  else "".

Definition version_lt (a b : outcome) : bool := CompareVersions (oc_name a) (oc_name b) <? 0.

Definition version_boundary (tool : string) (curr next : outcome) : list ExperienceBoundary :=
  if negb (String.eqb (verdict curr) "") && negb (String.eqb (verdict next) "")
     && negb (String.eqb (verdict curr) (verdict next))
  then [mkBoundary "version" (oc_name curr) (oc_name next) (verdict curr) (verdict next)
          (version_explanation tool (verdict curr) (oc_name curr) (verdict next) (oc_name next) (oc_failSummary next))]
  else [].

Fixpoint adjacent_boundaries (tool : string) (vs : list outcome) : list ExperienceBoundary :=
  match vs with
  | curr :: ((next :: _) as rest) => (version_boundary tool curr next ++ adjacent_boundaries tool rest)%list
  | _ => []
  end.

(** The canonical observations, OS lower case, as grouping compares them. *)
Definition canonical_observation (o : CLIExperienceObservation) : CLIExperienceObservation :=
  let c := coord_Canonical (o_Coordinate o) in
  let env := co_Environment c in
  set_Coordinate (mkCoord (co_Tool c) (co_ToolVersion c) (co_Subcommand c) (co_ArgsPattern c) (co_Shell c)
                    (set_OS (ToLower (TrimSpace (env_OS env))) env)) o.

Definition obs_version (o : CLIExperienceObservation) : string := co_ToolVersion (o_Coordinate o).
Definition obs_os (o : CLIExperienceObservation) : string := env_OS (co_Environment (o_Coordinate o)).

Record osGroupKey := mkOKey { ok_Tool : string; ok_Subcommand : string; ok_ArgsPattern : string; ok_ToolVersion : string }.
#[export] Instance osGroupKey_eq_dec : EqDecision osGroupKey.
Proof. solve_decision. Defined.

Definition os_key (o : CLIExperienceObservation) : osGroupKey :=
  mkOKey (co_Tool (o_Coordinate o)) (co_Subcommand (o_Coordinate o)) (co_ArgsPattern (o_Coordinate o)) (obs_version o).

Definition has_version (o : CLIExperienceObservation) : bool := negb (String.eqb (obs_version o) "").
Definition has_version_and_os (o : CLIExperienceObservation) : bool :=
  negb (String.eqb (obs_version o) "" || String.eqb (obs_os o) "").

Definition os_explanation (k : osGroupKey) (from to failSummary : string) : string :=
  TrimSpace (ok_Tool k +:+ " " +:+ ok_Subcommand k) +:+ " " +:+ ok_ToolVersion k +:+ " was PASS on " +:+ from
  +:+ ", FAIL on " +:+ to
  +:+ (if negb (String.eqb failSummary "") then " (" +:+ failSummary +:+ ")" else "").

(** [byOS[to].failSummary]. *)
Definition summary_of (byOS : list outcome) (os : string) : string :=
  match List.find (fun oc => String.eqb (oc_name oc) os) byOS with Some oc => oc_failSummary oc | None => "" end.

Section Ordered.
Context `{GS : !GoSort} `{GM : !GoMapRange}.

Definition version_boundaries (bucket : list CLIExperienceObservation) : list ExperienceBoundary :=
  match bucket with
  | first :: _ :: _ =>
      let byVersion := outcomes_by obs_version bucket in
      if (length byVersion <? 2)%nat then []
      else adjacent_boundaries (co_Tool (o_Coordinate first)) (sort_slice version_lt (range_order byVersion))
  | _ => []
  end.

Definition os_group_boundaries (k : osGroupKey) (group : list CLIExperienceObservation) : list ExperienceBoundary :=
  let byOS := outcomes_by obs_os group in
  let ranged := range_order byOS in
  let passing := sort_strings (map oc_name (List.filter (fun oc => oc_hasPass oc && negb (oc_hasFail oc)) ranged)) in
  let failing := sort_strings (map oc_name (List.filter (fun oc => oc_hasFail oc && negb (oc_hasPass oc)) ranged)) in
  flat_map (fun from => map (fun to =>
    mkBoundary "os" from to ResultPass ResultFail (os_explanation k from to (summary_of byOS to))) failing) passing.

Definition detectOSBoundaries (observations : list CLIExperienceObservation) : list ExperienceBoundary :=
  flat_map (fun '(k, group) => os_group_boundaries k group)
    (bucket_by os_key (List.filter has_version_and_os observations)).

Definition DetectExperienceBoundaries (observations : list CLIExperienceObservation) : list ExperienceBoundary :=
  let observations := map canonical_observation observations in
  (flat_map (fun '(_, bucket) => version_boundaries bucket)
     (range_order (bucket_by version_key (List.filter has_version observations)))
   ++ detectOSBoundaries observations)%list.

(** ** Ranking *)

Definition score (tCanon : CLIExperienceCoordinate) (o : CLIExperienceObservation) : Z :=
  let oCanon := coord_Canonical (o_Coordinate o) in
  let points (b : bool) (n : Z) := if b then n else 0 in
  let same (a b : string) := String.eqb a b && negb (String.eqb a "") in
  points (same (co_Tool oCanon) (co_Tool tCanon)) 1000
  + points (same (co_Subcommand oCanon) (co_Subcommand tCanon)) 500
  + (if negb (String.eqb (co_ToolVersion oCanon) "") && negb (String.eqb (co_ToolVersion tCanon) "") then
       if String.eqb (co_ToolVersion oCanon) (co_ToolVersion tCanon) then 300
       else if CompareVersions (co_ToolVersion oCanon) (co_ToolVersion tCanon) =? 0 then 250 else 0
     else 0)
  + points (same (env_OS (co_Environment oCanon)) (env_OS (co_Environment tCanon))) 200
  + points (same (env_Arch (co_Environment oCanon)) (env_Arch (co_Environment tCanon))) 100
  + points (same (co_ArgsPattern oCanon) (co_ArgsPattern tCanon)) 150
  + points (o_IsHighInformation o) 50.

(** The order of [sort.Slice]: score, then time, then count, all descending. *)
Definition ranked_before (a b : CLIExperienceObservation * Z) : bool :=
  if negb (snd a =? snd b) then snd b <? snd a
  else if negb (String.eqb (o_ObservedAt (fst a)) (o_ObservedAt (fst b)))
  then str_lt (o_ObservedAt (fst b)) (o_ObservedAt (fst a))
  else o_Count (fst b) <? o_Count (fst a).

Definition RankExperienceObservations (target : CLIExperienceCoordinate)
    (observations : list CLIExperienceObservation) : list CLIExperienceObservation :=
  let tCanon := coord_Canonical target in
  map fst (sort_slice ranked_before (map (fun o => (o, score tCanon o)) observations)).

(** ** Summaries *)

Record tallies := mkTallies {
  fieldPass : Z; fieldFail : Z; farmPass : Z; farmFail : Z;
  failures : list CLIExperienceObservation;
  successes : list CLIExperienceObservation
}.

(** One turn of the loop over the ranked observations. *)
Definition tally (t : tallies) (o : CLIExperienceObservation) : tallies :=
  let pass := String.eqb (o_Result o) ResultPass in
  let add (b : bool) (n : Z) := if b then wrap64 (n + o_Count o) else n in
  let field_ := String.eqb (o_Provenance o) ProvenanceField in
  let farm := negb field_ && String.eqb (o_Provenance o) ProvenanceFarm in
  let isFail := String.eqb (o_Result o) ResultFail && (length (failures t) <? 2)%nat in
  {| fieldPass := add (field_ && pass) (fieldPass t);
     fieldFail := add (field_ && negb pass) (fieldFail t);
     farmPass := add (farm && pass) (farmPass t);
     farmFail := add (farm && negb pass) (farmFail t);
     failures := if isFail then (failures t ++ [o])%list else failures t;
     successes := if negb isFail && pass && (length (successes t) <? 2)%nat
                  then (successes t ++ [o])%list else successes t |}.

Definition status_of (totalPass totalFail : Z) : string :=
  if (0 <? totalPass) && (0 <? totalFail) then "COEXISTING_BOUNDARY"
  else if 0 <? totalFail then "OBSERVED_FAIL"
  else if 0 <? totalPass then "OBSERVED_PASS"
  else "UNOBSERVED".

Definition quality_of (farm field_ : Z) : string :=
  if (0 <? farm) && (0 <? field_) then "HIGH"
  else if 3 <=? field_ then "HIGH"
  else if (0 <? field_) || (0 <? farm) then "MEDIUM"
  else "LOW".

Definition summarizeExperience (canon : CLIExperienceCoordinate)
    (relevant boundaryCandidates : list CLIExperienceObservation) : CLIExperienceSummary :=
  let boundaries := DetectExperienceBoundaries (CompressExperienceObservations boundaryCandidates) in
  let ranked := RankExperienceObservations canon (CompressExperienceObservations relevant) in
  match ranked with
  | [] => mkSummary canon "UNOBSERVED" [] [] boundaries 0 0 0 0 "UNOBSERVED" None "" []
  | _ =>
      let t := fold_left tally ranked (mkTallies 0 0 0 0 [] []) in
      mkSummary canon
        (status_of (wrap64 (fieldPass t + farmPass t)) (wrap64 (fieldFail t + farmFail t)))
        (failures t) (successes t) boundaries (fieldPass t) (fieldFail t) (farmPass t) (farmFail t)
        (quality_of (wrap64 (farmPass t + farmFail t)) (wrap64 (fieldPass t + fieldFail t)))
        None "" []
  end.

Definition BuildExperienceSummary (target : CLIExperienceCoordinate)
    (observations : list CLIExperienceObservation) : CLIExperienceSummary :=
  let canon := coord_Canonical target in
  let boundaryCandidates := List.filter (fun o =>
    let c := coord_Canonical (o_Coordinate o) in
    String.eqb (co_Tool c) (co_Tool canon) && String.eqb (co_Subcommand c) (co_Subcommand canon)
    && String.eqb (co_ArgsPattern c) (co_ArgsPattern canon)) observations in
  let relevant := List.filter (fun o => MatchesExactCoordinate canon (o_Coordinate o)) observations in
  summarizeExperience canon relevant boundaryCandidates.

Definition QueryCLIExperience (target : CLIExperienceCoordinate) (corpus : list CLIExperienceObservation) :
    CLIExperienceSummary := BuildExperienceSummary target corpus.

(** The last match recorded under a coordinate id: a later row overwrites. *)
Definition match_by_id (rows : list CLIAdaptableExperience) (id : string) : CLISubjectMatch :=
  match List.find (fun r => String.eqb (CoordinateID (o_Coordinate (ad_Observation r))) id) (rev rows) with
  | Some r => ad_Match r
  | None => mkMatch GradeNoSafeMatch [] []
  end.

Definition CompressAdaptableExperience (rows : list CLIAdaptableExperience) : list CLIAdaptableExperience :=
  map (fun o => mkAdaptable (match_by_id rows (CoordinateID (o_Coordinate o))) o)
    (CompressExperienceObservations (map ad_Observation rows)).

Definition set_subject (subject : CLISubject) (ref : string) (adaptable : list CLIAdaptableExperience)
    (s : CLIExperienceSummary) : CLIExperienceSummary :=
  mkSummary (sm_Coordinate s) (sm_Status s) (sm_RecentFailures s) (sm_RecentSuccesses s) (sm_Boundaries s)
    (sm_FieldPassCount s) (sm_FieldFailCount s) (sm_FarmPassCount s) (sm_FarmFailCount s) (sm_Quality s)
    (Some subject) ref adaptable.

Definition BuildSubjectExperienceSummary (target : CLISubject) (observations : list CLIExperienceObservation) :
    CLIExperienceSummary :=
  let subject := subject_Canonical target in
  let graded := map (fun o => (MatchCLISubject subject (coord_Subject (o_Coordinate o)), o)) observations in
  let counts m := bool_decide (m_Grade m = GradeExact) || bool_decide (m_Grade m = GradeCompatible) in
  let adapts m := bool_decide (m_Grade m = GradeAdaptationRequired) in
  let relevant := map snd (List.filter (fun g => counts (fst g)) graded) in
  let sameCommand := map snd (List.filter (fun g => counts (fst g) || adapts (fst g)) graded) in
  let adaptable := map (fun g => mkAdaptable (fst g) (snd g)) (List.filter (fun g => adapts (fst g)) graded) in
  let coord := match relevant with
               | first :: _ => coord_Canonical (o_Coordinate first)
               | [] => subject_Coordinate subject
               end in
  set_subject subject (Ref subject) (CompressAdaptableExperience adaptable)
    (summarizeExperience coord relevant sameCommand).
End Ordered.

(** ** Laws of the compression *)

(** Proofs treat the digest as a black box. *)
#[local] Opaque sha256_hex CanonicalJSON.

(** The keys in first-seen order, each once. *)
Fixpoint distinct {K} `{EqDecision K} (l : list K) : list K :=
  match l with
  | [] => []
  | k :: rest => k :: List.filter (fun k' => bool_decide (k' <> k)) (distinct rest)
  end.

Definition group_of (k : groupKey) (l : list CLIExperienceObservation) : list CLIExperienceObservation :=
  List.filter (fun o => bool_decide (group_key o = k)) l.

(** The latest of the timestamps. *)
Definition later (a b : string) : string := if str_lt a b then b else a.

Definition total_count (l : list CLIExperienceObservation) : Z := foldr (fun o n => effective_count o + n) 0 l.

(** What one row of the result says of a whole group. *)
Definition merged (group : list CLIExperienceObservation) : option CLIExperienceObservation :=
  match group with
  | [] => None
  | first :: rest =>
      Some (set_run (fold_left later (map o_ObservedAt rest) (o_ObservedAt first))
              (wrap64 (total_count group))
              (String.eqb (o_Result first) ResultFail || existsb o_IsHighInformation group) first)
  end.

Definition counts_in_range (l : list CLIExperienceObservation) : Prop := Forall (fun o => in_int64 (o_Count o)) l.

Lemma effective_count_range o : in_int64 (o_Count o) -> 1 <= effective_count o <= int64_max.
Proof. unfold in_int64, effective_count, int64_max. destruct (Z.leb_spec (o_Count o) 0); lia. Qed.

Lemma elem_of_distinct {K} `{EqDecision K} (l : list K) k : In k (distinct l) <-> In k l.
Proof.
  induction l as [|x l IH]; [done|]. cbn [distinct In]. rewrite List.filter_In, bool_decide_eq_true, IH.
  destruct (decide (k = x)) as [->|]; intuition.
Qed.

Lemma distinct_nodup {K} `{EqDecision K} (l : list K) : List.NoDup (distinct l).
Proof.
  induction l as [|x l IH]; constructor.
  - rewrite List.filter_In, bool_decide_eq_true. tauto.
  - by apply List.NoDup_filter.
Qed.

Lemma distinct_snoc {K} `{EqDecision K} (l : list K) x :
  distinct (l ++ [x]) = if decide (x ∈ l) then distinct l else (distinct l ++ [x])%list.
Proof.
  induction l as [|y l IH]; [done|]. cbn [app distinct]. rewrite IH.
  destruct (decide (x ∈ l)) as [I|I].
  - by rewrite decide_True by (by right).
  - rewrite List.filter_app. cbn [List.filter].
    destruct (decide (x = y)) as [->|N].
    + rewrite bool_decide_false by tauto. rewrite app_nil_r. by rewrite decide_True by (by left).
    + rewrite bool_decide_true by done. rewrite decide_False; [done|]. rewrite elem_of_cons. tauto.
Qed.

Lemma group_of_snoc k l o :
  group_of k (l ++ [o]) = if decide (group_key o = k) then (group_of k l ++ [o])%list else group_of k l.
Proof.
  unfold group_of. rewrite List.filter_app. cbn [List.filter].
  destruct (decide (group_key o = k)) as [E|N]; [by rewrite bool_decide_true|].
  by rewrite bool_decide_false, app_nil_r.
Qed.

Lemma total_count_app a b : total_count (a ++ b) = total_count a + total_count b.
Proof. unfold total_count. induction a as [|o a IH]; cbn; [done|]. rewrite IH. lia. Qed.

Lemma total_count_nonneg l : counts_in_range l -> Z.of_nat (length l) <= total_count l.
Proof.
  unfold counts_in_range, total_count. induction 1 as [|o l Ho _ IH]; [done|]. cbn [foldr length].
  pose proof (effective_count_range o Ho). lia.
Qed.

(** One more observation of a group. *)
Lemma merged_snoc first rest o g :
  merged (first :: rest) = Some g -> merged (first :: rest ++ [o]) = Some (merge_into o g).
Proof.
  unfold merged. intros [= <-]. f_equal. unfold merge_into, set_run, obs_update. cbn [o_ObservedAt o_Count o_IsHighInformation
    o_ID o_Coordinate o_Provenance o_Result o_Stage o_Termination o_ErrorFingerprint o_ErrorCode o_ErrorSummary
    o_EvidenceQuality o_OuterStage o_ActualToolchain o_StageEvidence o_FailureEvidenceGap o_StartedAt
    o_FinishedAt o_EnvironmentID o_Stdout o_Stderr]. f_equal.
  - rewrite map_app, fold_left_app. done.
  - change (first :: rest ++ [o])%list with ((first :: rest) ++ [o])%list. rewrite total_count_app.
    replace (total_count [o]) with (effective_count o) by (unfold total_count; cbn; lia). by rewrite wrap64_add_l.
  - cbn [existsb]. rewrite existsb_app. cbn [existsb]. rewrite orb_false_r.
    destruct (o_IsHighInformation o); [by rewrite !orb_true_r|by rewrite !orb_false_r].
Qed.

Lemma merged_single o : in_int64 (o_Count o) -> merged [o] = Some (new_group o).
Proof.
  intros H. unfold merged, new_group. f_equal. f_equal.
  - unfold total_count. cbn. rewrite Z.add_0_r. apply wrap64_id.
    pose proof (effective_count_range o H). unfold in_int64, int64_min, int64_max in *. lia.
  - cbn. rewrite orb_false_r. by destruct (String.eqb _ _).
Qed.

Lemma group_of_nonempty k l : k ∈ map group_key l -> exists first rest, group_of k l = first :: rest
  /\ group_key first = k.
Proof.
  intros H. apply list_elem_of_In, in_map_iff in H as (o & <- & Ho). unfold group_of.
  destruct (List.filter _ l) as [|x r] eqn:E.
  - assert (In o []) as []. rewrite <- E. apply List.filter_In. by rewrite bool_decide_true.
  - exists x, r. split; [done|]. assert (In x (x :: r)) as Hx by (by left). rewrite <- E in Hx.
    apply List.filter_In in Hx as [_ Hx]. by apply bool_decide_eq_true in Hx.
Qed.

Lemma group_of_none k l : k ∉ map group_key l -> group_of k l = [].
Proof.
  intros H. unfold group_of. destruct (List.filter _ l) as [|x r] eqn:E; [done|]. exfalso. apply H.
  assert (In x (x :: r)) as Hx by (by left). rewrite <- E in Hx. apply List.filter_In in Hx as [Hx K].
  apply bool_decide_eq_true in K. apply list_elem_of_In, in_map_iff. by exists x.
Qed.

Definition row_of (l : list CLIExperienceObservation) (k : groupKey) : grouped :=
  match merged (group_of k l) with Some g => [(k, g)] | None => [] end.

(** The rows of all groups, in first-seen order. *)
Definition rows (l : list CLIExperienceObservation) : grouped := flat_map (row_of l) (distinct (map group_key l)).

Lemma row_of_other l o k : group_key o <> k -> row_of (l ++ [o]) k = row_of l k.
Proof. intros N. unfold row_of. by rewrite group_of_snoc, decide_False. Qed.

Lemma row_of_same l o : group_key o ∈ map group_key l -> exists g,
  row_of l (group_key o) = [(group_key o, g)] /\ row_of (l ++ [o]) (group_key o) = [(group_key o, merge_into o g)].
Proof.
  intros H. destruct (group_of_nonempty _ _ H) as (first & rest & E & _). unfold row_of.
  rewrite group_of_snoc, decide_True, E by done. cbn [app]. destruct (merged (first :: rest)) as [g|] eqn:M; [|done].
  exists g. by rewrite (merged_snoc _ _ o g M).
Qed.

Lemma flat_map_ext_in {A B} (f g : A -> list B) l : (forall x, In x l -> f x = g x) -> flat_map f l = flat_map g l.
Proof.
  induction l as [|x l IH]; intros H; [done|]. cbn [flat_map]. rewrite (H x (or_introl eq_refl)), IH; [done|].
  intros y Hy. apply H. by right.
Qed.

(** Adding to a list of rows changes the row of the key only. *)
Lemma add_observation_rows ks l o : List.NoDup ks -> (forall k, In k ks -> k ∈ map group_key l) -> In (group_key o) ks ->
  add_observation (group_key o) o (flat_map (row_of l) ks) = flat_map (row_of (l ++ [o])) ks.
Proof.
  intros Hd Hk Ho. induction ks as [|k ks IH]; [done|].
  inversion Hd as [|? ? Hn Hd']; subst. cbn [flat_map].
  destruct (decide (group_key o = k)) as [<-|N].
  - destruct (row_of_same l o) as (g & -> & ->); [apply Hk; by left|].
    cbn [app add_observation]. rewrite decide_True by done. f_equal. symmetry. apply flat_map_ext_in.
    intros x Hx. apply row_of_other. intros E. apply Hn. by rewrite E.
  - rewrite row_of_other by done. destruct Ho as [Ho|Ho]; [by rewrite Ho in N|].
    specialize (IH Hd' (fun x Hx => Hk x (or_intror Hx)) Ho). unfold row_of at 1 3.
    destruct (merged (group_of k l)); cbn [app]; [|done]. cbn [add_observation].
    rewrite decide_False by congruence. by rewrite IH.
Qed.

Lemma add_observation_new key o gs : (forall g, In (key, g) gs -> False) ->
  add_observation key o gs = (gs ++ [(key, new_group o)])%list.
Proof.
  intros H. induction gs as [|[k g] gs IH]; [done|]. cbn [add_observation app].
  rewrite decide_False; [|intros ->; apply (H g); by left]. f_equal. apply IH. intros g' Hg. apply (H g'). by right.
Qed.

Lemma rows_key l k g : In (k, g) (rows l) -> k ∈ map group_key l.
Proof.
  unfold rows. intros (x & Hx & Hr)%in_flat_map. rewrite elem_of_distinct in Hx. unfold row_of in Hr.
  destruct (merged _); [|done]. destruct Hr as [[= -> ->]|[]]. by apply list_elem_of_In.
Qed.

(** The loop builds exactly the rows. *)
Lemma group_all_rows l : counts_in_range l -> group_all l = rows l.
Proof.
  induction l as [|o l IH] using rev_ind; intros H; [done|].
  apply Forall_app in H as [Hl Ho]. inversion Ho as [|? ? Ho' _]; subst.
  unfold group_all in *. rewrite fold_left_app, (IH Hl). cbn [fold_left]. unfold rows at 2.
  rewrite map_app. cbn [map]. rewrite distinct_snoc. destruct (decide (group_key o ∈ map group_key l)) as [I|I].
  - apply add_observation_rows; [apply distinct_nodup| |by rewrite elem_of_distinct; apply list_elem_of_In].
    intros k Hk. apply list_elem_of_In. by rewrite elem_of_distinct in Hk.
  - rewrite add_observation_new by (intros g Hg; apply I; by eapply rows_key).
    rewrite flat_map_app. cbn [flat_map]. rewrite app_nil_r. f_equal.
    + unfold rows. apply flat_map_ext_in. intros k Hk. symmetry. apply row_of_other. intros <-.
      apply I, list_elem_of_In. by rewrite elem_of_distinct in Hk.
    + unfold row_of. rewrite group_of_snoc, decide_True, group_of_none by done. cbn [app].
      by rewrite merged_single.
Qed.

Lemma finish_fields o : group_key (finish o) = group_key o /\ o_Count (finish o) = o_Count o
  /\ o_IsHighInformation (finish o) = o_IsHighInformation o /\ o_Result (finish o) = o_Result o
  /\ o_Provenance (finish o) = o_Provenance o /\ o_ID (finish o) <> "".
Proof.
  unfold finish. destruct (String.eqb_spec (o_ID o) "") as [E|N]; [|repeat split; exact N].
  repeat split. unfold set_ID, obs_update, obs_ComputeID. cbn [o_ID]. discriminate.
Qed.

Lemma merged_fields group g : merged group = Some g ->
  group_key g = group_key (hd g group) /\ o_Result g = o_Result (hd g group)
  /\ o_Provenance g = o_Provenance (hd g group) /\ o_Count g = wrap64 (total_count group)
  /\ o_IsHighInformation g = (String.eqb (o_Result g) ResultFail || existsb o_IsHighInformation group).
Proof. destruct group as [|first rest]; [done|]. intros [= <-]. done. Qed.

Lemma compress_row l o' : counts_in_range l -> In o' (CompressExperienceObservations l) <->
  exists g, merged (group_of (group_key g) l) = Some g /\ o' = finish g /\ group_key g ∈ map group_key l.
Proof.
  intros H. unfold CompressExperienceObservations. rewrite group_all_rows by done. rewrite in_map_iff. split.
  - intros ([k g] & <- & Hg). pose proof (rows_key _ _ _ Hg) as Hk. unfold rows in Hg.
    apply in_flat_map in Hg as (k' & _ & Hr). unfold row_of in Hr.
    destruct (merged (group_of k' l)) as [g'|] eqn:M; [|done]. destruct Hr as [[= -> ->]|[]].
    exists g. assert (group_key g = k) as ->; [|done].
    destruct (group_of_nonempty k l Hk) as (first & rest & E & Ek). rewrite E in M.
    apply merged_fields in M as (-> & _). exact Ek.
  - intros (g & M & -> & Hk). exists (group_key g, g). split; [done|]. unfold rows. apply in_flat_map.
    exists (group_key g). split; [rewrite elem_of_distinct; by apply list_elem_of_In|].
    unfold row_of. rewrite M. by left.
Qed.

Definition sum_counts (gs : list CLIExperienceObservation) : Z := foldr (fun o n => o_Count o + n) 0 gs.

Lemma add_observation_total key o gs :
  wrap64 (sum_counts (map snd (add_observation key o gs))) = wrap64 (effective_count o + sum_counts (map snd gs)).
Proof.
  induction gs as [|[k g] gs IH]; [done|]. cbn [add_observation].
  destruct (decide (k = key)) as [_|_].
  - cbn. rewrite wrap64_add_l. f_equal. lia.
  - cbn [map snd sum_counts foldr]. fold (sum_counts (map snd (add_observation key o gs))) (sum_counts (map snd gs)).
    rewrite <- wrap64_add_r, IH, wrap64_add_r. f_equal. lia.
Qed.

Lemma compress_total l :
  wrap64 (sum_counts (CompressExperienceObservations l)) = wrap64 (total_count l).
Proof.
  assert (F : sum_counts (CompressExperienceObservations l) = sum_counts (map snd (group_all l))).
  { unfold CompressExperienceObservations, sum_counts. induction (group_all l) as [|[k g] gs IH]; [done|].
    cbn [map foldr snd]. rewrite IH. by destruct (finish_fields g) as (_ & -> & _). }
  rewrite F. clear F. unfold group_all. induction l as [|o l IH] using rev_ind; [done|].
  rewrite fold_left_app, total_count_app. cbn [fold_left]. rewrite add_observation_total.
  rewrite <- wrap64_add_r, IH, wrap64_add_r. f_equal. unfold total_count. cbn. lia.
Qed.

Lemma compress_keys l : counts_in_range l ->
  map group_key (CompressExperienceObservations l) = distinct (map group_key l).
Proof.
  intros H. unfold CompressExperienceObservations. rewrite group_all_rows, map_map by done. unfold rows.
  assert (G : forall ks, (forall k, In k ks -> k ∈ map group_key l) ->
    map (fun g => group_key (finish (snd g))) (flat_map (row_of l) ks) = ks);
    [|apply G; intros k Hk; apply list_elem_of_In; by rewrite elem_of_distinct in Hk].
  induction ks as [|k ks IH]; intros Hk; [done|]. cbn [flat_map]. rewrite map_app, IH by (intros; apply Hk; by right).
  destruct (group_of_nonempty k l (Hk k (or_introl eq_refl))) as (first & rest & E & Ek).
  unfold row_of. rewrite E. destruct (merged (first :: rest)) as [g|] eqn:M; [|done]. cbn.
  apply merged_fields in M as (Kg & _). cbn in Kg. destruct (finish_fields g) as (-> & _). by rewrite Kg, Ek.
Qed.

(** A list without repeated keys is only finished. *)
Lemma group_all_nodup l : List.NoDup (map group_key l) ->
  group_all l = map (fun o => (group_key o, new_group o)) l.
Proof.
  unfold group_all. induction l as [|o l IH] using rev_ind; intros H; [done|].
  rewrite map_app in H. apply NoDup_app_remove_r in H as Hl. rewrite fold_left_app, (IH Hl). cbn [fold_left].
  rewrite add_observation_new, map_app; [done|]. intros g (x & Ex & Hx)%in_map_iff.
  apply (f_equal fst) in Ex. cbn [fst] in Ex.
  apply NoDup_remove_2 in H. apply H. rewrite app_nil_r, <- Ex. by apply in_map.
Qed.

(** Compression computes, group by group in first-seen order, the row
    that summarises the group: the fields of its first observation, the sum
    of the counts, the latest time, and whether the group is a failure or
    holds a high-information run.  The loop over a map of pointers refines
    this declarative description. *)
Theorem compress_refines_groups l : counts_in_range l ->
  CompressExperienceObservations l = map (fun g => finish (snd g)) (rows l).
Proof. intros H. unfold CompressExperienceObservations. by rewrite group_all_rows. Qed.

Definition obs_example (result : string) (count : Z) (at_ : string) : CLIExperienceObservation :=
  mkObs "" (mkCoord "git.exe" "2.51.0" "status" "--short" "bash" env_example) ProvenanceField result "PROJECT_PROCESS"
    (mkTerm TerminationExit (Some (if String.eqb result ResultFail then 1 else 0)) "" 0) "" "" "" "" "" "" "" ""
    at_ "" "" "" (mkStream "" "" false) (mkStream "" "" false) count false.

Definition obs_corpus : list CLIExperienceObservation :=
  [obs_example ResultPass 900 "2026-08-01T00:00:00Z"; obs_example ResultFail 0 "2026-08-02T00:00:00Z";
   obs_example ResultPass 99 "2026-08-03T00:00:00Z"].

Lemma compress_refines_groups_witness :
  CompressExperienceObservations obs_corpus = map (fun g => finish (snd g)) (rows obs_corpus)
  /\ map o_Count (CompressExperienceObservations obs_corpus) = [999; 1].
Proof.
  split; [|vm_compute; reflexivity]. apply compress_refines_groups.
  repeat constructor; vm_compute; discriminate.
Defined.

Lemma group_of_subset k l : counts_in_range l ->
  counts_in_range (group_of k l) /\ total_count (group_of k l) <= total_count l.
Proof.
  unfold counts_in_range, group_of, total_count. induction 1 as [|o l Ho Hl [IH1 IH2]]; [done|]. cbn [List.filter].
  pose proof (effective_count_range o Ho). destruct (bool_decide _); cbn [foldr]; (split; [auto|lia]).
Qed.

(** A finished row of the result is a fixed point. *)
Lemma compress_row_fixed l o' : counts_in_range l -> total_count l <= int64_max ->
  In o' (CompressExperienceObservations l) ->
  1 <= o_Count o' <= int64_max /\ finish (new_group o') = o'.
Proof.
  intros H T (g & M & -> & Hk)%compress_row; [|done].
  destruct (finish_fields g) as (_ & C & Hi & R & _ & I).
  destruct (group_of_subset (group_key g) l H) as [Hr Ht].
  destruct (group_of_nonempty _ _ Hk) as (first & rest & E & _).
  pose proof (total_count_nonneg _ Hr) as Hp. rewrite E in Hp at 1. cbn [length] in Hp.
  destruct (merged_fields _ _ M) as (_ & _ & _ & Cg & Hg).
  assert (Cr : 1 <= o_Count g <= int64_max).
  { rewrite Cg, wrap64_id; unfold in_int64, int64_min, int64_max in *; lia. }
  split; [by rewrite C|].
  assert (N : new_group (finish g) = finish g).
  { unfold new_group, effective_count. rewrite C, R, Hi, Hg. rewrite (proj2 (Z.leb_gt _ _)) by lia.
    assert ((if String.eqb (o_Result g) ResultFail then true
             else String.eqb (o_Result g) ResultFail || existsb o_IsHighInformation (group_of (group_key g) l))
            = o_IsHighInformation (finish g)) as ->.
    { rewrite Hi, Hg. by destruct (String.eqb _ _). }
    rewrite <- C. by destruct (finish g). }
  rewrite N. unfold finish at 1. by rewrite (proj2 (String.eqb_neq _ _) I).
Qed.

Lemma compress_counts l : counts_in_range l -> total_count l <= int64_max ->
  counts_in_range (CompressExperienceObservations l).
Proof.
  intros H T. apply List.Forall_forall. intros o' Ho.
  destruct (compress_row_fixed l o' H T Ho) as [C _]. unfold in_int64, int64_min, int64_max in *. lia.
Qed.

(** Compression keeps the evidence: one row per distinct outcome, in
    first-seen order; the total number of runs is unchanged; every failure is
    still there, as a row of its own outcome marked high-information, however
    many passes surround it; and compressing again changes nothing. *)
Theorem compress_preserves_evidence l : counts_in_range l -> total_count l <= int64_max ->
  let out := CompressExperienceObservations l in
  map group_key out = distinct (map group_key l)
  /\ wrap64 (sum_counts out) = total_count l
  /\ (forall o, In o l -> o_Result o = ResultFail ->
        exists o', In o' out /\ group_key o' = group_key o /\ o_Result o' = ResultFail
                   /\ o_IsHighInformation o' = true)
  /\ CompressExperienceObservations out = out.
Proof.
  intros H T. cbn zeta. pose proof (compress_keys l H) as K. split; [done|]. split; [|split].
  - rewrite compress_total. apply wrap64_id. pose proof (total_count_nonneg l H).
    unfold in_int64, int64_min, int64_max in *. lia.
  - intros o Ho Hf. assert (Hk : group_key o ∈ map group_key l) by (apply list_elem_of_In; by apply in_map).
    destruct (group_of_nonempty _ _ Hk) as (first & rest & E & Ek).
    destruct (merged (group_of (group_key o) l)) as [g|] eqn:M; [|by rewrite E in M].
    destruct (merged_fields _ _ M) as (Kg & Rg & _ & _ & Hg). rewrite E in Kg, Rg. cbn [hd] in Kg, Rg.
    assert (R : o_Result g = ResultFail) by (rewrite Rg, <- Hf; by apply (f_equal gk_Result) in Ek).
    destruct (finish_fields g) as (Fk & _ & Fh & Fr & _). exists (finish g). split; [|split; [|split]].
    + apply compress_row; [done|]. exists g. by rewrite Kg, Ek.
    + by rewrite Fk, Kg.
    + by rewrite Fr.
    + rewrite Fh, Hg, R. done.
  - unfold CompressExperienceObservations at 1. rewrite group_all_nodup, map_map by (rewrite K; apply distinct_nodup).
    transitivity (map (fun o => o) (CompressExperienceObservations l)); [|apply map_id].
    apply map_ext_in. intros o' Ho. cbn [snd]. by apply (compress_row_fixed l).
Qed.

Lemma compress_preserves_evidence_witness :
  exists o', In o' (CompressExperienceObservations obs_corpus)
    /\ o_Result o' = ResultFail /\ o_IsHighInformation o' = true.
Proof.
  destruct (proj1 (proj2 (proj2 (compress_preserves_evidence obs_corpus
    ltac:(repeat constructor; vm_compute; discriminate) ltac:(vm_compute; discriminate))))
    (obs_example ResultFail 0 "2026-08-02T00:00:00Z") ltac:(right; left; reflexivity) eq_refl)
    as (o' & H1 & _ & H2 & H3).
  exists o'. split; [exact H1|]. split; [exact H2|exact H3].
Defined.
