(* ===== verification/Summary.v ===== *)
(** * Ranking, boundaries and summaries: theorems

    What the ranking, the boundary detection and the summaries of
    [Experience] promise: nothing is lost or invented on the way from the
    recorded observations to what an agent reads. *)

From S2P Require Import Prelude GoStrings GoUnicode GoStd StringFacts UnicodeFacts WordFacts Hash Json.
From S2P Require Import Purl Env Targets Cli CliSubject Failure Experience.

#[local] Opaque sha256_hex CanonicalJSON.

(** ** Ranking *)

Definition cmp_ranked : CLIExperienceObservation * Z -> CLIExperienceObservation * Z -> Z :=
  cmp_then (cmp_flip (cmp_on snd cmp_Z))
    (cmp_then (cmp_flip (cmp_on (fun p => o_ObservedAt (fst p)) str_cmp))
       (cmp_flip (cmp_on (fun p => o_Count (fst p)) cmp_Z))).

Lemma cmp_Z_ltb a b : (cmp_Z a b <? 0) = (a <? b).
Proof. unfold cmp_Z. destruct (Z.ltb_spec a b); [done|]. by destruct (b <? a). Qed.

Lemma cmp_Z_eqb a b : (cmp_Z a b =? 0) = (a =? b).
Proof.
  unfold cmp_Z. destruct (Z.ltb_spec a b), (Z.ltb_spec b a), (Z.eqb_spec a b); try done; lia.
Qed.

Lemma str_cmp_eqb a b : (str_cmp a b =? 0) = String.eqb a b.
Proof.
  destruct (String.eqb_spec a b) as [->|N]; [by rewrite (cmp_refl (cmp:=str_cmp))|].
  apply Z.eqb_neq. intros E. by apply str_cmp_eq in E.
Qed.

Lemma ranked_before_less : less_of cmp_ranked ranked_before.
Proof.
  split; [unfold cmp_ranked; apply _|]. intros [a x] [b y].
  unfold ranked_before, cmp_ranked, cmp_then, cmp_flip, cmp_on. cbn [fst snd].
  rewrite cmp_Z_eqb, (Z.eqb_sym x y). destruct (Z.eqb_spec y x) as [->|N]; cbn [negb]; [|by rewrite cmp_Z_ltb].
  rewrite str_cmp_eqb, (String.eqb_sym (o_ObservedAt a)).
  destruct (String.eqb_spec (o_ObservedAt b) (o_ObservedAt a)); cbn [negb]; [by rewrite cmp_Z_ltb|done].
Qed.

(** [a] may stand before [b]: a higher score, then a later time, then a
    larger count. *)
Definition rank_le (canon : CLIExperienceCoordinate) (a b : CLIExperienceObservation) : Prop :=
  score canon b < score canon a
  \/ (score canon a = score canon b
      /\ (str_cmp (o_ObservedAt b) (o_ObservedAt a) < 0
          \/ (o_ObservedAt a = o_ObservedAt b /\ o_Count b <= o_Count a))).

Lemma cmp_ranked_le canon a b : cmp_ranked (a, score canon a) (b, score canon b) <= 0 -> rank_le canon a b.
Proof.
  unfold cmp_ranked, cmp_then, cmp_flip, cmp_on, rank_le. cbn [fst snd]. rewrite cmp_Z_eqb, str_cmp_eqb. intros H.
  destruct (Z.eqb_spec (score canon b) (score canon a)) as [E|N].
  - right. split; [done|]. destruct (String.eqb_spec (o_ObservedAt b) (o_ObservedAt a)) as [E'|N'].
    + right. split; [done|]. unfold cmp_Z in H. revert H. split_ifs; bool_facts; lia.
    + left. pose proof (str_cmp_eqb (o_ObservedAt b) (o_ObservedAt a)) as Q.
      rewrite (proj2 (String.eqb_neq _ _) N') in Q. apply Z.eqb_neq in Q. lia.
  - left. unfold cmp_Z in H. revert H. split_ifs; bool_facts; lia.
Qed.

(** Ranking loses and invents nothing: the result is a permutation of
    the observations, ordered by score, then by time, then by count, whatever
    order the unstable sort leaves equal rows in. *)
Theorem rank_permutation_and_order {GS : GoSort} target l :
  Permutation l (RankExperienceObservations target l)
  /\ StronglySorted (rank_le (coord_Canonical target)) (RankExperienceObservations target l).
Proof.
  unfold RankExperienceObservations. cbn zeta. set (canon := coord_Canonical target).
  set (scored := map (fun o => (o, score canon o)) l).
  pose proof (sort_slice_perm _ ranked_before scored) as P.
  pose proof (sort_slice_sorted _ ranked_before cmp_ranked scored ranked_before_less) as S. split.
  - rewrite <- P. unfold scored. rewrite map_map. cbn [fst]. by rewrite map_id.
  - assert (F : Forall (fun p => snd p = score canon (fst p)) (sort_slice ranked_before scored)).
    { eapply Permutation_Forall; [exact P|]. apply List.Forall_forall. by intros p (o & <- & _)%in_map_iff. }
    clear P. induction S as [|p ps S IH H]; cbn [map]; constructor; inversion F as [|? ? Hp Fps]; subst; [auto|].
    apply List.Forall_forall. intros b (q & <- & Hq)%in_map_iff.
    rewrite List.Forall_forall in H, Fps. specialize (H q Hq). specialize (Fps q Hq).
    apply cmp_ranked_le. destruct p, q. cbn in *. by subst.
Qed.

(** ** Tallies *)

Definition is_field (o : CLIExperienceObservation) : bool := String.eqb (o_Provenance o) ProvenanceField.
Definition is_farm (o : CLIExperienceObservation) : bool := String.eqb (o_Provenance o) ProvenanceFarm.
Definition is_pass (o : CLIExperienceObservation) : bool := String.eqb (o_Result o) ResultPass.
Definition is_fail (o : CLIExperienceObservation) : bool := String.eqb (o_Result o) ResultFail.

(** The runs of the observations that satisfy [p]. *)
Definition runs_where (p : CLIExperienceObservation -> bool) (l : list CLIExperienceObservation) : Z :=
  total_count (List.filter p l).

Definition counts_where (p : CLIExperienceObservation -> bool) (l : list CLIExperienceObservation) : Z :=
  sum_counts (List.filter p l).

Lemma counts_where_perm p l l' : Permutation l l' -> counts_where p l = counts_where p l'.
Proof.
  unfold counts_where, sum_counts. induction 1 as [|x l l' _ IH|x y l|l1 l2 l3 _ IH1 _ IH2]; cbn [List.filter].
  - done.
  - destruct (p x); cbn [foldr]; by rewrite IH.
  - destruct (p x), (p y); cbn [foldr]; lia.
  - congruence.
Qed.

(** A predicate that all runs of one group agree on. *)
Definition by_key (p : CLIExperienceObservation -> bool) : Prop :=
  forall a b, group_key a = group_key b -> p a = p b.

Lemma add_observation_where p key o gs : by_key p -> group_key o = key ->
  (forall k g, In (k, g) gs -> group_key g = k) ->
  wrap64 (counts_where p (map snd (add_observation key o gs)))
  = wrap64 ((if p o then effective_count o else 0) + counts_where p (map snd gs)).
Proof.
  intros Hp Ho Hk. unfold counts_where. induction gs as [|[k g] gs IH].
  - cbn [add_observation map snd List.filter].
    assert (p (new_group o) = p o) as -> by (by apply Hp). by destruct (p o).
  - cbn [add_observation]. destruct (decide (k = key)) as [->|N].
    + cbn [map snd List.filter]. assert (p (merge_into o g) = p g) as -> by (by apply Hp).
      assert (p o = p g) as -> by (apply Hp; rewrite Ho; symmetry; apply Hk; by left).
      destruct (p g); [|done]. cbn [sum_counts foldr]. unfold merge_into, set_run, obs_update. cbn [o_Count].
      rewrite wrap64_add_l. f_equal. lia.
    + cbn [map snd List.filter]. specialize (IH (fun k' g' H => Hk k' g' (or_intror H))).
      destruct (p g); [|done]. cbn [sum_counts foldr].
      fold (sum_counts (List.filter p (map snd (add_observation key o gs)))) (sum_counts (List.filter p (map snd gs))).
      rewrite <- wrap64_add_r, IH, wrap64_add_r. f_equal. lia.
Qed.

Lemma add_observation_keys key o gs : group_key o = key -> (forall k g, In (k, g) gs -> group_key g = k) ->
  forall k g, In (k, g) (add_observation key o gs) -> group_key g = k.
Proof.
  intros Ho Hk. induction gs as [|[k0 g0] gs IH]; intros k g; cbn [add_observation].
  - intros [E|[]]. apply pair_equal_spec in E as [<- <-]. exact Ho.
  - destruct (decide (k0 = key)) as [->|N]; intros [E|H].
    + apply pair_equal_spec in E as [<- <-]. change (group_key g0 = key). apply Hk. by left.
    + apply Hk. by right.
    + apply pair_equal_spec in E as [<- <-]. apply Hk. by left.
    + revert H. apply IH. intros k' g' H'. apply Hk. by right.
Qed.

Lemma compress_where p l : by_key p ->
  wrap64 (counts_where p (CompressExperienceObservations l)) = wrap64 (runs_where p l).
Proof.
  intros Hp.
  assert (F : counts_where p (CompressExperienceObservations l) = counts_where p (map snd (group_all l))).
  { unfold CompressExperienceObservations, counts_where. induction (group_all l) as [|[k g] gs IH]; [done|].
    cbn [map snd List.filter]. destruct (finish_fields g) as (K & C & _). rewrite (Hp _ _ K).
    destruct (p g); [|done]. cbn [sum_counts foldr]. rewrite C.
    fold (sum_counts (List.filter p (map (fun g => finish (snd g)) gs))). by rewrite IH. }
  rewrite F. clear F.
  assert (G : (forall k g, In (k, g) (group_all l) -> group_key g = k)
    /\ wrap64 (counts_where p (map snd (group_all l))) = wrap64 (runs_where p l)); [|apply G].
  induction l as [|o l [IHk IH]] using rev_ind; [done|].
  unfold group_all in *. rewrite fold_left_app. cbn [fold_left]. split.
  - by apply add_observation_keys.
  - rewrite add_observation_where by done. rewrite <- wrap64_add_r, IH, wrap64_add_r. f_equal.
    unfold runs_where. rewrite List.filter_app, total_count_app. cbn [List.filter].
    destruct (p o); unfold total_count; cbn [foldr]; lia.
Qed.

Lemma runs_where_le p l : counts_in_range l -> 0 <= runs_where p l <= total_count l.
Proof.
  unfold runs_where, counts_in_range, total_count. induction 1 as [|o l Ho _ IH]; [done|]. cbn [List.filter].
  pose proof (effective_count_range o Ho). destruct (p o); cbn [foldr]; lia.
Qed.

(** Counts of the compressed rows are the runs of the recorded ones. *)
Lemma compress_where_exact p l : by_key p -> counts_in_range l -> total_count l <= int64_max ->
  wrap64 (counts_where p (CompressExperienceObservations l)) = runs_where p l.
Proof.
  intros Hp H T. rewrite compress_where by done. apply wrap64_id. pose proof (runs_where_le p l H).
  unfold in_int64, int64_min, int64_max in *. lia.
Qed.

Definition tally0 : tallies := mkTallies 0 0 0 0 [] [].

Lemma tally_where (proj : tallies -> Z) (p : CLIExperienceObservation -> bool) l t :
  (forall t o, proj (tally t o) = if p o then wrap64 (proj t + o_Count o) else proj t) ->
  wrap64 (proj t) = proj t ->
  proj (fold_left tally l t) = wrap64 (proj t + counts_where p l).
Proof.
  intros Hs. unfold counts_where. revert t. induction l as [|o l IH]; intros t Ht.
  - cbn. by rewrite Z.add_0_r.
  - cbn [fold_left List.filter]. rewrite IH.
    + rewrite Hs. destruct (p o); [|done]. unfold sum_counts. cbn [foldr]. rewrite wrap64_add_l. f_equal. lia.
    + rewrite Hs. destruct (p o); [|done]. apply wrap64_id, wrap64_range.
Qed.

(** The rows an agent is shown: at most the first two of each kind. *)
Lemma tally_failures l t : (length (failures t) <= 2)%nat ->
  failures (fold_left tally l t) = take 2 (failures t ++ List.filter is_fail l).
Proof.
  revert t. induction l as [|o l IH]; intros t Ht; cbn [fold_left List.filter].
  - rewrite app_nil_r. by rewrite firstn_all2.
  - assert (E : failures (tally t o) = if is_fail o && (length (failures t) <? 2)%nat
                                       then (failures t ++ [o])%list else failures t) by done.
    destruct (is_fail o) eqn:F; cbn [andb] in E.
    + destruct (Nat.ltb_spec (length (failures t)) 2) as [L|L].
      * rewrite IH, E by (rewrite E, length_app; cbn; lia). by rewrite <- app_assoc.
      * rewrite IH, E by (by rewrite E). assert (length (failures t) = 2%nat) as L2 by lia.
        rewrite <- L2. by rewrite !take_app_length.
    + rewrite IH, E; [done|]. by rewrite E.
Qed.

Lemma tally_successes l t : (length (successes t) <= 2)%nat ->
  successes (fold_left tally l t) = take 2 (successes t ++ List.filter is_pass l).
Proof.
  revert t. induction l as [|o l IH]; intros t Ht; cbn [fold_left List.filter].
  - rewrite app_nil_r. by rewrite firstn_all2.
  - assert (E : successes (tally t o) = if is_pass o && (length (successes t) <? 2)%nat
                                        then (successes t ++ [o])%list else successes t).
    { unfold tally, is_pass. cbn [successes]. destruct (String.eqb_spec (o_Result o) ResultPass) as [->|]; [done|].
      by rewrite andb_false_r. }
    destruct (is_pass o) eqn:F; cbn [andb] in E.
    + destruct (Nat.ltb_spec (length (successes t)) 2) as [L|L].
      * rewrite IH, E by (rewrite E, length_app; cbn; lia). by rewrite <- app_assoc.
      * rewrite IH, E by (by rewrite E). assert (length (successes t) = 2%nat) as L2 by lia.
        rewrite <- L2. by rewrite !take_app_length.
    + rewrite IH, E; [done|]. by rewrite E.
Qed.

(** ** The summary *)

Definition field_pass o := is_field o && is_pass o.
Definition field_fail o := is_field o && negb (is_pass o).
Definition farm_pass o := is_farm o && is_pass o.
Definition farm_fail o := is_farm o && negb (is_pass o).

Lemma by_key_tallies : by_key field_pass /\ by_key field_fail /\ by_key farm_pass /\ by_key farm_fail.
Proof.
  assert (K : forall a b, group_key a = group_key b -> o_Provenance a = o_Provenance b /\ o_Result a = o_Result b).
  { intros a b E. split; [by apply (f_equal gk_Provenance) in E|by apply (f_equal gk_Result) in E]. }
  repeat split; intros a b E; destruct (K a b E) as [E1 E2];
    unfold field_pass, field_fail, farm_pass, farm_fail, is_field, is_farm, is_pass; by rewrite E1, E2.
Qed.

Lemma farm_not_field o : negb (is_field o) && is_farm o = is_farm o.
Proof. unfold is_field, is_farm. by destruct (String.eqb_spec (o_Provenance o) ProvenanceField) as [->|]. Qed.

Section summary.
Context `{GS : !GoSort} `{GM : !GoMapRange}.

Lemma ranked_tallies canon l : counts_in_range l -> total_count l <= int64_max ->
  let t := fold_left tally (RankExperienceObservations canon (CompressExperienceObservations l)) tally0 in
  fieldPass t = runs_where field_pass l /\ fieldFail t = runs_where field_fail l
  /\ farmPass t = runs_where farm_pass l /\ farmFail t = runs_where farm_fail l.
Proof.
  intros H T. cbn zeta. destruct by_key_tallies as (B1 & B2 & B3 & B4).
  assert (P : forall p, counts_where p (RankExperienceObservations canon (CompressExperienceObservations l))
                      = counts_where p (CompressExperienceObservations l)).
  { intros p. symmetry. apply counts_where_perm. unfold RankExperienceObservations. cbn zeta.
    rewrite <- sort_slice_perm, map_map. cbn [fst]. by rewrite map_id. }
  repeat split.
  - rewrite (tally_where fieldPass field_pass) by done. rewrite P. by apply compress_where_exact.
  - rewrite (tally_where fieldFail field_fail) by done. rewrite P. by apply compress_where_exact.
  - rewrite (tally_where farmPass farm_pass).
    + rewrite P. by apply compress_where_exact.
    + intros t o. unfold farm_pass. by rewrite <- farm_not_field.
    + done.
  - rewrite (tally_where farmFail farm_fail).
    + rewrite P. by apply compress_where_exact.
    + intros t o. unfold farm_fail. by rewrite <- farm_not_field.
    + done.
Qed.

(** The four kinds are disjoint, so their runs fit in the total. *)
Lemma runs_disjoint l : counts_in_range l ->
  0 <= runs_where field_pass l /\ 0 <= runs_where field_fail l /\ 0 <= runs_where farm_pass l
  /\ 0 <= runs_where farm_fail l
  /\ runs_where field_pass l + runs_where field_fail l + runs_where farm_pass l + runs_where farm_fail l
     <= total_count l.
Proof.
  unfold runs_where, counts_in_range, total_count. induction 1 as [|o l Ho _ IH]; [done|].
  pose proof (effective_count_range o Ho). pose proof (farm_not_field o) as F.
  unfold field_pass, field_fail, farm_pass, farm_fail in *. cbn [List.filter].
  destruct (is_field o), (is_farm o), (is_pass o); cbn [negb andb] in *; try discriminate F; cbn [foldr]; lia.
Qed.

Lemma compress_nil l : CompressExperienceObservations l = [] -> l = [].
Proof.
  unfold CompressExperienceObservations, group_all. induction l as [|o l _] using rev_ind; [done|].
  rewrite fold_left_app. cbn [fold_left]. generalize (fold_left (fun gs o => add_observation (group_key o) o gs) l ([] : grouped)).
  intros [|[k g] gs]; cbn [add_observation]; [done|]. by destruct (decide _).
Qed.

Lemma summarize_fields canon relevant cand :
  counts_in_range relevant -> total_count relevant <= int64_max ->
  let s := summarizeExperience canon relevant cand in
  let ranked := RankExperienceObservations canon (CompressExperienceObservations relevant) in
  sm_FieldPassCount s = runs_where field_pass relevant /\ sm_FieldFailCount s = runs_where field_fail relevant
  /\ sm_FarmPassCount s = runs_where farm_pass relevant /\ sm_FarmFailCount s = runs_where farm_fail relevant
  /\ sm_RecentFailures s = take 2 (List.filter is_fail ranked)
  /\ sm_RecentSuccesses s = take 2 (List.filter is_pass ranked)
  /\ sm_Status s = status_of (runs_where field_pass relevant + runs_where farm_pass relevant)
                     (runs_where field_fail relevant + runs_where farm_fail relevant).
Proof.
  intros H T. cbn zeta. unfold summarizeExperience. cbn zeta.
  pose proof (ranked_tallies canon relevant H T) as (E1 & E2 & E3 & E4).
  pose proof (tally_failures (RankExperienceObservations canon (CompressExperienceObservations relevant)) tally0
                ltac:(cbn; lia)) as E5.
  pose proof (tally_successes (RankExperienceObservations canon (CompressExperienceObservations relevant)) tally0
                ltac:(cbn; lia)) as E6.
  pose proof (runs_disjoint relevant H) as D.
  remember (RankExperienceObservations canon (CompressExperienceObservations relevant)) as ranked eqn:R.
  destruct ranked as [|x xs].
  - assert (relevant = []) as ->; [|done]. apply compress_nil.
    destruct (CompressExperienceObservations relevant) as [|o os]; [done|]. exfalso.
    pose proof (sort_slice_perm _ ranked_before (map (fun o => (o, score (coord_Canonical canon) o)) (o :: os))) as P.
    unfold RankExperienceObservations in R. cbn zeta in R. symmetry in R. apply map_eq_nil in R. rewrite R in P.
    by apply Permutation_sym, Permutation_nil in P.
  - cbn [sm_FieldPassCount sm_FieldFailCount sm_FarmPassCount sm_FarmFailCount sm_RecentFailures
         sm_RecentSuccesses sm_Status]. fold tally0. rewrite E1, E2, E3, E4, E5, E6.
    repeat split; [done..|]. rewrite !wrap64_id; [done|..];
      unfold in_int64, int64_min, int64_max in *; lia.
Qed.

Lemma runs_where_pos p l o : counts_in_range l -> In o l -> p o = true -> 0 < runs_where p l.
Proof.
  intros H Ho Hp. assert (In o (List.filter p l)) as Hi by (by apply List.filter_In).
  assert (counts_in_range (List.filter p l)) as Hr.
  { apply List.Forall_forall. intros x [Hx _]%List.filter_In. unfold counts_in_range in H.
    rewrite List.Forall_forall in H. auto. }
  apply total_count_nonneg in Hr. unfold runs_where. destruct (List.filter p l); [done|]. cbn [length] in Hr. lia.
Qed.

(** A summary counts everything that was recorded and hides no failure:
    the four tallies are the numbers of runs by source and outcome, the rows
    shown are the best-ranked two of each outcome, and a single failure from
    the field or the farm makes the status a failure or a coexisting
    boundary and is shown, however many passes there are. *)
Theorem summary_hides_no_failure canon relevant cand :
  counts_in_range relevant -> total_count relevant <= int64_max ->
  let s := summarizeExperience canon relevant cand in
  let ranked := RankExperienceObservations canon (CompressExperienceObservations relevant) in
  sm_FieldPassCount s = runs_where field_pass relevant /\ sm_FieldFailCount s = runs_where field_fail relevant
  /\ sm_FarmPassCount s = runs_where farm_pass relevant /\ sm_FarmFailCount s = runs_where farm_fail relevant
  /\ sm_RecentFailures s = take 2 (List.filter is_fail ranked)
  /\ sm_RecentSuccesses s = take 2 (List.filter is_pass ranked)
  /\ (forall o, In o relevant -> is_fail o = true -> is_field o = true \/ is_farm o = true ->
       (sm_Status s = "OBSERVED_FAIL" \/ sm_Status s = "COEXISTING_BOUNDARY") /\ sm_RecentFailures s <> []).
Proof.
  intros H T. cbn zeta. destruct (summarize_fields canon relevant cand H T) as (-> & -> & -> & -> & -> & -> & ->).
  do 6 (split; [done|]). intros o Ho Hf Hp. split.
  - assert (Np : is_pass o = false) by (unfold is_fail, is_pass in *; bool_facts; by rewrite Hf).
    assert (F : 0 < runs_where field_fail relevant + runs_where farm_fail relevant).
    { pose proof (runs_disjoint relevant H). destruct Hp as [Hp|Hp].
      - pose proof (runs_where_pos field_fail relevant o H Ho ltac:(unfold field_fail; by rewrite Hp, Np)). lia.
      - pose proof (runs_where_pos farm_fail relevant o H Ho ltac:(unfold farm_fail; by rewrite Hp, Np)). lia. }
    unfold status_of. rewrite (proj2 (Z.ltb_lt _ _) F), andb_true_r. destruct (_ <? _); auto.
  - assert (Hk : group_key o ∈ map group_key relevant) by (apply list_elem_of_In; by apply in_map).
    assert (I : In (group_key o) (map group_key (CompressExperienceObservations relevant))).
    { rewrite compress_keys, elem_of_distinct by done. by apply list_elem_of_In. }
    apply in_map_iff in I as (o' & Ko & Io).
    assert (In o' (List.filter is_fail (RankExperienceObservations canon (CompressExperienceObservations relevant)))) as J.
    { apply List.filter_In. split.
      - unfold RankExperienceObservations. cbn zeta. rewrite <- sort_slice_perm, map_map. cbn [fst]. by rewrite map_id.
      - apply (f_equal gk_Result) in Ko. cbn in Ko. unfold is_fail in *. by rewrite Ko. }
    by destruct (List.filter _ _).
Qed.
End summary.

Lemma summary_hides_no_failure_witness :
  let s := summarizeExperience (GS:=sort_by_insertion) (GM:=range_in_order) coord_example obs_corpus [] in
  sm_FieldPassCount s = 999 /\ sm_RecentFailures s <> [].
Proof.
  pose proof (summary_hides_no_failure (GS:=sort_by_insertion) (GM:=range_in_order) coord_example obs_corpus []
    ltac:(repeat constructor; vm_compute; discriminate) ltac:(vm_compute; discriminate)) as S.
  cbn zeta in *. destruct S as (S1 & _ & _ & _ & _ & _ & S7). split.
  - rewrite S1. vm_compute. reflexivity.
  - apply (S7 (obs_example ResultFail 0 "2026-08-02T00:00:00Z")); [right; left; reflexivity|reflexivity|left; reflexivity].
Defined.
