(* ===== verification/Boundaries.v ===== *)
(** * Behavioural boundaries: theorems

    The boundary detection of [Experience] reports exactly the changes of
    verdict that the observations show: between adjacent versions on one
    operating system, and between operating systems at one version. *)

From S2P Require Import Prelude GoStrings GoUnicode GoStd StringFacts UnicodeFacts WordFacts Hash Json.
From S2P Require Import Purl Env Targets Cli CliSubject Failure Experience Summary.

#[local] Opaque sha256_hex CanonicalJSON.

(** ** Buckets *)

Section buckets.
Context {K : Type} `{EqDecision K} {A : Type} (key : A -> K).

Definition members (k : K) (l : list A) : list A := List.filter (fun x => bool_decide (key x = k)) l.

Lemma members_snoc k l x :
  members k (l ++ [x]) = if decide (key x = k) then (members k l ++ [x])%list else members k l.
Proof.
  unfold members. rewrite List.filter_app. cbn [List.filter].
  destruct (decide (key x = k)); [by rewrite bool_decide_true|by rewrite bool_decide_false, app_nil_r].
Qed.

Lemma In_members x k l : In x (members k l) <-> In x l /\ key x = k.
Proof. unfold members. by rewrite List.filter_In, bool_decide_eq_true. Qed.

Lemma add_bucket_new k x (m : list (K * list A)) : (forall xs, ~ In (k, xs) m) ->
  add_bucket k x m = (m ++ [(k, [x])])%list.
Proof.
  induction m as [|[k' xs] m IH]; intros H; [done|]. cbn [add_bucket app].
  rewrite decide_False by (intros ->; apply (H xs); by left). f_equal. apply IH. intros ys Hy. apply (H ys). by right.
Qed.

Lemma add_bucket_members ks l x : List.NoDup ks -> In (key x) ks ->
  add_bucket (key x) x (map (fun k => (k, members k l)) ks) = map (fun k => (k, members k (l ++ [x]))) ks.
Proof.
  induction ks as [|k ks IH]; intros Hd Hi; [done|]. inversion Hd as [|? ? Hn Hd']; subst. cbn [map add_bucket].
  rewrite members_snoc. destruct (decide (key x = k)) as [<-|N].
  - rewrite decide_True by done. f_equal. apply map_ext_in. intros k Hk. rewrite members_snoc, decide_False; [done|].
    intros E. apply Hn. by rewrite E.
  - rewrite decide_False by congruence. f_equal. apply IH; [done|]. by destruct Hi.
Qed.

(** Grouping is: for each key in first-seen order, the members in order. *)
Lemma bucket_by_members l : bucket_by key l = map (fun k => (k, members k l)) (distinct (map key l)).
Proof.
  unfold bucket_by. induction l as [|x l IH] using rev_ind; [done|].
  rewrite fold_left_app, IH, map_app. cbn [fold_left map]. rewrite distinct_snoc.
  destruct (decide (key x ∈ map key l)) as [I|I].
  - apply add_bucket_members; [apply distinct_nodup|]. rewrite elem_of_distinct. by apply list_elem_of_In.
  - rewrite add_bucket_new, map_app.
    + f_equal.
      * apply map_ext_in. intros k Hk. rewrite elem_of_distinct in Hk. rewrite members_snoc, decide_False; [done|].
        intros E. apply I, list_elem_of_In. by rewrite E.
      * cbn [map]. rewrite members_snoc, decide_True by done.
        assert (members (key x) l = []) as ->; [|done]. unfold members.
        destruct (List.filter _ l) as [|y ys] eqn:E; [done|]. exfalso. apply I.
        assert (In y (members (key x) l)) as Hy by (unfold members; rewrite E; by left).
        apply In_members in Hy as [Hy Ey]. apply list_elem_of_In. rewrite <- Ey. by apply in_map.
    + intros xs (k & [= -> _] & Hk)%in_map_iff. rewrite elem_of_distinct in Hk. apply I. by apply list_elem_of_In.
Qed.

Lemma In_bucket_by k xs l : In (k, xs) (bucket_by key l) <-> xs = members k l /\ xs <> [].
Proof.
  rewrite bucket_by_members, in_map_iff. split.
  - intros (k' & [= -> <-] & Hk). split; [done|]. rewrite elem_of_distinct in Hk.
    apply in_map_iff in Hk as (x & <- & Hx). intros E.
    assert (In x (members (key x) l)) as Hm by (by apply In_members). by rewrite E in Hm.
  - intros [-> N]. exists k. split; [done|]. rewrite elem_of_distinct.
    destruct (members k l) as [|x xs] eqn:E; [done|]. assert (In x (members k l)) as Hx by (rewrite E; by left).
    apply In_members in Hx as [Hx <-]. by apply in_map.
Qed.

Lemma bucket_by_keys l : map fst (bucket_by key l) = distinct (map key l).
Proof. rewrite bucket_by_members, map_map. cbn [fst]. apply map_id. Qed.
End buckets.

(** ** Outcomes *)

Lemma outcome_of_facts name os :
  oc_name (outcome_of name os) = name
  /\ oc_hasPass (outcome_of name os) = existsb is_pass os
  /\ oc_hasFail (outcome_of name os) = existsb is_fail os.
Proof.
  unfold outcome_of. set (vo := mkOutcome name false false "").
  assert (G : forall vo, oc_name (fold_left add_outcome os vo) = oc_name vo
    /\ oc_hasPass (fold_left add_outcome os vo) = oc_hasPass vo || existsb is_pass os
    /\ oc_hasFail (fold_left add_outcome os vo) = oc_hasFail vo || existsb is_fail os); [|apply G].
  clear vo. induction os as [|o os IH]; intros vo; [by rewrite !orb_false_r|]. cbn [fold_left existsb].
  destruct (IH (add_outcome vo o)) as (-> & -> & ->). unfold add_outcome, is_pass, is_fail.
  destruct (String.eqb_spec (o_Result o) ResultPass) as [->|]; cbn.
  - by rewrite orb_true_r.
  - destruct (String.eqb_spec (o_Result o) ResultFail); cbn; by rewrite ?orb_true_r.
Qed.

(** All runs of a group under one name have the same outcome. *)
Definition clear_verdict (name : CLIExperienceObservation -> string) (group : list CLIExperienceObservation)
    (n r : string) : Prop :=
  (exists o, In o group /\ name o = n /\ o_Result o = r)
  /\ forall o, In o group -> name o = n -> o_Result o = ResultPass \/ o_Result o = ResultFail -> o_Result o = r.

Lemma existsb_members (p : CLIExperienceObservation -> bool) (name : CLIExperienceObservation -> string) group n :
  existsb p (members name n group) = true <-> exists o, In o group /\ name o = n /\ p o = true.
Proof.
  rewrite existsb_exists. setoid_rewrite In_members. split; intros (o & H); exists o; intuition.
Qed.

Lemma verdict_clear name group n r : r = ResultPass \/ r = ResultFail ->
  verdict (outcome_of n (members name n group)) = r <-> clear_verdict name group n r.
Proof.
  intros Hr. unfold verdict, clear_verdict. destruct (outcome_of_facts n (members name n group)) as (_ & -> & ->).
  pose proof (existsb_members is_pass name group n) as P. pose proof (existsb_members is_fail name group n) as F.
  unfold is_pass, is_fail in P, F.
  assert (P' : existsb is_pass (members name n group) = true <->
               exists o, In o group /\ name o = n /\ o_Result o = ResultPass).
  { unfold is_pass. rewrite P. split; intros (o & ? & ? & E); exists o; repeat split; try done;
      [by apply String.eqb_eq|by apply String.eqb_eq]. }
  assert (F' : existsb is_fail (members name n group) = true <->
               exists o, In o group /\ name o = n /\ o_Result o = ResultFail).
  { unfold is_fail. rewrite F. split; intros (o & ? & ? & E); exists o; repeat split; try done;
      [by apply String.eqb_eq|by apply String.eqb_eq]. }
  clear P F. destruct (existsb is_pass _) eqn:EP, (existsb is_fail _) eqn:EF; cbn [andb negb].
  - destruct (proj1 P' eq_refl) as (o1 & ? & ? & R1). destruct (proj1 F' eq_refl) as (o2 & ? & ? & R2).
    split; [destruct Hr as [-> | ->]; discriminate|]. intros [_ H3]. exfalso.
    assert (o_Result o1 = r) by (apply H3; auto). assert (o_Result o2 = r) by (apply H3; auto).
    rewrite R1 in *. subst r. rewrite R2 in *. discriminate.
  - destruct (proj1 P' eq_refl) as (o1 & ? & ? & R1). split.
    + intros <-. split; [by exists o1|]. intros o Ho Hn [E|E]; [done|]. exfalso.
      destruct F' as [_ F']. by specialize (F' (ex_intro _ o (conj Ho (conj Hn E)))).
    + intros [_ H3]. rewrite <- R1. apply H3; auto.
  - destruct (proj1 F' eq_refl) as (o2 & ? & ? & R2). split.
    + intros <-. split; [by exists o2|]. intros o Ho Hn [E|E]; [|done]. exfalso.
      destruct P' as [_ P']. by specialize (P' (ex_intro _ o (conj Ho (conj Hn E)))).
    + intros [_ H3]. rewrite <- R2. apply H3; auto.
  - split; [destruct Hr as [-> | ->]; discriminate|]. intros [(o & Ho & Hn & E) _]. exfalso.
    destruct Hr as [-> | ->].
    + destruct P' as [_ P']. by specialize (P' (ex_intro _ o (conj Ho (conj Hn E)))).
    + destruct F' as [_ F']. by specialize (F' (ex_intro _ o (conj Ho (conj Hn E)))).
Qed.

(** ** The version axis *)

Lemma outcomes_by_members name bucket :
  outcomes_by name bucket = map (fun n => outcome_of n (members name n bucket)) (distinct (map name bucket)).
Proof. unfold outcomes_by. rewrite bucket_by_members, map_map. done. Qed.

Lemma outcomes_by_names name bucket : map oc_name (outcomes_by name bucket) = distinct (map name bucket).
Proof.
  rewrite outcomes_by_members, map_map. transitivity (map (fun n => n) (distinct (map name bucket))); [|apply map_id].
  apply map_ext. intros n. by destruct (outcome_of_facts n (members name n bucket)) as (-> & _).
Qed.

Lemma In_outcomes_by name bucket vo : In vo (outcomes_by name bucket) <->
  vo = outcome_of (oc_name vo) (members name (oc_name vo) bucket) /\ In (oc_name vo) (map name bucket).
Proof.
  rewrite outcomes_by_members, in_map_iff. setoid_rewrite elem_of_distinct. split.
  - intros (n & <- & Hn). by destruct (outcome_of_facts n (members name n bucket)) as (-> & _).
  - intros [E Hn]. by exists (oc_name vo).
Qed.

Lemma In_adjacent tool vs b : In b (adjacent_boundaries tool vs) <->
  exists l1 c n l2, vs = (l1 ++ c :: n :: l2)%list /\ In b (version_boundary tool c n).
Proof.
  induction vs as [|x [|y vs] IH].
  - split; [done|]. intros ([|] & ? & ? & ? & E & _); discriminate E.
  - split; [done|]. intros ([|? [|]] & ? & ? & ? & E & _); discriminate E.
  - change (adjacent_boundaries tool (x :: y :: vs))
      with (version_boundary tool x y ++ adjacent_boundaries tool (y :: vs))%list.
    rewrite in_app_iff, IH. split.
    + intros [H|(l1 & c & n & l2 & -> & H)]; [by exists [], x, y, vs|by exists (x :: l1), c, n, l2].
    + intros ([|z l1] & c & n & l2 & E & H).
      * injection E as -> -> ->. by left.
      * injection E as -> E. right. by exists l1, c, n, l2.
Qed.

Lemma In_version_boundary tool c n b : In b (version_boundary tool c n) <->
  (verdict c = ResultPass \/ verdict c = ResultFail) /\ (verdict n = ResultPass \/ verdict n = ResultFail)
  /\ verdict c <> verdict n
  /\ b = mkBoundary "version" (oc_name c) (oc_name n) (verdict c) (verdict n)
          (version_explanation tool (verdict c) (oc_name c) (verdict n) (oc_name n) (oc_failSummary n)).
Proof.
  assert (V : forall vo, verdict vo = ResultPass \/ verdict vo = ResultFail \/ verdict vo = "").
  { intros vo. unfold verdict. destruct (_ && _); [auto|]. destruct (_ && _); auto. }
  unfold version_boundary. destruct (V c) as [Ec|[Ec|Ec]], (V n) as [En|[En|En]]; rewrite Ec, En; cbn;
    (split; [intros H; try done; destruct H as [<-|[]]; repeat split; auto; discriminate|]);
    intros ([H1|H1] & [H2|H2] & H3 & ->); try done; by left.
Qed.

Lemma version_lt_less : less_of (cmp_on oc_name CompareVersions) version_lt.
Proof.
  split; [|done]. apply cmp_on_order. apply VersionOrder.CompareVersions_order.
Qed.

Definition version_le (a b : outcome) : Prop := CompareVersions (oc_name a) (oc_name b) <= 0.

(** [from] and [to] are neighbours among the versions of the group. *)
Definition nothing_between (group : list CLIExperienceObservation) (from to : string) : Prop :=
  forall o, In o group -> ~ (CompareVersions from (obs_version o) < 0 /\ CompareVersions (obs_version o) to < 0).

Definition next_version (group : list CLIExperienceObservation) (from to : string) : Prop :=
  CompareVersions from to < 0
  /\ forall o, In o group -> obs_version o <> from -> obs_version o <> to ->
       CompareVersions (obs_version o) from < 0 \/ CompareVersions to (obs_version o) < 0.

Lemma sorted_app_cons {A} (R : A -> A -> Prop) l1 x l2 : StronglySorted R (l1 ++ x :: l2) ->
  (forall y, In y l1 -> R y x) /\ (forall y, In y l2 -> R x y).
Proof.
  induction l1 as [|z l1 IH]; cbn [app]; intros H; apply StronglySorted_inv in H as [S F];
    rewrite List.Forall_forall in F.
  - split; [done|exact F].
  - destruct (IH S) as [IH1 IH2]. split; [|done]. intros y [<-|Hy]; [|by apply IH1].
    apply F. apply in_app_iff. right. by left.
Qed.

(** In a sorted list, a pair with nothing comparable in between is adjacent. *)
Lemma sorted_neighbours {A} (f : A -> string) vs x y :
  StronglySorted (fun a b => CompareVersions (f a) (f b) <= 0) vs -> In x vs -> In y vs ->
  CompareVersions (f x) (f y) < 0 ->
  (forall z, In z vs -> z <> x -> z <> y ->
     CompareVersions (f z) (f x) < 0 \/ CompareVersions (f y) (f z) < 0) ->
  List.NoDup vs -> exists l1 l2, vs = (l1 ++ x :: y :: l2)%list.
Proof.
  intros S Hx Hy L B D. pose proof VersionOrder.CompareVersions_order.
  apply in_split in Hx as (l1 & l2 & ->). destruct (sorted_app_cons _ _ _ _ S) as [Lx Rx].
  assert (AS : forall a b, CompareVersions b a = - CompareVersions a b)
    by (intros; apply (cmp_antisym (cmp:=CompareVersions))).
  assert (Iy : In y l2).
  { apply in_app_iff in Hy as [Hy|[<-|Hy]]; [|by rewrite (cmp_refl (cmp:=CompareVersions)) in L|done].
    apply Lx in Hy. cbn in Hy. rewrite AS in Hy. lia. }
  destruct l2 as [|z l2]; [done|]. exists l1, l2. do 2 f_equal. destruct Iy as [->|Iy]; [done|]. exfalso.
  assert (S' : StronglySorted (fun a b => CompareVersions (f a) (f b) <= 0) ((l1 ++ [x]) ++ z :: l2)) by (by rewrite <- app_assoc).
  destruct (sorted_app_cons _ _ _ _ S') as [_ Rz]. apply Rz in Iy as Zy. cbn in Zy.
  assert (Zx : CompareVersions (f x) (f z) <= 0) by (apply Rx; by left).
  assert (Nx : z <> x).
  { intros ->. apply NoDup_remove_2 in D. apply D. apply in_app_iff. right. by left. }
  assert (Ny : z <> y).
  { intros ->. assert (D' : List.NoDup ((l1 ++ [x]) ++ y :: l2)) by (by rewrite <- app_assoc).
    apply NoDup_remove_2 in D'. apply D'. apply in_app_iff. by right. }
  destruct (B z) as [Q|Q]; [apply in_app_iff; right; right; by left|done|done| |].
  - rewrite AS in Q. lia.
  - rewrite AS in Q. lia.
Qed.

Section version_axis.
Context `{GS : !GoSort} `{GM : !GoMapRange}.

Lemma sorted_outcomes bucket : let vs := sort_slice version_lt (range_order (outcomes_by obs_version bucket)) in
  Permutation (outcomes_by obs_version bucket) vs /\ StronglySorted version_le vs.
Proof.
  split; [by rewrite <- sort_slice_perm, <- range_order_perm|].
  apply (sort_slice_sorted _ _ _ _ version_lt_less).
Qed.

Lemma version_boundary_sound bucket b : In b (version_boundaries bucket) ->
  bd_Axis b = "version"
  /\ clear_verdict obs_version bucket (bd_TransitionFrom b) (bd_FromVerdict b)
  /\ clear_verdict obs_version bucket (bd_TransitionTo b) (bd_ToVerdict b)
  /\ bd_FromVerdict b <> bd_ToVerdict b
  /\ CompareVersions (bd_TransitionFrom b) (bd_TransitionTo b) <= 0
  /\ nothing_between bucket (bd_TransitionFrom b) (bd_TransitionTo b).
Proof.
  unfold version_boundaries. destruct bucket as [|first [|second rest]]; [done|done|].
  set (bucket := first :: second :: rest). cbn zeta. destruct (_ <? _)%nat; [done|].
  intros (l1 & c & n & l2 & Ev & Hb)%In_adjacent. destruct (sorted_outcomes bucket) as [P S]. cbn zeta in P, S.
  apply In_version_boundary in Hb as (Vc & Vn & Ne & ->). cbn [bd_Axis bd_TransitionFrom bd_TransitionTo bd_FromVerdict bd_ToVerdict].
  assert (M : forall vo, In vo (l1 ++ c :: n :: l2) <-> In vo (outcomes_by obs_version bucket))
    by (intros vo; by rewrite P, <- Ev).
  assert (Ic : In c (outcomes_by obs_version bucket)) by (apply M, in_app_iff; right; by left).
  assert (In_ : In n (outcomes_by obs_version bucket)) by (apply M, in_app_iff; right; right; by left).
  rewrite Ev in S. apply In_outcomes_by in Ic as [Ec _]. apply In_outcomes_by in In_ as [En _].
  destruct (sorted_app_cons _ _ _ _ S) as [Lc Rc].
  assert (S' : StronglySorted version_le ((l1 ++ [c]) ++ n :: l2)) by (by rewrite <- app_assoc).
  destruct (sorted_app_cons _ _ _ _ S') as [_ Rn].
  split; [done|]. split; [rewrite Ec in Vc |- * at 2; by apply verdict_clear|].
  split; [rewrite En in Vn |- * at 2; by apply verdict_clear|]. split; [done|].
  split; [apply Rc; by left|]. intros o Ho [B1 B2].
  assert (Io : exists vo, In vo (l1 ++ c :: n :: l2) /\ oc_name vo = obs_version o).
  { exists (outcome_of (obs_version o) (members obs_version (obs_version o) bucket)).
    destruct (outcome_of_facts (obs_version o) (members obs_version (obs_version o) bucket)) as (Nm & _).
    split; [|done]. apply M, In_outcomes_by. rewrite Nm. split; [done|by apply in_map]. }
  destruct Io as (vo & Io & Eo). rewrite <- Eo in *. pose proof VersionOrder.CompareVersions_order.
  pose proof (cmp_antisym (cmp:=CompareVersions) (oc_name c) (oc_name vo)).
  pose proof (cmp_antisym (cmp:=CompareVersions) (oc_name n) (oc_name vo)).
  apply in_app_iff in Io as [Io|[<-|[<-|Io]]].
  - apply Lc in Io. unfold version_le in Io. lia.
  - rewrite (cmp_refl (cmp:=CompareVersions)) in B1. lia.
  - rewrite (cmp_refl (cmp:=CompareVersions)) in B2. lia.
  - apply Rn in Io. unfold version_le in Io. lia.
Qed.
Lemma version_boundary_complete bucket from to r1 r2 : r1 <> r2 ->
  r1 = ResultPass \/ r1 = ResultFail -> r2 = ResultPass \/ r2 = ResultFail ->
  clear_verdict obs_version bucket from r1 -> clear_verdict obs_version bucket to r2 ->
  next_version bucket from to ->
  exists b, In b (version_boundaries bucket) /\ bd_TransitionFrom b = from /\ bd_TransitionTo b = to
    /\ bd_FromVerdict b = r1 /\ bd_ToVerdict b = r2.
Proof.
  intros Ne H1 H2 C1 C2 [Lt B]. pose proof VersionOrder.CompareVersions_order.
  assert (Nft : from <> to) by (intros ->; by rewrite (cmp_refl (cmp:=CompareVersions)) in Lt).
  set (oc n := outcome_of n (members obs_version n bucket)).
  assert (Nm : forall n, oc_name (oc n) = n) by (intros n; apply outcome_of_facts).
  assert (I : forall n r, clear_verdict obs_version bucket n r -> In (oc n) (outcomes_by obs_version bucket)).
  { intros n r [(o & Ho & <- & _) _]. apply In_outcomes_by. rewrite Nm. split; [done|by apply in_map]. }
  destruct (sorted_outcomes bucket) as [P S]. cbn zeta in P, S.
  set (vs := sort_slice version_lt (range_order (outcomes_by obs_version bucket))) in *.
  assert (D : List.NoDup vs).
  { eapply Permutation_NoDup; [exact P|]. apply (NoDup_map_inv oc_name). rewrite outcomes_by_names. apply distinct_nodup. }
  destruct (sorted_neighbours oc_name vs (oc from) (oc to) S) as (l1 & l2 & E);
    [rewrite <- P; eauto|rewrite <- P; eauto|by rewrite !Nm| |done|].
  { intros z Hz N1 N2. rewrite <- P in Hz. apply In_outcomes_by in Hz as [Ez Hz].
    apply in_map_iff in Hz as (o & Eo & Ho). rewrite !Nm, <- Eo. apply B; [done|..]; rewrite Eo; intros Q;
      [apply N1|apply N2]; rewrite Ez, Q; done. }
  assert (V1 : verdict (oc from) = r1) by (by apply verdict_clear).
  assert (V2 : verdict (oc to) = r2) by (by apply verdict_clear).
  assert (L : (2 <= length (outcomes_by obs_version bucket))%nat).
  { rewrite (Permutation_length P), E, length_app. cbn [length]. lia. }
  assert (Lb : (2 <= length bucket)%nat).
  { rewrite <- (length_map obs_version bucket). etransitivity; [exact L|].
    rewrite <- (length_map oc_name), outcomes_by_names. apply NoDup_incl_length; [apply distinct_nodup|].
    intros x Hx. by rewrite elem_of_distinct in Hx. }
  unfold version_boundaries. destruct bucket as [|first [|second rest]]; [cbn in Lb; lia..|].
  cbn zeta. destruct (Nat.ltb_spec (length (outcomes_by obs_version (first :: second :: rest))) 2); [lia|].
  fold vs. rewrite E. eexists. split.
  - apply In_adjacent. exists l1, (oc from), (oc to), l2. split; [reflexivity|].
    apply In_version_boundary. rewrite V1, V2. do 3 (split; [done|]). reflexivity.
  - cbn [bd_TransitionFrom bd_TransitionTo bd_FromVerdict bd_ToVerdict]. by rewrite !Nm.
Qed.

(** The runs of one command on one operating system, canonically compared. *)
Definition version_group (k : versionGroupKey) (l : list CLIExperienceObservation) : list CLIExperienceObservation :=
  members version_key k (List.filter has_version (map canonical_observation l)).

Lemma detect_version_boundaries l b :
  In b (flat_map (fun '(_, bucket) => version_boundaries bucket)
          (range_order (bucket_by version_key (List.filter has_version (map canonical_observation l)))))
  <-> exists k, In b (version_boundaries (version_group k l)).
Proof.
  rewrite in_flat_map. split.
  - intros ([k bucket] & Hk & Hb). rewrite <- range_order_perm in Hk. apply In_bucket_by in Hk as [-> _]. by exists k.
  - intros [k Hb]. exists (k, version_group k l). split; [|done]. rewrite <- range_order_perm. apply In_bucket_by.
    split; [done|]. intros E. by rewrite E in Hb.
Qed.

Lemma os_axis l b : In b (detectOSBoundaries l) -> bd_Axis b = "os".
Proof.
  unfold detectOSBoundaries. intros ([k g] & _ & Hb)%in_flat_map. unfold os_group_boundaries in Hb. cbn zeta in Hb.
  apply in_flat_map in Hb as (from & _ & Hb). by apply in_map_iff in Hb as (to & <- & _).
Qed.

(** Version boundaries are sound and complete: a reported boundary is a
    change of clear verdict between two versions of one command on one
    operating system with no observed version in between, and every such
    change between neighbouring versions is reported, in whatever order the
    maps are visited and ties are sorted. *)
Theorem version_boundaries_exact l :
  (forall b, In b (DetectExperienceBoundaries l) -> bd_Axis b = "version" ->
     exists k, let g := version_group k l in
       clear_verdict obs_version g (bd_TransitionFrom b) (bd_FromVerdict b)
       /\ clear_verdict obs_version g (bd_TransitionTo b) (bd_ToVerdict b)
       /\ bd_FromVerdict b <> bd_ToVerdict b
       /\ CompareVersions (bd_TransitionFrom b) (bd_TransitionTo b) <= 0
       /\ nothing_between g (bd_TransitionFrom b) (bd_TransitionTo b))
  /\ (forall k from to r1 r2, let g := version_group k l in
       r1 <> r2 -> r1 = ResultPass \/ r1 = ResultFail -> r2 = ResultPass \/ r2 = ResultFail ->
       clear_verdict obs_version g from r1 -> clear_verdict obs_version g to r2 -> next_version g from to ->
       exists b, In b (DetectExperienceBoundaries l) /\ bd_TransitionFrom b = from /\ bd_TransitionTo b = to
         /\ bd_FromVerdict b = r1 /\ bd_ToVerdict b = r2).
Proof.
  unfold DetectExperienceBoundaries. cbn zeta. split.
  - intros b [Hb|Hb]%in_app_iff Ax; [|apply os_axis in Hb; congruence].
    apply detect_version_boundaries in Hb as [k Hb]. exists k. by apply version_boundary_sound in Hb as [_ Hb].
  - intros k from to r1 r2 H1 H2 H3 H4 H5 H6.
    destruct (version_boundary_complete (version_group k l) from to r1 r2) as (b & Hb & Eq); try done.
    exists b. split; [|done]. apply in_app_iff. left. apply detect_version_boundaries. by exists k.
Qed.
End version_axis.

Definition obs_at (version os result : string) : CLIExperienceObservation :=
  set_Coordinate (mkCoord "git" version "status" "" "" (set_OS os env_example)) (obs_example result 1 "").

Definition regression : list CLIExperienceObservation :=
  [obs_at "2.9.0" "linux" ResultPass; obs_at "2.10.0" "Linux" ResultFail; obs_at "2.10.0" "windows" ResultPass].

Lemma version_boundaries_exact_witness :
  exists b, In b (DetectExperienceBoundaries (GS:=sort_by_insertion) (GM:=range_in_order) regression)
    /\ bd_TransitionFrom b = "2.9.0" /\ bd_TransitionTo b = "2.10.0"
    /\ bd_FromVerdict b = ResultPass /\ bd_ToVerdict b = ResultFail.
Proof.
  apply (proj2 (version_boundaries_exact (GS:=sort_by_insertion) (GM:=range_in_order) regression)
           (mkVKey "git" "status" "" "linux") "2.9.0" "2.10.0" ResultPass ResultFail);
    [discriminate|left; reflexivity|right; reflexivity|..];
    (assert (E : version_group (mkVKey "git" "status" "" "linux") regression
              = [canonical_observation (obs_at "2.9.0" "linux" ResultPass);
                 canonical_observation (obs_at "2.10.0" "Linux" ResultFail)]) by (vm_compute; reflexivity); rewrite E).
  - split; [eexists; split; [left; reflexivity|split; vm_compute; reflexivity]|].
    intros o [<-|[<-|[]]]; [vm_compute; reflexivity|]. intros N. vm_compute in N. discriminate N.
  - split; [eexists; split; [right; left; reflexivity|split; vm_compute; reflexivity]|].
    intros o [<-|[<-|[]]]; [|vm_compute; reflexivity]. intros N. vm_compute in N. discriminate N.
  - split; [vm_compute; reflexivity|]. intros o [<-|[<-|[]]] N1 N2; [exfalso; apply N1|exfalso; apply N2];
      vm_compute; reflexivity.
Defined.

(** ** The operating-system axis *)

(** The runs of one command at one version, on all operating systems. *)
Definition os_group (k : osGroupKey) (l : list CLIExperienceObservation) : list CLIExperienceObservation :=
  members os_key k (List.filter has_version_and_os l).

Lemma clear_outcome (pass : bool) group vo : In vo (outcomes_by obs_os group) ->
  (if pass then oc_hasPass vo && negb (oc_hasFail vo) else oc_hasFail vo && negb (oc_hasPass vo)) = true
  <-> clear_verdict obs_os group (oc_name vo) (if pass then ResultPass else ResultFail).
Proof.
  intros H. apply In_outcomes_by in H as [E _].
  rewrite <- (verdict_clear obs_os group (oc_name vo) (if pass then ResultPass else ResultFail)) by (destruct pass; auto).
  rewrite <- E. unfold verdict. destruct pass, (oc_hasPass vo), (oc_hasFail vo); cbn; done.
Qed.

(** The sorted names of the systems with one clear outcome. *)
Lemma In_clear_names `{!GoMapRange} (pass : bool) group n :
  In n (sort_strings (map oc_name (List.filter (fun oc => if pass then oc_hasPass oc && negb (oc_hasFail oc)
                                                  else oc_hasFail oc && negb (oc_hasPass oc))
                         (range_order (outcomes_by obs_os group)))))
  <-> clear_verdict obs_os group n (if pass then ResultPass else ResultFail).
Proof.
  unfold sort_strings. rewrite <- insertion_sort_perm, in_map_iff. setoid_rewrite List.filter_In.
  setoid_rewrite <- range_order_perm. split.
  - intros (vo & <- & Hi & Hc). by apply clear_outcome.
  - intros C. exists (outcome_of n (members obs_os n group)).
    destruct (outcome_of_facts n (members obs_os n group)) as (Nm & _). split; [done|].
    assert (I : In (outcome_of n (members obs_os n group)) (outcomes_by obs_os group)).
    { apply In_outcomes_by. rewrite Nm. split; [done|]. destruct C as [(o & Ho & <- & _) _]. by apply in_map. }
    split; [done|]. apply (clear_outcome pass group); [done|]. by rewrite Nm.
Qed.

Lemma filter_perm {A} (p : A -> bool) l l' : Permutation l l' -> Permutation (List.filter p l) (List.filter p l').
Proof.
  induction 1 as [|x l l' _ IH|x y l|l1 l2 l3 _ IH1 _ IH2]; cbn [List.filter].
  - done.
  - destruct (p x); [by apply perm_skip|done].
  - destruct (p x), (p y); try done. apply perm_swap.
  - by transitivity (List.filter p l2).
Qed.

Lemma os_group_boundaries_order {G1 G2 : GoMapRange} k group :
  os_group_boundaries (GM:=G1) k group = os_group_boundaries (GM:=G2) k group.
Proof.
  unfold os_group_boundaries. cbn zeta.
  assert (P : Permutation (range_order (GoMapRange:=G1) (outcomes_by obs_os group))
                (range_order (GoMapRange:=G2) (outcomes_by obs_os group))) by (by rewrite <- !range_order_perm).
  assert (S : forall p, sort_strings (map oc_name (List.filter p (range_order (GoMapRange:=G1) (outcomes_by obs_os group))))
                      = sort_strings (map oc_name (List.filter p (range_order (GoMapRange:=G2) (outcomes_by obs_os group)))))
    by (intros p; by apply sort_strings_perm, Permutation_map, filter_perm).
  by rewrite !S.
Qed.

(** Operating-system boundaries are exact and reproducible: a pair of
    systems is reported exactly when, for one command at one version, every
    run on the first passed and every run on the second failed; and the list
    of boundaries is the same whichever order the map is visited in. *)
Theorem os_boundaries_exact {GM : GoMapRange} l :
  (forall from to,
     (exists b, In b (detectOSBoundaries l) /\ bd_TransitionFrom b = from /\ bd_TransitionTo b = to)
     <-> exists k, clear_verdict obs_os (os_group k l) from ResultPass
                /\ clear_verdict obs_os (os_group k l) to ResultFail)
  /\ (forall b, In b (detectOSBoundaries l) ->
        bd_Axis b = "os" /\ bd_FromVerdict b = ResultPass /\ bd_ToVerdict b = ResultFail)
  /\ (forall GM' : GoMapRange, detectOSBoundaries (GM:=GM') l = detectOSBoundaries (GM:=GM) l).
Proof.
  split; [|split].
  - intros from to. unfold detectOSBoundaries. split.
    + intros (b & Hb & <- & <-). apply in_flat_map in Hb as ([k g] & Hk & Hb). exists k.
      apply In_bucket_by in Hk as [-> _]. apply in_flat_map in Hb as (f & Hf & Hb).
      apply in_map_iff in Hb as (t & <- & Ht). cbn [bd_TransitionFrom bd_TransitionTo].
      split; [exact (proj1 (In_clear_names true _ _) Hf)|exact (proj1 (In_clear_names false _ _) Ht)].
    + intros (k & C1 & C2). eexists. split; [|split].
      * apply in_flat_map. exists (k, os_group k l). split.
        { apply In_bucket_by. split; [done|]. intros E. rewrite E in C1. by destruct C1 as [(o & [] & _) _]. }
        apply in_flat_map. exists from. split; [exact (proj2 (In_clear_names true _ _) C1)|].
        apply in_map_iff. exists to. split; [reflexivity|exact (proj2 (In_clear_names false _ _) C2)].
      * done.
      * done.
  - intros b Hb. unfold detectOSBoundaries in Hb. apply in_flat_map in Hb as ([k g] & _ & Hb).
    apply in_flat_map in Hb as (f & _ & Hb). by apply in_map_iff in Hb as (t & <- & _).
  - intros GM'. unfold detectOSBoundaries. apply flat_map_ext_in. intros [k g] _. apply os_group_boundaries_order.
Qed.

Lemma os_boundaries_exact_witness :
  map (fun b => (bd_TransitionFrom b, bd_TransitionTo b))
    (detectOSBoundaries (GM:=range_in_order) (map canonical_observation regression)) = [("windows", "linux")]
  /\ forall b, In b (detectOSBoundaries (GM:=range_in_order) (map canonical_observation regression)) -> bd_Axis b = "os".
Proof.
  split; [vm_compute; reflexivity|]. intros b Hb.
  apply (proj1 (proj1 (proj2 (os_boundaries_exact (GM:=range_in_order) (map canonical_observation regression))) b Hb)).
Defined.
