(* ===== verification/RetryPolicy.v ===== *)
(** * The bounded retry shape of background work
    (internal/retrypolicy/retry.go, internal/web/background_retry.go)

    A series counts one initial attempt and its retries; the site's caches
    keep a series together with the time before which nothing is tried.
    Instants are nanoseconds since the zero [time.Time], durations 64-bit
    nanosecond counts.  The jitter source of [Delay] is the function the
    caller passes, or [rand.Int64N], which is a parameter with its documented
    range as hypothesis. *)

From S2P Require Import Prelude.

(** ** Series *)

Definition MaxRetries : Z := 5.

Inductive State := Ready | Waiting | FailedDeferred.

#[export] Instance State_eq_dec : EqDecision State.
Proof. solve_decision. Defined.

Record Series := mkSeries { retries : Z; state : State }.

(** The zero value. *)
Definition fresh : Series := mkSeries 0 Ready.

Definition is_deferred (st : State) : bool := match st with FailedDeferred => true | _ => false end.
Definition is_waiting (st : State) : bool := match st with Waiting => true | _ => false end.

(** [Series.Failure]: the updated series, the retry number and the state. *)
Definition Failure (s : Series) : Series * (Z * State) :=
  if is_deferred (state s) then (s, (0, FailedDeferred))
  else if MaxRetries <=? retries s then
    let s := mkSeries (retries s) FailedDeferred in (s, (0, state s))
  else
    let s := mkSeries (wrap64 (retries s + 1)) Waiting in (s, (retries s, state s)).

(** [Series.Reset]. *)
Definition Reset (s : Series) : Series := mkSeries 0 Ready.

(** ** Delay *)

Definition Second : Z := 1000000000.
Definition Minute : Z := 60 * Second.

(** [base + jitter], or [None] for a retry number outside 1..5. *)
Definition Delay (int64n : Z -> Z) (retry : Z) (draw : option (Z -> Z)) : option Z :=
  if (retry <? 1) || (MaxRetries <? retry) then None
  else
    let base := wrap64 (Z.shiftl Second (retry - 1)) in
    let maxJitter := Z.quot base 4 in
    let jitter :=
      match draw with
      | None => int64n (wrap64 (maxJitter + 1))
      | Some d =>
          let j := d maxJitter in
          let j := if j <? 0 then 0 else j in
          if maxJitter <? j then maxJitter else j
      end in
    Some (wrap64 (base + jitter)).

(** ** The owner's gate *)

Record Gate := mkGate { series : Series; next : Z }.
Definition open_gate : Gate := mkGate fresh 0.

Definition backgroundRetryReady (g : Gate) (now : Z) : Gate * bool :=
  if now <? next g then (g, false)
  else if is_deferred (state (series g)) then (mkGate (Reset (series g)) 0, true)
  else (g, true).

Definition backgroundRetryFailed (int64n : Z -> Z) (g : Gate) (now deferFor : Z) (draw : option (Z -> Z)) : Gate :=
  let '(s, (retry, st)) := Failure (series g) in
  if is_waiting st then
    let delay := match Delay int64n retry draw with Some d => d | None => 0 end in
    mkGate s (now + delay)
  else
    let deferFor := if deferFor <=? 0 then 5 * Minute else deferFor in
    mkGate s (now + deferFor).

Definition backgroundRetrySucceeded (g : Gate) : Gate := mkGate (Reset (series g)) 0.

(** ** Laws *)

(** [rand.Int64N n] is in [0, n). *)
Definition int64n_ok (int64n : Z -> Z) : Prop := forall n, 0 < n -> 0 <= int64n n < n.

(** The series after [n] failures since it was opened. *)
Definition after (n : nat) : Series :=
  if Z.of_nat n <=? MaxRetries then
    match n with O => fresh | S _ => mkSeries (Z.of_nat n) Waiting end
  else mkSeries MaxRetries FailedDeferred.

Lemma after_Failure n :
  Failure (after n) = (after (S n), if Z.of_nat n <? MaxRetries then (Z.of_nat n + 1, Waiting) else (0, FailedDeferred)).
Proof. do 7 (destruct n as [|n]; [reflexivity|]). unfold after, Failure, MaxRetries. repeat case_match; bool_facts; try lia; done. Qed.

Lemma base_value r : 1 <= r <= MaxRetries ->
  wrap64 (Z.shiftl Second (r - 1)) = 2 ^ (r - 1) * Second /\ Second <= 2 ^ (r - 1) * Second <= 16 * Second.
Proof.
  unfold MaxRetries. intros H.
  assert (r = 1 \/ r = 2 \/ r = 3 \/ r = 4 \/ r = 5) as [-> | [-> | [-> | [-> | ->]]]] by lia; vm_compute; repeat split; discriminate.
Qed.

Lemma Delay_bounds int64n r draw : int64n_ok int64n -> 1 <= r <= MaxRetries ->
  exists d, Delay int64n r draw = Some d
    /\ 2 ^ (r - 1) * Second <= d <= 2 ^ (r - 1) * Second + 2 ^ (r - 1) * Second / 4.
Proof.
  intros Hi Hr. unfold Delay. destruct (base_value r Hr) as [-> Hb].
  replace ((r <? 1) || (MaxRetries <? r)) with false by (symmetry; apply orb_false_iff; rewrite !Z.ltb_ge; lia).
  revert Hb. generalize (2 ^ (r - 1) * Second). unfold Second. intros base Hb.
  rewrite Z.quot_div_nonneg by lia. cbn zeta.
  assert (0 <= base / 4 <= base) as Hq by (split; [apply Z.div_pos | apply Z.div_le_upper_bound]; lia).
  match goal with |- context [wrap64 (base + ?j)] => assert (0 <= j <= base / 4) as Hj end.
  { destruct draw as [d|]; [generalize (d (base / 4)); intros j; split_ifs; bool_facts; lia|].
    rewrite wrap64_id by (unfold in_int64, int64_min, int64_max; lia). pose proof (Hi (base / 4 + 1)). lia. }
  eexists. split; [reflexivity|]. rewrite wrap64_id by (unfold in_int64, int64_min, int64_max; lia). lia.
Qed.

(** Starting from a fresh series, the first five failures each grant
    the next retry number, with a delay of at least 2^(n) seconds and at most
    a quarter more, whatever the jitter source returns; every further failure
    grants nothing and leaves the series deferred; and no number outside 1..5
    has a delay. *)
Theorem series_grants_five_retries int64n draw n :
  int64n_ok int64n ->
  let s := Nat.iter n (fun s => fst (Failure s)) fresh in
  (if Z.of_nat n <? MaxRetries
   then exists d, snd (Failure s) = (Z.of_nat n + 1, Waiting)
          /\ Delay int64n (Z.of_nat n + 1) draw = Some d
          /\ 2 ^ Z.of_nat n * Second <= d <= 2 ^ Z.of_nat n * Second + 2 ^ Z.of_nat n * Second / 4
   else snd (Failure s) = (0, FailedDeferred) /\ state (fst (Failure s)) = FailedDeferred)
  /\ (forall r, Delay int64n r draw = None <-> r < 1 \/ MaxRetries < r).
Proof.
  intros Hi s. assert (s = after n) as ->.
  { unfold s. clear. induction n as [|n IH]; [done|]. simpl. by rewrite IH, after_Failure. }
  split.
  - rewrite after_Failure. simpl. destruct (Z.ltb_spec (Z.of_nat n) MaxRetries) as [L|L].
    + destruct (Delay_bounds int64n (Z.of_nat n + 1) draw Hi) as (d & E & B); [lia|].
      replace (Z.of_nat n + 1 - 1) with (Z.of_nat n) in B by lia. eauto.
    + split; [done|]. unfold after. destruct (Z.leb_spec (Z.of_nat (S n)) MaxRetries); [lia|done].
  - intros r. split.
    + unfold Delay. split_ifs; [|discriminate]. bool_facts. intros _. destruct Heqb; bool_facts; lia.
    + intros H. unfold Delay. replace ((r <? 1) || (MaxRetries <? r)) with true; [done|].
      symmetry. apply orb_true_iff. rewrite !Z.ltb_lt. lia.
Qed.

Lemma series_grants_five_retries_witness :
  let zero_jitter := fun _ : Z => 0 in
  int64n_ok zero_jitter /\ snd (Failure (Nat.iter 5 (fun s => fst (Failure s)) fresh)) = (0, FailedDeferred).
Proof.
  assert (int64n_ok (fun _ => 0)) as H by (intros n Hn; lia).
  split; [exact H|]. exact (proj1 (proj1 (series_grants_five_retries (fun _ => 0) None 5 H))).
Defined.

(** ** The spacing of failing attempts

    A cache asks for a refresh at [a_request]; when the gate admits it, the
    refresh runs and fails at [a_failed], with the deferral and the jitter
    source of that call. *)

Record Attempt := mkAttempt { a_request : Z; a_failed : Z; a_deferFor : Z; a_draw : option (Z -> Z) }.

(** The attempts the gate admits while every one of them fails. *)
Fixpoint admitted (int64n : Z -> Z) (g : Gate) (asked : list Attempt) : list Attempt :=
  match asked with
  | [] => []
  | a :: rest =>
      let '(g, ready) := backgroundRetryReady g (a_request a) in
      if ready then a :: admitted int64n (backgroundRetryFailed int64n g (a_failed a) (a_deferFor a) (a_draw a)) rest
      else admitted int64n g rest
  end.

Definition effective_defer (d : Z) : Z := if d <=? 0 then 5 * Minute else d.

(** The least pause after the [i]-th attempt of a series: 1, 2, 4, 8, 16
    seconds, then the deferral window, then a new series. *)
Definition least_pause (i : nat) (a : Attempt) : Z :=
  if (Z.of_nat i mod 6 <? MaxRetries) then 2 ^ (Z.of_nat i mod 6) * Second else effective_defer (a_deferFor a).

Fixpoint spaced (i : nat) (from : Z) (l : list Attempt) : Prop :=
  match l with
  | [] => True
  | a :: rest => from <= a_request a /\ spaced (S i) (a_failed a + least_pause i a) rest
  end.

(** The gate between the [i]-th attempt and the next. *)
Definition gate_at (i : nat) (g : Gate) : Prop :=
  series g = after (Z.to_nat (Z.of_nat i mod 6))
  \/ (Z.of_nat i mod 6 = 0 /\ state (series g) = FailedDeferred).

Lemma Failed_gate int64n i g now deferFor draw : int64n_ok int64n ->
  series g = after (Z.to_nat (Z.of_nat i mod 6)) ->
  let g' := backgroundRetryFailed int64n g now deferFor draw in
  gate_at (S i) g' /\ now + least_pause i (mkAttempt 0 now deferFor draw) <= next g'.
Proof.
  intros Hi E. pose proof (Z.mod_pos_bound (Z.of_nat i) 6 ltac:(lia)) as B.
  unfold backgroundRetryFailed, gate_at, least_pause. rewrite E, after_Failure.
  rewrite Nat2Z.inj_succ, <- Z.add_1_r, <- (Zplus_mod_idemp_l (Z.of_nat i) 1 6).
  remember (Z.of_nat i mod 6) as k eqn:Ek. clear E Ek. rewrite Z2Nat.id by lia. cbn [a_deferFor].
  destruct (Z.ltb_spec k MaxRetries) as [L|L]; cbn [is_waiting series next].
  - destruct (Delay_bounds int64n (k + 1) draw Hi) as (d & -> & D); [unfold MaxRetries in *; lia|].
    replace (k + 1 - 1) with k in D by lia. split; [|lia]. left. f_equal.
    unfold MaxRetries in *. rewrite Z.mod_small by lia. lia.
  - assert (k = 5) as -> by (unfold MaxRetries in *; lia). split; [right; done|]. unfold effective_defer. lia.
Qed.

Lemma Ready_gate i g now g' : gate_at i g -> backgroundRetryReady g now = (g', true) ->
  series g' = after (Z.to_nat (Z.of_nat i mod 6)) /\ next g <= now.
Proof.
  unfold backgroundRetryReady. intros H E. destruct (Z.ltb_spec now (next g)) as [|L]; [discriminate|].
  split; [|done]. destruct H as [H|[H1 H2]].
  - rewrite H in E. pose proof (Z.mod_pos_bound (Z.of_nat i) 6 ltac:(lia)) as B.
    replace (is_deferred (state (after (Z.to_nat (Z.of_nat i mod 6))))) with false in E; [by injection E as <-|].
    unfold after. destruct (Z.leb_spec (Z.of_nat (Z.to_nat (Z.of_nat i mod 6))) MaxRetries) as [|X];
      [by destruct (Z.to_nat (Z.of_nat i mod 6))|unfold MaxRetries in X; lia].
  - rewrite H2 in E. simpl in E. injection E as <-. by rewrite H1.
Qed.

Lemma admitted_spaced int64n asked : int64n_ok int64n -> forall i g from,
  gate_at i g -> from <= next g -> spaced i from (admitted int64n g asked).
Proof.
  intros Hi. induction asked as [|a rest IH]; intros i g from Hg Hf; [done|]. simpl.
  destruct (backgroundRetryReady g (a_request a)) as [g' ready] eqn:E. destruct ready.
  - destruct (Ready_gate _ _ _ _ Hg E) as [Hs Hn]. simpl. split; [lia|].
    destruct (Failed_gate int64n i g' (a_failed a) (a_deferFor a) (a_draw a) Hi Hs) as [H1 H2].
    by apply IH.
  - assert (g' = g) as -> by (unfold backgroundRetryReady in E; repeat case_match; simplify_eq; done).
    by apply IH.
Qed.

(** However often a cache is asked while its refresh keeps failing, the
    attempts the gate admits are spaced: within a series the pauses are at
    least 1, 2, 4, 8 and 16 seconds, and after the sixth failing attempt
    nothing runs before the deferral window (five minutes when it is not
    positive) is over; and a request that is no longer early is never
    refused, nor is anything refused after a success. *)
Theorem background_attempts_spaced int64n asked :
  int64n_ok int64n ->
  spaced 0 0 (admitted int64n open_gate asked)
  /\ (forall g now, snd (backgroundRetryReady g now) = (next g <=? now))
  /\ (forall g now, 0 <= now -> snd (backgroundRetryReady (backgroundRetrySucceeded g) now) = true).
Proof.
  intros Hi. split; [apply admitted_spaced; [done|by left|done]|].
  assert (forall g now, snd (backgroundRetryReady g now) = (next g <=? now)) as R.
  { intros g now. unfold backgroundRetryReady. rewrite Z.ltb_antisym. destruct (next g <=? now); simpl; by split_ifs. }
  split; [exact R|]. intros g now H. rewrite R. simpl. by apply Z.leb_le.
Qed.

Definition every_second : list Attempt := map (fun k => mkAttempt (Z.of_nat k * Second) (Z.of_nat k * Second) 0 None) (seq 0 60).

Lemma background_attempts_spaced_witness :
  let run := admitted (fun _ => 0) open_gate every_second in
  map (fun a => a_request a / Second) run = [0; 1; 3; 7; 15; 31] /\ spaced 0 0 run.
Proof.
  split; [vm_compute; reflexivity|].
  exact (proj1 (background_attempts_spaced (fun _ => 0) every_second (fun n Hn => conj (Z.le_refl 0) Hn))).
Defined.
