(* ===== verification/Anomaly.v ===== *)
(** * Anomaly reports (internal/domain/anomaly.go)

    A report asks for verification of a mismatch between what the network
    served and what a machine measured.  The normaliser, the admission test
    with its errors in order, the dedupe fingerprint and the verdict a
    verification receipt gives.  [VerificationReceipt] is from
    internal/domain/types.go. *)

From stdpp Require Import gmap.
From S2P Require Import Prelude GoStrings GoUnicode GoStd StringFacts UnicodeFacts WordFacts Hash Json.
From S2P Require Import Purl Env Cli CliSubject Failure Experience.

(** ** Vocabulary *)

Definition AnomalyReportSchemaVersion : Z := 1.

Definition AnomalyCSXPassLocalFail := "csx-pass-local-fail".
Definition AnomalyCSXFailLocalPass := "csx-fail-local-pass".
Definition AnomalySymbolSignatureMismatch := "symbol-signature-mismatch".
Definition AnomalyUpgradePathBroken := "upgrade-path-broken".
Definition AnomalyDependencyGraphUnknown := "dependency-graph-unknown".
Definition AnomalyEvidenceConflict := "evidence-conflict".
Definition AnomalyBrokenInternalReference := "broken-internal-reference".
Definition AnomalyRepeatedNoSafeMatch := "repeated-no-safe-match".

Definition AnomalyTypes : list string :=
  [AnomalyCSXPassLocalFail; AnomalyCSXFailLocalPass; AnomalySymbolSignatureMismatch;
   AnomalyUpgradePathBroken; AnomalyDependencyGraphUnknown; AnomalyEvidenceConflict;
   AnomalyBrokenInternalReference; AnomalyRepeatedNoSafeMatch].

Definition AnomalyVerdictCSXDefect := "confirmed-csx-defect".
Definition AnomalyVerdictCompatibilityBoundary := "confirmed-compatibility-boundary".
Definition AnomalyVerdictNewEvidence := "confirmed-new-evidence".
Definition AnomalyVerdictEnvironmentDifference := "environment-difference".
Definition AnomalyVerdictNotReproducible := "not-reproducible".
Definition AnomalyVerdictInsufficientEvidence := "insufficient-evidence".
Definition AnomalyVerdictDuplicate := "duplicate".
Definition anomalyVerdictUndecidedInternalMarker := "".

Definition AnomalyVerdictConfirmed (verdict : string) : bool :=
  str_in verdict [AnomalyVerdictCSXDefect; AnomalyVerdictCompatibilityBoundary; AnomalyVerdictNewEvidence].

(** ** Data *)

Record AnomalyObservation := mkObservation { ao_Result : string; ao_Stage : string; ao_Detail : string }.

Record AnomalyReport := mkReport {
  ar_SchemaVersion : Z;
  ar_AnomalyType : string;
  ar_Package : string;
  ar_Symbol : string;
  ar_Environment : EnvironmentFingerprint;
  ar_SampleID : string;
  ar_EvidenceID : string;
  ar_SearchFingerprint : string;
  ar_CSXObserved : AnomalyObservation;
  ar_LocalObserved : AnomalyObservation;
  ar_Reproducible : string;
  ar_Confidence : string;
  ar_ErrorCode : string;
  ar_ErrorFingerprint : string;
  ar_ErrorTemplate : string;
  ar_RelatedIDs : list string;
  ar_LLMHypothesis : string
}.

Inductive anomaly_error :=
| ErrAnomalySchema
| ErrAnomalyType
| ErrAnomalyPackage
| ErrAnomalyNoLocalObs
| ErrAnomalyNoMismatch
| ErrAnomalyReproducible
| ErrAnomalyConfidence
| ErrAnomalyStage
| ErrAnomalyIdentifier
| ErrAnomalyErrorCode
| ErrAnomalyNoSafeMatchAlone.

(** Failure evidence, image identity and the receipt, with [None] for the
    nil pointers. *)
Record FailureEvidence := mkFailureEvidence {
  fe_TerminationKind : string;
  fe_ExitCode : option Z;
  fe_Signal : string;
  fe_TimeoutMillis : Z;
  fe_ErrorSummary : string;
  fe_ErrorCode : string;
  fe_Fingerprint : string;
  fe_EvidenceQuality : string;
  fe_OuterCommand : string;
  fe_OuterStage : string;
  fe_ActualToolchain : string;
  fe_StageEvidence : string;
  fe_EvidenceGap : string
}.

Record VerifierImage := mkImage { vi_Reference : string; vi_Digest : string }.

Record VerificationReceipt := mkReceipt {
  vr_SchemaVersion : Z;
  vr_SampleID : string;
  vr_CaseID : string;
  vr_EnvironmentHash : string;
  vr_Environment : EnvironmentFingerprint;
  vr_Stages : gmap string string;
  vr_StageFailures : gmap string FailureEvidence;
  vr_ResolvedPackages : list string;
  vr_VerifierImage : option VerifierImage;
  vr_VerifierAdapter : string;
  vr_SandboxCapability : string;
  vr_LogsDigest : string;
  vr_CreatedAt : string;
  vr_PeerID : string;
  vr_PeerPubkey : string;
  vr_PeerSignature : string
}.

(** ** Identifiers *)

(** The loop ranges over runes; a rune outside ASCII fails the test, as does
    each of its bytes. *)
Definition anomalyContentID (s : string) : bool :=
  if negb (str_len s =? 7 + 64) || negb (HasPrefix s "sha256:") then false
  else str_forall lower_hex (str_drop 7 s).

Definition contentIDNamespaces : list string := ["clievidence"; "cliobs"; "cliexp"; "clisubject"].

Fixpoint namespaced (nss : list string) (s : string) : bool :=
  match nss with
  | [] => false
  | ns :: nss' =>
      match CutPrefix s (ns +:+ ":") with
      | Some rest => anomalyContentID rest
      | None => namespaced nss' s
      end
  end.

Definition IsNamespacedContentID (s : string) : bool := namespaced contentIDNamespaces s.

Definition anomalyEvidenceID (s : string) : bool :=
  if anomalyContentID s then true
  else match CutPrefix s "clievidence:" with
       | Some rest => anomalyContentID rest
       | None => false
       end.

Definition anomalyReferenceID (s : string) : bool :=
  if String.eqb s "" || (256 <? str_len s) then false
  else if anomalyContentID s then true
  else if negb (str_exists (Ascii.eqb ":") s) then false
  else str_forall (fun c => is_alnum c || in_set "-_.:@+" c) s.

Definition anomalyErrorCode (s : string) : bool :=
  if String.eqb s "" then true
  else if 128 <? str_len s then false
  else str_forall (fun c => is_alnum c || in_set "-_.:" c) s.

Definition anomalyStage (s : string) : bool :=
  str_in s [""; "resolve"; "compile"; "typecheck"; "test"; "run"; "contract"].

(** ** Normalisation *)

Definition normalizeResult (s : string) : string :=
  let u := ToUpper (TrimSpace s) in
  if String.eqb u "PASS" then "PASS"
  else if String.eqb u "FAIL" then "FAIL"
  else if str_in u [""; "UNKNOWN"] then "UNKNOWN"
  else "".

Definition normalizeLower (s : string) : string := ToLower (TrimSpace s).

Definition normalizeObservation (o : AnomalyObservation) : AnomalyObservation :=
  mkObservation (normalizeResult (ao_Result o)) (normalizeLower (ao_Stage o)) (ao_Detail o).

Definition or_else (s d : string) : string := if String.eqb s "" then d else s.

(** [AnomalyReport.Normalize]. *)
Definition report_Normalize (r : AnomalyReport) : AnomalyReport :=
  {| ar_SchemaVersion := ar_SchemaVersion r;
     ar_AnomalyType := normalizeLower (ar_AnomalyType r);
     ar_Package := TrimSpace (ar_Package r);
     ar_Symbol := TrimSpace (ar_Symbol r);
     ar_Environment := env_Normalize (ar_Environment r);
     ar_SampleID := TrimSpace (ar_SampleID r);
     ar_EvidenceID := TrimSpace (ar_EvidenceID r);
     ar_SearchFingerprint := TrimSpace (ar_SearchFingerprint r);
     ar_CSXObserved := normalizeObservation (ar_CSXObserved r);
     ar_LocalObserved := normalizeObservation (ar_LocalObserved r);
     ar_Reproducible := or_else (normalizeLower (ar_Reproducible r)) "unknown";
     ar_Confidence := or_else (normalizeLower (ar_Confidence r)) "medium";
     ar_ErrorCode := TrimSpace (ar_ErrorCode r);
     ar_ErrorFingerprint := ToLower (TrimSpace (ar_ErrorFingerprint r));
     ar_ErrorTemplate := ar_ErrorTemplate r;
     ar_RelatedIDs := ar_RelatedIDs r;
     ar_LLMHypothesis := ar_LLMHypothesis r |}.

(** ** Admission *)

(** The mismatch itself, by type. *)
Definition check_mismatch (r : AnomalyReport) : option anomaly_error :=
  let csx := ao_Result (ar_CSXObserved r) in
  let local := ao_Result (ar_LocalObserved r) in
  if str_in (ar_AnomalyType r) [AnomalyDependencyGraphUnknown; AnomalyBrokenInternalReference] then
    if negb (String.eqb csx "UNKNOWN") then Some ErrAnomalyNoMismatch else None
  else if str_in (ar_AnomalyType r) [AnomalyEvidenceConflict; AnomalySymbolSignatureMismatch] then
    if String.eqb csx "UNKNOWN" || String.eqb csx local then Some ErrAnomalyNoMismatch else None
  else if String.eqb (ar_AnomalyType r) AnomalyRepeatedNoSafeMatch then
    if negb (String.eqb local "FAIL") || String.eqb (ar_ErrorFingerprint r) ""
       || negb (String.eqb (ar_Reproducible r) "yes")
    then Some ErrAnomalyNoSafeMatchAlone else None
  else
    if String.eqb csx local || String.eqb csx "UNKNOWN" then Some ErrAnomalyNoMismatch else None.

(** [AnomalyReport.Validate]; [None] is the nil error. *)
Definition report_Validate (r : AnomalyReport) : option anomaly_error :=
  let csx := ar_CSXObserved r in
  let local := ar_LocalObserved r in
  if negb (ar_SchemaVersion r =? AnomalyReportSchemaVersion) then Some ErrAnomalySchema
  else if negb (str_in (ar_AnomalyType r) AnomalyTypes) then Some ErrAnomalyType
  else if negb (is_ok (ParsePURL (ar_Package r))) then Some ErrAnomalyPackage
  else if negb (String.eqb (ao_Result local) "PASS") && negb (String.eqb (ao_Result local) "FAIL")
  then Some ErrAnomalyNoLocalObs
  else if String.eqb (ao_Result csx) "" || String.eqb (ar_Reproducible r) "" then Some ErrAnomalyNoMismatch
  else if negb (anomalyStage (ao_Stage csx)) || negb (anomalyStage (ao_Stage local)) then Some ErrAnomalyStage
  else if (negb (String.eqb (ar_SampleID r) "") && negb (anomalyContentID (ar_SampleID r)))
       || (negb (String.eqb (ar_EvidenceID r) "") && negb (anomalyEvidenceID (ar_EvidenceID r)))
       || (negb (String.eqb (ar_SearchFingerprint r) "") && negb (anomalyContentID (ar_SearchFingerprint r)))
       || (negb (String.eqb (ar_ErrorFingerprint r) "") && negb (anomalyContentID (ar_ErrorFingerprint r)))
  then Some ErrAnomalyIdentifier
  else if negb (forallb anomalyReferenceID (ar_RelatedIDs r)) then Some ErrAnomalyIdentifier
  else if negb (anomalyErrorCode (ar_ErrorCode r)) then Some ErrAnomalyErrorCode
  else if negb (str_in (ar_Reproducible r) ["yes"; "no"; "unknown"]) then Some ErrAnomalyReproducible
  else if negb (str_in (ar_Confidence r) ["low"; "medium"; "high"]) then Some ErrAnomalyConfidence
  else check_mismatch r.

(** ** Fingerprint and verdict *)

Definition env_key_parts (env : EnvironmentFingerprint) : list string :=
  let env := env_Normalize env in
  [normalizeLower (env_Ecosystem env); normalizeLower (env_OS env); normalizeLower (env_Arch env);
   normalizeLower (env_Runtime env); normalizeLower (RuntimeLine (env_Runtime env) (env_RuntimeVersion env));
   normalizeLower (env_Libc env); normalizeLower (env_ExecutionContext env);
   normalizeLower (env_BrowserFamily env); normalizeLower (env_BrowserMajor env)].

Definition anomalyEnvKey (env : EnvironmentFingerprint) : string := Join (env_key_parts env) "|".

Definition fingerprint_parts (n : AnomalyReport) : list string :=
  ["anomaly"; "v1"; ar_AnomalyType n; ar_Package n; ar_Symbol n; anomalyEnvKey (ar_Environment n);
   ao_Result (ar_CSXObserved n); ao_Result (ar_LocalObserved n); ao_Stage (ar_LocalObserved n);
   ar_ErrorCode n; ar_ErrorFingerprint n; ar_SampleID n].

(** The text that is digested. *)
Definition fingerprint_text (r : AnomalyReport) : string := Join (fingerprint_parts (report_Normalize r)) "|".

(** [AnomalyReport.Fingerprint]. *)
Definition report_Fingerprint (r : AnomalyReport) : string := SHA256Hex (fingerprint_text r).

(** [receipt.Stages["contract"]], the empty string when absent. *)
Definition stage_result (receipt : VerificationReceipt) (stage : string) : string :=
  default "" (vr_Stages receipt !! stage).

Definition AnomalyVerdictFromReceipt (report : AnomalyReport) (receipt : VerificationReceipt) : string * bool :=
  let r := report_Normalize report in
  if str_in (ar_AnomalyType r)
       [AnomalyDependencyGraphUnknown; AnomalyEvidenceConflict; AnomalyBrokenInternalReference]
  then (anomalyVerdictUndecidedInternalMarker, false)
  else
    let contract := normalizeResult (stage_result receipt "contract") in
    if negb (String.eqb contract "PASS") && negb (String.eqb contract "FAIL")
    then (anomalyVerdictUndecidedInternalMarker, false)
    else
      let sameEnvironment := String.eqb (anomalyEnvKey (ar_Environment r)) (anomalyEnvKey (vr_Environment receipt)) in
      if String.eqb contract (ao_Result (ar_LocalObserved r))
         && negb (String.eqb contract (ao_Result (ar_CSXObserved r)))
      then
        if String.eqb (ar_AnomalyType r) AnomalyCSXFailLocalPass then (AnomalyVerdictNewEvidence, true)
        else if str_in (ar_AnomalyType r) [AnomalySymbolSignatureMismatch; AnomalyUpgradePathBroken]
        then (AnomalyVerdictCompatibilityBoundary, true)
        else (AnomalyVerdictCSXDefect, true)
      else if sameEnvironment then (AnomalyVerdictNotReproducible, true)
      else (AnomalyVerdictEnvironmentDifference, true).

(** ** An example report *)

Definition report_example : AnomalyReport :=
  mkReport 1 " CSX-Pass-Local-Fail" "pkg:npm/axios@1.12.0" "axios.get" env_example "" "" ""
    (mkObservation "pass" "" "") (mkObservation "Fail " "Run" "threw") "YES" "" "ERR_BAD"
    "" "" ["cliobs:abc"] "a guess".

Example report_example_admitted : report_Validate (report_Normalize report_example) = None.
Proof. vm_compute. reflexivity. Qed.

(** ** Laws of the normaliser *)

Lemma normalizeResult_range s : In (normalizeResult s) ["PASS"; "FAIL"; "UNKNOWN"; ""].
Proof. unfold normalizeResult. cbn zeta. split_ifs; simpl; tauto. Qed.

Lemma normalizeResult_fixed s : normalizeResult s <> "" -> normalizeResult (normalizeResult s) = normalizeResult s.
Proof.
  intros H. pose proof (normalizeResult_range s) as R. revert H R. generalize (normalizeResult s).
  intros u H [<- | [<- | [<- | [<- | []]]]]; first [vm_compute; reflexivity | done].
Qed.

Lemma normalizeLower_idem s : normalizeLower (normalizeLower s) = normalizeLower s.
Proof. unfold normalizeLower. by rewrite TrimSpace_ToLower, ToLower_idem. Qed.

Lemma or_else_lower_idem s d : normalizeLower d = d -> d <> "" ->
  or_else (normalizeLower (or_else (normalizeLower s) d)) d = or_else (normalizeLower s) d.
Proof.
  intros Hd Hn. unfold or_else at 2 3. destruct (String.eqb_spec (normalizeLower s) "") as [_|N].
  - rewrite Hd. unfold or_else. by apply String.eqb_neq in Hn as ->.
  - rewrite normalizeLower_idem. unfold or_else. by apply String.eqb_neq in N as ->.
Qed.

Lemma normalizeObservation_idem o : ao_Result (normalizeObservation o) <> "" ->
  normalizeObservation (normalizeObservation o) = normalizeObservation o.
Proof. intros H. unfold normalizeObservation in *. cbn in *. by rewrite normalizeResult_fixed, normalizeLower_idem. Qed.

Lemma report_Normalize_idem r :
  ao_Result (ar_CSXObserved (report_Normalize r)) <> "" ->
  ao_Result (ar_LocalObserved (report_Normalize r)) <> "" ->
  report_Normalize (report_Normalize r) = report_Normalize r.
Proof.
  intros Hc Hl. unfold report_Normalize in *. cbn [ar_SchemaVersion ar_AnomalyType ar_Package ar_Symbol
    ar_Environment ar_SampleID ar_EvidenceID ar_SearchFingerprint ar_CSXObserved ar_LocalObserved
    ar_Reproducible ar_Confidence ar_ErrorCode ar_ErrorFingerprint ar_ErrorTemplate ar_RelatedIDs ar_LLMHypothesis] in *.
  rewrite !normalizeLower_idem, !TrimSpace_idem, !normalizeObservation_idem by done.
  rewrite !or_else_lower_idem by done. rewrite TrimSpace_ToLower, ToLower_idem.
  by rewrite (proj1 (Normalize_idem _)).
Qed.

(** On a report it would refuse, a second pass does guess: the unrecognised
    literal becomes UNKNOWN. *)
Example normalizeResult_second_pass :
  normalizeResult "banana" = "" /\ normalizeResult (normalizeResult "banana") = "UNKNOWN".
Proof. vm_compute. done. Qed.

(** ** The admission test *)

(** What an admitted report is, field by field. *)
Definition mismatch (r : AnomalyReport) : Prop :=
  let csx := ao_Result (ar_CSXObserved r) in
  let local := ao_Result (ar_LocalObserved r) in
  (ar_AnomalyType r = AnomalyDependencyGraphUnknown \/ ar_AnomalyType r = AnomalyBrokenInternalReference)
    /\ csx = "UNKNOWN"
  \/ ar_AnomalyType r = AnomalyRepeatedNoSafeMatch
    /\ local = "FAIL" /\ ar_ErrorFingerprint r <> "" /\ ar_Reproducible r = "yes"
  \/ In (ar_AnomalyType r) [AnomalyCSXPassLocalFail; AnomalyCSXFailLocalPass; AnomalySymbolSignatureMismatch;
       AnomalyUpgradePathBroken; AnomalyEvidenceConflict]
    /\ csx <> "UNKNOWN" /\ csx <> local.

Record admissible (r : AnomalyReport) : Prop := {
  adm_schema : ar_SchemaVersion r = AnomalyReportSchemaVersion;
  adm_type : In (ar_AnomalyType r) AnomalyTypes;
  adm_package : exists p, ParsePURL (ar_Package r) = Ok p;
  adm_local : ao_Result (ar_LocalObserved r) = "PASS" \/ ao_Result (ar_LocalObserved r) = "FAIL";
  adm_csx : ao_Result (ar_CSXObserved r) <> "";
  adm_stages : anomalyStage (ao_Stage (ar_CSXObserved r)) = true /\ anomalyStage (ao_Stage (ar_LocalObserved r)) = true;
  adm_sample : ar_SampleID r = "" \/ anomalyContentID (ar_SampleID r) = true;
  adm_evidence : ar_EvidenceID r = "" \/ anomalyEvidenceID (ar_EvidenceID r) = true;
  adm_search : ar_SearchFingerprint r = "" \/ anomalyContentID (ar_SearchFingerprint r) = true;
  adm_error : ar_ErrorFingerprint r = "" \/ anomalyContentID (ar_ErrorFingerprint r) = true;
  adm_related : Forall (fun id => anomalyReferenceID id = true) (ar_RelatedIDs r);
  adm_code : anomalyErrorCode (ar_ErrorCode r) = true;
  adm_reproducible : In (ar_Reproducible r) ["yes"; "no"; "unknown"];
  adm_confidence : In (ar_Confidence r) ["low"; "medium"; "high"];
  adm_mismatch : mismatch r
}.

Lemma ids_ok s (p : string -> bool) :
  negb (String.eqb s "") && negb (p s) = false <-> s = "" \/ p s = true.
Proof. destruct (String.eqb_spec s ""), (p s); simpl; intuition congruence. Qed.

Lemma not_in_str s l : str_in s l = false <-> ~ In s l.
Proof. rewrite <- not_true_iff_false, str_in_In. done. Qed.

(** Decides which branch a literal anomaly type takes. *)
Ltac eval_types :=
  repeat match goal with
  | |- context [str_in ?a ?l] =>
      let v := eval vm_compute in (str_in a l) in
      match v with true => idtac | false => idtac end; change (str_in a l) with v; cbn iota
  | |- context [String.eqb ?a AnomalyRepeatedNoSafeMatch] =>
      let v := eval vm_compute in (String.eqb a AnomalyRepeatedNoSafeMatch) in
      match v with true => idtac | false => idtac end; change (String.eqb a AnomalyRepeatedNoSafeMatch) with v; cbn iota
  end.

Ltac unfold_types :=
  unfold AnomalyCSXPassLocalFail, AnomalyCSXFailLocalPass, AnomalySymbolSignatureMismatch, AnomalyUpgradePathBroken,
    AnomalyDependencyGraphUnknown, AnomalyEvidenceConflict, AnomalyBrokenInternalReference, AnomalyRepeatedNoSafeMatch in *.

Lemma check_mismatch_spec r : In (ar_AnomalyType r) AnomalyTypes -> (check_mismatch r = None <-> mismatch r).
Proof.
  intros T. unfold check_mismatch, mismatch. cbn zeta.
  set (csx := ao_Result (ar_CSXObserved r)). set (local := ao_Result (ar_LocalObserved r)).
  destruct (String.eqb_spec (ar_AnomalyType r) AnomalyRepeatedNoSafeMatch) as [-> | N].
  - eval_types. destruct (String.eqb_spec local "FAIL"), (String.eqb_spec (ar_ErrorFingerprint r) ""),
      (String.eqb_spec (ar_Reproducible r) "yes"); simpl; unfold_types; intuition first [discriminate | congruence].
  - destruct T as [E | [E | [E | [E | [E | [E | [E | [E | []]]]]]]]]; [..|done]; rewrite <- E; clear N E; eval_types;
      destruct (String.eqb_spec csx "UNKNOWN"), (String.eqb_spec csx local); simpl;
      unfold_types; intuition first [discriminate | congruence].
Qed.

(** One guard of the admission test. *)
Lemma guard_spec {E} (b : bool) (e : E) (rest : option E) :
  (if b then Some e else rest) = None <-> b = false /\ rest = None.
Proof. destruct b; intuition congruence. Qed.

Lemma is_ok_spec {A E} (x : result A E) : is_ok x = true <-> exists a, x = Ok a.
Proof. destruct x; simpl; split; [eauto|done|done|intros [? [=]]]. Qed.

Lemma forallb_Forall {A} (p : A -> bool) l : forallb p l = true <-> Forall (fun x => p x = true) l.
Proof. rewrite forallb_forall, List.Forall_forall. done. Qed.

Lemma not_neither_spec s x y : negb (String.eqb s x) && negb (String.eqb s y) = false <-> s = x \/ s = y.
Proof. destruct (String.eqb_spec s x), (String.eqb_spec s y); simpl; intuition congruence. Qed.

Lemma report_Validate_spec r : report_Validate r = None <-> admissible r.
Proof.
  unfold report_Validate. cbn zeta.
  rewrite !guard_spec, !orb_false_iff, !negb_false_iff, !str_in_In, !ids_ok, Z.eqb_eq, is_ok_spec, forallb_Forall,
    not_neither_spec, !String.eqb_neq.
  split.
  - intros (H1 & H2 & H3 & H4 & [H5 _] & H6 & [[[H7 H8] H9] H10] & H11 & H12 & H13 & H14 & H15).
    constructor; try done. by apply check_mismatch_spec.
  - intros []. repeat (split; [first [done | tauto | split; [done|]]|]).
    all: try by apply check_mismatch_spec.
    intros E. rewrite E in adm_reproducible0. by destruct adm_reproducible0 as [X|[X|[X|[]]]].
Qed.

(** The admission test admits exactly the reports that can be verified
    again: known schema and type, a package that parses, a measured local
    PASS or FAIL, a mismatch of the shape its type names, and only canonical
    identifiers.  In a normalised report of one of the two-sided types the
    network's result and the local one are then PASS and FAIL, in one order or
    the other. *)
Theorem admission_characterised r :
  let n := report_Normalize r in
  let csx := ao_Result (ar_CSXObserved n) in
  let local := ao_Result (ar_LocalObserved n) in
  (report_Validate n = None <-> admissible n)
  /\ (report_Validate n = None ->
      In (ar_AnomalyType n) [AnomalyCSXPassLocalFail; AnomalyCSXFailLocalPass; AnomalySymbolSignatureMismatch;
        AnomalyUpgradePathBroken; AnomalyEvidenceConflict] ->
      csx = "PASS" /\ local = "FAIL" \/ csx = "FAIL" /\ local = "PASS").
Proof.
  intros n csx local. split; [apply report_Validate_spec|]. rewrite report_Validate_spec.
  intros [_ T _ L C _ _ _ _ _ _ _ _ _ M] Ht.
  assert (csx <> "UNKNOWN" /\ csx <> local) as [N1 N2].
  { destruct M as [[[E|E] _] | [[E _] | [_ M]]]; [..|exact M]; exfalso; rewrite E in Ht; revert Ht;
      clear; unfold_types; simpl; intuition discriminate. }
  pose proof (normalizeResult_range (ao_Result (ar_CSXObserved r))) as R. fold csx in C. fold local in L.
  change (normalizeResult (ao_Result (ar_CSXObserved r))) with csx in R. clearbody csx local. clear M T Ht.
  simpl in R. intuition congruence.
Qed.

Lemma admission_characterised_witness :
  let n := report_Normalize report_example in
  ao_Result (ar_CSXObserved n) = "PASS" /\ ao_Result (ar_LocalObserved n) = "FAIL"
  \/ ao_Result (ar_CSXObserved n) = "FAIL" /\ ao_Result (ar_LocalObserved n) = "PASS".
Proof. apply (proj2 (admission_characterised report_example)); [vm_compute; reflexivity|left; vm_compute; reflexivity]. Defined.

(** ** The dedupe key *)

(** The fields of a report that say what was measured where, normalised. *)
Definition claim_fields (r : AnomalyReport) : list string :=
  let n := report_Normalize r in
  ["anomaly"; "v1"; ar_AnomalyType n; ar_Package n; ar_Symbol n]
  ++ env_key_parts (ar_Environment n)
  ++ [ao_Result (ar_CSXObserved n); ao_Result (ar_LocalObserved n); ao_Stage (ar_LocalObserved n);
      ar_ErrorCode n; ar_ErrorFingerprint n; ar_SampleID n].

Definition separator_free (r : AnomalyReport) : Prop := Forall (fun w => lacks "|" w = true) (claim_fields r).

Lemma fingerprint_text_fields r : fingerprint_text r = Join (claim_fields r) "|".
Proof.
  unfold fingerprint_text, fingerprint_parts, claim_fields, anomalyEnvKey, env_key_parts. cbn zeta.
  cbn [app Join]. rewrite !str_app_assoc. reflexivity.
Qed.

Lemma claim_fields_length r : length (claim_fields r) = 20%nat.
Proof. reflexivity. Qed.

(** The same report with other prose: explanation, confidence, details and
    the references that are not part of the claim. *)
Definition with_prose (evidence search csxStage csxDetail localDetail reproducible confidence template : string)
    (related : list string) (hypothesis : string) (r : AnomalyReport) : AnomalyReport :=
  mkReport (ar_SchemaVersion r) (ar_AnomalyType r) (ar_Package r) (ar_Symbol r) (ar_Environment r)
    (ar_SampleID r) evidence search
    (mkObservation (ao_Result (ar_CSXObserved r)) csxStage csxDetail)
    (mkObservation (ao_Result (ar_LocalObserved r)) (ao_Stage (ar_LocalObserved r)) localDetail)
    reproducible confidence (ar_ErrorCode r) (ar_ErrorFingerprint r) template related hypothesis.

Definition set_Ecosystem_Symbol (eco sym : string) (r : AnomalyReport) : AnomalyReport :=
  let e := ar_Environment r in
  mkReport (ar_SchemaVersion r) (ar_AnomalyType r) (ar_Package r) sym
    (mkEnv (env_SchemaVersion e) eco (env_OS e) (env_OSVersionBucket e) (env_Arch e) (env_Runtime e)
       (env_RuntimeVersion e) (env_Language e) (env_LanguageVersion e) (env_Compiler e) (env_CompilerVersion e)
       (env_PackageManager e) (env_PackageManagerVersion e) (env_ModuleSystem e) (env_Frameworks e)
       (env_ExecutionContext e) (env_BrowserFamily e) (env_BrowserMajor e) (env_Engine e) (env_EngineVersion e)
       (env_Virtualization e) (env_ContainerRuntime e) (env_Libc e) (env_LibcVersion e) (env_Distro e) (env_CI e))
    (ar_SampleID r) (ar_EvidenceID r) (ar_SearchFingerprint r) (ar_CSXObserved r) (ar_LocalObserved r)
    (ar_Reproducible r) (ar_Confidence r) (ar_ErrorCode r) (ar_ErrorFingerprint r) (ar_ErrorTemplate r)
    (ar_RelatedIDs r) (ar_LLMHypothesis r).

(** The fingerprint is a dedupe key.  Normalising an admitted report
    again changes nothing, so the client and the server compute the same key;
    prose, confidence and unrelated references do not enter it; and for
    reports whose fields hold no separator, the digested text is the same
    exactly when every normalised claim field is. *)
Theorem fingerprint_is_dedupe_key r :
  (report_Validate (report_Normalize r) = None ->
     report_Normalize (report_Normalize r) = report_Normalize r
     /\ report_Fingerprint (report_Normalize r) = report_Fingerprint r)
  /\ (forall e s cs cd ld rep conf t rel h,
        report_Fingerprint (with_prose e s cs cd ld rep conf t rel h r) = report_Fingerprint r)
  /\ (forall r', separator_free r -> separator_free r' ->
        (fingerprint_text r = fingerprint_text r' <-> claim_fields r = claim_fields r')).
Proof.
  split; [|split].
  - rewrite report_Validate_spec. intros [_ _ _ L C _ _ _ _ _ _ _ _ _ _].
    assert (report_Normalize (report_Normalize r) = report_Normalize r) as I.
    { apply report_Normalize_idem; [done|]. by destruct L as [-> | ->]. }
    split; [exact I|]. unfold report_Fingerprint, fingerprint_text. by rewrite I.
  - reflexivity.
  - intros r' H H'. rewrite !fingerprint_text_fields. split; [|by intros ->]. intros E.
    rewrite <- (Split_Join_sep (claim_fields r) "|"), <- (Split_Join_sep (claim_fields r') "|") by done.
    by change (single "|") with "|"; rewrite E.
Qed.

Lemma fingerprint_is_dedupe_key_witness :
  report_Fingerprint (report_Normalize report_example) = report_Fingerprint report_example
  /\ fingerprint_text report_example <> fingerprint_text (set_Ecosystem_Symbol "npm" "axios.post" report_example).
Proof.
  split; [apply (proj1 (fingerprint_is_dedupe_key report_example)); vm_compute; reflexivity|].
  rewrite (proj2 (proj2 (fingerprint_is_dedupe_key report_example)) (set_Ecosystem_Symbol "npm" "axios.post" report_example));
    [vm_compute; discriminate|unfold separator_free; vm_compute; repeat constructor..].
Defined.

(** With a separator inside a field two admitted reports about different
    symbols share one key. *)
Example fingerprint_separator_collision :
  let r1 := set_Ecosystem_Symbol "npm" "a|b" report_example in
  let r2 := set_Ecosystem_Symbol "b|npm" "a" report_example in
  report_Validate (report_Normalize r1) = None /\ report_Validate (report_Normalize r2) = None
  /\ ar_Symbol r1 <> ar_Symbol r2 /\ report_Fingerprint r1 = report_Fingerprint r2.
Proof.
  split; [vm_compute; reflexivity|]. split; [vm_compute; reflexivity|]. split; [discriminate|].
  vm_compute. reflexivity.
Qed.

(** ** Verdicts *)

Definition contract_result (receipt : VerificationReceipt) : string := normalizeResult (stage_result receipt "contract").

Definition concrete (s : string) : Prop := s = "PASS" \/ s = "FAIL".

(** The types a contract run says nothing about. *)
Definition untestable : list string :=
  [AnomalyDependencyGraphUnknown; AnomalyEvidenceConflict; AnomalyBrokenInternalReference].

(** A verdict is computed from measurements only.  Nothing is decided
    when the contract never gave PASS or FAIL or when the claim is of a kind a
    contract does not test; a decided verdict is a confirmation exactly when
    the receipt agrees with the reporter and contradicts what was served; an
    unconfirmed one names the environment exactly when the two populations
    differ; and reports that agree on type, results and environment
    population, against receipts that agree on contract result and
    population, get the same verdict. *)
Theorem verdict_from_measurements report receipt :
  let r := report_Normalize report in
  let c := contract_result receipt in
  let v := AnomalyVerdictFromReceipt report receipt in
  (snd v = true <-> ~ In (ar_AnomalyType r) untestable /\ concrete c)
  /\ (AnomalyVerdictConfirmed (fst v) = true <->
       snd v = true /\ c = ao_Result (ar_LocalObserved r) /\ c <> ao_Result (ar_CSXObserved r))
  /\ (snd v = true -> AnomalyVerdictConfirmed (fst v) = false ->
       fst v = if String.eqb (anomalyEnvKey (ar_Environment r)) (anomalyEnvKey (vr_Environment receipt))
               then AnomalyVerdictNotReproducible else AnomalyVerdictEnvironmentDifference)
  /\ (forall report' receipt',
       let r' := report_Normalize report' in
       ar_AnomalyType r' = ar_AnomalyType r ->
       ao_Result (ar_LocalObserved r') = ao_Result (ar_LocalObserved r) ->
       ao_Result (ar_CSXObserved r') = ao_Result (ar_CSXObserved r) ->
       anomalyEnvKey (ar_Environment r') = anomalyEnvKey (ar_Environment r) ->
       contract_result receipt' = c ->
       anomalyEnvKey (vr_Environment receipt') = anomalyEnvKey (vr_Environment receipt) ->
       AnomalyVerdictFromReceipt report' receipt' = v).
Proof.
  intros r c v. split; [|split; [|split]].
  4: { intros report' receipt' r' E1 E2 E3 E4 E5 E6. unfold v, AnomalyVerdictFromReceipt. cbn zeta.
       fold r r' (contract_result receipt) (contract_result receipt') c. by rewrite E1, E2, E3, E4, E5, E6. }
  all: unfold v, AnomalyVerdictFromReceipt; cbn zeta; fold r (contract_result receipt) c; fold untestable;
    generalize (ar_AnomalyType r); intros ty;
    set (same := String.eqb (anomalyEnvKey _) _); set (local := ao_Result (ar_LocalObserved r));
    set (csx := ao_Result (ar_CSXObserved r)); clearbody same local csx c.
  - rewrite <- not_in_str. unfold concrete. rewrite <- not_neither_spec.
    destruct (str_in ty untestable) eqn:U; [simpl; intuition congruence|].
    destruct (negb (String.eqb c "PASS") && negb (String.eqb c "FAIL")) eqn:C; [simpl; intuition congruence|].
    split_ifs; simpl; intuition congruence.
  - destruct (str_in ty untestable) eqn:U; [vm_compute; intuition congruence|].
    destruct (negb (String.eqb c "PASS") && negb (String.eqb c "FAIL")) eqn:C; [vm_compute; intuition congruence|].
    destruct (String.eqb_spec c local) as [E1|E1], (String.eqb_spec c csx) as [E2|E2]; simpl;
      split_ifs; vm_compute; intuition congruence.
  - split_ifs; try done; intros _ X; vm_compute in X; discriminate X.
Qed.

Definition receipt_example : VerificationReceipt :=
  mkReceipt 1 "" "" "" env_example {[ "contract" := "FAIL" ]} ∅ [] None "" "" "" "" "" "" "".

Lemma verdict_from_measurements_witness :
  let receipt2 := mkReceipt 1 "s" "" "" (env_Normalize env_example) {[ "contract" := "fail"; "compile" := "PASS" ]} ∅ [] None "" "" "" "" "p" "" "" in
  AnomalyVerdictFromReceipt report_example receipt_example = (AnomalyVerdictCSXDefect, true)
  /\ AnomalyVerdictFromReceipt (with_prose "" "" "" "" "" "" "low" "" [] "it is cursed" report_example) receipt2
     = AnomalyVerdictFromReceipt report_example receipt_example.
Proof.
  split; [vm_compute; reflexivity|].
  apply (proj2 (proj2 (proj2 (verdict_from_measurements report_example receipt_example)))); vm_compute; reflexivity.
Defined.

(** ** The ids the system mints are the ids it admits *)

Lemma anomalyContentID_spec s :
  anomalyContentID s = true <-> exists h, s = "sha256:" +:+ h /\ String.length h = 64%nat /\ str_forall lower_hex h = true.
Proof.
  unfold anomalyContentID, str_len. split.
  - intros H. split_ifs_in H; [discriminate|]. bool_facts. apply HasPrefix_spec in H1 as [h ->].
    exists h. change (str_drop 7 ("sha256:" +:+ h)) with h in H. rewrite str_len_app in H0. simpl in H0. split; [done|].
    split; [lia|done].
  - intros (h & -> & L & F). rewrite HasPrefix_app, str_len_app, L. simpl. done.
Qed.

Lemma digest_ContentID m : anomalyContentID ("sha256:" +:+ sha256_hex m) = true.
Proof. destruct (sha256_hex_shape m). apply anomalyContentID_spec. eauto. Qed.

(** Bytes of an admitted reference: no path, URL or blank byte. *)
Definition reference_byte (c : ascii) : bool := is_alnum c || in_set "-_.:@+" c.

Lemma lower_hex_alnum c : lower_hex c = true -> reference_byte c = true.
Proof.
  unfold lower_hex, reference_byte, is_alnum, is_lower. intros H. apply orb_true_intro. left.
  destruct (is_digit c); [done|]. simpl in *. bool_facts. apply orb_true_intro. left. apply andb_true_intro.
  rewrite !Z.leb_le. lia.
Qed.

Lemma ContentID_bytes s : anomalyContentID s = true -> str_forall reference_byte s = true.
Proof.
  intros (h & -> & _ & F)%anomalyContentID_spec. rewrite str_forall_app.
  rewrite (str_forall_impl _ reference_byte h lower_hex_alnum F). reflexivity.
Qed.

Lemma namespaced_Reference ns s : str_forall reference_byte ns = true -> (String.length ns <= 100)%nat ->
  anomalyContentID s = true -> anomalyReferenceID (ns +:+ ":" +:+ s) = true.
Proof.
  intros Hn Hl Hs. pose proof (ContentID_bytes s Hs) as F. apply anomalyContentID_spec in Hs as (h & E & L & _).
  unfold anomalyReferenceID, str_len, str_exists. rewrite !str_len_app, !str_forall_app.
  fold reference_byte. rewrite Hn, F.
  assert (String.length s = 71%nat) as -> by (rewrite E, str_len_app, L; reflexivity).
  replace (String.eqb (ns +:+ ":" +:+ s) "") with false by (symmetry; apply String.eqb_neq; by destruct ns).
  replace (256 <? _) with false by (symmetry; apply Z.ltb_ge; simpl; lia).
  change (str_forall (fun c => negb (Ascii.eqb ":" c)) ":") with false.
  rewrite andb_false_r. simpl. by destruct (anomalyContentID _).
Qed.

Lemma Reference_bytes s : anomalyReferenceID s = true -> str_forall reference_byte s = true.
Proof.
  unfold anomalyReferenceID. intros H. split_ifs_in H; try discriminate; [by apply ContentID_bytes|exact H].
Qed.

#[local] Opaque sha256_hex CanonicalJSON.

Lemma minted_id ns m : In ns contentIDNamespaces ->
  let id := ns +:+ ":" +:+ "sha256:" +:+ sha256_hex m in
  IsNamespacedContentID id = true /\ anomalyReferenceID id = true.
Proof.
  intros H id. split.
  - destruct H as [<- | [<- | [<- | [<- | []]]]]; apply digest_ContentID.
  - apply namespaced_Reference; [..|apply digest_ContentID];
      destruct H as [<- | [<- | [<- | [<- | []]]]]; first [reflexivity | simpl; lia].
Qed.

(** Every id the program mints for a record passes the test made for
    it: a content hash, a CLI evidence id, and the four namespaced ids, which
    are also admitted as related ids; and whatever is admitted as a related
    id consists of letters, digits and "-_.:@+", so no path, URL or blank
    gets in. *)
Theorem minted_ids_admitted {GS : GoSort} m coord subject obs :
  anomalyContentID (SHA256Hex m) = true
  /\ anomalyEvidenceID (EvidenceID obs) = true
  /\ Forall (fun id => IsNamespacedContentID id = true /\ anomalyReferenceID id = true)
       [EvidenceID obs; obs_ComputeID obs; CoordinateID coord; SubjectID subject]
  /\ (forall id, anomalyReferenceID id = true ->
       str_forall reference_byte id = true /\ Forall (fun c => lacks c id = true) ["/"; "\"; "%"; " "]%char).
Proof.
  split; [apply digest_ContentID|]. split; [|split].
  - unfold EvidenceID, anomalyEvidenceID. destruct (anomalyContentID _); [done|]. apply digest_ContentID.
  - apply List.Forall_cons; [apply (minted_id "clievidence"); simpl; tauto|].
    apply List.Forall_cons; [apply (minted_id "cliobs"); simpl; tauto|].
    apply List.Forall_cons; [apply (minted_id "cliexp"); simpl; tauto|].
    apply List.Forall_cons; [apply (minted_id "clisubject"); simpl; tauto|constructor].
  - intros id H. pose proof (Reference_bytes id H) as F. split; [done|].
    repeat constructor; (apply (lacks_of_forall reference_byte); [|exact F]; reflexivity).
Qed.

Lemma minted_ids_admitted_witness :
  anomalyReferenceID "cliobs:abc" = true /\ str_forall reference_byte "cliobs:abc" = true.
Proof.
  split; [vm_compute; reflexivity|].
  apply (proj2 (proj2 (proj2 (minted_ids_admitted (GS:=sort_by_insertion) "" coord_example subject_example (obs_example "PASS" 1 ""))))).
  vm_compute. reflexivity.
Defined.
