(* ===== verification/Sanitizer.v ===== *)
(** * The sanitizer of failure output (internal/sanitizer)

    Raw tool output becomes a privacy-safe template: error codes are
    protected, then paths, URLs, e-mail addresses, secret assignments, quoted
    literals, tokens, the user's own name and line numbers are replaced by
    placeholders.  The public summary of a failure is an excerpt of the
    template; the server recomputes it and refuses a batch whose summary is
    not its own normal form. *)

From S2P Require Import Prelude GoStrings GoUnicode GoStd StringFacts UnicodeFacts WordFacts Regexp Hash Json.
From S2P Require Import Purl Env Failure Anomaly.

(** ** Patterns *)

Definition quote_c : string := single (chr 34).
Definition newline : string := single (chr 10).

Definition reTSCode : regex := RSeqs [RWordB; RLit "TS"; RBetween 4 5 (RClass re_digit); RWordB].
Definition reNodeCode : regex := RSeqs [RWordB; RLit "ERR_"; RPlus (RClass (either re_upper (any_of "_"))); RWordB].
Definition reRustCode : regex := RSeqs [RWordB; RLit "E"; RExact 4 (RClass re_digit); RWordB].
Definition reErrnoCode : regex :=
  RSeqs [RWordB; RLit "E"; RAtLeast 2 (RClass re_upper); RStar (RClass re_digit); RWordB].
Definition codeClasses : list regex := [reTSCode; reNodeCode; reRustCode; reErrnoCode].

Definition reExitCode : regex :=
  RSeqs [RWordB; RCap 1 (RSeq (RLitFold "exit code") (RPlus (RClass re_space))); RPlus (RClass re_digit); RWordB].

(** Hexadecimal digits under [(?i)]. *)
Definition hex_fold : Z -> bool := either re_digit (either (rng "a" "f") (rng "A" "F")).
Definition reUUID : regex :=
  RSeqs [RWordB; RExact 8 (RClass hex_fold); RLit "-"; RExact 4 (RClass hex_fold); RLit "-";
         RClass (rng "1" "5"); RExact 3 (RClass hex_fold); RLit "-";
         RClass (any_of "89abAB"); RExact 3 (RClass hex_fold); RLit "-"; RExact 12 (RClass hex_fold); RWordB].
Definition reTime : regex :=
  RSeqs [RWordB; RExact 4 (RClass re_digit); RLit "-"; RExact 2 (RClass re_digit); RLit "-"; RExact 2 (RClass re_digit);
         RClass (any_of "T "); RPlus (RClass (either re_digit (any_of ":.")));
         ROpt (RAlt (RLit "Z") (RSeqs [RClass (any_of "+-"); RExact 2 (RClass re_digit); ROpt (RLit ":"); RExact 2 (RClass re_digit)]));
         RWordB].
Definition rePID : regex :=
  RSeqs [RWordB; RCap 1 (RSeqs [RLitFold "pid"; RStar (RClass re_space); ROpt (RClass (any_of "=:")); RStar (RClass re_space)]);
         RPlus (RClass re_digit); RWordB].
Definition reIPv4Port : regex :=
  RSeqs [RWordB; RExact 3 (RSeq (RBetween 1 3 (RClass re_digit)) (RLit ".")); RBetween 1 3 (RClass re_digit); RLit ":";
         RBetween 2 5 (RClass re_digit); RWordB].

(** Neither white space nor one of [set]. *)
Definition not_space_or (set : string) : Z -> bool := none_of (either re_space (any_of set)).
Definition quotes : string := quote_c +:+ "'".
Definition slashes : string := "\/".

Definition node_name : regex := RPlus (RClass (not_space_or (slashes +:+ quotes +:+ ":"))).
Definition reNodeModules : regex :=
  RSeqs [ROpt (RSeq (RClass re_alpha) (RLit ":")); RStar (RClass (not_space_or (quotes +:+ ":"))); RLit "node_modules";
         RClass (any_of slashes);
         RCap 1 (RAlt (RSeqs [RLit "@"; node_name; RClass (any_of slashes); node_name]) node_name);
         RStar (RClass (not_space_or (quotes +:+ ":")))].

Definition path_guard : regex := RCap 1 (RAlt RLineBegin (RClass (either re_space (any_of (quotes +:+ "([=")))))%string.
Definition reWinPath : regex :=
  RSeqs [path_guard; RCap 2 (RSeqs [RClass re_alpha; RLit ":"; RClass (any_of slashes); RPlus (RClass (not_space_or quotes))])].
Definition reUnixPath : regex :=
  RSeqs [path_guard; RCap 2 (RSeq (RLit "/") (RPlus (RClass (not_space_or (quotes +:+ ":")))))].
Definition reRelPath : regex :=
  RSeqs [RBetween 1 2 (RLit "."); RClass (any_of slashes); RPlus (RClass (not_space_or quotes))].

Definition reURL : regex :=
  RSeqs [RClass re_alpha; RStar (RClass (either re_alnum (any_of "+.-"))); RLit "://"; RPlus (RClass (not_space_or (quotes +:+ ")]>")))].
Definition reEmail : regex :=
  RSeqs [RPlus (RClass (either re_alnum (any_of "._%+-"))); RLit "@"; RPlus (RClass (either re_alnum (any_of ".-"))); RLit ".";
         RAtLeast 2 (RClass re_alpha)].
Definition reSecretAssignment : regex :=
  RSeqs [RWordB;
         RCap 1 (RAlts (RLitFold "password") [RLitFold "passwd"; RLitFold "secret"; RLitFold "token";
                   RSeqs [RLitFold "api"; ROpt (RClass (any_of "_-")); RLitFold "key"]; RLitFold "authorization"]);
         RStar (RClass re_space); RClass (any_of ":="); RStar (RClass (none_of (fun r => (r =? 13) || (r =? 10))))].
Definition token_tail : regex := RAtLeast 16 (RClass re_word).
Definition reKnownToken : regex :=
  RSeqs [RWordB; RAlt (RSeqs [RLit "gh"; RClass (any_of "pousr"); RLit "_"; token_tail]) (RSeq (RLit "github_pat_") token_tail); RWordB].
Definition quoted (q : string) : regex := RSeqs [RLit q; RStar (RClass (none_of (any_of (q +:+ newline)))); RLit q].
Definition reDQuote : regex := quoted quote_c.
Definition reSQuote : regex := quoted "'".

Definition reTokenCand : regex := RAtLeast 20 (RClass (either re_alnum (any_of "+/="))).
Definition reHexOnly : regex := RSeqs [RTextBegin; RPlus (RClass hex_fold); RTextEnd].

Definition reParenLineCol : regex :=
  RSeqs [RLit "("; RPlus (RClass re_digit); RLit ","; RPlus (RClass re_digit); RLit ")"].
Definition reColonNum : regex := RSeqs [RLit ":"; RPlus (RClass re_digit); RWordB].
Definition reCLIPlaceholder : regex :=
  RSeqs [RLit "<"; RAlts (RLit "path") (map RLit ["url"; "email"; "str"; "token"; "uuid"; "timestamp"; "pid"; "ip"; "port"; "n"; "user"]);
         RLit ">"].
Definition cli_keywords : list string :=
  ["warning"; "failed"; "failure"; "fail"; "passed"; "pass"; "success"; "denied"; "timeout"; "timed"; "out"; "not"; "found";
   "exit"; "code"; "signal"; "killed"; "unable"; "cannot"].
Definition reCLIKeyword : regex := RSeqs [RWordB; RAlts (RLitFold "error") (map RLitFold cli_keywords); RWordB].
Definition reRepeatedText : regex :=
  RSeq (RAtLeast 2 (RSeq (RLit "<text>") (RPlus (RClass re_space)))) (RLit "<text>").

(** ** The protector

    Substrings that must survive are parked under numbered markers between
    NUL bytes, and put back at the end. *)
Definition nul : string := single (chr 0).
Definition marker (i : Z) : string := nul +:+ Itoa i +:+ nul.

Definition protector_add (v : string) (vals : list string) : string * list string :=
  (marker (Z.of_nat (length vals)), vals ++ [v])%list.

Fixpoint restore_from (i : Z) (vals : list string) (s : string) : string :=
  match vals with
  | [] => s
  | v :: vals' => restore_from (i + 1) vals' (ReplaceAll s (marker i) v)
  end.
Definition protector_restore (vals : list string) (s : string) : string := restore_from 0 vals s.

(** [re.ReplaceAllStringFunc(s, p.add)]. *)
Definition protect_all (r : regex) (sv : string * list string) : string * list string :=
  ReplaceAllWith r (fun m _ vals => protector_add (text m) vals) (fst sv) (snd sv).

(** ** Pieces *)

Definition extractCode (raw : string) : string :=
  match List.find (fun m => negb (String.eqb m "")) (map (fun r => FindString r raw) codeClasses) with
  | Some m => m
  | None => ""
  end.
Definition ErrorCode (raw : string) : string := extractCode raw.

(** The loop ranges over runes; every byte of a rune outside ASCII falls into
    the default case, as the rune does. *)
Definition tokenish (m : string) : bool :=
  if MatchString reHexOnly m then true
  else
    let hasDigit := str_exists is_digit m in
    let hasUpper := str_exists is_upper m in
    let hasLower := str_exists is_lower m in
    let hasSym := str_exists (fun c => negb (is_alnum c)) m in
    hasDigit && (hasLower || hasUpper || hasSym).

Definition redact_token (m : string) : string := if tokenish m then "<token>" else m.

Fixpoint mentioned_loop (raw : string) (seen : list string) (pkgs : list string) : list string :=
  match pkgs with
  | [] => []
  | pkg :: pkgs' =>
      if negb (String.eqb pkg "") && negb (str_in pkg seen) && Contains raw pkg
      then pkg :: mentioned_loop raw (pkg :: seen) pkgs'
      else mentioned_loop raw seen pkgs'
  end.
Definition mentioned (raw : string) (publicPkgs : list string) : list string :=
  sort_strings (mentioned_loop raw [] publicPkgs).

(** The machine the sanitizer runs on: [os.UserHomeDir], [user.Current]
    ([None] on an error or an empty name), and two environment variables. *)
Record host := mkHost {
  h_HomeDir : option string;
  h_Current : option string;
  h_USERNAME : string;
  h_USER : string
}.

Definition currentUsername (h : host) : string :=
  match h_Current h with
  | Some name =>
      match LastIndexAny name "\/" with Some i => str_drop (S i) name | None => name end
  | None => if negb (String.eqb (h_USERNAME h) "") then h_USERNAME h else h_USER h
  end.

Definition scrub_values (h : host) : list string :=
  (match h_HomeDir h with Some home => if 3 <=? str_len home then [home] else [] | None => [] end ++
   (if 3 <=? str_len (currentUsername h) then [currentUsername h] else []))%list.

(** Compiled once per process from the same values; [MustCompile] of a
    quoted value cannot fail on valid UTF-8. *)
Definition userScrubPatterns (h : host) : list regex := map RLitFold (scrub_values h).

Definition scrub_user (h : host) (s : string) : string :=
  fold_left (fun s r => ReplaceAllString r "<user>" s) (userScrubPatterns h) s.

(** ** The pipeline *)

Record SanitizedError := mkSanitized {
  sn_Template : string;
  sn_Code : string;
  sn_Fingerprint : string;
  sn_PublicSymbols : list string
}.

(** Step 2: a package on the public list keeps its name. *)
Definition node_modules_name (m : string) : string := ReplaceAll (FindSubmatch reNodeModules m 1) "\" "/".
Definition replace_node_modules (pub : list string) (sv : string * list string) : string * list string :=
  ReplaceAllWith reNodeModules
    (fun m _ vals =>
       let name := node_modules_name (text m) in
       if str_in name pub then protector_add ("node_modules/" +:+ name) vals else ("<path>", vals))
    (fst sv) (snd sv).

(** Steps 3 to 6. *)
Definition strip_paths (s : string) : string :=
  let s := ReplaceAllKeep reWinPath "<path>" s in
  let s := ReplaceAllKeep reUnixPath "<path>" s in
  ReplaceAllString reRelPath "<path>" s.

Definition strip_secrets (s : string) : string :=
  let s := ReplaceAllString reURL "<url>" s in
  let s := ReplaceAllString reEmail "<email>" s in
  let s := ReplaceAllKeep reSecretAssignment "=<token>" s in
  ReplaceAllString reKnownToken "<token>" s.

Definition strip_quotes (s : string) : string :=
  ReplaceAllString reSQuote "<str>" (ReplaceAllString reDQuote "<str>" s).

(** Step 7. *)
Definition strip_tokens (s : string) : string :=
  let s := ReplaceAllString reUUID "<uuid>" s in
  let s := ReplaceAllString reTime "<timestamp>" s in
  let s := ReplaceAllKeep rePID "<pid>" s in
  let s := ReplaceAllString reIPv4Port "<ip>:<port>" s in
  ReplaceAllFunc reTokenCand redact_token s.

(** Step 9. *)
Definition strip_numbers (s : string) : string :=
  ReplaceAllString reColonNum ":<n>" (ReplaceAllString reParenLineCol "(<n>,<n>)" s).

(** [scrub] is the host whose user is removed, at the producing machine. *)
Definition sanitize_text (publicPkgs : list string) (scrub : option host) (raw : string) : string :=
  let '(s, vals) := fold_left (fun sv r => protect_all r sv) codeClasses (raw, []) in
  let s := ReplaceAllKeep reExitCode "<n>" s in
  let '(s, vals) := replace_node_modules publicPkgs (s, vals) in
  let s := strip_tokens (strip_quotes (strip_secrets (strip_paths s))) in
  let s := match scrub with Some h => scrub_user h s | None => s end in
  protector_restore vals (strip_numbers s).

Definition sanitize (raw stage : string) (publicPkgs : list string) (scrub : option host) : SanitizedError :=
  let code := extractCode raw in
  let s := sanitize_text publicPkgs scrub raw in
  mkSanitized s code (SHA256Hex ("v1|" +:+ stage +:+ "|" +:+ code +:+ "|" +:+ s)) (mentioned raw publicPkgs).

Definition Sanitize (h : host) (raw stage : string) (publicPkgs : list string) : SanitizedError :=
  sanitize raw stage publicPkgs (Some h).

Definition sanitizer_observationStages : list string :=
  ["USED"; "PROJECT_RESOLVE"; "PROJECT_TYPECHECK"; "PROJECT_COMPILE"; "PROJECT_TEST"; "PROJECT_PROCESS"; "PROJECT_LOAD";
   "PROCESS_START"; "UNKNOWN"].
Definition Fingerprints (s : SanitizedError) : list string :=
  map (fun stage => SHA256Hex ("v1|" +:+ stage +:+ "|" +:+ sn_Code s +:+ "|" +:+ sn_Template s)) sanitizer_observationStages.

(** ** Summaries *)

(** [utf8.ValidString]. *)
Fixpoint valid_skip (k : nat) (s : string) : bool :=
  match s with
  | "" => true
  | String _ s' =>
      match k with
      | S k' => valid_skip k' s'
      | O => let '(r, w) := decode_rune s in
             if (r =? rune_error) && Nat.eqb w 1 then false else valid_skip (w - 1) s'
      end
  end.
Definition ValidString (s : string) : bool := valid_skip 0 s.

(** [for !utf8.ValidString(s) { s = s[:len(s)-1] }]; the bytes of [s] bound
    the rounds. *)
Fixpoint cut_valid (n : nat) (s : string) : string :=
  match n with
  | O => s
  | S n' => if ValidString s then s else cut_valid n' (str_take (String.length s - 1) s)
  end.

Definition line_sep : string := " " +:+ encode_rune 183 +:+ " ".

(** The first four lines that are not blank, and whether there are more. *)
Definition useful_lines (normalized : string) : list string :=
  List.filter (fun l => negb (String.eqb l ""))
    (map (fun l => Join (Fields l) " ") (Split (ReplaceAll normalized (single (chr 13) +:+ newline) newline) (chr 10))).

Definition PublicErrorSummaryWithTruncation (normalized : string) : string * bool :=
  let lines := useful_lines normalized in
  let truncated := (4 <? length lines)%nat in
  let s := Join (firstn 4 lines) line_sep in
  if 512 <? str_len s then (TrimSpace (cut_valid 512 (str_take 512 s)), true) else (s, truncated).

Definition PublicErrorSummary (normalized : string) : string := fst (PublicErrorSummaryWithTruncation normalized).

Definition CanonicalPublicErrorSummary (summary stage : string) : string :=
  PublicErrorSummary (sn_Template (sanitize summary stage [] None)).

(** ** Failure evidence *)

Definition fe_Termination (f : FailureEvidence) : FailureTermination :=
  mkTerm (fe_TerminationKind f) (fe_ExitCode f) (fe_Signal f) (fe_TimeoutMillis f).

Definition SanitizeFailure (h : host) (raw stage : string) (term : FailureTermination) : FailureEvidence :=
  let term := term_Canonical term in
  let san := Sanitize h raw stage [] in
  let summary := PublicErrorSummary (sn_Template san) in
  let structured := Structured term in
  let hasSummary := negb (String.eqb summary "") in
  let quality := if structured && hasSummary then EvidenceComplete
                 else if structured || hasSummary then EvidencePartial else EvidenceMissing in
  mkFailureEvidence (t_Kind term) (t_ExitCode term) (ToUpper (TrimSpace (t_Signal term))) (t_TimeoutMillis term)
    summary (sn_Code san)
    (if negb (String.eqb quality EvidenceMissing) then FailureFingerprint stage term (sn_Code san) summary else "")
    quality "" "" "" "" "".

Definition SanitizeClassifiedFailure (h : host) (raw stage : string) (term : FailureTermination)
    (outerCommand outerStage actualToolchain stageEvidence evidenceGap : string) : FailureEvidence :=
  let f := SanitizeFailure h raw stage term in
  let toolchain := ToLower (TrimSpace actualToolchain) in
  mkFailureEvidence (fe_TerminationKind f) (fe_ExitCode f) (fe_Signal f) (fe_TimeoutMillis f) (fe_ErrorSummary f)
    (fe_ErrorCode f)
    (if negb (String.eqb (fe_Fingerprint f) "") && negb (String.eqb toolchain "")
     then ClassifiedFailureFingerprint stage toolchain (fe_Termination f) (fe_ErrorCode f) (fe_ErrorSummary f)
     else fe_Fingerprint f)
    (fe_EvidenceQuality f) outerCommand outerStage toolchain stageEvidence evidenceGap.

(** ** Free text *)

Definition redact_text (h : host) (raw : string) : string :=
  let s := ReplaceAllString reNodeModules "<path>" raw in
  let s := strip_quotes (strip_secrets (strip_paths s)) in
  scrub_user h (ReplaceAllFunc reTokenCand redact_token s).

Definition Redact (h : host) (raw : string) : string * bool :=
  let s := redact_text h raw in (s, negb (String.eqb s raw)).

(** ** Excerpts of command output

    [unicode.L] and [unicode.N] are tables of the library. *)
Class UnicodeTables := { unicode_L : Z -> bool; unicode_N : Z -> bool }.

Section excerpt.
  Context `{!UnicodeTables}.

Definition letter_or_number (r : Z) : bool := unicode_L r || unicode_N r.
Definition reCLIPrivateWord : regex :=
  RSeq (RClass (either letter_or_number (any_of "_"))) (RStar (RClass (either letter_or_number (any_of "_.@/\:-")))).

Definition excerpt_marker (i : nat) : string := nul +:+ Join (repeat (encode_rune 167) i) "" +:+ nul.

Definition excerpt_protect (r : regex) (sv : string * list string) : string * list string :=
  ReplaceAllWith r (fun m _ vals => let vals := (vals ++ [text m])%list in (excerpt_marker (length vals), vals)) (fst sv) (snd sv).

Fixpoint excerpt_restore (i : nat) (vals : list string) (s : string) : string :=
  match vals with
  | [] => s
  | v :: vals' => excerpt_restore (S i) vals' (ReplaceAll s (excerpt_marker (S i)) v)
  end.

Definition CLIOutputExcerpt (normalized : string) : string * bool :=
  let '(summary, truncated) := PublicErrorSummaryWithTruncation normalized in
  if String.eqb summary "" then ("", truncated)
  else
    let '(summary, protected) :=
      fold_left (fun sv r => excerpt_protect r sv) (codeClasses ++ [reCLIPlaceholder; reCLIKeyword])%list (summary, []) in
    let summary := ReplaceAllString reCLIPrivateWord "<text>" summary in
    let summary := ReplaceAllString reRepeatedText "<text>" summary in
    (excerpt_restore 0 protected summary, truncated).
End excerpt.

(** The tables on ASCII, for evaluation. *)
Definition ascii_tables : UnicodeTables := {| unicode_L := re_alpha; unicode_N := re_digit |}.

Example excerpt_keeps_keywords : @CLIOutputExcerpt ascii_tables "fatal: repo acme/payments not found, exit code 128"
  = ("<text> not found, exit code <text>", false).
Proof. vm_compute. reflexivity. Qed.

Example sanitize_tsc :
  sanitize_text [] None "C:\Users\someone\src\index.ts(10,5): error TS2345: Argument of type 'string' is wrong."
  = "<path> error TS2345: Argument of type <str> is wrong.".
Proof. vm_compute. reflexivity. Qed.
Example sanitize_node : sanitize_text ["axios"] None
  "Error [ERR_REQUIRE_ESM]: require() of C:\Users\someone\app\node_modules\axios\index.js from C:\app\main.js not supported."
  = "Error [ERR_REQUIRE_ESM]: require() of node_modules/axios from <path> not supported.".
Proof. vm_compute. reflexivity. Qed.
Example sanitize_user : sanitize_text [] (Some (mkHost (Some "/home/alice") (Some "CORP\alice") "" ""))
  "ALICE ran pid=77, exit code 3, at 10.0.0.1:8080 with deadbeefdeadbeefdeadbeef"
  = "<user> ran pid=<pid>, exit code <n>, at <ip>:<port> with <token>".
Proof. vm_compute. reflexivity. Qed.

(** ** The public summary is a normal form *)

Lemma ReplaceAll_lacks c s old new : (exists r, old = String c r) -> lacks c s = true -> ReplaceAll s old new = s.
Proof.
  intros [r ->]. unfold ReplaceAll. induction s as [|a s IH]; [done|]. simpl. unfold lacks. simpl. intros [N L]%andb_true_iff.
  destruct (Ascii.eqb_spec a c) as [|N']; [done|]. destruct (Ascii.eqb_spec c a); [by subst|].
  by rewrite IH.
Qed.

Lemma Split_lacks c s : lacks c s = true -> Split s c = [s].
Proof.
  intros L. unfold Split. assert (E : split_ne c s = (s, [])).
  { revert L. unfold lacks. induction s as [|a s IH]; [done|]. simpl. intros [N L]%andb_true_iff.
    rewrite (IH L). by destruct (Ascii.eqb a c). }
  by rewrite E.
Qed.

Lemma space_free_lacks c w : ascii_space c = true -> space_free w = true -> lacks c w = true.
Proof.
  intros A. induction w as [|a w IH]; [done|]. simpl space_free. intros [S F]%andb_true_iff. unfold lacks. simpl.
  apply andb_true_iff. split; [|by apply IH]. destruct (Ascii.eqb_spec a c) as [->|]; [|done]. exfalso.
  assert (B : is_ascii_byte c = true) by (revert A; unfold ascii_space, is_ascii_byte; intros; lia).
  rewrite space_len_ascii, A in S by done. done.
Qed.

Lemma Join_words_lack c ws : ascii_space c = true -> c <> " "%char -> words ws -> lacks c (Join ws " ") = true.
Proof.
  intros A N. induction 1 as [|w ws W Ws IH]; [done|]. apply is_word_spec in W as [_ W].
  destruct ws as [|w' ws]; [by apply space_free_lacks|]. rewrite Join_cons2, !lacks_app, IH, space_free_lacks by done.
  unfold lacks. simpl. by destruct (Ascii.eqb_spec " " c) as [<-|].
Qed.

(** A prefix of words joined by spaces is again such, up to a last space. *)
Lemma Join_prefix ws p q : words ws -> p +:+ q = Join ws " " ->
  exists ws', words ws' /\ (p = Join ws' " " \/ (ws' <> [] /\ p = Join ws' " " +:+ " ")).
Proof.
  revert p q. induction ws as [|w ws IH]; intros p q W E.
  { apply str_app_eq_nil in E as [-> _]. exists []. split; [constructor|by left]. }
  apply Forall_cons_iff in W as [W Ws].
  assert (P : forall y, w = p +:+ y -> exists ws', words ws' /\ (p = Join ws' " " \/ (ws' <> [] /\ p = Join ws' " " +:+ " "))).
  { intros y Ey. destruct (decide (p = "")) as [->|Np]; [exists []; split; [constructor|by left]|].
    exists [p]. split; [|by left]. constructor; [|constructor]. apply is_word_spec. split; [done|].
    apply is_word_spec in W as [_ W]. rewrite Ey in W. by eapply space_free_app_l. }
  destruct ws as [|w' ws]; [simpl in E; by apply (P q)|].
  rewrite Join_cons2 in E. symmetry in E. apply app_split_cases in E as [(y & Ey & _)|(y & -> & E)]; [by apply (P y)|].
  destruct y as [|c y]; [apply (P ""); by rewrite !str_app_nil_r|]. injection E as <- E. symmetry in E.
  destruct (IH y q Ws E) as (ws' & Ww & [->|[Nn ->]]).
  - destruct (decide (ws' = [])) as [->|Nn].
    + exists [w]. split; [by repeat constructor|]. by right.
    + exists (w :: ws'). split; [by constructor|]. left. destruct ws' as [|x ws']; [done|]. by rewrite Join_cons2.
  - exists (w :: ws'). split; [by constructor|]. right. split; [done|]. destruct ws' as [|x ws']; [done|]. rewrite Join_cons2.
    change (String " " ?z) with (" " +:+ z). by rewrite !str_app_assoc.
Qed.

Lemma blank_space : blank " ".
Proof. apply (blank_app " " ""); [done|done|constructor]. Qed.

Lemma TrimSpace_prefix ws p q : words ws -> p +:+ q = Join ws " " ->
  exists ws', words ws' /\ TrimSpace p = Join ws' " ".
Proof.
  intros W E. destruct (Join_prefix ws p q W E) as (ws' & W' & [->|[_ ->]]); exists ws'; (split; [done|]).
  - by apply TrimSpace_Join.
  - rewrite <- (TrimSpace_Join ws') at 2 by done. apply (TrimSpace_around "" _ " "); [constructor|apply blank_space].
Qed.

Lemma cut_valid_prefix n s : exists q, cut_valid n s +:+ q = s.
Proof.
  revert s. induction n as [|n IH]; intros s; simpl; [exists ""; apply str_app_nil_r|].
  destruct (ValidString s); [exists ""; apply str_app_nil_r|].
  destruct (IH (str_take (String.length s - 1) s)) as [q E]. exists (q +:+ str_drop (String.length s - 1) s).
  by rewrite <- str_app_assoc, E, str_take_drop.
Qed.

Lemma str_take_le n s : (String.length (str_take n s) <= n)%nat.
Proof. revert s. induction n as [|n IH]; intros [|c s]; simpl; try lia. specialize (IH s). lia. Qed.

(** The loop that cuts back to valid UTF-8 ends, on a valid string. *)
Theorem cut_valid_terminates n s : (String.length s <= n)%nat -> ValidString (cut_valid n s) = true.
Proof.
  revert s. induction n as [|n IH]; intros s L; simpl; [by destruct s; simpl in L; [|lia]|].
  destruct (ValidString s) eqn:V; [done|]. apply IH. pose proof (str_take_le (String.length s - 1) s). destruct s; [done|]. simpl in *. lia.
Qed.

Definition mid_dot : string := encode_rune 183.

Lemma Join_lines wss : Forall (fun ws => words ws /\ ws <> []) wss ->
  exists ws, words ws /\ Join (map (fun ws => Join ws " ") wss) line_sep = Join ws " " /\ (wss <> [] -> ws <> []).
Proof.
  induction 1 as [|x wss [Wx Nx] F IH]; [exists []; split; [constructor|done]|]. destruct IH as (ws & W & E & N).
  destruct wss as [|y wss]; [by exists x|]. specialize (N ltac:(done)).
  exists (x ++ mid_dot :: ws)%list. split; [|split; [|by destruct x]].
  - apply Forall_app. split; [done|]. by constructor.
  - cbn [map]. cbn [map] in E. rewrite Join_cons2, E, Join_app by done. destruct ws as [|w ws]; [done|]. rewrite Join_cons2.
    unfold line_sep, mid_dot. by rewrite !str_app_assoc.
Qed.

Lemma useful_lines_words s : exists wss, useful_lines s = map (fun ws => Join ws " ") wss
  /\ Forall (fun ws => words ws /\ ws <> []) wss.
Proof.
  unfold useful_lines. generalize (Split (ReplaceAll s (single (chr 13) +:+ newline) newline) (chr 10)). intros ls.
  exists (List.filter (fun ws => match ws with [] => false | _ => true end) (map Fields ls)).
  induction ls as [|l ls [E F]]; [done|]. cbn [map List.filter]. pose proof (Fields_words l) as W.
  destruct (Fields l) as [|w ws] eqn:El; [done|].
  destruct (String.eqb_spec (Join (w :: ws) " ") "") as [E0|_]; [by apply Join_nil in E0|].
  cbn [negb map]. rewrite E. split; [done|]. by constructor.
Qed.

Lemma summary_words s : exists ws, words ws /\ PublicErrorSummary s = Join ws " " /\ str_len (PublicErrorSummary s) <= 512.
Proof.
  unfold PublicErrorSummary, PublicErrorSummaryWithTruncation. destruct (useful_lines_words s) as (wss & -> & F).
  rewrite firstn_map. destruct (Join_lines (firstn 4 wss)) as (ws & W & E & _).
  { rewrite <- (firstn_skipn 4 wss) in F. by apply Forall_app in F as [F _]. }
  rewrite E. destruct (Z.ltb_spec 512 (str_len (Join ws " "))) as [L|L]; cbn [fst]; [|by exists ws].
  destruct (cut_valid_prefix 512 (str_take 512 (Join ws " "))) as [q Eq].
  destruct (TrimSpace_prefix ws (cut_valid 512 (str_take 512 (Join ws " "))) (q +:+ str_drop 512 (Join ws " "))) as (ws' & W' & E');
    [done|by rewrite <- str_app_assoc, Eq, str_take_drop|].
  exists ws'. split; [done|]. split; [done|].
  destruct (TrimSpace_split (cut_valid 512 (str_take 512 (Join ws " ")))) as (a & b & Es & _).
  pose proof (str_take_le 512 (Join ws " ")) as L2. rewrite <- Eq in L2. rewrite Es in L2 at 1.
  rewrite !str_len_app in L2. unfold str_len. lia.
Qed.

Lemma summary_fixed ws : words ws -> str_len (Join ws " ") <= 512 -> PublicErrorSummary (Join ws " ") = Join ws " ".
Proof.
  intros W L. unfold PublicErrorSummary, PublicErrorSummaryWithTruncation, useful_lines.
  rewrite (ReplaceAll_lacks (chr 13)) by (try apply Join_words_lack; try done; by eexists).
  rewrite Split_lacks by by apply Join_words_lack. cbn [map List.filter]. rewrite Fields_Join by done.
  destruct (String.eqb_spec (Join ws " ") "") as [->|N]; [done|]. cbn [negb firstn Join].
  by destruct (Z.ltb_spec 512 (str_len (Join ws " "))); [lia|].
Qed.

(** The public summary is a normal form of at most 512 bytes on one line:
    summarising it again changes nothing. *)
Theorem summary_idempotent s :
  PublicErrorSummary (PublicErrorSummary s) = PublicErrorSummary s
  /\ str_len (PublicErrorSummary s) <= 512 /\ lacks (chr 10) (PublicErrorSummary s) = true.
Proof.
  destruct (summary_words s) as (ws & W & E & L). rewrite E in L |- *. split; [by apply summary_fixed|].
  split; [done|]. by apply Join_words_lack.
Qed.

(** The summary an honest client computes from two lines of output, the
    first with a secret, is not the server's normal form: the redaction of a
    secret assignment runs to the end of the line, and the summary has put
    both lines on one. *)
Theorem honest_summary_refused :
  exists h raw, let f := SanitizeFailure h raw "PROJECT_TEST" (mkTerm TerminationExit (Some 1) "" 0) in
    fe_EvidenceQuality f = EvidenceComplete
    /\ CanonicalPublicErrorSummary (fe_ErrorSummary f) "PROJECT_TEST" <> fe_ErrorSummary f.
Proof.
  exists (mkHost None None "" ""), ("token: abc" +:+ newline +:+ "at main"). split; [by vm_compute|].
  vm_compute. discriminate.
Qed.

(** ** No quoted literal survives *)

(** At most one byte [q] on each line; [seen] says whether this line has had
    one. *)
Fixpoint one_per_line (q : ascii) (seen : bool) (s : string) : bool :=
  match s with
  | "" => true
  | String c s' =>
      if Ascii.eqb c (chr 10) then one_per_line q false s'
      else if Ascii.eqb c q then negb seen && one_per_line q true s'
      else one_per_line q seen s'
  end.

(** [out] is [src] with bytes other than newlines dropped and bytes other
    than [q] added. *)
Inductive thinned (q : ascii) : string -> string -> Prop :=
| th_nil : thinned q "" ""
| th_keep c o s : thinned q o s -> thinned q (String c o) (String c s)
| th_drop c o s : c <> chr 10 -> thinned q o s -> thinned q o (String c s)
| th_add c o s : c <> q -> thinned q o s -> thinned q (String c o) s.

Create HintDb thinned discriminated.
#[export] Hint Constructors thinned : thinned.

Lemma thinned_refl q s : thinned q s s.
Proof. induction s; eauto with thinned. Qed.

Lemma thinned_app q o1 s1 o2 s2 : thinned q o1 s1 -> thinned q o2 s2 -> thinned q (o1 +:+ o2) (s1 +:+ s2).
Proof. intros H1 H2. induction H1; simpl; eauto with thinned. Qed.

Lemma thinned_subst q o s : lacks q o = true -> lacks (chr 10) s = true -> thinned q o s.
Proof.
  unfold lacks. intros O. induction s as [|c s IH]; intros L.
  - induction o as [|c o IH]; [constructor|]. simpl in O. bool_facts. eauto with thinned.
  - simpl in L. bool_facts. eauto with thinned.
Qed.

Lemma thinned_one_per_line q o s a b : q <> chr 10 -> thinned q o s -> (b = true -> a = true) ->
  one_per_line q a s = true -> one_per_line q b o = true.
Proof.
  intros Q T. revert a b. induction T as [|c o s T IH|c o s N T IH|c o s N T IH]; intros a b L H; [done|..]; simpl in *.
  - destruct (Ascii.eqb c (chr 10)); [eapply IH; [|exact H]; done|]. destruct (Ascii.eqb c q); [|eapply IH; [|exact H]; done].
    apply andb_true_iff in H as [Na H]. destruct a; [done|]. destruct b; [by discriminate L|]. eapply IH; [|exact H]; done.
  - destruct (Ascii.eqb_spec c (chr 10)) as [|_]; [done|]. destruct (Ascii.eqb c q); [|eapply IH; [|exact H]; done].
    apply andb_true_iff in H as [_ H]. eapply IH; [|exact H]; done.
  - destruct (Ascii.eqb_spec c (chr 10)) as [|_]; [eapply IH; [|exact H]; done|]. destruct (Ascii.eqb_spec c q) as [|_]; [done|eapply IH; [|exact H]; done].
Qed.

Lemma one_per_line_app q a o s : lacks q o = true -> lacks (chr 10) o = true -> one_per_line q a (o +:+ s) = one_per_line q a s.
Proof.
  unfold lacks. induction o as [|c o IH]; [done|]. simpl. intros H1 H2. bool_facts.
  destruct (Ascii.eqb_spec c (chr 10)); [done|]. destruct (Ascii.eqb_spec c q); [done|]. by apply IH.
Qed.

(** A replacement thins the subject when it thins every match. *)
Lemma replaced_thinned q {St} r (f : list tok -> captures -> St -> string * St) p l st out st' :
  replaced r f p l st out st' -> Forall tok_ok l ->
  (forall p m l c st o st1, Forall tok_ok m -> matchAt r p (m ++ l)%list = Some (l, c) ->
     Forall (fun t => chars r (fst t) = true) m -> f m c st = (o, st1) -> thinned q o (text m)) ->
  thinned q out (text l).
Proof.
  intros R O H. induction R as [|p t l st out st' E R IH|p m l c st o st1 out st2 M E F Ef R IH]; [constructor|..].
  - apply Forall_cons_iff in O as [_ O]. simpl. apply thinned_app; [apply thinned_refl|by apply IH].
  - apply Forall_app in O as [Om Ol]. rewrite text_app. apply thinned_app; [by eapply H|by apply IH].
Qed.

(** A pattern that cannot consume a newline, replaced by text without [q]. *)
Lemma replace_func_thinned q r f s : consumes r = true -> chars r 10 = false ->
  (forall m, Forall tok_ok m -> Forall (fun t => chars r (fst t) = true) m -> thinned q (f (text m)) (text m)) ->
  thinned q (ReplaceAllFunc r f s) s.
Proof.
  intros C N H. rewrite <- (toks_text s) at 2. eapply replaced_thinned; [by apply ReplaceAllWith_replaced|apply toks_ok|].
  simpl. intros p m l c st o st1 O _ F [= <- <-]. by apply H.
Qed.

Lemma match_text_lacks r m c : bv c < 128 -> chars r (bv c) = false -> Forall tok_ok m ->
  Forall (fun t => chars r (fst t) = true) m -> lacks c (text m) = true.
Proof. intros B C O F. by eapply text_lacks_chars. Qed.

Lemma replace_string_thinned q r repl s : consumes r = true -> chars r 10 = false -> lacks q repl = true ->
  thinned q (ReplaceAllString r repl s) s.
Proof.
  intros C N L. apply replace_func_thinned; [done..|]. intros m O F. apply thinned_subst; [done|].
  by eapply match_text_lacks.
Qed.

Lemma replace_keep_thinned q pre a b post s : consumes (RSeq pre (RSeq (RCap 1 a) b)) = true ->
  (forall z, chars pre z = false) -> ~ In 1%nat (groups b) -> chars b 10 = false -> lacks q post = true ->
  thinned q (ReplaceAllKeep (RSeq pre (RSeq (RCap 1 a) b)) post s) s.
Proof.
  intros C Cp Gb Cb L. rewrite <- (toks_text s) at 2.
  eapply replaced_thinned; [by apply ReplaceAllWith_replaced|apply toks_ok|].
  intros p m l c st o st1 O E F [= <- <-]. apply capture_first in E as (w1 & w2 & Ew & -> & F1 & F2); [|done..].
  rewrite app_assoc in Ew. apply app_inv_tail in Ew as ->. rewrite text_app. apply thinned_app; [apply thinned_refl|].
  apply Forall_app in O as [_ O]. apply thinned_subst; [done|]. by eapply match_text_lacks.
Qed.

Lemma RLit_single c : bv c < 128 -> RLit (single c) = lit_rune (bv c).
Proof. intros L. unfold RLit, runes, single. cbn [runes_skip]. by rewrite decode_ascii by done. Qed.

Section quoted_literals.
  Context (c : ascii) (B : bv c < 128) (N10 : bv c <> 10).

Fixpoint line_free (l : list tok) : bool :=
    match l with
    | [] => true
    | t :: l' => if fst t =? 10 then true else if fst t =? bv c then false else line_free l'
    end.

Definition inside (t : tok) : Prop := fst t <> bv c /\ fst t <> 10.

Lemma line_free_false l : line_free l = false -> exists w t l2, l = (w ++ t :: l2)%list /\ fst t = bv c /\ Forall inside w.
  Proof.
    induction l as [|t l IH]; [done|]. simpl. destruct (Z.eqb_spec (fst t) 10) as [|N]; [done|].
    destruct (Z.eqb_spec (fst t) (bv c)) as [E|N']; intros H; [by exists [], t, l|].
    destruct (IH H) as (w & t' & l2 & -> & E & F). exists (t :: w), t', l2. repeat split; [done|]. by constructor.
  Qed.

Definition inner : regex := RClass (none_of (any_of (single c +:+ newline))).

Lemma quoted_eq : quoted (single c) = RSeq (lit_rune (bv c)) (RSeq (RStar inner) (lit_rune (bv c))).
  Proof using B. unfold quoted. by rewrite RLit_single. Qed.

Lemma run_inner w p l cs : Forall inside w -> exists p', run (RStar inner) p (w ++ l)%list cs p' l cs.
  Proof.
    revert p. induction w as [|t w IH]; intros p F; [eauto with regex|]. apply Forall_cons_iff in F as [[N1 N2] F].
    destruct (IH (Some (fst t)) F) as [p' R]. exists p'. eapply run_star_cons; [|exact R]. constructor.
    unfold none_of. simpl. change (bv (chr 10)) with 10. lia.
  Qed.

(** A quote that starts no literal is the last one of its line. *)
Lemma unmatched_quote p t l : fst t = bv c -> matchAt (quoted (single c)) p (t :: l) = None -> line_free l = true.
  Proof using B N10.
    intros E M. destruct (line_free l) eqn:L; [done|]. exfalso.
    apply line_free_false in L as (w & t' & l2 & -> & E' & F). revert M. rewrite quoted_eq.
    apply matchAt_decides; [done|]. destruct (run_inner w (Some (fst t)) (t' :: l2) [] F) as [p' R].
    do 3 eexists. eapply run_seq; [constructor; by rewrite E, Z.eqb_refl|]. eapply run_seq; [exact R|].
    constructor. by rewrite E', Z.eqb_refl.
  Qed.

Lemma matched_quote p m l cs : matchAt (quoted (single c)) p (m ++ l)%list = Some (l, cs) -> m <> [] -> line_free (m ++ l)%list = false.
  Proof using B N10.
    rewrite quoted_eq. intros (p' & R)%matchAt_run M. inversion R as [| |? ? ? ? ? p1 l1 c1 ? ? ? R1 R2| | | | | | | | |]; subst.
    inversion R1 as [|? t ? ? ? E| | | | | | | | | |]; subst. simpl. destruct (Z.eqb_spec (fst t) 10); [lia|]. by rewrite E.
  Qed.

Lemma quotes_stripped s repl : lacks c repl = true -> lacks (chr 10) repl = true ->
    one_per_line c false (ReplaceAllString (quoted (single c)) repl s) = true.
  Proof using B N10.
    intros L1 L2. assert (C : consumes (quoted (single c)) = true) by by rewrite quoted_eq.
    pose proof (ReplaceAllWith_replaced _ (fun m _ (st : unit) => (repl, st)) s tt C) as R.
    pose proof (toks_ok s) as O. revert R O. unfold ReplaceAllString, ReplaceAllFunc.
    generalize (snd (ReplaceAllWith (quoted (single c)) (fun m _ (st : unit) => (repl, st)) s tt)).
    generalize (fst (ReplaceAllWith (quoted (single c)) (fun m _ (st : unit) => (repl, st)) s tt)).
    generalize (toks s) (@None Z) tt. intros l p st out st' R O.
    assert (G : one_per_line c false out = true /\ (line_free l = true -> one_per_line c true out = true)); [|tauto].
    induction R as [|p t l st out st' E R IH|p m l cs st o st1 out st2 M E F Ef R IH]; [done|..].
    - apply Forall_cons_iff in O as [Ot O]. destruct (IH O) as [IH1 IH2]. clear IH.
      destruct (Z.eqb_spec (fst t) 10) as [E10|N10'].
      + destruct Ot as [[_ ->]|[Ge _]]; [|lia]. rewrite E10. simpl. by rewrite IH1.
      + destruct (Z.eqb_spec (fst t) (bv c)) as [Ec|Nc].
        * destruct Ot as [[_ ->]|[Ge _]]; [|lia]. rewrite Ec, chr_bv. simpl.
          destruct (Ascii.eqb_spec c (chr 10)) as [Hc|_]; [by rewrite Hc in N10|]. rewrite Ascii.eqb_refl.
          rewrite Ec, (proj2 (Z.eqb_neq (bv c) 10)) by done. rewrite Z.eqb_refl. split; [|done].
          apply IH2. by eapply unmatched_quote.
        * assert (Q : forall b, one_per_line c b (snd t +:+ out) = one_per_line c b out).
          { intros b. apply one_per_line_app; apply tok_lacks; done. }
          rewrite !Q. split; [done|]. simpl. rewrite (proj2 (Z.eqb_neq (fst t) 10)), (proj2 (Z.eqb_neq (fst t) (bv c))) by done. done.
    - injection Ef as <- <-. apply Forall_app in O as [_ O]. destruct (IH O) as [IH1 _].
      rewrite !one_per_line_app by done. split; [done|]. by rewrite (matched_quote p m l cs).
  Qed.
End quoted_literals.

(** ** The protector keeps quotes out *)

Lemma replaced_state {St} (P : St -> Prop) r (f : list tok -> captures -> St -> string * St) p l st out st' :
  replaced r f p l st out st' -> Forall tok_ok l ->
  (forall m c st, P st -> Forall tok_ok m -> Forall (fun t => chars r (fst t) = true) m -> P (snd (f m c st))) ->
  P st -> P st'.
Proof.
  intros R O H. induction R as [|p t l st out st' E R IH|p m l c st o st1 out st2 M E F Ef R IH]; intros Hp; [done|..].
  - apply Forall_cons_iff in O as [_ O]. by apply IH.
  - apply Forall_app in O as [Om Ol]. apply IH; [done|]. specialize (H m c st Hp Om F). by rewrite Ef in H.
Qed.

Definition vals_lack (q : ascii) (vals : list string) : Prop := Forall (fun v => lacks q v = true) vals.

Lemma vals_lack_add q vals v : vals_lack q vals -> lacks q v = true -> vals_lack q (snd (protector_add v vals)).
Proof. intros H L. apply Forall_app. split; [done|]. by repeat constructor. Qed.

Lemma protect_all_lacks q r sv : bv q < 128 -> consumes r = true -> chars r (bv q) = false ->
  vals_lack q (snd sv) -> vals_lack q (snd (protect_all r sv)).
Proof.
  intros B C N. apply (replaced_state (vals_lack q) r _ _ _ _ _ _ (ReplaceAllWith_replaced r _ (fst sv) (snd sv) C)); [apply toks_ok|].
  intros m c st H O F. apply vals_lack_add; [done|]. by eapply text_lacks_chars.
Qed.

Lemma search_match r p l m caps : search r p l = Some (m, caps) ->
  exists p' l1 l2 l', l = (l1 ++ l2)%list /\ matchAt r p' l2 = Some (l', caps).
Proof.
  revert p. induction l as [|t l IH]; intros p; simpl; destruct (matchAt r p _) as [[l' c]|] eqn:E; try done.
  - intros [= <- <-]. by exists p, [], [], l'.
  - intros [= <- <-]. by exists p, [], (t :: l), l'.
  - intros (p' & l1 & l2 & l' & -> & M)%IH. by exists p', (t :: l1), l2, l'.
Qed.

Lemma FindSubmatch_lacks q r s n : bv q < 128 -> chars r (bv q) = false -> lacks q (FindSubmatch r s n) = true.
Proof.
  intros B N. unfold FindSubmatch. destruct (search r None (toks s)) as [[m caps]|] eqn:E; [|done].
  apply search_match in E as (p' & l1 & l2 & l' & E & (p1 & R)%matchAt_run).
  apply run_caps in R as (d & -> & F). rewrite app_nil_r. unfold capture.
  destruct (List.find _ d) as [x|] eqn:Ef; [|done]. apply find_some in Ef as [I _].
  rewrite List.Forall_forall in F. destruct (F x I) as (_ & Fx & u & v & Ev). eapply text_lacks_chars; [done| |done|done].
  pose proof (toks_ok s) as O. rewrite E, Ev in O. apply Forall_app in O as [_ O]. apply Forall_app in O as [_ O].
  by apply Forall_app in O as [O _].
Qed.

Lemma replace_skip_lacks q old new k s : lacks q s = true -> lacks q new = true -> lacks q (replace_skip old new k s) = true.
Proof.
  intros L Ln. revert k L. induction s as [|c s IH]; intros k L; [done|]. unfold lacks in L. simpl in L.
  apply andb_true_iff in L as [Nc L]. simpl. destruct k; [|by apply IH].
  destruct (HasPrefix (String c s) old); [rewrite lacks_app, Ln; by apply IH|]. unfold lacks. simpl. rewrite Nc. by apply IH.
Qed.

Lemma node_modules_lacks q pub sv : bv q < 128 -> lacks q "node_modules/" = true -> lacks q "/" = true -> chars reNodeModules (bv q) = false ->
  vals_lack q (snd sv) -> vals_lack q (snd (replace_node_modules pub sv)).
Proof.
  intros B Ln Ls N. apply (replaced_state (vals_lack q) _ _ _ _ _ _ _ (ReplaceAllWith_replaced reNodeModules _ (fst sv) (snd sv) eq_refl));
    [apply toks_ok|].
  intros m c st H O F. cbv zeta. destruct (str_in (node_modules_name (text m)) pub); [|done].
  apply vals_lack_add; [done|]. rewrite lacks_app, Ln. apply replace_skip_lacks; [by apply FindSubmatch_lacks|done].
Qed.

Lemma replace_skip_thinned q a old new k s : lacks (chr 10) (String a old) = true -> lacks q new = true ->
  lacks (chr 10) (str_take k s) = true -> thinned q (replace_skip (String a old) new k s) s.
Proof.
  intros Lo Ln. revert k. induction s as [|c s IH]; intros k L; [constructor|]. cbn [replace_skip]. destruct k as [|k].
  - destruct (HasPrefix (String c s) (String a old)) eqn:P; [|constructor; by apply IH].
    apply HasPrefix_spec in P as [r P]. injection P as -> P. change (String a s) with (single a +:+ s).
    unfold lacks in Lo. simpl in Lo. apply andb_true_iff in Lo as [La Lo].
    apply thinned_app; [apply thinned_subst; [done|]; unfold lacks; simpl; by rewrite La|].
    apply IH. simpl. rewrite Nat.sub_0_r, P, str_take_app. exact Lo.
  - unfold lacks in L. simpl in L. bool_facts. constructor; [done|]. by apply IH.
Qed.

Lemma Itoa_lacks c i : is_digit c = false -> c <> "-"%char -> lacks c (Itoa i) = true.
Proof.
  intros D M. assert (G : forall n, lacks c (dec_digits 20 n "") = true).
  { intros n. apply (lacks_of_forall is_digit); [done|]. by apply dec_digits_digits. }
  unfold Itoa. destruct (i <? 0); [|done]. unfold lacks. cbn [str_forall]. destruct (Ascii.eqb_spec "-" c); [by subst|]. apply G.
Qed.

Lemma restore_thinned q vals s : q <> chr 10 -> vals_lack q vals -> one_per_line q false s = true ->
  one_per_line q false (protector_restore vals s) = true.
Proof.
  intros Q. unfold protector_restore. generalize 0. intros i H. revert i s. induction H as [|v vals L _ IH]; intros i s O; [done|].
  simpl. apply IH. eapply thinned_one_per_line; [done| |by intros ?|exact O].
  apply replace_skip_thinned; [|done|done]. change (String (chr 0) (Itoa i +:+ nul)) with (nul +:+ (Itoa i +:+ nul)).
  by rewrite !lacks_app, Itoa_lacks.
Qed.

(** ** The user's own names *)

Lemma fold_rune_newline r : fold_rune r = 10 -> r = 10.
Proof.
  unfold fold_rune. destruct (Z.ltb_spec r 128) as [L|G].
  - destruct (_ && _) eqn:E; [|done]. lia.
  - destruct (List.find _ _) as [e|] eqn:F.
    + apply find_some in F as [I _]. intros E. exfalso. revert I E. unfold fold_exceptions.
      repeat (intros [<-|I]; [done|revert I]). intros [].
    + intros E. destruct (case_small _ _ lower_table_ok r) as [H|H]; unfold unicode_ToLower in E; rewrite E in *; [lia|done|done].
Qed.

Lemma runes_skip_lack c k s : bv c < 128 -> lacks c s = true -> Forall (fun r => r <> bv c) (runes_skip k s).
Proof.
  intros B. revert k. induction s as [|a s IH]; intros k L; [constructor|]. unfold lacks in L. simpl in L.
  apply andb_true_iff in L as [N L]. cbn [runes_skip]. destruct k as [|k]; [|by apply IH].
  destruct (decode_rune (String a s)) as [r w] eqn:E. constructor; [|by apply IH]. intros ->.
  pose proof (decode_small a s) as D. rewrite E in D. simpl in D. apply D in B. apply bv_inj in B as ->.
  by rewrite Ascii.eqb_refl in N.
Qed.

Lemma RSeqs_chars (f : Z -> Z -> bool) (rs : list Z) z : Forall (fun r => f r z = false) rs -> chars (RSeqs (map (fun r => RClass (f r)) rs)) z = false.
Proof.
  induction 1 as [|r rs E F IH]; [done|]. cbn [map RSeqs]. destruct rs as [|r' rs]; [done|]. cbn [map]. cbn [chars]. rewrite E.
  exact IH.
Qed.

Lemma RLitFold_newline v : lacks (chr 10) v = true -> chars (RLitFold v) 10 = false.
Proof.
  intros L. apply (RSeqs_chars (fun c r => fold_rune r =? fold_rune c)).
  eapply List.Forall_impl; [|apply (runes_skip_lack (chr 10) 0 v); [done|exact L]]. cbv beta. intros r N.
  apply Z.eqb_neq. change (fold_rune 10) with 10. intros E. symmetry in E. by apply fold_rune_newline in E.
Qed.

Lemma RLitFold_consumes v : v <> "" -> consumes (RLitFold v) = true.
Proof.
  unfold RLitFold, runes. destruct v as [|c v]; [done|]. intros _. cbn [runes_skip]. destruct (decode_rune (String c v)) as [r w].
  cbn [map RSeqs]. by destruct (map fold_lit (runes_skip (w - 1) v)).
Qed.

(** The host's names are on one line. *)
Definition names_on_one_line (h : host) : Prop := Forall (fun v => lacks (chr 10) v = true) (scrub_values h).

Lemma scrub_values_ne h : Forall (fun v => v <> "") (scrub_values h).
Proof.
  unfold scrub_values. apply Forall_app. split; [destruct (h_HomeDir h) as [v|]; [|constructor]|];
    match goal with |- context [3 <=? str_len ?v] => destruct (Z.leb_spec 3 (str_len v)); [|constructor] end;
    (constructor; [intros E; rewrite E in *; unfold str_len in *; simpl in *; lia|constructor]).
Qed.

Lemma scrub_user_ok q h s : q <> chr 10 -> lacks q "<user>" = true -> names_on_one_line h ->
  one_per_line q false s = true -> one_per_line q false (scrub_user h s) = true.
Proof.
  intros Q L N. unfold scrub_user, userScrubPatterns. pose proof (scrub_values_ne h) as Ne. unfold names_on_one_line in N.
  revert s N Ne. induction (scrub_values h) as [|v vs IH]; intros s N Ne O; [done|].
  apply Forall_cons_iff in N as [Nv N], Ne as [Nev Ne]. simpl. apply IH; [done..|].
  eapply thinned_one_per_line; [done| |by intros ?|exact O].
  apply replace_string_thinned; [by apply RLitFold_consumes|by apply RLitFold_newline|done].
Qed.

(** ** The theorem *)

(** The facts about one of the two quotes that the pipeline needs; each is
    decided by evaluation. *)
Definition quote_facts (q : ascii) : bool :=
  (bv q <? 128) && negb (Ascii.eqb q (chr 10))
  && forallb (fun r => negb (chars r (bv q))) (reNodeModules :: codeClasses)
  && forallb (lacks q) ["<str>"; "<uuid>"; "<timestamp>"; "<pid>"; "<ip>:<port>"; "<token>"; "<user>"; "(<n>,<n>)"; ":<n>";
                        "node_modules/"; "/"].

Lemma dquote_facts : quote_facts (chr 34) = true.
Proof. by vm_compute. Qed.
Lemma squote_facts : quote_facts "'" = true.
Proof. by vm_compute. Qed.

Section one_quote.
  Context (q : ascii) (Q : quote_facts q = true).

Lemma quote_ascii : bv q < 128 /\ q <> chr 10.
  Proof using Q. unfold quote_facts in Q. bool_facts. split; [lia|done]. Qed.

Lemma quote_lacks s : In s ["<str>"; "<uuid>"; "<timestamp>"; "<pid>"; "<ip>:<port>"; "<token>"; "<user>"; "(<n>,<n>)"; ":<n>";
                        "node_modules/"; "/"] -> lacks q s = true.
  Proof using Q. intros I. unfold quote_facts in Q. apply andb_true_iff in Q as [_ F]. rewrite forallb_forall in F. by apply F. Qed.

Lemma quote_not_consumed r : In r (reNodeModules :: codeClasses) -> chars r (bv q) = false.
  Proof using Q.
    intros I. unfold quote_facts in Q. apply andb_true_iff in Q as [Q1 _]. apply andb_true_iff in Q1 as [_ F].
    rewrite forallb_forall in F. specialize (F r I). by apply negb_true_iff in F.
  Qed.

Lemma thin_step o s : thinned q o s -> one_per_line q false s = true -> one_per_line q false o = true.
  Proof using Q. intros T O. eapply thinned_one_per_line; [apply quote_ascii|exact T|by intros ?|exact O]. Qed.

Lemma token_thinned s : thinned q (ReplaceAllFunc reTokenCand redact_token s) s.
  Proof using Q.
    apply replace_func_thinned; [done|done|]. intros m O F. unfold redact_token. destruct (tokenish (text m)); [|apply thinned_refl].
    apply thinned_subst; [apply quote_lacks; simpl; tauto|]. by apply (match_text_lacks reTokenCand).
  Qed.

Lemma strip_tokens_ok s : one_per_line q false s = true -> one_per_line q false (strip_tokens s) = true.
  Proof using Q.
    intros O. unfold strip_tokens. cbv zeta.
    repeat first [exact O | eapply thin_step; [first [apply token_thinned
      | apply replace_string_thinned; [done|done|apply quote_lacks; simpl; tauto]
      | apply (replace_keep_thinned q RWordB); [done|done|by intros []|done|apply quote_lacks; simpl; tauto]]|]].
  Qed.

Lemma strip_numbers_ok s : one_per_line q false s = true -> one_per_line q false (strip_numbers s) = true.
  Proof using Q.
    intros O. do 2 (eapply thin_step; [apply replace_string_thinned; [done|done|apply quote_lacks; simpl; tauto]|]). exact O.
  Qed.

Lemma protected_lack raw : vals_lack q (snd (fold_left (fun sv r => protect_all r sv) codeClasses (raw, []))).
  Proof using Q.
    assert (G : forall rs sv, (forall r, In r rs -> In r codeClasses) -> vals_lack q (snd sv) ->
      vals_lack q (snd (fold_left (fun sv r => protect_all r sv) rs sv))).
    { induction rs as [|r rs IH]; intros sv I V; [done|]. simpl. apply IH; [intros r' Hr; apply I; by right|].
      specialize (I r ltac:(by left)). apply protect_all_lacks; [apply quote_ascii| |apply quote_not_consumed; by right|done].
      by destruct I as [<-|[<-|[<-|[<-|[]]]]]. }
    apply G; [done|constructor].
  Qed.
End one_quote.

Lemma strip_quotes_ok s : one_per_line (chr 34) false (strip_quotes s) = true /\ one_per_line "'" false (strip_quotes s) = true.
Proof.
  unfold strip_quotes. split.
  - eapply (thin_step _ dquote_facts); [by apply replace_string_thinned|]. by apply (quotes_stripped (chr 34)).
  - by apply (quotes_stripped "'").
Qed.

Lemma sanitize_text_one_quote q pub scrub raw : quote_facts q = true ->
  (forall s, one_per_line q false (strip_quotes s) = true) -> (forall h, scrub = Some h -> names_on_one_line h) ->
  one_per_line q false (sanitize_text pub scrub raw) = true.
Proof.
  intros Q S N. unfold sanitize_text. pose proof (protected_lack q Q raw) as V.
  destruct (fold_left _ codeClasses (raw, [])) as [s vals]. cbn [snd] in V.
  pose proof (node_modules_lacks q pub (ReplaceAllKeep reExitCode "<n>" s, vals) (proj1 (quote_ascii q Q))
    (quote_lacks q Q "node_modules/" ltac:(simpl; tauto)) (quote_lacks q Q "/" ltac:(simpl; tauto))
    (quote_not_consumed q Q reNodeModules ltac:(by left)) V) as V'.
  destruct (replace_node_modules pub _) as [s' vals']. cbn [snd] in V'.
  apply restore_thinned; [apply (quote_ascii q Q)|done|]. apply (strip_numbers_ok q Q).
  assert (T : one_per_line q false (strip_tokens (strip_quotes (strip_secrets (strip_paths s')))) = true)
    by (apply (strip_tokens_ok q Q); apply S).
  destruct scrub as [h|]; [|done].
  apply scrub_user_ok; [apply (quote_ascii q Q)|apply (quote_lacks q Q); simpl; tauto|by apply N|done].
Qed.



(** The same for the free text of reports. *)
Lemma redact_no_quoted_literal h raw : names_on_one_line h ->
  one_per_line (chr 34) false (fst (Redact h raw)) = true /\ one_per_line "'" false (fst (Redact h raw)) = true.
Proof.
  intros N. simpl. unfold redact_text. cbv zeta.
  split; (apply scrub_user_ok; [done|done|done|]); (eapply thin_step; [|apply token_thinned|apply strip_quotes_ok]);
    apply dquote_facts || apply squote_facts.
Qed.
