(* ===== verification/Validate.v ===== *)
(** * Validating observation batches (internal/serverstore/validate.go)

    What one anonymous observation batch must satisfy before it may touch
    storage.  An error is a constructor with the values its message quotes;
    [None] is the nil error. *)

From S2P Require Import Prelude GoStrings GoUnicode GoStd StringFacts UnicodeFacts WordFacts Regexp Calendar Hash Json.
From S2P Require Import Purl Env Targets Failure Anomaly Sanitizer.

(** ** Errors *)

Inductive batch_error :=
| ErrSchemaVersion (v : Z)
| ErrV1Lineage
| ErrEpoch (epoch : string)
| ErrBucketEmpty (field : string)
| ErrBucketLong (field : string)
| ErrBucketBytes (field : string)
| ErrBadPurl (e : purl_error)
| ErrEcosystem (ecosystem : string)
| ErrStageA3 (stage : string)
| ErrStage (stage : string)
| ErrResult (result : string)
| ErrSymbolConfidence (c : string)
| ErrSymbolLong
| ErrObservationCount (n : Z)
| ErrFingerprintShape
| ErrCodeLong
| ErrCodeBytes
| ErrPassErrorDetails
| ErrPassTermination
| ErrPassExitCode
| ErrOuterCommandLong
| ErrOuterCommand
| ErrOuterStage (stage : string)
| ErrActualToolchain
| ErrPassFailureEvidence
| ErrEvidenceQuality (q : string)
| ErrExitCodeRange (code : Z)
| ErrTerminationValue (kind : string)
| ErrExitCodeKind
| ErrSignalKind
| ErrSignalLong
| ErrTimeoutKind
| ErrSummaryLong
| ErrStageEvidence (e : string)
| ErrEvidenceGap (g : string)
| ErrSummaryNotCanonical
| ErrMissingCarries
| ErrCompleteLacks
| ErrPartialShape
| ErrFingerprintMismatch
| ErrEnvSchemaVersion (v : Z)
| ErrEnvRequired
| ErrCoresidentCount (n : Z)
| ErrCoresidentLong
| ErrCoresidentVersion (v : string)
| ErrDependsOnNone (n : Z)
| ErrDependsOnCount (n : Z)
| ErrDependsOnLong
| ErrDependsOnPurl (e : purl_error)
| ErrDependsOnEcosystem (child parent : string)
| ErrDependsOnVersion (v : string).

#[local] Open Scope csx_scope.

(** Checks run in order; the first refusal is the answer. *)
Definition refuse {E} (bad : bool) (e : E) : option E := if bad then Some e else None.
Notation "a 'andalso' b" := (match a with Some e => Some e | None => b end)
  (at level 60, right associativity, only parsing) : csx_scope.

Fixpoint first_refusal {A E} (check : A -> option E) (l : list A) : option E :=
  match l with
  | [] => None
  | x :: l' => match check x with Some e => Some e | None => first_refusal check l' end
  end.

(** ** Vocabularies *)

Definition maxObservationCount : Z := 1000000.

Definition ingestStages : list string :=
  ["USED"; "PROJECT_RESOLVE"; "PROJECT_TYPECHECK"; "PROJECT_COMPILE"; "PROJECT_TEST"; "PROJECT_LOAD"; "PROJECT_PROCESS";
   "PROCESS_START"; "UNKNOWN"].
Definition ingestStagesV1 : list string :=
  ["USED"; "PROJECT_TYPECHECK"; "PROJECT_COMPILE"; "PROJECT_TEST"; "PROJECT_LOAD"; "PROJECT_PROCESS"].

Definition failureStageEvidences : list string :=
  ["structured-termination"; "resolve-diagnostic"; "compiler-diagnostic"; "test-runner-diagnostic"; "build-aggregate";
   "unclassified-diagnostic"].
Definition failureEvidenceGaps : list string := ["diagnostic-missing"; "stage-unknown"].

Definition empty_or (set : list string) (s : string) : bool := String.eqb s "" || str_in s set.
Definition has_text (s : string) : bool := negb (String.eqb s "").

(** ** Fields *)

Definition validEpoch (epoch : string) : option batch_error :=
  match parse_date epoch with
  | Some d => refuse (negb (String.eqb (format_date d) epoch)) (ErrEpoch epoch)
  | None => Some (ErrEpoch epoch)
  end.

(** The loops over runes of this file test bytes: a rune outside ASCII fails
    each of the tests, as its bytes do. *)
Definition bucket_byte (c : ascii) : bool := (32 <? bv c) && (bv c <=? 126).
Definition validBucket (field v : string) : option batch_error :=
  refuse (String.eqb v "") (ErrBucketEmpty field) andalso
  refuse (64 <? str_len v) (ErrBucketLong field) andalso
  refuse (negb (str_forall bucket_byte v)) (ErrBucketBytes field).

Definition validSHA256ID (s : string) : bool :=
  match CutPrefix s "sha256:" with
  | Some hex => (str_len hex =? 64) && str_forall lower_hex hex
  | None => false
  end.

Definition code_byte (c : ascii) : bool := is_alnum c || in_set "_-.:" c.
Definition validErrorCode (code : string) : option batch_error :=
  if String.eqb code "" then None
  else refuse (64 <? str_len code) ErrCodeLong andalso refuse (negb (str_forall code_byte code)) ErrCodeBytes.

Definition validEnv (e : EnvironmentFingerprint) : option batch_error :=
  refuse (negb (env_SchemaVersion e =? 1)) (ErrEnvSchemaVersion (env_SchemaVersion e)) andalso
  refuse (String.eqb (env_Ecosystem e) "" || String.eqb (env_OS e) "" || String.eqb (env_Arch e) "") ErrEnvRequired.

Definition maxCoresidentPerBatch : Z := 32.
Definition maxDependsOnPerBatch : Z := 256.
Definition maxCoresidentBytes : Z := 64.
Definition maxDependsOnBytes : Z := 512.

Definition validCoresident (versions : list string) : option batch_error :=
  refuse (maxCoresidentPerBatch <? Z.of_nat (length versions)) (ErrCoresidentCount (Z.of_nat (length versions))) andalso
  first_refusal (fun v => refuse (maxCoresidentBytes <? str_len v) ErrCoresidentLong andalso
                          refuse (negb (ConcreteResolvedVersion v)) (ErrCoresidentVersion v)) versions.

Definition valid_edge (parent : PURL) (raw : string) : option batch_error :=
  refuse (maxDependsOnBytes <? str_len raw) ErrDependsOnLong andalso
  match ParsePURL raw with
  | Err e => Some (ErrDependsOnPurl e)
  | Ok child =>
      refuse (negb (String.eqb (purl_Ecosystem child) (purl_Ecosystem parent)))
        (ErrDependsOnEcosystem (purl_Ecosystem child) (purl_Ecosystem parent)) andalso
      refuse (negb (ConcreteResolvedVersion (purl_Version child))) (ErrDependsOnVersion (purl_Version child))
  end.

Definition validDependsOn (parent : PURL) (edges : list string) : option batch_error :=
  refuse (maxDependsOnPerBatch <? Z.of_nat (length edges)) (ErrDependsOnCount (Z.of_nat (length edges))) andalso
  first_refusal (valid_edge parent) edges.

(** ** Commands and coordinates *)

Definition safeCoordinate (s : string) : bool :=
  match s with
  | "" => true
  | String c s' =>
      let plain c := is_lower c || is_digit c in
      plain c && str_forall (fun c => plain c || in_set "+._/-" c) s'
  end.

Definition token_placeholders : list string :=
  ["<redacted-secret>"; "<path>"; "<url>"; "<hash>"; "<email>"; "<user>"; "<str>"; "<token>"; "<arg>"; "<branch>"; "<assignment>"].

(** The last loop of [isSafeOuterCommandToken]. *)
Definition token_bytes (tok : string) : bool :=
  match tok with
  | "" => true
  | String c tok' => (is_alnum c || in_set "-+._" c) && str_forall (fun c => is_alnum c || in_set "-+._:" c) tok'
  end.

(** [isSafeOuterCommandToken] calls itself on the two sides of an equals
    sign; [fuel] bounds the depth, and the bytes of the token are enough. *)
Fixpoint safe_token (fuel : nat) (tok : string) : bool :=
  if String.eqb tok "" then false
  else if str_in tok token_placeholders then true
  else
    match IndexByte tok "=", fuel with
    | Some (S i), S fuel' => safe_token fuel' (str_take (S i) tok) && safe_token fuel' (str_drop (S (S i)) tok)
    | Some (S _), O => false
    | _, _ => token_bytes tok
    end.
Definition isSafeOuterCommandToken (tok : string) : bool := safe_token (String.length tok) tok.

Definition outer_tools : list string :=
  ["go"; "npm"; "pnpm"; "yarn"; "cargo"; "dotnet"; "gradle"; "gradlew"; "pytest"; "python"; "python3"; "node"; "tsc"].
Definition outer_subcommands : list string :=
  ["test"; "build"; "check"; "run"; "restore"; "list"; "mod"; "get"; "install"].

Definition validOuterCommand (command : string) : bool :=
  if String.eqb command "" then true
  else
    let parts := Fields command in
    match parts with
    | [] => false
    | tool :: args =>
        if negb (String.eqb command (Join parts " ")) then false
        else if negb (str_in tool outer_tools) && negb (IsRecognizedCLITool tool) then false
        else match args with
        | [] => true
        | sub :: more =>
            if match more with [] => true | _ => false end && str_in tool outer_tools && str_in sub outer_subcommands then true
            else if IsRecognizedCLITool tool then forallb isSafeOuterCommandToken args
            else false
        end
    end.

(** ** Failure evidence *)

Definition normalizedEvidenceQuality (b : ObservationBatch) : string :=
  if negb (String.eqb (b_Result b) ResultFail) then ""
  else if String.eqb (b_EvidenceQuality b) "" then EvidenceLegacyIncomplete
  else b_EvidenceQuality b.

Definition failureLineagePresent (b : ObservationBatch) : bool :=
  has_text (b_OuterCommand b) || has_text (b_OuterStage b) || has_text (b_ActualToolchain b)
  || has_text (b_StageEvidence b) || has_text (b_FailureEvidenceGap b).

Definition ValidateFailureLineage (f : FailureEvidence) : option batch_error :=
  refuse (128 <? str_len (fe_OuterCommand f)) ErrOuterCommandLong andalso
  refuse (negb (validOuterCommand (fe_OuterCommand f))) ErrOuterCommand andalso
  refuse (has_text (fe_OuterStage f) && negb (str_in (fe_OuterStage f) ingestStages)) (ErrOuterStage (fe_OuterStage f)) andalso
  refuse ((64 <? str_len (fe_ActualToolchain f)) || negb (safeCoordinate (fe_ActualToolchain f))) ErrActualToolchain andalso
  refuse (negb (empty_or failureStageEvidences (fe_StageEvidence f))) (ErrStageEvidence (fe_StageEvidence f)) andalso
  refuse (negb (empty_or failureEvidenceGaps (fe_EvidenceGap f))) (ErrEvidenceGap (fe_EvidenceGap f)).

Definition validFailureLineage (b : ObservationBatch) : option batch_error :=
  ValidateFailureLineage (mkFailureEvidence "" None "" 0 "" "" "" "" (b_OuterCommand b) (b_OuterStage b)
    (b_ActualToolchain b) (b_StageEvidence b) (b_FailureEvidenceGap b)).

Definition is_some {A} (o : option A) : bool := match o with Some _ => true | None => false end.
Definition clean_exit (o : option Z) : bool := match o with Some code => code =? 0 | None => false end.

(** A PASS of a command-line tool keeps its lineage. *)
Definition valid_cli_pass (b : ObservationBatch) : option batch_error :=
  refuse (has_text (b_ErrorFingerprint b) || has_text (b_ErrorCode b) || has_text (b_ErrorSummary b)
          || has_text (b_FailureEvidenceGap b)) ErrPassErrorDetails andalso
  (if has_text (b_TerminationKind b)
   then refuse (negb (String.eqb (b_TerminationKind b) TerminationExit) || negb (clean_exit (b_ExitCode b))
                || has_text (b_Signal b) || negb (b_TimeoutMillis b =? 0)) ErrPassTermination
   else refuse (is_some (b_ExitCode b) && negb (clean_exit (b_ExitCode b))) ErrPassExitCode) andalso
  (if has_text (b_OuterCommand b)
   then refuse (128 <? str_len (b_OuterCommand b)) ErrOuterCommandLong andalso
        refuse (negb (validOuterCommand (b_OuterCommand b))) ErrOuterCommand
   else None) andalso
  refuse (has_text (b_OuterStage b) && negb (str_in (b_OuterStage b) ingestStages)) (ErrOuterStage (b_OuterStage b)) andalso
  refuse ((64 <? str_len (b_ActualToolchain b)) || negb (safeCoordinate (b_ActualToolchain b))) ErrActualToolchain.

Definition valid_plain_pass (b : ObservationBatch) : option batch_error :=
  refuse (has_text (b_TerminationKind b) || is_some (b_ExitCode b) || has_text (b_Signal b) || negb (b_TimeoutMillis b =? 0)
          || has_text (b_ErrorSummary b) || has_text (b_EvidenceQuality b) || has_text (b_ErrorFingerprint b)
          || has_text (b_ErrorCode b) || has_text (b_OuterCommand b) || has_text (b_OuterStage b)
          || has_text (b_ActualToolchain b) || has_text (b_StageEvidence b) || has_text (b_FailureEvidenceGap b))
    ErrPassFailureEvidence.

Definition exit_code_out_of_range (o : option Z) : bool :=
  match o with Some code => negb (is_some (CanonicalExitCode code)) | None => false end.

Definition valid_fail (b : ObservationBatch) : option batch_error :=
  let term := batch_term b (b_ExitCode b) in
  let hasSummary := has_text (b_ErrorSummary b) in
  let hasFingerprint := has_text (b_ErrorFingerprint b) in
  let quality := b_EvidenceQuality b in
  refuse (negb (empty_or [EvidenceComplete; EvidencePartial; EvidenceMissing; EvidenceLegacyIncomplete] quality))
    (ErrEvidenceQuality quality) andalso
  refuse (exit_code_out_of_range (b_ExitCode b)) (ErrExitCodeRange (default 0 (b_ExitCode b))) andalso
  refuse (has_text (b_TerminationKind b) && negb (Structured term)) (ErrTerminationValue (b_TerminationKind b)) andalso
  refuse (is_some (b_ExitCode b) && negb (String.eqb (b_TerminationKind b) TerminationExit)) ErrExitCodeKind andalso
  refuse (has_text (b_Signal b) && negb (String.eqb (b_TerminationKind b) TerminationSignal)) ErrSignalKind andalso
  refuse (32 <? str_len (b_Signal b)) ErrSignalLong andalso
  refuse ((b_TimeoutMillis b <? 0) || ((0 <? b_TimeoutMillis b) && negb (String.eqb (b_TerminationKind b) TerminationTimeout)))
    ErrTimeoutKind andalso
  refuse (512 <? str_len (b_ErrorSummary b)) ErrSummaryLong andalso
  validFailureLineage b andalso
  refuse (hasSummary && negb (String.eqb (CanonicalPublicErrorSummary (b_ErrorSummary b) (b_Stage b)) (b_ErrorSummary b)))
    ErrSummaryNotCanonical andalso
  refuse (String.eqb quality EvidenceMissing && (Structured term || hasSummary || hasFingerprint || has_text (b_ErrorCode b)))
    ErrMissingCarries andalso
  refuse (String.eqb quality EvidenceComplete && (negb (Structured term) || negb hasSummary || negb hasFingerprint))
    ErrCompleteLacks andalso
  refuse (String.eqb quality EvidencePartial && (Bool.eqb (Structured term) hasSummary || negb hasFingerprint))
    ErrPartialShape andalso
  refuse ((String.eqb quality EvidenceComplete || String.eqb quality EvidencePartial)
          && negb (String.eqb (b_ErrorFingerprint b) (batch_fingerprint b term))) ErrFingerprintMismatch.

Definition is_cli (b : ObservationBatch) : bool := HasPrefix (b_Package b) "pkg:generic/cli/".

Definition validFailureEvidence (b : ObservationBatch) : option batch_error :=
  if String.eqb (b_Result b) ResultPass
  then if is_cli b then valid_cli_pass b else valid_plain_pass b
  else valid_fail b.

(** ** Batches *)

Definition admitted_purl (p : PURL) : bool := str_in (purl_Ecosystem p) AllowedEcosystems || IsWantedTarget p.

Definition ValidateBatch (b : ObservationBatch) : option batch_error :=
  refuse (negb (b_SchemaVersion b =? 1) && negb (b_SchemaVersion b =? 2)) (ErrSchemaVersion (b_SchemaVersion b)) andalso
  refuse ((b_SchemaVersion b =? 1) && failureLineagePresent b) ErrV1Lineage andalso
  validEpoch (b_Epoch b) andalso
  validBucket "anonId" (b_AnonID b) andalso
  validBucket "projectBucket" (b_ProjectBucket b) andalso
  match ParsePURL (b_Package b) with
  | Err e => Some (ErrBadPurl e)
  | Ok p =>
      refuse (negb (admitted_purl p)) (ErrEcosystem (purl_Ecosystem p)) andalso
      refuse (str_in (b_Stage b) ["SYMBOL_EXECUTED"; "SYMBOL_CALL"]) (ErrStageA3 (b_Stage b)) andalso
      refuse (negb (str_in (b_Stage b) (if b_SchemaVersion b =? 1 then ingestStagesV1 else ingestStages))) (ErrStage (b_Stage b)) andalso
      refuse (negb (String.eqb (b_Result b) ResultPass) && negb (String.eqb (b_Result b) ResultFail)) (ErrResult (b_Result b)) andalso
      refuse (negb (empty_or ["EXACT"; "PROBABLE"; "UNKNOWN"] (b_SymbolConfidence b))) (ErrSymbolConfidence (b_SymbolConfidence b)) andalso
      refuse (512 <? str_len (b_Symbol b)) ErrSymbolLong andalso
      refuse ((b_ObservationCount b <? 1) || (maxObservationCount <? b_ObservationCount b)) (ErrObservationCount (b_ObservationCount b)) andalso
      refuse (has_text (b_ErrorFingerprint b) && negb (validSHA256ID (b_ErrorFingerprint b))) ErrFingerprintShape andalso
      validErrorCode (b_ErrorCode b) andalso
      validFailureEvidence b andalso
      validEnv (b_Environment b) andalso
      validCoresident (b_Coresident b) andalso
      refuse (b_DependsOnNone b && negb (Nat.eqb (length (b_DependsOn b)) 0)) (ErrDependsOnNone (Z.of_nat (length (b_DependsOn b)))) andalso
      validDependsOn p (b_DependsOn b)
  end.

(** ** Examples *)

Definition env_linux : EnvironmentFingerprint := set_SchemaVersion 1 env_example.

(** A passing use of a package, and a passing run of a command-line tool with
    the given free-form fields. *)
Definition pass_batch : ObservationBatch :=
  mkBatch 1 "2026-08-13" "anon-1" "proj-1" "pkg:npm/axios@1.7.9" "axios.get" "EXACT" env_linux "PROJECT_TEST" ResultPass 3
    "" "" "" None "" 0 "" "" "" "" "" "" "" false [] [] false.

Definition cli_pass (signal stageEvidence quality : string) : ObservationBatch :=
  mkBatch 2 "2026-08-13" "anon-1" "proj-1" "pkg:generic/cli/git@2.43.0" "" "" env_linux "PROJECT_PROCESS" ResultPass 1
    "" "" "" None signal 0 "" quality "git status" "" "" stageEvidence "" false [] [] false.

(** A failure with complete evidence. *)
Definition fail_summary : string := "error TS2345: Argument of type <str> is wrong.".
Definition fail_batch : ObservationBatch :=
  mkBatch 2 "2026-08-13" "anon-1" "proj-1" "pkg:npm/typescript@5.4.5" "" "" env_linux "PROJECT_TYPECHECK" ResultFail 2
    (FailureFingerprint "PROJECT_TYPECHECK" (mkTerm TerminationExit (Some 2) "" 0) "TS2345" fail_summary)
    "TS2345" TerminationExit (Some 2) "" 0 fail_summary EvidenceComplete "npm test" "PROJECT_TEST" "" "compiler-diagnostic" ""
    true ["4.9.5"] ["pkg:npm/lodash@4.17.21"] false.

Example valid_examples : map ValidateBatch [pass_batch; cli_pass "" "" ""; fail_batch] = [None; None; None].
Proof. vm_compute. reflexivity. Qed.

(** A PASS of a command-line tool may carry any text, of any length, as its
    signal, its stage evidence and its evidence quality. *)
Theorem cli_pass_carries_free_text : exists b, ValidateBatch b = None
  /\ b_Signal b = "/home/alice/.ssh/id_rsa: bad permissions" /\ b_StageEvidence b = "password is hunter2"
  /\ b_EvidenceQuality b = "alice@example.com".
Proof.
  exists (cli_pass "/home/alice/.ssh/id_rsa: bad permissions" "password is hunter2" "alice@example.com").
  split; [by vm_compute|done].
Qed.

(** ** Checks in order *)

Lemma refuse_None {E} b (e : E) : refuse b e = None <-> b = false.
Proof. by destruct b. Qed.

Lemma andalso_None {E} (a b : option E) : (a andalso b) = None <-> a = None /\ b = None.
Proof. destruct a; naive_solver. Qed.

Lemma first_refusal_None {A E} (check : A -> option E) l : first_refusal check l = None <-> Forall (fun x => check x = None) l.
Proof.
  induction l as [|x l IH]; [by split|]. simpl. rewrite andalso_None, IH, Forall_cons_iff. done.
Qed.

Lemma has_text_spec s : has_text s = true <-> s <> "".
Proof. unfold has_text. rewrite negb_true_iff, String.eqb_neq. done. Qed.

Lemma empty_or_spec set s : empty_or set s = true <-> s = "" \/ In s set.
Proof.
  unfold empty_or, str_in. rewrite orb_true_iff, String.eqb_eq, existsb_exists. split.
  - intros [->|(x & I & ->%String.eqb_eq)]; auto.
  - intros [->|I]; [by left|]. right. exists s. by rewrite String.eqb_refl.
Qed.

(** ** Tokens of an outer command *)

(** A piece without an equals sign. *)
Definition safe_atom (a : string) : bool := has_text a && (str_in a token_placeholders || token_bytes a).

Lemma token_bytes_lacks tok : token_bytes tok = true -> lacks "=" tok = true.
Proof.
  assert (B : forall set c, in_set set "=" = false -> is_alnum c || in_set set c = true -> Ascii.eqb c "=" = false).
  { intros set c S H. destruct (Ascii.eqb_spec c "=") as [->|]; [|done]. by rewrite S in H. }
  destruct tok as [|c tok]; [done|]. simpl. intros [H1 H2]%andb_true_iff. unfold lacks. cbn [str_forall].
  rewrite (B "-+._" c eq_refl H1). cbn [negb andb]. eapply str_forall_impl; [|exact H2]. intros a Ha.
  by rewrite (B "-+._:" a eq_refl Ha).
Qed.

Lemma placeholder_lacks tok : str_in tok token_placeholders = true -> lacks "=" tok = true.
Proof.
  unfold str_in. rewrite existsb_exists. intros (x & I & ->%String.eqb_eq).
  revert I. unfold token_placeholders. simpl. intros I. by repeat destruct I as [<-|I].
Qed.

Lemma Split_cons_sep a c r : lacks c a = true -> Split (a +:+ String c r) c = a :: Split r c.
Proof.
  unfold Split. intros L. assert (E : split_ne c (a +:+ String c r) = (a, let '(h, t) := split_ne c r in h :: t)).
  { revert L. unfold lacks. induction a as [|x a IH]; intros L.
    - simpl. rewrite Ascii.eqb_refl. by destruct (split_ne c r).
    - simpl in *. bool_facts. rewrite IH by done. destruct (Ascii.eqb_spec x c); [done|]. by destruct (split_ne c r). }
  by rewrite E.
Qed.

Lemma safe_token_atom fuel a : lacks "=" a = true -> safe_token fuel a = safe_atom a.
Proof.
  intros L. unfold safe_atom, has_text. assert (I : IndexByte a "=" = None).
  { unfold IndexByte. apply index_by_none. eapply str_forall_impl; [|exact L]. intros c H. by rewrite Ascii.eqb_sym. }
  destruct fuel; simpl; rewrite I; destruct (String.eqb a ""); [done| |done|]; simpl; by destruct (str_in a token_placeholders).
Qed.

(** The recursion ends within the token's length, and comes to this: every
    piece between equals signs is safe. *)
Lemma safe_token_split fuel tok : (String.length tok <= fuel)%nat -> safe_token fuel tok = forallb safe_atom (Split tok "=").
Proof.
  revert tok. induction fuel as [|fuel IH]; intros tok L; [by destruct tok; [|simpl in L; lia]|].
  destruct (IndexByte tok "=") as [i|] eqn:I.
  - destruct (index_by_Some _ _ _ I) as [La (c & E & <-%Ascii.eqb_eq)]. pose proof (index_by_lt _ _ _ I) as Li.
    assert (La' : lacks "=" (str_take i tok) = true).
    { eapply str_forall_impl; [|exact La]. intros a H. by rewrite Ascii.eqb_sym. }
    assert (NE : tok <> "") by by destruct tok.
    assert (NP : str_in tok token_placeholders = false).
    { destruct (str_in tok token_placeholders) eqn:P; [|done]. apply placeholder_lacks in P. rewrite E, lacks_app in P.
      apply andb_true_iff in P as [_ P]. by unfold lacks in P. }
    replace (Split tok "=") with (str_take i tok :: Split (str_drop (S i) tok) "=")
      by (rewrite E at 3; by rewrite Split_cons_sep).
    cbn [safe_token forallb]. rewrite (proj2 (String.eqb_neq tok "") NE), NP, I. destruct i as [|i].
    + simpl. destruct (token_bytes tok) eqn:T; [|done]. apply token_bytes_lacks in T. rewrite E in T. by unfold lacks in T.
    + rewrite safe_token_atom by done. f_equal. apply IH. rewrite str_drop_length. lia.
  - assert (La : lacks "=" tok = true).
    { apply index_by_none in I. eapply str_forall_impl; [|exact I]. intros a H. by rewrite Ascii.eqb_sym. }
    rewrite Split_lacks by done. rewrite safe_token_atom by done. simpl. by rewrite andb_true_r.
Qed.

Theorem token_split tok : isSafeOuterCommandToken tok = forallb safe_atom (Split tok "=").
Proof. by apply safe_token_split. Qed.

(** The recursion of the source: more fuel changes nothing, and the function
    satisfies the equation the source writes. *)
Theorem token_recursion_terminates tok fuel : (String.length tok <= fuel)%nat ->
  safe_token fuel tok = isSafeOuterCommandToken tok
  /\ isSafeOuterCommandToken tok =
     if String.eqb tok "" then false
     else if str_in tok token_placeholders then true
     else match IndexByte tok "=" with
          | Some (S i) => isSafeOuterCommandToken (str_take (S i) tok) && isSafeOuterCommandToken (str_drop (S (S i)) tok)
          | _ => token_bytes tok
          end.
Proof.
  intros L. rewrite token_split, safe_token_split by done. split; [done|].
  rewrite <- (safe_token_split (S (String.length tok))) by lia. cbn [safe_token].
  destruct (String.eqb tok ""); [done|]. destruct (str_in tok token_placeholders); [done|].
  destruct (IndexByte tok "=") as [[|i]|] eqn:I; [done| |done]. rewrite !token_split.
  pose proof (index_by_lt _ _ _ I). rewrite !safe_token_split; [done| |].
  - rewrite str_drop_length. lia.
  - pose proof (str_take_le (S i) tok). lia.
Qed.

Lemma token_recursion_terminates_witness :
  safe_token 30 "--author=<user>" = isSafeOuterCommandToken "--author=<user>" /\ isSafeOuterCommandToken "--author=<user>" = true.
Proof.
  split; [apply token_recursion_terminates; vm_compute; lia|]. rewrite (proj2 (token_recursion_terminates "--author=<user>" 30 ltac:(vm_compute; lia))).
  vm_compute. reflexivity.
Defined.

(** ** Accepted batches *)

Definition bucket_ok (v : string) : Prop := 1 <= str_len v <= 64 /\ str_forall bucket_byte v = true.

Definition edge_ok (parent : PURL) (raw : string) : Prop :=
  exists child, ParsePURL raw = Ok child /\ purl_Ecosystem child = purl_Ecosystem parent
    /\ ConcreteResolvedVersion (purl_Version child) = true.

(** The evidence of a failure agrees with its declared quality. *)
Record evidence_ok (b : ObservationBatch) : Prop := {
  ev_pass : b_Result b = ResultPass -> b_ErrorFingerprint b = "" /\ b_ErrorCode b = "" /\ b_ErrorSummary b = "" /\ b_FailureEvidenceGap b = "";
  ev_missing : b_Result b = ResultFail -> b_EvidenceQuality b = EvidenceMissing ->
    Structured (batch_term b (b_ExitCode b)) = false /\ b_ErrorSummary b = "" /\ b_ErrorFingerprint b = "" /\ b_ErrorCode b = "";
  ev_derived : b_Result b = ResultFail -> b_EvidenceQuality b = EvidenceComplete \/ b_EvidenceQuality b = EvidencePartial ->
    b_ErrorFingerprint b = batch_fingerprint b (batch_term b (b_ExitCode b))
    /\ (b_EvidenceQuality b = EvidenceComplete -> Structured (batch_term b (b_ExitCode b)) = true /\ b_ErrorSummary b <> "");
  ev_summary : b_Result b = ResultFail -> b_ErrorSummary b = "" \/ CanonicalPublicErrorSummary (b_ErrorSummary b) (b_Stage b) = b_ErrorSummary b;
  ev_command : str_len (b_OuterCommand b) <= 128 /\ validOuterCommand (b_OuterCommand b) = true
}.

(** What every accepted batch is, with its coordinate and its day. *)
Record typed_batch (b : ObservationBatch) (p : PURL) (d : date) : Prop := {
  tb_schema : b_SchemaVersion b = 1 \/ b_SchemaVersion b = 2;
  tb_epoch : plain_date d /\ b_Epoch b = format_date d;
  tb_buckets : bucket_ok (b_AnonID b) /\ bucket_ok (b_ProjectBucket b);
  tb_purl : ParsePURL (b_Package b) = Ok p /\ admitted_purl p = true;
  tb_stage : In (b_Stage b) ingestStages;
  tb_v1 : b_SchemaVersion b = 1 -> In (b_Stage b) ingestStagesV1 /\ b_OuterCommand b = "" /\ b_StageEvidence b = "";
  tb_result : b_Result b = ResultPass \/ b_Result b = ResultFail;
  tb_confidence : b_SymbolConfidence b = "" \/ In (b_SymbolConfidence b) ["EXACT"; "PROBABLE"; "UNKNOWN"];
  tb_symbol : str_len (b_Symbol b) <= 512;
  tb_count : 1 <= b_ObservationCount b <= maxObservationCount;
  tb_fingerprint : b_ErrorFingerprint b = "" \/ exists hex, b_ErrorFingerprint b = "sha256:" +:+ hex
    /\ str_len hex = 64 /\ str_forall lower_hex hex = true;
  tb_code : str_len (b_ErrorCode b) <= 64 /\ str_forall code_byte (b_ErrorCode b) = true;
  tb_evidence : evidence_ok b;
  tb_env : env_SchemaVersion (b_Environment b) = 1;
  tb_coresident : Z.of_nat (length (b_Coresident b)) <= 32 /\ Forall (fun v => ConcreteResolvedVersion v = true) (b_Coresident b);
  tb_edges : Z.of_nat (length (b_DependsOn b)) <= 256 /\ Forall (edge_ok p) (b_DependsOn b);
  tb_none : b_DependsOnNone b = true -> b_DependsOn b = []
}.

Lemma validBucket_ok field v : validBucket field v = None -> bucket_ok v.
Proof.
  unfold validBucket. rewrite !andalso_None, !refuse_None. intros (N & L & F). bool_facts. unfold bucket_ok, str_len in *.
  destruct v; [done|]. simpl in *. split; [lia|done].
Qed.

Lemma validEpoch_ok e : validEpoch e = None <-> exists d, plain_date d /\ e = format_date d.
Proof.
  unfold validEpoch. split.
  - destruct (parse_date e) as [d|] eqn:E; [|done]. intros _. exists d. apply format_parse in E as [P <-]. done.
  - intros (d & P & ->). rewrite parse_format by done. by rewrite String.eqb_refl.
Qed.

Lemma validSHA256ID_ok s : validSHA256ID s = true <-> exists hex, s = "sha256:" +:+ hex /\ str_len hex = 64 /\ str_forall lower_hex hex = true.
Proof.
  unfold validSHA256ID. destruct (CutPrefix s "sha256:") as [hex|] eqn:E; split.
  - intros H. bool_facts. apply CutPrefix_Some in E as ->. by exists hex.
  - intros (h & -> & L & F). rewrite CutPrefix_app in E. injection E as <-. rewrite L, F. done.
  - done.
  - intros (h & -> & _). by rewrite CutPrefix_app in E.
Qed.

Lemma validErrorCode_ok code : validErrorCode code = None -> str_len code <= 64 /\ str_forall code_byte code = true.
Proof.
  unfold validErrorCode. destruct (String.eqb_spec code "") as [->|_]; [done|]. rewrite andalso_None, !refuse_None.
  intros [L F]. bool_facts. done.
Qed.

Lemma validDependsOn_ok p l : validDependsOn p l = None -> Z.of_nat (length l) <= 256 /\ Forall (edge_ok p) l.
Proof.
  unfold validDependsOn. rewrite andalso_None, refuse_None, first_refusal_None. intros [L F]. unfold maxDependsOnPerBatch in L.
  split; [lia|]. eapply List.Forall_impl; [|exact F]. intros raw. unfold valid_edge. rewrite andalso_None. intros [_ H].
  destruct (ParsePURL raw) as [child|] eqn:E; [|done]. rewrite andalso_None, !refuse_None in H. destruct H as [H1 H2].
  bool_facts. by exists child.
Qed.

Lemma validCoresident_ok l : validCoresident l = None ->
  Z.of_nat (length l) <= 32 /\ Forall (fun v => ConcreteResolvedVersion v = true) l.
Proof.
  unfold validCoresident. rewrite andalso_None, refuse_None, first_refusal_None. intros [L F]. unfold maxCoresidentPerBatch in L.
  split; [lia|]. eapply List.Forall_impl; [|exact F]. intros v. rewrite andalso_None, !refuse_None. intros [_ H]. by bool_facts.
Qed.

Lemma nonempty_false s : has_text s = false <-> s = "".
Proof. unfold has_text. rewrite negb_false_iff, String.eqb_eq. done. Qed.

Lemma valid_plain_pass_ok b : b_Result b = ResultPass -> valid_plain_pass b = None -> evidence_ok b.
Proof.
  intros R. unfold valid_plain_pass. rewrite refuse_None, !orb_false_iff, !nonempty_false. intros H.
  assert (b_Result b <> ResultFail) by by rewrite R. split; try tauto.
  destruct H as ((((((((((((_ & _) & _) & _) & _) & _) & _) & _) & E) & _) & _) & _) & _). by rewrite E.
Qed.

Lemma valid_cli_pass_ok b : b_Result b = ResultPass -> valid_cli_pass b = None -> evidence_ok b.
Proof.
  intros R. unfold valid_cli_pass. rewrite !andalso_None, !refuse_None, !orb_false_iff, !nonempty_false.
  intros (H & _ & C & _). assert (b_Result b <> ResultFail) by by rewrite R. split; try tauto.
  destruct (has_text (b_OuterCommand b)) eqn:N.
  - rewrite andalso_None, !refuse_None in C. destruct C as [L V]. bool_facts. done.
  - apply nonempty_false in N. by rewrite N.
Qed.

Lemma valid_fail_ok b : b_Result b = ResultFail -> valid_fail b = None -> evidence_ok b.
Proof.
  intros R. unfold valid_fail. cbv zeta. rewrite !andalso_None, !refuse_None.
  intros (_ & _ & _ & _ & _ & _ & _ & _ & Li & Ca & Mi & Co & _ & Fp). assert (NP : b_Result b <> ResultPass) by by rewrite R. split.
  - by intros.
  - intros _ E. rewrite E, String.eqb_refl in Mi. cbn [andb] in Mi. rewrite !orb_false_iff, !nonempty_false in Mi. tauto.
  - intros _ Q. split.
    + destruct (String.eqb_spec (b_EvidenceQuality b) EvidenceComplete) as [|NC], (String.eqb_spec (b_EvidenceQuality b) EvidencePartial) as [|NPa];
        cbn [orb andb] in Fp; bool_facts; try done. by destruct Q.
    + intros E. rewrite E, String.eqb_refl in Co. cbn [andb] in Co. bool_facts. split; [done|]. by apply has_text_spec.
  - intros _. destruct (has_text (b_ErrorSummary b)) eqn:N; [right|left; by apply nonempty_false]. cbn [andb] in Ca. by bool_facts.
  - unfold validFailureLineage, ValidateFailureLineage in Li. rewrite !andalso_None, !refuse_None in Li. simpl in Li.
    destruct Li as (L & V & _). bool_facts. done.
Qed.

Lemma validFailureEvidence_ok b : b_Result b = ResultPass \/ b_Result b = ResultFail -> validFailureEvidence b = None -> evidence_ok b.
Proof.
  unfold validFailureEvidence. destruct (String.eqb_spec (b_Result b) ResultPass) as [E|N].
  - intros _. destruct (is_cli b); auto using valid_cli_pass_ok, valid_plain_pass_ok.
  - intros [|F]; [done|]. by apply valid_fail_ok.
Qed.

Lemma accepted_batch_typed_facts b : ValidateBatch b = None -> exists p d, typed_batch b p d.
Proof.
  unfold ValidateBatch. rewrite !andalso_None, !refuse_None. intros (Sv & V1 & Ep & An & Pr & H).
  destruct (ParsePURL (b_Package b)) as [p|] eqn:P; [|done].
  rewrite !andalso_None, !refuse_None in H.
  destruct H as (Ad & _ & St & Re & Sc & Sy & Ct & Fp & Ec & Fe & En & Co & No & De).
  apply validEpoch_ok in Ep as (d & Pd & Ed). exists p, d.
  assert (R : b_Result b = ResultPass \/ b_Result b = ResultFail).
  { destruct (String.eqb_spec (b_Result b) ResultPass); [by left|]. destruct (String.eqb_spec (b_Result b) ResultFail); [by right|done]. }
  assert (StI : In (b_Stage b) (if b_SchemaVersion b =? 1 then ingestStagesV1 else ingestStages)).
  { apply negb_false_iff in St. unfold str_in in St. apply existsb_exists in St as (x & I & ->%String.eqb_eq). done. }
  split; try done.
  - lia.
  - split; by eapply validBucket_ok.
  - by apply negb_false_iff in Ad.
  - destruct (b_SchemaVersion b =? 1); [|done]. unfold ingestStagesV1, ingestStages in *. simpl in *. tauto.
  - intros E. rewrite E in StI, V1. change (1 =? 1) with true in StI, V1. cbn [andb] in V1. unfold failureLineagePresent in V1. rewrite !orb_false_iff, !nonempty_false in V1. tauto.
  - apply negb_false_iff in Sc. by apply empty_or_spec.
  - lia.
  - unfold maxObservationCount in *. lia.
  - destruct (has_text (b_ErrorFingerprint b)) eqn:N; [right|left; by apply nonempty_false]. cbn [andb] in Fp.
    apply negb_false_iff in Fp. by apply validSHA256ID_ok.
  - by apply validErrorCode_ok.
  - by apply validFailureEvidence_ok.
  - unfold validEnv in En. rewrite andalso_None, !refuse_None in En. destruct En as [En _]. lia.
  - by apply validCoresident_ok.
  - by apply validDependsOn_ok.
  - intros E. rewrite E in No. by destruct (b_DependsOn b).
Qed.

(** Everything accepted is typed: its coordinate parses and is on the public
    list, its epoch is a day, its counts, lengths and alphabets are bounded,
    and its failure evidence agrees with the quality it declares. *)
Theorem accepted_batch_typed b : ValidateBatch b = None -> exists p d, typed_batch b p d.
Proof. apply accepted_batch_typed_facts. Qed.

Lemma accepted_batch_typed_witness : exists p d, typed_batch fail_batch p d.
Proof. apply accepted_batch_typed. vm_compute. reflexivity. Defined.
