(* ===== verification/Merge.v ===== *)
(** * The delta-merge of observation counts (internal/serverstore/merge.go)

    A client re-sends its whole aggregate row of the epoch on every sync, so
    the same row of the same bucket arrives many times with an equal or grown
    count.  A ledger remembers the greatest count of every (row, epoch,
    bucket); only growth is added.  The state after any history is shown to
    depend on nothing but the set of the reports. *)

From stdpp Require Import gmap.
From S2P Require Import Prelude GoStrings GoUnicode GoStd StringFacts Hash Json.
From S2P Require Import Purl Env Failure.

(** ** Keys *)

Record aggKey := mkAggKey {
  ak_PURL : string;
  ak_Symbol : string;
  ak_EnvHash : string;
  ak_Stage : string;
  ak_Result : string;
  ak_ErrorFP : string
}.

#[export] Instance aggKey_eq_dec : EqDecision aggKey.
Proof. solve_decision. Defined.
#[export] Instance aggKey_countable : Countable aggKey.
Proof.
  apply (inj_countable' (fun k => (ak_PURL k, ak_Symbol k, ak_EnvHash k, ak_Stage k, ak_Result k, ak_ErrorFP k))
    (fun '(a, b, c, d, e, f) => mkAggKey a b c d e f)). by intros [].
Defined.

Record contribKey := mkContribKey { ck_agg : aggKey; ck_epoch : string; ck_bucket : string }.

#[export] Instance contribKey_eq_dec : EqDecision contribKey.
Proof. solve_decision. Defined.
#[export] Instance contribKey_countable : Countable contribKey.
Proof.
  apply (inj_countable' (fun k => (ck_agg k, ck_epoch k, ck_bucket k)) (fun '(a, b, c) => mkContribKey a b c)). by intros [].
Defined.

(** ** State *)

Notation buckets := (gmap aggKey (gmap string (gset string))) (only parsing).

Record mergeState := mkMerge {
  m_contributions : gmap contribKey Z;
  m_observations : gmap aggKey Z;
  m_peerBuckets : buckets;
  m_projectBuckets : buckets
}.

Definition newMergeState : mergeState := mkMerge ∅ ∅ ∅ ∅.

(** ** Operations *)

Definition aggKeyOf (b : ObservationBatch) : aggKey :=
  let pkg := match ParsePURL (b_Package b) with Ok p => purl_String p | Err _ => b_Package b end in
  mkAggKey pkg (b_Symbol b) (env_Hash (env_Normalize (b_Environment b))) (b_Stage b) (b_Result b) (b_ErrorFingerprint b).

Definition deltaContribution (prev incoming : Z) : Z := if incoming <=? prev then 0 else wrap64 (incoming - prev).

Definition addBucket (m : buckets) (k : aggKey) (epoch bucket : string) : buckets :=
  let byEpoch := default ∅ (m !! k) in
  let set := default ∅ (byEpoch !! epoch) in
  <[k := <[epoch := {[bucket]} ∪ set]> byEpoch]> m.

(** The greatest number of distinct buckets in a single epoch. *)
Definition peakBuckets (m : buckets) (k : aggKey) : Z :=
  map_fold (fun _ (set : gset string) best => if best <? Z.of_nat (size set) then Z.of_nat (size set) else best) 0 (default ∅ (m !! k)).

Definition contribKeyOf (b : ObservationBatch) : contribKey := mkContribKey (aggKeyOf b) (b_Epoch b) (b_AnonID b).

(** [apply]: the new state and the delta added. *)
Definition merge_apply (m : mergeState) (b : ObservationBatch) : mergeState * Z :=
  let k := aggKeyOf b in
  let incoming := b_ObservationCount b in
  let ck := contribKeyOf b in
  let previous := default 0 (m_contributions m !! ck) in
  let delta := deltaContribution previous incoming in
  (mkMerge (if previous <? incoming then <[ck := incoming]> (m_contributions m) else m_contributions m)
     (<[k := wrap64 (default 0 (m_observations m !! k) + delta)]> (m_observations m))
     (addBucket (m_peerBuckets m) k (b_Epoch b) (b_AnonID b))
     (addBucket (m_projectBuckets m) k (b_Epoch b) (b_ProjectBucket b)), delta).

Definition merge_all (m : mergeState) (bs : list ObservationBatch) : mergeState :=
  fold_left (fun m b => fst (merge_apply m b)) bs m.

(** ** Folds that see only the set of their inputs *)

Section set_fold.
  Context {S A : Type} (f : S -> A -> S).
  Hypothesis f_comm : forall s a b, f (f s a) b = f (f s b) a.
  Hypothesis f_idem : forall s a, f (f s a) a = f s a.

Lemma fold_comm_one s a l : fold_left f l (f s a) = f (fold_left f l s) a.
  Proof using f_comm. revert s. induction l as [|b l IH]; intros s; [done|]. simpl. by rewrite f_comm, IH. Qed.

Lemma fold_absorb s a l : In a l -> f (fold_left f l s) a = fold_left f l s.
  Proof using f_comm f_idem.
    intros I. apply in_split in I as (l1 & l2 & ->). rewrite !fold_left_app. simpl. by rewrite <- fold_comm_one, f_idem.
  Qed.

Lemma fold_absorb_all s l l' : (forall a, In a l' -> In a l) -> fold_left f l' (fold_left f l s) = fold_left f l s.
  Proof using f_comm f_idem.
    induction l' as [|a l' IH]; intros H; [done|]. simpl. rewrite fold_absorb by (apply H; by left).
    apply IH. intros b Hb. apply H. by right.
  Qed.

Lemma fold_swap s l l' : fold_left f l' (fold_left f l s) = fold_left f l (fold_left f l' s).
  Proof using f_comm.
    revert s. induction l as [|a l IH]; intros s; [done|]. simpl. rewrite IH. f_equal. by rewrite fold_comm_one.
  Qed.

Lemma fold_set s l l' : (forall a, In a l <-> In a l') -> fold_left f l s = fold_left f l' s.
  Proof using f_comm f_idem.
    intros H. rewrite <- (fold_absorb_all s l l') by (intros a; apply H).
    rewrite fold_swap. apply fold_absorb_all. intros a. apply H.
  Qed.
End set_fold.

(** ** One report more *)

Lemma delta_congr prev incoming : deltaContribution prev incoming = wrap64 (Z.max prev incoming - prev).
Proof.
  unfold deltaContribution. destruct (Z.leb_spec incoming prev).
  - by rewrite Z.max_l, Z.sub_diag by lia.
  - by rewrite Z.max_r by lia.
Qed.

Definition ledger_add (m : gmap contribKey Z) (ck : contribKey) (incoming : Z) : gmap contribKey Z :=
  if default 0 (m !! ck) <? incoming then <[ck := incoming]> m else m.

Lemma ledger_lookup m ck n ck' : default 0 (ledger_add m ck n !! ck') =
  if decide (ck = ck') then Z.max (default 0 (m !! ck')) n else default 0 (m !! ck').
Proof.
  unfold ledger_add. destruct (Z.ltb_spec (default 0 (m !! ck)) n) as [L|G].
  - destruct (decide (ck = ck')) as [->|N]; [rewrite lookup_insert_eq; simpl; lia|by rewrite lookup_insert_ne].
  - destruct (decide (ck = ck')) as [->|N]; [lia|done].
Qed.

Lemma ledger_comm m a x b y : ledger_add (ledger_add m a x) b y = ledger_add (ledger_add m b y) a x.
Proof.
  destruct (decide (a = b)) as [->|N].
  - unfold ledger_add. destruct (Z.ltb_spec (default 0 (m !! b)) x), (Z.ltb_spec (default 0 (m !! b)) y);
      rewrite ?lookup_insert_eq; simpl;
      repeat match goal with |- context [?u <? ?v] => destruct (Z.ltb_spec u v) end;
      rewrite ?insert_insert_eq; try done; try lia. f_equal. lia.
  - unfold ledger_add at 1 3. rewrite !ledger_lookup. destruct (decide (b = a)); [by subst|]. destruct (decide (a = b)); [done|].
    unfold ledger_add. destruct (default 0 (m !! b) <? y), (default 0 (m !! a) <? x); try done. by rewrite insert_insert_ne.
Qed.

Lemma ledger_idem m a x : ledger_add (ledger_add m a x) a x = ledger_add m a x.
Proof.
  unfold ledger_add at 1. rewrite ledger_lookup. destruct (decide (a = a)); [|done].
  destruct (Z.ltb_spec (Z.max (default 0 (m !! a)) x) x); [lia|done].
Qed.

Lemma addBucket_lookup m k e b k' :
  addBucket m k e b !! k' = if decide (k = k') then Some (<[e := {[b]} ∪ default ∅ (default ∅ (m !! k) !! e)]> (default ∅ (m !! k))) else m !! k'.
Proof. unfold addBucket. destruct (decide (k = k')) as [->|N]; [by rewrite lookup_insert_eq|by rewrite lookup_insert_ne]. Qed.

Lemma addBucket_comm m k e b k' e' b' : addBucket (addBucket m k e b) k' e' b' = addBucket (addBucket m k' e' b') k e b.
Proof.
  apply map_eq. intros j. rewrite !addBucket_lookup. destruct (decide (k' = k)) as [->|Nk].
  - destruct (decide (k = k)); [|done]. destruct (decide (k = j)) as [->|]; [|done]. simpl.
    f_equal. destruct (decide (e = e')) as [->|Ne].
    + rewrite !lookup_insert_eq, !insert_insert_eq. simpl. f_equal. set_solver.
    + rewrite !lookup_insert_ne by done. by rewrite insert_insert_ne.
  - repeat (case_decide; subst; try done).
Qed.

Lemma addBucket_idem m k e b : addBucket (addBucket m k e b) k e b = addBucket m k e b.
Proof.
  apply map_eq. intros j. rewrite !addBucket_lookup. destruct (decide (k = k)); [|done]. destruct (decide (k = j)); [|done]. simpl.
  f_equal. rewrite lookup_insert_eq, insert_insert_eq. simpl. f_equal. set_solver.
Qed.

Definition obs_add (o : gmap aggKey Z) (k : aggKey) (d : Z) : gmap aggKey Z := <[k := wrap64 (default 0 (o !! k) + d)]> o.

Lemma obs_twice o k d d' : obs_add (obs_add o k d) k d' = <[k := wrap64 (default 0 (o !! k) + (d + d'))]> o.
Proof. unfold obs_add. rewrite lookup_insert_eq, insert_insert_eq. simpl. rewrite wrap64_add_l. do 2 f_equal. lia. Qed.

Lemma obs_comm o k d k' d' : obs_add (obs_add o k d) k' d' = obs_add (obs_add o k' d') k d.
Proof.
  destruct (decide (k = k')) as [->|N]; [rewrite !obs_twice; do 2 f_equal; lia|].
  unfold obs_add. rewrite !lookup_insert_ne by done. by rewrite insert_insert_ne.
Qed.

Lemma apply_state m b : fst (merge_apply m b) =
  mkMerge (ledger_add (m_contributions m) (contribKeyOf b) (b_ObservationCount b))
    (obs_add (m_observations m) (aggKeyOf b)
       (deltaContribution (default 0 (m_contributions m !! contribKeyOf b)) (b_ObservationCount b)))
    (addBucket (m_peerBuckets m) (aggKeyOf b) (b_Epoch b) (b_AnonID b))
    (addBucket (m_projectBuckets m) (aggKeyOf b) (b_Epoch b) (b_ProjectBucket b)).
Proof. done. Qed.

Lemma wrap64_sum3 x a b : wrap64 (x + (wrap64 a + wrap64 b)) = wrap64 (x + (a + b)).
Proof. rewrite Z.add_assoc, wrap64_add_r, <- Z.add_assoc, (Z.add_comm (wrap64 a)), Z.add_assoc, wrap64_add_r. f_equal. lia. Qed.

Lemma apply_comm m a b : fst (merge_apply (fst (merge_apply m a)) b) = fst (merge_apply (fst (merge_apply m b)) a).
Proof.
  rewrite !apply_state. cbn [m_contributions m_observations m_peerBuckets m_projectBuckets]. f_equal.
  - apply ledger_comm.
  - rewrite !ledger_lookup. destruct (decide (contribKeyOf a = contribKeyOf b)) as [E|N].
    + destruct (decide (contribKeyOf b = contribKeyOf a)) as [_|N]; [|by rewrite E in N].
      assert (Ek : aggKeyOf a = aggKeyOf b) by (by apply (f_equal ck_agg) in E).
      rewrite Ek, !obs_twice, E, !delta_congr, !wrap64_sum3. do 2 f_equal. lia.
    + destruct (decide (contribKeyOf b = contribKeyOf a)) as [E|_]; [by rewrite E in N|]. apply obs_comm.
  - apply addBucket_comm.
  - apply addBucket_comm.
Qed.

Lemma apply_idem m b : fst (merge_apply (fst (merge_apply m b)) b) = fst (merge_apply m b).
Proof.
  rewrite !apply_state. cbn [m_contributions m_observations m_peerBuckets m_projectBuckets]. f_equal.
  - apply ledger_idem.
  - rewrite ledger_lookup. destruct (decide _); [|done]. rewrite obs_twice, !delta_congr, wrap64_sum3.
    unfold obs_add. rewrite wrap64_add_r. do 2 f_equal. lia.
  - apply addBucket_idem.
  - apply addBucket_idem.
Qed.

(** A report that was merged before, however long ago, adds exactly nothing. *)
Lemma resend_adds_nothing m bs b : In b bs ->
  merge_apply (merge_all m bs) b = (merge_all m bs, 0).
Proof.
  intros I. assert (E : fst (merge_apply (merge_all m bs) b) = merge_all m bs).
  { apply (fold_absorb (fun m b => fst (merge_apply m b)) apply_comm apply_idem m b bs I). }
  assert (D : snd (merge_apply (merge_all m bs) b) = 0).
  { rewrite <- E. simpl. fold (contribKeyOf b).
    change (if _ <? _ then _ else _) with (ledger_add (m_contributions (merge_all m bs)) (contribKeyOf b) (b_ObservationCount b)).
    unfold deltaContribution. rewrite ledger_lookup. destruct (decide _); [|done].
    destruct (Z.leb_spec (b_ObservationCount b) (Z.max (default 0 (m_contributions (merge_all m bs) !! contribKeyOf b)) (b_ObservationCount b))); [done|lia]. }
  destruct (merge_apply (merge_all m bs) b). simpl in *. by subst.
Qed.

(** ** What the state says *)

(** The reports of one ledger entry, and the greatest count among them. *)
Definition reports (ck : contribKey) (bs : list ObservationBatch) : list Z :=
  map b_ObservationCount (List.filter (fun b => bool_decide (contribKeyOf b = ck)) bs).
Definition peak (ck : contribKey) (bs : list ObservationBatch) : Z := fold_right Z.max 0 (reports ck bs).

Definition ledger_sum (k : aggKey) (m : gmap contribKey Z) : Z :=
  map_fold (fun ck v acc => if decide (ck_agg ck = k) then v + acc else acc) 0 m.

Lemma ledger_sum_fresh k m ck v : m !! ck = None ->
  ledger_sum k (<[ck := v]> m) = (if decide (ck_agg ck = k) then v else 0) + ledger_sum k m.
Proof.
  intros F. unfold ledger_sum. rewrite map_fold_insert_L; [by case_decide| |done].
  intros. repeat case_decide; lia.
Qed.

Lemma ledger_sum_insert k m ck v : ledger_sum k (<[ck := v]> m) =
  (if decide (ck_agg ck = k) then v - default 0 (m !! ck) else 0) + ledger_sum k m.
Proof.
  destruct (m !! ck) as [x|] eqn:E.
  - rewrite <- insert_delete_eq. rewrite ledger_sum_fresh by by rewrite lookup_delete_eq.
    replace (ledger_sum k m) with (ledger_sum k (<[ck := x]> (delete ck m))) by by rewrite insert_delete_id.
    rewrite ledger_sum_fresh by by rewrite lookup_delete_eq. simpl. case_decide; lia.
  - rewrite ledger_sum_fresh by done. simpl. case_decide; lia.
Qed.

Lemma ledger_sum_add k m ck n : ledger_sum k (ledger_add m ck n) =
  (if decide (ck_agg ck = k) then Z.max (default 0 (m !! ck)) n - default 0 (m !! ck) else 0) + ledger_sum k m.
Proof.
  unfold ledger_add. destruct (Z.ltb_spec (default 0 (m !! ck)) n).
  - rewrite ledger_sum_insert. case_decide; lia.
  - case_decide; lia.
Qed.

Lemma merge_all_snoc m bs b : merge_all m (bs ++ [b])%list = fst (merge_apply (merge_all m bs) b).
Proof. unfold merge_all. by rewrite fold_left_app. Qed.

Lemma fold_right_max_snoc l x : fold_right Z.max 0 (l ++ [x])%list = Z.max (fold_right Z.max 0 l) x.
Proof. induction l as [|y l IH]; simpl; [lia|]. rewrite IH. lia. Qed.

Lemma merged_ledger bs ck : default 0 (m_contributions (merge_all newMergeState bs) !! ck) = peak ck bs.
Proof.
  induction bs as [|b bs IH] using rev_ind; [done|]. rewrite merge_all_snoc, apply_state. cbn [m_contributions].
  rewrite ledger_lookup, IH. unfold peak, reports. rewrite List.filter_app, map_app. simpl.
  destruct (decide (contribKeyOf b = ck)) as [E|N].
  - rewrite bool_decide_true by done. simpl. by rewrite fold_right_max_snoc.
  - rewrite bool_decide_false by done. simpl. by rewrite app_nil_r.
Qed.

Lemma unreported_sum bs k : existsb (fun b => bool_decide (aggKeyOf b = k)) bs = false ->
  ledger_sum k (m_contributions (merge_all newMergeState bs)) = 0.
Proof.
  induction bs as [|b bs IH] using rev_ind; [done|]. rewrite existsb_app. simpl. rewrite orb_false_r.
  intros [E1 E2]%orb_false_iff. apply bool_decide_eq_false in E2. rewrite merge_all_snoc, apply_state. cbn [m_contributions].
  rewrite ledger_sum_add. cbn [contribKeyOf ck_agg]. rewrite decide_False by done. by rewrite IH.
Qed.

Lemma merged_observations bs k : m_observations (merge_all newMergeState bs) !! k =
  if existsb (fun b => bool_decide (aggKeyOf b = k)) bs
  then Some (wrap64 (ledger_sum k (m_contributions (merge_all newMergeState bs)))) else None.
Proof.
  induction bs as [|b bs IH] using rev_ind; [done|]. rewrite merge_all_snoc, apply_state. cbn [m_contributions m_observations].
  rewrite existsb_app. simpl. rewrite orb_false_r, ledger_sum_add. cbn [contribKeyOf ck_agg]. unfold obs_add.
  destruct (decide (aggKeyOf b = k)) as [<-|N].
  - rewrite lookup_insert_eq, bool_decide_true, orb_true_r by done. f_equal. rewrite delta_congr, wrap64_add_r, IH.
    destruct (existsb _ bs) eqn:E; simpl; [rewrite wrap64_add_l; f_equal; lia|].
    rewrite (unreported_sum bs) by done. f_equal. lia.
  - rewrite lookup_insert_ne, bool_decide_false, orb_false_r by done. by rewrite IH, Z.add_0_l.
Qed.

(** The buckets that reported a row in an epoch. *)
Definition reporters (id : ObservationBatch -> string) (k : aggKey) (e : string) (bs : list ObservationBatch) : gset string :=
  list_to_set (map id (List.filter (fun b => bool_decide (aggKeyOf b = k) && String.eqb (b_Epoch b) e) bs)).

Lemma addBucket_set m k e b k' e' :
  default ∅ (default ∅ (addBucket m k e b !! k') !! e') =
  if bool_decide (k = k') && String.eqb e e' then {[b]} ∪ default ∅ (default ∅ (m !! k') !! e') else default ∅ (default ∅ (m !! k') !! e').
Proof.
  rewrite addBucket_lookup. destruct (decide (k = k')) as [->|N]; [rewrite bool_decide_true by done|by rewrite bool_decide_false].
  simpl. destruct (String.eqb_spec e e') as [->|Ne]; [by rewrite lookup_insert_eq|by rewrite lookup_insert_ne].
Qed.

Lemma reporters_snoc id k e bs b : reporters id k e (bs ++ [b])%list =
  if bool_decide (aggKeyOf b = k) && String.eqb (b_Epoch b) e then {[id b]} ∪ reporters id k e bs else reporters id k e bs.
Proof.
  unfold reporters. rewrite List.filter_app, map_app, list_to_set_app_L. simpl. destruct (_ && _); simpl; set_solver.
Qed.

Lemma merged_buckets bs k e :
  default ∅ (default ∅ (m_peerBuckets (merge_all newMergeState bs) !! k) !! e) = reporters b_AnonID k e bs
  /\ default ∅ (default ∅ (m_projectBuckets (merge_all newMergeState bs) !! k) !! e) = reporters b_ProjectBucket k e bs.
Proof.
  induction bs as [|b bs [IH1 IH2]] using rev_ind; [done|]. rewrite merge_all_snoc, apply_state.
  cbn [m_peerBuckets m_projectBuckets]. by rewrite !addBucket_set, !reporters_snoc, IH1, IH2.
Qed.

(** The fold of [peakBuckets] is the greatest size of a set in the map. *)
Lemma peak_size (m : gmap string (gset string)) :
  let peak := map_fold (fun _ (set : gset string) best => if best <? Z.of_nat (size set) then Z.of_nat (size set) else best) 0 m in
  (forall e, Z.of_nat (size (default ∅ (m !! e))) <= peak)
  /\ (exists e, peak = Z.of_nat (size (default ∅ (m !! e)))).
Proof.
  induction m as [|e s m F [IH1 [e0 IH2]]] using map_ind.
  - cbv zeta. rewrite map_fold_empty. split; [intros e|exists ""]; rewrite lookup_empty; cbn [default from_option id]; by rewrite size_empty.
  - cbv zeta in *. rewrite map_fold_insert_L; [|intros; repeat (case_match; bool_facts); lia|done].
    set (p := map_fold _ 0 m) in *. destruct (Z.ltb_spec p (Z.of_nat (size s))) as [L|G]; split.
    + intros e'. destruct (decide (e = e')) as [->|N]; [by rewrite lookup_insert_eq|rewrite lookup_insert_ne by done].
      specialize (IH1 e'). lia.
    + exists e. by rewrite lookup_insert_eq.
    + intros e'. destruct (decide (e = e')) as [->|N]; [rewrite lookup_insert_eq; simpl; lia|rewrite lookup_insert_ne by done; apply IH1].
    + destruct (decide (e = e0)) as [->|N]; [|exists e0; by rewrite lookup_insert_ne].
      rewrite F in IH2. cbn [default from_option id] in IH2. rewrite size_empty in IH2. exists e0. rewrite lookup_insert_eq. simpl. lia.
Qed.

(** [n] is the greatest number of distinct reporters in one epoch. *)
Definition greatest_in_an_epoch (id : ObservationBatch -> string) (k : aggKey) (bs : list ObservationBatch) (n : Z) : Prop :=
  (forall e, Z.of_nat (size (reporters id k e bs)) <= n) /\ exists e, n = Z.of_nat (size (reporters id k e bs)).

Lemma merged_peak bs k :
  greatest_in_an_epoch b_AnonID k bs (peakBuckets (m_peerBuckets (merge_all newMergeState bs)) k)
  /\ greatest_in_an_epoch b_ProjectBucket k bs (peakBuckets (m_projectBuckets (merge_all newMergeState bs)) k).
Proof.
  unfold peakBuckets. split.
  - destruct (peak_size (default ∅ (m_peerBuckets (merge_all newMergeState bs) !! k))) as [H1 [e H2]]. split.
    + intros e'. rewrite <- (proj1 (merged_buckets bs k e')). apply H1.
    + exists e. by rewrite <- (proj1 (merged_buckets bs k e)).
  - destruct (peak_size (default ∅ (m_projectBuckets (merge_all newMergeState bs) !! k))) as [H1 [e H2]]. split.
    + intros e'. rewrite <- (proj2 (merged_buckets bs k e')). apply H1.
    + exists e. by rewrite <- (proj2 (merged_buckets bs k e)).
Qed.

(** C25.  The delta-merge is a function of the set of the reports: order and
    repetition do not matter, and a report that was merged before adds
    exactly nothing. *)
Theorem merge_sees_only_the_set bs bs' : (forall b, In b bs <-> In b bs') ->
  merge_all newMergeState bs = merge_all newMergeState bs'
  /\ (forall b, In b bs -> merge_apply (merge_all newMergeState bs) b = (merge_all newMergeState bs, 0)).
Proof.
  intros H. split.
  - apply (fold_set (fun m b => fst (merge_apply m b)) apply_comm apply_idem); done.
  - intros b I. by apply resend_adds_nothing.
Qed.

(** Two identities on two days: the header of merge.go counts the distinct
    buckets of the row, which are two; the code counts within an epoch. *)
Definition day_report (epoch anon : string) : ObservationBatch :=
  mkBatch 1 epoch anon "p" "pkg:npm/axios@1.7.9" "" "" env_example "USED" ResultPass 1
    "" "" "" None "" 0 "" "" "" "" "" "" "" false [] [] false.

Theorem bucket_count_is_not_of_the_row : exists bs k,
  peakBuckets (m_peerBuckets (merge_all newMergeState bs)) k = 1
  /\ size (m_contributions (merge_all newMergeState bs)) = 2%nat.
Proof.
  exists [day_report "2026-08-13" "a"; day_report "2026-08-14" "b"], (aggKeyOf (day_report "2026-08-13" "a")).
  unfold merge_all. cbn [fold_left]. rewrite !apply_state. cbn [m_contributions m_peerBuckets newMergeState].
  change (aggKeyOf (day_report "2026-08-14" "b")) with (aggKeyOf (day_report "2026-08-13" "a")).
  unfold contribKeyOf. change (aggKeyOf (day_report "2026-08-14" "b")) with (aggKeyOf (day_report "2026-08-13" "a")).
  generalize (aggKeyOf (day_report "2026-08-13" "a")). intros k. split.
  - unfold peakBuckets. rewrite !addBucket_lookup, !decide_True by done. rewrite lookup_empty. vm_compute. reflexivity.
  - unfold ledger_add. rewrite lookup_empty. cbn [default from_option id day_report b_ObservationCount b_Epoch b_AnonID].
    change (0 <? 1) with true. cbn iota. rewrite lookup_insert_ne by done. rewrite lookup_empty.
    cbn [default from_option id]. change (0 <? 1) with true. cbn iota.
    rewrite map_size_insert_None by (by rewrite lookup_insert_ne). by rewrite map_size_insert_None.
Qed.

(** ** A row's count, from its reports *)

Definition sum_over (f : contribKey -> Z) (l : list contribKey) : Z := fold_right (fun ck acc => f ck + acc) 0 l.

Lemma sum_over_ext f g l : (forall ck, In ck l -> f ck = g ck) -> sum_over f l = sum_over g l.
Proof.
  induction l as [|a l IH]; intros H; [done|]. simpl. rewrite H by by left. rewrite IH; [done|]. intros b Hb. apply H. by right.
Qed.

Lemma sum_over_bump f g i x l : NoDup l -> f i = 0 -> g i = x -> (forall ck, ck <> i -> f ck = g ck) ->
  sum_over g l = (if decide (i ∈ l) then x else 0) + sum_over f l.
Proof.
  intros Nd Fi Gi E. induction Nd as [|a l Na Nd IH]; [done|]. simpl. rewrite IH.
  destruct (decide (i = a)) as [->|Nia].
  - rewrite (decide_True (P := a ∈ a :: l)) by set_solver. rewrite decide_False by done. lia.
  - rewrite <- (E a) by done. destruct (decide (i ∈ l)) as [I|I].
    + rewrite decide_True by set_solver. lia.
    + rewrite decide_False by set_solver. lia.
Qed.

Lemma ledger_sum_list k (m : gmap contribKey Z) l : NoDup l -> (forall ck, ck ∈ l -> ck_agg ck = k) ->
  (forall ck, is_Some (m !! ck) -> ck_agg ck = k -> ck ∈ l) ->
  ledger_sum k m = sum_over (fun ck => default 0 (m !! ck)) l.
Proof.
  intros Nd A. induction m as [|i x m F IH] using map_ind; intros C.
  - unfold ledger_sum. rewrite map_fold_empty. clear. induction l as [|a l IH]; [done|]. simpl. by rewrite <- IH.
  - rewrite ledger_sum_fresh by done. rewrite IH.
    + rewrite (sum_over_bump (fun ck => default 0 (m !! ck)) (fun ck => default 0 (<[i := x]> m !! ck)) i x l); try done.
      * destruct (decide (i ∈ l)) as [I|I]; [by rewrite decide_True by auto|]. destruct (decide (ck_agg i = k)) as [E|]; [|done].
        exfalso. apply I, C; [rewrite lookup_insert_eq; by eexists|done].
      * by rewrite F.
      * by rewrite lookup_insert_eq.
      * intros ck N. by rewrite lookup_insert_ne.
    + intros ck [v Hv] E. apply C; [|done]. destruct (decide (i = ck)) as [->|N]; [by rewrite F in Hv|].
      rewrite lookup_insert_ne by done. by eexists.
Qed.

(** The ledger entries a row was reported under. *)
Definition row_entries (k : aggKey) (bs : list ObservationBatch) : list contribKey :=
  remove_dups (map contribKeyOf (List.filter (fun b => bool_decide (aggKeyOf b = k)) bs)).

Definition total_reported (k : aggKey) (bs : list ObservationBatch) : Z := sum_over (fun ck => peak ck bs) (row_entries k bs).

Lemma ledger_keys bs ck : is_Some (m_contributions (merge_all newMergeState bs) !! ck) -> ck ∈ map contribKeyOf bs.
Proof.
  induction bs as [|b bs IH] using rev_ind; [by intros [v [=]]|].
  rewrite merge_all_snoc, apply_state. cbn [m_contributions]. unfold ledger_add. rewrite map_app. intros H. simpl.
  apply elem_of_app. destruct (_ <? _); [|left; by apply IH]. destruct (decide (contribKeyOf b = ck)) as [<-|N].
  - right. set_solver.
  - rewrite lookup_insert_ne in H by done. left. by apply IH.
Qed.

Lemma ledger_sum_total bs k : ledger_sum k (m_contributions (merge_all newMergeState bs)) = total_reported k bs.
Proof.
  unfold total_reported. rewrite (ledger_sum_list k _ (row_entries k bs)).
  - apply sum_over_ext. intros ck _. apply merged_ledger.
  - apply NoDup_remove_dups.
  - intros ck I. unfold row_entries in I. apply elem_of_remove_dups, list_elem_of_In, in_map_iff in I as (b & <- & I).
    apply filter_In in I as [_ I]. by apply bool_decide_eq_true in I.
  - intros ck S E. unfold row_entries. apply elem_of_remove_dups, list_elem_of_In. apply ledger_keys, list_elem_of_In, in_map_iff in S as (b & <- & I).
    apply in_map, filter_In. split; [done|]. by apply bool_decide_eq_true.
Qed.

(** What the merged state holds: each ledger entry is the greatest count its
    bucket reported in its epoch; a row's count is the sum of those, over the
    entries it was reported under, as 64-bit arithmetic has it; its independence is the most distinct buckets of a single epoch. *)
Theorem merge_exact bs k :
  let m := merge_all newMergeState bs in
  (forall ck, default 0 (m_contributions m !! ck) = peak ck bs)
  /\ default 0 (m_observations m !! k) = wrap64 (total_reported k bs)
  /\ greatest_in_an_epoch b_AnonID k bs (peakBuckets (m_peerBuckets m) k)
  /\ greatest_in_an_epoch b_ProjectBucket k bs (peakBuckets (m_projectBuckets m) k).
Proof.
  cbv zeta. split; [apply merged_ledger|]. split; [|apply merged_peak]. rewrite merged_observations, <- ledger_sum_total.
  destruct (existsb _ bs) eqn:E; [done|]. simpl.
  by rewrite unreported_sum.
Qed.

(** Three reports, and the same three sent again in another order. *)
Lemma merge_sees_only_the_set_witness :
  let a := day_report "2026-08-13" "a" in
  let b := day_report "2026-08-14" "b" in
  merge_all newMergeState [a; b] = merge_all newMergeState [b; a; b; a].
Proof. cbv zeta. apply merge_sees_only_the_set. intros x. cbn. tauto. Defined.
