(* ===== verification/Applicable.v ===== *)
(** * Which coordinates can hold which assets (internal/domain/applicable.go)

    The rules that keep unanswerable work out of the queue: npm per-platform
    native builds and Gradle plugin markers take no sample, and ecosystems
    without a scanner have neither evidence nor a dependency graph.  A Go map
    literal is its list of entries; [range] over it is an arbitrary
    permutation. *)

From S2P Require Import Prelude GoStrings GoUnicode GoStd StringFacts UnicodeFacts Hash Json Purl Env.

(** ** Tables *)

Definition npmPlatformTokens : list (string * string) :=
  [("darwin", "darwin"); ("win32", "windows"); ("linux", "linux"); ("android", "android");
   ("freebsd", "freebsd"); ("openbsd", "openbsd"); ("sunos", "sunos"); ("aix", "aix")].

Definition npmArchTokens : list string :=
  ["x64"; "x86"; "ia32"; "arm"; "arm64"; "aarch64"; "64"; "32"; "ppc64"; "ppc64le"; "s390x"; "riscv64";
   "mips64el"; "loong64"; "universal"].

Definition gradlePluginMarkerSuffix : string := ".gradle.plugin".

Definition dependencyScannable : list string := ["npm"; "pypi"; "cargo"; "golang"].
Definition evidenceObservable : list string := ["npm"; "pypi"; "cargo"; "golang"].

Fixpoint map_lookup {A} (m : list (string * A)) (k : string) : option A :=
  match m with
  | [] => None
  | (k', v) :: m' => if String.eqb k k' then Some v else map_lookup m' k
  end.

(** ** Operations *)

(** The part after the last "/", the whole name without one. *)
Definition after_slash (name : string) : string :=
  match LastIndexByte name "/" with Some i => str_drop (S i) name | None => name end.

(** The loop over adjacent pairs of tokens. *)
Fixpoint platform_pair (parts : list string) : option string :=
  match parts with
  | p :: ((q :: _) as rest) =>
      match map_lookup npmPlatformTokens p with
      | Some os => if str_in q npmArchTokens then Some os else platform_pair rest
      | None => platform_pair rest
      end
  | _ => None
  end.

Definition NPMPackagePlatform (name : string) : option string :=
  platform_pair (Split (after_slash name) "-").

Definition MavenPomOnlyByName (name : string) : bool :=
  HasSuffix (after_slash name) gradlePluginMarkerSuffix.

(** The reason, when no sample can be written. *)
Definition SampleNotApplicable (ecosystem name : string) : option string :=
  if String.eqb ecosystem "npm" then
    match NPMPackagePlatform name with
    | Some _ => Some "npm per-platform native build: what a sample would import is the .node binary its parent selects"
    | None => None
    end
  else if String.eqb ecosystem "maven" then
    if MavenPomOnlyByName name
    then Some "gradle plugin marker: a pom with no classes, so no contract can call anything"
    else None
  else None.

Definition DependencyScannableEcosystems `{!GoMapRange} : list string :=
  sort_strings (range_order dependencyScannable).

Definition EvidenceObservableEcosystems `{!GoMapRange} : list string :=
  sort_strings (range_order evidenceObservable).

Definition EvidenceNotApplicable (ecosystem : string) : option string :=
  if str_in ecosystem evidenceObservable then None
  else Some ("no local project scanner ships for " +:+ ecosystem
             +:+ ": csx run cannot name a package here, so no observation can be recorded").

Definition DependencyNotApplicable (ecosystem : string) : option string :=
  if str_in ecosystem dependencyScannable then None
  else Some ("no dependency scanner ships for " +:+ ecosystem +:+ ": the tree is unread, not empty").

(** ** Laws *)

Lemma after_slash_scope scope base : lacks "/" base = true -> after_slash (scope +:+ "/" +:+ base) = base.
Proof.
  intros H. unfold after_slash. change ("/" +:+ base) with (String "/" base). rewrite LastIndexByte_app by done.
  apply str_drop_app_S.
Qed.

Lemma after_slash_plain base : lacks "/" base = true -> after_slash base = base.
Proof.
  intros H. unfold after_slash, LastIndexByte. rewrite (last_index_by_none (Ascii.eqb "/") base); [done|].
  eapply str_forall_impl; [|exact H]. simpl. intros x. by rewrite Ascii.eqb_sym.
Qed.

(** An adjacent platform and architecture. *)
Definition pair_at (parts : list string) (i : nat) (os : string) : Prop :=
  exists p q, parts !! i = Some p /\ parts !! S i = Some q
    /\ map_lookup npmPlatformTokens p = Some os /\ In q npmArchTokens.

Lemma pair_at_S p parts i os : pair_at (p :: parts) (S i) os <-> pair_at parts i os.
Proof. done. Qed.

Lemma platform_pair_spec parts os :
  platform_pair parts = Some os <-> exists i, pair_at parts i os /\ forall j os', (j < i)%nat -> ~ pair_at parts j os'.
Proof.
  induction parts as [|p parts IH]; [split; [done|]; intros (i & (x & y & H & _) & _); done|].
  destruct parts as [|q rest]; [split; [done|]; intros ([|i] & (x & y & _ & H & _) & _); done|].
  assert (forall os', pair_at (p :: q :: rest) 0 os' <->
            map_lookup npmPlatformTokens p = Some os' /\ str_in q npmArchTokens = true) as H0.
  { intros os'. rewrite str_in_In. split; [intros (x & y & [= <-] & [= <-] & ?); done|].
    intros [? ?]. exists p, q. done. }
  assert (platform_pair (p :: q :: rest) =
    match map_lookup npmPlatformTokens p with
    | Some os => if str_in q npmArchTokens then Some os else platform_pair (q :: rest)
    | None => platform_pair (q :: rest)
    end) as -> by done.
  assert (Later : (forall os', ~ pair_at (p :: q :: rest) 0 os') ->
    (platform_pair (q :: rest) = Some os <->
     exists i, pair_at (p :: q :: rest) i os /\ forall j os', (j < i)%nat -> ~ pair_at (p :: q :: rest) j os')).
  { intros N. rewrite IH. split.
    - intros (i & Hi & Hj). exists (S i). split; [done|]. intros [|j] os' Hlt; [apply N|apply Hj; lia].
    - intros ([|i] & Hi & Hj); [by apply N in Hi|]. exists i. split; [done|].
      intros j os' Hlt. apply (Hj (S j) os'). lia. }
  destruct (map_lookup npmPlatformTokens p) as [o|] eqn:E; [|apply Later; intros os'; rewrite H0; by intros []].
  destruct (str_in q npmArchTokens) eqn:A; [|apply Later; intros os'; rewrite H0; by intros []].
  split.
  - intros [= ->]. exists 0%nat. split; [by apply H0|lia].
  - intros ([|i] & Hi & Hj); [by apply H0 in Hi as [[= ->] _]|]. exfalso. apply (Hj 0%nat o); [lia|by apply H0].
Qed.

Lemma taxonomy_order {GM : GoMapRange} l x : In x (sort_strings (range_order l)) <-> str_in x l = true.
Proof.
  rewrite str_in_In. unfold sort_strings.
  rewrite <- (Permutation_in' (eq_refl x) (insertion_sort_perm str_lt (range_order l))).
  by rewrite <- (Permutation_in' (eq_refl x) (range_order_perm string l)).
Qed.

(** Some adjacent pair exists just when a first one does. *)
Lemma platform_pair_some parts : platform_pair parts <> None <-> exists i os, pair_at parts i os.
Proof.
  split.
  - destruct (platform_pair parts) as [os|] eqn:E; [|done]. intros _.
    apply platform_pair_spec in E as (i & H & _). eauto.
  - intros (i & os & Hi) N. revert os Hi. induction (lt_wf i) as [i _ IH]. intros os Hi.
    assert (platform_pair parts = Some os) as E; [|congruence].
    apply platform_pair_spec. exists i. split; [done|]. intros j os' Hj Hp. by apply (IH j Hj os').
Qed.

Lemma SampleNotApplicable_spec eco base : lacks "/" base = true ->
  (SampleNotApplicable eco base <> None <->
     eco = "npm" /\ (exists i os, pair_at (Split base "-") i os)
     \/ eco = "maven" /\ HasSuffix base ".gradle.plugin" = true).
Proof.
  intros H. unfold SampleNotApplicable, MavenPomOnlyByName, NPMPackagePlatform.
  rewrite after_slash_plain, <- platform_pair_some by done. fold gradlePluginMarkerSuffix.
  destruct (String.eqb_spec eco "npm") as [-> | N1].
  - destruct (platform_pair _); intuition (try done; congruence).
  - destruct (String.eqb_spec eco "maven") as [-> | N2]; [|intuition done].
    destruct (HasSuffix base gradlePluginMarkerSuffix); intuition (try done; congruence).
Qed.

(** What the queue refuses is exactly what the rules name, and the
    census agrees with it.  A scoped or plain npm name is refused just when
    two adjacent tokens of it are a platform and an architecture; a Maven name
    just when it is a plugin marker; nothing else is.  The lists handed to the
    scheduler are the ecosystems the per-coordinate tests accept, whatever
    order the maps are ranged over, and each is a known ecosystem. *)
Theorem applicability_exact {GM : GoMapRange} scope base :
  lacks "/" base = true ->
  (forall os, NPMPackagePlatform (scope +:+ "/" +:+ base) = Some os <->
     exists i, pair_at (Split base "-") i os /\ forall j os', (j < i)%nat -> ~ pair_at (Split base "-") j os')
  /\ NPMPackagePlatform base = NPMPackagePlatform (scope +:+ "/" +:+ base)
  /\ (forall eco, SampleNotApplicable eco base <> None <->
        eco = "npm" /\ (exists i os, pair_at (Split base "-") i os)
        \/ eco = "maven" /\ HasSuffix base ".gradle.plugin" = true)
  /\ (forall eco, In eco EvidenceObservableEcosystems <-> EvidenceNotApplicable eco = None)
  /\ (forall eco, In eco DependencyScannableEcosystems <-> DependencyNotApplicable eco = None)
  /\ incl EvidenceObservableEcosystems AllowedEcosystems
  /\ EvidenceObservableEcosystems = ["cargo"; "golang"; "npm"; "pypi"].
Proof.
  intros H. split; [intros os; unfold NPMPackagePlatform; rewrite after_slash_scope by done; apply platform_pair_spec|].
  split; [unfold NPMPackagePlatform; by rewrite after_slash_scope, after_slash_plain|].
  split; [intros eco; by apply SampleNotApplicable_spec|].
  assert (EvidenceObservableEcosystems = ["cargo"; "golang"; "npm"; "pypi"]) as E.
  { unfold EvidenceObservableEcosystems. rewrite (sort_strings_perm _ evidenceObservable); [vm_compute; reflexivity|].
    symmetry. apply range_order_perm. }
  split; [|split; [|split; [|exact E]]].
  - intros eco. unfold EvidenceObservableEcosystems, EvidenceNotApplicable. rewrite taxonomy_order. by case_match.
  - intros eco. unfold DependencyScannableEcosystems, DependencyNotApplicable. rewrite taxonomy_order. by case_match.
  - rewrite E. intros x Hx. simpl in *. tauto.
Qed.

Lemma applicability_exact_witness :
  NPMPackagePlatform "oxide-win32-x64" = NPMPackagePlatform "@tailwindcss/oxide-win32-x64"
  /\ NPMPackagePlatform "oxide-win32-x64" = Some "windows"
  /\ SampleNotApplicable "npm" "linux-utils" = None.
Proof.
  split; [|vm_compute; done].
  exact (proj1 (proj2 (applicability_exact (GM:=range_in_order) "@tailwindcss" "oxide-win32-x64" eq_refl))).
Defined.
