(* ===== verification/Search.v ===== *)
(** * Search requests and results (internal/domain/search.go,
    dedupesamples.go, callerquestion.go)

    What is computed on the two ends of a search: the part of a query the
    caller said, the folding of results that share a coordinate, whether a
    result may be offered as verified, and whether it is about the command in
    hand at all.  [Case] and [FailureHypothesis] are from types.go.  The
    floating-point fields are only carried along. *)

From stdpp Require Import gmap.
From S2P Require Import Prelude GoStrings GoUnicode GoStd StringFacts UnicodeFacts WordFacts Hash Json.
From S2P Require Import Float Purl Env Targets Cli CliSubject Failure Experience.

(** ** Data *)

Record FailureHypothesis := mkHypothesis { fh_Domain : string; fh_Confidence : float64 }.

Record Case := mkCase {
  case_SchemaVersion : Z;
  case_CaseID : string;
  case_Kind : string;
  case_Goal : string;
  case_Packages : list string;
  case_Symbols : list string;
  case_Constraints : gmap string string;
  case_Contract : list string;
  case_Believed : string
}.

(** The case with [CaseID] cleared, as it is marshalled.  The two slices that
    are written even when empty may be nil, which the record does not tell;
    the flags do. *)
Definition case_json (nilPackages nilContract : bool) (c : Case) : json :=
  JObj (field "schemaVersion" (jint (case_SchemaVersion c))
    ++ field "kind" (JStr (case_Kind c))
    ++ field "goal" (JStr (case_Goal c))
    ++ field "packages" (jslice (if nilPackages then None else Some (case_Packages c)))
    ++ omit_strs "symbols" (case_Symbols c)
    ++ omit_map "constraints" (case_Constraints c)
    ++ field "contract" (jslice (if nilContract then None else Some (case_Contract c)))
    ++ omit_str "believed" (case_Believed c)).

Definition case_ComputeID (nilPackages nilContract : bool) (c : Case) : string :=
  "case:sha256:" +:+ sha256_hex (CanonicalJSON (case_json nilPackages nilContract c)).

Record SearchRequest := mkSearch {
  sr_SchemaVersion : Z;
  sr_Query : string;
  sr_Packages : list string;
  sr_ProjectPackages : list string;
  sr_ContextSymbols : list string;
  sr_Symbols : list string;
  sr_SymbolProvenance : string;
  sr_Environment : EnvironmentFingerprint;
  sr_EnvironmentProvenance : string;
  sr_ErrorFingerprint : string;
  sr_ErrorFingerprints : list string;
  sr_ErrorCode : string;
  sr_Limit : Z;
  sr_Debug : bool
}.

Record EvidenceSummary := mkEvidence {
  es_ProjectCompileObservations : Z;
  es_CleanBuilds : Z;
  es_ContractPasses : Z;
  es_IndependentCrossPeers : Z;
  es_UniquePeerBuckets : Z;
  es_PassRate : float64;
  es_Confidence : string;
  es_ElevatedFailures : list string;
  es_LastSeen : string
}.

Record KnownFailure := mkKnownFailure {
  kf_ErrorCode : string;
  kf_Fingerprint : string;
  kf_Count : Z;
  kf_EnvSummary : gmap string string;
  kf_Hypotheses : list FailureHypothesis
}.

Record SearchResult := mkResult {
  res_Grade : MatchGrade;
  res_Confidence : string;
  res_Score : float64;
  res_Case : option Case;
  res_SampleID : string;
  res_SampleURL : string;
  res_SampleStatus : string;
  res_ExactFailureMatched : bool;
  res_Exact : list string;
  res_Different : list string;
  res_Adaptation : list string;
  res_Evidence : EvidenceSummary;
  res_KnownFailures : list KnownFailure
}.

(** ** Requests *)

Definition SearchProvenanceExplicit := "explicit".
Definition SearchProvenanceContext := "context".

Definition EnvironmentIsContext (r : SearchRequest) : bool :=
  String.eqb (sr_EnvironmentProvenance r) SearchProvenanceContext.

Definition sanitizedCoordinateKeys : list string :=
  ["failureEvent: "; "errorCode: "; "fingerprint: "; "termination: "; "evidenceQuality: "].

Definition isSanitizedCoordinateLine (line : string) : bool :=
  existsb (HasPrefix (TrimSpace line)) sanitizedCoordinateKeys.

Definition newline : ascii := chr 10.

(** The two loops over the lines: what is kept, and whether any was dropped. *)
Definition kept_lines (lines : list string) : list string :=
  List.filter (fun line => negb (isSanitizedCoordinateLine line)) lines.

Definition CallerQuestion (r : SearchRequest) : string :=
  let q := sr_Query r in
  if negb (Contains q (single newline)) then
    if isSanitizedCoordinateLine q then "" else q
  else
    let lines := Split q newline in
    let dropped := existsb isSanitizedCoordinateLine lines in
    if negb dropped then q else TrimSpace (Join (kept_lines lines) (single newline)).

(** ** Folding results *)

Definition nul : ascii := chr 0.

Definition ResultCoordinate (r : SearchResult) : option string :=
  match res_Case r with
  | None => None
  | Some c =>
      let packages := case_Packages c in
      let symbols := case_Symbols c in
      if Nat.eqb (length packages) 0 && Nat.eqb (length symbols) 0 then None
      else Some (Join (sort_strings packages) "," +:+ single nul +:+ Join (sort_strings symbols) ",")
  end.

(** The loop; [seen] is the map of the keys met so far. *)
Fixpoint dedupe_loop (seen : list string) (results : list SearchResult) : list SearchResult :=
  match results with
  | [] => []
  | r :: rest =>
      match ResultCoordinate r with
      | None => r :: dedupe_loop seen rest
      | Some key => if str_in key seen then dedupe_loop seen rest else r :: dedupe_loop (key :: seen) rest
      end
  end.

Definition DedupeResultsByCoordinate (results : list SearchResult) : list SearchResult :=
  if (length results <? 2)%nat then results else dedupe_loop [] results.

(** ** What may be offered *)

Definition VerifiedOffer (r : SearchResult) : bool :=
  if (es_ContractPasses (res_Evidence r) <=? 0) || (0 <? length (res_Different r))%nat
     || (0 <? length (res_Adaptation r))%nat
  then false
  else bool_decide (res_Grade r = GradeExact) || bool_decide (res_Grade r = GradeCompatible).

Definition RecommendationVerifiedMatch := "VERIFIED_MATCH".
Definition RecommendationReferenceCandidate := "REFERENCE_CANDIDATE".

Definition RecommendationClassification (r : SearchResult) : string * bool * string :=
  if String.eqb (res_Confidence r) "LOW" then (RecommendationReferenceCandidate, true, "confidence is LOW")
  else if negb (VerifiedOffer r)
  then (RecommendationReferenceCandidate, true, "the match is reference-only or requires adaptation")
  else (RecommendationVerifiedMatch, false, "the sample contract passed without a disclosed environment delta").

(** The loop of [UnrelatedToCommand]. *)
Fixpoint unrelated_loop (want : string) (packages : list string) : bool :=
  match packages with
  | [] => negb (String.eqb want "")
  | raw :: rest =>
      match ParsePURL raw with
      | Err _ => unrelated_loop want rest
      | Ok p =>
          if String.eqb (purl_Ecosystem p) "generic" then unrelated_loop want rest
          else if negb (String.eqb want "") && String.eqb (purl_Ecosystem p) want then false
          else if String.eqb want "" then true
          else unrelated_loop want rest
      end
  end.

Definition UnrelatedToCommand (r : SearchResult) (argv : list string) : bool :=
  if res_ExactFailureMatched r then false
  else match res_Case r with
  | None => false
  | Some c =>
      if Nat.eqb (length (case_Packages c)) 0 then false
      else unrelated_loop (CommandEcosystem argv) (case_Packages c)
  end.

Fixpoint ecosystems_loop (seen : list string) (packages : list string) : list string :=
  match packages with
  | [] => []
  | raw :: rest =>
      match ParsePURL raw with
      | Err _ => ecosystems_loop seen rest
      | Ok p =>
          let eco := purl_Ecosystem p in
          if String.eqb eco "generic" || str_in eco seen then ecosystems_loop seen rest
          else eco :: ecosystems_loop (eco :: seen) rest
      end
  end.

Definition SampleEcosystems (r : SearchResult) : list string :=
  match res_Case r with
  | None => []
  | Some c => ecosystems_loop [] (case_Packages c)
  end.

Definition ConfidenceReason (r : SearchResult) : string :=
  let e := res_Evidence r in
  let independence := es_IndependentCrossPeers e in
  let independence := if independence <? es_UniquePeerBuckets e then es_UniquePeerBuckets e else independence in
  if String.eqb (res_Confidence r) "HIGH" then ""
  else if 2 <=? independence then ""
  else if (0 <? es_ContractPasses e) && (independence <=? 1) then
    "its contract passed here, but only one peer key has run it; runs from a second one are what raises this"
  else if (es_ProjectCompileObservations e =? 0) && (es_ContractPasses e =? 0) then
    "nothing has been observed or verified for this yet"
  else "only one peer key has reported on this so far".

(** ** Folding keeps the best answer of each coordinate *)

Lemma dedupe_sublist seen l : sublist (dedupe_loop seen l) l.
Proof.
  revert seen. induction l as [|r l IH]; intros seen; [constructor|]. cbn [dedupe_loop].
  destruct (ResultCoordinate r) as [k|]; [destruct (str_in k seen)|]; constructor; apply IH.
Qed.

Lemma dedupe_keys seen l :
  List.NoDup (omap ResultCoordinate (dedupe_loop seen l))
  /\ forall k, In k (omap ResultCoordinate (dedupe_loop seen l)) <->
       In k (omap ResultCoordinate l) /\ ~ In k seen.
Proof.
  revert seen. induction l as [|r l IH]; intros seen; [split; [constructor|simpl; tauto]|]. cbn [dedupe_loop].
  destruct (ResultCoordinate r) as [k|] eqn:E.
  - destruct (str_in k seen) eqn:S.
    + destruct (IH seen) as [N M]. split; [done|]. intros k'. rewrite M. cbn [omap list_omap]. rewrite E. cbn [In].
      rewrite str_in_In in S. intuition congruence.
    + destruct (IH (k :: seen)) as [N M]. cbn [omap list_omap]. rewrite E.
      rewrite <- not_true_iff_false, str_in_In in S. split.
      * constructor; [|done]. rewrite M. simpl. tauto.
      * intros k'. cbn [In]. rewrite M. cbn [In]. destruct (String.eqb_spec k k') as [->|]; intuition congruence.
  - destruct (IH seen) as [N M]. cbn [omap list_omap]. by rewrite E.
Qed.

Lemma dedupe_first seen pre r post :
  (forall k, ResultCoordinate r = Some k -> ~ In k seen /\ ~ In k (omap ResultCoordinate pre)) ->
  In r (dedupe_loop seen (pre ++ r :: post)).
Proof.
  revert seen. induction pre as [|x pre IH]; intros seen H; cbn [app dedupe_loop].
  - destruct (ResultCoordinate r) as [k|] eqn:E; [|by left].
    destruct (str_in k seen) eqn:S; [|by left]. apply str_in_In in S. by destruct (H k eq_refl).
  - cbn [omap list_omap] in H. destruct (ResultCoordinate x) as [k|] eqn:E.
    + destruct (str_in k seen) eqn:S.
      * apply IH. intros k' Hk. destruct (H k' Hk) as [H1 H2]. cbn [In] in H2. tauto.
      * right. apply IH. intros k' Hk. destruct (H k' Hk) as [H1 H2]. cbn [In] in *. intuition congruence.
    + right. by apply IH.
Qed.

Lemma dedupe_id seen l : List.NoDup (omap ResultCoordinate l) ->
  (forall k, In k (omap ResultCoordinate l) -> ~ In k seen) -> dedupe_loop seen l = l.
Proof.
  revert seen. induction l as [|r l IH]; intros seen N D; [done|]. cbn [dedupe_loop omap list_omap] in *.
  destruct (ResultCoordinate r) as [k|] eqn:E.
  - inversion N as [|? ? N1 N2]; subst. assert (str_in k seen = false) as ->.
    { apply not_true_iff_false. rewrite str_in_In. apply D. by left. }
    rewrite IH; [done|done|]. intros k' Hk. cbn [In]. intros [->|H]; [done|]. apply (D k'); [by right|done].
  - by rewrite IH.
Qed.

Lemma Dedupe_loop results : DedupeResultsByCoordinate results = dedupe_loop [] results.
Proof.
  unfold DedupeResultsByCoordinate. destruct results as [|r [|r' l]]; try done.
  cbn [length Nat.ltb Nat.leb dedupe_loop]. by destruct (ResultCoordinate r).
Qed.

(** The text of one package or symbol of a coordinate. *)
Definition coordinate_text (s : string) : Prop := s <> "" /\ lacks "," s = true /\ lacks nul s = true.

Lemma Join_comma_inj l1 l2 : Forall coordinate_text l1 -> Forall coordinate_text l2 ->
  Join l1 "," = Join l2 "," -> l1 = l2.
Proof.
  assert (N : forall l, Forall coordinate_text l -> Join l "," = "" -> l = []).
  { intros [|w l] H E; [done|]. inversion H as [|? ? [Hw _] _]; subst. destruct l as [|w' l]; [done|].
    rewrite Join_cons2 in E. by apply str_app_eq_nil in E as [-> _]. }
  intros H1 H2 E. destruct l1 as [|w1 l1]; [symmetry; by apply N|]. destruct l2 as [|w2 l2]; [by apply N|].
  rewrite <- (Split_Join_sep (w1 :: l1) ","), <- (Split_Join_sep (w2 :: l2) ",");
    [by change (single ",") with ","; rewrite E|done|..|done|]; eapply List.Forall_impl; try eassumption; by intros ? (_ & ? & _).
Qed.

Lemma coordinate_lacks_nul l : Forall coordinate_text l -> lacks nul (Join l ",") = true.
Proof. intros H. apply Join_Forall; [|reflexivity]. eapply List.Forall_impl; [|exact H]. by intros ? (_ & _ & ?). Qed.

Lemma sort_strings_text l : Forall coordinate_text l -> Forall coordinate_text (sort_strings l).
Proof. intros H. unfold sort_strings. by rewrite <- insertion_sort_perm. Qed.

Lemma sort_strings_eq l1 l2 : sort_strings l1 = sort_strings l2 <-> Permutation l1 l2.
Proof.
  split; [|apply sort_strings_perm]. unfold sort_strings. intros E.
  rewrite (insertion_sort_perm str_lt l1), (insertion_sort_perm str_lt l2). by rewrite E.
Qed.

Definition case_text (c : Case) : Prop := Forall coordinate_text (case_Packages c) /\ Forall coordinate_text (case_Symbols c).

Lemma coordinate_key c1 c2 : case_text c1 -> case_text c2 ->
  (Join (sort_strings (case_Packages c1)) "," +:+ single nul +:+ Join (sort_strings (case_Symbols c1)) ","
   = Join (sort_strings (case_Packages c2)) "," +:+ single nul +:+ Join (sort_strings (case_Symbols c2)) ","
   <-> Permutation (case_Packages c1) (case_Packages c2) /\ Permutation (case_Symbols c1) (case_Symbols c2)).
Proof.
  intros [P1 S1]%(fun H => conj (sort_strings_text _ (proj1 H)) (sort_strings_text _ (proj2 H)))
         [P2 S2]%(fun H => conj (sort_strings_text _ (proj1 H)) (sort_strings_text _ (proj2 H))).
  rewrite <- !sort_strings_eq. split; [|by intros [-> ->]]. intros E.
  apply (f_equal (fun s => Cut s nul)) in E. unfold single in E. cbn [String.append] in E.
  rewrite !Cut_app in E by (by apply coordinate_lacks_nul). injection E as E1 E2.
  split; by apply Join_comma_inj.
Qed.

(** Folding results by coordinate keeps the order, keeps exactly one
    result per coordinate, the first and so the best-scored one, never drops a
    result that declares no coordinate, and folding again changes nothing.
    Two cases share a coordinate exactly when they declare the same packages
    and symbols, in whatever order, for names without a comma or NUL. *)
Theorem dedupe_one_per_coordinate results :
  let out := DedupeResultsByCoordinate results in
  sublist out results
  /\ List.NoDup (omap ResultCoordinate out)
  /\ (forall k, In k (omap ResultCoordinate out) <-> In k (omap ResultCoordinate results))
  /\ (forall pre r post, results = (pre ++ r :: post)%list ->
        (forall k, ResultCoordinate r = Some k -> ~ In k (omap ResultCoordinate pre)) -> In r out)
  /\ DedupeResultsByCoordinate out = out
  /\ (forall r1 r2 c1 c2, res_Case r1 = Some c1 -> res_Case r2 = Some c2 -> case_text c1 -> case_text c2 ->
        ResultCoordinate r1 <> None ->
        (ResultCoordinate r1 = ResultCoordinate r2 <->
         Permutation (case_Packages c1) (case_Packages c2) /\ Permutation (case_Symbols c1) (case_Symbols c2))).
Proof.
  cbn zeta. rewrite !Dedupe_loop. destruct (dedupe_keys [] results) as [N M].
  split; [apply dedupe_sublist|]. split; [exact N|]. split; [intros k; rewrite M; simpl; tauto|].
  split; [|split].
  - intros pre r post -> H. apply dedupe_first. intros k Hk. split; [by intros []|by apply H].
  - apply dedupe_id; [exact N|]. by intros k _ [].
  - intros r1 r2 c1 c2 E1 E2 T1 T2. unfold ResultCoordinate. rewrite E1, E2. cbn zeta.
    destruct (Nat.eqb (length (case_Packages c1)) 0 && Nat.eqb (length (case_Symbols c1)) 0) eqn:Z1; [done|].
    intros _. rewrite <- (coordinate_key c1 c2) by done.
    destruct (Nat.eqb (length (case_Packages c2)) 0 && Nat.eqb (length (case_Symbols c2)) 0) eqn:Z2;
      [|split; [by intros [= ?]|by intros ->]].
    split; [done|]. intros E. exfalso. apply coordinate_key in E as [P S]; [|done..].
    by rewrite P, S, Z2 in Z1.
Qed.

Definition evidence_example : EvidenceSummary := mkEvidence 4 2 3 1 1 fzero "LOW" [] "".
Definition case_example (packages symbols : list string) : Case := mkCase 1 "" "HOW" "retry" packages symbols ∅ [] "".
Definition result_example (c : option Case) (id : string) : SearchResult :=
  mkResult GradeExact "MEDIUM" fzero c id "" "" false [] [] [] evidence_example [].

Definition results_corpus : list SearchResult :=
  [result_example (Some (case_example ["pkg:npm/b@1"; "pkg:npm/a@1"] ["f"])) "s1"; result_example None "s2";
   result_example (Some (case_example ["pkg:npm/a@1"; "pkg:npm/b@1"] ["f"])) "s3"; result_example None "s4"].

Lemma dedupe_one_per_coordinate_witness :
  map res_SampleID (DedupeResultsByCoordinate results_corpus) = ["s1"; "s2"; "s4"]
  /\ In (result_example None "s2") (DedupeResultsByCoordinate results_corpus).
Proof.
  split; [vm_compute; reflexivity|].
  apply (proj1 (proj2 (proj2 (proj2 (dedupe_one_per_coordinate results_corpus))))
           [result_example (Some (case_example ["pkg:npm/b@1"; "pkg:npm/a@1"] ["f"])) "s1"]
           (result_example None "s2")
           [result_example (Some (case_example ["pkg:npm/a@1"; "pkg:npm/b@1"] ["f"])) "s3"; result_example None "s4"]);
    [reflexivity|discriminate].
Defined.

(** ** The relevance gate and the offer *)

(** The ecosystem a package of a sample speaks for. *)
Definition sample_ecosystem (raw : string) : option string :=
  match ParsePURL raw with
  | Ok p => if String.eqb (purl_Ecosystem p) "generic" then None else Some (purl_Ecosystem p)
  | Err _ => None
  end.

Lemma ecosystems_loop_spec seen l :
  List.NoDup (ecosystems_loop seen l)
  /\ forall e, In e (ecosystems_loop seen l) <-> In e (omap sample_ecosystem l) /\ ~ In e seen.
Proof.
  revert seen. induction l as [|raw l IH]; intros seen; [split; [constructor|simpl; tauto]|].
  cbn [ecosystems_loop omap list_omap]. unfold sample_ecosystem at 1. cbn zeta.
  destruct (ParsePURL raw) as [p|]; [|apply IH]. destruct (String.eqb (purl_Ecosystem p) "generic"); [apply IH|].
  cbn [orb]. destruct (str_in (purl_Ecosystem p) seen) eqn:S.
  - destruct (IH seen) as [N M]. split; [done|]. intros e. rewrite M. cbn [In]. apply str_in_In in S. intuition congruence.
  - destruct (IH (purl_Ecosystem p :: seen)) as [N M]. rewrite <- not_true_iff_false, str_in_In in S. split.
    + constructor; [|done]. rewrite M. cbn [In]. tauto.
    + intros e. cbn [In]. rewrite M. cbn [In]. destruct (String.eqb_spec (purl_Ecosystem p) e) as [<-|]; intuition congruence.
Qed.

Lemma unrelated_loop_spec want l :
  unrelated_loop want l = true <->
  (if String.eqb want "" then omap sample_ecosystem l <> [] else ~ In want (omap sample_ecosystem l)).
Proof.
  induction l as [|raw l IH]; [cbn; destruct (String.eqb want ""); simpl; intuition congruence|].
  cbn [unrelated_loop omap list_omap]. unfold sample_ecosystem at 1 4. destruct (ParsePURL raw) as [p|]; [|exact IH].
  destruct (String.eqb (purl_Ecosystem p) "generic"); [exact IH|].
  destruct (String.eqb want "") eqn:W; cbn [negb andb]; [intuition congruence|].
  cbn [In]. destruct (String.eqb_spec (purl_Ecosystem p) want) as [->|N]; [intuition congruence|].
  rewrite IH. intuition congruence.
Qed.

(** What is recommended unasked.  A result is a verified match exactly
    when its contract passed, nothing differs or needs adapting, the grade is
    exact or compatible and its confidence is not LOW, and everything else is
    advisory; and the relevance gate rejects a result exactly when the
    failure was not matched exactly, it declares packages, and the ecosystems
    it is said to be about do not include the one the command builds for
    (or there are any, for a command that builds for none). *)
Theorem recommendation_gate r argv :
  (let '(class, advisory, _) := RecommendationClassification r in
   (class = RecommendationVerifiedMatch <->
      res_Confidence r <> "LOW" /\ 0 < es_ContractPasses (res_Evidence r) /\ res_Different r = []
      /\ res_Adaptation r = [] /\ (res_Grade r = GradeExact \/ res_Grade r = GradeCompatible))
   /\ (advisory = true <-> class = RecommendationReferenceCandidate))
  /\ List.NoDup (SampleEcosystems r)
  /\ (UnrelatedToCommand r argv = true <->
      res_ExactFailureMatched r = false
      /\ (exists c, res_Case r = Some c /\ case_Packages c <> [])
      /\ if String.eqb (CommandEcosystem argv) "" then SampleEcosystems r <> []
         else ~ In (CommandEcosystem argv) (SampleEcosystems r)).
Proof.
  split; [|split].
  - unfold RecommendationClassification, VerifiedOffer.
    destruct (String.eqb_spec (res_Confidence r) "LOW"); [vm_compute; intuition congruence|].
    destruct (Z.leb_spec (es_ContractPasses (res_Evidence r)) 0); [simpl; split; [|done]; split; [discriminate|]; lia|].
    destruct (res_Different r), (res_Adaptation r); cbn [length Nat.ltb Nat.leb orb]; try (vm_compute; intuition congruence).
    destruct (res_Grade r); vm_compute; intuition congruence.
  - unfold SampleEcosystems. destruct (res_Case r); [apply ecosystems_loop_spec|constructor].
  - unfold UnrelatedToCommand, SampleEcosystems. destruct (res_ExactFailureMatched r); [intuition congruence|].
    destruct (res_Case r) as [c|]; [|split; [done|by intros (_ & (? & ? & _) & _)]].
    pose proof (proj2 (ecosystems_loop_spec [] (case_Packages c))) as M.
    assert (ecosystems_loop [] (case_Packages c) = [] <-> omap sample_ecosystem (case_Packages c) = []) as Z.
    { split; intros E; [apply elem_of_nil_inv | apply elem_of_nil_inv]; intros e He; apply list_elem_of_In in He.
      - apply (in_nil (a := e)). rewrite <- E. apply M. split; [done|by intros []].
      - apply M in He as [He _]. by rewrite E in He. }
    destruct (case_Packages c) as [|raw l] eqn:P; cbn [length Nat.eqb].
    { split; [done|]. intros (_ & (c' & [= <-] & H) & _). by rewrite P in H. }
    rewrite <- P in *. rewrite unrelated_loop_spec.
    assert (exists c', Some c = Some c' /\ case_Packages c' <> []) as X by (exists c; by rewrite P).
    destruct (String.eqb (CommandEcosystem argv) ""); [rewrite Z; tauto|]. rewrite M. simpl. tauto.
Qed.

(** ** The caller's words *)

Lemma Contains_single c s : Contains s (single c) = negb (lacks c s).
Proof.
  unfold lacks. induction s as [|a s IH]; [done|]. cbn [Contains str_forall]. rewrite IH.
  unfold single. cbn [HasPrefix]. rewrite (Ascii.eqb_sym c a). destruct (Ascii.eqb a c); [done|]. done.
Qed.

Lemma Split_lacks_id c s : lacks c s = true -> Split s c = [s].
Proof. intros H. apply (Split_Join_sep [s] c); [done|]. by repeat constructor. Qed.

Lemma Split_byte c s : Split (String c s) c = "" :: Split s c.
Proof. unfold Split. cbn [split_ne]. destruct (split_ne c s). by rewrite Ascii.eqb_refl. Qed.

Lemma Split_pieces s c : Forall (fun w => lacks c w = true) (Split s c) /\ Join (Split s c) (single c) = s.
Proof.
  induction s as [|a s [F J]]; [by repeat constructor|].
  destruct (Ascii.eqb_spec a c) as [->|N].
  - rewrite Split_byte. split; [by constructor|]. destruct (Split_not_nil s c) as (h & t & E). rewrite E in *.
    rewrite Join_cons2, J. done.
  - destruct (Split_not_nil s c) as (h & t & E). rewrite (Split_cons a s c h t N E). rewrite E in *.
    apply List.Forall_cons_iff in F as [Fh Ft]. split.
    + constructor; [|done]. unfold lacks in *. cbn [str_forall]. rewrite Fh.
      by rewrite (proj2 (Ascii.eqb_neq a c) N).
    + destruct t as [|t1 t]; [by rewrite <- J|]. rewrite Join_cons2 in *. cbn [String.append]. by rewrite J.
Qed.

(** A line of a text, by what surrounds it. *)
Definition line_of (c : ascii) (t w : string) : Prop :=
  exists p q, t = p +:+ w +:+ q /\ lacks c w = true
    /\ (p = "" \/ exists p', p = p' +:+ single c) /\ (q = "" \/ exists q', q = String c q').

Lemma Split_app_sep p c q : Split (p +:+ String c q) c = (Split p c ++ Split q c)%list.
Proof.
  induction p as [|a p IH]; cbn [String.append]; [by rewrite Split_byte|].
  destruct (Ascii.eqb_spec a c) as [->|N]; [by rewrite !Split_byte, IH|].
  destruct (Split_not_nil p c) as (h & t & E). rewrite (Split_cons a p c h t N E).
  apply (Split_cons a _ c h (t ++ Split q c)); [done|]. by rewrite IH, E.
Qed.

Lemma Split_app_end w c q : lacks c w = true -> (q = "" \/ exists q', q = String c q') -> In w (Split (w +:+ q) c).
Proof.
  intros H [->|[q' ->]]; [rewrite str_app_nil_r, Split_lacks_id by done; by left|].
  rewrite Split_app_sep, (Split_lacks_id c w H). by left.
Qed.

Lemma line_of_Split c t w : line_of c t w <-> In w (Split t c).
Proof.
  split.
  - intros (p & q & -> & H & [->|[p' ->]] & Hq); [exact (Split_app_end w c q H Hq)|].
    rewrite str_app_assoc. change (single c +:+ w +:+ q) with (String c (w +:+ q)).
    rewrite Split_app_sep. apply in_or_app. right. by apply Split_app_end.
  - intros I. destruct (Split_pieces t c) as [F J]. apply in_split in I as (xs & ys & E). rewrite E in *.
    assert (lacks c w = true) as H by (eapply List.Forall_forall in F; [exact F|]; apply in_elt).
    assert (T : exists q, Join (w :: ys) (single c) = w +:+ q /\ (q = "" \/ exists q', q = String c q')).
    { destruct ys as [|y ys]; [exists ""; rewrite str_app_nil_r; eauto|].
      exists (String c (Join (y :: ys) (single c))). rewrite Join_cons2. eauto. }
    destruct T as (q & Eq & Hq). destruct xs as [|x xs].
    + exists "", q. cbn [app] in J. rewrite <- J, Eq. eauto.
    + rewrite Join_app in J by done. rewrite Eq in J.
      exists (Join (x :: xs) (single c) +:+ single c), q. rewrite str_app_assoc. eauto 10.
Qed.

Lemma last_line c l : exists l1 l2, l = l1 +:+ l2 /\ lacks c l2 = true /\ (l1 = "" \/ exists l0, l1 = l0 +:+ single c).
Proof.
  induction l as [|a l (l1 & l2 & -> & H & [->|[l0 ->]])].
  - exists "", "". eauto.
  - destruct (Ascii.eqb_spec a c) as [->|N].
    + exists (single c), l2. split; [done|]. split; [done|]. right. by exists "".
    + exists "", (String a l2). split; [done|]. split; [|by left]. unfold lacks in *. cbn [str_forall].
      by rewrite H, (proj2 (Ascii.eqb_neq a c) N).
  - exists (String a (l0 +:+ single c)), l2. split; [done|]. split; [done|]. right. by exists (String a l0).
Qed.

Lemma blank_newline x : blank (String newline x) -> blank x.
Proof.
  rewrite <- !trim_left_nil_blank. change (String newline x) with (single newline +:+ x).
  by rewrite trim_left_space.
Qed.

(** A line of the text without the white space around it is a line of the
    whole text, up to white space around the line. *)
Lemma line_around l t r w : blank l -> blank r -> line_of newline t w ->
  exists l' r', blank l' /\ blank r' /\ line_of newline (l +:+ t +:+ r) (l' +:+ w +:+ r').
Proof.
  intros Bl Br (p & q & -> & H & Hp & Hq).
  assert (Lf : exists p' l', l +:+ p = p' +:+ l' /\ blank l' /\ lacks newline l' = true
               /\ (p' = "" \/ exists p0, p' = p0 +:+ single newline)).
  { destruct Hp as [->|[p0 ->]].
    - rewrite str_app_nil_r. destruct (last_line newline l) as (l1 & l2 & -> & H2 & H1). exists l1, l2.
      split; [done|]. split; [|done]. destruct H1 as [->|[l0 ->]]; [done|].
      rewrite str_app_assoc in Bl. change (single newline +:+ l2) with (String newline l2) in Bl.
      apply blank_cut in Bl as [_ B]; [|reflexivity]. by apply blank_newline.
    - exists (l +:+ p0 +:+ single newline), "". rewrite str_app_nil_r. split; [done|]. split; [constructor|].
      split; [done|]. right. exists (l +:+ p0). by rewrite str_app_assoc. }
  assert (Rt : exists r' q', q +:+ r = r' +:+ q' /\ blank r' /\ lacks newline r' = true
               /\ (q' = "" \/ exists q0, q' = String newline q0)).
  { destruct Hq as [->|[q0 ->]]; [|exists "", (String newline (q0 +:+ r)); repeat split; eauto; constructor].
    cbn [String.append]. destruct (Cut r newline) as [[b rest] ok] eqn:C. destruct (Cut_spec _ _ _ _ _ C) as [Hb Hs].
    destruct ok; [|destruct Hs as [-> _]; exists b, ""; rewrite str_app_nil_r; eauto 10].
    subst r. exists b, (String newline rest). split; [done|]. split; [|eauto].
    by apply blank_cut in Br as [? _]. }
  destruct Lf as (p' & l' & E1 & B1 & L1 & P1). destruct Rt as (r' & q' & E2 & B2 & L2 & P2).
  exists l', r'. split; [done|]. split; [done|]. exists p', q'. split; [|split; [|done]].
  - transitivity ((l +:+ p) +:+ w +:+ (q +:+ r)); [by rewrite !str_app_assoc|].
    rewrite E1, E2. by rewrite !str_app_assoc.
  - by rewrite !lacks_app, L1, H, L2.
Qed.

Lemma TrimSpace_lines s w : In w (Split (TrimSpace s) newline) -> isSanitizedCoordinateLine w = true ->
  exists w', In w' (Split s newline) /\ isSanitizedCoordinateLine w' = true.
Proof.
  rewrite <- line_of_Split. intros H S. destruct (TrimSpace_split s) as (l & r & E & Bl & Br).
  destruct (line_around l _ r w Bl Br H) as (l' & r' & B1 & B2 & L). rewrite <- E in L.
  exists (l' +:+ w +:+ r'). rewrite <- line_of_Split. split; [done|].
  unfold isSanitizedCoordinateLine in *. by rewrite TrimSpace_around.
Qed.

(** The question as one filter over the lines; the shortcut for a query
    without a line break computes the same. *)
Lemma CallerQuestion_lines r :
  CallerQuestion r =
    let lines := Split (sr_Query r) newline in
    if existsb isSanitizedCoordinateLine lines
    then TrimSpace (Join (kept_lines lines) (single newline)) else sr_Query r.
Proof.
  unfold CallerQuestion. cbn zeta. rewrite Contains_single, negb_involutive.
  destruct (lacks newline (sr_Query r)) eqn:L.
  - rewrite Split_lacks_id by done. unfold kept_lines. cbn [existsb List.filter]. rewrite orb_false_r.
    destruct (isSanitizedCoordinateLine (sr_Query r)); done.
  - by destruct (existsb _ _).
Qed.

Definition set_Query (q : string) (r : SearchRequest) : SearchRequest :=
  mkSearch (sr_SchemaVersion r) q (sr_Packages r) (sr_ProjectPackages r) (sr_ContextSymbols r) (sr_Symbols r)
    (sr_SymbolProvenance r) (sr_Environment r) (sr_EnvironmentProvenance r) (sr_ErrorFingerprint r)
    (sr_ErrorFingerprints r) (sr_ErrorCode r) (sr_Limit r) (sr_Debug r).

Lemma kept_Split lines : Forall (fun w => lacks newline w = true) lines ->
  forall w, In w (Split (Join (kept_lines lines) (single newline)) newline) -> isSanitizedCoordinateLine w = false.
Proof.
  intros F w. destruct (kept_lines lines) as [|k ks] eqn:K; [by intros [<-|[]]|]. rewrite <- K.
  rewrite Split_Join_sep.
  - unfold kept_lines. rewrite List.filter_In. by intros [_ ?%negb_true_iff].
  - by rewrite K.
  - apply List.Forall_forall. intros x Hx. unfold kept_lines in Hx. apply List.filter_In in Hx as [Hx _].
    by eapply List.Forall_forall in F.
Qed.

(** The caller's question holds none of the program's own coordinate
    lines, and nothing of the caller's is lost: its words are exactly the
    words of the other lines, in order.  A query without such lines is
    returned unchanged, one that is nothing else becomes empty, and taking
    the question of the question changes nothing. *)
Theorem caller_question_own_words r :
  let q := CallerQuestion r in
  let lines := Split (sr_Query r) newline in
  (forall w, In w (Split q newline) -> isSanitizedCoordinateLine w = false)
  /\ Fields q = flat_map Fields (kept_lines lines)
  /\ (existsb isSanitizedCoordinateLine lines = false -> q = sr_Query r)
  /\ (forallb isSanitizedCoordinateLine lines = true -> q = "")
  /\ CallerQuestion (set_Query q r) = q.
Proof.
  cbn zeta. rewrite !CallerQuestion_lines. cbn zeta. destruct (Split_pieces (sr_Query r) newline) as [F J].
  assert (NL : ascii_space newline = true) by reflexivity.
  set (lines := Split (sr_Query r) newline) in *.
  set (q := if existsb isSanitizedCoordinateLine lines then _ else _).
  assert (Clean : forall w, In w (Split q newline) -> isSanitizedCoordinateLine w = false).
  { intros w Hw. apply not_true_iff_false. intros S. unfold q in Hw. destruct (existsb _ lines) eqn:D.
    - destruct (TrimSpace_lines _ _ Hw S) as (w' & Hw' & S'). by rewrite (kept_Split lines F w' Hw') in S'.
    - fold lines in Hw. rewrite <- not_true_iff_false, existsb_exists in D. eauto. }
  split; [exact Clean|]. split; [|split; [|split]].
  - unfold q. destruct (existsb isSanitizedCoordinateLine lines) eqn:D.
    + rewrite Fields_TrimSpace. by apply Fields_Join_byte.
    + assert (kept_lines lines = lines) as ->; [|rewrite <- J; by apply Fields_Join_byte].
      clear -D. unfold kept_lines. induction lines as [|w l IH]; [done|]. cbn [existsb List.filter] in *.
      bool_facts. rewrite H. cbn [negb]. by rewrite IH.
  - unfold q. by intros ->.
  - intros A. unfold q. assert (kept_lines lines = []) as ->.
    { clear -A. unfold kept_lines. induction lines as [|w l IH]; [done|]. cbn [forallb List.filter] in *.
      bool_facts. rewrite H. cbn [negb]. by apply IH. }
    destruct (existsb _ lines) eqn:D; [done|]. destruct lines as [|w l] eqn:E; [by rewrite <- J|].
    cbn [existsb forallb] in *. bool_facts. congruence.
  - cbn [sr_Query set_Query]. destruct (existsb isSanitizedCoordinateLine (Split q newline)) eqn:X; [|done].
    apply existsb_exists in X as (w & Hw & S). by rewrite (Clean w Hw) in S.
Qed.

Definition request_example : SearchRequest :=
  mkSearch 1 ("failureEvent: stage=PROJECT_TEST" +:+ single newline +:+ "  cannot use x as int" +:+ single newline
              +:+ " termination: exit:1") [] [] [] [] "" env_zero "" "" [] "" 3 false.

Lemma caller_question_own_words_witness :
  CallerQuestion request_example = "cannot use x as int"
  /\ CallerQuestion (set_Query "termination: exit:1" request_example) = "".
Proof.
  split; [vm_compute; reflexivity|].
  apply (proj1 (proj2 (proj2 (proj2 (caller_question_own_words (set_Query "termination: exit:1" request_example)))))).
  vm_compute. reflexivity.
Defined.
