(* ===== verification/Footprint.v ===== *)
(** * Execution footprints (internal/domain/footprint.go, samplebucket.go)

    The small wire document a caller without a client may file, its
    normaliser and its closed-vocabulary check, and the project bucket
    derived from a sample id. *)

From S2P Require Import Prelude GoStrings GoUnicode GoStd StringFacts UnicodeFacts WordFacts Hash Json.
From S2P Require Import Purl Env Cli CliSubject Failure Experience Anomaly.

(** ** Data *)

Definition FootprintPass := "pass".
Definition FootprintFail := "fail".
Definition FootprintCouldNotRun := "could_not_run".
Definition FootprintOutcomes : list string := [FootprintPass; FootprintFail; FootprintCouldNotRun].

Definition FootprintStageBuild := "build".
Definition FootprintStageTypecheck := "typecheck".
Definition FootprintStageTest := "test".
Definition FootprintStageRuntime := "runtime".
Definition FootprintStages : list string :=
  [FootprintStageBuild; FootprintStageTypecheck; FootprintStageTest; FootprintStageRuntime].

Record FootprintEnvironment := mkFootprintEnv {
  fpe_OS : string; fpe_Arch : string; fpe_Runtime : string; fpe_RuntimeVersion : string
}.

Record ExecutionFootprint := mkFootprint {
  fp_SchemaVersion : Z;
  fp_SampleID : string;
  fp_Outcome : string;
  fp_Stage : string;
  fp_Environment : FootprintEnvironment;
  fp_FailureFingerprint : string
}.

Inductive footprint_error :=
| ErrFootprintSchema
| ErrFootprintSampleID
| ErrFootprintOutcome
| ErrFootprintStage
| ErrFootprintEnvironment
| ErrFootprintFingerprint.

(** ** Patterns *)

Definition token_first (c : ascii) : bool := is_lower c || is_digit c.
Definition token_byte (c : ascii) : bool := token_first c || in_set "._+-" c.

(** [^[a-z0-9][a-z0-9._+-]{0,31}$] *)
Definition footprintToken (s : string) : bool :=
  match s with
  | "" => false
  | String c s' => token_first c && str_forall token_byte s' && (String.length s' <=? 31)%nat
  end.

(** [^[0-9a-f]{64}$] *)
Definition footprintFingerprint (s : string) : bool := Nat.eqb (String.length s) 64 && str_forall lower_hex s.

Definition IsSampleID (s : string) : bool :=
  if negb (str_len s =? 7 + 64) || negb (HasPrefix s "sha256:") then false
  else footprintFingerprint (str_drop 7 s).

(** ** Operations *)

(** [ExecutionFootprint.Normalize]; [norm] is the closure of the source. *)
Definition footprint_Normalize (f : ExecutionFootprint) : ExecutionFootprint :=
  let norm s := ToLower (TrimSpace s) in
  let e := fp_Environment f in
  mkFootprint (fp_SchemaVersion f) (TrimSpace (fp_SampleID f)) (norm (fp_Outcome f)) (norm (fp_Stage f))
    (mkFootprintEnv (norm (fpe_OS e)) (norm (fpe_Arch e)) (norm (fpe_Runtime e)) (norm (fpe_RuntimeVersion e)))
    (norm (fp_FailureFingerprint f)).

Definition environment_values (e : FootprintEnvironment) : list string :=
  [fpe_OS e; fpe_Arch e; fpe_Runtime e; fpe_RuntimeVersion e].

(** [ExecutionFootprint.Validate]. *)
Definition footprint_Validate (f : ExecutionFootprint) : option footprint_error :=
  if negb (fp_SchemaVersion f =? 1) then Some ErrFootprintSchema
  else if negb (IsSampleID (fp_SampleID f)) then Some ErrFootprintSampleID
  else if negb (str_in (fp_Outcome f) [FootprintPass; FootprintFail; FootprintCouldNotRun])
  then Some ErrFootprintOutcome
  else if negb (str_in (fp_Stage f) ["";  FootprintStageBuild; FootprintStageTypecheck; FootprintStageTest;
                                     FootprintStageRuntime])
  then Some ErrFootprintStage
  else if existsb (fun v => negb (String.eqb v "") && negb (footprintToken v)) (environment_values (fp_Environment f))
  then Some ErrFootprintEnvironment
  else if negb (String.eqb (fp_FailureFingerprint f) "") && negb (footprintFingerprint (fp_FailureFingerprint f))
  then Some ErrFootprintFingerprint
  else None.

Definition SampleProjectBucket (sampleID : string) : string := TrimPrefix sampleID "sha256:".

(** ** Laws *)

(** The two tests for a content id, written twice in the source, agree. *)
Lemma IsSampleID_ContentID s : IsSampleID s = anomalyContentID s.
Proof.
  unfold IsSampleID, anomalyContentID, footprintFingerprint, str_len.
  destruct (negb _ || negb _) eqn:E; [done|]. bool_facts. apply HasPrefix_spec in H0 as [h ->].
  rewrite str_len_app in H. change (str_drop 7 ("sha256:" +:+ h)) with h. simpl in H.
  assert (String.length h = 64%nat) as -> by lia. done.
Qed.

Lemma token_closed s : s = "" \/ footprintToken s = true -> str_forall token_byte s = true /\ (String.length s <= 32)%nat.
Proof.
  intros [->|H]; [split; [done|simpl; lia]|]. destruct s as [|c s]; [done|]. cbn [footprintToken] in H. bool_facts.
  apply Nat.leb_le in H0. split; [|simpl; lia]. cbn [str_forall]. unfold token_byte at 1. by rewrite H, H1.
Qed.

Lemma existsb_bad_spec (p : string -> bool) l :
  existsb (fun v => negb (String.eqb v "") && negb (p v)) l = false <-> Forall (fun v => v = "" \/ p v = true) l.
Proof.
  induction l as [|v l IH]; [split; [constructor|done]|]. cbn [existsb]. rewrite orb_false_iff, IH, ids_ok.
  by rewrite List.Forall_cons_iff.
Qed.

(** What an admitted footprint is. *)
Record footprint_admissible (f : ExecutionFootprint) : Prop := {
  fpa_schema : fp_SchemaVersion f = 1;
  fpa_sample : anomalyContentID (fp_SampleID f) = true;
  fpa_outcome : In (fp_Outcome f) FootprintOutcomes;
  fpa_stage : fp_Stage f = "" \/ In (fp_Stage f) FootprintStages;
  fpa_environment : Forall (fun v => v = "" \/ footprintToken v = true) (environment_values (fp_Environment f));
  fpa_fingerprint : fp_FailureFingerprint f = "" \/ footprintFingerprint (fp_FailureFingerprint f) = true
}.

Lemma footprint_Validate_spec f : footprint_Validate f = None <-> footprint_admissible f.
Proof.
  unfold footprint_Validate. rewrite !guard_spec, !negb_false_iff, !str_in_In, Z.eqb_eq, IsSampleID_ContentID, existsb_bad_spec, ids_ok.
  split.
  - intros (H1 & H2 & H3 & [H4|H4] & H5 & H6 & _); constructor; auto.
  - intros [H1 H2 H3 H4 H5 H6]. repeat (split; [first [done | destruct H4; [by left|by right]]|]). split; done.
Qed.

Lemma footprint_Normalize_idem f : footprint_Normalize (footprint_Normalize f) = footprint_Normalize f.
Proof.
  unfold footprint_Normalize. cbn [fp_SchemaVersion fp_SampleID fp_Outcome fp_Stage fp_Environment fp_FailureFingerprint
    fpe_OS fpe_Arch fpe_Runtime fpe_RuntimeVersion]. by rewrite !TrimSpace_ToLower, !ToLower_idem, TrimSpace_idem.
Qed.

(** A footprint is a closed vocabulary.  Normalising is idempotent; the
    check admits exactly the documents with a known outcome and stage, a
    content-addressed sample id, token-shaped environment values and a hash
    as fingerprint, so no admitted value is longer than 32 bytes or has a
    slash, a blank or an upper-case letter; and the project bucket of an
    admitted sample is the 64-byte digest, from which the id is recovered. *)
Theorem footprint_closed_vocabulary f :
  footprint_Normalize (footprint_Normalize f) = footprint_Normalize f
  /\ (footprint_Validate f = None <-> footprint_admissible f)
  /\ (footprint_Validate f = None ->
      Forall (fun v => str_forall token_byte v = true /\ (String.length v <= 32)%nat)
        (environment_values (fp_Environment f))
      /\ String.length (SampleProjectBucket (fp_SampleID f)) = 64%nat
      /\ "sha256:" +:+ SampleProjectBucket (fp_SampleID f) = fp_SampleID f).
Proof.
  split; [apply footprint_Normalize_idem|]. split; [apply footprint_Validate_spec|].
  rewrite footprint_Validate_spec. intros [_ S _ _ E _]. split.
  - eapply List.Forall_impl; [|exact E]. intros v Hv. by apply token_closed.
  - apply anomalyContentID_spec in S as (h & -> & L & _). unfold SampleProjectBucket, TrimPrefix.
    by rewrite CutPrefix_app.
Qed.

Definition footprint_example : ExecutionFootprint :=
  mkFootprint 1 (" " +:+ SHA256Hex "sample") "Pass" " TEST" (mkFootprintEnv "Linux" "arm64" "node" "22.11.0") "".

Lemma footprint_closed_vocabulary_witness :
  let n := footprint_Normalize footprint_example in
  String.length (SampleProjectBucket (fp_SampleID n)) = 64%nat.
Proof. apply (proj2 (proj2 (footprint_closed_vocabulary (footprint_Normalize footprint_example)))). vm_compute. reflexivity. Defined.
