(* ===== verification/Relevance.v ===== *)
(** * Lexical relevance (internal/search/relevance/relevance.go)

    The gate local and server search share: which words of a question carry
    its topic, which pieces of a package or symbol name identify it, whether
    a question contains an identifier as a whole word, and whether a question
    and a sample are about one subject. *)

From stdpp Require Import gmap.
From S2P Require Import Prelude GoStrings GoUnicode GoStd StringFacts UnicodeFacts WordFacts Env.

(** ** Vocabulary *)

Definition stopWords : list string :=
  ["the"; "and"; "for"; "with"; "from"; "how"; "why"; "what"; "when"; "does"; "can"; "you"; "your"; "this"; "that";
   "into"; "out"; "not"; "but"; "get"; "use"; "using"; "make"; "want"; "need"; "there"; "here"; "some"; "any"; "all"].

Definition genericWords : list string :=
  ["python"; "python3"; "node"; "nodejs"; "javascript"; "typescript"; "golang"; "rust"; "ruby"; "php"; "java";
   "kotlin"; "swift"; "dart"; "flutter"; "elixir"; "erlang"; "deno"; "bun"; "dotnet"; "csharp"; "perl"; "scala";
   "haskell";
   "lib"; "libs"; "core"; "util"; "utils"; "common"; "api"; "sdk"; "client"; "server"; "tools"; "toolkit"; "plugin";
   "plugins"; "package"; "packages"; "module"; "modules"; "helper"; "helpers";
   "test"; "tests"; "testing"; "spec"; "specs"; "internal"; "cmd"; "src"; "bin"; "build"; "builds"; "dist"; "example";
   "examples"; "sample"; "samples"; "demo"; "demos";
   "json"; "model"; "models"; "process"; "protocol"; "protocols";
   "github"; "gitlab"; "bitbucket"; "codeberg"; "sourcehut"; "gitee"; "gopkg"; "git"; "com"; "org"; "www"; "dev";
   "repo"; "repos"].

(** The regular expression [^v[0-9]+$]. *)
Definition majorVersionSuffix (s : string) : bool :=
  match s with
  | String c ds => Ascii.eqb c "v" && negb (String.eqb ds "") && str_forall is_digit ds
  | "" => false
  end.

Definition word_byte (c : ascii) : bool := is_lower c || is_digit c.

Definition ContentTokens (s : string) : list string :=
  List.filter (fun f => negb ((str_len f <? 3) || str_in f stopWords)) (fields_by word_byte (ToLower s)).

Definition IsGeneric (token : string) : bool :=
  let token := ToLower token in str_in token genericWords || majorVersionSuffix token.

Definition NameTokens (name : string) : list string :=
  let name := ToLower (TrimSpace (TrimPrefix name "@")) in
  if String.eqb name "" then []
  else name :: List.filter (fun t => negb (IsGeneric t)) (ContentTokens name).

(** ** Whole identifiers in a text *)

(** [alnumAt(s, i)] for an index that is not negative. *)
Definition alnumAt (s : string) (i : nat) : bool :=
  match String.get i s with Some c => word_byte c | None => false end.

(** [alnumAt(s, i-1)]: index -1 is out of range. *)
Definition alnumBefore (s : string) (i : nat) : bool :=
  match i with O => false | S i' => alnumAt s i' end.

(** Each round moves [offset] past the start of the occurrence it refused. *)
Fixpoint identifier_loop (fuel : nat) (text identifier : string) (offset : nat) : bool :=
  match fuel with
  | O => false
  | S fuel' =>
      if Nat.ltb offset (String.length text) then
        match Index (str_drop offset text) identifier with
        | None => false
        | Some at_ =>
            let start := (offset + at_)%nat in
            let end_ := (start + String.length identifier)%nat in
            if negb (alnumBefore text start) && negb (alnumAt text end_) then true
            else identifier_loop fuel' text identifier (S start)
        end
      else false
  end.

Definition ContainsIdentifier (text identifier : string) : bool :=
  let text := ToLower text in
  let identifier := ToLower (TrimSpace identifier) in
  if String.eqb identifier "" then false
  else identifier_loop (String.length text) text identifier 0.

(** ** Declared symbols *)

(** The map from the folded spelling to the first declared spelling. *)
Fixpoint have_symbols (have : gmap string string) (declared : list string) : gmap string string :=
  match declared with
  | [] => have
  | symbol :: rest =>
      let actual := TrimSpace symbol in
      let key := ToLower actual in
      let have := if negb (String.eqb key "") then
                    match have !! key with Some _ => have | None => <[key := actual]> have end
                  else have in
      have_symbols have rest
  end.

Fixpoint matched_symbols (have : gmap string string) (seen : list string) (requested : list string) : list string :=
  match requested with
  | [] => []
  | symbol :: rest =>
      let key := ToLower (TrimSpace symbol) in
      let actual := default "" (have !! key) in
      if negb (String.eqb actual "") && negb (str_in key seen)
      then actual :: matched_symbols have (key :: seen) rest
      else matched_symbols have seen rest
  end.

Definition MatchedDeclaredSymbols (requested declared : list string) : list string :=
  match requested with
  | [] => []
  | _ => matched_symbols (have_symbols ∅ declared) [] requested
  end.

Definition MatchesDeclaredSymbols (requested declared : list string) : bool :=
  0 <? Z.of_nat (length (MatchedDeclaredSymbols requested declared)).

(** ** The signal *)

Definition strong_words (packageNames symbols : list string) : list string :=
  flat_map NameTokens packageNames
  ++ flat_map (fun s => List.filter (fun t => negb (IsGeneric t)) (ContentTokens s)) symbols.

Definition prose_words (goal : string) : list string :=
  List.filter (fun t => negb (IsGeneric t)) (ContentTokens goal).

Definition count {A} (p : A -> bool) (l : list A) : Z := Z.of_nat (length (List.filter p l)).

(** A package the question spells out. *)
Definition names_package (query name : string) : bool :=
  let name := ToLower (TrimSpace name) in
  negb (String.eqb name "") && negb (IsGeneric name) && ContainsIdentifier query name.

Definition Signal (query goal : string) (packageNames symbols : list string) : Z * Z :=
  let strongSet := strong_words packageNames symbols in
  let proseSet := prose_words goal in
  let tokens := ContentTokens query in
  (count (ContainsIdentifier query) symbols + count (names_package query) packageNames
     + count (fun t => str_in t strongSet) tokens,
   count (fun t => negb (str_in t strongSet) && str_in t proseSet) tokens).

Definition AboutSameThing (query goal : string) (packageNames symbols : list string) : bool :=
  let '(strong, prose) := Signal query goal packageNames symbols in
  if 0 <? strong then true
  else if 4 <=? Z.of_nat (length (ContentTokens query)) then 2 <=? prose
  else 1 <=? prose.

(** The distinct words of a list, in order of first occurrence. *)
Fixpoint distinct_words (seen : list string) (l : list string) : list string :=
  match l with
  | [] => []
  | t :: l' => if str_in t seen then distinct_words seen l' else t :: distinct_words (t :: seen) l'
  end.

Definition GoalOverlap (query goal : string) : Z * Z * Z :=
  let inGoal := prose_words goal in
  let seen := distinct_words [] (List.filter (fun t => negb (IsGeneric t)) (ContentTokens query)) in
  (count (fun t => str_in t inGoal) seen, Z.of_nat (length seen), Z.of_nat (length (distinct_words [] inGoal))).

(** ** Naming a symbol *)

Definition lower_rune (r : Z) : bool := (97 <=? r) && (r <=? 122).
Definition upper_rune (r : Z) : bool := (65 <=? r) && (r <=? 90).
Definition digit_rune (r : Z) : bool := (48 <=? r) && (r <=? 57).
Definition isLetter (r : Z) : bool := lower_rune r || upper_rune r.
Definition isLowerOrDigit (r : Z) : bool := lower_rune r || digit_rune r.
Definition isSymbolSeparator (r : Z) : bool := (r =? 46) || (r =? 47) || (r =? 58) || (r =? 35).

Fixpoint coined_loop (prev : Z) (rest : list Z) : bool :=
  match rest with
  | [] => false
  | cur :: rest' =>
      if isLowerOrDigit prev && upper_rune cur then true
      else if (isLetter prev && digit_rune cur) || (digit_rune prev && isLetter cur) then true
      else if ((cur =? 95) || (cur =? 45)) && isLetter prev
              && match rest' with next :: _ => isLetter next | [] => false end then true
      else coined_loop cur rest'
  end.

Definition coinedIdentifier (segment : string) : bool :=
  if str_len segment <? 3 then false
  else match runes segment with [] => false | r :: rs => coined_loop r rs end.

(** [string(runes)]. *)
Fixpoint of_runes (rs : list Z) : string :=
  match rs with [] => "" | r :: rs' => encode_rune r +:+ of_runes rs' end.

(** What one suffix contributes. *)
Definition suffix_identity (symbol suffix : string) : list string :=
  if String.eqb suffix symbol then []
  else if existsb isSymbolSeparator (runes suffix) then (if 3 <=? str_len suffix then [suffix] else [])
  else if coinedIdentifier suffix then [suffix] else [].

Fixpoint identities_loop (symbol : string) (prev : Z) (rest : list Z) : list string :=
  match rest with
  | [] => []
  | cur :: rest' =>
      (if isSymbolSeparator prev && negb (isSymbolSeparator cur) then suffix_identity symbol (of_runes rest) else [])
      ++ identities_loop symbol cur rest'
  end.

Definition SymbolIdentities (symbol : string) : list string :=
  let symbol := TrimSpace symbol in
  if String.eqb symbol "" then []
  else (if 3 <=? str_len symbol then [symbol] else [])
       ++ match runes symbol with [] => [] | r :: rs => identities_loop symbol r rs end.

Definition NamesSubject (query : string) (packageNames symbols : list string) : bool :=
  existsb (fun symbol => existsb (ContainsIdentifier query) (SymbolIdentities symbol)) symbols
  || existsb (fun name => existsb (fun token => negb (str_len token <? 3) && ContainsIdentifier query token)
                            (NameTokens name)) packageNames.

(** ** Examples *)

Example tokens_example : ContentTokens "How to render a React-DOM tree?" = ["render"; "react"; "dom"; "tree"].
Proof. vm_compute. reflexivity. Qed.
Example identities_commit : SymbolIdentities "pgx.Tx.Commit" = ["pgx.Tx.Commit"; "Tx.Commit"].
Proof. vm_compute. reflexivity. Qed.
Example identities_machine : SymbolIdentities "golang.org/x/sys/windows/registry.LOCAL_MACHINE" =
  ["golang.org/x/sys/windows/registry.LOCAL_MACHINE"; "org/x/sys/windows/registry.LOCAL_MACHINE";
   "x/sys/windows/registry.LOCAL_MACHINE"; "sys/windows/registry.LOCAL_MACHINE"; "windows/registry.LOCAL_MACHINE";
   "registry.LOCAL_MACHINE"; "LOCAL_MACHINE"].
Proof. vm_compute. reflexivity. Qed.
Example identifier_word : ContainsIdentifier "connect to mongodb with go?" "go" = true
  /\ ContainsIdentifier "connect to mongodb" "go" = false.
Proof. vm_compute. done. Qed.

(** ** [strings.Index] finds the first occurrence *)

Lemma str_drop_drop i j s : str_drop i (str_drop j s) = str_drop (j + i) s.
Proof. revert s. induction j as [|j IH]; intros [|c s]; cbn; try done. by destruct i. Qed.

Lemma str_drop_past i s : (String.length s <= i)%nat -> str_drop i s = "".
Proof. intros H. pose proof (str_drop_length i s). destruct (str_drop i s); [done|cbn in *; lia]. Qed.

Lemma HasPrefix_nil p : HasPrefix "" p = String.eqb p "".
Proof. by destruct p. Qed.

Lemma HasPrefix_any s : HasPrefix s "" = true.
Proof. by destruct s. Qed.

Lemma Index_spec s sub :
  match Index s sub with
  | Some i => HasPrefix (str_drop i s) sub = true /\ forall j, (j < i)%nat -> HasPrefix (str_drop j s) sub = false
  | None => forall j, HasPrefix (str_drop j s) sub = false
  end.
Proof.
  induction s as [|c s IH]; cbn [Index].
  - destruct (HasPrefix "" sub) eqn:E; [split; [done|lia]|]. intros [|j]; done.
  - destruct (HasPrefix (String c s) sub) eqn:E; [split; [done|lia]|]. destruct (Index s sub) as [i|]; cbn.
    + destruct IH as [H L]. split; [done|]. intros [|j] Hj; [done|]. apply L. lia.
    + intros [|j]; [done|apply IH].
Qed.

(** ** Whole-word occurrences *)

(** [identifier] stands at [start] with no letter or digit on either side. *)
Definition word_at (text identifier : string) (start : nat) : Prop :=
  HasPrefix (str_drop start text) identifier = true /\ alnumBefore text start = false
  /\ alnumAt text (start + String.length identifier) = false.

Lemma identifier_loop_spec fuel text identifier offset : identifier <> "" ->
  (String.length text - offset <= fuel)%nat ->
  identifier_loop fuel text identifier offset = true <-> exists start, (offset <= start)%nat /\ word_at text identifier start.
Proof.
  intros Hi. revert offset. induction fuel as [|fuel IH]; intros offset Hf; cbn [identifier_loop].
  - split; [done|]. intros (start & Ho & H & _). exfalso. rewrite str_drop_past, HasPrefix_nil in H by lia.
    by apply String.eqb_eq in H.
  - destruct (Nat.ltb_spec offset (String.length text)) as [Ho|Ho].
    + pose proof (Index_spec (str_drop offset text) identifier) as X.
      assert (P : forall j, HasPrefix (str_drop j (str_drop offset text)) identifier
        = HasPrefix (str_drop (offset + j) text) identifier) by (intros j; by rewrite str_drop_drop).
      destruct (Index _ _) as [i|].
      * destruct X as [H L]. rewrite P in H.
        destruct (negb (alnumBefore text (offset + i)) && negb (alnumAt text (offset + i + String.length identifier))) eqn:B.
        { split; [|done]. intros _. bool_facts. exists (offset + i)%nat. split; [lia|done]. }
        rewrite IH by lia. split; intros (start & Hs & W); exists start; (split; [|done]); [lia|].
        destruct (Nat.eq_dec start (offset + i)) as [->|N].
        { destruct W as (_ & W1 & W2). by rewrite W1, W2 in B. }
        destruct (Nat.lt_ge_cases start (offset + i)) as [Lt|]; [|lia]. exfalso.
        specialize (L (start - offset)%nat ltac:(lia)). rewrite P in L.
        replace (offset + (start - offset))%nat with start in L by lia. destruct W as [W _]. congruence.
      * split; [done|]. intros (start & Hs & W & _). specialize (X (start - offset)%nat). rewrite P in X.
        replace (offset + (start - offset))%nat with start in X by lia. congruence.
    + split; [done|]. intros (start & Hs & W & _). exfalso. rewrite str_drop_past, HasPrefix_nil in W by lia.
      by apply String.eqb_eq in W.
Qed.

Definition ends_alnum (a : string) : bool := alnumBefore a (String.length a).
Definition starts_alnum (b : string) : bool := alnumAt b 0.

Lemma alnumAt_app a b i : alnumAt (a +:+ b) (String.length a + i) = alnumAt b i.
Proof. unfold alnumAt. induction a as [|c a IH]; [done|]. cbn. exact IH. Qed.

Lemma alnumAt_app_l a b i : (i < String.length a)%nat -> alnumAt (a +:+ b) i = alnumAt a i.
Proof.
  unfold alnumAt. revert i. induction a as [|c a IH]; intros i Hi; cbn in *; [lia|].
  destruct i as [|i]; [done|]. apply IH. lia.
Qed.

Lemma alnumBefore_app a b : alnumBefore (a +:+ b) (String.length a) = ends_alnum a.
Proof. unfold ends_alnum. destruct a as [|c a]; [done|]. cbn [alnumBefore String.length]. apply alnumAt_app_l. cbn. lia. Qed.

Lemma str_take_length i s : (i <= String.length s)%nat -> String.length (str_take i s) = i.
Proof.
  intros H. pose proof (str_drop_length i s) as D. pose proof (str_len_app (str_take i s) (str_drop i s)) as L.
  rewrite str_take_drop in L. lia.
Qed.

Lemma word_at_app text identifier : identifier <> "" ->
  (exists start, word_at text identifier start)
  <-> exists a b, text = a +:+ identifier +:+ b /\ ends_alnum a = false /\ starts_alnum b = false.
Proof.
  intros Hi. unfold word_at. split.
  - intros (start & [b E]%HasPrefix_spec & B & A). exists (str_take start text), b.
    assert (T : text = str_take start text +:+ identifier +:+ b) by (by rewrite <- E, str_take_drop).
    assert (Ls : String.length (str_take start text) = start).
    { apply str_take_length. destruct (Nat.le_gt_cases start (String.length text)) as [|L]; [done|exfalso].
      rewrite str_drop_past in E by lia. by destruct identifier. }
    revert T Ls. generalize (str_take start text) as a. intros a T Ls. subst text start.
    rewrite alnumBefore_app in B. rewrite alnumAt_app in A. split; [done|]. split; [done|].
    unfold starts_alnum. rewrite <- A, <- (Nat.add_0_r (String.length identifier)). symmetry. apply alnumAt_app.
  - intros (a & b & -> & A & B). exists (String.length a). rewrite str_drop_app, alnumBefore_app, alnumAt_app.
    split; [apply HasPrefix_app|]. split; [done|]. rewrite <- (Nat.add_0_r (String.length identifier)), alnumAt_app. done.
Qed.

(** The search loop as a statement: the identifier occurs as a whole word. *)
Lemma ContainsIdentifier_spec text identifier :
  let t := ToLower text in
  let i := ToLower (TrimSpace identifier) in
  ContainsIdentifier text identifier = true
  <-> i <> "" /\ exists a b, t = a +:+ i +:+ b /\ ends_alnum a = false /\ starts_alnum b = false.
Proof.
  cbv zeta. unfold ContainsIdentifier. destruct (String.eqb_spec (ToLower (TrimSpace identifier)) "") as [E|N].
  - split; [done|]. by intros [? _].
  - rewrite identifier_loop_spec by (done || lia). rewrite <- word_at_app by done. split.
    + intros (start & _ & W). eauto.
    + intros (_ & start & W). exists start. split; [lia|done].
Qed.

(** ** The words of a text *)

Lemma ends_alnum_snoc a d : ends_alnum (a +:+ single d) = word_byte d.
Proof.
  unfold ends_alnum, single. rewrite str_len_app. cbn [String.length]. rewrite Nat.add_1_r. cbn [alnumBefore].
  pose proof (alnumAt_app a (String d "") 0) as E. rewrite Nat.add_0_r in E. by rewrite E.
Qed.

Lemma starts_alnum_cons c s : starts_alnum (String c s) = word_byte c.
Proof. done. Qed.

(** A later word is preceded by a separator. *)
Lemma fields_by_go_spec s w ws : fields_by_go word_byte s = (w, ws) ->
  (exists r, s = w +:+ r /\ starts_alnum r = false) /\ str_forall word_byte w = true
  /\ forall t, In t ws -> t <> "" /\ str_forall word_byte t = true
       /\ exists a d b, s = (a +:+ single d) +:+ t +:+ b /\ word_byte d = false /\ starts_alnum b = false.
Proof.
  revert w ws. induction s as [|c s IH]; intros w ws; cbn [fields_by_go].
  - intros [= <- <-]. split; [by exists ""|]. done.
  - destruct (fields_by_go word_byte s) as [w' ws'] eqn:F. destruct (IH _ _ eq_refl) as ((r & -> & R) & W & T).
    destruct (word_byte c) eqn:C; intros [= <- <-].
    + split; [by exists r|]. split; [cbn; by rewrite C|]. intros t It. destruct (T t It) as (N & A & a & d & b & E & D & B).
      split; [done|]. split; [done|]. exists (String c a), d, b. split; [|done]. cbn. by rewrite E.
    + split; [by exists (String c (w' +:+ r))|]. split; [done|]. intros t It.
      assert (Cs : (t = w' /\ w' <> "") \/ In t ws').
      { unfold push in It. destruct w'; [by right|]. destruct It as [<-|It]; [by left|by right]. }
      destruct Cs as [[-> N]|It'].
      * split; [done|]. split; [done|]. exists "", c, r. done.
      * destruct (T t It') as (N & A & a & d & b & E & D & B).
        split; [done|]. split; [done|]. exists (String c a), d, b. split; [|done]. cbn. by rewrite E.
Qed.

Lemma fields_by_word s t : In t (fields_by word_byte s) ->
  t <> "" /\ str_forall word_byte t = true
  /\ exists a b, s = a +:+ t +:+ b /\ ends_alnum a = false /\ starts_alnum b = false.
Proof.
  unfold fields_by. destruct (fields_by_go word_byte s) as [w ws] eqn:F.
  destruct (fields_by_go_spec _ _ _ F) as ((r & E & R) & W & T). intros It.
  assert (Cs : (t = w /\ w <> "") \/ In t ws).
  { unfold push in It. destruct w; [by right|]. destruct It as [<-|It]; [by left|by right]. }
  destruct Cs as [[-> N]|It'].
  - split; [done|]. split; [done|]. exists "", r. done.
  - destruct (T t It') as (N & A & a & d & b & E' & D & B). split; [done|]. split; [done|].
    exists (a +:+ single d), b. rewrite ends_alnum_snoc. done.
Qed.

Lemma word_byte_plain c : word_byte c = true -> plain_byte c = true.
Proof. unfold word_byte, plain_byte, is_lower, is_digit, is_ascii_byte, is_upper. intros H.
  apply orb_true_iff in H as [H|H]; bool_facts; apply andb_true_iff; split; [lia| |lia|];
  apply negb_true_iff, andb_false_iff; rewrite !Z.leb_gt; lia. Qed.

Lemma word_byte_graph c : word_byte c = true -> graph_byte c = true.
Proof.
  unfold word_byte, graph_byte, is_lower, is_digit, is_ascii_byte, ascii_space. intros H.
  apply orb_true_iff in H as [H|H]; bool_facts; apply andb_true_iff; (split; [lia|]);
  apply negb_true_iff, orb_false_iff; rewrite andb_false_iff, Z.eqb_neq, !Z.leb_gt; lia.
Qed.

Lemma word_trim t : str_forall word_byte t = true -> ToLower (TrimSpace t) = t.
Proof.
  intros W. rewrite TrimSpace_space_free, ToLower_plain; [done| |].
  - eapply str_forall_impl; [|exact W]. apply word_byte_plain.
  - apply space_free_graph. eapply str_forall_impl; [|exact W]. apply word_byte_graph.
Qed.

(** A topic word of a question occurs in it as a whole word. *)
Lemma ContentTokens_identifier query t : In t (ContentTokens query) ->
  str_forall word_byte t = true /\ ContainsIdentifier query t = true.
Proof.
  unfold ContentTokens. intros [I _]%List.filter_In. apply fields_by_word in I as (N & W & a & b & E & A & B).
  split; [done|]. apply ContainsIdentifier_spec. rewrite word_trim by done. eauto 10.
Qed.

Lemma ContainsIdentifier_ext query x y : ToLower (TrimSpace x) = ToLower (TrimSpace y) ->
  ContainsIdentifier query x = ContainsIdentifier query y.
Proof. unfold ContainsIdentifier. by intros ->. Qed.

Lemma count_none {A} (p : A -> bool) l : (forall x, In x l -> p x = false) -> count p l = 0.
Proof.
  intros H. unfold count. induction l as [|x l IH]; [done|]. cbn. rewrite H by by left. apply IH. intros y Hy. apply H. by right.
Qed.

Lemma strong_words_In names symbols t : In t (strong_words names symbols) ->
  IsGeneric t = false \/ exists n, In n names /\ t = ToLower (TrimSpace (TrimPrefix n "@")).
Proof.
  unfold strong_words. rewrite in_app_iff, !in_flat_map. intros [(n & In_ & It)|(s & _ & It)].
  - unfold NameTokens in It. destruct (String.eqb _ ""); [done|]. destruct It as [<-|It]; [right; eauto|].
    apply List.filter_In in It as [_ It]. left. by apply negb_true_iff in It.
  - apply List.filter_In in It as [_ It]. left. by apply negb_true_iff in It.
Qed.

(** Generic words open nothing: a question all of whose topic words are
    generic, and which spells out no declared symbol and no package name, is
    not about the sample, whatever the sample's goal, packages and symbols
    share with it. *)
Theorem generic_words_open_nothing query goal names symbols :
  (forall t, In t (ContentTokens query) -> IsGeneric t = true) ->
  (forall s, In s symbols -> ContainsIdentifier query s = false) ->
  (forall n, In n names -> ContainsIdentifier query n = false
                          /\ ContainsIdentifier query (TrimPrefix n "@") = false) ->
  AboutSameThing query goal names symbols = false.
Proof.
  intros G S N. unfold AboutSameThing, Signal.
  assert (Nt : forall t, In t (ContentTokens query) -> str_in t (strong_words names symbols) = false).
  { intros t It. apply not_true_iff_false. rewrite str_in_In. intros [F|(n & In_ & E)]%strong_words_In.
    - by rewrite G in F.
    - destruct (ContentTokens_identifier _ _ It) as [W C]. destruct (N n In_) as [_ F].
      rewrite (ContainsIdentifier_ext query t (TrimPrefix n "@")) in C; [congruence|]. by rewrite word_trim. }
  rewrite (count_none _ symbols S), (count_none _ (ContentTokens query) Nt), (count_none (names_package query) names).
  - rewrite count_none; [by destruct (4 <=? _)|]. intros t It. rewrite Nt by done. cbn.
    apply not_true_iff_false. rewrite str_in_In. unfold prose_words. intros [_ F]%List.filter_In.
    by rewrite G in F.
  - intros n In_. unfold names_package. destruct (N n In_) as [F _].
    rewrite (ContainsIdentifier_ext query (ToLower (TrimSpace n)) n), F by by rewrite TrimSpace_ToLower, ToLower_idem.
    by rewrite andb_false_r.
Qed.

Lemma generic_words_open_nothing_witness :
  AboutSameThing "build and test the json server" "Serve JSON with axum" ["axum"; "serde_json"] ["axum.Router"] = false.
Proof.
  apply generic_words_open_nothing.
  - assert (ContentTokens "build and test the json server" = ["build"; "test"; "json"; "server"]) as ->
      by (vm_compute; reflexivity).
    intros t [<-|[<-|[<-|[<-|[]]]]]; vm_compute; reflexivity.
  - intros s [<-|[]]. vm_compute. reflexivity.
  - intros n [<-|[<-|[]]]; vm_compute; split; reflexivity.
Defined.

(** ** The spellings a symbol can be named by *)

(** Re-encoding a suffix of the runes of a symbol. *)
Lemma identities_loop_In symbol prev rest i : In i (identities_loop symbol prev rest) ->
  exists rs q, rest = (rs ++ q)%list /\ i = of_runes q /\ In i (suffix_identity symbol i).
Proof.
  revert prev. induction rest as [|cur rest IH]; intros prev; cbn [identities_loop]; [done|].
  rewrite in_app_iff. intros [H|H].
  - destruct (_ && _); [|done]. exists [], (cur :: rest).
    assert (i = of_runes (cur :: rest)) as E.
    { unfold suffix_identity in H. split_ifs_in H; try done; by destruct H. }
    by rewrite <- E in H.
  - apply IH in H as (rs & q & -> & -> & H). exists (cur :: rs), q. done.
Qed.

Lemma of_runes_app a b : of_runes (a ++ b) = of_runes a +:+ of_runes b.
Proof. induction a as [|r a IH]; [done|]. cbn [app of_runes]. by rewrite IH, str_app_assoc. Qed.

(** Every identity is the whole symbol, or a shorter spelling that is still
    qualified or is a coined name; on valid UTF-8 it is a suffix. *)
Theorem SymbolIdentities_sound symbol i : In i (SymbolIdentities symbol) ->
  let s := TrimSpace symbol in
  3 <= str_len i
  /\ (i = s \/ existsb isSymbolSeparator (runes i) = true \/ coinedIdentifier i = true)
  /\ (of_runes (runes s) = s -> exists p, s = p +:+ i).
Proof.
  unfold SymbolIdentities. cbv zeta. destruct (String.eqb (TrimSpace symbol) ""); [done|].
  rewrite in_app_iff. intros [H|H].
  - destruct (Z.leb_spec 3 (str_len (TrimSpace symbol))); [|done]. destruct H as [<-|[]].
    split; [done|]. split; [by left|]. intros _. by exists "".
  - destruct (runes (TrimSpace symbol)) as [|r rs] eqn:R; [done|].
    apply identities_loop_In in H as (p & q & -> & -> & H). split; [|split].
    + unfold suffix_identity, coinedIdentifier in H. split_ifs_in H; bool_facts; try done.
      destruct (Z.ltb_spec (str_len (of_runes q)) 3); [done|lia].
    + unfold suffix_identity in H. split_ifs_in H; bool_facts; try done; auto.
    + intros <-. exists (encode_rune r +:+ of_runes p). cbn [of_runes]. by rewrite of_runes_app, str_app_assoc.
Qed.

(** The subject test is not narrower than the retrieval signal it refines: a
    scoped package all of whose pieces are generic is named by its spelling
    without the scope sign, which the signal does not see. *)
Lemma NamesSubject_not_narrower :
  NamesSubject "call sdk/core from here" ["@sdk/core"] [] = true
  /\ Signal "call sdk/core from here" "" ["@sdk/core"] [] = (0, 0)
  /\ AboutSameThing "call sdk/core from here" "" ["@sdk/core"] [] = false.
Proof. vm_compute. done. Qed.
