(* ===== verification/Grade.v ===== *)
(** * Grading a sample against the caller's environment
    (internal/search/grade.go, delta.go, and the package relation of rank.go)

    A search result carries a grade, the list of adaptations it needs, and
    two lists that explain the grade: what matches the caller and what
    differs.  The grade is computed from the relation of the package
    versions, from one comparison per environment dimension both sides
    declare, and from the execution-context axis. *)

From stdpp Require Import gmap.
From S2P Require Import Prelude GoStrings GoUnicode GoStd StringFacts UnicodeFacts.
From S2P Require Import Purl Env CliSubject.

(** ** Version buckets for display (delta.go) *)

Definition majorOf (v : string) : string :=
  if String.eqb v "" then "" else List.hd "" (SplitN 2 (cut_suffix v) ".").

(** The first two segments of a version, or the only one. *)
Definition two_segments (v : string) : string :=
  match SplitN 3 v "." with
  | s0 :: s1 :: _ => s0 +:+ "." +:+ s1
  | s0 :: _ => s0
  | [] => ""
  end.

Definition releaseLineOf (toolchain version : string) : string :=
  if String.eqb version "" then ""
  else
    let version := cut_suffix version in
    if str_in (ToLower toolchain) ["go"; "golang"; "python"; "elixir"; "dart"]
    then two_segments version
    else majorOf version.

Definition majorMinorOf (v : string) : string :=
  if String.eqb v "" then "" else two_segments (cut_suffix v).

Definition runtimeShow (name version : string) : string :=
  if String.eqb name "" then ""
  else
    let line := releaseLineOf name version in
    if negb (String.eqb line "") then name +:+ " " +:+ line else name.

Definition langShow (name version : string) : string :=
  let mm := majorMinorOf version in
  if negb (String.eqb mm "") then name +:+ " " +:+ mm else name.

Definition osShow (e : EnvironmentFingerprint) : string :=
  if negb (String.eqb (env_OSVersionBucket e) "")
  then env_OS e +:+ " " +:+ env_OSVersionBucket e else env_OS e.

(** [strings.ReplaceAll(s, c, d)] for one-byte [c] and [d]. *)
Definition replace_byte (c d : ascii) (s : string) : string :=
  str_map (fun x => if Ascii.eqb x c then d else x) s.

(** The keys of a Go map are distinct, so sorting them makes the rendering
    independent of the iteration order. *)
Definition humanEnvSummary (summary : gmap string string) : string :=
  if decide (summary = ∅) then "unknown environment"
  else
    let lead := match summary !! "runtime" with Some rt => [replace_byte "@" " " rt] | None => [] end in
    let keys := sort_strings (map fst (map_to_list (delete "runtime" summary))) in
    Join (lead ++ map (fun k => default "" (summary !! k)) keys) " + ".

(** ** One dimension *)

Record dimComparison := mkDim {
  dim_equal : bool;
  dim_exactEntry : string;
  dim_samShow : string;
  dim_reqShow : string;
  dim_adaptation : string;
  dim_refOnly : bool
}.

(** The composite literals of the source: an agreement, a difference that is
    only shown, one that can be adapted to, one that cannot. *)
Definition dim_agree (entry : string) : dimComparison := mkDim true entry "" "" "" false.
Definition dim_shown (sam req : string) : dimComparison := mkDim false "" sam req "" false.
Definition dim_adapt (sam req how : string) : dimComparison := mkDim false "" sam req how false.
Definition dim_fatal (sam req : string) : dimComparison := mkDim false "" sam req "" true.

(** ** libc *)

Definition libcShow (e : EnvironmentFingerprint) : string :=
  if String.eqb (env_LibcVersion e) "" then env_Libc e else env_Libc e +:+ " " +:+ env_LibcVersion e.

(** The loop runs to the longer of the two lists; a missing or unreadable
    segment is 0. *)
Definition libc_segment (segs : list string) : Z :=
  match segs with s :: _ => fst (Atoi s) | [] => 0 end.

Fixpoint libc_loop (n : nat) (as_ bs : list string) : Z :=
  match n with
  | O => 0
  | S n' =>
      let x := libc_segment as_ in
      let y := libc_segment bs in
      if negb (x =? y) then (if x <? y then -1 else 1) else libc_loop n' (List.tl as_) (List.tl bs)
  end.

Definition compareLibcVersions (a b : string) : Z :=
  let as_ := Split a "." in
  let bs := Split b "." in
  libc_loop (Nat.max (length as_) (length bs)) as_ bs.

Definition olderLibc (reqVer samVer : string) : bool :=
  if String.eqb reqVer "" || String.eqb samVer "" then false
  else compareLibcVersions reqVer samVer <? 0.

(** ** The environment dimensions *)

(** A dimension is compared when both sides declare it. *)
Definition both_declared (req sam : string) : bool := negb (String.eqb req "") && negb (String.eqb sam "").

Section dims.
  Context (req sam : EnvironmentFingerprint) (ecosystem : string) (ecosystemInferred : bool).

Definition ecosystem_dim : list dimComparison :=
  let rs := "ecosystem " +:+ ToLower (env_Ecosystem req) in
  let ss := "ecosystem " +:+ ToLower (env_Ecosystem sam) in
  if both_declared (env_Ecosystem req) (env_Ecosystem sam) then
    if EqualFold (env_Ecosystem req) (env_Ecosystem sam) then [dim_agree ss]
    else if ecosystemInferred then
      [dim_adapt ss rs ("translate from " +:+ ToLower (env_Ecosystem sam) +:+ " to " +:+ ToLower (env_Ecosystem req))]
    else [dim_fatal ss rs]
  else [].

Definition runtime_dim : list dimComparison :=
  if both_declared (env_Runtime req) (env_Runtime sam) then
    let reqShow := runtimeShow (env_Runtime req) (env_RuntimeVersion req) in
    let samShow := runtimeShow (env_Runtime sam) (env_RuntimeVersion sam) in
    let same := EqualFold (env_Runtime req) (env_Runtime sam) in
    if same && String.eqb (releaseLineOf (env_Runtime req) (env_RuntimeVersion req))
                          (releaseLineOf (env_Runtime sam) (env_RuntimeVersion sam))
    then [dim_agree samShow]
    else if same && (String.eqb (env_RuntimeVersion req) "" || String.eqb (env_RuntimeVersion sam) "")
    then [dim_agree samShow]
    else if same && String.eqb (majorOf (env_RuntimeVersion req)) (majorOf (env_RuntimeVersion sam))
    then [dim_adapt samShow reqShow ("verify on " +:+ ToLower reqShow)]
    else if same then [dim_fatal samShow reqShow]
    else [dim_shown samShow reqShow]
  else [].

Definition language_dim : list dimComparison :=
  if both_declared (env_Language req) (env_Language sam) then
    let reqShow := langShow (env_Language req) (env_LanguageVersion req) in
    let samShow := langShow (env_Language sam) (env_LanguageVersion sam) in
    let sameLang := EqualFold (env_Language req) (env_Language sam) in
    let unknownVersion := String.eqb (env_LanguageVersion req) "" || String.eqb (env_LanguageVersion sam) "" in
    if sameLang && (unknownVersion
         || String.eqb (majorMinorOf (env_LanguageVersion req)) (majorMinorOf (env_LanguageVersion sam)))
    then [dim_agree samShow] else [dim_shown samShow reqShow]
  else [].

Definition compiler_dim : list dimComparison :=
  if both_declared (env_Compiler req) (env_Compiler sam) then
    let reqShow := runtimeShow (env_Compiler req) (env_CompilerVersion req) in
    let samShow := runtimeShow (env_Compiler sam) (env_CompilerVersion sam) in
    let sameCompiler := EqualFold (env_Compiler req) (env_Compiler sam) in
    let unknown := String.eqb (env_CompilerVersion req) "" || String.eqb (env_CompilerVersion sam) "" in
    if sameCompiler && (unknown
         || String.eqb (releaseLineOf (env_Compiler req) (env_CompilerVersion req))
                       (releaseLineOf (env_Compiler sam) (env_CompilerVersion sam)))
    then [dim_agree samShow]
    else if String.eqb ecosystem "cargo" || String.eqb ecosystem "golang"
    then [dim_fatal samShow reqShow] else [dim_shown samShow reqShow]
  else [].

Definition module_dim : list dimComparison :=
  if both_declared (env_ModuleSystem req) (env_ModuleSystem sam) then
    if EqualFold (env_ModuleSystem req) (env_ModuleSystem sam)
    then [dim_agree (ToUpper (env_ModuleSystem sam))]
    else [dim_adapt (ToUpper (env_ModuleSystem sam)) (ToUpper (env_ModuleSystem req)) "Import syntax only"]
  else [].

Definition manager_dim : list dimComparison :=
  let rs := ToLower (env_PackageManager req) in
  let ss := ToLower (env_PackageManager sam) in
  if both_declared (env_PackageManager req) (env_PackageManager sam) then
    if EqualFold (env_PackageManager req) (env_PackageManager sam) then [dim_agree ss]
    else [dim_adapt ss rs ("Package manager commands (" +:+ ss +:+ " → " +:+ rs +:+ ")")]
  else [].

Definition os_dim : list dimComparison :=
  if both_declared (env_OS req) (env_OS sam) then
    if EqualFold (env_OS req) (env_OS sam) then [dim_agree (osShow sam)]
    else [dim_shown (osShow sam) (osShow req)]
  else [].

Definition arch_dim : list dimComparison :=
  if both_declared (env_Arch req) (env_Arch sam) then
    if EqualFold (env_Arch req) (env_Arch sam) then [dim_agree (env_Arch sam)]
    else [dim_shown (env_Arch sam) (env_Arch req)]
  else [].

Definition libc_dim : list dimComparison :=
  if both_declared (env_Libc req) (env_Libc sam) then
    if negb (EqualFold (env_Libc req) (env_Libc sam)) then [dim_shown (env_Libc sam) (env_Libc req)]
    else if olderLibc (env_LibcVersion req) (env_LibcVersion sam) then [dim_shown (libcShow sam) (libcShow req)]
    else [dim_agree (libcShow sam)]
  else [].

Definition compareEnv : list dimComparison :=
  ecosystem_dim ++ runtime_dim ++ language_dim ++ compiler_dim ++ module_dim ++ manager_dim
  ++ os_dim ++ arch_dim ++ libc_dim.
End dims.

(** ** The execution-context axis *)

Record contextDelta := mkDelta {
  cd_mismatch : bool;
  cd_browserAdapt : bool;
  cd_verifyIn : string;
  cd_majorDistance : Z;
  cd_samShow : string;
  cd_reqShow : string
}.

Definition cd_zero : contextDelta := mkDelta false false "" 0 "" "".

Definition contextOf (e : EnvironmentFingerprint) : string :=
  let e := env_Normalize e in
  if negb (String.eqb (env_ExecutionContext e) "") then ToLower (env_ExecutionContext e)
  else if negb (String.eqb (env_BrowserFamily e) "") then "browser"
  else if negb (String.eqb (env_Runtime e) "") then ToLower (env_Runtime e)
  else "".

Definition ctxDisplay (e : EnvironmentFingerprint) : string :=
  if negb (String.eqb (env_BrowserFamily e) "") then
    if negb (String.eqb (env_BrowserMajor e) "")
    then env_BrowserFamily e +:+ " " +:+ env_BrowserMajor e else env_BrowserFamily e
  else
    let l := ContextLabel e in
    if negb (String.eqb l "") then l else env_ExecutionContext e.

(** [int] subtraction wraps. *)
Definition intDistance (a b : string) : Z :=
  let '(ai, aok) := Atoi a in
  let '(bi, bok) := Atoi b in
  if negb aok || negb bok then (if String.eqb a b then 0 else 1)
  else if bi <? ai then wrap64 (ai - bi) else wrap64 (bi - ai).

Definition compareContext (req sam : EnvironmentFingerprint) : contextDelta :=
  let rc := contextOf req in
  let sc := contextOf sam in
  if String.eqb rc "" || String.eqb sc "" then cd_zero
  else
    let reqShow := ctxDisplay req in
    let samShow := ctxDisplay sam in
    if negb (EqualFold rc sc) then mkDelta true false reqShow 0 samShow reqShow
    else
      let rf := ToLower (env_BrowserFamily req) in
      let sf := ToLower (env_BrowserFamily sam) in
      if negb (String.eqb rf "") && negb (String.eqb sf "") then
        if negb (String.eqb rf sf) then
          let re := env_Engine (env_Normalize req) in
          let se := env_Engine (env_Normalize sam) in
          if negb (String.eqb re "") && negb (String.eqb se "") && negb (EqualFold re se)
          then mkDelta true false reqShow 0 samShow reqShow
          else mkDelta false true reqShow 0 samShow reqShow
        else if negb (String.eqb (env_BrowserMajor req) "") && negb (String.eqb (env_BrowserMajor sam) "")
                && negb (String.eqb (env_BrowserMajor req) (env_BrowserMajor sam))
        then mkDelta false true reqShow (intDistance (env_BrowserMajor req) (env_BrowserMajor sam)) samShow reqShow
        else mkDelta false false "" 0 samShow reqShow
      else mkDelta false false "" 0 samShow reqShow.

(** ** The relation of the packages (rank.go) *)

Inductive pkgRel :=
| relUnspecified
| relNone
| relMajorDiff
| relPackageOnly
| relMajor
| relMajorMinor
| relExactVersion.

#[export] Instance pkgRel_eq_dec : EqDecision pkgRel.
Proof. solve_decision. Defined.

(** The [iota] values, by which the source orders relations. *)
Definition rel_rank (r : pkgRel) : Z :=
  match r with
  | relUnspecified => 0 | relNone => 1 | relMajorDiff => 2 | relPackageOnly => 3
  | relMajor => 4 | relMajorMinor => 5 | relExactVersion => 6
  end.

Definition equalFoldName (a b : string) : bool := EqualFold a b.

(** How the versions of one shared package relate. *)
Definition version_rel (rp cp : PURL) : pkgRel :=
  if String.eqb (purl_Version rp) (purl_Version cp) then relExactVersion
  else if String.eqb (MajorMinor rp) (MajorMinor cp) then relMajorMinor
  else if String.eqb (BreakingBucket rp) (BreakingBucket cp) then relMajor
  else relMajorDiff.

Definition same_package (rp cp : PURL) : bool :=
  String.eqb (purl_Ecosystem rp) (purl_Ecosystem cp) && equalFoldName (purl_Name rp) (purl_Name cp).

(** The pairs the nested loops visit, in their order. *)
Definition package_pairs {A} (purl_of : A -> PURL) (reqPkgs : list PURL) (cands : list A) : list (PURL * A) :=
  flat_map (fun rp => map (fun c => (rp, c)) (List.filter (fun c => same_package rp (purl_of c)) cands)) reqPkgs.

(** The loop keeps the first pair of the lowest relation. *)
Fixpoint worst_pair {A} (rel : PURL -> A -> pkgRel) (best : option (pkgRel * (PURL * A)))
    (pairs : list (PURL * A)) : option (pkgRel * (PURL * A)) :=
  match pairs with
  | [] => best
  | (rp, c) :: pairs' =>
      let r := rel rp c in
      let best := match best with
        | Some (b, _) => if rel_rank r <? rel_rank b then Some (r, (rp, c)) else best
        | None => Some (r, (rp, c))
        end in
      worst_pair rel best pairs'
  end.

Definition purl_zero : PURL := mkPURL "" "" "".

Definition packageRelation (reqPkgs candPkgs : list PURL) : pkgRel * PURL * PURL :=
  let samP := List.hd purl_zero candPkgs in
  match reqPkgs with
  | [] => (relUnspecified, purl_zero, samP)
  | reqP :: _ =>
      match worst_pair version_rel None (package_pairs (fun c => c) reqPkgs candPkgs) with
      | None => (relNone, reqP, samP)
      | Some (r, (rp, cp)) => (r, rp, cp)
      end
  end.

(** ** The grade *)

Definition anyComparable (dims : list dimComparison) : bool := negb (Nat.eqb (length dims) 0).

Record gradeState := mkGradeState {
  gs_adaptations : list string;
  gs_refOnly : bool;
  gs_adapt : bool;
  gs_anyDifference : bool
}.

(** One round of the loop over the dimensions. *)
Definition grade_step (g : gradeState) (d : dimComparison) : gradeState :=
  if dim_equal d then g
  else
    let g := mkGradeState (gs_adaptations g) (gs_refOnly g || dim_refOnly d) (gs_adapt g) true in
    if negb (String.eqb (dim_adaptation d) "")
    then mkGradeState (gs_adaptations g ++ [dim_adaptation d]) (gs_refOnly g) true (gs_anyDifference g)
    else g.

Definition buildGrade (rel : pkgRel) (dims : list dimComparison) (cd : contextDelta) (elevated : bool) :
    MatchGrade * list string :=
  let refOnly := elevated || bool_decide (rel = relMajorDiff) || bool_decide (rel = relNone) in
  let g := fold_left grade_step dims (mkGradeState [] refOnly false false) in
  let g := if cd_mismatch cd || cd_browserAdapt cd
    then mkGradeState (if negb (String.eqb (cd_verifyIn cd) "")
                       then gs_adaptations g ++ ["verify in " +:+ cd_verifyIn cd] else gs_adaptations g)
           (gs_refOnly g) true (gs_anyDifference g)
    else g in
  let adaptations := gs_adaptations g in
  if gs_refOnly g then (GradeReferenceOnly, adaptations)
  else if gs_adapt g then (GradeAdaptationRequired, adaptations)
  else match rel with
  | relExactVersion | relMajorMinor =>
      if negb (anyComparable dims) || gs_anyDifference g then (GradeCompatible, adaptations)
      else (GradeExact, adaptations)
  | _ => (GradeCompatible, adaptations)
  end.

(** ** The delta *)

Fixpoint dedupe_from (seen : list string) (l : list string) : list string :=
  match l with
  | [] => []
  | s :: l' => if str_in s seen then dedupe_from seen l' else s :: dedupe_from (s :: seen) l'
  end.

Definition dedupe (l : list string) : list string := dedupe_from [] l.

Definition difference (sam req : string) : list string := ["Sample uses " +:+ sam; "Current project uses " +:+ req].

Definition rel_exact (rel : pkgRel) (samP : PURL) : list string :=
  match rel with
  | relExactVersion | relMajorMinor => [purl_Name samP +:+ " " +:+ MajorMinor samP]
  | _ => []
  end.

Definition rel_different (rel : pkgRel) (reqP samP : PURL) : list string :=
  let named p := purl_Name p +:+ " " +:+ MajorMinor p in
  match rel with
  | relPackageOnly => ["Sample uses " +:+ purl_Name samP +:+ " (version not established by this shard)"]
  | relMajor | relMajorDiff => difference (named samP) (named reqP)
  | relNone =>
      if negb (String.eqb (purl_Name samP) "") && negb (String.eqb (purl_Name reqP) "")
      then difference (named samP) (named reqP +:+ " — a different package") else []
  | _ => []
  end.

Definition dim_exact_lines (d : dimComparison) : list string :=
  if dim_equal d && negb (String.eqb (dim_exactEntry d) "") then [dim_exactEntry d] else [].

Definition dim_different_lines (d : dimComparison) : list string :=
  if negb (dim_equal d) && (negb (String.eqb (dim_samShow d) "") || negb (String.eqb (dim_reqShow d) ""))
  then difference (dim_samShow d) (dim_reqShow d) else [].

Definition context_lines (cd : contextDelta) : list string :=
  if (cd_mismatch cd || cd_browserAdapt cd) && negb (String.eqb (cd_samShow cd) "")
     && negb (String.eqb (cd_reqShow cd) "")
  then difference (cd_samShow cd) (cd_reqShow cd) else [].

Definition buildDelta (rel : pkgRel) (reqP samP : PURL) (dims : list dimComparison) (cd : contextDelta) :
    list string * list string :=
  (dedupe (rel_exact rel samP ++ flat_map dim_exact_lines dims),
   dedupe (rel_different rel reqP samP ++ flat_map dim_different_lines dims ++ context_lines cd)).

(** ** Examples *)

Example compareLibc_numeric : compareLibcVersions "2.9" "2.35" = -1.
Proof. vm_compute. reflexivity. Qed.
Example releaseLine_python : releaseLineOf "Python" "3.12.1-rc1" = "3.12".
Proof. vm_compute. reflexivity. Qed.
Example grade_self :
  buildGrade relExactVersion (compareEnv env_example env_example "npm" false)
    (compareContext env_example env_example) false = (GradeExact, []).
Proof. vm_compute. reflexivity. Qed.
Example humanEnv_example :
  humanEnvSummary (<["moduleSystem" := "esm"]> (<["runtime" := "node@18"]> ∅)) = "node 18 + esm".
Proof. vm_compute. reflexivity. Qed.

(** ** The loop over the dimensions *)

Definition dim_differs (d : dimComparison) : bool := negb (dim_equal d).
Definition dim_blocks (d : dimComparison) : bool := dim_differs d && dim_refOnly d.
Definition dim_adapts (d : dimComparison) : bool := dim_differs d && negb (String.eqb (dim_adaptation d) "").
Definition dim_adaptations (d : dimComparison) : list string := if dim_adapts d then [dim_adaptation d] else [].

Lemma grade_fold dims g :
  fold_left grade_step dims g =
  mkGradeState (gs_adaptations g ++ flat_map dim_adaptations dims)
    (gs_refOnly g || existsb dim_blocks dims) (gs_adapt g || existsb dim_adapts dims)
    (gs_anyDifference g || existsb dim_differs dims).
Proof.
  revert g. induction dims as [|d dims IH]; intros [a r p q]; cbn.
  - by rewrite app_nil_r, !orb_false_r.
  - rewrite IH. unfold grade_step, dim_adaptations, dim_adapts, dim_blocks, dim_differs.
    destruct (dim_equal d); cbn; [done|]. destruct (String.eqb (dim_adaptation d) ""); cbn.
    + by rewrite !orb_true_r, orb_assoc.
    + by rewrite <- app_assoc, !orb_true_r, orb_assoc.
Qed.

Definition cd_differs (cd : contextDelta) : bool := cd_mismatch cd || cd_browserAdapt cd.

Definition rel_blocks (rel : pkgRel) : bool := bool_decide (rel = relMajorDiff) || bool_decide (rel = relNone).
Definition rel_same_line (rel : pkgRel) : bool :=
  bool_decide (rel = relExactVersion) || bool_decide (rel = relMajorMinor).

(** The grade as a decision on the four questions the code asks. *)
Definition grade_of (rel : pkgRel) (dims : list dimComparison) (cd : contextDelta) (elevated : bool) : MatchGrade :=
  if elevated || rel_blocks rel || existsb dim_blocks dims then GradeReferenceOnly
  else if existsb dim_adapts dims || cd_differs cd then GradeAdaptationRequired
  else if rel_same_line rel && anyComparable dims && negb (existsb dim_differs dims) then GradeExact
  else GradeCompatible.

Definition adaptations_of (dims : list dimComparison) (cd : contextDelta) : list string :=
  flat_map dim_adaptations dims
  ++ (if cd_differs cd && negb (String.eqb (cd_verifyIn cd) "") then ["verify in " +:+ cd_verifyIn cd] else []).

Lemma buildGrade_spec rel dims cd elevated :
  buildGrade rel dims cd elevated = (grade_of rel dims cd elevated, adaptations_of dims cd).
Proof.
  unfold buildGrade. rewrite grade_fold. unfold grade_of, adaptations_of, cd_differs, rel_blocks, rel_same_line.
  cbn [gs_adaptations gs_refOnly gs_adapt gs_anyDifference app orb].
  destruct (cd_mismatch cd || cd_browserAdapt cd), (String.eqb (cd_verifyIn cd) ""), (existsb dim_blocks dims),
    (existsb dim_adapts dims), (existsb dim_differs dims), (anyComparable dims), elevated, rel; cbn;
    by rewrite ?app_nil_r.
Qed.

(** ** Every difference is shown *)

Lemma map_runes_nonempty f s : s <> "" -> map_runes_skip f 0 s <> "".
Proof.
  destruct s as [|c s]; [done|]. intros _. cbn [map_runes_skip].
  destruct (decode_rune (String c s)) as [r w]. by destruct (encode_rune_cons (f r)) as (a & t & ->).
Qed.

Lemma append_nonempty_l a b : a <> "" -> a +:+ b <> "".
Proof. by destruct a. Qed.

Lemma runtimeShow_nonempty n v : n <> "" -> runtimeShow n v <> "".
Proof. unfold runtimeShow. intros H. rewrite (proj2 (String.eqb_neq _ _) H). split_ifs; auto using append_nonempty_l. Qed.

Lemma langShow_nonempty n v : n <> "" -> langShow n v <> "".
Proof. unfold langShow. intros H. split_ifs; auto using append_nonempty_l. Qed.

Lemma osShow_nonempty e : env_OS e <> "" -> osShow e <> "".
Proof. unfold osShow. intros H. split_ifs; auto using append_nonempty_l. Qed.

Lemma libcShow_nonempty e : env_Libc e <> "" -> libcShow e <> "".
Proof. unfold libcShow. intros H. split_ifs; auto using append_nonempty_l. Qed.

Lemma both_declared_spec a b : both_declared a b = true -> a <> "" /\ b <> "".
Proof. unfold both_declared. intros H. by bool_facts. Qed.

(** A difference names what the sample ran on. *)
Definition shown_when_differs (d : dimComparison) : Prop := dim_differs d = true -> dim_samShow d <> "".

Create HintDb dims.
#[local] Hint Resolve append_nonempty_l runtimeShow_nonempty langShow_nonempty osShow_nonempty
  libcShow_nonempty map_runes_nonempty : dims.

Ltac dim_cases :=
  match goal with
  | |- context [both_declared ?a ?b] => destruct (both_declared a b) eqn:?; [|by constructor]
  end;
  match goal with H : both_declared _ _ = true |- _ => apply both_declared_spec in H as [??] end;
  split_ifs; repeat constructor; (let Hd := fresh in intros Hd; try discriminate Hd; clear Hd); cbn; unfold ToUpper, ToLower; try done; auto with dims.

Lemma compareEnv_shown req sam eco inferred : Forall shown_when_differs (compareEnv req sam eco inferred).
Proof.
  unfold compareEnv. rewrite !Forall_app. repeat split;
  unfold ecosystem_dim, runtime_dim, language_dim, compiler_dim, module_dim, manager_dim, os_dim, arch_dim, libc_dim;
  cbv zeta; dim_cases.
Qed.

Lemma ctxDisplay_empty e : ctxDisplay e = "" ->
  env_BrowserFamily e = "" /\ env_ExecutionContext e = "" /\ env_Runtime e = "".
Proof.
  unfold ctxDisplay, ContextLabel. destruct (String.eqb_spec (env_BrowserFamily e) "") as [B|B]; cbn;
    [|intros H; exfalso; revert H; split_ifs; first [done | by apply append_nonempty_l]].
  destruct (String.eqb_spec (env_ExecutionContext e) "") as [X|X]; cbn.
  - destruct (String.eqb_spec (env_Runtime e) "") as [R|R]; cbn; [done|].
    destruct (String.eqb_spec (env_RuntimeVersion e) ""); cbn; by destruct (env_Runtime e).
  - rewrite (proj2 (String.eqb_neq _ _) X). destruct (String.eqb_spec (env_RuntimeVersion e) ""); cbn;
      by destruct (env_ExecutionContext e).
Qed.

Lemma contextOf_shown e : contextOf e <> "" -> ctxDisplay e <> "".
Proof.
  intros C (B & X & R)%ctxDisplay_empty. apply C. unfold contextOf, env_Normalize, fill_engine, fill_context.
  unfold clear_placeholders. cbn [env_BrowserFamily env_ExecutionContext env_Runtime env_Engine].
  rewrite B, X, R.
  change (clearPlaceholder "") with "". change (str_in "" ["node"; "bun"; "deno"]) with false.
  rewrite andb_false_r. cbn [env_BrowserFamily env_Engine]. change (engine_of "") with (@None string).
  by destruct (String.eqb (clearPlaceholder _) "").
Qed.

Lemma compareContext_shown req sam : cd_differs (compareContext req sam) = true ->
  cd_samShow (compareContext req sam) <> "" /\ cd_reqShow (compareContext req sam) <> "".
Proof.
  unfold compareContext, cd_differs. cbv zeta.
  destruct (String.eqb_spec (contextOf req) "") as [|R]; [done|].
  destruct (String.eqb_spec (contextOf sam) "") as [|S]; [done|]. cbn [orb].
  apply contextOf_shown in R, S. split_ifs; cbn; try done; auto.
Qed.

(** ** The two lists of the delta *)

Lemma dedupe_from_spec seen l s : In s (dedupe_from seen l) <-> In s l /\ str_in s seen = false.
Proof.
  revert seen. induction l as [|x l IH]; intros seen; cbn [dedupe_from In]; [tauto|].
  destruct (str_in x seen) eqn:E; cbn [In]; rewrite IH.
  - split; [tauto|]. intros [[->|]?]; [congruence|tauto].
  - change (str_in s (x :: seen)) with (String.eqb s x || str_in s seen). rewrite orb_false_iff, String.eqb_neq.
    split; [intros [->|(?&?&?)]; tauto|]. intros [[->|?] ?]; [tauto|].
    destruct (String.eqb_spec x s); [left|right]; tauto || (repeat split; congruence || done).
Qed.

Lemma dedupe_In l s : In s (dedupe l) <-> In s l.
Proof. unfold dedupe. rewrite dedupe_from_spec. tauto. Qed.

Lemma dedupe_NoDup l : List.NoDup (dedupe l).
Proof.
  unfold dedupe. generalize (@nil string). induction l as [|x l IH]; intros seen; cbn; [constructor|].
  destruct (str_in x seen); [done|]. constructor; [|done]. rewrite dedupe_from_spec.
  change (str_in x (x :: seen)) with (String.eqb x x || str_in x seen). rewrite String.eqb_refl. by intros [_ ?].
Qed.

Lemma dedupe_nil l : dedupe l = [] <-> l = [].
Proof. destruct l; done. Qed.

Lemma dim_lines_nil dims : Forall shown_when_differs dims ->
  flat_map dim_different_lines dims = [] <-> existsb dim_differs dims = false.
Proof.
  induction 1 as [|d dims Hd _ IH]; [done|]. cbn [flat_map existsb]. unfold shown_when_differs, dim_differs in Hd.
  unfold dim_different_lines at 1, dim_differs at 1. destruct (dim_equal d); cbn; [done|].
  rewrite (proj2 (String.eqb_neq _ _) (Hd eq_refl)). done.
Qed.

Lemma context_lines_nil req sam :
  context_lines (compareContext req sam) = [] <-> cd_differs (compareContext req sam) = false.
Proof.
  unfold context_lines. fold (cd_differs (compareContext req sam)).
  destruct (cd_differs _) eqn:D; [|done]. apply compareContext_shown in D as [S R].
  by rewrite (proj2 (String.eqb_neq _ _) S), (proj2 (String.eqb_neq _ _) R).
Qed.

(** ** The grade and its explanation *)

(** What one grade says: the condition under which it is given. *)
Definition grade_condition (rel : pkgRel) (dims : list dimComparison) (cd : contextDelta) (elevated : bool)
    (g : MatchGrade) : Prop :=
  let reference := elevated = true \/ rel = relMajorDiff \/ rel = relNone
                   \/ exists d, In d dims /\ dim_equal d = false /\ dim_refOnly d = true in
  let adaptation := cd_mismatch cd = true \/ cd_browserAdapt cd = true
                    \/ exists d, In d dims /\ dim_equal d = false /\ dim_adaptation d <> "" in
  let same := (rel = relExactVersion \/ rel = relMajorMinor) /\ dims <> []
              /\ forall d, In d dims -> dim_equal d = true in
  match g with
  | GradeReferenceOnly => reference
  | GradeAdaptationRequired => ~ reference /\ adaptation
  | GradeExact => ~ reference /\ ~ adaptation /\ same
  | GradeCompatible => ~ reference /\ ~ adaptation /\ ~ same
  | GradeNoSafeMatch => False
  end.

Lemma existsb_differs (p : dimComparison -> bool) (P : dimComparison -> Prop) dims :
  (forall d, p d = true <-> P d) -> existsb (fun d => dim_differs d && p d) dims = true
  <-> exists d, In d dims /\ dim_equal d = false /\ P d.
Proof.
  intros E. rewrite existsb_exists. unfold dim_differs.
  split; intros (d & I & H); exists d; split; auto;
    [apply andb_true_iff in H as [H1 H2]; apply negb_true_iff in H1; split; [|apply E]; done
    |destruct H as [-> H]; by apply E].
Qed.

Lemma existsb_blocks dims : existsb dim_blocks dims = true
  <-> exists d, In d dims /\ dim_equal d = false /\ dim_refOnly d = true.
Proof. by apply existsb_differs. Qed.

Lemma existsb_adapts dims : existsb dim_adapts dims = true
  <-> exists d, In d dims /\ dim_equal d = false /\ dim_adaptation d <> "".
Proof. apply existsb_differs. intros d. by rewrite negb_true_iff, String.eqb_neq. Qed.

Lemma existsb_none dims : existsb dim_differs dims = false <-> forall d, In d dims -> dim_equal d = true.
Proof.
  rewrite <- not_true_iff_false, existsb_exists. unfold dim_differs. split.
  - intros N d I. destruct (dim_equal d) eqn:E; [done|]. exfalso. apply N. exists d. by rewrite E.
  - intros A (d & I & H). by rewrite (A d I) in H.
Qed.

Lemma anyComparable_spec dims : anyComparable dims = true <-> dims <> [].
Proof. by destruct dims. Qed.


(** C4.  The grade and the delta describe one comparison.  EXACT comes with
    nothing to adapt and an empty list of differences; and when the versions
    share their line, something was compared and no failure is elevated, an
    empty list of differences means EXACT. *)
Theorem delta_explains_grade req sam eco inferred rel reqP samP elevated :
  let dims := compareEnv req sam eco inferred in
  let cd := compareContext req sam in
  let different := snd (buildDelta rel reqP samP dims cd) in
  (fst (buildGrade rel dims cd elevated) = GradeExact ->
     different = [] /\ snd (buildGrade rel dims cd elevated) = [])
  /\ (rel = relExactVersion \/ rel = relMajorMinor -> dims <> [] -> elevated = false -> different = [] ->
     fst (buildGrade rel dims cd elevated) = GradeExact).
Proof.
  cbv zeta. rewrite buildGrade_spec. unfold buildDelta, grade_of, adaptations_of. cbn [fst snd].
  set (dims := compareEnv req sam eco inferred). rewrite dedupe_nil, <- anyComparable_spec.
  pose proof (dim_lines_nil dims (compareEnv_shown _ _ _ _)) as L. pose proof (context_lines_nil req sam) as X.
  assert (A : existsb dim_differs dims = false -> existsb dim_blocks dims = false
    /\ existsb dim_adapts dims = false /\ flat_map dim_adaptations dims = []).
  { clear. unfold dim_adaptations. induction dims as [|d l IH]; [done|]. cbn. unfold dim_blocks, dim_adapts.
    by destruct (dim_differs d); cbn. }
  split.
  - destruct (elevated || rel_blocks rel || existsb dim_blocks dims); [done|].
    destruct (existsb dim_adapts dims || cd_differs (compareContext req sam)) eqn:E; [done|]. bool_facts.
    destruct (rel_same_line rel) eqn:R, (anyComparable dims), (existsb dim_differs dims) eqn:D; try done.
    intros _. destruct A as (_ & _ & ->); [done|]. rewrite (proj2 L), (proj2 X) by done.
    match goal with H : cd_differs _ = false |- _ => rewrite H end. by destruct rel.
  - intros R -> -> [_ [D%L C%X]%app_eq_nil]%app_eq_nil. destruct A as (-> & -> & _); [done|]. rewrite D, C.
    by destruct R as [-> | ->].
Qed.

Lemma delta_explains_grade_witness :
  fst (buildGrade relMajorMinor (compareEnv env_example env_example "npm" false)
         (compareContext env_example env_example) false) = GradeExact.
Proof.
  apply (delta_explains_grade env_example env_example "npm" false relMajorMinor
           (mkPURL "npm" "axios" "1.12.0") (mkPURL "npm" "axios" "1.12.3") false);
    [by right|vm_compute; done|reflexivity|vm_compute; reflexivity].
Defined.

(** ** Order of libc versions *)

Definition libc_numbers (v : string) : list Z := map (fun s => fst (Atoi s)) (Split v ".").

Lemma libc_loop_pad n as_ bs :
  libc_loop n as_ bs = pad_loop n (map (fun s => fst (Atoi s)) as_) (map (fun s => fst (Atoi s)) bs).
Proof.
  revert as_ bs. induction n as [|n IH]; intros as_ bs; [done|]. cbn. rewrite IH. by destruct as_, bs.
Qed.

Lemma compareLibc_padded a b : compareLibcVersions a b = cmp_on libc_numbers cmp_padded a b.
Proof. unfold compareLibcVersions, cmp_on, cmp_padded, libc_numbers. by rewrite libc_loop_pad, !length_map. Qed.

(** Numeric comparison of libc versions is a total preorder, so "older" is
    a strict order and 2.9 is before 2.35. *)
#[export] Instance compareLibc_order : CmpOrder compareLibcVersions.
Proof.
  assert (O : CmpOrder (cmp_on libc_numbers cmp_padded)) by apply _.
  split; intros *; rewrite !compareLibc_padded; apply O.
Qed.

Lemma olderLibc_irrefl v : olderLibc v v = false.
Proof. unfold olderLibc. rewrite (cmp_refl (cmp := compareLibcVersions)). by destruct (String.eqb v ""). Qed.

(** ** A sample that ran where the caller is *)

Lemma compareEnv_self e eco inferred : Forall (fun d => dim_equal d = true) (compareEnv e e eco inferred).
Proof.
  unfold compareEnv. rewrite !Forall_app.
  unfold ecosystem_dim, runtime_dim, language_dim, compiler_dim, module_dim, manager_dim, os_dim, arch_dim, libc_dim.
  cbv zeta. rewrite !EqualFold_refl, !String.eqb_refl, olderLibc_irrefl, !orb_true_r. cbn [andb negb].
  repeat split; destruct (both_declared _ _); repeat constructor.
Qed.

Lemma compareContext_self e : cd_differs (compareContext e e) = false.
Proof.
  unfold compareContext. cbv zeta. rewrite EqualFold_refl, !String.eqb_refl, !andb_false_r. cbn [negb].
  by split_ifs.
Qed.

(** Graded against the very environment it ran in, at the caller's version,
    a sample needs nothing and is EXACT as soon as one dimension is known. *)
Theorem own_environment_exact e eco inferred reqP samP :
  let dims := compareEnv e e eco inferred in
  let cd := compareContext e e in
  buildGrade relExactVersion dims cd false = (if anyComparable dims then GradeExact else GradeCompatible, [])
  /\ snd (buildDelta relExactVersion reqP samP dims cd) = [].
Proof.
  cbv zeta. rewrite buildGrade_spec. unfold buildDelta, grade_of, adaptations_of. cbn [snd].
  pose proof (compareEnv_self e eco inferred) as S. rewrite List.Forall_forall in S.
  rewrite compareContext_self. set (dims := compareEnv e e eco inferred) in *.
  assert (D : existsb dim_differs dims = false) by by apply existsb_none.
  assert (B : existsb dim_blocks dims = false /\ existsb dim_adapts dims = false
    /\ flat_map dim_adaptations dims = [] /\ flat_map dim_different_lines dims = []).
  { clear - D. unfold dim_adaptations, dim_different_lines. induction dims as [|d l IH]; [done|].
    cbn in *. apply orb_false_iff in D as [D1 D2]. unfold dim_blocks, dim_adapts, dim_differs in *. rewrite D1.
    by apply IH. }
  destruct B as (-> & -> & -> & ->). rewrite D. split.
  - by destruct (anyComparable dims).
  - apply dedupe_nil. rewrite (proj2 (context_lines_nil e e)); [done|apply compareContext_self].
Qed.

(** ** The package relation grades the worst shared pair *)

Section worst.
  Context {A : Type} (rel : PURL -> A -> pkgRel).

Lemma worst_pair_spec best pairs :
    match worst_pair rel best pairs with
    | None => best = None /\ pairs = []
    | Some (r, p) =>
        (best = Some (r, p) \/ In p pairs /\ r = rel (fst p) (snd p))
        /\ (forall b q, best = Some (b, q) -> rel_rank r <= rel_rank b)
        /\ (forall q, In q pairs -> rel_rank r <= rel_rank (rel (fst q) (snd q)))
    end.
  Proof.
    revert best. induction pairs as [|[rp c] pairs IH]; intros best; cbn [worst_pair].
    - destruct best as [[r p]|]; [|done]. split; [by left|]. split; [by intros b q [= -> ->]|done].
    - match goal with |- context [worst_pair rel ?b pairs] => set (best' := b); specialize (IH best') end.
      destruct (worst_pair rel best' pairs) as [[r p]|].
      + destruct IH as (I & B & P). assert (R : rel_rank r <= rel_rank (rel rp c)
          /\ forall b q, best = Some (b, q) -> rel_rank r <= rel_rank b).
        { unfold best' in B. destruct best as [[b q]|]; [|split; [by eapply B|done]].
          destruct (Z.ltb_spec (rel_rank (rel rp c)) (rel_rank b)) as [L|L].
          - specialize (B _ _ eq_refl). split; [done|]. intros ?? [= -> ->]. lia.
          - specialize (B _ _ eq_refl). split; [lia|]. by intros ?? [= -> ->]. }
        destruct R as [R1 R2]. repeat split; [|done|].
        * destruct I as [E|[I ->]]; [|right; split; [by right|done]].
          unfold best' in E. destruct best as [[b q]|];
            [destruct (rel_rank (rel rp c) <? rel_rank b)|]; first [by left | injection E as <- <-; right; split; [by left|done]].
        * intros q [<-|Iq]; [done|by apply P].
      + destruct IH as [E ->]. unfold best' in E. destruct best as [[b q]|]; [|done].
        by destruct (rel_rank (rel rp c) <? rel_rank b).
  Qed.
End worst.

Lemma package_pairs_In {A} (purl_of : A -> PURL) reqPkgs cands rp c :
  In (rp, c) (package_pairs purl_of reqPkgs cands) <-> In rp reqPkgs /\ In c cands /\ same_package rp (purl_of c) = true.
Proof.
  unfold package_pairs. rewrite in_flat_map. split.
  - intros (x & Hx & (y & [= -> ->] & Hy)%in_map_iff). by apply List.filter_In in Hy.
  - intros (Hr & Hc & Hs). exists rp. split; [done|]. apply in_map. by apply List.filter_In.
Qed.

(** The relation reported is that of a pair both sides share, no shared pair
    is further apart, and [relNone] means that nothing is shared. *)
Theorem packageRelation_worst rp0 reqPkgs candPkgs rel rp cp :
  packageRelation (rp0 :: reqPkgs) candPkgs = (rel, rp, cp) ->
  (rel <> relNone -> In rp (rp0 :: reqPkgs) /\ In cp candPkgs /\ same_package rp cp = true /\ rel = version_rel rp cp)
  /\ (forall rp' cp', In rp' (rp0 :: reqPkgs) -> In cp' candPkgs -> same_package rp' cp' = true ->
      rel <> relNone /\ rel_rank rel <= rel_rank (version_rel rp' cp')).
Proof.
  unfold packageRelation. pose proof (worst_pair_spec version_rel None
    (package_pairs (fun c => c) (rp0 :: reqPkgs) candPkgs)) as W.
  destruct (worst_pair _ _ _) as [[r [a b]]|].
  - intros [= -> -> ->]. destruct W as ([|[I R]] & _ & M); [done|]. apply package_pairs_In in I. split; [tauto|].
    intros rp' cp' Hr Hc Hs. split; [rewrite R; unfold version_rel; cbn; by split_ifs|].
    apply (M (rp', cp')). by apply package_pairs_In.
  - intros [= <- <- <-]. destruct W as [_ E]. split; [done|]. intros rp' cp' Hr Hc Hs.
    assert (I : In (rp', cp') (package_pairs (fun c => c) (rp0 :: reqPkgs) candPkgs)) by by apply package_pairs_In.
    by rewrite E in I.
Qed.
