(* ===== verification/Candidate.v ===== *)
(** * Candidates and the evidence about them (internal/search/engine.go)

    A candidate is one sample under consideration, with the shard evidence of
    its packages.  This file has the data and the questions asked of it
    before grading: which recorded failures are the caller's own, which would
    bite in the caller's environment, which environment the caller asked
    about, and how well a sample is verified ([verificationLevel], rank.go). *)

From stdpp Require Import gmap.
From S2P Require Import Prelude GoStrings GoUnicode GoStd StringFacts UnicodeFacts WordFacts.
From S2P Require Import Float Purl Env Failure CliSubject Experience Search Anomaly Relevance Grade.

(** ** Data *)

Record shardStageCount := mkStageCount { ssc_Pass : Z; ssc_Fail : Z }.

Record shardSymbolStats := mkStats {
  st_ObservationCount : Z;
  st_UniquePeerBuckets : Z;
  st_PassRate : float64;
  st_ByStage : gmap string shardStageCount;
  st_Confidence : string;
  st_LastSeen : string
}.

Record shardFailure := mkFailure {
  sf_ErrorCode : string;
  sf_Fingerprint : string;
  sf_Count : Z;
  sf_EnvSummary : gmap string string;
  sf_Hypotheses : list FailureHypothesis
}.

Record shardSymbolEntry := mkEntry {
  sse_Family : string;
  sse_Stats : shardSymbolStats;
  sse_Failures : list shardFailure
}.

Record pkgEvidence := mkPkgEvidence { pe_symbols : list shardSymbolEntry }.

Record shardVerificationEntry := mkVerification {
  sve_ResolvedPackages : list string;
  sve_Environment : EnvironmentFingerprint;
  sve_Stages : gmap string string;
  sve_VerificationLevel : Z;
  sve_CreatedAt : string
}.

(** Instants are numbers; the zero [time.Time] is the instant of a string
    that does not parse. *)
Record verificationVariant := mkVariant {
  vv_key : string;
  vv_packages : list PURL;
  vv_env : EnvironmentFingerprint;
  vv_stages : gmap string string;
  vv_level : Z;
  vv_created : Z;
  vv_receipt : option VerificationReceipt
}.

Record candidate := mkCandidate {
  cand_sampleID : string;
  cand_status : string;
  cand_caseObj : option Case;
  cand_env : EnvironmentFingerprint;
  cand_packages : list PURL;
  cand_declared : list PURL;
  cand_verifications : list verificationVariant;
  cand_symbols : list string;
  cand_createdAt : Z;
  cand_contractStages : gmap string string
}.

Record packageClaim := mkClaim { claim_purl : PURL; claim_versionKnown : bool }.

(** A missing key of a Go map reads as the empty string. *)
Definition stage (stages : gmap string string) (k : string) : string := default "" (stages !! k).

Definition pkgKey (p : PURL) : string := purl_Ecosystem p +:+ "/" +:+ ToLower (purl_Name p).

Definition sampleIDFromDocID (docID : string) : string := TrimPrefix docID "sample:".

(** ** The caller's failure *)

Definition matchesAnyFingerprint (req : SearchRequest) (stored : string) : bool :=
  if negb (String.eqb (sr_ErrorFingerprint req) "") && String.eqb stored (sr_ErrorFingerprint req) then true
  else existsb (fun fp => negb (String.eqb fp "") && String.eqb stored fp) (sr_ErrorFingerprints req).

Definition fingerprint_hit (req : SearchRequest) (f : shardFailure) : bool :=
  negb (String.eqb (sf_Fingerprint f) "") && matchesAnyFingerprint req (sf_Fingerprint f).

Definition code_hit (req : SearchRequest) (f : shardFailure) : bool :=
  negb (String.eqb (sr_ErrorCode req) "") && negb (String.eqb (sf_ErrorCode f) "")
  && EqualFold (sf_ErrorCode f) (sr_ErrorCode req).

Definition errorHits (req : SearchRequest) (syms : list shardSymbolEntry) : bool * bool :=
  (existsb (fun s => existsb (fingerprint_hit req) (sse_Failures s)) syms,
   existsb (fun s => existsb (code_hit req) (sse_Failures s)) syms).

Definition declares (symbol : string) (declared : list string) : bool :=
  existsb (fun d => let d := TrimSpace d in negb (String.eqb d "") && EqualFold d symbol) declared.

Definition case_symbols (c : candidate) : list string :=
  match cand_caseObj c with Some case => case_Symbols case | None => [] end.

(** The [c == nil] guard does not arise: candidates are never nil. *)
Definition candidateDeclaresSymbol (c : candidate) (symbol : string) : bool :=
  let symbol := TrimSpace symbol in
  if String.eqb symbol "" then false
  else if declares symbol (cand_symbols c) then true
  else declares symbol (case_symbols c).

Definition explicit_packages (req : SearchRequest) : list string :=
  List.filter (fun raw => match ParsePURL raw with Ok p => String.eqb (purl_String p) raw | Err _ => false end)
    (sr_Packages req).

(** The loop over the claims: [seen] holds the package keys already judged. *)
Fixpoint fingerprint_packages (req : SearchRequest) (evidence : gmap string pkgEvidence) (c : candidate)
    (seen : list string) (claims : list packageClaim) : list PURL :=
  match claims with
  | [] => []
  | claim :: rest =>
      let p := claim_purl claim in
      let key := pkgKey p in
      if negb (Nat.eqb (length (sr_Packages req)) 0) && negb (str_in (purl_String p) (explicit_packages req))
      then fingerprint_packages req evidence c seen rest
      else if str_in key seen then fingerprint_packages req evidence c seen rest
      else
        let found := match evidence !! key with
          | None => false
          | Some pe => existsb (fun s => candidateDeclaresSymbol c (sse_Family s)
                                         && existsb (fingerprint_hit req) (sse_Failures s)) (pe_symbols pe)
          end in
        (if found then [p] else []) ++ fingerprint_packages req evidence c (key :: seen) rest
  end.

Definition candidateFingerprintPackages (req : SearchRequest) (claims : list packageClaim)
    (evidence : gmap string pkgEvidence) (c : candidate) : list PURL :=
  fingerprint_packages req evidence c [] claims.

Definition candidateHasContract (c : candidate) : bool :=
  match cand_caseObj c with
  | None => false
  | Some case => existsb (fun line => negb (String.eqb (TrimSpace line) "")) (case_Contract case)
  end.

Definition samePackageIdentity (a b : PURL) : bool :=
  EqualFold (purl_Ecosystem a) (purl_Ecosystem b) && EqualFold (purl_Name a) (purl_Name b).

(** ** Failures of the caller's environment *)

Definition elevatedFailureMinCount : Z := 5.

(** One key of a cluster's environment. *)
Definition summary_key_matches (req : EnvironmentFingerprint) (kv : string * string) : bool :=
  let '(k, v) := kv in
  if String.eqb k "moduleSystem" then EqualFold v (env_ModuleSystem req)
  else if String.eqb k "runtime" then
    let '(name, ver, _) := Cut v "@" in
    if negb (EqualFold name (env_Runtime req)) then false
    else if negb (String.eqb ver "")
            && negb (String.eqb (releaseLineOf (env_Runtime req) ver)
                                (releaseLineOf (env_Runtime req) (env_RuntimeVersion req))) then false
    else true
  else if String.eqb k "browserFamily" then EqualFold v (env_BrowserFamily req)
  else if String.eqb k "browserMajor" then String.eqb (majorOf v) (majorOf (env_BrowserMajor req))
  else if String.eqb k "executionContext" then EqualFold v (contextOf req)
  else if String.eqb k "engine" then EqualFold v (env_Engine (env_Normalize req))
  else if String.eqb k "os" then EqualFold v (env_OS req)
  else false.

Definition envSummaryMatches (req : EnvironmentFingerprint) (summary : gmap string string) : bool :=
  if decide (summary = ∅) then false
  else forallb (summary_key_matches req) (map_to_list summary).

Definition matchingFailures (reqEnv : EnvironmentFingerprint) (syms : list shardSymbolEntry) : list shardFailure :=
  flat_map (fun s => List.filter (fun f => envSummaryMatches reqEnv (sf_EnvSummary f)) (sse_Failures s)) syms.

Definition elevatedInRequestEnv (req : SearchRequest) (matched : list shardFailure) : bool :=
  existsb (fun f => negb (sf_Count f <? elevatedFailureMinCount) && negb (fingerprint_hit req f)
                    && negb (code_hit req f)) matched.

Definition knownFailures (matched : list shardFailure) : list KnownFailure :=
  map (fun f => mkKnownFailure (sf_ErrorCode f) (sf_Fingerprint f) (sf_Count f) (sf_EnvSummary f) (sf_Hypotheses f))
    matched.

(** ** Which environment was asked about *)

Definition candidateSupportsEcosystem (c : candidate) (ecosystem : string) : bool :=
  existsb (fun p => EqualFold (purl_Ecosystem p) ecosystem) (cand_packages c).

Definition callerNamedEcosystem (reqPkgs : list PURL) (ecosystem : string) : bool :=
  if String.eqb ecosystem "" then false
  else existsb (fun p => EqualFold (purl_Ecosystem p) ecosystem) reqPkgs.

(** The assignments that blank the ecosystem-scoped dimensions; [OS], [Arch],
    the libc, virtualization and CI axes stay. *)
Definition host_axes (req : EnvironmentFingerprint) (ecosystem : string) : EnvironmentFingerprint :=
  {| env_SchemaVersion := env_SchemaVersion req; env_Ecosystem := ecosystem;
     env_OS := env_OS req; env_OSVersionBucket := env_OSVersionBucket req; env_Arch := env_Arch req;
     env_Runtime := ""; env_RuntimeVersion := ""; env_Language := ""; env_LanguageVersion := "";
     env_Compiler := ""; env_CompilerVersion := ""; env_PackageManager := ""; env_PackageManagerVersion := "";
     env_ModuleSystem := ""; env_Frameworks := env_Frameworks req; env_ExecutionContext := "";
     env_BrowserFamily := ""; env_BrowserMajor := ""; env_Engine := ""; env_EngineVersion := "";
     env_Virtualization := env_Virtualization req; env_ContainerRuntime := env_ContainerRuntime req;
     env_Libc := env_Libc req; env_LibcVersion := env_LibcVersion req; env_Distro := env_Distro req;
     env_CI := env_CI req |}.

Definition envAskedAboutNamed (req : EnvironmentFingerprint) (samEcosystem : string) (inferred namedByCaller : bool) :
    EnvironmentFingerprint :=
  if String.eqb samEcosystem "" || String.eqb (env_Ecosystem req) "" || EqualFold (env_Ecosystem req) samEcosystem
  then req
  else if negb inferred then req
  else host_axes req (if namedByCaller then "" else env_Ecosystem req).

Definition envAskedAbout (req : EnvironmentFingerprint) (samEcosystem : string) (inferred : bool) :
    EnvironmentFingerprint := envAskedAboutNamed req samEcosystem inferred false.

Definition ecosystemOf (samP : PURL) (reqEnv : EnvironmentFingerprint) (c : candidate) : string :=
  if negb (String.eqb (purl_Ecosystem samP) "") then purl_Ecosystem samP
  else match cand_packages c with
  | p :: _ => purl_Ecosystem p
  | [] => if negb (String.eqb (env_Ecosystem (cand_env c)) "") then env_Ecosystem (cand_env c)
          else env_Ecosystem reqEnv
  end.

(** ** Receipts *)

Definition contractResult (stages : gmap string string) : option string :=
  let s := stage stages "contract" in
  if String.eqb s "PASS" then Some ResultPass
  else if String.eqb s "FAIL" then Some ResultFail
  else None.

Definition contract_pass (r : VerificationReceipt) : bool :=
  match contractResult (vr_Stages r) with Some res => String.eqb res ResultPass | None => false end.

(** The named peers behind the passing receipts, without repetition. *)
Definition pass_peers (receipts : list VerificationReceipt) : gset string :=
  list_to_set (List.filter (fun p => negb (String.eqb p "")) (map vr_PeerID (List.filter contract_pass receipts))).

Definition verificationLevel (status : string) (contractStages : gmap string string)
    (receipts : list VerificationReceipt) : Z :=
  let lvl := if str_in status ["STABLE"; "MATRIX_PASS"] then 5
             else if String.eqb status "CROSS_PASS" then 4
             else if String.eqb status "LOCAL_PASS" then 3 else 0 in
  let lvl := if (2 <=? Z.of_nat (size (pass_peers receipts))) && (lvl <? 4) then 4
             else if (1 <=? Z.of_nat (length (List.filter contract_pass receipts))) && (lvl <? 3) then 3
             else lvl in
  if String.eqb (stage contractStages "contract") "PASS" && (lvl <? 3) then 3 else lvl.

Definition statusRank (status : string) : Z :=
  if String.eqb status "STABLE" then 5
  else if String.eqb status "MATRIX_PASS" then 4
  else if String.eqb status "CROSS_PASS" then 3
  else if String.eqb status "PUBLISHED" then 2
  else if String.eqb status "LOCAL_PASS" then 1
  else 0.

(** ** Lists of packages *)

Definition parsePURLs (ss : list string) : list PURL :=
  flat_map (fun s => match ParsePURL s with Ok p => [p] | Err _ => [] end) ss.

Definition appendPURL (l : list PURL) (p : PURL) : list PURL :=
  if existsb (fun e => String.eqb (purl_Ecosystem e) (purl_Ecosystem p) && EqualFold (purl_Name e) (purl_Name p)
                       && String.eqb (purl_Version e) (purl_Version p)) l
  then l else (l ++ [p])%list.

(** The claim fails as a whole: a malformed, non-canonical, unversioned or
    out-of-order entry empties it. *)
Fixpoint verified_purls (prev : option string) (raw : list string) : option (list PURL) :=
  match raw with
  | [] => Some []
  | value :: rest =>
      match ParsePURL value with
      | Err _ => None
      | Ok p =>
          if negb (String.eqb (purl_String p) value) || negb (ConcreteResolvedVersion (purl_Version p))
             || match prev with Some q => negb (str_lt q value) | None => false end
          then None
          else match verified_purls (Some value) rest with Some ps => Some (p :: ps) | None => None end
      end
  end.

Definition parseVerifiedPURLs (raw : list string) : list PURL := default [] (verified_purls None raw).

Definition verifiedPURLsFromReceipt (receipt : VerificationReceipt) : list PURL :=
  if negb (vr_SchemaVersion receipt =? 2) || negb (String.eqb (stage (vr_Stages receipt) "resolve") ResultPass)
     || Nat.eqb (length (vr_ResolvedPackages receipt)) 0
  then [] else parseVerifiedPURLs (vr_ResolvedPackages receipt).

Definition receiptPackageSetKey (packages : list PURL) : string := Join (map purl_String packages) (single nul).

Definition receiptsForPackageSet (receipts : list VerificationReceipt) (packages : list PURL) :
    list VerificationReceipt :=
  let want := receiptPackageSetKey packages in
  List.filter (fun receipt => let resolved := verifiedPURLsFromReceipt receipt in
    negb (Nat.eqb (length resolved) 0) && String.eqb (receiptPackageSetKey resolved) want) receipts.
