(* ===== verification/Select.v ===== *)
(** * Selecting the execution that is graded (internal/search/engine.go)

    A sample may have been verified several times, with different resolved
    packages, in different environments.  The engine grades one of those
    executions and never combines two.  It renders
    and reads times through [GoTime]. *)

From stdpp Require Import gmap.
From S2P Require Import Prelude GoStrings GoUnicode GoStd StringFacts UnicodeFacts WordFacts Hash Json.
From S2P Require Import Purl Env Failure CliSubject Experience Search Anomaly Relevance Grade Candidate.

(** ** Claims about packages *)

Definition packageIdentityKey (p : PURL) : string :=
  ToLower (purl_Ecosystem p) +:+ single nul +:+ ToLower (purl_Name p).

Definition claim_key (c : packageClaim) : string := packageIdentityKey (claim_purl c).

(** [out[i] = claim] at the index recorded for the key; [None] when the key
    has no index.  The key of [out[i]] is the key it was recorded under. *)
Fixpoint set_claim (key : string) (new : packageClaim) (out : list packageClaim) : option (list packageClaim) :=
  match out with
  | [] => None
  | c :: rest => if String.eqb (claim_key c) key then Some (new :: rest) else option_map (cons c) (set_claim key new rest)
  end.

Fixpoint base_claims (out : list packageClaim) (base : list PURL) : list packageClaim :=
  match base with
  | [] => out
  | p :: rest =>
      if str_in (packageIdentityKey p) (map claim_key out) then base_claims out rest
      else base_claims (out ++ [mkClaim p false]) rest
  end.

Fixpoint verified_claims (out : list packageClaim) (verified : list PURL) : list packageClaim :=
  match verified with
  | [] => out
  | p :: rest =>
      match set_claim (packageIdentityKey p) (mkClaim p true) out with
      | Some out' => verified_claims out' rest
      | None => verified_claims (out ++ [mkClaim p true]) rest
      end
  end.

Definition packageClaimsForVariant (c : candidate) (verified : list PURL) : list packageClaim :=
  let base := match cand_declared c with [] => cand_packages c | declared => declared end in
  verified_claims (base_claims [] base) verified.

Definition unknownPackageClaims (c : candidate) : list packageClaim := packageClaimsForVariant c [].

Definition packageClaimKey (claims : list packageClaim) : string :=
  Join (map (fun c => purl_String (claim_purl c) +:+ single nul +:+ (if claim_versionKnown c then "1" else "0")) claims)
    (single (chr 1)).

Definition claim_rel (rp : PURL) (c : packageClaim) : pkgRel :=
  if claim_versionKnown c && negb (String.eqb (purl_Version rp) "") then version_rel rp (claim_purl c)
  else relPackageOnly.

Definition packageRelationClaims (reqPkgs : list PURL) (claims : list packageClaim) : pkgRel * PURL * PURL :=
  let samP := match claims with c :: _ => claim_purl c | [] => purl_zero end in
  match reqPkgs with
  | [] => (relUnspecified, purl_zero, samP)
  | reqP :: _ =>
      match worst_pair claim_rel None (package_pairs claim_purl reqPkgs claims) with
      | None => (relNone, reqP, samP)
      | Some (r, (rp, c)) => (r, rp, claim_purl c)
      end
  end.

(** ** Variants from shards *)

(** [map[string]string] as canonical JSON. *)
Definition stages_json (stages : gmap string string) : json :=
  JObj (map (fun kv => (fst kv, JStr (snd kv))) (map_to_list stages)).

Definition verificationKey `{!GoTime} (v : verificationVariant) : string :=
  receiptPackageSetKey (vv_packages v) +:+ single nul +:+ env_Hash (env_Normalize (vv_env v)) +:+ single nul
  +:+ CanonicalJSON (stages_json (vv_stages v)) +:+ single nul +:+ time_Format (vv_created v).

Definition set_key (k : string) (v : verificationVariant) : verificationVariant :=
  mkVariant k (vv_packages v) (vv_env v) (vv_stages v) (vv_level v) (vv_created v) (vv_receipt v).
Definition set_level (l : Z) (v : verificationVariant) : verificationVariant :=
  mkVariant (vv_key v) (vv_packages v) (vv_env v) (vv_stages v) l (vv_created v) (vv_receipt v).

Definition remember_key `{!GoTime} (v : verificationVariant) : verificationVariant :=
  if String.eqb (vv_key v) "" then set_key (verificationKey v) v else v.

Fixpoint append_loop `{!GoTime} (add : verificationVariant) (l : list verificationVariant) : list verificationVariant :=
  match l with
  | [] => [add]
  | v :: rest =>
      let v := remember_key v in
      if String.eqb (vv_key v) (vv_key add)
      then (if vv_level v <? vv_level add then set_level (vv_level add) v else v) :: rest
      else v :: append_loop add rest
  end.

Definition appendVerification `{!GoTime} (l : list verificationVariant) (add : verificationVariant) :
    list verificationVariant := append_loop (remember_key add) l.

(** The level a shard may claim for an entry. *)
Definition shard_level (entry : shardVerificationEntry) : Z :=
  let level := sve_VerificationLevel entry in
  if negb (String.eqb (stage (sve_Stages entry) "contract") ResultPass) then 0
  else if level <? 3 then 3 else if 4 <? level then 4 else level.

Definition shard_step `{!GoTime} (out : list verificationVariant) (entry : shardVerificationEntry) :
    list verificationVariant :=
  if negb (String.eqb (stage (sve_Stages entry) "resolve") ResultPass) then out
  else match parseVerifiedPURLs (sve_ResolvedPackages entry) with
  | [] => out
  | packages => appendVerification out
      (mkVariant "" packages (env_Normalize (sve_Environment entry)) (sve_Stages entry) (shard_level entry)
         (time_Parse (sve_CreatedAt entry)) None)
  end.

Definition variantsFromShard `{!GoTime} (entries : list shardVerificationEntry) : list verificationVariant :=
  fold_left shard_step entries [].

(** ** The selection *)

Record gradeSelection := mkSelection {
  sel_claims : list packageClaim;
  sel_rel : pkgRel;
  sel_reqP : PURL;
  sel_samP : PURL;
  sel_env : EnvironmentFingerprint;
  sel_stages : gmap string string;
  sel_receipts : list VerificationReceipt;
  sel_resolved : list PURL;
  sel_level : Z;
  sel_created : Z
}.

Definition selectedContractPassed (selection : gradeSelection) (failurePackages : list PURL) : bool :=
  if negb (String.eqb (stage (sel_stages selection) "contract") ResultPass)
     || Nat.eqb (length (sel_resolved selection)) 0 then false
  else existsb (fun resolved => existsb (samePackageIdentity resolved) failurePackages) (sel_resolved selection).

Definition stageVerdictRank (stages : gmap string string) : Z :=
  let s := stage stages "contract" in
  if String.eqb s ResultPass then 2 else if String.eqb s ResultFail then 0 else 1.

Section select.
  Context {GT : GoTime}.
  Context (c : candidate) (receipts : list VerificationReceipt) (askedPkgs : list PURL)
    (reqEnv : EnvironmentFingerprint) (environmentInferred : bool) (namedPkgs : list PURL).

Definition selectionEnvironmentRank (s : gradeSelection) : Z :=
  let ecosystem := ecosystemOf (sel_samP s) reqEnv c in
  let asked := envAskedAboutNamed reqEnv ecosystem environmentInferred (callerNamedEcosystem namedPkgs ecosystem) in
  match fst (buildGrade (sel_rel s) (compareEnv asked (sel_env s) ecosystem environmentInferred)
               (compareContext asked (sel_env s)) false) with
  | GradeExact => 4
  | GradeCompatible => 3
  | GradeAdaptationRequired => 2
  | _ => 1
  end.

Definition betterGradeSelection (a b : gradeSelection) : bool :=
  if negb (bool_decide (sel_rel a = sel_rel b)) then rel_rank (sel_rel b) <? rel_rank (sel_rel a)
  else
    let ar := stageVerdictRank (sel_stages a) in
    let br := stageVerdictRank (sel_stages b) in
    if negb (ar =? br) then br <? ar
    else
      let ar := selectionEnvironmentRank a in
      let br := selectionEnvironmentRank b in
      if negb (ar =? br) then br <? ar
      else if negb (sel_level a =? sel_level b) then sel_level b <? sel_level a
      else if negb (sel_created a =? sel_created b) then sel_created b <? sel_created a
      else str_lt (packageClaimKey (sel_claims a)) (packageClaimKey (sel_claims b)).

(** The executions the local receipts establish. *)
Definition receipt_variants : list verificationVariant :=
  flat_map (fun r => match verifiedPURLsFromReceipt r with
    | [] => []
    | packages => [mkVariant "" packages (env_Normalize (vr_Environment r)) (vr_Stages r) 0
                     (time_Parse (vr_CreatedAt r)) (Some r)]
    end) receipts.

Definition all_variants : list verificationVariant := cand_verifications c ++ receipt_variants.

Definition variant_selection (v : verificationVariant) : gradeSelection :=
  let claims := packageClaimsForVariant c (vv_packages v) in
  let '(rel, reqP, samP) := packageRelationClaims askedPkgs claims in
  let matching := receiptsForPackageSet receipts (vv_packages v) in
  let localLevel := verificationLevel "" (vv_stages v) matching in
  let level := if vv_level v <? localLevel then localLevel else vv_level v in
  mkSelection claims rel reqP samP (env_Normalize (vv_env v)) (vv_stages v) matching (vv_packages v) level
    (vv_created v).

(** A sample without a verified execution is graded by name only. *)
Definition unverified_selection : gradeSelection :=
  let claims := unknownPackageClaims c in
  let '(rel, reqP, samP) := packageRelationClaims askedPkgs claims in
  mkSelection claims rel reqP samP (cand_env c) (cand_contractStages c) receipts []
    (verificationLevel (cand_status c) (cand_contractStages c) receipts) time_zero.

Fixpoint best_selection (best : gradeSelection) (variants : list verificationVariant) : gradeSelection :=
  match variants with
  | [] => best
  | v :: rest =>
      let s := variant_selection v in
      best_selection (if betterGradeSelection s best then s else best) rest
  end.

Definition selectGradeVariantWithProvenance : gradeSelection :=
  match all_variants with
  | [] => unverified_selection
  | v :: rest => best_selection (variant_selection v) rest
  end.
End select.

Definition selectGradeVariant `{!GoTime} (c : candidate) (receipts : list VerificationReceipt) (askedPkgs : list PURL)
    (reqEnv : EnvironmentFingerprint) : gradeSelection :=
  selectGradeVariantWithProvenance c receipts askedPkgs reqEnv false askedPkgs.

(** ** The order of selections *)

Lemma rel_rank_inj a b : rel_rank a = rel_rank b -> a = b.
Proof. by destruct a, b. Qed.

Section order.
  Context (c : candidate) (reqEnv : EnvironmentFingerprint) (inferred : bool) (namedPkgs : list PURL).

Definition cmp_down (f : gradeSelection -> Z) : gradeSelection -> gradeSelection -> Z := cmp_flip (cmp_on f cmp_Z).

(** Relation, contract verdict, environment fit, level and date, each the
    higher the better, then the claims as text. *)
Definition cmp_selection : gradeSelection -> gradeSelection -> Z :=
    cmp_then (cmp_down (fun s => rel_rank (sel_rel s)))
   (cmp_then (cmp_down (fun s => stageVerdictRank (sel_stages s)))
   (cmp_then (cmp_down (selectionEnvironmentRank c reqEnv inferred namedPkgs))
   (cmp_then (cmp_down sel_level)
   (cmp_then (cmp_down sel_created)
             (cmp_on (fun s => packageClaimKey (sel_claims s)) str_cmp))))).

#[export] Instance cmp_selection_order : CmpOrder cmp_selection.
  Proof. unfold cmp_selection, cmp_down. apply _. Qed.

Lemma cmp_down_case f (k : gradeSelection -> gradeSelection -> Z) a b :
    (cmp_then (cmp_down f) k a b <? 0) = if negb (f a =? f b) then f b <? f a else k a b <? 0.
  Proof.
    unfold cmp_then, cmp_down, cmp_flip, cmp_on, cmp_Z.
    destruct (Z.eqb_spec (f a) (f b)) as [->|N]; cbn; [by rewrite Z.ltb_irrefl|].
    destruct (Z.ltb_spec (f b) (f a)), (Z.ltb_spec (f a) (f b)); cbn; try done; lia.
  Qed.

Lemma better_cmp a b : betterGradeSelection c reqEnv inferred namedPkgs a b = (cmp_selection a b <? 0).
  Proof.
    unfold betterGradeSelection, cmp_selection. rewrite cmp_down_case.
    assert (E : bool_decide (sel_rel a = sel_rel b) = (rel_rank (sel_rel a) =? rel_rank (sel_rel b))).
    { apply eq_true_iff_eq. rewrite bool_decide_eq_true, Z.eqb_eq. split; [congruence|apply rel_rank_inj]. }
    rewrite E. cbv zeta. rewrite !cmp_down_case. done.
  Qed.
End order.

Section select_laws.
  Context {GT : GoTime}.
  Context (c : candidate) (receipts : list VerificationReceipt) (askedPkgs : list PURL)
    (reqEnv : EnvironmentFingerprint) (inferred : bool) (namedPkgs : list PURL).

#[local] Notation cmp := (cmp_selection c reqEnv inferred namedPkgs).
#[local] Notation of_variant := (variant_selection c receipts askedPkgs).

Lemma best_selection_spec best variants :
    let r := best_selection c receipts askedPkgs reqEnv inferred namedPkgs best variants in
    (r = best \/ exists v, In v variants /\ r = of_variant v)
    /\ cmp r best <= 0 /\ forall v, In v variants -> cmp r (of_variant v) <= 0.
  Proof.
    cbv zeta. revert best. induction variants as [|v rest IH]; intros best; cbn [best_selection].
    - split; [by left|]. split; [by rewrite cmp_refl|done].
    - set (s := of_variant v). set (b := if betterGradeSelection _ _ _ _ s best then s else best).
      assert (B : (b = best \/ b = s) /\ cmp b best <= 0 /\ cmp b s <= 0).
      { unfold b. rewrite better_cmp. destruct (Z.ltb_spec (cmp s best) 0).
        - rewrite cmp_refl. split; [by right|lia].
        - rewrite cmp_refl. pose proof (cmp_antisym (cmp := cmp) s best). split; [by left|lia]. }
      destruct B as (B & B1 & B2). destruct (IH b) as (I & I1 & I2). split; [|split].
      + destruct I as [->|(w & Iw & ->)]; [|right; exists w; split; [by right|done]].
        destruct B as [->| ->]; [by left|right; exists v; split; [by left|done]].
      + by eapply cmp_trans.
      + intros w [<-|Iw]; [by eapply cmp_trans|by apply I2].
  Qed.

(** The selection when there is an execution to select. *)
Lemma selection_spec :
    let r := selectGradeVariantWithProvenance c receipts askedPkgs reqEnv inferred namedPkgs in
    (all_variants c receipts = [] /\ r = unverified_selection c receipts askedPkgs)
    \/ exists v, In v (all_variants c receipts) /\ r = of_variant v
         /\ forall w, In w (all_variants c receipts) -> cmp r (of_variant w) <= 0.
  Proof.
    cbv zeta. unfold selectGradeVariantWithProvenance. destruct (all_variants c receipts) as [|v rest]; [by left|right].
    destruct (best_selection_spec (of_variant v) rest) as (I & B & M).
    destruct I as [E|(w & Iw & E)]; [exists v|exists w]; rewrite E in *; (split; [by constructor|split; [done|]]);
      intros u [<-|Iu]; auto.
  Qed.
End select_laws.

(** ** Claims *)

Lemma set_claim_spec key new out :
  match set_claim key new out with
  | None => ~ In key (map claim_key out)
  | Some out' => exists a old b, out = (a ++ old :: b)%list /\ out' = (a ++ new :: b)%list /\ claim_key old = key
  end.
Proof.
  induction out as [|c out IH]; [by intros []|]. cbn [set_claim]. destruct (String.eqb_spec (claim_key c) key) as [E|N].
  - by exists [], c, out.
  - destruct (set_claim key new out) as [out'|]; cbn.
    + destruct IH as (a & old & b & -> & -> & E). by exists (c :: a), old, b.
    + by intros [|].
Qed.

(** What a list of claims may say: identities are distinct, a known version
    was verified, an unknown one declared, and every package given so far is
    covered. *)
Definition claims_ok (base verified : list PURL) (out : list packageClaim) : Prop :=
  List.NoDup (map claim_key out)
  /\ (forall c, In c out -> if claim_versionKnown c then In (claim_purl c) verified else In (claim_purl c) base)
  /\ (forall p, In p base \/ In p verified -> In (packageIdentityKey p) (map claim_key out))
  /\ (forall p, In p verified -> exists c, In c out /\ claim_key c = packageIdentityKey p /\ claim_versionKnown c = true).

Lemma NoDup_snoc {A} (l : list A) x : List.NoDup l -> ~ In x l -> List.NoDup (l ++ [x]).
Proof.
  intros N I. apply (Permutation_NoDup (l := x :: l)); [|by constructor].
  apply Permutation_cons_append.
Qed.

Lemma base_claims_ok done_ base out : claims_ok done_ [] out -> claims_ok (done_ ++ base) [] (base_claims out base).
Proof.
  revert done_ out. induction base as [|p base IH]; intros dn out H; cbn [base_claims]; [by rewrite app_nil_r|].
  rewrite cons_middle, app_assoc. destruct H as (N & K & C & V).
  destruct (str_in _ _) eqn:E; apply IH; (split; [|split; [|split]]); try done.
  - intros c Ic. specialize (K c Ic). destruct (claim_versionKnown c); [done|]. apply in_app_iff. by left.
  - intros q [[Iq|[<-|[]]]%in_app_iff|[]]; [by apply C; left|by apply str_in_In].
  - rewrite map_app. apply NoDup_snoc; [done|]. change (claim_key (mkClaim p false)) with (packageIdentityKey p).
    rewrite <- str_in_In. by rewrite E.
  - intros c [Ic|[<-|[]]]%in_app_iff; [|cbn; apply in_app_iff; right; by left].
    specialize (K c Ic). destruct (claim_versionKnown c); [done|]. apply in_app_iff. by left.
  - intros q [[Iq|[<-|[]]]%in_app_iff|[]]; rewrite map_app, in_app_iff; [left; apply C; by left|right; by left].
Qed.

Lemma verified_claims_ok base done_ verified out : claims_ok base done_ out ->
  claims_ok base (done_ ++ verified) (verified_claims out verified).
Proof.
  revert done_ out. induction verified as [|p verified IH]; intros dn out H; cbn [verified_claims]; [by rewrite app_nil_r|].
  rewrite cons_middle, app_assoc. pose proof (set_claim_spec (packageIdentityKey p) (mkClaim p true) out) as S.
  set (new := mkClaim p true) in *. assert (Ek : claim_key new = packageIdentityKey p) by done.
  destruct H as (N & K & C & V). destruct (set_claim _ _ _) as [out'|]; apply IH.
  - destruct S as (a & old & b & -> & -> & Ko).
    assert (M : map claim_key (a ++ new :: b) = map claim_key (a ++ old :: b)) by (by rewrite !map_app; cbn; rewrite Ek, Ko).
    assert (I : forall c, In c (a ++ new :: b)%list -> c = new \/ In c (a ++ old :: b)%list).
    { intros c. rewrite !in_app_iff. cbn. intuition. }
    split; [by rewrite M|]. split; [|split].
    + intros c [->|Ic]%I; [cbn; apply in_app_iff; right; by left|]. specialize (K c Ic).
      destruct (claim_versionKnown c); [apply in_app_iff; by left|done].
    + intros q Hq. rewrite M. destruct Hq as [Iq|[Iq|[<-|[]]]%in_app_iff]; [by apply C; left|by apply C; right|].
      rewrite map_app, in_app_iff. right. left. done.
    + intros q [Iq|[<-|[]]]%in_app_iff; [|exists new; split; [apply in_app_iff; right; by left|done]].
      destruct (V q Iq) as (c & Ic & Ec & Kc). destruct (decide (claim_key c = packageIdentityKey p)) as [Ep|Np].
      * exists new. split; [apply in_app_iff; right; by left|]. split; [congruence|done].
      * exists c. split; [|done]. rewrite in_app_iff in Ic |- *. cbn in *. destruct Ic as [|[<-|]]; [by left|congruence|by right; right].
  - split; [|split; [|split]].
    + rewrite map_app. apply NoDup_snoc; [done|]. by rewrite Ek.
    + intros c [Ic|[<-|[]]]%in_app_iff; [|cbn; apply in_app_iff; right; by left].
      specialize (K c Ic). destruct (claim_versionKnown c); [apply in_app_iff; by left|done].
    + intros q Hq. rewrite map_app, in_app_iff.
      destruct Hq as [Iq|[Iq|[<-|[]]]%in_app_iff]; [left; apply C; by left|left; apply C; by right|right; by left].
    + intros q [Iq|[<-|[]]]%in_app_iff; [|exists new; split; [apply in_app_iff; right; by left|done]].
      destruct (V q Iq) as (c & Ic & R). exists c. split; [apply in_app_iff; by left|done].
Qed.

Definition declared_base (c : candidate) : list PURL :=
  match cand_declared c with [] => cand_packages c | declared => declared end.

Lemma claims_for_variant_ok c verified : claims_ok (declared_base c) verified (packageClaimsForVariant c verified).
Proof.
  unfold packageClaimsForVariant, declared_base. set (base := match cand_declared c with [] => _ | _ => _ end).
  apply (verified_claims_ok base []). apply (base_claims_ok [] base). split; [constructor|]. split; [done|].
  split; [by intros p [[]|[]]|done].
Qed.

(** ** Where a verified package list comes from *)

Lemma verified_purls_spec prev raw ps : verified_purls prev raw = Some ps ->
  map purl_String ps = raw /\ Forall (fun p => ConcreteResolvedVersion (purl_Version p) = true) ps
  /\ Sorted (fun a b => str_lt a b = true) (match prev with Some q => q :: raw | None => raw end).
Proof.
  revert prev ps. induction raw as [|v raw IH]; intros prev ps; cbn [verified_purls].
  - intros [= <-]. destruct prev; repeat constructor.
  - destruct (ParsePURL v) as [p|]; [|done]. destruct (_ || _ || _) eqn:E; [done|].
    destruct (verified_purls (Some v) raw) as [ps'|] eqn:V; [|done]. intros [= <-].
    destruct (IH _ _ V) as (M & F & S). apply orb_false_iff in E as [E P]. bool_facts.
    split; [cbn; by f_equal|]. split; [by constructor|]. destruct prev as [q|]; [|done].
    constructor; [done|]. constructor. by apply negb_false_iff.
Qed.

(** All or nothing: a list that establishes anything is rendered back entry
    for entry, has concrete versions and is strictly increasing. *)
Lemma parseVerifiedPURLs_spec raw : parseVerifiedPURLs raw <> [] ->
  map purl_String (parseVerifiedPURLs raw) = raw
  /\ Forall (fun p => ConcreteResolvedVersion (purl_Version p) = true) (parseVerifiedPURLs raw)
  /\ Sorted (fun a b => str_lt a b = true) raw.
Proof.
  unfold parseVerifiedPURLs. destruct (verified_purls None raw) as [ps|] eqn:V; [|done]. intros _.
  apply (verified_purls_spec _ _ _ V).
Qed.

(** A signed list [raw], of an execution with these stages, that resolved [p]. *)
Definition resolved_by (raw : list string) (stages : gmap string string) (p : PURL) : Prop :=
  stage stages "resolve" = ResultPass /\ In (purl_String p) raw
  /\ ConcreteResolvedVersion (purl_Version p) = true.

Lemma parsed_resolved_by raw stages p : stage stages "resolve" = ResultPass -> In p (parseVerifiedPURLs raw) ->
  resolved_by raw stages p.
Proof.
  intros R I. destruct (parseVerifiedPURLs_spec raw) as (M & F & _); [by destruct (parseVerifiedPURLs raw)|].
  split; [done|]. split; [rewrite <- M; by apply in_map|]. rewrite List.Forall_forall in F. by apply F.
Qed.

Section sources.
  Context {GT : GoTime}.

(** A variant and the shard entry it stands for. *)
Definition from_entry (v : verificationVariant) (e : shardVerificationEntry) : Prop :=
    vv_packages v = parseVerifiedPURLs (sve_ResolvedPackages e) /\ vv_stages v = sve_Stages e
    /\ vv_env v = env_Normalize (sve_Environment e) /\ stage (sve_Stages e) "resolve" = ResultPass.

Lemma append_loop_from add l v : In v (append_loop add l) ->
    exists w, In w (add :: l) /\ vv_packages v = vv_packages w /\ vv_stages v = vv_stages w /\ vv_env v = vv_env w.
  Proof.
    assert (R : forall w, vv_packages (remember_key w) = vv_packages w /\ vv_stages (remember_key w) = vv_stages w
      /\ vv_env (remember_key w) = vv_env w) by (intros w; unfold remember_key; by destruct (String.eqb _ _)).
    induction l as [|w l IH]; cbn [append_loop]; [eauto|].
    destruct (String.eqb _ _).
    - intros [<-|I]; [exists w|exists v]; [|cbn; auto]. split; [cbn; auto|]. destruct (_ <? _); apply R.
    - intros [<-|I]; [exists w; split; [cbn; auto|apply R]|].
      destruct (IH I) as (u & [<-|Iu] & E); [exists add|exists u]; cbn; auto.
  Qed.

Lemma variantsFromShard_from entries v : In v (variantsFromShard entries) ->
    exists e, In e entries /\ from_entry v e.
  Proof.
    unfold variantsFromShard. assert (G : forall l out,
      (forall w, In w out -> exists e, In e l /\ from_entry w e) ->
      forall w, In w (fold_left shard_step entries out) -> exists e, In e (l ++ entries)%list /\ from_entry w e).
    { induction entries as [|e es IH]; intros l out H; cbn [fold_left]; [by rewrite app_nil_r|].
      rewrite cons_middle, app_assoc. apply IH. intros w Iw.
      assert (Old : In w out -> exists e', In e' (l ++ [e])%list /\ from_entry w e').
      { intros I. destruct (H w I) as (e' & Ie & F). exists e'. split; [apply in_app_iff; by left|done]. }
      unfold shard_step in Iw. destruct (String.eqb_spec (stage (sve_Stages e) "resolve") ResultPass) as [R|]; [|by apply Old].
      cbn in Iw. destruct (parseVerifiedPURLs (sve_ResolvedPackages e)) as [|p ps] eqn:P; [by apply Old|].
      unfold appendVerification in Iw. apply append_loop_from in Iw as (u & [<-|Iu] & E1 & E2 & E3).
      - exists e. split; [apply in_app_iff; right; by left|]. unfold from_entry. rewrite E1, E2, E3, P.
        unfold remember_key. by destruct (String.eqb _ _).
      - destruct (H u Iu) as (e' & Ie & F). exists e'. split; [apply in_app_iff; by left|].
        unfold from_entry in *. by rewrite E1, E2, E3. }
    apply (G [] []). done.
  Qed.

Lemma receipt_variants_from receipts v : In v (receipt_variants receipts) ->
    exists r, In r receipts /\ vv_packages v = parseVerifiedPURLs (vr_ResolvedPackages r) /\ vv_stages v = vr_Stages r
      /\ vv_env v = env_Normalize (vr_Environment r) /\ vr_SchemaVersion r = 2 /\ stage (vr_Stages r) "resolve" = ResultPass.
  Proof.
    unfold receipt_variants. rewrite in_flat_map. intros (r & Ir & I). exists r. split; [done|].
    unfold verifiedPURLsFromReceipt in I. destruct (_ || _ || _) eqn:G; [done|]. bool_facts.
    destruct (parseVerifiedPURLs (vr_ResolvedPackages r)) as [|p ps]; [done|]. destruct I as [<-|[]]. done.
  Qed.
End sources.

(** ** The claims of a selection *)

Lemma variant_selection_fields c receipts asked v :
  let s := variant_selection c receipts asked v in
  sel_claims s = packageClaimsForVariant c (vv_packages v) /\ sel_env s = env_Normalize (vv_env v)
  /\ sel_stages s = vv_stages v /\ sel_resolved s = vv_packages v /\ sel_created s = vv_created v
  /\ sel_receipts s = receiptsForPackageSet receipts (vv_packages v)
  /\ (sel_rel s, sel_reqP s, sel_samP s) = packageRelationClaims asked (sel_claims s).
Proof.
  cbv zeta. unfold variant_selection.
  destruct (packageRelationClaims asked (packageClaimsForVariant c (vv_packages v))) as [[rel rp] sp] eqn:P.
  cbn. by rewrite P.
Qed.

Lemma unverified_selection_fields {GT : GoTime} c receipts asked :
  let s := unverified_selection c receipts asked in
  sel_claims s = packageClaimsForVariant c [] /\ sel_resolved s = []
  /\ (sel_rel s, sel_reqP s, sel_samP s) = packageRelationClaims asked (sel_claims s).
Proof.
  cbv zeta. unfold unverified_selection, unknownPackageClaims.
  destruct (packageRelationClaims asked (packageClaimsForVariant c [])) as [[rel rp] sp] eqn:P.
  cbn [sel_claims sel_resolved sel_rel sel_reqP sel_samP]. by rewrite P.
Qed.

(** A relation between versions comes from a claim whose version is known,
    about a package both sides share, and is the worst among those shared. *)
Lemma packageRelationClaims_version asked claims rel rp sp :
  packageRelationClaims asked claims = (rel, rp, sp) -> rel_rank relNone < rel_rank rel -> rel <> relPackageOnly ->
  In rp asked /\ In (mkClaim sp true) claims /\ same_package rp sp = true /\ rel = version_rel rp sp
  /\ forall rp' c', In rp' asked -> In c' claims -> same_package rp' (claim_purl c') = true ->
       rel_rank rel <= rel_rank (claim_rel rp' c').
Proof.
  unfold packageRelationClaims. destruct asked as [|p0 asked]; [by intros [= <- <- <-]|].
  pose proof (worst_pair_spec claim_rel None (package_pairs claim_purl (p0 :: asked) claims)) as W.
  destruct (worst_pair _ _ _) as [[r [a k]]|]; [|by intros [= <- <- <-]].
  intros [= -> -> <-] _ N. destruct W as ([|[I R]] & _ & M); [done|].
  apply package_pairs_In in I as (Ia & Ik & Sk). cbn [fst snd] in R. unfold claim_rel in R.
  destruct (claim_versionKnown k && _) eqn:K; [|done]. apply andb_true_iff in K as [K _].
  assert (E : k = mkClaim (claim_purl k) true) by (destruct k; cbn in *; by subst).
  split; [done|]. split; [by rewrite <- E|]. split; [done|]. split; [done|].
  intros rp' c' Hr Hc Hs. apply (M (rp', c')). by apply package_pairs_In.
Qed.

(** C5.  One real execution is graded.  When the sample has none, nothing is
    resolved and no version is known.  Otherwise packages, stages,
    environment and date all come from one variant, only receipts for that
    very package set are counted, each claimed identity appears once and its
    version is known only if that variant resolved it, and no other variant
    is better. *)
Theorem selection_is_one_execution {GT : GoTime} c receipts asked reqEnv inferred named :
  let s := selectGradeVariantWithProvenance c receipts asked reqEnv inferred named in
  let known p := In (mkClaim p true) (sel_claims s) in
  List.NoDup (map claim_key (sel_claims s))
  /\ ((all_variants c receipts = [] /\ sel_resolved s = [] /\ forall p, ~ known p)
      \/ exists v, In v (all_variants c receipts)
           /\ sel_resolved s = vv_packages v /\ sel_stages s = vv_stages v
           /\ sel_env s = env_Normalize (vv_env v) /\ sel_created s = vv_created v
           /\ (forall r, In r (sel_receipts s) <-> In r receipts /\ verifiedPURLsFromReceipt r <> []
                 /\ receiptPackageSetKey (verifiedPURLsFromReceipt r) = receiptPackageSetKey (vv_packages v))
           /\ (forall p, known p -> In p (vv_packages v))
           /\ forall w, In w (all_variants c receipts) ->
                betterGradeSelection c reqEnv inferred named (variant_selection c receipts asked w) s = false).
Proof.
  cbv zeta. destruct (selection_spec c receipts asked reqEnv inferred named) as [[E ->]|(v & Iv & E & M)].
  - destruct (unverified_selection_fields c receipts asked) as (C & R & _). rewrite C.
    destruct (claims_for_variant_ok c []) as (N & K & _). split; [done|]. left. split; [done|]. split; [done|].
    intros p I. apply (K _ I).
  - rewrite E in *. destruct (variant_selection_fields c receipts asked v) as (C & En & S & R & D & Rc & _).
    rewrite C. destruct (claims_for_variant_ok c (vv_packages v)) as (N & K & _). split; [done|]. right. exists v.
    repeat (split; [done|]). split; [|split].
    + intros r. rewrite Rc. unfold receiptsForPackageSet. rewrite List.filter_In, andb_true_iff, negb_true_iff, String.eqb_eq.
      assert (L : Nat.eqb (length (verifiedPURLsFromReceipt r)) 0 = false <-> verifiedPURLsFromReceipt r <> [])
        by (by destruct (verifiedPURLsFromReceipt r)).
      by rewrite L.
    + intros p I. apply (K _ I).
    + intros w Iw. rewrite better_cmp. apply Z.ltb_ge. rewrite (cmp_antisym _ (variant_selection _ _ _ w)).
      specialize (M w Iw). lia.
Qed.

(** A version is never borrowed.  When the selected relation compares
    versions (exact, same minor, same major or different major), the caller
    asked for that package, and the very package it is compared with is in
    the resolved list of one receipt of schema 2 or one shard entry whose
    resolve stage passed and whose stages are the ones that are graded. *)
Theorem version_relation_is_verified {GT : GoTime} c entries receipts asked reqEnv inferred named :
  let s := selectGradeVariantWithProvenance c receipts asked reqEnv inferred named in
  (forall v, In v (cand_verifications c) -> exists e, In e entries /\ from_entry v e) ->
  rel_rank relNone < rel_rank (sel_rel s) -> sel_rel s <> relPackageOnly ->
  In (sel_reqP s) asked /\ same_package (sel_reqP s) (sel_samP s) = true
  /\ sel_rel s = version_rel (sel_reqP s) (sel_samP s)
  /\ ((exists r, In r receipts /\ vr_SchemaVersion r = 2 /\ vr_Stages r = sel_stages s
          /\ resolved_by (vr_ResolvedPackages r) (sel_stages s) (sel_samP s))
      \/ exists e, In e entries /\ sve_Stages e = sel_stages s
          /\ resolved_by (sve_ResolvedPackages e) (sel_stages s) (sel_samP s)).
Proof.
  cbv zeta. intros Hs Hr Hp. destruct (selection_spec c receipts asked reqEnv inferred named) as [[E R]|(v & Iv & R & _)];
    rewrite R in *.
  - destruct (unverified_selection_fields c receipts asked) as (C & _ & P). rewrite C in P. symmetry in P.
    apply packageRelationClaims_version in P as (_ & I & _); [|done..].
    destruct (claims_for_variant_ok c []) as (_ & K & _). by destruct (K _ I).
  - destruct (variant_selection_fields c receipts asked v) as (C & _ & S & _ & _ & _ & P). rewrite C in P. symmetry in P.
    apply packageRelationClaims_version in P as (Ia & I & Sp & V & _); [|done..].
    destruct (claims_for_variant_ok c (vv_packages v)) as (_ & K & _). specialize (K _ I). cbn in K.
    repeat (split; [done|]). rewrite S. unfold all_variants in Iv. apply in_app_iff in Iv as [Iv|Iv].
    + right. destruct (Hs v Iv) as (e & Ie & Ep & Es & _ & Er).
      exists e. split; [done|]. split; [done|]. rewrite Es. rewrite Ep in K. by apply parsed_resolved_by.
    + left. apply receipt_variants_from in Iv as (r & Ir & Ep & Es & _ & E2 & Er).
      exists r. rewrite Es. split; [done|]. split; [done|]. split; [done|]. rewrite Ep in K. by apply parsed_resolved_by.
Qed.

(** ** An example: two executions of one sample *)

Definition time_example : GoTime :=
  {| time_zero := 0; time_Parse := str_len; time_Format := Itoa |}.

Definition receipt_at (versions : list string) (contract : string) : VerificationReceipt :=
  mkReceipt 2 "" "" "" env_example (<["resolve" := "PASS"]> (<["contract" := contract]> ∅)) ∅ versions None "" "" ""
    "2026-01-01T00:00:00Z" "" "" "".

Definition candidate_example : candidate :=
  mkCandidate "s" "" None env_example [mkPURL "npm" "axios" "1.12.0"] [mkPURL "npm" "axios" "1.12.0"] [] [] 0 ∅.

Definition receipts_example : list VerificationReceipt :=
  [receipt_at ["pkg:npm/axios@1.19.0"] "PASS"; receipt_at ["pkg:npm/axios@1.12.3"] "PASS"].

(** The sample declares 1.12.0, but only 1.12.3 and 1.19.0 were run. *)
Lemma version_relation_is_verified_witness :
  let s := selectGradeVariantWithProvenance (GT := time_example) candidate_example receipts_example
             [mkPURL "npm" "axios" "1.12.0"] env_example false [] in
  sel_rel s = relMajorMinor /\ sel_rel s = version_rel (sel_reqP s) (sel_samP s).
Proof.
  cbv zeta. split; [vm_compute; reflexivity|].
  apply (version_relation_is_verified (GT := time_example) candidate_example [] receipts_example
           [mkPURL "npm" "axios" "1.12.0"] env_example false []); [intros v []|vm_compute; reflexivity|vm_compute; discriminate].
Defined.
