(* ===== verification/Corpus.v ===== *)
(** * The corpus of candidates (internal/search/engine.go, [loadCorpus])

    Local samples and cached shards are merged into one table of candidates
    and one table of package evidence.  The inputs are the decoded rows: a
    manifest or shard that does not decode is skipped by the code. *)

From stdpp Require Import gmap.
From S2P Require Import Prelude GoStrings GoUnicode GoStd StringFacts UnicodeFacts WordFacts Hash Json.
From S2P Require Import Float Purl Env Failure CliSubject Experience Search Anomaly Relevance Grade Candidate Select.

Record shardSampleEntry := mkSampleEntry {
  ss_SampleID : string;
  ss_Goal : string;
  ss_Status : string;
  ss_License : string;
  ss_Packages : list string;
  ss_Symbols : list string;
  ss_Verifications : list shardVerificationEntry;
  ss_Environment : EnvironmentFingerprint;
  ss_ContractStages : gmap string string;
  ss_Contract : list string;
  ss_Believed : string
}.

Record shardPackage := mkShardPackage {
  sp_PURL : string;
  sp_Symbols : list shardSymbolEntry;
  sp_Samples : list shardSampleEntry
}.

Record shardFile := mkShardFile {
  sfile_SchemaVersion : Z;
  sfile_Key : string;
  sfile_GeneratedAt : string;
  sfile_Packages : list shardPackage
}.

(** What is read of a row of the samples table. *)
Record sampleRow := mkRow {
  row_SampleID : string;
  row_Status : string;
  row_CreatedAt : Z;
  row_Case : Case;
  row_nilCasePackages : bool;
  row_nilCaseContract : bool;
  row_Environment : EnvironmentFingerprint;
  row_Symbols : list string;
  row_Packages : list string
}.

Section corpus.
  Context {GT : GoTime}.

(** [if cc.CaseID == "" { cc.CaseID = cc.ComputeID() }] *)
Definition with_CaseID (r : sampleRow) : Case :=
  let c := row_Case r in
  if String.eqb (case_CaseID c) ""
  then mkCase (case_SchemaVersion c) (case_ComputeID (row_nilCasePackages r) (row_nilCaseContract r) c) (case_Kind c)
         (case_Goal c) (case_Packages c) (case_Symbols c) (case_Constraints c) (case_Contract c) (case_Believed c)
  else c.

Definition local_candidate (r : sampleRow) : candidate :=
  let packages := match parsePURLs (row_Packages r) with
    | [] => parsePURLs (case_Packages (row_Case r))
    | ps => ps
    end in
  mkCandidate (row_SampleID r) (row_Status r) (Some (with_CaseID r)) (env_Normalize (row_Environment r)) packages packages
    [] (row_Symbols r) (row_CreatedAt r) ∅.

(** The packages a list of variants resolved, added to those a candidate is
    reachable by. *)
Definition reach (packages : list PURL) (variants : list verificationVariant) : list PURL :=
  fold_left (fun ps v => fold_left appendPURL (vv_packages v) ps) variants packages.

(** A sample the table already has: status, declared packages and symbols
    are completed, executions and reachable packages merged. *)
Definition merge_sample (p : PURL) (ss : shardSampleEntry) (existing : candidate) : candidate :=
  let variants := variantsFromShard (ss_Verifications ss) in
  mkCandidate (cand_sampleID existing)
    (if statusRank (cand_status existing) <? statusRank (ss_Status ss) then ss_Status ss else cand_status existing)
    (cand_caseObj existing) (cand_env existing)
    (appendPURL (reach (cand_packages existing) variants) p)
    (match cand_declared existing with [] => parsePURLs (ss_Packages ss) | ds => ds end)
    (fold_left appendVerification variants (cand_verifications existing))
    (match cand_symbols existing with [] => ss_Symbols ss | sy => sy end)
    (cand_createdAt existing) (cand_contractStages existing).

Definition shard_case (ss : shardSampleEntry) : option Case :=
  if negb (String.eqb (ss_Goal ss) "")
  then Some (mkCase 1 "" "HOW" (ss_Goal ss) (ss_Packages ss) (ss_Symbols ss) ∅ (ss_Contract ss) (ss_Believed ss))
  else None.

Definition shard_candidate (p : PURL) (ss : shardSampleEntry) : candidate :=
  let variants := variantsFromShard (ss_Verifications ss) in
  mkCandidate (ss_SampleID ss) (ss_Status ss) (shard_case ss) (env_Normalize (ss_Environment ss))
    (reach [p] variants) (parsePURLs (ss_Packages ss)) variants (ss_Symbols ss) time_zero (ss_ContractStages ss).

Definition add_sample (p : PURL) (cands : gmap string candidate) (ss : shardSampleEntry) : gmap string candidate :=
  if String.eqb (ss_SampleID ss) "" then cands
  else match cands !! ss_SampleID ss with
  | Some existing => <[ss_SampleID ss := merge_sample p ss existing]> cands
  | None => <[ss_SampleID ss := shard_candidate p ss]> cands
  end.

Definition corpus_state : Type := gmap string candidate * gmap string pkgEvidence.

Definition add_package (st : corpus_state) (sp : shardPackage) : corpus_state :=
  let '(cands, evidence) := st in
  match ParsePURL (sp_PURL sp) with
  | Err _ => st
  | Ok p =>
      let key := pkgKey p in
      let old := match evidence !! key with Some pe => pe_symbols pe | None => [] end in
      (fold_left (add_sample p) (sp_Samples sp) cands,
       <[key := mkPkgEvidence (old ++ sp_Symbols sp)]> evidence)
  end.

Definition add_row (cands : gmap string candidate) (r : sampleRow) : gmap string candidate :=
  <[row_SampleID r := local_candidate r]> cands.

Definition loadCorpus (rows : list sampleRow) (shards : list shardFile) : corpus_state :=
  let cands := fold_left add_row rows ∅ in
  fold_left (fun st s => fold_left add_package (sfile_Packages s) st) shards (cands, ∅).

(** The full-text scores of one query, relative to its best hit.  [hits] are
    the document ids and scores of the index, [None] an index error. *)
Definition ftsScores (query : string) (hits : option (list (string * float64))) (cands : gmap string candidate) :
    option (gmap string float64) :=
  if String.eqb (TrimSpace query) "" then Some ∅
  else match hits with
  | None => None
  | Some hits =>
      let max := fold_left (fun m h => if fltb m (snd h) then snd h else m) hits fzero in
      Some (if fltb fzero max
            then fold_left (fun fts h => let id := sampleIDFromDocID (fst h) in
                   match cands !! id with Some _ => <[id := fdiv (snd h) max]> fts | None => fts end) hits ∅
            else ∅)
  end.

(** ** What every candidate of the corpus satisfies *)

(** All samples the shards list, with the package they are listed under. *)
Definition listed (shards : list shardFile) : list (PURL * shardSampleEntry) :=
  flat_map (fun s => flat_map (fun sp => match ParsePURL (sp_PURL sp) with
    | Ok p => map (pair p) (sp_Samples sp) | Err _ => [] end) (sfile_Packages s)) shards.

(** An entry of the table is about the sample it is filed under, and each of
    its executions is one that a shard published for that sample. *)
Definition grounded (seen : list (PURL * shardSampleEntry)) (id : string) (c : candidate) : Prop :=
  cand_sampleID c = id
  /\ forall v, In v (cand_verifications c) ->
       exists p ss e, In (p, ss) seen /\ ss_SampleID ss = id /\ In e (ss_Verifications ss) /\ from_entry v e.

Lemma from_entry_ext v w e : vv_packages v = vv_packages w -> vv_stages v = vv_stages w -> vv_env v = vv_env w ->
    from_entry w e -> from_entry v e.
  Proof. unfold from_entry. by intros -> -> ->. Qed.

Lemma appendVerification_from l add v : In v (appendVerification l add) ->
    exists w, In w (add :: l) /\ vv_packages v = vv_packages w /\ vv_stages v = vv_stages w /\ vv_env v = vv_env w.
  Proof.
    intros (w & [<-|I] & E)%append_loop_from; [exists add|exists w]; (split; [cbn; auto|]); [|done].
    unfold remember_key in E. by destruct (String.eqb (vv_key add) "").
  Qed.

Lemma append_fold_from variants l v : In v (fold_left appendVerification variants l) ->
    exists w, In w (variants ++ l) /\ vv_packages v = vv_packages w /\ vv_stages v = vv_stages w /\ vv_env v = vv_env w.
  Proof.
    revert l. induction variants as [|a variants IH]; intros l; cbn [fold_left]; [eauto|].
    intros (w & [I|I]%in_app_iff & E1 & E2 & E3)%IH; [exists w; split; [|done]; right; apply in_app_iff; by left|].
    apply appendVerification_from in I as (u & [<-|I] & F1 & F2 & F3); [exists a|exists u];
      (split; [|by rewrite E1, E2, E3]); [by left|right; apply in_app_iff; by right].
  Qed.

Lemma grounded_more seen seen' id c : grounded seen id c -> grounded (seen ++ seen') id c.
  Proof.
    intros [E H]. split; [done|]. intros v I. destruct (H v I) as (p & ss & e & I1 & R).
    exists p, ss, e. split; [apply in_app_iff; by left|done].
  Qed.

Lemma add_sample_grounded seen p ss cands :
    map_Forall (grounded seen) cands -> map_Forall (grounded (seen ++ [(p, ss)])) (add_sample p cands ss).
  Proof.
    intros G. assert (G' : map_Forall (grounded (seen ++ [(p, ss)])) cands)
      by (intros i x Hx; apply grounded_more, (G i x Hx)).
    assert (New : forall v, In v (variantsFromShard (ss_Verifications ss)) -> exists p' ss' e,
      In (p', ss') (seen ++ [(p, ss)])%list /\ ss_SampleID ss' = ss_SampleID ss /\ In e (ss_Verifications ss') /\ from_entry v e).
    { intros v (e & Ie & F)%variantsFromShard_from. exists p, ss, e. split; [|done]. apply in_app_iff. right. by left. }
    unfold add_sample. destruct (String.eqb _ ""); [done|].
    destruct (cands !! ss_SampleID ss) as [existing|] eqn:X; (apply map_Forall_insert_2; [|done]).
    - destruct (G' _ _ X) as [E V]. split; [done|]. cbn [merge_sample cand_verifications].
      intros v (w & [I|I]%in_app_iff & E1 & E2 & E3)%append_fold_from;
        [destruct (New w I) as (p' & ss' & e & R)|destruct (V w I) as (p' & ss' & e & R)];
        exists p', ss', e; destruct R as (R1 & R2 & R3 & R4); eauto using from_entry_ext.
    - split; [done|]. cbn [shard_candidate cand_verifications]. intros v I. by apply New.
  Qed.

Lemma add_samples_grounded seen p sss cands :
    map_Forall (grounded seen) cands -> map_Forall (grounded (seen ++ map (pair p) sss)) (fold_left (add_sample p) sss cands).
  Proof.
    revert seen cands. induction sss as [|ss sss IH]; intros seen cands G; cbn [fold_left map]; [by rewrite app_nil_r|].
    rewrite cons_middle, app_assoc. apply IH. by apply add_sample_grounded.
  Qed.

Definition listed_in (sps : list shardPackage) : list (PURL * shardSampleEntry) :=
    flat_map (fun sp => match ParsePURL (sp_PURL sp) with Ok p => map (pair p) (sp_Samples sp) | Err _ => [] end) sps.

Lemma add_packages_grounded seen sps st :
    map_Forall (grounded seen) (fst st) -> map_Forall (grounded (seen ++ listed_in sps)) (fst (fold_left add_package sps st)).
  Proof.
    revert seen st. induction sps as [|sp sps IH]; intros seen [cands ev] G; cbn [fold_left]; [by rewrite app_nil_r|].
    unfold listed_in. cbn [flat_map]. rewrite app_assoc. apply IH. unfold add_package.
    destruct (ParsePURL (sp_PURL sp)) as [p|]; [|by rewrite app_nil_r]. cbn [fst]. by apply add_samples_grounded.
  Qed.

(** Merging shards keeps executions apart: every execution a candidate of
    the corpus carries is one that a shard published for that very sample,
    with the packages, the stages and the environment it was published with. *)
Theorem corpus_grounded rows shards :
    map_Forall (grounded (listed shards)) (fst (loadCorpus rows shards)).
  Proof.
    unfold loadCorpus. assert (L : forall cands, map_Forall (grounded []) cands ->
      map_Forall (grounded []) (fold_left add_row rows cands)).
    { induction rows as [|r rows' IH]; intros cands G; [done|]. cbn [fold_left]. apply IH.
      unfold add_row. by apply map_Forall_insert_2. }
    specialize (L ∅ (map_Forall_empty _)). revert L. generalize (fold_left add_row rows ∅).
    intros cands L. change (listed shards) with ([] ++ listed shards)%list.
    assert (G : forall seen st, map_Forall (grounded seen) (fst st) -> map_Forall (grounded (seen ++ listed shards))
      (fst (fold_left (fun st s => fold_left add_package (sfile_Packages s) st) shards st))).
    { clear. induction shards as [|s shards IH]; intros seen st G; [by rewrite app_nil_r|]. cbn [fold_left].
      unfold listed. cbn [flat_map]. rewrite app_assoc. apply IH. by apply add_packages_grounded. }
    by apply (G [] (cands, ∅)).
  Qed.
End corpus.

(** The corpus satisfies what grading asks of a candidate's executions. *)
Corollary corpus_entries {GT : GoTime} rows shards id c : fst (loadCorpus rows shards) !! id = Some c ->
  forall v, In v (cand_verifications c) ->
  exists e, In e (flat_map (fun ps => ss_Verifications (snd ps)) (listed shards)) /\ from_entry v e.
Proof.
  intros H v I. destruct (corpus_grounded rows shards id c H) as [_ G]. destruct (G v I) as (p & ss & e & I1 & _ & I2 & F).
  exists e. split; [|done]. apply in_flat_map. by exists (p, ss).
Qed.
