(* ===== verification/Score.v ===== *)
(** * Scoring and answering (internal/search/engine.go and rank.go,
    internal/compatibility/confidence.go)

    The fused score of a candidate, the gates that zero it, the evidence
    summary of a result, and the search itself over a collected corpus.  The
    debug trace and the attached command experience do not change the answer
    and are left out. *)

From stdpp Require Import gmap.
From Stdlib Require Import SpecFloat.
From S2P Require Import Prelude GoStrings GoUnicode GoStd StringFacts UnicodeFacts WordFacts Hash Json.
From S2P Require Import Float Purl Env Failure CliSubject Experience Search Anomaly Relevance Grade Candidate Select Corpus.

(** ** Confidence (confidence.go) *)

Record Sample := mkSample { smp_Class : string; smp_Result : string; smp_Count : Z }.

Record Verdict := mkVerdict {
  vd_Confidence : string;
  vd_PassRate : float64;
  vd_WeightedTotal : float64;
  vd_ElevatedFailure : bool
}.

Definition ClassUsageObservation := "USAGE_OBSERVATION".
Definition ClassAdoptionEvidence := "ADOPTION_EVIDENCE".
Definition ClassSampleVerification := "SAMPLE_VERIFICATION".
Definition ClassRuntimeInstrumentation := "RUNTIME_INSTRUMENTATION".
Definition ClassExecutionFootprint := "EXECUTION_FOOTPRINT".

Definition ClassWeight (c : string) : float64 :=
  if String.eqb c ClassUsageObservation then float_of 1
  else if String.eqb c ClassAdoptionEvidence then float_of 3
  else if str_in c [ClassSampleVerification; ClassRuntimeInstrumentation] then float_of 10
  else if String.eqb c ClassExecutionFootprint then float_of 0
  else float_of 1.

Definition weigh (w : float64 * float64) (s : Sample) : float64 * float64 :=
  let '(wPass, wFail) := w in
  let x := fmul (ClassWeight (smp_Class s)) (float_of (smp_Count s)) in
  if String.eqb (smp_Result s) ResultPass then (fadd wPass x, wFail) else (wPass, fadd wFail x).

Definition Compute (samples : list Sample) (independence : Z) : Verdict :=
  let '(wPass, wFail) := fold_left weigh samples (fzero, fzero) in
  let total := fadd wPass wFail in
  let passRate := if fltb fzero total then fdiv wPass total else fzero in
  let failRate := fsub (float_of 1) passRate in
  let elevated := fleb (float_of 5) total && fleb (hundredths 25) failRate in
  let confidence :=
    if fleb (hundredths 90) passRate && (3 <=? independence) && fleb (float_of 10) total then "HIGH"
    else if fleb (hundredths 75) passRate && (2 <=? independence) && fltb fzero total then "MEDIUM"
    else "LOW" in
  mkVerdict confidence passRate total elevated.

(** ** Weights (rank.go) *)

Definition weightPackageExact := hundredths 45.
Definition weightPackageMajorMinor := hundredths 40.
Definition weightPackageMajor := hundredths 28.
Definition weightPackageMajorDiff := hundredths 10.
Definition weightSymbol := hundredths 20.
Definition weightErrorFingerprint := hundredths 60.
Definition weightErrorCode := hundredths 30.
Definition weightFTS := hundredths 30.
Definition weightIntent := hundredths 15.
Definition weightNamedSubject := hundredths 20.
Definition treeRelevanceFactor := hundredths 40.
Definition missThreshold := hundredths 25.

Definition relWeight (r : pkgRel) : float64 :=
  match r with
  | relExactVersion => weightPackageExact
  | relMajorMinor => weightPackageMajorMinor
  | relMajor => weightPackageMajor
  | relPackageOnly => weightPackageMajor
  | relMajorDiff => weightPackageMajorDiff
  | _ => fzero
  end.

Definition envFit (grade : MatchGrade) (cd : contextDelta) : float64 :=
  match grade with
  | GradeExact => float_of 1
  | GradeCompatible => hundredths 90
  | GradeAdaptationRequired =>
      let f := if cd_mismatch cd then hundredths 55 else hundredths 70 in
      let f := fsub f (fmul (hundredths 2) (float_of (cd_majorDistance cd))) in
      if fltb f (hundredths 40) then hundredths 40 else f
  | _ => hundredths 35
  end.

Definition strengthBoost (level : Z) : float64 :=
  if 4 <=? level then float_of 3 else if level =? 3 then float_of 2 else float_of 1.

Definition recency : float64 := float_of 1.

(** ** What the question is about *)

Definition about_words (c : candidate) (case : Case) : list string :=
  ContentTokens (case_Goal case) ++ flat_map ContentTokens (case_Symbols case)
  ++ flat_map (fun p => ContentTokens (purl_Name p)) (cand_packages c).

Definition sharedIntent (query : string) (c : candidate) : Z :=
  match cand_caseObj c with
  | None => 0
  | Some case => count (fun t => str_in t (about_words c case)) (ContentTokens query)
  end.

Definition intentOverlap (query : string) (c : candidate) : float64 :=
  match ContentTokens query with
  | [] => fzero
  | q => fdiv (float_of (sharedIntent query c)) (float_of (Z.of_nat (length q)))
  end.

Definition intentSignal (query : string) (c : candidate) : Z * Z :=
  let goal := match cand_caseObj c with Some case => case_Goal case | None => "" end in
  Signal query goal (map purl_Name (cand_packages c)) (case_symbols c ++ cand_symbols c).

Definition aboutTheSameThing (query : string) (c : candidate) : bool :=
  let '(strong, prose) := intentSignal query c in
  if 0 <? strong then true
  else if 4 <=? Z.of_nat (length (ContentTokens query)) then 2 <=? prose
  else 1 <=? prose.

Definition matchingSymbols (reqSyms : list string) (c : candidate) : list string :=
  MatchedDeclaredSymbols reqSyms (cand_symbols c ++ case_symbols c).

(** ** Evidence *)

(** [int64(f)]: truncation; the language leaves the value of an
    out-of-range or NaN conversion to the implementation. *)
Class GoFloat := { int64_out_of_range : float64 -> Z }.

Definition int64_of_float {GF : GoFloat} (f : float64) : Z :=
  match f with
  | S754_zero _ => 0
  | S754_finite s m e =>
      let n := if 0 <=? e then Z.pos m * 2 ^ e else Z.pos m / 2 ^ (- e) in
      let z := if s then - n else n in
      if (int64_min <=? z) && (z <=? int64_max) then z else int64_out_of_range f
  | _ => int64_out_of_range f
  end.

Section evidence.
  Context {GF : GoFloat}.

Record evidenceState := mkEvidenceState {
  ev_compile : Z; ev_clean : Z; ev_buckets : Z; ev_lastSeen : string;
  ev_samples : list Sample; ev_elevated : list string
}.

Definition observed_samples (st : shardSymbolStats) : list Sample :=
  let pass := int64_of_float (fadd (fmul (st_PassRate st) (float_of (st_ObservationCount st))) (hundredths 50)) in
  let fail := wrap64 (st_ObservationCount st - pass) in
  (if 0 <? pass then [mkSample ClassUsageObservation ResultPass pass] else [])
  ++ (if 0 <? fail then [mkSample ClassUsageObservation ResultFail fail] else []).

Definition evidence_step (e : evidenceState) (sym : shardSymbolEntry) : evidenceState :=
  let st := sse_Stats sym in
  let '(compile, clean) := match st_ByStage st !! "PROJECT_COMPILE" with
    | Some pc => (wrap64 (ev_compile e + wrap64 (ssc_Pass pc + ssc_Fail pc)), wrap64 (ev_clean e + ssc_Pass pc))
    | None => (ev_compile e, ev_clean e)
    end in
  mkEvidenceState compile clean
    (if ev_buckets e <? st_UniquePeerBuckets st then st_UniquePeerBuckets st else ev_buckets e)
    (if str_lt (ev_lastSeen e) (st_LastSeen st) then st_LastSeen st else ev_lastSeen e)
    (ev_samples e ++ observed_samples st)
    (ev_elevated e ++ map (fun f => humanEnvSummary (sf_EnvSummary f))
       (List.filter (fun f => elevatedFailureMinCount <=? sf_Count f) (sse_Failures sym))).

Definition receipt_samples (receipts : list VerificationReceipt) : list Sample :=
  flat_map (fun r => match contractResult (vr_Stages r) with
    | Some res => [mkSample ClassSampleVerification res 1] | None => [] end) receipts.

Definition buildEvidence (syms : list shardSymbolEntry) (receipts : list VerificationReceipt)
    (shardStages : gmap string string) : EvidenceSummary :=
  let e := fold_left evidence_step syms (mkEvidenceState 0 0 0 "" [] []) in
  let passes := Z.of_nat (length (List.filter contract_pass receipts)) in
  let passes := if Nat.eqb (length receipts) 0 && String.eqb (stage shardStages "contract") "PASS"
                then passes + 1 else passes in
  let peers := Z.of_nat (size (pass_peers receipts)) in
  let independence := if ev_buckets e <? peers then peers else ev_buckets e in
  let v := Compute (ev_samples e ++ receipt_samples receipts) independence in
  mkEvidence (ev_compile e) (ev_clean e) passes peers (ev_buckets e) (vd_PassRate v) (vd_Confidence v)
    (ev_elevated e) (ev_lastSeen e).
End evidence.

(** ** One candidate *)

Section score.
  Context {GT : GoTime} {GF : GoFloat}.
  (* [DB.ReceiptsForSample]; the engine ignores its error. *)
  Context (ReceiptsForSample : string -> list VerificationReceipt).

(** The packages the candidate is reachable by and those it claims. *)
Definition relevance_packages (c : candidate) (s : gradeSelection) : list PURL :=
  fold_left (fun ps claim => appendPURL ps (claim_purl claim)) (sel_claims s) (cand_packages c).

Fixpoint collect_symbols (evidence : gmap string pkgEvidence) (seen : list string) (ps : list PURL) :
    list shardSymbolEntry :=
  match ps with
  | [] => []
  | p :: rest =>
      let k := pkgKey p in
      if str_in k seen then collect_symbols evidence seen rest
      else match evidence !! k with Some pe => pe_symbols pe | None => [] end
           ++ collect_symbols evidence (k :: seen) rest
  end.

(** The facts the score is fused from. *)
Record facts := mkFacts {
  fx_selection : gradeSelection;
  fx_rel : pkgRel;
  fx_fromTree : bool;
  fx_syms : list shardSymbolEntry;
  fx_declaredSymbolHit : bool;
  fx_contextSymbolHit : bool;
  fx_fingerprintPackages : list PURL;
  fx_codeHit : bool;
  fx_dims : list dimComparison;
  fx_cd : contextDelta;
  fx_matched : list shardFailure
}.

Definition nonempty {A} (l : list A) : bool := match l with [] => false | _ => true end.

Definition gather (req : SearchRequest) (reqEnv : EnvironmentFingerprint) (reqPkgs : list PURL) (c : candidate)
    (evidence : gmap string pkgEvidence) : facts :=
  let receipts := ReceiptsForSample (cand_sampleID c) in
  let askedPkgs := match reqPkgs with [] => parsePURLs (sr_ProjectPackages req) | ps => ps end in
  let environmentContext := EnvironmentIsContext req in
  let selection := selectGradeVariantWithProvenance c receipts askedPkgs reqEnv environmentContext reqPkgs in
  let '(rel, fromTree) := match reqPkgs with
    | [] => if nonempty askedPkgs && (rel_rank relNone <? rel_rank (sel_rel selection))
            then (sel_rel selection, true) else (relUnspecified, false)
    | _ => (sel_rel selection, false)
    end in
  let syms := collect_symbols evidence [] (relevance_packages c selection) in
  let samEco := ecosystemOf (sel_samP selection) reqEnv c in
  let askedEnv := envAskedAboutNamed reqEnv samEco environmentContext (callerNamedEcosystem reqPkgs samEco) in
  mkFacts selection rel fromTree syms
    (nonempty (matchingSymbols (sr_Symbols req) c)) (nonempty (matchingSymbols (sr_ContextSymbols req) c))
    (candidateFingerprintPackages req (sel_claims selection) evidence c) (snd (errorHits req syms))
    (compareEnv askedEnv (sel_env selection) samEco environmentContext) (compareContext askedEnv (sel_env selection))
    (matchingFailures reqEnv syms).

Definition fx_fpHit (x : facts) : bool := nonempty (fx_fingerprintPackages x).

(** Steps 1-5: relevance fusion. *)
Definition base_score (req : SearchRequest) (c : candidate) (x : facts) (ftsScore : float64) : float64 :=
  let base := relWeight (fx_rel x) in
  let base := if fx_fromTree x then fmul base treeRelevanceFactor else base in
  let base := if fx_declaredSymbolHit x || fx_contextSymbolHit x then fadd base weightSymbol else base in
  let base := if fx_fpHit x then fadd base weightErrorFingerprint else base in
  let base := if fx_codeHit x then fadd base weightErrorCode else base in
  let relevance := fadd (fmul weightFTS ftsScore) (fmul weightIntent (intentOverlap (sr_Query req) c)) in
  let relevance := if 0 <? fst (intentSignal (sr_Query req) c) then fadd relevance weightNamedSubject else relevance in
  fadd base relevance.

(** The conditions that set the score to zero, in their order. *)
Definition gated (req : SearchRequest) (reqEnv : EnvironmentFingerprint) (reqPkgs : list PURL) (c : candidate)
    (x : facts) : bool :=
  (nonempty (sr_Symbols req) && negb (fx_declaredSymbolHit x))
  || (negb (fx_fpHit x) && negb (fx_codeHit x) && negb (fx_declaredSymbolHit x)
      && negb (aboutTheSameThing (sr_Query req) c))
  || (negb (nonempty reqPkgs) && negb (EnvironmentIsContext req) && negb (String.eqb (env_Ecosystem reqEnv) "")
      && negb (fx_declaredSymbolHit x) && negb (candidateSupportsEcosystem c (env_Ecosystem reqEnv)))
  || bool_decide (fx_rel x = relNone).

Definition scoreCandidate (req : SearchRequest) (reqEnv : EnvironmentFingerprint) (reqPkgs : list PURL) (c : candidate)
    (evidence : gmap string pkgEvidence) (ftsScore : float64) : SearchResult * float64 :=
  let x := gather req reqEnv reqPkgs c evidence in
  let selection := fx_selection x in
  let base := base_score req c x ftsScore in
  let '(grade, adaptations) := buildGrade (fx_rel x) (fx_dims x) (fx_cd x) (elevatedInRequestEnv req (fx_matched x)) in
  let '(exact, different) := buildDelta (fx_rel x) (sel_reqP selection) (sel_samP selection) (fx_dims x) (fx_cd x) in
  let summary := buildEvidence (fx_syms x) (sel_receipts selection) (sel_stages selection) in
  let score := fmul (fmul (fmul base (envFit grade (fx_cd x))) recency) (strengthBoost (sel_level selection)) in
  let score := if gated req reqEnv reqPkgs c x then fzero else score in
  let exactFailureMatched := fx_fpHit x && selectedContractPassed selection (fx_fingerprintPackages x)
                             && candidateHasContract c in
  (mkResult grade (es_Confidence summary) score (cand_caseObj c) (cand_sampleID c) "" (cand_status c)
     exactFailureMatched exact different adaptations summary (knownFailures (fx_matched x)), score).

(** ** The search *)

Record SearchResponse := mkResponse {
  resp_SchemaVersion : Z;
  resp_Results : list SearchResult;
  resp_Miss : bool
}.

Definition DefaultLimit : Z := 3.

Record scoredCandidate := mkScored { sc_res : SearchResult; sc_score : float64; sc_id : string }.

Definition ranks_before (a b : scoredCandidate) : bool :=
  if negb (feqb (sc_score a) (sc_score b)) then fltb (sc_score b) (sc_score a)
  else str_lt (sc_id a) (sc_id b).

Fixpoint pick (limit : Z) (picked : Z) (seen : list string) (all : list scoredCandidate) : list SearchResult :=
  match all with
  | [] => []
  | s :: rest =>
      if (picked =? limit) || fltb (sc_score s) missThreshold then []
      else match ResultCoordinate (sc_res s) with
      | Some key =>
          if str_in key seen then pick limit picked seen rest
          else sc_res s :: pick limit (picked + 1) (key :: seen) rest
      | None => sc_res s :: pick limit (picked + 1) seen rest
      end
  end.

Context {GS : GoSort} {GM : GoMapRange}.

(** [collected] is what [Engine.collect] returned, [None] its error. *)
Definition score_all (req : SearchRequest) (cands : gmap string candidate) (evidence : gmap string pkgEvidence)
    (fts : gmap string float64) : list scoredCandidate :=
  let reqEnv := env_Normalize (sr_Environment req) in
  let reqPkgs := parsePURLs (sr_Packages req) in
  map (fun kc => let c := snd kc in
    let '(res, sc) := scoreCandidate req reqEnv reqPkgs c evidence (default fzero (fts !! cand_sampleID c)) in
    mkScored res sc (cand_sampleID c)) (range_order (map_to_list cands)).

Definition Search (req : SearchRequest)
    (collected : option (gmap string candidate * gmap string pkgEvidence * gmap string float64)) : SearchResponse :=
  let version := if 2 <=? sr_SchemaVersion req then 2 else 1 in
  let limit := if sr_Limit req <=? 0 then DefaultLimit else sr_Limit req in
  match collected with
  | None => mkResponse version [] true
  | Some (cands, evidence, fts) =>
      match sort_slice ranks_before (score_all req cands evidence fts) with
      | [] => mkResponse version [] true
      | top :: rest =>
          if fltb (sc_score top) missThreshold then mkResponse version [] true
          else mkResponse version (pick limit 0 [] (top :: rest)) false
      end
  end.
End score.

(** ** Laws of the answer *)

Lemma pick_In limit picked seen all r : In r (pick limit picked seen all) ->
  exists s, In s all /\ r = sc_res s /\ fltb (sc_score s) missThreshold = false.
Proof.
  revert picked seen. induction all as [|s rest IH]; intros picked seen; cbn [pick]; [done|].
  destruct (_ || _) eqn:E; [done|]. apply orb_false_iff in E as [_ E].
  assert (K : forall p q, In r (pick limit p q rest) ->
    exists s', In s' (s :: rest) /\ r = sc_res s' /\ fltb (sc_score s') missThreshold = false).
  { intros p q I. apply IH in I as (s' & I & R). exists s'. split; [by right|done]. }
  destruct (ResultCoordinate (sc_res s)) as [key|]; [destruct (str_in key seen)|]; [eauto| |];
    intros [<-|I]; eauto; exists s; (split; [by left|done]).
Qed.

Lemma pick_length limit picked seen all : picked <= limit -> Z.of_nat (length (pick limit picked seen all)) <= limit - picked.
Proof.
  revert picked seen. induction all as [|s rest IH]; intros picked seen L; cbn [pick]; [cbn; lia|].
  destruct (Z.eqb_spec picked limit); cbn [orb]; [cbn; lia|]. destruct (fltb _ _); [cbn; lia|].
  destruct (ResultCoordinate (sc_res s)) as [key|]; [destruct (str_in key seen)|]; cbn [length];
    rewrite ?Nat2Z.inj_succ; first [by apply IH | specialize (IH (picked + 1) (key :: seen) ltac:(lia)); lia
                                   | specialize (IH (picked + 1) seen ltac:(lia)); lia].
Qed.

(** The coordinates of a list of results. *)
Definition coordinates (rs : list SearchResult) : list string :=
  flat_map (fun r => match ResultCoordinate r with Some k => [k] | None => [] end) rs.

Lemma pick_coordinates limit picked seen all :
  List.NoDup (coordinates (pick limit picked seen all))
  /\ forall k, In k (coordinates (pick limit picked seen all)) -> str_in k seen = false.
Proof.
  revert picked seen. induction all as [|s rest IH]; intros picked seen; cbn [pick]; [by repeat constructor|].
  destruct (_ || _); [by repeat constructor|]. unfold coordinates in *.
  destruct (ResultCoordinate (sc_res s)) as [key|] eqn:K.
  - destruct (str_in key seen) eqn:S; [apply IH|]. cbn [flat_map]. rewrite K. cbn [app].
    destruct (IH (picked + 1) (key :: seen)) as [N F]. split.
    + constructor; [|done]. intros I. specialize (F key I).
      change (String.eqb key key || str_in key seen = false) in F. by rewrite String.eqb_refl in F.
    + intros k [<-|I]; [done|]. specialize (F k I).
      change (String.eqb k key || str_in k seen = false) in F. by apply orb_false_iff in F as [_ F].
  - cbn [flat_map]. rewrite K. cbn [app]. apply IH.
Qed.

(** The picked results keep the order of the ranking. *)
Lemma pick_sorted (R : SearchResult -> SearchResult -> Prop) limit picked seen all :
  StronglySorted (fun a b => R (sc_res a) (sc_res b)) all -> StronglySorted R (pick limit picked seen all).
Proof.
  intros H. revert picked seen. induction H as [|s rest _ IH F]; intros picked seen; cbn [pick]; [constructor|].
  assert (K : forall p q, Forall (R (sc_res s)) (pick limit p q rest)).
  { intros p q. apply List.Forall_forall. intros r (s' & I & -> & _)%pick_In. rewrite List.Forall_forall in F. by apply F. }
  destruct (_ || _); [constructor|]. destruct (ResultCoordinate (sc_res s)) as [key|]; [destruct (str_in key seen)|];
    try constructor; auto.
Qed.

Section answer.
  Context {GT : GoTime} {GF : GoFloat} {GS : GoSort} {GM : GoMapRange}.
  Context (ReceiptsForSample : string -> list VerificationReceipt).

#[local] Notation scored req := (scoreCandidate ReceiptsForSample req (env_Normalize (sr_Environment req))
    (parsePURLs (sr_Packages req))).
#[local] Notation facts_of req := (gather ReceiptsForSample req (env_Normalize (sr_Environment req))
    (parsePURLs (sr_Packages req))).

Lemma scored_score req reqEnv reqPkgs c ev fts :
    res_Score (fst (scoreCandidate ReceiptsForSample req reqEnv reqPkgs c ev fts))
      = snd (scoreCandidate ReceiptsForSample req reqEnv reqPkgs c ev fts)
    /\ (gated req reqEnv reqPkgs c (gather ReceiptsForSample req reqEnv reqPkgs c ev) = true ->
        snd (scoreCandidate ReceiptsForSample req reqEnv reqPkgs c ev fts) = fzero).
  Proof.
    unfold scoreCandidate. destruct (buildGrade _ _ _ _) as [g a]. destruct (buildDelta _ _ _ _ _) as [e d]. cbn.
    split; [done|]. by intros ->.
  Qed.

Lemma score_all_In req cands ev fts s : In s (score_all ReceiptsForSample req cands ev fts) <->
    exists id c, cands !! id = Some c
      /\ s = mkScored (fst (scored req c ev (default fzero (fts !! cand_sampleID c))))
                      (snd (scored req c ev (default fzero (fts !! cand_sampleID c)))) (cand_sampleID c).
  Proof.
    unfold score_all. rewrite in_map_iff.
    assert (E : forall kc, In kc (range_order (map_to_list cands)) <-> cands !! fst kc = Some (snd kc)).
    { intros [k c]. rewrite <- elem_of_map_to_list, list_elem_of_In. cbn.
      split; apply Permutation_in; [symmetry|]; apply range_order_perm. }
    split.
    - intros ([k c] & <- & I%E). exists k, c. split; [done|]. cbn [snd]. by destruct (scoreCandidate _ _ _ _ _ _).
    - intros (k & c & I & ->). exists (k, c). split; [cbn [snd]; by destruct (scoreCandidate _ _ _ _ _ _)|by apply E].
  Qed.

Lemma answer_In req cands ev fts r : In r (resp_Results (Search ReceiptsForSample req (Some (cands, ev, fts)))) ->
    exists s, In s (score_all ReceiptsForSample req cands ev fts) /\ r = sc_res s
      /\ fltb (sc_score s) missThreshold = false.
  Proof.
    unfold Search. pose proof (sort_slice_perm _ ranks_before (score_all ReceiptsForSample req cands ev fts)) as P.
    destruct (sort_slice _ _) as [|top rest]; [done|]. destruct (fltb (sc_score top) missThreshold); [done|].
    intros (s & I & E)%pick_In. exists s. split; [|done]. by apply (Permutation_in _ (Permutation_sym P)).
  Qed.
End answer.

Lemma nonempty_spec {A} (l : list A) : nonempty l = true <-> l <> [].
Proof. by destruct l. Qed.

(** Why a candidate may be an answer: what its gates let through. *)
Definition answers (req : SearchRequest) (reqEnv : EnvironmentFingerprint) (reqPkgs : list PURL) (c : candidate)
    (x : facts) : Prop :=
  (sr_Symbols req <> [] -> matchingSymbols (sr_Symbols req) c <> [])
  /\ (fx_fingerprintPackages x <> [] \/ fx_codeHit x = true \/ matchingSymbols (sr_Symbols req) c <> []
      \/ aboutTheSameThing (sr_Query req) c = true)
  /\ (reqPkgs = [] -> EnvironmentIsContext req = false -> env_Ecosystem reqEnv <> "" ->
      matchingSymbols (sr_Symbols req) c <> [] \/ candidateSupportsEcosystem c (env_Ecosystem reqEnv) = true)
  /\ fx_rel x <> relNone.

Lemma gated_spec {GT : GoTime} rs req reqEnv reqPkgs c ev :
  let x := gather rs req reqEnv reqPkgs c ev in
  gated req reqEnv reqPkgs c x = false -> answers req reqEnv reqPkgs c x.
Proof.
  cbv zeta. assert (D : fx_declaredSymbolHit (gather rs req reqEnv reqPkgs c ev) = nonempty (matchingSymbols (sr_Symbols req) c)).
  { unfold gather. cbv zeta. by destruct (match reqPkgs with [] => _ | _ => _ end) as [rel ft]. }
  unfold gated, answers, fx_fpHit. rewrite D. generalize (gather rs req reqEnv reqPkgs c ev) as x. intros x.
  rewrite !orb_false_iff, !andb_false_iff, !negb_false_iff, bool_decide_eq_false, String.eqb_eq.
  rewrite <- !nonempty_spec. destruct (nonempty (sr_Symbols req)), (nonempty (matchingSymbols (sr_Symbols req) c)),
    (nonempty (fx_fingerprintPackages x)), (fx_codeHit x), (EnvironmentIsContext req); intros (((A & B) & C) & E);
    (split; [|split; [|split]]); intuition (try congruence); subst; intuition (try congruence).
Qed.


(** ** The ranking *)

(** Higher score first, then the smaller id. *)
Definition cmp_scored : scoredCandidate -> scoredCandidate -> Z :=
  cmp_then (cmp_flip (cmp_on sc_score cmp_float)) (cmp_on sc_id str_cmp).

#[export] Instance cmp_scored_order : CmpOrder cmp_scored.
Proof. unfold cmp_scored. apply _. Qed.

Lemma ranks_before_cmp a b : is_nan (sc_score a) = false -> is_nan (sc_score b) = false ->
  ranks_before a b = (cmp_scored a b <? 0).
Proof.
  intros A B. unfold ranks_before, cmp_scored, cmp_then, cmp_flip, cmp_on. rewrite feqb_cmp, fltb_cmp by done.
  pose proof (cmp_antisym (cmp := cmp_float) (sc_score a) (sc_score b)) as S.
  destruct (Z.eqb_spec (cmp_float (sc_score a) (sc_score b)) 0) as [E|N].
  - rewrite S, E. done.
  - cbn [negb]. destruct (Z.eqb_spec (cmp_float (sc_score b) (sc_score a)) 0); [lia|done].
Qed.

Lemma cmp_scored_score a b : cmp_scored a b <= 0 -> cmp_float (sc_score b) (sc_score a) <= 0.
Proof.
  unfold cmp_scored, cmp_then, cmp_flip, cmp_on.
  destruct (Z.eqb_spec (cmp_float (sc_score b) (sc_score a)) 0); lia.
Qed.

Lemma StronglySorted_impl {A} (R S : A -> A -> Prop) l : (forall a b, In a l -> In b l -> R a b -> S a b) ->
  StronglySorted R l -> StronglySorted S l.
Proof.
  intros H. induction 1 as [|x l Hs IH F]; constructor.
  - apply IH. intros a b Ia Ib. apply H; by right.
  - apply List.Forall_forall. intros y Iy. rewrite List.Forall_forall in F. apply H; [by left|by right|by apply F].
Qed.

(** C1.  The answer as a whole: a miss is exactly an empty list, there are
    never more results than asked for and never two for one coordinate.  When
    no score is NaN, the search misses exactly if every candidate is below
    the threshold, the results come in descending order of score and the
    first one scores as high as any candidate, whatever order the candidates
    were visited in. *)
Theorem search_answer {GT : GoTime} {GF : GoFloat} {GS : GoSort} {GM : GoMapRange} receipts req cands ev fts :
  let resp := Search receipts req (Some (cands, ev, fts)) in
  let all := score_all receipts req cands ev fts in
  let limit := if sr_Limit req <=? 0 then DefaultLimit else sr_Limit req in
  (resp_Miss resp = true <-> resp_Results resp = [])
  /\ Z.of_nat (length (resp_Results resp)) <= limit /\ List.NoDup (coordinates (resp_Results resp))
  /\ ((forall s, In s all -> is_nan (sc_score s) = false) ->
      (resp_Miss resp = true <-> forall s, In s all -> fltb (sc_score s) missThreshold = true)
      /\ StronglySorted (fun a b => cmp_float (res_Score b) (res_Score a) <= 0) (resp_Results resp)
      /\ forall r, head (resp_Results resp) = Some r -> forall s, In s all -> cmp_float (sc_score s) (res_Score r) <= 0).
Proof.
  cbv zeta. unfold Search. set (all := score_all receipts req cands ev fts).
  set (limit := if sr_Limit req <=? 0 then DefaultLimit else sr_Limit req).
  assert (L : 0 < limit) by (unfold limit, DefaultLimit; destruct (Z.leb_spec (sr_Limit req) 0); lia).
  pose proof (sort_slice_perm _ ranks_before all) as P.
  assert (Sc : forall s, In s all -> res_Score (sc_res s) = sc_score s).
  { intros s (id & c & _ & ->)%score_all_In. apply scored_score. }
  assert (So : (forall s, In s all -> is_nan (sc_score s) = false) ->
    StronglySorted (fun a b => cmp_scored a b <= 0) (sort_slice ranks_before all)).
  { intros N. apply sort_slice_sorted_on; [apply _|]. intros a b Ia Ib. by apply ranks_before_cmp; apply N. }
  destruct (sort_slice ranks_before all) as [|top rest] eqn:S.
  { apply Permutation_sym, Permutation_nil in P. rewrite P. cbn.
    repeat split; try done; try lia; try constructor. }
  assert (M : forall s, In s all <-> In s (top :: rest)) by (intros s; split; apply Permutation_in; [done|by symmetry]).
  assert (Top : (forall s, In s all -> is_nan (sc_score s) = false) ->
    forall s, In s all -> cmp_float (sc_score s) (sc_score top) <= 0).
  { intros N s Is. apply M in Is. destruct Is as [<-|Is]; [by rewrite cmp_refl|]. specialize (So N).
    apply StronglySorted_inv in So as [_ F]. rewrite List.Forall_forall in F. by apply cmp_scored_score, F. }
  destruct (fltb (sc_score top) missThreshold) eqn:T; cbn [resp_Miss resp_Results].
  - split; [done|]. split; [cbn; lia|]. split; [constructor|]. intros N. split; [|split; [constructor|done]].
    split; [|done]. intros _ s Is. rewrite fltb_cmp in T by (done || by apply N, M; left).
    rewrite fltb_cmp by (done || by apply N).
    specialize (Top N s Is). apply Z.ltb_lt. apply Z.ltb_lt in T. by eapply cmp_le_lt_trans.
  - assert (Hd : exists q, pick limit 0 [] (top :: rest) = sc_res top :: q).
    { cbn [pick]. rewrite T. destruct (Z.eqb_spec 0 limit); [lia|]. cbn [orb str_in existsb].
      destruct (ResultCoordinate (sc_res top)); eexists; reflexivity. }
    split; [destruct Hd as [q ->]; done|]. split; [pose proof (pick_length limit 0 [] (top :: rest)); lia|].
    split; [apply pick_coordinates|]. intros N. split; [|split].
    + split; [done|]. intros A. rewrite A in T by by apply M; left. done.
    + apply pick_sorted. eapply StronglySorted_impl; [|by apply So]. cbn. intros a b Ia Ib C.
      rewrite !Sc by by apply M. by apply cmp_scored_score.
    + destruct Hd as [q ->]. intros r [= <-] s Is. rewrite Sc by by apply M; left. by apply Top.
Qed.

(** ** An example: a question a verified sample answers *)

Definition float_example : GoFloat := {| int64_out_of_range := fun _ => int64_min |}.

Definition request_for_axios : SearchRequest :=
  mkSearch 1 "retry a failed axios request" ["pkg:npm/axios@1.12.0"] [] [] [] "" env_example "explicit" "" [] "" 0 false.

Definition answering_candidate (id : string) : candidate :=
  mkCandidate id "STABLE" (Some (mkCase 1 "" "HOW" "Retry a request with axios" [] ["axios.interceptors"] ∅ [] ""))
    env_example [mkPURL "npm" "axios" "1.12.0"] [] [] [] 0 ∅.

Definition corpus_example : gmap string candidate :=
  <["s1" := answering_candidate "s1"]> (<["s2" := candidate_example]> ∅).

Definition receipts_for (id : string) : list VerificationReceipt := if String.eqb id "s1" then receipts_example else [].

Definition answer_example : SearchResponse :=
  Search (GT := time_example) (GF := float_example) (GS := sort_by_insertion) (GM := range_in_order)
    receipts_for request_for_axios (Some (corpus_example, ∅, ∅)).

Example answer_example_grade : map (fun r => (res_SampleID r, res_Grade r)) (resp_Results answer_example) = [("s1", GradeExact); ("s", GradeCompatible)].
Proof. vm_compute. reflexivity. Qed.


Lemma search_answer_witness :
  resp_Miss answer_example = false
  /\ StronglySorted (fun a b => cmp_float (res_Score b) (res_Score a) <= 0) (resp_Results answer_example).
Proof.
  split; [vm_compute; reflexivity|].
  destruct (search_answer (GT := time_example) (GF := float_example) (GS := sort_by_insertion) (GM := range_in_order)
    receipts_for request_for_axios corpus_example ∅ ∅) as (_ & _ & _ & A).
  unfold answer_example. destruct A as (_ & S & _); [|exact S].
  intros s I. apply negb_true_iff. revert s I. apply forallb_forall. vm_compute. reflexivity.
Defined.
