(* ===== verification/OutputGate.v ===== *)
(** * The normal-output gate and the debug trace
      (internal/domain/outputrelevance.go, diagnostic.go)

    What the engine retrieved and what may be shown are two questions.  A
    candidate reaches normal output when a concrete link between the request
    and the sample can be named; the rest is kept apart with a reason, and the
    debug trace records the decision.  Of a response the gate reads and writes
    the results and the miss, so the engine's [SearchResponse] stands for it
    and the trace is threaded beside it.  The rendering of the trace as text is
    left out. *)

From stdpp Require Import gmap.
From Stdlib Require Import SpecFloat.
From S2P Require Import Prelude GoStrings GoUnicode GoStd StringFacts UnicodeFacts WordFacts Regexp Hash Json.
From S2P Require Import Float Purl Env Targets Failure CliSubject Experience Search Anomaly Relevance Grade Candidate Select Corpus Score.

#[local] Open Scope csx_scope.

(** ** The links *)

Definition RelevanceExactFailure : string := "exact-failure-fingerprint".
Definition RelevanceSamePackage : string := "same-package".
Definition RelevanceSameSymbol : string := "same-symbol".
Definition RelevanceAdjacentSymbol : string := "adjacent-symbol".
Definition RelevanceSameTool : string := "same-tool".
Definition RelevanceSharedDiagnostic : string := "shared-diagnostic".
Definition RelevanceNamedSubject : string := "query-names-subject".
Definition RelevanceGoalSemantics : string := "same-goal-semantics".

Definition goalSemanticsFloor : Z := 3.
Definition goalSemanticsCoverage : Z := 3.

Definition SuppressedUnrelatedEcosystem : string := "unrelated-ecosystem".
Definition SuppressedInsufficientGoalOverlap : string := "insufficient-goal-overlap".

(** An upper-case letter, letters and digits, and at least one part that begins
    with a digit or an underscore. *)
Definition code_part : regex := RSeq (RClass (either re_digit (any_of "_"))) (RStar (RClass (either (either re_upper re_digit) (any_of "_")))).
Definition diagnosticToken : regex :=
  RSeqs [RTextBegin; RClass re_upper; RStar (RClass (either re_upper re_digit)); RPlus code_part; RTextEnd].

Definition standardErrnoToken : list string :=
  ["EACCES"; "EAGAIN"; "EBADF"; "EBUSY"; "ECANCELED"; "ECHILD"; "ECONNABORTED"; "ECONNREFUSED"; "ECONNRESET"; "EEXIST"; "EFAULT"; "EINPROGRESS"; "EINTR"; "EINVAL";
   "EIO"; "EISDIR"; "ELOOP"; "EMFILE"; "ENAMETOOLONG"; "ENETDOWN"; "ENETRESET"; "ENETUNREACH"; "ENFILE"; "ENOBUFS"; "ENODEV"; "ENOENT"; "ENOEXEC"; "ENOMEM";
   "ENOSPC"; "ENOSYS"; "ENOTCONN"; "ENOTDIR"; "ENOTEMPTY"; "ENOTSOCK"; "ENOTSUP"; "ENOTTY"; "ENXIO"; "EOPNOTSUPP"; "EOVERFLOW"; "EPERM"; "EPIPE"; "EPROTO";
   "EPROTONOSUPPORT"; "EPROTOTYPE"; "ERANGE"; "EROFS"; "ESRCH"; "ETIMEDOUT"; "EWOULDBLOCK"; "EXDEV"].

Definition isDiagnosticToken (token : string) : bool := MatchString diagnosticToken token || str_in token standardErrnoToken.

Definition declaredSymbols (r : SearchResult) : list string := match res_Case r with Some c => case_Symbols c | None => [] end.

Definition package_name (raw : string) : string := match ParsePURL raw with Ok p => purl_Name p | Err _ => raw end.
Definition packageNames (r : SearchResult) : list string := match res_Case r with Some c => map package_name (case_Packages c) | None => [] end.

Definition subjectText (r : SearchResult) : string :=
  match res_Case r with
  | Some c => Join (case_Goal c :: case_Believed c :: case_Symbols c ++ case_Contract c ++ packageNames r)%list (single newline)
  | None => ""
  end.

Definition error_code_byte (c : ascii) : bool := is_upper c || is_digit c || Ascii.eqb c "_".
Definition requestDiagnostics (question declaredCode : string) : list string :=
  let code := TrimSpace declaredCode in
  (if String.eqb code "" then [] else [code]) ++ List.filter isDiagnosticToken (fields_by error_code_byte question).

Definition commandToolAliases : list (string * list string) :=
  [("pwsh", ["powershell"]); ("powershell", ["pwsh"]); ("python3", ["python"]); ("pip3", ["pip"]); ("tsc", ["typescript"]); ("node", ["nodejs"]);
   ("gradlew", ["gradle"]); ("mvnw", ["mvn"; "maven"])].

Definition tool_names (tool : string) : list string := tool :: default [] (assoc tool commandToolAliases).

Definition is_tool (want : list string) (name : string) : bool :=
  let name := ToLower (TrimSpace name) in
  str_in name want || match LastIndexAny name "/" with Some i => str_in (str_drop (S i) name) want | None => false end.
Definition namesTool (packageNames argv : list string) : bool :=
  let tool := CommandTool argv in
  if String.eqb tool "" then false else existsb (is_tool (tool_names tool)) packageNames.

Definition package_identity (raw : string) : option string :=
  match ParsePURL raw with Ok p => Some (ToLower (purl_Ecosystem p +:+ "/" +:+ purl_Name p)) | Err _ => None end.
Definition sharesPackage (requested declared : list string) : bool :=
  if Nat.eqb (length requested) 0 || Nat.eqb (length declared) 0 then false
  else
    let have := omap package_identity declared in
    existsb (fun raw => match package_identity raw with Some k => str_in k have | None => false end) requested.

Definition symbolOwner (symbol : string) : string :=
  let symbol := ToLower (TrimSpace symbol) in
  match LastIndexAny symbol "./:#" with
  | Some (S i) => let owner := str_take (S i) symbol in if existsb (fun t => negb (IsGeneric t)) (ContentTokens owner) then owner else ""
  | _ => ""
  end.
Definition sharesSymbolOwner (requested declared : list string) : bool :=
  let owners := List.filter (fun o => negb (String.eqb o "")) (map symbolOwner declared) in
  existsb (fun s => let owner := symbolOwner s in negb (String.eqb owner "") && str_in owner owners) requested.

Definition sameGoalSemantics (query goal : string) : bool :=
  let '(shared, queryTokens, goalTokens) := GoalOverlap query goal in
  if shared <? goalSemanticsFloor then false
  else let shorter := if goalTokens <? queryTokens then goalTokens else queryTokens in shorter <=? wrap64 (shared * goalSemanticsCoverage).

Definition on (b : bool) (signal : string) : list string := if b then [signal] else [].

Definition RelevanceSignals (r : SearchResult) (req : SearchRequest) (argv : list string) : list string :=
  on (res_ExactFailureMatched r) RelevanceExactFailure
  ++ match res_Case r with
     | None => []
     | Some c =>
         let declared := declaredSymbols r in
         let requested := (sr_Symbols req ++ sr_ContextSymbols req)%list in
         let question := CallerQuestion req in
         on (sharesPackage (sr_Packages req) (case_Packages c)) RelevanceSamePackage
         ++ (if MatchesDeclaredSymbols requested declared then [RelevanceSameSymbol] else on (sharesSymbolOwner requested declared) RelevanceAdjacentSymbol)
         ++ on (namesTool (packageNames r) argv) RelevanceSameTool
         ++ on (existsb (ContainsIdentifier (subjectText r)) (requestDiagnostics question (sr_ErrorCode req))) RelevanceSharedDiagnostic
         ++ on (NamesSubject question (packageNames r) declared) RelevanceNamedSubject
         ++ on (sameGoalSemantics question (case_Goal c)) RelevanceGoalSemantics
     end%list.

Definition RelevantToRequest (r : SearchResult) (req : SearchRequest) (argv : list string) : bool :=
  match res_Case r with None => true | Some _ => (0 <? length (RelevanceSignals r req argv))%nat end.

Definition relevance_phrase (signal : string) : string :=
  default "" (assoc signal
    [(RelevanceExactFailure, "your sanitized failure fingerprint was recorded against this sample"); (RelevanceSamePackage, "it is about a package you named");
     (RelevanceSameSymbol, "it declares a symbol you asked about"); (RelevanceAdjacentSymbol, "it declares a neighbouring API on a symbol you asked about");
     (RelevanceSameTool, "it is about the tool this command ran"); (RelevanceSharedDiagnostic, "it names the same structured error");
     (RelevanceNamedSubject, "your question names its package or symbol"); (RelevanceGoalSemantics, "its goal describes the operation you asked about")]).
Definition RelevanceLine (r : SearchResult) (req : SearchRequest) (argv : list string) : string :=
  match RelevanceSignals r req argv with [] => "" | signals => "Relevance: " +:+ Join (map relevance_phrase signals) "; " +:+ "." end.

(** ** The gate *)

Definition SuppressionReason (r : SearchResult) (req : SearchRequest) (argv : list string) : string :=
  if (0 <? length argv)%nat && UnrelatedToCommand r argv then SuppressedUnrelatedEcosystem
  else if negb (RelevantToRequest r req argv) then SuppressedInsufficientGoalOverlap
  else "".

Record SuppressedCandidate := mkSuppressed {
  sup_SampleID : string; sup_Packages : list string; sup_Grade : MatchGrade; sup_Confidence : string; sup_Score : float64; sup_Reason : string; sup_Signals : list string }.

Definition suppressed_candidate (r : SearchResult) (req : SearchRequest) (argv : list string) : SuppressedCandidate :=
  mkSuppressed (res_SampleID r) (match res_Case r with Some c => case_Packages c | None => [] end) (res_Grade r) (res_Confidence r) (res_Score r)
    (SuppressionReason r req argv) (RelevanceSignals r req argv).

Fixpoint split_results (req : SearchRequest) (argv : list string) (results : list SearchResult) : list SearchResult * list SuppressedCandidate :=
  match results with
  | [] => ([], [])
  | r :: rest =>
      let '(kept, suppressed) := split_results req argv rest in
      if String.eqb (SuppressionReason r req argv) "" then (r :: kept, suppressed) else (kept, suppressed_candidate r req argv :: suppressed)
  end.

Definition GateNormalOutput (req : SearchRequest) (resp : SearchResponse) (argv : list string) : SearchResponse * list SuppressedCandidate :=
  if resp_Miss resp || Nat.eqb (length (resp_Results resp)) 0 then (resp, [])
  else
    let '(kept, suppressed) := split_results req argv (resp_Results resp) in
    (mkResponse (resp_SchemaVersion resp) kept (if Nat.eqb (length kept) 0 then true else resp_Miss resp), suppressed).

(** ** The debug trace *)

Definition DiagnosticSchemaVersion : string := "csx.debug.v1".
Definition DependencyUnknown : string := "unknown".

Record DiagnosticVersions := mkVersions { dv_Client : string; dv_Server : string; dv_Protocol : string; dv_Payload : Z }.
Record DiagnosticCoordinate := mkCoordinate { dc_Packages : list string; dc_Symbols : list string; dc_Environment : EnvironmentFingerprint }.
Record DiagnosticDecomposition := mkDecomposition {
  dd_PackageCount : Z; dd_SymbolCount : Z; dd_ContextSymbolCount : Z; dd_StructuredDiagnostics : Z; dd_TopicTokenCount : Z }.
Record DiagnosticPipelineStep := mkPipelineStep {
  ps_Stage : string; ps_InputCount : Z; ps_OutputCount : Z; ps_RejectedCount : Z; ps_ElapsedMicros : Z; ps_EvidenceSource : string }.
Record DiagnosticCandidate := mkDiagnosed {
  dg_SampleID : string; dg_Packages : list string; dg_Match : MatchGrade; dg_Score : float64; dg_Outcome : string; dg_ReasonCodes : list string;
  dg_RelevanceSignals : list string; dg_FeatureContribution : gmap string float64 }.
Record DiagnosticEvidence := mkDiagnosticEvidence {
  de_UsageObservationScope : string; de_UsageObservationSymbolProof : bool; de_VerifiedCoordinateCount : Z; de_UnverifiedCoordinateCount : Z; de_DependencyState : string }.
Record DiagnosticFailureEvent := mkFailureEvent {
  fe_ActualToolchain : string; fe_ActualStage : string; fe_DiagnosticCode : string; fe_Fingerprint : string; fe_DiagnosticQuality : string; fe_StageEvidence : string; fe_EvidenceGap : string }.
Record DiagnosticFailure := mkDiagnosticFailure {
  df_OuterCommand : string; df_OuterStage : string; df_ExitCode : Z; df_Termination : string; df_Events : list DiagnosticFailureEvent }.
Record DiagnosticGap := mkGap { gap_Code : string; gap_ReasonCode : string; gap_Detail : string }.
#[export] Instance DiagnosticGap_eq_dec : EqDecision DiagnosticGap.
Proof. solve_decision. Defined.

(** [Decision] is a grade, or empty. *)
Record DiagnosticTrace := mkTrace {
  dt_SchemaVersion : string; dt_RequestID : string; dt_Versions : DiagnosticVersions; dt_Coordinate : DiagnosticCoordinate; dt_Query : DiagnosticDecomposition;
  dt_Pipeline : list DiagnosticPipelineStep; dt_Candidates : list DiagnosticCandidate; dt_Evidence : DiagnosticEvidence; dt_Failure : option DiagnosticFailure;
  dt_Gaps : list DiagnosticGap; dt_Decision : option MatchGrade; dt_PotentialAnomaly : bool }.

(** The random source gives twelve bytes or fails. *)
Definition newDiagnosticRequestID (entropy : option (list Z)) : string :=
  match entropy with Some b => "req_" +:+ hex_encode b | None => "req_unavailable" end.
Definition IsDiagnosticRequestID (id : string) : bool :=
  if negb (str_len id =? 28) || negb (String.eqb (str_take 4 id) "req_") then false else str_forall lower_hex (str_drop 4 id).

Definition public_coordinate (raw : string) : option string := match ParsePURL raw with Ok p => Some (purl_String p) | Err _ => None end.
Definition normalizedPublicCoordinates (raw : list string) : list string := sort_strings (omap public_coordinate raw).

Definition path_like (symbol : string) : bool :=
  HasPrefix symbol "/" || HasPrefix symbol "./" || HasPrefix symbol "../" || Contains symbol "/../".
Definition symbol_breaks : string := String (chr 92) (String (chr 13) (String (chr 10) (String (chr 9) ""))).
Definition unsafe_symbol (symbol : string) : bool :=
  String.eqb symbol "" || (128 <? str_len symbol) || path_like symbol || Contains symbol "://" || ContainsAny symbol symbol_breaks.
Definition safeDiagnosticSymbols (raw : list string) : list string :=
  sort_strings (List.filter (fun s => negb (unsafe_symbol s)) (map TrimSpace raw)).

Definition diagnosticPresence (req : SearchRequest) : Z :=
  (if negb (String.eqb (sr_ErrorCode req) "") then 1 else 0)
  + (if negb (String.eqb (sr_ErrorFingerprint req) "") || (0 <? length (sr_ErrorFingerprints req))%nat then 1 else 0).

Definition zlen {A} (l : list A) : Z := Z.of_nat (length l).

Definition NewDiagnosticTrace (entropy : option (list Z)) (req : SearchRequest) : DiagnosticTrace :=
  mkTrace DiagnosticSchemaVersion (newDiagnosticRequestID entropy) (mkVersions "" "" "" (sr_SchemaVersion req))
    (mkCoordinate (normalizedPublicCoordinates (sr_Packages req)) (safeDiagnosticSymbols (sr_Symbols req)) (env_Normalize (sr_Environment req)))
    (mkDecomposition (zlen (sr_Packages req)) (zlen (sr_Symbols req)) (zlen (sr_ContextSymbols req)) (diagnosticPresence req) 0)
    [] [] (mkDiagnosticEvidence "project-level" false 0 0 DependencyUnknown) None [] None false.

Definition set_trace (pipeline : list DiagnosticPipelineStep) (candidates : list DiagnosticCandidate) (d : DiagnosticTrace) : DiagnosticTrace :=
  mkTrace (dt_SchemaVersion d) (dt_RequestID d) (dt_Versions d) (dt_Coordinate d) (dt_Query d) pipeline candidates (dt_Evidence d) (dt_Failure d) (dt_Gaps d)
    (dt_Decision d) (dt_PotentialAnomaly d).
Definition set_decision (gaps : list DiagnosticGap) (decision : MatchGrade) (d : DiagnosticTrace) : DiagnosticTrace :=
  mkTrace (dt_SchemaVersion d) (dt_RequestID d) (dt_Versions d) (dt_Coordinate d) (dt_Query d) (dt_Pipeline d) (dt_Candidates d) (dt_Evidence d) (dt_Failure d) gaps
    (Some decision) (dt_PotentialAnomaly d).

(** [AddGap] on the gaps of a trace that is there. *)
Definition AddGap (code reason detail : string) (gaps : list DiagnosticGap) : list DiagnosticGap :=
  if String.eqb code "" || String.eqb reason "" then gaps
  else let gap := mkGap code reason detail in if bool_decide (gap ∈ gaps) then gaps else (gaps ++ [gap])%list.

Definition appendDiagnosticReason (values : list string) (value : string) : list string := if str_in value values then values else (values ++ [value])%list.

(** The first candidate of the sample is changed. *)
Fixpoint update_candidate (sampleID : string) (f : DiagnosticCandidate -> DiagnosticCandidate) (cs : list DiagnosticCandidate) : option (list DiagnosticCandidate) :=
  match cs with
  | [] => None
  | c :: cs => if String.eqb (dg_SampleID c) sampleID then Some (f c :: cs) else option_map (cons c) (update_candidate sampleID f cs)
  end.

Definition with_signals (signals : list string) (c : DiagnosticCandidate) : DiagnosticCandidate :=
  mkDiagnosed (dg_SampleID c) (dg_Packages c) (dg_Match c) (dg_Score c) (dg_Outcome c) (dg_ReasonCodes c) signals (dg_FeatureContribution c).
Definition with_suppression (s : SuppressedCandidate) (c : DiagnosticCandidate) : DiagnosticCandidate :=
  mkDiagnosed (dg_SampleID c) (dg_Packages c) (dg_Match c) (dg_Score c) "suppressed" (appendDiagnosticReason (dg_ReasonCodes c) (sup_Reason s)) (sup_Signals s)
    (dg_FeatureContribution c).

Definition note_result (req : SearchRequest) (cs : list DiagnosticCandidate) (r : SearchResult) : list DiagnosticCandidate :=
  default cs (update_candidate (res_SampleID r) (with_signals (RelevanceSignals r req [])) cs).
Definition note_suppressed (cs : list DiagnosticCandidate) (s : SuppressedCandidate) : list DiagnosticCandidate :=
  match update_candidate (sup_SampleID s) (with_suppression s) cs with
  | Some cs => cs
  | None =>
      if (length cs <? 50)%nat
      then (cs ++ [mkDiagnosed (sup_SampleID s) (sup_Packages s) (sup_Grade s) (sup_Score s) "suppressed" [sup_Reason s] (sup_Signals s) ∅])%list
      else cs
  end.

(** The trace of a response that is there. *)
Definition RecordOutputGateDiagnostic (entropy : option (list Z)) (resp : SearchResponse) (diagnostic : option DiagnosticTrace) (req : SearchRequest) (beforeGate : Z)
    (suppressed : list SuppressedCandidate) : option DiagnosticTrace :=
  if negb (sr_Debug req) then diagnostic
  else
    let d := default (NewDiagnosticTrace entropy req) diagnostic in
    if existsb (fun step => String.eqb (ps_Stage step) "output-relevance") (dt_Pipeline d) then Some d
    else
      let pipeline := (dt_Pipeline d ++ [mkPipelineStep "output-relevance" beforeGate (zlen (resp_Results resp)) (zlen suppressed) 0 "stable-relevance-reason-codes"])%list in
      let d := set_trace pipeline (fold_left note_suppressed suppressed (fold_left (note_result req) (resp_Results resp) (dt_Candidates d))) d in
      match resp_Miss resp, resp_Results resp with
      | false, r :: _ => Some (set_decision (dt_Gaps d) (res_Grade r) d)
      | _, _ =>
          Some (set_decision
                  (if (0 <? length suppressed)%nat
                   then AddGap "BOUNDARY" "CANDIDATE_REJECTED_BY_RELEVANCE" "retrieved candidates shared no concrete subject with the request" (dt_Gaps d)
                   else dt_Gaps d) GradeNoSafeMatch d)
      end.

(** ** Error identifiers *)

Definition code_mark (c : ascii) : bool := is_digit c || Ascii.eqb c "_".

Fixpoint str_toks (s : string) : list tok := match s with "" => [] | String c s' => (bv c, single c) :: str_toks s' end.

Lemma toks_ascii s : str_forall is_ascii_byte s = true -> toks s = str_toks s.
Proof.
  unfold toks. induction s as [|c s IH]; [done|]. cbn [str_forall str_toks]. intros [Hc Hs]%andb_true_iff. rewrite toks_skip_cons.
  unfold is_ascii_byte in Hc. apply Z.ltb_lt in Hc. rewrite decode_ascii by done. cbn. by rewrite IH.
Qed.

(** The bytes of tokens in a class of ASCII runes. *)
Lemma text_class (P : Z -> bool) (Q : ascii -> bool) l : (forall z, P z = true -> 0 <= z < 128) -> (forall c, P (bv c) = true -> Q c = true) ->
  Forall tok_ok l -> Forall (fun t => P (fst t) = true) l -> str_forall Q (text l) = true.
Proof.
  intros A PQ. induction l as [|t l IH]; [done|]. intros [T L]%Forall_cons_1 [Pt Pl]%Forall_cons_1. cbn [text]. rewrite str_forall_app, IH by done. rewrite andb_true_r.
  destruct T as [[R ->]|[R _]]; [|specialize (A _ Pt); lia]. cbn. rewrite andb_true_r. apply PQ. by rewrite bv_chr by lia.
Qed.

Lemma star_class P w l p c : Forall (fun t : tok => P (fst t) = true) w -> exists p', run (RStar (RClass P)) p (w ++ l)%list c p' l c.
Proof.
  revert p. induction w as [|t w IH]; intros p F; [exists p; constructor|]. apply Forall_cons_1 in F as [Ft F]. destruct (IH (Some (fst t)) F) as [p' R].
  exists p'. cbn [app]. econstructor; [by constructor|exact R].
Qed.

Lemma search_begin r l : (forall z l', matchAt r (Some z) l' = None) -> (search r None l <> None <-> matchAt r None l <> None).
Proof.
  intros N. assert (S : forall l z, search r (Some z) l = None) by (induction l0 as [|t l0 IH]; intros z; cbn [search]; by rewrite N).
  destruct l as [|t l]; cbn [search]; destruct (matchAt r None _) as [[l' c]|]; try done. by rewrite S.
Qed.

Definition code_class : Z -> bool := either (either re_upper re_digit) (any_of "_").

Lemma code_class_byte c : code_class (bv c) = error_code_byte c.
Proof.
  unfold code_class, either, error_code_byte, is_upper, is_digit, re_upper, re_digit, rng, any_of. cbn [bv]. rewrite orb_false_r. do 2 f_equal.
  destruct (Ascii.eqb_spec c "_") as [->|N]; [done|]. apply Z.eqb_neq. intros E. apply N. by apply bv_inj.
Qed.

Lemma run_seq_inv a b p l c p2 l2 c2 : run (RSeq a b) p l c p2 l2 c2 -> exists p1 l1 c1, run a p l c p1 l1 c1 /\ run b p1 l1 c1 p2 l2 c2.
Proof. inversion 1; subst. eauto. Qed.
Lemma run_class_inv P p l c p' l' c' : run (RClass P) p l c p' l' c' -> exists t, l = t :: l' /\ P (fst t) = true.
Proof. inversion 1; subst. eauto. Qed.

Lemma tok_ascii (t : tok) : tok_ok t -> fst t < 128 -> exists c, snd t = single c /\ bv c = fst t.
Proof. intros [[R E]|[R _]] L; [|lia]. exists (chr (fst t)). split; [done|]. rewrite bv_chr; lia. Qed.

Lemma code_class_ascii z : code_class z = true -> 0 <= z < 128.
Proof.
  unfold code_class, either, re_upper, re_digit, rng, any_of. change (bv "A") with 65. change (bv "Z") with 90. change (bv "0") with 48. change (bv "9") with 57. change (bv "_") with 95.
  rewrite !orb_true_iff, !andb_true_iff, !Z.leb_le, Z.eqb_eq. intros [[?|?]|[?|?]]; try done; lia.
Qed.

Lemma str_toks_app a b : str_toks (a +:+ b) = (str_toks a ++ str_toks b)%list.
Proof. induction a as [|c a IH]; [done|]. cbn. by rewrite <- IH. Qed.

Lemma str_toks_class (P : Z -> bool) (Q : ascii -> bool) s : (forall c, Q c = true -> P (bv c) = true) -> str_forall Q s = true -> Forall (fun t : tok => P (fst t) = true) (str_toks s).
Proof. intros H. induction s as [|c s IH]; cbn; [constructor|]. intros [Hc Hs]%andb_true_iff. constructor; [by apply H|auto]. Qed.

(** Up to the first byte of a kind. *)
Lemma first_byte (q : ascii -> bool) s : str_exists q s = true -> exists a c b, s = a +:+ String c b /\ q c = true /\ str_forall (fun x => negb (q x)) a = true.
Proof.
  unfold str_exists. induction s as [|x s IH]; cbn; [done|]. destruct (q x) eqn:E; [intros _; by exists "", x, s|]. cbn. intros H. destruct (IH H) as (a & c & b & -> & Hc & Ha).
  exists (String x a), c, b. cbn. by rewrite E, Ha.
Qed.

Lemma str_exists_app q a b : str_exists q (a +:+ b) = str_exists q a || str_exists q b.
Proof. unfold str_exists. by rewrite str_forall_app, negb_andb. Qed.
Lemma str_exists_cons q c s : str_exists q (String c s) = q c || str_exists q s.
Proof. unfold str_exists. cbn [str_forall]. by rewrite negb_andb, negb_involutive. Qed.

Lemma mark_class c : either re_digit (any_of "_") (bv c) = code_mark c.
Proof.
  unfold either, code_mark, is_digit, re_digit, rng, any_of. rewrite orb_false_r. f_equal.
  destruct (Ascii.eqb_spec c "_") as [->|N]; [done|]. apply Z.eqb_neq. intros E. apply N. by apply bv_inj.
Qed.

(** An error identifier lifted out of a text is a code with a digit or an
    underscore in it, or one of the standard names. *)
Lemma diagnosticToken_shape t : MatchString diagnosticToken t = true <->
  exists c t', t = String c t' /\ is_upper c = true /\ str_forall error_code_byte t' = true /\ str_exists code_mark t' = true.
Proof.
  assert (M : MatchString diagnosticToken t = true <-> matchAt diagnosticToken None (toks t) <> None).
  { rewrite <- search_begin by done. unfold MatchString. by destruct (search _ _ _). }
  rewrite M, matchAt_decides by done. split.
  - intros (p' & l' & c' & R). apply run_seq_inv in R as (p1 & l1 & c1 & R1 & R). inversion R1; subst; clear R1. apply run_seq_inv in R as (p2 & l2 & c2 & R2 & R). apply run_class_inv in R2 as (t0 & E0 & U).
    apply run_seq_inv in R as (p3 & l3 & c3 & R3 & R). apply run_prefix in R3 as (w1 & -> & F1 & _ & _). apply run_seq_inv in R as (p4 & l4 & c4 & R4 & R). inversion R; subst; clear R.
    apply run_seq_inv in R4 as (p5 & l5 & c5 & R5 & R4). apply run_prefix in R4 as (w3 & -> & F3 & _ & _). apply run_seq_inv in R5 as (p6 & l6 & c6 & R6 & R5). apply run_class_inv in R6 as (t1 & -> & D).
    apply run_prefix in R5 as (w2 & E5 & F2 & _ & _). rewrite app_nil_r in E5. subst l6. pose proof (toks_ok t) as Ok. rewrite E0 in Ok. apply Forall_cons_1 in Ok as [T0 Ok]. apply Forall_app in Ok as [O1 Ok].
    apply Forall_cons_1 in Ok as [T1 Ok]. apply Forall_app in Ok as [O2 O3].
    assert (C1 : forall z, chars (RStar (RClass (either re_upper re_digit))) z = true -> code_class z = true) by (intros z Hz; unfold code_class, either in *; cbn in Hz; unfold either in Hz; by rewrite Hz).
    assert (C3 : forall z, chars (RStar code_part) z = true -> code_class z = true).
    { intros z Hz. unfold code_part in Hz. cbn [chars] in Hz. unfold code_class, either in *. destruct (re_upper z), (re_digit z), (any_of "_" z); done. }
    assert (Cd : code_class (fst t1) = true) by (unfold code_class, either in *; destruct (re_upper (fst t1)), (re_digit (fst t1)); done).
    assert (Cu : code_class (fst t0) = true) by (unfold code_class, either in *; by rewrite U).
    destruct (tok_ascii t0 T0 (proj2 (code_class_ascii _ Cu))) as (c0 & S0 & B0), (tok_ascii t1 T1 (proj2 (code_class_ascii _ Cd))) as (d0 & S1 & B1).
    assert (Tx : forall l (Q : Z -> bool), (forall z, Q z = true -> code_class z = true) -> Forall tok_ok l -> Forall (fun t => Q (fst t) = true) l -> str_forall error_code_byte (text l) = true).
    { intros l Q HQ Ol Fl. apply (text_class code_class); [exact code_class_ascii|intros c; by rewrite code_class_byte|done|]. eapply List.Forall_impl; [|exact Fl]. cbn. auto. }
    exists c0, (text w1 +:+ String d0 (text w2 +:+ text w3)). split; [|split; [|split]].
    + rewrite <- (toks_text t), E0. cbn [text]. rewrite text_app. cbn [text]. rewrite text_app, S0, S1. done.
    + unfold is_upper. rewrite B0. exact U.
    + rewrite str_forall_app, (Tx w1 _ C1 O1 F1). cbn [str_forall]. rewrite str_forall_app, <- code_class_byte, B1, Cd. rewrite (Tx w2 _ ltac:(exact (fun z H => H)) O2 F2). by rewrite (Tx w3 _ C3 O3 F3).
    + rewrite str_exists_app, str_exists_cons, <- mark_class, B1, D. by rewrite orb_true_r.
  - intros (c & t' & -> & U & F & X). destruct (first_byte _ _ X) as (a & d & b & -> & Hd & Ha). rewrite str_forall_app in F. apply andb_true_iff in F as [Fa Fb]. cbn [str_forall] in Fb. apply andb_true_iff in Fb as [Fd Fb].
    rewrite toks_ascii.
    2:{ cbn [str_forall]. rewrite str_forall_app. cbn [str_forall]. assert (A : forall x, error_code_byte x = true -> is_ascii_byte x = true) by (intros x H; rewrite <- code_class_byte in H; apply code_class_ascii in H; apply Z.ltb_lt; lia).
        rewrite (str_forall_impl _ _ a A Fa), (str_forall_impl _ _ b A Fb), (A d Fd). rewrite (A c); [done|]. unfold error_code_byte. by rewrite U. }
    cbn [str_toks]. rewrite str_toks_app. cbn [str_toks].
    destruct (star_class (either re_upper re_digit) (str_toks a) ((bv d, single d) :: str_toks b)%list (Some (bv c)) []) as [p1 R1].
    { apply (str_toks_class _ (fun x => error_code_byte x && negb (code_mark x))).
      - intros x [H1 H2]%andb_true_iff. unfold error_code_byte, code_mark in *. apply negb_true_iff, orb_false_iff in H2 as [H2 H3]. rewrite H2, H3, !orb_false_r in H1. unfold either. change (re_upper (bv x)) with (is_upper x). by rewrite H1.
      - clear -Fa Ha. induction a as [|x a IH]; [done|]. cbn in *. rewrite !andb_true_iff in *. destruct Fa, Ha. rewrite IH by done. auto. }
    destruct (star_class code_class (str_toks b) [] (Some (bv d)) []) as [p2 R2]; [apply (str_toks_class _ error_code_byte); [intros x; by rewrite code_class_byte|done]|]. rewrite app_nil_r in R2.
    exists p2, [], []. eapply run_seq; [by constructor|]. eapply run_seq; [apply run_class; exact U|]. eapply run_seq; [exact R1|]. eapply run_seq; [|constructor].
    eapply run_seq; [|apply run_star_nil]. eapply run_seq; [apply run_class; cbn; by rewrite mark_class|exact R2].
Qed.

(** ** What links a sample to a request *)

Definition about_package (a b : string) : Prop :=
  exists p q, ParsePURL a = Ok p /\ ParsePURL b = Ok q /\ purl_Ecosystem p = purl_Ecosystem q /\ ToLower (purl_Name p) = ToLower (purl_Name q).

Lemma ecosystem_lower a p : ParsePURL a = Ok p -> ToLower (purl_Ecosystem p) = purl_Ecosystem p /\ lacks "/" (purl_Ecosystem p) = true.
Proof.
  intros H. destruct (ParsePURL_inv a p H) as (eco & e & v & n & _ & L & _ & _ & _ & _ & ->). cbn [purl_Ecosystem]. split; [apply ToLower_idem|]. by apply ToLower_lacks.
Qed.

Lemma lacks_split a b a' b' c : lacks c a = true -> lacks c a' = true -> a +:+ String c b = a' +:+ String c b' -> a = a' /\ b = b'.
Proof.
  revert a'. induction a as [|x a IH]; intros [|y a'] La La' E; cbn in E.
  - injection E as ->. done.
  - injection E as <- _. unfold lacks in La'. cbn in La'. by rewrite Ascii.eqb_refl in La'.
  - injection E as -> _. unfold lacks in La. cbn in La. by rewrite Ascii.eqb_refl in La.
  - injection E as -> E. unfold lacks in *. cbn in La, La'. apply andb_true_iff in La as [_ La], La' as [_ La']. destruct (IH a' La La' E) as [-> ->]. done.
Qed.

Lemma package_identity_same a b k : package_identity a = Some k -> (package_identity b = Some k <-> about_package a b).
Proof.
  unfold package_identity, about_package. destruct (ParsePURL a) as [p|] eqn:Pa; [|done]. intros [= <-]. destruct (ecosystem_lower _ _ Pa) as [Ep Lp]. split.
  - destruct (ParsePURL b) as [q|] eqn:Pb; [|done]. intros [= E]. destruct (ecosystem_lower _ _ Pb) as [Eq Lq]. exists p, q. split; [done|]. split; [done|].
    change ("/" +:+ purl_Name q) with (String "/" (purl_Name q)) in E. change ("/" +:+ purl_Name p) with (String "/" (purl_Name p)) in E. rewrite !ToLower_sep, Ep, Eq in E by done.
    change (lower_byte "/") with "/"%char in E. apply lacks_split in E as [-> ->]; done.
  - intros (p' & q & [= <-] & -> & E & N). f_equal. change ("/" +:+ purl_Name q) with (String "/" (purl_Name q)). change ("/" +:+ purl_Name p) with (String "/" (purl_Name p)).
    by rewrite !ToLower_sep, E, N by done.
Qed.

Lemma sharesPackage_spec requested declared : sharesPackage requested declared = true <-> exists a b, In a requested /\ In b declared /\ about_package a b.
Proof.
  unfold sharesPackage. assert (B : forall a k, package_identity a = Some k -> (str_in k (omap package_identity declared) = true <-> exists b, In b declared /\ about_package a b)).
  { intros a k Ha. rewrite str_in_In, <- list_elem_of_In, list_elem_of_omap. split.
    - intros (b & I & E). exists b. split; [by apply list_elem_of_In|by apply (package_identity_same a b k)].
    - intros (b & I & S). exists b. split; [by apply list_elem_of_In|by apply (package_identity_same a b k)]. }
  destruct (Nat.eqb_spec (length requested) 0) as [E|_]; [destruct requested; [|done]; cbn; split; [done|by intros (a & b & [] & _)]|].
  destruct (Nat.eqb_spec (length declared) 0) as [E|_]; [destruct declared; [|done]; cbn; split; [done|by intros (a & b & _ & [] & _)]|]. cbn [orb]. rewrite existsb_exists. split.
  - intros (a & Ia & H). destruct (package_identity a) as [k|] eqn:Ea; [|done]. apply (B a k Ea) in H as (b & Ib & S). eauto.
  - intros (a & b & Ia & Ib & S). exists a. split; [done|]. pose proof S as (p & q & Pa & _). unfold package_identity at 1. rewrite Pa.
    apply (B a); [unfold package_identity; by rewrite Pa|eauto].
Qed.

Definition one_symbol (s d : string) : Prop := ToLower (TrimSpace s) = ToLower (TrimSpace d) /\ ToLower (TrimSpace d) <> "".

Lemma have_symbols_lookup declared have k : is_Some (have_symbols have declared !! k) <-> is_Some (have !! k) \/ exists d, In d declared /\ ToLower (TrimSpace d) = k /\ k <> "".
Proof.
  revert have. induction declared as [|x declared IH]; intros have; cbn [have_symbols]; [split; [by left|by intros [H|(d & [] & _)]]|]. rewrite IH. clear IH.
  set (key := ToLower (TrimSpace x)). assert (E : is_Some ((if negb (String.eqb key "") then match have !! key with Some _ => have | None => <[key := TrimSpace x]> have end else have) !! k)
    <-> is_Some (have !! k) \/ (key = k /\ k <> "")).
  { destruct (String.eqb_spec key "") as [K|K]; cbn [negb]; [split; [by left|intros [H|[-> H]]; done]|]. destruct (have !! key) eqn:Hk.
    - split; [by left|]. intros [H|[-> _]]; [done|by rewrite Hk].
    - destruct (decide (key = k)) as [<-|D]; [rewrite lookup_insert_eq; split; [by right|by eexists]|]. rewrite lookup_insert_ne by done. split; [by left|intros [H|[? _]]; done]. }
  rewrite E. split.
  - intros [[H|[H1 H2]]|(d & I & H)]; [by left|right; exists x; split; [by left|done]|right; exists d; split; [by right|done]].
  - intros [H|(d & [->|I] & H)]; [by left; left|left; right; unfold key; tauto|right; eauto].
Qed.

Lemma have_symbols_nonempty declared have k v : (forall k v, have !! k = Some v -> v <> "") -> have_symbols have declared !! k = Some v -> v <> "".
Proof.
  revert have. induction declared as [|x declared IH]; intros have H; cbn [have_symbols]; [apply H|]. apply IH. intros k' v'.
  destruct (String.eqb_spec (ToLower (TrimSpace x)) "") as [K|K]; cbn [negb]; [apply H|]. destruct (have !! _); [apply H|]. intros [[_ <-]|[_ Hk]]%lookup_insert_Some; [|by eapply H].
  intros E. apply K. by rewrite E.
Qed.

Lemma MatchesDeclaredSymbols_spec requested declared : MatchesDeclaredSymbols requested declared = true <-> exists s d, In s requested /\ In d declared /\ one_symbol s d.
Proof.
  assert (M : forall have seen, (forall k v, have !! k = Some v -> v <> "") -> Forall (fun k => have !! k = None) seen ->
    matched_symbols have seen requested <> [] <-> exists s, In s requested /\ is_Some (have !! ToLower (TrimSpace s))).
  { intros have seen Ne Sn. induction requested as [|x requested IH]; cbn [matched_symbols]; [split; [done|by intros (s & [] & _)]|].
    destruct (have !! ToLower (TrimSpace x)) as [v|] eqn:E; cbn [default from_option id].
    - rewrite (proj2 (String.eqb_neq _ _) (Ne _ _ E)). cbn [negb andb]. destruct (str_in (ToLower (TrimSpace x)) seen) eqn:Sx; cbn [negb].
      + apply str_in_In in Sx. rewrite List.Forall_forall in Sn. rewrite (Sn _ Sx) in E. done.
      + split; [|done]. intros _. exists x. split; [by left|by eexists].
    - cbn [String.eqb negb andb]. rewrite IH. split; intros (s & I & H); exists s; [split; [by right|done]|]. destruct I as [->|I]; [rewrite E in H; by destruct H|done]. }
  unfold MatchesDeclaredSymbols. assert (L : 0 <? Z.of_nat (length (MatchedDeclaredSymbols requested declared)) = true <-> MatchedDeclaredSymbols requested declared <> []).
  { rewrite Z.ltb_lt. destruct (MatchedDeclaredSymbols requested declared); cbn; split; [lia|done|done|lia]. }
  rewrite L. unfold MatchedDeclaredSymbols. transitivity (matched_symbols (have_symbols ∅ declared) [] requested <> []); [by destruct requested|].
  rewrite M; [|intros k v; by apply have_symbols_nonempty|constructor]. setoid_rewrite have_symbols_lookup. setoid_rewrite lookup_empty. unfold one_symbol. split.
  - intros (s & I & [[? H]|(d & Id & E & Nk)]); [done|]. exists s, d. rewrite E. done.
  - intros (s & d & I & Id & E & Nk). exists s. split; [done|]. right. exists d. by rewrite E.
Qed.

(** The owner of a symbol: what precedes its last separator, and identifies
    something. *)
Definition symbol_owner (o s : string) : Prop :=
  exists c rest, ToLower (TrimSpace s) = o +:+ String c rest /\ in_set "./:#" c = true /\ str_forall (fun x => negb (in_set "./:#" x)) rest = true
    /\ o <> "" /\ exists t, In t (ContentTokens o) /\ IsGeneric t = false.

Lemma symbolOwner_spec o s : o <> "" -> (symbolOwner s = o <-> symbol_owner o s).
Proof.
  intros No. unfold symbolOwner, LastIndexAny. set (x := ToLower (TrimSpace s)). split.
  - destruct (last_index_by _ x) as [[|i]|] eqn:E; [congruence| |congruence]. destruct (existsb _ _) eqn:Ex; [|congruence]. intros <-. apply last_index_by_Some in E as (c & Es & Hc & Hf & _).
    exists c, (str_drop (S (S i)) x). split; [exact Es|]. split; [done|]. split; [done|]. split; [done|]. apply existsb_exists in Ex as (t & I & G). exists t. split; [done|]. by apply negb_true_iff.
  - intros (c & rest & E & Hc & Hf & _ & t & I & G). fold x in E. rewrite E, last_index_by_app by done. destruct o as [|y o]; [done|]. cbn [String.length].
    change (S (String.length o)) with (String.length (String y o)). rewrite str_take_app.
    destruct (existsb _ _) eqn:Ex; [done|]. exfalso. apply not_true_iff_false in Ex. apply Ex. apply existsb_exists. exists t. by rewrite G.
Qed.

Lemma sharesSymbolOwner_spec requested declared : sharesSymbolOwner requested declared = true <-> exists s d o, In s requested /\ In d declared /\ symbol_owner o s /\ symbol_owner o d.
Proof.
  unfold sharesSymbolOwner. rewrite existsb_exists. setoid_rewrite andb_true_iff. setoid_rewrite str_in_In. setoid_rewrite List.filter_In. setoid_rewrite in_map_iff. split.
  - intros (s & I & N & (d & E & Id) & _). apply negb_true_iff, String.eqb_neq in N. exists s, d, (symbolOwner s). split; [done|]. split; [done|]. split; by apply symbolOwner_spec.
  - intros (s & d & o & I & Id & Os & Od). assert (No : o <> "") by (destruct Os as (c & rest & _ & _ & _ & N & _); done). apply (symbolOwner_spec o _ No) in Os, Od. exists s. split; [done|]. rewrite Os.
    apply String.eqb_neq in No. rewrite No. split; [done|]. split; [|done]. exists d. done.
Qed.

(** A structured error the request carries: the declared code, or a word of
    the caller's own that has the shape of one. *)
Definition names_code (req : SearchRequest) (code : string) : Prop :=
  (code = TrimSpace (sr_ErrorCode req) /\ code <> "")
  \/ (In code (fields_by error_code_byte (CallerQuestion req))
      /\ (str_in code standardErrnoToken = true
          \/ exists c t, code = String c t /\ is_upper c = true /\ str_forall error_code_byte t = true /\ str_exists code_mark t = true)).

Inductive linked (req : SearchRequest) (argv : list string) (r : SearchResult) : Prop :=
| by_failure : res_ExactFailureMatched r = true -> linked req argv r
| by_package c a b : res_Case r = Some c -> In a (sr_Packages req) -> In b (case_Packages c) -> about_package a b -> linked req argv r
| by_symbol c s d : res_Case r = Some c -> In s (sr_Symbols req ++ sr_ContextSymbols req)%list -> In d (case_Symbols c) -> one_symbol s d -> linked req argv r
| by_owner c s d o : res_Case r = Some c -> In s (sr_Symbols req ++ sr_ContextSymbols req)%list -> In d (case_Symbols c) -> symbol_owner o s -> symbol_owner o d -> linked req argv r
| by_tool c a : res_Case r = Some c -> In a (case_Packages c) -> CommandTool argv <> "" -> is_tool (tool_names (CommandTool argv)) (package_name a) = true -> linked req argv r
| by_code c code : res_Case r = Some c -> names_code req code -> ContainsIdentifier (subjectText r) code = true -> linked req argv r
| by_name c : res_Case r = Some c -> NamesSubject (CallerQuestion req) (packageNames r) (declaredSymbols r) = true -> linked req argv r
| by_goal c : res_Case r = Some c -> sameGoalSemantics (CallerQuestion req) (case_Goal c) = true -> linked req argv r.

Lemma requestDiagnostics_spec req code : In code (requestDiagnostics (CallerQuestion req) (sr_ErrorCode req)) <-> names_code req code.
Proof.
  unfold requestDiagnostics, names_code. rewrite in_app_iff, List.filter_In. unfold isDiagnosticToken. rewrite orb_true_iff, diagnosticToken_shape.
  destruct (String.eqb_spec (TrimSpace (sr_ErrorCode req)) "") as [E|E]; cbn [In].
  - split; [intros [[]|[I [H|H]]]; right; auto|]. intros [[-> N]|[I [H|H]]]; [done|right; auto|right; auto].
  - split; [intros [[<-|[]]|[I [H|H]]]; [left; done|right; auto|right; auto]|]. intros [[-> N]|[I [H|H]]]; [left; by left|right; auto|right; auto].
Qed.

Lemma namesTool_spec c argv : namesTool (map package_name (case_Packages c)) argv = true <->
  exists a, In a (case_Packages c) /\ CommandTool argv <> "" /\ is_tool (tool_names (CommandTool argv)) (package_name a) = true.
Proof.
  unfold namesTool. destruct (String.eqb_spec (CommandTool argv) "") as [E|E].
  - split; [done|]. by intros (a & _ & N & _).
  - rewrite existsb_exists. setoid_rewrite in_map_iff. split; [intros (n & (a & <- & I) & H); eauto|intros (a & I & _ & H); exists (package_name a); eauto].
Qed.

Lemma on_nil b x : on b x <> [] <-> b = true.
Proof. by destruct b. Qed.
Lemma app_not_nil {A} (a b : list A) : (a ++ b)%list <> [] <-> a <> [] \/ b <> [].
Proof. destruct a; cbn; [tauto|]. split; [by left|done]. Qed.

(** A signal is named exactly when there is a link. *)
Lemma signals_spec req argv r : RelevanceSignals r req argv <> [] <-> linked req argv r.
Proof.
  unfold RelevanceSignals. rewrite app_not_nil, on_nil. destruct (res_Case r) as [c|] eqn:Ec.
  2:{ split; [intros [H|H]; [by apply by_failure|done]|]. intros [H|? ? ? H|? ? ? H|? ? ? ? H|? ? H|? ? H|? H|? H]; [by left|congruence..]. }
  assert (Pn : packageNames r = map package_name (case_Packages c)) by (unfold packageNames; by rewrite Ec). assert (Ds : declaredSymbols r = case_Symbols c) by (unfold declaredSymbols; by rewrite Ec).
  set (requested := (sr_Symbols req ++ sr_ContextSymbols req)%list). cbv zeta. rewrite !app_not_nil, !on_nil.
  assert (Sy : (if MatchesDeclaredSymbols requested (declaredSymbols r) then [RelevanceSameSymbol] else on (sharesSymbolOwner requested (declaredSymbols r)) RelevanceAdjacentSymbol) <> []
    <-> MatchesDeclaredSymbols requested (declaredSymbols r) = true \/ sharesSymbolOwner requested (declaredSymbols r) = true).
  { destruct (MatchesDeclaredSymbols _ _); [split; [by left|done]|]. rewrite on_nil. split; [by right|intros [H|H]; done]. }
  rewrite Sy, MatchesDeclaredSymbols_spec, sharesSymbolOwner_spec, sharesPackage_spec, existsb_exists. setoid_rewrite requestDiagnostics_spec. rewrite Pn at 1. rewrite namesTool_spec, Ds. split.
  - intros [H|[(a & b & Ia & Ib & S)|[[(s & d & Is & Id & S)|(s & d & o & Is & Id & So & Do)]|[(a & Ia & T & H)|[(code & Nc & H)|[H|H]]]]]].
    + by apply by_failure.
    + by eapply by_package.
    + by eapply by_symbol.
    + by eapply by_owner.
    + by eapply by_tool.
    + by eapply by_code.
    + eapply by_name; [done|]. by rewrite Ds.
    + by eapply by_goal.
  - intros [H|c' a b E Ia Ib S|c' s d E Is Id S|c' s d o E Is Id So Do|c' a E Ia T H|c' code E Nc H|c' E H|c' E H]; [by left|..]; right; assert (c' = c) by congruence; subst c'.
    + left. exists a, b. done.
    + right; left; left. exists s, d. done.
    + right; left; right. exists s, d, o. done.
    + right; right; left. exists a. done.
    + do 3 right; left. exists code. done.
    + do 4 right; left. by rewrite Ds in H.
    + do 5 right. done.
Qed.

(** What may be shown for this request. *)
Definition shown (req : SearchRequest) (argv : list string) (r : SearchResult) : Prop :=
  (argv = [] \/ UnrelatedToCommand r argv = false) /\ (res_Case r = None \/ linked req argv r).

Lemma reason_shown req argv r : String.eqb (SuppressionReason r req argv) "" = true <-> shown req argv r.
Proof.
  unfold SuppressionReason, shown, RelevantToRequest. assert (A : (0 <? length argv)%nat && UnrelatedToCommand r argv = false <-> argv = [] \/ UnrelatedToCommand r argv = false).
  { destruct argv; cbn [length Nat.ltb Nat.leb andb]; [split; [by left|done]|]. split; [by right|intros [H|H]; done]. }
  rewrite <- A. destruct ((0 <? length argv)%nat && UnrelatedToCommand r argv) eqn:E; [split; [done|by intros [? _]]|]. clear A. destruct (res_Case r) eqn:Ec; cbn [negb].
  - rewrite <- signals_spec. destruct (RelevanceSignals r req argv); cbn; [split; [done|intros [_ [H|H]]; done]|split; [intros _; split; [done|by right]|done]].
  - split; [intros _; split; [done|by left]|done].
Qed.

Lemma gate_loop_eq req argv results : split_results req argv results =
  (List.filter (fun r => String.eqb (SuppressionReason r req argv) "") results,
   map (fun r => suppressed_candidate r req argv) (List.filter (fun r => negb (String.eqb (SuppressionReason r req argv) "")) results)).
Proof. induction results as [|r results IH]; cbn; [done|]. rewrite IH. by destruct (String.eqb (SuppressionReason r req argv) ""). Qed.

(** C11.  Normal output is about the request.  The gate keeps exactly the results
    that may be shown, in their order, and sets every other one apart with its
    reason; a result with a subject is kept only when there is a concrete link:
    the caller's own failure, a package of the same ecosystem and name whatever
    the version, a declared symbol or its owner, the tool that was run, a
    structured error, the subject named in the caller's own words, or the same
    goal.  When nothing is left the answer is a miss, and gating again changes
    nothing. *)
Theorem normal_output_is_about_the_request req resp argv :
  resp_Miss resp = false -> resp_Results resp <> [] ->
  let '(out, suppressed) := GateNormalOutput req resp argv in
  (forall r, In r (resp_Results out) <-> In r (resp_Results resp) /\ shown req argv r)
  /\ resp_Results out `sublist_of` resp_Results resp
  /\ (forall s, In s suppressed -> exists r, In r (resp_Results resp) /\ ~ shown req argv r /\ s = suppressed_candidate r req argv /\ sup_Reason s <> "")
  /\ (length (resp_Results out) + length suppressed = length (resp_Results resp))%nat
  /\ (resp_Miss out = true <-> resp_Results out = [])
  /\ GateNormalOutput req out argv = (out, []).
Proof.
  intros M N. unfold GateNormalOutput at 1. rewrite M. destruct (Nat.eqb_spec (length (resp_Results resp)) 0) as [E|_]; [by destruct (resp_Results resp)|]. cbn [orb]. rewrite gate_loop_eq.
  set (keep := fun r => String.eqb (SuppressionReason r req argv) ""). set (kept := List.filter keep (resp_Results resp)). cbn [resp_Results resp_Miss]. split; [|split; [|split; [|split; [|split]]]].
  - intros r. unfold kept. rewrite List.filter_In. by rewrite <- reason_shown.
  - unfold kept. clear. induction (resp_Results resp) as [|r l IH]; cbn; [constructor|]. destruct (keep r); by constructor.
  - intros s [r [<- [I H]%List.filter_In]]%in_map_iff. exists r. split; [done|]. apply negb_true_iff in H. split; [intros S%reason_shown; congruence|]. split; [done|]. by apply String.eqb_neq.
  - rewrite length_map. unfold kept. clear. fold keep. induction (resp_Results resp) as [|r l IH]; cbn; [done|]. fold (keep r). destruct (keep r); cbn; lia.
  - destruct kept; cbn; split; done.
  - unfold GateNormalOutput. cbn [resp_Results resp_Miss resp_SchemaVersion]. destruct kept as [|r l] eqn:K; cbn [length Nat.eqb orb]; [done|].
    assert (I : split_results req argv (r :: l) = (r :: l, [])); [|rewrite I; done]. rewrite <- K, gate_loop_eq. unfold kept. clear. fold keep. induction (resp_Results resp) as [|x l IH]; cbn; [done|].
    injection IH as IH1 IH2. destruct (keep x) eqn:E; cbn; [fold (keep x); rewrite E; cbn; by rewrite IH1, IH2|by rewrite IH1, IH2].
Qed.

(** ** The trace tells what the gate did *)

Definition told (cs : list DiagnosticCandidate) (s : SuppressedCandidate) : Prop :=
  exists c, In c cs /\ dg_SampleID c = sup_SampleID s /\ dg_Outcome c = "suppressed" /\ In (sup_Reason s) (dg_ReasonCodes c).

Lemma reason_kept x values value : In x values -> In x (appendDiagnosticReason values value).
Proof. intros I. unfold appendDiagnosticReason. destruct (str_in value values); [done|]. apply in_or_app. by left. Qed.
Lemma reason_added values value : In value (appendDiagnosticReason values value).
Proof. unfold appendDiagnosticReason. destruct (str_in value values) eqn:E; [by apply str_in_In|]. apply in_or_app. right. by left. Qed.

(** One candidate is changed, and the others stay. *)
Lemma update_first_cases id f cs : match update_candidate id f cs with
  | Some cs' => exists a c b, cs = (a ++ c :: b)%list /\ cs' = (a ++ f c :: b)%list /\ dg_SampleID c = id
  | None => Forall (fun c => dg_SampleID c <> id) cs
  end.
Proof.
  induction cs as [|c cs IH]; cbn [update_candidate]; [constructor|]. destruct (String.eqb_spec (dg_SampleID c) id) as [E|E]; [by exists [], c, cs|].
  destruct (update_candidate id f cs) as [cs'|]; cbn [option_map]; [destruct IH as (a & x & b & -> & -> & H); by exists (c :: a), x, b|by constructor].
Qed.

Lemma note_suppressed_told cs s t : told cs t \/ t = s -> told (note_suppressed cs s) t \/ (50 <= length (note_suppressed cs s))%nat.
Proof.
  intros H. unfold note_suppressed. pose proof (update_first_cases (sup_SampleID s) (with_suppression s) cs) as U. destruct (update_candidate _ _ cs) as [cs'|].
  - left. destruct U as (a & c & b & -> & -> & E). destruct H as [(x & I & E1 & E2 & E3)|<-].
    + apply in_app_or in I as [I|[<-|I]]; [exists x; split; [apply in_or_app; by left|done]|exists (with_suppression s c)|exists x; split; [apply in_or_app; right; by right|done]].
      split; [apply in_or_app; right; by left|]. split; [done|]. split; [done|]. by apply reason_kept.
    + exists (with_suppression t c). split; [apply in_or_app; right; by left|]. split; [done|]. split; [done|]. apply reason_added.
  - destruct (Nat.ltb_spec (length cs) 50) as [L|L]; [left|right; lia]. destruct H as [(x & I & E)|<-]; [exists x; split; [apply in_or_app; by left|done]|].
    eexists. split; [apply in_or_app; right; by left|]. split; [done|]. split; [done|]. by left.
Qed.

Lemma note_suppressed_length cs s : (length cs <= length (note_suppressed cs s))%nat /\ ((length cs <= 50)%nat -> (length (note_suppressed cs s) <= 50)%nat).
Proof.
  unfold note_suppressed. pose proof (update_first_cases (sup_SampleID s) (with_suppression s) cs) as U. destruct (update_candidate _ _ cs) as [cs'|].
  - destruct U as (a & c & b & -> & -> & _). rewrite !length_app. cbn. lia.
  - destruct (Nat.ltb_spec (length cs) 50); rewrite ?length_app; cbn; lia.
Qed.

Lemma note_result_length req cs r : length (note_result req cs r) = length cs.
Proof.
  unfold note_result. pose proof (update_first_cases (res_SampleID r) (with_signals (RelevanceSignals r req [])) cs) as U. destruct (update_candidate _ _ cs) as [cs'|]; [|done].
  destruct U as (a & c & b & -> & -> & _). cbn. by rewrite !length_app.
Qed.

Lemma notes_told suppressed : forall cs t, told cs t \/ In t suppressed -> let cs' := fold_left note_suppressed suppressed cs in told cs' t \/ (50 <= length cs')%nat.
Proof.
  induction suppressed as [|s suppressed IH]; intros cs t H; cbn [fold_left]; [destruct H as [H|[]]; by left|].
  assert (G : forall l cs, (50 <= length cs)%nat -> (50 <= length (fold_left note_suppressed l cs))%nat).
  { induction l as [|x l IHl]; intros cs0 L; cbn [fold_left]; [done|]. apply IHl. pose proof (proj1 (note_suppressed_length cs0 x)). lia. }
  destruct H as [H|[->|H]]; [| |apply IH; by right].
  - destruct (note_suppressed_told cs s t (or_introl H)) as [K|K]; [apply IH; by left|right; by apply G].
  - destruct (note_suppressed_told cs t t (or_intror eq_refl)) as [K|K]; [apply IH; by left|right; by apply G].
Qed.

Lemma notes_length suppressed cs : (length cs <= 50)%nat -> (length (fold_left note_suppressed suppressed cs) <= 50)%nat.
Proof. revert cs. induction suppressed as [|s l IH]; intros cs L; cbn [fold_left]; [done|]. apply IH. by apply note_suppressed_length. Qed.
Lemma results_length req results cs : length (fold_left (note_result req) results cs) = length cs.
Proof. revert cs. induction results as [|r l IH]; intros cs; cbn [fold_left]; [done|]. by rewrite IH, note_result_length. Qed.

(** The trace tells what the gate did.  Recorded once, the decision is not
    recorded again; the step's counts are those of the gate; the list of
    candidates never passes fifty, and unless it is full every suppressed
    candidate is on it, marked as suppressed, with its reason; and the decision
    is the grade of the first result or the miss. *)
Theorem gate_trace_is_complete entropy resp before suppressed req d :
  sr_Debug req = true -> (forall step, In step (dt_Pipeline d) -> ps_Stage step <> "output-relevance") -> (length (dt_Candidates d) <= 50)%nat ->
  exists d', RecordOutputGateDiagnostic entropy resp (Some d) req before suppressed = Some d'
    /\ (forall entropy' resp' before' suppressed', RecordOutputGateDiagnostic entropy' resp' (Some d') req before' suppressed' = Some d')
    /\ dt_Pipeline d' = (dt_Pipeline d ++ [mkPipelineStep "output-relevance" before (zlen (resp_Results resp)) (zlen suppressed) 0 "stable-relevance-reason-codes"])%list
    /\ (length (dt_Candidates d') <= 50)%nat
    /\ (forall s, In s suppressed -> told (dt_Candidates d') s \/ length (dt_Candidates d') = 50%nat)
    /\ dt_Decision d' = Some (if resp_Miss resp then GradeNoSafeMatch else match resp_Results resp with r :: _ => res_Grade r | [] => GradeNoSafeMatch end).
Proof.
  intros D P L. unfold RecordOutputGateDiagnostic at 1. rewrite D. cbn [negb default from_option id].
  destruct (existsb _ (dt_Pipeline d)) eqn:E; [apply existsb_exists in E as (step & I & S%String.eqb_eq); by destruct (P step I)|].
  set (cs := fold_left note_suppressed suppressed _). set (step := mkPipelineStep _ _ _ _ _ _).
  assert (Lc : (length cs <= 50)%nat) by (apply notes_length; by rewrite results_length).
  assert (T : forall s, In s suppressed -> told cs s \/ length cs = 50%nat).
  { intros s I. destruct (notes_told suppressed (fold_left (note_result req) (resp_Results resp) (dt_Candidates d)) s (or_intror I)) as [H|H]; [by left|right]. fold cs in H. lia. }
  assert (R : forall gaps g, let d' := set_decision gaps g (set_trace (dt_Pipeline d ++ [step])%list cs d) in
    (forall e r b s, RecordOutputGateDiagnostic e r (Some d') req b s = Some d')).
  { intros gaps g d' e r b s. unfold RecordOutputGateDiagnostic. rewrite D. cbn [negb default from_option id]. unfold d'. cbn [dt_Pipeline set_decision set_trace]. rewrite existsb_app. cbn. by rewrite orb_true_r. }
  destruct (resp_Miss resp); [|destruct (resp_Results resp)]; eexists; (split; [reflexivity|]); (split; [apply R|]); split; done.
Qed.

(** The start of a trace holds public coordinates and plain symbols only, and
    nothing of the question. *)
Theorem new_trace_is_public entropy req :
  let d := NewDiagnosticTrace entropy req in
  (forall s, In s (dc_Symbols (dt_Coordinate d)) -> unsafe_symbol s = false /\ TrimSpace s = s)
  /\ (forall p, In p (dc_Packages (dt_Coordinate d)) -> exists raw q, In raw (sr_Packages req) /\ ParsePURL raw = Ok q /\ p = purl_String q)
  /\ (forall q, NewDiagnosticTrace entropy (set_Query q req) = d)
  /\ (forall b, entropy = Some b -> length b = 12%nat -> Forall (fun x => 0 <= x < 256) b -> IsDiagnosticRequestID (dt_RequestID d) = true).
Proof.
  cbn zeta. split; [|split; [|split]].
  - intros s. cbn [NewDiagnosticTrace dt_Coordinate dc_Symbols]. unfold safeDiagnosticSymbols, sort_strings. intros I. apply (Permutation_in _ (Permutation_sym (insertion_sort_perm str_lt _))) in I.
    apply List.filter_In in I as [I U]. apply in_map_iff in I as (x & <- & _). split; [by apply negb_true_iff|apply TrimSpace_idem].
  - intros p. cbn [NewDiagnosticTrace dt_Coordinate dc_Packages]. unfold normalizedPublicCoordinates, sort_strings. intros I. apply (Permutation_in _ (Permutation_sym (insertion_sort_perm str_lt _))) in I.
    apply list_elem_of_In, list_elem_of_omap in I as (raw & I & E). unfold public_coordinate in E. destruct (ParsePURL raw) as [q|] eqn:Q; [|done]. injection E as <-. exists raw, q. split; [by apply list_elem_of_In|done].
  - intros q. reflexivity.
  - intros b -> Lb F. destruct (hex_encode_shape b F) as [Lh Hh]. unfold IsDiagnosticRequestID. cbn [dt_RequestID NewDiagnosticTrace newDiagnosticRequestID]. unfold str_len. cbn [str_take str_drop]. change (String.length ("req_" +:+ hex_encode b)) with (4 + String.length (hex_encode b))%nat.
    rewrite Lh, Lb. exact Hh.
Qed.

(** Asked about one package, the network found it at another version, and a
    stranger. *)
Definition gate_request : SearchRequest := mkSearch 1 "round a price" ["pkg:npm/Decimal.js@10.4.0"] [] [] [] "" env_zero "" "" [] "" 3 true.
Definition gate_response : SearchResponse :=
  mkResponse 1 [result_example (Some (case_example ["pkg:npm/humanize@1.0.0"] [])) "s1"; result_example (Some (case_example ["pkg:npm/decimal.js@9.0.0"] [])) "s2"] false.

Lemma normal_output_is_about_the_request_witness :
  map res_SampleID (resp_Results (fst (GateNormalOutput gate_request gate_response []))) = ["s2"]
  /\ map sup_Reason (snd (GateNormalOutput gate_request gate_response [])) = [SuppressedInsufficientGoalOverlap]
  /\ GateNormalOutput gate_request (fst (GateNormalOutput gate_request gate_response [])) [] = (fst (GateNormalOutput gate_request gate_response []), []).
Proof.
  split; [vm_compute; reflexivity|]. split; [vm_compute; reflexivity|].
  pose proof (normal_output_is_about_the_request gate_request gate_response [] eq_refl ltac:(discriminate)) as H. destruct (GateNormalOutput gate_request gate_response []) as [out sup].
  exact (proj2 (proj2 (proj2 (proj2 (proj2 H))))).
Defined.

Lemma gate_trace_is_complete_witness :
  exists d, RecordOutputGateDiagnostic None (fst (GateNormalOutput gate_request gate_response [])) (Some (NewDiagnosticTrace None gate_request)) gate_request 2
              (snd (GateNormalOutput gate_request gate_response [])) = Some d
    /\ forall s, In s (snd (GateNormalOutput gate_request gate_response [])) -> told (dt_Candidates d) s \/ length (dt_Candidates d) = 50%nat.
Proof.
  destruct (gate_trace_is_complete None (fst (GateNormalOutput gate_request gate_response [])) 2 (snd (GateNormalOutput gate_request gate_response [])) gate_request (NewDiagnosticTrace None gate_request))
    as (d & R & _ & _ & _ & T & _); [reflexivity|by intros step []|cbn; lia|]. exists d. split; [exact R|exact T].
Defined.
