(* ===== verification/Pool.v ===== *)
(** * The database pool and its admission gates (internal/serverstore/pool.go)

    Connections are bounded by a semaphore, and each class of work passes
    through gates (buffered channels) that bound what it can hold.  The state
    is shared by any number of callers; each atomic channel operation is one
    step of one caller, and callers interleave freely.  What time and the
    database decide (a wait that expires, a dial that fails, a dead
    connection) is a choice of the step.  Counters are unbounded here; the
    64-bit ones of the program wrap after 2^64 events. *)

From stdpp Require Import functions relations.
From S2P Require Import Prelude GoStrings.

(** ** Classes and policy *)

Inductive QueryClass := ClassBackground | ClassInteractive | ClassProbe | ClassFarmIngest | ClassAuthoring.

#[export] Instance QueryClass_eq_dec : EqDecision QueryClass.
Proof. solve_decision. Defined.

Definition class_String (c : QueryClass) : string :=
  match c with
  | ClassInteractive => "interactive"
  | ClassProbe => "probe"
  | ClassFarmIngest => "farm_ingest"
  | ClassAuthoring => "authoring"
  | ClassBackground => "background"
  end.

(** Durations are nanoseconds. *)
Record PoolPolicy := mkPolicy {
  Enabled : bool;
  MaxConns : Z;
  ProbeReserve : Z;
  InteractiveConns : Z;
  BackgroundConns : Z;
  FarmIngestConns : Z;
  AuthoringConns : Z;
  AuthoringTimeout : Z;
  AuthoringWait : Z;
  ReadTimeout : Z;
  ReadWait : Z;
  ProbeTimeout : Z;
  ProbeWait : Z;
  FarmIngestTimeout : Z;
  FarmIngestWait : Z
}.

Definition second : Z := 1000000000.
Definition millisecond : Z := 1000000.

Definition defaultMaxConns : Z := 16.

Definition DefaultPoolPolicy : PoolPolicy :=
  {| Enabled := true; MaxConns := defaultMaxConns; ProbeReserve := 1; InteractiveConns := 6; BackgroundConns := 4;
     FarmIngestConns := 2; AuthoringConns := 4; AuthoringTimeout := 10 * second; AuthoringWait := second;
     ReadTimeout := 8 * second; ReadWait := 3 * second; ProbeTimeout := 2 * second; ProbeWait := second;
     FarmIngestTimeout := 30 * second; FarmIngestWait := 5 * second |}.

Definition clamp (general n : Z) : Z := if (n <? 1) || (general <? n) then general else n.
Definition not_negative (d : Z) : Z := if d <? 0 then 0 else d.

Definition policy_normalize (p : PoolPolicy) : PoolPolicy :=
  let max := if MaxConns p <? 1 then defaultMaxConns else MaxConns p in
  if negb (Enabled p) then mkPolicy false max 0 0 0 0 0 0 0 0 0 0 0 0 0
  else
    let reserve := if ProbeReserve p <? 0 then 0 else ProbeReserve p in
    let reserve := if max - 1 <? reserve then max - 1 else reserve in
    let general := max - reserve in
    mkPolicy true max reserve (clamp general (InteractiveConns p)) (clamp general (BackgroundConns p))
      (clamp general (FarmIngestConns p)) (clamp general (AuthoringConns p))
      (not_negative (AuthoringTimeout p)) (not_negative (AuthoringWait p))
      (not_negative (ReadTimeout p)) (not_negative (ReadWait p))
      (not_negative (ProbeTimeout p)) (not_negative (ProbeWait p))
      (not_negative (FarmIngestTimeout p)) (not_negative (FarmIngestWait p)).

Definition general (p : PoolPolicy) : Z := MaxConns p - ProbeReserve p.

Definition statementTimeout (p : PoolPolicy) (c : QueryClass) : Z :=
  if negb (Enabled p) then 0
  else match c with
  | ClassInteractive => ReadTimeout p
  | ClassProbe => ProbeTimeout p
  | ClassFarmIngest => FarmIngestTimeout p
  | ClassAuthoring => AuthoringTimeout p
  | ClassBackground => 0
  end.

Definition wait (p : PoolPolicy) (c : QueryClass) : Z :=
  if negb (Enabled p) then 0
  else match c with
  | ClassInteractive => ReadWait p
  | ClassProbe => ProbeWait p
  | ClassFarmIngest => FarmIngestWait p
  | ClassAuthoring => AuthoringWait p
  | ClassBackground => 0
  end.

(** What [normalize] promises of its result. *)
Definition policy_ok (p : PoolPolicy) : Prop :=
  1 <= MaxConns p /\ (Enabled p = true ->
    0 <= ProbeReserve p < MaxConns p
    /\ (forall n, In n [InteractiveConns p; BackgroundConns p; FarmIngestConns p; AuthoringConns p] -> 1 <= n <= general p)
    /\ forall c, 0 <= wait p c /\ 0 <= statementTimeout p c).

Lemma clamp_ok g n : 1 <= g -> 1 <= clamp g n <= g.
Proof. unfold clamp. intros G. destruct (Z.ltb_spec n 1), (Z.ltb_spec g n); cbn; lia. Qed.

Lemma not_negative_ok d : 0 <= not_negative d.
Proof. unfold not_negative. destruct (Z.ltb_spec d 0); lia. Qed.

Lemma normalize_ok p : policy_ok (policy_normalize p).
Proof.
  unfold policy_ok, policy_normalize. set (max := if MaxConns p <? 1 then _ else _).
  assert (M : 1 <= max) by (unfold max, defaultMaxConns; destruct (Z.ltb_spec (MaxConns p) 1); lia).
  destruct (Enabled p); cbn -[Z.sub]; [|by split].
  set (r0 := if ProbeReserve p <? 0 then 0 else ProbeReserve p). set (r := if max - 1 <? r0 then max - 1 else r0).
  assert (R : 0 <= r < max).
  { assert (0 <= r0) by (unfold r0; destruct (Z.ltb_spec (ProbeReserve p) 0); lia).
    unfold r. destruct (Z.ltb_spec (max - 1) r0); lia. }
  split; [done|]. intros _. split; [done|]. unfold general. cbn -[Z.sub]. split.
  - intros n I. repeat (destruct I as [<-|I]; [apply clamp_ok; lia|]). done.
  - intros []; cbn; split; try apply not_negative_ok; lia.
Qed.

Lemma normalize_id p : Enabled p = true -> policy_ok p -> policy_normalize p = p.
Proof.
  intros E (M & H). destruct (H E) as (R & C & W). unfold policy_normalize. rewrite E. cbn [negb].
  destruct (Z.ltb_spec (MaxConns p) 1); [lia|]. destruct (Z.ltb_spec (ProbeReserve p) 0); [lia|].
  destruct (Z.ltb_spec (MaxConns p - 1) (ProbeReserve p)); [lia|].
  assert (Cl : forall n, In n [InteractiveConns p; BackgroundConns p; FarmIngestConns p; AuthoringConns p] ->
    clamp (MaxConns p - ProbeReserve p) n = n).
  { intros n I. specialize (C n I). unfold general in C. unfold clamp. destruct (Z.ltb_spec n 1); [lia|].
    destruct (Z.ltb_spec (MaxConns p - ProbeReserve p) n); [lia|done]. }
  assert (Nn : forall d, 0 <= d -> not_negative d = d) by (intros d D; unfold not_negative; destruct (Z.ltb_spec d 0); lia).
  pose proof (W ClassInteractive) as [W1 T1]. pose proof (W ClassProbe) as [W2 T2].
  pose proof (W ClassFarmIngest) as [W3 T3]. pose proof (W ClassAuthoring) as [W4 T4].
  unfold wait, statementTimeout in *. rewrite E in *. cbn [negb] in *.
  rewrite !Cl by (cbn; tauto). rewrite !Nn by done. by destruct p; cbn in *; subst.
Qed.

(** ** Gates *)

Inductive gate := GInter | GBack | GProbe | GFarm | GAuthoring | GGeneral.

#[export] Instance gate_eq_dec : EqDecision gate.
Proof. solve_decision. Defined.

(** The capacities of the channels [newConnPool] makes. *)
Definition gate_cap (p : PoolPolicy) (g : gate) : Z :=
  match g with
  | GInter => InteractiveConns p
  | GBack => BackgroundConns p
  | GProbe => if ProbeReserve p <? 1 then 1 else ProbeReserve p
  | GFarm => FarmIngestConns p
  | GAuthoring => AuthoringConns p
  | GGeneral => general p
  end.

Definition own_gate (c : QueryClass) : gate :=
  match c with
  | ClassProbe => GProbe
  | ClassInteractive => GInter
  | ClassFarmIngest => GFarm
  | ClassAuthoring => GAuthoring
  | ClassBackground => GBack
  end.

Definition gatesFor (p : PoolPolicy) (c : QueryClass) : list gate :=
  if negb (Enabled p) then []
  else match c with
  | ClassProbe => [GProbe]
  | ClassInteractive => [GInter; GGeneral]
  | ClassFarmIngest => [GFarm; GGeneral]
  | ClassAuthoring => [GAuthoring; GGeneral]
  | ClassBackground => [GBack; GGeneral]
  end.

(** ** Counters and budgets *)

Record classCounters := mkCounters {
  ct_inUse : Z; ct_attempts : Z; ct_first : Z; ct_retries : Z; ct_followups : Z; ct_acquired : Z;
  ct_waited : Z; ct_waitNS : Z; ct_waitMaxNS : Z;
  ct_busy : Z; ct_suppressed : Z; ct_canceled : Z; ct_failed : Z; ct_timeouts : Z
}.

Definition counters_zero : classCounters := mkCounters 0 0 0 0 0 0 0 0 0 0 0 0 0 0.

Record QueryBudget := mkBudget {
  b_class : QueryClass; b_retry : bool; b_waitedNS : Z; b_busy : Z; b_timeouts : Z; b_attempts : Z; b_suppressed : Z
}.

(** [NewQueryBudget(QueryClass(n))]: a class the package does not know is
    background. *)
Definition class_of (n : Z) : QueryClass :=
  if n =? 1 then ClassInteractive else if n =? 2 then ClassProbe else if n =? 3 then ClassFarmIngest
  else if n =? 4 then ClassAuthoring else ClassBackground.

Definition NewQueryBudget (c : QueryClass) : QueryBudget := mkBudget c false 0 0 0 0 0.
Definition NewRetryQueryBudget (c : QueryClass) : QueryBudget := mkBudget c true 0 0 0 0 0.

Definition backpressured (b : option QueryBudget) : bool :=
  match b with None => false | Some b => (0 <? b_busy b) || (0 <? b_timeouts b) end.

Definition budget_Class (b : option QueryBudget) : QueryClass :=
  match b with None => ClassBackground | Some b => b_class b end.

(** [observeWait] ignores waits under a millisecond. *)
Definition observeWait (d : Z) (c : classCounters) : classCounters :=
  if d <? millisecond then c
  else mkCounters (ct_inUse c) (ct_attempts c) (ct_first c) (ct_retries c) (ct_followups c) (ct_acquired c)
    (ct_waited c + 1) (ct_waitNS c + d) (if d <=? ct_waitMaxNS c then ct_waitMaxNS c else d)
    (ct_busy c) (ct_suppressed c) (ct_canceled c) (ct_failed c) (ct_timeouts c).

Definition bump_attempt (f r o : Z) (c : classCounters) : classCounters :=
  mkCounters (ct_inUse c) (ct_attempts c + 1) (ct_first c + f) (ct_retries c + r) (ct_followups c + o) (ct_acquired c)
    (ct_waited c) (ct_waitNS c) (ct_waitMaxNS c) (ct_busy c) (ct_suppressed c) (ct_canceled c) (ct_failed c) (ct_timeouts c).

Definition observeAttempt (b : option QueryBudget) (c : classCounters) : classCounters * option QueryBudget :=
  match b with
  | None => (bump_attempt 1 0 0 c, None)
  | Some b =>
      let b' := mkBudget (b_class b) (b_retry b) (b_waitedNS b) (b_busy b) (b_timeouts b) (b_attempts b + 1) (b_suppressed b) in
      (if b_attempts b' =? 1 then (if b_retry b then bump_attempt 0 1 0 c else bump_attempt 1 0 0 c)
       else bump_attempt 0 0 1 c, Some b')
  end.

(** How an acquisition ends without a connection: refused, the caller gone,
    or broken. *)
Inductive failure := FBusy | FCanceled | FOther.

(** [use] is added to the connections in use; the others to their counters. *)
Definition bump_outcome (use acquired busy suppressed canceled failed timeouts : Z) (c : classCounters) : classCounters :=
  mkCounters (ct_inUse c + use) (ct_attempts c) (ct_first c) (ct_retries c) (ct_followups c) (ct_acquired c + acquired)
    (ct_waited c) (ct_waitNS c) (ct_waitMaxNS c) (ct_busy c + busy) (ct_suppressed c + suppressed)
    (ct_canceled c + canceled) (ct_failed c + failed) (ct_timeouts c + timeouts).

Definition count_failure (e : failure) (c : classCounters) : classCounters :=
  match e with
  | FBusy => bump_outcome 0 0 1 0 0 0 0 c
  | FCanceled => bump_outcome 0 0 0 0 1 0 0 c
  | FOther => bump_outcome 0 0 0 0 0 1 0 c
  end.

(** What a budget is charged: time, a refusal, a timeout, a suppression. *)
Definition charge_budget (waited busy timeouts suppressed : Z) (b : QueryBudget) : QueryBudget :=
  mkBudget (b_class b) (b_retry b) (b_waitedNS b + waited) (b_busy b + busy) (b_timeouts b + timeouts) (b_attempts b)
    (b_suppressed b + suppressed).

Definition busy_of (e : failure) : Z := match e with FBusy => 1 | _ => 0 end.

(** ** The shared state and the callers *)

Record shared := mkShared {
  sh_idle : Z;
  sh_sem : Z;
  sh_closed : bool;
  sh_farmConns : Z;
  sh_gate : gate -> Z;
  sh_stats : QueryClass -> classCounters;
  sh_budgets : nat -> QueryBudget
}.

Definition set_idle (n : Z) (s : shared) : shared :=
  mkShared n (sh_sem s) (sh_closed s) (sh_farmConns s) (sh_gate s) (sh_stats s) (sh_budgets s).
Definition set_sem (n : Z) (s : shared) : shared :=
  mkShared (sh_idle s) n (sh_closed s) (sh_farmConns s) (sh_gate s) (sh_stats s) (sh_budgets s).
Definition set_closed (s : shared) : shared :=
  mkShared (sh_idle s) (sh_sem s) true (sh_farmConns s) (sh_gate s) (sh_stats s) (sh_budgets s).
Definition set_farm (n : Z) (s : shared) : shared :=
  mkShared (sh_idle s) (sh_sem s) (sh_closed s) n (sh_gate s) (sh_stats s) (sh_budgets s).
Definition add_gate (g : gate) (d : Z) (s : shared) : shared :=
  mkShared (sh_idle s) (sh_sem s) (sh_closed s) (sh_farmConns s) (<[g := sh_gate s g + d]> (sh_gate s)) (sh_stats s) (sh_budgets s).
Definition on_stats (c : QueryClass) (f : classCounters -> classCounters) (s : shared) : shared :=
  mkShared (sh_idle s) (sh_sem s) (sh_closed s) (sh_farmConns s) (sh_gate s) (<[c := f (sh_stats s c)]> (sh_stats s)) (sh_budgets s).
Definition on_budget (b : option nat) (f : QueryBudget -> QueryBudget) (s : shared) : shared :=
  match b with
  | None => s
  | Some i => mkShared (sh_idle s) (sh_sem s) (sh_closed s) (sh_farmConns s) (sh_gate s) (sh_stats s)
                (<[i := f (sh_budgets s i)]> (sh_budgets s))
  end.

(** A caller names its budget, or has none. *)
Definition budget_of (s : shared) (b : option nat) : option QueryBudget := option_map (sh_budgets s) b.

(** Where a caller is: outside, between gates, having just sent on the farm
    channel, with a slot but no session yet, with a session, using it,
    giving back after a failure, giving back after use. *)
Inductive phase :=
| Out
| Entering (c : QueryClass) (b : option nat) (held todo : list gate)
| Checking (c : QueryClass) (b : option nat) (held todo : list gate)
| Connecting (c : QueryClass) (b : option nat) (held : list gate)
| Ready (c : QueryClass) (b : option nat) (held : list gate)
| Using (c : QueryClass) (b : option nat) (held : list gate)
| Failing (c : QueryClass) (b : option nat) (e : failure) (held : list gate)
| Leaving (c : QueryClass) (held : list gate).

(** [farmAdmitted]: whether the token just taken is inside the live ceiling. *)
Definition farmAdmitted (s : shared) : bool := sh_gate s GFarm <=? sh_farmConns s.

Definition SetFarmIngestConns (p : PoolPolicy) (n : Z) (s : shared) : shared :=
  let n := if n <? 0 then 0 else n in
  let n := if FarmIngestConns p <? n then FarmIngestConns p else n in
  set_farm n s.

(** [waitErr]: the caller's context ended, or the class's wait budget. *)
Definition wait_failure (p : PoolPolicy) (c : QueryClass) (e : failure) : Prop :=
  e = FCanceled \/ (e = FBusy /\ 0 < wait p c).

(** The opening of [acquire]: counting the attempt. *)
Definition attempt (c : QueryClass) (b : option nat) (s : shared) : shared :=
  let '(ct, bud) := observeAttempt (budget_of s b) (sh_stats s c) in
  on_budget b (fun old => default old bud) (on_stats c (fun _ => ct) s).

(** The end of [fail], after the gates are given back. *)
Definition record_failure (c : QueryClass) (b : option nat) (e : failure) (total queued : Z) (s : shared) : shared :=
  on_budget b (charge_budget total (busy_of e) 0 0) (on_stats c (fun ct => count_failure e (observeWait queued ct)) s).

(** The end of a successful [acquire]: [charge], then [inUse]. *)
Definition record_success (c : QueryClass) (b : option nat) (total queued : Z) (s : shared) : shared :=
  on_budget b (charge_budget total 0 0 0)
    (on_stats c (fun ct => bump_outcome 1 1 0 0 0 0 0 (observeWait (if queued <? millisecond then 0 else queued) ct)) s).

(** A caller of the interactive class whose budget has met backpressure is
    turned away at once. *)
Definition not_suppressed (s : shared) (b : option nat) (c : QueryClass) : Prop :=
  c = ClassInteractive -> backpressured (budget_of s b) = false.

(** ** The steps of a caller *)

Section steps.
  Context (p : PoolPolicy).

Inductive tstep : shared -> phase -> shared -> phase -> Prop :=
(* acquire, before the gates *)
| t_suppressed s b c : c = budget_Class (budget_of s b) -> c = ClassInteractive ->
    backpressured (budget_of s b) = true ->
    tstep s Out (on_budget b (charge_budget 0 0 0 1) (on_stats c (bump_outcome 0 0 0 1 0 0 0) (attempt c b s))) Out
| t_closed s b c : c = budget_Class (budget_of s b) -> not_suppressed s b c -> sh_closed s = true ->
    tstep s Out (on_stats c (bump_outcome 0 0 0 0 0 1 0) (attempt c b s)) Out
| t_late s b c e : c = budget_Class (budget_of s b) -> not_suppressed s b c -> sh_closed s = false -> wait_failure p c e ->
    tstep s Out (attempt c b s) (Failing c b e [])
| t_paused s b c : c = budget_Class (budget_of s b) -> sh_closed s = false ->
    c = ClassFarmIngest -> Enabled p = true -> sh_farmConns s <= 0 ->
    tstep s Out (attempt c b s) (Failing c b FBusy [])
| t_enter s b c : c = budget_Class (budget_of s b) -> not_suppressed s b c -> sh_closed s = false ->
    (c = ClassFarmIngest -> Enabled p = true -> 0 < sh_farmConns s) ->
    tstep s Out (attempt c b s) (Entering c b [] (gatesFor p c))
(* the gates *)
| t_gate s c b held g todo : g <> GFarm -> sh_gate s g < gate_cap p g ->
    tstep s (Entering c b held (g :: todo)) (add_gate g 1 s) (Entering c b (held ++ [g]) todo)
| t_farm s c b held todo : sh_gate s GFarm < gate_cap p GFarm ->
    tstep s (Entering c b held (GFarm :: todo)) (add_gate GFarm 1 s) (Checking c b (held ++ [GFarm]) todo)
| t_admit s c b held todo : farmAdmitted s = true ->
    tstep s (Checking c b held todo) s (Entering c b held todo)
| t_capped s c b held todo : farmAdmitted s = false ->
    tstep s (Checking c b held todo) s (Failing c b FBusy held)
| t_expired s c b held todo e : wait_failure p c e ->
    tstep s (Entering c b held todo) s (Failing c b e held)
| t_expired_check s c b held todo e : wait_failure p c e ->
    tstep s (Checking c b held todo) s (Failing c b e held)
(* checkout *)
| t_idle s c b held : 0 < sh_idle s ->
    tstep s (Entering c b held []) (set_idle (sh_idle s - 1) s) (Connecting c b held)
| t_dial s c b held : sh_sem s < MaxConns p ->
    tstep s (Entering c b held []) (set_sem (sh_sem s + 1) s) (Connecting c b held)
| t_connected s c b held : tstep s (Connecting c b held) s (Ready c b held)
| t_unreachable s c b held e : e = FOther \/ wait_failure p c e ->
    tstep s (Connecting c b held) (set_sem (sh_sem s - 1) s) (Failing c b e held)
(* after checkout *)
| t_return_unused s c b held e : wait_failure p c e -> sh_idle s < MaxConns p ->
    tstep s (Ready c b held) (set_idle (sh_idle s + 1) s) (Failing c b e held)
| t_discard s c b held e : e = FOther \/ wait_failure p c e ->
    tstep s (Ready c b held) (set_sem (sh_sem s - 1) s) (Failing c b e held)
| t_granted s c b held total queued : 0 <= queued ->
    tstep s (Ready c b held) (record_success c b total queued s) (Using c b held)
(* use and release *)
| t_timeout s c b held :
    tstep s (Using c b held)
      (on_budget b (charge_budget 0 0 1 0) (on_stats c (bump_outcome 0 0 0 0 0 0 1) s)) (Using c b held)
| t_release s c b held : sh_idle s < MaxConns p ->
    tstep s (Using c b held) (set_idle (sh_idle s + 1) (on_stats c (bump_outcome (-1) 0 0 0 0 0 0) s)) (Leaving c held)
| t_drop s c b held :
    tstep s (Using c b held) (set_sem (sh_sem s - 1) (on_stats c (bump_outcome (-1) 0 0 0 0 0 0) s)) (Leaving c held)
(* giving back, last gate first *)
| t_fail_gate s c b e held g : tstep s (Failing c b e (held ++ [g])) (add_gate g (-1) s) (Failing c b e held)
| t_failed s c b e total queued : tstep s (Failing c b e []) (record_failure c b e total queued s) Out
| t_leave_gate s c held g : tstep s (Leaving c (held ++ [g])) (add_gate g (-1) s) (Leaving c held)
| t_left s c : tstep s (Leaving c []) s Out.

(** Who moves: a caller, the governor, or [close]. *)
Inductive mover := Caller (i : nat) | Governor | Closer.

Definition pool : Type := shared * list phase.

Inductive step : mover -> pool -> pool -> Prop :=
| s_caller i s ths ph s' ph' : ths !! i = Some ph -> tstep s ph s' ph' -> step (Caller i) (s, ths) (s', <[i := ph']> ths)
| s_governor n s ths : step Governor (s, ths) (SetFarmIngestConns p n s, ths)
| s_close s ths : step Closer (s, ths) (set_closed s, ths)
| s_drain s ths : sh_closed s = true -> 0 < sh_idle s ->
    step Closer (s, ths) (set_sem (sh_sem s - 1) (set_idle (sh_idle s - 1) s), ths).

(** [newConnPool] and any number of callers outside. *)
Inductive initial : pool -> Prop :=
| initial_pool budgets n : initial
    (mkShared 0 0 false (FarmIngestConns p) (fun _ => 0) (fun _ => counters_zero) budgets, replicate n Out).

Inductive reachable : pool -> Prop :=
| r_init s : initial s -> reachable s
| r_step m s s' : reachable s -> step m s s' -> reachable s'.
End steps.

(** ** What callers hold *)

Definition held_of (ph : phase) : list gate :=
  match ph with
  | Out => []
  | Entering _ _ held _ | Checking _ _ held _ | Connecting _ _ held | Ready _ _ held | Using _ _ held
  | Failing _ _ _ held | Leaving _ held => held
  end.

Fixpoint gate_count (g : gate) (l : list gate) : Z :=
  match l with [] => 0 | x :: l' => (if decide (x = g) then 1 else 0) + gate_count g l' end.

Definition holds (g : gate) (ph : phase) : Z := gate_count g (held_of ph).

(** A slot of the semaphore, with or without a live session. *)
Definition owns (ph : phase) : Z :=
  match ph with Connecting _ _ _ | Ready _ _ _ | Using _ _ _ => 1 | _ => 0 end.

Definition is_class (c c' : QueryClass) : Z := if decide (c' = c) then 1 else 0.

Definition inflight (c : QueryClass) (ph : phase) : Z :=
  match ph with
  | Entering c' _ _ _ | Checking c' _ _ _ | Connecting c' _ _ | Ready c' _ _ | Failing c' _ _ _ => is_class c c'
  | _ => 0
  end.

Definition in_use (c : QueryClass) (ph : phase) : Z :=
  match ph with Using c' _ _ => is_class c c' | _ => 0 end.

(** A farm caller past its admission check. *)
Definition admitted (ph : phase) : Z :=
  match ph with
  | Entering ClassFarmIngest _ (_ :: _) _ | Connecting ClassFarmIngest _ _ | Ready ClassFarmIngest _ _
  | Using ClassFarmIngest _ _ => 1
  | _ => 0
  end.

Fixpoint total (f : phase -> Z) (ths : list phase) : Z :=
  match ths with [] => 0 | ph :: ths' => f ph + total f ths' end.

Lemma total_insert f ths i ph ph' : ths !! i = Some ph -> total f (<[i := ph']> ths) = total f ths - f ph + f ph'.
Proof.
  revert i. induction ths as [|x ths IH]; intros [|i] H; cbn in H; try done.
  - injection H as ->. cbn. lia.
  - change (<[S i := ph']> (x :: ths)) with (x :: <[i := ph']> ths). cbn [total]. rewrite IH by done. lia.
Qed.

Lemma total_le f g ths : (forall ph, In ph ths -> f ph <= g ph) -> total f ths <= total g ths.
Proof.
  induction ths as [|x ths IH]; intros H; cbn; [lia|]. specialize (H x ltac:(by left)) as Hx.
  enough (total f ths <= total g ths) by lia. apply IH. intros ph I. apply H. by right.
Qed.

Lemma total_add f g ths : total (fun ph => f ph + g ph) ths = total f ths + total g ths.
Proof. induction ths as [|x ths IH]; cbn; [done|]. lia. Qed.

Lemma total_nonneg f ths : (forall ph, 0 <= f ph) -> 0 <= total f ths.
Proof. intros H. induction ths as [|x ths IH]; cbn; [lia|]. specialize (H x). lia. Qed.

Lemma total_zero f n : f Out = 0 -> total f (replicate n Out) = 0.
Proof. intros H. induction n as [|n IH]; cbn; [done|]. rewrite H, IH. done. Qed.

Lemma total_In f ths i ph : (forall ph, 0 <= f ph) -> ths !! i = Some ph -> f ph <= total f ths.
Proof.
  intros P. revert i. induction ths as [|x ths IH]; intros [|i]; cbn; try done.
  - intros [= ->]. pose proof (total_nonneg f ths P). lia.
  - intros H. specialize (IH _ H). specialize (P x). lia.
Qed.

Lemma gate_count_app g a b : gate_count g (a ++ b) = gate_count g a + gate_count g b.
Proof. induction a as [|x a IH]; cbn; [done|]. rewrite IH. lia. Qed.

Lemma gate_count_nonneg g l : 0 <= gate_count g l.
Proof. induction l as [|x l IH]; cbn; [lia|]. destruct (decide (x = g)); lia. Qed.

Lemma holds_nonneg g ph : 0 <= holds g ph.
Proof. apply gate_count_nonneg. Qed.

Section invariant.
  Context (p : PoolPolicy).

(** Gates are taken in order and given back in reverse order; a slot is only
    held together with all gates of the class. *)
Definition phase_ok (ph : phase) : Prop :=
    match ph with
    | Out => True
    | Entering c _ held todo => gatesFor p c = (held ++ todo)%list
    | Checking c _ held todo => c = ClassFarmIngest /\ held = [GFarm] /\ gatesFor p c = (held ++ todo)%list
    | Connecting c _ held | Ready c _ held | Using c _ held => held = gatesFor p c
    | Failing c _ _ held | Leaving c held => exists rest, gatesFor p c = (held ++ rest)%list
    end.

Definition outcomes (ct : classCounters) : Z :=
    ct_acquired ct + ct_busy ct + ct_suppressed ct + ct_canceled ct + ct_failed ct.

(** Each channel holds the tokens of the callers that hold it, the semaphore
    the idle connections and the slots in use, and every attempt is either
    still under way or counted under exactly one outcome. *)
Record pool_ok (st : pool) : Prop := {
    ok_phases : Forall phase_ok (snd st);
    ok_gates : forall g, sh_gate (fst st) g = total (holds g) (snd st) /\ (Enabled p = true -> sh_gate (fst st) g <= gate_cap p g);
    ok_idle : 0 <= sh_idle (fst st);
    ok_slots : sh_sem (fst st) = sh_idle (fst st) + total owns (snd st);
    ok_sem : sh_sem (fst st) <= MaxConns p;
    ok_farm : Enabled p = true -> 0 <= sh_farmConns (fst st) <= FarmIngestConns p;
    ok_accounts : forall c, let ct := sh_stats (fst st) c in
      ct_attempts ct = ct_first ct + ct_retries ct + ct_followups ct
      /\ ct_attempts ct = outcomes ct + total (inflight c) (snd st)
      /\ ct_inUse ct = total (in_use c) (snd st)
}.

(** ** One step of one caller *)

Lemma stats_on_budget b f s : sh_stats (on_budget b f s) = sh_stats s.
  Proof. by destruct b. Qed.
Lemma gate_on_budget b f s : sh_gate (on_budget b f s) = sh_gate s.
  Proof. by destruct b. Qed.
Lemma idle_on_budget b f s : sh_idle (on_budget b f s) = sh_idle s.
  Proof. by destruct b. Qed.
Lemma sem_on_budget b f s : sh_sem (on_budget b f s) = sh_sem s.
  Proof. by destruct b. Qed.
Lemma farmConns_on_budget b f s : sh_farmConns (on_budget b f s) = sh_farmConns s.
  Proof. by destruct b. Qed.
Lemma closed_on_budget b f s : sh_closed (on_budget b f s) = sh_closed s.
  Proof. by destruct b. Qed.
Lemma gate_attempt c b s : sh_gate (attempt c b s) = sh_gate s.
  Proof. unfold attempt. destruct (observeAttempt _ _). by destruct b. Qed.
Lemma idle_attempt c b s : sh_idle (attempt c b s) = sh_idle s.
  Proof. unfold attempt. destruct (observeAttempt _ _). by destruct b. Qed.
Lemma sem_attempt c b s : sh_sem (attempt c b s) = sh_sem s.
  Proof. unfold attempt. destruct (observeAttempt _ _). by destruct b. Qed.
Lemma farmConns_attempt c b s : sh_farmConns (attempt c b s) = sh_farmConns s.
  Proof. unfold attempt. destruct (observeAttempt _ _). by destruct b. Qed.
Lemma closed_attempt c b s : sh_closed (attempt c b s) = sh_closed s.
  Proof. unfold attempt. destruct (observeAttempt _ _). by destruct b. Qed.
#[local] Hint Rewrite stats_on_budget gate_on_budget idle_on_budget sem_on_budget farmConns_on_budget closed_on_budget
    gate_attempt idle_attempt sem_attempt farmConns_attempt closed_attempt : pool.

Lemma add_gate_at g d s g' : sh_gate (add_gate g d s) g' = sh_gate s g' + (if decide (g = g') then d else 0).
  Proof.
    cbn. destruct (decide (g = g')) as [->|N]; [by rewrite fn_lookup_insert|].
    rewrite fn_lookup_insert_ne by done. lia.
  Qed.

Lemma tstep_phase s ph s' ph' : tstep p s ph s' ph' -> phase_ok ph -> phase_ok ph'.
  Proof.
    destruct 1; cbn; auto; try (by exists (gatesFor p c)); try (by eauto).
    - intros ->. by rewrite <- app_assoc.
    - intros E. rewrite <- app_assoc. cut (c = ClassFarmIngest /\ held = []); [by intros [-> ->]|].
      unfold gatesFor in E. destruct (Enabled p); cbn in E; [|by destruct held].
      destruct c, held as [|h [|h' [|]]]; cbn in E; done.
    - by intros (_ & _ & ->).
    - intros (_ & _ & ->). eauto.
    - intros (_ & _ & ->). eauto.
    - intros ->. by rewrite app_nil_r.
    - intros ->. by rewrite app_nil_r.
    - intros ->. exists []. by rewrite app_nil_r.
    - intros ->. exists []. by rewrite app_nil_r.
    - intros ->. exists []. by rewrite app_nil_r.
    - intros ->. exists []. by rewrite app_nil_r.
    - intros ->. exists []. by rewrite app_nil_r.
    - intros [rest ->]. exists (g :: rest). by rewrite <- app_assoc.
    - intros [rest ->]. exists (g :: rest). by rewrite <- app_assoc.
  Qed.

Ltac pool_fields :=
    unfold record_success, record_failure;
    repeat (cbn [sh_stats sh_gate sh_idle sh_sem sh_farmConns on_stats set_idle set_sem held_of owns inflight in_use];
            autorewrite with pool).

Lemma tstep_gate s ph s' ph' g : tstep p s ph s' ph' ->
    sh_gate s' g = sh_gate s g - holds g ph + holds g ph'
    /\ (sh_gate s' g <= sh_gate s g \/ sh_gate s' g <= gate_cap p g).
  Proof.
    unfold holds. destruct 1; rewrite ?add_gate_at; pool_fields; rewrite ?gate_count_app; cbn [gate_count]; try lia;
      destruct (decide (_ = g)); subst; lia.
  Qed.

Lemma tstep_slots s ph s' ph' : tstep p s ph s' ph' ->
    sh_sem s' - sh_idle s' = sh_sem s - sh_idle s - owns ph + owns ph'
    /\ (0 <= sh_idle s -> 0 <= sh_idle s') /\ (sh_sem s <= MaxConns p -> sh_sem s' <= MaxConns p)
    /\ sh_farmConns s' = sh_farmConns s.
  Proof. destruct 1; pool_fields; repeat split; cbn; lia. Qed.

Lemma on_stats_at c f s c' : sh_stats (on_stats c f s) c' = if decide (c = c') then f (sh_stats s c) else sh_stats s c'.
  Proof. cbn. destruct (decide (c = c')) as [->|N]; [by rewrite fn_lookup_insert|by rewrite fn_lookup_insert_ne]. Qed.

(** What an attempt adds to the counters of its class. *)
Lemma attempt_stats c b s c' : let ct := sh_stats s c' in let ct' := sh_stats (attempt c b s) c' in
    let d := is_class c' c in
    ct_attempts ct' = ct_attempts ct + d
    /\ ct_first ct' + ct_retries ct' + ct_followups ct' = ct_first ct + ct_retries ct + ct_followups ct + d
    /\ outcomes ct' = outcomes ct /\ ct_inUse ct' = ct_inUse ct.
  Proof.
    cbv zeta. unfold attempt, is_class, outcomes. destruct (observeAttempt _ _) as [ct bud] eqn:O. rewrite stats_on_budget, on_stats_at.
    destruct (decide (c = c')) as [->|N]; [|lia]. unfold observeAttempt in O.
    destruct (budget_of s b) as [bb|]; [destruct (_ =? 1); [destruct (b_retry bb)|]|]; injection O as <- _; cbn; lia.
  Qed.

Lemma observeWait_counts d ct : ct_attempts (observeWait d ct) = ct_attempts ct
    /\ ct_first (observeWait d ct) + ct_retries (observeWait d ct) + ct_followups (observeWait d ct)
       = ct_first ct + ct_retries ct + ct_followups ct
    /\ outcomes (observeWait d ct) = outcomes ct /\ ct_inUse (observeWait d ct) = ct_inUse ct.
  Proof. unfold observeWait. by destruct (d <? millisecond). Qed.

Lemma outcome_counts u a b su ca fa t ct : let ct' := bump_outcome u a b su ca fa t ct in
    ct_attempts ct' = ct_attempts ct
    /\ ct_first ct' + ct_retries ct' + ct_followups ct' = ct_first ct + ct_retries ct + ct_followups ct
    /\ outcomes ct' = outcomes ct + a + b + su + ca + fa /\ ct_inUse ct' = ct_inUse ct + u.
  Proof. cbv zeta. unfold outcomes. cbn. lia. Qed.

Lemma failure_counts e ct : let ct' := count_failure e ct in
    ct_attempts ct' = ct_attempts ct
    /\ ct_first ct' + ct_retries ct' + ct_followups ct' = ct_first ct + ct_retries ct + ct_followups ct
    /\ outcomes ct' = outcomes ct + 1 /\ ct_inUse ct' = ct_inUse ct.
  Proof. cbv zeta. unfold outcomes. destruct e; cbn; lia. Qed.

Lemma tstep_accounts s ph s' ph' c : tstep p s ph s' ph' ->
    let ct := sh_stats s c in let ct' := sh_stats s' c in
    ct_attempts ct' - (ct_first ct' + ct_retries ct' + ct_followups ct') = ct_attempts ct - (ct_first ct + ct_retries ct + ct_followups ct)
    /\ ct_attempts ct' - outcomes ct' = ct_attempts ct - outcomes ct - inflight c ph + inflight c ph'
    /\ ct_inUse ct' = ct_inUse ct - in_use c ph + in_use c ph'.
  Proof.
    cbv zeta. destruct 1; unfold record_success, record_failure;
      repeat (autorewrite with pool; rewrite ?on_stats_at; cbn [set_idle set_sem add_gate sh_stats inflight in_use]);
      try lia;
      repeat match goal with
      | |- context [attempt ?c0 ?b0 ?s0] =>
          match goal with H : context [attempt c0 b0 s0] |- _ => fail 1 | _ => idtac end;
          pose proof (attempt_stats c0 b0 s0 c) as (? & ? & ? & ?)
      end; unfold is_class in *; cbv zeta in *;
      repeat match goal with |- context [decide (?x = c)] => destruct (decide (x = c)) as [E|]; [rewrite <- E in *; clear E|] end;
      repeat match goal with
      | |- context [bump_outcome ?u ?a ?b ?su ?ca ?fa ?t ?ct] =>
          destruct (outcome_counts u a b su ca fa t ct) as (? & ? & ? & ?); generalize dependent (bump_outcome u a b su ca fa t ct); intros
      | |- context [count_failure ?e ?ct] =>
          destruct (failure_counts e ct) as (? & ? & ? & ?); generalize dependent (count_failure e ct); intros
      end;
      repeat match goal with
      | H : context [observeWait ?d ?ct] |- _ =>
          destruct (observeWait_counts d ct) as (? & ? & ? & ?); generalize dependent (observeWait d ct); intros
      end; try lia.
  Qed.

Lemma initial_ok st : policy_ok p -> initial p st -> pool_ok st.
  Proof.
    intros (M & P) [budgets n]. split; cbn.
    - by apply Forall_replicate.
    - intros g. split; [by rewrite total_zero|]. intros E. destruct (P E) as (R & C & _). unfold gate_cap.
      destruct g; try (apply Z.le_trans with 1; [lia|apply C; cbn; tauto]); [|unfold general; lia].
      destruct (Z.ltb_spec (ProbeReserve p) 1); lia.
    - done.
    - by rewrite total_zero.
    - lia.
    - intros E. destruct (P E) as (_ & C & _). split; [|lia]. apply Z.le_trans with 1; [lia|]. apply C. cbn. tauto.
    - intros c. by rewrite !total_zero.
  Qed.

Lemma caller_ok i s ths ph s' ph' : pool_ok (s, ths) -> ths !! i = Some ph -> tstep p s ph s' ph' ->
    pool_ok (s', <[i := ph']> ths).
  Proof.
    intros [Ph G I S M F A] L T. cbn in *. split; cbn.
    - apply Forall_insert; [done|]. eapply tstep_phase; [done|]. eapply Forall_lookup_1; done.
    - intros g. destruct (G g) as [Eg Cg]. destruct (tstep_gate _ _ _ _ g T) as [D B].
      rewrite (total_insert _ _ _ ph) by done. split; [lia|]. intros E. specialize (Cg E). lia.
    - destruct (tstep_slots _ _ _ _ T) as (_ & H & _). auto.
    - destruct (tstep_slots _ _ _ _ T) as (H & _). rewrite (total_insert _ _ _ ph) by done. lia.
    - destruct (tstep_slots _ _ _ _ T) as (_ & _ & H & _). auto.
    - destruct (tstep_slots _ _ _ _ T) as (_ & _ & _ & ->). done.
    - intros c. destruct (A c) as (A1 & A2 & A3). destruct (tstep_accounts _ _ _ _ c T) as (T1 & T2 & T3).
      rewrite !(total_insert _ _ _ ph) by done. cbv zeta in *. lia.
  Qed.

Lemma SetFarm_range n s : policy_ok p -> Enabled p = true -> 0 <= sh_farmConns (SetFarmIngestConns p n s) <= FarmIngestConns p.
  Proof.
    intros (_ & P) E. destruct (P E) as (_ & C & _). specialize (C (FarmIngestConns p) ltac:(cbn; tauto)).
    unfold SetFarmIngestConns. cbn. set (m := if n <? 0 then 0 else n).
    assert (0 <= m) by (unfold m; destruct (Z.ltb_spec n 0); lia). destruct (Z.ltb_spec (FarmIngestConns p) m); lia.
  Qed.

Lemma step_ok m st st' : policy_ok p -> pool_ok st -> step p m st st' -> pool_ok st'.
  Proof.
    intros P O St. destruct St as [i s ths ph s' ph' L T|n s ths|s ths|s ths C I].
    - by eapply caller_ok.
    - destruct O. split; try done. intros E. by apply SetFarm_range.
    - destruct O. by split.
    - destruct O as [Ph G Id S M F A]. cbn in *. split; cbn; try done; lia.
  Qed.

Lemma reachable_ok st : policy_ok p -> reachable p st -> pool_ok st.
  Proof. intros P. induction 1 as [st I|m st st' _ IH St]; [by apply initial_ok|by eapply step_ok]. Qed.
End invariant.

(** ** Safety *)

(** C13.  In every reachable state, under any interleaving of any number of
    callers, the governor and [close]: the connections never exceed
    [MaxConns], no gate admits more callers than its capacity, the tokens in
    each channel and in the semaphore are exactly what the callers hold, and
    every acquisition that was attempted is still under way or counted under
    exactly one outcome.  Channel sends on release never block. *)
Theorem pool_invariant pol st : let p := policy_normalize pol in reachable p st -> Enabled p = true ->
  let '(s, ths) := st in
  total owns ths + sh_idle s = sh_sem s /\ sh_sem s <= MaxConns p
  /\ (forall g, sh_gate s g = total (holds g) ths /\ total (holds g) ths <= gate_cap p g)
  /\ (forall c, let ct := sh_stats s c in
        ct_attempts ct = ct_first ct + ct_retries ct + ct_followups ct
        /\ ct_attempts ct = ct_acquired ct + ct_busy ct + ct_suppressed ct + ct_canceled ct + ct_failed ct
                            + total (inflight c) ths
        /\ ct_inUse ct = total (in_use c) ths)
  /\ forall i c b held, ths !! i = Some (Using c b held) -> sh_idle s < MaxConns p.
Proof.
  cbv zeta. intros R E. apply (reachable_ok _ _ (normalize_ok pol)) in R. destruct st as [s ths].
  destruct R as [Ph G I S M F A]. cbn in *. split; [lia|]. split; [done|]. split; [|split].
  - intros g. destruct (G g) as [Eg C]. split; [done|]. rewrite <- Eg. by apply C.
  - intros c. apply A.
  - intros i c b held L. assert (owns (Using c b held) <= total owns ths)
      by (apply (total_In _ _ i); [by intros []|done]). cbn in *. lia.
Qed.

(** ** The farm ceiling *)

(** An admitted farm caller holds a farm token. *)
Lemma admitted_holds p ph : Enabled p = true -> phase_ok p ph -> admitted ph <= holds GFarm ph.
Proof.
  intros E. unfold phase_ok, admitted, holds, gatesFor. rewrite E. cbn [negb].
  destruct ph as [|[] b [|g [|g' held]] todo|c b held todo|[] b held|[] b held|[] b held|c b e held|c held]; cbn [held_of gate_count];
    intros H; try (subst held; cbn); try lia; try done; try (injection H as <- H; cbn);
    repeat match goal with |- context [decide ?P] => destruct (decide P) end; try done; pose proof (gate_count_nonneg GFarm held); lia.
Qed.

(** Whenever a farm caller is let in, the callers let in so far are within
    the ceiling in force at that moment; a ceiling of 0 lets nobody in. *)
Theorem farm_within_ceiling pol s ths i c b held todo s' :
  let p := policy_normalize pol in
  reachable p (s, ths) -> Enabled p = true -> ths !! i = Some (Checking c b held todo) ->
  tstep p s (Checking c b held todo) s' (Entering c b held todo) ->
  total admitted (<[i := Entering c b held todo]> ths) <= sh_farmConns s' <= FarmIngestConns p /\ 0 < sh_farmConns s'.
Proof.
  cbv zeta. intros R E L T. set (p := policy_normalize pol) in *.
  assert (R' : pool_ok p (s', <[i := Entering c b held todo]> ths)).
  { eapply caller_ok; [|done..]. by apply reachable_ok; [apply normalize_ok|]. }
  inversion T; subst. destruct R' as [Ph G _ _ _ F _]. cbn in *. specialize (F E). destruct (G GFarm) as [EG _].
  assert (A : total admitted (<[i := Entering c b held todo]> ths) <= sh_gate s' GFarm).
  { rewrite EG. apply total_le. intros ph I. apply (admitted_holds p); [done|]. rewrite List.Forall_forall in Ph. by apply Ph. }
  assert (1 <= total admitted (<[i := Entering c b held todo]> ths)).
  { apply Z.le_trans with (admitted (Entering c b held todo)).
    - apply reachable_ok in R; [|apply normalize_ok]. destruct R as [Ph' _ _ _ _ _ _]. cbn in Ph'.
      apply (Forall_lookup_1 _ _ _ _ Ph') in L. destruct L as (-> & -> & _). done.
    - apply (total_In _ _ i); [intros [|[] ? [|] ?| | | | | |]; try done; by destruct c0|].
      apply list_lookup_insert_eq. by eapply lookup_lt_Some. }
  unfold farmAdmitted in *. bool_facts. lia.
Qed.

(** ** Progress: every class has a floor *)

(** Connections a class can always get, whatever the other classes do: the
    reserve for the probe; for the others what is left of the general pool
    when every other class is at its cap. *)
Definition guaranteed (p : PoolPolicy) (c : QueryClass) : Z :=
  let caps := InteractiveConns p + BackgroundConns p + FarmIngestConns p + AuthoringConns p in
  match c with
  | ClassProbe => ProbeReserve p
  | _ => let own := gate_cap p (own_gate c) in Z.min own (general p - (caps - own))
  end.

Example default_floors : map (guaranteed (policy_normalize DefaultPoolPolicy))
  [ClassProbe; ClassInteractive; ClassBackground; ClassFarmIngest; ClassAuthoring] = [1; 5; 3; 1; 3].
Proof. vm_compute. reflexivity. Qed.

Section progress.
  Context (p : PoolPolicy) (enabled : Enabled p = true).

(** The general gate is only held together with the gate of a class, and a
    slot only together with the general gate or the probe's. *)
Lemma general_held ph : phase_ok p ph ->
    holds GGeneral ph <= holds GInter ph + holds GBack ph + holds GFarm ph + holds GAuthoring ph.
  Proof using enabled.
    intros P. unfold holds. assert (Pre : held_of ph = [] \/ exists c rest, gatesFor p c = (held_of ph ++ rest)%list).
    { destruct ph; cbn in *; [by left|right; exists c..].
      - eauto.
      - destruct P as (_ & _ & P). eauto.
      - exists []. by rewrite app_nil_r.
      - exists []. by rewrite app_nil_r.
      - exists []. by rewrite app_nil_r.
      - done.
      - done. }
    destruct Pre as [->|(c & rest & E)]; [done|]. unfold gatesFor in E. rewrite enabled in E. cbn [negb] in E.
    destruct (held_of ph) as [|g [|g' [|g'' held]]]; [done| | |by destruct c];
      destruct c; cbn in E; try discriminate; injection E; intros; subst; by vm_compute.
  Qed.

Lemma slot_held ph : phase_ok p ph -> owns ph <= holds GGeneral ph + holds GProbe ph.
  Proof using enabled.
    intros P. unfold holds. pose proof (gate_count_nonneg GGeneral (held_of ph)). pose proof (gate_count_nonneg GProbe (held_of ph)).
    destruct ph; cbn in *; try lia; subst held; unfold gatesFor; rewrite enabled; by destruct c.
  Qed.

Lemma general_free s ths c : pool_ok p (s, ths) -> c <> ClassProbe ->
    total (holds (own_gate c)) ths < guaranteed p c -> sh_gate s GGeneral < gate_cap p GGeneral.
  Proof using enabled.
    intros [Ph G _ _ _ _ _] N L. cbn in *. pose proof (fun g => proj2 (G g) enabled) as Cap.
    assert (B : total (holds GGeneral) ths <= total (holds GInter) ths + total (holds GBack) ths
      + total (holds GFarm) ths + total (holds GAuthoring) ths).
    { rewrite <- !total_add. apply total_le. intros ph I. apply general_held. rewrite List.Forall_forall in Ph. by apply Ph. }
    pose proof (Cap GInter). pose proof (Cap GBack). pose proof (Cap GFarm). pose proof (Cap GAuthoring).
    rewrite !(proj1 (G _)) in *. destruct c; cbn in *; try done; lia.
  Qed.

Lemma slot_free s ths i c b : 1 <= ProbeReserve p -> pool_ok p (s, ths) ->
    ths !! i = Some (Entering c b (gatesFor p c) []) -> 0 < sh_idle s \/ sh_sem s < MaxConns p.
  Proof using enabled.
    intros Rv [Ph G I S M _ _] L. cbn in *. set (ph := Entering c b (gatesFor p c) []) in *.
    assert (B : total owns (<[i := Out]> ths) <= total (holds GGeneral) (<[i := Out]> ths) + total (holds GProbe) (<[i := Out]> ths)).
    { rewrite <- total_add. apply total_le. intros x Ix. apply slot_held.
      assert (F : Forall (phase_ok p) (<[i := Out]> ths)) by by apply Forall_insert.
      rewrite List.Forall_forall in F. by apply F. }
    rewrite !(total_insert _ _ _ ph) in B by done. pose proof (proj2 (G GGeneral) enabled) as C1.
    pose proof (proj2 (G GProbe) enabled) as C2. rewrite !(proj1 (G _)) in *. cbn in C1, C2. unfold general in C1.
    destruct (Z.ltb_spec (ProbeReserve p) 1); [lia|].
    assert (H1 : 1 <= holds GGeneral ph + holds GProbe ph) by (unfold holds, ph, gatesFor; cbn; rewrite enabled; by destruct c).
    change (owns ph) with 0 in B. change (owns Out) with 0 in B.
    change (holds GGeneral Out) with 0 in B. change (holds GProbe Out) with 0 in B. lia.
  Qed.

(** Steps of one caller while the others stand still. *)
Definition solo (i : nat) : pool -> pool -> Prop := rtc (step p (Caller i)).

Lemma solo_step i s ths ph s' ph' st : ths !! i = Some ph -> tstep p s ph s' ph' ->
    solo i (s', <[i := ph']> ths) st -> solo i (s, ths) st.
  Proof. intros L T R. eapply rtc_l; [by eapply s_caller|done]. Qed.

(** From holding all its gates a caller reaches a connection. *)
Lemma checkout_progress i s ths c b : 1 <= ProbeReserve p -> pool_ok p (s, ths) ->
    ths !! i = Some (Entering c b (gatesFor p c) []) ->
    exists s', solo i (s, ths) (s', <[i := Using c b (gatesFor p c)]> ths).
  Proof using enabled.
    intros Rv O L. assert (Len : (i < length ths)%nat) by by eapply lookup_lt_Some.
    assert (Fin : forall s1, exists s', solo i (s1, <[i := Connecting c b (gatesFor p c)]> ths) (s', <[i := Using c b (gatesFor p c)]> ths)).
    { intros s1. exists (record_success c b 0 0 s1).
      eapply solo_step; [by apply list_lookup_insert_eq|apply t_connected|]. rewrite list_insert_insert_eq.
      eapply solo_step; [by apply list_lookup_insert_eq|by apply (t_granted p _ _ _ _ 0 0)|]. rewrite list_insert_insert_eq.
      apply rtc_refl. }
    destruct (slot_free s ths i c b Rv O L) as [H|H].
    - destruct (Fin (set_idle (sh_idle s - 1) s)) as [s' F]. exists s'. eapply solo_step; [done|by apply t_idle|done].
    - destruct (Fin (set_sem (sh_sem s + 1) s)) as [s' F]. exists s'. eapply solo_step; [done|by apply t_dial|done].
  Qed.

(** From the first gate on: the class gate, then the general one. *)
Lemma gates_progress i s ths c b : 1 <= ProbeReserve p -> pool_ok p (s, ths) ->
    ths !! i = Some (Entering c b [] (gatesFor p c)) ->
    total (holds (own_gate c)) ths < guaranteed p c ->
    (c = ClassFarmIngest -> sh_gate s GFarm < sh_farmConns s) ->
    exists s', solo i (s, ths) (s', <[i := Using c b (gatesFor p c)]> ths).
  Proof using enabled.
    intros Rv O L Fl Fm. assert (Len : (i < length ths)%nat) by by eapply lookup_lt_Some.
    assert (Own : sh_gate s (own_gate c) < gate_cap p (own_gate c)).
    { rewrite (proj1 (ok_gates _ _ O _)). cbn. destruct c; cbn in *; try lia. destruct (Z.ltb_spec (ProbeReserve p) 1); lia. }
    (* one step, then the rest from the state it leads to *)
    assert (K : forall s1 ths1 ph1 s2 ph2, ths1 = <[i := ph1]> ths -> pool_ok p (s1, ths1) -> tstep p s1 ph1 s2 ph2 ->
      (pool_ok p (s2, <[i := ph2]> ths) -> exists s', solo i (s2, <[i := ph2]> ths) (s', <[i := Using c b (gatesFor p c)]> ths)) ->
      exists s', solo i (s1, ths1) (s', <[i := Using c b (gatesFor p c)]> ths)).
    { intros s1 ths1 ph1 s2 ph2 -> O1 T H. assert (L1 : <[i := ph1]> ths !! i = Some ph1) by by apply list_lookup_insert_eq.
      pose proof (caller_ok p i _ _ _ _ _ O1 L1 T) as O2. rewrite list_insert_insert_eq in O2. destruct (H O2) as [s' R].
      exists s'. eapply solo_step; [done|done|]. by rewrite list_insert_insert_eq. }
    assert (Fin : forall s1, pool_ok p (s1, <[i := Entering c b (gatesFor p c) []]> ths) ->
      exists s', solo i (s1, <[i := Entering c b (gatesFor p c) []]> ths) (s', <[i := Using c b (gatesFor p c)]> ths)).
    { intros s1 O1. destruct (checkout_progress i s1 _ c b Rv O1) as [s' R]; [by apply list_lookup_insert_eq|].
      exists s'. by rewrite list_insert_insert_eq in R. }
    destruct (decide (c = ClassProbe)) as [->|Np].
    - assert (E : gatesFor p ClassProbe = [GProbe]) by (unfold gatesFor; by rewrite enabled). rewrite E in *.
      eapply (K s ths _ (add_gate GProbe 1 s) (Entering ClassProbe b [GProbe] [])); [by rewrite list_insert_id|done| |apply Fin].
      by apply (t_gate p _ _ _ []).
    - pose proof (general_free s ths c O Np Fl) as Gen.
      assert (E : gatesFor p c = [own_gate c; GGeneral]) by (unfold gatesFor; rewrite enabled; by destruct c).
      rewrite E in *.
      assert (Last : forall s1, sh_gate s1 GGeneral = sh_gate s GGeneral ->
        pool_ok p (s1, <[i := Entering c b [own_gate c] [GGeneral]]> ths) ->
        exists s', solo i (s1, <[i := Entering c b [own_gate c] [GGeneral]]> ths) (s', <[i := Using c b [own_gate c; GGeneral]]> ths)).
      { intros s1 Eg O1. eapply (K s1 _ _ (add_gate GGeneral 1 s1) (Entering c b [own_gate c; GGeneral] [])); [done|done| |apply Fin].
        apply (t_gate p _ _ _ [own_gate c]); [done|by rewrite Eg]. }
      assert (Ng : sh_gate (add_gate (own_gate c) 1 s) GGeneral = sh_gate s GGeneral).
      { rewrite add_gate_at. destruct (decide (own_gate c = GGeneral)); [by destruct c|lia]. }
      destruct (decide (c = ClassFarmIngest)) as [->|Nf].
      + eapply (K s ths _ (add_gate GFarm 1 s) (Checking ClassFarmIngest b [GFarm] [GGeneral])); [by rewrite list_insert_id|done| |].
        { by apply (t_farm p _ _ _ []). }
        intros O1. eapply (K _ _ _ (add_gate GFarm 1 s) (Entering ClassFarmIngest b [GFarm] [GGeneral])); [done|done| |by apply Last].
        apply t_admit. unfold farmAdmitted. rewrite add_gate_at, decide_True by done.
        cbn. apply Z.leb_le. specialize (Fm eq_refl). lia.
      + eapply (K s ths _ (add_gate (own_gate c) 1 s) (Entering c b [own_gate c] [GGeneral])); [by rewrite list_insert_id|done| |by apply Last].
        apply (t_gate p _ _ _ []); [by destruct c|done].
  Qed.
End progress.


(** A fresh pool and two callers, the first one a visitor. *)
Definition fresh_pool : pool :=
  (mkShared 0 0 false 2 (fun _ => 0) (fun _ => counters_zero) (fun _ => NewQueryBudget ClassInteractive), [Out; Out]).

Lemma fresh_reachable : reachable (policy_normalize DefaultPoolPolicy) fresh_pool.
Proof. apply r_init. apply (initial_pool (policy_normalize DefaultPoolPolicy) (fun _ => NewQueryBudget ClassInteractive) 2). Qed.


Lemma pool_invariant_witness :
  reachable (policy_normalize DefaultPoolPolicy) fresh_pool /\ 0 <= 16
  /\ total owns (snd fresh_pool) + sh_idle (fst fresh_pool) = sh_sem (fst fresh_pool).
Proof.
  split; [exact fresh_reachable|]. split; [lia|].
  apply (pool_invariant DefaultPoolPolicy fresh_pool fresh_reachable eq_refl).
Defined.
