(* ===== verification/Measured.v ===== *)
(** * Comparable measurements (internal/compatibility)

    The builder turns verification receipts into claims about versions.  This
    file has its inputs ([ReceiptInfo] and [ParseReceiptRow] of aggregate.go,
    [sampleData] of builder.go, the manifest and the case id of
    domain/types.go) and the one definition of "comparable" that boundaries,
    upgrade paths and the regression watch share: [receiptVersionGroups] of
    receipt_regression.go.  Decoding a stored document is encoding/json's;
    the functions take the decoded value. *)

From stdpp Require Import gmap.
From S2P Require Import Prelude GoStrings GoUnicode GoStd StringFacts UnicodeFacts WordFacts Float Hash Json.
From S2P Require Import Purl Env Failure CliSubject Experience Boundaries Search Anomaly Relevance Grade Candidate.

(** ** Inputs *)

Record ReceiptRow := mkReceiptRow {
  rr_ReceiptID : string;
  rr_SampleID : string;
  rr_PeerID : string;
  rr_EnvHash : string;
  rr_ReceiptJSON : string;
  rr_ContractResult : string;
  rr_CreatedAt : Z
}.

Record ReceiptInfo := mkReceiptInfo {
  ri_PeerID : string;
  ri_CaseID : string;
  ri_Env : EnvironmentFingerprint;
  ri_ContractResult : string;
  ri_Stages : gmap string string;
  ri_StageFailures : gmap string FailureEvidence;
  ri_ResolvedPackages : list PURL;
  ri_VerifierAdapter : string;
  ri_SandboxCapability : string;
  ri_CreatedAt : Z
}.

(** The loop: [prev] is the entry before, absent at the first. *)
Fixpoint resolved_purls (prev : option string) (raws : list string) : option (list PURL) :=
  match raws with
  | [] => Some []
  | raw :: rest =>
      match ParsePURL raw with
      | Err _ => None
      | Ok p =>
          if negb (String.eqb (purl_String p) raw) || negb (ConcreteResolvedVersion (purl_Version p))
             || match prev with Some q => negb (str_lt q raw) | None => false end
          then None
          else cons p <$> resolved_purls (Some raw) rest
      end
  end.

Definition resolvedPURLsFromReceipt (rec : VerificationReceipt) : list PURL :=
  if negb (vr_SchemaVersion rec =? 2) || negb (String.eqb (stage (vr_Stages rec) "resolve") ResultPass)
     || Nat.eqb (length (vr_ResolvedPackages rec)) 0
  then [] else default [] (resolved_purls None (vr_ResolvedPackages rec)).

(** [decoded] is the receipt [json.Unmarshal] reads from the row's document,
    [None] on a decoding error. *)
Definition ParseReceiptRow (decoded : option VerificationReceipt) (r : ReceiptRow) : option ReceiptInfo :=
  match decoded with
  | None => None
  | Some rec =>
      let peerID := if String.eqb (vr_PeerID rec) "" then rr_PeerID r else vr_PeerID rec in
      let contract := stage (vr_Stages rec) "contract" in
      let contractResult := if String.eqb contract "" then rr_ContractResult r else contract in
      Some (mkReceiptInfo peerID (vr_CaseID rec) (env_Normalize (vr_Environment rec)) contractResult
              (vr_Stages rec) (vr_StageFailures rec) (resolvedPURLsFromReceipt rec)
              (vr_VerifierAdapter rec) (vr_SandboxCapability rec) (rr_CreatedAt r))
  end.

(** The manifest.  The slices that are written even when empty may be nil:
    [mf_ContractCommand] is [None] then, and the flags say it of the case's
    own two, whose elements [Case] holds. *)
Record SampleManifest := mkManifest {
  mf_SchemaVersion : Z;
  mf_Case : Case;
  mf_nilCasePackages : bool;
  mf_nilCaseContract : bool;
  mf_Packages : list string;
  mf_Symbols : list string;
  mf_Subject : string;
  mf_Environment : EnvironmentFingerprint;
  mf_License : string;
  mf_BuildCommand : list string;
  mf_ContractCommand : option (list string);
  mf_VerifierAdapter : string
}.

Record SampleRow := mkSampleRow {
  sm_SampleID : string;
  sm_CaseID : string;
  sm_ManifestJSON : string;
  sm_Status : string;
  sm_OriginSeeder : string;
  sm_License : string;
  sm_SizeBytes : Z;
  sm_HotScore : float64;
  sm_CreatedAt : Z;
  sm_Quarantined : bool;
  sm_QuarantineReason : string
}.

Record sampleData := mkSampleData {
  sd_row : SampleRow;
  sd_manifest : SampleManifest;
  sd_purls : list PURL;
  sd_receipts : list ReceiptInfo
}.

(** ** What makes two measurements comparable *)

Definition stableSampleCaseID (sd : sampleData) : string :=
  let c := mf_Case (sd_manifest sd) in
  if negb (String.eqb (sm_CaseID (sd_row sd)) "") then sm_CaseID (sd_row sd)
  else if negb (String.eqb (case_CaseID c) "") then case_CaseID c
  else if negb (case_SchemaVersion c =? 0)
  then case_ComputeID (mf_nilCasePackages (sd_manifest sd)) (mf_nilCaseContract (sd_manifest sd)) c
  else "".

Definition receiptHarnessHash (sd : sampleData) : string :=
  "sha256:" +:+ sha256_hex (CanonicalJSON (JObj
    (omit_strs "buildCommand" (mf_BuildCommand (sd_manifest sd))
     ++ field "contractCommand" (jslice (mf_ContractCommand (sd_manifest sd)))
     ++ field "verifierAdapter" (JStr (mf_VerifierAdapter (sd_manifest sd)))))).

Fixpoint distinct_symbols (seen symbols : list string) : list string :=
  match symbols with
  | [] => []
  | s :: rest =>
      if negb (String.eqb s "") && negb (str_in s seen) then s :: distinct_symbols (s :: seen) rest
      else distinct_symbols seen rest
  end.

Definition regressionSymbols (sd : sampleData) : list string :=
  match distinct_symbols [] (mf_Symbols (sd_manifest sd)) with
  | [] => [""]
  | out => sort_strings out
  end.

(** [p.Ecosystem == target.ecosystem && p.Name == target.name]. *)
Definition same_identity (p q : PURL) : bool :=
  String.eqb (purl_Ecosystem p) (purl_Ecosystem q) && String.eqb (purl_Name p) (purl_Name q).

Definition receiptCompanions (packages : list PURL) (target : PURL) : string :=
  Join (sort_strings (map purl_String (List.filter (fun p => negb (same_identity p target)) packages))) (single nul).

(** [identityCount[pkgKey{p.Ecosystem, p.Name}]]. *)
Definition identityCount (packages : list PURL) (p : PURL) : Z :=
  Z.of_nat (length (List.filter (fun q => same_identity q p) packages)).

Record receiptComparisonKey := mkKey {
  ck_ecosystem : string;
  ck_name : string;
  ck_caseID : string;
  ck_symbol : string;
  ck_contextLabel : string;
  ck_envBucketHash : string;
  ck_verifierAdapter : string;
  ck_sandboxCapability : string;
  ck_companions : string;
  ck_harnessHash : string
}.
#[export] Instance receiptComparisonKey_eq_dec : EqDecision receiptComparisonKey.
Proof. solve_decision. Defined.
#[export] Program Instance receiptComparisonKey_countable : Countable receiptComparisonKey :=
  inj_countable'
    (fun k => ((ck_ecosystem k, ck_name k, ck_caseID k, ck_symbol k, ck_contextLabel k),
               (ck_envBucketHash k, ck_verifierAdapter k, ck_sandboxCapability k, ck_companions k, ck_harnessHash k)))
    (fun '((a, b, c, d, e), (f, g, h, i, j)) => mkKey a b c d e f g h i j) _.
Next Obligation. by intros []. Qed.

(** ** Verdicts *)

Record receiptVersionVerdict := mkVerdict {
  rv_purl : string;
  rv_pass : Z;
  rv_fail : Z;
  rv_firstPass : Z;
  rv_lastPass : Z;
  rv_firstFail : Z;
  rv_lastFail : Z;
  rv_undated : bool
}.

Notation versionGroups := (gmap receiptComparisonKey (gmap string receiptVersionVerdict)).

Section groups.
Context `{GT : !GoTime}.

(** [if first.IsZero() || at.Before( *first) { *first = at }], and for [last]. *)
Definition note_first (first at_ : Z) : Z := if (first =? time_zero) || (at_ <? first) then at_ else first.
Definition note_last (last at_ : Z) : Z := if last <? at_ then at_ else last.

Definition record (v : receiptVersionVerdict) (result : string) (at_ : Z) : receiptVersionVerdict :=
  let undated := rv_undated v || (at_ =? time_zero) in
  if String.eqb result ResultPass
  then mkVerdict (rv_purl v) (wrap64 (rv_pass v + 1)) (rv_fail v)
         (note_first (rv_firstPass v) at_) (note_last (rv_lastPass v) at_) (rv_firstFail v) (rv_lastFail v) undated
  else mkVerdict (rv_purl v) (rv_pass v) (wrap64 (rv_fail v + 1))
         (rv_firstPass v) (rv_lastPass v) (note_first (rv_firstFail v) at_) (note_last (rv_lastFail v) at_) undated.

Definition new_verdict (purl : string) : receiptVersionVerdict :=
  mkVerdict purl 0 0 time_zero time_zero time_zero time_zero false.

(** One pass through the innermost loop: where a measurement is filed, and
    what it says. *)
Record measurement := mkMeasurement {
  ms_key : receiptComparisonKey;
  ms_version : string;
  ms_purl : string;
  ms_result : string;
  ms_at : Z
}.

(** The receipts that are skipped. *)
Definition not_comparable (caseID : string) (rec : ReceiptInfo) : bool :=
  let contract := stage (ri_Stages rec) "contract" in
  String.eqb (ri_CaseID rec) "" || negb (String.eqb (ri_CaseID rec) caseID)
  || negb (String.eqb (stage (ri_Stages rec) "resolve") ResultPass)
  || negb (String.eqb (stage (ri_Stages rec) "compile") ResultPass)
  || (negb (String.eqb contract ResultPass) && negb (String.eqb contract ResultFail))
  || Nat.eqb (length (ri_ResolvedPackages rec)) 0
  || String.eqb (ri_VerifierAdapter rec) "" || String.eqb (ri_SandboxCapability rec) "".

Definition bucket_incomplete (bucket : EnvironmentFingerprint) : bool :=
  (env_SchemaVersion bucket =? 0) || String.eqb (env_Ecosystem bucket) ""
  || String.eqb (env_OS bucket) "" || String.eqb (env_Arch bucket) "".

Definition comparison_key (caseID harnessHash : string) (bucket : EnvironmentFingerprint) (rec : ReceiptInfo)
    (p : PURL) (symbol : string) : receiptComparisonKey :=
  mkKey (purl_Ecosystem p) (purl_Name p) caseID symbol (ContextLabel bucket) (env_Hash bucket)
    (ri_VerifierAdapter rec) (ri_SandboxCapability rec) (receiptCompanions (ri_ResolvedPackages rec) p) harnessHash.

Definition receipt_measurements (caseID harnessHash : string) (symbols : list string) (rec : ReceiptInfo) :
    list measurement :=
  if not_comparable caseID rec then []
  else
    let bucket := Bucketed (env_Normalize (ri_Env rec)) in
    if bucket_incomplete bucket then []
    else flat_map (fun p =>
      if negb (identityCount (ri_ResolvedPackages rec) p =? 1) then []
      else map (fun symbol => mkMeasurement (comparison_key caseID harnessHash bucket rec p symbol)
                  (purl_Version p) (purl_String p) (stage (ri_Stages rec) "contract") (ri_CreatedAt rec)) symbols)
      (ri_ResolvedPackages rec).

Definition sample_measurements (sd : sampleData) : list measurement :=
  let caseID := stableSampleCaseID sd in
  if String.eqb caseID "" then []
  else
    let harnessHash := receiptHarnessHash sd in
    if String.eqb harnessHash "" then []
    else flat_map (receipt_measurements caseID harnessHash (regressionSymbols sd)) (sd_receipts sd).

(** The measurements in the order the loops visit them. *)
Definition measurements (samples : list sampleData) : list measurement := flat_map sample_measurements samples.

(** The loop body: the maps and the verdict are created when first needed. *)
Definition add_measurement (groups : versionGroups) (m : measurement) : versionGroups :=
  partial_alter (fun versions => Some (partial_alter (fun v =>
      Some (record (default (new_verdict (ms_purl m)) v) (ms_result m) (ms_at m)))
    (ms_version m) (default ∅ versions))) (ms_key m) groups.

Definition receiptVersionGroups (samples : list sampleData) : versionGroups :=
  fold_left add_measurement (measurements samples) ∅.
End groups.

(** ** Two-level maps built by a loop *)

Section nested.
Context {K A V : Type} `{Countable K} (key : A -> K) (sub : A -> string) (init : A -> V) (upd : V -> A -> V).

(** File [x] under its key and its sub-key, creating what is missing. *)
Definition nested_add (groups : gmap K (gmap string V)) (x : A) : gmap K (gmap string V) :=
  partial_alter (fun g => Some (partial_alter (fun v => Some (upd (default (init x) v) x)) (sub x) (default ∅ g))) (key x) groups.

Definition nested_at (groups : gmap K (gmap string V)) (k : K) (v : string) : option V := groups !! k ≫= fun g => g !! v.

Definition under (k : K) (v : string) (xs : list A) : list A :=
  List.filter (fun x => bool_decide (key x = k) && String.eqb (sub x) v) xs.

Definition tallied (xs : list A) : option V :=
  match xs with [] => None | x :: _ => Some (fold_left upd xs (init x)) end.

Lemma In_under k v xs x : In x (under k v xs) <-> In x xs /\ key x = k /\ sub x = v.
Proof using. unfold under. rewrite List.filter_In, andb_true_iff, bool_decide_eq_true, String.eqb_eq. reflexivity. Qed.

Lemma tallied_snoc xs x : tallied (xs ++ [x]) = Some (upd (default (init x) (tallied xs)) x).
Proof. destruct xs as [|x0 xs]; [done|]. cbn [app tallied default]. by rewrite app_comm_cons, fold_left_app. Qed.

Lemma nested_at_add groups x k v : nested_at (nested_add groups x) k v =
  if bool_decide (key x = k) && String.eqb (sub x) v
  then Some (upd (default (init x) (nested_at groups k v)) x) else nested_at groups k v.
Proof.
  unfold nested_at, nested_add. destruct (decide (key x = k)) as [<-|N].
  - rewrite lookup_partial_alter_eq, bool_decide_true by done. cbn [mbind option_bind andb].
    destruct (String.eqb_spec (sub x) v) as [<-|N].
    + rewrite lookup_partial_alter_eq. by destruct (groups !! key x); cbn; rewrite ?lookup_empty.
    + rewrite lookup_partial_alter_ne by done. by destruct (groups !! key x); cbn; rewrite ?lookup_empty.
  - by rewrite lookup_partial_alter_ne, bool_decide_false by done.
Qed.

(** What is found under two keys is the tally of what was filed there. *)
Lemma nested_fold xs k v : nested_at (fold_left nested_add xs ∅) k v = tallied (under k v xs).
Proof.
  induction xs as [|x xs IH] using rev_ind; [done|].
  rewrite fold_left_app. cbn [fold_left]. rewrite nested_at_add, IH. unfold under. rewrite List.filter_app.
  cbn [List.filter]. destruct (_ && _); [by rewrite tallied_snoc|by rewrite app_nil_r].
Qed.
End nested.

(** ** The groups count the measurements *)

(** The measurements filed under one key and version, and the times of those
    with one result. *)
Definition measured_at : receiptComparisonKey -> string -> list measurement -> list measurement := under ms_key ms_version.

Definition times (pass : bool) (ms : list measurement) : list Z :=
  map ms_at (List.filter (fun m => Bool.eqb (String.eqb (ms_result m) ResultPass) pass) ms).

Definition verdict_at : versionGroups -> receiptComparisonKey -> string -> option receiptVersionVerdict := nested_at.

Definition earliest (t : Z) (l : list Z) : Prop := In t l /\ forall u, In u l -> t <= u.
Definition latest (t : Z) (l : list Z) : Prop := In t l /\ forall u, In u l -> u <= t.

Lemma In_measured_at key version ms m : In m (measured_at key version ms) <->
  In m ms /\ ms_key m = key /\ ms_version m = version.
Proof. apply In_under. Qed.

Section tally_of.
Context `{GT : !GoTime}.

Definition recorded (v : receiptVersionVerdict) (ms : list measurement) : receiptVersionVerdict :=
  fold_left (fun v m => record v (ms_result m) (ms_at m)) ms v.

Definition tally_of : list measurement -> option receiptVersionVerdict :=
  tallied (fun m => new_verdict (ms_purl m)) (fun v m => record v (ms_result m) (ms_at m)).

(** The verdict under a key and version is the tally of the measurements
    filed there. *)
Lemma verdict_at_tally ms key version :
  verdict_at (fold_left add_measurement ms ∅) key version = tally_of (measured_at key version ms).
Proof. exact (nested_fold ms_key ms_version (fun m => new_verdict (ms_purl m)) (fun v m => record v (ms_result m) (ms_at m)) ms key version). Qed.

Lemma wrap64_count n : Z.of_nat n <= int64_max -> wrap64 (Z.of_nat n) = Z.of_nat n.
Proof. intros. apply wrap64_id. unfold in_int64, int64_min. lia. Qed.

Lemma times_snoc b ms m :
  times b (ms ++ [m]) = (times b ms ++ if Bool.eqb (String.eqb (ms_result m) ResultPass) b then [ms_at m] else [])%list.
Proof. unfold times. rewrite List.filter_app, map_app. cbn [List.filter]. by destruct (Bool.eqb _ b). Qed.

(** What a verdict holds after the measurements [ms]. *)
Record counts (purl : string) (ms : list measurement) (v : receiptVersionVerdict) : Prop := {
  counts_purl : rv_purl v = purl;
  counts_pass : rv_pass v = wrap64 (Z.of_nat (length (times true ms)));
  counts_fail : rv_fail v = wrap64 (Z.of_nat (length (times false ms)));
  counts_firstPass : rv_firstPass v = fold_left note_first (times true ms) time_zero;
  counts_firstFail : rv_firstFail v = fold_left note_first (times false ms) time_zero;
  counts_lastPass : rv_lastPass v = fold_left note_last (times true ms) time_zero;
  counts_lastFail : rv_lastFail v = fold_left note_last (times false ms) time_zero;
  counts_undated : rv_undated v = existsb (fun m => ms_at m =? time_zero) ms
}.

Lemma recorded_counts purl ms : counts purl ms (recorded (new_verdict purl) ms).
Proof.
  unfold recorded. induction ms as [|m ms IH] using rev_ind; [by constructor|].
  rewrite fold_left_app. cbn [fold_left]. set (v := fold_left _ _ _) in *. destruct IH as [H1 H2 H3 H4 H5 H6 H7 H8].
  constructor; unfold record; rewrite ?times_snoc; destruct (String.eqb (ms_result m) ResultPass);
    cbn [Bool.eqb rv_purl rv_pass rv_fail rv_firstPass rv_firstFail rv_lastPass rv_lastFail rv_undated];
    rewrite ?app_nil_r, ?fold_left_app, ?existsb_app, ?length_app; cbn [fold_left existsb length];
    rewrite ?orb_false_r; try congruence;
    rewrite ?H2, ?H3, ?wrap64_add_l; f_equal; lia.
Qed.

Lemma fold_first l : Forall (fun t => t <> time_zero) l -> l <> [] -> earliest (fold_left note_first l time_zero) l.
Proof.
  induction l as [|t l IH] using rev_ind; [done|]. intros [F Ft%Forall_inv]%Forall_app _.
  rewrite fold_left_app. cbn [fold_left]. unfold note_first at 1. destruct l as [|t0 l].
  - cbn [fold_left]. rewrite Z.eqb_refl. cbn. split; [by left|]. intros u [<-|[]]; lia.
  - destruct IH as [I M]; [done|done|]. set (f := fold_left note_first (t0 :: l) time_zero) in *.
    assert (N : f <> time_zero) by (rewrite List.Forall_forall in F; by apply F).
    apply Z.eqb_neq in N. rewrite N. cbn [orb]. destruct (Z.ltb_spec t f).
    + split; [apply in_app_iff; right; by left|]. intros u [Hu%M|[<-|[]]]%in_app_iff; lia.
    + split; [apply in_app_iff; by left|]. intros u [Hu%M|[<-|[]]]%in_app_iff; lia.
Qed.

Lemma fold_last l : Forall (fun t => time_zero < t) l -> l <> [] -> latest (fold_left note_last l time_zero) l.
Proof.
  induction l as [|t l IH] using rev_ind; [done|]. intros [F Ft%Forall_inv]%Forall_app _.
  rewrite fold_left_app. cbn [fold_left]. unfold note_last at 1. destruct l as [|t0 l].
  - cbn [fold_left]. destruct (Z.ltb_spec time_zero t); [|lia]. split; [by left|]. intros u [<-|[]]; lia.
  - destruct IH as [I M]; [done|done|]. set (f := fold_left note_last (t0 :: l) time_zero) in *.
    destruct (Z.ltb_spec f t).
    + split; [apply in_app_iff; right; by left|]. intros u [Hu%M|[<-|[]]]%in_app_iff; lia.
    + split; [apply in_app_iff; by left|]. intros u [Hu%M|[<-|[]]]%in_app_iff; lia.
Qed.
End tally_of.

(** ** Where a measurement comes from *)

(** The receipt [rec] of sample [sd] measured package [p]: it is a contract
    run of the sample's own case that resolved and compiled, in a known
    environment, and [p] is the only version of its package it resolved. *)
Definition measured_by (sd : sampleData) (rec : ReceiptInfo) (p : PURL) : Prop :=
  In rec (sd_receipts sd) /\ In p (ri_ResolvedPackages rec)
  /\ ri_CaseID rec = stableSampleCaseID sd /\ ri_CaseID rec <> ""
  /\ stage (ri_Stages rec) "resolve" = ResultPass /\ stage (ri_Stages rec) "compile" = ResultPass
  /\ (forall q, In q (ri_ResolvedPackages rec) -> same_identity q p = true -> q = p).

Lemma identity_alone packages p q : identityCount packages p = 1 -> In p packages -> In q packages ->
  same_identity q p = true -> q = p.
Proof.
  unfold identityCount. intros C Ip Iq E.
  assert (Sp : same_identity p p = true) by (unfold same_identity; by rewrite !String.eqb_refl).
  assert (Fp : In p (List.filter (fun q => same_identity q p) packages)) by (by apply List.filter_In).
  assert (Fq : In q (List.filter (fun q => same_identity q p) packages)) by (by apply List.filter_In).
  destruct (List.filter _ packages) as [|a [|b l]]; [done| |cbn in C; lia].
  destruct Fp as [<-|[]], Fq as [<-|[]]. done.
Qed.

Lemma measurement_source samples m : In m (measurements samples) ->
  exists sd rec p, In sd samples /\ measured_by sd rec p
    /\ ms_version m = purl_Version p /\ ms_purl m = purl_String p
    /\ ck_ecosystem (ms_key m) = purl_Ecosystem p /\ ck_name (ms_key m) = purl_Name p
    /\ ck_caseID (ms_key m) = ri_CaseID rec
    /\ ms_result m = stage (ri_Stages rec) "contract" /\ ms_at m = ri_CreatedAt rec
    /\ (ms_result m = ResultPass \/ ms_result m = ResultFail).
Proof.
  intros (sd & Hsd & Hm)%in_flat_map. exists sd. unfold sample_measurements in Hm.
  destruct (String.eqb (stableSampleCaseID sd) ""); [done|]. destruct (String.eqb (receiptHarnessHash sd) ""); [done|].
  apply in_flat_map in Hm as (rec & Hrec & Hm). unfold receipt_measurements in Hm.
  destruct (not_comparable _ rec) eqn:N; [done|]. destruct (bucket_incomplete _); [done|].
  apply in_flat_map in Hm as (p & Hp & Hm). destruct (Z.eqb_spec (identityCount (ri_ResolvedPackages rec) p) 1) as [C|]; [|done].
  apply in_map_iff in Hm as (symbol & <- & _). exists rec, p. unfold not_comparable in N.
  repeat rewrite orb_false_iff in N. rewrite andb_false_iff, !negb_false_iff, !String.eqb_eq, !String.eqb_neq in N.
  cbn. unfold measured_by. intuition eauto using identity_alone.
Qed.

Lemma measurement_purl samples m : In m (measurements samples) ->
  ms_purl m = purl_String (mkPURL (ck_ecosystem (ms_key m)) (ck_name (ms_key m)) (ms_version m)).
Proof.
  intros (sd & rec & p & _ & _ & Ev & Ep & Ee & En & _)%measurement_source. rewrite Ev, Ep, Ee, En. by destruct p.
Qed.

Lemma times_length samples key version : let ms := measured_at key version (measurements samples) in
  (length (times true ms) + length (times false ms) = length ms)%nat.
Proof.
  cbn zeta. unfold times. rewrite !length_map. induction (measured_at _ _ _) as [|m ms IH]; [done|].
  cbn [List.filter]. destruct (String.eqb (ms_result m) ResultPass); cbn [Bool.eqb length]; lia.
Qed.

Lemma measured_at_length key version ms : (length (measured_at key version ms) <= length ms)%nat.
Proof. apply List.filter_length_le. Qed.

Section exact.
Context `{GT : !GoTime}.

Lemma group_verdict samples key version v : verdict_at (receiptVersionGroups samples) key version = Some v ->
  let ms := measured_at key version (measurements samples) in
  ms <> [] /\ counts (purl_String (mkPURL (ck_ecosystem key) (ck_name key) version)) ms v.
Proof.
  unfold receiptVersionGroups. rewrite verdict_at_tally. unfold tally_of. cbn zeta.
  destruct (measured_at key version (measurements samples)) as [|m ms] eqn:E; [done|]. intros [= <-]. split; [done|].
  assert (Hm : In m (measured_at key version (measurements samples))) by (rewrite E; by left).
  apply In_measured_at in Hm as (Hm & <- & <-). apply measurement_purl in Hm as <-. exact (recorded_counts (ms_purl m) (m :: ms)).
Qed.

Lemma group_unmeasured samples key version : verdict_at (receiptVersionGroups samples) key version = None <->
  measured_at key version (measurements samples) = [].
Proof. unfold receiptVersionGroups. rewrite verdict_at_tally. unfold tally_of. by destruct (measured_at _ _ _). Qed.

Lemma times_spec samples key version (pass : bool) t :
  In t (times pass (measured_at key version (measurements samples))) <->
  exists m, In m (measurements samples) /\ ms_key m = key /\ ms_version m = version
    /\ ms_result m = (if pass then ResultPass else ResultFail) /\ ms_at m = t.
Proof.
  unfold times. rewrite in_map_iff. setoid_rewrite List.filter_In. setoid_rewrite In_measured_at. split.
  - intros (m & Et & (Hm & Hk & Hv) & R). exists m. do 3 (split; [done|]). split; [|done].
    apply measurement_source in Hm as (? & ? & ? & _ & _ & _ & _ & _ & _ & _ & _ & _ & [Q|Q]); rewrite Q in *; by destruct pass.
  - intros (m & Hm & Hk & Hv & R & Et). exists m. rewrite R. by destruct pass.
Qed.

(** The groups are an exact index.  A version has a verdict under a set
    of comparison conditions exactly when something was measured there; the
    verdict counts every passing and every failing measurement once, is
    flagged as undated exactly when one of them has no time, and holds the
    first and last time of each result. *)
Theorem verdicts_count_measurements samples key version :
  Z.of_nat (length (measurements samples)) <= int64_max ->
  let ms := measured_at key version (measurements samples) in
  match verdict_at (receiptVersionGroups samples) key version with
  | None => ms = []
  | Some v =>
      ms <> [] /\ rv_purl v = purl_String (mkPURL (ck_ecosystem key) (ck_name key) version)
      /\ rv_pass v = Z.of_nat (length (times true ms)) /\ rv_fail v = Z.of_nat (length (times false ms))
      /\ rv_pass v + rv_fail v = Z.of_nat (length ms)
      /\ (rv_undated v = true <-> exists m, In m ms /\ ms_at m = time_zero)
      /\ (Forall (fun m => time_zero < ms_at m) ms ->
            (0 < rv_pass v -> earliest (rv_firstPass v) (times true ms) /\ latest (rv_lastPass v) (times true ms))
            /\ (0 < rv_fail v -> earliest (rv_firstFail v) (times false ms) /\ latest (rv_lastFail v) (times false ms)))
  end.
Proof.
  intros Fit. cbn zeta. pose proof (times_length samples key version) as L. cbn zeta in L.
  pose proof (measured_at_length key version (measurements samples)) as L'.
  destruct (verdict_at _ key version) as [v|] eqn:E; [|by apply group_unmeasured].
  apply group_verdict in E as [Ne [P1 P2 P3 P4 P5 P6 P7 P8]]. set (ms := measured_at _ _ _) in *.
  rewrite wrap64_count in P2, P3 by lia.
  do 2 (split; [done|]). do 2 (split; [lia|]). split; [lia|]. split.
  { rewrite P8, existsb_exists. by setoid_rewrite Z.eqb_eq. }
  intros D.
  assert (Dt : forall b, Forall (fun t => time_zero < t) (times b ms)).
  { intros b. apply List.Forall_forall. intros t Ht. apply in_map_iff in Ht as (m & <- & Hm).
    apply List.filter_In in Hm as [Hm _]. rewrite List.Forall_forall in D. by apply D. }
  assert (Dn : forall b, Forall (fun t => t <> time_zero) (times b ms)).
  { intros b. eapply List.Forall_impl; [|apply Dt]. cbn. lia. }
  assert (N : forall b, 0 < Z.of_nat (length (times b ms)) -> times b ms <> []) by (intros b Hl E; rewrite E in Hl; cbn in Hl; lia).
  rewrite P2, P3, P4, P5, P6, P7. split; intros Hl; split; (apply fold_first || apply fold_last); auto.
Qed.
End exact.
