(* ===== verification/Upgrade.v ===== *)
(** * Boundaries, upgrade paths and the regression watch (internal/compatibility)

    Three products read one index of measurements ([Measured]):
    [regressionsFromReceipts] (receipt_regression.go) finds PASS to FAIL
    transitions between neighbouring measured releases,
    [safeUpgradesFromReceipts] (safe_upgrade.go) the highest release reachable
    through releases that all passed, and [regressionWatchFromReceipts]
    (regression_watch.go) the coordinates whose verdict changed over time.
    Each of them walks maps, so each takes its own iteration order. *)

From stdpp Require Import gmap.
From S2P Require Import Prelude GoStrings GoUnicode GoStd StringFacts UnicodeFacts WordFacts Float Hash Json.
From S2P Require Import Purl Env Failure CliSubject Experience Boundaries Search Anomaly Relevance Grade Candidate Measured.

(** ** Shared steps *)

Record receiptTarget := mkTarget { tg_purl : string; tg_symbol : string }.
#[export] Instance receiptTarget_eq_dec : EqDecision receiptTarget.
Proof. solve_decision. Defined.
#[export] Program Instance receiptTarget_countable : Countable receiptTarget :=
  inj_countable' (fun t => (tg_purl t, tg_symbol t)) (fun '(p, s) => mkTarget p s) _.
Next Obligation. by intros []. Qed.

Definition StageContract := "CONTRACT".

(** The single measured verdict and how many measurements carry it. *)
Definition unambiguous (v : receiptVersionVerdict) : option (string * Z) :=
  if (0 <? rv_pass v) && (rv_fail v =? 0) then Some (ResultPass, rv_pass v)
  else if (0 <? rv_fail v) && (rv_pass v =? 0) then Some (ResultFail, rv_fail v)
  else None.

(** [result, _, ok := v.unambiguous(); ok && result == r]. *)
Definition verdict_is (r : string) (v : receiptVersionVerdict) : bool :=
  match unambiguous v with Some (result, _) => String.eqb result r | None => false end.

Definition companionPackages (key : string) : list string :=
  if String.eqb key "" then [] else Split key nul.

(** [out[target] = append(out[target], candidate)] for each candidate. *)
Definition file_under {A} (target : A -> receiptTarget) (out : gmap receiptTarget (list A)) (c : A) :
    gmap receiptTarget (list A) :=
  partial_alter (fun l => Some (default [] l ++ [c])%list) (target c) out.

Definition collect {A} (target : A -> receiptTarget) (cs : list A) : gmap receiptTarget (list A) :=
  fold_left (file_under target) cs ∅.

(** The comparison of the display order: the first field that differs decides. *)
Fixpoint fields_lt {A} (fs : list (A -> string)) (a b : A) : bool :=
  match fs with
  | [] => false
  | [f] => str_lt (f a) (f b)
  | f :: fs => if negb (String.eqb (f a) (f b)) then str_lt (f a) (f b) else fields_lt fs a b
  end.

Section shared.
Context `{GS : !GoSort} `{GM : !GoMapRange}.

Definition sortedMeasuredVersions {V} (byVersion : gmap string V) : list string :=
  sort_slice (fun a b => CompareVersions a b <? 0) (range_order (map fst (map_to_list byVersion))).

(** [byVersion[version]]; every version looked up is a key. *)
Definition verdict_of `{!GoTime} (byVersion : gmap string receiptVersionVerdict) (version : string) :
    receiptVersionVerdict := default (new_verdict "") (byVersion !! version).

(** The loop over the groups, the slices of each target sorted at the end. *)
Definition from_groups {K V A} `{Countable K} (target : A -> receiptTarget) (less : A -> A -> bool)
    (step : K -> gmap string V -> list A) (groups : gmap K (gmap string V)) :
    gmap receiptTarget (list A) :=
  sort_slice less <$> collect target (flat_map (fun '(key, byVersion) => step key byVersion)
                                        (range_order (map_to_list groups))).
End shared.

(** ** PASS to FAIL boundaries *)

Record RegressionCandidate := mkRegression {
  rc_Package : string;
  rc_PreviousPackage : string;
  rc_CaseID : string;
  rc_Symbol : string;
  rc_VerifierAdapter : string;
  rc_SandboxCapability : string;
  rc_CompanionPackages : list string;
  rc_HarnessHash : string;
  rc_Stage : string;
  rc_ContextLabel : string;
  rc_EnvBucketHash : string;
  rc_FailRate : float64;
  rc_PreviousPassRate : float64;
  rc_Observations : Z;
  rc_PreviousObservations : Z
}.

Definition rc_target (c : RegressionCandidate) : receiptTarget := mkTarget (rc_Package c) (rc_Symbol c).

Definition regression_candidate (key : receiptComparisonKey) (prev cur : receiptVersionVerdict)
    (prevCount curCount : Z) : RegressionCandidate :=
  mkRegression (rv_purl cur) (rv_purl prev) (ck_caseID key) (ck_symbol key) (ck_verifierAdapter key)
    (ck_sandboxCapability key) (companionPackages (ck_companions key)) (ck_harnessHash key) StageContract
    (ck_contextLabel key) (ck_envBucketHash key) (float_of 1) (float_of 1) curCount prevCount.

(** The body of the loop over [i]. *)
Definition boundary_step (key : receiptComparisonKey) (prev cur : receiptVersionVerdict) : list RegressionCandidate :=
  match unambiguous prev, unambiguous cur with
  | Some (prevResult, prevCount), Some (curResult, curCount) =>
      if negb (String.eqb prevResult ResultPass) || negb (String.eqb curResult ResultFail) then []
      else [regression_candidate key prev cur prevCount curCount]
  | _, _ => []
  end.

Section boundaries.
Context `{GS : !GoSort} `{GM : !GoMapRange} `{GT : !GoTime}.

Fixpoint boundary_loop (key : receiptComparisonKey) (byVersion : gmap string receiptVersionVerdict)
    (versions : list string) : list RegressionCandidate :=
  match versions with
  | v1 :: (v2 :: _) as rest =>
      (boundary_step key (verdict_of byVersion v1) (verdict_of byVersion v2) ++ boundary_loop key byVersion rest)%list
  | _ => []
  end.

Definition regression_order : list (RegressionCandidate -> string) :=
  [rc_PreviousPackage; rc_CaseID; rc_EnvBucketHash; rc_VerifierAdapter; rc_SandboxCapability; rc_HarnessHash;
   fun c => Join (rc_CompanionPackages c) (single nul)].

Definition regressionBoundaries (groups : versionGroups) : gmap receiptTarget (list RegressionCandidate) :=
  from_groups rc_target (fields_lt regression_order)
    (fun key byVersion => boundary_loop key byVersion (sortedMeasuredVersions byVersion)) groups.

Definition regressionsFromReceipts (samples : list sampleData) : gmap receiptTarget (list RegressionCandidate) :=
  regressionBoundaries (receiptVersionGroups samples).
End boundaries.

(** ** Upgrade paths *)

Record SafeUpgradeCandidate := mkUpgrade {
  su_Package : string;
  su_TargetPackage : string;
  su_CaseID : string;
  su_Symbol : string;
  su_CurrentResult : string;
  su_Stage : string;
  su_VerifierAdapter : string;
  su_SandboxCapability : string;
  su_CompanionPackages : list string;
  su_HarnessHash : string;
  su_ContextLabel : string;
  su_EnvBucketHash : string;
  su_MeasuredPath : list string;
  su_BlockedByVersion : string;
  su_CurrentObservations : Z;
  su_TargetObservations : Z
}.

Definition su_target (c : SafeUpgradeCandidate) : receiptTarget := mkTarget (su_Package c) (su_Symbol c).

Section upgrades.
Context `{GS : !GoSort} `{GM : !GoMapRange} `{GT : !GoTime}.

(** The walk up from the current version: the versions that passed without
    interruption with the count of each, and the versions left. *)
Fixpoint climb (byVersion : gmap string receiptVersionVerdict) (above : list string) :
    list (string * Z) * list string :=
  match above with
  | [] => ([], [])
  | v :: rest =>
      match unambiguous (verdict_of byVersion v) with
      | Some (result, count) =>
          if negb (String.eqb result ResultPass) then ([], above)
          else let '(path, rest_above) := climb byVersion rest in ((v, count) :: path, rest_above)
      | None => ([], above)
      end
  end.

(** The measured failure directly above the target, if that is what is there. *)
Definition blocked_by (byVersion : gmap string receiptVersionVerdict) (above : list string) : string :=
  match above with
  | [] => ""
  | v :: _ => if verdict_is ResultFail (verdict_of byVersion v) then v else ""
  end.

Definition upgrade_step (key : receiptComparisonKey) (byVersion : gmap string receiptVersionVerdict)
    (version : string) (above : list string) : list SafeUpgradeCandidate :=
  let current := verdict_of byVersion version in
  match unambiguous current with
  | None => []
  | Some (currentResult, currentCount) =>
      let '(path, rest_above) := climb byVersion above in
      match rev path with
      | [] => []
      | (target, targetCount) :: _ =>
          [mkUpgrade (rv_purl current) (rv_purl (verdict_of byVersion target)) (ck_caseID key) (ck_symbol key)
             currentResult StageContract (ck_verifierAdapter key) (ck_sandboxCapability key)
             (companionPackages (ck_companions key)) (ck_harnessHash key) (ck_contextLabel key) (ck_envBucketHash key)
             (map fst path) (blocked_by byVersion rest_above) currentCount targetCount]
      end
  end.

Fixpoint upgrade_loop (key : receiptComparisonKey) (byVersion : gmap string receiptVersionVerdict)
    (versions : list string) : list SafeUpgradeCandidate :=
  match versions with
  | [] => []
  | v :: above => (upgrade_step key byVersion v above ++ upgrade_loop key byVersion above)%list
  end.

Definition upgrade_order : list (SafeUpgradeCandidate -> string) :=
  [su_TargetPackage; su_CaseID; su_EnvBucketHash; su_VerifierAdapter; su_SandboxCapability; su_HarnessHash;
   fun c => Join (su_CompanionPackages c) (single nul)].

Definition safeUpgradesFromReceipts (samples : list sampleData) : gmap receiptTarget (list SafeUpgradeCandidate) :=
  from_groups su_target (fields_lt upgrade_order)
    (fun key byVersion => upgrade_loop key byVersion (sortedMeasuredVersions byVersion)) (receiptVersionGroups samples).
End upgrades.

(** ** Verdicts that changed over time *)

Definition WatchKnownGoodNowFailing := "KNOWN_GOOD_NOW_FAILING".
Definition WatchKnownFailureNowPassing := "KNOWN_FAILURE_NOW_PASSING".

Record RegressionWatchCandidate := mkWatch {
  rw_Package : string;
  rw_CaseID : string;
  rw_Symbol : string;
  rw_Stage : string;
  rw_Kind : string;
  rw_VerifierAdapter : string;
  rw_SandboxCapability : string;
  rw_CompanionPackages : list string;
  rw_HarnessHash : string;
  rw_ContextLabel : string;
  rw_EnvBucketHash : string;
  rw_KnownResult : string;
  rw_KnownObservations : Z;
  rw_KnownThrough : string;
  rw_LatestResult : string;
  rw_LatestObservations : Z;
  rw_LatestSince : string;
  rw_NearestLowerPassPackage : string
}.

Definition rw_target (c : RegressionWatchCandidate) : receiptTarget := mkTarget (rw_Package c) (rw_Symbol c).

Section watch.
Context `{GS : !GoSort} `{GM : !GoMapRange} `{GT : !GoTime}.

(** [watchCandidate]: the kind, and the two sides with their counts and
    rendered times. *)
Definition watchCandidate (v : receiptVersionVerdict) : option (string * (string * Z * string) * (string * Z * string)) :=
  if (rv_pass v =? 0) || (rv_fail v =? 0) || rv_undated v then None
  else if rv_lastPass v <? rv_firstFail v then
    Some (WatchKnownGoodNowFailing, (ResultPass, rv_pass v, time_Format (rv_lastPass v)),
          (ResultFail, rv_fail v, time_Format (rv_firstFail v)))
  else if rv_lastFail v <? rv_firstPass v then
    Some (WatchKnownFailureNowPassing, (ResultFail, rv_fail v, time_Format (rv_lastFail v)),
          (ResultPass, rv_pass v, time_Format (rv_firstPass v)))
  else None.

(** The downward search: [below] holds the lower versions, nearest first. *)
Fixpoint nearest_pass (byVersion : gmap string receiptVersionVerdict) (below : list string) : string :=
  match below with
  | [] => ""
  | v :: rest => if verdict_is ResultPass (verdict_of byVersion v) then rv_purl (verdict_of byVersion v) else nearest_pass byVersion rest
  end.

Definition watch_step (key : receiptComparisonKey) (byVersion : gmap string receiptVersionVerdict)
    (below : list string) (version : string) : list RegressionWatchCandidate :=
  let v := verdict_of byVersion version in
  match watchCandidate v with
  | None => []
  | Some (kind, (known, knownCount, through), (latest, latestCount, since)) =>
      [mkWatch (rv_purl v) (ck_caseID key) (ck_symbol key) StageContract kind (ck_verifierAdapter key)
         (ck_sandboxCapability key) (companionPackages (ck_companions key)) (ck_harnessHash key) (ck_contextLabel key)
         (ck_envBucketHash key) known knownCount through latest latestCount since (nearest_pass byVersion below)]
  end.

Fixpoint watch_loop (key : receiptComparisonKey) (byVersion : gmap string receiptVersionVerdict)
    (below versions : list string) : list RegressionWatchCandidate :=
  match versions with
  | [] => []
  | v :: rest => (watch_step key byVersion below v ++ watch_loop key byVersion (v :: below) rest)%list
  end.

Definition watch_order : list (RegressionWatchCandidate -> string) :=
  [rw_CaseID; rw_EnvBucketHash; rw_VerifierAdapter; rw_SandboxCapability; rw_HarnessHash;
   fun c => Join (rw_CompanionPackages c) (single nul)].

Definition regressionWatchFromReceipts (samples : list sampleData) : gmap receiptTarget (list RegressionWatchCandidate) :=
  from_groups rw_target (fields_lt watch_order)
    (fun key byVersion => watch_loop key byVersion [] (sortedMeasuredVersions byVersion)) (receiptVersionGroups samples).
End watch.

(** ** The display order *)

Fixpoint cmp_fields {A} (fs : list (A -> string)) : A -> A -> Z :=
  match fs with
  | [] => fun _ _ => 0
  | f :: fs => cmp_then (cmp_on f str_cmp) (cmp_fields fs)
  end.

#[export] Instance cmp_fields_order {A} (fs : list (A -> string)) : CmpOrder (cmp_fields fs).
Proof. induction fs as [|f fs IH]; [split; intros; cbn; lia|]. cbn. apply _. Qed.

Lemma fields_lt_less {A} (fs : list (A -> string)) : less_of (cmp_fields fs) (fields_lt fs).
Proof.
  split; [apply _|]. intros a b. induction fs as [|f fs IH]; [done|]. cbn [cmp_fields].
  assert (E : fields_lt (f :: fs) a b = if negb (String.eqb (f a) (f b)) then str_lt (f a) (f b) else fields_lt fs a b).
  { destruct fs as [|g fs]; [|done]. cbn [fields_lt]. destruct (String.eqb_spec (f a) (f b)) as [->|]; [|done].
    unfold str_lt. by rewrite (cmp_refl (cmp:=str_cmp)). }
  rewrite E. unfold cmp_then, cmp_on. destruct (String.eqb_spec (f a) (f b)) as [->|N]; cbn [negb].
  - by rewrite (cmp_refl (cmp:=str_cmp)).
  - unfold str_lt. destruct (Z.eqb_spec (str_cmp (f a) (f b)) 0) as [Z|]; [|done]. by apply str_cmp_eq in Z.
Qed.

(** ** Filing and walking *)

Lemma collect_lookup {A} (target : A -> receiptTarget) (cs : list A) t :
  collect target cs !! t = match List.filter (fun c => bool_decide (target c = t)) cs with [] => None | l => Some l end.
Proof.
  unfold collect. induction cs as [|c cs IH] using rev_ind; [done|].
  rewrite fold_left_app, List.filter_app. cbn [fold_left List.filter]. unfold file_under at 1.
  destruct (decide (target c = t)) as [<-|N].
  - rewrite lookup_partial_alter_eq, IH, bool_decide_true by done. by destruct (List.filter _ cs).
  - rewrite lookup_partial_alter_ne, bool_decide_false, app_nil_r by done. exact IH.
Qed.

(** The candidates filed under a target. *)
Definition filed {A} (out : gmap receiptTarget (list A)) (t : receiptTarget) : list A := default [] (out !! t).

Section walking.
Context `{GS : !GoSort} `{GM : !GoMapRange}.

Lemma In_from_groups {K V A} `{Countable K} (target : A -> receiptTarget) less step (groups : gmap K (gmap string V)) t (c : A) :
  In c (filed (from_groups target less step groups) t) <->
  t = target c /\ exists key byVersion, groups !! key = Some byVersion /\ In c (step key byVersion).
Proof.
  unfold filed, from_groups. rewrite lookup_fmap, collect_lookup. set (cs := flat_map _ _).
  assert (Q : In c cs <-> exists key byVersion, groups !! key = Some byVersion /\ In c (step key byVersion)).
  { unfold cs. rewrite in_flat_map. split.
    - intros ([key vs] & Hk & Hc). rewrite <- range_order_perm in Hk. exists key, vs. split; [|done].
      by apply elem_of_map_to_list, list_elem_of_In.
    - intros (key & vs & Hk & Hc). exists (key, vs). split; [|done]. rewrite <- range_order_perm.
      by apply list_elem_of_In, elem_of_map_to_list. }
  rewrite <- Q. transitivity (In c (List.filter (fun c => bool_decide (target c = t)) cs)).
  - destruct (List.filter _ cs) as [|x l]; [done|]. cbn [fmap option_fmap option_map default].
    by rewrite <- sort_slice_perm.
  - rewrite List.filter_In, bool_decide_eq_true. intuition.
Qed.

Lemma from_groups_sorted {K V A} `{Countable K} (target : A -> receiptTarget) fs step (groups : gmap K (gmap string V)) t :
  StronglySorted (fun a b => cmp_fields fs a b <= 0) (filed (from_groups target (fields_lt fs) step groups) t).
Proof.
  unfold filed, from_groups. rewrite lookup_fmap. destruct (collect _ _ !! t); [|constructor].
  apply (sort_slice_sorted _ _ _ _ (fields_lt_less fs)).
Qed.

Context {V : Type} (byVersion : gmap string V).
#[local] Notation versions := (sortedMeasuredVersions byVersion).

Definition ascending (a b : string) : Prop := CompareVersions a b <= 0.

Lemma measured_versions_perm : Permutation (map fst (map_to_list byVersion)) versions.
Proof. unfold sortedMeasuredVersions. by rewrite <- sort_slice_perm, <- range_order_perm. Qed.

Lemma In_versions v : In v versions <-> is_Some (byVersion !! v).
Proof.
  rewrite <- measured_versions_perm, in_map_iff. split.
  - intros ([k x] & <- & H). exists x. by apply elem_of_map_to_list, list_elem_of_In.
  - intros [x H]. exists (v, x). split; [done|]. by apply list_elem_of_In, elem_of_map_to_list.
Qed.

Lemma versions_NoDup : List.NoDup versions.
Proof.
  eapply Permutation_NoDup; [apply measured_versions_perm|]. apply NoDup_ListNoDup. apply NoDup_fst_map_to_list.
Qed.

Lemma versions_sorted : StronglySorted ascending versions.
Proof.
  apply (sort_slice_sorted _ _ CompareVersions). split; [apply VersionOrder.CompareVersions_order|done].
Qed.

(** What a cut of the sorted versions says about the order. *)
Lemma versions_cut l1 v l2 : versions = (l1 ++ v :: l2)%list ->
  (forall w, In w l1 -> CompareVersions w v <= 0) /\ (forall w, In w l2 -> CompareVersions v w <= 0)
  /\ ~ In v l1 /\ ~ In v l2.
Proof.
  intros E. pose proof versions_sorted as S. pose proof versions_NoDup as D. rewrite E in S, D.
  apply sorted_app_cons in S as [S1 S2]. apply NoDup_remove_2 in D. rewrite in_app_iff in D. tauto.
Qed.
End walking.

(** ** Verdicts in terms of the measurements *)

(** Something was measured under these conditions at this version. *)
Definition measured (samples : list sampleData) (key : receiptComparisonKey) (version : string) : Prop :=
  measured_at key version (measurements samples) <> [].

(** It was measured, and every measurement there has the result [r]. *)
Definition settled (samples : list sampleData) (key : receiptComparisonKey) (version r : string) : Prop :=
  measured samples key version
  /\ forall m, In m (measured_at key version (measurements samples)) -> ms_result m = r.

Definition run_count (samples : list sampleData) (key : receiptComparisonKey) (version : string) : Z :=
  Z.of_nat (length (measured_at key version (measurements samples))).

(** The package URL of the version a key's package has. *)
Definition coordinate (key : receiptComparisonKey) (version : string) : string :=
  purl_String (mkPURL (ck_ecosystem key) (ck_name key) version).

Definition fits (samples : list sampleData) : Prop := Z.of_nat (length (measurements samples)) <= int64_max.

Section settled.
Context `{GT : !GoTime} (samples : list sampleData) (Fit : fits samples).

Lemma verdict_counts key version v : verdict_at (receiptVersionGroups samples) key version = Some v ->
  let ms := measured_at key version (measurements samples) in
  rv_purl v = coordinate key version /\ measured samples key version
  /\ rv_pass v = Z.of_nat (length (times true ms)) /\ rv_fail v = Z.of_nat (length (times false ms))
  /\ rv_pass v + rv_fail v = run_count samples key version.
Proof using Fit.
  intros E. cbn zeta. pose proof (times_length samples key version) as L. cbn zeta in L.
  pose proof (measured_at_length key version (measurements samples)) as L'. unfold fits in Fit.
  apply group_verdict in E as [Ne C]. destruct C as [-> P2 P3 _ _ _ _ _].
  rewrite wrap64_count in P2, P3 by lia. unfold run_count, coordinate, measured. repeat split; [done|lia..].
Qed.

(** No measurement has the other result when the count of it is zero. *)
Lemma settled_times key version (pass : bool) : measured samples key version ->
  times (negb pass) (measured_at key version (measurements samples)) = [] <->
  settled samples key version (if pass then ResultPass else ResultFail).
Proof using.
  intros Hm. unfold settled. split.
  - intros E. split; [done|]. intros m H. pose proof H as (Hm' & Hk & Hv)%In_measured_at.
    pose proof (measurement_source samples m Hm') as (? & ? & ? & _ & _ & _ & _ & _ & _ & _ & _ & _ & R).
    assert (N : ~ In (ms_at m) (times (negb pass) (measured_at key version (measurements samples)))) by (rewrite E; intros []).
    rewrite times_spec in N. destruct pass, R as [R|R]; try done; exfalso; apply N; by exists m.
  - intros [_ H]. destruct (times _ _) as [|t l] eqn:E; [done|].
    assert (I : In t (times (negb pass) (measured_at key version (measurements samples)))) by (rewrite E; by left).
    apply times_spec in I as (m & I1 & I2 & I3 & I4 & _).
    rewrite H in I4 by (by apply In_measured_at). by destruct pass.
Qed.

Lemma unambiguous_settled key version v : verdict_at (receiptVersionGroups samples) key version = Some v ->
  forall r n, unambiguous v = Some (r, n) <->
    (r = ResultPass \/ r = ResultFail) /\ settled samples key version r /\ n = run_count samples key version.
Proof using Fit.
  intros E r n. destruct (verdict_counts _ _ _ E) as (_ & Hm & Hp & Hf & Hs).
  pose proof (settled_times key version true Hm) as ST. pose proof (settled_times key version false Hm) as SF.
  cbn [negb] in ST, SF. unfold unambiguous.
  assert (X : 0 < run_count samples key version).
  { unfold run_count. unfold measured in Hm. destruct (measured_at _ _ _); [done|cbn; lia]. }
  assert (Zp : rv_pass v = 0 <-> settled samples key version ResultFail).
  { rewrite <- SF, Hp. destruct (times true _); cbn; [done|]. split; [lia|done]. }
  assert (Zf : rv_fail v = 0 <-> settled samples key version ResultPass).
  { rewrite <- ST, Hf. destruct (times false _); cbn; [done|]. split; [lia|done]. }
  destruct (Z.eqb_spec (rv_fail v) 0) as [F|F], (Z.eqb_spec (rv_pass v) 0) as [P|P]; [lia| | |];
    destruct (Z.ltb_spec 0 (rv_pass v)), (Z.ltb_spec 0 (rv_fail v)); cbn [andb]; try lia.
  - rewrite Zf in F. split; [intros [= <- <-]; auto with lia|]. intros ([-> | ->] & S & ->); [do 2 f_equal; lia|tauto].
  - rewrite Zp in P. split; [intros [= <- <-]; auto with lia|]. intros ([-> | ->] & S & ->); [tauto|do 2 f_equal; lia].
  - split; [done|]. intros ([-> | ->] & S & ->); tauto.
Qed.

Lemma verdict_is_settled key version v r : verdict_at (receiptVersionGroups samples) key version = Some v ->
  r = ResultPass \/ r = ResultFail -> verdict_is r v = true <-> settled samples key version r.
Proof using Fit.
  intros E Hr. unfold verdict_is. pose proof (unambiguous_settled _ _ _ E) as U. destruct (unambiguous v) as [[r' n]|].
  - rewrite String.eqb_eq. destruct (proj1 (U r' n) eq_refl) as (_ & S & _). split; [by intros <-|].
    intros S'. destruct S as [Hm S], S' as [_ S']. unfold measured in Hm. destruct (measured_at _ _ _) as [|m l]; [done|].
    rewrite <- (S m) by by left. apply S'. by left.
  - split; [done|]. intros S. assert (N : None = Some (r, run_count samples key version)) by (by apply U). done.
Qed.

(** A group of the index, read back. *)
Lemma group_lookup key byVersion version : receiptVersionGroups samples !! key = Some byVersion ->
  byVersion !! version = verdict_at (receiptVersionGroups samples) key version.
Proof using. intros E. unfold verdict_at, nested_at. by rewrite E. Qed.

Lemma group_versions `{!GoSort} `{!GoMapRange} key byVersion version :
  receiptVersionGroups samples !! key = Some byVersion ->
  In version (sortedMeasuredVersions byVersion) <-> measured samples key version.
Proof using.
  intros E. rewrite In_versions, (group_lookup _ _ _ E). unfold measured. rewrite <- group_unmeasured, not_eq_None_Some. done.
Qed.

Lemma group_of key version : measured samples key version ->
  exists byVersion, receiptVersionGroups samples !! key = Some byVersion.
Proof using.
  intros H. unfold measured in H. rewrite <- group_unmeasured in H. unfold verdict_at, nested_at in H.
  destruct (receiptVersionGroups samples !! key) as [vs|]; [by exists vs|done].
Qed.

Lemma group_verdict_of key byVersion version : receiptVersionGroups samples !! key = Some byVersion ->
  measured samples key version ->
  verdict_at (receiptVersionGroups samples) key version = Some (verdict_of byVersion version).
Proof using.
  intros E H. unfold verdict_of. rewrite (group_lookup _ _ _ E). unfold measured in H. rewrite <- group_unmeasured in H.
  by destruct (verdict_at _ key version).
Qed.
End settled.

(** ** Boundaries *)

(** The claim about the boundary between two versions, from the measurements. *)
Definition boundary_claim (samples : list sampleData) (key : receiptComparisonKey) (prev cur : string) :
    RegressionCandidate :=
  mkRegression (coordinate key cur) (coordinate key prev) (ck_caseID key) (ck_symbol key) (ck_verifierAdapter key)
    (ck_sandboxCapability key) (companionPackages (ck_companions key)) (ck_harnessHash key) StageContract
    (ck_contextLabel key) (ck_envBucketHash key) (float_of 1) (float_of 1)
    (run_count samples key cur) (run_count samples key prev).

(** No measured version lies strictly between two. *)
Definition none_between (samples : list sampleData) (key : receiptComparisonKey) (from to : string) : Prop :=
  forall v, measured samples key v -> ~ (CompareVersions from v < 0 /\ CompareVersions v to < 0).

(** [to] comes next after [from], and nothing ties with either. *)
Definition comes_next (samples : list sampleData) (key : receiptComparisonKey) (from to : string) : Prop :=
  CompareVersions from to < 0
  /\ forall v, measured samples key v -> v <> from -> v <> to -> CompareVersions v from < 0 \/ CompareVersions to v < 0.

Section boundary_facts.
Context `{GS : !GoSort} `{GM : !GoMapRange} `{GT : !GoTime} (samples : list sampleData) (Fit : fits samples).
Context (key : receiptComparisonKey) (byVersion : gmap string receiptVersionVerdict).
Context (Eg : receiptVersionGroups samples !! key = Some byVersion).

Lemma In_boundary_loop vs c : In c (boundary_loop key byVersion vs) <->
  exists l1 v1 v2 l2, vs = (l1 ++ v1 :: v2 :: l2)%list
    /\ In c (boundary_step key (verdict_of byVersion v1) (verdict_of byVersion v2)).
Proof using.
  induction vs as [|x [|y vs] IH].
  - split; [done|]. intros ([|] & ? & ? & ? & E & _); discriminate E.
  - split; [done|]. intros ([|? [|]] & ? & ? & ? & E & _); discriminate E.
  - change (boundary_loop key byVersion (x :: y :: vs)) with
      (boundary_step key (verdict_of byVersion x) (verdict_of byVersion y) ++ boundary_loop key byVersion (y :: vs))%list.
    rewrite in_app_iff, IH. split.
    + intros [H|(l1 & v1 & v2 & l2 & -> & H)]; [by exists [], x, y, vs|by exists (x :: l1), v1, v2, l2].
    + intros ([|z l1] & v1 & v2 & l2 & E & H); [injection E as -> -> ->; by left|].
      injection E as -> E. right. by exists l1, v1, v2, l2.
Qed.

Lemma In_boundary_step v1 v2 c : measured samples key v1 -> measured samples key v2 ->
  In c (boundary_step key (verdict_of byVersion v1) (verdict_of byVersion v2)) <->
  settled samples key v1 ResultPass /\ settled samples key v2 ResultFail /\ c = boundary_claim samples key v1 v2.
Proof using Fit Eg.
  intros M1 M2. pose proof (group_verdict_of _ _ _ _ Eg M1) as E1. pose proof (group_verdict_of _ _ _ _ Eg M2) as E2.
  pose proof (unambiguous_settled _ Fit _ _ _ E1) as U1. pose proof (unambiguous_settled _ Fit _ _ _ E2) as U2.
  assert (B : boundary_claim samples key v1 v2 = regression_candidate key (verdict_of byVersion v1) (verdict_of byVersion v2)
    (run_count samples key v1) (run_count samples key v2)).
  { unfold regression_candidate. destruct (verdict_counts _ Fit _ _ _ E1) as (-> & _), (verdict_counts _ Fit _ _ _ E2) as (-> & _). done. }
  unfold boundary_step. split.
  - destruct (unambiguous _) as [[r1 n1]|]; [|done]. destruct (unambiguous _) as [[r2 n2]|]; [|done].
    destruct (proj1 (U1 r1 n1) eq_refl) as (_ & S1 & ->), (proj1 (U2 r2 n2) eq_refl) as (_ & S2 & ->).
    destruct (String.eqb_spec r1 ResultPass) as [->|]; [|done]. destruct (String.eqb_spec r2 ResultFail) as [->|]; [|done].
    intros [<-|[]]. by rewrite B.
  - intros (S1 & S2 & ->). rewrite (proj2 (U1 ResultPass (run_count samples key v1))), (proj2 (U2 ResultFail (run_count samples key v2))) by auto.
    cbn. left. by rewrite B.
Qed.

(** Adjacent in the sorted versions: ordered, with nothing in between. *)
Lemma adjacent_versions l1 v1 v2 l2 : sortedMeasuredVersions byVersion = (l1 ++ v1 :: v2 :: l2)%list ->
  measured samples key v1 /\ measured samples key v2 /\ CompareVersions v1 v2 <= 0 /\ none_between samples key v1 v2.
Proof using Eg.
  intros E. pose proof VersionOrder.CompareVersions_order.
  assert (M : forall v, In v (l1 ++ v1 :: v2 :: l2) <-> measured samples key v)
    by (intros v; rewrite <- E; by apply group_versions).
  assert (E' : sortedMeasuredVersions byVersion = ((l1 ++ [v1]) ++ v2 :: l2)%list) by (by rewrite E, <- app_assoc).
  apply versions_cut in E as (L1 & R1 & _), E' as (_ & R2 & _).
  split; [apply M, in_app_iff; right; by left|]. split; [apply M, in_app_iff; right; right; by left|].
  split; [apply R1; by left|]. intros v Hv%M [B1 B2].
  pose proof (cmp_antisym (cmp:=CompareVersions) v v1). pose proof (cmp_antisym (cmp:=CompareVersions) v v2).
  apply in_app_iff in Hv as [Hv%L1|[<-|[<-|Hv%R2]]]; lia.
Qed.

Lemma next_adjacent v1 v2 : measured samples key v1 -> measured samples key v2 -> comes_next samples key v1 v2 ->
  exists l1 l2, sortedMeasuredVersions byVersion = (l1 ++ v1 :: v2 :: l2)%list.
Proof using Eg.
  intros M1 M2 [L N]. apply (sorted_neighbours (fun v => v)); try done.
  - apply versions_sorted.
  - by apply (group_versions samples key).
  - by apply (group_versions samples key).
  - intros z Hz. apply N. by apply (group_versions samples key) in Hz.
  - apply versions_NoDup.
Qed.
End boundary_facts.

(** The conditions a candidate publishes, and those of a key. *)
Definition conditions : Type := string * string * string * string * list string * string * string * string.

Definition key_conditions (k : receiptComparisonKey) : conditions :=
  (ck_caseID k, ck_symbol k, ck_verifierAdapter k, ck_sandboxCapability k, companionPackages (ck_companions k),
   ck_harnessHash k, ck_contextLabel k, ck_envBucketHash k).
Definition rc_conditions (c : RegressionCandidate) : conditions :=
  (rc_CaseID c, rc_Symbol c, rc_VerifierAdapter c, rc_SandboxCapability c, rc_CompanionPackages c,
   rc_HarnessHash c, rc_ContextLabel c, rc_EnvBucketHash c).
Definition su_conditions (c : SafeUpgradeCandidate) : conditions :=
  (su_CaseID c, su_Symbol c, su_VerifierAdapter c, su_SandboxCapability c, su_CompanionPackages c,
   su_HarnessHash c, su_ContextLabel c, su_EnvBucketHash c).
Definition rw_conditions (c : RegressionWatchCandidate) : conditions :=
  (rw_CaseID c, rw_Symbol c, rw_VerifierAdapter c, rw_SandboxCapability c, rw_CompanionPackages c,
   rw_HarnessHash c, rw_ContextLabel c, rw_EnvBucketHash c).

Section boundary_theorem.
Context `{GS : !GoSort} `{GM : !GoMapRange} `{GT : !GoTime} (samples : list sampleData).

Lemma regression_sound t c : fits samples -> In c (filed (regressionsFromReceipts samples) t) ->
  t = rc_target c /\ exists key prev cur,
    settled samples key prev ResultPass /\ settled samples key cur ResultFail
    /\ c = boundary_claim samples key prev cur
    /\ CompareVersions prev cur <= 0 /\ none_between samples key prev cur.
Proof.
  intros Fit (Et & key & byVersion & Eg & Hc)%In_from_groups. split; [done|]. exists key.
  apply In_boundary_loop in Hc as (l1 & v1 & v2 & l2 & E & Hc).
  destruct (adjacent_versions samples key byVersion Eg _ _ _ _ E) as (M1 & M2 & Le & N).
  apply (In_boundary_step samples Fit key byVersion Eg) in Hc as (S1 & S2 & ->); [|done..]. by exists v1, v2.
Qed.

(** C6.  Receipt boundaries are sound and complete.  A published boundary is
    a change from nothing but passes to nothing but failures between two
    versions of one package under identical conditions, the lower one not
    above the other and no measured version in between; it counts the
    measurements of both sides.  Every such change between versions that
    follow each other is published, under the failing coordinate.  Whatever
    order maps are visited in, each slice is in display order. *)
Theorem receipt_boundaries_exact : fits samples ->
  (forall t c, In c (filed (regressionsFromReceipts samples) t) ->
     t = rc_target c /\ exists key prev cur,
       settled samples key prev ResultPass /\ settled samples key cur ResultFail
       /\ c = boundary_claim samples key prev cur
       /\ CompareVersions prev cur <= 0 /\ none_between samples key prev cur)
  /\ (forall key prev cur,
       settled samples key prev ResultPass -> settled samples key cur ResultFail -> comes_next samples key prev cur ->
       In (boundary_claim samples key prev cur)
         (filed (regressionsFromReceipts samples) (mkTarget (coordinate key cur) (ck_symbol key))))
  /\ (forall t, StronglySorted (fun a b => cmp_fields regression_order a b <= 0) (filed (regressionsFromReceipts samples) t)).
Proof.
  intros Fit. split; [intros t c; by apply regression_sound|]. split; [|intros t; apply from_groups_sorted].
  intros key prev cur S1 S2 N. apply In_from_groups. split; [done|].
  destruct (group_of samples key prev (proj1 S1)) as [byVersion Eg]. exists key, byVersion. split; [done|].
  destruct (next_adjacent samples key byVersion Eg prev cur (proj1 S1) (proj1 S2) N) as (l1 & l2 & E).
  apply In_boundary_loop. exists l1, prev, cur, l2. split; [done|].
  apply (In_boundary_step samples Fit key byVersion Eg); [apply S1|apply S2|done].
Qed.
End boundary_theorem.

(** ** Paths *)

Section paths.
Context `{GS : !GoSort} `{GM : !GoMapRange} `{GT : !GoTime} (samples : list sampleData).
Context (key : receiptComparisonKey) (byVersion : gmap string receiptVersionVerdict).

Lemma climb_spec above path rest : climb byVersion above = (path, rest) ->
  above = (map fst path ++ rest)%list
  /\ (forall v n, In (v, n) path -> unambiguous (verdict_of byVersion v) = Some (ResultPass, n))
  /\ (forall v, head rest = Some v -> verdict_is ResultPass (verdict_of byVersion v) = false).
Proof.
  revert path rest. induction above as [|v above IH]; cbn [climb]; intros path rest; [by intros [= <- <-]|].
  unfold verdict_is. destruct (unambiguous (verdict_of byVersion v)) as [[r n]|] eqn:U.
  - destruct (String.eqb_spec r ResultPass) as [->|N]; cbn [negb].
    + destruct (climb byVersion above) as [path' rest']. destruct (IH _ _ eq_refl) as (-> & H1 & H2).
      intros [= <- <-]. split; [done|]. split; [|done]. intros w m [[= <- <-]|H]; [done|by apply H1].
    + intros [= <- <-]. split; [done|]. split; [done|]. intros w [= <-]. rewrite U. by apply String.eqb_neq.
  - intros [= <- <-]. split; [done|]. split; [done|]. intros w [= <-]. by rewrite U.
Qed.

Lemma In_upgrade_loop vs u : In u (upgrade_loop key byVersion vs) <->
  exists l1 v above, vs = (l1 ++ v :: above)%list /\ In u (upgrade_step key byVersion v above).
Proof.
  induction vs as [|x vs IH]; cbn [upgrade_loop].
  - split; [done|]. by intros ([|] & v & above & E & _).
  - rewrite in_app_iff, IH. split.
    + intros [H|(l1 & v & above & -> & H)]; [by exists [], x, vs|by exists (x :: l1), v, above].
    + intros ([|y l1] & v & above & E & H); injection E as -> ->; [by left|right; by exists l1, v, above].
Qed.

(** One step of the loop, from the walk it makes. *)
Lemma In_upgrade_step v above u : In u (upgrade_step key byVersion v above) <->
  exists r n path target count rest,
    unambiguous (verdict_of byVersion v) = Some (r, n)
    /\ climb byVersion above = ((path ++ [(target, count)])%list, rest)
    /\ u = mkUpgrade (rv_purl (verdict_of byVersion v)) (rv_purl (verdict_of byVersion target)) (ck_caseID key)
             (ck_symbol key) r StageContract (ck_verifierAdapter key) (ck_sandboxCapability key)
             (companionPackages (ck_companions key)) (ck_harnessHash key) (ck_contextLabel key) (ck_envBucketHash key)
             (map fst path ++ [target])%list (blocked_by byVersion rest) n count.
Proof.
  unfold upgrade_step. destruct (unambiguous (verdict_of byVersion v)) as [[r n]|];
    [|split; [done|by intros (? & ? & ? & ? & ? & ? & ? & _)]].
  destruct (climb byVersion above) as [p rest]. destruct (rev p) as [|[target count] q] eqn:E.
  - split; [done|]. intros (? & ? & path & ? & ? & ? & _ & [= -> _] & _). by rewrite rev_app_distr in E.
  - assert (p = (rev q ++ [(target, count)])%list) as -> by (by rewrite <- (rev_involutive p), E).
    rewrite map_app. cbn [map fst]. split.
    + intros [<-|[]]. by exists r, n, (rev q), target, count, rest.
    + intros (r' & n' & path & target' & count' & rest' & [= <- <-] & C & ->). injection C as C <-.
      apply app_inj_tail in C as [<- [= <- <-]]. by left.
Qed.
End paths.

(** What a published path claims. *)
Record evidence_backed (samples : list sampleData) (u : SafeUpgradeCandidate) (key : receiptComparisonKey)
    (current target : string) : Prop := {
  eb_conditions : su_conditions u = key_conditions key;
  eb_package : su_Package u = coordinate key current /\ su_TargetPackage u = coordinate key target;
  eb_current : settled samples key current (su_CurrentResult u);
  eb_target : exists path, su_MeasuredPath u = (path ++ [target])%list;
  eb_ascending : StronglySorted ascending (current :: su_MeasuredPath u) /\ List.NoDup (current :: su_MeasuredPath u);
  eb_passed : forall v, In v (su_MeasuredPath u) -> settled samples key v ResultPass;
  eb_unbroken : forall v, measured samples key v -> CompareVersions current v < 0 -> CompareVersions v target < 0 ->
    In v (su_MeasuredPath u);
  eb_runs : su_CurrentObservations u = run_count samples key current /\ su_TargetObservations u = run_count samples key target;
  eb_end : (su_BlockedByVersion u = "" /\ forall v, measured samples key v -> CompareVersions v target <= 0)
    \/ exists next, measured samples key next /\ ~ In next (su_MeasuredPath u)
         /\ CompareVersions target next <= 0 /\ none_between samples key target next
         /\ ~ settled samples key next ResultPass
         /\ (settled samples key next ResultFail /\ su_BlockedByVersion u = next
             \/ ~ settled samples key next ResultFail /\ su_BlockedByVersion u = "")
}.

Lemma sorted_middle {A} (R : A -> A -> Prop) l1 l2 l3 : StronglySorted R (l1 ++ l2 ++ l3) -> StronglySorted R l2.
Proof.
  induction l1 as [|x l1 IH]; cbn [app]; [|intros [H _]%StronglySorted_inv; by apply IH].
  induction l2 as [|x l2 IH]; cbn [app]; [constructor|]. intros [H F]%StronglySorted_inv.
  constructor; [by apply IH|]. by apply List.Forall_app in F as [F _].
Qed.

Section path_theorem.
Context `{GS : !GoSort} `{GM : !GoMapRange} `{GT : !GoTime} (samples : list sampleData) (Fit : fits samples).

(** One walk: the sorted versions are what is below the current one, the
    current one, the path with its target, and the rest. *)
Section walk.
Context (key : receiptComparisonKey) (byVersion : gmap string receiptVersionVerdict).
Context (l1 : list string) (current : string) (path : list (string * Z)) (target : string) (rest : list string).
Context (r : string) (n count : Z) (Eg : receiptVersionGroups samples !! key = Some byVersion).
#[local] Notation steps := (map fst path ++ [target])%list.
Context (E : sortedMeasuredVersions byVersion = (l1 ++ current :: steps ++ rest)%list).
Context (U : unambiguous (verdict_of byVersion current) = Some (r, n)).
Context (P : forall v m, In (v, m) (path ++ [(target, count)]) ->
  unambiguous (verdict_of byVersion v) = Some (ResultPass, m)).
Context (R : forall v, head rest = Some v -> verdict_is ResultPass (verdict_of byVersion v) = false).

Lemma walk_measured v : In v (l1 ++ current :: steps ++ rest) <-> measured samples key v.
Proof using Eg E. rewrite <- E. by apply group_versions. Qed.

Lemma walk_verdict v : In v (l1 ++ current :: steps ++ rest) ->
  verdict_at (receiptVersionGroups samples) key v = Some (verdict_of byVersion v).
Proof using Eg E. rewrite walk_measured. by apply group_verdict_of. Qed.

Lemma In_steps v : In v steps -> In v (l1 ++ current :: steps ++ rest).
Proof using. intros H. rewrite !in_app_iff. cbn [In]. rewrite !in_app_iff. apply in_app_iff in H. tauto. Qed.

Lemma In_current : In current (l1 ++ current :: steps ++ rest).
Proof using. apply in_app_iff. right. by left. Qed.

Lemma In_target : In target steps.
Proof using. apply in_app_iff. right. by left. Qed.

Lemma walk_cut : sortedMeasuredVersions byVersion = ((l1 ++ current :: map fst path) ++ target :: rest)%list.
Proof using E. by rewrite E, <- !app_assoc. Qed.

Lemma walk_passed v m : In (v, m) (path ++ [(target, count)]) -> settled samples key v ResultPass /\ m = run_count samples key v.
Proof using Fit Eg E P.
  intros Hv. assert (Iv : In v (l1 ++ current :: steps ++ rest)).
  { apply In_steps. change (In (fst (v, m)) (map fst path ++ map fst [(target, count)])). rewrite <- map_app. by apply in_map. }
  by destruct (proj1 (unambiguous_settled _ Fit _ _ _ (walk_verdict v Iv) _ _) (P v m Hv)) as (_ & ? & ->).
Qed.

Lemma walk_order : StronglySorted ascending (current :: steps) /\ List.NoDup (current :: steps).
Proof using E.
  pose proof (versions_sorted byVersion) as S. pose proof (versions_NoDup byVersion) as D. rewrite E in S, D. split.
  - rewrite app_comm_cons in S. by apply sorted_middle in S.
  - apply NoDup_app_remove_l in D. rewrite app_comm_cons in D. by apply NoDup_app_remove_r in D.
Qed.

Lemma walk_unbroken v : measured samples key v -> CompareVersions current v < 0 -> CompareVersions v target < 0 -> In v steps.
Proof using Eg E.
  clear U. intros Hv B1 B2. pose proof VersionOrder.CompareVersions_order.
  destruct (versions_cut _ _ _ _ E) as (L1 & _), (versions_cut _ _ _ _ walk_cut) as (_ & R2 & _).
  pose proof (cmp_antisym (cmp:=CompareVersions) v current). pose proof (cmp_antisym (cmp:=CompareVersions) v target).
  apply walk_measured, in_app_iff in Hv as [Hv%L1|[->|Hv]]; [lia|lia|].
  apply in_app_iff in Hv as [Hv|Hv%R2]; [done|lia].
Qed.

(** Where the path ends: nothing above it, or a version that did not pass. *)
Lemma walk_end :
  (blocked_by byVersion rest = "" /\ forall v, measured samples key v -> CompareVersions v target <= 0)
  \/ exists next, measured samples key next /\ ~ In next steps
       /\ CompareVersions target next <= 0 /\ none_between samples key target next
       /\ ~ settled samples key next ResultPass
       /\ (settled samples key next ResultFail /\ blocked_by byVersion rest = next
           \/ ~ settled samples key next ResultFail /\ blocked_by byVersion rest = "").
Proof using Fit Eg E R.
  pose proof VersionOrder.CompareVersions_order. pose proof walk_cut as E2. pose proof walk_measured as M.
  destruct (versions_cut _ _ _ _ E) as (L1 & _), (versions_cut _ _ _ _ E2) as (L2 & _).
  assert (Lt : CompareVersions current target <= 0) by (apply L2, in_app_iff; right; by left).
  destruct rest as [|next rest'].
  - left. split; [done|]. intros v Hv%M. rewrite app_nil_r in Hv. apply in_app_iff in Hv as [Hv%L1|[<-|Hv]]; [|done|].
    + eapply cmp_trans; eassumption.
    + apply in_app_iff in Hv as [Hv|[<-|[]]]; [|by rewrite (cmp_refl (cmp:=CompareVersions))].
      apply L2, in_app_iff. right. by right.
  - right. exists next. destruct (adjacent_versions samples key byVersion Eg _ _ _ _ E2) as (_ & Mn & Le & N).
    pose proof (versions_NoDup byVersion) as D. rewrite E in D. split; [done|]. split.
    { apply NoDup_app_remove_l, NoDup_cons_iff in D as [_ D]. apply NoDup_remove_2 in D.
      intros Hn. apply D, in_app_iff. by left. }
    pose proof (group_verdict_of _ _ _ _ Eg Mn) as Vn. do 2 (split; [done|]). split.
    { rewrite <- (verdict_is_settled _ Fit _ _ _ _ Vn) by auto. by rewrite (R next eq_refl). }
    cbn [blocked_by]. pose proof (verdict_is_settled _ Fit _ _ _ ResultFail Vn) as F.
    destruct (verdict_is ResultFail (verdict_of byVersion next)); [left|right]; (split; [|done]); [by apply F; auto|].
    intros H'. apply F in H'; [done|auto].
Qed.

Lemma path_backed u :
  u = mkUpgrade (rv_purl (verdict_of byVersion current)) (rv_purl (verdict_of byVersion target)) (ck_caseID key)
        (ck_symbol key) r StageContract (ck_verifierAdapter key) (ck_sandboxCapability key)
        (companionPackages (ck_companions key)) (ck_harnessHash key) (ck_contextLabel key) (ck_envBucketHash key)
        steps (blocked_by byVersion rest) n count ->
  evidence_backed samples u key current target.
Proof using Fit Eg E U P R.
  intros ->. pose proof (walk_verdict current In_current) as Vc.
  pose proof (walk_verdict target (In_steps _ In_target)) as Vt.
  destruct (proj1 (unambiguous_settled _ Fit _ _ _ Vc r n) U) as (_ & Sc & ->).
  constructor; cbn [su_Package su_TargetPackage su_CurrentResult su_MeasuredPath su_BlockedByVersion
    su_CurrentObservations su_TargetObservations].
  - done.
  - by destruct (verdict_counts _ Fit _ _ _ Vc) as (-> & _), (verdict_counts _ Fit _ _ _ Vt) as (-> & _).
  - done.
  - by exists (map fst path).
  - exact walk_order.
  - intros v Hv. change [target] with (map fst [(target, count)]) in Hv. rewrite <- map_app in Hv.
    apply in_map_iff in Hv as ([w m] & <- & Hv). by apply walk_passed in Hv as [].
  - exact walk_unbroken.
  - split; [done|]. apply (walk_passed target count). apply in_app_iff. right. by left.
  - exact walk_end.
Qed.
End walk.

Lemma upgrade_sound t u : In u (filed (safeUpgradesFromReceipts samples) t) ->
  t = su_target u /\ exists key current target, evidence_backed samples u key current target.
Proof using Fit.
  intros (Et & key & byVersion & Eg & Hu)%In_from_groups. split; [done|].
  apply In_upgrade_loop in Hu as (l1 & v & above & E & Hu).
  apply In_upgrade_step in Hu as (r & n & path & target & count & rest & U & C & Eu).
  apply climb_spec in C as (-> & P & R). rewrite map_app in E. exists key, v, target.
  by eapply (path_backed key byVersion l1 v path target rest r n count).
Qed.
End path_theorem.

Section path_claim.
Context `{GS : !GoSort} `{GM : !GoMapRange} `{GT : !GoTime} (samples : list sampleData).

Lemma settled_result key version r : settled samples key version r -> r = ResultPass \/ r = ResultFail.
Proof.
  intros [Hm H]. unfold measured in Hm. destruct (measured_at key version (measurements samples)) as [|m l] eqn:E; [done|].
  assert (Hi : In m (measured_at key version (measurements samples))) by (rewrite E; by left).
  apply In_measured_at in Hi as (Hi & _). rewrite <- (H m) by by left.
  by apply measurement_source in Hi as (? & ? & ? & _ & _ & _ & _ & _ & _ & _ & _ & _ & Hr).
Qed.

(** C7.  Every suggested upgrade rests on an unbroken run of passes.  A
    published path starts at a version with one clear verdict and lists, in
    ascending order, every measured version above it up to the target, each
    of which only ever passed under the same conditions; it stops at the top
    or at a version that did not pass, and names that version exactly when it
    only ever failed.  A version with a clear verdict whose next measured
    version only passed has a path. *)
Theorem upgrade_paths_exact : fits samples ->
  (forall t u, In u (filed (safeUpgradesFromReceipts samples) t) ->
     t = su_target u /\ exists key current target, evidence_backed samples u key current target)
  /\ (forall key current next r,
       settled samples key current r -> settled samples key next ResultPass -> comes_next samples key current next ->
       exists u, In u (filed (safeUpgradesFromReceipts samples) (mkTarget (coordinate key current) (ck_symbol key)))
         /\ su_conditions u = key_conditions key /\ head (su_MeasuredPath u) = Some next)
  /\ (forall t, StronglySorted (fun a b => cmp_fields upgrade_order a b <= 0) (filed (safeUpgradesFromReceipts samples) t)).
Proof.
  intros Fit. split; [intros t u; by apply upgrade_sound|]. split; [|intros t; apply from_groups_sorted].
  intros key current next r S1 S2 N. destruct (group_of samples key current (proj1 S1)) as [byVersion Eg].
  destruct (next_adjacent samples key byVersion Eg current next (proj1 S1) (proj1 S2) N) as (l1 & l2 & E).
  pose proof (group_verdict_of _ _ _ _ Eg (proj1 S1)) as V1. pose proof (group_verdict_of _ _ _ _ Eg (proj1 S2)) as V2.
  pose proof (settled_result _ _ _ S1) as Hr.
  pose proof (proj2 (unambiguous_settled _ Fit _ _ _ V1 r _) (conj Hr (conj S1 eq_refl))) as U1.
  pose proof (proj2 (unambiguous_settled _ Fit _ _ _ V2 ResultPass _) (conj (or_introl eq_refl) (conj S2 eq_refl))) as U2.
  destruct (climb byVersion l2) as [p rest] eqn:C.
  destruct (@exists_last _ ((next, run_count samples key next) :: p)) as (path & [target count] & Ep); [done|].
  exists (mkUpgrade (rv_purl (verdict_of byVersion current)) (rv_purl (verdict_of byVersion target)) (ck_caseID key)
    (ck_symbol key) r StageContract (ck_verifierAdapter key) (ck_sandboxCapability key)
    (companionPackages (ck_companions key)) (ck_harnessHash key) (ck_contextLabel key) (ck_envBucketHash key)
    (map fst path ++ [target])%list (blocked_by byVersion rest) (run_count samples key current) count).
  split.
  - apply In_from_groups. split.
    + unfold su_target. cbn [su_Package su_Symbol]. by destruct (verdict_counts _ Fit _ _ _ V1) as (<- & _).
    + exists key, byVersion. split; [done|]. apply In_upgrade_loop. exists l1, current, (next :: l2). split; [done|].
      apply In_upgrade_step. exists r, (run_count samples key current), path, target, count, rest.
      split; [done|]. split; [|reflexivity]. cbn [climb]. rewrite U2. cbn [String.eqb negb]. by rewrite C, <- Ep.
  - split; [done|]. cbn [su_MeasuredPath]. change [target] with (map fst [(target, count)]). by rewrite <- map_app, <- Ep.
Qed.
End path_claim.

(** ** The watch *)

(** Every measurement with the one result is older than every measurement
    with the other, and both results occur. *)
Definition changed (samples : list sampleData) (key : receiptComparisonKey) (version : string) (pass_first : bool) : Prop :=
  let ms := measured_at key version (measurements samples) in
  times pass_first ms <> [] /\ times (negb pass_first) ms <> []
  /\ forall a b, In a (times pass_first ms) -> In b (times (negb pass_first) ms) -> a < b.

Definition dated `{!GoTime} (samples : list sampleData) : Prop :=
  forall m, In m (measurements samples) -> time_zero < ms_at m.

(** What a watch candidate reports. *)
Record change_reported `{!GoTime} (samples : list sampleData) (w : RegressionWatchCandidate) (key : receiptComparisonKey)
    (version : string) (pass_first : bool) : Prop := {
  cr_changed : changed samples key version pass_first;
  cr_conditions : rw_conditions w = key_conditions key;
  cr_package : rw_Package w = coordinate key version;
  cr_kind : rw_Kind w = if pass_first then WatchKnownGoodNowFailing else WatchKnownFailureNowPassing;
  cr_known : rw_KnownResult w = (if pass_first then ResultPass else ResultFail)
    /\ rw_KnownObservations w = Z.of_nat (length (times pass_first (measured_at key version (measurements samples))))
    /\ exists t, rw_KnownThrough w = time_Format t /\ latest t (times pass_first (measured_at key version (measurements samples)));
  cr_latest : rw_LatestResult w = (if pass_first then ResultFail else ResultPass)
    /\ rw_LatestObservations w = Z.of_nat (length (times (negb pass_first) (measured_at key version (measurements samples))))
    /\ exists t, rw_LatestSince w = time_Format t
       /\ earliest t (times (negb pass_first) (measured_at key version (measurements samples)))
}.

Section watch_facts.
Context `{GS : !GoSort} `{GM : !GoMapRange} `{GT : !GoTime} (samples : list sampleData) (Fit : fits samples).

Lemma verdict_times key version v : dated samples -> verdict_at (receiptVersionGroups samples) key version = Some v ->
  let ms := measured_at key version (measurements samples) in
  rv_undated v = false
  /\ (times true ms <> [] -> earliest (rv_firstPass v) (times true ms) /\ latest (rv_lastPass v) (times true ms))
  /\ (times false ms <> [] -> earliest (rv_firstFail v) (times false ms) /\ latest (rv_lastFail v) (times false ms)).
Proof using.
  intros D E. cbn zeta. apply group_verdict in E as [_ [_ _ _ -> -> -> -> ->]].
  assert (Dt : forall b, Forall (fun t => time_zero < t) (times b (measured_at key version (measurements samples)))).
  { intros b. apply List.Forall_forall. intros t (m & Hm & _ & _ & _ & <-)%times_spec. by apply D. }
  assert (Dn : forall b, Forall (fun t => t <> time_zero) (times b (measured_at key version (measurements samples)))).
  { intros b. eapply List.Forall_impl; [|apply Dt]. cbn. lia. }
  split; [|split; intros N; (split; [by apply fold_first|by apply fold_last])].
  apply not_true_iff_false. rewrite existsb_exists. intros (m & (Hm & _)%In_measured_at & Ez%Z.eqb_eq). apply D in Hm. lia.
Qed.

(** [watchCandidate] on a verdict of the index. *)
Lemma watchCandidate_changed key version v : dated samples ->
  verdict_at (receiptVersionGroups samples) key version = Some v ->
  match watchCandidate v with
  | None => forall b, ~ changed samples key version b
  | Some (kind, (known, knownCount, through), (latest_, latestCount, since)) =>
      exists b, change_reported samples (mkWatch (coordinate key version) (ck_caseID key) (ck_symbol key) StageContract kind
        (ck_verifierAdapter key) (ck_sandboxCapability key) (companionPackages (ck_companions key)) (ck_harnessHash key)
        (ck_contextLabel key) (ck_envBucketHash key) known knownCount through latest_ latestCount since "") key version b
  end.
Proof using Fit.
  intros D E. destruct (verdict_times _ _ _ D E) as (Ud & Tp & Tf).
  destruct (verdict_counts _ Fit _ _ _ E) as (_ & _ & Hp & Hf & _). unfold watchCandidate. rewrite Ud, orb_false_r.
  set (ms := measured_at key version (measurements samples)) in *.
  assert (Zt : forall b n, n = Z.of_nat (length (times b ms)) -> n = 0 <-> times b ms = []).
  { intros b n ->. destruct (times b ms); [done|]. split; [cbn; lia|done]. }
  destruct (Z.eqb_spec (rv_pass v) 0) as [P|P]; [|destruct (Z.eqb_spec (rv_fail v) 0) as [F|F]]; cbn [orb].
  - apply (Zt true _ Hp) in P. intros b (C1 & C2 & _). fold ms in C1, C2. destruct b; [done|done].
  - apply (Zt false _ Hf) in F. intros b (C1 & C2 & _). fold ms in C1, C2. destruct b; [done|done].
  - rewrite (Zt true _ Hp) in P. rewrite (Zt false _ Hf) in F.
    destruct (Tp P) as [[P1 P2] [P3 P4]], (Tf F) as [[F1 F2] [F3 F4]].
    destruct (Z.ltb_spec (rv_lastPass v) (rv_firstFail v)) as [L|L];
      [|destruct (Z.ltb_spec (rv_lastFail v) (rv_firstPass v)) as [L'|L']].
    + exists true. constructor; try done; [split; [done|split; [done|]]|split; [done|split; [done|]]|split; [done|split; [done|]]];
        cbn [negb]; fold ms; [|by exists (rv_lastPass v)|by exists (rv_firstFail v)].
      intros a b Ha%P4 Hb%F2. lia.
    + exists false. constructor; try done; [split; [done|split; [done|]]|split; [done|split; [done|]]|split; [done|split; [done|]]];
        cbn [negb]; fold ms; [|by exists (rv_lastFail v)|by exists (rv_firstPass v)].
      intros a b Ha%F4 Hb%P2. lia.
    + intros [] (_ & _ & C); fold ms in C; cbn [negb] in C; [specialize (C _ _ P3 F1)|specialize (C _ _ F3 P1)]; lia.
Qed.

Lemma In_watch_loop key byVersion below vs w : In w (watch_loop key byVersion below vs) <->
  exists l1 v l2, vs = (l1 ++ v :: l2)%list /\ In w (watch_step key byVersion (rev l1 ++ below) v).
Proof using.
  revert below. induction vs as [|x vs IH]; intros below; cbn [watch_loop].
  - split; [done|]. by intros ([|] & v & l2 & E & _).
  - rewrite in_app_iff, IH. split.
    + intros [H|(l1 & v & l2 & -> & H)]; [by exists [], x, vs|]. exists (x :: l1), v, l2.
      cbn [rev]. by rewrite <- app_assoc.
    + intros ([|y l1] & v & l2 & E & H); injection E as -> ->; [by left|]. right. exists l1, v, l2.
      cbn [rev] in H. by rewrite <- app_assoc in H.
Qed.
End watch_facts.

(** The closest measured version below that only passed, if there is one. *)
Definition nearest_reported (samples : list sampleData) (w : RegressionWatchCandidate) (key : receiptComparisonKey)
    (version : string) : Prop :=
  (rw_NearestLowerPassPackage w = ""
   /\ forall v, measured samples key v -> CompareVersions v version < 0 -> ~ settled samples key v ResultPass)
  \/ exists low, rw_NearestLowerPassPackage w = coordinate key low /\ settled samples key low ResultPass
     /\ low <> version /\ CompareVersions low version <= 0
     /\ forall v, measured samples key v -> CompareVersions low v < 0 -> CompareVersions v version < 0 ->
          ~ settled samples key v ResultPass.

Section watch_theorem.
Context `{GS : !GoSort} `{GM : !GoMapRange} `{GT : !GoTime} (samples : list sampleData).

Lemma nearest_spec byVersion below :
  (nearest_pass byVersion below = "" /\ forall v, In v below -> verdict_is ResultPass (verdict_of byVersion v) = false)
  \/ exists a low b, below = (a ++ low :: b)%list /\ nearest_pass byVersion below = rv_purl (verdict_of byVersion low)
     /\ verdict_is ResultPass (verdict_of byVersion low) = true
     /\ forall v, In v a -> verdict_is ResultPass (verdict_of byVersion v) = false.
Proof.
  induction below as [|x below IH]; [by left|]. cbn [nearest_pass].
  destruct (verdict_is ResultPass (verdict_of byVersion x)) eqn:V; [right; by exists [], x, below|].
  destruct IH as [[E H]|(a & low & b & -> & E & L & H)].
  - left. split; [done|]. intros v [<-|Hv]; auto.
  - right. exists (x :: a), low, b. repeat split; [done|done|]. intros v [<-|Hv]; auto.
Qed.

Lemma nearest_sound key byVersion l1 version l2 w : fits samples ->
  receiptVersionGroups samples !! key = Some byVersion ->
  sortedMeasuredVersions byVersion = (l1 ++ version :: l2)%list ->
  rw_NearestLowerPassPackage w = nearest_pass byVersion (rev l1) -> nearest_reported samples w key version.
Proof.
  intros Fit Eg E Ew. pose proof VersionOrder.CompareVersions_order.
  assert (M : forall v, In v (l1 ++ version :: l2) <-> measured samples key v) by (intros v; rewrite <- E; by apply group_versions).
  assert (N : forall v, measured samples key v -> verdict_is ResultPass (verdict_of byVersion v) = false ->
    ~ settled samples key v ResultPass).
  { intros v Mv V S. rewrite <- (verdict_is_settled _ Fit _ _ _ _ (group_verdict_of _ _ _ _ Eg Mv)) in S by auto. congruence. }
  destruct (versions_cut _ _ _ _ E) as (L & R & D & _). unfold nearest_reported. rewrite Ew.
  destruct (nearest_spec byVersion (rev l1)) as [[-> H1]|(a & low & b & El & -> & Lo & H1)].
  - left. split; [done|]. intros v Mv B. apply N; [done|]. apply H1, in_rev. rewrite rev_involutive.
    apply M, in_app_iff in Mv as [Hv|[<-|Hv%R]]; [done|by rewrite (cmp_refl (cmp:=CompareVersions)) in B|].
    pose proof (cmp_antisym (cmp:=CompareVersions) version v). lia.
  - assert (El' : l1 = (rev b ++ low :: rev a)%list).
    { rewrite <- (rev_involutive l1), El, rev_app_distr. cbn [rev]. by rewrite <- app_assoc. }
    assert (Il : In low l1) by (rewrite El'; apply in_app_iff; right; by left).
    assert (Ml : measured samples key low) by (apply M, in_app_iff; by left).
    pose proof (group_verdict_of _ _ _ _ Eg Ml) as Vl. right. exists low.
    split; [by destruct (verdict_counts _ Fit _ _ _ Vl) as (-> & _)|].
    split; [by apply (verdict_is_settled _ Fit _ _ _ _ Vl); auto|]. split; [by intros ->|]. split; [by apply L|].
    rewrite El', <- app_assoc in E. cbn [app] in E. destruct (versions_cut _ _ _ _ E) as (L' & _).
    intros v Mv B1 B2. apply N; [done|]. apply H1. apply M in Mv. rewrite El' in Mv. rewrite !in_app_iff in Mv. cbn [In] in Mv.
    pose proof (cmp_antisym (cmp:=CompareVersions) low v). pose proof (cmp_antisym (cmp:=CompareVersions) version v).
    destruct Mv as [[Hv%L'|[->|Hv%in_rev]]|[->|Hv%R]]; [lia|lia|done|lia|lia].
Qed.

Lemma change_unique key version b b' : changed samples key version b -> changed samples key version b' -> b = b'.
Proof.
  intros (N1 & N2 & H) (_ & _ & H'). destruct (times b _) as [|x l] eqn:E1; [done|]. destruct (times (negb b) _) as [|y l'] eqn:E2; [done|].
  specialize (H x y (or_introl eq_refl) (or_introl eq_refl)). destruct b, b'; try done; cbn [negb] in *;
    rewrite E1, E2 in H'; specialize (H' y x (or_introl eq_refl) (or_introl eq_refl)); lia.
Qed.

(** The watch reports exactly the clean changes over time.  With every
    receipt dated, a coordinate is reported exactly when it has both results
    and all measurements with one of them are older than all with the other;
    the report names the direction, counts both sides, gives the last time of
    the old verdict and the first of the new one, and the closest lower
    version that only passed. *)
Theorem watch_exact : fits samples -> dated samples ->
  (forall t w, In w (filed (regressionWatchFromReceipts samples) t) ->
     t = rw_target w /\ exists key version b, change_reported samples w key version b /\ nearest_reported samples w key version)
  /\ (forall key version b, changed samples key version b ->
       exists w, In w (filed (regressionWatchFromReceipts samples) (mkTarget (coordinate key version) (ck_symbol key)))
         /\ change_reported samples w key version b)
  /\ (forall t, StronglySorted (fun a b => cmp_fields watch_order a b <= 0) (filed (regressionWatchFromReceipts samples) t)).
Proof.
  intros Fit D. split; [|split; [|intros t; apply from_groups_sorted]].
  - intros t w (Et & key & byVersion & Eg & Hw)%In_from_groups. split; [done|].
    apply In_watch_loop in Hw as (l1 & version & l2 & E & Hw). rewrite app_nil_r in Hw. unfold watch_step in Hw.
    assert (Mv : measured samples key version).
    { apply (group_versions samples key byVersion _ Eg). rewrite E. apply in_app_iff. right. by left. }
    pose proof (group_verdict_of _ _ _ _ Eg Mv) as V. pose proof (watchCandidate_changed samples Fit _ _ _ D V) as C.
    destruct (watchCandidate _) as [[[kind [[known kc] through]] [[lat lc] since]]|]; [|done]. destruct Hw as [Ew|[]].
    destruct C as [b C]. destruct (verdict_counts _ Fit _ _ _ V) as (Ep & _). rewrite Ep in Ew. exists key, version, b. split.
    + rewrite <- Ew. by destruct C; constructor.
    + eapply nearest_sound; [done|done|exact E|]. by rewrite <- Ew.
  - intros key version b C. assert (Mv : measured samples key version).
    { intros E. destruct C as (N & _). by rewrite E in N. }
    destruct (group_of samples key version Mv) as [byVersion Eg]. pose proof (group_verdict_of _ _ _ _ Eg Mv) as V.
    pose proof (watchCandidate_changed samples Fit _ _ _ D V) as W.
    pose proof (proj2 (group_versions samples key byVersion version Eg) Mv) as I. apply in_split in I as (l1 & l2 & E).
    destruct (verdict_counts _ Fit _ _ _ V) as (Ep & _).
    destruct (watchCandidate _) as [[[kind [[known kc] through]] [[lat lc] since]]|] eqn:Q; [|by destruct (W b)].
    destruct W as [b' W]. rewrite (change_unique _ _ _ _ C (cr_changed _ _ _ _ _ W)).
    eexists. split; [apply In_from_groups; split; [|exists key, byVersion; split; [done|];
      apply In_watch_loop; exists l1, version, l2; split; [done|]; rewrite app_nil_r; unfold watch_step; rewrite Q, Ep; by left]|].
    + done.
    + by destruct W; constructor.
Qed.
End watch_theorem.

(** ** The three products together *)

(** The receipts are parsed rows, as the builder loads them. *)
Definition from_rows (samples : list sampleData) : Prop :=
  forall sd rec, In sd samples -> In rec (sd_receipts sd) -> exists decoded row, ParseReceiptRow decoded row = Some rec.

Lemma resolved_purls_canonical raws prev ps p : resolved_purls prev raws = Some ps -> In p ps -> ParsePURL (purl_String p) = Ok p.
Proof.
  revert prev ps. induction raws as [|raw raws IH]; intros prev ps; cbn [resolved_purls]; [by intros [= <-]|].
  destruct (ParsePURL raw) as [q|] eqn:E; [|done]. destruct (String.eqb_spec (purl_String q) raw) as [Er|]; [|done]. cbn [negb orb].
  destruct (_ || _); [done|]. destruct (resolved_purls (Some raw) raws) as [l|] eqn:R; [|done].
  change (Some (q :: l) = Some ps -> In p ps -> ParsePURL (purl_String p) = Ok p). intros [= <-] [<-|H].
  - by rewrite Er.
  - by apply (IH (Some raw) l).
Qed.

Lemma canonical_coordinate samples key v : from_rows samples -> measured samples key v ->
  ParsePURL (coordinate key v) = Ok (mkPURL (ck_ecosystem key) (ck_name key) v).
Proof.
  intros F Hm. unfold measured in Hm. destruct (measured_at key v (measurements samples)) as [|m l] eqn:E; [done|].
  assert (Hi : In m (measured_at key v (measurements samples))) by (rewrite E; by left).
  apply In_measured_at in Hi as (Hi & <- & <-).
  apply measurement_source in Hi as (sd & rec & p & Hsd & (Hrec & Hp & _) & Ev & _ & Ee & En & _).
  destruct (F sd rec Hsd Hrec) as (decoded & row & Hrow). unfold coordinate. rewrite Ev, Ee, En.
  replace (mkPURL (purl_Ecosystem p) (purl_Name p) (purl_Version p)) with p by (by destruct p).
  unfold ParseReceiptRow in Hrow. destruct decoded as [r|]; [|done]. injection Hrow as <-. cbn [ri_ResolvedPackages] in Hp.
  unfold resolvedPURLsFromReceipt in Hp. destruct (_ || _); [done|].
  destruct (resolved_purls None _) as [ps|] eqn:R; [|done]. by eapply resolved_purls_canonical.
Qed.

Lemma companionPackages_inj a b : companionPackages a = companionPackages b -> a = b.
Proof.
  unfold companionPackages. destruct (String.eqb_spec a "") as [->|Na], (String.eqb_spec b "") as [->|Nb]; [done|..]; intros E.
  - destruct (Split_not_nil b nul) as (h & t & Eb). by rewrite Eb in E.
  - destruct (Split_not_nil a nul) as (h & t & Ea). by rewrite Ea in E.
  - rewrite <- (proj2 (Split_pieces a nul)), <- (proj2 (Split_pieces b nul)). by rewrite E.
Qed.

(** The conditions and the package URL identify the measurements. *)
Lemma same_measurements samples k1 v1 k2 v2 : from_rows samples -> measured samples k1 v1 -> measured samples k2 v2 ->
  key_conditions k1 = key_conditions k2 -> coordinate k1 v1 = coordinate k2 v2 -> k1 = k2 /\ v1 = v2.
Proof.
  intros F M1 M2 C E. apply (canonical_coordinate _ _ _ F) in M1, M2. rewrite E, M2 in M1. injection M1 as Ee En Ev.
  unfold key_conditions in C. injection C. intros. split; [|done]. destruct k1, k2. cbn in *.
  f_equal; try done. by apply companionPackages_inj.
Qed.

Lemma settled_conflict samples key v : settled samples key v ResultPass -> settled samples key v ResultFail -> False.
Proof.
  intros [M P] [_ Fl]. unfold measured in M. destruct (measured_at key v _) as [|m l]; [done|].
  assert (ResultPass = ResultFail) by (by rewrite <- (P m), <- (Fl m); [done|left|left]). done.
Qed.

Lemma changed_not_settled samples key v b r : changed samples key v b -> settled samples key v r -> False.
Proof.
  intros (N1 & N2 & _) [_ S]. assert (T : forall c, times c (measured_at key v (measurements samples)) <> [] ->
    r = if c then ResultPass else ResultFail).
  { intros c N. destruct (times c _) as [|t l] eqn:E; [done|].
    assert (I : In t (times c (measured_at key v (measurements samples)))) by (rewrite E; by left).
    apply times_spec in I as (m & I1 & I2 & I3 & I4 & _). rewrite <- I4. symmetry. apply S. by apply In_measured_at. }
  apply T in N1, N2. by destruct b; subst r.
Qed.

(** A watched coordinate has both results, with or without dates. *)
Lemma watch_ambiguous `{GS : !GoSort} `{GM : !GoMapRange} `{GT : !GoTime} samples t w : fits samples ->
  In w (filed (regressionWatchFromReceipts samples) t) ->
  exists key version, rw_conditions w = key_conditions key /\ rw_Package w = coordinate key version
    /\ measured samples key version /\ forall r, ~ settled samples key version r.
Proof.
  intros Fit (_ & key & byVersion & Eg & Hw)%In_from_groups.
  apply In_watch_loop in Hw as (l1 & version & l2 & E & Hw). unfold watch_step in Hw.
  assert (Mv : measured samples key version).
  { apply (group_versions samples key byVersion _ Eg). rewrite E. apply in_app_iff. right. by left. }
  pose proof (group_verdict_of _ _ _ _ Eg Mv) as V. exists key, version. unfold watchCandidate in Hw.
  destruct (rv_pass (verdict_of byVersion version) =? 0) eqn:P; [done|].
  destruct (rv_fail (verdict_of byVersion version) =? 0) eqn:F; [done|]. cbn [orb] in Hw.
  assert (A : forall r, ~ settled samples key version r).
  { intros r S. pose proof (settled_result _ _ _ _ S) as Hr.
    pose proof (proj2 (unambiguous_settled _ Fit _ _ _ V r _) (conj Hr (conj S eq_refl))) as U.
    unfold unambiguous in U. by rewrite P, F, !andb_false_r in U. }
  destruct (verdict_counts _ Fit _ _ _ V) as (Ep & _). rewrite Ep in Hw.
  destruct (rv_undated _); [done|]. destruct (_ <? _); [destruct Hw as [<-|[]]; done|].
  destruct (_ <? _); [destruct Hw as [<-|[]]; done|done].
Qed.

(** C8.  The three products never contradict each other, in whatever orders
    each of them visits the maps: under the same conditions, a version that a
    boundary condemns is neither the target of an upgrade path nor a step of
    one, and a coordinate whose verdict changed over time is an end of no
    boundary and neither the start nor the target of a path. *)
Theorem products_agree (GS1 GS2 GS3 : GoSort) (GM1 GM2 GM3 : GoMapRange) (GT : GoTime) samples :
  fits samples -> from_rows samples ->
  (forall t1 t2 c u,
     In c (filed (regressionsFromReceipts (GS := GS1) (GM := GM1) samples) t1) ->
     In u (filed (safeUpgradesFromReceipts (GS := GS2) (GM := GM2) samples) t2) ->
     rc_conditions c = su_conditions u ->
     rc_Package c <> su_TargetPackage u
     /\ forall p v, ParsePURL (su_Package u) = Ok p -> In v (su_MeasuredPath u) ->
          rc_Package c <> purl_String (mkPURL (purl_Ecosystem p) (purl_Name p) v))
  /\ (forall t1 t3 c w,
     In c (filed (regressionsFromReceipts (GS := GS1) (GM := GM1) samples) t1) ->
     In w (filed (regressionWatchFromReceipts (GS := GS3) (GM := GM3) samples) t3) ->
     rc_conditions c = rw_conditions w -> rw_Package w <> rc_Package c /\ rw_Package w <> rc_PreviousPackage c)
  /\ (forall t2 t3 u w,
     In u (filed (safeUpgradesFromReceipts (GS := GS2) (GM := GM2) samples) t2) ->
     In w (filed (regressionWatchFromReceipts (GS := GS3) (GM := GM3) samples) t3) ->
     su_conditions u = rw_conditions w -> rw_Package w <> su_Package u /\ rw_Package w <> su_TargetPackage u).
Proof.
  intros Fit F.
  assert (K : forall k1 v1 r k2 v2, settled samples k1 v1 r -> measured samples k2 v2 ->
    key_conditions k1 = key_conditions k2 -> coordinate k1 v1 = coordinate k2 v2 -> settled samples k2 v2 r).
  { intros k1 v1 r k2 v2 S M C E. by destruct (same_measurements _ _ _ _ _ F (proj1 S) M C E) as [<- <-]. }
  split; [|split].
  - intros t1 t2 c u (_ & k1 & prev & cur & _ & Sf & -> & _)%(regression_sound (GS:=GS1) (GM:=GM1)) Hu C; [|done].
    apply (upgrade_sound (GS:=GS2) (GM:=GM2) _ Fit) in Hu as (_ & k2 & current & target & B).
    change (rc_conditions _) with (key_conditions k1) in C. rewrite (eb_conditions _ _ _ _ _ B) in C.
    destruct (eb_target _ _ _ _ _ B) as [path Ep].
    assert (St : forall v, In v (su_MeasuredPath u) -> coordinate k1 cur <> coordinate k2 v).
    { intros v Sv%(eb_passed _ _ _ _ _ B) E. eapply (settled_conflict samples k2 v); [done|].
      by eapply (K k1 cur _ k2 v Sf (proj1 Sv)). }
    cbn [rc_Package boundary_claim]. split.
    + rewrite (proj2 (eb_package _ _ _ _ _ B)). apply St. rewrite Ep. apply in_app_iff. right. by left.
    + intros p v P Hv. rewrite (proj1 (eb_package _ _ _ _ _ B)) in P.
      rewrite (canonical_coordinate _ _ _ F (proj1 (eb_current _ _ _ _ _ B))) in P. injection P as <-. by apply St.
  - intros t1 t3 c w (_ & k1 & prev & cur & Sp & Sf & -> & _)%(regression_sound (GS:=GS1) (GM:=GM1)) Hw C; [|done].
    apply (watch_ambiguous (GS:=GS3) (GM:=GM3) _ _ _ Fit) in Hw as (k2 & v & C2 & -> & M & A).
    change (rc_conditions _) with (key_conditions k1) in C. rewrite C2 in C. cbn [rc_Package rc_PreviousPackage boundary_claim].
    split; intros E; [eapply (A ResultFail), (K k1 cur)|eapply (A ResultPass), (K k1 prev)]; done.
  - intros t2 t3 u w Hu Hw C. apply (upgrade_sound (GS:=GS2) (GM:=GM2) _ Fit) in Hu as (_ & k1 & current & target & B).
    apply (watch_ambiguous (GS:=GS3) (GM:=GM3) _ _ _ Fit) in Hw as (k2 & v & C2 & -> & M & A).
    rewrite (eb_conditions _ _ _ _ _ B), C2 in C. destruct (eb_package _ _ _ _ _ B) as [-> ->]. destruct (eb_target _ _ _ _ _ B) as [path Ep].
    split; intros E; [eapply (A (su_CurrentResult u)), (K k1 current)|eapply (A ResultPass), (K k1 target)]; try done.
    + apply (eb_current _ _ _ _ _ B).
    + apply (eb_passed _ _ _ _ _ B). rewrite Ep. apply in_app_iff. right. by left.
Qed.

(** ** Deciding the side conditions on concrete data *)

(** Measurements that are all filed under one key: version, result, time. *)
Definition filed_under (key : receiptComparisonKey) (rows : list (string * string * Z)) : list measurement :=
  map (fun '(v, r, t) => mkMeasurement key v (coordinate key v) r t) rows.

Definition rows_at (v : string) (rows : list (string * string * Z)) : list (string * string * Z) :=
  List.filter (fun '(w, _, _) => String.eqb w v) rows.

Lemma measured_at_filed key v rows : measured_at key v (filed_under key rows) = filed_under key (rows_at v rows).
Proof.
  induction rows as [|[[w r] t] rows IH]; [done|]. cbn. rewrite bool_decide_true by done. cbn [andb].
  destruct (String.eqb w v); [|exact IH]. cbn. f_equal. exact IH.
Qed.

Section rows.
Context (samples : list sampleData) (key : receiptComparisonKey) (rows : list (string * string * Z)).
Context (E : measurements samples = filed_under key rows).

Lemma settled_rows v r : rows_at v rows <> [] -> forallb (fun '(_, r', _) => String.eqb r' r) (rows_at v rows) = true ->
  settled samples key v r.
Proof using E.
  intros N F. unfold settled, measured. rewrite E, measured_at_filed. split; [by destruct (rows_at v rows)|].
  intros m ([[w r'] t] & <- & H)%in_map_iff. rewrite forallb_forall in F. apply F in H. by apply String.eqb_eq.
Qed.

Lemma comes_next_rows from to : CompareVersions from to < 0 ->
  forallb (fun '(v, _, _) => String.eqb v from || String.eqb v to || (CompareVersions v from <? 0) || (CompareVersions to v <? 0))
    rows = true -> comes_next samples key from to.
Proof using E.
  intros L F. split; [done|]. intros v M N1 N2. unfold measured in M. rewrite E, measured_at_filed in M.
  destruct (rows_at v rows) as [|[[w r] t] l] eqn:R; [done|].
  assert (H : In (w, r, t) (rows_at v rows)) by (rewrite R; by left).
  apply List.filter_In in H as [H ->%String.eqb_eq]. rewrite forallb_forall in F. apply F in H.
  apply String.eqb_neq in N1, N2. rewrite N1, N2 in H. cbn [orb] in H. apply orb_true_iff in H as [Q|Q]; [left|right]; by apply Z.ltb_lt.
Qed.
End rows.

(** A run of one sample against axios: passing at 1.5.0 and 1.6.0, failing at
    1.7.0, failing after it had passed at 1.8.0. *)
Definition example_time : GoTime := {| time_zero := 0; time_Parse := fun _ => 0; time_Format := Itoa |}.

Definition example_receipt (version contract : string) : VerificationReceipt :=
  mkReceipt 2 "sample:1" "case:axios" "" env_example
    (<["resolve" := ResultPass]> (<["compile" := ResultPass]> {["contract" := contract]})) ∅
    ["pkg:npm/axios@" +:+ version] None "npm-node@1" "CONTAINER_RUN" "" "" "peer" "" "".

Definition example_stored (contract : string) (at_ : Z) : ReceiptRow :=
  mkReceiptRow "r" "sample:1" "peer" "" "" contract at_.

Definition example_row (version contract : string) (at_ : Z) : ReceiptInfo :=
  default (mkReceiptInfo "" "" env_example "" ∅ ∅ [] "" "" 0)
    (ParseReceiptRow (Some (example_receipt version contract)) (example_stored contract at_)).

Definition example_sample (receipts : list ReceiptInfo) : sampleData :=
  mkSampleData (mkSampleRow "sample:1" "case:axios" "" "STABLE" "" "MIT-0" 0 fzero 1 false "")
    (mkManifest 1 (mkCase 1 "case:axios" "HOW" "Retry a request" ["pkg:npm/axios@1.6.0"] ["axios.get"] ∅ ["it retries"] "")
       false false ["pkg:npm/axios@1.6.0"] ["axios.get"] "" env_example "MIT-0" [] (Some ["node"; "test.js"]) "npm-node@1")
    [] receipts.

Definition example_samples : list sampleData :=
  [example_sample [example_row "1.5.0" ResultPass 1; example_row "1.6.0" ResultPass 2; example_row "1.7.0" ResultFail 3;
                   example_row "1.8.0" ResultPass 4; example_row "1.8.0" ResultFail 5]].

Definition example_key : receiptComparisonKey :=
  comparison_key "case:axios" (receiptHarnessHash (example_sample [])) (Bucketed (env_Normalize env_example))
    (example_row "1.6.0" ResultPass 2) (mkPURL "npm" "axios" "1.6.0") "axios.get".

Lemma example_measurements : measurements example_samples =
  filed_under example_key [("1.5.0", ResultPass, 1); ("1.6.0", ResultPass, 2); ("1.7.0", ResultFail, 3);
                           ("1.8.0", ResultPass, 4); ("1.8.0", ResultFail, 5)].
Proof. vm_compute. reflexivity. Qed.

Lemma example_fits : fits example_samples.
Proof. unfold fits. by rewrite example_measurements. Qed.

Lemma example_from_rows : from_rows example_samples.
Proof.
  assert (P : forall v c a, exists decoded row, ParseReceiptRow decoded row = Some (example_row v c a)) 
    by (intros v c a; by exists (Some (example_receipt v c)), (example_stored c a)).
  intros sd rec [<-|[]] H. destruct H as [<-|[<-|[<-|[<-|[<-|[]]]]]]; apply P.
Qed.

Lemma receipt_boundaries_exact_witness :
  In (boundary_claim example_samples example_key "1.6.0" "1.7.0")
    (filed (regressionsFromReceipts (GS := sort_by_insertion) (GM := range_in_order) (GT := example_time) example_samples)
       (mkTarget "pkg:npm/axios@1.7.0" "axios.get")).
Proof.
  apply (proj1 (proj2 (receipt_boundaries_exact (GS := sort_by_insertion) (GM := range_in_order) (GT := example_time)
    example_samples example_fits)) example_key "1.6.0" "1.7.0");
    [eapply settled_rows|eapply settled_rows|eapply comes_next_rows]; try exact example_measurements;
    vm_compute; (reflexivity || discriminate).
Defined.

Lemma upgrade_paths_exact_witness :
  exists u, In u (filed (safeUpgradesFromReceipts (GS := sort_by_insertion) (GM := range_in_order) (GT := example_time)
                           example_samples) (mkTarget "pkg:npm/axios@1.5.0" "axios.get"))
    /\ su_conditions u = key_conditions example_key /\ head (su_MeasuredPath u) = Some "1.6.0".
Proof.
  apply (proj1 (proj2 (upgrade_paths_exact (GS := sort_by_insertion) (GM := range_in_order) (GT := example_time)
    example_samples example_fits)) example_key "1.5.0" "1.6.0" ResultPass);
    [eapply settled_rows|eapply settled_rows|eapply comes_next_rows]; try exact example_measurements;
    vm_compute; (reflexivity || discriminate).
Defined.

Lemma example_dated : dated (H := example_time) example_samples.
Proof.
  intros m. rewrite example_measurements. intros ([[v r] t] & <- & H)%in_map_iff.
  destruct H as [[= <- <- <-]|[[= <- <- <-]|[[= <- <- <-]|[[= <- <- <-]|[[= <- <- <-]|[]]]]]]; reflexivity.
Qed.

Lemma example_changed : changed example_samples example_key "1.8.0" true.
Proof.
  unfold changed. rewrite example_measurements, measured_at_filed. split; [done|]. split; [done|].
  intros a b [<-|[]] [<-|[]]. reflexivity.
Qed.

Lemma watch_exact_witness :
  exists w, In w (filed (regressionWatchFromReceipts (GS := sort_by_insertion) (GM := range_in_order) (GT := example_time)
                           example_samples) (mkTarget "pkg:npm/axios@1.8.0" "axios.get"))
    /\ change_reported (H := example_time) example_samples w example_key "1.8.0" true.
Proof.
  apply (proj1 (proj2 (watch_exact (GS := sort_by_insertion) (GM := range_in_order) (GT := example_time)
    example_samples example_fits example_dated)) example_key "1.8.0" true). exact example_changed.
Defined.

Lemma products_agree_witness :
  Forall (fun c => Forall (fun u => rc_conditions c = su_conditions u -> rc_Package c <> su_TargetPackage u)
      (filed (safeUpgradesFromReceipts (GS := sort_by_insertion) (GM := range_in_order) (GT := example_time) example_samples)
         (mkTarget "pkg:npm/axios@1.5.0" "axios.get")))
    (filed (regressionsFromReceipts (GS := sort_by_insertion) (GM := range_in_order) (GT := example_time) example_samples)
       (mkTarget "pkg:npm/axios@1.7.0" "axios.get")).
Proof.
  apply List.Forall_forall. intros c Hc. apply List.Forall_forall. intros u Hu C.
  exact (proj1 (proj1 (products_agree sort_by_insertion sort_by_insertion sort_by_insertion range_in_order range_in_order
    range_in_order example_time example_samples example_fits example_from_rows) _ _ c u Hc Hu C)).
Defined.

(** The comment on [BlockedByVersion] says that an empty value means nothing
    above the target has an unambiguous verdict.  When the version after the
    target was measured both ways the value is empty, and 1.9.0 above it only
    ever failed. *)
Definition skipped_samples : list sampleData :=
  [example_sample [example_row "1.5.0" ResultPass 1; example_row "1.6.0" ResultPass 2; example_row "1.8.0" ResultPass 4;
                   example_row "1.8.0" ResultFail 5; example_row "1.9.0" ResultFail 6]].

Lemma blocked_by_looks_one_step :
  let GS := sort_by_insertion in let GM := range_in_order in let GT := example_time in
  map (fun u => (su_TargetPackage u, su_BlockedByVersion u))
    (filed (safeUpgradesFromReceipts skipped_samples) (mkTarget "pkg:npm/axios@1.5.0" "axios.get"))
    = [("pkg:npm/axios@1.6.0", "")]
  /\ settled skipped_samples example_key "1.9.0" ResultFail.
Proof.
  split; [vm_compute; reflexivity|].
  apply (settled_rows _ _ [("1.5.0", ResultPass, 1); ("1.6.0", ResultPass, 2); ("1.8.0", ResultPass, 4);
                           ("1.8.0", ResultFail, 5); ("1.9.0", ResultFail, 6)]); [vm_compute; reflexivity|done|done].
Qed.
