(* ===== verification/Aggregate.v ===== *)
(** * Aggregating observations (internal/compatibility)

    The weaker evidence: what projects reported, as rows of the store.  This
    file has the aggregation helpers of aggregate.go (evidence quality,
    environment buckets and summaries, version order), the observation-based
    regression rule of regression.go, and the failure hypotheses of
    clusters.go.  A row's environment document is decoded by encoding/json;
    the model's row holds the decoded value. *)

From stdpp Require Import gmap.
From S2P Require Import Prelude GoStrings GoUnicode GoStd StringFacts UnicodeFacts WordFacts Float Hash Json.
From S2P Require Import Purl Env Failure CliSubject Experience Summary Boundaries Search Anomaly Relevance Grade Candidate Measured Upgrade.

(** ** Rows *)

Record EvidenceRow := mkEvidenceRow {
  ev_PURL : string;
  ev_Symbol : string;
  ev_SymbolConfidence : string;
  ev_EnvHash : string;
  ev_EnvJSON : option EnvironmentFingerprint;
  ev_Stage : string;
  ev_Result : string;
  ev_ErrorFingerprint : string;
  ev_ErrorCode : string;
  ev_TerminationKind : string;
  ev_ExitCode : option Z;
  ev_Signal : string;
  ev_TimeoutMillis : Z;
  ev_ErrorSummary : string;
  ev_EvidenceQuality : string;
  ev_OuterCommand : string;
  ev_OuterCommands : list string;
  ev_OuterStage : string;
  ev_ActualToolchain : string;
  ev_StageEvidence : string;
  ev_FailureEvidenceGap : string;
  ev_ObservationCount : Z;
  ev_UniquePeerBuckets : Z;
  ev_UniqueProjectBuckets : Z;
  ev_Direct : bool;
  ev_FirstSeen : Z;
  ev_LastSeen : Z
}.

Record StageCount := mkCount {
  sc_Pass : Z;
  sc_Fail : Z;
  sc_FailComplete : Z;
  sc_FailPartial : Z;
  sc_FailMissing : Z;
  sc_FailLegacyIncomplete : Z;
  sc_FailAttributed : Z
}.

Definition stage_count_zero : StageCount := mkCount 0 0 0 0 0 0 0.

Definition evidenceQuality (row : EvidenceRow) : string :=
  if negb (String.eqb (ev_Result row) ResultFail) then ""
  else if negb (String.eqb (ev_EvidenceQuality row) "") then ev_EvidenceQuality row
  else EvidenceLegacyIncomplete.

Definition parseEnv (decoded : option EnvironmentFingerprint) : option EnvironmentFingerprint := env_Normalize <$> decoded.

Record bucketKey := mkBucketKey { bk_ContextLabel : string; bk_EnvHash : string }.

Definition bucketOf (env : EnvironmentFingerprint) : bucketKey * EnvironmentFingerprint :=
  let b := Bucketed (env_Normalize env) in (mkBucketKey (ContextLabel b) (env_Hash b), b).

Definition observation_stages : list string :=
  ["USED"; "PROJECT_TYPECHECK"; "PROJECT_COMPILE"; "PROJECT_RESOLVE"; "PROJECT_TEST"; "PROJECT_LOAD"; "PROJECT_PROCESS";
   "PROCESS_START"; "UNKNOWN"].
Definition isObservationStage (stage : string) : bool := str_in stage observation_stages.

(** ** What environments have in common *)

Definition set_dim (k v : string) (m : gmap string string) : gmap string string :=
  if negb (String.eqb v "") then <[k := v]> m else m.

(** [dims] *)
Definition env_dims (e : EnvironmentFingerprint) : gmap string string :=
  let e := Bucketed e in
  let runtime := if negb (String.eqb (env_Runtime e) "") && negb (String.eqb (env_RuntimeVersion e) "")
                 then env_Runtime e +:+ "@" +:+ env_RuntimeVersion e else env_Runtime e in
  set_dim "engine" (env_Engine e) (set_dim "browserFamily" (env_BrowserFamily e)
    (set_dim "executionContext" (env_ExecutionContext e) (set_dim "moduleSystem" (env_ModuleSystem e)
      (set_dim "runtime" runtime (set_dim "os" (env_OS e) ∅))))).

(** [for k, v := range common { if d[k] != v { delete(common, k) } }]: each
    entry is kept or deleted on its own, so the order does not matter. *)
Definition keep_common (common d : gmap string string) : gmap string string :=
  filter (fun kv => default "" (d !! kv.1) = kv.2) common.

(** [None] is the nil map. *)
Definition envSummary (envs : list EnvironmentFingerprint) : option (gmap string string) :=
  match envs with
  | [] => None
  | e :: rest =>
      let common := fold_left (fun common e => keep_common common (env_dims e)) rest (env_dims e) in
      if decide (common = ∅) then None else Some common
  end.

(** ** Version order *)

(** The loop: digits accumulate, other bytes are skipped, a dot or the end
    closes a segment that has a digit. *)
Fixpoint segs_loop (v : string) (cur : Z) (has : bool) : list Z :=
  match v with
  | "" => if has then [cur] else []
  | String c v' =>
      if Ascii.eqb c "." then (if has then cur :: segs_loop v' 0 false else segs_loop v' 0 false)
      else if is_digit c then segs_loop v' (wrap64 (cur * 10 + (bv c - 48))) true
      else segs_loop v' cur has
  end.

Definition versionSegs (v : string) : list Z :=
  let v := match v with
    | String c v' => if Ascii.eqb c "v" || Ascii.eqb c "V" then v' else v
    | "" => v
    end in
  let v := match index_by (fun c => Ascii.eqb c "-" || Ascii.eqb c "+") v with Some i => str_take i v | None => v end in
  segs_loop v 0 false.

(** The index loop over the longer of the two; a missing segment is 0. *)
Fixpoint first_difference (n : nat) (as_ bs : list Z) : option (Z * Z) :=
  match n with
  | O => None
  | S n' => if negb (List.hd 0 as_ =? List.hd 0 bs) then Some (List.hd 0 as_, List.hd 0 bs)
            else first_difference n' (List.tl as_) (List.tl bs)
  end.

Definition versionLess (a b : string) : bool :=
  let as_ := versionSegs a in
  let bs := versionSegs b in
  match first_difference (Nat.max (length as_) (length bs)) as_ bs with
  | Some (av, bv) => av <? bv
  | None => str_lt a b
  end.

Definition sortedVersions `{!GoSort} (versions : list string) : list string := sort_slice versionLess versions.

Definition previous_step (current : string) (best : option string) (v : string) : option string :=
  if String.eqb v current || negb (versionLess v current) then best
  else match best with
       | None => Some v
       | Some b => if versionLess b v then Some v else best
       end.

(** [None] is [("", false)]. *)
Definition PreviousVersion (versions : list string) (current : string) : option string :=
  fold_left (previous_step current) versions None.

(** ** The observation rule *)

Record stageBucketKey := mkStageBucket { sb_bucket : bucketKey; sb_Stage : string }.
#[export] Instance bucketKey_eq_dec : EqDecision bucketKey.
Proof. solve_decision. Defined.
#[export] Instance stageBucketKey_eq_dec : EqDecision stageBucketKey.
Proof. solve_decision. Defined.
#[export] Program Instance stageBucketKey_countable : Countable stageBucketKey :=
  inj_countable' (fun k => (bk_ContextLabel (sb_bucket k), bk_EnvHash (sb_bucket k), sb_Stage k))
    (fun '(a, b, c) => mkStageBucket (mkBucketKey a b) c) _.
Next Obligation. by intros [[]]. Qed.

(** Where a row is counted, if it is. *)
Definition row_bucket (row : EvidenceRow) : option stageBucketKey :=
  if negb (isObservationStage (ev_Stage row)) then None
  else match parseEnv (ev_EnvJSON row) with
       | None => None
       | Some env => Some (mkStageBucket (fst (bucketOf env)) (ev_Stage row))
       end.

Definition count_row (row : EvidenceRow) (sc : StageCount) : StageCount :=
  if String.eqb (ev_Result row) ResultPass
  then mkCount (wrap64 (sc_Pass sc + ev_ObservationCount row)) (sc_Fail sc) (sc_FailComplete sc) (sc_FailPartial sc)
         (sc_FailMissing sc) (sc_FailLegacyIncomplete sc) (sc_FailAttributed sc)
  else mkCount (sc_Pass sc) (wrap64 (sc_Fail sc + ev_ObservationCount row)) (sc_FailComplete sc) (sc_FailPartial sc)
         (sc_FailMissing sc) (sc_FailLegacyIncomplete sc) (sc_FailAttributed sc).

Definition tally_row (out : gmap stageBucketKey StageCount) (row : EvidenceRow) : gmap stageBucketKey StageCount :=
  match row_bucket row with
  | None => out
  | Some k => <[k := count_row row (default stage_count_zero (out !! k))]> out
  end.

Definition bucketPassFail (rows : list EvidenceRow) : gmap stageBucketKey StageCount := fold_left tally_row rows ∅.

Definition regressionMinFailRate : float64 := hundredths 25.
Definition regressionMinPrevPassRate : float64 := hundredths 90.
Definition regressionMinObservations : Z := 5.

Definition stage_bucket_lt (a b : stageBucketKey) : bool :=
  if negb (String.eqb (bk_ContextLabel (sb_bucket a)) (bk_ContextLabel (sb_bucket b)))
  then str_lt (bk_ContextLabel (sb_bucket a)) (bk_ContextLabel (sb_bucket b))
  else if negb (String.eqb (bk_EnvHash (sb_bucket a)) (bk_EnvHash (sb_bucket b)))
  then str_lt (bk_EnvHash (sb_bucket a)) (bk_EnvHash (sb_bucket b))
  else str_lt (sb_Stage a) (sb_Stage b).

(** The body of the loop over the sorted keys. *)
Definition regression_of (curPURL prevPURL symbol : string) (curStats prevStats : gmap stageBucketKey StageCount)
    (k : stageBucketKey) : option RegressionCandidate :=
  let c := default stage_count_zero (curStats !! k) in
  match prevStats !! k with
  | None => None
  | Some p =>
      let cTotal := wrap64 (sc_Pass c + sc_Fail c) in
      let pTotal := wrap64 (sc_Pass p + sc_Fail p) in
      if (cTotal <? regressionMinObservations) || (pTotal <? regressionMinObservations) then None
      else
        let failRate := fdiv (float_of (sc_Fail c)) (float_of cTotal) in
        let prevPass := fdiv (float_of (sc_Pass p)) (float_of pTotal) in
        if fleb regressionMinFailRate failRate && fleb regressionMinPrevPassRate prevPass
        then Some (mkRegression curPURL prevPURL "" symbol "" "" [] "" (sb_Stage k) (bk_ContextLabel (sb_bucket k))
                     (bk_EnvHash (sb_bucket k)) failRate prevPass cTotal pTotal)
        else None
  end.

Definition DetectRegressions `{!GoSort} `{!GoMapRange} (curPURL prevPURL symbol : string) (cur prev : list EvidenceRow) :
    list RegressionCandidate :=
  let curStats := bucketPassFail cur in
  let prevStats := bucketPassFail prev in
  omap (regression_of curPURL prevPURL symbol curStats prevStats)
    (sort_slice stage_bucket_lt (range_order (map fst (map_to_list curStats)))).

(** ** Hypotheses *)

Definition FailConfiguration := "CONFIGURATION".
Definition FailRuntime := "RUNTIME".
Definition FailLibraryRegression := "LIBRARY_REGRESSION".
Definition FailEngine := "ENGINE".
Definition FailBrowser := "BROWSER".
Definition FailUnknown := "UNKNOWN".

Definition isESMCode (code : string) : bool :=
  str_in (ToUpper (TrimSpace code)) ["ERR_REQUIRE_ESM"; "ERR_UNSUPPORTED_DIR_IMPORT"].

(** [None] is [("", false)]. *)
Definition concentratedEngine (failEnvs passEnvs : list EnvironmentFingerprint) : option string :=
  match failEnvs with
  | [] => None
  | e0 :: rest =>
      let engine := env_Engine e0 in
      if String.eqb engine "" then None
      else if existsb (fun e => negb (String.eqb (env_Engine e) engine)) rest then None
      else if existsb (fun e => negb (String.eqb (env_Engine e) "") && negb (String.eqb (env_Engine e) engine)) passEnvs
      then Some engine else None
  end.

Definition Hypotheses (errorCode : string) (failEnvs passEnvs : list EnvironmentFingerprint) : list FailureHypothesis :=
  if isESMCode errorCode then
    [mkHypothesis FailConfiguration (hundredths 72); mkHypothesis FailRuntime (hundredths 21);
     mkHypothesis FailLibraryRegression (hundredths 7)]
  else match concentratedEngine failEnvs passEnvs with
  | Some engine =>
      if negb (String.eqb engine "") then
        [mkHypothesis FailEngine (hundredths 60); mkHypothesis FailBrowser (hundredths 25);
         mkHypothesis FailLibraryRegression (hundredths 15)]
      else [mkHypothesis FailUnknown (float_of 1)]
  | None => [mkHypothesis FailUnknown (float_of 1)]
  end.

(** ** A summary claims what all environments share *)

Lemma set_dim_lookup k v m k' w : set_dim k v m !! k' = Some w -> (k = k' /\ w = v /\ v <> "") \/ m !! k' = Some w.
Proof.
  unfold set_dim. destruct (String.eqb_spec v "") as [->|N]; cbn [negb]; [by right|].
  destruct (decide (k = k')) as [<-|N']; [rewrite lookup_insert_eq; intros [= <-]; by left|].
  rewrite lookup_insert_ne by done. by right.
Qed.

Lemma env_dims_nonempty e k v : env_dims e !! k = Some v -> v <> "".
Proof.
  unfold env_dims. cbv zeta. intros H.
  repeat (apply set_dim_lookup in H as [(_ & -> & N)|H]; [exact N|]). done.
Qed.

Lemma keep_common_lookup common d k v : (forall k v, common !! k = Some v -> v <> "") ->
  keep_common common d !! k = Some v <-> common !! k = Some v /\ d !! k = Some v.
Proof.
  intros N. unfold keep_common. rewrite map_lookup_filter_Some. cbn [fst snd]. split.
  - intros [H E]. split; [done|]. apply N in H. destruct (d !! k) as [w|]; cbn in E; [by rewrite E|by subst v].
  - intros [H ->]. done.
Qed.

(** An environment summary holds a dimension with a value exactly when every
    one of the environments has that value. *)
Theorem envSummary_exact envs k v :
  (exists m, envSummary envs = Some m /\ m !! k = Some v)
  <-> envs <> [] /\ forall e, In e envs -> env_dims e !! k = Some v.
Proof.
  destruct envs as [|e0 rest]; [split; [by intros (m & H & _)|by intros [H _]]|]. cbn [envSummary]. cbv zeta.
  set (fold := fold_left _ rest _).
  assert (F : forall k v, fold !! k = Some v <-> env_dims e0 !! k = Some v /\ forall e, In e rest -> env_dims e !! k = Some v).
  { subst fold. assert (N0 := env_dims_nonempty e0). revert N0. generalize (env_dims e0) as m.
    induction rest as [|e rest IH]; intros m N k' v'; cbn [fold_left]; [by split; [intros H; split|intros []]|].
    rewrite IH.
    - rewrite (keep_common_lookup _ _ _ _ N). cbn [In]. split; [intros [[H1 H2] H3]; split; [done|]; intros x [<-|]; auto|].
      intros [H1 H2]. repeat split; auto.
    - intros k'' v'' H. apply (keep_common_lookup _ _ _ _ N) in H as [H _]. by apply N in H. }
  transitivity (fold !! k = Some v).
  - destruct (decide (fold = ∅)) as [->|]; [|split; [by intros (m & [= <-] & H)|intros H; by exists fold]].
    split; [by intros (m & H & _)|done].
  - rewrite F. cbn [In]. split; [intros [H1 H2]; split; [done|]; intros e [<-|]; auto|]. intros [_ H]. split; auto.
Qed.

(** ** The version order of the aggregation *)

Definition version_cmp : string -> string -> Z := cmp_then (cmp_on versionSegs cmp_padded) str_cmp.

Lemma first_difference_pad n as_ bs : pad_loop n as_ bs =
  match first_difference n as_ bs with Some (x, y) => if x <? y then -1 else 1 | None => 0 end.
Proof.
  revert as_ bs. induction n as [|n IH]; intros as_ bs; [done|]. cbn.
  destruct (Z.eqb_spec (List.hd 0 as_) (List.hd 0 bs)); cbn [negb]; [apply IH|done].
Qed.

Lemma versionLess_less : less_of version_cmp versionLess.
Proof.
  split; [unfold version_cmp; apply _|]. intros a b. unfold versionLess, version_cmp, cmp_then, cmp_on, cmp_padded.
  rewrite first_difference_pad. destruct (first_difference _ _ _) as [[x y]|]; [|done]. by destruct (x <? y).
Qed.

Lemma version_cmp_eq a b : version_cmp a b = 0 -> a = b.
Proof. unfold version_cmp, cmp_then. destruct (Z.eqb_spec (cmp_on versionSegs cmp_padded a b) 0); [apply str_cmp_eq|done]. Qed.

Lemma versionLess_irrefl a : versionLess a a = false.
Proof. destruct versionLess_less as [O L]. by rewrite L, (cmp_refl (cmp:=version_cmp)). Qed.

Lemma versionLess_trans a b c : versionLess a b = true -> versionLess b c = true -> versionLess a c = true.
Proof.
  destruct versionLess_less as [O L]. rewrite !L, !Z.ltb_lt. intros H1 H2.
  apply (cmp_lt_le_trans (cmp:=version_cmp) a b c); lia.
Qed.

Lemma versionLess_total a b : versionLess a b = false -> b = a \/ versionLess b a = true.
Proof.
  destruct versionLess_less as [O L]. rewrite !L, Z.ltb_ge, Z.ltb_lt. intros H.
  pose proof (cmp_antisym (cmp:=version_cmp) a b).
  destruct (Z.eq_dec (version_cmp a b) 0) as [E|]; [left; symmetry; by apply version_cmp_eq|right; lia].
Qed.

Lemma previous_step_inv current vs best v :
  (forall b, best = Some b -> versionLess b current = true) ->
  fold_left (previous_step current) vs best = Some v ->
  versionLess v current = true /\ (best = Some v \/ In v vs)
  /\ (forall b, best = Some b -> b = v \/ versionLess b v = true)
  /\ forall w, In w vs -> versionLess w current = true -> w = v \/ versionLess w v = true.
Proof.
  revert best. induction vs as [|x vs IH]; intros best Hb; cbn [fold_left].
  - intros ->. split; [by apply Hb|]. split; [by left|]. split; [intros b [= <-]; by left|done].
  - intros H. unfold previous_step at 2 in H.
    destruct (versionLess x current) eqn:Lx.
    + assert (Nx : String.eqb x current = false) by (apply String.eqb_neq; intros ->; by rewrite versionLess_irrefl in Lx).
      rewrite Nx in H. cbn [orb negb] in H. destruct best as [b|].
      * destruct (versionLess b x) eqn:Lb.
        -- apply IH in H as (H1 & H2 & H3 & H4); [|by intros ? [= <-]]. split; [done|].
           split; [right; destruct H2 as [E|]; [left; congruence|by right]|].
           split; [|intros w [<-|Hw]; auto]. intros ? [= <-]. right.
           destruct (H3 x eq_refl) as [<-|Hx]; [done|by eapply versionLess_trans].
        -- apply IH in H as (H1 & H2 & H3 & H4); [|done]. split; [done|]. split; [destruct H2; [by left|right; by right]|].
           split; [done|]. intros w [<-|Hw] Lw; [|auto]. destruct (versionLess_total _ _ Lb) as [->|Q]; [by apply H3|].
           right. destruct (H3 b eq_refl) as [<-|Q']; [done|]. by eapply versionLess_trans.
      * apply IH in H as (H1 & H2 & H3 & H4); [|by intros ? [= <-]]. split; [done|].
        split; [right; destruct H2 as [E|]; [left; congruence|by right]|]. split; [done|]. intros w [<-|Hw] Lw; [by apply H3|auto].
    + rewrite orb_true_r in H. apply IH in H as (H1 & H2 & H3 & H4); [|done]. split; [done|].
      split; [destruct H2; [by left|right; by right]|]. split; [done|]. intros w [<-|Hw] Lw; [congruence|auto].
Qed.

Lemma previous_none current vs best : fold_left (previous_step current) vs best = None ->
  best = None /\ forall w, In w vs -> versionLess w current = false.
Proof.
  revert best. induction vs as [|x vs IH]; intros best; cbn [fold_left]; [intros ->; split; done|].
  intros (Hb & H)%IH. unfold previous_step in Hb. destruct (versionLess x current) eqn:Lx; cbn [negb] in Hb.
  - exfalso. assert (Nx : String.eqb x current = false) by (apply String.eqb_neq; intros ->; by rewrite versionLess_irrefl in Lx).
    rewrite Nx in Hb. cbn [orb] in Hb. by destruct best as [b|]; [destruct (versionLess b x)|].
  - rewrite orb_true_r in Hb. split; [done|]. intros w [<-|Hw]; auto.
Qed.

(** [PreviousVersion] is the greatest version strictly below the current one
    in the order the aggregation sorts by, and [None] when there is none. *)
Theorem PreviousVersion_greatest versions current :
  match PreviousVersion versions current with
  | Some p => In p versions /\ versionLess p current = true
      /\ forall v, In v versions -> versionLess v current = true -> v = p \/ versionLess v p = true
  | None => forall v, In v versions -> versionLess v current = false
  end.
Proof.
  unfold PreviousVersion. destruct (fold_left _ versions None) as [p|] eqn:E; [|by apply previous_none in E as [_ E]].
  apply previous_step_inv in E as (H1 & [|H2] & _ & H3); done.
Qed.

(** The comment on [versionLess] says the pre-release suffix is ignored.  It
    decides ties: the release comes before its own pre-release, the opposite
    of [CompareVersions], so the rule compares a release candidate with the
    release as its predecessor. *)
Lemma release_precedes_its_prerelease :
  PreviousVersion ["1.12.0"] "1.12.0-rc.1" = Some "1.12.0"
  /\ PreviousVersion ["1.12.0-rc.1"] "1.12.0" = None
  /\ CompareVersions "1.12.0-rc.1" "1.12.0" < 0.
Proof. vm_compute. auto. Qed.

(** ** The rule compares one bucket and one stage *)

(** The rows counted under a bucket and stage, and their observations. *)
Definition counted (k : stageBucketKey) (rows : list EvidenceRow) : list EvidenceRow :=
  List.filter (fun row => bool_decide (row_bucket row = Some k)) rows.

Fixpoint observations (pass : bool) (rows : list EvidenceRow) : Z :=
  match rows with
  | [] => 0
  | row :: rest => (if Bool.eqb (String.eqb (ev_Result row) ResultPass) pass then ev_ObservationCount row else 0)
                   + observations pass rest
  end.

Lemma observations_app b l1 l2 : observations b (l1 ++ l2) = observations b l1 + observations b l2.
Proof. induction l1 as [|r l1 IH]; cbn; lia. Qed.

Lemma In_counted k rows row : In row (counted k rows) <-> In row rows /\ row_bucket row = Some k.
Proof. unfold counted. by rewrite List.filter_In, bool_decide_eq_true. Qed.

Definition bucket_count (rows : list EvidenceRow) : StageCount :=
  mkCount (wrap64 (observations true rows)) (wrap64 (observations false rows)) 0 0 0 0 0.

Lemma count_row_bucket row rows : count_row row (bucket_count rows) = bucket_count (rows ++ [row]).
Proof.
  unfold count_row, bucket_count. rewrite !observations_app. cbn [observations].
  destruct (String.eqb (ev_Result row) ResultPass); cbn; rewrite wrap64_add_l; f_equal; f_equal; lia.
Qed.

Lemma bucketPassFail_lookup rows k :
  bucketPassFail rows !! k = match counted k rows with [] => None | l => Some (bucket_count l) end.
Proof.
  unfold bucketPassFail. induction rows as [|row rows IH] using rev_ind; [done|].
  rewrite fold_left_app. unfold counted. rewrite List.filter_app. cbn [fold_left List.filter]. fold (counted k rows).
  unfold tally_row at 1. destruct (row_bucket row) as [k'|]; [|by rewrite bool_decide_false, app_nil_r].
  destruct (decide (k' = k)) as [->|N].
  - rewrite lookup_insert_eq, IH, bool_decide_true by done.
    assert (E : default stage_count_zero match counted k rows with [] => None | l => Some (bucket_count l) end
      = bucket_count (counted k rows)) by (by destruct (counted k rows)).
    rewrite E, count_row_bucket. by destruct (counted k rows).
  - rewrite lookup_insert_ne, bool_decide_false, app_nil_r by congruence. exact IH.
Qed.

Definition stage_bucket_cmp : stageBucketKey -> stageBucketKey -> Z :=
  cmp_then (cmp_on (fun k => bk_ContextLabel (sb_bucket k)) str_cmp)
    (cmp_then (cmp_on (fun k => bk_EnvHash (sb_bucket k)) str_cmp) (cmp_on sb_Stage str_cmp)).

Lemma stage_bucket_less : less_of stage_bucket_cmp stage_bucket_lt.
Proof.
  pose proof (fields_lt_less [(fun k => bk_ContextLabel (sb_bucket k)); (fun k => bk_EnvHash (sb_bucket k)); sb_Stage]) as [_ L].
  split; [unfold stage_bucket_cmp; apply _|]. intros a b. change (stage_bucket_lt a b) with
    (fields_lt [(fun k => bk_ContextLabel (sb_bucket k)); (fun k => bk_EnvHash (sb_bucket k)); sb_Stage] a b).
  rewrite L. unfold stage_bucket_cmp. cbn [cmp_fields]. unfold cmp_then, cmp_on.
  by destruct (str_cmp (sb_Stage a) (sb_Stage b) =? 0) eqn:E; [apply Z.eqb_eq in E as ->|].
Qed.

Lemma stage_bucket_cmp_eq a b : stage_bucket_cmp a b = 0 -> a = b.
Proof.
  unfold stage_bucket_cmp, cmp_then, cmp_on. destruct a as [[a1 a2] a3], b as [[b1 b2] b3]. cbn.
  destruct (Z.eqb_spec (str_cmp a1 b1) 0) as [->%str_cmp_eq|]; [|done].
  destruct (Z.eqb_spec (str_cmp a2 b2) 0) as [->%str_cmp_eq|]; [|done]. by intros ->%str_cmp_eq.
Qed.

Lemma counted_row k rows row : In row (counted k rows) ->
  isObservationStage (ev_Stage row) = true /\ ev_Stage row = sb_Stage k
  /\ exists env, ev_EnvJSON row = Some env /\ sb_bucket k = fst (bucketOf (env_Normalize env)).
Proof.
  intros [_ H]%In_counted. unfold row_bucket in H. destruct (isObservationStage (ev_Stage row)); [|done].
  unfold parseEnv in H. destruct (ev_EnvJSON row) as [env|]; [|done]. cbn [fmap option_fmap option_map] in H. injection H as <-.
  split; [done|]. split; [done|]. by exists env.
Qed.

(** The observation rule, exactly.  A candidate is flagged for one
    environment bucket at one observation stage, both versions having rows
    there; its counts are the observations reported in that bucket at that
    stage and nothing else, at least five on each side, and its two rates are
    past the thresholds.  The list is the same in whatever order the maps are
    visited and by whatever sort. *)
Theorem observed_regressions_exact (GS GS' : GoSort) (GM GM' : GoMapRange) curPURL prevPURL symbol cur prev :
  DetectRegressions (H := GS) (H0 := GM) curPURL prevPURL symbol cur prev
    = DetectRegressions (H := GS') (H0 := GM') curPURL prevPURL symbol cur prev
  /\ forall r, In r (DetectRegressions (H := GS) (H0 := GM) curPURL prevPURL symbol cur prev) <->
       exists k, counted k cur <> [] /\ counted k prev <> []
         /\ let total l := wrap64 (wrap64 (observations true l) + wrap64 (observations false l)) in
            let failRate := fdiv (float_of (wrap64 (observations false (counted k cur)))) (float_of (total (counted k cur))) in
            let passRate := fdiv (float_of (wrap64 (observations true (counted k prev)))) (float_of (total (counted k prev))) in
            5 <= total (counted k cur) /\ 5 <= total (counted k prev)
            /\ fleb (hundredths 25) failRate = true /\ fleb (hundredths 90) passRate = true
            /\ r = mkRegression curPURL prevPURL "" symbol "" "" [] "" (sb_Stage k) (bk_ContextLabel (sb_bucket k))
                     (bk_EnvHash (sb_bucket k)) failRate passRate (total (counted k cur)) (total (counted k prev))
            /\ forall row, In row (counted k cur ++ counted k prev) ->
                 isObservationStage (ev_Stage row) = true /\ ev_Stage row = sb_Stage k
                 /\ exists env, ev_EnvJSON row = Some env /\ sb_bucket k = fst (bucketOf (env_Normalize env)).
Proof.
  unfold DetectRegressions. cbv zeta. split.
  - f_equal. apply (sort_slice_unique stage_bucket_cmp); [apply stage_bucket_less|apply stage_bucket_cmp_eq|].
    by rewrite <- !range_order_perm.
  - intros r. rewrite <- list_elem_of_In, list_elem_of_omap.
    assert (D : forall k, In k (map fst (map_to_list (bucketPassFail cur))) <-> counted k cur <> []).
    { intros k. rewrite in_map_iff. split.
      - intros ([k' x] & <- & H). apply list_elem_of_In, elem_of_map_to_list in H. rewrite bucketPassFail_lookup in H.
        cbn [fst]. by destruct (counted k' cur).
      - intros N. exists (k, bucket_count (counted k cur)). split; [done|]. apply list_elem_of_In, elem_of_map_to_list.
        rewrite bucketPassFail_lookup. by destruct (counted k cur). }
    setoid_rewrite list_elem_of_In. setoid_rewrite <- sort_slice_perm. setoid_rewrite <- range_order_perm. setoid_rewrite D.
    assert (Rows : forall k row, In row (counted k cur ++ counted k prev) ->
      isObservationStage (ev_Stage row) = true /\ ev_Stage row = sb_Stage k
      /\ exists env, ev_EnvJSON row = Some env /\ sb_bucket k = fst (bucketOf (env_Normalize env)))
      by (intros k row [H|H]%in_app_iff; by eapply counted_row).
    apply exist_proper. intros k. specialize (Rows k). unfold regression_of. rewrite !bucketPassFail_lookup. cbv zeta.
    destruct (counted k cur) as [|c cs]; [tauto|]. cbn [default]. destruct (counted k prev) as [|p ps]; [by split; [intros []|intros (_ & [] & _)]|].
    unfold id. cbn [sc_Pass sc_Fail bucket_count]. unfold regressionMinObservations, regressionMinFailRate, regressionMinPrevPassRate.
    set (ct := wrap64 (wrap64 (observations true (c :: cs)) + _)). set (pt := wrap64 (wrap64 (observations true (p :: ps)) + _)).
    destruct (Z.ltb_spec ct 5), (Z.ltb_spec pt 5); cbn [orb]; try (by split; [intros []|intros (_ & _ & ? & ? & _ & _ & _ & _); lia]).
    destruct (fleb (hundredths 25) _), (fleb (hundredths 90) _); cbn [andb];
      try (by split; [intros []|intros (_ & _ & _ & _ & ? & ? & _ & _)]).
    split; [intros [N E]; injection E as <-; do 6 (split; [done || lia|]); split; [done|exact Rows]|]. intros (N & _ & _ & _ & _ & _ & -> & _). done.
Qed.
