(* ===== verification/Jdk.v ===== *)
(** * Boundaries between JDK lines (internal/compatibility/jdk_boundary.go)

    For samples verified in the digest-pinned Java matrix, a change of the
    compile or contract result between neighbouring JDK lines, with the
    resolved packages and everything else about the environment fixed. *)

From stdpp Require Import gmap.
From S2P Require Import Prelude GoStrings GoUnicode GoStd StringFacts UnicodeFacts WordFacts Float Hash Json.
From S2P Require Import Purl Env Failure CliSubject Experience Boundaries Search Anomaly Relevance Grade Candidate Measured Upgrade.

#[local] Opaque sha256_hex CanonicalJSON env_Hash env_Normalize CompareVersions.

(** ** Data *)

Record JDKBoundaryCandidate := mkJDKBoundary {
  jb_Package : string;
  jb_ResolvedPackages : list string;
  jb_CaseID : string;
  jb_Symbol : string;
  jb_Stage : string;
  jb_VerifierAdapter : string;
  jb_SandboxCapability : string;
  jb_HarnessHash : string;
  jb_LanguageVersion : string;
  jb_LowerRuntimeVersion : string;
  jb_HigherRuntimeVersion : string;
  jb_LowerResult : string;
  jb_HigherResult : string;
  jb_EnvironmentHash : string;
  jb_LowerObservations : Z;
  jb_HigherObservations : Z
}.

Record jdkComparisonKey := mkJDKKey {
  jk_sampleID : string;
  jk_caseID : string;
  jk_symbol : string;
  jk_packages : string;
  jk_verifierAdapter : string;
  jk_sandboxCapability : string;
  jk_harnessHash : string;
  jk_languageVersion : string;
  jk_environmentHash : string
}.
#[export] Instance jdkComparisonKey_eq_dec : EqDecision jdkComparisonKey.
Proof. solve_decision. Defined.
#[export] Program Instance jdkComparisonKey_countable : Countable jdkComparisonKey :=
  inj_countable'
    (fun k => (jk_sampleID k, jk_caseID k, jk_symbol k, jk_packages k, (jk_verifierAdapter k, jk_sandboxCapability k,
               jk_harnessHash k, jk_languageVersion k, jk_environmentHash k)))
    (fun '(a, b, c, d, (e, f, g, h, i)) => mkJDKKey a b c d e f g h i) _.
Next Obligation. by intros []. Qed.

Record jdkStageVerdict := mkJDKVerdict { jv_pass : Z; jv_fail : Z }.
Record jdkRuntimeVerdicts := mkJDKVerdicts { jr_compile : jdkStageVerdict; jr_contract : jdkStageVerdict }.

Definition jdk_verdict_zero : jdkStageVerdict := mkJDKVerdict 0 0.

Definition supportedJDKLines : list string := ["8"; "11"; "17"; "21"; "25"].
Definition CapContainerRun := "CONTAINER_RUN".
Definition StageCompile := "COMPILE".

(** ** Which receipts are comparable *)

(** The loop over the javac arguments: the values of the three options, or
    [None] for an argfile or an option without a value. *)
Fixpoint pinned_options (command : list string) : option (list string * list string * list string) :=
  match command with
  | [] => Some ([], [], [])
  | a :: rest =>
      if HasPrefix a "@" then None
      else if str_in a ["--release"; "-source"; "-target"] then
        match rest with
        | [] => None
        | value :: rest' =>
            match pinned_options rest' with
            | None => None
            | Some (releases, sources, targets) =>
                if String.eqb a "--release" then Some (value :: releases, sources, targets)
                else if String.eqb a "-source" then Some (releases, value :: sources, targets)
                else Some (releases, sources, value :: targets)
            end
        end
      else pinned_options rest
  end.

Definition mavenCommandPinsLanguage (command : list string) (target : string) : bool :=
  match command with
  | tool :: args =>
      if (length command <? 3)%nat || negb (String.eqb tool "javac") then false
      else match pinned_options args with
      | None => false
      | Some (releases, sources, targets) =>
          if negb (Nat.eqb (length releases) 0) then
            match releases with [r] => String.eqb r target | _ => false end
            && Nat.eqb (length sources) 0 && Nat.eqb (length targets) 0
          else if negb (String.eqb target "8") then false
          else match sources, targets with
          | [s], [t] => (String.eqb s "8" || String.eqb s "1.8") && (String.eqb t "8" || String.eqb t "1.8")
          | _, _ => false
          end
      end
  | [] => false
  end.

(** [comparison.RuntimeVersion = ""; comparison.CompilerVersion = ""] *)
Definition clear_jdk_line (e : EnvironmentFingerprint) : EnvironmentFingerprint :=
  mkEnv (env_SchemaVersion e) (env_Ecosystem e) (env_OS e) (env_OSVersionBucket e) (env_Arch e) (env_Runtime e) ""
    (env_Language e) (env_LanguageVersion e) (env_Compiler e) "" (env_PackageManager e) (env_PackageManagerVersion e)
    (env_ModuleSystem e) (env_Frameworks e) (env_ExecutionContext e) (env_BrowserFamily e) (env_BrowserMajor e)
    (env_Engine e) (env_EngineVersion e) (env_Virtualization e) (env_ContainerRuntime e) (env_Libc e) (env_LibcVersion e)
    (env_Distro e) (env_CI e).

(** The first condition of [comparableJDKEnvironment]. *)
Definition jdk_matrix (manifest : SampleManifest) (rec : ReceiptInfo) (env : EnvironmentFingerprint) : bool :=
  str_in (env_RuntimeVersion env) supportedJDKLines
  && negb (env_SchemaVersion env =? 0) && String.eqb (env_Ecosystem env) "maven" && String.eqb (env_OS env) "linux"
  && String.eqb (env_OSVersionBucket env) "2023" && String.eqb (env_Distro env) "amzn" && String.eqb (env_Libc env) "glibc"
  && negb (String.eqb (env_Arch env) "")
  && String.eqb (env_Runtime env) "java" && String.eqb (env_Language env) "java" && String.eqb (env_ExecutionContext env) "java"
  && String.eqb (env_Compiler env) "javac" && String.eqb (env_CompilerVersion env) (env_RuntimeVersion env)
  && negb (String.eqb (env_LanguageVersion env) "") && negb (String.eqb (env_PackageManager env) "")
  && negb (String.eqb (env_PackageManagerVersion env) "")
  && String.eqb (env_Virtualization env) "container" && String.eqb (env_ContainerRuntime env) "docker"
  && String.eqb (ri_SandboxCapability rec) CapContainerRun
  && String.eqb (ri_VerifierAdapter rec) (mf_VerifierAdapter manifest)
  && String.eqb (env_LanguageVersion (mf_Environment manifest)) (env_LanguageVersion env).

(** The switch over the adapter. *)
Definition adapter_pins (manifest : SampleManifest) (rec : ReceiptInfo) (env : EnvironmentFingerprint) : bool :=
  if String.eqb (ri_VerifierAdapter rec) "gradle-java@1" then
    let wantGradle := if String.eqb (env_RuntimeVersion env) "25" then "9.7.0" else "8.14.3" in
    String.eqb (env_PackageManager env) "gradle" && String.eqb (env_PackageManagerVersion env) wantGradle
  else if String.eqb (ri_VerifierAdapter rec) "maven-java@1" then
    String.eqb (env_PackageManager env) "maven" && String.eqb (env_PackageManagerVersion env) "3.9.11"
    && mavenCommandPinsLanguage (mf_BuildCommand manifest) (env_LanguageVersion env)
  else false.

(** The environment and its hash without the JDK line. *)
Definition comparableJDKEnvironment (manifest : SampleManifest) (rec : ReceiptInfo) :
    option (EnvironmentFingerprint * string) :=
  let env := env_Normalize (ri_Env rec) in
  if negb (jdk_matrix manifest rec env) then None
  else if negb (adapter_pins manifest rec env) then None
  else Some (env, env_Hash (clear_jdk_line env)).

Definition exactPackageSet (packages : list PURL) : string :=
  Join (sort_strings (map purl_String packages)) (single nul).

Definition addJDKStageVerdict (v : jdkStageVerdict) (result : string) : jdkStageVerdict :=
  if String.eqb result ResultPass then mkJDKVerdict (wrap64 (jv_pass v + 1)) (jv_fail v)
  else if String.eqb result ResultFail then mkJDKVerdict (jv_pass v) (wrap64 (jv_fail v + 1))
  else v.

Definition unambiguousJDKVerdict (v : jdkStageVerdict) : option (string * Z) :=
  if (0 <? jv_pass v) && (jv_fail v =? 0) then Some (ResultPass, jv_pass v)
  else if (0 <? jv_fail v) && (jv_pass v =? 0) then Some (ResultFail, jv_fail v)
  else None.

(** ** Grouping *)

(** One pass through the innermost loop of the grouping. *)
Record jdkRun := mkJDKRun { jx_key : jdkComparisonKey; jx_runtime : string; jx_compile : string; jx_contract : string }.

Definition jdk_receipt_runs (sd : sampleData) (rec : ReceiptInfo) : list jdkRun :=
  match comparableJDKEnvironment (sd_manifest sd) rec with
  | None => []
  | Some (env, envHash) =>
      if String.eqb (ri_CaseID rec) "" || negb (String.eqb (ri_CaseID rec) (stableSampleCaseID sd))
         || negb (String.eqb (stage (ri_Stages rec) "resolve") ResultPass)
         || Nat.eqb (length (ri_ResolvedPackages rec)) 0 || String.eqb (ri_VerifierAdapter rec) ""
         || String.eqb (ri_SandboxCapability rec) ""
      then []
      else map (fun symbol =>
        mkJDKRun (mkJDKKey (sm_SampleID (sd_row sd)) (stableSampleCaseID sd) symbol (exactPackageSet (ri_ResolvedPackages rec))
                    (ri_VerifierAdapter rec) (ri_SandboxCapability rec) (receiptHarnessHash sd) (env_LanguageVersion env) envHash)
          (env_RuntimeVersion env) (stage (ri_Stages rec) "compile") (stage (ri_Stages rec) "contract"))
        (regressionSymbols sd)
  end.

Definition jdk_runs (samples : list sampleData) : list jdkRun :=
  flat_map (fun sd =>
    if String.eqb (stableSampleCaseID sd) "" || String.eqb (receiptHarnessHash sd) "" then []
    else flat_map (jdk_receipt_runs sd) (sd_receipts sd)) samples.

Definition add_run_verdicts (v : jdkRuntimeVerdicts) (x : jdkRun) : jdkRuntimeVerdicts :=
  mkJDKVerdicts (addJDKStageVerdict (jr_compile v) (jx_compile x))
    (if String.eqb (jx_compile x) ResultPass then addJDKStageVerdict (jr_contract v) (jx_contract x) else jr_contract v).

Notation jdkGroups := (gmap jdkComparisonKey (gmap string jdkRuntimeVerdicts)).

Definition add_run (groups : jdkGroups) (x : jdkRun) : jdkGroups :=
  partial_alter (fun byRuntime => Some (partial_alter (fun v =>
      Some (add_run_verdicts (default (mkJDKVerdicts jdk_verdict_zero jdk_verdict_zero) v) x))
    (jx_runtime x) (default ∅ byRuntime))) (jx_key x) groups.

(** ** Boundaries *)

Section jdk.
Context `{GS : !GoSort} `{GM : !GoMapRange}.

Definition verdicts_of (byRuntime : gmap string jdkRuntimeVerdicts) (v : string) : jdkRuntimeVerdicts :=
  default (mkJDKVerdicts jdk_verdict_zero jdk_verdict_zero) (byRuntime !! v).

(** One stage of one pair of neighbouring lines. *)
Definition stage_boundary (key : jdkComparisonKey) (lowerVersion higherVersion name : string)
    (lower upper : jdkStageVerdict) : list JDKBoundaryCandidate :=
  match unambiguousJDKVerdict lower, unambiguousJDKVerdict upper with
  | Some (lowerResult, lowerCount), Some (higherResult, higherCount) =>
      if String.eqb lowerResult higherResult then []
      else
        let packages := Split (jk_packages key) nul in
        map (fun purl => mkJDKBoundary purl packages (jk_caseID key) (jk_symbol key) name (jk_verifierAdapter key)
               (jk_sandboxCapability key) (jk_harnessHash key) (jk_languageVersion key) lowerVersion higherVersion
               lowerResult higherResult (jk_environmentHash key) lowerCount higherCount) packages
  | _, _ => []
  end.

Definition pair_boundaries (key : jdkComparisonKey) (byRuntime : gmap string jdkRuntimeVerdicts) (v1 v2 : string) :
    list JDKBoundaryCandidate :=
  let lower := verdicts_of byRuntime v1 in
  let higher := verdicts_of byRuntime v2 in
  (stage_boundary key v1 v2 StageCompile (jr_compile lower) (jr_compile higher)
   ++ stage_boundary key v1 v2 StageContract (jr_contract lower) (jr_contract higher))%list.

Fixpoint jdk_loop (key : jdkComparisonKey) (byRuntime : gmap string jdkRuntimeVerdicts) (versions : list string) :
    list JDKBoundaryCandidate :=
  match versions with
  | v1 :: (v2 :: _) as rest => (pair_boundaries key byRuntime v1 v2 ++ jdk_loop key byRuntime rest)%list
  | _ => []
  end.

Definition jb_target (c : JDKBoundaryCandidate) : receiptTarget := mkTarget (jb_Package c) (jb_Symbol c).

Definition jdk_lt (a b : JDKBoundaryCandidate) : bool :=
  if negb (String.eqb (jb_LowerRuntimeVersion a) (jb_LowerRuntimeVersion b))
  then CompareVersions (jb_LowerRuntimeVersion a) (jb_LowerRuntimeVersion b) <? 0
  else if negb (String.eqb (jb_HigherRuntimeVersion a) (jb_HigherRuntimeVersion b))
  then CompareVersions (jb_HigherRuntimeVersion a) (jb_HigherRuntimeVersion b) <? 0
  else if negb (String.eqb (jb_Stage a) (jb_Stage b)) then str_lt (jb_Stage a) (jb_Stage b)
  else if negb (String.eqb (jb_CaseID a) (jb_CaseID b)) then str_lt (jb_CaseID a) (jb_CaseID b)
  else str_lt (jb_EnvironmentHash a) (jb_EnvironmentHash b).

Definition jdkBoundariesFromReceipts (samples : list sampleData) : gmap receiptTarget (list JDKBoundaryCandidate) :=
  from_groups jb_target jdk_lt
    (fun key byRuntime => jdk_loop key byRuntime (sortedMeasuredVersions byRuntime))
    (fold_left add_run (jdk_runs samples) ∅).
End jdk.

(** ** The verdicts count the runs *)

(** The results a stage counts: a contract only after a compile that passed. *)
Definition counted_result (r : string) : bool := String.eqb r ResultPass || String.eqb r ResultFail.

Definition stage_results (contract : bool) (xs : list jdkRun) : list string :=
  List.filter counted_result
    (if contract then map jx_contract (List.filter (fun x => String.eqb (jx_compile x) ResultPass) xs) else map jx_compile xs).

Definition count_of (r : string) (rs : list string) : Z := Z.of_nat (length (List.filter (String.eqb r) rs)).

Definition counts_of (rs : list string) : jdkStageVerdict :=
  mkJDKVerdict (wrap64 (count_of ResultPass rs)) (wrap64 (count_of ResultFail rs)).

Lemma count_of_snoc x rs r : count_of x (rs ++ [r]) = count_of x rs + if String.eqb x r then 1 else 0.
Proof.
  unfold count_of. rewrite List.filter_app, length_app. cbn [List.filter]. destruct (String.eqb x r); cbn [length]; lia.
Qed.

Lemma addJDKStageVerdict_counts rs r :
  addJDKStageVerdict (counts_of rs) r = counts_of (rs ++ if counted_result r then [r] else []).
Proof.
  unfold addJDKStageVerdict, counted_result, counts_of. cbn [jv_pass jv_fail].
  destruct (String.eqb_spec r ResultPass) as [->|N1]; [|destruct (String.eqb_spec r ResultFail) as [->|N2]]; cbn [orb].
  - rewrite !count_of_snoc, wrap64_add_l. change (String.eqb ResultPass ResultPass) with true.
    change (String.eqb ResultFail ResultPass) with false. cbv iota. by rewrite Z.add_0_r.
  - rewrite !count_of_snoc, wrap64_add_l. change (String.eqb ResultPass ResultFail) with false.
    change (String.eqb ResultFail ResultFail) with true. cbv iota. by rewrite Z.add_0_r.
  - by rewrite app_nil_r.
Qed.

Lemma stage_results_snoc b xs x : stage_results b (xs ++ [x]) = (stage_results b xs ++
  if b then (if String.eqb (jx_compile x) ResultPass then (if counted_result (jx_contract x) then [jx_contract x] else []) else [])
  else (if counted_result (jx_compile x) then [jx_compile x] else []))%list.
Proof.
  unfold stage_results. destruct b; rewrite ?List.filter_app, ?map_app, ?List.filter_app; cbn; [|by destruct (counted_result _)].
  by destruct (String.eqb (jx_compile x) ResultPass); cbn; [destruct (counted_result _)|].
Qed.

Lemma run_verdicts xs : fold_left add_run_verdicts xs (mkJDKVerdicts jdk_verdict_zero jdk_verdict_zero)
  = mkJDKVerdicts (counts_of (stage_results false xs)) (counts_of (stage_results true xs)).
Proof.
  induction xs as [|x xs IH] using rev_ind; [done|]. rewrite fold_left_app. cbn [fold_left]. rewrite IH.
  unfold add_run_verdicts. cbn [jr_compile jr_contract]. rewrite !stage_results_snoc, !addJDKStageVerdict_counts.
  by destruct (String.eqb (jx_compile x) ResultPass); [|rewrite app_nil_r].
Qed.

Lemma count_all r rs : count_of r rs = Z.of_nat (length rs) <-> forall r', In r' rs -> r' = r.
Proof.
  unfold count_of. induction rs as [|x rs IH]; [done|]. cbn [List.filter In].
  pose proof (List.filter_length_le (String.eqb r) rs). destruct (String.eqb_spec r x) as [<-|N]; cbn [length].
  - split; [intros E r' [<-|H']; [done|apply IH; [lia|done]]|]. intros A. rewrite Nat2Z.inj_succ, (proj2 IH); [lia|auto].
  - split; [lia|]. intros A. exfalso. apply N. symmetry. apply A. by left.
Qed.

Lemma counts_total rs : Forall (fun r => counted_result r = true) rs ->
  count_of ResultPass rs + count_of ResultFail rs = Z.of_nat (length rs).
Proof.
  unfold count_of. induction 1 as [|x rs Hx F IH]; [done|]. unfold counted_result in Hx. cbn [List.filter].
  apply orb_true_iff in Hx. rewrite !String.eqb_eq in Hx. destruct Hx as [->| ->].
  - change (String.eqb ResultPass ResultPass) with true. change (String.eqb ResultFail ResultPass) with false.
    cbv iota. cbn [length]. lia.
  - change (String.eqb ResultPass ResultFail) with false. change (String.eqb ResultFail ResultFail) with true.
    cbv iota. cbn [length]. lia.
Qed.

Lemma unambiguous_counts rs r n : Forall (fun r => counted_result r = true) rs -> Z.of_nat (length rs) <= int64_max ->
  unambiguousJDKVerdict (counts_of rs) = Some (r, n) <->
  rs <> [] /\ (forall r', In r' rs -> r' = r) /\ (r = ResultPass \/ r = ResultFail) /\ n = Z.of_nat (length rs).
Proof.
  intros F Fit. rewrite <- count_all. pose proof (counts_total rs F) as Sum.
  assert (Z0 : forall x, 0 <= count_of x rs) by (intros; unfold count_of; lia).
  pose proof (Z0 ResultPass) as Zp. pose proof (Z0 ResultFail) as Zf.
  assert (Ne : rs <> [] <-> 0 < Z.of_nat (length rs)) by (destruct rs; cbn; split; (done || lia)). rewrite Ne.
  unfold unambiguousJDKVerdict, counts_of. cbn [jv_pass jv_fail].
  rewrite !wrap64_id by (unfold in_int64, int64_min; lia).
  destruct (Z.ltb_spec 0 (count_of ResultPass rs)), (Z.eqb_spec (count_of ResultFail rs) 0),
    (Z.ltb_spec 0 (count_of ResultFail rs)), (Z.eqb_spec (count_of ResultPass rs) 0); cbn [andb]; try lia;
    (split; [try done; intros [= <- <-]; repeat split; auto; lia|]);
    intros (L & A & [-> | ->] & ->); try lia; repeat f_equal; lia.
Qed.

(** ** What a boundary rests on *)

(** The runs of one comparison on one JDK line, and the result all of them
    have at a stage that counts at least one. *)
Definition runs_on (samples : list sampleData) (key : jdkComparisonKey) (line : string) : list jdkRun :=
  under jx_key jx_runtime key line (jdk_runs samples).

Definition settled_on (samples : list sampleData) (contract : bool) (key : jdkComparisonKey) (line r : string) : Prop :=
  stage_results contract (runs_on samples key line) <> []
  /\ forall r', In r' (stage_results contract (runs_on samples key line)) -> r' = r.

Definition counted_runs (samples : list sampleData) (contract : bool) (key : jdkComparisonKey) (line : string) : Z :=
  Z.of_nat (length (stage_results contract (runs_on samples key line))).

Lemma stage_results_counted b xs : Forall (fun r => counted_result r = true) (stage_results b xs).
Proof. apply List.Forall_forall. intros r H. unfold stage_results in H. by apply List.filter_In in H as []. Qed.

Lemma stage_results_length b xs : (length (stage_results b xs) <= length xs)%nat.
Proof.
  unfold stage_results. etransitivity; [apply List.filter_length_le|]. destruct b; rewrite length_map; [|done].
  apply List.filter_length_le.
Qed.

(** A run comes from a receipt of the pinned matrix. *)
Lemma run_source samples x : In x (jdk_runs samples) ->
  exists sd rec env, In sd samples /\ In rec (sd_receipts sd)
    /\ comparableJDKEnvironment (sd_manifest sd) rec = Some (env, jk_environmentHash (jx_key x))
    /\ jx_runtime x = env_RuntimeVersion env /\ jk_languageVersion (jx_key x) = env_LanguageVersion env
    /\ jk_environmentHash (jx_key x) = env_Hash (clear_jdk_line env)
    /\ jk_packages (jx_key x) = exactPackageSet (ri_ResolvedPackages rec) /\ In (jx_runtime x) supportedJDKLines
    /\ jx_compile x = stage (ri_Stages rec) "compile" /\ jx_contract x = stage (ri_Stages rec) "contract".
Proof.
  intros (sd & Hsd & Hx)%in_flat_map. destruct (_ || _); [done|]. apply in_flat_map in Hx as (rec & Hrec & Hx).
  unfold jdk_receipt_runs in Hx. destruct (comparableJDKEnvironment _ rec) as [[env h]|] eqn:C; [|done].
  destruct (_ || _); [done|]. apply in_map_iff in Hx as (symbol & <- & _). exists sd, rec, env.
  cbn [jx_key jx_runtime jx_compile jx_contract jk_environmentHash jk_languageVersion jk_packages].
  pose proof C as C'. unfold comparableJDKEnvironment in C. destruct (jdk_matrix _ _ _) eqn:J; [|done]. destruct (adapter_pins _ _ _); [|done].
  cbn [negb] in C. injection C as <- <-. do 7 (split; [done|]). split; [|done].
  unfold jdk_matrix in J. repeat (apply andb_true_iff in J as [J _]). by apply str_in_In.
Qed.

Lemma supported_distinct a b : In a supportedJDKLines -> In b supportedJDKLines -> CompareVersions a b = 0 -> a = b.
Proof.
  assert (F : forallb (fun a => forallb (fun b => negb (CompareVersions a b =? 0) || String.eqb a b) supportedJDKLines)
    supportedJDKLines = true) by (vm_compute; reflexivity).
  intros Ha Hb E. rewrite forallb_forall in F. apply F in Ha. rewrite forallb_forall in Ha. apply Ha in Hb.
  rewrite E in Hb. by apply String.eqb_eq.
Qed.

Definition jdk_claim (samples : list sampleData) (contract : bool) (key : jdkComparisonKey) (lower higher r1 r2 purl : string) :
    JDKBoundaryCandidate :=
  mkJDKBoundary purl (Split (jk_packages key) nul) (jk_caseID key) (jk_symbol key) (if contract then StageContract else StageCompile)
    (jk_verifierAdapter key) (jk_sandboxCapability key) (jk_harnessHash key) (jk_languageVersion key) lower higher r1 r2
    (jk_environmentHash key) (counted_runs samples contract key lower) (counted_runs samples contract key higher).

Section jdk_facts.
Context `{GS : !GoSort} `{GM : !GoMapRange} (samples : list sampleData) (Fit : Z.of_nat (length (jdk_runs samples)) <= int64_max).
Context (key : jdkComparisonKey) (byRuntime : gmap string jdkRuntimeVerdicts).
Context (Eg : fold_left add_run (jdk_runs samples) ∅ !! key = Some byRuntime).

Lemma runtime_lookup line : byRuntime !! line =
  match runs_on samples key line with
  | [] => None
  | xs => Some (mkJDKVerdicts (counts_of (stage_results false xs)) (counts_of (stage_results true xs)))
  end.
Proof using Eg.
  pose proof (nested_fold jx_key jx_runtime (fun _ => mkJDKVerdicts jdk_verdict_zero jdk_verdict_zero) add_run_verdicts
    (jdk_runs samples) key line) as N.
  change (nested_at (fold_left add_run (jdk_runs samples) ∅) key line = tallied (fun _ => mkJDKVerdicts jdk_verdict_zero jdk_verdict_zero)
    add_run_verdicts (runs_on samples key line)) in N.
  unfold nested_at in N. rewrite Eg in N. cbn [mbind option_bind] in N. rewrite N. unfold tallied. rewrite run_verdicts.
  by destruct (runs_on samples key line).
Qed.

Lemma In_lines line : In line (sortedMeasuredVersions byRuntime) <-> runs_on samples key line <> [].
Proof using Eg. rewrite In_versions, runtime_lookup. destruct (runs_on samples key line); split; try done; by intros []. Qed.

Lemma verdicts_of_runs line : verdicts_of byRuntime line =
  mkJDKVerdicts (counts_of (stage_results false (runs_on samples key line))) (counts_of (stage_results true (runs_on samples key line))).
Proof using Eg. unfold verdicts_of. rewrite runtime_lookup. by destruct (runs_on samples key line). Qed.

Lemma line_unambiguous contract line r n :
  unambiguousJDKVerdict (counts_of (stage_results contract (runs_on samples key line))) = Some (r, n) <->
  settled_on samples contract key line r /\ (r = ResultPass \/ r = ResultFail) /\ n = counted_runs samples contract key line.
Proof using Fit.
  rewrite unambiguous_counts; [unfold settled_on, counted_runs; tauto|apply stage_results_counted|].
  pose proof (stage_results_length contract (runs_on samples key line)).
  pose proof (List.filter_length_le (fun x => bool_decide (jx_key x = key) && String.eqb (jx_runtime x) line) (jdk_runs samples)).
  unfold runs_on, under in *. lia.
Qed.

Lemma In_stage_boundary (contract : bool) v1 v2 c :
  In c (stage_boundary key v1 v2 (if contract then StageContract else StageCompile)
          (counts_of (stage_results contract (runs_on samples key v1))) (counts_of (stage_results contract (runs_on samples key v2)))) <->
  exists r1 r2 purl, settled_on samples contract key v1 r1 /\ settled_on samples contract key v2 r2 /\ r1 <> r2
    /\ In purl (Split (jk_packages key) nul) /\ c = jdk_claim samples contract key v1 v2 r1 r2 purl.
Proof using Fit.
  unfold stage_boundary. pose proof (line_unambiguous contract v1) as U1. pose proof (line_unambiguous contract v2) as U2. split.
  - destruct (unambiguousJDKVerdict _) as [[r1 n1]|]; [|done]. destruct (unambiguousJDKVerdict _) as [[r2 n2]|]; [|done].
    destruct (proj1 (U1 r1 n1) eq_refl) as (S1 & _ & ->), (proj1 (U2 r2 n2) eq_refl) as (S2 & _ & ->).
    destruct (String.eqb_spec r1 r2) as [|N]; [done|]. intros (purl & <- & Hp)%in_map_iff. by exists r1, r2, purl.
  - intros (r1 & r2 & purl & S1 & S2 & N & Hp & ->).
    assert (R : forall v r, settled_on samples contract key v r -> r = ResultPass \/ r = ResultFail).
    { intros v r [Ne A]. destruct (stage_results contract (runs_on samples key v)) as [|x l] eqn:E; [done|].
      pose proof (stage_results_counted contract (runs_on samples key v)) as C. rewrite E, List.Forall_forall in C.
      rewrite <- (A x) by by left. specialize (C x (or_introl eq_refl)). apply orb_true_iff in C. by rewrite !String.eqb_eq in C. }
    rewrite (proj2 (U1 r1 _) (conj S1 (conj (R v1 r1 S1) eq_refl))), (proj2 (U2 r2 _) (conj S2 (conj (R v2 r2 S2) eq_refl))).
    apply String.eqb_neq in N. rewrite N. apply in_map_iff. by exists purl.
Qed.

Lemma In_jdk_loop vs c : In c (jdk_loop key byRuntime vs) <->
  exists l1 v1 v2 l2, vs = (l1 ++ v1 :: v2 :: l2)%list /\ In c (pair_boundaries key byRuntime v1 v2).
Proof using.
  induction vs as [|x [|y vs] IH].
  - split; [done|]. intros ([|] & ? & ? & ? & E & _); discriminate E.
  - split; [done|]. intros ([|? [|]] & ? & ? & ? & E & _); discriminate E.
  - change (jdk_loop key byRuntime (x :: y :: vs)) with (pair_boundaries key byRuntime x y ++ jdk_loop key byRuntime (y :: vs))%list.
    rewrite in_app_iff, IH. split.
    + intros [H|(l1 & v1 & v2 & l2 & -> & H)]; [by exists [], x, y, vs|by exists (x :: l1), v1, v2, l2].
    + intros ([|z l1] & v1 & v2 & l2 & E & H); [injection E as -> -> ->; by left|].
      injection E as -> E. right. by exists l1, v1, v2, l2.
Qed.

Lemma In_pair_boundaries v1 v2 c : In c (pair_boundaries key byRuntime v1 v2) <->
  exists contract r1 r2 purl, settled_on samples contract key v1 r1 /\ settled_on samples contract key v2 r2 /\ r1 <> r2
    /\ In purl (Split (jk_packages key) nul) /\ c = jdk_claim samples contract key v1 v2 r1 r2 purl.
Proof using Fit Eg.
  unfold pair_boundaries. rewrite !verdicts_of_runs. cbn [jr_compile jr_contract]. rewrite in_app_iff.
  rewrite (In_stage_boundary false), (In_stage_boundary true). split; [intros [H|H]; eauto|].
  intros ([] & H); [by right|by left].
Qed.
End jdk_facts.

(** Neighbouring lines of a comparison. *)
Definition line_between (samples : list sampleData) (key : jdkComparisonKey) (lower higher : string) : Prop :=
  exists v, runs_on samples key v <> [] /\ CompareVersions lower v < 0 /\ CompareVersions v higher < 0.

Section jdk_theorem.
Context `{GS : !GoSort} `{GM : !GoMapRange} (samples : list sampleData).

Lemma line_supported key v : runs_on samples key v <> [] -> In v supportedJDKLines.
Proof.
  unfold runs_on. destruct (under _ _ key v _) as [|x l] eqn:E; [done|]. intros _.
  assert (H : In x (under jx_key jx_runtime key v (jdk_runs samples))) by (rewrite E; by left).
  apply In_under in H as (H & _ & <-). by apply run_source in H as (? & ? & ? & _ & _ & _ & _ & _ & _ & _ & H & _).
Qed.

Lemma settled_on_runs contract key v r : settled_on samples contract key v r -> runs_on samples key v <> [].
Proof. intros [N _] E. rewrite E in N. by destruct contract. Qed.

Lemma lines_strict key v1 v2 : runs_on samples key v1 <> [] -> runs_on samples key v2 <> [] -> v1 <> v2 ->
  CompareVersions v1 v2 <= 0 -> CompareVersions v1 v2 < 0.
Proof.
  intros R1%line_supported R2%line_supported N L. destruct (Z.eq_dec (CompareVersions v1 v2) 0) as [E|]; [|lia].
  by apply supported_distinct in E.
Qed.

End jdk_theorem.

(** ** A boundary between 17 and 21 *)

Definition jdk_env (line : string) : EnvironmentFingerprint :=
  mkEnv 1 "maven" "linux" "2023" "x64" "java" line "java" "17" "javac" line "gradle" "8.14.3" "" [] "java" "" "" "" ""
    "container" "docker" "glibc" "" "amzn" false.

Definition jdk_receipt (line contract : string) : ReceiptInfo :=
  mkReceiptInfo "peer" "case:guava" (jdk_env line) contract
    (<["resolve" := ResultPass]> (<["compile" := ResultPass]> {["contract" := contract]})) ∅
    [mkPURL "maven" "com.google.guava:guava" "33.0.0-jre"] "gradle-java@1" CapContainerRun 1.

Definition jdk_samples : list sampleData :=
  [mkSampleData (mkSampleRow "sample:2" "case:guava" "" "STABLE" "" "MIT-0" 0 fzero 1 false "")
     (mkManifest 1 (mkCase 1 "case:guava" "HOW" "Cache a value" [] [] ∅ [] "") false false [] ["Cache.get"] "" (jdk_env "17")
        "MIT-0" [] (Some ["gradle"; "test"]) "gradle-java@1")
     [] [jdk_receipt "17" ResultPass; jdk_receipt "21" ResultFail]].

Definition jdk_key : jdkComparisonKey :=
  match jdk_runs jdk_samples with x :: _ => jx_key x | [] => mkJDKKey "" "" "" "" "" "" "" "" "" end.

Lemma nothing_between_17_21 : ~ line_between jdk_samples jdk_key "17" "21".
Proof.
  intros (v & Hv%line_supported & B1 & B2). revert B1 B2.
  destruct Hv as [<-|[<-|[<-|[<-|[<-|[]]]]]]; intros B1 B2; vm_compute in B1, B2; discriminate.
Qed.

