(* ===== verification/Clusters.v ===== *)
(** * Failure clusters (internal/compatibility/clusters.go, [BuildClusters])

    The failing observations of one package are grouped by symbol, stage and
    error fingerprint across its versions.  Historical and empty errors have
    no identity of their own and fall into one group per symbol and stage,
    the evidence gap.  The loop ranges over a map of versions, so which row
    of a group is seen first is up to the runtime; the theorem says what does
    not depend on that.  The documents a row of the store holds as JSON text
    are kept as values. *)

From stdpp Require Import gmap.
From S2P Require Import Prelude GoStrings GoStd StringFacts Float Purl Env Failure Boundaries Search Anomaly Measured Upgrade Aggregate.

(** ** Data *)

Record FailureEnvironmentVariant := mkEnvVariant {
  fv_Environment : EnvironmentFingerprint;
  fv_Summary : option (gmap string string);
  fv_Count : Z;
  fv_FirstSeen : string;
  fv_LastSeen : string
}.

Record ClusterRow := mkClusterRow {
  cr_Ecosystem : string;
  cr_PackageName : string;
  cr_Symbol : string;
  cr_Stage : string;
  cr_ErrorFingerprint : string;
  cr_ErrorCode : string;
  cr_TerminationKind : string;
  cr_ExitCode : option Z;
  cr_Signal : string;
  cr_TimeoutMillis : Z;
  cr_ErrorSummary : string;
  cr_EvidenceQuality : string;
  cr_OuterCommands : list string;
  cr_ActualToolchain : string;
  cr_StageEvidence : string;
  cr_FailureEvidenceGap : string;
  cr_ObservationCount : Z;
  cr_EnvSummary : option (gmap string string);
  cr_EnvVariants : list FailureEnvironmentVariant;
  cr_EvidenceBreakdown : gmap string Z;
  cr_Hypotheses : list FailureHypothesis;
  cr_RegressionCandidate : bool;
  cr_DiagnosticCandidate : bool;
  cr_Versions : list string;
  cr_FirstSeen : Z;
  cr_LastSeen : Z
}.

Record ckey := mkCkey { cy_symbol : string; cy_stage : string; cy_fp : string }.
#[export] Instance ckey_eq_dec : EqDecision ckey.
Proof. solve_decision. Defined.
#[export] Program Instance ckey_countable : Countable ckey :=
  inj_countable' (fun k => (cy_symbol k, cy_stage k, cy_fp k)) (fun '(a, b, c) => mkCkey a b c) _.
Next Obligation. by intros []. Qed.

Record variant := mkVariant { va_env : EnvironmentFingerprint; va_count : Z; va_first : Z; va_last : Z }.

Record cluster := mkCluster {
  cl_count : Z;
  cl_code : string;
  cl_termination : string;
  cl_exitCode : option Z;
  cl_signal : string;
  cl_timeout : Z;
  cl_summary : string;
  cl_quality : string;
  cl_toolchain : string;
  cl_stageProof : string;
  cl_gap : string;
  cl_outer : gset string;
  cl_breakdown : gmap string Z;
  cl_failEnvs : list EnvironmentFingerprint;
  cl_variants : gmap string variant;
  cl_versions : gset string;
  cl_first : Z;
  cl_last : Z
}.

(** ** One row *)

(** The group of a failing row: without a modern error it has no fingerprint. *)
Definition row_key (row : EvidenceRow) : ckey :=
  let q := evidenceQuality row in
  mkCkey (ev_Symbol row) (ev_Stage row)
    (if String.eqb q EvidenceMissing || String.eqb q EvidenceLegacyIncomplete then "" else ev_ErrorFingerprint row).

Definition add_commands (row : EvidenceRow) (outer : gset string) : gset string :=
  let outer := fold_left (fun m c => if negb (String.eqb c "") then {[c]} ∪ m else m) (ev_OuterCommands row) outer in
  if Nat.eqb (length (ev_OuterCommands row)) 0 && negb (String.eqb (ev_OuterCommand row) "")
  then {[ev_OuterCommand row]} ∪ outer else outer.

Definition worst_quality (quality q : string) : string :=
  if String.eqb quality "" || String.eqb q EvidenceLegacyIncomplete
     || (String.eqb q EvidenceMissing && negb (String.eqb quality EvidenceLegacyIncomplete)) then q else quality.

Section clusters.
  Context `{GT : !GoTime}.

Definition cluster_zero : cluster :=
  mkCluster 0 "" "" None "" 0 "" "" "" "" "" ∅ ∅ [] ∅ ∅ time_zero time_zero.

Definition first_seen (first at_ : Z) : Z :=
  if (first =? time_zero) || (negb (at_ =? time_zero) && (at_ <? first)) then at_ else first.

Definition add_variant (env : EnvironmentFingerprint) (row : EvidenceRow) (vs : gmap string variant) : gmap string variant :=
  let v := default (mkVariant env 0 (ev_FirstSeen row) (ev_LastSeen row)) (vs !! ev_EnvHash row) in
  <[ev_EnvHash row := mkVariant (va_env v) (wrap64 (va_count v + ev_ObservationCount row))
      (first_seen (va_first v) (ev_FirstSeen row)) (note_last (va_last v) (ev_LastSeen row))]> vs.

Definition add_failure (version : string) (env : EnvironmentFingerprint) (row : EvidenceRow) (c : cluster) : cluster :=
  let q := evidenceQuality row in
  let ended := negb (String.eqb (cl_termination c) "") in
  let tooled := negb (String.eqb (cl_toolchain c) "") in
  mkCluster (wrap64 (cl_count c + ev_ObservationCount row))
    (if String.eqb (cl_code c) "" then ev_ErrorCode row else cl_code c)
    (if ended then cl_termination c else ev_TerminationKind row)
    (if ended then cl_exitCode c else ev_ExitCode row)
    (if ended then cl_signal c else ev_Signal row)
    (if ended then cl_timeout c else ev_TimeoutMillis row)
    (if String.eqb (cl_summary c) "" then ev_ErrorSummary row else cl_summary c)
    (worst_quality (cl_quality c) q)
    (if tooled then cl_toolchain c else ev_ActualToolchain row)
    (if tooled then cl_stageProof c else ev_StageEvidence row)
    (if tooled then cl_gap c else ev_FailureEvidenceGap row)
    (add_commands row (cl_outer c))
    (<[q := wrap64 (default 0 (cl_breakdown c !! q) + ev_ObservationCount row)]> (cl_breakdown c))
    (cl_failEnvs c ++ [env])%list
    (add_variant env row (cl_variants c))
    ({[version]} ∪ cl_versions c)
    (first_seen (cl_first c) (ev_FirstSeen row))
    (note_last (cl_last c) (ev_LastSeen row)).

(** The body of the loop over the rows. *)
Definition visit (st : gmap ckey cluster * gmap (string * string) (list EnvironmentFingerprint))
    (x : string * EvidenceRow) : gmap ckey cluster * gmap (string * string) (list EnvironmentFingerprint) :=
  let '(clusters, passEnvs) := st in
  let '(version, row) := x in
  match parseEnv (ev_EnvJSON row) with
  | None => st
  | Some env =>
      if String.eqb (ev_Result row) ResultPass then
        let pk := (ev_Symbol row, ev_Stage row) in
        (clusters, <[pk := (default [] (passEnvs !! pk) ++ [env])%list]> passEnvs)
      else
        let k := row_key row in
        (<[k := add_failure version env row (default cluster_zero (clusters !! k))]> clusters, passEnvs)
  end.

(** ** The answer *)

Definition regressed (regressions : list RegressionCandidate) (symbol stage version : string) : bool :=
  existsb (fun r => match ParsePURL (rc_Package r) with
                    | Ok p => String.eqb (rc_Symbol r) symbol && String.eqb (rc_Stage r) stage
                              && String.eqb (purl_Version p) version
                    | Err _ => false
                    end) regressions.

Definition ckey_lt (a b : ckey) : bool :=
  if negb (String.eqb (cy_symbol a) (cy_symbol b)) then str_lt (cy_symbol a) (cy_symbol b)
  else if negb (String.eqb (cy_stage a) (cy_stage b)) then str_lt (cy_stage a) (cy_stage b)
  else str_lt (cy_fp a) (cy_fp b).

Definition variant_lt (a b : FailureEnvironmentVariant) : bool :=
  if negb (fv_Count a =? fv_Count b) then fv_Count b <? fv_Count a
  else str_lt (env_Hash (fv_Environment a)) (env_Hash (fv_Environment b)).

Definition variant_item (v : variant) : FailureEnvironmentVariant :=
  mkEnvVariant (va_env v) (envSummary [va_env v]) (va_count v)
    (if va_first v =? time_zero then "" else time_Format (va_first v))
    (if va_last v =? time_zero then "" else time_Format (va_last v)).

Context `{GS : !GoSort} `{GM : !GoMapRange}.

(** The body of the loop over the sorted keys. *)
Definition cluster_row (ecosystem packageName : string) (regressions : list RegressionCandidate) (now : Z)
    (passEnvs : gmap (string * string) (list EnvironmentFingerprint)) (k : ckey) (c : cluster) : ClusterRow :=
  let modernEvidence := String.eqb (cl_quality c) EvidenceComplete || String.eqb (cl_quality c) EvidencePartial in
  let versions := range_order (elements (cl_versions c)) in
  mkClusterRow ecosystem packageName (cy_symbol k) (cy_stage k) (cy_fp k) (cl_code c) (cl_termination c)
    (cl_exitCode c) (cl_signal c) (cl_timeout c) (cl_summary c) (cl_quality c)
    (sort_strings (range_order (elements (cl_outer c)))) (cl_toolchain c) (cl_stageProof c) (cl_gap c) (cl_count c)
    (envSummary (cl_failEnvs c))
    (sort_slice variant_lt (map (fun kv => variant_item kv.2) (range_order (map_to_list (cl_variants c)))))
    (cl_breakdown c)
    (if negb (String.eqb (cy_fp k) "") && modernEvidence
     then Hypotheses (cl_code c) (cl_failEnvs c) (default [] (passEnvs !! (cy_symbol k, cy_stage k))) else [])
    (existsb (regressed regressions (cy_symbol k) (cy_stage k)) versions)
    (negb (String.eqb (cl_gap c) "") || (negb modernEvidence && (2 <=? cl_count c)))
    (sortedVersions versions)
    (if cl_first c =? time_zero then now else cl_first c)
    (if cl_last c =? time_zero then now else cl_last c).

(** The rows in the order the two loops visit them. *)
Definition visited (evidenceByVersion : gmap string (list EvidenceRow)) : list (string * EvidenceRow) :=
  flat_map (fun '(version, rows) => map (pair version) rows) (range_order (map_to_list evidenceByVersion)).

Definition BuildClusters (ecosystem packageName : string) (evidenceByVersion : gmap string (list EvidenceRow))
    (regressions : list RegressionCandidate) (now : Z) : list ClusterRow :=
  let '(clusters, passEnvs) := fold_left visit (visited evidenceByVersion) (∅, ∅) in
  map (fun k => cluster_row ecosystem packageName regressions now passEnvs k (default cluster_zero (clusters !! k)))
    (sort_slice ckey_lt (range_order (map fst (map_to_list clusters)))).
End clusters.

(** ** What the clusters are made of *)

(** A failing row whose environment can be read. *)
Definition fails (x : string * EvidenceRow) : bool :=
  match parseEnv (ev_EnvJSON x.2) with Some _ => negb (String.eqb (ev_Result x.2) ResultPass) | None => false end.

Definition in_cluster (k : ckey) (x : string * EvidenceRow) : bool := fails x && bool_decide (row_key x.2 = k).

(** All rows, with their versions. *)
Definition all_rows (evidenceByVersion : gmap string (list EvidenceRow)) : list (string * EvidenceRow) :=
  flat_map (fun '(version, rows) => map (pair version) rows) (map_to_list evidenceByVersion).

Definition observed_in (xs : list (string * EvidenceRow)) : Z := foldr (fun x n => ev_ObservationCount x.2 + n) 0 xs.

Definition key_of (r : ClusterRow) : ckey := mkCkey (cr_Symbol r) (cr_Stage r) (cr_ErrorFingerprint r).

Lemma observed_in_app xs ys : observed_in (xs ++ ys) = observed_in xs + observed_in ys.
Proof. unfold observed_in. induction xs as [|x xs IH]; cbn; lia. Qed.

Lemma observed_in_perm xs ys : Permutation xs ys -> observed_in xs = observed_in ys.
Proof. unfold observed_in. induction 1; cbn in *; lia. Qed.

Section facts.
  Context `{GT : !GoTime}.

(** The cluster a list of failing rows makes. *)
Definition gathered (xs : list (string * EvidenceRow)) : cluster :=
  fold_left (fun c x => add_failure x.1 (default env_zero (parseEnv (ev_EnvJSON x.2))) x.2 c) xs cluster_zero.

Lemma visit_clusters xs k : fst (fold_left visit xs (∅, ∅)) !! k
  = match List.filter (in_cluster k) xs with [] => None | l => Some (gathered l) end.
Proof.
  induction xs as [|[v row] xs IH] using rev_ind; [apply lookup_empty|].
  rewrite fold_left_app, List.filter_app. cbn [fold_left List.filter].
  destruct (fold_left visit xs (∅, ∅)) as [cs ps]. cbn [fst] in IH. unfold in_cluster at 2, fails, visit. cbn [snd fst].
  destruct (parseEnv (ev_EnvJSON row)) as [env|] eqn:E; [|by rewrite app_nil_r].
  destruct (String.eqb (ev_Result row) ResultPass); [by rewrite app_nil_r|]. cbn [negb andb fst].
  destruct (decide (row_key row = k)) as [<-|N].
  - rewrite lookup_insert_eq, bool_decide_true, IH by done.
    destruct (List.filter (in_cluster (row_key row)) xs) as [|y ys]; cbn [default List.app].
    + unfold gathered. cbn. by rewrite E.
    + f_equal. unfold gathered. rewrite app_comm_cons, (fold_left_app _ (y :: ys)). cbn. by rewrite E.
  - by rewrite lookup_insert_ne, bool_decide_false, app_nil_r by congruence.
Qed.

Lemma gathered_snoc xs x : gathered (xs ++ [x])
  = add_failure x.1 (default env_zero (parseEnv (ev_EnvJSON x.2))) x.2 (gathered xs).
Proof. unfold gathered. by rewrite fold_left_app. Qed.

Lemma gathered_count xs : cl_count (gathered xs) = wrap64 (observed_in xs).
Proof.
  induction xs as [|x xs IH] using rev_ind; [done|]. rewrite gathered_snoc, observed_in_app. cbn [cl_count add_failure].
  rewrite IH, wrap64_add_l. f_equal. unfold observed_in. cbn. lia.
Qed.

Lemma gathered_versions xs v : v ∈ cl_versions (gathered xs) <-> exists row, In (v, row) xs.
Proof.
  induction xs as [|[w row] xs IH] using rev_ind; [cbn; split; [set_solver|intros [? []]]|].
  rewrite gathered_snoc. cbn [cl_versions add_failure fst]. rewrite elem_of_union, elem_of_singleton, IH.
  setoid_rewrite in_app_iff. cbn. split.
  - intros [->|[r I]]; [by exists row; auto|by exists r; auto].
  - intros [r [I|[[= <- <-]|[]]]]; eauto.
Qed.

Lemma worst_quality_legacy a q : worst_quality a q = EvidenceLegacyIncomplete
  <-> a = EvidenceLegacyIncomplete \/ q = EvidenceLegacyIncomplete.
Proof.
  unfold worst_quality. destruct (String.eqb_spec q EvidenceLegacyIncomplete) as [->|Q]; [rewrite orb_true_r; cbn; tauto|].
  rewrite orb_false_r. destruct (String.eqb_spec a "") as [->|A]; cbn [orb]; [split; [done|by intros [|]]|].
  destruct (String.eqb_spec a EvidenceLegacyIncomplete) as [->|L]; [rewrite andb_false_r; tauto|].
  rewrite andb_true_r. destruct (String.eqb q EvidenceMissing); tauto.
Qed.

Lemma gathered_legacy xs : cl_quality (gathered xs) = EvidenceLegacyIncomplete
  <-> exists x, In x xs /\ evidenceQuality x.2 = EvidenceLegacyIncomplete.
Proof.
  induction xs as [|x xs IH] using rev_ind; [split; [done|intros (? & [] & _)]|].
  rewrite gathered_snoc. cbn [cl_quality add_failure]. rewrite worst_quality_legacy, IH. setoid_rewrite in_app_iff. cbn.
  split; [intros [(y & I & E)|E]; eauto|intros (y & [I|[<-|[]]] & E); eauto].
Qed.

Context `{GS : !GoSort} `{GM : !GoMapRange}.

Lemma visited_perm ev : Permutation (visited ev) (all_rows ev).
Proof. unfold visited, all_rows. apply Permutation_flat_map. symmetry. apply range_order_perm. Qed.
End facts.

(** ** Order and conservation *)

Lemma strictly_sorted {GS : GoSort} {A} (cmp : A -> A -> Z) less l : less_of cmp less ->
  (forall x y, cmp x y = 0 -> x = y) -> NoDup l -> StronglySorted (fun a b => less a b = true) (sort_slice less l).
Proof.
  intros Hl E N. pose proof (sort_slice_sorted _ _ _ l Hl) as Srt. destruct Hl as [_ L].
  rewrite (sort_slice_perm _ less l) in N. induction Srt as [|a l' S IH F]; [constructor|].
  apply list.NoDup_cons in N as [Na N]. constructor; [auto|].
  rewrite List.Forall_forall in F |- *. intros b I. rewrite L. apply Z.ltb_lt. pose proof (F b I). destruct (Z.eq_dec (cmp a b) 0) as [Z|]; [|lia].
  apply E in Z as ->. by apply list_elem_of_In in I.
Qed.

Lemma ckey_lt_less : less_of (cmp_fields [cy_symbol; cy_stage; cy_fp]) ckey_lt.
Proof.
  pose proof (fields_lt_less [cy_symbol; cy_stage; cy_fp]) as [O L]. split; [done|]. intros a b. rewrite <- L. done.
Qed.

Lemma ckey_cmp_eq a b : cmp_fields [cy_symbol; cy_stage; cy_fp] a b = 0 -> a = b.
Proof.
  cbn. unfold cmp_then, cmp_on. destruct a as [a1 a2 a3], b as [b1 b2 b3]. cbn.
  destruct (Z.eqb_spec (str_cmp a1 b1) 0) as [->%str_cmp_eq|]; [|done].
  destruct (Z.eqb_spec (str_cmp a2 b2) 0) as [->%str_cmp_eq|]; [|done].
  destruct (Z.eqb_spec (str_cmp a3 b3) 0) as [->%str_cmp_eq|]; done.
Qed.

(** Every failing row is in one cluster of the list. *)
Lemma clusters_partition ks xs : NoDup ks -> (forall x, In x xs -> fails x = true -> In (row_key x.2) ks) ->
  foldr (fun k n => observed_in (List.filter (in_cluster k) xs) + n) 0 ks = observed_in (List.filter fails xs).
Proof.
  intros N. induction xs as [|x xs IH]; intros C; [clear; by induction ks as [|k ks IH]; cbn in *|].
  specialize (IH (fun y I => C y (or_intror I))). cbn [List.filter]. destruct (fails x) eqn:Fx.
  - unfold observed_in at 2. cbn [foldr]. fold (observed_in (List.filter fails xs)). rewrite <- IH.
    specialize (C x (or_introl eq_refl) Fx). clear IH. apply list_elem_of_In in C. revert C. induction N as [|k ks Nk N IH]; [set_solver|].
    intros [E|I]%elem_of_cons; cbn [foldr]; unfold in_cluster at 1; rewrite Fx; cbn [andb].
    + rewrite bool_decide_true by done. unfold observed_in at 1. cbn [foldr]. fold (observed_in (List.filter (in_cluster k) xs)).
      assert (R : forall ks, k ∉ ks ->
        foldr (fun k n => observed_in (if in_cluster k x then x :: List.filter (in_cluster k) xs else List.filter (in_cluster k) xs) + n) 0 ks
        = foldr (fun k n => observed_in (List.filter (in_cluster k) xs) + n) 0 ks).
      { clear -E. induction ks as [|j ks IH]; [done|]. intros [Nj Nk]%not_elem_of_cons. cbn [foldr]. rewrite IH by done.
        unfold in_cluster at 1. rewrite (bool_decide_false (row_key x.2 = j)) by congruence. by rewrite andb_false_r. }
      rewrite (R ks Nk). lia.
    + rewrite bool_decide_false by congruence. rewrite (IH I). lia.
  - rewrite <- IH. clear -Fx. induction ks as [|k ks IH]; [done|]. cbn [foldr]. rewrite IH. unfold in_cluster at 1. by rewrite Fx.
Qed.

Section exact.
  Context `{GT : !GoTime} `{GS : !GoSort} `{GM : !GoMapRange}.
  Context (ecosystem packageName : string) (ev : gmap string (list EvidenceRow)) (regressions : list RegressionCandidate) (now : Z).

#[local] Notation out := (BuildClusters ecosystem packageName ev regressions now).
#[local] Notation clusters := (fst (fold_left visit (visited ev) (∅, ∅))).
#[local] Notation keys := (sort_slice ckey_lt (range_order (map fst (map_to_list clusters)))).

(** The rows of a cluster, in the order they were visited. *)
#[local] Notation members k := (List.filter (in_cluster k) (visited ev)).

Lemma built k c : clusters !! k = Some c -> members k <> [] /\ c = gathered (members k).
Proof. rewrite visit_clusters. destruct (members k); [done|]. by intros [= <-]. Qed.

Lemma In_keys k : In k keys <-> members k <> [].
Proof.
  rewrite <- sort_slice_perm, <- range_order_perm, in_map_iff. split.
  - intros ([k' c] & <- & I). apply list_elem_of_In, elem_of_map_to_list in I. by apply built in I as [? _].
  - intros N. exists (k, gathered (members k)). split; [done|]. apply list_elem_of_In, elem_of_map_to_list.
    rewrite visit_clusters. by destruct (members k).
Qed.

Lemma keys_NoDup : NoDup keys.
Proof. rewrite <- sort_slice_perm, <- range_order_perm. apply NoDup_fst_map_to_list. Qed.

Lemma In_out r : In r out <-> exists k, In k keys
  /\ r = cluster_row ecosystem packageName regressions now (snd (fold_left visit (visited ev) (∅, ∅))) k (gathered (members k)).
Proof.
  unfold BuildClusters. rewrite (surjective_pairing (fold_left visit _ _)), in_map_iff. split.
  - intros (k & <- & I). exists k. split; [done|]. apply In_keys in I. rewrite visit_clusters. by destruct (members k).
  - intros (k & I & ->). exists k. split; [|done]. apply In_keys in I. rewrite visit_clusters. by destruct (members k).
Qed.

Lemma out_keys : map key_of out = keys.
Proof.
  unfold BuildClusters. rewrite (surjective_pairing (fold_left visit _ _)), map_map. etransitivity; [|apply map_id].
  apply map_ext. by intros [].
Qed.

Lemma members_perm k : Permutation (members k) (List.filter (in_cluster k) (all_rows ev)).
Proof. apply filter_perm, visited_perm. Qed.

Lemma In_versions_of c v : In v (sortedVersions (range_order (elements (cl_versions c)))) <-> v ∈ cl_versions c.
Proof.
  unfold sortedVersions. rewrite <- sort_slice_perm, <- range_order_perm, <- list_elem_of_In. apply elem_of_elements.
Qed.

Lemma regressed_spec symbol stage v : regressed regressions symbol stage v = true
  <-> exists r p, In r regressions /\ ParsePURL (rc_Package r) = Ok p /\ rc_Symbol r = symbol /\ rc_Stage r = stage
        /\ purl_Version p = v.
Proof.
  unfold regressed. rewrite existsb_exists. split.
  - intros (r & I & E). destruct (ParsePURL (rc_Package r)) as [p|] eqn:P; [|done]. bool_facts. subst. by exists r, p.
  - intros (r & p & I & P & <- & <- & <-). exists r. split; [done|]. rewrite P, !String.eqb_refl. done.
Qed.

Lemma Hypotheses_not_nil code fs ps : Hypotheses code fs ps <> [].
Proof. unfold Hypotheses. repeat case_match; done. Qed.

Lemma wrap64_sum {A} (f : A -> Z) l : wrap64 (foldr (fun x n => wrap64 (f x) + n) 0 l) = wrap64 (foldr (fun x n => f x + n) 0 l).
Proof.
  induction l as [|x l IH]; [done|]. cbn. rewrite wrap64_add_l, <- wrap64_add_r, IH, wrap64_add_r. done.
Qed.

End exact.
