(* ===== verification/Ingest.v ===== *)
(** * Ingesting observations (internal/serverstore)

    The reference store's evidence: one row of metadata per aggregate key
    beside the delta-merge, the packages it has seen, the version pairs and
    dependency edges scanners reported (coresidence.go, edges.go), what reads
    them back (fake.go, symbolspelling.go), and the purge of the ledger. *)

From stdpp Require Import gmap.
From S2P Require Import Prelude GoStrings GoUnicode GoStd StringFacts UnicodeFacts WordFacts Regexp Calendar Float Hash Json.
From S2P Require Import Purl Env Targets Failure Anomaly Sanitizer Validate Merge Measured Aggregate.

#[local] Open Scope csx_scope.

(** ** Rows *)

Record PackageRow := mkPackageRow {
  pk_PURL : string;
  pk_Ecosystem : string;
  pk_Name : string;
  pk_Version : string;
  pk_Major : string;
  pk_Publicness : string;
  pk_CheckedAt : Z;
  pk_FirstSeen : Z;
  pk_LastSeen : Z
}.

(** [VersionCoresidence]. *)
Record coresidence_pair := mkPair { vc_Lower : string; vc_Higher : string; vc_Projects : Z; vc_Failing : Z }.

Record DependencyEdge := mkEdge {
  de_ParentName : string;
  de_ParentVersion : string;
  de_ChildName : string;
  de_ChildVersion : string;
  de_Projects : Z;
  de_SameReceipt : bool;
  de_Outcome : string
}.

(** Keys: [coresKey], [edgeKey] and the resolved coordinates, as tuples. *)
Definition coresKey : Type := string * string * string * string.
Definition edgeKey : Type := string * string * string * string * string.
Definition coordKey : Type := string * string * string.

(** [fakeAggMeta].  [am_env] is the environment whose canonical JSON the
    source keeps as text. *)
Record fakeAggMeta := mkMeta {
  am_symbolConfidence : string;
  am_env : EnvironmentFingerprint;
  am_errorCode : string;
  am_terminationKind : string;
  am_exitCode : option Z;
  am_signal : string;
  am_timeoutMillis : Z;
  am_errorSummary : string;
  am_evidenceQuality : string;
  am_outerCommands : gset string;
  am_outerStage : string;
  am_actualToolchain : string;
  am_stageEvidence : string;
  am_evidenceGap : string;
  am_direct : bool;
  am_firstSeen : Z;
  am_lastSeen : Z
}.

(** The part of [Fake] that ingest reads and writes. *)
Record ingest_store := mkStore {
  st_merge : mergeState;
  st_aggMeta : gmap aggKey fakeAggMeta;
  st_coresidence : gmap coresKey (gmap string bool);
  st_resolvedNone : gset coordKey;
  st_edges : gmap edgeKey (gset string);
  st_packages : gmap string PackageRow;
  st_lastFarmIngestAt : Z
}.

Definition new_ingest_store : ingest_store := mkStore newMergeState ∅ ∅ ∅ ∅ ∅ zero_time.

(** ** Version pairs and edges *)

Definition orderVersionPair (a b : string) : string * string :=
  let c := CompareVersions a b in
  if (0 <? c) || ((c =? 0) && str_lt b a) then (b, a) else (a, b).

Definition pair_lt (x y : string * string) : bool :=
  if negb (String.eqb (fst x) (fst y)) then str_lt (fst x) (fst y) else str_lt (snd x) (snd y).

(** [coresidencePairs]: the map's keys in any order, then sorted. *)
Definition witnessed_pairs (p : PURL) (coresident : list string) : gset (string * string) :=
  list_to_set (flat_map (fun other =>
    let other := TrimSpace other in
    if String.eqb other "" || String.eqb other (purl_Version p) then []
    else [orderVersionPair (purl_Version p) other]) coresident).

Section go_order.
  Context `{!GoSort, !GoMapRange}.

Definition coresidencePairs (b : ObservationBatch) : list (string * string) :=
  match ParsePURL (b_Package b) with
  | Ok p => if String.eqb (purl_Version p) "" || has_text (b_Symbol b) then []
            else sort_slice pair_lt (range_order (elements (witnessed_pairs p (b_Coresident b))))
  | Err _ => []
  end.

Definition batchNamesAnAttributedFailure (b : ObservationBatch) : bool :=
  String.eqb (b_Result b) ResultFail
  && (String.eqb (b_EvidenceQuality b) EvidenceComplete || String.eqb (b_EvidenceQuality b) EvidencePartial
      || has_text (TrimSpace (b_ErrorCode b))).

Definition edgeClaims (b : ObservationBatch) : list (PURL * PURL) :=
  match ParsePURL (b_Package b) with
  | Err _ => []
  | Ok parent =>
      if String.eqb (purl_Version parent) "" || has_text (b_Symbol b) then []
      else flat_map (fun raw =>
        match ParsePURL raw with
        | Err _ => []
        | Ok child =>
            if String.eqb (purl_Version child) "" || negb (String.eqb (purl_Ecosystem child) (purl_Ecosystem parent)) then []
            else [(parent, child)]
        end) (b_DependsOn b)
  end.

(** ** One batch *)

Definition projectDay (b : ObservationBatch) : string := b_ProjectBucket b +:+ single (chr 31) +:+ b_Epoch b.

Definition touch_package (p : PURL) (now : Z) (pkgs : gmap string PackageRow) : gmap string PackageRow :=
  let canonical := purl_String p in
  match pkgs !! canonical with
  | Some r => <[canonical := mkPackageRow (pk_PURL r) (pk_Ecosystem r) (pk_Name r) (pk_Version r) (pk_Major r) (pk_Publicness r)
                               (pk_CheckedAt r) (pk_FirstSeen r) now]> pkgs
  | None => <[canonical := mkPackageRow canonical (purl_Ecosystem p) (purl_Name p) (purl_Version p) (Major p) "UNKNOWN"
                             zero_time now now]> pkgs
  end.

Definition new_meta (b : ObservationBatch) (now : Z) : fakeAggMeta :=
  mkMeta (if String.eqb (b_SymbolConfidence b) "" then "UNKNOWN" else b_SymbolConfidence b)
    (env_Normalize (b_Environment b)) "" "" None "" 0 "" "" ∅ "" "" "" "" false now zero_time.

(** First value wins, field by field; the two groups are taken whole. *)
Definition first_str (old new : string) : string := if String.eqb old "" then new else old.
Definition update_meta (m : fakeAggMeta) (b : ObservationBatch) (now : Z) : fakeAggMeta :=
  let noTerm := String.eqb (am_terminationKind m) "" in
  let noStage := String.eqb (am_outerStage m) "" in
  mkMeta (am_symbolConfidence m) (am_env m)
    (first_str (am_errorCode m) (b_ErrorCode b))
    (if noTerm then b_TerminationKind b else am_terminationKind m)
    (if noTerm then b_ExitCode b else am_exitCode m)
    (if noTerm then b_Signal b else am_signal m)
    (if noTerm then b_TimeoutMillis b else am_timeoutMillis m)
    (first_str (am_errorSummary m) (b_ErrorSummary b))
    (first_str (am_evidenceQuality m) (normalizedEvidenceQuality b))
    (if has_text (b_OuterCommand b) then {[b_OuterCommand b]} ∪ am_outerCommands m else am_outerCommands m)
    (if noStage then b_OuterStage b else am_outerStage m)
    (if noStage then b_ActualToolchain b else am_actualToolchain m)
    (if noStage then b_StageEvidence b else am_stageEvidence m)
    (if noStage then b_FailureEvidenceGap b else am_evidenceGap m)
    (am_direct m || b_Direct b) (am_firstSeen m) now.

Definition add_pair (b : ObservationBatch) (p : PURL) (m : gmap coresKey (gmap string bool)) (pair : string * string) :
    gmap coresKey (gmap string bool) :=
  let ck := (purl_Ecosystem p, purl_Name p, fst pair, snd pair) in
  let days := default ∅ (m !! ck) in
  <[ck := <[projectDay b := default false (days !! projectDay b) || batchNamesAnAttributedFailure b]> days]> m.

Definition add_edge (b : ObservationBatch) (m : gmap edgeKey (gset string)) (e : PURL * PURL) : gmap edgeKey (gset string) :=
  let '(parent, child) := e in
  let ek := (purl_Ecosystem parent, purl_Name parent, purl_Version parent, purl_Name child, purl_Version child) in
  <[ek := {[projectDay b]} ∪ default ∅ (m !! ek)]> m.

Definition no_purl : PURL := mkPURL "" "" "".

(** [ingestOneLocked]; the batch is already validated. *)
Definition ingestOne (now : Z) (st : ingest_store) (b : ObservationBatch) : ingest_store :=
  let parsed := ParsePURL (b_Package b) in
  let purl := match parsed with Ok p => p | Err _ => no_purl end in
  let k := aggKeyOf b in
  let meta := default (new_meta b now) (st_aggMeta st !! k) in
  let hasProject := has_text (b_ProjectBucket b) in
  mkStore (fst (merge_apply (st_merge st) b))
    (<[k := update_meta meta b now]> (st_aggMeta st))
    (match parsed with
     | Ok p => if hasProject then fold_left (add_pair b p) (coresidencePairs b) (st_coresidence st) else st_coresidence st
     | Err _ => st_coresidence st
     end)
    (match parsed with
     | Ok p => if hasProject && b_DependsOnNone b && String.eqb (b_Symbol b) "" && has_text (purl_Version p)
               then {[(purl_Ecosystem p, purl_Name p, purl_Version p)]} ∪ st_resolvedNone st else st_resolvedNone st
     | Err _ => st_resolvedNone st
     end)
    (if hasProject then fold_left (add_edge b) (edgeClaims b) (st_edges st) else st_edges st)
    (touch_package purl now (st_packages st))
    (if st_lastFarmIngestAt st <? now then now else st_lastFarmIngestAt st).

(** [IngestBatches]: how many were accepted, and the refusals with their
    positions; [clock n] is the [n]-th reading of the clock. *)
Record ingest_result := mkIngest { ir_accepted : Z; ir_rejected : list (Z * batch_error) }.

Fixpoint ingest_loop (clock : nat -> Z) (i : Z) (accepted : nat) (st : ingest_store) (bs : list ObservationBatch) :
    ingest_store * ingest_result :=
  match bs with
  | [] => (st, mkIngest (Z.of_nat accepted) [])
  | b :: bs' =>
      let b := CanonicalizeObservationFailure b in
      match ValidateBatch b with
      | Some e =>
          let '(st', r) := ingest_loop clock (i + 1) accepted st bs' in
          (st', mkIngest (ir_accepted r) ((i, e) :: ir_rejected r))
      | None => ingest_loop clock (i + 1) (S accepted) (ingestOne (clock accepted) st b) bs'
      end
  end.

Definition IngestBatches (clock : nat -> Z) (st : ingest_store) (bs : list ObservationBatch) : ingest_store * ingest_result :=
  ingest_loop clock 0 0 st bs.
End go_order.

(** ** The ledger's retention *)

Definition PurgeDedupOlderThan (now days : Z) (st : ingest_store) : ingest_store * Z :=
  let cutoff := format_day (AddDays now (- days)) in
  let contributions := m_contributions (st_merge st) in
  let kept := filter (fun x => str_lt (ck_epoch (fst x)) cutoff = false) contributions in
  (mkStore (mkMerge kept (m_observations (st_merge st)) (m_peerBuckets (st_merge st)) (m_projectBuckets (st_merge st)))
     (st_aggMeta st) (st_coresidence st) (st_resolvedNone st) (st_edges st) (st_packages st) (st_lastFarmIngestAt st),
   Z.of_nat (size contributions) - Z.of_nat (size kept)).

Definition LastFarmIngestAt (st : ingest_store) : option Z :=
  if is_zero_time (st_lastFarmIngestAt st) then None else Some (st_lastFarmIngestAt st).

(** ** Packages *)

Definition UpsertPackage (now : Z) (p : PackageRow) (pkgs : gmap string PackageRow) : gmap string PackageRow :=
  let publicness := first_str (pk_Publicness p) "UNKNOWN" in
  match pkgs !! pk_PURL p with
  | Some prev =>
      <[pk_PURL p := mkPackageRow (pk_PURL prev) (pk_Ecosystem prev) (pk_Name prev) (pk_Version prev) (pk_Major prev) publicness
                       (pk_CheckedAt p) (pk_FirstSeen prev) now]> pkgs
  | None =>
      <[pk_PURL p := mkPackageRow (pk_PURL p) (pk_Ecosystem p) (pk_Name p) (pk_Version p) (pk_Major p) publicness (pk_CheckedAt p)
                       (if is_zero_time (pk_FirstSeen p) then now else pk_FirstSeen p)
                       (if is_zero_time (pk_LastSeen p) then now else pk_LastSeen p)]> pkgs
  end.

Definition GetPackage (purl : string) (pkgs : gmap string PackageRow) : option PackageRow := pkgs !! purl.

(** ** Reading evidence *)

Definition symbolSpellings (purl symbol : string) : list string :=
  if String.eqb symbol "" then [""]
  else match ParsePURL purl with
  | Err _ => [symbol]
  | Ok p =>
      if String.eqb (purl_Name p) "" then [symbol]
      else
        let qualified := purl_Name p +:+ "." +:+ symbol in
        if String.eqb symbol qualified || HasPrefix symbol (purl_Name p +:+ ".") then [symbol] else [symbol; qualified]
  end.

Definition evidence_row (st : ingest_store) (k : aggKey) (m : fakeAggMeta) : EvidenceRow :=
  let commands := sort_strings (elements (am_outerCommands m)) in
  mkEvidenceRow (ak_PURL k) (ak_Symbol k) (am_symbolConfidence m) (ak_EnvHash k) (Some (am_env m)) (ak_Stage k) (ak_Result k)
    (ak_ErrorFP k) (am_errorCode m) (am_terminationKind m) (am_exitCode m) (am_signal m) (am_timeoutMillis m) (am_errorSummary m)
    (am_evidenceQuality m) (List.hd "" commands) commands (am_outerStage m) (am_actualToolchain m) (am_stageEvidence m)
    (am_evidenceGap m) (default 0 (m_observations (st_merge st) !! k))
    (peakBuckets (m_peerBuckets (st_merge st)) k) (peakBuckets (m_projectBuckets (st_merge st)) k) (am_direct m)
    (am_firstSeen m) (am_lastSeen m).

Definition evidence_lt (a b : EvidenceRow) : bool :=
  if negb (String.eqb (ev_EnvHash a) (ev_EnvHash b)) then str_lt (ev_EnvHash a) (ev_EnvHash b)
  else if negb (String.eqb (ev_Stage a) (ev_Stage b)) then str_lt (ev_Stage a) (ev_Stage b)
  else if negb (String.eqb (ev_Result a) (ev_Result b)) then str_lt (ev_Result a) (ev_Result b)
  else str_lt (ev_ErrorFingerprint a) (ev_ErrorFingerprint b).

Section reads.
  Context `{!GoSort, !GoMapRange}.

Definition EvidenceForTarget (st : ingest_store) (purl symbol : string) : list EvidenceRow :=
  let want := symbolSpellings purl symbol in
  sort_slice evidence_lt
    (map (fun x => evidence_row st (fst x) (snd x))
       (List.filter (fun x => String.eqb (ak_PURL (fst x)) purl && str_in (ak_Symbol (fst x)) want)
          (range_order (map_to_list (st_aggMeta st))))).

Definition EvidenceForTargets (st : ingest_store) (targets : list (string * string)) : gmap (string * string) (list EvidenceRow) :=
  fold_left (fun out t => <[t := EvidenceForTarget st (fst t) (snd t)]> out) targets ∅.

Definition package_newer (a b : PackageRow) : bool :=
  if negb (pk_LastSeen a =? pk_LastSeen b) then pk_LastSeen b <? pk_LastSeen a else str_lt (pk_Version b) (pk_Version a).
Definition ListPackageVersions (pkgs : gmap string PackageRow) (ecosystem name : string) : list PackageRow :=
  sort_slice package_newer
    (List.filter (fun p => String.eqb (pk_Ecosystem p) ecosystem && String.eqb (pk_Name p) name)
       (map snd (range_order (map_to_list pkgs)))).

Definition ListUncheckedPackages (pkgs : gmap string PackageRow) (limit : Z) : list PackageRow :=
  let out := sort_slice (fun a b => pk_FirstSeen a <? pk_FirstSeen b)
    (List.filter (fun p => is_zero_time (pk_CheckedAt p) && String.eqb (pk_Publicness p) "UNKNOWN")
       (map snd (range_order (map_to_list pkgs)))) in
  if (0 <? limit) && (limit <? Z.of_nat (length out)) then firstn (Z.to_nat limit) out else out.

(** ** Reading pairs and edges *)

Definition pair_key (r : coresidence_pair) : string * string := orderVersionPair (vc_Lower r) (vc_Higher r).
Definition fold_pair (m : gmap (string * string) coresidence_pair) (r : coresidence_pair) : gmap (string * string) coresidence_pair :=
  let k := pair_key r in
  let old := default (mkPair "" "" 0 0) (m !! k) in
  <[k := mkPair (fst k) (snd k) (wrap64 (vc_Projects old + vc_Projects r)) (wrap64 (vc_Failing old + vc_Failing r))]> m.

Definition pair_row_lt (a b : coresidence_pair) : bool :=
  if negb (vc_Failing a =? vc_Failing b) then vc_Failing b <? vc_Failing a
  else if negb (vc_Projects a =? vc_Projects b) then vc_Projects b <? vc_Projects a
  else if negb (String.eqb (vc_Lower a) (vc_Lower b)) then str_lt (vc_Lower a) (vc_Lower b)
  else str_lt (vc_Higher a) (vc_Higher b).

Definition canonicalCoresidencePairs (rows : list coresidence_pair) : list coresidence_pair :=
  sort_slice pair_row_lt (map snd (range_order (map_to_list (fold_left fold_pair rows ∅)))).

(** [VersionCoresidence]: the key holds the pair, so each entry of the
    selected library is one row. *)
Definition VersionCoresidence (st : ingest_store) (ecosystem name : string) : list coresidence_pair :=
  canonicalCoresidencePairs
    (flat_map (fun x =>
       let '(eco, nm, lo, hi) := fst x in
       if String.eqb eco ecosystem && String.eqb nm name
       then [mkPair lo hi (Z.of_nat (size (snd x))) (Z.of_nat (size (filter (fun d => snd d = true) (snd x))))]
       else []) (range_order (map_to_list (st_coresidence st)))).

Definition edge_row (x : edgeKey * gset string) : DependencyEdge :=
  let '(_, pn, pv, cn, cv) := fst x in mkEdge pn pv cn cv (Z.of_nat (size (snd x))) false "".

Definition child_edge_lt (a b : DependencyEdge) : bool :=
  if negb (String.eqb (de_ChildVersion a) (de_ChildVersion b)) then str_lt (de_ChildVersion a) (de_ChildVersion b)
  else if negb (de_Projects a =? de_Projects b) then de_Projects b <? de_Projects a
  else if negb (String.eqb (de_ParentName a) (de_ParentName b)) then str_lt (de_ParentName a) (de_ParentName b)
  else str_lt (de_ParentVersion a) (de_ParentVersion b).
Definition sortDependencyEdges (out : list DependencyEdge) : list DependencyEdge := sort_slice child_edge_lt out.

Definition shipped_lt (a b : DependencyEdge) : bool :=
  if negb (String.eqb (de_ParentVersion a) (de_ParentVersion b)) then 0 <? CompareVersions (de_ParentVersion a) (de_ParentVersion b)
  else if negb (de_Projects a =? de_Projects b) then de_Projects b <? de_Projects a
  else if negb (String.eqb (de_ChildName a) (de_ChildName b)) then str_lt (de_ChildName a) (de_ChildName b)
  else str_lt (de_ChildVersion a) (de_ChildVersion b).
Definition sortShippedWith (out : list DependencyEdge) : list DependencyEdge := sort_slice shipped_lt out.

Definition child_of (ecosystem name : string) (x : edgeKey * gset string) : bool :=
  let '(eco, _, _, cn, _) := fst x in String.eqb eco ecosystem && String.eqb cn name.
Definition parent_of (ecosystem name : string) (x : edgeKey * gset string) : bool :=
  let '(eco, pn, _, _, _) := fst x in String.eqb eco ecosystem && String.eqb pn name.

Definition Dependants (st : ingest_store) (ecosystem name : string) : list DependencyEdge :=
  sortDependencyEdges (map edge_row (List.filter (child_of ecosystem name) (range_order (map_to_list (st_edges st))))).
Definition Dependencies (st : ingest_store) (ecosystem name : string) : list DependencyEdge :=
  sortShippedWith (map edge_row (List.filter (parent_of ecosystem name) (range_order (map_to_list (st_edges st))))).
Definition DependencyProvenNone (st : ingest_store) (ecosystem name version : string) : bool :=
  bool_decide ((ecosystem, name, version) ∈ st_resolvedNone st).

(** The project-days on which the fingerprint failed. *)
Definition failing_days (st : ingest_store) (ecosystem name fingerprint : string) : gset string :=
  if String.eqb fingerprint "" then ∅
  else list_to_set (flat_map (fun x =>
    match ParsePURL (ak_PURL (fst x)) with
    | Err _ => []
    | Ok p =>
        if String.eqb (purl_Ecosystem p) ecosystem && String.eqb (purl_Name p) name
           && String.eqb (ak_Result (fst x)) ResultFail && String.eqb (ak_ErrorFP (fst x)) fingerprint
        then flat_map (fun e => flat_map (fun bucket =>
               if has_text bucket then [bucket +:+ single (chr 31) +:+ fst e] else []) (elements (snd e)))
               (map_to_list (snd x))
        else []
    end) (map_to_list (m_projectBuckets (st_merge st)))).

Definition FailureIssueDependencies (st : ingest_store) (ecosystem name fingerprint : string) : list DependencyEdge :=
  let days := failing_days st ecosystem name fingerprint in
  sortShippedWith (map (fun x =>
      let e := edge_row x in
      if existsb (fun d => bool_decide (d ∈ days)) (elements (snd x))
      then mkEdge (de_ParentName e) (de_ParentVersion e) (de_ChildName e) (de_ChildVersion e) (de_Projects e) true "fail"
      else e)
    (List.filter (parent_of ecosystem name) (range_order (map_to_list (st_edges st))))).
End reads.

(** ** The counts of the network

    The part of [NetworkCounts] that reads the evidence. *)

Definition isRunStage (stage : string) : bool := HasPrefix stage "PROJECT".

Record evidence_counts := mkEvidenceCounts {
  nc_Peers : Z; nc_ProjectsMonth : Z; nc_Packages : Z; nc_Observations : Z; nc_Symbols : Z
}.

Definition count_distinct (l : list string) : Z := Z.of_nat (size (list_to_set l : gset string)).

Definition NetworkCounts_evidence (st : ingest_store) (now : Z) : evidence_counts :=
  let epoch := format_day now in
  mkEvidenceCounts
    (count_distinct (flat_map (fun x => if String.eqb (ck_epoch (fst x)) epoch then [ck_bucket (fst x)] else [])
       (map_to_list (m_contributions (st_merge st)))))
    (count_distinct (flat_map (fun x => map fst (map_to_list (snd x))) (map_to_list (m_projectBuckets (st_merge st)))))
    (count_distinct (map (fun x => pk_Ecosystem (snd x) +:+ single (chr 0) +:+ pk_Name (snd x)) (map_to_list (st_packages st))))
    (fold_left (fun acc x => if String.eqb (ak_Symbol (fst x)) "" && isRunStage (ak_Stage (fst x))
                             then wrap64 (acc + default 0 (m_observations (st_merge st) !! fst x)) else acc)
       (map_to_list (st_aggMeta st)) 0)
    (count_distinct (flat_map (fun x => if has_text (ak_Symbol (fst x)) then [ak_Symbol (fst x)] else []) (map_to_list (st_aggMeta st)))).

(** ** What was accepted *)

Definition batch_verdict (b : ObservationBatch) : option batch_error := ValidateBatch (CanonicalizeObservationFailure b).
Definition accepted_batches (bs : list ObservationBatch) : list ObservationBatch :=
  map CanonicalizeObservationFailure (List.filter (fun b => negb (is_some (batch_verdict b))) bs).

Fixpoint refusals (i : Z) (bs : list ObservationBatch) : list (Z * batch_error) :=
  match bs with
  | [] => []
  | b :: bs' => match batch_verdict b with Some e => (i, e) :: refusals (i + 1) bs' | None => refusals (i + 1) bs' end
  end.

Section ingest_facts.
  Context `{!GoSort, !GoMapRange}.

(** The store after a request is the accepted batches ingested one by one. *)
Lemma ingest_loop_spec clock i n st bs :
  ingest_loop clock i n st bs =
  (fst (fold_left (fun x b => (ingestOne (clock (snd x)) (fst x) b, S (snd x))) (accepted_batches bs) (st, n)),
   mkIngest (Z.of_nat (n + length (accepted_batches bs))) (refusals i bs)).
Proof.
  revert i n st. induction bs as [|b bs IH]; intros i n st; [simpl; by rewrite Nat.add_0_r|].
  unfold accepted_batches. cbn [ingest_loop refusals List.filter].
  change (ValidateBatch (CanonicalizeObservationFailure b)) with (batch_verdict b). destruct (batch_verdict b) as [e|].
  - cbn [is_some negb]. rewrite IH. done.
  - cbn [is_some negb map]. rewrite IH. cbn [fold_left]. fold (accepted_batches bs). f_equal.
    cbn [length]. do 2 f_equal. lia.
Qed.

Lemma fold_project {A B C} (f : A -> C -> A) (g : B -> C -> B) (p : A -> B) l a :
  (forall a c, p (f a c) = g (p a) c) -> p (fold_left f l a) = fold_left g l (p a).
Proof. intros Hp. revert a. induction l as [|c l IH]; intros a; [done|]. simpl. by rewrite IH, Hp. Qed.

(** A request merges exactly its valid batches, in order, and reports every
    other one at its position with the reason. *)
Lemma ingest_merges clock st bs :
  st_merge (fst (IngestBatches clock st bs)) = merge_all (st_merge st) (accepted_batches bs)
  /\ ir_accepted (snd (IngestBatches clock st bs)) = Z.of_nat (length (accepted_batches bs))
  /\ ir_rejected (snd (IngestBatches clock st bs)) = refusals 0 bs.
Proof.
  unfold IngestBatches. rewrite ingest_loop_spec. cbn [fst snd ir_accepted ir_rejected]. split; [|done].
  rewrite (fold_project _ (fun m b => fst (merge_apply m b)) (fun x => st_merge (fst x))); [done|]. by intros [] c.
Qed.

Lemma refusals_length i bs : (length (accepted_batches bs) + length (refusals i bs))%nat = length bs.
Proof.
  revert i. induction bs as [|b bs IH]; intros i; [done|]. unfold accepted_batches. cbn [List.filter refusals].
  destruct (batch_verdict b); cbn [is_some negb map length]; fold (accepted_batches bs); rewrite <- (IH (i + 1)); lia.
Qed.

(** ** The rows are the keys that were reported *)

Lemma ingest_meta_keys clock st bs k :
  is_some (st_aggMeta (fst (IngestBatches clock st bs)) !! k)
  = is_some (st_aggMeta st !! k) || existsb (fun b => bool_decide (aggKeyOf b = k)) (accepted_batches bs).
Proof.
  unfold IngestBatches. rewrite ingest_loop_spec. cbn [fst]. generalize O. intros n. revert st n.
  induction (accepted_batches bs) as [|b l IH]; intros st n; [simpl; by rewrite orb_false_r|].
  cbn [fold_left existsb fst snd]. rewrite IH. cbn [ingestOne st_aggMeta].
  destruct (decide (aggKeyOf b = k)) as [<-|N].
  - rewrite lookup_insert_eq, bool_decide_true by done. simpl. by rewrite orb_true_r.
  - rewrite lookup_insert_ne, bool_decide_false by done. done.
Qed.
End ingest_facts.

(** ** Histories *)

Section histories.
  Context `{!GoSort, !GoMapRange}.

(** Requests with the clock each of them read. *)
Definition request : Type := (nat -> Z) * list ObservationBatch.
Definition ingest_all (reqs : list request) : ingest_store :=
  fold_left (fun st r => fst (IngestBatches (fst r) st (snd r))) reqs new_ingest_store.
Definition history (reqs : list request) : list ObservationBatch := flat_map (fun r => accepted_batches (snd r)) reqs.

Lemma ingest_all_snoc reqs r : ingest_all (reqs ++ [r]) = fst (IngestBatches (fst r) (ingest_all reqs) (snd r)).
Proof. unfold ingest_all. by rewrite fold_left_app. Qed.

Lemma history_snoc reqs r : history (reqs ++ [r]) = (history reqs ++ accepted_batches (snd r))%list.
Proof. unfold history. rewrite flat_map_app. simpl. by rewrite app_nil_r. Qed.

Lemma ingest_all_merge reqs : st_merge (ingest_all reqs) = merge_all newMergeState (history reqs).
Proof.
  induction reqs as [|r reqs IH] using rev_ind; [done|]. rewrite ingest_all_snoc, history_snoc.
  rewrite (proj1 (ingest_merges _ _ _)), IH. unfold merge_all. by rewrite fold_left_app.
Qed.

Lemma ingest_all_keys reqs k : is_some (st_aggMeta (ingest_all reqs) !! k) = existsb (fun b => bool_decide (aggKeyOf b = k)) (history reqs).
Proof.
  induction reqs as [|r reqs IH] using rev_ind; [done|]. rewrite ingest_all_snoc, history_snoc, ingest_meta_keys, IH.
  by rewrite existsb_app.
Qed.

Lemma EvidenceForTarget_In st purl symbol row : In row (EvidenceForTarget st purl symbol) <->
  exists k m, st_aggMeta st !! k = Some m /\ ak_PURL k = purl /\ In (ak_Symbol k) (symbolSpellings purl symbol) /\ row = evidence_row st k m.
Proof.
  unfold EvidenceForTarget. rewrite <- (Permutation_in' eq_refl (sort_slice_perm _ evidence_lt _)).
  rewrite in_map_iff. split.
  - intros ([k m] & <- & I). apply filter_In in I as [I Q]. rewrite <- (Permutation_in' eq_refl (range_order_perm _ _)) in I.
    apply list_elem_of_In, elem_of_map_to_list in I. cbn [fst snd] in *. apply andb_true_iff in Q as [P S].
    apply String.eqb_eq in P. unfold str_in in S. apply existsb_exists in S as (x & Ix & Ex%String.eqb_eq).
    exists k, m. by rewrite Ex.
  - intros (k & m & L & P & S & ->). exists (k, m). split; [done|]. apply filter_In. split.
    + rewrite <- (Permutation_in' eq_refl (range_order_perm _ _)). apply list_elem_of_In, elem_of_map_to_list. done.
    + cbn [fst]. rewrite P, String.eqb_refl. simpl. unfold str_in. apply existsb_exists. exists (ak_Symbol k).
      by rewrite String.eqb_refl.
Qed.

(** The aggregate key a row was read from. *)
Definition evidence_key (r : EvidenceRow) : aggKey :=
  mkAggKey (ev_PURL r) (ev_Symbol r) (ev_EnvHash r) (ev_Stage r) (ev_Result r) (ev_ErrorFingerprint r).

Lemma evidence_key_row st k m : evidence_key (evidence_row st k m) = k.
Proof. by destruct k. Qed.

End histories.

(** ** Version pairs are unordered *)

Lemma pair_symmetric a b : orderVersionPair a b = orderVersionPair b a.
Proof.
  unfold orderVersionPair. pose proof (cmp_antisym (cmp := CompareVersions) a b) as A.
  pose proof (cmp_antisym (cmp := CompareVersions) b a) as B.
  destruct (Z.ltb_spec 0 (CompareVersions a b)), (Z.ltb_spec 0 (CompareVersions b a)); try lia.
  - destruct (Z.eqb_spec (CompareVersions b a) 0); [lia|done].
  - destruct (Z.eqb_spec (CompareVersions a b) 0); [lia|done].
  - simpl. destruct (Z.eqb_spec (CompareVersions a b) 0), (Z.eqb_spec (CompareVersions b a) 0); try lia; simpl.
    unfold str_lt. pose proof (cmp_antisym (cmp := str_cmp) a b).
    destruct (Z.ltb_spec (str_cmp b a) 0), (Z.ltb_spec (str_cmp a b) 0); try done; try lia.
    assert (E : str_cmp a b = 0) by lia. apply str_cmp_eq in E. by subst.
Qed.

Lemma ordered_pair a b : let '(lo, hi) := orderVersionPair a b in orderVersionPair lo hi = (lo, hi).
Proof.
  destruct (orderVersionPair a b) as [lo hi] eqn:E. pose proof (pair_symmetric a b) as S. rewrite E in S.
  assert (C : (lo, hi) = (a, b) \/ (lo, hi) = (b, a)) by (rewrite <- E; unfold orderVersionPair; destruct (_ || _); auto).
  destruct C as [[= -> ->]|[= -> ->]]; congruence.
Qed.

(** ** Two counts that are not what they say *)

Definition no_sort : GoSort := sort_by_insertion.

(** Two projects on one day: the distinct project buckets are two, the fake
    counts the epochs, which are one. *)
Definition project_report (project : string) : ObservationBatch :=
  mkBatch 1 "2026-08-13" "anon" project "pkg:npm/axios@1.7.9" "" "" (set_SchemaVersion 1 env_example) "PROJECT_TEST" ResultPass 1
    "" "" "" None "" 0 "" "" "" "" "" "" "" false [] [] false.

Lemma project_reports_accepted : accepted_batches [project_report "p1"; project_report "p2"] = [project_report "p1"; project_report "p2"]
  /\ accepted_batches [project_report "p1"] = [project_report "p1"].
Proof. split; unfold accepted_batches; cbn [List.filter]; by vm_compute. Qed.

Theorem projects_month_counts_epochs :
  let st := @ingest_all no_sort range_in_order [(fun _ => 0, [project_report "p1"; project_report "p2"])] in
  nc_ProjectsMonth (NetworkCounts_evidence st 0) = 1
  /\ peakBuckets (m_projectBuckets (st_merge st)) (aggKeyOf (project_report "p1")) = 2.
Proof.
  cbv zeta. unfold NetworkCounts_evidence. cbn [nc_ProjectsMonth]. rewrite ingest_all_merge. unfold history. cbn [flat_map snd].
  rewrite (proj1 project_reports_accepted). cbn [app]. unfold merge_all. cbn [fold_left]. rewrite !apply_state.
  cbn [m_projectBuckets newMergeState]. change (aggKeyOf (project_report "p2")) with (aggKeyOf (project_report "p1")).
  generalize (aggKeyOf (project_report "p1")). intros k. split.
  - assert (E : addBucket (addBucket ∅ k "2026-08-13" "p1") k "2026-08-13" "p2" = {[k := {["2026-08-13" := {["p2"]} ∪ {["p1"]}]}]}).
    { apply map_eq. intros j. rewrite !addBucket_lookup. destruct (decide (k = k)) as [_|]; [|done]. destruct (decide (k = j)) as [->|N].
      - rewrite lookup_singleton_eq, lookup_empty. cbn [default from_option id]. rewrite lookup_insert_eq, lookup_empty, insert_insert_eq.
        cbn [default from_option id]. rewrite insert_empty. by rewrite (union_empty_r_L {["p1"]}).
      - by rewrite lookup_empty, lookup_singleton_ne. }
    cbn [project_report b_Epoch b_ProjectBucket]. rewrite E, map_to_list_singleton. vm_compute. reflexivity.
  - unfold peakBuckets. rewrite !addBucket_lookup, !decide_True by done. rewrite lookup_empty. vm_compute. reflexivity.
Qed.

(** The purge removes exactly the entries of the days before the cutoff, and
    leaves every count and every bucket as it was. *)
Theorem purge_exact now days st ck d : plain_day (day_of now - days) -> plain_date d -> ck_epoch ck = format_date d ->
  let st' := fst (PurgeDedupOlderThan now days st) in
  m_contributions (st_merge st') !! ck
    = (if day_of_date d <? day_of now - days then None else m_contributions (st_merge st) !! ck)
  /\ m_observations (st_merge st') = m_observations (st_merge st)
  /\ m_peerBuckets (st_merge st') = m_peerBuckets (st_merge st)
  /\ m_projectBuckets (st_merge st') = m_projectBuckets (st_merge st).
Proof.
  intros Pn Pd E. cbv zeta. unfold PurgeDedupOlderThan. cbn [fst st_merge m_contributions m_observations m_peerBuckets m_projectBuckets].
  split; [|done]. assert (C : str_lt (ck_epoch ck) (format_day (AddDays now (- days))) = (day_of_date d <? day_of now - days)).
  { rewrite E. unfold format_day. rewrite day_of_AddDays. replace (day_of now + - days) with (day_of now - days) by lia.
    rewrite date_text_order by (try apply plain_day_date; done). by rewrite (proj2 (day_of_date_of_day _)). }
  destruct (m_contributions (st_merge st) !! ck) as [v|] eqn:L.
  - destruct (day_of_date d <? day_of now - days).
    + apply map_lookup_filter_None. right. intros v' Hv. cbn [fst]. by rewrite C.
    + apply map_lookup_filter_Some. split; [done|]. done.
  - destruct (day_of_date d <? day_of now - days); apply map_lookup_filter_None; by left.
Qed.

Lemma purge_exact_witness :
  let b := project_report "p1" in
  let st := @ingest_all no_sort range_in_order [(fun _ => 0, [b])] in
  m_contributions (st_merge (fst (PurgeDedupOlderThan (21000 * ns_per_day) 30 st))) !! contribKeyOf b = None.
Proof.
  cbv zeta. rewrite (proj1 (purge_exact (21000 * ns_per_day) 30 _ (contribKeyOf (project_report "p1")) (mkDate 2026 8 13)
    ltac:(vm_compute; split; discriminate) ltac:(vm_compute; split; [reflexivity|split; discriminate]) eq_refl)).
  change (day_of_date (mkDate 2026 8 13) <? day_of (21000 * ns_per_day) - 30) with true. reflexivity.
Defined.

(** A batch that is sent again after the purge of its ledger entry adds its
    whole count a second time. *)
Theorem purged_resend_counts_again :
  let b := project_report "p1" in
  let clock := fun _ : nat => 20680 * ns_per_day in
  let st := @ingest_all no_sort range_in_order [(clock, [b])] in
  let purged := fst (PurgeDedupOlderThan (21000 * ns_per_day) 30 st) in
  let again := fst (@IngestBatches no_sort range_in_order clock purged [b]) in
  m_observations (st_merge st) !! aggKeyOf b = Some 1 /\ m_observations (st_merge again) !! aggKeyOf b = Some 2.
Proof.
  cbv zeta. set (clock := fun _ : nat => _). set (st := ingest_all _).
  assert (M : m_observations (st_merge st) = {[aggKeyOf (project_report "p1") := 1]}).
  { subst st. rewrite ingest_all_merge. unfold history. cbn [flat_map snd]. rewrite (proj2 project_reports_accepted). cbn [app].
    unfold merge_all. cbn [fold_left]. rewrite apply_state. cbn [m_observations newMergeState m_contributions].
    unfold obs_add. rewrite !lookup_empty. by rewrite insert_empty. }
  split; [by rewrite M, lookup_singleton_eq|].
  pose proof (purge_exact (21000 * ns_per_day) 30 st (contribKeyOf (project_report "p1")) (mkDate 2026 8 13)
    ltac:(vm_compute; split; discriminate) ltac:(vm_compute; split; [reflexivity|split; discriminate]) eq_refl) as [P [Q _]].
  rewrite (proj1 (@ingest_merges no_sort range_in_order clock (fst (PurgeDedupOlderThan (21000 * ns_per_day) 30 st)) [project_report "p1"])).
  rewrite (proj2 project_reports_accepted). unfold merge_all. cbn [fold_left].
  rewrite apply_state. cbn [m_observations]. rewrite P, Q, M. unfold obs_add. rewrite lookup_singleton_eq, lookup_insert_eq.
  change (day_of_date (mkDate 2026 8 13) <? day_of (21000 * ns_per_day) - 30) with true. reflexivity.
Qed.

(** ** Everything stored is typed *)

Record key_ok (k : aggKey) : Prop := {
  ko_purl : exists p, ak_PURL k = purl_String p /\ admitted_purl p = true;
  ko_stage : In (ak_Stage k) ingestStages;
  ko_result : ak_Result k = ResultPass \/ ak_Result k = ResultFail;
  ko_symbol : str_len (ak_Symbol k) <= 512;
  ko_fingerprint : ak_ErrorFP k = "" \/ validSHA256ID (ak_ErrorFP k) = true
}.

Record meta_ok (k : aggKey) (m : fakeAggMeta) : Prop := {
  mo_confidence : In (am_symbolConfidence m) ["EXACT"; "PROBABLE"; "UNKNOWN"];
  mo_code : str_len (am_errorCode m) <= 64 /\ str_forall code_byte (am_errorCode m) = true;
  mo_commands : forall c, c ∈ am_outerCommands m -> c <> "" /\ str_len c <= 128 /\ validOuterCommand c = true;
  mo_quality : am_evidenceQuality m = "" <-> ak_Result k = ResultPass
}.

Record store_wf (st : ingest_store) : Prop := {
  wf_rows : forall k m, st_aggMeta st !! k = Some m -> key_ok k /\ meta_ok k m;
  wf_pairs : forall eco name lo hi, is_Some (st_coresidence st !! (eco, name, lo, hi)) -> lo <> hi /\ orderVersionPair lo hi = (lo, hi);
  wf_none : forall eco name version, (eco, name, version) ∈ st_resolvedNone st -> version <> "";
  wf_edges : forall eco pn pv cn cv, is_Some (st_edges st !! (eco, pn, pv, cn, cv)) -> pv <> "" /\ cv <> ""
}.

Lemma key_of_valid b : ValidateBatch b = None -> key_ok (aggKeyOf b).
Proof.
  intros V. destruct (accepted_batch_typed_facts b V) as (p & d & T). pose proof (tb_purl _ _ _ T) as [P A].
  unfold aggKeyOf. rewrite P. split; cbn [ak_PURL ak_Stage ak_Result ak_Symbol ak_ErrorFP].
  - by exists p.
  - by apply (tb_stage _ _ _ T).
  - by apply (tb_result _ _ _ T).
  - by apply (tb_symbol _ _ _ T).
  - destruct (tb_fingerprint _ _ _ T) as [|H]; [by left|]. right. by apply validSHA256ID_ok.
Qed.

Lemma quality_of_valid b : ValidateBatch b = None -> (normalizedEvidenceQuality b = "" <-> b_Result b = ResultPass).
Proof.
  intros V. destruct (accepted_batch_typed_facts b V) as (p & d & T). unfold normalizedEvidenceQuality.
  destruct (tb_result _ _ _ T) as [-> | ->]; simpl; [done|]. change (String.eqb ResultFail ResultFail) with true. cbn [negb].
  split; [|done]. destruct (String.eqb_spec (b_EvidenceQuality b) ""); [done|]. done.
Qed.

Lemma update_meta_ok k b now m : ValidateBatch b = None -> k = aggKeyOf b ->
  (m = new_meta b now \/ meta_ok k m) -> meta_ok k (update_meta m b now).
Proof.
  intros V -> M. destruct (accepted_batch_typed_facts b V) as (p & d & T).
  pose proof (tb_evidence _ _ _ T) as Ev. pose proof (quality_of_valid b V) as Q.
  assert (Rk : ak_Result (aggKeyOf b) = b_Result b) by done.
  assert (C : forall c, c ∈ (if has_text (b_OuterCommand b) then {[b_OuterCommand b]} ∪ am_outerCommands m else am_outerCommands m) ->
    (c = b_OuterCommand b /\ c <> "") \/ c ∈ am_outerCommands m).
  { intros c. destruct (has_text (b_OuterCommand b)) eqn:N; [|by right]. apply has_text_spec in N.
    intros [->%elem_of_singleton|]%elem_of_union; [by left|by right]. }
  destruct M as [->|[M1 M2 M3 M4]]; split.
  - cbn. pose proof (tb_confidence _ _ _ T) as [->|I]; [simpl; tauto|]. destruct (String.eqb_spec (b_SymbolConfidence b) ""); [simpl; tauto|done].
  - cbn. apply (tb_code _ _ _ T).
  - intros c Hc. apply C in Hc as [[-> N]|Hc]; [|set_solver]. split; [done|]. apply (ev_command _ Ev).
  - cbn [update_meta am_evidenceQuality new_meta]. rewrite Rk. exact Q.
  - exact M1.
  - cbn [update_meta am_errorCode]. unfold first_str. destruct (String.eqb_spec (am_errorCode m) ""); [apply (tb_code _ _ _ T)|done].
  - intros c Hc. apply C in Hc as [[-> N]|Hc]; [|by apply M3]. split; [done|]. apply (ev_command _ Ev).
  - cbn [update_meta am_evidenceQuality]. unfold first_str. destruct (String.eqb_spec (am_evidenceQuality m) "") as [E|N]; [|done].
    rewrite Rk. exact Q.
Qed.

Section store_invariant.
  Context `{!GoSort, !GoMapRange}.

Lemma fold_add_pair_keys b p l m eco name lo hi : is_Some (fold_left (add_pair b p) l m !! (eco, name, lo, hi)) ->
  is_Some (m !! (eco, name, lo, hi)) \/ In (lo, hi) l.
Proof.
  revert m. induction l as [|[l0 h0] l IH]; intros m I; [by left|]. cbn [fold_left] in I. apply IH in I as [I|I]; [|by right; right].
  unfold add_pair in I. cbn [fst snd] in I.
  destruct (decide ((purl_Ecosystem p, purl_Name p, l0, h0) = (eco, name, lo, hi))) as [[= _ _ -> ->]|N]; [by right; left|].
  rewrite lookup_insert_ne in I by done. by left.
Qed.

Lemma coresidencePairs_ok b lo hi : In (lo, hi) (coresidencePairs b) -> lo <> hi /\ orderVersionPair lo hi = (lo, hi).
Proof.
  unfold coresidencePairs. destruct (ParsePURL (b_Package b)) as [p|]; [|done]. destruct (_ || _); [done|].
  rewrite <- (Permutation_in' eq_refl (sort_slice_perm _ _ _)), <- (Permutation_in' eq_refl (range_order_perm _ _)).
  intros I. apply list_elem_of_In, elem_of_elements in I. unfold witnessed_pairs in I.
  apply elem_of_list_to_set, list_elem_of_In, in_flat_map in I as (o & _ & I).
  destruct (String.eqb_spec (TrimSpace o) ""); [done|]. destruct (String.eqb_spec (TrimSpace o) (purl_Version p)) as [|N]; [done|].
  destruct I as [E|[]]. pose proof (ordered_pair (purl_Version p) (TrimSpace o)) as O. rewrite E in O. split; [|done]. intros ->.
  unfold orderVersionPair in E. destruct (_ || _) in E; injection E as E1 E2; congruence.
Qed.

Lemma fold_add_edge_keys b l m eco pn pv cn cv : is_Some (fold_left (add_edge b) l m !! (eco, pn, pv, cn, cv)) ->
  is_Some (m !! (eco, pn, pv, cn, cv)) \/ exists parent child, In (parent, child) l /\ purl_Version parent = pv /\ purl_Version child = cv.
Proof.
  revert m. induction l as [|[p0 c0] l IH]; intros m I; [by left|]. cbn [fold_left] in I.
  apply IH in I as [I|(p & c & I & Ep & Ec)]; [|right; exists p, c; by split; [right|]].
  unfold add_edge in I.
  destruct (decide ((purl_Ecosystem p0, purl_Name p0, purl_Version p0, purl_Name c0, purl_Version c0) = (eco, pn, pv, cn, cv))) as [[= _ _ E1 _ E2]|N].
  - right. exists p0, c0. by split; [left|].
  - rewrite lookup_insert_ne in I by done. by left.
Qed.

Lemma edgeClaims_ok b parent child : In (parent, child) (edgeClaims b) -> purl_Version parent <> "" /\ purl_Version child <> "".
Proof.
  unfold edgeClaims. destruct (ParsePURL (b_Package b)) as [p|]; [|done].
  destruct (String.eqb_spec (purl_Version p) ""); [done|]. destruct (has_text (b_Symbol b)); [done|]. simpl.
  intros (raw & _ & I)%in_flat_map. destruct (ParsePURL raw) as [c|]; [|done].
  destruct (String.eqb_spec (purl_Version c) ""); [done|]. destruct (negb _); [done|]. simpl in I. destruct I as [[= <- <-]|[]]. done.
Qed.

Lemma ingestOne_wf now st b : ValidateBatch b = None -> store_wf st -> store_wf (ingestOne now st b).
Proof.
  intros V [R P N E]. split; cbn [ingestOne st_aggMeta st_coresidence st_resolvedNone st_edges].
  - intros k m L. destruct (decide (aggKeyOf b = k)) as [<-|Nk].
    + rewrite lookup_insert_eq in L. injection L as <-. split; [by apply key_of_valid|]. apply update_meta_ok; [done|done|].
      destruct (st_aggMeta st !! aggKeyOf b) as [m|] eqn:Lm; [right; by apply R|by left].
    + rewrite lookup_insert_ne in L by done. by apply R.
  - intros eco name lo hi I. destruct (ParsePURL (b_Package b)) as [p|]; [|by eapply P]. destruct (has_text _); [|by eapply P].
    apply fold_add_pair_keys in I as [I|I]; [by eapply P|by eapply coresidencePairs_ok].
  - intros eco name v I. destruct (ParsePURL (b_Package b)) as [p|]; [|by eapply N].
    destruct (_ && _) eqn:B; [|by eapply N]. apply elem_of_union in I as [I|I]; [|by eapply N].
    apply elem_of_singleton in I. injection I as -> -> ->. apply andb_true_iff in B as [_ B]. by apply has_text_spec.
  - intros eco pn pv cn cv I. destruct (has_text _); [|by eapply E].
    apply fold_add_edge_keys in I as [I|(p & c & I & <- & <-)]; [by eapply E|by eapply edgeClaims_ok].
Qed.

Lemma accepted_valid bs : Forall (fun b => ValidateBatch b = None) (accepted_batches bs).
Proof.
  unfold accepted_batches. apply List.Forall_forall. intros b (b0 & <- & I)%in_map_iff. apply filter_In in I as [_ I].
  unfold batch_verdict in I. by destruct (ValidateBatch (CanonicalizeObservationFailure b0)).
Qed.

(** C26.  The store is typed, whatever is sent: every row's coordinate, stage,
    result and fingerprint, every retained command and code, every version
    pair and every edge, after any requests. *)
Theorem stored_evidence_typed clock st bs : store_wf st -> store_wf (fst (IngestBatches clock st bs)).
Proof.
  unfold IngestBatches. rewrite ingest_loop_spec. cbn [fst]. pose proof (accepted_valid bs) as A. generalize O. intros n. revert st n.
  induction A as [|b l V _ IH]; intros st n W; [done|]. cbn [fold_left fst snd]. apply IH. by apply ingestOne_wf.
Qed.
End store_invariant.

Lemma new_store_wf : store_wf new_ingest_store.
Proof. split; cbn; intros *; try (by intros [? [=]]); try done; set_solver. Qed.

Lemma stored_evidence_typed_witness :
  store_wf (fst (@IngestBatches no_sort range_in_order (fun _ => 0) new_ingest_store [project_report "p1"; fail_batch])).
Proof. apply stored_evidence_typed, new_store_wf. Defined.
