(* ===== verification/Evidence.v ===== *)
(** * The evidence endpoint (internal/httpapi/evidence.go)

    POST /v1/evidence/batches: each batch is validated, gated on the
    publicness of its package, stripped of edges to packages that are not
    public, and merged by the store.  The registry checker is a parameter;
    its answers may change from one lookup to the next. *)

From stdpp Require Import gmap.
From S2P Require Import Prelude GoStrings GoUnicode GoStd StringFacts UnicodeFacts WordFacts Regexp Calendar Float Hash Json.
From S2P Require Import Purl Env Targets Failure Anomaly Sanitizer Validate Merge Measured Aggregate Ingest.

(** ** Replies *)

Inductive reject_reason :=
| ReasonInvalid (e : batch_error)
| ReasonNotPublic (status : string)
| ReasonUndetermined (status : string).

Record RejectedBatch := mkRejected {
  rb_Index : Z;
  rb_Reason : reject_reason;
  rb_Code : string;
  rb_Terminal : bool
}.

Definition RejectInvalidBatch : string := "invalid-batch".
Definition RejectNotPublic : string := "not-public".
Definition RejectPublicnessUnknown : string := "publicness-unknown".

Definition PublicnessPublic : string := "PUBLIC".
Definition PublicnessPrivate : string := "PRIVATE".
Definition PublicnessUnknown : string := "UNKNOWN".

Definition maxBatchesPerRequest : Z := 500.
Definition maxRegistryLookupsPerRequest : Z := 20.

Inductive evidence_reply :=
| BadRequest
| EvidenceAccepted (accepted : Z) (rejected : list RejectedBatch).

(** ** Publicness *)

Definition publicTargetPublicness (p : PURL) : string := if IsWantedTarget p then PublicnessPublic else PublicnessUnknown.

(** [PublicnessChecker], and [CachedPublicnessChecker] where [pc_cached] is
    there; the number says which call of the request it is. *)
Record publicness_checker := mkChecker {
  pc_cached : option (Z -> PURL -> option string);
  pc_check : Z -> PURL -> string
}.

(** The variables of the closure [publicness]. *)
Record gate_state := mkGate { g_seen : gmap string string; g_lookups : Z }.

Section gate.
  Context (checker : option publicness_checker).

Definition publicness (g : gate_state) (p : PURL) : string * gate_state :=
  if String.eqb (publicTargetPublicness p) PublicnessPublic then (PublicnessPublic, g)
  else match checker with
  | None => (PublicnessUnknown, g)
  | Some c =>
      let key := purl_String p in
      let seen := default "" (g_seen g !! key) in
      if has_text seen then (seen, g)
      else
        match (match pc_cached c with Some cached => cached (g_lookups g) p | None => None end) with
        | Some status => (status, mkGate (<[key := status]> (g_seen g)) (g_lookups g))
        | None =>
            if maxRegistryLookupsPerRequest <=? g_lookups g then (PublicnessUnknown, g)
            else
              let status := pc_check c (g_lookups g) p in
              (status, mkGate (<[key := status]> (g_seen g)) (g_lookups g + 1))
        end
  end.

Fixpoint publicDependsOn (g : gate_state) (edges : list string) : list string * gate_state :=
  match edges with
  | [] => ([], g)
  | raw :: edges' =>
      match ParsePURL raw with
      | Err _ => publicDependsOn g edges'
      | Ok child =>
          let '(status, g) := publicness g child in
          let '(out, g) := publicDependsOn g edges' in
          (if String.eqb status PublicnessPublic then raw :: out else out, g)
      end
  end.

Definition set_DependsOn (edges : list string) (b : ObservationBatch) : ObservationBatch :=
  mkBatch (b_SchemaVersion b) (b_Epoch b) (b_AnonID b) (b_ProjectBucket b) (b_Package b) (b_Symbol b)
    (b_SymbolConfidence b) (b_Environment b) (b_Stage b) (b_Result b) (b_ObservationCount b)
    (b_ErrorFingerprint b) (b_ErrorCode b) (b_TerminationKind b) (b_ExitCode b) (b_Signal b) (b_TimeoutMillis b)
    (b_ErrorSummary b) (b_EvidenceQuality b) (b_OuterCommand b) (b_OuterStage b) (b_ActualToolchain b)
    (b_StageEvidence b) (b_FailureEvidenceGap b) (b_Direct b) (b_Coresident b) edges (b_DependsOnNone b).

(** The refusal of a package that is not known to be public. *)
Definition refuse_publicness (i : Z) (status : string) : RejectedBatch :=
  if negb (String.eqb status PublicnessPrivate)
  then mkRejected i (ReasonUndetermined status) RejectPublicnessUnknown false
  else mkRejected i (ReasonNotPublic status) RejectNotPublic true.

(** What the gate does with one batch. *)
Definition gate_batch (trust : bool) (g : gate_state) (i : Z) (b : ObservationBatch) :
    (RejectedBatch + ObservationBatch) * gate_state :=
  match ValidateBatch b with
  | Some e => (inl (mkRejected i (ReasonInvalid e) RejectInvalidBatch true), g)
  | None =>
      if trust then (inr b, g)
      else
        let p := match ParsePURL (b_Package b) with Ok p => p | Err _ => no_purl end in
        let '(status, g) := publicness g p in
        if negb (String.eqb status PublicnessPublic) then (inl (refuse_publicness i status), g)
        else
          let '(edges, g) := publicDependsOn g (b_DependsOn b) in
          (inr (set_DependsOn edges b), g)
  end.

(** The loop: the refusals, the kept batches with their positions. *)
Fixpoint gate_loop (trust : bool) (g : gate_state) (i : Z) (bs : list ObservationBatch) :
    list RejectedBatch * list (Z * ObservationBatch) * gate_state :=
  match bs with
  | [] => ([], [], g)
  | b :: bs' =>
      let '(v, g) := gate_batch trust g i b in
      let '(rejected, keep, g) := gate_loop trust g (i + 1) bs' in
      match v with
      | inl r => (r :: rejected, keep, g)
      | inr b => (rejected, (i, b) :: keep, g)
      end
  end.
End gate.

Definition gate_start : gate_state := mkGate ∅ 0.

Section handler.
  Context `{!GoSort, !GoMapRange}.

(** The store's refusals carry no code. *)
Definition store_refusal (keep : list (Z * ObservationBatch)) (r : Z * batch_error) : RejectedBatch :=
  mkRejected (fst (nth (Z.to_nat (fst r)) keep (0, pass_batch))) (ReasonInvalid (snd r)) "" false.

(** [handleEvidenceBatches], after decoding. *)
Definition handleEvidenceBatches (checker : option publicness_checker) (trust : bool) (clock : nat -> Z)
    (st : ingest_store) (bs : list ObservationBatch) : ingest_store * evidence_reply :=
  if (Z.of_nat (length bs) =? 0) || (maxBatchesPerRequest <? Z.of_nat (length bs)) then (st, BadRequest)
  else
    let '(rejected, keep, _) := gate_loop checker trust gate_start 0 bs in
    match keep with
    | [] => (st, EvidenceAccepted 0 (sort_slice (fun a b => rb_Index a <? rb_Index b) rejected))
    | _ =>
        let '(st', r) := IngestBatches clock st (map snd keep) in
        let rejected := (rejected ++ map (store_refusal keep) (ir_rejected r))%list in
        (st', EvidenceAccepted (ir_accepted r) (sort_slice (fun a b => rb_Index a <? rb_Index b) rejected))
    end.
End handler.

(** ** The second validation agrees with the first *)

Lemma SHA256Hex_valid m : validSHA256ID (SHA256Hex m) = true.
Proof.
  apply validSHA256ID_ok. exists (sha256_hex m). destruct (sha256_hex_shape m) as [L F]. unfold str_len. by rewrite L.
Qed.

Lemma batch_fingerprint_valid b term : validSHA256ID (batch_fingerprint b term) = true.
Proof. unfold batch_fingerprint, ClassifiedFailureFingerprint, FailureFingerprint. destruct (negb _); apply SHA256Hex_valid. Qed.

(** The repair of an unsigned exit code keeps a valid failure valid. *)
Lemma valid_fail_repaired b old code : b_ExitCode b = Some old -> CanonicalExitCode old = Some code ->
  valid_fail b = None -> valid_fail (set_failure (if derived_fingerprint b then batch_fingerprint b (batch_term b (Some code))
                                                  else b_ErrorFingerprint b) (Some code) b) = None.
Proof.
  intros Eo Ec. unfold valid_fail. cbv zeta. rewrite !andalso_None, !refuse_None.
  set (fp := if derived_fingerprint b then _ else _). intros (Q & _ & S & K & G & Gl & T & Sl & Li & Ca & Mi & Co & Pa & Fp).
  rewrite Eo in *. cbn [is_some] in K. cbn [set_failure b_EvidenceQuality b_ExitCode b_TerminationKind b_Signal b_TimeoutMillis b_ErrorSummary
    b_Stage b_ErrorFingerprint b_ErrorCode is_some].
  assert (TE : Structured (batch_term (set_failure fp (Some code) b) (Some code)) = Structured (batch_term b (Some old))) by done.
  assert (FE : batch_fingerprint (set_failure fp (Some code) b) (batch_term (set_failure fp (Some code) b) (Some code))
    = batch_fingerprint b (batch_term b (Some code))) by done.
  assert (LE : validFailureLineage (set_failure fp (Some code) b) = validFailureLineage b) by done.
  rewrite TE, FE, LE. destruct (CanonicalExitCode_facts _ _ Ec) as (_ & _ & Cc).
  assert (FN : derived_fingerprint b = false -> fp = b_ErrorFingerprint b) by (subst fp; by intros ->).
  assert (FD : derived_fingerprint b = true -> fp = batch_fingerprint b (batch_term b (Some code))) by (subst fp; by intros ->).
  assert (NE : has_text fp = has_text (b_ErrorFingerprint b)).
  { destruct (derived_fingerprint b) eqn:D; [|by rewrite FN]. rewrite FD by done. unfold derived_fingerprint in D.
    apply andb_true_iff in D as [D _]. unfold has_text. rewrite D. apply negb_true_iff, String.eqb_neq. intros E.
    pose proof (batch_fingerprint_valid b (batch_term b (Some code))) as V. by rewrite E in V. }
  rewrite NE. unfold exit_code_out_of_range. rewrite Cc. repeat (split; [done|]).
  destruct (String.eqb (b_EvidenceQuality b) EvidenceComplete || String.eqb (b_EvidenceQuality b) EvidencePartial) eqn:CP; [|reflexivity].
  cbn [andb] in Fp |- *. apply negb_false_iff, String.eqb_eq. apply FD.
  unfold derived_fingerprint. rewrite CP, andb_true_r. fold (has_text (b_ErrorFingerprint b)).
  destruct (has_text (b_ErrorFingerprint b)); [done|]. rewrite !orb_true_r, !andb_true_r in *. by rewrite Co, Pa in CP.
Qed.

Theorem repaired_stays_valid b : ValidateBatch b = None -> ValidateBatch (CanonicalizeObservationFailure b) = None.
Proof.
  intros V. unfold CanonicalizeObservationFailure. destruct (b_ExitCode b) as [old|] eqn:Eo; [|done].
  destruct (CanonicalExitCode old) as [code|] eqn:Ec; [|done]. destruct (Z.eqb_spec code old) as [|N]; [done|].
  destruct (_ && _) eqn:M; [done|]. revert V. unfold ValidateBatch. rewrite !andalso_None, !refuse_None.
  set (fp := if derived_fingerprint b then _ else _).
  intros (Sv & V1 & Ep & An & Pr & H). repeat (split; [done|]). cbn [set_failure b_Package]. fold (b_Package b).
  destruct (ParsePURL (b_Package b)) as [p|]; [|done]. rewrite !andalso_None, !refuse_None in H |- *.
  destruct H as (Ad & A3 & St & Re & Sc & Sy & Ct & Fp & Cd & Fe & En & Co & No & De).
  repeat (split; [done|]). split; [|split; [done|split; [|done]]].
  - cbn [set_failure b_ErrorFingerprint]. subst fp. destruct (derived_fingerprint b) eqn:D; [|done].
    by rewrite batch_fingerprint_valid, andb_false_r.
  - unfold validFailureEvidence in *. change (b_Result (set_failure fp (Some code) b)) with (b_Result b).
    change (is_cli (set_failure fp (Some code) b)) with (is_cli b).
    destruct (String.eqb (b_Result b) ResultPass); [|by eapply valid_fail_repaired]. exfalso.
    destruct (is_cli b).
    + unfold valid_cli_pass in Fe. rewrite !andalso_None in Fe. destruct Fe as (_ & Fe & _). rewrite Eo in Fe. cbn [is_some clean_exit] in Fe.
      assert (old = 0) as ->; [|by injection Ec as <-].
      destruct (has_text (b_TerminationKind b)); rewrite refuse_None in Fe; bool_facts; lia.
    + unfold valid_plain_pass in Fe. rewrite refuse_None, Eo in Fe. cbn [is_some] in Fe. by rewrite !orb_true_r in Fe.
Qed.

Lemma repaired_stays_valid_witness : ValidateBatch (CanonicalizeObservationFailure fail_batch) = None.
Proof. apply repaired_stays_valid. vm_compute. reflexivity. Defined.

Lemma fewer_edges_valid edges b : ValidateBatch b = None -> sublist edges (b_DependsOn b) -> ValidateBatch (set_DependsOn edges b) = None.
Proof.
  unfold ValidateBatch. rewrite !andalso_None, !refuse_None. intros (Sv & V1 & Ep & An & Pr & H) S. repeat (split; [done|]).
  change (b_Package (set_DependsOn edges b)) with (b_Package b).
  destruct (ParsePURL (b_Package b)) as [p|]; [|done]. rewrite !andalso_None, !refuse_None in H |- *.
  destruct H as (Ad & A3 & St & Re & Sc & Sy & Ct & Fp & Cd & Fe & En & Co & No & De). repeat (split; [done|]).
  change (b_DependsOn (set_DependsOn edges b)) with edges. change (b_DependsOnNone (set_DependsOn edges b)) with (b_DependsOnNone b).
  pose proof (sublist_length _ _ S) as L. split.
  - destruct (b_DependsOnNone b); [|done]. cbn [andb] in No |- *. destruct (b_DependsOn b); [|done]. simpl in L. by destruct edges; [|simpl in L; lia].
  - unfold validDependsOn in *. rewrite andalso_None, refuse_None, first_refusal_None in De |- *. destruct De as [De1 De2].
    unfold maxDependsOnPerBatch in *. split; [lia|]. eapply List.Forall_forall; intros x Hx; rewrite List.Forall_forall in De2; apply De2; apply list_elem_of_In; eapply elem_of_sublist; [|exact S]; by apply list_elem_of_In.
Qed.

(** ** What the gate lets through *)

Section gate_facts.
  Context (checker : option publicness_checker).

(** A package is known to be public: it is a fixed target, or the checker
    said so of its coordinate, from its cache or from a registry. *)
Definition checker_said (key status : string) : Prop :=
  exists c p n, checker = Some c /\ purl_String p = key
    /\ ((exists cached, pc_cached c = Some cached /\ cached n p = Some status) \/ pc_check c n p = status).

Definition known_public (p : PURL) : Prop := IsWantedTarget p = true \/ checker_said (purl_String p) PublicnessPublic.

Definition gate_ok (g : gate_state) : Prop :=
  0 <= g_lookups g <= maxRegistryLookupsPerRequest /\ (forall key status, g_seen g !! key = Some status -> checker_said key status).

Lemma gate_start_ok : gate_ok gate_start.
Proof. split; [done|]. by intros key status [=]. Qed.

Lemma gate_record g p status n : gate_ok g -> 0 <= n <= maxRegistryLookupsPerRequest -> checker_said (purl_String p) status ->
  gate_ok (mkGate (<[purl_String p := status]> (g_seen g)) n).
Proof.
  intros [_ S] B C. split; [done|]. cbn [g_seen]. intros key st H. destruct (decide (purl_String p = key)) as [<-|N].
  - rewrite lookup_insert_eq in H. by injection H as <-.
  - rewrite lookup_insert_ne in H by done. by apply S.
Qed.

Lemma publicness_ok g p : gate_ok g ->
  gate_ok (snd (publicness checker g p)) /\ (fst (publicness checker g p) = PublicnessPublic -> known_public p).
Proof.
  intros G. unfold publicness, publicTargetPublicness, known_public. destruct (IsWantedTarget p) eqn:W; [split; [done|by left]|].
  change (String.eqb PublicnessUnknown PublicnessPublic) with false. cbn iota.
  destruct checker as [c|] eqn:Ec; [|by split]. cbv zeta.
  destruct (has_text (default "" (g_seen g !! purl_String p))) eqn:N.
  { split; [done|]. cbn [fst]. intros E. right. destruct (g_seen g !! purl_String p) eqn:L; [|done]. simpl in E. subst.
    by apply G. }
  destruct (match pc_cached c with Some cached => cached (g_lookups g) p | None => None end) as [status|] eqn:Ca.
  { assert (S : checker_said (purl_String p) status).
    { destruct (pc_cached c) as [cached|] eqn:Pc; [|done]. exists c, p, (g_lookups g). split; [done|]. split; [done|]. left. by exists cached. }
    split; [apply gate_record; [done|apply G|done]|]. cbn [fst]. intros ->. by right. }
  destruct (Z.leb_spec maxRegistryLookupsPerRequest (g_lookups g)); [by split|].
  assert (S : checker_said (purl_String p) (pc_check c (g_lookups g) p)).
  { exists c, p, (g_lookups g). split; [done|]. split; [done|]. by right. }
  split; [apply gate_record; [done|destruct G; lia|done]|]. cbn [fst]. intros E. rewrite E in S. by right.
Qed.

Definition edges_public (edges : list string) : Prop :=
  Forall (fun raw => exists child, ParsePURL raw = Ok child /\ known_public child) edges.

Lemma publicDependsOn_ok g edges : gate_ok g ->
  gate_ok (snd (publicDependsOn checker g edges)) /\ edges_public (fst (publicDependsOn checker g edges))
  /\ sublist (fst (publicDependsOn checker g edges)) edges.
Proof.
  revert g. induction edges as [|raw edges IH]; intros g G; [split; [done|]; split; constructor|]. cbn [publicDependsOn].
  destruct (ParsePURL raw) as [child|] eqn:P.
  - destruct (publicness_ok g child G) as [G' K]. destruct (publicness checker g child) as [status g']. cbn [fst snd] in *.
    specialize (IH g' G'). destruct (publicDependsOn checker g' edges) as [out g'']. cbn [fst snd] in *. destruct IH as (I1 & I2 & I3).
    split; [done|]. destruct (String.eqb_spec status PublicnessPublic) as [E|]; [|split; [done|by constructor]].
    split; [|by constructor]. constructor; [|done]. exists child. split; [done|]. by apply K.
  - destruct (IH g G) as (I1 & I2 & I3). split; [done|]. split; [done|]. by constructor.
Qed.

(** A kept batch is valid, and about public packages only. *)
Definition kept_ok (trust : bool) (b : ObservationBatch) : Prop :=
  ValidateBatch b = None
  /\ (trust = false -> exists p, ParsePURL (b_Package b) = Ok p /\ known_public p /\ edges_public (b_DependsOn b)).

Lemma gate_batch_ok trust g i b : gate_ok g ->
  gate_ok (snd (gate_batch checker trust g i b))
  /\ match fst (gate_batch checker trust g i b) with inl r => rb_Index r = i | inr b' => kept_ok trust b' end.
Proof.
  intros G. unfold gate_batch. destruct (ValidateBatch b) eqn:V; [by split|]. destruct trust; [by split|].
  destruct (accepted_batch_typed_facts b V) as (p & d & T). pose proof (tb_purl _ _ _ T) as [P _]. rewrite P.
  destruct (publicness_ok g p G) as [G' K]. destruct (publicness checker g p) as [status g']. cbn [fst snd] in *.
  destruct (String.eqb_spec status PublicnessPublic) as [E|N]; cbn [negb].
  - destruct (publicDependsOn_ok g' (b_DependsOn b) G') as (G2 & Ed & S). destruct (publicDependsOn checker g' (b_DependsOn b)) as [edges g2].
    cbn [fst snd] in *. split; [done|]. split; [by apply fewer_edges_valid|]. intros _. exists p. split; [done|]. split; [by apply K|done].
  - split; [done|]. cbn [fst]. unfold refuse_publicness. by destruct (negb _).
Qed.

(** The loop deals with every position once. *)
Lemma gate_loop_ok trust g i bs : gate_ok g ->
  let '(rejected, keep, g') := gate_loop checker trust g i bs in
  gate_ok g' /\ Forall (fun x => kept_ok trust (snd x)) keep
  /\ Permutation (map rb_Index rejected ++ map fst keep) (seqZ i (Z.of_nat (length bs))).
Proof.
  revert g i. induction bs as [|b bs IH]; intros g i G; [by split|]. cbn [gate_loop].
  destruct (gate_batch_ok trust g i b G) as [G' V]. destruct (gate_batch checker trust g i b) as [v g']. cbn [fst snd] in *.
  specialize (IH g' (i + 1) G'). destruct (gate_loop checker trust g' (i + 1) bs) as [[rejected keep] g'']. destruct IH as (I1 & I2 & I3).
  assert (SQ : seqZ i (Z.of_nat (length (b :: bs))) = i :: seqZ (i + 1) (Z.of_nat (length bs))).
  { cbn [length]. rewrite Nat2Z.inj_succ. rewrite seqZ_cons by lia. by rewrite Z.pred_succ, Z.add_1_r. }
  rewrite SQ. destruct v as [r|b'].
  - split; [done|]. split; [done|]. cbn [map app]. rewrite V. by constructor.
  - split; [done|]. split; [by constructor|]. cbn [map]. rewrite <- Permutation_middle. by constructor.
Qed.
End gate_facts.

Lemma accepted_all bs : Forall (fun b => ValidateBatch b = None) bs ->
  accepted_batches bs = map CanonicalizeObservationFailure bs /\ forall i, refusals i bs = [].
Proof.
  unfold accepted_batches. induction 1 as [|b bs V _ [IH1 IH2]]; [done|]. cbn [List.filter refusals].
  assert (E : batch_verdict b = None) by by apply repaired_stays_valid. rewrite E. cbn [is_some negb map]. rewrite IH1. split; [done|].
  intros i. apply IH2.
Qed.

Lemma index_sort_less : less_of (cmp_on rb_Index cmp_Z) (fun a b => rb_Index a <? rb_Index b).
Proof.
  split; [typeclasses eauto|]. intros a b. unfold cmp_on, cmp_Z.
  destruct (Z.ltb_spec (rb_Index a) (rb_Index b)), (Z.ltb_spec (rb_Index b) (rb_Index a)); try done; lia.
Qed.

Section handler_facts.
  Context `{!GoSort, !GoMapRange}.

Lemma sorted_refusals rejected ks n : Permutation (map rb_Index rejected ++ ks) (seqZ 0 n) ->
  let out := sort_slice (fun a b => rb_Index a <? rb_Index b) rejected in
  StronglySorted (fun a b => rb_Index a <= rb_Index b) out /\ NoDup (map rb_Index out)
  /\ Forall (fun r => 0 <= rb_Index r < n) out.
Proof.
  intros P out. pose proof (sort_slice_perm _ (fun a b => rb_Index a <? rb_Index b) rejected) as Q. fold out in Q. split; [|split].
  - pose proof (sort_slice_sorted _ _ _ rejected index_sort_less) as S. fold out in S. revert S. clear.
    induction 1 as [|a l Sl IH F]; constructor; [done|]. eapply List.Forall_impl; [|exact F]. intros b. unfold cmp_on, cmp_Z.
    destruct (Z.ltb_spec (rb_Index a) (rb_Index b)); [lia|]. destruct (Z.ltb_spec (rb_Index b) (rb_Index a)); lia.
  - rewrite <- Q. pose proof (NoDup_seqZ 0 n) as N. rewrite <- P in N. apply NoDup_ListNoDup in N. apply NoDup_ListNoDup. by eapply NoDup_app_remove_r.
  - rewrite <- Q. apply List.Forall_forall. intros r I. assert (R : rb_Index r ∈ seqZ 0 n).
    { rewrite <- P. apply elem_of_app. left. apply list_elem_of_In. by apply in_map. }
    apply elem_of_seqZ in R. lia.
Qed.

End handler_facts.
