(* ===== verification/Identity.v ===== *)
(** * The local identity (internal/identity)

    The peer's key pair and the secret seed: how they are made once per
    machine, what is derived from them, and how a signature is checked on the
    other side.  Bytes are strings.  [base64], [hmac] and [sha256] are
    written out; of [ed25519] the model takes what the package documents, as
    a class. *)

From S2P Require Import Prelude GoStrings GoUnicode GoStd StringFacts UnicodeFacts WordFacts Calendar Hash.

#[local] Open Scope csx_scope.

(** ** encoding/base64, StdEncoding *)

Definition b64_char (v : Z) : ascii :=
  if v <? 26 then chr (65 + v) else if v <? 52 then chr (71 + v) else if v <? 62 then chr (v - 4)
  else if v =? 62 then "+"%char else "/"%char.

Definition b64_value (c : ascii) : option Z :=
  let z := bv c in
  if (65 <=? z) && (z <=? 90) then Some (z - 65)
  else if (97 <=? z) && (z <=? 122) then Some (z - 71)
  else if (48 <=? z) && (z <=? 57) then Some (z + 4)
  else if z =? 43 then Some 62 else if z =? 47 then Some 63 else None.

Definition pad_char : ascii := "="%char.

Fixpoint b64_encode (bs : list Z) : string :=
  match bs with
  | [] => ""
  | [a] => String (b64_char (a / 4)) (String (b64_char ((a mod 4) * 16)) (String pad_char (String pad_char "")))
  | [a; b] =>
      String (b64_char (a / 4)) (String (b64_char ((a mod 4) * 16 + b / 16))
        (String (b64_char ((b mod 16) * 4)) (String pad_char "")))
  | a :: b :: c :: bs' =>
      String (b64_char (a / 4)) (String (b64_char ((a mod 4) * 16 + b / 16))
        (String (b64_char ((b mod 16) * 4 + c / 64)) (String (b64_char (c mod 64)) (b64_encode bs'))))
  end.

(** Four characters at a time, line ends skipped.  Padding ends the text; the
    bits it leaves over are not looked at. *)
Fixpoint b64_groups (s : string) : option (list Z) :=
  match s with
  | "" => Some []
  | String w (String x (String y (String z s'))) =>
      match b64_value w, b64_value x with
      | Some w, Some x =>
          match b64_value y with
          | Some y =>
              match b64_value z with
              | Some z => match b64_groups s' with
                          | Some bs => Some (w * 4 + x / 16 :: (x mod 16) * 16 + y / 4 :: (y mod 4) * 64 + z :: bs)
                          | None => None
                          end
              | None => if Ascii.eqb z pad_char && String.eqb s' "" then Some [w * 4 + x / 16; (x mod 16) * 16 + y / 4] else None
              end
          | None => if Ascii.eqb y pad_char && Ascii.eqb z pad_char && String.eqb s' "" then Some [w * 4 + x / 16] else None
          end
      | _, _ => None
      end
  | _ => None
  end.

Fixpoint drop_newlines (s : string) : string :=
  match s with
  | "" => ""
  | String c s' => if (bv c =? 10) || (bv c =? 13) then drop_newlines s' else String c (drop_newlines s')
  end.

Definition b64_decode (s : string) : option string := option_map string_of (b64_groups (drop_newlines s)).
Definition b64 (s : string) : string := b64_encode (bytes_of s).

Example b64_rfc4648 : map b64 ["f"; "fo"; "foo"; "foob"] = ["Zg=="; "Zm8="; "Zm9v"; "Zm9vYg=="].
Proof. reflexivity. Qed.

(** ** crypto/hmac over SHA-256 *)

Definition hmac_block : nat := 64.
Definition hmac_key (key : string) : list Z :=
  let k := if Z.of_nat hmac_block <? str_len key then sha256 key else bytes_of key in
  (k ++ repeat 0 (hmac_block - length k))%list.
Definition hmac_sha256 (key msg : string) : list Z :=
  let k := hmac_key key in
  let inner := sha256 (string_of (map (Z.lxor 54) k) +:+ msg) in
  sha256 (string_of (map (Z.lxor 92) k ++ inner)%list).

(** RFC 4231, test case 2. *)
Example hmac_rfc4231 :
  hex_encode (hmac_sha256 "Jefe" "what do ya want for nothing?") = "5bdcc146bf60754e6a042426089575c75a003f089d2739839dec58b964ec3843".
Proof. vm_compute. reflexivity. Qed.

(** ** crypto/ed25519 *)

Class Ed25519 := {
  ed_public : string -> string;
  ed_sign : string -> string -> string;
  ed_verify : string -> string -> string -> bool;
  ed_public_size : forall priv, String.length (ed_public priv) = 32%nat;
  ed_sign_size : forall priv msg, String.length (ed_sign priv msg) = 64%nat;
  ed_verify_sign : forall priv msg, ed_verify (ed_public priv) msg (ed_sign priv msg) = true
}.

(** The laws have a model: a keyed digest in the place of the curve. *)
Definition digest_signatures : Ed25519.
Proof.
  refine {| ed_public := fun priv => string_of (sha256 priv);
            ed_sign := fun priv msg => sha256_hex (string_of (sha256 priv) +:+ msg);
            ed_verify := fun pub msg sig => String.eqb sig (sha256_hex (pub +:+ msg)) |}.
  - intros priv. destruct (sha256_bytes priv) as [L _]. rewrite <- L. generalize (sha256 priv). intros l. induction l; cbn; congruence.
  - intros priv msg. apply sha256_hex_shape.
  - intros priv msg. apply String.eqb_refl.
Defined.

Definition PublicKeySize : Z := 32.
Definition PrivateKeySize : Z := 64.

(** ** Identities *)

Record Identity := mkIdentity { id_priv : string; id_anonSeed : string }.

(** What the file holds. *)
Record identityFile := mkIdentityFile { if_SchemaVersion : Z; if_Ed25519Priv : string; if_AnonSeed : string }.

Definition anonSeedLen : Z := 32.

Inductive load_error := DecodePriv | PrivLength (n : Z) | DecodeSeed | SeedLength (n : Z).

(** [loadExisting] on a file that reads and parses. *)
Definition load_file (f : identityFile) : result Identity load_error :=
  match b64_decode (if_Ed25519Priv f) with
  | None => Err DecodePriv
  | Some priv =>
      if negb (str_len priv =? PrivateKeySize) then Err (PrivLength (str_len priv))
      else match b64_decode (if_AnonSeed f) with
      | None => Err DecodeSeed
      | Some seed => if negb (str_len seed =? anonSeedLen) then Err (SeedLength (str_len seed)) else Ok (mkIdentity priv seed)
      end
  end.

(** What [create] writes for the identity it made. *)
Definition file_of (id : Identity) : identityFile := mkIdentityFile 1 (b64 (id_priv id)) (b64 (id_anonSeed id)).

Definition derive (id : Identity) (input : string) (n : nat) : string := str_take n (hex_encode (hmac_sha256 (id_anonSeed id) input)).
Definition AnonID (id : Identity) (epochDay : string) : string := derive id ("anon|" +:+ epochDay) 16.
Definition ProjectBucket (id : Identity) (projectPath epochMonth : string) : string :=
  derive id ("proj|" +:+ projectPath +:+ "|" +:+ epochMonth) 12.
Definition AnonymousClientID (id : Identity) (origin : string) : string := derive id ("anonymous-client|v1|" +:+ origin) 64.

(** Unix() is the second the time falls in; division truncates. *)
Definition unix_day (t : Z) : Z := Z.quot (t / 1000000000) 86400.
Definition AlignedEpoch1d (t : Z) : string := format_day t.
Definition AlignedEpoch7d (t : Z) : string := Itoa (Z.quot (unix_day t) 7).
Definition AlignedEpoch30d (t : Z) : string := Itoa (Z.quot (unix_day t) 30).

Record PresenceTokens := mkTokens {
  pt_Epoch1d : string; pt_Token1d : string; pt_Epoch7d : string; pt_Token7d : string; pt_Epoch30d : string; pt_Token30d : string
}.

Definition PresenceToken1d (id : Identity) (epoch1d : string) : string := derive id ("presence|1d|" +:+ epoch1d) 32.
Definition PresenceToken7d (id : Identity) (epoch7d : string) : string := derive id ("presence|7d|" +:+ epoch7d) 32.
Definition PresenceToken30d (id : Identity) (epoch30d : string) : string := derive id ("presence|30d|" +:+ epoch30d) 32.
Definition presence_tokens (id : Identity) (t : Z) : PresenceTokens :=
  let e1d := AlignedEpoch1d t in
  let e7d := AlignedEpoch7d t in
  let e30d := AlignedEpoch30d t in
  mkTokens e1d (PresenceToken1d id e1d) e7d (PresenceToken7d id e7d) e30d (PresenceToken30d id e30d).

(** The name of a public key: [derivePeerID] of the server computes it from
    the key as sent, [PeerID] from the key itself. *)
Definition key_name (pub : string) : string := "ed25519:" +:+ str_take 16 (sha256_hex pub).
Definition derivePeerID (pubB64 : string) : string := match b64_decode pubB64 with None => "" | Some pub => key_name pub end.

Definition validPeerID (peerID : string) : bool :=
  (str_len peerID =? 8 + 16) && String.eqb (str_take 8 peerID) "ed25519:" && str_forall lower_hex (str_drop 8 peerID).

Section signatures.
  Context `{!Ed25519}.

Definition PeerID (id : Identity) : string := key_name (ed_public (id_priv id)).
Definition PubkeyB64 (id : Identity) : string := b64 (ed_public (id_priv id)).
Definition Sign (id : Identity) (msg : string) : string := b64 (ed_sign (id_priv id) msg).

Definition Verify (pubB64 sigB64 msg : string) : bool :=
  match b64_decode pubB64 with
  | None => false
  | Some pub =>
      if negb (str_len pub =? PublicKeySize) then false
      else match b64_decode sigB64 with None => false | Some sig => ed_verify pub msg sig end
  end.
End signatures.

(** ** Base64 round trips *)

Definition byte (b : Z) : Prop := 0 <= b < 256.

Lemma bytes_of_bytes s : Forall byte (bytes_of s).
Proof. induction s; cbn; constructor; [apply bv_range|done]. Qed.

Lemma string_of_bytes s : string_of (bytes_of s) = s.
Proof. induction s as [|c s IH]; cbn; [done|]. by rewrite IH, chr_bv. Qed.

Lemma bytes_of_string bs : Forall byte bs -> bytes_of (string_of bs) = bs.
Proof. induction 1 as [|b bs B _ IH]; cbn; [done|]. by rewrite IH, bv_chr. Qed.

Lemma b64_value_char v : 0 <= v < 64 -> b64_value (b64_char v) = Some v.
Proof.
  intros R. assert (E : forallb (fun v => match b64_value (b64_char v) with Some w => w =? v | None => false end) (map Z.of_nat (seq 0 64)) = true) by reflexivity.
  rewrite forallb_forall in E. specialize (E v). destruct (b64_value (b64_char v)) as [w|]; [f_equal; apply Z.eqb_eq, E|exfalso; discriminate E].
  all: apply in_map_iff; exists (Z.to_nat v); rewrite Z2Nat.id by lia; split; [done|apply in_seq; lia].
Qed.

Lemma b64_char_plain v : 0 <= v < 64 -> (bv (b64_char v) =? 10) || (bv (b64_char v) =? 13) = false.
Proof.
  intros R. destruct (_ || _) eqn:E; [|done]. pose proof (b64_value_char v R) as V. unfold b64_value in V.
  apply orb_true_iff in E as [E|E]; apply Z.eqb_eq in E; rewrite E in V; discriminate V.
Qed.

Lemma list3_ind {A} (P : list A -> Prop) : P [] -> (forall a, P [a]) -> (forall a b, P [a; b]) ->
  (forall a b c l, P l -> P (a :: b :: c :: l)) -> forall l, P l.
Proof.
  intros H0 H1 H2 H3. fix IH 1. intros [|a [|b [|c l]]]; [done|apply H1|apply H2|apply H3, IH].
Qed.

Lemma sextets a b c : byte a -> byte b -> byte c ->
  0 <= a / 4 < 64 /\ 0 <= (a mod 4) * 16 < 64 /\ 0 <= (a mod 4) * 16 + b / 16 < 64 /\ 0 <= (b mod 16) * 4 < 64
  /\ 0 <= (b mod 16) * 4 + c / 64 < 64 /\ 0 <= c mod 64 < 64.
Proof. unfold byte. intros A B C. Z.to_euclidean_division_equations. lia. Qed.

Lemma octets a b c : byte a -> byte b -> byte c ->
  a / 4 * 4 + ((a mod 4) * 16) / 16 = a /\ a / 4 * 4 + ((a mod 4) * 16 + b / 16) / 16 = a
  /\ (((a mod 4) * 16 + b / 16) mod 16) * 16 + ((b mod 16) * 4) / 4 = b
  /\ (((a mod 4) * 16 + b / 16) mod 16) * 16 + ((b mod 16) * 4 + c / 64) / 4 = b
  /\ (((b mod 16) * 4 + c / 64) mod 4) * 64 + c mod 64 = c.
Proof. unfold byte. intros A B C. Z.to_euclidean_division_equations. lia. Qed.

Lemma drop_newlines_encode bs : Forall byte bs -> drop_newlines (b64_encode bs) = b64_encode bs.
Proof.
  induction bs as [|a|a b|a b c bs IH] using list3_ind; intros F; [done|..]; repeat (let G := fresh "F0" in apply Forall_cons_iff in F as [G F]).
  - destruct (sextets a 0 0 F0) as (S1 & S2 & _); [done..|]. cbn [b64_encode drop_newlines]. by rewrite !b64_char_plain.
  - destruct (sextets a b 0 F0 F1) as (S1 & _ & S3 & S4 & _); [done|]. cbn [b64_encode drop_newlines]. by rewrite !b64_char_plain.
  - destruct (sextets a b c F0 F1 F2) as (S1 & _ & S3 & _ & S4 & S5). cbn [b64_encode drop_newlines]. by rewrite !b64_char_plain, IH.
Qed.

Lemma b64_groups_encode bs : Forall byte bs -> b64_groups (b64_encode bs) = Some bs.
Proof.
  induction bs as [|a|a b|a b c bs IH] using list3_ind; intros F; [done|..]; repeat (let G := fresh "F0" in apply Forall_cons_iff in F as [G F]).
  - destruct (sextets a 0 0 F0) as (S1 & S2 & _), (octets a 0 0 F0) as (O1 & _); try done. cbn [b64_encode b64_groups]. rewrite !b64_value_char by done. change (b64_value pad_char) with (@None Z). cbn. by rewrite O1.
  - destruct (sextets a b 0 F0 F1) as (S1 & _ & S3 & S4 & _), (octets a b 0 F0 F1) as (_ & O2 & O3 & _); try done.
    cbn [b64_encode b64_groups]. rewrite !b64_value_char by done. change (b64_value pad_char) with (@None Z). cbn [Ascii.eqb Bool.eqb andb String.eqb pad_char].
    by rewrite O2, O3.
  - destruct (sextets a b c F0 F1 F2) as (S1 & _ & S3 & _ & S4 & S5), (octets a b c F0 F1 F2) as (_ & O2 & _ & O4 & O5).
    cbn [b64_encode b64_groups]. by rewrite !b64_value_char, IH, O2, O4, O5.
Qed.

Lemma b64_roundtrip s : b64_decode (b64 s) = Some s.
Proof.
  unfold b64_decode, b64. rewrite drop_newlines_encode, b64_groups_encode by apply bytes_of_bytes. cbn. by rewrite string_of_bytes.
Qed.

Lemma file_roundtrip id : str_len (id_priv id) = PrivateKeySize -> str_len (id_anonSeed id) = anonSeedLen ->
  load_file (file_of id) = Ok id.
Proof.
  intros P S. unfold load_file, file_of. cbn [if_Ed25519Priv if_AnonSeed]. rewrite !b64_roundtrip, P, S. by destruct id.
Qed.

Lemma take_exact n s : (n <= String.length s)%nat -> String.length (str_take n s) = n.
Proof. revert s. induction n as [|n IH]; intros [|c s] L; cbn in *; try lia. rewrite IH; lia. Qed.

Lemma key_name_shape pub : validPeerID (key_name pub) = true.
Proof.
  unfold validPeerID, key_name. destruct (sha256_hex_shape pub) as [L H].
  assert (T : String.length (str_take 16 (sha256_hex pub)) = 16%nat) by (apply take_exact; lia).
  assert (F : str_forall lower_hex (str_take 16 (sha256_hex pub)) = true) by (by apply str_forall_take).
  revert T F. generalize (str_take 16 (sha256_hex pub)). intros s T F. unfold str_len. rewrite str_len_app, T. cbn. exact F.
Qed.

(** What a peer says about itself is accepted: its signatures verify under the
    key it sends, and the name the server derives from that key is the name
    the peer uses, in the form the job endpoints require. *)
Theorem own_signature_accepted `{!Ed25519} id msg :
  Verify (PubkeyB64 id) (Sign id msg) msg = true
  /\ derivePeerID (PubkeyB64 id) = PeerID id
  /\ validPeerID (PeerID id) = true.
Proof.
  unfold Verify, PubkeyB64, Sign, derivePeerID, PeerID. rewrite !b64_roundtrip. unfold str_len. rewrite ed_public_size. cbn.
  split; [apply ed_verify_sign|]. split; [done|apply key_name_shape].
Qed.

(** ** One identity per machine

    Several processes may start on a fresh home at once.  [create] opens the
    file exclusively and writes it a moment later; whoever loses, and whoever
    finds a file, reads it, up to fifty times while it does not parse yet. *)

Inductive home_file :=
| Absent
| Opened
| Written (f : identityFile).

Inductive loader :=
| Starting
| Creating
| Writing (id : Identity)
| Loading (attempt : Z)
| Loaded (id : Identity)
| LoadFailed.

Record machine := mkMachine { mc_file : home_file; mc_procs : nat -> loader }.

Definition set_proc (m : machine) (p : nat) (s : loader) : nat -> loader := fun q => if Nat.eqb q p then s else mc_procs m q.

(** A key and a seed of the right sizes, as [create] generates them. *)
Definition generated (id : Identity) : Prop := str_len (id_priv id) = PrivateKeySize /\ str_len (id_anonSeed id) = anonSeedLen.

Definition read_file (f : home_file) : option Identity :=
  match f with Written f => match load_file f with Ok id => Some id | Err _ => None end | _ => None end.

Inductive identity_step : machine -> machine -> Prop :=
| StatAbsent m p : mc_procs m p = Starting -> mc_file m = Absent ->
    identity_step m (mkMachine (mc_file m) (set_proc m p Creating))
| StatPresent m p : mc_procs m p = Starting -> mc_file m <> Absent ->
    identity_step m (mkMachine (mc_file m) (set_proc m p (Loading 0)))
| SaveFails m p : mc_procs m p = Creating ->
    identity_step m (mkMachine (mc_file m) (set_proc m p LoadFailed))
| OpenWon m p id : mc_procs m p = Creating -> mc_file m = Absent -> generated id ->
    identity_step m (mkMachine Opened (set_proc m p (Writing id)))
| OpenLost m p : mc_procs m p = Creating -> mc_file m <> Absent ->
    identity_step m (mkMachine (mc_file m) (set_proc m p (Loading 0)))
| WriteDone m p id : mc_procs m p = Writing id ->
    identity_step m (mkMachine (Written (file_of id)) (set_proc m p (Loaded id)))
| WriteFails m p id : mc_procs m p = Writing id ->
    identity_step m (mkMachine (mc_file m) (set_proc m p LoadFailed))
| ReadDone m p n id : mc_procs m p = Loading n -> read_file (mc_file m) = Some id ->
    identity_step m (mkMachine (mc_file m) (set_proc m p (Loaded id)))
| ReadAgain m p n : mc_procs m p = Loading n -> read_file (mc_file m) = None -> n < 49 ->
    identity_step m (mkMachine (mc_file m) (set_proc m p (Loading (n + 1))))
| ReadGivesUp m p n : mc_procs m p = Loading n -> read_file (mc_file m) = None -> 49 <= n ->
    identity_step m (mkMachine (mc_file m) (set_proc m p LoadFailed)).

Inductive identity_reach : machine -> Prop :=
| FreshHome : identity_reach (mkMachine Absent (fun _ => Starting))
| IdentityStep m m' : identity_reach m -> identity_step m m' -> identity_reach m'.

(** Before the file is opened nobody holds an identity; while it is open one
    process does; afterwards everyone holds the one in the file. *)
Definition one_writer (m : machine) : Prop :=
  (forall p id, mc_procs m p = Writing id -> generated id /\ mc_file m = Opened)
  /\ (forall p q id id', mc_procs m p = Writing id -> mc_procs m q = Writing id' -> p = q)
  /\ (forall p id, mc_procs m p = Loaded id -> read_file (mc_file m) = Some id)
  /\ (forall f, mc_file m = Written f -> exists id, generated id /\ f = file_of id).

Lemma set_proc_case m p s q x : set_proc m p s q = x -> q = p /\ s = x \/ q <> p /\ mc_procs m q = x.
Proof. unfold set_proc. destruct (Nat.eqb_spec q p); auto. Qed.

Lemma read_written id : generated id -> read_file (Written (file_of id)) = Some id.
Proof. intros [P S]. cbn. by rewrite file_roundtrip. Qed.

(** The steps that only move one process to a state that holds nothing. *)
Lemma one_writer_quiet m p s : (forall id, s <> Writing id) -> (forall id, s = Loaded id -> read_file (mc_file m) = Some id) ->
  one_writer m -> one_writer (mkMachine (mc_file m) (set_proc m p s)).
Proof.
  intros W D (I1 & I2 & I3 & I4). split; [|split; [|split]]; cbn [mc_file mc_procs].
  - intros q id [[-> E]|[_ E]]%set_proc_case; [by destruct (W id)|eauto].
  - intros q r id id' [[-> E]|[_ E]]%set_proc_case [[-> E']|[_ E']]%set_proc_case; try done; [by destruct (W id)|by destruct (W id')|eauto].
  - intros q id [[-> E]|[_ E]]%set_proc_case; eauto.
  - exact I4.
Qed.

Lemma one_writer_step m m' : one_writer m -> identity_step m m' -> one_writer m'.
Proof.
  intros I St. destruct St as [m p Hp Hf|m p Hp Hf|m p Hp|m p id Hp Hf G|m p Hp Hf|m p id Hp|m p id Hp|m p n id Hp Hr|m p n Hp Hr|m p n Hp Hr].
  4: { destruct I as (I1 & I2 & I3 & I4). split; [|split; [|split]]; cbn [mc_file mc_procs].
    - intros q i [[-> [= <-]]|[_ E]]%set_proc_case; [done|]. apply I1 in E as [_ E]. congruence.
    - intros q r i i' [[-> E]|[_ E]]%set_proc_case [[-> E']|[_ E']]%set_proc_case; try done.
      + apply I1 in E' as [_ E']. congruence.
      + apply I1 in E as [_ E]. congruence.
      + eauto.
    - intros q i [[_ E]|[_ E]]%set_proc_case; [done|]. apply I3 in E. by rewrite Hf in E.
    - done. }
  5: { destruct I as (I1 & I2 & I3 & I4). destruct (I1 p id Hp) as [G Fo]. split; [|split; [|split]]; cbn [mc_file mc_procs].
    - intros q i [[_ E]|[N E]]%set_proc_case; [done|]. destruct N. eauto.
    - intros q r i i' [[_ E]|[N E]]%set_proc_case [[_ E']|[N' E']]%set_proc_case; try done. eauto.
    - intros q i [[_ [= <-]]|[_ E]]%set_proc_case; [by apply read_written|]. apply I3 in E. by rewrite Fo in E.
    - intros f [= <-]. eauto. }
  all: apply one_writer_quiet; try done. intros i [= <-]. exact Hr.
Qed.

(** However many processes start on a fresh home and however their steps
    interleave, those that come up with an identity come up with the same
    one: the one in the file. *)
Theorem one_identity_per_machine m : identity_reach m -> forall p q id id',
  mc_procs m p = Loaded id -> mc_procs m q = Loaded id' -> id = id' /\ mc_file m = Written (file_of id).
Proof.
  intros R. assert (I : one_writer m).
  { induction R as [|m m' R IH St]; [by split; [|split; [|split]]|eauto using one_writer_step]. }
  destruct I as (I1 & I2 & I3 & I4). intros p q id id' P Q. apply I3 in P as Pr, Q as Qr. rewrite Pr in Qr. injection Qr as <-. split; [done|].
  destruct (mc_file m) as [| |f] eqn:F; try done. destruct (I4 f eq_refl) as (i & G & ->). rewrite read_written in Pr by done. by injection Pr as <-.
Qed.

(** Two processes race on a fresh home: both find no file, the second opens
    it, the first reads what the second wrote. *)
Definition raced_identity : Identity :=
  mkIdentity "0123456789abcdef0123456789abcdef0123456789abcdef0123456789abcdef" "0123456789abcdef0123456789abcdef".
Definition moved (m : machine) (p : nat) (s : loader) : machine := mkMachine (mc_file m) (set_proc m p s).
Definition race1 : machine := moved (moved (mkMachine Absent (fun _ => Starting)) 0 Creating) 1 Creating.
Definition race2 : machine := moved (moved (mkMachine Opened (set_proc race1 1 (Writing raced_identity))) 0 (Loading 0)) 0 (Loading (0 + 1)).
Definition raced_machine : machine :=
  moved (mkMachine (Written (file_of raced_identity)) (set_proc race2 1 (Loaded raced_identity))) 0 (Loaded raced_identity).

Lemma one_identity_per_machine_witness :
  mc_procs raced_machine 0 = Loaded raced_identity /\ mc_file raced_machine = Written (file_of raced_identity).
Proof.
  split; [reflexivity|]. refine (proj2 (one_identity_per_machine raced_machine _ 0 1 raced_identity raced_identity eq_refl eq_refl)).
  unfold raced_machine, moved at 1. eapply IdentityStep; [|eapply (ReadDone _ 0 1); reflexivity].
  eapply IdentityStep; [|eapply (WriteDone race2 1 raced_identity); reflexivity]. unfold race2, moved at 1.
  eapply IdentityStep; [|eapply (ReadAgain _ 0 0); reflexivity]. unfold moved at 1.
  eapply IdentityStep; [|eapply (OpenLost _ 0); [reflexivity|discriminate]].
  eapply IdentityStep; [|eapply (OpenWon race1 1 raced_identity); [reflexivity..|split; reflexivity]]. unfold race1, moved at 1.
  eapply IdentityStep; [|eapply (StatAbsent _ 1); reflexivity]. unfold moved.
  eapply IdentityStep; [|eapply (StatAbsent (mkMachine Absent (fun _ => Starting)) 0); reflexivity]. apply FreshHome.
Defined.
