(* ===== verification/Presence.v ===== *)
(** * Active installations (internal/domain/presence.go,
    internal/serverstore/fake.go, internal/httpapi/presence.go,
    internal/daemon/presence.go)

    A client reports once a day that it is installed, under three tokens that
    change with the day, the aligned week and the aligned thirty days; the
    server keeps one record per token and counts the public ones of the
    current windows. *)

From stdpp Require Import gmap.
From S2P Require Import Prelude GoStrings GoUnicode GoStd StringFacts UnicodeFacts WordFacts Calendar Hash Boundaries Identity.

#[local] Open Scope csx_scope.

(** ** The report *)

Record PresencePayload := mkPresence {
  pp_SchemaVersion : Z;
  pp_ClientClass : string;
  pp_ClientVersion : string;
  pp_Epoch1d : string;
  pp_Token1d : string;
  pp_Epoch7d : string;
  pp_Token7d : string;
  pp_Epoch30d : string;
  pp_Token30d : string
}.

Inductive presence_error :=
| ErrPresenceSchemaVersion
| ErrPresenceClientClass
| ErrPresenceClientVersion
| ErrPresenceEpoch1d
| ErrPresenceEpoch7d
| ErrPresenceEpoch30d
| ErrPresenceToken1d
| ErrPresenceToken7d
| ErrPresenceToken30d.

Definition IsPublicClientClass (clientClass : string) : bool :=
  str_in (ToLower (TrimSpace clientClass)) ["ordinary"; "external"].

(** A pattern [^[set]{lo,hi}$] over a set of ASCII characters. *)
Definition run_of (set : ascii -> bool) (lo hi : Z) (s : string) : bool :=
  (lo <=? str_len s) && (str_len s <=? hi) && str_forall set s.

Definition is_word_byte (c : ascii) : bool :=
  ((97 <=? bv c) && (bv c <=? 122)) || ((65 <=? bv c) && (bv c <=? 90)) || is_digit c
  || (bv c =? 95) || (bv c =? 45) || (bv c =? 46).
Definition is_hex_byte (c : ascii) : bool :=
  is_digit c || ((97 <=? bv c) && (bv c <=? 102)) || ((65 <=? bv c) && (bv c <=? 70)).

Definition validClientClassRegex : string -> bool := run_of is_word_byte 1 64.
Definition validHexTokenRegex : string -> bool := run_of is_hex_byte 16 64.
Definition validEpochIntRegex : string -> bool := run_of is_digit 1 16.
(** [^\d{4}-\d{2}-\d{2}$]. *)
Definition validEpoch1dRegex (s : string) : bool :=
  match s with
  | String a (String b (String c (String d (String h (String e (String f (String i (String g (String k ""))))))))) =>
      forallb is_digit [a; b; c; d; e; f; g; k] && Ascii.eqb h "-"%char && Ascii.eqb i "-"%char
  | _ => false
  end.

Definition presence_Validate (p : PresencePayload) : option presence_error :=
  if negb (pp_SchemaVersion p =? 1) then Some ErrPresenceSchemaVersion
  else if negb (validClientClassRegex (pp_ClientClass p)) then Some ErrPresenceClientClass
  else if String.eqb (pp_ClientVersion p) "" || (64 <? str_len (pp_ClientVersion p)) then Some ErrPresenceClientVersion
  else if negb (validEpoch1dRegex (pp_Epoch1d p)) then Some ErrPresenceEpoch1d
  else if negb (validEpochIntRegex (pp_Epoch7d p)) then Some ErrPresenceEpoch7d
  else if negb (validEpochIntRegex (pp_Epoch30d p)) then Some ErrPresenceEpoch30d
  else if negb (validHexTokenRegex (pp_Token1d p)) then Some ErrPresenceToken1d
  else if negb (validHexTokenRegex (pp_Token7d p)) then Some ErrPresenceToken7d
  else if negb (validHexTokenRegex (pp_Token30d p)) then Some ErrPresenceToken30d
  else None.

(** ** The client *)

(** [EffectiveClientClass]: the configuration, the environment, the default. *)
Definition EffectiveClientClass (configured env : string) : string :=
  if negb (String.eqb (TrimSpace configured) "") then TrimSpace configured
  else if negb (String.eqb (TrimSpace env) "") then TrimSpace env else "ordinary".

Definition presence_payload (id : Identity) (class version : string) (now : Z) : PresencePayload :=
  let t := presence_tokens id now in
  mkPresence 1 class version (pt_Epoch1d t) (pt_Token1d t) (pt_Epoch7d t) (pt_Token7d t) (pt_Epoch30d t) (pt_Token30d t).

(** One attempt of [reportPresenceIfNeeded]: what it may send, given the day
    stored in the local database ([None] when there is none or it cannot be
    read); then the stored day after the answer, and whether it counts. *)
Definition presence_request (enabled : bool) (serverURL : string) (id : Identity) (class version : string) (now : Z) (stored : option string) :
    option PresencePayload :=
  if negb enabled || String.eqb (TrimRightSet serverURL "/") "" then None
  else if bool_decide (stored = Some (AlignedEpoch1d now)) then None
  else
    let payload := presence_payload id class version now in
    match presence_Validate payload with Some _ => None | None => Some payload end.

Definition presence_answered (now : Z) (status : option Z) (stored : option string) : option string * bool :=
  match status with
  | Some s => if (s =? 200) || (s =? 202) then (Some (AlignedEpoch1d now), true) else (stored, false)
  | None => (stored, false)
  end.

(** ** The store *)

Record fakePresenceRecord := mkPresenceRecord {
  fp_IntervalKind : string;
  fp_Epoch : string;
  fp_Token : string;
  fp_ClientClass : string;
  fp_ClientVersion : string;
  fp_CreatedAt : Z;
  fp_UpdatedAt : Z
}.

Notation installs := (gmap string fakePresenceRecord).

Definition install_key (kind epoch token : string) : string := kind +:+ ":" +:+ epoch +:+ ":" +:+ token.

Definition record_interval (class version : string) (ts : Z) (st : installs) (it : string * string * string) : installs :=
  let '(kind, epoch, token) := it in
  let key := install_key kind epoch token in
  match st !! key with
  | Some e => <[key := mkPresenceRecord (fp_IntervalKind e) (fp_Epoch e) (fp_Token e) class version (fp_CreatedAt e) ts]> st
  | None => <[key := mkPresenceRecord kind epoch token class version ts ts]> st
  end.

Definition intervals (p : PresencePayload) : list (string * string * string) :=
  [("1d", pp_Epoch1d p, ToLower (pp_Token1d p)); ("7d", pp_Epoch7d p, ToLower (pp_Token7d p)); ("30d", pp_Epoch30d p, ToLower (pp_Token30d p))].

Definition RecordPresence (report : PresencePayload) (now : Z) (st : installs) : installs * option presence_error :=
  match presence_Validate report with
  | Some e => (st, Some e)
  | None => (fold_left (record_interval (pp_ClientClass report) (pp_ClientVersion report) now) (intervals report) st, None)
  end.

(** The endpoint, after decoding: the store validates again. *)
Definition handlePresence (req : PresencePayload) (now : Z) (st : installs) : installs * option presence_error :=
  match presence_Validate req with Some e => (st, Some e) | None => RecordPresence req now st end.

Definition stale (cutoff : Z) (r : fakePresenceRecord) : bool := fp_UpdatedAt r <? cutoff.

Definition PrunePresence `{!GoMapRange} (now retentionDays limit : Z) (st : installs) : installs * Z :=
  let days := if retentionDays <=? 0 then 40 else retentionDays in
  let old := List.filter (fun x => stale (AddDays now (- days)) (snd x)) (range_order (map_to_list st)) in
  let gone := if 0 <? limit then firstn (Z.to_nat limit) old else old in
  (fold_left (fun m x => delete (fst x) m) gone st, Z.of_nat (length gone)).

(** The part of [NetworkCounts] that reads the records. *)
Record install_counts := mkInstalls { ActiveInstallations1d : Z; ActiveInstallations7d : Z; ActiveInstallations30d : Z }.

Definition counted_in (kind epoch : string) (r : fakePresenceRecord) : bool :=
  IsPublicClientClass (fp_ClientClass r) && String.eqb (fp_IntervalKind r) kind && String.eqb (fp_Epoch r) epoch.

Definition count_installs (kind epoch : string) (st : installs) : Z :=
  Z.of_nat (length (List.filter (fun x => counted_in kind epoch (snd x)) (map_to_list st))).

Definition NetworkCounts_installs (now : Z) (st : installs) : install_counts :=
  mkInstalls (count_installs "1d" (AlignedEpoch1d now) st) (count_installs "7d" (AlignedEpoch7d now) st) (count_installs "30d" (AlignedEpoch30d now) st).

(** ** What is counted

    Every accepted report is three events; the record of a token says what
    the last event of the token said. *)

Record install_event := mkInstallEvent { ie_kind : string; ie_epoch : string; ie_token : string; ie_class : string; ie_version : string; ie_at : Z }.

Definition report_events (x : PresencePayload * Z) : list install_event :=
  let '(p, now) := x in
  match presence_Validate p with
  | Some _ => []
  | None => map (fun '(k, e, t) => mkInstallEvent k e t (pp_ClientClass p) (pp_ClientVersion p) now) (intervals p)
  end.

Definition record_event (st : installs) (e : install_event) : installs :=
  record_interval (ie_class e) (ie_version e) (ie_at e) st (ie_kind e, ie_epoch e, ie_token e).

Definition record_all (reports : list (PresencePayload * Z)) (st : installs) : installs :=
  fold_left (fun st x => fst (RecordPresence (fst x) (snd x) st)) reports st.

Lemma record_all_events reports st : record_all reports st = fold_left record_event (flat_map report_events reports) st.
Proof.
  revert st. induction reports as [|[p now] rs IH]; intros st; [done|]. cbn [record_all fold_left flat_map]. rewrite fold_left_app.
  fold (record_all rs (fst (RecordPresence p now st))). rewrite IH. f_equal. unfold RecordPresence, report_events. cbn [fst snd].
  by destruct (presence_Validate p).
Qed.

Definition about (kind epoch token : string) (e : install_event) : bool :=
  String.eqb (ie_kind e) kind && String.eqb (ie_epoch e) epoch && String.eqb (ie_token e) token.

(** The class a token was last reported under. *)
Definition last_class (kind epoch token : string) (es : list install_event) : option string :=
  fold_left (fun acc e => if about kind epoch token e then Some (ie_class e) else acc) es None.

Lemma last_class_snoc kind epoch token es e :
  last_class kind epoch token (es ++ [e])%list = if about kind epoch token e then Some (ie_class e) else last_class kind epoch token es.
Proof. unfold last_class. by rewrite fold_left_app. Qed.

(** Events whose key says what they are about. *)
Definition no_colon (s : string) : Prop := lacks ":" s = true.
Definition keyed (e : install_event) : Prop := no_colon (ie_kind e) /\ no_colon (ie_epoch e).

Lemma install_key_inj k e t k' e' t' : no_colon k -> no_colon e -> no_colon k' -> no_colon e' ->
  install_key k e t = install_key k' e' t' -> k = k' /\ e = e' /\ t = t'.
Proof.
  intros K E K' E' Eq. unfold install_key in Eq. cbn [String.append] in Eq.
  pose proof (Cut_app k ":" (e +:+ String ":" t) K) as H1. rewrite Eq, Cut_app in H1 by done. injection H1 as <- H1.
  pose proof (Cut_app e ":" t E) as H2. rewrite <- H1, Cut_app in H2 by done. by injection H2 as <- <-.
Qed.

(** What the store holds after a list of events. *)
Record records (es : list install_event) (st : installs) : Prop := {
  rc_sound : forall key r, st !! key = Some r -> key = install_key (fp_IntervalKind r) (fp_Epoch r) (fp_Token r)
    /\ no_colon (fp_IntervalKind r) /\ no_colon (fp_Epoch r)
    /\ last_class (fp_IntervalKind r) (fp_Epoch r) (fp_Token r) es = Some (fp_ClientClass r);
  rc_complete : forall k e t c, last_class k e t es = Some c ->
    exists r, st !! install_key k e t = Some r /\ fp_IntervalKind r = k /\ fp_Epoch r = e /\ fp_Token r = t
}.

Lemma last_class_keyed es k e t c : Forall keyed es -> last_class k e t es = Some c -> no_colon k /\ no_colon e.
Proof.
  induction es as [|x es IH] using rev_ind; [done|]. rewrite Forall_app, Forall_singleton, last_class_snoc. intros [F [K1 K2]].
  destruct (about k e t x) eqn:A; [|eauto]. intros _. apply andb_true_iff in A as [[A1 A2]%andb_true_iff _]. apply String.eqb_eq in A1, A2. by subst.
Qed.

Lemma about_true k e t x : about k e t x = true <-> ie_kind x = k /\ ie_epoch x = e /\ ie_token x = t.
Proof. unfold about. rewrite !andb_true_iff, !String.eqb_eq. tauto. Qed.

(** The record an event leaves, under the event's key. *)
Lemma record_event_lookup st x : exists r, st !! install_key (ie_kind x) (ie_epoch x) (ie_token x) = None /\ fp_IntervalKind r = ie_kind x /\ fp_Epoch r = ie_epoch x
      /\ fp_Token r = ie_token x /\ fp_ClientClass r = ie_class x /\ record_event st x = <[install_key (ie_kind x) (ie_epoch x) (ie_token x) := r]> st
  \/ exists old, st !! install_key (ie_kind x) (ie_epoch x) (ie_token x) = Some old /\ fp_IntervalKind r = fp_IntervalKind old /\ fp_Epoch r = fp_Epoch old
      /\ fp_Token r = fp_Token old /\ fp_ClientClass r = ie_class x /\ record_event st x = <[install_key (ie_kind x) (ie_epoch x) (ie_token x) := r]> st.
Proof.
  unfold record_event, record_interval. destruct (st !! install_key _ _ _) as [old|] eqn:L.
  - exists (mkPresenceRecord (fp_IntervalKind old) (fp_Epoch old) (fp_Token old) (ie_class x) (ie_version x) (fp_CreatedAt old) (ie_at x)). right. by exists old.
  - exists (mkPresenceRecord (ie_kind x) (ie_epoch x) (ie_token x) (ie_class x) (ie_version x) (ie_at x) (ie_at x)). by left.
Qed.

Lemma records_event es st x : keyed x -> Forall keyed es -> records es st -> records (es ++ [x])%list (record_event st x).
Proof.
  intros [K1 K2] F [S C]. destruct (record_event_lookup st x) as [r E].
  assert (D : fp_IntervalKind r = ie_kind x /\ fp_Epoch r = ie_epoch x /\ fp_Token r = ie_token x /\ fp_ClientClass r = ie_class x
              /\ record_event st x = <[install_key (ie_kind x) (ie_epoch x) (ie_token x) := r]> st).
  { destruct E as [(_ & E1 & E2 & E3 & E4 & E5)|(old & L & E1 & E2 & E3 & E4 & E5)]; [done|].
    destruct (S _ _ L) as (Ek & N1 & N2 & _). apply install_key_inj in Ek as (Q1 & Q2 & Q3); [|done..]. repeat split; [congruence..|done|done]. }
  destruct D as (D1 & D2 & D3 & D4 & ->). clear E. split.
  - intros key r'. rewrite lookup_insert. case_decide as Q.
    + intros [= <-]. rewrite D1, D2, D3, D4, last_class_snoc. rewrite (proj2 (about_true _ _ _ x)) by done. done.
    + intros L. destruct (S _ _ L) as (Ek & N1 & N2 & Lc). split; [done|]. split; [done|]. split; [done|]. rewrite last_class_snoc.
      destruct (about _ _ _ x) eqn:A; [|done]. apply about_true in A as (A1 & A2 & A3). by rewrite Ek, A1, A2, A3 in Q.
  - intros k e t c. rewrite last_class_snoc. rewrite lookup_insert. destruct (about k e t x) eqn:A.
    + apply about_true in A as (<- & <- & <-). intros _. rewrite decide_True by done. eauto.
    + intros L. case_decide as Q; [|eauto]. destruct (last_class_keyed _ _ _ _ _ F L) as [N1 N2].
      apply install_key_inj in Q as (<- & <- & <-); [|done..]. by rewrite (proj2 (about_true _ _ _ x)) in A by done.
Qed.

Lemma report_events_keyed x : Forall keyed (report_events x).
Proof.
  destruct x as [p now]. cbn. destruct (presence_Validate p) eqn:V; [constructor|]. unfold presence_Validate in V.
  destruct (negb (_ =? 1)); [done|]. destruct (negb (validClientClassRegex _)); [done|]. destruct (_ || _); [done|].
  destruct (validEpoch1dRegex (pp_Epoch1d p)) eqn:E1; [|done]. destruct (validEpochIntRegex (pp_Epoch7d p)) eqn:E7; [|done].
  destruct (validEpochIntRegex (pp_Epoch30d p)) eqn:E30; [|done]. clear V.
  assert (N : forall s, validEpochIntRegex s = true -> no_colon s).
  { intros s H. unfold validEpochIntRegex, run_of in H. apply andb_true_iff in H as [_ H]. by apply (lacks_of_forall is_digit). }
  cbn [intervals map]. rewrite !Forall_cons_iff. unfold keyed. cbn [ie_kind ie_epoch].
  split; [split; [done|]|split; [split; [done|by apply N]|split; [split; [done|by apply N]|constructor]]]. unfold no_colon.
  revert E1. generalize (pp_Epoch1d p). intros s. unfold validEpoch1dRegex. repeat (destruct s as [|? s]; [done|]). destruct s; [|done].
  intros [[D Q1]%andb_true_iff Q2]%andb_true_iff. apply Ascii.eqb_eq in Q1, Q2. subst. cbn in D. repeat (apply andb_true_iff in D as [?D D]).
  assert (Nd : forall c, is_digit c = true -> Ascii.eqb c ":"%char = false) by (intros c Hd; by destruct (Ascii.eqb_spec c ":"%char) as [->|]).
  unfold lacks. cbn [str_forall]. by rewrite (Nd _ D0), (Nd _ D1), (Nd _ D2), (Nd _ D3), (Nd _ D4), (Nd _ D5), (Nd _ D6), (Nd _ D7).
Qed.

Lemma records_all reports : records (flat_map report_events reports) (record_all reports ∅).
Proof.
  rewrite record_all_events. assert (F : Forall keyed (flat_map report_events reports)).
  { induction reports; [constructor|]. cbn. apply Forall_app. split; [apply report_events_keyed|done]. }
  induction (flat_map report_events reports) as [|x es IH] using rev_ind; [by split; [intros key r; cbn; rewrite lookup_empty|]|].
  rewrite Forall_app, Forall_singleton in F. destruct F as [F K]. rewrite fold_left_app. cbn. apply records_event; auto.
Qed.

(** The installations of a window: the distinct tokens reported for it whose
    last report named a public class. *)
Definition reported_tokens (kind epoch : string) (es : list install_event) : gset string :=
  list_to_set (map ie_token (List.filter (fun e => String.eqb (ie_kind e) kind && String.eqb (ie_epoch e) epoch) es)).
Definition public_last (kind epoch : string) (es : list install_event) (token : string) : Prop :=
  from_option IsPublicClientClass false (last_class kind epoch token es) = true.
#[export] Instance public_last_dec kind epoch es token : Decision (public_last kind epoch es token).
Proof. apply bool_eq_dec. Defined.
Definition installations (kind epoch : string) (es : list install_event) : gset string :=
  filter (public_last kind epoch es) (reported_tokens kind epoch es).

Lemma last_class_reported kind epoch t es c : last_class kind epoch t es = Some c -> t ∈ reported_tokens kind epoch es.
Proof.
  intros L. unfold reported_tokens. rewrite elem_of_list_to_set, list_elem_of_In, in_map_iff.
  induction es as [|x es IH] using rev_ind; [done|]. rewrite last_class_snoc in L. destruct (about kind epoch t x) eqn:A.
  - apply about_true in A as (A1 & A2 & A3). exists x. split; [done|]. apply filter_In. rewrite in_app_iff. cbn. rewrite A1, A2, !String.eqb_refl. auto.
  - destruct (IH L) as (y & E & I). exists y. split; [done|]. rewrite filter_app, in_app_iff. auto.
Qed.

(** The store counts installations, not reports: whatever the number and the
    order of the reports, a window counts the distinct tokens reported for it,
    those whose last report named a public class. *)
Theorem presence_counts_installations reports now :
  let es := flat_map report_events reports in
  NetworkCounts_installs now (record_all reports ∅)
  = mkInstalls (Z.of_nat (size (installations "1d" (AlignedEpoch1d now) es))) (Z.of_nat (size (installations "7d" (AlignedEpoch7d now) es)))
      (Z.of_nat (size (installations "30d" (AlignedEpoch30d now) es))).
Proof.
  cbv zeta. pose proof (records_all reports) as [S C]. set (es := flat_map report_events reports) in *. set (st := record_all reports ∅) in *.
  assert (G : forall kind epoch, count_installs kind epoch st = Z.of_nat (size (installations kind epoch es))); [|unfold NetworkCounts_installs; by rewrite !G].
  intros kind epoch. unfold count_installs. f_equal. set (L := List.filter _ _).
  assert (Lin : forall x, In x L <-> st !! fst x = Some (snd x) /\ counted_in kind epoch (snd x) = true).
  { intros [k r]. unfold L. rewrite filter_In, <- list_elem_of_In, elem_of_map_to_list. done. }
  assert (Cin : forall r, counted_in kind epoch r = true <-> IsPublicClientClass (fp_ClientClass r) = true /\ fp_IntervalKind r = kind /\ fp_Epoch r = epoch).
  { intros r. unfold counted_in. rewrite !andb_true_iff, !String.eqb_eq. tauto. }
  rewrite <- (length_map (fun x => fp_Token (snd x)) L). change (size ?X) with (length (elements X)). apply Permutation_length, NoDup_Permutation.
  - apply NoDup_ListNoDup. change (NoDup ((fun x => fp_Token (snd x)) <$> L)). apply NoDup_fmap_2_strong.
    + intros [k r] [k' r'] [I Q]%list_elem_of_In%Lin [I' Q']%list_elem_of_In%Lin E. cbn in *. apply Cin in Q as (_ & <- & <-), Q' as (_ & Q1 & Q2).
      apply S in I as I0, I' as I0'. destruct I0 as [Ek _], I0' as [Ek' _]. assert (k = k') as -> by (rewrite Ek, Ek', E, Q1, Q2; done). congruence.
    + unfold L. apply NoDup_ListNoDup. apply List.NoDup_filter. apply NoDup_ListNoDup. apply NoDup_map_to_list.
  - apply NoDup_ListNoDup, NoDup_elements.
  - intros t. rewrite <- (list_elem_of_In (elements _)), elem_of_elements. unfold installations. rewrite elem_of_filter. split.
    + intros I. apply in_map_iff in I as ([k r] & <- & [I Q]%Lin). apply Cin in Q as (P & <- & <-). cbn [fst snd] in *.
      apply S in I as (_ & _ & _ & Lc). split; [unfold public_last; by rewrite Lc|]. by eapply last_class_reported.
    + intros [P _]. unfold public_last in P. destruct (last_class kind epoch t es) as [c|] eqn:Lc; [|done]. cbn in P.
      destruct (C _ _ _ _ Lc) as (r & I & E1 & E2 & E3). apply in_map_iff. exists (install_key kind epoch t, r). split; [done|].
      apply Lin. split; [done|]. apply Cin. cbn [snd]. apply S in I as (_ & _ & _ & Lc'). rewrite E1, E2, E3, Lc in Lc'. injection Lc' as <-. done.
Qed.

(** ** What the client sends is what the server takes *)

Lemma derive_shape id input n : (n <= 64)%nat -> String.length (derive id input n) = n /\ str_forall lower_hex (derive id input n) = true.
Proof.
  intros N. unfold derive, hmac_sha256. set (d := sha256 _). assert (H : String.length (hex_encode d) = 64%nat /\ str_forall lower_hex (hex_encode d) = true).
  { destruct (sha256_bytes (string_of (map (Z.lxor 92) (hmac_key (id_anonSeed id)) ++ sha256 (string_of (map (Z.lxor 54) (hmac_key (id_anonSeed id))) +:+ input))%list)) as [L F].
    fold d in L, F. destruct (hex_encode_shape _ F) as [L' H]. by rewrite L', L, H. }
  destruct H as [L H]. split; [apply take_exact; lia|by apply str_forall_take].
Qed.

Lemma lower_hex_is_hex c : lower_hex c = true -> is_hex_byte c = true.
Proof. unfold lower_hex, is_hex_byte. intros [->| ->]%orb_true_iff; [done|]. by rewrite orb_true_r. Qed.

Lemma token_valid id input : validHexTokenRegex (derive id input 32) = true.
Proof.
  destruct (derive_shape id input 32) as [L H]; [lia|]. unfold validHexTokenRegex, run_of, str_len. rewrite L.
  apply (str_forall_impl _ _ _ lower_hex_is_hex) in H. by rewrite H.
Qed.

Lemma dec_digits_length k fuel n acc : 0 <= n < 10 ^ (Z.of_nat k + 1) ->
  (String.length (dec_digits fuel n acc) <= String.length acc + k + 1)%nat /\ (1 <= fuel -> 1 <= String.length (dec_digits fuel n acc))%nat.
Proof.
  revert fuel n acc. induction k as [|k IH]; intros [|fuel] n acc R; cbn [dec_digits]; try lia.
  - cbn in R. destruct (Z.ltb_spec n 10); [|lia]. cbn. lia.
  - destruct (Z.ltb_spec n 10); [cbn; lia|]. rewrite Nat2Z.inj_succ, Z.add_1_r in R. rewrite Z.pow_succ_r in R by lia.
    destruct (IH fuel (n / 10) (String (chr (48 + n mod 10)) acc)) as [I1 I2].
    { rewrite Z.add_1_r. split; [apply Z.div_pos; lia|]. apply Z.div_lt_upper_bound; lia. }
    cbn [String.length] in *. split; [lia|]. intros _. destruct fuel; [cbn; lia|lia].
Qed.

Lemma epoch_int_valid n : 0 <= n < 10 ^ 15 -> validEpochIntRegex (Itoa n) = true.
Proof.
  intros R. unfold validEpochIntRegex, run_of, Itoa, str_len. destruct (Z.ltb_spec n 0); [lia|].
  destruct (dec_digits_length 15 20 n "") as [L1 L2]; [change (Z.of_nat 15 + 1) with 16; lia|]. cbn [String.length] in L1. specialize (L2 ltac:(lia)).
  rewrite dec_digits_digits by done. rewrite (proj2 (Z.leb_le _ _)), (proj2 (Z.leb_le _ _)) by lia. done.
Qed.

Lemma day_valid d : plain_date d -> validEpoch1dRegex (format_date d) = true.
Proof.
  intros P. rewrite plain_format by done. assert (D : forall z, is_digit (chr (48 + z mod 10)) = true) by (intros z; apply digit_chr, Z.mod_pos_bound; lia).
  unfold fixed_digits, String.append, validEpoch1dRegex. cbn [forallb]. by rewrite !D.
Qed.

Lemma window_index d k : 0 <= d -> 1 <= k -> 0 <= d / k <= d.
Proof. intros D K. split; [apply Z.div_pos; lia|apply Z.div_le_upper_bound; nia]. Qed.

(** Aligned windows of a time after 1970 are the floors. *)
Lemma unix_day_floor t : 0 <= t -> unix_day t = day_of t /\ 0 <= day_of t.
Proof.
  intros T. unfold unix_day, day_of, ns_per_day. split; [|apply Z.div_pos; lia]. rewrite Z.quot_div_nonneg by (try apply Z.div_pos; lia). by rewrite Z.div_div by lia.
Qed.

(** Between 1970 and the year 9999, a client's report is refused only for the
    class or the version it was configured with. *)
Theorem client_report_accepted id class version now st :
  0 <= now -> plain_day (day_of now) ->
  let p := presence_payload id class version now in
  snd (handlePresence p now st) =
    if negb (validClientClassRegex class) then Some ErrPresenceClientClass
    else if String.eqb version "" || (64 <? str_len version) then Some ErrPresenceClientVersion else None.
Proof.
  intros T P p. assert (V : presence_Validate p = if negb (validClientClassRegex class) then Some ErrPresenceClientClass
    else if String.eqb version "" || (64 <? str_len version) then Some ErrPresenceClientVersion else None).
  { unfold presence_Validate, p, presence_payload, presence_tokens. cbn [pp_SchemaVersion pp_ClientClass pp_ClientVersion pp_Epoch1d pp_Token1d pp_Epoch7d
      pp_Token7d pp_Epoch30d pp_Token30d pt_Epoch1d pt_Token1d pt_Epoch7d pt_Token7d pt_Epoch30d pt_Token30d Z.eqb Pos.eqb negb].
    destruct (unix_day_floor now T) as [U D]. unfold plain_day in P.
    unfold PresenceToken1d, PresenceToken7d, PresenceToken30d. rewrite !token_valid. unfold AlignedEpoch1d, format_day. rewrite day_valid by (by apply plain_day_date).
    assert (Q : forall k, 1 <= k -> validEpochIntRegex (Itoa (Z.quot (unix_day now) k)) = true).
    { intros k K. rewrite U, Z.quot_div_nonneg by lia. apply epoch_int_valid. pose proof (window_index (day_of now) k). lia. }
    unfold AlignedEpoch7d, AlignedEpoch30d. rewrite !Q by lia. done. }
  unfold handlePresence, RecordPresence. rewrite V. destruct (negb _); [done|]. by destruct (_ || _).
Qed.

(** ** Pruning *)

(** Records written for reports of their own time. *)
Definition honest (r : fakePresenceRecord) : Prop :=
  0 <= fp_UpdatedAt r /\ plain_day (day_of (fp_UpdatedAt r))
  /\ (fp_IntervalKind r = "1d" -> fp_Epoch r = AlignedEpoch1d (fp_UpdatedAt r))
  /\ (fp_IntervalKind r = "7d" -> fp_Epoch r = AlignedEpoch7d (fp_UpdatedAt r))
  /\ (fp_IntervalKind r = "30d" -> fp_Epoch r = AlignedEpoch30d (fp_UpdatedAt r)).

Lemma same_window k t u : 1 <= k -> 0 <= t -> 0 <= u -> plain_day (day_of t) -> plain_day (day_of u) ->
  Itoa (Z.quot (unix_day t) k) = Itoa (Z.quot (unix_day u) k) -> t - u < k * ns_per_day.
Proof.
  intros K T U Pt Pu E. destruct (unix_day_floor t T) as [Et Dt], (unix_day_floor u U) as [Eu Du]. rewrite Et, Eu, !Z.quot_div_nonneg in E by lia.
  unfold plain_day in *. assert (forall d, 0 <= d <= 2932896 -> in_int64 (d / k)).
  { intros d D. pose proof (window_index d k). unfold in_int64, int64_min, int64_max. lia. }
  apply Itoa_inj in E; [|auto with lia..]. unfold day_of in *. unfold ns_per_day in *.
  pose proof (Z.div_mod (t / 86400000000000) k ltac:(lia)). pose proof (Z.div_mod (u / 86400000000000) k ltac:(lia)).
  pose proof (Z.mod_pos_bound (t / 86400000000000) k ltac:(lia)). pose proof (Z.mod_pos_bound (u / 86400000000000) k ltac:(lia)).
  pose proof (Z.div_mod t 86400000000000 ltac:(lia)). pose proof (Z.mod_pos_bound t 86400000000000 ltac:(lia)).
  pose proof (Z.div_mod u 86400000000000 ltac:(lia)). pose proof (Z.mod_pos_bound u 86400000000000 ltac:(lia)). nia.
Qed.

Lemma same_day t u : plain_day (day_of t) -> plain_day (day_of u) -> AlignedEpoch1d t = AlignedEpoch1d u -> t - u < ns_per_day.
Proof.
  unfold AlignedEpoch1d, format_day. intros Pt Pu E. apply plain_day_date in Pt, Pu. apply (f_equal parse_date) in E. rewrite !parse_format in E by done.
  assert (E' : date_of_day (day_of t) = date_of_day (day_of u)) by congruence. clear E. apply (f_equal day_of_date) in E' as E. rewrite !(proj2 (day_of_date_of_day _)) in E. unfold day_of, ns_per_day in *.
  pose proof (Z.div_mod t 86400000000000 ltac:(lia)). pose proof (Z.mod_pos_bound t 86400000000000 ltac:(lia)).
  pose proof (Z.div_mod u 86400000000000 ltac:(lia)). pose proof (Z.mod_pos_bound u 86400000000000 ltac:(lia)). lia.
Qed.

Lemma count_delete kind epoch k (st : installs) : (forall r, st !! k = Some r -> counted_in kind epoch r = false) ->
  count_installs kind epoch (delete k st) = count_installs kind epoch st.
Proof.
  intros N. destruct (st !! k) as [r|] eqn:L; [|by rewrite delete_id]. unfold count_installs. f_equal.
  rewrite <- (insert_delete_id st k r) at 2 by done. symmetry. rewrite (Permutation_length (l' := List.filter (fun x => counted_in kind epoch (snd x)) ((k, r) :: map_to_list (delete k st)))).
  - cbn. by rewrite N.
  - apply filter_perm, map_to_list_insert, lookup_delete_eq.
Qed.

Lemma count_deletes kind epoch (gone : list (string * fakePresenceRecord)) (st : installs) : (forall x r, In x gone -> st !! fst x = Some r -> counted_in kind epoch r = false) ->
  count_installs kind epoch (fold_left (fun m x => delete (fst x) m) gone st) = count_installs kind epoch st.
Proof.
  revert st. induction gone as [|x gone IH]; intros st N; [done|]. cbn [fold_left]. rewrite IH.
  - apply count_delete. intros r. apply N. by left.
  - intros y r I [_ L]%lookup_delete_Some. eapply N; [right|]; eauto.
Qed.

(** Pruning does not change what is counted: a record of a current window was
    updated less than thirty days ago, and nothing that recent is removed,
    whatever the order the map is ranged over and wherever the limit stops. *)
Theorem prune_keeps_counts `{!GoMapRange} now retentionDays limit st :
  0 <= now -> plain_day (day_of now) -> (forall k r, st !! k = Some r -> honest r) -> (retentionDays <= 0 \/ 30 <= retentionDays) ->
  NetworkCounts_installs now (fst (PrunePresence now retentionDays limit st)) = NetworkCounts_installs now st.
Proof.
  intros T P Hh Rd. unfold PrunePresence. cbn [fst]. set (days := if retentionDays <=? 0 then 40 else retentionDays).
  assert (Dy : 30 <= days) by (unfold days; destruct (Z.leb_spec retentionDays 0); lia). set (old := List.filter _ _).
  assert (Og : forall x, In x old -> st !! fst x = Some (snd x) /\ stale (AddDays now (- days)) (snd x) = true).
  { intros [k r] [I Q]%filter_In. split; [|done]. rewrite <- (Permutation_in' eq_refl (range_order_perm _ _)) in I. by apply list_elem_of_In, elem_of_map_to_list in I. }
  set (gone := if 0 <? limit then _ else _). assert (Gg : forall x, In x gone -> In x old) by (intros x; unfold gone; destruct (0 <? limit); [|done]; intros I; rewrite <- (firstn_skipn (Z.to_nat limit) old); apply in_app_iff; by left).
  assert (St : forall kind epoch x r, kind = "1d" /\ epoch = AlignedEpoch1d now \/ kind = "7d" /\ epoch = AlignedEpoch7d now \/ kind = "30d" /\ epoch = AlignedEpoch30d now ->
               In x gone -> st !! fst x = Some r -> counted_in kind epoch r = false).
  { intros kind epoch x r W I L. destruct (Og x (Gg x I)) as [L' S]. assert (snd x = r) by congruence. subst r.
    destruct (Hh _ _ L) as (U & Pu & H1 & H7 & H30). destruct (counted_in kind epoch (snd x)) eqn:C; [|done]. unfold counted_in in C.
    apply andb_true_iff in C as [[_ C1]%andb_true_iff C2]. apply String.eqb_eq in C1, C2. unfold stale, AddDays in S. apply Z.ltb_lt in S.
    assert (now - fp_UpdatedAt (snd x) < 30 * ns_per_day); [|unfold ns_per_day in *; nia]. unfold ns_per_day.
    rewrite C2 in H1, H7, H30. destruct W as [[W ->]|[[W ->]|[W ->]]]; rewrite W in C1.
    - pose proof (same_day now (fp_UpdatedAt (snd x)) P Pu (H1 C1)). unfold ns_per_day in *. lia.
    - pose proof (same_window 7 now (fp_UpdatedAt (snd x)) ltac:(lia) T U P Pu (H7 C1)). unfold ns_per_day in *. lia.
    - pose proof (same_window 30 now (fp_UpdatedAt (snd x)) ltac:(lia) T U P Pu (H30 C1)). unfold ns_per_day in *. lia. }
  unfold NetworkCounts_installs. rewrite !count_deletes; [done|intros x r; apply St; tauto..].
Qed.
