(* ===== verification/Delivery.v ===== *)
(** * Delivering evidence (internal/evidence/batch.go, the observation tables of
      internal/storage/localdb: observations.go, refusedevidence.go)

    A machine keeps one aggregate per coordinate and day, with its full count
    and whether it was sent.  The batcher reads what is pending, marks it sent,
    posts it in chunks of ten, and puts back what the server did not take.  The
    server merges counts by their growth (Merge.v), so sending again is
    harmless; what must never happen is an aggregate that counts as sent and is
    neither at the server nor refused by it.

    The tables are maps; a statement of the code's SQL is the function it
    computes on them.  Other processes record observations while a request is
    in flight ([ui_other]).  The server is an interface with the one promise the
    client relies on; the endpoint of Evidence.v implements it. *)

From stdpp Require Import gmap.
From S2P Require Import Prelude GoStrings GoUnicode GoStd StringFacts UnicodeFacts WordFacts Calendar Hash.
From S2P Require Import Purl Env Failure Validate Merge Identity.

#[local] Open Scope csx_scope.

(** ** The local tables *)

Record ObsKey := mkObsKey {
  k_Epoch : string; k_PURL : string; k_Symbol : string; k_SymbolConfidence : string; k_EnvHash : string; k_Stage : string; k_Result : string;
  k_ErrorFP : string; k_ErrorCode : string; k_TerminationKind : string; k_ExitCode : option Z; k_Signal : string; k_TimeoutMillis : Z;
  k_ErrorSummary : string; k_EvidenceQuality : string; k_OuterCommand : string; k_OuterStage : string; k_ActualToolchain : string;
  k_StageEvidence : string; k_FailureEvidenceGap : string; k_Direct : bool; k_Coresident : list string; k_DependsOn : list string; k_DependsOnNone : bool }.

(** The primary key of the table, in its order. *)
Definition obs_id : Type := list string.
Definition id_of (k : ObsKey) : obs_id := [k_Epoch k; k_PURL k; k_Symbol k; k_EnvHash k; k_Stage k; k_Result k; k_ErrorFP k].
Definition with_fingerprint (fp : string) (i : obs_id) : obs_id := (firstn 6 i ++ [fp])%list.

Record ObsRow := mkObsRow { o_Key : ObsKey; o_Count : Z; o_LegacyReconciledCount : Z; o_uploaded : bool }.

Record SymbolUsageRow := mkUsage { su_PURL : string; su_Symbol : string; su_ProjectBucket : string; su_LastSeen : Z }.

(** The coordinate a tombstone stands for: the key without the fingerprint. *)
Definition refused_id : Type := list string.
Definition coordinate_of (i : obs_id) : refused_id := firstn 6 i.

Record localdb := mkLocal {
  db_observations : gmap obs_id ObsRow; db_environments : gmap string EnvironmentFingerprint;
  db_refused : gmap refused_id (string * string); db_usages : list SymbolUsageRow }.

Definition set_observations (m : gmap obs_id ObsRow) (db : localdb) : localdb := mkLocal m (db_environments db) (db_refused db) (db_usages db).

Definition set_uploaded (b : bool) (r : ObsRow) : ObsRow := mkObsRow (o_Key r) (o_Count r) (o_LegacyReconciledCount r) b.

Definition SymbolUnknown : string := "UNKNOWN".

(** A list column: joined with commas, and split again when it is read. *)
Definition list_column (l : list string) : list string := let s := Join l "," in if String.eqb s "" then [] else Split s ",".

(** The row an insert stores. *)
Definition stored_key (k : ObsKey) (direct : bool) : ObsKey :=
  mkObsKey (k_Epoch k) (k_PURL k) (k_Symbol k) (if String.eqb (k_SymbolConfidence k) "" then SymbolUnknown else k_SymbolConfidence k) (k_EnvHash k) (k_Stage k) (k_Result k)
    (k_ErrorFP k) (k_ErrorCode k) (k_TerminationKind k) (k_ExitCode k) (k_Signal k) (k_TimeoutMillis k)
    (k_ErrorSummary k) (k_EvidenceQuality k) (k_OuterCommand k) (k_OuterStage k) (k_ActualToolchain k)
    (k_StageEvidence k) (k_FailureEvidenceGap k) direct (list_column (k_Coresident k)) (list_column (k_DependsOn k))
    (k_DependsOnNone k && Nat.eqb (length (k_DependsOn k)) 0 && String.eqb (k_Symbol k) "").

Definition RecordObservation (k : ObsKey) (incr : Z) (db : localdb) : localdb :=
  let row := match db_observations db !! id_of k with
    | Some old => mkObsRow (stored_key k (k_Direct (o_Key old) || k_Direct k)) (o_Count old + incr) (o_LegacyReconciledCount old) false
    | None => mkObsRow (stored_key k (k_Direct k)) incr 0 false
    end in
  set_observations (<[id_of k := row]> (db_observations db)) db.

Definition SaveEnvironment (fp : EnvironmentFingerprint) (db : localdb) : localdb :=
  mkLocal (db_observations db) (<[env_Hash fp := fp]> (db_environments db)) (db_refused db) (db_usages db).

Fixpoint cmp_strings (a b : list string) : Z :=
  match a, b with
  | x :: a, y :: b => let c := str_cmp x y in if c =? 0 then cmp_strings a b else c
  | [], [] => 0 | [], _ => -1 | _, [] => 1
  end.
Definition row_lt (a b : ObsRow) : bool := cmp_strings (id_of (o_Key a)) (id_of (o_Key b)) <? 0.

Definition pending_rows (db : localdb) : list ObsRow :=
  insertion_sort row_lt (List.filter (fun r => negb (o_uploaded r)) (map snd (map_to_list (db_observations db)))).
Definition PendingObservations (limit : nat) (db : localdb) : list ObsRow := firstn limit (pending_rows db).

Definition ObservationCount (i : obs_id) (db : localdb) : option Z := option_map o_Count (db_observations db !! i).

Definition mark_rows (f : ObsRow -> ObsRow) (ids : list obs_id) (db : localdb) : localdb :=
  set_observations (fold_left (fun m i => alter f i m) ids (db_observations db)) db.
Definition MarkObservationsUploaded : list obs_id -> localdb -> localdb := mark_rows (set_uploaded true).
Definition MarkObservationsPending : list obs_id -> localdb -> localdb := mark_rows (set_uploaded false).

Definition RecordRefusedEvidence (i : obs_id) (code reason : string) (db : localdb) : localdb :=
  mkLocal (db_observations db) (db_environments db) (<[coordinate_of i := (code, reason)]> (db_refused db)) (db_usages db).

(** The rows an unsigned exit status was recorded in. *)
Definition legacy_row (r : ObsRow) : bool := match k_ExitCode (o_Key r) with Some c => (2147483647 <? c) && (c <=? 4294967295) | None => false end.
Definition LegacyWindowsObservations (db : localdb) : list ObsRow :=
  insertion_sort row_lt (List.filter legacy_row (map snd (map_to_list (db_observations db)))).

Definition RequeueLegacyWindowsObservation (i : obs_id) (combined : Z) : localdb -> localdb :=
  mark_rows (fun r => if o_LegacyReconciledCount r <? combined then set_uploaded false r else r) [i].
Definition MarkLegacyWindowsObservationReconciled (i : obs_id) (combined : Z) : localdb -> localdb :=
  mark_rows (fun r => mkObsRow (o_Key r) (o_Count r) (Z.max (o_LegacyReconciledCount r) combined) (o_uploaded r)) [i].

(** ** Assembling the batches *)

(** The latest sighting among those [f] selects; the first of equals. *)
Definition latest_bucket (f : SymbolUsageRow -> bool) (l : list SymbolUsageRow) : string :=
  fst (fold_left (fun best u => if f u && (String.eqb (fst best) "" || (snd best <? su_LastSeen u)) then (su_ProjectBucket u, su_LastSeen u) else best)
         l ("", zero_time)).

Definition bucketFor (db : localdb) (r : ObsRow) : string :=
  match ParsePURL (k_PURL (o_Key r)) with
  | Err _ => ""
  | Ok p =>
      let usages := List.filter (fun u => String.eqb (su_PURL u) (purl_String p)) (db_usages db) in
      let exact := latest_bucket (fun u => String.eqb (su_Symbol u) (k_Symbol (o_Key r))) usages in
      if String.eqb exact "" then latest_bucket (fun _ => true) usages else exact
  end.

(** The batch of a row before its count is corrected. *)
Definition row_batch (id : Identity) (bucket : string) (env : EnvironmentFingerprint) (r : ObsRow) : ObservationBatch :=
  let k := o_Key r in
  mkBatch 2 (k_Epoch k) (AnonID id (k_Epoch k)) bucket (k_PURL k) (k_Symbol k)
    (if String.eqb (k_Symbol k) "" then "" else k_SymbolConfidence k) env (k_Stage k) (k_Result k) (o_Count r)
    (k_ErrorFP k) (k_ErrorCode k) (k_TerminationKind k) (k_ExitCode k) (k_Signal k) (k_TimeoutMillis k)
    (k_ErrorSummary k) (k_EvidenceQuality k) (k_OuterCommand k) (k_OuterStage k) (k_ActualToolchain k)
    (k_StageEvidence k) (k_FailureEvidenceGap k) (k_Direct k) (k_Coresident k) (k_DependsOn k) (k_DependsOnNone k).

Definition set_count (n : Z) (b : ObservationBatch) : ObservationBatch :=
  mkBatch (b_SchemaVersion b) (b_Epoch b) (b_AnonID b) (b_ProjectBucket b) (b_Package b) (b_Symbol b)
    (b_SymbolConfidence b) (b_Environment b) (b_Stage b) (b_Result b) n
    (b_ErrorFingerprint b) (b_ErrorCode b) (b_TerminationKind b) (b_ExitCode b) (b_Signal b) (b_TimeoutMillis b)
    (b_ErrorSummary b) (b_EvidenceQuality b) (b_OuterCommand b) (b_OuterStage b) (b_ActualToolchain b)
    (b_StageEvidence b) (b_FailureEvidenceGap b) (b_Direct b) (b_Coresident b) (b_DependsOn b) (b_DependsOnNone b).

(** [int(uint64(uint32(int32(code))))]. *)
Definition unsigned_code (code : Z) : Z := code mod 2 ^ 32.

Definition modern_quality (q : string) : bool := String.eqb q EvidenceComplete || String.eqb q EvidencePartial.

(** The other spelling of a failure that Windows reported unsigned. *)
Definition other_fingerprint (r : ObsRow) (canonical : ObservationBatch) : string :=
  let k := o_Key r in
  if negb (String.eqb (b_ErrorFingerprint canonical) (k_ErrorFP k)) then b_ErrorFingerprint canonical
  else match k_ExitCode k with
  | Some code => if (code <? 0) && modern_quality (k_EvidenceQuality k) then batch_fingerprint canonical (batch_term canonical (Some (unsigned_code code))) else ""
  | None => ""
  end.

Definition canonicalObservationCount (db : localdb) (r : ObsRow) (canonical : ObservationBatch) : Z :=
  let other := other_fingerprint r canonical in
  if String.eqb other "" || String.eqb other (k_ErrorFP (o_Key r)) then o_Count r
  else o_Count r + default 0 (ObservationCount (with_fingerprint other (id_of (o_Key r))) db).

(** A row with no environment on file stays pending. *)
Definition build_row (id : Identity) (db : localdb) (r : ObsRow) : option (ObservationBatch * ObsRow) :=
  match db_environments db !! k_EnvHash (o_Key r) with
  | None => None
  | Some env =>
      let b := CanonicalizeObservationFailure (row_batch id (bucketFor db r) env r) in
      Some (set_count (canonicalObservationCount db r b) b, r)
  end.

Definition drainLimit : nat := 1000.
Definition uploadChunk : nat := 10.
Definition maxUploadPasses : nat := 40.

Definition build (id : Identity) (db : localdb) : list (ObservationBatch * ObsRow) :=
  omap (build_row id db) (PendingObservations drainLimit db).

(** [Drain] and [Preview]. *)
Definition Drain (id : Identity) (db : localdb) : localdb * list ObservationBatch :=
  let built := build id db in (MarkObservationsUploaded (map (fun x => id_of (o_Key (snd x))) built) db, map fst built).
Definition Preview (id : Identity) (db : localdb) : list ObservationBatch := map fst (build id db).

(** ** The rows of unsigned exit codes *)

Definition prepare_row (db : localdb) (r : ObsRow) : localdb :=
  let probe := row_batch (mkIdentity "" "") "" env_zero r in
  let c := CanonicalizeObservationFailure probe in
  match b_ExitCode c, k_ExitCode (o_Key r) with
  | Some new, Some old =>
      if new =? old then db
      else
        let combined := if String.eqb (b_ErrorFingerprint c) (k_ErrorFP (o_Key r)) then o_Count r
                        else o_Count r + default 0 (ObservationCount (with_fingerprint (b_ErrorFingerprint c) (id_of (o_Key r))) db) in
        if combined <=? o_LegacyReconciledCount r then db else RequeueLegacyWindowsObservation (id_of (o_Key r)) combined db
  | _, _ => db
  end.

(** The pass, as far as its budget reaches. *)
Definition prepareLegacyWindowsReconciliation (reached : nat) (db : localdb) : localdb :=
  fold_left prepare_row (firstn reached (LegacyWindowsObservations db)) db.

Definition markLegacyWindowsReconciled (r : ObsRow) (sent : ObservationBatch) (db : localdb) : localdb :=
  let i := id_of (o_Key r) in
  let mark i := MarkLegacyWindowsObservationReconciled i (b_ObservationCount sent) db in
  match b_ExitCode sent with
  | None => db
  | Some code =>
      if match k_ExitCode (o_Key r) with
         | Some old => match CanonicalExitCode old with Some c => negb (c =? old) && (code =? c) | None => false end
         | None => false
         end then mark i
      else if (0 <=? code) || negb (modern_quality (b_EvidenceQuality sent)) then db
      else mark (with_fingerprint (batch_fingerprint sent (batch_term sent (Some (unsigned_code code)))) i)
  end.

(** ** Uploading *)

Record rejectedBatch := mkRefused { rj_Index : Z; rj_Reason : string; rj_Code : string; rj_Terminal : bool }.

(** What came back: no usable answer, or a 2xx with what its body says;
    [a_ok] is whether the body decoded. *)
Inductive answer := NoAnswer | Answered (a_ok : bool) (a_accepted : option Z) (a_rejected : list rejectedBatch).

Inductive upload_error := QueueUnreadable | MarkFailed | PostFailed | RestoreFailed | RefusedBatches (n : Z) (first : string).

Section upload.
  Context {S : Type}.

(** What an upload meets: the server's answers, what other processes record
    while a request is in flight, and whether the tables can be read and written
    before a request ([ui_reads], [ui_marks]) and after it ([ui_restores]). *)
Record upload_input := mkUpload {
  ui_community : bool; ui_reconcile : nat; ui_reads : nat -> bool; ui_marks : nat -> bool; ui_restores : nat -> bool;
  ui_post : nat -> S -> list ObservationBatch -> S * answer; ui_other : nat -> localdb -> localdb }.

Record upload := mkUploading {
  u_db : localdb; u_server : S; u_sent : Z; u_refused : list rejectedBatch; u_terminal : Z; u_posts : nat }.

Definition rejectionError (refused : list rejectedBatch) : option upload_error :=
  match refused with
  | [] => None
  | r :: _ => Some (RefusedBatches (Z.of_nat (length refused)) (if String.eqb (rj_Reason r) "" then "no reason given" else rj_Reason r))
  end.

(** [post]: how many the server says it took, and what it refused. *)
Definition post_count (n : nat) (a_ok : bool) (accepted : option Z) (rejected : list rejectedBatch) : Z :=
  match (if a_ok then accepted else None) with Some k => k | None => Z.of_nat n - Z.of_nat (length rejected) end.

Definition in_chunk (n : nat) (r : rejectedBatch) : bool := (0 <=? rj_Index r) && (rj_Index r <? Z.of_nat n).

(** The refusals of one answer, each position once. *)
Fixpoint restore_refused (ids : list obs_id) (seen : list Z) (rejected : list rejectedBatch) (db : localdb) : localdb * list Z * Z :=
  match rejected with
  | [] => (db, seen, 0)
  | r :: rest =>
      if negb (in_chunk (length ids) r) || existsb (Z.eqb (rj_Index r)) seen then restore_refused ids seen rest db
      else match ids !! Z.to_nat (rj_Index r) with
      | None => restore_refused ids seen rest db
      | Some i =>
          let db := if rj_Terminal r then RecordRefusedEvidence i (rj_Code r) (rj_Reason r) db else MarkObservationsPending [i] db in
          let '(db, seen, n) := restore_refused ids (rj_Index r :: seen) rest db in
          (db, seen, if rj_Terminal r then n + 1 else n)
      end
  end.

(** What the answer leaves of the chunk. *)
Fixpoint mark_reconciled (i : Z) (seen : list Z) (chunk : list (ObservationBatch * ObsRow)) (db : localdb) : localdb :=
  match chunk with
  | [] => db
  | (b, r) :: chunk => mark_reconciled (i + 1) seen chunk (if existsb (Z.eqb i) seen then db else markLegacyWindowsReconciled r b db)
  end.

Variable ui : upload_input.

Definition chunk_ids (chunk : list (ObservationBatch * ObsRow)) : list obs_id := map (fun x => id_of (o_Key (snd x))) chunk.

Definition upload_chunk (chunk : list (ObservationBatch * ObsRow)) (u : upload) : upload * option upload_error :=
  let n := u_posts u in
  let ids := chunk_ids chunk in
  if negb (ui_marks ui n) then (u, Some MarkFailed)
  else
    let db := MarkObservationsUploaded ids (u_db u) in
    let '(server, a) := ui_post ui n (u_server u) (map fst chunk) in
    let db := ui_other ui n db in
    match a with
    | NoAnswer =>
        let db := if ui_restores ui n then MarkObservationsPending ids db else db in
        (mkUploading db server (u_sent u) (u_refused u) (u_terminal u) (Datatypes.S n), Some PostFailed)
    | Answered ok accepted rejected =>
        let u := mkUploading db server (u_sent u + post_count (length chunk) ok accepted rejected) (u_refused u ++ rejected)%list (u_terminal u) (Datatypes.S n) in
        if negb (ui_restores ui n) && existsb (in_chunk (length chunk)) rejected then (u, Some RestoreFailed)
        else
          let '(db, seen, k) := restore_refused ids [] rejected db in
          let db := mark_reconciled 0 seen chunk db in
          (mkUploading db server (u_sent u) (u_refused u) (u_terminal u + k) (Datatypes.S n), None)
    end.

Fixpoint upload_chunks (fuel : nat) (built : list (ObservationBatch * ObsRow)) (u : upload) : upload * option upload_error :=
  match fuel, built with
  | O, _ | _, [] => (u, None)
  | Datatypes.S fuel, _ =>
      match upload_chunk (firstn uploadChunk built) u with
      | (u, Some e) => (u, Some e)
      | (u, None) => upload_chunks fuel (skipn uploadChunk built) u
      end
  end.

Variable id : Identity.

Fixpoint upload_passes (passes : nat) (pass : nat) (u : upload) : upload * option upload_error :=
  match passes with
  | O => (u, rejectionError (u_refused u))
  | Datatypes.S passes =>
      if negb (ui_reads ui pass) then (u, Some QueueUnreadable)
      else
        let built := build id (u_db u) in
        match built with
        | [] => (u, rejectionError (u_refused u))
        | _ =>
            match upload_chunks (length built) built u with
            | (u, Some e) => (u, Some e)
            | (u, None) =>
                if u_terminal u <? Z.of_nat (length (u_refused u)) then (u, rejectionError (u_refused u))
                else upload_passes passes (Datatypes.S pass) u
            end
        end
  end.

Definition has_pending (db : localdb) : bool := negb (Nat.eqb (length (PendingObservations 1 db)) 0).
Definition has_legacy (db : localdb) : bool := negb (Nat.eqb (length (LegacyWindowsObservations db)) 0).

Definition Upload (db : localdb) (server : S) : upload * option upload_error :=
  let start db := mkUploading db server 0 [] 0 0 in
  if negb (ui_community ui) then (start db, None)
  else if negb (has_pending db) && negb (has_legacy db) then (start db, None)
  else upload_passes maxUploadPasses 0 (start (prepareLegacyWindowsReconciliation (ui_reconcile ui) db)).
End upload.
Arguments upload_input S : clear implicits.
Arguments upload S : clear implicits.

(** ** What the client relies on

    A ledger per reporter, day and aggregate that never falls; and a batch an
    answer does not refuse is in it with its count. *)
Class EvidenceServer (S : Type) := {
  ledger : S -> contribKey -> Z;
  takes : (S -> list ObservationBatch -> S * answer) -> Prop;
  ledger_grows : forall post s bs, takes post -> forall k, ledger s k <= ledger (fst (post s bs)) k;
  ledger_takes : forall post s bs ok accepted rejected, takes post -> snd (post s bs) = Answered ok accepted rejected ->
    forall i b, bs !! i = Some b -> ~ In (Z.of_nat i) (map rj_Index rejected) ->
    b_ObservationCount b <= ledger (fst (post s bs)) (contribKeyOf (CanonicalizeObservationFailure b)) }.

Section delivery.
  Context {S : Type} `{!EvidenceServer S} (id : Identity).

(** Where the server keeps what a row says. *)
Definition wire_key (bucket : string) (env : EnvironmentFingerprint) (r : ObsRow) : contribKey :=
  contribKeyOf (CanonicalizeObservationFailure (CanonicalizeObservationFailure (row_batch id bucket env r))).

Definition delivered (db : localdb) (server : S) (r : ObsRow) : Prop :=
  exists bucket env, db_environments db !! k_EnvHash (o_Key r) = Some env /\ o_Count r <= ledger server (wire_key bucket env r).

Definition refused_for_good (db : localdb) (r : ObsRow) : Prop := is_Some (db_refused db !! coordinate_of (id_of (o_Key r))).

(** Rows stand under their own key, with a count. *)
Definition tables_ok (db : localdb) : Prop := forall i r, db_observations db !! i = Some r -> id_of (o_Key r) = i /\ 0 <= o_Count r.

(** An aggregate that counts as sent is at the server or was refused. *)
Definition nothing_lost (db : localdb) (server : S) : Prop :=
  forall i r, db_observations db !! i = Some r -> o_uploaded r = true -> delivered db server r \/ refused_for_good db r.

(** What other processes do: record observations of aggregates that are not
    waiting to be sent, and save environments. *)
Inductive recorder : localdb -> localdb -> Prop :=
| RecordsSent k n db : 0 <= n -> (forall r, db_observations db !! id_of k = Some r -> o_uploaded r = true) -> recorder db (RecordObservation k n db)
| SavesEnvironment fp db : (forall old, db_environments db !! env_Hash fp = Some old -> old = fp) -> recorder db (SaveEnvironment fp db).

(** What they leave alone. *)
Definition leaves (db db' : localdb) : Prop :=
  (forall i r, db_observations db !! i = Some r -> db_observations db' !! i = Some r \/ o_uploaded r = true /\ exists r', db_observations db' !! i = Some r' /\ o_uploaded r' = false)
  /\ (forall i r', db_observations db !! i = None -> db_observations db' !! i = Some r' -> o_uploaded r' = false)
  /\ db_environments db ⊆ db_environments db' /\ db_refused db' = db_refused db.

Lemma leaves_refl db : leaves db db.
Proof. split; [by left|]. split; [naive_solver|]. done. Qed.

Lemma recorder_leaves db db' : recorder db db' -> tables_ok db -> leaves db db' /\ tables_ok db'.
Proof.
  intros [k n db0 N Q|fp db0 Q] T.
  - assert (K : forall b, id_of (stored_key k b) = id_of k) by done. unfold RecordObservation.
    split; [split; [|split; [|done]]|].
    + intros i r L. cbn [set_observations db_observations]. destruct (decide (id_of k = i)) as [<-|Ne]; [|left; by rewrite lookup_insert_ne].
      right. rewrite L, lookup_insert_eq. split; [by apply Q|]. by eexists.
    + intros i r' L. cbn [set_observations db_observations]. destruct (decide (id_of k = i)) as [<-|Ne]; [|by rewrite lookup_insert_ne, L].
      rewrite L, lookup_insert_eq. by intros [= <-].
    + intros i r. cbn [set_observations db_observations]. destruct (decide (id_of k = i)) as [<-|Ne]; [|rewrite lookup_insert_ne by done; apply T].
      rewrite lookup_insert_eq. destruct (db_observations db0 !! id_of k) as [old|] eqn:L; intros [= <-]; cbn; [|by rewrite K].
      apply T in L as [_ L]. rewrite K. split; [done|lia].
  - split; [split; [by left|]; split; [naive_solver|]; split; [|done]|done].
    cbn [SaveEnvironment db_environments]. destruct (db_environments db0 !! env_Hash fp) as [old|] eqn:L; [specialize (Q old eq_refl); subst old; by rewrite insert_id|by apply insert_subseteq].
Qed.

(** What handling an answer does: rows keep their key and count, and none
    becomes sent. *)
Definition same_evidence (r r' : ObsRow) : Prop := o_Key r' = o_Key r /\ o_Count r' = o_Count r.
Definition lowers (db db' : localdb) : Prop :=
  (forall i, option_Forall2 (fun r r' => same_evidence r r' /\ (o_uploaded r' = true -> o_uploaded r = true)) (db_observations db !! i) (db_observations db' !! i))
  /\ db_environments db' = db_environments db /\ (forall c, is_Some (db_refused db !! c) -> is_Some (db_refused db' !! c)).

Lemma lowers_refl db : lowers db db.
Proof. split; [|done]. intros i. destruct (db_observations db !! i); by constructor. Qed.

Lemma lowers_trans a b c : lowers a b -> lowers b c -> lowers a c.
Proof.
  intros (A1 & A2 & A3) (B1 & B2 & B3). split; [|split; [congruence|auto]]. intros i. specialize (A1 i). specialize (B1 i).
  destruct A1 as [r1 r2 [[K1 C1] U1]|]; inversion B1 as [x r3 [[K2 C2] U2]|]; subst; constructor. split; [split; congruence|auto].
Qed.

Lemma mark_one_lookup f i j db : db_observations (mark_rows f [i] db) !! j = if decide (i = j) then f <$> db_observations db !! j else db_observations db !! j.
Proof. cbn [mark_rows set_observations db_observations fold_left]. destruct (decide (i = j)) as [->|N]; [by rewrite lookup_alter_eq|by rewrite lookup_alter_ne]. Qed.

Lemma mark_one_lowers f i db : (forall r, same_evidence r (f r) /\ (o_uploaded (f r) = true -> o_uploaded r = true)) -> lowers db (mark_rows f [i] db).
Proof.
  intros F. split; [|done]. intros j. rewrite mark_one_lookup. destruct (decide (i = j)); destruct (db_observations db !! j); try done; by constructor.
Qed.

Lemma pending_one_lowers i db : lowers db (MarkObservationsPending [i] db).
Proof. by apply mark_one_lowers. Qed.

Lemma refused_lowers i code reason db : lowers db (RecordRefusedEvidence i code reason db).
Proof.
  split; [intros j; cbn; destruct (db_observations db !! j); by constructor|]. split; [done|]. intros c H. cbn.
  destruct (decide (coordinate_of i = c)) as [->|N]; [by rewrite lookup_insert_eq|by rewrite lookup_insert_ne].
Qed.

Lemma reconciled_lowers r b db : lowers db (markLegacyWindowsReconciled r b db).
Proof.
  assert (M : forall i n, lowers db (MarkLegacyWindowsObservationReconciled i n db)) by (intros; by apply mark_one_lowers).
  unfold markLegacyWindowsReconciled. repeat case_match; try apply M; apply lowers_refl.
Qed.

Lemma mark_reconciled_lowers chunk : forall i seen db, lowers db (mark_reconciled i seen chunk db).
Proof.
  induction chunk as [|[b r] chunk IH]; intros i seen db; [apply lowers_refl|]. cbn. eapply lowers_trans; [|apply IH].
  destruct (existsb _ _); [apply lowers_refl|apply reconciled_lowers].
Qed.

Lemma prepare_lowers n db : lowers db (prepareLegacyWindowsReconciliation n db).
Proof.
  unfold prepareLegacyWindowsReconciliation. generalize (firstn n (LegacyWindowsObservations db)) as l. intros l. revert db.
  induction l as [|r l IH]; intros db; [apply lowers_refl|]. cbn [fold_left]. eapply lowers_trans; [|apply IH]. unfold prepare_row.
  assert (M : forall i n, lowers db (RequeueLegacyWindowsObservation i n db)).
  { intros. apply mark_one_lowers. intros x. by destruct (_ <? _). }
  repeat case_match; try apply M; apply lowers_refl.
Qed.

Lemma delivered_mono db db' server server' r r' : same_evidence r r' -> db_environments db ⊆ db_environments db' -> (forall k, ledger server k <= ledger server' k) ->
  delivered db server r -> delivered db' server' r'.
Proof.
  intros [K C] E L (bucket & env & H & D). exists bucket, env. rewrite K, C. split; [by eapply lookup_weaken|].
  specialize (L (wire_key bucket env r)). unfold wire_key, row_batch in *. rewrite K, C. lia.
Qed.

Lemma lowers_keeps db db' server : lowers db db' -> nothing_lost db server -> nothing_lost db' server.
Proof.
  intros (R & E & F) N i r' L U. specialize (R i). rewrite L in R. inversion R as [r x [Sm Up] L1 L2|]; subst. symmetry in L1.
  destruct (N i r L1 (Up U)) as [D|D]; [left|right].
  - eapply delivered_mono; [exact Sm| |done|exact D]. by rewrite E.
  - unfold refused_for_good. destruct Sm as [-> _]. by apply F.
Qed.

Lemma lowers_tables db db' : lowers db db' -> tables_ok db -> tables_ok db'.
Proof.
  intros (R & _) T i r' L. specialize (R i). rewrite L in R. inversion R as [r x [[K C] _] L1 L2|]; subst. symmetry in L1.
  rewrite K, C. by apply T.
Qed.

Lemma mark_uploaded_lookup b ids db j : db_observations (mark_rows (set_uploaded b) ids db) !! j =
  (if decide (j ∈ ids) then set_uploaded b else fun r => r) <$> db_observations db !! j.
Proof.
  unfold mark_rows. cbn [set_observations db_observations]. generalize (db_observations db) as m. induction ids as [|i ids IH]; intros m; cbn [fold_left].
  - rewrite decide_False by apply not_elem_of_nil. by destruct (m !! j).
  - rewrite IH. destruct (decide (i = j)) as [->|N].
    + rewrite lookup_alter_eq. rewrite (decide_True (P := j ∈ j :: ids)) by constructor. destruct (m !! j); [|done]. cbn. by destruct (decide _).
    + rewrite lookup_alter_ne by done. destruct (decide (j ∈ ids)) as [E|E].
      * rewrite decide_True by by constructor. done.
      * rewrite decide_False by (rewrite elem_of_cons; naive_solver). done.
Qed.

(** A position the answer refused is out of the way. *)
Definition settled (db : localdb) (i : obs_id) : Prop :=
  (forall r, db_observations db !! i = Some r -> o_uploaded r = false) \/ is_Some (db_refused db !! coordinate_of i).

Lemma settled_lowers db db' i : lowers db db' -> settled db i -> settled db' i.
Proof.
  intros (R & _ & F) [P|P]; [left|right; by apply F]. intros r' L. specialize (R i). rewrite L in R.
  inversion R as [r x [_ U] L1 L2|]; subst. symmetry in L1. apply P in L1. destruct (o_uploaded r'); [|done]. by rewrite U in L1.
Qed.

Lemma settle_one i (r : rejectedBatch) db :
  settled (if rj_Terminal r then RecordRefusedEvidence i (rj_Code r) (rj_Reason r) db else MarkObservationsPending [i] db) i.
Proof.
  destruct (rj_Terminal r); [right; cbn; by rewrite lookup_insert_eq|left]. intros x. unfold MarkObservationsPending. rewrite mark_one_lookup, decide_True by done.
  destruct (db_observations db !! i); [|done]. by intros [= <-].
Qed.

Lemma restore_refused_spec ids rejected : forall seen db db' seen' k, restore_refused ids seen rejected db = (db', seen', k) ->
  lowers db db'
  /\ (forall j, In j seen' -> In j seen \/ exists i, ids !! Z.to_nat j = Some i /\ 0 <= j /\ settled db' i)
  /\ (forall j : nat, (j < length ids)%nat -> In (Z.of_nat j) (map rj_Index rejected) \/ In (Z.of_nat j) seen -> In (Z.of_nat j) seen').
Proof.
  induction rejected as [|r rejected IH]; intros seen db db' seen' k; cbn [restore_refused map].
  { intros [= <- <- _]. split; [apply lowers_refl|]. split; [by left|]. intros j _ [[]|H]. done. }
  destruct (negb (in_chunk (length ids) r) || existsb (Z.eqb (rj_Index r)) seen) eqn:B.
  - intros (L & A & C)%IH. split; [done|]. split; [done|]. intros j J [[E|I]|I]; [|apply C; auto..].
    apply C; [done|]. right. apply orb_true_iff in B as [B|B].
    + exfalso. unfold in_chunk in B. rewrite E in B. lia.
    + apply existsb_exists in B as (x & I & X%Z.eqb_eq). congruence.
  - apply orb_false_iff in B as [B%negb_false_iff N]. destruct (ids !! Z.to_nat (rj_Index r)) as [i|] eqn:I.
    2:{ exfalso. apply lookup_ge_None in I. unfold in_chunk in B. lia. }
    set (db1 := if rj_Terminal r then _ else _). destruct (restore_refused ids (rj_Index r :: seen) rejected db1) as [[db2 seen2] k2] eqn:R.
    intros [= <- <- _]. apply IH in R as (L & A & C). split; [|split].
    + eapply lowers_trans; [|exact L]. unfold db1. destruct (rj_Terminal r); [apply refused_lowers|apply pending_one_lowers].
    + intros j J. destruct (A j J) as [[<-|J']|J']; [right|by left|by right]. exists i. split; [done|]. split; [unfold in_chunk in B; lia|].
      eapply settled_lowers; [exact L|]. apply settle_one.
    + intros j J [[E|M]|M]; apply C; auto; right; [left; done|right; done].
Qed.

(** A row of the drain, as its batch describes it. *)
Definition describes (db : localdb) (x : ObservationBatch * ObsRow) : Prop :=
  o_uploaded (snd x) = false
  /\ exists bucket env, db_environments db !! k_EnvHash (o_Key (snd x)) = Some env
     /\ contribKeyOf (CanonicalizeObservationFailure (fst x)) = wire_key bucket env (snd x) /\ o_Count (snd x) <= b_ObservationCount (fst x).

Definition waiting (db : localdb) (x : ObservationBatch * ObsRow) : Prop :=
  describes db x /\ exists r, db_observations db !! id_of (o_Key (snd x)) = Some r /\ same_evidence (snd x) r /\ o_uploaded r = false.

Definition sound (db : localdb) (server : S) (todo : list (ObservationBatch * ObsRow)) : Prop :=
  tables_ok db /\ nothing_lost db server /\ Forall (waiting db) todo /\ NoDup (chunk_ids todo).

Lemma sound_nil db server : tables_ok db -> nothing_lost db server -> sound db server [].
Proof. intros T N. split; [done|]. split; [done|]. split; [constructor|apply NoDup_nil_2]. Qed.

Lemma describes_mono db db' x : db_environments db ⊆ db_environments db' -> describes db x -> describes db' x.
Proof. intros E [U (b & env & H & K & C)]. split; [done|]. exists b, env. split; [by eapply lookup_weaken|done]. Qed.

Lemma waiting_lowers db db' x : lowers db db' -> waiting db x -> waiting db' x.
Proof.
  intros (R & E & _) [D (r & L & Sm & U)]. split; [apply (describes_mono db); [by rewrite E|done]|].
  specialize (R (id_of (o_Key (snd x)))). rewrite L in R. inversion R as [y r' [[K C] Up] L1 L2|]; subst.
  exists r'. split; [done|]. destruct Sm as [K1 C1]. split; [split; congruence|]. destruct (o_uploaded r') eqn:X; [|done]. by rewrite Up in U.
Qed.

Lemma leaves_trans a b c : leaves a b -> leaves b c -> leaves a c.
Proof.
  intros (A1 & A2 & A3 & A4) (B1 & B2 & B3 & B4). split; [|split; [|split; [by etrans|congruence]]].
  - intros i r L. destruct (A1 i r L) as [M|(U & r' & M & P)]; [by apply B1|]. right. split; [done|]. destruct (B1 i r' M) as [N|(U' & _)]; [by exists r'|congruence].
  - intros i r' L M. destruct (db_observations b !! i) as [q|] eqn:Q; [|by eapply B2]. pose proof (A2 i q L Q) as P.
    destruct (B1 i q Q) as [N|(U & _)]; [congruence|congruence].
Qed.

Lemma recorders_leave db db' : rtc recorder db db' -> tables_ok db -> leaves db db' /\ tables_ok db'.
Proof.
  induction 1 as [db|a b c R _ IH]; intros T; [split; [apply leaves_refl|done]|]. destruct (recorder_leaves a b R T) as [L T']. destruct (IH T') as [L' T''].
  split; [by eapply leaves_trans|done].
Qed.

Lemma mark_tables b ids db : tables_ok db -> tables_ok (mark_rows (set_uploaded b) ids db).
Proof.
  intros T i r. rewrite mark_uploaded_lookup. destruct (db_observations db !! i) as [q|] eqn:Q; [|done]. apply T in Q. intros [= <-]. by destruct (decide _).
Qed.

(** The tables once the request is out. *)
Definition in_flight (ids : list obs_id) (db0 db2 : localdb) : Prop :=
  tables_ok db2 /\ db_environments db0 ⊆ db_environments db2 /\ db_refused db2 = db_refused db0
  /\ (forall i r, db_observations db2 !! i = Some r -> o_uploaded r = true ->
        exists r0, db_observations db0 !! i = Some r0 /\ same_evidence r0 r /\ (i ∈ ids \/ o_uploaded r0 = true))
  /\ (forall i r, i ∉ ids -> db_observations db0 !! i = Some r -> o_uploaded r = false -> db_observations db2 !! i = Some r).

Lemma marked_in_flight ids db0 db2 : tables_ok db0 -> rtc recorder (MarkObservationsUploaded ids db0) db2 -> in_flight ids db0 db2.
Proof.
  intros T R. destruct (recorders_leave _ _ R (mark_tables true ids db0 T)) as [(L1 & L2 & L3 & L4) T2]. split; [done|]. split; [done|]. split; [done|].
  unfold MarkObservationsUploaded in *. split.
  - intros i r Q U. destruct (db_observations (mark_rows (set_uploaded true) ids db0) !! i) as [q|] eqn:M; [|by rewrite (L2 i r M Q) in U].
    assert (E : q = r) by (destruct (L1 i q M) as [E|(_ & r' & E & P)]; congruence). subst q. rewrite mark_uploaded_lookup in M.
    destruct (db_observations db0 !! i) as [r0|]; [|done]. injection M as <-. exists r0. split; [done|]. destruct (decide (i ∈ ids)); [split; [done|by left]|split; [done|by right]].
  - intros i r N Q U. destruct (L1 i r) as [E|(E & _)]; [|done|congruence]. rewrite mark_uploaded_lookup, Q, decide_False; done.
Qed.

Lemma waiting_in_flight ids db0 db2 x : in_flight ids db0 db2 -> id_of (o_Key (snd x)) ∉ ids -> waiting db0 x -> waiting db2 x.
Proof. intros (_ & E & _ & _ & K) N [D (r & L & Sm & U)]. split; [by eapply describes_mono|]. exists r. by auto. Qed.

(** Rows outside the chunk are as safe as they were. *)
Lemma outside_in_flight ids db0 db2 server server' : in_flight ids db0 db2 -> nothing_lost db0 server -> (forall k, ledger server k <= ledger server' k) ->
  forall i r, i ∉ ids -> db_observations db2 !! i = Some r -> o_uploaded r = true -> delivered db2 server' r \/ refused_for_good db2 r.
Proof.
  intros (_ & E & F & K & _) N G i r I L U. destruct (K i r L U) as (r0 & L0 & Sm & [?|U0]); [done|].
  destruct (N i r0 L0 U0) as [D|D]; [left; by eapply delivered_mono|right]. unfold refused_for_good in *. destruct Sm as [-> _]. by rewrite F.
Qed.

(** The server keeps its promise, statements after an answer succeed, and other
    processes record only what is not waiting. *)
Definition fair (ui : upload_input S) : Prop :=
  (forall n, takes (ui_post ui n)) /\ (forall n, ui_restores ui n = true) /\ (forall n db, rtc recorder db (ui_other ui n db)).

Lemma answered_chunk chunk db0 db2 server server' rejected db3 seen k :
  in_flight (chunk_ids chunk) db0 db2 -> nothing_lost db0 server -> tables_ok db0 -> Forall (waiting db0) chunk ->
  (forall k, ledger server k <= ledger server' k) ->
  (forall i b, map fst chunk !! i = Some b -> ~ In (Z.of_nat i) (map rj_Index rejected) ->
     b_ObservationCount b <= ledger server' (contribKeyOf (CanonicalizeObservationFailure b))) ->
  restore_refused (chunk_ids chunk) [] rejected db2 = (db3, seen, k) -> nothing_lost db3 server'.
Proof.
  intros IF N T W G D R. apply restore_refused_spec in R as (Lo & A & C). intros i r L U.
  pose proof Lo as (Ro & E & F). specialize (Ro i). rewrite L in Ro. inversion Ro as [r2 x [Sm Up] L1 L2|]; subst. symmetry in L1. specialize (Up U).
  destruct (decide (i ∈ chunk_ids chunk)) as [I|I].
  - apply list_elem_of_fmap in I as ([b r0] & -> & I). apply list_elem_of_lookup in I as [j J]. rewrite List.Forall_forall in W.
    destruct (W (b, r0)) as [[_ (bucket & env & He & Kw & Cn)] (q & Lq & Sq & Uq)]; [apply list_elem_of_In; by eapply list_elem_of_lookup_2|]. cbn [fst snd] in *.
    pose proof IF as (_ & Ee & _ & K & _). destruct (K _ _ L1 Up) as (q' & Lq' & Sq' & _). rewrite Lq in Lq'. injection Lq' as <-.
    assert (Jl : (j < length (chunk_ids chunk))%nat) by (unfold chunk_ids; rewrite length_map; by eapply lookup_lt_Some).
    destruct (in_dec Z.eq_dec (Z.of_nat j) (map rj_Index rejected)) as [M|M].
    + specialize (C j Jl (or_introl M)). destruct (A _ C) as [[]|(i' & Ii & _ & St)]. rewrite Nat2Z.id in Ii. unfold chunk_ids in Ii. rewrite list_lookup_fmap, J in Ii. injection Ii as <-. cbn in St.
      destruct St as [P|P]; [by rewrite (P r L) in U|right]. unfold refused_for_good. destruct Sm as [-> _]. destruct Sq' as [-> _]. destruct Sq as [-> _]. done.
    + left. specialize (D j b). rewrite list_lookup_fmap, J in D. specialize (D eq_refl M). rewrite Kw in D.
      assert (D0 : delivered db0 server' r0) by (exists bucket, env; split; [done|lia]).
      apply (delivered_mono db0 db3 server' server' r0 r); [|by rewrite E|done|exact D0]. destruct Sm, Sq', Sq. split; congruence.
  - destruct (outside_in_flight _ _ _ _ _ IF N G i r2 I L1 Up) as [X|X]; [left|right].
    + apply (delivered_mono db2 db3 server' server' r2 r); [exact Sm|by rewrite E|done|exact X].
    + unfold refused_for_good in *. destruct Sm as [-> _]. by apply F.
Qed.

Lemma upload_chunk_sound ui chunk rest u : fair ui -> sound (u_db u) (u_server u) (chunk ++ rest) ->
  let '(u', e) := upload_chunk ui chunk u in
  sound (u_db u') (u_server u') (match e with None => rest | Some _ => [] end).
Proof.
  intros (P & Re & O) (T & N & W & ND). unfold upload_chunk. destruct (ui_marks ui (u_posts u)); cbn [negb]; [|by apply sound_nil].
  apply List.Forall_app in W as [Wc Wr]. unfold chunk_ids in ND. rewrite map_app in ND. apply list.NoDup_app in ND as (_ & Dj & NDr).
  pose proof (ledger_grows (ui_post ui (u_posts u)) (u_server u) (map fst chunk) (P _)) as G.
  pose proof (ledger_takes (ui_post ui (u_posts u)) (u_server u) (map fst chunk)) as Tk.
  destruct (ui_post ui (u_posts u) (u_server u) (map fst chunk)) as [server a]. cbn [fst snd] in *.
  set (db2 := ui_other ui (u_posts u) (MarkObservationsUploaded (chunk_ids chunk) (u_db u))).
  assert (IF : in_flight (chunk_ids chunk) (u_db u) db2) by (apply marked_in_flight; [done|apply O]). pose proof IF as (T2 & _).
  assert (Wr2 : Forall (waiting db2) rest).
  { rewrite List.Forall_forall in Wr |- *. intros x X. eapply waiting_in_flight; [exact IF| |by apply Wr]. intros C. apply (Dj _ C). apply list_elem_of_In. by apply in_map with (f := fun x => id_of (o_Key (snd x))). }
  destruct a as [|ok accepted rejected].
  - rewrite Re. apply sound_nil; [by apply mark_tables|]. intros i r L U. cbn [u_db u_server] in *. unfold MarkObservationsPending in L. rewrite mark_uploaded_lookup in L.
    destruct (db_observations db2 !! i) as [q|] eqn:Q; [|done]. injection L as <-. destruct (decide (i ∈ chunk_ids chunk)) as [I|I]; [done|].
    eapply (outside_in_flight _ _ _ _ server IF N G i q I Q U).
  - cbn [u_posts]. rewrite Re. cbn [negb andb]. destruct (restore_refused (chunk_ids chunk) [] rejected db2) as [[db3 seen] k] eqn:R. cbn [u_db u_server].
    pose proof (restore_refused_spec _ _ _ _ _ _ _ R) as (Lo & _). pose proof (mark_reconciled_lowers chunk 0 seen db3) as Lm.
    split; [by eapply lowers_tables, lowers_tables|]. split; [|split; [|done]].
    + eapply lowers_keeps; [exact Lm|]. eapply answered_chunk; eauto.
    + eapply List.Forall_impl; [|exact Wr2]. intros x X. by eapply waiting_lowers, waiting_lowers.
Qed.

Lemma upload_chunks_sound ui fuel : forall built u, fair ui -> (length built <= fuel)%nat -> sound (u_db u) (u_server u) built ->
  let '(u', e) := upload_chunks ui fuel built u in sound (u_db u') (u_server u') [].
Proof.
  induction fuel as [|fuel IH]; intros built u F L H; cbn [upload_chunks].
  - destruct built; [done|cbn in L; lia].
  - destruct built as [|x built]; [done|]. set (all := x :: built) in *. rewrite <- (firstn_skipn uploadChunk all) in H.
    pose proof (upload_chunk_sound ui _ _ u F H) as C. destruct (upload_chunk ui (firstn uploadChunk all) u) as [u' [e|]]; [done|].
    apply IH; [done| |done]. rewrite length_skipn. unfold all, uploadChunk in *. cbn [length] in *. lia.
Qed.

Lemma canon_set_count n b : CanonicalizeObservationFailure (set_count n b) = set_count n (CanonicalizeObservationFailure b).
Proof.
  unfold CanonicalizeObservationFailure. cbn [b_ExitCode set_count]. destruct (b_ExitCode b) as [c|]; [|done]. destruct (CanonicalExitCode c) as [c'|]; [|done].
  destruct (c' =? c); [done|].
  change (derived_fingerprint (set_count n b)) with (derived_fingerprint b). change (batch_fingerprint (set_count n b)) with (batch_fingerprint b).
  change (batch_term (set_count n b)) with (batch_term b). cbn [b_ErrorFingerprint set_count]. by destruct (derived_fingerprint b && _).
Qed.

Lemma build_row_describes db r x : tables_ok db -> db_observations db !! id_of (o_Key r) = Some r -> o_uploaded r = false -> build_row id db r = Some x ->
  waiting db x /\ snd x = r.
Proof.
  intros T L U. unfold build_row. destruct (db_environments db !! k_EnvHash (o_Key r)) as [env|] eqn:E; [|done]. intros [= <-]. split; [|done].
  set (b := CanonicalizeObservationFailure (row_batch id (bucketFor db r) env r)). split; [|by exists r].
  split; [done|]. cbn [fst snd]. exists (bucketFor db r), env. split; [done|]. rewrite canon_set_count. split; [done|].
  cbn [b_ObservationCount set_count]. unfold canonicalObservationCount. destruct (_ || _); [lia|].
  unfold ObservationCount. destruct (db_observations db !! with_fingerprint _ _) as [q|] eqn:Q; cbn [option_map from_option]; [apply T in Q|]; unfold Datatypes.id; lia.
Qed.

Lemma pending_In db r : tables_ok db -> In r (pending_rows db) <-> db_observations db !! id_of (o_Key r) = Some r /\ o_uploaded r = false.
Proof.
  intros T. unfold pending_rows. set (l := List.filter _ _). pose proof (insertion_sort_perm row_lt l) as P.
  assert (E : In r (insertion_sort row_lt l) <-> In r l) by (split; apply Permutation_in; [by symmetry|done]). rewrite E. unfold l. rewrite filter_In, negb_true_iff, in_map_iff. clear E P. split.
  - intros [([i q] & Eq & I) U]. cbn in Eq. subst q. apply list_elem_of_In, elem_of_map_to_list in I. destruct (T i r I) as [-> _]. done.
  - intros [L U]. split; [|done]. exists (id_of (o_Key r), r). split; [done|]. by apply list_elem_of_In, elem_of_map_to_list.
Qed.

Lemma chunk_ids_build db : chunk_ids (build id db) = map (fun r => id_of (o_Key r)) (map snd (build id db)).
Proof. unfold chunk_ids. by rewrite map_map. Qed.

Lemma pending_ids_NoDup db : tables_ok db -> NoDup (map (fun r => id_of (o_Key r)) (pending_rows db)).
Proof.
  intros T. unfold pending_rows. rewrite <- (insertion_sort_perm row_lt). set (l := map_to_list (db_observations db)).
  assert (E : forall x, In x l -> id_of (o_Key (snd x)) = fst x).
  { intros [i r] I. apply list_elem_of_In, elem_of_map_to_list in I. by destruct (T i r I). }
  assert (N : NoDup (map fst l)) by apply NoDup_fst_map_to_list. clearbody l. induction l as [|[i r] l IH]; [constructor|].
  cbn [map List.filter]. apply list.NoDup_cons in N as [N1 N2]. assert (IH' := IH (fun x I => E x (or_intror I)) N2). cbn [snd].
  destruct (negb (o_uploaded r)); [|done]. cbn [map]. constructor; [|done]. pose proof (E (i, r) (or_introl eq_refl)) as Ei. cbn [fst snd] in Ei. rewrite Ei. intros C. apply N1.
  apply list_elem_of_In in C. apply in_map_iff in C as (q & Q & C). apply filter_In in C as [C _]. apply in_map_iff in C as (x & <- & X).
  apply list_elem_of_In, in_map_iff. exists x. split; [|done]. by rewrite <- E by by right.
Qed.

Lemma build_sound db server : tables_ok db -> nothing_lost db server -> sound db server (build id db).
Proof.
  intros T N. split; [done|]. split; [done|]. unfold build, PendingObservations.
  pose proof (pending_ids_NoDup db T) as ND. assert (P : forall r, In r (pending_rows db) -> db_observations db !! id_of (o_Key r) = Some r /\ o_uploaded r = false) by (intros r; by apply pending_In).
  assert (ND' : NoDup (map (fun r => id_of (o_Key r)) (firstn drainLimit (pending_rows db)))).
  { rewrite <- firstn_map. rewrite <- (firstn_skipn drainLimit (map _ _)) in ND. by apply list.NoDup_app in ND as (? & _). }
  assert (P' : forall r, In r (firstn drainLimit (pending_rows db)) -> db_observations db !! id_of (o_Key r) = Some r /\ o_uploaded r = false) by (intros r I; apply P; rewrite <- (firstn_skipn drainLimit (pending_rows db)); apply in_or_app; by left).
  clear P ND. induction (firstn drainLimit (pending_rows db)) as [|r l IH]; [split; [constructor|apply NoDup_nil_2]|].
  cbn [map] in ND'. apply list.NoDup_cons in ND' as [N1 N2]. destruct (IH N2 (fun x I => P' x (or_intror I))) as [W D]. destruct (P' r (or_introl eq_refl)) as [L U].
  change (omap (build_row id db) (r :: l)) with (match build_row id db r with Some y => y :: omap (build_row id db) l | None => omap (build_row id db) l end).
  destruct (build_row id db r) as [x|] eqn:B; [|done]. destruct (build_row_describes db r x T L U B) as [Wx Ex]. split; [by constructor|].
  unfold chunk_ids. cbn [map]. constructor; [|exact D]. rewrite Ex. intros C. apply N1. apply list_elem_of_In in C. apply in_map_iff in C as (y & Y & I).
  apply list_elem_of_In in I. apply list_elem_of_omap in I as (q & I & Q). apply list_elem_of_In, in_map_iff. exists q.
  split; [|by apply list_elem_of_In]. apply list_elem_of_In in I. destruct (P' q (or_intror I)) as [Lq Uq]. destruct (build_row_describes db q y T Lq Uq Q) as [_ <-]. done.
Qed.

Lemma upload_passes_sound ui passes : forall pass u, fair ui -> tables_ok (u_db u) -> nothing_lost (u_db u) (u_server u) ->
  tables_ok (u_db (fst (upload_passes ui id passes pass u))) /\ nothing_lost (u_db (fst (upload_passes ui id passes pass u))) (u_server (fst (upload_passes ui id passes pass u))).
Proof.
  induction passes as [|passes IH]; intros pass u F T N; [done|]. cbn [upload_passes]. destruct (negb _); [done|].
  pose proof (build_sound (u_db u) (u_server u) T N) as B. destruct (build id (u_db u)) as [|x built] eqn:E; [done|].
  pose proof (upload_chunks_sound ui (length (x :: built)) (x :: built) u F (le_n _) B) as C.
  destruct (upload_chunks ui (length (x :: built)) (x :: built) u) as [u' [e|]]; destruct C as (T' & N' & _); [done|].
  destruct (_ <? _); [done|]. by apply IH.
Qed.

(** Whatever the server answers, however requests fail and however the queue
    is cut into chunks: what the upload leaves marked as sent is in the server's
    ledger or refused for good. *)
Lemma upload_loses_nothing ui db server : fair ui -> tables_ok db -> nothing_lost db server ->
  let u := fst (Upload ui id db server) in tables_ok (u_db u) /\ nothing_lost (u_db u) (u_server u).
Proof.
  intros F T N. unfold Upload. destruct (ui_community ui); [|done]. cbn [negb]. destruct (_ && _); [done|].
  pose proof (prepare_lowers (ui_reconcile ui) db) as L. apply upload_passes_sound; [done|by eapply lowers_tables|by eapply lowers_keeps].
Qed.
End delivery.

(** ** The queue empties *)

Section draining.
  Context {S : Type} (id : Identity) (ui : upload_input S).

(** A server that takes everything, and no trouble on this side. *)
Definition calm_upload : Prop :=
  ui_community ui = true /\ (forall n, ui_reads ui n = true) /\ (forall n, ui_marks ui n = true) /\ (forall n db, ui_other ui n db = db)
  /\ (forall n s bs, snd (ui_post ui n s bs) = Answered true (Some (Z.of_nat (length bs))) []).

Definition waiting_ids (db : localdb) : gset obs_id := dom (filter (fun x => o_uploaded (snd x) = false) (db_observations db)).

Lemma waiting_ids_spec db i : i ∈ waiting_ids db <-> exists r, db_observations db !! i = Some r /\ o_uploaded r = false.
Proof.
  unfold waiting_ids. rewrite elem_of_dom. split.
  - intros [r H]. apply map_lookup_filter_Some in H. by exists r.
  - intros (r & L & U). exists r. by apply map_lookup_filter_Some.
Qed.

Lemma waiting_ids_list db : tables_ok db -> waiting_ids db = list_to_set (map (fun r => id_of (o_Key r)) (pending_rows db)).
Proof.
  intros T. apply leibniz_equiv. intros i. rewrite waiting_ids_spec, elem_of_list_to_set, list_elem_of_In, in_map_iff. split.
  - intros (r & L & U). exists r. destruct (T i r L) as [E _]. split; [done|]. apply pending_In; [done|]. by rewrite E.
  - intros (r & <- & [L U]%(pending_In db r T)). by exists r.
Qed.

Lemma waiting_ids_size db : tables_ok db -> size (waiting_ids db) = length (pending_rows db).
Proof. intros T. rewrite waiting_ids_list, size_list_to_set, length_map by (done || by apply pending_ids_NoDup). done. Qed.

(** Marking removes; noting a reconciliation does not matter. *)
Lemma waiting_marked ids db : waiting_ids (MarkObservationsUploaded ids db) = waiting_ids db ∖ list_to_set ids.
Proof.
  apply leibniz_equiv. intros i. rewrite elem_of_difference, !waiting_ids_spec, elem_of_list_to_set. unfold MarkObservationsUploaded. setoid_rewrite mark_uploaded_lookup.
  destruct (db_observations db !! i) as [r|]; cbn; [|naive_solver]. destruct (decide (i ∈ ids)); cbn; naive_solver.
Qed.

Lemma waiting_one f i db : (forall r, o_uploaded (f r) = o_uploaded r) -> waiting_ids (mark_rows f [i] db) = waiting_ids db.
Proof.
  intros F. apply leibniz_equiv. intros j. rewrite !waiting_ids_spec. setoid_rewrite mark_one_lookup. destruct (decide (i = j)); [|done].
  destruct (db_observations db !! j) as [r|]; cbn; [|naive_solver]. split; intros (q & [= <-] & U); eexists; (split; [done|]); [by rewrite F in U|by rewrite F].
Qed.

Lemma waiting_reconciled chunk : forall i seen db, waiting_ids (mark_reconciled i seen chunk db) = waiting_ids db.
Proof.
  induction chunk as [|[b r] chunk IH]; intros i seen db; [done|]. cbn [mark_reconciled]. rewrite IH. destruct (existsb _ _); [done|].
  unfold markLegacyWindowsReconciled. repeat case_match; try done; by apply waiting_one.
Qed.

(** Every aggregate has its environment on file. *)
Definition on_file (db : localdb) : Prop := forall i r, db_observations db !! i = Some r -> is_Some (db_environments db !! k_EnvHash (o_Key r)).

Definition same_tables (db db' : localdb) : Prop :=
  (forall i r', db_observations db' !! i = Some r' -> exists r, db_observations db !! i = Some r /\ same_evidence r r') /\ db_environments db' = db_environments db.

Lemma lowers_same db db' : lowers db db' -> same_tables db db'.
Proof.
  intros (R & E & _). split; [|done]. intros i r' L. specialize (R i). rewrite L in R. inversion R as [r x [Sm _] L1 L2|]; subst. by exists r.
Qed.

Lemma marked_same b ids db : same_tables db (mark_rows (set_uploaded b) ids db).
Proof.
  split; [|done]. intros i r'. rewrite mark_uploaded_lookup. destruct (db_observations db !! i) as [r|]; [|done]. intros [= <-]. exists r. by destruct (decide _).
Qed.

Lemma same_tables_ok db db' : same_tables db db' -> tables_ok db /\ on_file db -> tables_ok db' /\ on_file db'.
Proof.
  intros [R E] [T O]. split; intros i r' L; destruct (R i r' L) as (r & Lr & K & C).
  - rewrite K, C. by apply T.
  - rewrite E, K. by eapply O.
Qed.

(** What one undisturbed step leaves. *)
Definition sent_on (built : list (ObservationBatch * ObsRow)) (u u' : upload S) : Prop :=
  (tables_ok (u_db u') /\ on_file (u_db u')) /\ waiting_ids (u_db u') = waiting_ids (u_db u) ∖ list_to_set (chunk_ids built)
  /\ u_sent u' = u_sent u + Z.of_nat (length built) /\ u_refused u' = u_refused u /\ u_terminal u' = u_terminal u.

Lemma calm_chunk chunk u : calm_upload -> tables_ok (u_db u) /\ on_file (u_db u) ->
  exists u', upload_chunk ui chunk u = (u', None) /\ sent_on chunk u u'.
Proof.
  intros (_ & _ & M & O & P) T. unfold upload_chunk. rewrite M. cbn [negb]. specialize (P (u_posts u) (u_server u) (map fst chunk)).
  destruct (ui_post ui (u_posts u) (u_server u) (map fst chunk)) as [server a]. cbn in P. subst a. cbn [existsb]. rewrite andb_false_r, O. cbn [restore_refused].
  eexists. split; [done|]. unfold sent_on. cbn [u_db u_sent u_refused u_terminal]. split; [|split; [|split; [|split]]].
  - eapply same_tables_ok; [apply lowers_same, mark_reconciled_lowers|]. eapply same_tables_ok; [apply marked_same|done].
  - by rewrite waiting_reconciled, waiting_marked.
  - unfold post_count. by rewrite length_map.
  - apply app_nil_r.
  - lia.
Qed.

Lemma calm_chunks fuel : forall built u, calm_upload -> (length built <= fuel)%nat -> tables_ok (u_db u) /\ on_file (u_db u) ->
  exists u', upload_chunks ui fuel built u = (u', None) /\ sent_on built u u'.
Proof.
  induction fuel as [|fuel IH]; intros built u C L T.
  - destruct built; [|cbn in L; lia]. exists u. split; [done|]. split; [done|]. split; [set_solver|]. split; [cbn; lia|done].
  - destruct built as [|x built]; [exists u; split; [done|]; split; [done|]; split; [set_solver|]; split; [cbn; lia|done]|]. cbn [upload_chunks].
    set (all := x :: built) in *. destruct (calm_chunk (firstn uploadChunk all) u C T) as (u1 & -> & T1 & W1 & S1 & R1 & K1).
    destruct (IH (skipn uploadChunk all) u1 C) as (u2 & -> & T2 & W2 & S2 & R2 & K2); [rewrite length_skipn; unfold all, uploadChunk in *; cbn [length] in *; lia|done|].
    exists u2. split; [done|]. split; [done|]. split; [|split; [|split; congruence]].
    + rewrite W2, W1. rewrite <- (firstn_skipn uploadChunk all) at 3. unfold chunk_ids. rewrite map_app, list_to_set_app_L. set_solver.
    + rewrite S2, S1. pose proof (f_equal (@length _) (firstn_skipn uploadChunk all)) as Q. rewrite length_app in Q. lia.
Qed.

Lemma build_all db : tables_ok db -> on_file db -> map snd (build id db) = PendingObservations drainLimit db.
Proof.
  intros T O. unfold build, PendingObservations.
  assert (P : forall r, In r (firstn drainLimit (pending_rows db)) -> is_Some (build_row id db r)).
  { intros r I. assert (J : In r (pending_rows db)) by (rewrite <- (firstn_skipn drainLimit (pending_rows db)); apply in_or_app; by left).
    apply pending_In in J as [L _]; [|done]. apply O in L as [env E]. unfold build_row. rewrite E. by eexists. }
  induction (firstn drainLimit (pending_rows db)) as [|r l IH]; [done|]. destruct (P r (or_introl eq_refl)) as [x X].
  change (omap (build_row id db) (r :: l)) with (match build_row id db r with Some y => y :: omap (build_row id db) l | None => omap (build_row id db) l end).
  rewrite X. cbn [map]. rewrite IH by (intros; by apply P; right). f_equal. unfold build_row in X. destruct (_ !! _); [|done]. by injection X as <-.
Qed.

Lemma drained_size db : tables_ok db -> on_file db ->
  size (waiting_ids db ∖ list_to_set (chunk_ids (build id db))) = (length (pending_rows db) - length (build id db))%nat
  /\ length (build id db) = (drainLimit `min` length (pending_rows db))%nat.
Proof.
  intros T O. pose proof (build_all db T O) as B. unfold PendingObservations in B.
  assert (Lb : length (build id db) = (drainLimit `min` length (pending_rows db))%nat) by (rewrite <- (length_map snd), B; apply length_firstn).
  split; [|done]. rewrite chunk_ids_build, B. rewrite size_difference.
  - rewrite waiting_ids_size by done. rewrite size_list_to_set, length_map, length_firstn, Lb; [done|].
    rewrite <- firstn_map. pose proof (pending_ids_NoDup db T) as N. rewrite <- (firstn_skipn drainLimit (map _ _)) in N. by apply list.NoDup_app in N as (? & _).
  - rewrite waiting_ids_list by done. intros i. rewrite !elem_of_list_to_set. rewrite <- firstn_map. intros I.
    rewrite <- (firstn_skipn drainLimit (map _ (pending_rows db))). apply elem_of_app. by left.
Qed.

Lemma calm_passes passes : forall pass u, calm_upload -> tables_ok (u_db u) /\ on_file (u_db u) -> u_refused u = [] -> u_terminal u = 0 ->
  (length (pending_rows (u_db u)) <= passes * drainLimit)%nat ->
  exists u', upload_passes ui id passes pass u = (u', None) /\ pending_rows (u_db u') = [] /\ u_sent u' = u_sent u + Z.of_nat (length (pending_rows (u_db u))).
Proof.
  induction passes as [|passes IH]; intros pass u C T R K L.
  { exists u. cbn [upload_passes]. rewrite R. split; [done|]. destruct (pending_rows (u_db u)); [split; [done|cbn; lia]|cbn in L; lia]. }
  cbn [upload_passes]. pose proof C as (_ & Rd & _). rewrite Rd. cbn [negb]. destruct T as [T O]. destruct (drained_size (u_db u) T O) as [Sz Ln].
  destruct (build id (u_db u)) as [|x built] eqn:B.
  { exists u. rewrite R. split; [done|]. cbn [length] in Ln. destruct (pending_rows (u_db u)); [split; [done|cbn; lia]|cbn [length] in Ln; unfold drainLimit in Ln; lia]. }
  set (all := x :: built) in *. destruct (calm_chunks (length all) all u C (le_n _) (conj T O)) as (u1 & -> & T1 & W1 & S1 & R1 & K1).
  rewrite R1, K1, R, K. cbn [length Z.ltb]. rewrite <- W1, waiting_ids_size in Sz by apply T1.
  destruct (IH (Datatypes.S pass) u1 C T1) as (u2 & E & P2 & S2); [congruence|congruence|lia|]. cbn. exists u2. split; [done|]. split; [done|]. lia.
Qed.

(** C24.  The queue empties.  When the server takes what it is sent and nothing
    interferes, one upload of up to forty thousand aggregates whose environments
    are on file sends every one of them: it returns no error, the number sent
    is the number that waited, and none is left waiting. *)
Theorem upload_drains_queue db server : calm_upload -> tables_ok db -> on_file db -> has_pending db = true ->
  let ready := prepareLegacyWindowsReconciliation (ui_reconcile ui) db in
  (length (pending_rows ready) <= maxUploadPasses * drainLimit)%nat ->
  exists u, Upload ui id db server = (u, None) /\ pending_rows (u_db u) = [] /\ u_sent u = Z.of_nat (length (pending_rows ready)).
Proof.
  intros C T O H ready L. unfold Upload. pose proof C as (-> & _). cbn [negb]. rewrite H. cbn [negb andb].
  destruct (calm_passes maxUploadPasses 0 (mkUploading ready server 0 [] 0 0) C) as (u & E & P & Sn); [|done..|].
  - eapply same_tables_ok; [apply lowers_same, prepare_lowers|done].
  - exists u. split; [exact E|done].
Qed.
End draining.

(** A machine whose aggregates differ in their symbol. *)
Definition pass_key (symbol : string) : ObsKey :=
  mkObsKey "2026-09-01" "pkg:npm/left-pad@1.3.0" symbol "EXACT" "h" "INSTALL" "PASS" "" "" "" None "" 0 "" "" "" "" "" "" "" true [] [] false.
Definition symbols (l : list string) : localdb :=
  mkLocal (list_to_map (map (fun s => (id_of (pass_key s), mkObsRow (pass_key s) 1 0 false)) l)) {["h" := env_example]} ∅ [].

Lemma symbols_ok l : tables_ok (symbols l) /\ forall i r, db_observations (symbols l) !! i = Some r -> o_uploaded r = false.
Proof.
  assert (P : forall i r, db_observations (symbols l) !! i = Some r -> exists s, i = id_of (pass_key s) /\ r = mkObsRow (pass_key s) 1 0 false).
  { intros i r H. cbn [symbols db_observations] in H. apply elem_of_list_to_map_2, list_elem_of_In, in_map_iff in H as (s & [= <- <-] & _). by exists s. }
  split; intros i r (s & -> & ->)%P; [|done]. split; [done|cbn; lia].
Qed.

Lemma symbols_pending l : (length (pending_rows (symbols l)) <= length l)%nat /\ forall s, In s l -> has_pending (symbols l) = true.
Proof.
  destruct (symbols_ok l) as [T _]. split.
  - rewrite <- (length_map (fun r => id_of (o_Key r))), <- (length_map (fun s => id_of (pass_key s)) l). apply NoDup_incl_length; [apply NoDup_ListNoDup, pending_ids_NoDup, T|].
    intros i (r & <- & [L _]%(pending_In _ _ T))%in_map_iff. cbn [symbols db_observations] in L.
    apply elem_of_list_to_map_2, list_elem_of_In, in_map_iff in L as (s & Ls & I). apply (f_equal fst) in Ls. cbn [fst] in Ls. rewrite <- Ls. by apply (in_map (fun s => id_of (pass_key s))).
  - intros s I. unfold has_pending, PendingObservations. assert (E : exists r, db_observations (symbols l) !! id_of (pass_key s) = Some r).
    { cbn [symbols db_observations]. destruct (list_to_map _ !! _) as [r|] eqn:E; [by exists r|]. apply not_elem_of_list_to_map in E. destruct E.
      apply list_elem_of_In, in_map_iff. exists (id_of (pass_key s), mkObsRow (pass_key s) 1 0 false). split; [done|]. apply in_map_iff. by exists s. }
    destruct E as [r E]. destruct (symbols_ok l) as [_ P]. assert (J : In r (pending_rows (symbols l))).
    { apply pending_In; [done|]. destruct (T _ _ E) as [K _]. rewrite K. split; [done|]. by apply (P _ _ E). }
    by destruct (pending_rows (symbols l)).
Qed.

Definition taking_uplink : upload_input (list ObservationBatch) :=
  mkUpload true 0%nat (fun _ => true) (fun _ => true) (fun _ => true)
    (fun _ log bs => ((log ++ bs)%list, Answered true (Some (Z.of_nat (length bs))) [])) (fun _ db => db).

Lemma upload_drains_queue_witness : exists u,
  Upload taking_uplink (mkIdentity "" "seed") (symbols ["a"; "b"]) [] = (u, None) /\ pending_rows (u_db u) = []
  /\ u_sent u = Z.of_nat (length (pending_rows (symbols ["a"; "b"]))).
Proof.
  apply (upload_drains_queue (mkIdentity "" "seed") taking_uplink (symbols ["a"; "b"]) []); [done|apply symbols_ok| | |].
  - intros i r L. exists env_example. cbn [symbols db_observations] in L. apply elem_of_list_to_map_2, list_elem_of_In, in_map_iff in L as (s & [= <- <-] & _). done.
  - by apply (proj2 (symbols_pending ["a"; "b"])) with "a"; left.
  - etrans; [apply symbols_pending|]. unfold maxUploadPasses, drainLimit. cbn [length]. lia.
Defined.
