(* ===== verification/Uplink.v ===== *)
(** * The client's evidence at the server's endpoint

    Composes Delivery.v with Evidence.v: the endpoint that takes evidence
    keeps the promise the client's batcher relies on, also when its answers are
    lost on the way; so what a machine marks as sent is in the server's store. *)

From stdpp Require Import gmap.
From S2P Require Import Prelude GoStrings GoUnicode GoStd StringFacts UnicodeFacts WordFacts Calendar Hash.
From S2P Require Import Purl Env Targets Failure Anomaly Sanitizer Validate Merge Measured Aggregate Ingest Evidence Identity Delivery.

#[local] Open Scope csx_scope.

(** ** What the merge keeps *)

Definition store_ledger (st : ingest_store) (k : contribKey) : Z := default 0 (m_contributions (st_merge st) !! k).

Lemma merge_all_grows bs : forall m k, default 0 (m_contributions m !! k) <= default 0 (m_contributions (merge_all m bs) !! k).
Proof.
  induction bs as [|b bs IH] using rev_ind; intros m k; [done|]. rewrite merge_all_snoc, apply_state. cbn [m_contributions]. rewrite ledger_lookup.
  specialize (IH m k). destruct (decide _); lia.
Qed.

Lemma merge_all_takes bs : forall m b, In b bs -> b_ObservationCount b <= default 0 (m_contributions (merge_all m bs) !! contribKeyOf b).
Proof.
  induction bs as [|c bs IH] using rev_ind; intros m b; [done|]. rewrite in_app_iff. rewrite merge_all_snoc, apply_state. cbn [m_contributions In]. rewrite ledger_lookup.
  intros [I|[->|[]]].
  - specialize (IH m b I). destruct (decide _); lia.
  - rewrite decide_True by done. lia.
Qed.

(** ** The endpoint *)

(** The gate keeps a batch as it came, up to the edges it drops. *)
Definition edges_dropped (b b' : ObservationBatch) : Prop := b' = b \/ exists edges, b' = set_DependsOn edges b.

Lemma gate_keeps checker trust bs : forall g i, let '(rejected, keep, _) := gate_loop checker trust g i bs in
  forall j b, bs !! j = Some b -> ~ In (i + Z.of_nat j) (map rb_Index rejected) -> exists b', In b' (map snd keep) /\ edges_dropped b b'.
Proof.
  induction bs as [|c bs IH]; intros g i; cbn [gate_loop]; [done|].
  destruct (gate_batch checker trust g i c) as [v g'] eqn:V. specialize (IH g' (i + 1)). destruct (gate_loop checker trust g' (i + 1) bs) as [[rejected keep] g''].
  assert (Tail : forall j b, bs !! j = Some b -> ~ In (i + Z.of_nat (S j)) (map rb_Index rejected) -> exists b', In b' (map snd keep) /\ edges_dropped b b').
  { intros j b J N. apply (IH j b J). by replace (i + 1 + Z.of_nat j) with (i + Z.of_nat (S j)) by lia. }
  revert V. unfold gate_batch. destruct (ValidateBatch c) as [err|].
  { intros [= <- _] [|j] b J N; cbn in *; [|apply Tail with (j := j); [done|naive_solver]]. exfalso. apply N. left. lia. }
  destruct trust.
  { intros [= <- _] [|j] b J N; cbn in *; [injection J as <-; exists c; split; [by left|by left]|].
    destruct (Tail j b J N) as (b' & I & E). exists b'. auto. }
  destruct (publicness checker g _) as [status g1]. destruct (negb (String.eqb status PublicnessPublic)).
  { intros [= <- _] [|j] b J N; cbn in *; [|apply Tail with (j := j); [done|naive_solver]]. exfalso. apply N. left. unfold refuse_publicness. destruct (negb _); cbn; lia. }
  destruct (publicDependsOn checker g1 (b_DependsOn c)) as [edges g2].
  intros [= <- _] [|j] b J N; cbn in *; [injection J as <-; exists (set_DependsOn edges c); split; [by left|right; by exists edges]|].
  destruct (Tail j b J N) as (b' & I & E). exists b'. auto.
Qed.

Lemma canon_set_DependsOn edges b : CanonicalizeObservationFailure (set_DependsOn edges b) = set_DependsOn edges (CanonicalizeObservationFailure b).
Proof.
  unfold CanonicalizeObservationFailure. cbn [b_ExitCode set_DependsOn]. destruct (b_ExitCode b) as [c|]; [|done]. destruct (CanonicalExitCode c) as [c'|]; [|done].
  destruct (c' =? c); [done|].
  change (derived_fingerprint (set_DependsOn edges b)) with (derived_fingerprint b). change (batch_fingerprint (set_DependsOn edges b)) with (batch_fingerprint b).
  change (batch_term (set_DependsOn edges b)) with (batch_term b). cbn [b_ErrorFingerprint set_DependsOn]. by destruct (derived_fingerprint b && _).
Qed.

Section endpoint.
  Context `{!GoSort, !GoMapRange} (show : reject_reason -> string).

(** The reply as the client decodes it. *)
Definition wire_refused (r : RejectedBatch) : rejectedBatch := mkRefused (rb_Index r) (show (rb_Reason r)) (rb_Code r) (rb_Terminal r).
Definition wire_reply (r : evidence_reply) : answer :=
  match r with BadRequest => NoAnswer | EvidenceAccepted n rejected => Answered true (Some n) (map wire_refused rejected) end.

Definition endpoint (checker : option publicness_checker) (trust : bool) (clock : nat -> Z) (st : ingest_store) (bs : list ObservationBatch) : ingest_store * answer :=
  let '(st', r) := handleEvidenceBatches checker trust clock st bs in (st', wire_reply r).

(** A request reaches the endpoint or not, and its answer arrives or not. *)
Definition reaches (post : ingest_store -> list ObservationBatch -> ingest_store * answer) : Prop :=
  forall st bs, exists checker trust clock,
    post st bs = endpoint checker trust clock st bs \/ post st bs = (fst (endpoint checker trust clock st bs), NoAnswer) \/ post st bs = (st, NoAnswer).

Lemma endpoint_grows checker trust clock st bs k : store_ledger st k <= store_ledger (fst (endpoint checker trust clock st bs)) k.
Proof.
  unfold endpoint, handleEvidenceBatches. destruct (_ || _); [done|]. destruct (gate_loop _ _ _ _ _) as [[rejected [|x keep]] g]; [done|].
  pose proof (ingest_merges clock st (map snd (x :: keep))) as [M _]. destruct (IngestBatches _ _ _) as [st' r]. cbn [fst] in *. unfold store_ledger. rewrite M. apply merge_all_grows.
Qed.

Lemma endpoint_takes checker trust clock st bs ok accepted rejected : snd (endpoint checker trust clock st bs) = Answered ok accepted rejected ->
  forall i b, bs !! i = Some b -> ~ In (Z.of_nat i) (map rj_Index rejected) ->
  b_ObservationCount b <= store_ledger (fst (endpoint checker trust clock st bs)) (contribKeyOf (CanonicalizeObservationFailure b)).
Proof.
  unfold endpoint, handleEvidenceBatches. destruct (_ || _); [done|].
  pose proof (gate_loop_ok checker trust gate_start 0 bs (gate_start_ok checker)) as L. pose proof (gate_keeps checker trust bs gate_start 0) as G.
  destruct (gate_loop checker trust gate_start 0 bs) as [[rej keep] g]. destruct L as (_ & K & _).
  assert (Q : forall l i, ~ In i (map rj_Index (map wire_refused (sort_slice (fun a b => rb_Index a <? rb_Index b) l))) -> ~ In i (map rb_Index l)).
  { intros l i N I. apply N. rewrite map_map. cbn. eapply Permutation_in; [|exact I]. apply Permutation_map, sort_slice_perm. }
  assert (Kv : Forall (fun b => ValidateBatch b = None) (map snd keep)) by (apply List.Forall_map; eapply List.Forall_impl; [|exact K]; by intros x []).
  destruct keep as [|x keep].
  - intros [= _ _ <-] i b J N. apply Q in N. destruct (G i b J N) as (b' & [] & _).
  - pose proof (ingest_merges clock st (map snd (x :: keep))) as (M & _ & R). destruct (accepted_all _ Kv) as [E1 E2]. rewrite E1 in M. rewrite E2 in R.
    destruct (IngestBatches _ _ _) as [st' r]. cbn [fst snd wire_reply] in *. rewrite R. cbn [map]. rewrite app_nil_r.
    intros [= _ _ <-] i b J N. apply Q in N. destruct (G i b J N) as (b' & I & E). unfold store_ledger. rewrite M.
    pose proof (merge_all_takes _ (st_merge st) (CanonicalizeObservationFailure b') (in_map _ _ _ I)) as T.
    destruct E as [->|[edges ->]]; [|rewrite canon_set_DependsOn in T];
      (etrans; [|exact T]); unfold CanonicalizeObservationFailure; repeat case_match; done.
Qed.

#[export] Instance endpoint_server : EvidenceServer ingest_store.
Proof.
  refine {| ledger := store_ledger; takes := reaches |}.
  - intros post st bs R k. destruct (R st bs) as (c & t & cl & [->|[->| ->]]); [apply endpoint_grows|apply endpoint_grows|done].
  - intros post st bs ok accepted rejected R. destruct (R st bs) as (c & t & cl & [->|[->| ->]]); [apply endpoint_takes|done|done].
Defined.
End endpoint.

(** ** End to end *)

Section end_to_end.
  Context `{!GoSort, !GoMapRange} (show : reject_reason -> string).
  #[local] Existing Instance endpoint_server.

End end_to_end.

(** A server that is heard. *)
Definition quiet_uplink (show : reject_reason -> string) `{!GoSort, !GoMapRange} : upload_input ingest_store :=
  mkUpload true 0%nat (fun _ => true) (fun _ => true) (fun _ => true)
    (fun _ st bs => endpoint show None true (fun _ => 0) st bs) (fun _ db => db).

#[local] Instance uplink_sort : GoSort := sort_by_insertion.
#[local] Instance uplink_range : GoMapRange := range_in_order.


(** ** A record that arrives between the read and the mark

    The whole drain is read before its first request; a chunk is marked only
    when its turn comes.  An observation recorded while an earlier chunk is in
    flight is marked with it, although its batch was built before: the row says
    it was sent, with a count no request ever carried. *)
Definition log_uplink (k : ObsKey) (n : Z) : upload_input (list ObservationBatch) :=
  mkUpload true 0%nat (fun _ => true) (fun _ => true) (fun _ => true)
    (fun _ log bs => ((log ++ bs)%list, Answered true (Some (Z.of_nat (length bs))) []))
    (fun post db => if Nat.eqb post 0 then RecordObservation k n db else db).

Lemma reconciled_row i chunk : forall r j seen db, db_observations db !! i = Some r ->
  exists r', db_observations (mark_reconciled j seen chunk db) !! i = Some r' /\ o_Count r' = o_Count r /\ o_uploaded r' = o_uploaded r.
Proof.
  induction chunk as [|[b q] chunk IH]; intros r j seen db L; [by exists r|]. cbn [mark_reconciled].
  assert (M : forall k n, exists r', db_observations (MarkLegacyWindowsObservationReconciled k n db) !! i = Some r' /\ o_Count r' = o_Count r /\ o_uploaded r' = o_uploaded r).
  { intros k n. unfold MarkLegacyWindowsObservationReconciled. rewrite mark_one_lookup, L. destruct (decide _); by eexists. }
  assert (K : exists r', db_observations (if existsb (Z.eqb j) seen then db else markLegacyWindowsReconciled q b db) !! i = Some r' /\ o_Count r' = o_Count r /\ o_uploaded r' = o_uploaded r).
  { destruct (existsb _ _); [by exists r|]. unfold markLegacyWindowsReconciled. repeat case_match; try apply M; by exists r. }
  destruct K as (r' & L' & C & U). destruct (IH r' (j + 1) seen _ L') as (r'' & L'' & C' & U'). exists r''. split; [done|]. split; congruence.
Qed.

Lemma interleaved_record_is_lost first rest x r n db :
  length first = uploadChunk -> (length rest <= uploadChunk)%nat -> In x rest -> db_observations db !! id_of (o_Key (snd x)) = Some r ->
  (id_of (o_Key (snd x)) ∉ chunk_ids first) ->
  let ui := log_uplink (o_Key (snd x)) n in
  exists u r', upload_chunks ui 2 (first ++ rest) (mkUploading db [] 0 [] 0 0) = (u, None)
    /\ db_observations (u_db u) !! id_of (o_Key (snd x)) = Some r' /\ o_uploaded r' = true /\ o_Count r' = o_Count r + n
    /\ u_server u = map fst (first ++ rest).
Proof.
  intros Lf Lr I L N ui. cbn [upload_chunks]. destruct (first ++ rest)%list as [|y all] eqn:E; [by destruct first|]. rewrite <- E. clear E y all.
  rewrite firstn_app, Lf, Nat.sub_diag, firstn_O, app_nil_r, firstn_all2 by lia. rewrite skipn_app, Lf, Nat.sub_diag, skipn_all2, app_nil_l by lia. cbn [skipn].
  unfold upload_chunk at 1. cbn -[mark_reconciled RecordObservation MarkObservationsUploaded chunk_ids Z.add].
  set (db1 := RecordObservation _ _ _). assert (L1 : exists r1, db_observations db1 !! id_of (o_Key (snd x)) = Some r1 /\ o_Count r1 = o_Count r + n).
  { unfold db1, RecordObservation, MarkObservationsUploaded. cbn [set_observations db_observations]. rewrite lookup_insert_eq, mark_uploaded_lookup, L, decide_False by done. by eexists. }
  destruct L1 as (r1 & L1 & C1). destruct (reconciled_row _ first _ 0 [] db1 L1) as (r2 & L2 & C2 & _). set (db2 := mark_reconciled 0 [] first db1) in *.
  destruct rest as [|z rest]; [done|]. set (more := (z :: rest)) in *. rewrite firstn_all2 by done.
  unfold upload_chunk. cbn -[mark_reconciled MarkObservationsUploaded chunk_ids Z.add more].
  assert (L3 : db_observations (MarkObservationsUploaded (chunk_ids more) db2) !! id_of (o_Key (snd x)) = Some (set_uploaded true r2)).
  { unfold MarkObservationsUploaded. rewrite mark_uploaded_lookup, L2, decide_True; [done|]. unfold chunk_ids. apply list_elem_of_In, (in_map (fun x => id_of (o_Key (snd x)))), I. }
  destruct (reconciled_row _ more _ 0 [] _ L3) as (r4 & L4 & C4 & U4).
  destruct (skipn uploadChunk more) eqn:Sk; [|exfalso; pose proof (f_equal (@length _) Sk) as Q; rewrite length_skipn in Q; cbn [length] in Q; lia].
  eexists _, r4. split; [done|]. cbn [u_db u_server]. split; [exact L4|]. split; [by rewrite U4|]. split; [rewrite C4; cbn; lia|]. by rewrite map_app.
Qed.
