(* ===== verification/Release.v ===== *)
(** * Signed releases (internal/update: manifest.go, the URL rules of client.go,
      bootstrapmanifest.go)

    What a release says and when the updater believes it: an envelope around
    the exact bytes that were signed, the manifest in them, the window in
    which it is valid, and for every asset an address that names the file of
    this release on a host the program trusts.

    [url.Parse] is modelled up to what these rules read of it (scheme, whether
    there are credentials, host, path); a host in brackets is an IPv6 literal,
    recognised by [GoNetip].  The strict JSON decoder is a parameter
    ([ReleaseJSON]): nothing depends on which bytes decode to which document,
    only on the signature being checked over the bytes that are decoded. *)

From stdpp Require Import gmap.
From S2P Require Import Prelude GoStrings GoUnicode GoStd StringFacts UnicodeFacts WordFacts Regexp Calendar Hash.
From S2P Require Import Purl Env Search Validate Identity.

#[local] Open Scope csx_scope.

(** ** net/url *)

(** [netip.ParseAddr] on the text between brackets, with its zone unescaped:
    the literal, when it is an IPv6 address, which has a colon. *)
Class GoNetip := {
  ip6_literal : string -> option string;
  ip6_has_colon : forall s l, ip6_literal s = Some l -> Contains l ":" = true }.

Record URL := mkURL { u_Scheme : string; u_hasUser : bool; u_Host : string; u_Path : string }.

Definition is_letter (c : ascii) : bool := is_lower c || is_upper c.
Definition is_ctl (c : ascii) : bool := (bv c <? 32) || (bv c =? 127).

(** [getScheme]; [None] for a colon at the start. *)
Fixpoint scheme_loop (first : bool) (acc s : string) (raw : string) : option (string * string) :=
  match s with
  | "" => Some ("", raw)
  | String c s' =>
      if is_letter c then scheme_loop false (acc +:+ single c) s' raw
      else if is_digit c || in_set "+-." c then (if first then Some ("", raw) else scheme_loop false (acc +:+ single c) s' raw)
      else if Ascii.eqb c ":" then (if first then None else Some (acc, s'))
      else Some ("", raw)
  end.
Definition getScheme (raw : string) : option (string * string) := scheme_loop true "" raw raw.

Definition validOptionalPort (port : string) : bool :=
  match port with "" => true | String c ds => Ascii.eqb c ":" && str_forall is_digit ds end.

(** [shouldEscape(c, encodeHost)] for an ASCII byte. *)
Definition escape_in_host (c : ascii) : bool :=
  is_ascii_byte c && negb (is_alnum c || in_set "!$&'()*+,;=:[]<>-_.~" c || (bv c =? 34)).

(** [unescape(s, encodeHost)]. *)
Fixpoint unescape_host (s : string) : option string :=
  match s with
  | "" => Some ""
  | String c s' =>
      if Ascii.eqb c "%" then
        match s' with
        | String h1 (String h2 r) =>
            if ishex h1 && ishex h2 && ((8 <=? unhex h1) || (Ascii.eqb h1 "2" && Ascii.eqb h2 "5"))
            then option_map (String (chr (unhex h1 * 16 + unhex h2))) (unescape_host r)
            else None
        | _ => None
        end
      else if escape_in_host c then None
      else option_map (String c) (unescape_host s')
  end.

Definition validUserinfo (s : string) : bool := str_forall (fun c => is_alnum c || in_set "-._:~!$&'()*+,;=%@" c) s.

(** What stands before and after the last occurrence of a byte. *)
Definition cut_last (c : ascii) (s : string) : option (string * string) :=
  match LastIndexByte s c with Some i => Some (str_take i s, str_drop (S i) s) | None => None end.

Section url.
  Context `{!GoNetip}.

Definition parseHost (host : string) : option string :=
  match cut_last "[" host with
  | Some (_, tail) =>
      match cut_last "]" tail with
      | None => None
      | Some (inner, colonPort) =>
          if negb (validOptionalPort colonPort) then None
          else match ip6_literal inner with
               | Some l => option_map (fun p => "[" +:+ l +:+ "]" +:+ p) (unescape_host colonPort)
               | None => None
               end
      end
  | None =>
      let '(name, port, colon) := Cut host ":" in
      if colon && negb (str_forall is_digit port) then None else unescape_host host
  end.

Definition userinfo_ok (s : string) : bool :=
  let '(name, password, _) := Cut s ":" in
  validUserinfo s && (match PathUnescape name, PathUnescape password with Some _, Some _ => true | _, _ => false end).

Definition parseAuthority (authority : string) : option (bool * string) :=
  match cut_last "@" authority with
  | None => option_map (fun h => (false, h)) (parseHost authority)
  | Some (userinfo, host) =>
      match parseHost host with
      | Some h => if userinfo_ok userinfo then Some (true, h) else None
      | None => None
      end
  end.

(** Everything before the fragment. *)
Definition parse_url (raw : string) : option URL :=
  if str_exists is_ctl raw then None
  else if String.eqb raw "*" then Some (mkURL "" false "" "*")
  else match getScheme raw with
  | None => None
  | Some (scheme, rest) =>
      let scheme := ToLower scheme in
      let '(rest, _, _) := Cut rest "?" in
      if negb (HasPrefix rest "/") && negb (String.eqb scheme "") then Some (mkURL scheme false "" "")
      else if negb (HasPrefix rest "/") && Contains (fst (fst (Cut rest "/"))) ":" then None
      else
        let authority := (negb (String.eqb scheme "") || negb (HasPrefix rest "///")) && HasPrefix rest "//" in
        let '(auth, path) := if authority then
            let a := str_drop 2 rest in
            match IndexByte a "/" with Some i => (parseAuthority (str_take i a), str_drop i a) | None => (parseAuthority a, "") end
          else (Some (false, ""), rest) in
        match auth, PathUnescape path with
        | Some (user, host), Some p => Some (mkURL scheme user host p)
        | _, _ => None
        end
  end.

Definition url_Parse (raw : string) : option URL :=
  let '(u, frag, _) := Cut raw "#" in
  match parse_url u, PathUnescape frag with Some url, Some _ => Some url | _, _ => None end.
End url.

(** [splitHostPort]: the name without brackets, and the port. *)
Definition splitHostPort (hostPort : string) : string * string :=
  let '(host, port) := match LastIndexByte hostPort ":" with
    | Some i => if validOptionalPort (str_drop i hostPort) then (str_take i hostPort, str_drop (S i) hostPort) else (hostPort, "")
    | None => (hostPort, "")
    end in
  (if HasPrefix host "[" && HasSuffix host "]" then str_take (String.length host - 2) (str_drop 1 host) else host, port).

Definition Hostname (u : URL) : string := fst (splitHostPort (u_Host u)).
Definition Port (u : URL) : string := snd (splitHostPort (u_Host u)).

(** ** Where a file of a release may come from *)

Inductive url_error := BadURL | NotPlainHTTPS | UntrustedHost | OutsideReleasePath | WrongAssetPath | WrongAsset | WrongLauncher.

Definition trusted_hosts : list string :=
  ["github.com"; "release-assets.githubusercontent.com"; "objects.githubusercontent.com"; "codesamplex.dev"].

Definition validateDownloadURL (u : URL) : option url_error :=
  if negb (String.eqb (u_Scheme u) "https") || u_hasUser u || negb (String.eqb (Port u) "") then Some NotPlainHTTPS
  else if negb (str_in (ToLower (Hostname u)) trusted_hosts) then Some UntrustedHost else None.

Section urls.
  Context `{!GoNetip}.

Definition release_url (raw : string) (rest : string -> URL -> option url_error) : option url_error :=
  match url_Parse raw with
  | None => Some BadURL
  | Some u => match validateDownloadURL u with Some e => Some e | None => rest (ToLower (Hostname u)) u end
  end.

Definition validateManifestURL (raw channel : string) : option url_error :=
  let want := "csx-update-" +:+ channel +:+ ".json" in
  release_url raw (fun host u =>
    if String.eqb host "github.com" && String.eqb (u_Path u) ("/r2cuerdame/CodeSampleX/releases/latest/download/" +:+ want) then None
    else if String.eqb host "codesamplex.dev" && String.eqb (u_Path u) ("/dl/" +:+ want) then None
    else Some OutsideReleasePath).

Definition asset_name (osName arch : string) : string :=
  "csx-" +:+ osName +:+ "-" +:+ arch +:+ (if String.eqb osName "windows" then ".exe" else "").

Definition release_path (version name : string) : string := "/r2cuerdame/CodeSampleX/releases/download/" +:+ version +:+ "/" +:+ name.

Definition validateSignedAssetURL (raw version osName arch : string) : option url_error :=
  let want := asset_name osName arch in
  release_url raw (fun host u =>
    if String.eqb host "github.com" then (if String.eqb (u_Path u) (release_path version want) then None else Some WrongAssetPath)
    else if String.eqb host "codesamplex.dev" && String.eqb (u_Path u) ("/dl/" +:+ want) then None
    else Some WrongAsset).

Definition launcher_name (arch : string) : string := "csx-launcher-windows-" +:+ arch +:+ ".exe".

Definition validateSignedLauncherURL (raw version arch : string) : option url_error :=
  let want := launcher_name arch in
  release_url raw (fun host u =>
    if String.eqb host "github.com" && String.eqb (u_Path u) (release_path version want) then None
    else if String.eqb host "codesamplex.dev" && String.eqb (u_Path u) ("/dl/" +:+ want) then None
    else Some WrongLauncher).
End urls.

(** ** Release versions *)

(** One number of [canonicalReleaseVersion], anchored: no leading zero. *)
Definition release_number (s : string) : bool :=
  match s with
  | "" => false
  | String c s' => (Ascii.eqb c "0" && String.eqb s' "") || (is_digit c && negb (Ascii.eqb c "0") && str_forall is_digit s')
  end.

Definition IsCanonicalReleaseVersion (v : string) : bool :=
  match CutPrefix v "v" with
  | Some rest => match Split rest "." with [a; b; c] => release_number a && release_number b && release_number c | _ => false end
  | None => false
  end.

Fixpoint parse_numbers (parts : list string) : option (list Z) :=
  match parts with
  | [] => Some []
  | p :: rest =>
      let '(n, ok) := Atoi p in
      if String.eqb p "" || negb ok || (n <? 0) then None else option_map (cons n) (parse_numbers rest)
  end.

Definition parse_release (v : string) : option (list Z) :=
  let v := TrimPrefix (TrimSpace v) "v" in
  if String.eqb v "" || ContainsAny v "-+" then None else parse_numbers (Split v ".").

(** [CompareVersions] of this package: index by index over the longer of the
    two, a missing number read as 0; [None] for its error. *)
Definition CompareReleases (a b : string) : option Z :=
  match parse_release a, parse_release b with Some x, Some y => Some (cmp_padded x y) | _, _ => None end.

(** ** The manifest *)

Record Asset := mkAsset {
  as_OS : string; as_Arch : string; as_URL : string; as_Size : Z; as_SHA256 : string;
  as_MinLauncherVersion : string;
  as_LauncherURL : string; as_LauncherSize : Z; as_LauncherSHA256 : string }.

Record Manifest := mkRelease {
  rm_Schema : Z; rm_Channel : string; rm_Sequence : Z; rm_Version : string;
  rm_PublishedAt : Z; rm_ExpiresAt : Z; rm_MinUpdaterVersion : string; rm_Assets : list Asset }.

Record Envelope := mkEnvelope { en_Payload : string; en_Signature : string }.

#[export] Instance asset_eq : EqDecision Asset.
Proof. solve_decision. Defined.
#[export] Instance manifest_eq : EqDecision Manifest.
Proof. solve_decision. Defined.

Definition ManifestSchema : Z := 1.
Definition DefaultChannel : string := "stable".
Definition maxManifestBytes : Z := 2 ^ 20.
Definition maxSignedPayloadBytes : Z := 256 * 2 ^ 10.
Definition maxManifestValidity : Z := 90 * 24 * 3600 * 1000000000.
Definition SignatureSize : Z := 64.

Inductive release_error :=
| EnvelopeTooLarge | EnvelopeUndecodable | PayloadTooLarge | SignatureTooLarge | PayloadNotBase64 | SignatureNotBase64
| BadSignedSize | SignatureInvalid | ManifestUndecodable | BadSchema | WrongChannel | Incomplete | NotCanonical | Prerelease
| BadWindow | ValidTooLong | BadMinUpdater | FutureDated | Expired | DuplicateTarget (key : string) | BadAsset (key : string)
| BadAssetURL (e : url_error) | BadMinLauncher (key : string)
| LauncherElsewhere | LauncherIncomplete | LauncherDigest | BadLauncherURL (e : url_error).

Definition isLowerHex (s : string) : bool := str_forall lower_hex s.
Definition isSHA256Hex (s : string) : bool := (str_len s =? 64) && str_forall ishex s.

(** [base64.StdEncoding.EncodedLen]. *)
Definition b64_len (n : Z) : Z := (n + 2) / 3 * 4.

(** The strict decoder of encoding/json, for the two documents. *)
Class ReleaseJSON := { decode_envelope : string -> option Envelope; decode_manifest : string -> option Manifest }.

Section manifest.
  Context `{!GoNetip, !Ed25519, !ReleaseJSON}.

Definition validateLauncherAsset (a : Asset) (version : string) : option release_error :=
  if String.eqb (as_LauncherURL a) "" && String.eqb (as_LauncherSHA256 a) "" && (as_LauncherSize a =? 0) then None
  else
    refuse (negb (EqualFold (as_OS a) "windows")) LauncherElsewhere andalso
    refuse (String.eqb (as_LauncherURL a) "" || String.eqb (as_LauncherSHA256 a) "" || (as_LauncherSize a <=? 0)) LauncherIncomplete andalso
    refuse (negb (isSHA256Hex (as_LauncherSHA256 a))) LauncherDigest andalso
    option_map BadLauncherURL (validateSignedLauncherURL (as_LauncherURL a) version (as_Arch a)).

Definition target_key (a : Asset) : string := as_OS a +:+ "/" +:+ as_Arch a.

Definition validate_asset (version : string) (a : Asset) : option release_error :=
  let key := target_key a in
  refuse (String.eqb (as_OS a) "" || String.eqb (as_Arch a) "" || String.eqb (as_URL a) "" || (as_Size a <=? 0)
         || negb (str_len (as_SHA256 a) =? 64) || negb (isLowerHex (as_SHA256 a))) (BadAsset key) andalso
  option_map BadAssetURL (validateSignedAssetURL (as_URL a) version (as_OS a) (as_Arch a)) andalso
  refuse (negb (String.eqb (as_MinLauncherVersion a) "")
         && (negb (String.eqb (as_OS a) "windows") || negb (IsCanonicalReleaseVersion (as_MinLauncherVersion a)))) (BadMinLauncher key).

Fixpoint validate_assets (version : string) (seen : list string) (assets : list Asset) : option release_error :=
  match assets with
  | [] => None
  | a :: rest =>
      refuse (str_in (target_key a) seen) (DuplicateTarget (target_key a)) andalso
      validate_asset version a andalso
      validate_assets version (target_key a :: seen) rest
  end.

(** The checks of a manifest that was authenticated, in order. *)
Definition check_manifest (m : Manifest) (now : Z) (channel : string) : option release_error :=
  let channel := if String.eqb channel "" then DefaultChannel else channel in
  refuse (negb (rm_Schema m =? ManifestSchema)) BadSchema andalso
  refuse (negb (String.eqb (rm_Channel m) channel)) WrongChannel andalso
  refuse ((rm_Sequence m =? 0) || String.eqb (rm_Version m) "" || Nat.eqb (length (rm_Assets m)) 0) Incomplete andalso
  refuse (negb (IsCanonicalReleaseVersion (rm_Version m))) NotCanonical andalso
  refuse (String.eqb channel DefaultChannel && Contains (TrimPrefix (rm_Version m) "v") "-") Prerelease andalso
  refuse (is_zero_time (rm_PublishedAt m) || is_zero_time (rm_ExpiresAt m) || negb (rm_PublishedAt m <? rm_ExpiresAt m)) BadWindow andalso
  refuse (maxManifestValidity <? rm_ExpiresAt m - rm_PublishedAt m) ValidTooLong andalso
  first_refusal (fun a => validateLauncherAsset a (rm_Version m)) (rm_Assets m) andalso
  refuse (negb (String.eqb (rm_MinUpdaterVersion m) "") && negb (IsCanonicalReleaseVersion (rm_MinUpdaterVersion m))) BadMinUpdater andalso
  refuse (now <? rm_PublishedAt m - 600 * 1000000000) FutureDated andalso
  refuse (negb (now <? rm_ExpiresAt m)) Expired andalso
  validate_assets (rm_Version m) [] (rm_Assets m).

Definition VerifyEnvelope (raw publicKey : string) (now : Z) (channel : string) : result Manifest release_error :=
  if maxManifestBytes <? str_len raw then Err EnvelopeTooLarge
  else match decode_envelope raw with
  | None => Err EnvelopeUndecodable
  | Some env =>
      if b64_len maxSignedPayloadBytes <? str_len (en_Payload env) then Err PayloadTooLarge
      else if b64_len SignatureSize <? str_len (en_Signature env) then Err SignatureTooLarge
      else match b64_decode (en_Payload env), b64_decode (en_Signature env) with
      | None, _ => Err PayloadNotBase64
      | _, None => Err SignatureNotBase64
      | Some payload, Some sig =>
          if (maxSignedPayloadBytes <? str_len payload) || negb (str_len sig =? SignatureSize) then Err BadSignedSize
          else if negb (str_len publicKey =? PublicKeySize) || negb (ed_verify publicKey payload sig) then Err SignatureInvalid
          else match decode_manifest payload with
          | None => Err ManifestUndecodable
          | Some m => match check_manifest m now channel with Some e => Err e | None => Ok m end
          end
      end
  end.

Definition EmbeddedPublicKey (PublicKeyBase64 : string) : option string :=
  if String.eqb PublicKeyBase64 "" then None
  else match b64_decode PublicKeyBase64 with Some raw => if str_len raw =? PublicKeySize then Some raw else None | None => None end.

Definition AssetFor (m : Manifest) (osName arch : string) : option Asset :=
  List.find (fun a => String.eqb (as_OS a) osName && String.eqb (as_Arch a) arch) (rm_Assets m).
End manifest.

(** ** Comparing releases *)

Lemma digits_value_bounds s : forall acc v, digits_value acc s = Some v ->
  acc * 10 ^ Z.of_nat (String.length s) <= v < (acc + 1) * 10 ^ Z.of_nat (String.length s).
Proof.
  induction s as [|c s IH]; intros acc v; [intros [= <-]; cbn; lia|]. cbn [digits_value String.length].
  destruct (is_digit c) eqn:D; [|done]. intros H%IH. unfold is_digit in D. rewrite Nat2Z.inj_succ, Z.pow_succ_r by lia.
  assert (0 < 10 ^ Z.of_nat (String.length s)) by (apply Z.pow_pos_nonneg; lia). nia.
Qed.

Lemma digits_value_inj s : forall t acc v, String.length s = String.length t -> digits_value acc s = Some v -> digits_value acc t = Some v -> s = t.
Proof.
  induction s as [|c s IH]; intros [|d t] acc v L; try discriminate L; [done|]. cbn [digits_value]. injection L as L.
  destruct (is_digit c) eqn:C, (is_digit d) eqn:D; try done. intros H1 H2.
  assert (E : bv c = bv d).
  { pose proof (digits_value_bounds _ _ _ H1). pose proof (digits_value_bounds _ _ _ H2). rewrite L in *.
    assert (0 < 10 ^ Z.of_nat (String.length t)) by (apply Z.pow_pos_nonneg; lia). nia. }
  rewrite E in H1. apply bv_inj in E as ->. f_equal. by eapply IH.
Qed.

Lemma release_number_digits s : release_number s = true -> s <> "" /\ str_forall is_digit s = true /\ lacks "." s = true /\ lacks "-" s = true /\ lacks "+" s = true.
Proof.
  intros R. assert (D : str_forall is_digit s = true).
  { destruct s as [|c s]; [done|]. cbn in *. apply orb_true_iff in R as [R|R].
    - apply andb_true_iff in R as [R1 R2]. apply Ascii.eqb_eq in R1 as ->. apply String.eqb_eq in R2 as ->. done.
    - apply andb_true_iff in R as [R1 R2]. apply andb_true_iff in R1 as [-> _]. done. }
  split; [by intros ->|]. split; [done|].
  assert (G : forall c, is_digit c = false -> lacks c s = true).
  { intros c N. unfold lacks. clear R. induction s as [|a s IH]; [done|]. cbn in *. apply andb_true_iff in D as [D1 D2].
    rewrite IH by done. rewrite andb_true_r. apply negb_true_iff, Ascii.eqb_neq. intros ->. congruence. }
  split; [|split]; by apply G.
Qed.

(** Two numbers in canonical form with the same value are the same text. *)
Lemma release_number_value s : release_number s = true -> forall v, digits_value 0 s = Some v ->
  0 <= v /\ (s = "0" /\ v = 0 \/ 10 ^ Z.of_nat (String.length s) <= 10 * v /\ 0 < v) /\ v < 10 ^ Z.of_nat (String.length s).
Proof.
  intros R v H. pose proof (digits_value_bounds _ _ _ H) as B. destruct s as [|c s]; [done|]. cbn [release_number] in R.
  destruct (Ascii.eqb_spec c "0") as [->|N].
  - cbn [andb negb] in R. rewrite andb_false_r, orb_false_r in R. apply String.eqb_eq in R as ->. injection H as <-. split; [done|]. split; [by left|done].
  - cbn [andb negb orb] in R. rewrite andb_true_r in R. apply andb_true_iff in R as [D _]. cbn [digits_value] in H. rewrite D in H.
    pose proof (digits_value_bounds _ _ _ H) as B'. cbn [String.length] in *. rewrite Nat2Z.inj_succ, Z.pow_succ_r in * by lia.
    assert (P : 0 < 10 ^ Z.of_nat (String.length s)) by (apply Z.pow_pos_nonneg; lia).
    assert (48 < bv c). { unfold is_digit in D. assert (bv c <> 48); [|lia]. intros E. apply N. by apply bv_inj. }
    split; [nia|]. split; [right; nia|lia].
Qed.

Lemma release_number_inj s t v : release_number s = true -> release_number t = true ->
  digits_value 0 s = Some v -> digits_value 0 t = Some v -> s = t.
Proof.
  intros Rs Rt Hs Ht. apply (digits_value_inj s t 0 v); [|done|done].
  destruct (release_number_value s Rs v Hs) as (_ & [[-> E]|[Ls Ps]] & Us), (release_number_value t Rt v Ht) as (_ & [[-> E']|[Lt Pt]] & Ut); [done|lia|lia|].
  assert (G : forall a b, 10 ^ Z.of_nat a <= 10 * v -> v < 10 ^ Z.of_nat b -> (a <= b)%nat).
  { intros a b A B. destruct (Nat.le_gt_cases a b) as [|C]; [done|]. exfalso.
    assert (10 ^ (Z.of_nat b + 1) <= 10 ^ Z.of_nat a) by (apply Z.pow_le_mono_r; lia).
    rewrite Z.add_1_r, Z.pow_succ_r in * by lia. lia. }
  apply Nat.le_antisymm; by apply G.
Qed.

Lemma Split_dotted a b c : lacks "." a = true -> lacks "." b = true -> lacks "." c = true ->
  Split (a +:+ "." +:+ b +:+ "." +:+ c) "." = [a; b; c].
Proof.
  intros A B C. change ("." +:+ b +:+ "." +:+ c) with (String "." (b +:+ String "." c)).
  rewrite Split_cons_sep, Split_cons_sep, Split_lacks_id by done. done.
Qed.

(** What a canonical version is made of. *)
Lemma release_parts v : IsCanonicalReleaseVersion v = true <->
  exists a b c, v = "v" +:+ a +:+ "." +:+ b +:+ "." +:+ c /\ Forall (fun p => release_number p = true) [a; b; c].
Proof.
  unfold IsCanonicalReleaseVersion. split.
  - destruct (CutPrefix v "v") as [rest|] eqn:C; [|done]. apply CutPrefix_Some in C as ->.
    destruct (Split rest ".") as [|a [|b [|c [|? ?]]]] eqn:S; try done. intros [[A B]%andb_true_iff C]%andb_true_iff.
    exists a, b, c. split; [|by repeat constructor]. rewrite <- (proj2 (Split_pieces rest ".")), S. done.
  - intros (a & b & c & -> & F). rewrite CutPrefix_app. apply Forall_cons_1 in F as [A F]. apply Forall_cons_1 in F as [B F]. apply Forall_cons_1 in F as [C _].
    rewrite Split_dotted by apply release_number_digits, A || apply release_number_digits, B || apply release_number_digits, C. by rewrite A, B, C.
Qed.

Lemma Atoi_digits s : s <> "" -> str_forall is_digit s = true ->
  exists v, digits_value 0 s = Some v /\ Atoi s = if int64_max <? v then (int64_max, false) else (v, true).
Proof.
  intros N D. assert (G : forall acc, exists v, digits_value acc s = Some v).
  { clear N. induction s as [|c s IH]; intros acc; [by eexists|]. cbn in *. apply andb_true_iff in D as [-> D]. by apply IH. }
  destruct (G 0) as [v V]. exists v. split; [done|]. pose proof (digits_value_bounds _ _ _ V) as B. unfold Atoi.
  destruct s as [|c s]; [done|]. assert (is_digit c = true) by (cbn in D; by apply andb_true_iff in D as [? _]).
  destruct (Ascii.eqb_spec c "-") as [->|]; [done|]. destruct (Ascii.eqb_spec c "+") as [->|]; [done|].
  rewrite V. cbn [String.eqb]. destruct (Z.ltb_spec int64_max v); [done|]. destruct (Z.ltb_spec v int64_min) as [L|]; [|done].
  exfalso. unfold int64_min in L. lia.
Qed.

Lemma parse_numbers_length ps : forall xs, parse_numbers ps = Some xs -> length ps = length xs.
Proof.
  induction ps as [|p ps IH]; intros xs; [by intros [= <-]|]. cbn. destruct (Atoi p) as [n ok]. destruct (_ || _); [done|].
  destruct (parse_numbers ps); [|done]. intros [= <-]. cbn. by rewrite (IH l).
Qed.

(** Equal releases are the same text. *)
Lemma parse_numbers_inj ps : forall qs xs, Forall (fun p => release_number p = true) ps -> Forall (fun p => release_number p = true) qs ->
  parse_numbers ps = Some xs -> parse_numbers qs = Some xs -> ps = qs.
Proof.
  induction ps as [|p ps IH]; intros qs xs Fp Fq Hp Hq.
  - apply parse_numbers_length in Hp, Hq. destruct qs; [done|]. cbn in *. lia.
  - destruct qs as [|q qs]; [apply parse_numbers_length in Hp, Hq; cbn in *; lia|]. apply Forall_cons_1 in Fp as [Rp Fp], Fq as [Rq Fq].
    destruct (release_number_digits p Rp) as (Np & Dp & _), (release_number_digits q Rq) as (Nq & Dq & _).
    destruct (Atoi_digits p Np Dp) as (v & V & A), (Atoi_digits q Nq Dq) as (w & W & B).
    cbn [parse_numbers] in Hp, Hq. rewrite A in Hp. rewrite B in Hq.
    destruct (int64_max <? v); [cbn in Hp; by rewrite orb_true_r in Hp|]. destruct (int64_max <? w); [cbn in Hq; by rewrite orb_true_r in Hq|].
    destruct (_ || _) in Hp; [done|]. destruct (_ || _) in Hq; [done|].
    destruct (parse_numbers ps) as [l|] eqn:Pp; [|done]. destruct (parse_numbers qs) as [l'|] eqn:Pq; [|done]. cbn in Hp, Hq.
    injection Hp as <-. injection Hq as -> ->. f_equal; [by apply (release_number_inj p q v)|by apply (IH qs l)].
Qed.

Lemma ContainsAny_none s set : str_forall (fun c => negb (in_set set c)) s = true -> ContainsAny s set = false.
Proof.
  intros H. unfold ContainsAny, IndexAny. by rewrite (proj2 (index_by_none _ _) H).
Qed.

Lemma parse_canonical a b c : Forall (fun p => release_number p = true) [a; b; c] ->
  parse_release ("v" +:+ a +:+ "." +:+ b +:+ "." +:+ c) = parse_numbers [a; b; c].
Proof.
  intros F. assert (F' := F). apply Forall_cons_1 in F as [A F]. apply Forall_cons_1 in F as [B F]. apply Forall_cons_1 in F as [C _].
  destruct (release_number_digits a A) as (Na & Da & La & Ma & Pa), (release_number_digits b B) as (Nb & Db & Lb & Mb & Pb), (release_number_digits c C) as (Nc & Dc & Lc & Mc & Pc).
  unfold parse_release. set (r := a +:+ "." +:+ b +:+ "." +:+ c).
  assert (D : forall s, str_forall is_digit s = true -> str_forall version_byte s = true).
  { intros s. apply str_forall_impl. intros x X. unfold version_byte, is_alnum. by rewrite X. }
  rewrite TrimSpace_version by (unfold r; rewrite !str_forall_app, (D a), (D b), (D c) by done; vm_compute; reflexivity).
  unfold TrimPrefix. rewrite CutPrefix_app.
  assert (Nr : String.eqb r "" = false). { apply String.eqb_neq. unfold r. by destruct a. }
  rewrite Nr. unfold r. rewrite ContainsAny_none, Split_dotted; try done.
  assert (S : forall s, str_forall is_digit s = true -> str_forall (fun c => negb (in_set "-+" c)) s = true).
  { intros s. apply str_forall_impl. intros x X. apply negb_true_iff. destruct (in_set "-+" x) eqn:I; [|done]. cbn [in_set] in I. rewrite orb_false_r in I.
    by apply orb_true_iff in I as [I|I]; apply Ascii.eqb_eq in I; subst x. }
  rewrite !str_forall_app, (S a), (S b), (S c) by done. done.
Qed.

Lemma cmp_padded_zero xs : forall ys, length xs = length ys -> cmp_padded xs ys = 0 -> xs = ys.
Proof.
  unfold cmp_padded. induction xs as [|x xs IH]; intros [|y ys] L; try discriminate L; [done|]. injection L as L. cbn [length Nat.max pad_loop List.hd List.tl].
  destruct (Z.eqb_spec x y) as [->|]; cbn [negb]; [intros E; f_equal; by apply IH|]. by destruct (x <? y).
Qed.

Lemma releases_swap a b c : CompareReleases a b = Some c -> CompareReleases b a = Some (- c).
Proof. unfold CompareReleases. destruct (parse_release a), (parse_release b); try done. intros [= <-]. by rewrite cmp_antisym. Qed.

Lemma releases_trans a b c x y : CompareReleases a b = Some x -> x <= 0 -> CompareReleases b c = Some y -> y <= 0 ->
  exists z, CompareReleases a c = Some z /\ z <= 0.
Proof.
  unfold CompareReleases. destruct (parse_release a), (parse_release b), (parse_release c); try done. intros [= <-] X [= <-] Y.
  eexists. split; [done|]. by eapply cmp_trans.
Qed.

(** The order of releases.  [CompareReleases] fails exactly when one side
    is no plain numeric version, otherwise it is a total preorder; on the
    versions a manifest may carry it tells any two texts apart, so a release
    that is neither older nor newer is the same release. *)
Theorem release_order :
  (forall a b, is_Some (CompareReleases a b) <-> is_Some (parse_release a) /\ is_Some (parse_release b))
  /\ (forall a b c, CompareReleases a b = Some c -> CompareReleases b a = Some (- c))
  /\ (forall a b c x y, CompareReleases a b = Some x -> x <= 0 -> CompareReleases b c = Some y -> y <= 0 ->
        exists z, CompareReleases a c = Some z /\ z <= 0)
  /\ (forall a b, IsCanonicalReleaseVersion a = true -> IsCanonicalReleaseVersion b = true -> CompareReleases a b = Some 0 -> a = b).
Proof.
  split; [|split; [exact releases_swap|split; [exact releases_trans|]]]; unfold CompareReleases.
  - intros a b. destruct (parse_release a), (parse_release b); rewrite ?is_Some_alt; naive_solver.
  - intros a b (a1 & a2 & a3 & -> & Fa)%release_parts (b1 & b2 & b3 & -> & Fb)%release_parts. rewrite !parse_canonical by done.
    destruct (parse_numbers [a1; a2; a3]) as [xs|] eqn:Ea; [|done]. destruct (parse_numbers [b1; b2; b3]) as [ys|] eqn:Eb; [|done].
    intros [= E]. assert (xs = ys) as <-.
    { apply cmp_padded_zero; [|done]. by rewrite <- (parse_numbers_length _ _ Ea), <- (parse_numbers_length _ _ Eb). }
    assert (P := parse_numbers_inj _ _ _ Fa Fb Ea Eb). by injection P as -> -> ->.
Qed.

(** ** What the updater believes *)

Section belief.
  Context `{!GoNetip, !Ed25519, !ReleaseJSON}.

(** The manifest offers itself for this channel at this instant. *)
Definition timely (m : Manifest) (now : Z) (channel : string) : Prop :=
  rm_Schema m = ManifestSchema /\ rm_Channel m = (if String.eqb channel "" then DefaultChannel else channel)
  /\ rm_Sequence m <> 0 /\ IsCanonicalReleaseVersion (rm_Version m) = true
  /\ (rm_MinUpdaterVersion m = "" \/ IsCanonicalReleaseVersion (rm_MinUpdaterVersion m) = true)
  /\ is_zero_time (rm_PublishedAt m) = false /\ is_zero_time (rm_ExpiresAt m) = false
  /\ rm_PublishedAt m < rm_ExpiresAt m <= rm_PublishedAt m + maxManifestValidity
  /\ rm_PublishedAt m - 600 * 1000000000 <= now < rm_ExpiresAt m.

(** Its assets name distinct targets, each with a digest and an address in
    this release; a launcher comes whole and on Windows, or not at all. *)
Definition addressed (m : Manifest) : Prop :=
  rm_Assets m <> [] /\ List.NoDup (map target_key (rm_Assets m))
  /\ Forall (fun a => as_OS a <> "" /\ as_Arch a <> "" /\ as_URL a <> "" /\ 0 < as_Size a
               /\ str_len (as_SHA256 a) = 64 /\ isLowerHex (as_SHA256 a) = true
               /\ validateSignedAssetURL (as_URL a) (rm_Version m) (as_OS a) (as_Arch a) = None
               /\ (as_MinLauncherVersion a = "" \/ as_OS a = "windows" /\ IsCanonicalReleaseVersion (as_MinLauncherVersion a) = true)
               /\ (as_LauncherURL a = "" /\ as_LauncherSHA256 a = "" /\ as_LauncherSize a = 0
                   \/ EqualFold (as_OS a) "windows" = true /\ 0 < as_LauncherSize a /\ isSHA256Hex (as_LauncherSHA256 a) = true
                      /\ validateSignedLauncherURL (as_LauncherURL a) (rm_Version m) (as_Arch a) = None /\ as_LauncherURL a <> ""))
            (rm_Assets m).

Lemma canonical_no_dash v : IsCanonicalReleaseVersion v = true -> Contains (TrimPrefix v "v") "-" = false.
Proof.
  intros (a & b & c & -> & F)%release_parts. apply Forall_cons_1 in F as [A F]. apply Forall_cons_1 in F as [B F]. apply Forall_cons_1 in F as [C _].
  unfold TrimPrefix. rewrite CutPrefix_app. change "-" with (single "-"). rewrite Contains_single, !lacks_app.
  rewrite (proj1 (proj2 (proj2 (proj2 (release_number_digits a A))))), (proj1 (proj2 (proj2 (proj2 (release_number_digits b B))))), (proj1 (proj2 (proj2 (proj2 (release_number_digits c C))))). done.
Qed.

Lemma validate_assets_None version l : forall seen, validate_assets version seen l = None <->
  Forall (fun a => validate_asset version a = None) l /\ List.NoDup (map target_key l) /\ Forall (fun a => ~ In (target_key a) seen) l.
Proof.
  induction l as [|a l IH]; intros seen; [cbn; split; [repeat constructor|done]|]. cbn [validate_assets map].
  rewrite !andalso_None, refuse_None, IH, NoDup_cons_iff, !Forall_cons_iff, !List.Forall_forall, in_map_iff.
  rewrite <- not_true_iff_false, str_in_In. split.
  - intros (S & V & F & N & Q). split; [done|]. split; [split; [|done]|split; [done|]].
    + intros (b & E & I). apply (Q b I). by left.
    + intros b I C. apply (Q b I). by right.
  - intros ((V & F) & (N & D) & S & Q). split; [done|]. split; [done|]. split; [done|]. split; [done|].
    intros b I [C|C]; [|by apply (Q b I)]. apply N. by exists b.
Qed.

Lemma launcher_asset_None a version : validateLauncherAsset a version = None <->
  (as_LauncherURL a = "" /\ as_LauncherSHA256 a = "" /\ as_LauncherSize a = 0
   \/ EqualFold (as_OS a) "windows" = true /\ 0 < as_LauncherSize a /\ isSHA256Hex (as_LauncherSHA256 a) = true
      /\ validateSignedLauncherURL (as_LauncherURL a) version (as_Arch a) = None /\ as_LauncherURL a <> "").
Proof.
  unfold validateLauncherAsset. destruct (_ && _ && _) eqn:E.
  - split; [intros _; left|done]. rewrite !andb_true_iff, !String.eqb_eq, Z.eqb_eq in E. tauto.
  - rewrite !andalso_None, !refuse_None, !negb_false_iff, !orb_false_iff, !String.eqb_neq, Z.leb_gt.
    rewrite !andb_false_iff, !String.eqb_neq, Z.eqb_neq in E. destruct (validateSignedLauncherURL _ _ _); cbn [option_map].
    + split; [naive_solver|]. intros [?|?]; [tauto|naive_solver].
    + split; [intros (? & ((? & ?) & ?) & ? & _); right; tauto|].
      intros [?|(? & ? & Hx & _ & ?)]; [tauto|]. split; [done|]. split; [|done]. split; [split; [done|]|done]. intros C. by rewrite C in Hx.
Qed.

Lemma asset_None version a : validate_asset version a = None <->
  as_OS a <> "" /\ as_Arch a <> "" /\ as_URL a <> "" /\ 0 < as_Size a /\ str_len (as_SHA256 a) = 64 /\ isLowerHex (as_SHA256 a) = true
  /\ validateSignedAssetURL (as_URL a) version (as_OS a) (as_Arch a) = None
  /\ (as_MinLauncherVersion a = "" \/ as_OS a = "windows" /\ IsCanonicalReleaseVersion (as_MinLauncherVersion a) = true).
Proof.
  unfold validate_asset. rewrite !andalso_None, !refuse_None, !orb_false_iff, !String.eqb_neq, Z.leb_gt, !negb_false_iff, Z.eqb_eq.
  rewrite andb_false_iff, orb_false_iff, !negb_false_iff, !String.eqb_eq.
  destruct (validateSignedAssetURL _ _ _ _); cbn [option_map]; naive_solver.
Qed.

Lemma check_manifest_None m now channel : check_manifest m now channel = None <-> timely m now channel /\ addressed m.
Proof.
  unfold check_manifest, timely, addressed. rewrite !andalso_None, !refuse_None, !negb_false_iff, !orb_false_iff, first_refusal_None, validate_assets_None.
  rewrite !Z.eqb_eq, !String.eqb_eq, !Z.ltb_lt, !Z.ltb_ge, andb_false_iff, Z.eqb_neq, !String.eqb_neq, Nat.eqb_neq, !negb_false_iff.
  split.
  - intros (S & Ch & ((Sq & V) & A) & Cn & _ & ((Zp & Ze) & W) & Vd & La & Mu & F & X & As & N & _).
    rewrite !List.Forall_forall in La, As. split; [split_and!; try done; [|lia..]|].
    + rewrite andb_false_iff, negb_false_iff, String.eqb_eq, negb_false_iff in Mu. done.
    + split; [by destruct (rm_Assets m)|]. split; [done|]. apply List.Forall_forall. intros a I.
      pose proof (proj1 (asset_None _ _) (As a I)). pose proof (proj1 (launcher_asset_None _ _) (La a I)). tauto.
  - intros ((S & Ch & Sq & Cn & Mu & Zp & Ze & W & T) & A & N & F). rewrite List.Forall_forall in F.
    split_and!; try done; try lia.
    + intros E. by rewrite E in Cn.
    + by destruct (rm_Assets m).
    + right. by apply canonical_no_dash.
    + apply List.Forall_forall. intros a I. apply launcher_asset_None. apply (F a I).
    + rewrite andb_false_iff, negb_false_iff, String.eqb_eq, negb_false_iff. done.
    + apply List.Forall_forall. intros a I. apply asset_None. specialize (F a I). tauto.
    + apply List.Forall_forall. intros a _ [].
Qed.

Lemma VerifyEnvelope_checked raw key now channel m : VerifyEnvelope raw key now channel = Ok m -> timely m now channel /\ addressed m.
Proof.
  unfold VerifyEnvelope. rewrite <- check_manifest_None. repeat (case_match; try done). by intros [= <-].
Qed.

End belief.

(** ** The addresses of a release *)

Definition path_byte (c : ascii) : bool := is_alnum c || in_set "-._/" c.

Lemma path_byte_plain c : path_byte c = true -> c <> "#"%char /\ c <> "?"%char /\ c <> "%"%char /\ is_ctl c = false.
Proof.
  intros P. split_and!; try (intros ->; discriminate P). destruct (is_ctl c) eqn:C; [|done]. exfalso.
  unfold path_byte, is_alnum in P. rewrite !orb_true_iff in P. unfold is_ctl in C. apply orb_true_iff in C.
  destruct P as [[[P|P]|P]|P]; [unfold is_digit in P; lia|unfold is_lower in P; lia|unfold is_upper in P; lia|].
  cbn [in_set] in P. rewrite !orb_true_iff, !Ascii.eqb_eq in P. destruct P as [P|[P|[P|[P|P]]]]; try done; subst c; cbn in C; destruct C; discriminate.
Qed.

Lemma path_bytes_lack c s : (forall b, path_byte b = true -> b <> c) -> str_forall path_byte s = true -> lacks c s = true.
Proof. intros N. apply str_forall_impl. intros b B. apply negb_true_iff, Ascii.eqb_neq. by apply N. Qed.

Lemma PathUnescape_plain s : lacks "%" s = true -> PathUnescape s = Some s.
Proof.
  unfold PathUnescape, lacks. induction s as [|c s IH]; [done|]. cbn. intros [N%negb_true_iff L]%andb_true_iff. rewrite N, (IH L). done.
Qed.

Lemma parse_official `{!GoNetip} p : str_forall path_byte p = true -> HasPrefix p "/" = true ->
  url_Parse ("https://github.com" +:+ p) = Some (mkURL "https" false "github.com" p).
Proof.
  intros P S. unfold url_Parse. rewrite Cut_none.
  2:{ rewrite lacks_app, (path_bytes_lack "#" p) by (done || (intros b B; by apply path_byte_plain)). done. }
  assert (C : str_exists is_ctl ("https://github.com" +:+ p) = false).
  { unfold str_exists. rewrite str_forall_app. apply negb_false_iff, andb_true_iff. split; [done|].
    revert P. apply str_forall_impl. intros b B. by apply negb_true_iff, path_byte_plain. }
  unfold parse_url. rewrite C.
  destruct p as [|c p]; [done|]. cbn in S. destruct (Ascii.eqb_spec "/" c) as [<-|]; [|done].
  change (getScheme ("https://github.com" +:+ String "/" p)) with (Some ("https", "//github.com" +:+ String "/" p)).
  change (String.eqb ("https://github.com" +:+ String "/" p) "*") with false. cbn match.
  rewrite Cut_none.
  2:{ rewrite lacks_app, (path_bytes_lack "?" (String "/" p)) by (done || (intros b B; by apply path_byte_plain)). done. }
  change (ToLower "https") with "https".
  change (HasPrefix ("//github.com" +:+ String "/" p) "/") with true. change (HasPrefix ("//github.com" +:+ String "/" p) "//") with true.
  cbn [negb andb orb String.eqb].
  change (str_drop 2 ("//github.com" +:+ String "/" p)) with ("github.com" +:+ String "/" p).
  rewrite (IndexByte_app "github.com" "/" p) by done. change (String.length "github.com") with 10%nat.
  change (str_take 10 ("github.com" +:+ String "/" p)) with "github.com". change (str_drop 10 ("github.com" +:+ String "/" p)) with (String "/" p).
  change (parseAuthority "github.com") with (Some (false, "github.com")). change (String.eqb "https" "") with false. cbn [negb andb orb].
  change (PathUnescape "") with (Some ""). rewrite PathUnescape_plain by (apply path_bytes_lack; [|done]; intros b B; by apply path_byte_plain). done.
Qed.

(** The address the release pipeline writes is one every updater accepts, for
    every release and every target. *)
Lemma official_asset_accepted `{!GoNetip} version osName arch :
  IsCanonicalReleaseVersion version = true -> str_forall path_byte osName = true -> str_forall path_byte arch = true ->
  validateSignedAssetURL ("https://github.com" +:+ release_path version (asset_name osName arch)) version osName arch = None.
Proof.
  intros V O A. unfold validateSignedAssetURL, release_url. rewrite parse_official.
  - change (validateDownloadURL (mkURL "https" false "github.com" _)) with (@None url_error). cbn match.
    change (ToLower (Hostname (mkURL "https" false "github.com" _))) with "github.com". cbn [u_Path]. rewrite (String.eqb_refl "github.com"), (String.eqb_refl (release_path _ _)). done.
  - apply release_parts in V as (a & b & c & -> & F). apply Forall_cons_1 in F as [Ra F]. apply Forall_cons_1 in F as [Rb F]. apply Forall_cons_1 in F as [Rc _].
    assert (D : forall s, release_number s = true -> str_forall path_byte s = true).
    { intros s R. generalize (proj1 (proj2 (release_number_digits s R))). apply str_forall_impl. intros x X. unfold path_byte, is_alnum. by rewrite X. }
    unfold release_path, asset_name. rewrite !str_forall_app, O, A, (D a Ra), (D b Rb), (D c Rc). by destruct (String.eqb osName "windows").
  - done.
Qed.
