(* ===== verification/Launcher.v ===== *)
(** * The launcher's install (internal/launcher: active.go, restore.go,
      recoveryrecord.go; the repair of internal/update/rehydrate.go)

    An install keeps one immutable payload per release and a pointer,
    active.json, that says which one runs, which one to fall back to, and
    which one was rejected.  The launcher runs nothing whose bytes do not hash
    to what the pointer recorded; security software may remove a payload at
    any moment.

    The disk is a value: the decoded pointer ([None] for a file that is
    missing, too long, does not decode or repeats a key) and what stands at the
    payload path of each version.  Whether the effects of an operation succeed,
    and what became of a promoted file before it is verified, are inputs
    ([io]); what another process did before a lock was obtained is the disk
    the operation finds under the lock. *)

From stdpp Require Import gmap.
From S2P Require Import Prelude GoStrings GoUnicode GoStd StringFacts UnicodeFacts WordFacts Calendar Hash.
From S2P Require Import Purl Env Search Validate Identity Release.

#[local] Open Scope csx_scope.

Record Descriptor := mkDescriptor { d_Version : string; d_SHA256 : string; d_Sequence : Z }.

#[export] Instance descriptor_eq : EqDecision Descriptor.
Proof. solve_decision. Defined.

Record Active := mkActive {
  ac_Schema : Z; ac_Current : Descriptor; ac_Previous : option Descriptor; ac_RollbackHold : option Descriptor }.

(** [Linked]: a link on the way to the payload, with a file behind it. *)
Inductive node := EmptyDir | Regular (bytes : string) | NotRegular | Linked | Unreadable.

#[export] Instance node_eq : EqDecision node.
Proof. solve_decision. Defined.

Record install := mkInstall { in_pointer : option Active; in_payloads : gmap string node }.
Definition set_pointer (a : Active) (st : install) : install := mkInstall (Some a) (in_payloads st).
Definition set_payload (v : string) (n : node) (st : install) : install := mkInstall (in_pointer st) (<[v := n]> (in_payloads st)).
Definition drop_payload (v : string) (st : install) : install := mkInstall (in_pointer st) (delete v (in_payloads st)).

Record io := mkIO { io_lock : bool; io_mkdir : bool; io_promote : bool; io_keeps : bool; io_write : bool }.
Definition io_ok : io := mkIO true true true true true.

Inductive launcher_error :=
| PointerError | SchemaError | DescriptorInvalid | PayloadMissing | PayloadNotRegular | PayloadUnreadable | PayloadCorrupt | PayloadStartFailed
| CurrentPayload (e : launcher_error) | PreviousPayload (e : launcher_error) | NoFallback (e : launcher_error)
| StartRecovery (e : launcher_error) | RestoreFailed (e : launcher_error)
| LockBusy | PointerChanged | SequenceRollback | DifferentPayload | NoPrevious | PreviousHeld | NotOlder | DiskError.

(** [Reason]: the wrapped cause decides; recovery after a failed start keeps
    only that the start failed. *)
Fixpoint Reason (e : launcher_error) : string :=
  match e with
  | PayloadMissing => "payload-missing" | PayloadNotRegular => "payload-not-regular" | PayloadCorrupt => "payload-corrupt"
  | PayloadUnreadable => "payload-unreadable" | DescriptorInvalid => "descriptor-invalid"
  | PayloadStartFailed | StartRecovery _ => "payload-start-failed"
  | CurrentPayload e | PreviousPayload e | NoFallback e | RestoreFailed e => Reason e
  | _ => "pointer-unreadable"
  end.

Definition ActiveSchema : Z := 1.
Definition maxPayloadBytes : Z := 256 * 2 ^ 20.

(** [PayloadPath]: the version is the path. *)
Definition payload_path (version : string) : result string launcher_error :=
  if IsCanonicalReleaseVersion version then Ok version else Err DescriptorInvalid.

Definition validateDescriptorShape (d : Descriptor) : option launcher_error :=
  refuse (negb (IsCanonicalReleaseVersion (d_Version d)) || (d_Sequence d =? 0) || negb (str_len (d_SHA256 d) =? 64)
          || negb (String.eqb (ToLower (d_SHA256 d)) (d_SHA256 d))) DescriptorInvalid andalso
  refuse (negb (str_forall ishex (d_SHA256 d))) DescriptorInvalid.

Definition fileHash (bytes : string) : result string launcher_error :=
  if maxPayloadBytes <? str_len bytes then Err PayloadCorrupt else Ok (sha256_hex bytes).

Definition file_matches (bytes : string) (d : Descriptor) : option launcher_error :=
  match fileHash bytes with Err e => Some e | Ok sum => refuse (negb (String.eqb sum (d_SHA256 d))) PayloadCorrupt end.

Definition validateDescriptor (st : install) (d : Descriptor) : option launcher_error :=
  validateDescriptorShape d andalso
  match in_payloads st !! d_Version d with
  | None | Some EmptyDir => Some PayloadMissing
  | Some NotRegular | Some Linked => Some PayloadNotRegular
  | Some Unreadable => Some PayloadUnreadable
  | Some (Regular bytes) => file_matches bytes d
  end.
Definition VerifyPayload : install -> Descriptor -> option launcher_error := validateDescriptor.

Definition opt_check {E} (f : Descriptor -> option E) (d : option Descriptor) : option E := match d with Some d => f d | None => None end.

Definition Read (st : install) : result Active launcher_error :=
  match in_pointer st with
  | None => Err PointerError
  | Some a =>
      match refuse (negb (ac_Schema a =? ActiveSchema)) SchemaError andalso
            validateDescriptorShape (ac_Current a) andalso
            opt_check validateDescriptorShape (ac_Previous a) andalso
            opt_check validateDescriptorShape (ac_RollbackHold a) with
      | Some e => Err e
      | None => Ok a
      end
  end.

Definition samePayload (a b : Descriptor) : bool := String.eqb (d_Version a) (d_Version b) && String.eqb (d_SHA256 a) (d_SHA256 b).
Definition held (a : Active) (d : Descriptor) : bool := match ac_RollbackHold a with Some h => samePayload d h | None => false end.

Definition validateCurrent (st : install) (a : Active) : option launcher_error :=
  refuse (negb (ac_Schema a =? ActiveSchema)) SchemaError andalso
  option_map CurrentPayload (validateDescriptor st (ac_Current a)).

Definition Validate (st : install) (a : Active) : option launcher_error :=
  validateCurrent st a andalso
  match ac_Previous a with
  | Some p => if held a p then None else option_map PreviousPayload (validateDescriptor st p)
  | None => None
  end.

Definition Load (st : install) : result Active launcher_error :=
  match Read st with
  | Err e => Err e
  | Ok a => match validateCurrent st a with Some e => Err e | None => Ok a end
  end.

(** [Write]: validated, then replaced in one step or not at all. *)
Definition Write (x : io) (a : Active) (st : install) : install * option launcher_error :=
  match Validate st a with
  | Some e => (st, Some e)
  | None => if io_write x then (set_pointer a st, None) else (st, Some DiskError)
  end.

(** ** Choosing what to run *)

Record Resolution := mkResolution {
  rs_Descriptor : Descriptor; rs_Recovered : bool; rs_FailedVersion : string; rs_FailedReason : string;
  rs_Healed : bool; rs_HealError : option launcher_error }.

(** [disk] is what the launcher finds once it holds the install's lock. *)
Definition heal (x : io) (seen : Active) (candidate : Descriptor) (disk : install) : install * (bool * option launcher_error) :=
  if negb (io_lock x) then (disk, (false, Some LockBusy))
  else match Read disk with
  | Err e => (disk, (false, Some e))
  | Ok fresh =>
      if negb (bool_decide (ac_Current fresh = ac_Current seen)) then (disk, (false, Some PointerChanged))
      else match Write x (mkActive ActiveSchema candidate None (Some (ac_Current seen))) disk with
      | (disk, Some e) => (disk, (false, Some e))
      | (disk, None) => (disk, (true, None))
      end
  end.

Definition fallback (st : install) (a : Active) : option Descriptor :=
  match ac_Previous a with
  | Some c =>
      if String.eqb (d_Version c) (d_Version (ac_Current a)) || held a c || is_some (validateDescriptor st c) then None else Some c
  | None => None
  end.

Definition resolveFallback (x : io) (st : install) (a : Active) (currentErr : launcher_error) (disk : install) : install * result Resolution launcher_error :=
  match fallback st a with
  | None => (disk, Err (NoFallback currentErr))
  | Some c =>
      let '(disk, (healed, err)) := heal x a c disk in
      (disk, Ok (mkResolution c true (d_Version (ac_Current a)) (Reason currentErr) healed err))
  end.

Definition Resolve (x : io) (st disk : install) : install * result Resolution launcher_error :=
  match Read st with
  | Err e => (disk, Err e)
  | Ok a =>
      match validateDescriptor st (ac_Current a) with
      | None => (disk, Ok (mkResolution (ac_Current a) false "" "" false None))
      | Some e => resolveFallback x st a e disk
      end
  end.

Definition RecoverAfterStartFailure (x : io) (failed : Descriptor) (st disk : install) : install * result Resolution launcher_error :=
  match Read st with
  | Err e => (disk, Err (StartRecovery e))
  | Ok a =>
      if negb (samePayload (ac_Current a) failed) then
        match Resolve x st disk with (disk, Err e) => (disk, Err (StartRecovery e)) | r => r end
      else resolveFallback x st a PayloadStartFailed disk
  end.

(** ** Changing it *)

(** The newest recorded payload that is not the new one, not rejected, and
    still verifies. *)
Definition verifiedPreviousForCommit (st : install) (old : Active) (next : Descriptor) : option Descriptor :=
  List.find (fun c => negb (samePayload c next) && negb (held old c) && negb (is_some (validateDescriptor st c)))
    (ac_Current old :: match ac_Previous old with Some p => [p] | None => [] end).

(** The immutable path of a version: created on demand; a file already there
    must be the payload.  What this call created is undone when it fails. *)
Definition place_payload (x : io) (staged : string) (d : Descriptor) (st : install) : install * option launcher_error :=
  let v := d_Version d in
  if negb (io_mkdir x) then (st, Some DiskError)
  else match in_payloads st !! v with
  | Some EmptyDir | None =>
      if negb (io_promote x) then (st, Some DiskError)
      else
        let placed := set_payload v (if io_keeps x then Regular staged else EmptyDir) st in
        match validateDescriptor placed d with
        | Some e => (st, Some e)
        | None => (placed, None)
        end
  | Some _ => (st, option_map (fun _ => DifferentPayload) (validateDescriptor st d))
  end.

Definition publish (x : io) (next : Active) (st : install) : install * result Active launcher_error :=
  match Write x next st with (st, Some e) => (st, Err e) | (st, None) => (st, Ok next) end.

(** A payload that is not the current one: placed, then pointed to. *)
Definition commit_new (x : io) (staged : string) (d : Descriptor) (read : result Active launcher_error) (st : install) :
    install * result Active launcher_error :=
  match payload_path (d_Version d) with
  | Err e => (st, Err e)
  | Ok _ =>
      match place_payload x staged d st with
      | (st, Some e) => (st, Err e)
      | (st, None) => publish x (mkActive ActiveSchema d (match read with Ok old => verifiedPreviousForCommit st old d | Err _ => None end) None) st
      end
  end.

Definition CommitPayload (x : io) (staged : string) (d : Descriptor) (st : install) : install * result Active launcher_error :=
  let read := Read st in
  let unchanged := match read with
    | Ok old => if samePayload (ac_Current old) d && negb (is_some (validateCurrent st old)) then Some old else None
    | Err _ => None
    end in
  match unchanged with
  | Some old =>
      if d_Sequence d <? d_Sequence (ac_Current old) then (st, Err SequenceRollback)
      else if d_Sequence d =? d_Sequence (ac_Current old) then (st, Ok old)
      else
        let c := ac_Current old in
        let next := mkActive (ac_Schema old) (mkDescriptor (d_Version c) (d_SHA256 c) (d_Sequence d)) (ac_Previous old) (ac_RollbackHold old) in
        publish x next st
  | None => commit_new x staged d read st
  end.

Definition promote_absent (x : io) (bytes v : string) (st : install) : option install :=
  match in_payloads st !! v with
  | None | Some EmptyDir => if io_promote x then Some (set_payload v (if io_keeps x then Regular bytes else EmptyDir) st) else None
  | Some _ => Some st
  end.

(** [ImportPrevious] of the bytes of a legacy executable: an existing file is
    left in place. *)
Definition ImportPrevious (x : io) (source : option string) (d : Descriptor) (st : install) : install * result Active launcher_error :=
  match validateDescriptorShape d, source with
  | Some e, _ => (st, Err e)
  | None, None => (st, Err DiskError)
  | None, Some bytes =>
      if (maxPayloadBytes <? str_len bytes) || negb (io_mkdir x) then (st, Err DiskError)
      else
        let v := d_Version d in
        match promote_absent x bytes v st with
        | None => (set_payload v EmptyDir st, Err DiskError)
        | Some st =>
            match validateDescriptor st d with
            | Some e => (st, Err e)
            | None =>
                match Load st with
                | Err e => (st, Err e)
                | Ok a =>
                    match ac_Previous a with
                    | Some _ => (st, Ok a)
                    | None =>
                        let next := mkActive (ac_Schema a) (ac_Current a) (Some d) (ac_RollbackHold a) in
                        publish x next st
                    end
                end
            end
        end
  end.

Definition Rollback (x : io) (st : install) : install * result Active launcher_error :=
  match Read st with
  | Err e => (st, Err e)
  | Ok a =>
      match ac_Previous a with
      | None => (st, Err NoPrevious)
      | Some p =>
          if held a p then (st, Err PreviousHeld)
          else match validateDescriptor st p with
          | Some e => (st, Err (PreviousPayload e))
          | None =>
              if d_Sequence (ac_Current a) <=? d_Sequence p then (st, Err NotOlder)
              else
                let next := mkActive ActiveSchema p (if is_some (validateDescriptor st (ac_Current a)) then None else Some (ac_Current a)) (Some (ac_Current a)) in
                publish x next st
          end
      end
  end.

(** [RestorePayload]: the bytes replace whatever stands at the path, when
    they hash to the descriptor. *)
Definition RestorePayload (x : io) (d : Descriptor) (staged : string) (st : install) : install * option launcher_error :=
  match validateDescriptorShape d with
  | Some e => (st, Some e)
  | None =>
      match file_matches staged d with
      | Some e => (st, Some e)
      | None =>
          if negb (io_mkdir x) then (st, Some DiskError)
          else
            let v := d_Version d in
            let st := match in_payloads st !! v with None => set_payload v EmptyDir st | Some _ => st end in
            if bool_decide (in_payloads st !! v = Some Linked) then (st, Some PayloadNotRegular)
            else if negb (io_promote x) then (st, Some DiskError)
            else
              let st := set_payload v (if io_keeps x then Regular staged else EmptyDir) st in
              (st, option_map RestoreFailed (validateDescriptor st d))
      end
  end.

(** ** The repair (rehydrate.go)

    Refetches what the pointer records.  [fetch] is what was staged from the
    official address of a version, cut one byte past the limit as the code reads
    it; [runs] whether bytes start and report a version. *)

Record RehydrateReport := mkReport {
  rh_ExhaustedVersion : string; rh_Restored : list string; rh_AlreadyVerified : list string; rh_FallbackVersion : string }.

Inductive rehydrate_error := RepairPointer (e : launcher_error) | Cooldown | RepairBusy | NotNeeded | RepairFetch | RepairSelfTest
| RepairRestore (e : launcher_error) | RepairCurrent (e : rehydrate_error) | NotKept (e : launcher_error).

Definition repair_candidates (a : Active) : list Descriptor :=
  ac_Current a ::
  match ac_Previous a with
  | Some p =>
      if negb (String.eqb (d_Version p) (d_Version (ac_Current a)))
         && negb (bool_decide (ac_RollbackHold a = Some p)) then [p] else []
  | None => []
  end.

Section repair.
  Variables (x : io) (fetch : string -> option string) (runs : string -> string -> bool).

Definition refetchPayload (d : Descriptor) (st : install) : install * option rehydrate_error :=
  match fetch (d_Version d) with
  | None => (st, Some RepairFetch)
  | Some bytes =>
      if negb (String.eqb (sha256_hex bytes) (d_SHA256 d)) then (st, Some RepairFetch)
      else if negb (runs bytes (d_Version d)) then (st, Some RepairSelfTest)
      else match RestorePayload x d bytes st with (st, Some e) => (st, Some (RepairRestore e)) | (st, None) => (st, None) end
  end.

(** The fallback: one that cannot be refetched does not undo the current. *)
Definition repair_previous (d : Descriptor) (r : RehydrateReport) (st : install) : install * RehydrateReport :=
  match VerifyPayload st d with
  | None => (st, mkReport (rh_ExhaustedVersion r) (rh_Restored r) (rh_AlreadyVerified r ++ [d_Version d])%list (d_Version d))
  | Some _ =>
      match refetchPayload d st with
      | (st, Some _) => (st, r)
      | (st, None) => (st, mkReport (rh_ExhaustedVersion r) (rh_Restored r ++ [d_Version d])%list (rh_AlreadyVerified r) (d_Version d))
      end
  end.

Definition rehydrate_locked (force startFailed : bool) (st : install) : install * (RehydrateReport * option rehydrate_error) :=
  match Read st with
  | Err e => (st, (mkReport "" [] [] "", Some (RepairPointer e)))
  | Ok a =>
      let cur := ac_Current a in
      let verified := negb (is_some (VerifyPayload st cur)) in
      if verified && negb force && negb startFailed then (st, (mkReport "" [] [] "", Some NotNeeded))
      else
        let rest := List.tl (repair_candidates a) in
        let exhausted := if negb verified && negb (existsb (fun d => negb (is_some (VerifyPayload st d))) rest) then d_Version cur else "" in
        let '(st, r, err) :=
          if verified && negb startFailed then (st, mkReport exhausted [] [d_Version cur] "", None)
          else match refetchPayload cur st with
          | (st, Some e) => (st, mkReport exhausted [] [] "", Some e)
          | (st, None) => (st, mkReport exhausted [d_Version cur] [] "", None)
          end in
        match err with
        | Some e => (st, (r, Some (RepairCurrent e)))
        | None =>
            let '(st, r) := fold_left (fun x d => repair_previous d (snd x) (fst x)) rest (st, r) in
            match VerifyPayload st cur with
            | Some e => (st, (r, Some (NotKept e)))
            | None =>
                let lost := existsb (fun d => is_some (VerifyPayload st d)) rest in
                (st, (if lost then mkReport (rh_ExhaustedVersion r) (rh_Restored r) (rh_AlreadyVerified r) "" else r, None))
            end
        end
  end.
End repair.

(** ** What is run was verified *)

(** The bytes at the payload path are those the descriptor recorded. *)
Definition verified (st : install) (d : Descriptor) : Prop :=
  exists bytes, in_payloads st !! d_Version d = Some (Regular bytes) /\ sha256_hex bytes = d_SHA256 d /\ str_len bytes <= maxPayloadBytes.

Lemma file_matches_None bytes d : file_matches bytes d = None <-> sha256_hex bytes = d_SHA256 d /\ str_len bytes <= maxPayloadBytes.
Proof.
  unfold file_matches, fileHash. destruct (Z.ltb_spec maxPayloadBytes (str_len bytes)); [split; [done|lia]|].
  rewrite refuse_None, negb_false_iff, String.eqb_eq. naive_solver.
Qed.

Lemma descriptor_None st d : validateDescriptor st d = None <-> validateDescriptorShape d = None /\ verified st d.
Proof.
  unfold validateDescriptor, verified. rewrite andalso_None. split; intros [S V]; (split; [done|]).
  - destruct (in_payloads st !! d_Version d) as [[|bytes| | |]|]; try discriminate V. exists bytes. by apply file_matches_None in V.
  - destruct V as (bytes & E & M). rewrite E. by apply file_matches_None.
Qed.

Lemma Write_cases x a st : (exists e, Write x a st = (st, Some e)) \/ Write x a st = (set_pointer a st, None) /\ Validate st a = None.
Proof. unfold Write. destruct (Validate st a) eqn:V; [left; by eexists|]. destruct (io_write x); [by right|left; by eexists]. Qed.

(** The pointer a launcher is left with after it fell back. *)
Definition healed_pointer (a : Active) (c : Descriptor) : Active := mkActive ActiveSchema c None (Some (ac_Current a)).

Lemma fallback_Some st a c : fallback st a = Some c <->
  ac_Previous a = Some c /\ d_Version c <> d_Version (ac_Current a) /\ held a c = false /\ validateDescriptor st c = None.
Proof.
  unfold fallback. destruct (ac_Previous a) as [p|]; [|naive_solver].
  destruct (_ || _ || _) eqn:E.
  - split; [done|]. intros ([= ->] & N & H & V). rewrite H, V in E. apply String.eqb_neq in N. by rewrite N in E.
  - rewrite !orb_false_iff, String.eqb_neq in E. destruct E as [[N H] V]. destruct (validateDescriptor st p) eqn:D; [done|]. naive_solver.
Qed.

Lemma heal_cases x a c disk :
  (exists e, heal x a c disk = (disk, (false, Some e)))
  \/ heal x a c disk = (set_pointer (healed_pointer a c) disk, (true, None))
     /\ (exists fresh, Read disk = Ok fresh /\ ac_Current fresh = ac_Current a) /\ Validate disk (healed_pointer a c) = None.
Proof.
  unfold heal. destruct (io_lock x); cbn [negb]; [|left; by eexists]. destruct (Read disk) as [fresh|e] eqn:R; [|left; by eexists].
  destruct (bool_decide_reflect (ac_Current fresh = ac_Current a)) as [E|]; cbn [negb]; [|left; by eexists].
  fold (healed_pointer a c). destruct (Write_cases x (healed_pointer a c) disk) as [[e ->]|[-> V]]; [left; by eexists|right]. split; [done|]. split; [by exists fresh|done].
Qed.

(** C33.  The launcher runs verified bytes or nothing.  It answers with the
    payload of the pointer's current descriptor when that verifies, with the
    previous one when only that does and it was not rejected, and with an
    error exactly when neither does; the pointer changes only to record a
    recovery, and only when no updater moved it meanwhile. *)
Theorem launcher_runs_verified x st disk :
  match Resolve x st disk with
  | (disk', Ok r) =>
      exists a, Read st = Ok a /\ verified st (rs_Descriptor r)
      /\ if rs_Recovered r then
           validateDescriptor st (ac_Current a) <> None /\ ac_Previous a = Some (rs_Descriptor r) /\ held a (rs_Descriptor r) = false
           /\ (disk' = disk \/ in_pointer disk' = Some (healed_pointer a (rs_Descriptor r)) /\ in_payloads disk' = in_payloads disk
                               /\ exists fresh, Read disk = Ok fresh /\ ac_Current fresh = ac_Current a)
         else rs_Descriptor r = ac_Current a /\ disk' = disk
  | (disk', Err _) =>
      disk' = disk
      /\ forall a, Read st = Ok a -> validateDescriptor st (ac_Current a) <> None
           /\ forall p, ac_Previous a = Some p -> d_Version p <> d_Version (ac_Current a) -> held a p = false -> ~ verified st p
  end.
Proof.
  unfold Resolve. destruct (Read st) as [a|e] eqn:R; [|done]. destruct (validateDescriptor st (ac_Current a)) as [e|] eqn:V.
  - unfold resolveFallback. destruct (fallback st a) as [c|] eqn:F.
    + apply fallback_Some in F as (P & N & H & D). apply descriptor_None in D as [_ D].
      destruct (heal_cases x a c disk) as [[h ->]|[-> [Fr _]]]; cbn; (exists a; split; [done|]; split; [done|]).
      * rewrite V. split; [done|]. split; [done|]. split; [done|]. by left.
      * rewrite V. split; [done|]. split; [done|]. split; [done|]. by right.
    + split; [done|]. intros ? [= <-]. rewrite V. split; [done|]. intros p P N H D.
      assert (S : validateDescriptorShape p = None).
      { unfold Read in R. destruct (in_pointer st) as [a'|]; [|done]. destruct (_ andalso _) eqn:Z; [done|]. injection R as ->.
        rewrite !andalso_None, P in Z. tauto. }
      assert (X : fallback st a = Some p). { apply fallback_Some. split; [done|]. split; [done|]. split; [done|]. by apply descriptor_None. }
      congruence.
  - cbn. exists a. split; [done|]. split; [by apply descriptor_None in V as [_ ?]|done].
Qed.

(** The part of it a client needs. *)
Lemma resolve_verified x st disk disk' r : Resolve x st disk = (disk', Ok r) -> verified st (rs_Descriptor r).
Proof.
  unfold Resolve. destruct (Read st) as [a|]; [|done]. destruct (validateDescriptor st (ac_Current a)) eqn:V.
  - unfold resolveFallback. destruct (fallback st a) as [c|] eqn:F; [|done]. apply fallback_Some in F as (_ & _ & _ & D).
    apply descriptor_None in D as [_ D]. destruct (heal x a c disk) as [? [? ?]]. by intros [= _ <-].
  - intros [= _ <-]. by apply descriptor_None in V as [_ ?].
Qed.

Lemma recover_verified x failed st disk disk' r : RecoverAfterStartFailure x failed st disk = (disk', Ok r) -> verified st (rs_Descriptor r).
Proof.
  unfold RecoverAfterStartFailure. destruct (Read st) as [a|]; [|done]. destruct (negb _).
  - destruct (Resolve x st disk) as [d [r'|]] eqn:R; [|done]. intros [= <- <-]. by eapply resolve_verified.
  - unfold resolveFallback. destruct (fallback st a) as [c|] eqn:F; [|done]. apply fallback_Some in F as (_ & _ & _ & D).
    apply descriptor_None in D as [_ D]. destruct (heal x a c disk) as [? [? ?]]. by intros [= _ <-].
Qed.

(** ** A rejected release stays rejected *)

(** Everything that happens to an install: payload files come and go, the
    updater commits, the operator rolls back, launchers that read the pointer
    at any earlier time recover, repairs put bytes back, and the installer
    imports another payload than the current one. *)
Inductive install_step : install -> install -> Prop :=
| FilesChange st payloads : install_step st (mkInstall (in_pointer st) payloads)
| Commits x staged d st : install_step st (fst (CommitPayload x staged d st))
| RollsBack x st : install_step st (fst (Rollback x st))
| Resolves x seen st : install_step st (fst (Resolve x seen st))
| Recovers x failed seen st : install_step st (fst (RecoverAfterStartFailure x failed seen st))
| Restores x d staged st : install_step st (fst (RestorePayload x d staged st))
| Repairs x fetch runs force failed st : install_step st (fst (rehydrate_locked x fetch runs force failed st))
| Imports x source d st : (forall a, in_pointer st = Some a -> samePayload d (ac_Current a) = false) ->
    install_step st (fst (ImportPrevious x source d st)).

Inductive install_reach : install -> Prop :=
| FreshInstall payloads : install_reach (mkInstall None payloads)
| InstallStep st st' : install_reach st -> install_step st st' -> install_reach st'.

Definition pointer_wf (a : Active) : Prop :=
  ac_Schema a = ActiveSchema /\ validateDescriptorShape (ac_Current a) = None
  /\ opt_check validateDescriptorShape (ac_Previous a) = None /\ opt_check validateDescriptorShape (ac_RollbackHold a) = None
  /\ held a (ac_Current a) = false /\ (forall p, ac_Previous a = Some p -> samePayload p (ac_Current a) = false).

Definition install_wf (st : install) : Prop := forall a, in_pointer st = Some a -> pointer_wf a.

Lemma samePayload_sym a b : samePayload a b = samePayload b a.
Proof. unfold samePayload. by rewrite (String.eqb_sym (d_Version a)), (String.eqb_sym (d_SHA256 a)). Qed.

Lemma Read_Ok st a : Read st = Ok a -> in_pointer st = Some a /\ ac_Schema a = ActiveSchema /\ validateDescriptorShape (ac_Current a) = None
  /\ opt_check validateDescriptorShape (ac_Previous a) = None /\ opt_check validateDescriptorShape (ac_RollbackHold a) = None.
Proof.
  unfold Read. destruct (in_pointer st) as [b|]; [|done]. destruct (_ andalso _) eqn:E; [done|]. intros [= ->].
  rewrite !andalso_None, refuse_None, negb_false_iff, Z.eqb_eq in E. tauto.
Qed.

Lemma Write_wf x a st : install_wf st -> (Validate st a = None -> pointer_wf a) -> install_wf (fst (Write x a st)).
Proof. intros W P. destruct (Write_cases x a st) as [[e ->]|[-> V]]; [done|]. intros b [= <-]. by apply P. Qed.

Lemma Validate_current st a : Validate st a = None -> validateDescriptorShape (ac_Current a) = None.
Proof.
  unfold Validate, validateCurrent. rewrite !andalso_None. intros [[_ C] _]. destruct (validateDescriptor st (ac_Current a)) eqn:D; [done|].
  by apply descriptor_None in D as [? _].
Qed.

Lemma heal_wf x seen c disk st : Read st = Ok seen -> fallback st seen = Some c -> install_wf disk -> install_wf (fst (heal x seen c disk)).
Proof.
  intros R F W. apply fallback_Some in F as (P & N & H & D). apply Read_Ok in R as (_ & _ & Sc & Sp & _).
  destruct (heal_cases x seen c disk) as [[e ->]|[-> _]]; [done|]. intros b [= <-]. unfold pointer_wf, held, samePayload. cbn.
  apply String.eqb_neq in N. rewrite N. rewrite P in Sp. done.
Qed.

Lemma resolveFallback_wf x st a e disk : Read st = Ok a -> install_wf disk -> install_wf (fst (resolveFallback x st a e disk)).
Proof.
  intros R W. unfold resolveFallback. destruct (fallback st a) as [c|] eqn:F; [|done].
  pose proof (heal_wf x a c disk st R F W). by destruct (heal x a c disk) as [disk' [healed err]].
Qed.

Lemma Resolve_wf x st disk : install_wf disk -> install_wf (fst (Resolve x st disk)).
Proof.
  intros W. unfold Resolve. destruct (Read st) as [a|e] eqn:R; [|done]. destruct (validateDescriptor st (ac_Current a)); [|done]. by apply resolveFallback_wf.
Qed.

Lemma place_pointer x staged d st : in_pointer (fst (place_payload x staged d st)) = in_pointer st.
Proof. unfold place_payload. repeat case_match; done. Qed.

Lemma Restore_pointer x d staged st : in_pointer (fst (RestorePayload x d staged st)) = in_pointer st.
Proof. unfold RestorePayload. repeat case_match; done. Qed.

Lemma refetch_pointer x fetch runs d st : in_pointer (fst (refetchPayload x fetch runs d st)) = in_pointer st.
Proof.
  unfold refetchPayload. repeat case_match; try done; subst.
  all: match goal with H : RestorePayload ?x ?d ?b ?st = _ |- _ => pose proof (Restore_pointer x d b st) as E; rewrite H in E; exact E end.
Qed.

Lemma rehydrate_pointer x fetch runs force failed st : in_pointer (fst (rehydrate_locked x fetch runs force failed st)) = in_pointer st.
Proof.
  unfold rehydrate_locked. destruct (Read st) as [a|]; [|done]. destruct (_ && _ && _); [done|]. set (rest := List.tl (repair_candidates a)).
  assert (F : forall l st r, in_pointer (fst (fold_left (fun y d => repair_previous x fetch runs d (snd y) (fst y)) l (st, r))) = in_pointer st).
  { induction l as [|d l IH]; intros s r; [done|]. cbn [fold_left fst snd].
    assert (E : in_pointer (fst (repair_previous x fetch runs d r s)) = in_pointer s).
    { unfold repair_previous. destruct (VerifyPayload s d); [|done]. pose proof (refetch_pointer x fetch runs d s) as E.
      by destruct (refetchPayload x fetch runs d s) as [s' [e|]]. }
    destruct (repair_previous x fetch runs d r s) as [s' r']. cbn [fst] in E. by rewrite IH, E. }
  set (t := if negb (is_some (VerifyPayload st (ac_Current a))) && negb failed then _ else _). assert (E : in_pointer (fst (fst t)) = in_pointer st).
  { unfold t. destruct (_ && _); [done|]. pose proof (refetch_pointer x fetch runs (ac_Current a) st) as E. by destruct (refetchPayload _ _ _ _ st) as [s' [e|]]. }
  destruct t as [[s r] [e|]]; [done|].
  cbn [fst] in E. specialize (F rest s r). destruct (fold_left _ rest (s, r)) as [s' r']. cbn [fst] in F. destruct (VerifyPayload s' _); cbn; congruence.
Qed.

Lemma verifiedPrevious_Some st old d c : verifiedPreviousForCommit st old d = Some c -> samePayload c d = false /\ validateDescriptorShape c = None.
Proof.
  unfold verifiedPreviousForCommit. intros [_ H]%find_some. apply andb_true_iff in H as [[S%negb_true_iff _]%andb_true_iff V].
  split; [done|]. destruct (validateDescriptor st c) eqn:D; [done|]. by apply descriptor_None in D as [? _].
Qed.

Lemma pointer_same st st' : in_pointer st' = in_pointer st -> install_wf st -> install_wf st'.
Proof. unfold install_wf. intros E W a. rewrite E. apply W. Qed.

Lemma publish_wf x next st : install_wf st -> (Validate st next = None -> pointer_wf next) -> install_wf (fst (publish x next st)).
Proof. intros W P. pose proof (Write_wf x next st W P). unfold publish. by destruct (Write x next st) as [s [e|]]. Qed.

Lemma publish_Err x next st st' e : publish x next st = (st', Err e) -> st' = st.
Proof. unfold publish. destruct (Write_cases x next st) as [[? ->]|[-> _]]; congruence. Qed.

Lemma Commit_wf x staged d st : install_wf st -> install_wf (fst (CommitPayload x staged d st)).
Proof.
  intros W. unfold CommitPayload.
  assert (New : forall read, install_wf (fst (commit_new x staged d read st))).
  { intros read. unfold commit_new. destruct (payload_path _); [|done]. pose proof (place_pointer x staged d st) as E.
    destruct (place_payload x staged d st) as [st' [e|]]; cbn [fst] in E; [by eapply pointer_same|].
    apply publish_wf; [by eapply pointer_same|]. intros V%Validate_current. split; [done|]. split; [done|]. cbn [ac_Current ac_Previous].
    split; [|split; [done|split; [done|]]]; destruct read as [old|]; try done.
    - destruct (verifiedPreviousForCommit st' old d) as [c|] eqn:P; [|done]. by apply verifiedPrevious_Some in P as [_ ?].
    - intros p P. by apply verifiedPrevious_Some in P as [? _]. }
  destruct (Read st) as [old|e] eqn:R; [|apply New].
  destruct (samePayload (ac_Current old) d && negb (is_some (validateCurrent st old))); [|apply New].
  destruct (d_Sequence d <? d_Sequence (ac_Current old)); [done|]. destruct (d_Sequence d =? _); [done|].
  apply publish_wf; [done|]. intros V%Validate_current. apply Read_Ok in R as (R & _). by destruct (W old R) as (Sc & C & P & H & Hd & Pr).
Qed.

Lemma Rollback_Ok x st st' b : Rollback x st = (st', Ok b) ->
  exists a p, Read st = Ok a /\ ac_Previous a = Some p /\ held a p = false /\ verified st p /\ d_Sequence p < d_Sequence (ac_Current a)
    /\ ac_Schema b = ActiveSchema /\ ac_Current b = p /\ ac_RollbackHold b = Some (ac_Current a)
    /\ (ac_Previous b = None \/ ac_Previous b = Some (ac_Current a)) /\ st' = set_pointer b st.
Proof.
  unfold Rollback. destruct (Read st) as [a|] eqn:R; [|done]. destruct (ac_Previous a) as [p|] eqn:P; [|done].
  destruct (held a p) eqn:H; [done|]. destruct (validateDescriptor st p) eqn:V; [done|].
  destruct (Z.leb_spec (d_Sequence (ac_Current a)) (d_Sequence p)); [done|]. unfold publish.
  match goal with |- context [Write x ?next st] => destruct (Write_cases x next st) as [[e ->]|[-> _]] end; [done|]. intros [= <- <-].
  exists a, p. apply descriptor_None in V as [_ V]. cbn. split_and!; try done. destruct (is_some _); [by left|by right].
Qed.

Lemma Rollback_wf x st : install_wf st -> install_wf (fst (Rollback x st)).
Proof.
  intros W. destruct (Rollback x st) as [st' [b|e]] eqn:E.
  - apply Rollback_Ok in E as (a & p & R & P & H & V & L & Sb & C & Hd & Pr & ->). cbn [fst].
    assert (Rd := Read_Ok _ _ R). destruct Rd as (I & _ & Sc & Sp & _). destruct (W a I) as (_ & _ & _ & _ & _ & Np). specialize (Np p P).
    intros ? [= <-]. rewrite P in Sp. cbn in Sp. unfold pointer_wf, held. rewrite C, Hd. rewrite Np.
    split; [done|split; [done|split; [|split; [done|split; [done|]]]]].
    + by destruct Pr as [->| ->].
    + intros q. destruct Pr as [->| ->]; [done|]. intros [= <-]. by rewrite samePayload_sym.
  - enough (st' = st) by (by subst st'). unfold Rollback in E. repeat case_match; simplify_eq; try done; by eapply publish_Err.
Qed.

Lemma Import_wf x source d st : install_wf st -> (forall a, in_pointer st = Some a -> samePayload d (ac_Current a) = false) ->
  install_wf (fst (ImportPrevious x source d st)).
Proof.
  intros W N. unfold ImportPrevious. destruct (validateDescriptorShape d) eqn:S; [done|]. destruct source as [bytes|]; [|done].
  destruct (_ || _); [done|]. assert (P : forall s, promote_absent x bytes (d_Version d) st = Some s -> in_pointer s = in_pointer st) by (intros s; unfold promote_absent; repeat case_match; by intros [= <-]).
  destruct (promote_absent x bytes (d_Version d) st) as [s|]; [|by eapply pointer_same]. specialize (P s eq_refl). assert (Ws : install_wf s) by (by eapply pointer_same).
  destruct (validateDescriptor s d); [done|]. destruct (Load s) as [a|] eqn:L; [|done]. destruct (ac_Previous a) eqn:Pr; [done|].
  assert (R : Read s = Ok a). { unfold Load in L. destruct (Read s); [|done]. by destruct (validateCurrent s _). }
  apply Read_Ok in R as (I & _). destruct (Ws a I) as (Sc & C & _ & H & Hd & _).
  apply publish_wf; [done|]. intros _. split_and!; try done. intros p [= <-]. apply (N a). congruence.
Qed.

Lemma reach_wf st : install_reach st -> install_wf st.
Proof.
  induction 1 as [p|st st' _ IH S]; [done|]. destruct S as [st p|x staged d st|x st|x seen st|x failed seen st|x d staged st|x fetch runs force failed st|x source d st N].
  - done.
  - by apply Commit_wf.
  - by apply Rollback_wf.
  - by apply Resolve_wf.
  - unfold RecoverAfterStartFailure. destruct (Read seen) as [a|] eqn:R; [|done]. destruct (negb _); [|by apply resolveFallback_wf].
    pose proof (Resolve_wf x seen st IH). by destruct (Resolve x seen st) as [s [r|e]].
  - eapply pointer_same; [apply Restore_pointer|done].
  - eapply pointer_same; [apply rehydrate_pointer|done].
  - by apply Import_wf.
Qed.


Lemma Write_None x a st st' : Write x a st = (st', None) -> st' = set_pointer a st /\ Validate st a = None.
Proof. intros E. destruct (Write_cases x a st) as [[e F]|[F V]]; rewrite F in E; by injection E as <-. Qed.

Lemma Validate_verified st a : Validate st a = None -> verified st (ac_Current a).
Proof.
  unfold Validate, validateCurrent. rewrite !andalso_None. intros [[_ C] _]. destruct (validateDescriptor st (ac_Current a)) eqn:D; [done|].
  by apply descriptor_None in D as [_ ?].
Qed.

(** A commit that succeeds points to the payload it was given, and the bytes
    are there. *)
Lemma CommitPayload_Ok x staged d st st' next : CommitPayload x staged d st = (st', Ok next) ->
  in_pointer st' = Some next /\ ac_Current next = d /\ verified st' d.
Proof.
  assert (P : forall n s s', publish x n s = (s', Ok next) -> ac_Current n = d -> in_pointer s' = Some next /\ ac_Current next = d /\ verified s' d).
  { intros n s s'. unfold publish. destruct (Write x n s) as [t [e|]] eqn:W; [done|]. intros [= <- <-] C. apply Write_None in W as [-> V].
    split; [done|]. split; [done|]. rewrite <- C. by apply Validate_verified in V. }
  unfold CommitPayload.
  assert (New : commit_new x staged d (Read st) st = (st', Ok next) -> in_pointer st' = Some next /\ ac_Current next = d /\ verified st' d).
  { unfold commit_new. destruct (payload_path _); [|done]. destruct (place_payload x staged d st) as [s [e|]]; [done|]. intros E. by apply (P _ _ _ E). }
  destruct (Read st) as [old|] eqn:R; [|exact New].
  destruct (samePayload (ac_Current old) d && negb (is_some (validateCurrent st old))) eqn:U; [|exact New].
  apply andb_true_iff in U as [S V]. unfold samePayload in S. apply andb_true_iff in S as [Sv%String.eqb_eq Ss%String.eqb_eq].
  destruct (d_Sequence d <? _); [done|]. destruct (Z.eqb_spec (d_Sequence d) (d_Sequence (ac_Current old))) as [E|].
  - intros [= <- <-]. apply Read_Ok in R as (R & _). split; [done|]. assert (Ed : ac_Current old = d) by (destruct (ac_Current old), d; cbn in *; congruence).
    split; [done|]. unfold validateCurrent in V. destruct (_ andalso _) eqn:Q; [done|]. rewrite andalso_None in Q. destruct Q as [_ Q].
    rewrite <- Ed. destruct (validateDescriptor st (ac_Current old)) eqn:D; [done|]. by apply descriptor_None in D as [_ ?].
  - intros E. apply (P _ _ _ E). cbn. destruct d. cbn in *. congruence.
Qed.

(** A commit that fails leaves the pointer and every file as they were; only
    when writing the pointer itself failed does the new payload stay, at a path
    that was empty, with the bytes its descriptor names. *)
Theorem failed_commit_is_clean x staged d st st' e : CommitPayload x staged d st = (st', Err e) ->
  in_pointer st' = in_pointer st
  /\ (in_payloads st' = in_payloads st
      \/ verified st' d /\ in_payloads st' = <[d_Version d := Regular staged]> (in_payloads st)
         /\ (in_payloads st !! d_Version d = None \/ in_payloads st !! d_Version d = Some EmptyDir)).
Proof.
  unfold CommitPayload. set (read := Read st). set (un := match read with Ok _ => _ | Err _ => _ end). destruct un as [old|].
  - repeat case_match; try (intros [= <- _]; by auto). intros ->%publish_Err. auto.
  - unfold commit_new. destruct (payload_path _); [|intros [= <- _]; auto]. unfold place_payload.
    destruct (io_mkdir x); cbn [negb]; [|intros [= <- _]; auto].
    destruct (in_payloads st !! d_Version d) as [[|b| | |]|] eqn:L.
    + destruct (io_promote x); cbn [negb]; [|intros [= <- _]; auto]. destruct (validateDescriptor _ d) eqn:V; [intros [= <- _]; auto|].
      intros ->%publish_Err. split; [done|]. right. apply descriptor_None in V as [_ V]. destruct (io_keeps x); [|by destruct V as (q & Q & _); cbn in Q; rewrite lookup_insert_eq in Q].
      by auto.
    + destruct (validateDescriptor st d); cbn [option_map]; [intros [= <- _]|intros ->%publish_Err]; auto.
    + destruct (validateDescriptor st d); cbn [option_map]; [intros [= <- _]|intros ->%publish_Err]; auto.
    + destruct (validateDescriptor st d); cbn [option_map]; [intros [= <- _]|intros ->%publish_Err]; auto.
    + destruct (validateDescriptor st d); cbn [option_map]; [intros [= <- _]|intros ->%publish_Err]; auto.
    + destruct (io_promote x); cbn [negb]; [|intros [= <- _]; auto]. destruct (validateDescriptor _ d) eqn:V; [intros [= <- _]; auto|].
      intros ->%publish_Err. split; [done|]. right. apply descriptor_None in V as [_ V]. destruct (io_keeps x); [|by destruct V as (q & Q & _); cbn in Q; rewrite lookup_insert_eq in Q].
      by auto.
Qed.

(** A run, whatever the two payloads are: two releases committed, the second
    loses its file, the launcher falls back and records the recovery. *)
Definition payload_of (v bytes : string) (n : Z) : Descriptor := mkDescriptor v (sha256_hex bytes) n.

Lemma sha256_hex_lower m : ToLower (sha256_hex m) = sha256_hex m /\ str_forall ishex (sha256_hex m) = true /\ str_len (sha256_hex m) = 64.
Proof.
  destruct (sha256_hex_shape m) as [L F]. split; [|split; [|unfold str_len; by rewrite L]].
  - apply ToLower_plain. revert F. apply str_forall_impl. intros c H. unfold lower_hex, plain_byte, is_ascii_byte, is_digit, is_upper in *. lia.
  - revert F. apply str_forall_impl. intros c H. unfold lower_hex, ishex, is_digit in *. lia.
Qed.

Lemma payload_shape v bytes n : IsCanonicalReleaseVersion v = true -> n <> 0 -> validateDescriptorShape (payload_of v bytes n) = None.
Proof.
  intros V N. destruct (sha256_hex_lower bytes) as (T & H & L). unfold validateDescriptorShape, payload_of. cbn [d_Version d_Sequence d_SHA256].
  rewrite V, T, H, L, String.eqb_refl. apply Z.eqb_neq in N. by rewrite N.
Qed.

Section run.
  Variables (one two : string).
  Hypothesis one_small : str_len one <= maxPayloadBytes.
  Hypothesis two_small : str_len two <= maxPayloadBytes.

Definition old_release : Descriptor := payload_of "v1.0.0" one 1.
Definition new_release : Descriptor := payload_of "v1.1.0" two 2.
Definition both_files : gmap string node := <["v1.0.0" := Regular one]> (<["v1.1.0" := Regular two]> ∅).
Definition one_file : gmap string node := <["v1.1.0" := EmptyDir]> both_files.
Definition recovered : install := mkInstall (Some (mkActive 1 old_release None (Some new_release))) one_file.

Lemma old_verifies st : in_payloads st !! "v1.0.0" = Some (Regular one) -> validateDescriptor st old_release = None.
Proof using one_small. intros E. apply descriptor_None. split; [by apply payload_shape|]. by exists one. Qed.

Lemma new_verifies st : in_payloads st !! "v1.1.0" = Some (Regular two) -> validateDescriptor st new_release = None.
Proof using two_small. intros E. apply descriptor_None. split; [by apply payload_shape|]. by exists two. Qed.

Lemma shapes : validateDescriptorShape old_release = None /\ validateDescriptorShape new_release = None.
Proof. split; by apply payload_shape. Qed.

Lemma recovered_reach : install_reach recovered.
Proof using one_small two_small.
  assert (A : both_files !! "v1.0.0" = Some (Regular one)) by apply lookup_insert_eq.
  assert (B : both_files !! "v1.1.0" = Some (Regular two)) by (unfold both_files; by rewrite lookup_insert_ne, lookup_insert_eq).
  destruct shapes as [So Sn].
  set (s1 := mkInstall (Some (mkActive 1 old_release None None)) both_files).
  set (s2 := mkInstall (Some (mkActive 1 new_release (Some old_release) None)) both_files).
  set (s3 := mkInstall (in_pointer s2) one_file).
  assert (R1 : Read s1 = Ok (mkActive 1 old_release None None)) by (unfold Read, s1; cbn [in_pointer ac_Current ac_Schema ac_Previous ac_RollbackHold opt_check]; by rewrite So).
  assert (R3 : Read s3 = Ok (mkActive 1 new_release (Some old_release) None)) by (unfold Read, s3; cbn [in_pointer s2 ac_Current ac_Schema ac_Previous ac_RollbackHold opt_check]; by rewrite Sn, So).
  assert (E1 : fst (CommitPayload io_ok one old_release (mkInstall None both_files)) = s1).
  { unfold CommitPayload. cbn [Read in_pointer]. unfold commit_new, place_payload, payload_path. change (d_Version old_release) with "v1.0.0".
    change (IsCanonicalReleaseVersion "v1.0.0") with true. cbn [in_payloads io_mkdir io_ok negb]. rewrite A, old_verifies by done. cbn [option_map].
    unfold publish, Write, Validate, validateCurrent. cbn [ac_Current ac_Schema ac_Previous]. by rewrite old_verifies. }
  assert (E2 : fst (CommitPayload io_ok two new_release s1) = s2).
  { unfold CommitPayload. rewrite R1. cbn [ac_Current]. unfold samePayload at 1. change (d_Version old_release) with "v1.0.0"; change (d_Version new_release) with "v1.1.0".
    change (String.eqb "v1.0.0" "v1.1.0") with false. cbn [andb]. unfold commit_new, place_payload, payload_path. change (d_Version new_release) with "v1.1.0".
    change (IsCanonicalReleaseVersion "v1.1.0") with true. cbn [in_payloads io_mkdir io_ok negb s1]. rewrite B, new_verifies by done. cbn [option_map].
    unfold verifiedPreviousForCommit. cbn [ac_Current ac_Previous List.find]. unfold samePayload at 1. change (d_Version old_release) with "v1.0.0"; change (d_Version new_release) with "v1.1.0".
    change (String.eqb "v1.0.0" "v1.1.0") with false. rewrite old_verifies by done. cbn [andb negb is_some held ac_RollbackHold].
    unfold publish, Write, Validate, validateCurrent. cbn [ac_Current ac_Schema ac_Previous held ac_RollbackHold]. by rewrite new_verifies, old_verifies. }
  assert (E4 : fst (Resolve io_ok s3 s3) = recovered).
  { assert (O : one_file !! "v1.0.0" = Some (Regular one)) by (unfold one_file; by rewrite lookup_insert_ne).
    assert (M : validateDescriptor s3 new_release = Some PayloadMissing).
    { unfold validateDescriptor. rewrite Sn. change (d_Version new_release) with "v1.1.0". cbn [in_payloads s3]. unfold one_file. by rewrite lookup_insert_eq. }
    unfold Resolve. rewrite R3. cbn [ac_Current]. rewrite M. unfold resolveFallback.
    replace (fallback s3 _) with (Some old_release) by (symmetry; apply fallback_Some; split_and!; try done; by apply old_verifies).
    unfold heal. rewrite R3. cbn [io_lock io_ok negb ac_Current]. rewrite bool_decide_eq_true_2 by done. cbn [negb].
    unfold Write, Validate, validateCurrent. cbn [ac_Current ac_Schema ac_Previous]. unfold s3. by rewrite old_verifies. }
  rewrite <- E4. eapply InstallStep; [|apply Resolves]. apply (InstallStep s2); [|apply FilesChange].
  rewrite <- E2. eapply InstallStep; [|apply Commits]. rewrite <- E1. eapply InstallStep; [|apply Commits]. apply FreshInstall.
Qed.
End run.


(** The repair compares whole descriptors where the launcher compares
    payloads: a rejected payload that is recorded as previous under another
    sequence is refetched, though the launcher will never run it. *)
Lemma repair_refetches_a_rejected_payload v w (one two : string) : v <> w -> IsCanonicalReleaseVersion v = true -> IsCanonicalReleaseVersion w = true ->
  exists a p, pointer_wf a /\ In p (repair_candidates a) /\ held a p = true.
Proof.
  intros N V W. set (p := payload_of w two 1).
  exists (mkActive 1 (payload_of v one 1) (Some p) (Some (payload_of w two 2))), p. apply not_eq_sym, String.eqb_neq in N. split; [|split].
  - unfold pointer_wf, held, samePayload. cbn [ac_Schema ac_Current ac_Previous ac_RollbackHold opt_check d_Version payload_of].
    rewrite String.eqb_sym, N. split_and!; try done; try by apply payload_shape. intros q [= <-]. unfold p. cbn [d_Version payload_of]. by rewrite N.
  - unfold repair_candidates. cbn [ac_Current ac_Previous ac_RollbackHold]. change (d_Version p) with w. cbn [d_Version payload_of]. rewrite N.
    rewrite bool_decide_eq_false_2 by (intros E; discriminate E). right. by left.
  - unfold held, samePayload. cbn [ac_RollbackHold]. unfold p. cbn [d_Version d_SHA256 payload_of]. by rewrite !String.eqb_refl.
Qed.
