(* ===== verification/UpdateLock.v ===== *)
(** * The lock of the updater (internal/update/client.go: acquireNamedLockLegacy,
      releaseNamedLock, lockIsStale; internal/launcher/locktakeover_other.go)

    A lock is a file created exclusively, into which the owner then writes its
    token and process id.  A process that finds the file reads it, and when it
    names a process that is gone (or, a day later, nobody) removes it and tries
    again.  Any number of processes, each step a call of the operating system,
    in any order; a process may die between any two of them.

    [takeover] says how a stale lock is taken away: [ReadThenRemove] is what the
    updater does outside Windows, [NoTakeover] what the launcher does there, and
    [RemoveIfSame] the handle-pinned removal both use on Windows, which removes
    the very file that was read.  A file without a name counts as stale only
    when its creator died: writing the name is assumed to take less than the
    day the code waits. *)

From stdpp Require Import gmap.
From S2P Require Import Prelude.

#[local] Open Scope csx_scope.

Inductive takeover := ReadThenRemove | RemoveIfSame | NoTakeover.

(** The process that created the file, and whether its name is written. *)
Record lock_file := mkLockFile { lf_owner : nat; lf_named : bool }.

#[export] Instance lock_file_eq : EqDecision lock_file.
Proof. solve_decision. Defined.

Inductive locker :=
| Idle
| Trying
| Created               (* the file is made, the name not yet written *)
| SawStale (f : lock_file)  (* read it, its owner is gone *)
| Holding
| Releasing             (* read its own token, about to remove *)
| Dead.

Record lock_world := mkWorld { lw_file : option lock_file; lw_procs : nat -> locker }.
Definition set_locker (w : lock_world) (p : nat) (s : locker) (f : option lock_file) : lock_world :=
  mkWorld f (fun q => if Nat.eqb q p then s else lw_procs w q).

(** [lockIsStale]: the process the file names does not run. *)
Definition lockIsStale (w : lock_world) (f : lock_file) : bool := match lw_procs w (lf_owner f) with Dead => true | _ => false end.

(** Whether the removal by a process that saw [f] stale may go ahead. *)
Definition may_remove (k : takeover) (w : lock_world) (f : lock_file) : Prop :=
  match k with ReadThenRemove => True | RemoveIfSame => lw_file w = Some f | NoTakeover => False end.

Inductive lock_step (k : takeover) : lock_world -> lock_world -> Prop :=
| Starts w p : lw_procs w p = Idle -> lock_step k w (set_locker w p Trying (lw_file w))
| CreatesFile w p : lw_procs w p = Trying -> lw_file w = None -> lock_step k w (set_locker w p Created (Some (mkLockFile p false)))
| WritesName w p : lw_procs w p = Created ->
    lock_step k w (set_locker w p Holding (if bool_decide (lw_file w = Some (mkLockFile p false)) then Some (mkLockFile p true) else lw_file w))
| FindsStale w p f : lw_procs w p = Trying -> lw_file w = Some f -> lockIsStale w f = true -> lock_step k w (set_locker w p (SawStale f) (lw_file w))
| RemovesStale w p f : lw_procs w p = SawStale f -> may_remove k w f -> lock_step k w (set_locker w p Trying None)
| RetriesLater w p f : lw_procs w p = SawStale f -> lock_step k w (set_locker w p Trying (lw_file w))
| GivesUp w p f : lw_procs w p = Trying -> lw_file w = Some f -> lock_step k w (set_locker w p Idle (lw_file w))
| ReadsOwn w p : lw_procs w p = Holding -> lw_file w = Some (mkLockFile p true) -> lock_step k w (set_locker w p Releasing (lw_file w))
| ReadsOther w p : lw_procs w p = Holding -> lw_file w <> Some (mkLockFile p true) -> lock_step k w (set_locker w p Idle (lw_file w))
| RemovesOwn w p : lw_procs w p = Releasing -> lock_step k w (set_locker w p Idle None)
| Dies w p : lock_step k w (set_locker w p Dead (lw_file w)).

Inductive lock_reach (k : takeover) : lock_world -> Prop :=
| NoLock : lock_reach k (mkWorld None (fun _ => Idle))
| LockStep w w' : lock_reach k w -> lock_step k w w' -> lock_reach k w'.

(** The critical section: from the creation of the file to its removal. *)
Definition inside (s : locker) : bool := match s with Created | Holding | Releasing => true | _ => false end.

(** Whoever is inside made the file that is there; a stale file's maker is
    gone for good. *)
Definition lock_ok (w : lock_world) : Prop :=
  (forall p, inside (lw_procs w p) = true -> exists n, lw_file w = Some (mkLockFile p n))
  /\ (forall p, lw_procs w p = Created -> lw_file w = Some (mkLockFile p false))
  /\ (forall p f, lw_procs w p = SawStale f -> lw_procs w (lf_owner f) = Dead).

Lemma set_locker_at w p s f q : lw_procs (set_locker w p s f) q = if Nat.eqb q p then s else lw_procs w q.
Proof. done. Qed.

(** Nobody wakes up from the dead. *)
Lemma dead_step k w w' q : lock_step k w w' -> lw_procs w q = Dead -> lw_procs w' q = Dead.
Proof. destruct 1; intros D; rewrite set_locker_at; destruct (Nat.eqb_spec q p) as [->|]; congruence. Qed.

Lemma lock_ok_step k w w' : k <> ReadThenRemove -> lock_ok w -> lock_step k w w' -> lock_ok w'.
Proof.
  intros K (In & Cr & St) S.
  assert (St' : forall q f, lw_procs w' q = SawStale f -> lw_procs w' (lf_owner f) = Dead).
  { intros q f Q. eapply dead_step; [exact S|]. revert Q.
    destruct S as [w p|w p|w p|w p g T F L|w p g|w p g|w p g|w p|w p|w p|w p]; rewrite set_locker_at; destruct (Nat.eqb q p); try discriminate; try apply St.
    intros [= <-]. revert L. unfold lockIsStale. by destruct (lw_procs w (lf_owner g)). }
  assert (One : forall p q, inside (lw_procs w p) = true -> inside (lw_procs w q) = true -> p = q).
  { intros p q P Q. apply In in P as [n P], Q as [m Q]. congruence. }
  split; [|split; [|done]]; clear St'.
  - intros q.
    destruct S as [w p T|w p T F|w p T|w p g T F L|w p g T M|w p g T|w p g T F|w p T F|w p T F|w p T|w p]; rewrite set_locker_at; cbn [lw_file set_locker];
      destruct (Nat.eqb_spec q p) as [E|N]; try discriminate; try (intros Q; apply (In q Q)).
    all: try (intros _; rewrite E; eauto; fail).
    + intros [n Q]%In. congruence.
    + intros _. rewrite bool_decide_eq_true_2 by (by apply Cr). rewrite E. by eexists.
    + intros Q. destruct N. apply One; [done|]. by rewrite T.
    + intros Q. destruct k; [done| |done]. cbn in M. apply In in Q as Q'. destruct Q' as [n Q']. rewrite M in Q'. injection Q' as ->.
      assert (D := St p _ T). cbn in D. by rewrite D in Q.
    + intros Q. destruct N. apply One; [done|]. by rewrite T.
  - intros q.
    destruct S as [w p T|w p T F|w p T|w p g T F L|w p g T M|w p g T|w p g T F|w p T F|w p T F|w p T|w p]; rewrite set_locker_at; cbn [lw_file set_locker];
      destruct (Nat.eqb_spec q p) as [E|N]; try discriminate; try (intros Q; apply (Cr q Q)).
    + intros _. by rewrite E.
    + intros Q. assert (Z := Cr q Q). congruence.
    + intros Q. destruct N. apply One; [by rewrite Q|by rewrite T].
    + intros Q. assert (Z := Cr q Q). destruct k; [done| |done]. cbn in M. rewrite M in Z. injection Z as ->.
      assert (D := St p _ T). cbn in D. by rewrite D in Q.
    + intros Q. destruct N. apply One; [by rewrite Q|by rewrite T].
Qed.

Lemma reach_ok k w : k <> ReadThenRemove -> lock_reach k w -> lock_ok w.
Proof. intros K. induction 1 as [|w w' R IH S]; [done|by eapply lock_ok_step]. Qed.

(** One updater at a time, as long as a stale lock is taken away by
    removing the very file that was read, or never: under any interleaving and
    any crash at most one process is between the creation of the lock and its
    removal, and the file on disk is its own. *)
Theorem update_lock_exclusive k w p q : k <> ReadThenRemove -> lock_reach k w ->
  inside (lw_procs w p) = true -> inside (lw_procs w q) = true -> p = q /\ exists n, lw_file w = Some (mkLockFile p n).
Proof.
  intros K R P Q. destruct (reach_ok k w K R) as (In & _). destruct (In p P) as [n Ep], (In q Q) as [m Eq]. split; [congruence|by exists n].
Qed.

(** One process holds the lock, another that came too late waits. *)
Definition one_holder : lock_world :=
  let w := mkWorld None (fun _ => Idle) in
  let w := set_locker w 0 Trying (lw_file w) in
  let w := set_locker w 0 Created (Some (mkLockFile 0 false)) in
  let w := set_locker w 0 Holding (Some (mkLockFile 0 true)) in
  set_locker w 1 Trying (lw_file w).

Lemma one_holder_reach k : lock_reach k one_holder.
Proof.
  unfold one_holder. cbv zeta. eapply LockStep; [|apply Starts; reflexivity]. eapply LockStep; [|apply WritesName; reflexivity].
  eapply LockStep; [|apply CreatesFile; reflexivity]. eapply LockStep; [apply NoLock|]. apply (Starts k (mkWorld None (fun _ => Idle)) 0). reflexivity.
Qed.

Lemma update_lock_exclusive_witness : 0%nat = 0%nat /\ exists n, lw_file one_holder = Some (mkLockFile 0 n).
Proof. refine (update_lock_exclusive RemoveIfSame one_holder 0 0 _ (one_holder_reach _) eq_refl eq_refl). discriminate. Defined.

(** What the updater does outside Windows is not exclusive.  One owner died;
    two processes read its file and find it stale; the first removes it and
    takes the lock, and the second then removes the first one's file. *)
Theorem stale_takeover_is_not_exclusive : exists w, lock_reach ReadThenRemove w
  /\ lw_procs w 1%nat = Holding /\ lw_procs w 2%nat = Holding.
Proof.
  pose proof (NoLock ReadThenRemove) as R.
  eapply LockStep in R; [|apply (Starts _ _ 0%nat); (reflexivity || exact I)].
  eapply LockStep in R; [|apply (CreatesFile _ _ 0%nat); (reflexivity || exact I)].
  eapply LockStep in R; [|apply (WritesName _ _ 0%nat); (reflexivity || exact I)].
  eapply LockStep in R; [|apply (Dies _ _ 0%nat)].
  eapply LockStep in R; [|apply (Starts _ _ 1%nat); (reflexivity || exact I)].
  eapply LockStep in R; [|apply (Starts _ _ 2%nat); (reflexivity || exact I)].
  eapply LockStep in R; [|apply (FindsStale _ _ 1%nat (mkLockFile 0 true)); (reflexivity || exact I)].
  eapply LockStep in R; [|apply (FindsStale _ _ 2%nat (mkLockFile 0 true)); (reflexivity || exact I)].
  eapply LockStep in R; [|apply (RemovesStale _ _ 1%nat (mkLockFile 0 true)); (reflexivity || exact I)].
  eapply LockStep in R; [|apply (CreatesFile _ _ 1%nat); (reflexivity || exact I)].
  eapply LockStep in R; [|apply (WritesName _ _ 1%nat); (reflexivity || exact I)].
  eapply LockStep in R; [|apply (RemovesStale _ _ 2%nat (mkLockFile 0 true)); (reflexivity || exact I)].
  eapply LockStep in R; [|apply (CreatesFile _ _ 2%nat); (reflexivity || exact I)].
  eapply LockStep in R; [|apply (WritesName _ _ 2%nat); (reflexivity || exact I)].
  eexists. split; [exact R|]. split; reflexivity.
Qed.
