(* ===== verification/Update.v ===== *)
(** * The updater (internal/update/client.go, the state of state.go)

    One check of the updater, from the lock to the saved state: what the server
    answered, whether each effect on the disk succeeded and what a started
    program reported are inputs ([weather]); the state file, the executable with
    its predecessor, the launcher and the launcher's install are the world it
    changes.  The two ways to install are those of the code: replacing a
    standalone executable, and committing a payload to the launcher of Windows.

    Paths are not modelled: whether the running executable belongs to the
    install is an input, and [PreviousPath] is the text the code stores. *)

From stdpp Require Import gmap.
From S2P Require Import Prelude GoStrings GoUnicode GoStd StringFacts UnicodeFacts WordFacts Calendar Hash.
From S2P Require Import Purl Env Search Validate Identity Release Launcher.

#[local] Open Scope csx_scope.

Inductive update_error :=
| LockTaken | StateUnreadable | PreflightFailed | InstallBroken (e : launcher_error) | NoTrustRoot | ManifestURLRefused (e : url_error)
| DownloadFailed | Untrusted (e : release_error) | Replayed | RollbackRefused | UpdaterTooOld | NotUpdatable | NotOwned | NoAsset
| AssetURLRefused (e : url_error) | TooLarge | WrongSize | WrongDigest | SelfTestFailed | CommitFailed (e : launcher_error)
| TargetInvalid | ReplaceFailed | SyncFailed | SaveFailed.

Record State := mkState {
  us_HighestSequence : Z; us_HighestVersion : string; us_LastCheck : Z; us_NextCheck : Z; us_ConsecutiveFailures : Z;
  us_PendingRestart : string; us_PreviousPath : string; us_LastError : option update_error }.

Definition fresh_state : State := mkState 0 "" zero_time zero_time 0 "" "" None.

Record Result := mkResult {
  rs_LatestVersion : string; rs_Available : bool; rs_Applied : bool; rs_RestartRequired : bool; rs_ManualInstallRequired : bool;
  rs_RollbackHeld : bool; rs_PreviousPath : string; rs_LauncherReplaced : bool; rs_LauncherError : option update_error }.
Definition no_result : Result := mkResult "" false false false false false "" false None.
Definition latest (v : string) : Result := mkResult v false false false false false "" false None.
Definition available (v : string) : Result := mkResult v true false false false false "" false None.
Definition manual (v : string) : Result := mkResult v true false false true false "" false None.
Definition rollback_held (v : string) : Result := mkResult v true false false false true "" false None.
Definition applied (v previous : string) : Result := mkResult v true true true false false previous false None.

Record world := mkUpdateWorld {
  uw_state : State; uw_exe : string; uw_previous : option string; uw_launcher : option string; uw_install : install }.

Record Client := mkClient {
  cl_Home : string; cl_CurrentVersion : string; cl_Executable : string; cl_ManifestURL : string; cl_Channel : string;
  cl_PublicKey : option string; cl_GOOS : string; cl_GOARCH : string; cl_Automatic : bool }.

Record weather := mkWeather {
  wt_now : Z; wt_lock : bool; wt_load : bool; wt_preflight : bool; wt_manifest : option string;
  wt_supported : bool; wt_owned : bool; wt_kind : option string; wt_launcherVersion : string; wt_installLock : bool;
  wt_target : bool; wt_asset : option string; wt_runs : string -> string -> bool;
  wt_copy : bool; wt_rename : bool; wt_sync : bool; wt_save : bool; wt_io : io;
  wt_launcherAsset : option string; wt_launcherRuns : string -> bool; wt_launcherReadable : bool; wt_swap : bool }.

Definition normalCheckEvery : Z := 6 * 3600 * 1000000000.
Definition DefaultManifestURL : string := "https://github.com/r2cuerdame/CodeSampleX/releases/latest/download/csx-update-stable.json".
Definition maxBinaryBytes : Z := 256 * 2 ^ 20.

(** ** Policy and pacing *)

Definition AutoEnabled (mode policy : string) : bool := String.eqb mode "community" && str_in policy ["on"; ""; "auto"].

(** 80 to 120 percent, fixed by the key. *)
Definition jitter (base : Z) (key : string) : Z :=
  let percent := 80 + List.hd 0 (sha256 key) mod 41 in Z.quot (base * percent) 100.

Definition day : Z := 24 * 3600 * 1000000000.

(** The doubling loop; one unit of fuel per failure. *)
Fixpoint double_until_day (fuel : nat) (d : Z) : Z :=
  match fuel with O => d | S fuel => if d <? day then double_until_day fuel (2 * d) else d end.

Definition backoff (failures : Z) (key : string) : Z :=
  let failures := if failures <? 1 then 1 else failures in
  let d := double_until_day (Z.to_nat (failures - 1)) (15 * 60 * 1000000000) in
  jitter (if day <? d then day else d) (key +:+ Itoa failures).

Definition Due (c : Client) (loaded : bool) (st : State) (now : Z) : bool :=
  negb loaded || is_zero_time (us_NextCheck st) || negb (now <? us_NextCheck st).

(** ** Files *)

(** [downloadAsset], of the body the server sent: of the signed size and
    digest, or refused. *)
Definition downloadAsset (body : option string) (size : Z) (digest : string) : result string update_error :=
  if maxBinaryBytes <? size then Err TooLarge
  else match body with
  | None => Err DownloadFailed
  | Some bytes =>
      if negb (str_len bytes =? size) then Err WrongSize
      else if negb (String.eqb (sha256_hex bytes) digest) then Err WrongDigest else Ok bytes
  end.

Definition fileSHA256 (bytes : string) : option string := if maxBinaryBytes <? str_len bytes then None else Some (sha256_hex bytes).

(** [selfTestBinary]: what the program printed for [version]. *)
Definition self_test_output (version : string) : string := "csx " +:+ version.

Section updater.
  Context `{!GoNetip, !Ed25519, !ReleaseJSON}.
  Variables (c : Client) (i : weather).

(** ** The floor *)

Definition raise_floor (st : State) (d : Descriptor) : State :=
  let seq := if us_HighestSequence st <? d_Sequence d then d_Sequence d else us_HighestSequence st in
  let version := if String.eqb (us_HighestVersion st) "" then d_Version d
                 else match CompareReleases (d_Version d) (us_HighestVersion st) with
                      | Some n => if 0 <? n then d_Version d else us_HighestVersion st
                      | None => us_HighestVersion st
                      end in
  mkState seq version (us_LastCheck st) (us_NextCheck st) (us_ConsecutiveFailures st) (us_PendingRestart st) (us_PreviousPath st) (us_LastError st).

Definition mergeLauncherFloor (st : State) (a : Active) : State :=
  fold_left raise_floor (ac_Current a :: match ac_Previous a with Some d => [d] | None => [] end ++ match ac_RollbackHold a with Some d => [d] | None => [] end)%list st.

Definition set_floor (seq : Z) (version : string) (st : State) : State :=
  mkState seq version (us_LastCheck st) (us_NextCheck st) (us_ConsecutiveFailures st) (us_PendingRestart st) (us_PreviousPath st) (us_LastError st).
Definition set_pending (version previous : string) (st : State) : State :=
  mkState (us_HighestSequence st) version (us_LastCheck st) (us_NextCheck st) (us_ConsecutiveFailures st) version previous (us_LastError st).

(** What a check has done when it returns: the world with the state still
    unsaved, the result and the error. *)
Record check_outcome := mkOutcome { oc_world : world; oc_result : Result; oc_error : option update_error }.
Definition with_state (st : State) (w : world) : world := mkUpdateWorld st (uw_exe w) (uw_previous w) (uw_launcher w) (uw_install w).
Definition with_install (a : install) (w : world) : world := mkUpdateWorld (uw_state w) (uw_exe w) (uw_previous w) (uw_launcher w) a.
Definition stop (w : world) (r : Result) : check_outcome := mkOutcome w r None.
Definition give_back (w : world) (r : Result) (e : update_error) : check_outcome := mkOutcome w r (Some e).

(** [CompareVersions] below 0, or failing. *)
Definition below (a b : string) : bool := match CompareReleases a b with Some n => n <? 0 | None => true end.

(** ** The launcher (launcherreplace.go) *)

Definition replaceLauncherIfStale (a : Asset) (current : option string) : option string * result bool update_error :=
  if String.eqb (as_LauncherSHA256 a) "" then (current, Ok false)
  else if negb (wt_launcherReadable i) then (current, Err DownloadFailed)
  else if match current with Some b => negb (is_some (fileSHA256 b)) | None => false end then (current, Err TooLarge)
  else if match current with Some b => EqualFold (sha256_hex b) (as_LauncherSHA256 a) | None => false end then (current, Ok false)
  else match downloadAsset (wt_launcherAsset i) (as_LauncherSize a) (as_LauncherSHA256 a) with
  | Err e => (current, Err e)
  | Ok staged =>
      if negb (wt_launcherRuns i staged) then (current, Err SelfTestFailed)
      else if wt_swap i then (Some staged, Ok true) else (current, Err ReplaceFailed)
  end.

(** ** Installing *)

Definition same_descriptor (d : Descriptor) (m : Manifest) (a : Asset) : bool :=
  String.eqb (d_Version d) (rm_Version m) && String.eqb (d_SHA256 d) (as_SHA256 a) && (d_Sequence d =? rm_Sequence m).

Definition held_back (a : Active) (m : Manifest) (asset : Asset) : bool :=
  cl_Automatic c && match ac_RollbackHold a with
    | Some h => (rm_Sequence m <=? d_Sequence h) || (String.eqb (rm_Version m) (d_Version h) && String.eqb (as_SHA256 asset) (d_SHA256 h))
    | None => false
    end.

Definition previous_path (d : option Descriptor) (old : string) : string :=
  match d with Some d => "active.json:" +:+ d_Version d | None => old end.

Definition after_commit (m : Manifest) (asset : Asset) (next : Active) (w : world) : check_outcome :=
  let path := previous_path (ac_Previous next) (us_PreviousPath (uw_state w)) in
  let w := with_state (set_pending (rm_Version m) path (uw_state w)) w in
  let r := applied (rm_Version m) path in
  match replaceLauncherIfStale asset (uw_launcher w) with
  | (l, answer) =>
      let w := mkUpdateWorld (uw_state w) (uw_exe w) (uw_previous w) l (uw_install w) in
      stop w (mkResult (rs_LatestVersion r) true true true false false path
                (match answer with Ok b => b | Err _ => false end) (match answer with Ok _ => None | Err e => Some e end))
  end.

Definition apply_launcher (m : Manifest) (asset : Asset) (w : world) : check_outcome :=
  let v := rm_Version m in
  if negb (match wt_kind i with Some k => String.eqb k "launcher" | None => false end) then stop w (manual v)
  else if negb (String.eqb (as_MinLauncherVersion asset) "") && below (wt_launcherVersion i) (as_MinLauncherVersion asset) then stop w (manual v)
  else if negb (wt_installLock i) then give_back w (available v) LockTaken
  else match Load (uw_install w) with
  | Err e => give_back w (available v) (InstallBroken e)
  | Ok a =>
      match Launcher.Validate (uw_install w) a with
      | Some e => give_back w (available v) (InstallBroken e)
      | None =>
          let w := with_state (mergeLauncherFloor (uw_state w) a) w in
          let st := uw_state w in
          if rm_Sequence m <? us_HighestSequence st then give_back w (available v) Replayed
          else if below v (us_HighestVersion st) then give_back w (available v) RollbackRefused
          else if held_back a m asset then stop w (rollback_held v)
          else if same_descriptor (ac_Current a) m asset then
            let path := previous_path (ac_Previous a) (us_PreviousPath st) in
            stop (with_state (mkState (us_HighestSequence st) (us_HighestVersion st) (us_LastCheck st) (us_NextCheck st) (us_ConsecutiveFailures st) v path (us_LastError st)) w)
                 (applied v (previous_path (ac_Previous a) ""))
          else match downloadAsset (wt_asset i) (as_Size asset) (as_SHA256 asset) with
          | Err e => give_back w (available v) e
          | Ok staged =>
              if negb (wt_runs i staged v) then give_back w (available v) SelfTestFailed
              else match CommitPayload (wt_io i) staged (mkDescriptor v (as_SHA256 asset) (rm_Sequence m)) (uw_install w) with
              | (inst, Err e) => give_back (with_install inst w) (available v) (CommitFailed e)
              | (inst, Ok next) => after_commit m asset next (with_install inst w)
              end
          end
      end
  end.

(** [replaceExecutable]: the old bytes are copied aside, then the staged file
    is renamed over them. *)
Definition apply_standalone (m : Manifest) (asset : Asset) (w : world) : check_outcome :=
  let v := rm_Version m in
  let previous := cl_Executable c +:+ ".previous" in
  let pending := with_state (set_pending v previous (uw_state w)) in
  if negb (wt_target i) then give_back w (available v) TargetInvalid
  else if match fileSHA256 (uw_exe w) with Some h => String.eqb h (as_SHA256 asset) | None => false end then stop (pending w) (applied v previous)
  else match downloadAsset (wt_asset i) (as_Size asset) (as_SHA256 asset) with
  | Err e => give_back w (available v) e
  | Ok staged =>
      if negb (wt_runs i staged v) then give_back w (available v) SelfTestFailed
      else if negb (wt_copy i) then give_back w (available v) ReplaceFailed
      else
        let aside := mkUpdateWorld (uw_state w) (uw_exe w) (Some (uw_exe w)) (uw_launcher w) (uw_install w) in
        if negb (wt_rename i) then give_back aside (available v) ReplaceFailed
        else
          let w := pending (mkUpdateWorld (uw_state w) staged (uw_previous aside) (uw_launcher w) (uw_install w)) in
          if wt_sync i then stop w (applied v previous) else give_back w (applied v previous) SyncFailed
  end.

(** ** One check *)

Definition windows : bool := String.eqb (cl_GOOS c) "windows".

(** From an accepted manifest on. *)
Definition consider (apply : bool) (m : Manifest) (w : world) : check_outcome :=
  let st := uw_state w in
  let v := rm_Version m in
  if rm_Sequence m <? us_HighestSequence st then give_back w (latest v) Replayed
  else if negb (String.eqb (us_HighestVersion st) "") && below v (us_HighestVersion st) then give_back w (latest v) RollbackRefused
  else if negb (String.eqb (rm_MinUpdaterVersion m) "") && below (cl_CurrentVersion c) (rm_MinUpdaterVersion m) then give_back w (latest v) UpdaterTooOld
  else match CompareReleases (cl_CurrentVersion c) v with
  | None => give_back w (latest v) NotUpdatable
  | Some cmp =>
      let st := set_floor (Z.max (us_HighestSequence st) (rm_Sequence m))
                  (if String.eqb (us_HighestVersion st) "" then cl_CurrentVersion c else us_HighestVersion st) st in
      let w := with_state st w in
      if 0 <=? cmp then stop w (latest v)
      else if negb apply then stop w (available v)
      else if negb (wt_supported i) then stop w (manual v)
      else if negb (wt_owned i) then (if windows then stop w (manual v) else give_back w (available v) NotOwned)
      else match AssetFor m (cl_GOOS c) (cl_GOARCH c) with
      | None => give_back w (available v) NoAsset
      | Some asset =>
          match validateSignedAssetURL (as_URL asset) v (as_OS asset) (as_Arch asset) with
          | Some e => give_back w (available v) (AssetURLRefused e)
          | None => if windows then apply_launcher m asset w else apply_standalone m asset w
          end
      end
  end.

Definition run_check (apply : bool) (w : world) : check_outcome :=
  match cl_PublicKey c with
  | None => give_back w no_result NoTrustRoot
  | Some key =>
      let channel := if String.eqb (cl_Channel c) "" then DefaultChannel else cl_Channel c in
      let url := if String.eqb (cl_ManifestURL c) "" then DefaultManifestURL else cl_ManifestURL c in
      match validateManifestURL url channel with
      | Some e => give_back w no_result (ManifestURLRefused e)
      | None =>
          match wt_manifest i with
          | None => give_back w no_result DownloadFailed
          | Some raw =>
              if maxManifestBytes <? str_len raw then give_back w no_result DownloadFailed
              else match VerifyEnvelope raw key (wt_now i) channel with
              | Err e => give_back w no_result (Untrusted e)
              | Ok m => consider apply m w
              end
          end
      end
  end.

(** The deferred bookkeeping. *)
Definition settle (err : option update_error) (st : State) : State :=
  let now := wt_now i in
  match err with
  | Some e =>
      let n := us_ConsecutiveFailures st + 1 in
      mkState (us_HighestSequence st) (us_HighestVersion st) now (now + backoff n (cl_Home c)) n (us_PendingRestart st) (us_PreviousPath st) (Some e)
  | None =>
      mkState (us_HighestSequence st) (us_HighestVersion st) now (now + jitter normalCheckEvery (cl_Home c)) 0 (us_PendingRestart st) (us_PreviousPath st) None
  end.

(** The floor of the install is read before anything is fetched. *)
Definition entry_floor (w : world) : Datatypes.sum update_error State :=
  if windows && match wt_kind i with Some k => String.eqb k "launcher" | None => false end then
    match Load (uw_install w) with
    | Err e => inl (InstallBroken e)
    | Ok a => match Launcher.Validate (uw_install w) a with Some e => inl (InstallBroken e) | None => inr (mergeLauncherFloor (uw_state w) a) end
    end
  else inr (uw_state w).

Definition Check (apply : bool) (w : world) : world * Result * option update_error :=
  if negb (wt_lock i) then (w, no_result, Some LockTaken)
  else if negb (wt_load i) then (w, no_result, Some StateUnreadable)
  else if negb (wt_preflight i) then (w, no_result, Some PreflightFailed)
  else match entry_floor w with
  | inl e => (w, no_result, Some e)
  | inr st =>
      let o := run_check apply (with_state st w) in
      let st' := settle (oc_error o) (uw_state (oc_world o)) in
      if wt_save i then (with_state st' (oc_world o), oc_result o, oc_error o)
      else (with_state (uw_state w) (oc_world o), oc_result o, Some (default SaveFailed (oc_error o)))
  end.
End updater.

(** ** Rolling back and acknowledging *)

(** What a rollback meets: [rb_reports] is what a binary prints, trimmed. *)
Record rollback_weather := mkRollbackWeather {
  rb_owned : bool; rb_kind : option string; rb_lock : bool; rb_load : bool; rb_installLock : bool; rb_target : bool;
  rb_reports : string -> option string; rb_aside : bool; rb_restore : bool; rb_sync : bool; rb_save : bool; rb_io : io }.

Inductive rollback_error := UnownedExecutable | RollbackLock | RollbackState | RollbackInstall (e : launcher_error) | NoPreviousBinary
| PreviousUnusable | RenameFailed | RollbackSync | RollbackSave.

Definition with_pending (version previous : string) (st : State) : State :=
  mkState (us_HighestSequence st) (us_HighestVersion st) (us_LastCheck st) (us_NextCheck st) (us_ConsecutiveFailures st) version previous (us_LastError st).

(** [rollbackBinaryVersion], of the file that was kept. *)
Definition rollbackBinaryVersion (b : rollback_weather) (previous : option string) : result string rollback_error :=
  match previous with
  | None => Err NoPreviousBinary
  | Some bytes =>
      match rb_reports b bytes with
      | None => Err PreviousUnusable
      | Some out =>
          match CutPrefix out "csx " with
          | Some v => if IsCanonicalReleaseVersion v then Ok v else Err PreviousUnusable
          | None => Err PreviousUnusable
          end
      end
  end.

Definition update_Rollback (b : rollback_weather) (w : world) : world * option rollback_error :=
  if negb (rb_owned b) then (w, Some UnownedExecutable)
  else match rb_kind b with
  | None => (w, Some RollbackState)
  | Some kind =>
      if String.eqb kind "launcher" then
        if negb (rb_lock b) then (w, Some RollbackLock)
        else if negb (rb_load b) then (w, Some RollbackState)
        else if negb (rb_installLock b) then (w, Some RollbackLock)
        else match Rollback (rb_io b) (uw_install w) with
        | (inst, Err e) => (with_install inst w, Some (RollbackInstall e))
        | (inst, Ok next) =>
            let w := with_install inst w in
            if rb_save b then (with_state (with_pending (d_Version (ac_Current next)) "active.json" (uw_state w)) w, None) else (w, Some RollbackSave)
        end
      else if negb (rb_target b) then (w, Some PreviousUnusable)
      else if negb (rb_lock b) then (w, Some RollbackLock)
      else if negb (rb_load b) then (w, Some RollbackState)
      else match rollbackBinaryVersion b (uw_previous w), uw_previous w with
      | Err e, _ => (w, Some e)
      | Ok _, None => (w, Some NoPreviousBinary)
      | Ok v, Some bytes =>
          if negb (rb_aside b) || negb (rb_restore b) then (w, Some RenameFailed)
          else
            let w := mkUpdateWorld (uw_state w) bytes None (uw_launcher w) (uw_install w) in
            if negb (rb_sync b) then (w, Some RollbackSync)
            else if rb_save b then (with_state (with_pending v "" (uw_state w)) w, None) else (w, Some RollbackSave)
      end
  end.

Definition AcknowledgeActivation (lock load save : bool) (currentVersion : string) (w : world) : world :=
  let st := uw_state w in
  if lock && load && save && negb (String.eqb (us_PendingRestart st) "")
     && match CompareReleases currentVersion (us_PendingRestart st) with Some n => n =? 0 | None => false end
  then with_state (with_pending "" (us_PreviousPath st) st) w else w.

(** ** The floor never falls *)

Definition above (new old : string) : Prop := old = "" \/ new = old \/ exists n, CompareReleases new old = Some n /\ 0 <= n.

Lemma above_refl v : above v v.
Proof. right. by left. Qed.

Lemma above_trans a b c : above a b -> above b c -> above a c.
Proof.
  intros A B. destruct A as [->|[->|(x & X & Hx)]]; [|done|].
  - destruct B as [->|[<-|(y & Y & _)]]; [by left|by left|]. unfold CompareReleases in Y. change (parse_release "") with (@None (list Z)) in Y. discriminate Y.
  - destruct B as [->|[->|(y & Y & Hy)]]; [by left|right; right; by exists x|].
    right. right. apply releases_swap in X, Y. destruct (releases_trans c b a _ _ Y ltac:(lia) X ltac:(lia)) as (z & Z & Hz).
    apply releases_swap in Z. exists (- z). split; [done|lia].
Qed.

Definition floor_le (st st' : State) : Prop := us_HighestSequence st <= us_HighestSequence st' /\ above (us_HighestVersion st') (us_HighestVersion st).

Lemma floor_refl st : floor_le st st.
Proof. split; [done|apply above_refl]. Qed.
Lemma floor_trans a b c : floor_le a b -> floor_le b c -> floor_le a c.
Proof. intros [A B] [C D]. split; [lia|by eapply above_trans]. Qed.

Lemma raise_floor_le st d : floor_le st (raise_floor st d) /\ d_Sequence d <= us_HighestSequence (raise_floor st d).
Proof.
  unfold floor_le, raise_floor. cbn [us_HighestSequence us_HighestVersion]. destruct (Z.ltb_spec (us_HighestSequence st) (d_Sequence d)); (split; [split; [lia|]|lia]);
    (destruct (String.eqb_spec (us_HighestVersion st) "") as [->|Ne]; [by left|]);
    (destruct (CompareReleases (d_Version d) (us_HighestVersion st)) as [n|] eqn:E; [|apply above_refl]);
    (destruct (Z.ltb_spec 0 n); [|apply above_refl]); right; right; exists n; split; done || lia.
Qed.

Lemma fold_floor_le l : forall st, floor_le st (fold_left raise_floor l st) /\ Forall (fun d => d_Sequence d <= us_HighestSequence (fold_left raise_floor l st)) l.
Proof.
  induction l as [|d l IH]; intros st; [split; [apply floor_refl|constructor]|]. cbn [fold_left]. destruct (raise_floor_le st d) as [L D].
  destruct (IH (raise_floor st d)) as [L' F]. split; [by eapply floor_trans|]. constructor; [destruct L'; lia|done].
Qed.

Lemma merge_floor_le st a : floor_le st (mergeLauncherFloor st a).
Proof. apply fold_floor_le. Qed.

Section invariants.
  Context `{!GoNetip, !Ed25519, !ReleaseJSON}.
  Variables (c : Client) (i : weather).

Lemma below_above v old : below v old = false -> above v old.
Proof. unfold below. destruct (CompareReleases v old) as [n|] eqn:E; [|done]. intros L%Z.ltb_ge. right. right. by exists n. Qed.

Lemma replaceLauncher_world a cur : exists l r, replaceLauncherIfStale i a cur = (l, r).
Proof. destruct (replaceLauncherIfStale i a cur) as [l r]. by eexists _, _. Qed.

Lemma apply_launcher_floor m asset w : floor_le (uw_state w) (uw_state (oc_world (apply_launcher c i m asset w))).
Proof.
  unfold apply_launcher. destruct (negb _); [apply floor_refl|]. destruct (_ && _); [apply floor_refl|]. destruct (negb _); [apply floor_refl|].
  destruct (Load _) as [a|]; [|apply floor_refl]. destruct (Launcher.Validate _ _); [apply floor_refl|].
  assert (M := merge_floor_le (uw_state w) a). cbn [with_state uw_state]. set (st := mergeLauncherFloor (uw_state w) a) in *.
  destruct (rm_Sequence m <? us_HighestSequence st); [exact M|]. destruct (below (rm_Version m) (us_HighestVersion st)) eqn:B; [exact M|].
  destruct (held_back c a m asset); [exact M|]. destruct (same_descriptor _ m asset); [exact M|].
  destruct (downloadAsset _ _ _) as [staged|]; [|exact M]. destruct (negb _); [exact M|].
  destruct (CommitPayload _ _ _ _) as [inst [next|]]; [|exact M]. unfold after_commit. destruct (replaceLauncherIfStale i asset _) as [l r].
  eapply floor_trans; [exact M|]. split; [done|]. by apply below_above.
Qed.

Lemma apply_standalone_floor m asset w : above (rm_Version m) (us_HighestVersion (uw_state w)) ->
  floor_le (uw_state w) (uw_state (oc_world (apply_standalone c i m asset w))).
Proof.
  intros A. assert (P : forall prev, floor_le (uw_state w) (set_pending (rm_Version m) prev (uw_state w))) by (split; [done|exact A]).
  unfold apply_standalone. destruct (negb _); [apply floor_refl|]. destruct (match fileSHA256 _ with Some _ => _ | None => _ end); [apply P|].
  destruct (downloadAsset _ _ _) as [staged|]; [|apply floor_refl]. destruct (negb _); [apply floor_refl|]. destruct (negb _); [apply floor_refl|].
  destruct (negb _); [apply floor_refl|]. destruct (wt_sync i); apply P.
Qed.

Lemma consider_floor apply m w : floor_le (uw_state w) (uw_state (oc_world (consider c i apply m w))).
Proof.
  unfold consider. destruct (Z.ltb_spec (rm_Sequence m) (us_HighestSequence (uw_state w))) as [|L]; [apply floor_refl|].
  destruct (_ && below _ _) eqn:B; [apply floor_refl|]. destruct (negb (String.eqb (rm_MinUpdaterVersion m) "") && _); [apply floor_refl|].
  destruct (CompareReleases (cl_CurrentVersion c) (rm_Version m)) as [cmp|] eqn:Cm; [|apply floor_refl]. set (st := set_floor _ _ _).
  assert (F : floor_le (uw_state w) st).
  { split; [cbn; lia|]. cbn. destruct (String.eqb_spec (us_HighestVersion (uw_state w)) "") as [->|]; [by left|apply above_refl]. }
  destruct (Z.leb_spec 0 cmp) as [|Lc]; [exact F|]. destruct (negb apply); [exact F|]. destruct (negb (wt_supported i)); [exact F|].
  destruct (negb (wt_owned i)); [by destruct (windows c)|]. destruct (AssetFor m _ _) as [asset|]; [|exact F].
  destruct (validateSignedAssetURL _ _ _ _); [exact F|]. eapply floor_trans; [exact F|]. change st with (uw_state (with_state st w)) at 1.
  destruct (windows c); [apply apply_launcher_floor|]. apply apply_standalone_floor. cbn [with_state uw_state st set_floor us_HighestVersion].
  destruct (String.eqb_spec (us_HighestVersion (uw_state w)) "") as [->|N].
  - right. right. apply releases_swap in Cm. exists (- cmp). split; [done|lia].
  - apply below_above. by destruct (below (rm_Version m) (us_HighestVersion (uw_state w))).
Qed.

(** ** What is installed was signed *)

Lemma downloadAsset_Ok body size digest bytes : downloadAsset body size digest = Ok bytes -> body = Some bytes /\ str_len bytes = size /\ sha256_hex bytes = digest.
Proof.
  unfold downloadAsset. destruct (_ <? _); [done|]. destruct body as [b|]; [|done]. destruct (Z.eqb_spec (str_len b) size); [|done]. cbn [negb].
  destruct (String.eqb_spec (sha256_hex b) digest); [|done]. by intros [= ->].
Qed.

(** The program that will run next carries the digest of the asset. *)
Definition installed (m : Manifest) (asset : Asset) (w : world) : Prop :=
  if windows c then
    exists a, in_pointer (uw_install w) = Some a /\ ac_Current a = mkDescriptor (rm_Version m) (as_SHA256 asset) (rm_Sequence m)
              /\ verified (uw_install w) (ac_Current a)
  else sha256_hex (uw_exe w) = as_SHA256 asset.

(** Nothing that could run has changed. *)
Definition untouched (w w' : world) : Prop :=
  uw_exe w' = uw_exe w /\ in_pointer (uw_install w') = in_pointer (uw_install w) /\ uw_launcher w' = uw_launcher w.

Lemma apply_standalone_safe m asset w : windows c = false ->
  let o := apply_standalone c i m asset w in
  if rs_Applied (oc_result o) then installed m asset (oc_world o) else untouched w (oc_world o).
Proof.
  intros W. unfold apply_standalone, installed. rewrite W. cbv zeta. destruct (negb (wt_target i)); [done|].
  destruct (match fileSHA256 (uw_exe w) with Some _ => _ | None => _ end) eqn:F.
  - cbn. unfold fileSHA256 in F. destruct (_ <? _); [done|]. by apply String.eqb_eq in F.
  - destruct (downloadAsset _ _ _) as [staged|] eqn:D; [|done]. apply downloadAsset_Ok in D as (_ & _ & D).
    destruct (negb (wt_runs _ _ _)); [done|]. destruct (negb (wt_copy i)); [done|]. destruct (negb (wt_rename i)); [done|]. by destruct (wt_sync i).
Qed.

Lemma apply_launcher_safe m asset w : windows c = true ->
  let o := apply_launcher c i m asset w in
  if rs_Applied (oc_result o) then installed m asset (oc_world o) else untouched w (oc_world o).
Proof.
  intros W. unfold apply_launcher, installed. rewrite W. cbv zeta. destruct (negb _); [done|]. destruct (_ && _); [done|]. destruct (negb _); [done|].
  destruct (Load (uw_install w)) as [a|] eqn:L; [|done]. destruct (Launcher.Validate (uw_install w) a) eqn:V; [done|].
  cbn [with_state uw_state uw_install]. destruct (_ <? _); [done|]. destruct (below _ _); [done|]. destruct (held_back c a m asset); [done|].
  assert (I : in_pointer (uw_install w) = Some a).
  { unfold Load in L. destruct (Read (uw_install w)) as [b|] eqn:R; [|done]. destruct (validateCurrent _ b); [done|]. injection L as ->. by apply Read_Ok in R as [? _]. }
  destruct (same_descriptor (ac_Current a) m asset) eqn:S.
  - cbn. exists a. split; [done|]. apply Validate_verified in V. split; [|done]. unfold same_descriptor in S.
    rewrite !andb_true_iff, !String.eqb_eq, Z.eqb_eq in S. destruct S as [[S1 S2] S3]. destruct (ac_Current a). cbn in *. congruence.
  - destruct (downloadAsset _ _ _) as [staged|]; [|done]. destruct (negb (wt_runs _ _ _)); [done|].
    destruct (CommitPayload _ _ _ _) as [inst [next|e]] eqn:Cm.
    + apply CommitPayload_Ok in Cm as (P & Cd & Vd). unfold after_commit. destruct (replaceLauncherIfStale i asset _) as [l r]. cbn.
      exists next. by rewrite Cd.
    + apply failed_commit_is_clean in Cm as [Cm _]. done.
Qed.

Lemma consider_safe apply m w : let o := consider c i apply m w in
  if rs_Applied (oc_result o) then
    exists asset, AssetFor m (cl_GOOS c) (cl_GOARCH c) = Some asset /\ installed m asset (oc_world o)
    /\ us_HighestSequence (uw_state w) <= rm_Sequence m /\ above (rm_Version m) (us_HighestVersion (uw_state w))
    /\ exists n, CompareReleases (cl_CurrentVersion c) (rm_Version m) = Some n /\ n < 0
  else untouched w (oc_world o).
Proof.
  cbv zeta. unfold consider. destruct (Z.ltb_spec (rm_Sequence m) (us_HighestSequence (uw_state w))) as [|L]; [done|].
  destruct (negb (String.eqb (us_HighestVersion (uw_state w)) "") && _) eqn:B; [done|]. destruct (negb (String.eqb (rm_MinUpdaterVersion m) "") && _); [done|].
  destruct (CompareReleases (cl_CurrentVersion c) (rm_Version m)) as [cmp|] eqn:Cm; [|done]. set (st := set_floor _ _ _).
  destruct (Z.leb_spec 0 cmp) as [|Lc]; [done|]. destruct (negb apply); [done|]. destruct (negb (wt_supported i)); [done|].
  destruct (negb (wt_owned i)); [by destruct (windows c)|]. destruct (AssetFor m _ _) as [asset|] eqn:A; [|done].
  destruct (validateSignedAssetURL _ _ _ _); [done|].
  assert (Ab : above (rm_Version m) (us_HighestVersion (uw_state w))).
  { destruct (String.eqb_spec (us_HighestVersion (uw_state w)) "") as [->|]; [by left|]. apply below_above. by destruct (below _ _). }
  assert (S : let o := if windows c then apply_launcher c i m asset (with_state st w) else apply_standalone c i m asset (with_state st w) in
    if rs_Applied (oc_result o) then installed m asset (oc_world o) else untouched w (oc_world o)).
  { destruct (windows c) eqn:W; [apply (apply_launcher_safe m asset (with_state st w) W)|apply (apply_standalone_safe m asset (with_state st w) W)]. }
  cbv zeta in S. destruct (rs_Applied _); [|done]. exists asset. split; [done|]. split; [done|]. split; [done|]. split; [done|]. by exists cmp.
Qed.

Lemma check_is_safe apply w :
  let '(w', r, err) := Check c i apply w in
  if rs_Applied r then
    exists raw key m asset,
      wt_manifest i = Some raw /\ cl_PublicKey c = Some key
      /\ VerifyEnvelope raw key (wt_now i) (if String.eqb (cl_Channel c) "" then DefaultChannel else cl_Channel c) = Ok m
      /\ AssetFor m (cl_GOOS c) (cl_GOARCH c) = Some asset /\ installed m asset w'
      /\ us_HighestSequence (uw_state w) <= rm_Sequence m /\ above (rm_Version m) (us_HighestVersion (uw_state w))
      /\ exists n, CompareReleases (cl_CurrentVersion c) (rm_Version m) = Some n /\ n < 0
  else untouched w w'.
Proof.
  unfold Check. destruct (negb (wt_lock i)); [done|]. destruct (negb (wt_load i)); [done|]. destruct (negb (wt_preflight i)); [done|].
  destruct (entry_floor c i w) as [e|st] eqn:E; [done|].
  assert (F : floor_le (uw_state w) st).
  { unfold entry_floor in E. destruct (_ && _); [|injection E as <-; apply floor_refl]. destruct (Load _) as [a|]; [|done].
    destruct (Launcher.Validate _ a); [done|]. injection E as <-. apply merge_floor_le. }
  assert (S : let o := run_check c i apply (with_state st w) in
    if rs_Applied (oc_result o) then
      exists raw key m asset, wt_manifest i = Some raw /\ cl_PublicKey c = Some key
        /\ VerifyEnvelope raw key (wt_now i) (if String.eqb (cl_Channel c) "" then DefaultChannel else cl_Channel c) = Ok m
        /\ AssetFor m (cl_GOOS c) (cl_GOARCH c) = Some asset /\ installed m asset (oc_world o)
        /\ us_HighestSequence st <= rm_Sequence m /\ above (rm_Version m) (us_HighestVersion st)
        /\ exists n, CompareReleases (cl_CurrentVersion c) (rm_Version m) = Some n /\ n < 0
    else untouched w (oc_world o)).
  { cbv zeta. unfold run_check. destruct (cl_PublicKey c) as [key|]; [|done]. destruct (validateManifestURL _ _); [done|].
    destruct (wt_manifest i) as [raw|]; [|done]. destruct (_ <? _); [done|]. destruct (VerifyEnvelope _ _ _ _) as [m|] eqn:V; [|done].
    pose proof (consider_safe apply m (with_state st w)) as C. cbv zeta in C. destruct (rs_Applied _); [|exact C].
    destruct C as (asset & A & I & L & Ab & N). exists raw, key, m, asset. done. }
  cbv zeta in S. set (o := run_check c i apply (with_state st w)) in *.
  destruct (wt_save i); destruct (rs_Applied (oc_result o)); try exact S.
  all: destruct S as (raw & key & m & asset & R & K & V & A & I & L & Ab & N); exists raw, key, m, asset; destruct F as [F1 F2];
    split_and!; try done; [lia|by eapply above_trans].
Qed.

End invariants.

(** ** Whatever happens, the floor holds *)

Section runs.
  Context `{!GoNetip, !Ed25519, !ReleaseJSON}.

Inductive move :=
| MoveCheck (c : Client) (i : weather) (apply : bool)
| MoveRollback (b : rollback_weather)
| MoveAcknowledge (lock load save : bool) (version : string)
| MoveInstall (x : install)
| MoveFiles (exe : string) (previous launcher : option string).

(** The install and the files may also be changed by others at any time. *)
Definition make (w : world) (m : move) : world :=
  match m with
  | MoveCheck c i apply => fst (fst (Check c i apply w))
  | MoveRollback b => fst (update_Rollback b w)
  | MoveAcknowledge lock load save v => AcknowledgeActivation lock load save v w
  | MoveInstall x => with_install x w
  | MoveFiles exe previous launcher => mkUpdateWorld (uw_state w) exe previous launcher (uw_install w)
  end.
Definition run : list move -> world -> world := fold_left make.

Lemma settle_floor c i e st : floor_le st (settle c i e st).
Proof. destruct e; (split; [done|apply above_refl]). Qed.

Lemma check_floor c i apply w : floor_le (uw_state w) (uw_state (fst (fst (Check c i apply w)))).
Proof.
  unfold Check. destruct (negb (wt_lock i)); [apply floor_refl|]. destruct (negb (wt_load i)); [apply floor_refl|]. destruct (negb (wt_preflight i)); [apply floor_refl|].
  destruct (entry_floor c i w) as [e|st] eqn:E; [apply floor_refl|].
  assert (F : floor_le (uw_state w) st).
  { unfold entry_floor in E. destruct (_ && _); [|injection E as <-; apply floor_refl]. destruct (Load _) as [a|]; [|done].
    destruct (Launcher.Validate _ a); [done|]. injection E as <-. apply merge_floor_le. }
  destruct (wt_save i); [|apply floor_refl]. cbn [fst with_state uw_state]. eapply floor_trans; [exact F|]. eapply floor_trans; [|apply settle_floor].
  unfold run_check. destruct (cl_PublicKey c); [|apply floor_refl]. destruct (validateManifestURL _ _); [apply floor_refl|].
  destruct (wt_manifest i); [|apply floor_refl]. destruct (_ <? _); [apply floor_refl|]. destruct (VerifyEnvelope _ _ _ _) as [m|]; [|apply floor_refl].
  apply (consider_floor c i apply m (with_state st w)).
Qed.

Lemma make_floor w m : floor_le (uw_state w) (uw_state (make w m)).
Proof.
  destruct m as [c i apply|b|lock load save v|x|exe prev l]; cbn [make]; [apply check_floor| | |apply floor_refl..].
  - unfold update_Rollback. repeat case_match; simplify_eq; cbn; try apply floor_refl; (split; [done|apply above_refl]).
  - unfold AcknowledgeActivation. destruct (_ && _); [|apply floor_refl]. split; [done|apply above_refl].
Qed.

Lemma run_floor ms : forall w, floor_le (uw_state w) (uw_state (run ms w)).
Proof. induction ms as [|m ms IH]; intros w; [apply floor_refl|]. cbn. eapply floor_trans; [apply make_floor|apply IH]. Qed.

End runs.

(** ** When the next check is due *)

Definition minutes (n : Z) : Z := n * 60 * 1000000000.

Lemma jitter_bounds base key : 0 <= base -> base * 80 <= jitter base key * 100 + 99 /\ jitter base key * 100 <= base * 120.
Proof.
  intros B. unfold jitter. set (p := List.hd 0 (sha256 key) mod 41). assert (0 <= p < 41) by (apply Z.mod_pos_bound; lia).
  pose proof (Z.quot_div_nonneg (base * (80 + p)) 100 ltac:(nia) ltac:(lia)) as ->.
  pose proof (Z.div_mod (base * (80 + p)) 100 ltac:(lia)). pose proof (Z.mod_pos_bound (base * (80 + p)) 100 ltac:(lia)). nia.
Qed.

Lemma double_bounds fuel : forall d, minutes 15 <= d < 2 * day -> minutes 15 <= double_until_day fuel d < 2 * day.
Proof.
  induction fuel as [|f IH]; intros d D; [done|]. cbn. destruct (Z.ltb_spec d day); [|lia]. apply IH. unfold minutes, day in *. lia.
Qed.

(** The loop of [backoff] reaches a day after seven doublings; more failures
    change nothing. *)
Lemma double_saturates fuel : (7 <= fuel)%nat -> day <= double_until_day fuel (minutes 15).
Proof.
  intros F. replace fuel with (7 + (fuel - 7))%nat by lia. generalize (fuel - 7)%nat. clear F fuel. intros f.
  assert (G : forall d, day <= d -> day <= double_until_day f d).
  { induction f as [|f IH]; intros d D; [done|]. cbn. destruct (Z.ltb_spec d day); [apply IH|]; lia. }
  cbn [Nat.add double_until_day]. do 7 (match goal with |- context [?x <? day] => destruct (Z.ltb_spec x day) end; [|assumption]). apply G. unfold day, minutes. lia.
Qed.

(** A check that ran to its bookkeeping is followed by the next one after
    between 4.8 and 7.2 hours when it succeeded, and when it failed after
    between 12 minutes and 28.8 hours, at least 19.2 hours from the eighth
    failure in a row on: neither does a failing server get a storm of requests
    nor is an installation ever left without a next check. *)
Theorem next_check_paced (c : Client) (i : weather) (err : option update_error) (st : State) : 0 <= us_ConsecutiveFailures st ->
  let st' := settle c i err st in
  let wait := us_NextCheck st' - wt_now i in
  match err with
  | None => us_ConsecutiveFailures st' = 0 /\ minutes 288 <= wait <= minutes 432
  | Some _ => us_ConsecutiveFailures st' = us_ConsecutiveFailures st + 1 /\ minutes 12 <= wait <= minutes 1728
              /\ (8 <= us_ConsecutiveFailures st' -> minutes 1152 <= wait)
  end.
Proof.
  intros N. cbv zeta. unfold settle. destruct err as [e|]; cbn [us_NextCheck us_ConsecutiveFailures].
  - split; [done|]. rewrite Z.add_simpl_l. unfold backoff. destruct (Z.ltb_spec (us_ConsecutiveFailures st + 1) 1); [lia|].
    rewrite Z.add_simpl_r. set (fuel := Z.to_nat (us_ConsecutiveFailures st)). set (key := cl_Home c +:+ _). change (15 * 60 * 1000000000) with (minutes 15).
    pose proof (double_bounds fuel (minutes 15) ltac:(unfold minutes, day; lia)) as B. pose proof (double_saturates fuel) as S.
    set (d := double_until_day fuel (minutes 15)) in *.
    assert (D : minutes 15 <= (if day <? d then day else d) <= day) by (destruct (Z.ltb_spec day d); unfold minutes, day in *; lia).
    assert (D8 : 7 <= us_ConsecutiveFailures st -> (if day <? d then day else d) = day) by (intros; destruct (Z.ltb_spec day d); [done|]; specialize (S ltac:(lia)); lia).
    set (b := if day <? d then day else d) in *. pose proof (jitter_bounds b key ltac:(unfold minutes in *; lia)) as J.
    unfold minutes, day in *. split; [lia|]. intros E. specialize (D8 ltac:(lia)). lia.
  - split; [done|]. rewrite Z.add_simpl_l. pose proof (jitter_bounds normalCheckEvery (cl_Home c) ltac:(unfold normalCheckEvery; lia)) as J.
    unfold minutes, normalCheckEvery in *. lia.
Qed.

(** ** A run *)

Definition calm (now : Z) (manifest asset : option string) : weather :=
  mkWeather now true true true manifest true true (Some "standalone") "" true true asset (fun _ _ => true) true true true true io_ok None (fun _ => true) true true.

Lemma next_check_paced_witness :
  let c := mkClient "/home/u/.csx" "v1.0.0" "/usr/bin/csx" "" "" None "linux" "amd64" true in
  let st' := settle c (calm 1000 None None) (Some DownloadFailed) fresh_state in
  us_ConsecutiveFailures st' = 1 /\ minutes 12 <= us_NextCheck st' - 1000 <= minutes 1728
  /\ (8 <= us_ConsecutiveFailures st' -> minutes 1152 <= us_NextCheck st' - 1000).
Proof. cbv zeta. refine (next_check_paced _ (calm 1000 None None) (Some DownloadFailed) fresh_state _). discriminate. Defined.

(** The assumptions have a model: no IPv6 literals, signatures by digest, and
    a decoder that knows one envelope and one manifest. *)
Definition no_literals : GoNetip.
Proof. refine {| ip6_literal := fun _ => None |}. discriminate. Defined.

Definition published : Manifest :=
  mkRelease 1 "stable" 7 "v1.1.0" 1000 (1000 + maxManifestValidity) ""
    [mkAsset "linux" "amd64" "https://github.com/r2cuerdame/CodeSampleX/releases/download/v1.1.0/csx-linux-amd64" 3 (sha256_hex "new") "" "" 0 ""].

Definition one_release : ReleaseJSON :=
  {| decode_envelope := fun raw => if String.eqb raw "envelope" then Some (mkEnvelope (b64 "manifest") (b64 (@ed_sign digest_signatures "key" "manifest"))) else None;
     decode_manifest := fun payload => if String.eqb payload "manifest" then Some published else None |}.

Definition linux_client : Client :=
  mkClient "/home/u/.csx" "v1.0.0" "/usr/bin/csx" "" "" (Some (@ed_public digest_signatures "key")) "linux" "amd64" true.
Definition old_world : world := mkUpdateWorld fresh_state "old" None None (mkInstall None ∅).

Example update_applies :
  let '(w, r, err) := @Check no_literals digest_signatures one_release linux_client (calm 2000 (Some "envelope") (Some "new")) true old_world in
  (uw_exe w, uw_previous w, rs_Applied r, us_HighestSequence (uw_state w), us_HighestVersion (uw_state w), is_some err)
  = ("new", Some "old", true, 7, "v1.1.0", false).
Proof. vm_compute. reflexivity. Qed.

(** ** Where the two sides of the signature disagree *)

(** The manifest accepts a launcher digest in either case; the download is
    compared with the digest in lower case, so one written in upper case is
    never installed. *)
Lemma upper_launcher_digest_never_installs (i : weather) a cur : isLowerHex (as_LauncherSHA256 a) = false ->
  snd (replaceLauncherIfStale i a cur) <> Ok true.
Proof.
  intros U. unfold replaceLauncherIfStale. repeat (match goal with |- context [if ?b then _ else _] => destruct b; [done|] end).
  destruct (downloadAsset _ _ _) as [staged|] eqn:D; [|done]. apply downloadAsset_Ok in D as (_ & _ & D).
  destruct (sha256_hex_shape staged) as [_ L]. unfold isLowerHex in U. by rewrite D, U in L.
Qed.
