(* ===== verification/Repair.v ===== *)
(** * Repairs and the launcher's run (cmd/csx-launcher/main.go,
      internal/update: rehydrate.go, doctorrelease.go, bootstrapmanifest.go;
      internal/launcher: restore.go, recoveryrecord.go)

    What the launcher does from its start to its exit: it resolves a payload,
    repairs the install once when none is left, starts it, recovers once when
    the start fails, and says in two record files what happened.  The doctor's
    repairs rebind the install to the signed release of its version.

    Other processes may change the install between any two steps of a launch
    ([le_other]); a record file that does not decode reads as damaged. *)

From stdpp Require Import gmap.
From S2P Require Import Prelude GoStrings GoUnicode GoStd StringFacts UnicodeFacts WordFacts Calendar Hash.
From S2P Require Import Purl Env Search Validate Identity Release Launcher Update.

#[local] Open Scope csx_scope.

(** ** The record files *)

Record RecoveryRecord := mkRecovery {
  rv_Schema : Z; rv_FailedVersion : string; rv_FailedReason : string; rv_RanVersion : string;
  rv_PointerRepaired : bool; rv_PointerError : option launcher_error;
  rv_FirstObservedAt : Z; rv_LastObservedAt : Z; rv_Observations : Z }.

Record RehydrateRecord := mkRehydrate {
  rr_Schema : Z; rr_AttemptedAt : Z; rr_Outcome : string; rr_Error : option rehydrate_error;
  rr_ExhaustedVersion : string; rr_RestoredVersions : list string; rr_Attempts : Z }.

Definition RecoveryRecordSchema : Z := 1.
Definition RehydrateRecordSchema : Z := 1.
Definition RehydrateOutcomeRestored : string := "restored".
Definition RehydrateOutcomeFailed : string := "failed".

(** A record file: absent, not readable as a record, or what it decodes to. *)
Inductive record_file (R : Type) := NoRecord | DamagedRecord | Stored (r : R).
Arguments NoRecord {R}.
Arguments DamagedRecord {R}.
Arguments Stored {R} r.

Definition ReadRecoveryRecord (f : record_file RecoveryRecord) : option RecoveryRecord :=
  match f with
  | Stored r =>
      if (rv_Schema r =? RecoveryRecordSchema)
         && negb (String.eqb (rv_FailedVersion r) "" || String.eqb (rv_FailedReason r) "" || String.eqb (rv_RanVersion r) "")
      then Some r else None
  | _ => None
  end.

Definition RecordRecovery (written : bool) (res : Resolution) (now : Z) (f : record_file RecoveryRecord) : record_file RecoveryRecord :=
  if negb (rs_Recovered res) then f
  else
    let same := match ReadRecoveryRecord f with
      | Some p => if String.eqb (rv_FailedVersion p) (rs_FailedVersion res) && String.eqb (rv_FailedReason p) (rs_FailedReason res) then Some p else None
      | None => None
      end in
    let next := mkRecovery RecoveryRecordSchema (rs_FailedVersion res) (rs_FailedReason res) (d_Version (rs_Descriptor res)) (rs_Healed res) (rs_HealError res)
                  (match same with Some p => rv_FirstObservedAt p | None => now end) now
                  (match same with Some p => rv_Observations p + 1 | None => 1 end) in
    if written then Stored next else f.

Definition ReadRehydrateRecord (f : record_file RehydrateRecord) : option RehydrateRecord :=
  match f with
  | Stored r =>
      if (rr_Schema r =? RehydrateRecordSchema) && str_in (rr_Outcome r) [RehydrateOutcomeRestored; RehydrateOutcomeFailed] then Some r else None
  | _ => None
  end.

Definition failed_before (f : record_file RehydrateRecord) : option RehydrateRecord :=
  match ReadRehydrateRecord f with
  | Some p => if String.eqb (rr_Outcome p) RehydrateOutcomeFailed then Some p else None
  | None => None
  end.

Definition RecordRehydrate (written : bool) (outcome : string) (err : option rehydrate_error) (report : RehydrateReport) (now : Z)
    (f : record_file RehydrateRecord) : record_file RehydrateRecord :=
  let attempts := if String.eqb outcome RehydrateOutcomeFailed then match failed_before f with Some p => rr_Attempts p + 1 | None => 1 end else 1 in
  if written then Stored (mkRehydrate RehydrateRecordSchema now outcome err (rh_ExhaustedVersion report) (rh_Restored report) attempts) else f.

(** ** The repair, with its record *)

Definition RehydrateCooldown : Z := 5 * 60 * 1000000000.
Definition no_report : RehydrateReport := mkReport "" [] [] "".

Record repair_world := mkRepairWorld {
  rp_install : install; rp_rehydrate : record_file RehydrateRecord; rp_recovery : record_file RecoveryRecord }.

(** What one repair meets: [ri_disk] is the install once its lock is held. *)
Record repair_input := mkRepairInput {
  ri_io : io; ri_fetch : string -> option string; ri_runs : string -> string -> bool; ri_force : bool; ri_startFailed : bool;
  ri_now : Z; ri_done : Z; ri_lock : bool; ri_written : bool; ri_meanwhile : install -> install }.

Definition cooling (now : Z) (f : record_file RehydrateRecord) : bool :=
  match failed_before f with Some p => now - rr_AttemptedAt p <? RehydrateCooldown | None => false end.

Definition rehydrate (r : repair_input) (f : record_file RehydrateRecord) (st : install) : install * (RehydrateReport * option rehydrate_error) :=
  let disk := ri_meanwhile r st in
  match Read st with
  | Err e => (disk, (no_report, Some (RepairPointer e)))
  | Ok _ =>
      if negb (ri_force r) && cooling (ri_now r) f then (disk, (no_report, Some Cooldown))
      else if negb (ri_lock r) then (disk, (no_report, Some RepairBusy))
      else rehydrate_locked (ri_io r) (ri_fetch r) (ri_runs r) (ri_force r) (ri_startFailed r) disk
  end.

Definition unrecorded (report : RehydrateReport) (err : option rehydrate_error) : bool :=
  match err with
  | Some Cooldown | Some NotNeeded => true
  | Some _ => false
  | None => String.eqb (rh_ExhaustedVersion report) "" && Nat.eqb (length (rh_Restored report)) 0
  end.

Definition RehydrateInstall (r : repair_input) (w : repair_world) : repair_world * (RehydrateReport * option rehydrate_error) :=
  let '(st, (report, err)) := rehydrate r (rp_rehydrate w) (rp_install w) in
  let f := if unrecorded report err then rp_rehydrate w
           else RecordRehydrate (ri_written r) (if is_some err then RehydrateOutcomeFailed else RehydrateOutcomeRestored) err report (ri_done r) (rp_rehydrate w) in
  (mkRepairWorld st f (rp_recovery w), (report, err)).

(** ** The launcher's run (main.go) *)

(** What starting a payload led to: it ran and exited, the system refused to
    start it, or the launcher could not set the child up. *)
Inductive start := Exited (code : Z) | StartRefused | SetupFailed.

Record launch_env := mkLaunch {
  le_io : io; le_other : nat -> install -> install; le_optOut : bool; le_repair : repair_input;
  le_start : nat -> Descriptor -> start; le_now : Z; le_recorded : bool }.

(** What a launch has done: the world, whether it repaired, and each payload
    it started with the disk that was checked for it. *)
Record launch := mkLaunchState { ln_world : repair_world; ln_repaired : bool; ln_started : list (install * Descriptor) }.

Definition fail_code : Z := 126.

Section launch.
  Variable e : launch_env.

Definition repairable (attempted : bool) (err : launcher_error) : bool :=
  negb attempted && negb (le_optOut e)
  && str_in (Reason err) ["payload-missing"; "payload-corrupt"; "payload-not-regular"; "payload-start-failed"; "payload-unreadable"].

(** A disk that was read, and the disk an operation then finds under its lock. *)
Definition interfere (n : nat) (w : repair_world) : repair_world := mkRepairWorld (le_other e n (rp_install w)) (rp_rehydrate w) (rp_recovery w).
Definition put_install (st : install) (w : repair_world) : repair_world := mkRepairWorld st (rp_rehydrate w) (rp_recovery w).

Definition with_start_failed (b : bool) (r : repair_input) : repair_input :=
  mkRepairInput (ri_io r) (ri_fetch r) (ri_runs r) false b (ri_now r) (ri_done r) (ri_lock r) (ri_written r) (ri_meanwhile r).

(** One resolution; the disk it verified goes with the answer. *)
Definition resolve_now (n : nat) (w : repair_world) : repair_world * result (install * Resolution) launcher_error :=
  let seen := rp_install (interfere n w) in
  let '(disk, answer) := Resolve (le_io e) seen (le_other e (S n) seen) in
  (put_install disk w, match answer with Ok r => Ok (seen, r) | Err err => Err err end).

Definition repairAndResolve (n : nat) (attempted : bool) (err : launcher_error) (w : repair_world) :
    repair_world * bool * result (install * Resolution) launcher_error :=
  if negb (repairable attempted err) then (w, attempted, Err err)
  else
    let start_failed := str_in (Reason err) ["payload-start-failed"; "payload-unreadable"] in
    let '(w, (_, failed)) := RehydrateInstall (with_start_failed start_failed (le_repair e)) w in
    match failed with
    | Some _ => (w, true, Err err)
    | None => match resolve_now n w with (w, Ok r) => (w, true, Ok r) | (w, Err _) => (w, true, Err err) end
    end.

Definition reportRecovery (res : Resolution) (w : repair_world) : repair_world :=
  mkRepairWorld (rp_install w) (rp_rehydrate w) (RecordRecovery (le_recorded e) res (le_now e) (rp_recovery w)).

Definition finish_code (code : Z) : Z := if code <? 0 then fail_code else code.

Definition second_start (w : repair_world) (repaired : bool) (first : install * Descriptor) : launch * Z :=
  let seen := rp_install (interfere 4 w) in
  let '(disk, answer) := RecoverAfterStartFailure (le_io e) (snd first) seen (le_other e 5 seen) in
  let w := put_install disk w in
  let '(w, repaired, answer) := match answer with
    | Ok r => (w, repaired, Ok (seen, r))
    | Err err => repairAndResolve 6 repaired err w
    end in
  match answer with
  | Err _ => (mkLaunchState w repaired [first], fail_code)
  | Ok (seen, res) =>
      let w := reportRecovery res w in
      (mkLaunchState w repaired [first; (seen, rs_Descriptor res)],
       match le_start e 1 (rs_Descriptor res) with Exited code => finish_code code | _ => fail_code end)
  end.

(** [main], for a command that is neither the doctor nor a repair. *)
Definition launcher_main (w : repair_world) : launch * Z :=
  let '(w, answer) := resolve_now 0 w in
  let '(w, repaired, answer) := match answer with Ok r => (w, false, Ok r) | Err err => repairAndResolve 2 false err w end in
  match answer with
  | Err _ => (mkLaunchState w repaired [], fail_code)
  | Ok (seen, res) =>
      let w := reportRecovery res w in
      match le_start e 0 (rs_Descriptor res) with
      | Exited code => (mkLaunchState w repaired [(seen, rs_Descriptor res)], finish_code code)
      | StartRefused => second_start w repaired (seen, rs_Descriptor res)
      | SetupFailed => (mkLaunchState w repaired [(seen, rs_Descriptor res)], fail_code)
      end
  end.
End launch.

(** [launcherEnv]: what a parent set about the install is replaced. *)
Definition launcher_variable (item : string) : bool :=
  let upper := ToUpper item in HasPrefix upper "CSX_LAUNCHER_" || HasPrefix upper "CSX_ACTIVE_" || HasPrefix upper "CSX_PAYLOAD_VERSION=".

Definition launcherEnv (env : list string) (launcherPath root : string) (d : Descriptor) (protocol : string) : list string :=
  (filter (fun i => negb (launcher_variable i)) env ++
   ["CSX_LAUNCHER_PATH=" +:+ launcherPath; "CSX_LAUNCHER_ROOT=" +:+ root; "CSX_LAUNCHER_VERSION=" +:+ protocol;
    "CSX_PAYLOAD_VERSION=" +:+ d_Version d; "CSX_ACTIVE_SEQUENCE=" +:+ Itoa (d_Sequence d); "CSX_ACTIVE_SHA256=" +:+ d_SHA256 d])%list.

(** ** A launch runs verified payloads, twice at most *)

Lemma resolve_now_verified e n w w' seen r : resolve_now e n w = (w', Ok (seen, r)) -> verified seen (rs_Descriptor r).
Proof.
  unfold resolve_now. cbn. destruct (Resolve _ _ _) as [disk [r'|err]] eqn:R; [|done]. intros [= _ <- <-]. by eapply resolve_verified.
Qed.

Lemma repair_and_resolve_verified e n b err w w' b' seen r : repairAndResolve e n b err w = (w', b', Ok (seen, r)) -> verified seen (rs_Descriptor r).
Proof.
  unfold repairAndResolve. destruct (negb (repairable e b err)); [done|].
  destruct (RehydrateInstall _ w) as [w1 [rep [f|]]]; [done|]. destruct (resolve_now e n w1) as [w2 [x|]] eqn:R; [|done].
  intros [= _ _ ->]. by eapply resolve_now_verified.
Qed.

(** A process repairs once. *)
Lemma one_repair e n err w : repairAndResolve e n true err w = (w, true, Err err).
Proof. done. Qed.

Lemma finish_zero code : finish_code code = 0 -> code = 0.
Proof. unfold finish_code, fail_code. destruct (Z.ltb_spec code 0); lia. Qed.

(** What a launch may answer after starting [started]. *)
Definition launch_honest (e : launch_env) (started : list (install * Descriptor)) (code : Z) : Prop :=
  Forall (fun s => verified (fst s) (snd s)) started /\ (length started <= 2)%nat /\ 0 <= code
  /\ (code = 0 -> exists n s, length started = S n /\ List.nth_error started n = Some s /\ le_start e n (snd s) = Exited 0).

Lemma second_start_honest e w b first : verified (fst first) (snd first) ->
  launch_honest e (ln_started (fst (second_start e w b first))) (snd (second_start e w b first)).
Proof.
  intros V. unfold second_start. set (seen := rp_install (interfere e 4 w)).
  assert (K : forall (x : launch * Z) (t : repair_world * bool * result (install * Resolution) launcher_error),
    (forall s r, snd t = Ok (s, r) -> verified s (rs_Descriptor r)) ->
    x = (let '(w, b, a) := t in match a with
      | Err _ => (mkLaunchState w b [first], fail_code)
      | Ok (seen, res) => (mkLaunchState (reportRecovery e res w) b [first; (seen, rs_Descriptor res)],
          match le_start e 1 (rs_Descriptor res) with Exited code => finish_code code | _ => fail_code end) end) ->
    launch_honest e (ln_started (fst x)) (snd x)).
  { intros x [[w' b'] [[s r]|err]] T ->; cbn.
    - specialize (T s r eq_refl). split; [by repeat constructor|]. split; [cbn; lia|].
      destruct (le_start e 1 (rs_Descriptor r)) as [code| |] eqn:E; [|split; done..].
      split; [unfold finish_code, fail_code; destruct (Z.ltb_spec code 0); lia|]. intros Z0%finish_zero. subst code. by exists 1%nat, (s, rs_Descriptor r).
    - split; [by repeat constructor|]. split; [cbn; lia|]. done. }
  destruct (RecoverAfterStartFailure _ _ _ _) as [disk a] eqn:R.
  eapply K with (t := match a with Ok r => (put_install disk w, b, Ok (seen, r)) | Err err => repairAndResolve e 6 b err (put_install disk w) end).
  - destruct a as [r|err]; intros s r' H; [injection H as <- <-; by eapply recover_verified|].
    destruct (repairAndResolve e 6 b err (put_install disk w)) as [[w1 b1] t] eqn:Q. cbn in H. subst t. by eapply repair_and_resolve_verified.
  - by destruct (match a with Ok r => _ | Err err => _ end) as [[w1 b1] [[s r']|]].
Qed.

(** C35.  A launch is fail-closed.  Whatever other processes do to the install
    between its steps, each payload the launcher starts was found to hash to
    its descriptor on the disk it last read; it starts two at most; and it
    exits 0 only when the last one it started exited 0. *)
Theorem launch_is_honest e w : launch_honest e (ln_started (fst (launcher_main e w))) (snd (launcher_main e w)).
Proof.
  unfold launcher_main. destruct (resolve_now e 0 w) as [w1 a] eqn:R.
  set (t := match a with Ok r => (w1, false, Ok r) | Err err => repairAndResolve e 2 false err w1 end).
  assert (T : forall s r, snd t = Ok (s, r) -> verified s (rs_Descriptor r)).
  { intros s r H. unfold t in H. destruct a as [x|err]; [injection H as ->; by eapply resolve_now_verified|].
    destruct (repairAndResolve e 2 false err w1) as [[w2 b2] q] eqn:Q. cbn in H. subst q. by eapply repair_and_resolve_verified. }
  clearbody t. destruct t as [[w2 b] [[s r]|err]]; [|split; [done|]; cbn; split; [lia|done]].
  specialize (T s r eq_refl). cbn zeta. destruct (le_start e 0 (rs_Descriptor r)) as [code| |] eqn:E; [|by apply second_start_honest|].
  - split; [by repeat constructor|]. split; [cbn; lia|]. split; [cbn; unfold finish_code, fail_code; destruct (Z.ltb_spec code 0); lia|].
    intros Z0%finish_zero. subst code. by exists 0%nat, (s, rs_Descriptor r).
  - split; [by repeat constructor|]. split; [cbn; lia|done].
Qed.

(** ** Repairs *)

Lemma Read_pointer st st' : in_pointer st' = in_pointer st -> Read st' = Read st.
Proof. unfold Read. by intros ->. Qed.

Lemma rehydrate_locked_ok x fetch runs force failed st st' report : rehydrate_locked x fetch runs force failed st = (st', (report, None)) ->
  exists a, Read st' = Ok a /\ verified st' (ac_Current a).
Proof.
  intros H. pose proof (rehydrate_pointer x fetch runs force failed st) as P. rewrite H in P. cbn in P. rewrite (Read_pointer st st' P). revert H.
  unfold rehydrate_locked. destruct (Read st) as [a|]; [|done]. destruct (_ && _ && _); [done|].
  destruct (if _ : bool then _ else _) as [[st1 r1] [e1|]]; [done|]. destruct (fold_left _ _ _) as [st2 r2].
  destruct (VerifyPayload st2 (ac_Current a)) eqn:V; [done|]. intros [= <- _]. exists a. split; [done|]. by apply descriptor_None in V as [_ ?].
Qed.

Definition attempt_recorded (f f' : record_file RehydrateRecord) (failed : bool) : Prop :=
  exists rec, ReadRehydrateRecord f' = Some rec
    /\ rr_Outcome rec = (if failed then RehydrateOutcomeFailed else RehydrateOutcomeRestored)
    /\ rr_Attempts rec = if failed then 1 + match failed_before f with Some p => rr_Attempts p | None => 0 end else 1.

Lemma RecordRehydrate_recorded (failed : bool) err report now f :
  attempt_recorded f (RecordRehydrate true (if failed then RehydrateOutcomeFailed else RehydrateOutcomeRestored) err report now f) failed.
Proof.
  unfold RecordRehydrate, attempt_recorded. destruct failed; eexists; (split; [reflexivity|]); (split; [reflexivity|]); [|reflexivity].
  cbn [rr_Attempts String.eqb]. change (String.eqb RehydrateOutcomeFailed RehydrateOutcomeFailed) with true. destruct (failed_before f); lia.
Qed.

(** A repair never moves the pointer; when it reports success the current
    payload verifies on the disk it leaves.  An attempt that did anything is
    recorded, with the number of failures in a row; and within five minutes of
    a recorded failure an automatic repair does nothing but say so. *)
Theorem repair_is_recorded r w :
  let '(w', (report, err)) := RehydrateInstall r w in
  in_pointer (rp_install w') = in_pointer (ri_meanwhile r (rp_install w))
  /\ (err = None -> exists a, Read (rp_install w') = Ok a /\ verified (rp_install w') (ac_Current a))
  /\ (if unrecorded report err then rp_rehydrate w' = rp_rehydrate w
      else ri_written r = true -> attempt_recorded (rp_rehydrate w) (rp_rehydrate w') (is_some err))
  /\ (forall a p, Read (rp_install w) = Ok a -> ri_force r = false -> failed_before (rp_rehydrate w) = Some p ->
        ri_now r < rr_AttemptedAt p + RehydrateCooldown ->
        err = Some Cooldown /\ w' = mkRepairWorld (ri_meanwhile r (rp_install w)) (rp_rehydrate w) (rp_recovery w)).
Proof.
  unfold RehydrateInstall. destruct (rehydrate r (rp_rehydrate w) (rp_install w)) as [st [report err]] eqn:R. cbn.
  split; [|split; [|split]].
  - revert R. unfold rehydrate. destruct (Read _); [|by intros [= <- _ _]]. destruct (_ && _); [by intros [= <- _ _]|].
    destruct (negb _); [by intros [= <- _ _]|]. intros R.
    pose proof (rehydrate_pointer (ri_io r) (ri_fetch r) (ri_runs r) (ri_force r) (ri_startFailed r) (ri_meanwhile r (rp_install w))) as P. by rewrite R in P.
  - intros ->. revert R. unfold rehydrate. destruct (Read _); [|done]. destruct (_ && _); [done|]. destruct (negb _); [done|]. apply rehydrate_locked_ok.
  - destruct (unrecorded report err); [done|]. intros ->. apply RecordRehydrate_recorded.
  - intros a p Ra F0 Fb Lt. revert R. unfold rehydrate. rewrite Ra, F0. unfold cooling. rewrite Fb.
    rewrite (proj2 (Z.ltb_lt (ri_now r - rr_AttemptedAt p) RehydrateCooldown)) by lia. by intros [= <- <- <-].
Qed.

(** ** The signed release of the install's version *)

Inductive bootstrap_error := StableRefused (e : release_error) | BootstrapRefused (e : release_error) | NotThisRelease | MutableURL | MissingLauncher | OtherIdentity.

Definition release_base (version : string) : string := "https://github.com/r2cuerdame/CodeSampleX/releases/download/" +:+ version +:+ "/".

Definition immutable_asset (version : string) (a : Asset) : option bootstrap_error :=
  let base := release_base version in
  let win := String.eqb (as_OS a) "windows" in
  refuse (negb (String.eqb (as_URL a) (base +:+ asset_name (as_OS a) (as_Arch a)))
          || (win && negb (String.eqb (as_LauncherURL a) (base +:+ launcher_name (as_Arch a))))) MutableURL andalso
  refuse (win && String.eqb (as_LauncherURL a) "") MissingLauncher.

Definition without_launcher (a : Asset) : Asset :=
  mkAsset (as_OS a) (as_Arch a) (as_URL a) (as_Size a) (as_SHA256 a) (as_MinLauncherVersion a) "" 0 "".
Definition without_launchers (m : Manifest) : Manifest :=
  mkRelease (rm_Schema m) (rm_Channel m) (rm_Sequence m) (rm_Version m) (rm_PublishedAt m) (rm_ExpiresAt m) (rm_MinUpdaterVersion m)
    (map without_launcher (rm_Assets m)).

Section signed.
  Context `{!GoNetip, !Ed25519, !ReleaseJSON}.

Definition VerifyBootstrapRelease (stableRaw bootstrapRaw pub : string) (now : Z) (version : string) : result Manifest bootstrap_error :=
  match VerifyEnvelope stableRaw pub now DefaultChannel, VerifyEnvelope bootstrapRaw pub now DefaultChannel with
  | Err e, _ => Err (StableRefused e)
  | Ok _, Err e => Err (BootstrapRefused e)
  | Ok stable, Ok bootstrap =>
      match refuse (negb (String.eqb (rm_Version stable) version)) NotThisRelease andalso
            first_refusal (immutable_asset (rm_Version bootstrap)) (rm_Assets bootstrap) andalso
            refuse (negb (bool_decide (stable = without_launchers bootstrap))) OtherIdentity with
      | Some e => Err e
      | None => Ok bootstrap
      end
  end.

(** [VerifyReleaseDirectory], of the files of a directory by name. *)
Definition release_targets : list string := ["darwin/amd64"; "darwin/arm64"; "linux/amd64"; "linux/arm64"; "windows/amd64"; "windows/arm64"].
Definition asset_file (url : string) : string := match cut_last "/" url with Some (_, name) => name | None => url end.
Definition file_signed (dist : gmap string string) (url : string) (size : Z) (digest : string) : bool :=
  match dist !! asset_file url with Some raw => (str_len raw =? size) && String.eqb (sha256_hex raw) digest | None => false end.
Definition asset_published (dist : gmap string string) (a : Asset) : bool :=
  str_in (target_key a) release_targets && file_signed dist (as_URL a) (as_Size a) (as_SHA256 a)
  && (negb (String.eqb (as_OS a) "windows") || file_signed dist (as_LauncherURL a) (as_LauncherSize a) (as_LauncherSHA256 a)).

Definition VerifyReleaseDirectory (dist : gmap string string) (version pub : string) (now : Z) : bool :=
  match dist !! "csx-update-stable.json", dist !! "csx-bootstrap-stable.json" with
  | Some stable, Some bootstrap =>
      match VerifyBootstrapRelease stable bootstrap pub now version with
      | Ok m => Nat.eqb (length (rm_Assets m)) (length release_targets) && forallb (asset_published dist) (rm_Assets m)
      | Err _ => false
      end
  | _, _ => false
  end.
End signed.

(** ** A release directory is complete *)

Section published.
  Context `{!GoNetip, !Ed25519, !ReleaseJSON}.

Lemma bootstrap_Ok stable bootstrap pub now version m : VerifyBootstrapRelease stable bootstrap pub now version = Ok m ->
  VerifyEnvelope bootstrap pub now DefaultChannel = Ok m /\ VerifyEnvelope stable pub now DefaultChannel = Ok (without_launchers m)
  /\ rm_Version m = version /\ Forall (fun a => immutable_asset version a = None) (rm_Assets m).
Proof.
  unfold VerifyBootstrapRelease. destruct (VerifyEnvelope stable _ _ _) as [s|]; [|done]. destruct (VerifyEnvelope bootstrap _ _ _) as [b|]; [|done].
  destruct (_ andalso _) eqn:E; [done|]. intros [= ->]. rewrite !andalso_None, !refuse_None, first_refusal_None, !negb_false_iff, String.eqb_eq, bool_decide_eq_true in E.
  destruct E as (V & F & ->). cbn in V. subst version. done.
Qed.

Lemma file_signed_download (dist : gmap string string) url size digest : size <= maxBinaryBytes -> file_signed dist url size digest = true ->
  exists raw, dist !! asset_file url = Some raw /\ downloadAsset (Some raw) size digest = Ok raw.
Proof.
  unfold file_signed, downloadAsset. intros L. rewrite (proj2 (Z.ltb_ge _ _) L). destruct (dist !! asset_file url) as [raw|]; [|done].
  intros [Sz Hs]%andb_true_iff. exists raw. by rewrite Sz, Hs.
Qed.

(** A directory that passes is a complete release.  Its manifests are
    signed and agree, there is exactly one asset for each of the six targets,
    each at the immutable address of that release, and the file of each is the
    one an updater would accept: it has the signed size and digest.  So has the
    launcher of each Windows target. *)
Theorem published_release_is_complete (dist : gmap string string) version pub now :
  VerifyReleaseDirectory dist version pub now = true ->
  exists stable bootstrap m,
    dist !! "csx-update-stable.json" = Some stable /\ dist !! "csx-bootstrap-stable.json" = Some bootstrap
    /\ VerifyEnvelope bootstrap pub now DefaultChannel = Ok m /\ VerifyEnvelope stable pub now DefaultChannel = Ok (without_launchers m)
    /\ rm_Version m = version /\ Permutation (map target_key (rm_Assets m)) release_targets
    /\ Forall (fun a => as_URL a = release_base version +:+ asset_name (as_OS a) (as_Arch a)
         /\ (as_Size a <= maxBinaryBytes -> exists raw, dist !! asset_file (as_URL a) = Some raw /\ downloadAsset (Some raw) (as_Size a) (as_SHA256 a) = Ok raw)
         /\ (as_OS a = "windows" -> as_LauncherURL a = release_base version +:+ launcher_name (as_Arch a)
             /\ file_signed dist (as_LauncherURL a) (as_LauncherSize a) (as_LauncherSHA256 a) = true)) (rm_Assets m).
Proof.
  unfold VerifyReleaseDirectory. destruct (dist !! "csx-update-stable.json") as [stable|]; [|done]. destruct (dist !! "csx-bootstrap-stable.json") as [bootstrap|]; [|done].
  destruct (VerifyBootstrapRelease _ _ _ _ _) as [m|] eqn:B; [|done]. apply bootstrap_Ok in B as (Vb & Vs & V & I).
  intros [L%Nat.eqb_eq P]%andb_true_iff. rewrite forallb_forall in P. exists stable, bootstrap, m. split; [done|]. split; [done|]. split; [done|]. split; [done|]. split; [done|].
  split.
  - apply VerifyEnvelope_checked in Vb as [_ (_ & N & _)]. apply NoDup_Permutation_bis; [done|by rewrite length_map, L|].
    intros k (a & <- & A)%in_map_iff. specialize (P a A). unfold asset_published in P. rewrite !andb_true_iff, str_in_In in P. tauto.
  - rewrite List.Forall_forall in *. intros a A. specialize (P a A). specialize (I a A). unfold asset_published in P. unfold immutable_asset in I.
    rewrite !andb_true_iff, orb_true_iff, negb_true_iff, String.eqb_neq in P. destruct P as [[_ F] W].
    rewrite andalso_None, !refuse_None, orb_false_iff, negb_false_iff, String.eqb_eq, !andb_false_iff, negb_false_iff, String.eqb_eq in I. destruct I as [[U X] _].
    split; [done|]. split; [intros Sz; by apply file_signed_download|]. intros Os. rewrite Os in W, X. split; [naive_solver|naive_solver].
Qed.
End published.

(** ** The doctor's repairs (doctorrelease.go) *)

(** What a repair by the doctor meets: whether the root is the owned one, the
    tree without links, the two manifests that were fetched, and the rest as in
    an update.  [dc_version] is the version of the running binary. *)
Record doctor := mkDoctor {
  dc_version : string; dc_GOOS : string; dc_GOARCH : string; dc_root : bool; dc_tree : bool; dc_key : option string; dc_now : Z;
  dc_stable : option string; dc_bootstrap : option string; dc_io : io; dc_fetch : string -> option string; dc_runs : string -> string -> bool;
  dc_loaded : bool; dc_saved : bool; dc_weather : weather }.

Inductive doctor_error := NoncanonicalVersion | NotOurRoot | UnsafeTree | NoDoctorKey | Unavailable | ReleaseRefused (e : bootstrap_error) | VersionMismatch
| NoDoctorAsset | Refetch (e : rehydrate_error) | WritePointer (e : launcher_error) | NotVerified (e : launcher_error).

Section doctor.
  Context `{!GoNetip, !Ed25519, !ReleaseJSON}.
  Variable c : doctor.

Definition VerifyInstalledStableRelease (version : string) : result Manifest doctor_error :=
  if negb (IsCanonicalReleaseVersion version) then Err NoncanonicalVersion
  else match dc_key c with
  | None => Err NoDoctorKey
  | Some pub =>
      match dc_stable c, dc_bootstrap c with
      | Some stable, Some bootstrap =>
          match VerifyBootstrapRelease stable bootstrap pub (dc_now c) version with Ok m => Ok m | Err e => Err (ReleaseRefused e) end
      | _, _ => Err Unavailable
      end
  end.

(** The pointer the repair publishes. *)
Definition binding_pointer (st : install) (d : Descriptor) : Active :=
  match Read st with
  | Err _ => mkActive ActiveSchema d None None
  | Ok old =>
      mkActive ActiveSchema d (verifiedPreviousForCommit st old d)
        (match ac_RollbackHold old with Some h => if samePayload h d then None else Some h | None => None end)
  end.

(** The floor the repair stores. *)
Definition rebound_state (m : Manifest) (st : State) : State :=
  set_floor (if us_HighestSequence st <? rm_Sequence m then rm_Sequence m else us_HighestSequence st) (rm_Version m) st.

Definition RepairReleaseBinding (version : string) (w : world) : world * option doctor_error :=
  if negb (IsCanonicalReleaseVersion version) then (w, Some NoncanonicalVersion)
  else if negb (dc_root c) then (w, Some NotOurRoot)
  else if negb (dc_tree c) then (w, Some UnsafeTree)
  else match VerifyInstalledStableRelease version with
  | Err e => (w, Some e)
  | Ok m =>
      if negb (String.eqb (rm_Version m) version) then (w, Some VersionMismatch)
      else match AssetFor m (dc_GOOS c) (dc_GOARCH c) with
      | None => (w, Some NoDoctorAsset)
      | Some asset =>
          let d := mkDescriptor (rm_Version m) (as_SHA256 asset) (rm_Sequence m) in
          let '(inst, fetched) := match VerifyPayload (uw_install w) d with
            | None => (uw_install w, None)
            | Some _ => refetchPayload (dc_io c) (dc_fetch c) (dc_runs c) d (uw_install w)
            end in
          let w := with_install inst w in
          match fetched with
          | Some e => (w, Some (Refetch e))
          | None =>
              match Write (dc_io c) (binding_pointer inst d) inst with
              | (inst, Some e) => (with_install inst w, Some (WritePointer e))
              | (inst, None) =>
                  let w := with_install inst w in
                  let w := if dc_loaded c && dc_saved c then with_state (rebound_state m (uw_state w)) w else w in
                  let l := if String.eqb (as_OS asset) "windows" && negb (String.eqb (as_LauncherSHA256 asset) "")
                           then fst (replaceLauncherIfStale (dc_weather c) asset (uw_launcher w)) else uw_launcher w in
                  let w := mkUpdateWorld (uw_state w) (uw_exe w) (uw_previous w) l (uw_install w) in
                  (w, option_map NotVerified (VerifyPayload (uw_install w) d))
              end
          end
      end
  end.

(** [RepairSignedStandalone], under the update lock. *)
Definition RepairSignedStandalone (owned lock copied renamed : bool) (body : option string) (w : world) : world * option doctor_error :=
  if String.eqb (dc_GOOS c) "windows" || negb owned then (w, Some NotOurRoot)
  else match VerifyInstalledStableRelease (dc_version c) with
  | Err e => (w, Some e)
  | Ok m =>
      match AssetFor m (dc_GOOS c) (dc_GOARCH c) with
      | None => (w, Some NoDoctorAsset)
      | Some asset =>
          if negb lock then (w, Some Unavailable)
          else match downloadAsset body (as_Size asset) (as_SHA256 asset) with
          | Err _ => (w, Some Unavailable)
          | Ok staged =>
              if negb (dc_runs c staged (dc_version c)) then (w, Some (Refetch RepairSelfTest))
              else if negb copied || negb renamed then (w, Some UnsafeTree)
              else
                let w := mkUpdateWorld (uw_state w) staged (uw_previous w) (uw_launcher w) (uw_install w) in
                (w, match fileSHA256 staged with
                    | Some got => refuse (negb (String.eqb got (as_SHA256 asset))) (NotVerified PayloadCorrupt)
                    | None => Some (NotVerified PayloadCorrupt)
                    end)
          end
      end
  end.
End doctor.

(** ** What the doctor leaves behind *)

Section rebound.
  Context `{!GoNetip, !Ed25519, !ReleaseJSON}.
  Variable c : doctor.

Lemma installed_release_Ok version m : VerifyInstalledStableRelease c version = Ok m ->
  exists pub raw, dc_key c = Some pub /\ dc_bootstrap c = Some raw /\ VerifyEnvelope raw pub (dc_now c) DefaultChannel = Ok m /\ rm_Version m = version.
Proof.
  unfold VerifyInstalledStableRelease. destruct (negb _); [done|]. destruct (dc_key c) as [pub|]; [|done].
  destruct (dc_stable c) as [s|]; [|done]. destruct (dc_bootstrap c) as [raw|]; [|done].
  destruct (VerifyBootstrapRelease _ _ _ _ _) as [m'|] eqn:B; [|done]. intros [= ->]. apply bootstrap_Ok in B as (V & _ & E & _). by exists pub, raw.
Qed.

(** The pointer is well formed whenever it validates. *)
Lemma binding_wf st d : Validate st (binding_pointer st d) = None -> pointer_wf (binding_pointer st d).
Proof.
  intros V. apply Validate_current in V. unfold pointer_wf, binding_pointer in *. destruct (Read st) as [old|] eqn:R; cbn [ac_Schema ac_Current ac_Previous ac_RollbackHold] in *; [|by rewrite V].
  apply Read_Ok in R as (_ & _ & Cs & Ps & Hs). destruct (verifiedPreviousForCommit st old d) as [p|] eqn:Q.
  - apply List.find_some in Q as [I Q]. rewrite !andb_true_iff, !negb_true_iff in Q. destruct Q as [[S _] D].
    assert (Sp : validateDescriptorShape p = None). { destruct (validateDescriptor st p) eqn:E; [done|]. by apply descriptor_None in E as [? _]. }
    split; [done|]. split; [done|]. split; [exact Sp|].
    destruct (ac_RollbackHold old) as [h|]; cbn; [|split; [done|split; [done|by intros ? [= <-]]]].
    destruct (samePayload h d) eqn:E; (split; [done|]); (split; [unfold held; cbn; by rewrite 1?samePayload_sym|by intros ? [= <-]]).
  - split; [done|]. split; [done|]. split; [done|].
    destruct (ac_RollbackHold old) as [h|]; cbn; [|done].
    destruct (samePayload h d) eqn:E; (split; [done|]); (split; [unfold held; cbn; by rewrite 1?samePayload_sym|done]).
Qed.

(** The doctor rebinds to the signed release or says why not.  When the
    repair succeeds, the pointer runs exactly the payload the signed manifest of
    that version names, its bytes verify on the disk that is left, and no
    rejected or repeated payload stands beside it; the standalone executable is
    not touched. *)
Theorem doctor_binds_signed_release version w w' : RepairReleaseBinding c version w = (w', None) ->
  exists pub raw m asset a, dc_key c = Some pub /\ dc_bootstrap c = Some raw /\ VerifyEnvelope raw pub (dc_now c) DefaultChannel = Ok m /\ rm_Version m = version
    /\ AssetFor m (dc_GOOS c) (dc_GOARCH c) = Some asset
    /\ in_pointer (uw_install w') = Some a /\ pointer_wf a
    /\ ac_Current a = mkDescriptor version (as_SHA256 asset) (rm_Sequence m) /\ verified (uw_install w') (ac_Current a)
    /\ uw_exe w' = uw_exe w.
Proof.
  unfold RepairReleaseBinding. destruct (negb (IsCanonicalReleaseVersion version)); [done|]. destruct (negb (dc_root c)); [done|]. destruct (negb (dc_tree c)); [done|].
  destruct (VerifyInstalledStableRelease c version) as [m|] eqn:R; [|done]. apply installed_release_Ok in R as (pub & raw & K & B & V & E).
  destruct (negb (String.eqb (rm_Version m) version)); [done|]. destruct (AssetFor m _ _) as [asset|] eqn:A; [|done].
  destruct (match VerifyPayload _ _ with None => _ | Some _ => _ end) as [inst [e|]]; [done|].
  set (d := mkDescriptor (rm_Version m) (as_SHA256 asset) (rm_Sequence m)).
  destruct (Write (dc_io c) (binding_pointer inst d) inst) as [inst' [e|]] eqn:W; [done|]. apply Write_None in W as [-> Va].
  intros [= <- Ver]. exists pub, raw, m, asset, (binding_pointer inst d). split; [done|]. split; [done|]. split; [done|]. split; [done|]. split; [done|].
  split; [by destruct (dc_loaded c && dc_saved c)|]. split; [by apply binding_wf|].
  assert (Cd : ac_Current (binding_pointer inst d) = d) by (unfold binding_pointer; by destruct (Read inst)). rewrite Cd.
  split; [unfold d; by rewrite E|]. split; [|by destruct (dc_loaded c && dc_saved c)].
  apply Validate_verified in Va. rewrite Cd in Va. by destruct (dc_loaded c && dc_saved c).
Qed.
End rebound.

(** The version floor the repair stores is the repaired version, also when a
    newer one was recorded. *)
Lemma rebinding_lowers_the_floor m st : rm_Version m = "v1.0.0" -> us_HighestVersion st = "v1.1.0" ->
  CompareReleases (us_HighestVersion (rebound_state m st)) (us_HighestVersion st) = Some (-1).
Proof. intros M S. unfold rebound_state. cbn [us_HighestVersion set_floor]. rewrite M, S. reflexivity. Qed.
