(* ===== verification/Queue.v ===== *)
(** * Samples, receipts and the verification queue (internal/serverstore)

    The part of the reference store (fake.go) that a verification goes
    through: published samples, the receipts peers sign about them, the jobs
    that ask for one, the authoring drafts a receipt releases, and the peers
    that serve an artifact; with the rules of store.go that say when a
    receipt judged a sample.

    Documents are kept decoded: where the source stores the canonical JSON of
    a manifest, a receipt or the requirements of a job, the model stores the
    value, [None] for text that does not decode; for a job [None] is the empty
    text, since requirements are only ever written by the server itself.  An operation runs under the store's mutex and is given one reading
    of the clock.  [Sub] saturates far above the lease, so the comparisons
    with it are those of the difference. *)

From stdpp Require Import gmap.
From S2P Require Import Prelude GoStrings GoUnicode GoStd StringFacts UnicodeFacts WordFacts Regexp Calendar Float Hash Json.
From S2P Require Import Purl Env Targets Failure Search Anomaly Candidate Measured.

#[local] Open Scope csx_scope.

(** ** Rows *)

Record WorkerRequirements := mkReq {
  wr_SandboxCapability : string;
  wr_VerifierAdapter : string;
  wr_OS : string;
  wr_Ecosystem : string;
  wr_Runtime : string;
  wr_RuntimeVersion : string;
  wr_ExecutionContext : string;
  wr_BrowserFamily : string;
  wr_BrowserMajor : string;
  wr_Engine : string;
  wr_EngineVersion : string;
  wr_Frameworks : list string
}.

#[export] Instance WorkerRequirements_eq_dec : EqDecision WorkerRequirements.
Proof. solve_decision. Defined.

Record JobRow := mkJob {
  j_ID : Z;
  j_SampleID : string;
  j_Reason : string;
  j_WantEnv : option WorkerRequirements;
  j_Status : string;
  j_ClaimedBy : string;
  j_ClaimedAt : Z;
  j_CreatedAt : Z
}.

Record stored_sample := mkStoredSample { ss_row : SampleRow; ss_manifest : option SampleManifest }.
Record stored_receipt := mkStoredReceipt { sr_row : ReceiptRow; sr_doc : option VerificationReceipt }.

Record AuthoringWorkRow := mkWork {
  aw_Ecosystem : string;
  aw_Name : string;
  aw_Version : string;
  aw_Symbol : string;
  aw_Asks : Z;
  aw_Kind : string;
  aw_Axis : string;
  aw_Score : Z;
  aw_SessionID : string;
  aw_ClaimedAt : Z;
  aw_LeaseExpiresAt : Z;
  aw_SampleID : string
}.

Record PeerRow := mkPeer {
  pr_PeerID : string;
  pr_Addr : string;
  pr_Port : Z;
  pr_Capabilities : list string;
  pr_SampleIDs : list string;
  pr_AnnouncedAt : Z;
  pr_ExpiresAt : Z
}.

(** The keys of [Fake.authoringWork]. *)
Definition work_key : Type := string * string * string * string.

(** Of the drafts only their presence is read. *)
Record verify_store := mkVerify {
  vs_cases : gmap string Case;
  vs_samples : gmap string stored_sample;
  vs_receipts : gmap string (list stored_receipt);
  vs_jobs : list JobRow;
  vs_nextJobID : Z;
  vs_authoringDrafts : gset string;
  vs_authoringWork : gmap work_key AuthoringWorkRow;
  vs_peers : gmap string PeerRow
}.

Definition new_verify_store : verify_store := mkVerify ∅ ∅ ∅ [] 0 ∅ ∅ ∅.

Definition set_cases v st := mkVerify v (vs_samples st) (vs_receipts st) (vs_jobs st) (vs_nextJobID st) (vs_authoringDrafts st) (vs_authoringWork st) (vs_peers st).
Definition set_samples v st := mkVerify (vs_cases st) v (vs_receipts st) (vs_jobs st) (vs_nextJobID st) (vs_authoringDrafts st) (vs_authoringWork st) (vs_peers st).
Definition set_receipts v st := mkVerify (vs_cases st) (vs_samples st) v (vs_jobs st) (vs_nextJobID st) (vs_authoringDrafts st) (vs_authoringWork st) (vs_peers st).
Definition set_jobs v st := mkVerify (vs_cases st) (vs_samples st) (vs_receipts st) v (vs_nextJobID st) (vs_authoringDrafts st) (vs_authoringWork st) (vs_peers st).
Definition set_next v st := mkVerify (vs_cases st) (vs_samples st) (vs_receipts st) (vs_jobs st) v (vs_authoringDrafts st) (vs_authoringWork st) (vs_peers st).
Definition set_work v st := mkVerify (vs_cases st) (vs_samples st) (vs_receipts st) (vs_jobs st) (vs_nextJobID st) (vs_authoringDrafts st) v (vs_peers st).
Definition set_peers v st := mkVerify (vs_cases st) (vs_samples st) (vs_receipts st) (vs_jobs st) (vs_nextJobID st) (vs_authoringDrafts st) (vs_authoringWork st) v.

Definition JobStatusUnsupported : string := "unsupported".
Definition JobLease : Z := 30 * 60 * 1000000000.

(** ** When a receipt judged the sample (store.go) *)

Definition ContractWasJudged (contractResult terminationKind : string) (hasFailureEvidence : bool) : bool :=
  if str_in (ToLower (TrimSpace terminationKind)) ["timeout"; "process-start-failed"] then false
  else
    let r := ToUpper (TrimSpace contractResult) in
    if String.eqb r "PASS" then true else if String.eqb r "FAIL" then hasFailureEvidence else false.

(** [EnvironmentAgrees] on the environments of the two documents; a document
    that does not decode declares nothing. *)
Definition dimensions (e : option EnvironmentFingerprint) : list string :=
  match e with Some e => [env_OS e; env_Arch e; env_Libc e] | None => [""; ""; ""] end.

Definition dimension_agrees (w : string * string) : bool :=
  let want := TrimSpace (fst w) in
  let got := TrimSpace (snd w) in
  String.eqb want "" || String.eqb got "" || EqualFold want got.

Definition EnvironmentAgrees (declared ranIn : option EnvironmentFingerprint) : bool :=
  forallb dimension_agrees (combine (dimensions declared) (dimensions ranIn)).

(** The stored document writes [stageFailures] only when it has entries. *)
Definition ReceiptHasFailureEvidence (doc : option VerificationReceipt) : bool :=
  match doc with Some d => negb (bool_decide (vr_StageFailures d = ∅)) | None => false end.

Definition ReceiptTerminationKind (doc : option VerificationReceipt) : string :=
  match doc with
  | Some d => match vr_StageFailures d !! "contract" with Some f => fe_TerminationKind f | None => "" end
  | None => ""
  end.

Definition judged (r : stored_receipt) : bool :=
  ContractWasJudged (rr_ContractResult (sr_row r)) (ReceiptTerminationKind (sr_doc r)) (ReceiptHasFailureEvidence (sr_doc r)).

(** ** Samples *)

Definition SaveCase (nilPackages nilContract : bool) (c : Case) (st : verify_store) : verify_store :=
  let c := if String.eqb (case_CaseID c) ""
           then mkCase (case_SchemaVersion c) (case_ComputeID nilPackages nilContract c) (case_Kind c) (case_Goal c)
                  (case_Packages c) (case_Symbols c) (case_Constraints c) (case_Contract c) (case_Believed c)
           else c in
  set_cases (<[case_CaseID c := c]> (vs_cases st)) st.

Definition with_status (status : string) (q : bool) (why : string) (s : SampleRow) : SampleRow :=
  mkSampleRow (sm_SampleID s) (sm_CaseID s) (sm_ManifestJSON s) status (sm_OriginSeeder s) (sm_License s) (sm_SizeBytes s)
    (sm_HotScore s) (sm_CreatedAt s) q why.
Definition with_created (at_ : Z) (s : SampleRow) : SampleRow :=
  mkSampleRow (sm_SampleID s) (sm_CaseID s) (sm_ManifestJSON s) (sm_Status s) (sm_OriginSeeder s) (sm_License s) (sm_SizeBytes s)
    (sm_HotScore s) at_ (sm_Quarantined s) (sm_QuarantineReason s).
Definition with_license (l : string) (s : SampleRow) : SampleRow :=
  mkSampleRow (sm_SampleID s) (sm_CaseID s) (sm_ManifestJSON s) (sm_Status s) (sm_OriginSeeder s) l (sm_SizeBytes s)
    (sm_HotScore s) (sm_CreatedAt s) (sm_Quarantined s) (sm_QuarantineReason s).

Definition SaveSample (now : Z) (s : SampleRow) (manifest : option SampleManifest) (st : verify_store) : verify_store :=
  let s := if String.eqb (sm_Status s) "" then with_status "PUBLISHED" (sm_Quarantined s) (sm_QuarantineReason s) s else s in
  let s := if String.eqb (sm_License s) "" then with_license "MIT-0" s else s in
  let s := match vs_samples st !! sm_SampleID s with
           | Some p =>
               let prev := ss_row p in
               let s := if negb (is_zero_time (sm_CreatedAt prev)) && is_zero_time (sm_CreatedAt s)
                        then with_created (sm_CreatedAt prev) s else s in
               with_status (sm_Status prev) (sm_Quarantined prev) (sm_QuarantineReason prev) s
           | None => s
           end in
  let s := if is_zero_time (sm_CreatedAt s) then with_created now s else s in
  set_samples (<[sm_SampleID s := mkStoredSample s manifest]> (vs_samples st)) st.

Definition GetSample (id : string) (st : verify_store) : option stored_sample := vs_samples st !! id.

(** [None]: no such sample. *)
Definition SetSampleQuarantine (id : string) (on : bool) (reason : string) (st : verify_store) : option verify_store :=
  match vs_samples st !! id with
  | None => None
  | Some s => Some (set_samples (<[id := mkStoredSample (with_status (sm_Status (ss_row s)) on reason (ss_row s)) (ss_manifest s)]> (vs_samples st)) st)
  end.

Definition SetSampleStatus (id status : string) (st : verify_store) : option verify_store :=
  match vs_samples st !! id with
  | None => None
  | Some s => Some (set_samples (<[id := mkStoredSample (with_status status (sm_Quarantined (ss_row s)) (sm_QuarantineReason (ss_row s)) (ss_row s)) (ss_manifest s)]> (vs_samples st)) st)
  end.

(** ** Receipts *)

Definition receipts_of (id : string) (st : verify_store) : list stored_receipt := default [] (vs_receipts st !! id).
Definition ReceiptsForSample := receipts_of.

Definition has_receipt (id : string) (rs : list stored_receipt) : bool :=
  existsb (fun p => String.eqb (rr_ReceiptID (sr_row p)) id) rs.

Definition stamped (now : Z) (r : stored_receipt) : stored_receipt :=
  let w := sr_row r in
  if is_zero_time (rr_CreatedAt w)
  then mkStoredReceipt (mkReceiptRow (rr_ReceiptID w) (rr_SampleID w) (rr_PeerID w) (rr_EnvHash w) (rr_ReceiptJSON w) (rr_ContractResult w) now) (sr_doc r)
  else r.

Definition append_receipt (now : Z) (r : stored_receipt) (st : verify_store) : verify_store :=
  let id := rr_SampleID (sr_row r) in
  set_receipts (<[id := (receipts_of id st ++ [stamped now r])%list]> (vs_receipts st)) st.

Definition SaveReceipt (now : Z) (r : stored_receipt) (st : verify_store) : verify_store :=
  if has_receipt (rr_ReceiptID (sr_row r)) (receipts_of (rr_SampleID (sr_row r)) st) then st else append_receipt now r st.

(** ** Jobs *)

Definition with_job_status (status : string) (j : JobRow) : JobRow :=
  mkJob (j_ID j) (j_SampleID j) (j_Reason j) (j_WantEnv j) status (j_ClaimedBy j) (j_ClaimedAt j) (j_CreatedAt j).

(** The loops over [f.jobs] that act on the job with an id and stop: the rows
    are pointers, so the change is made in place. *)
Fixpoint update_first (p : JobRow -> bool) (f : JobRow -> JobRow) (jobs : list JobRow) : list JobRow :=
  match jobs with
  | [] => []
  | j :: jobs' => if p j then f j :: jobs' else j :: update_first p f jobs'
  end.

Definition has_id (id : Z) (j : JobRow) : bool := j_ID j =? id.
Definition Job (id : Z) (st : verify_store) : option JobRow := List.find (has_id id) (vs_jobs st).

Definition new_job (now : Z) (j : JobRow) (st : verify_store) : verify_store * Z :=
  let id := vs_nextJobID st + 1 in
  let j := mkJob id (j_SampleID j) (j_Reason j) (j_WantEnv j) (if String.eqb (j_Status j) "" then "open" else j_Status j)
             (j_ClaimedBy j) (j_ClaimedAt j) (if is_zero_time (j_CreatedAt j) then now else j_CreatedAt j) in
  (set_jobs (vs_jobs st ++ [j])%list (set_next id st), id).

Definition CreateJob (now : Z) (j : JobRow) (st : verify_store) : verify_store * Z :=
  let same e := String.eqb (j_SampleID e) (j_SampleID j) && String.eqb (j_Reason e) (j_Reason j) && bool_decide (j_WantEnv e = j_WantEnv j) in
  match (if String.eqb (j_Reason j) "matrix" then List.find same (vs_jobs st) else None) with
  | Some e => (st, j_ID e)
  | None => new_job now j st
  end.

Definition live_cross (reuse : bool) (sampleID : string) (e : JobRow) : bool :=
  String.eqb (j_SampleID e) sampleID && String.eqb (j_Reason e) "cross"
  && (String.eqb (j_Status e) "open" || String.eqb (j_Status e) "claimed" || (reuse && String.eqb (j_Status e) JobStatusUnsupported)).

(** [None]: the job is not a cross job of a sample. *)
Definition EnsureCrossJob (now : Z) (j : JobRow) (st : verify_store) : option (verify_store * Z) :=
  if negb (String.eqb (j_Reason j) "cross") || String.eqb (j_SampleID j) "" then None
  else match List.find (live_cross (String.eqb (j_Status j) JobStatusUnsupported) (j_SampleID j)) (vs_jobs st) with
  | Some e => Some (st, j_ID e)
  | None => Some (new_job now j st)
  end.

(** The claim of a peer that died: OpenJobsPage and ClaimJob. *)
Definition claim_expired (now : Z) (j : JobRow) : bool :=
  String.eqb (j_Status j) "claimed" && negb (is_zero_time (j_ClaimedAt j)) && (JobLease <? now - j_ClaimedAt j).

(** A peer that already judged the sample where it was meant to run. *)
Definition already_judged (st : verify_store) (peerID : string) (j : JobRow) : bool :=
  let declared := match vs_samples st !! j_SampleID j with Some s => option_map mf_Environment (ss_manifest s) | None => None end in
  existsb (fun r => String.eqb (rr_PeerID (sr_row r)) peerID && judged r
                    && EnvironmentAgrees declared (option_map vr_Environment (sr_doc r)))
    (receipts_of (j_SampleID j) st).

Definition wanted_elsewhere (capability verifierOS : string) (want : option WorkerRequirements) : bool :=
  match want with
  | None => false
  | Some w =>
      (negb (String.eqb capability "") && negb (String.eqb (wr_SandboxCapability w) "") && negb (String.eqb (wr_SandboxCapability w) capability))
      || (negb (String.eqb verifierOS "") && negb (String.eqb (wr_OS w) "") && negb (EqualFold (wr_OS w) verifierOS))
  end.

Definition offered (now : Z) (capability peerID reason verifierOS : string) (st : verify_store) (j : JobRow) : bool :=
  (String.eqb (j_Status j) "open" || claim_expired now j)
  && (String.eqb reason "" || String.eqb (j_Reason j) reason)
  && negb (negb (String.eqb peerID "") && String.eqb (j_Reason j) "cross" && already_judged st peerID j)
  && negb (wanted_elsewhere capability verifierOS (j_WantEnv j)).

(** The loop of [OpenJobsPage]: [eligible] counts the offered jobs seen. *)
Fixpoint page_loop (ok : JobRow -> bool) (limit offset eligible taken : Z) (jobs : list JobRow) : list JobRow :=
  match jobs with
  | [] => []
  | j :: jobs' =>
      if negb (ok j) then page_loop ok limit offset eligible taken jobs'
      else if eligible <? offset then page_loop ok limit offset (eligible + 1) taken jobs'
      else if limit <=? taken + 1 then [j]
      else j :: page_loop ok limit offset (eligible + 1) (taken + 1) jobs'
  end.

Definition OpenJobsPage (now : Z) (capability peerID reason verifierOS : string) (limit offset : Z) (st : verify_store) : list JobRow :=
  let limit := if limit <=? 0 then 10 else limit in
  let offset := if offset <? 0 then 0 else offset in
  page_loop (offered now capability peerID reason verifierOS st) limit offset 0 0 (vs_jobs st).

Definition OpenJobs (now : Z) (capability peerID reason : string) (limit : Z) (st : verify_store) : list JobRow :=
  OpenJobsPage now capability peerID reason "" limit 0 st.

Definition JobsForSample (id : string) (st : verify_store) : list JobRow :=
  List.filter (fun j => String.eqb (j_SampleID j) id) (vs_jobs st).

(** [CrossJobsForLaneReview] and [SetJobRequirements]: a claim without a time
    counts as expired here. *)
Definition reviewable (now : Z) (j : JobRow) : bool :=
  String.eqb (j_Status j) "open" || String.eqb (j_Status j) JobStatusUnsupported
  || (String.eqb (j_Status j) "claimed" && (is_zero_time (j_ClaimedAt j) || (JobLease <? now - j_ClaimedAt j))).

Definition CrossJobsForLaneReview (now limit : Z) (st : verify_store) : list JobRow :=
  firstn (Z.to_nat (if limit <=? 0 then 100 else limit))
    (List.filter (fun j => String.eqb (j_Reason j) "cross" && reviewable now j) (vs_jobs st)).

Definition SetJobRequirements (now id : Z) (want : option WorkerRequirements) (status : string) (st : verify_store) : verify_store :=
  set_jobs (update_first (has_id id)
    (fun j => if reviewable now j then mkJob (j_ID j) (j_SampleID j) (j_Reason j) want status "" zero_time (j_CreatedAt j) else j)
    (vs_jobs st)) st.

(** The peer already works on another job of the sample. *)
Definition busy_elsewhere (now : Z) (peerID : string) (j other : JobRow) : bool :=
  negb (j_ID other =? j_ID j) && String.eqb (j_SampleID other) (j_SampleID j) && String.eqb (j_Status other) "claimed"
  && String.eqb (j_ClaimedBy other) peerID && negb (is_zero_time (j_ClaimedAt other)) && (now - j_ClaimedAt other <=? JobLease).

Definition claimable (now : Z) (j : JobRow) : bool := String.eqb (j_Status j) "open" || claim_expired now j.
Definition claimed_for (now : Z) (peerID : string) (j : JobRow) : JobRow :=
  mkJob (j_ID j) (j_SampleID j) (j_Reason j) (j_WantEnv j) "claimed" peerID now (j_CreatedAt j).

Definition ClaimJob (now id : Z) (peerID : string) (st : verify_store) : verify_store * bool :=
  match List.find (fun j => has_id id j && claimable now j) (vs_jobs st) with
  | Some j =>
      if existsb (busy_elsewhere now peerID j) (vs_jobs st) then (st, false)
      else (set_jobs (update_first (fun j => has_id id j && claimable now j) (claimed_for now peerID) (vs_jobs st)) st, true)
  | None => (st, false)
  end.

(** The peer of the first receipt: each later row that is older than the
    first one replaces it. *)
Definition origin_of (rs : list stored_receipt) : string :=
  match rs with
  | [] => ""
  | r0 :: rest =>
      fold_left (fun origin r => if rr_CreatedAt (sr_row r) <? rr_CreatedAt (sr_row r0) then rr_PeerID (sr_row r) else origin)
        rest (rr_PeerID (sr_row r0))
  end.

Definition CompleteJobsForSample (sampleID peerID : string) (st : verify_store) : verify_store :=
  let origin := origin_of (receipts_of sampleID st) in
  set_jobs (map (fun j =>
    if negb (String.eqb (j_SampleID j) sampleID) || negb (String.eqb (j_Reason j) "cross")
       || (negb (String.eqb (j_Status j) "open") && negb (String.eqb (j_Status j) "claimed")) then j
    else if String.eqb (j_Reason j) "cross" && negb (String.eqb peerID "") && String.eqb peerID origin then j
    else with_job_status "done" j) (vs_jobs st)) st.

Definition CompleteJob (id : Z) (st : verify_store) : verify_store :=
  set_jobs (map (fun j => if has_id id j then with_job_status "done" j else j) (vs_jobs st)) st.

(** [SaveReceiptForJob]: the receipt answers the job its peer claimed, a
    passing one releases the draft, a failing one ends the assignment. *)
Definition release_draft (sampleID : string) (st : verify_store) : verify_store :=
  match vs_samples st !! sampleID with
  | Some s =>
      if bool_decide (sampleID ∈ vs_authoringDrafts st) && String.eqb (sm_Status (ss_row s)) "DRAFT" && sm_Quarantined (ss_row s)
      then set_samples (<[sampleID := mkStoredSample (with_status "CROSS_PASS" false "" (ss_row s)) (ss_manifest s)]> (vs_samples st)) st
      else st
  | None => st
  end.

Definition end_assignments (sampleID : string) (st : verify_store) : verify_store :=
  set_work (filter (fun x => aw_SampleID (snd x) <> sampleID) (vs_authoringWork st)) st.

Definition answers_job (r : ReceiptRow) (j : JobRow) : bool :=
  String.eqb (j_Status j) "claimed" && String.eqb (j_ClaimedBy j) (rr_PeerID r) && String.eqb (j_SampleID j) (rr_SampleID r).

Definition SaveReceiptForJob (now : Z) (r : stored_receipt) (jobID : Z) (st : verify_store) : verify_store * bool :=
  let w := sr_row r in
  match Job jobID st with
  | Some j =>
      if negb (answers_job w j) then (st, false)
      else if has_receipt (rr_ReceiptID w) (receipts_of (rr_SampleID w) st) then (st, false)
      else
        let st := append_receipt now r st in
        let st := set_jobs (update_first (has_id jobID) (with_job_status "done") (vs_jobs st)) st in
        let st := if String.eqb (rr_ContractResult w) "PASS" && String.eqb (j_Reason j) "cross" then release_draft (rr_SampleID w) st
                  else if String.eqb (rr_ContractResult w) "FAIL" && String.eqb (j_Reason j) "cross" then end_assignments (rr_SampleID w) st
                  else st in
        (st, true)
  | None => (st, false)
  end.

(** ** Drafts nothing is waiting for *)

Definition has_pass (rs : list stored_receipt) : bool :=
  existsb (fun r => String.eqb (rr_ContractResult (sr_row r)) "PASS") rs.
Definition has_live_job (id : string) (st : verify_store) : bool :=
  existsb (fun j => (String.eqb (j_Status j) "open" || String.eqb (j_Status j) "claimed") && String.eqb (j_SampleID j) id) (vs_jobs st).
Definition cross_attempts (id : string) (st : verify_store) : Z :=
  Z.of_nat (length (List.filter (fun j => String.eqb (j_Reason j) "cross" && String.eqb (j_SampleID j) id) (vs_jobs st))).

Definition stranded (maxAttempts : Z) (st : verify_store) (id : string) : bool :=
  match vs_samples st !! id with
  | Some s =>
      String.eqb (sm_Status (ss_row s)) "DRAFT" && sm_Quarantined (ss_row s)
      && negb (has_pass (receipts_of id st) || has_live_job id st || (maxAttempts <=? cross_attempts id st))
  | None => false
  end.

Definition StrandedDrafts (maxAttempts limit : Z) (st : verify_store) : list string :=
  let out := List.filter (stranded maxAttempts st) (sort_strings (map fst (map_to_list (vs_samples st)))) in
  if 0 <? limit then firstn (Z.to_nat limit) out else out.

(** ** Peers *)

Definition AnnouncePeer (now : Z) (p : PeerRow) (st : verify_store) : verify_store :=
  let p := if is_zero_time (pr_AnnouncedAt p)
           then mkPeer (pr_PeerID p) (pr_Addr p) (pr_Port p) (pr_Capabilities p) (pr_SampleIDs p) now (pr_ExpiresAt p) else p in
  set_peers (<[pr_PeerID p := p]> (vs_peers st)) st.

Definition PeersForSample `{!GoSort, !GoMapRange} (now : Z) (sampleID : string) (st : verify_store) : list PeerRow :=
  sort_slice (fun a b => pr_AnnouncedAt b <? pr_AnnouncedAt a)
    (List.filter (fun p => (now <? pr_ExpiresAt p) && str_in sampleID (pr_SampleIDs p)) (map snd (range_order (map_to_list (vs_peers st))))).

Definition ExpirePeers (now : Z) (st : verify_store) : verify_store * Z :=
  let kept := filter (fun x => now < pr_ExpiresAt (snd x)) (vs_peers st) in
  (set_peers kept st, Z.of_nat (size (vs_peers st)) - Z.of_nat (size kept)).

(** ** Pages of the queue *)

Lemma page_loop_eq ok limit offset eligible taken jobs : 0 <= eligible -> 0 <= taken < limit ->
  page_loop ok limit offset eligible taken jobs
  = firstn (Z.to_nat (limit - taken)) (skipn (Z.to_nat (offset - eligible)) (List.filter ok jobs)).
Proof.
  revert eligible taken. induction jobs as [|j jobs IH]; intros eligible taken Ee Et; simpl.
  { by rewrite skipn_nil, firstn_nil. }
  destruct (ok j); simpl; [|apply IH; lia]. destruct (Z.ltb_spec eligible offset) as [L|L].
  { rewrite IH by lia. replace (Z.to_nat (offset - eligible)) with (S (Z.to_nat (offset - (eligible + 1)))) by lia. done. }
  replace (Z.to_nat (offset - eligible)) with 0%nat by lia. destruct (Z.leb_spec limit (taken + 1)) as [M|M].
  { replace (Z.to_nat (limit - taken)) with 1%nat by lia. done. }
  replace (Z.to_nat (limit - taken)) with (S (Z.to_nat (limit - (taken + 1)))) by lia. cbn [skipn firstn]. f_equal.
  rewrite IH by lia. by replace (Z.to_nat (offset - (eligible + 1))) with 0%nat by lia.
Qed.

(** A page is the window of that size and position of the offered jobs. *)
Lemma open_jobs_page now capability peerID reason verifierOS limit offset st :
  OpenJobsPage now capability peerID reason verifierOS limit offset st
  = firstn (Z.to_nat (if limit <=? 0 then 10 else limit))
      (skipn (Z.to_nat offset) (List.filter (offered now capability peerID reason verifierOS st) (vs_jobs st))).
Proof.
  unfold OpenJobsPage. rewrite page_loop_eq; [|lia|destruct (Z.leb_spec limit 0); lia]. rewrite Z.sub_0_r.
  do 2 f_equal. destruct (Z.ltb_spec offset 0); lia.
Qed.

(** ** Operations of the queue *)

Inductive queue_op :=
| OpCreate (j : JobRow)
| OpEnsure (j : JobRow)
| OpClaim (id : Z) (peerID : string)
| OpRequirements (id : Z) (want : option WorkerRequirements) (status : string)
| OpComplete (id : Z)
| OpCompleteSample (sampleID peerID : string)
| OpReceipt (r : stored_receipt)
| OpReceiptForJob (r : stored_receipt) (id : Z)
| OpSaveSample (s : SampleRow) (m : option SampleManifest)
| OpStatus (sampleID status : string)
| OpQuarantine (sampleID : string) (on : bool) (reason : string).

Definition queue_step (now : Z) (op : queue_op) (st : verify_store) : verify_store :=
  match op with
  | OpCreate j => fst (CreateJob now j st)
  | OpEnsure j => match EnsureCrossJob now j st with Some (st', _) => st' | None => st end
  | OpClaim id p => fst (ClaimJob now id p st)
  | OpRequirements id want status => SetJobRequirements now id want status st
  | OpComplete id => CompleteJob id st
  | OpCompleteSample s p => CompleteJobsForSample s p st
  | OpReceipt r => SaveReceipt now r st
  | OpReceiptForJob r id => fst (SaveReceiptForJob now r id st)
  | OpSaveSample s m => SaveSample now s m st
  | OpStatus s status => default st (SetSampleStatus s status st)
  | OpQuarantine s on reason => default st (SetSampleQuarantine s on reason st)
  end.

(** What the server asks for: new and revised jobs are open or unsupported. *)
Definition served (op : queue_op) : Prop :=
  match op with
  | OpCreate j | OpEnsure j => In (j_Status j) [""; "open"; JobStatusUnsupported]
  | OpRequirements _ _ status => In status ["open"; JobStatusUnsupported]
  | _ => True
  end.

(** *** What an operation does to the jobs: new ones at the end, the others
    changed in place by one function that keeps their identity. *)

(** How the operations other than a claim may change a row. *)
Inductive job_change (now : Z) : JobRow -> JobRow -> Prop :=
| KeepJob j : job_change now j j
| FinishJob j : job_change now j (with_job_status "done" j)
| ReviseJob j want status : reviewable now j = true -> In status ["open"; JobStatusUnsupported] ->
    job_change now j (mkJob (j_ID j) (j_SampleID j) (j_Reason j) want status "" zero_time (j_CreatedAt j)).

Lemma update_first_change (R : JobRow -> JobRow -> Prop) p f jobs : (forall j, R j j) -> (forall j, p j = true -> R j (f j)) ->
  Forall2 R jobs (update_first p f jobs).
Proof.
  intros K H. induction jobs as [|j jobs IH]; simpl; [constructor|]. destruct (p j) eqn:E.
  - constructor; [auto|]. clear IH. induction jobs; constructor; auto.
  - constructor; auto.
Qed.

Lemma find_update_first p f jobs j : List.find p jobs = Some j ->
  exists l1 l2, jobs = (l1 ++ j :: l2)%list /\ update_first p f jobs = (l1 ++ f j :: l2)%list /\ p j = true.
Proof.
  induction jobs as [|x jobs IH]; [done|]. simpl. destruct (p x) eqn:E.
  - intros [= ->]. by exists [], jobs.
  - intros F. destruct (IH F) as (l1 & l2 & -> & -> & P). by exists (x :: l1), l2.
Qed.

Lemma map_change (R : JobRow -> JobRow -> Prop) f jobs : (forall j, R j (f j)) -> Forall2 R jobs (map f jobs).
Proof. intros H. induction jobs; constructor; auto. Qed.

Lemma keep_change (R : JobRow -> JobRow -> Prop) jobs : (forall j, R j j) -> Forall2 R jobs jobs.
Proof. intros H. induction jobs; constructor; auto. Qed.

(** A row that an operation adds. *)
Definition fresh_row (st : verify_store) (j : JobRow) : Prop :=
  j_ID j = vs_nextJobID st + 1 /\ In (j_Status j) ["open"; JobStatusUnsupported].

Inductive jobs_step (now : Z) (st st' : verify_store) : Prop :=
| InPlace : Forall2 (job_change now) (vs_jobs st) (vs_jobs st') -> vs_nextJobID st' = vs_nextJobID st -> jobs_step now st st'
| Added j : vs_jobs st' = (vs_jobs st ++ [j])%list -> fresh_row st j -> vs_nextJobID st' = vs_nextJobID st + 1 -> jobs_step now st st'
| Taken l1 j l2 p : vs_jobs st = (l1 ++ j :: l2)%list -> vs_jobs st' = (l1 ++ claimed_for now p j :: l2)%list ->
    claimable now j = true -> existsb (busy_elsewhere now p j) (vs_jobs st) = false -> vs_nextJobID st' = vs_nextJobID st ->
    jobs_step now st st'.

Lemma jobs_step_same now st st' : vs_jobs st' = vs_jobs st -> vs_nextJobID st' = vs_nextJobID st -> jobs_step now st st'.
Proof. intros J N. apply InPlace; [|done]. rewrite J. apply keep_change. constructor. Qed.

Lemma jobs_step_new now now' st j : In (j_Status j) [""; "open"; JobStatusUnsupported] -> jobs_step now st (fst (new_job now' j st)).
Proof.
  intros S. eapply Added; [reflexivity| |done]. split; [done|]. cbn [j_Status]. destruct (String.eqb_spec (j_Status j) ""); [by left|]. by destruct S.
Qed.

Lemma release_draft_jobs id st : vs_jobs (release_draft id st) = vs_jobs st /\ vs_nextJobID (release_draft id st) = vs_nextJobID st
  /\ vs_receipts (release_draft id st) = vs_receipts st.
Proof. unfold release_draft. destruct (_ !! _) as [s|]; [|done]. by destruct (_ && _). Qed.

Lemma receipt_for_job_true now r id st st' : SaveReceiptForJob now r id st = (st', true) ->
  exists j, Job id st = Some j /\ answers_job (sr_row r) j = true
  /\ has_receipt (rr_ReceiptID (sr_row r)) (receipts_of (rr_SampleID (sr_row r)) st) = false
  /\ vs_jobs st' = update_first (has_id id) (with_job_status "done") (vs_jobs st) /\ vs_nextJobID st' = vs_nextJobID st
  /\ vs_receipts st' = vs_receipts (append_receipt now r st).
Proof.
  unfold SaveReceiptForJob. destruct (Job id st) as [j|]; [|done]. destruct (answers_job _ j) eqn:A; [|done]. cbn [negb].
  destruct (has_receipt _ _) eqn:R; [done|]. intros [= <-]. exists j. repeat (split; [done|]).
  destruct (_ && _); [|by destruct (_ && _)]. edestruct release_draft_jobs as (-> & -> & ->). done.
Qed.

Lemma queue_step_jobs now op st : served op -> jobs_step now st (queue_step now op st).
Proof.
  destruct op as [j|j|id p|id want status|id|s p|r|r id|s m|s status|s on reason]; intros Sv; cbn [queue_step served] in *.
  - unfold CreateJob. destruct (if String.eqb (j_Reason j) _ then List.find _ _ else None) as [e|]; [by apply jobs_step_same|by apply jobs_step_new].
  - unfold EnsureCrossJob. destruct (_ || _); [by apply jobs_step_same|]. destruct (List.find _ _) as [e|]; [by apply jobs_step_same|].
    pose proof (jobs_step_new now now st j Sv) as N. by destruct (new_job now j st).
  - unfold ClaimJob. destruct (List.find _ _) as [j|] eqn:F; [|by apply jobs_step_same].
    destruct (existsb _ _) eqn:B; [by apply jobs_step_same|]. apply find_update_first with (f := claimed_for now p) in F as (l1 & l2 & J & U & E).
    apply andb_true_iff in E as [_ E]. by eapply Taken.
  - apply InPlace; [|done]. apply update_first_change; [constructor|]. intros j _.
    destruct (reviewable now j) eqn:E; [by constructor|constructor].
  - apply InPlace; [|done]. apply map_change. intros j. destruct (has_id id j); constructor.
  - apply InPlace; [|done]. apply map_change. intros j. destruct (_ || _); [constructor|]. destruct (_ && _); constructor.
  - apply jobs_step_same; unfold SaveReceipt; by destruct (has_receipt _ _).
  - destruct (SaveReceiptForJob now r id st) as [st' []] eqn:E; cbn [fst].
    + apply receipt_for_job_true in E as (j & _ & _ & _ & J & N & _). apply InPlace; [|done]. rewrite J.
      apply update_first_change; constructor.
    + apply jobs_step_same; unfold SaveReceiptForJob in E; destruct (Job id st) as [j|]; try (by injection E as <-);
        destruct (negb _); try (by injection E as <-); destruct (has_receipt _ _); try (by injection E as <-); done.
  - apply jobs_step_same; unfold SaveSample; done.
  - apply jobs_step_same; unfold SetSampleStatus; by destruct (vs_samples st !! s).
  - apply jobs_step_same; unfold SetSampleQuarantine; by destruct (vs_samples st !! s).
Qed.

(** *** The invariant of the queue *)

Definition claim_of (peerID sampleID : string) (j : JobRow) : Prop :=
  j_Status j = "claimed" /\ j_ClaimedBy j = peerID /\ j_SampleID j = sampleID /\ is_zero_time (j_ClaimedAt j) = false.

Record queue_wf (st : verify_store) : Prop := {
  qw_next : 0 <= vs_nextJobID st;
  qw_ids : NoDup (map j_ID (vs_jobs st));
  qw_range : Forall (fun j => 1 <= j_ID j <= vs_nextJobID st) (vs_jobs st);
  qw_status : Forall (fun j => In (j_Status j) ["open"; "claimed"; "done"; JobStatusUnsupported]) (vs_jobs st);
  qw_claims : forall a b p s, In a (vs_jobs st) -> In b (vs_jobs st) -> j_ID a <> j_ID b -> claim_of p s a -> claim_of p s b ->
    JobLease < Z.abs (j_ClaimedAt a - j_ClaimedAt b)
}.

Lemma job_change_id now a b : job_change now a b -> j_ID b = j_ID a.
Proof. by intros []. Qed.

Lemma job_change_status now a b : job_change now a b -> In (j_Status a) ["open"; "claimed"; "done"; JobStatusUnsupported] ->
  In (j_Status b) ["open"; "claimed"; "done"; JobStatusUnsupported].
Proof. intros C H; destruct C; [done|simpl; tauto|simpl in *; tauto]. Qed.

Lemma job_change_claimed now a b : job_change now a b -> j_Status b = "claimed" -> b = a.
Proof. intros [| |j want status R [<-|[<-|[]]]] E; [done|discriminate E..]. Qed.

Lemma ids_in_place now jobs jobs' : Forall2 (job_change now) jobs jobs' -> map j_ID jobs' = map j_ID jobs.
Proof. induction 1 as [|a b l l' C _ IH]; simpl; [done|]. by rewrite IH, (job_change_id _ _ _ C). Qed.

Lemma Forall_in_place (P : JobRow -> Prop) (R : JobRow -> JobRow -> Prop) jobs jobs' : Forall2 R jobs jobs' ->
  (forall a b, R a b -> P a -> P b) -> Forall P jobs -> Forall P jobs'.
Proof. intros F H. induction F as [|a b l l' C _ IH]; intros Pa; inversion Pa; constructor; eauto. Qed.

Lemma In_in_place (R : JobRow -> JobRow -> Prop) jobs jobs' b : Forall2 R jobs jobs' -> In b jobs' -> exists a, In a jobs /\ R a b.
Proof. induction 1 as [|x y l l' C _ IH]; [done|]. intros [<-|I]; [exists x; simpl; auto|]. destruct (IH I) as (a & I' & C'). exists a; simpl; auto. Qed.

Lemma not_busy now p j jobs o : existsb (busy_elsewhere now p j) jobs = false -> In o jobs -> j_ID o <> j_ID j ->
  claim_of p (j_SampleID j) o -> JobLease < now - j_ClaimedAt o.
Proof.
  intros B I N (S & P & M & Z0). destruct (Z_lt_le_dec JobLease (now - j_ClaimedAt o)) as [|L]; [done|]. exfalso.
  assert (T : existsb (busy_elsewhere now p j) jobs = true); [|congruence]. apply existsb_exists. exists o. split; [done|].
  unfold busy_elsewhere. rewrite S, P, M, Z0, !String.eqb_refl. apply Z.eqb_neq in N. rewrite N. simpl. lia.
Qed.

Lemma queue_wf_step now st st' : jobs_step now st st' -> queue_wf st -> queue_wf st'.
Proof.
  intros [F N|j J [Fi Fs] N|l1 j l2 p J J' C B N] [Wn Wi Wr Ws Wc].
  - split; rewrite ?N; [done|by rewrite (ids_in_place _ _ _ F)|..].
    + eapply Forall_in_place; [exact F| |exact Wr]. intros a b H. by rewrite (job_change_id _ _ _ H).
    + eapply Forall_in_place; [exact F| |exact Ws]. intros a b H. by eapply job_change_status.
    + intros a' b' q s Ia Ib D Ca Cb. apply (In_in_place _ _ _ _ F) in Ia as (a & Ia & Ha). apply (In_in_place _ _ _ _ F) in Ib as (b & Ib & Hb).
      apply job_change_claimed in Ha; [|apply Ca]. apply job_change_claimed in Hb; [|apply Cb]. subst. by eapply Wc.
  - split; rewrite ?N, ?J; [lia|..].
    + rewrite map_app. apply list.NoDup_app. split; [done|]. split; [|apply NoDup_singleton].
      intros i Ii Ij. apply list_elem_of_singleton in Ij as ->. apply list_elem_of_fmap in Ii as (x & E & Ix).
      rewrite List.Forall_forall in Wr. apply list_elem_of_In, Wr in Ix. lia.
    + apply Forall_app. split; [eapply List.Forall_impl; [|exact Wr]; simpl; intros; lia|]. constructor; [lia|constructor].
    + apply Forall_app. split; [done|]. constructor; [simpl in *; tauto|constructor].
    + assert (Nc : forall q s, ~ claim_of q s j) by (intros q s (S & _); rewrite S in Fs; destruct Fs as [Fs|[Fs|[]]]; discriminate Fs).
      intros a b q s Ia Ib D Ca Cb. apply in_app_iff in Ia as [Ia|[<-|[]]]; [|by edestruct Nc].
      apply in_app_iff in Ib as [Ib|[<-|[]]]; [|by edestruct Nc]. by eapply Wc.
  - assert (I : map j_ID (vs_jobs st') = map j_ID (vs_jobs st)) by (by rewrite J, J', !map_app).
    assert (Ij : In j (vs_jobs st)) by (rewrite J; apply in_elt).
    split; rewrite ?N; [done|by rewrite I|..].
    + rewrite J' in *. rewrite J in Wr. apply Forall_app in Wr as [W1 W2]. inversion W2. apply Forall_app. split; [done|]. by constructor.
    + rewrite J' in *. rewrite J in Ws. apply Forall_app in Ws as [W1 W2]. inversion W2. apply Forall_app. split; [done|]. constructor; [simpl; tauto|done].
    + assert (K : forall x, In x (vs_jobs st') -> x = claimed_for now p j \/ (In x (vs_jobs st) /\ j_ID x <> j_ID j)).
      { intros x Ix. rewrite J' in Ix. rewrite J, map_app in Wi. apply list.NoDup_app in Wi as (_ & D1 & D2). cbn [map] in D1, D2.
        apply list.NoDup_cons in D2 as [D2 _]. rewrite J. apply in_app_iff in Ix as [Ix|[<-|Ix]]; [right|by left|right].
        - split; [apply in_app_iff; by left|]. intros E. apply (D1 (j_ID x)); [apply list_elem_of_In; by apply in_map|rewrite E; left].
        - split; [apply in_app_iff; right; by right|]. intros E. apply D2. rewrite <- E. apply list_elem_of_In. by apply in_map. }
      intros a b q s Ia Ib D Ca Cb. apply K in Ia as [->|[Ia Na]], Ib as [->|[Ib Nb]].
      * done.
      * destruct Ca as (_ & Eq & Es & _). cbn in Eq, Es. subst. pose proof (not_busy _ _ _ _ _ B Ib Nb Cb). cbn. lia.
      * destruct Cb as (_ & Eq & Es & _). cbn in Eq, Es. subst. pose proof (not_busy _ _ _ _ _ B Ia Na Ca). cbn. lia.
      * by eapply Wc.
Qed.

(** *** Runs *)

Definition queue_run (st : verify_store) (ops : list (Z * queue_op)) : verify_store :=
  fold_left (fun st x => queue_step (fst x) (snd x) st) ops st.

Lemma queue_run_wf ops st : Forall (fun x => served (snd x)) ops -> queue_wf st -> queue_wf (queue_run st ops).
Proof.
  revert st. induction ops as [|[now op] ops IH]; intros st Sv W; [done|]. inversion Sv; subst. apply IH; [done|].
  eapply queue_wf_step; [|exact W]. by apply queue_step_jobs.
Qed.

Lemma new_queue_wf : queue_wf new_verify_store.
Proof. split; simpl; try done; constructor. Qed.

(** Whatever the operations and their clocks, the queue keeps distinct ids,
    and a peer never holds two live claims on one sample: at no instant are
    two of its claims both within their lease. *)
Theorem one_live_claim_per_peer ops st now a b p s : Forall (fun x => served (snd x)) ops ->
  st = queue_run new_verify_store ops -> In a (vs_jobs st) -> In b (vs_jobs st) ->
  claim_of p s a -> claim_of p s b -> 0 <= now - j_ClaimedAt a <= JobLease -> 0 <= now - j_ClaimedAt b <= JobLease -> a = b.
Proof.
  intros Sv -> Ia Ib Ca Cb La Lb. destruct (queue_run_wf ops _ Sv new_queue_wf) as [_ Wi _ _ Wc].
  destruct (Z.eq_dec (j_ID a) (j_ID b)) as [E|E]; [|specialize (Wc a b p s Ia Ib E Ca Cb); lia].
  apply list_elem_of_In in Ia, Ib. apply list_elem_of_lookup in Ia as [i Hi], Ib as [k Hk].
  assert (i = k) as ->; [|congruence]. eapply NoDup_lookup; [exact Wi|..]; rewrite list_lookup_fmap; [by rewrite Hi|rewrite Hk; simpl; by rewrite E].
Qed.

(** *** What an operation cannot undo *)

Definition job_done (id : Z) (st : verify_store) : Prop := exists j, Job id st = Some j /\ j_Status j = "done".
Definition holds_receipt (x : string * string) (st : verify_store) : Prop := has_receipt (snd x) (receipts_of (fst x) st) = true.

Lemma done_kept now a b : job_change now a b -> j_Status a = "done" -> j_Status b = "done".
Proof. intros C D. destruct C as [| |j want status R _]; [done..|]. unfold reviewable in R. by rewrite D in R. Qed.

Lemma find_in_place now id jobs jobs' j : Forall2 (job_change now) jobs jobs' -> List.find (has_id id) jobs = Some j ->
  exists j', List.find (has_id id) jobs' = Some j' /\ job_change now j j'.
Proof.
  induction 1 as [|a b l l' C _ IH]; [done|]. simpl. unfold has_id in *. rewrite (job_change_id _ _ _ C).
  destruct (j_ID a =? id); [|done]. intros [= <-]. by exists b.
Qed.

Lemma find_app_found {A} (p : A -> bool) l k x : List.find p l = Some x -> List.find p (l ++ k)%list = Some x.
Proof. induction l as [|y l IH]; [done|]. simpl. by destruct (p y). Qed.

Lemma find_replaced {A} (p : A -> bool) l1 l2 x y z : p y = p x -> List.find p (l1 ++ x :: l2)%list = Some z ->
  List.find p (l1 ++ y :: l2)%list = Some z \/ (z = x /\ List.find p (l1 ++ y :: l2)%list = Some y).
Proof.
  intros E. induction l1 as [|w l1 IH]; simpl; [rewrite E; destruct (p x)|destruct (p w)]; auto. intros [= <-]. auto.
Qed.

Lemma job_done_step now st st' id : jobs_step now st st' -> job_done id st -> job_done id st'.
Proof.
  unfold job_done, Job. intros [F _|n J _ _|l1 x l2 p J J' C _ _] (j & Fj & D).
  - destruct (find_in_place _ _ _ _ _ F Fj) as (j' & Fj' & H). exists j'. split; [done|]. by eapply done_kept.
  - exists j. split; [|done]. rewrite J. by apply find_app_found.
  - rewrite J in Fj. rewrite J'. destruct (find_replaced (has_id id) l1 l2 x (claimed_for now p x) j) as [E|[-> E]]; [done..|by exists j|].
    unfold claimable, claim_expired in C. by rewrite D in C.
Qed.

Lemma receipts_append now r st s : receipts_of s (append_receipt now r st)
  = if String.eqb s (rr_SampleID (sr_row r)) then (receipts_of s st ++ [stamped now r])%list else receipts_of s st.
Proof.
  unfold append_receipt, receipts_of. cbn [set_receipts vs_receipts]. destruct (String.eqb_spec s (rr_SampleID (sr_row r))) as [->|N].
  - by rewrite lookup_insert_eq.
  - by rewrite lookup_insert_ne by congruence.
Qed.

(** A signed receipt is never changed or removed. *)
Lemma receipts_grow now op st s : exists extra, receipts_of s (queue_step now op st) = (receipts_of s st ++ extra)%list.
Proof.
  assert (K : forall st', vs_receipts st' = vs_receipts st -> exists extra, receipts_of s st' = (receipts_of s st ++ extra)%list).
  { intros st' E. exists []. unfold receipts_of. by rewrite E, app_nil_r. }
  assert (P : forall r st', vs_receipts st' = vs_receipts (append_receipt now r st) -> exists extra, receipts_of s st' = (receipts_of s st ++ extra)%list).
  { intros r st' E. pose proof (receipts_append now r st s) as A. unfold receipts_of in A at 1. rewrite <- E in A. unfold receipts_of at 1. rewrite A.
    destruct (String.eqb _ _); [by eexists|]. exists []. by rewrite app_nil_r. }
  destruct op as [j|j|id p|id want status|id|x p|r|r id|x m|x status|x on reason]; cbn [queue_step]; try (by apply K).
  - apply K. unfold CreateJob. by destruct (if String.eqb (j_Reason j) _ then List.find _ _ else None).
  - apply K. unfold EnsureCrossJob. destruct (_ || _); [done|]. by destruct (List.find _ _).
  - apply K. unfold ClaimJob. destruct (List.find _ _); [|done]. by destruct (existsb _ _).
  - unfold SaveReceipt. destruct (has_receipt _ _); [by apply K|by eapply P].
  - destruct (SaveReceiptForJob now r id st) as [st' []] eqn:E; cbn [fst].
    + apply receipt_for_job_true in E as (_ & _ & _ & _ & _ & _ & E). by eapply P.
    + apply K. unfold SaveReceiptForJob in E. destruct (Job id st); [|by injection E as <-]. destruct (negb _); [by injection E as <-|].
      destruct (has_receipt _ _); [by injection E as <-|done].
  - apply K. unfold SetSampleStatus. by destruct (vs_samples st !! x).
  - apply K. unfold SetSampleQuarantine. by destruct (vs_samples st !! x).
Qed.

Lemma holds_receipt_step now op st x : holds_receipt x st -> holds_receipt x (queue_step now op st).
Proof.
  unfold holds_receipt, has_receipt. destruct (receipts_grow now op st (fst x)) as [extra ->]. rewrite existsb_app. intros ->. done.
Qed.

(** *** Receipts and jobs pair up *)

(** The jobs answered in a run, each with the sample and id of its receipt. *)
Definition answered (now : Z) (op : queue_op) (st : verify_store) : list (Z * (string * string)) :=
  match op with
  | OpReceiptForJob r id =>
      if snd (SaveReceiptForJob now r id st) then [(id, (rr_SampleID (sr_row r), rr_ReceiptID (sr_row r)))] else []
  | _ => []
  end.

Fixpoint queue_log (st : verify_store) (ops : list (Z * queue_op)) : list (Z * (string * string)) :=
  match ops with
  | [] => []
  | (now, op) :: ops' => (answered now op st ++ queue_log (queue_step now op st) ops')%list
  end.

Lemma answered_facts now op st e : In e (answered now op st) ->
  ~ job_done (fst e) st /\ ~ holds_receipt (snd e) st
  /\ job_done (fst e) (queue_step now op st) /\ holds_receipt (snd e) (queue_step now op st).
Proof.
  destruct op as [| | | | | | |r id| | |]; try done. cbn [answered queue_step]. destruct (SaveReceiptForJob now r id st) as [st' []] eqn:E; [|done].
  cbn [fst snd]. intros [<-|[]]. apply receipt_for_job_true in E as (j & J & A & R & Jobs & _ & Rs). unfold holds_receipt, job_done. cbn [fst snd].
  split; [|split; [by rewrite R|split]].
  - intros (j' & J' & D). rewrite J in J'. injection J' as <-. unfold answers_job in A. by rewrite D in A.
  - exists (with_job_status "done" j). split; [|done]. unfold Job in *. rewrite Jobs.
    clear -J. induction (vs_jobs st) as [|x xs IH]; [done|]. cbn [List.find update_first] in *. destruct (has_id id x) eqn:E.
    + injection J as ->. cbn [List.find]. unfold has_id in *. cbn [with_job_status j_ID]. by rewrite E.
    + cbn [List.find]. rewrite E. by apply IH.
  - pose proof (receipts_append now r st (rr_SampleID (sr_row r))) as P. rewrite String.eqb_refl in P. unfold receipts_of at 1. rewrite Rs.
    unfold receipts_of at 1 in P. rewrite P. unfold has_receipt. rewrite existsb_app. cbn [existsb]. unfold stamped.
    destruct (is_zero_time _); cbn; rewrite String.eqb_refl; by rewrite !orb_true_r.
Qed.

Lemma answered_short now op st : (length (answered now op st) <= 1)%nat.
Proof. destruct op; simpl; try lia. destruct (snd _); simpl; lia. Qed.

Lemma log_fresh ops st e : Forall (fun x => served (snd x)) ops -> In e (queue_log st ops) ->
  ~ job_done (fst e) st /\ ~ holds_receipt (snd e) st.
Proof.
  revert st. induction ops as [|[now op] ops IH]; intros st Sv; [done|]. inversion Sv as [|? ? S1 S2]; subst. cbn [queue_log].
  rewrite in_app_iff. intros [I|I]; [apply answered_facts in I; tauto|]. destruct (IH _ S2 I) as [D H]. split; intros C.
  - apply D. eapply job_done_step; [|exact C]. by apply queue_step_jobs.
  - apply H. by apply holds_receipt_step.
Qed.

(** C21.  Over any run, a job is answered by at most one receipt and a receipt
    answers at most one job. *)
Theorem receipts_and_jobs_pair_up ops : Forall (fun x => served (snd x)) ops ->
  NoDup (map fst (queue_log new_verify_store ops)) /\ NoDup (map snd (queue_log new_verify_store ops)).
Proof.
  generalize new_verify_store as st. induction ops as [|[now op] ops IH]; intros st Sv; [by split; constructor|].
  inversion Sv as [|? ? S1 S2]; subst. cbn [queue_log]. destruct (IH (queue_step now op st) S2) as [N1 N2].
  pose proof (answered_short now op st) as L. pose proof (answered_facts now op st) as A.
  destruct (answered now op st) as [|e [|]]; [done| |simpl in L; lia]. destruct (A e (or_introl eq_refl)) as (_ & _ & D & H).
  split; cbn [app map]; apply list.NoDup_cons; (split; [|done]); rewrite list_elem_of_In, in_map_iff; intros (x & E & I);
    destruct (log_fresh _ _ _ S2 I) as [D' H']; rewrite E in *; done.
Qed.

(** *** A claim excludes others for its lease *)

Definition held (t id : Z) (st : verify_store) : Prop :=
  id <= vs_nextJobID st /\ forall j, In j (vs_jobs st) -> j_ID j = id ->
    j_Status j = "done" \/ (j_Status j = "claimed" /\ j_ClaimedAt j = t).

Lemma held_not_claimable t id st now j : is_zero_time t = false -> now - t <= JobLease -> held t id st ->
  In j (vs_jobs st) -> j_ID j = id -> claimable now j = false /\ reviewable now j = false.
Proof.
  intros T L [_ H] I E. unfold claimable, reviewable, claim_expired. destruct (H j I E) as [->|[-> ->]]; [done|]. rewrite T. simpl. lia.
Qed.

Lemma held_step now t id st st' : is_zero_time t = false -> now - t <= JobLease -> jobs_step now st st' -> held t id st -> held t id st'.
Proof.
  intros T L S Hd. pose proof Hd as [B H]. destruct S as [F N|n J [Fi _] N|l1 x l2 p J J' C _ N]; (split; [lia|]); intros j I E.
  - destruct (In_in_place _ _ _ _ F I) as (a & Ia & Ch). pose proof (job_change_id _ _ _ Ch) as Ei.
    destruct (held_not_claimable t id st now a T L Hd Ia) as [_ R]; [congruence|].
    destruct Ch as [a| |a want status R' _]; [by apply H|by left|congruence].
  - rewrite J in I. apply in_app_iff in I as [I|[<-|[]]]; [by apply H|lia].
  - assert (Ix : In x (vs_jobs st)) by (rewrite J; apply in_elt). rewrite J' in I. apply in_app_iff in I as [I|[<-|I]].
    + apply H; [|done]. rewrite J. apply in_app_iff. by left.
    + destruct (held_not_claimable t id st now x T L Hd Ix) as [K _]; [done|congruence].
    + apply H; [|done]. rewrite J. apply in_app_iff. right. by right.
Qed.

Lemma claim_holds t id p st st1 : queue_wf st -> ClaimJob t id p st = (st1, true) -> held t id st1.
Proof.
  intros W. unfold ClaimJob. destruct (List.find _ _) as [j|] eqn:F; [|done]. destruct (existsb _ _); [done|]. intros [= <-].
  apply find_update_first with (f := claimed_for t p) in F as (l1 & l2 & J & U & E). apply andb_true_iff in E as [E _].
  assert (Ej : j_ID j = id) by (unfold has_id in E; lia). assert (Ij : In j (vs_jobs st)) by (rewrite J; apply in_elt).
  destruct W as [_ Wi Wr _ _]. split; [rewrite List.Forall_forall in Wr; specialize (Wr j Ij); simpl in *; lia|].
  cbn [set_jobs vs_jobs]. rewrite U. rewrite J, map_app in Wi. apply list.NoDup_app in Wi as (_ & D1 & D2). cbn [map] in D1, D2.
  apply list.NoDup_cons in D2 as [D2 _]. intros x I Ex. apply in_app_iff in I as [I|[<-|I]].
  - exfalso. apply (D1 (j_ID x)); [apply list_elem_of_In; by apply in_map|]. rewrite Ex, Ej. left.
  - by right.
  - exfalso. apply D2. rewrite Ej, <- Ex. apply list_elem_of_In. by apply in_map.
Qed.

(** C20.  From the moment a claim succeeds until its lease runs out, whatever else
    happens, nobody else's claim of that job succeeds. *)
Theorem claim_is_exclusive ops t id p st1 later now q :
  Forall (fun x => served (snd x)) ops -> Forall (fun x => served (snd x)) later ->
  ClaimJob t id p (queue_run new_verify_store ops) = (st1, true) -> is_zero_time t = false ->
  Forall (fun x => fst x <= t + JobLease) later -> now <= t + JobLease ->
  ClaimJob now id q (queue_run st1 later) = (queue_run st1 later, false).
Proof.
  intros S1 S2 C T Cl Ln. assert (Hd : held t id (queue_run st1 later)).
  { pose proof (claim_holds _ _ _ _ _ (queue_run_wf ops _ S1 new_queue_wf) C) as Hd. clear C S1. revert st1 Hd.
    induction later as [|[n op] later IH]; intros st1 Hd; [done|]. inversion S2; inversion Cl; subst. simpl in *. apply IH; [done..|].
    eapply held_step; [exact T| |by apply queue_step_jobs|exact Hd]. lia. }
  unfold ClaimJob. destruct (List.find _ _) as [j|] eqn:F; [|done]. exfalso. apply find_some in F as [I E].
  apply andb_true_iff in E as [E K]. destruct (held_not_claimable t id _ now j T ltac:(lia) Hd I) as [K' _]; [unfold has_id in E; lia|congruence].
Qed.

Definition cross_job : JobRow := mkJob 0 "s" "cross" None "open" "" zero_time zero_time.
Definition peer_receipt (peer : string) : stored_receipt :=
  mkStoredReceipt (mkReceiptRow ("r-" +:+ peer) "s" peer "" "" "PASS" zero_time) None.
Definition answered_run : list (Z * queue_op) := [(0, OpCreate cross_job); (1, OpClaim 1 "p"); (2, OpReceiptForJob (peer_receipt "p") 1)].

Lemma receipts_and_jobs_pair_up_witness :
  queue_log new_verify_store answered_run = [(1, ("s", "r-p"))]
  /\ NoDup (map fst (queue_log new_verify_store answered_run)) /\ NoDup (map snd (queue_log new_verify_store answered_run)).
Proof. split; [vm_compute; reflexivity|]. apply receipts_and_jobs_pair_up. repeat (constructor; [cbn; auto|]). constructor. Defined.

(** A claim at second one: a second peer is refused until the lease is over. *)
Lemma claim_is_exclusive_witness :
  let st1 := fst (ClaimJob 1 1 "p" (queue_run new_verify_store [(0, OpCreate cross_job)])) in
  let later := [(2, OpEnsure cross_job); (3, OpReceipt (peer_receipt "q"))] in
  ClaimJob (1 + JobLease) 1 "q" (queue_run st1 later) = (queue_run st1 later, false).
Proof.
  cbv zeta. refine (claim_is_exclusive [(0, OpCreate cross_job)] 1 1 "p" _ _ (1 + JobLease) "q" _ _ _ _ _ _).
  - repeat (constructor; [cbn; auto|]). constructor.
  - repeat (constructor; [cbn; auto|]). constructor.
  - vm_compute. reflexivity.
  - reflexivity.
  - repeat constructor; vm_compute; discriminate.
  - reflexivity.
Defined.
