(* ===== verification/Ledger.v ===== *)
(** * The authoring attempt ledger (internal/serverstore/authoring_quarantine.go)

    A bounded memory of what happened when a coordinate was handed to a writer
    of samples, and the rule that stops offering one that keeps producing
    nothing.  Both stores keep this state and apply these transitions.  The
    fields of [authoringAxisLedger] are grouped into records by what changes
    them; a map to true is the set of its keys, and a map that is nil is
    empty, so [ensure] is the identity. *)

From stdpp Require Import gmap.
From S2P Require Import Prelude GoStrings GoUnicode GoStd StringFacts WordFacts Calendar Purl Env Targets Validate.

#[local] Open Scope csx_scope.

(** ** Thresholds *)

Definition millisecond : Z := 1000000.
Definition minute : Z := 60 * 1000000000.
Definition AuthoringMaxSessionHandouts : Z := 3.
Definition AuthoringSessionHandoutCooldown : Z := 24 * 60 * minute.
Definition AuthoringNoOutputQuarantine : Z := 6.
Definition AuthoringNoSymbolQuarantine : nat := 2.
Definition AuthoringUnsupportedQuarantine : nat := 2.
Definition AuthoringExcusedAttempts : Z := 4.
Definition AuthoringSessionRefunds : Z := 1.
Definition AuthoringHistoryDepth : nat := 10.
Definition authoringMaxTrackedSessions : nat := 64.
Definition authoringMaxDetailBytes : Z := 240.
Definition AuthoringAttemptSlotLimit : Z := 50 * minute.
Definition AuthoringEpisodeDispatchBudget : Z := 120 * minute.
Definition AuthoringEpisodeSlotLimit : Z := AuthoringEpisodeDispatchBudget + AuthoringAttemptSlotLimit.
Definition AuthoringAttemptDebounce : Z := 5 * minute.
Definition AuthoringQuarantineCooldown : Z := 30 * 24 * 60 * minute.

Definition AuthoringAxisSample : string := "SAMPLE".
Definition AuthoringAxisEvidence : string := "EVIDENCE".
Definition AuthoringAxisDependency : string := "DEPENDENCY".
Definition normalizeAuthoringAxis (axis : string) : string :=
  if str_in axis [AuthoringAxisEvidence; AuthoringAxisDependency] then axis else AuthoringAxisSample.

(** [AuthoringOutcome]. *)
Inductive AuthoringOutcome := HandedOut | AuthoredOutcome | Infrastructure | Transient | NoCallableSymbol | UnsupportedEnvironment | NoOutputOutcome.
#[export] Instance outcome_eq : EqDecision AuthoringOutcome.
Proof. solve_decision. Defined.

Definition authoring_outcome (s : string) : option AuthoringOutcome :=
  assoc s [("HANDED_OUT", HandedOut); ("AUTHORED", AuthoredOutcome); ("INFRASTRUCTURE", Infrastructure); ("TRANSIENT", Transient);
           ("NO_CALLABLE_SYMBOL", NoCallableSymbol); ("UNSUPPORTED_ENVIRONMENT", UnsupportedEnvironment); ("NO_OUTPUT", NoOutputOutcome)].
Definition ValidAuthoringOutcome (o : AuthoringOutcome) : bool := match o with HandedOut | AuthoredOutcome => false | _ => true end.

(** The withholding reasons; the empty string of a fresh gate is [NoReason]. *)
Inductive AuthoringReason := NoReason | ReasonNoCallableSymbol | ReasonUnsupportedEnvironment | ReasonNoOutput | ReasonSlotBudget.

(** ** State *)

Record AuthoringAttempt := mkAttempt {
  at_At : Z; at_Kind : string; at_Axis : string; at_SessionID : string; at_PeerID : string; at_Outcome : AuthoringOutcome; at_Detail : string }.

(** What belongs to the coordinate: a saved gate keeps stale totals and no
    history. *)
Record attempt_totals := mkTotals { tt_Attempts : Z; tt_Authored : Z; tt_FirstAttemptAt : Z; tt_LastAttemptAt : Z; tt_History : list AuthoringAttempt }.
(** The slot time of the current episode. *)
Record slot_time := mkSlot { sl_EpisodeSlotMillis : Z; sl_BudgetStartedAt : Z; sl_OpenAttemptAt : Z; sl_OpenAttemptSessionID : string }.
Record withholding := mkHold { wh_QuarantinedAt : Z; wh_QuarantineReason : AuthoringReason; wh_ReopensAt : Z }.
(** What is counted per writer. *)
Record writer_counts := mkWriters {
  wc_SessionHandouts : gmap string Z; wc_SessionHandoutAt : gmap string Z; wc_SessionExclusions : gset string; wc_SessionRefunds : gmap string Z }.
(** What peers measured. *)
Record peer_evidence := mkPeerEvidence {
  pe_NoSymbolBy : gset string; pe_UnsupportedBy : gset string; pe_Impossible : Z; pe_Unsupported : Z; pe_EvidenceIdentity : string }.

(** [authoringAxisLedger] with the [AuthoringAttemptState] it embeds. *)
Record authoringAxisLedger := mkGate {
  g_Kind : string; g_Axis : string; g_NoOutput : Z; g_Excused : Z; g_HistoryGateResetAt : Z;
  g_totals : attempt_totals; g_slot : slot_time; g_hold : withholding; g_writers : writer_counts; g_evidence : peer_evidence }.

Record authoringLedger := mkLedger { l_Coordinate : string * string * string * string; l_gate : authoringAxisLedger; l_Axes : gmap string authoringAxisLedger }.

Definition no_totals : attempt_totals := mkTotals 0 0 zero_time zero_time [].
Definition no_slot : slot_time := mkSlot 0 zero_time zero_time "".
Definition no_hold : withholding := mkHold zero_time NoReason zero_time.
Definition no_writers : writer_counts := mkWriters ∅ ∅ ∅ ∅.
Definition no_evidence (identity : string) : peer_evidence := mkPeerEvidence ∅ ∅ 0 0 identity.
Definition new_gate : authoringAxisLedger := mkGate "" "" 0 0 zero_time no_totals no_slot no_hold no_writers (no_evidence "").
Definition newAuthoringLedger (k : string * string * string * string) : authoringLedger := mkLedger k new_gate ∅.

Definition set_totals t g := mkGate (g_Kind g) (g_Axis g) (g_NoOutput g) (g_Excused g) (g_HistoryGateResetAt g) t (g_slot g) (g_hold g) (g_writers g) (g_evidence g).
Definition set_slot s g := mkGate (g_Kind g) (g_Axis g) (g_NoOutput g) (g_Excused g) (g_HistoryGateResetAt g) (g_totals g) s (g_hold g) (g_writers g) (g_evidence g).
Definition set_hold h g := mkGate (g_Kind g) (g_Axis g) (g_NoOutput g) (g_Excused g) (g_HistoryGateResetAt g) (g_totals g) (g_slot g) h (g_writers g) (g_evidence g).
Definition set_writers w g := mkGate (g_Kind g) (g_Axis g) (g_NoOutput g) (g_Excused g) (g_HistoryGateResetAt g) (g_totals g) (g_slot g) (g_hold g) w (g_evidence g).
Definition set_evidence e g := mkGate (g_Kind g) (g_Axis g) (g_NoOutput g) (g_Excused g) (g_HistoryGateResetAt g) (g_totals g) (g_slot g) (g_hold g) (g_writers g) e.
Definition set_counts n x g := mkGate (g_Kind g) (g_Axis g) n x (g_HistoryGateResetAt g) (g_totals g) (g_slot g) (g_hold g) (g_writers g) (g_evidence g).
Definition set_kind k g := mkGate k (g_Axis g) (g_NoOutput g) (g_Excused g) (g_HistoryGateResetAt g) (g_totals g) (g_slot g) (g_hold g) (g_writers g) (g_evidence g).
Definition set_axis a g := mkGate (g_Kind g) a (g_NoOutput g) (g_Excused g) (g_HistoryGateResetAt g) (g_totals g) (g_slot g) (g_hold g) (g_writers g) (g_evidence g).
Definition set_gate g l := mkLedger (l_Coordinate l) g (l_Axes l).

(** ** The gate *)

Definition Withheld (now : Z) (g : authoringAxisLedger) : bool :=
  let h := g_hold g in
  if is_zero_time (wh_QuarantinedAt h) then false else if is_zero_time (wh_ReopensAt h) then true else now <? wh_ReopensAt h.

Definition episodeSlotTime (now : Z) (g : authoringAxisLedger) : Z :=
  let s := g_slot g in
  let spent := wrap64 (sl_EpisodeSlotMillis s * millisecond) in
  if negb (is_zero_time (sl_OpenAttemptAt s)) && (sl_OpenAttemptAt s <? now)
  then wrap64 (spent + Z.min (now - sl_OpenAttemptAt s) AuthoringAttemptSlotLimit) else spent.

Definition startBudget (now : Z) (g : authoringAxisLedger) : authoringAxisLedger :=
  if negb (is_zero_time (sl_BudgetStartedAt (g_slot g))) then g else set_slot (mkSlot 0 now zero_time "") g.

(** [(elapsed + time.Millisecond - 1).Milliseconds()], which rounds up. *)
Definition charged_millis (elapsed : Z) : Z := Z.quot (elapsed + millisecond - 1) millisecond.

Definition settleOpenAttempt (now : Z) (g : authoringAxisLedger) : authoringAxisLedger :=
  let s := g_slot g in
  if is_zero_time (sl_OpenAttemptAt s) then g
  else
    let elapsed := now - sl_OpenAttemptAt s in
    let elapsed := if elapsed <? 0 then 0 else elapsed in
    let elapsed := Z.min elapsed AuthoringAttemptSlotLimit in
    set_slot (mkSlot (if 0 <? elapsed then wrap64 (sl_EpisodeSlotMillis s + charged_millis elapsed) else sl_EpisodeSlotMillis s)
                (sl_BudgetStartedAt s) zero_time "") g.

Definition withhold (now : Z) (why : AuthoringReason) (reopens : Z) (g : authoringAxisLedger) : authoringAxisLedger := set_hold (mkHold now why reopens) g.

Definition clearGates (now : Z) (g : authoringAxisLedger) : authoringAxisLedger :=
  mkGate (g_Kind g) (g_Axis g) 0 0 now (g_totals g) no_slot no_hold no_writers (no_evidence "peer-v1").

Definition evaluate (now : Z) (g : authoringAxisLedger) : authoringAxisLedger :=
  if negb (is_zero_time (wh_QuarantinedAt (g_hold g))) then g
  else if Nat.leb AuthoringNoSymbolQuarantine (size (pe_NoSymbolBy (g_evidence g))) then withhold now ReasonNoCallableSymbol zero_time g
  else if Nat.leb AuthoringUnsupportedQuarantine (size (pe_UnsupportedBy (g_evidence g))) then withhold now ReasonUnsupportedEnvironment zero_time g
  else if AuthoringEpisodeDispatchBudget <=? episodeSlotTime now g then withhold now ReasonSlotBudget (now + AuthoringQuarantineCooldown) g
  else if AuthoringNoOutputQuarantine <=? g_NoOutput g then withhold now ReasonNoOutput (now + AuthoringQuarantineCooldown) g
  else g.

(** The last ten attempts. *)
Definition keep_last {A} (n : nat) (l : list A) : list A := skipn (length l - n) l.
Definition push (entry : AuthoringAttempt) (g : authoringAxisLedger) : authoringAxisLedger :=
  let t := g_totals g in
  set_totals (mkTotals (tt_Attempts t) (tt_Authored t) (tt_FirstAttemptAt t) (tt_LastAttemptAt t) (keep_last AuthoringHistoryDepth (tt_History t ++ [entry]))) g.

Definition clampAuthoringDetail (detail : string) : string :=
  let detail := TrimSpace detail in if authoringMaxDetailBytes <? str_len detail then str_take (Z.to_nat authoringMaxDetailBytes) detail else detail.

(** ** The ledger *)

Definition active_axis (l : authoringLedger) : string := normalizeAuthoringAxis (g_Axis (l_gate l)).

Definition axisGate (axis : string) (l : authoringLedger) : option authoringAxisLedger :=
  if String.eqb (active_axis l) (normalizeAuthoringAxis axis) then Some (l_gate l) else l_Axes l !! normalizeAuthoringAxis axis.

(** A terminal report of this writer that the bounded history still holds. *)
Definition reported_terminal (axis sessionID : string) (g : authoringAxisLedger) : bool :=
  existsb (fun a => (g_HistoryGateResetAt g <? at_At a) && String.eqb (at_SessionID a) sessionID
                    && String.eqb (normalizeAuthoringAxis (at_Axis a)) (normalizeAuthoringAxis axis)
                    && (bool_decide (at_Outcome a = NoCallableSymbol) || bool_decide (at_Outcome a = UnsupportedEnvironment)))
    (rev (tt_History (g_totals g))).

(** When the writer was last handed this work; an older ledger dates it by its
    last attempt. *)
Definition last_handout (sessionID : string) (g : authoringAxisLedger) : Z :=
  let last := default zero_time (wc_SessionHandoutAt (g_writers g) !! sessionID) in
  if is_zero_time last then tt_LastAttemptAt (g_totals g) else last.
Definition handout_cooled (sessionID : string) (now : Z) (g : authoringAxisLedger) : bool :=
  negb (is_zero_time (last_handout sessionID g)) && negb (now <? last_handout sessionID g + AuthoringSessionHandoutCooldown).

Definition gate_barred (axis sessionID : string) (now : Z) (g : authoringAxisLedger) : bool :=
  if negb (is_zero_time (wh_QuarantinedAt (g_hold g))) then Withheld now g
  else if AuthoringEpisodeDispatchBudget <=? episodeSlotTime now g then true
  else if bool_decide (sessionID ∈ wc_SessionExclusions (g_writers g)) || bool_decide (sessionID ∈ pe_NoSymbolBy (g_evidence g))
          || bool_decide (sessionID ∈ pe_UnsupportedBy (g_evidence g)) then true
  else if reported_terminal axis sessionID g then true
  else if handout_cooled sessionID now g then false
  else AuthoringMaxSessionHandouts <=? default 0 (wc_SessionHandouts (g_writers g) !! sessionID).

Definition barred (axis sessionID : string) (now : Z) (l : authoringLedger) : bool :=
  match axisGate axis l with Some g => gate_barred axis sessionID now g | None => false end.

Definition exhausted (now : Z) (g : authoringAxisLedger) : bool :=
  is_zero_time (wh_QuarantinedAt (g_hold g)) && (AuthoringEpisodeDispatchBudget <=? episodeSlotTime now g).
Definition reconcile_gate (now : Z) (g : authoringAxisLedger) : authoringAxisLedger :=
  if exhausted now g then withhold now ReasonSlotBudget (now + AuthoringQuarantineCooldown) (settleOpenAttempt now g) else g.
Definition reconcileBudget (axis : string) (now : Z) (l : authoringLedger) : authoringLedger :=
  if String.eqb (active_axis l) (normalizeAuthoringAxis axis) then set_gate (reconcile_gate now (l_gate l)) l
  else mkLedger (l_Coordinate l) (l_gate l) (alter (reconcile_gate now) (normalizeAuthoringAxis axis) (l_Axes l)).

Definition without_history (g : authoringAxisLedger) : authoringAxisLedger :=
  let t := g_totals g in set_totals (mkTotals (tt_Attempts t) (tt_Authored t) (tt_FirstAttemptAt t) (tt_LastAttemptAt t) []) g.

Definition selectAxis (axis : string) (l : authoringLedger) : authoringLedger :=
  let axis := normalizeAuthoringAxis axis in
  if String.eqb (active_axis l) axis then set_gate (set_axis axis (l_gate l)) l
  else
    let previous := l_gate l in
    let axes := <[active_axis l := without_history previous]> (l_Axes l) in
    let next := default new_gate (axes !! axis) in
    mkLedger (l_Coordinate l) (set_totals (g_totals previous) (set_axis axis next)) (delete axis axes).

(** The writer's counts start again a day after its last handout. *)
Definition cool_writer (sessionID : string) (now : Z) (g : authoringAxisLedger) : authoringAxisLedger :=
  let w := g_writers g in
  if handout_cooled sessionID now g
  then set_writers (mkWriters (<[sessionID := 0]> (wc_SessionHandouts w)) (wc_SessionHandoutAt w) (wc_SessionExclusions w) (<[sessionID := 0]> (wc_SessionRefunds w))) g
  else g.

Definition count_handout (sessionID : string) (now : Z) (w : writer_counts) : writer_counts :=
  let n := wc_SessionHandouts w in
  if is_some (n !! sessionID) || Nat.ltb (size n) authoringMaxTrackedSessions
  then mkWriters (<[sessionID := wrap64 (default 0 (n !! sessionID) + 1)]> n) (<[sessionID := now]> (wc_SessionHandoutAt w)) (wc_SessionExclusions w) (wc_SessionRefunds w)
  else w.

(** [handout] once the axis is selected. *)
Definition gate_handout (kind sessionID peerID : string) (now : Z) (g : authoringAxisLedger) : authoringAxisLedger :=
  let peerID := if String.eqb peerID "" then sessionID else peerID in
  let g := if negb (is_zero_time (wh_QuarantinedAt (g_hold g))) && negb (Withheld now g) then clearGates now g else g in
  let g := settleOpenAttempt now (startBudget now g) in
  let g := cool_writer sessionID now g in
  let t := g_totals g in
  let g := set_totals (mkTotals (wrap64 (tt_Attempts t + 1)) (tt_Authored t)
                         (if is_zero_time (tt_FirstAttemptAt t) then now else tt_FirstAttemptAt t) now (tt_History t)) g in
  let g := set_counts (wrap64 (g_NoOutput g + 1)) (g_Excused g) g in
  let g := set_writers (count_handout sessionID now (g_writers g)) g in
  let g := if String.eqb kind "" then g else set_kind kind g in
  let s := g_slot g in
  let g := set_slot (mkSlot (sl_EpisodeSlotMillis s) (sl_BudgetStartedAt s) now sessionID) g in
  evaluate now (push (mkAttempt now (g_Kind g) (g_Axis g) sessionID peerID HandedOut "") g).

Definition handout (kind axis sessionID peerID : string) (now : Z) (l : authoringLedger) : authoringLedger :=
  let l := selectAxis axis l in set_gate (gate_handout kind sessionID peerID now (l_gate l)) l.

Definition ensurePeerEvidence (g : authoringAxisLedger) : authoringAxisLedger :=
  if String.eqb (pe_EvidenceIdentity (g_evidence g)) "peer-v1" then g else set_evidence (no_evidence "peer-v1") g.

(** The refund of an attempt that measured nothing. *)
Definition refund (sessionID : string) (g : authoringAxisLedger) : authoringAxisLedger :=
  if g_Excused g <? AuthoringExcusedAttempts then
    let g := set_counts (if 0 <? g_NoOutput g then g_NoOutput g - 1 else g_NoOutput g) (g_Excused g + 1) g in
    let w := g_writers g in
    let refunds := default 0 (wc_SessionRefunds w !! sessionID) in
    let handouts := default 0 (wc_SessionHandouts w !! sessionID) in
    if (refunds <? AuthoringSessionRefunds) && (0 <? handouts)
    then set_writers (mkWriters (<[sessionID := handouts - 1]> (wc_SessionHandouts w)) (wc_SessionHandoutAt w) (wc_SessionExclusions w)
                        (<[sessionID := refunds + 1]> (wc_SessionRefunds w))) g
    else g
  else g.

(** The writer has said its piece: it is not offered this work again. *)
Definition exclude_writer (sessionID : string) (g : authoringAxisLedger) : authoringAxisLedger :=
  let w := g_writers g in
  set_writers (mkWriters (<[sessionID := AuthoringMaxSessionHandouts]> (wc_SessionHandouts w)) (wc_SessionHandoutAt w)
                 ({[sessionID]} ∪ wc_SessionExclusions w) (wc_SessionRefunds w)) g.

Definition measured_impossible (sessionID peerID : string) (g : authoringAxisLedger) : authoringAxisLedger :=
  let g := ensurePeerEvidence g in
  let e := g_evidence g in
  let peers := {[peerID]} ∪ pe_NoSymbolBy e in
  exclude_writer sessionID (set_evidence (mkPeerEvidence peers (pe_UnsupportedBy e) (Z.of_nat (size peers)) (pe_Unsupported e) (pe_EvidenceIdentity e)) g).
Definition measured_unsupported (sessionID peerID : string) (g : authoringAxisLedger) : authoringAxisLedger :=
  let g := ensurePeerEvidence g in
  let e := g_evidence g in
  let peers := {[peerID]} ∪ pe_UnsupportedBy e in
  exclude_writer sessionID (set_evidence (mkPeerEvidence (pe_NoSymbolBy e) peers (pe_Impossible e) (Z.of_nat (size peers)) (pe_EvidenceIdentity e)) g).

Definition gate_report (sessionID peerID : string) (outcome : AuthoringOutcome) (detail : string) (now : Z) (g : authoringAxisLedger) : authoringAxisLedger :=
  let peerID := if String.eqb peerID "" then sessionID else peerID in
  let g := settleOpenAttempt now (startBudget now g) in
  let g := push (mkAttempt now (g_Kind g) (g_Axis g) sessionID peerID outcome (clampAuthoringDetail detail)) g in
  evaluate now match outcome with
    | Infrastructure | Transient => refund sessionID g
    | NoCallableSymbol => measured_impossible sessionID peerID g
    | UnsupportedEnvironment => measured_unsupported sessionID peerID g
    | _ => g
    end.
Definition report (sessionID peerID : string) (outcome : AuthoringOutcome) (detail : string) (now : Z) (l : authoringLedger) : authoringLedger :=
  set_gate (gate_report sessionID peerID outcome detail now (l_gate l)) l.

Definition gate_authored (sessionID : string) (now : Z) (g : authoringAxisLedger) : authoringAxisLedger :=
  let g := settleOpenAttempt now (startBudget now g) in
  let t := g_totals g in
  let g := set_totals (mkTotals (tt_Attempts t) (wrap64 (tt_Authored t + 1)) (tt_FirstAttemptAt t) (tt_LastAttemptAt t) (tt_History t)) g in
  clearGates now (push (mkAttempt now (g_Kind g) (g_Axis g) sessionID "" AuthoredOutcome "") g).
Definition authored (sessionID : string) (now : Z) (l : authoringLedger) : authoringLedger := set_gate (gate_authored sessionID now (l_gate l)) l.

Definition reopen_gate (now : Z) (g : authoringAxisLedger) : authoringAxisLedger := if Withheld now g then clearGates now g else g.
Definition reopen (now : Z) (l : authoringLedger) : authoringLedger * bool :=
  (mkLedger (l_Coordinate l) (reopen_gate now (l_gate l)) (reopen_gate now <$> l_Axes l),
   Withheld now (l_gate l) || existsb (fun x => Withheld now (snd x)) (map_to_list (l_Axes l))).

(** ** What operators see *)

(** [AuthoringAttemptState]: the gate without its working sets. *)
Record AuthoringAttemptState := mkAttemptState {
  st_Coordinate : string * string * string * string; st_Kind : string; st_Axis : string; st_NoOutput : Z; st_Excused : Z;
  st_Impossible : Z; st_Unsupported : Z; st_totals : attempt_totals; st_slot : slot_time; st_hold : withholding }.

Definition attempt_state (l : authoringLedger) (g : authoringAxisLedger) : AuthoringAttemptState :=
  mkAttemptState (l_Coordinate l) (g_Kind g) (g_Axis g) (g_NoOutput g) (g_Excused g) (pe_Impossible (g_evidence g)) (pe_Unsupported (g_evidence g))
    (g_totals (l_gate l)) (g_slot g) (g_hold g).

(** [state]: the active axis and, in [OtherAxes], the saved ones, each with the
    totals and the history of the coordinate. *)
Definition state (l : authoringLedger) : AuthoringAttemptState * gmap string AuthoringAttemptState :=
  (attempt_state l (l_gate l), attempt_state l <$> l_Axes l).

Definition state_withheld (now : Z) (s : AuthoringAttemptState) : bool :=
  let h := st_hold s in
  if is_zero_time (wh_QuarantinedAt h) then false else if is_zero_time (wh_ReopensAt h) then true else now <? wh_ReopensAt h.

Definition shown_before (s selected : AuthoringAttemptState) : bool :=
  let h := st_hold s in
  let k := st_hold selected in
  (negb (is_zero_time (wh_ReopensAt k)) && (is_zero_time (wh_ReopensAt h) || (wh_ReopensAt k <? wh_ReopensAt h)))
  || ((wh_ReopensAt h =? wh_ReopensAt k)
      && ((wh_QuarantinedAt k <? wh_QuarantinedAt h) || ((wh_QuarantinedAt h =? wh_QuarantinedAt k) && str_lt (st_Axis s) (st_Axis selected)))).

Definition consider_state (now : Z) (selected : option AuthoringAttemptState) (s : AuthoringAttemptState) : option AuthoringAttemptState :=
  if negb (state_withheld now s) then selected
  else match selected with None => Some s | Some k => if shown_before s k then Some s else selected end.

Definition quarantineState `{!GoMapRange} (now : Z) (l : authoringLedger) : option AuthoringAttemptState :=
  fold_left (consider_state now) (attempt_state l (l_gate l) :: map (fun x => attempt_state l (snd x)) (range_order (map_to_list (l_Axes l)))) None.

Definition quarantine_lt (a b : AuthoringAttemptState) : bool :=
  let qa := wh_QuarantinedAt (st_hold a) in
  let qb := wh_QuarantinedAt (st_hold b) in
  let '(ea, na, va, sa) := st_Coordinate a in
  let '(eb, nb, vb, sb) := st_Coordinate b in
  if negb (qa =? qb) then qb <? qa
  else if negb (String.eqb ea eb) then str_lt ea eb
  else if negb (String.eqb na nb) then str_lt na nb
  else if negb (String.eqb va vb) then str_lt va vb
  else str_lt sa sb.
(** [sort.SliceStable]: insertion keeps the order of equal rows. *)
Definition sortAuthoringQuarantine (rows : list AuthoringAttemptState) : list AuthoringAttemptState := insertion_sort quarantine_lt rows.

(** ** Histories of one gate

    What happens to the gate of one axis of one coordinate.  A handout selects
    the axis and brings the totals of the coordinate; [GOther] is what work on
    another axis does to this gate.  A handout happens when
    the gate does not bar the writer; a report or a sample comes from the
    writer that holds the work. *)
Inductive gate_event :=
| GHandout (kind sessionID peerID : string) (totals : attempt_totals) (axis : string)
| GReport (sessionID peerID : string) (outcome : AuthoringOutcome) (detail : string)
| GAuthored (sessionID : string)
| GReopen
| GReconcile
| GOther (totals : attempt_totals) (axis : string).

Definition gate_next (now : Z) (e : gate_event) (g : authoringAxisLedger) : authoringAxisLedger :=
  match e with
  | GHandout kind sessionID peerID totals axis => gate_handout kind sessionID peerID now (set_totals totals (set_axis axis g))
  | GReport sessionID peerID outcome detail => gate_report sessionID peerID outcome detail now g
  | GAuthored sessionID => gate_authored sessionID now g
  | GReopen => reopen_gate now g
  | GReconcile => reconcile_gate now g
  | GOther totals axis => set_totals totals (set_axis axis g)
  end.

(** The time, whether a writer holds the work, and the gate. *)
Record axis_state := mkGateState { gs_clock : Z; gs_claimed : bool; gs_gate : authoringAxisLedger }.

Definition gate_allows (axis : string) (now : Z) (e : gate_event) (s : axis_state) : bool :=
  (zero_time <? now) && (gs_clock s <=? now)
  && match e with
     | GHandout _ sessionID _ _ _ => negb (gate_barred axis sessionID now (gs_gate s))
     | GReport _ _ outcome _ => gs_claimed s && ValidAuthoringOutcome outcome
     | GAuthored _ => gs_claimed s
     | _ => true
     end.
Definition next_claimed (e : gate_event) (claimed : bool) : bool :=
  match e with GHandout _ _ _ _ _ => true | GReport _ _ _ _ | GAuthored _ => false | _ => claimed end.

Fixpoint gate_run (axis : string) (evs : list (Z * gate_event)) (s : axis_state) : option axis_state :=
  match evs with
  | [] => Some s
  | (now, e) :: evs =>
      if gate_allows axis now e s then gate_run axis evs (mkGateState now (next_claimed e (gs_claimed s)) (gate_next now e (gs_gate s))) else None
  end.
Definition fresh_gate : axis_state := mkGateState zero_time false new_gate.

(** The handouts of a history, those to one writer, and the slot time they
    took: a turn ends with the next handout or the next word of the writer,
    and after fifty minutes at the latest. *)
Definition is_handout (x : Z * gate_event) : bool := match snd x with GHandout _ _ _ _ _ => true | _ => false end.
Definition handout_to (sessionID : string) (x : Z * gate_event) : bool := match snd x with GHandout _ s _ _ _ => String.eqb s sessionID | _ => false end.
Definition handouts (evs : list (Z * gate_event)) : Z := Z.of_nat (length (List.filter is_handout evs)).
Definition handouts_to (sessionID : string) (evs : list (Z * gate_event)) : Z := Z.of_nat (length (List.filter (handout_to sessionID) evs)).
Definition turn_time (open : option Z) (until : Z) : Z := match open with Some o => Z.min (until - o) AuthoringAttemptSlotLimit | None => 0 end.
Fixpoint slot_used (open : option Z) (evs : list (Z * gate_event)) (until : Z) : Z :=
  match evs with
  | [] => turn_time open until
  | (now, GHandout _ _ _ _ _) :: evs => turn_time open now + slot_used (Some now) evs until
  | (now, (GReport _ _ _ _ | GAuthored _)) :: evs => turn_time open now + slot_used None evs until
  | _ :: evs => slot_used open evs until
  end.
(** Nothing that starts a new episode happens, but the lapse of a withholding. *)
Definition undisturbed (evs : list (Z * gate_event)) : bool := forallb (fun x => match snd x with GAuthored _ | GReopen => false | _ => true end) evs.

(** ** What holds in every history *)

Definition gate_count (g : authoringAxisLedger) : Z := g_NoOutput g + g_Excused g.

Record hold_ok (clock : Z) (g : authoringAxisLedger) : Prop := {
  ho_identity : pe_EvidenceIdentity (g_evidence g) <> "peer-v1" -> pe_NoSymbolBy (g_evidence g) = ∅ /\ pe_UnsupportedBy (g_evidence g) = ∅;
  ho_none : wh_QuarantinedAt (g_hold g) = zero_time -> wh_QuarantineReason (g_hold g) = NoReason /\ g_NoOutput g < AuthoringNoOutputQuarantine;
  ho_some : wh_QuarantinedAt (g_hold g) <> zero_time -> zero_time < wh_QuarantinedAt (g_hold g) <= clock;
  ho_reason : match wh_QuarantineReason (g_hold g) with
    | NoReason => wh_QuarantinedAt (g_hold g) = zero_time
    | ReasonNoCallableSymbol => wh_ReopensAt (g_hold g) = zero_time /\ (2 <= size (pe_NoSymbolBy (g_evidence g)))%nat
    | ReasonUnsupportedEnvironment => wh_ReopensAt (g_hold g) = zero_time /\ (2 <= size (pe_UnsupportedBy (g_evidence g)))%nat
    | ReasonNoOutput | ReasonSlotBudget => wh_ReopensAt (g_hold g) = wh_QuarantinedAt (g_hold g) + AuthoringQuarantineCooldown
    end
}.

Record slot_ok (clock : Z) (g : authoringAxisLedger) : Prop := {
  so_millis : 0 <= sl_EpisodeSlotMillis (g_slot g) <= 10200000;
  so_open : sl_OpenAttemptAt (g_slot g) <> zero_time -> zero_time < sl_OpenAttemptAt (g_slot g) <= clock /\ sl_EpisodeSlotMillis (g_slot g) <= 7200000;
  so_start : sl_BudgetStartedAt (g_slot g) = zero_time -> sl_EpisodeSlotMillis (g_slot g) = 0 /\ sl_OpenAttemptAt (g_slot g) = zero_time
}.

Record writers_ok (claimed : bool) (g : authoringAxisLedger) : Prop := {
  wo_handouts : forall s, 0 <= default 0 (wc_SessionHandouts (g_writers g) !! s) <= AuthoringMaxSessionHandouts;
  wo_refunds : forall s, 0 <= default 0 (wc_SessionRefunds (g_writers g) !! s) <= AuthoringSessionRefunds;
  wo_dated : forall s, 0 < default 0 (wc_SessionHandouts (g_writers g) !! s) ->
    s ∈ wc_SessionExclusions (g_writers g) \/ exists t, wc_SessionHandoutAt (g_writers g) !! s = Some t /\ zero_time < t;
  wo_size : Z.of_nat (size (wc_SessionHandouts (g_writers g))) <= 2 * gate_count g + (if claimed then 0 else 1)
}.

Record gate_ok (clock : Z) (claimed : bool) (g : authoringAxisLedger) : Prop := {
  go_clock : zero_time <= clock;
  go_out : 0 <= g_NoOutput g <= AuthoringNoOutputQuarantine;
  go_excused : 0 <= g_Excused g <= AuthoringExcusedAttempts;
  go_hold : hold_ok clock g;
  go_slot : slot_ok clock g;
  go_writers : writers_ok claimed g
}.

Lemma set_slot_same g : set_slot (g_slot g) g = g. Proof. by destruct g. Qed.
Lemma set_hold_same g : set_hold (g_hold g) g = g. Proof. by destruct g. Qed.
Lemma set_writers_same g : set_writers (g_writers g) g = g. Proof. by destruct g. Qed.
Lemma set_evidence_same g : set_evidence (g_evidence g) g = g. Proof. by destruct g. Qed.

Lemma later_not_zero t : zero_time < t -> is_zero_time t = false.
Proof. unfold is_zero_time. intros H. apply Z.eqb_neq. lia. Qed.
Lemma is_zero_eq t : is_zero_time t = true <-> t = zero_time. Proof. apply Z.eqb_eq. Qed.
Lemma is_zero_neq t : is_zero_time t = false <-> t <> zero_time. Proof. apply Z.eqb_neq. Qed.

Lemma millis_in_64 m : 0 <= m <= 20000000 -> wrap64 (m * millisecond) = m * millisecond.
Proof. intros H. apply wrap64_id. unfold in_int64, int64_min, int64_max, millisecond in *. lia. Qed.

(** The open turn as the gate projects it. *)
Definition open_turn (now : Z) (g : authoringAxisLedger) : Z :=
  if is_zero_time (sl_OpenAttemptAt (g_slot g)) then 0 else Z.max 0 (Z.min (now - sl_OpenAttemptAt (g_slot g)) AuthoringAttemptSlotLimit).

Lemma episode_exact clock now g : slot_ok clock g -> episodeSlotTime now g = sl_EpisodeSlotMillis (g_slot g) * millisecond + open_turn now g.
Proof.
  intros [M O S]. unfold episodeSlotTime, open_turn. rewrite millis_in_64 by lia. destruct (is_zero_time _) eqn:Z; cbn [negb andb]; [lia|].
  destruct (Z.ltb_spec (sl_OpenAttemptAt (g_slot g)) now) as [L|L].
  - rewrite wrap64_id; [unfold AuthoringAttemptSlotLimit, minute; lia|]. unfold in_int64, int64_min, int64_max, AuthoringAttemptSlotLimit, minute, millisecond. lia.
  - unfold AuthoringAttemptSlotLimit, minute. lia.
Qed.

Lemma charged_bounds e : 0 < e -> e <= charged_millis e * millisecond < e + millisecond.
Proof.
  intros H. unfold charged_millis, millisecond. rewrite Z.quot_div_nonneg by lia.
  pose proof (Z.div_mod (e + 1000000 - 1) 1000000). pose proof (Z.mod_pos_bound (e + 1000000 - 1) 1000000). lia.
Qed.

Definition settled (now : Z) (g : authoringAxisLedger) : slot_time := g_slot (settleOpenAttempt now g).
Lemma settle_eq now g : settleOpenAttempt now g = set_slot (settled now g) g.
Proof. unfold settled, settleOpenAttempt. destruct (is_zero_time _); [by rewrite set_slot_same|done]. Qed.

(** Settling charges the open turn, rounded up to the millisecond. *)
Lemma settled_spec clock now g : slot_ok clock g -> clock <= now ->
  let m := sl_EpisodeSlotMillis (g_slot g) in let m' := sl_EpisodeSlotMillis (settled now g) in
  m * millisecond + open_turn now g <= m' * millisecond < m * millisecond + open_turn now g + millisecond
  /\ sl_OpenAttemptAt (settled now g) = zero_time /\ sl_BudgetStartedAt (settled now g) = sl_BudgetStartedAt (g_slot g).
Proof.
  intros [M O S] C m m'. subst m m'. unfold settled, settleOpenAttempt, open_turn. destruct (is_zero_time (sl_OpenAttemptAt (g_slot g))) eqn:Z.
  - apply is_zero_eq in Z. unfold millisecond. split; [lia|done].
  - apply is_zero_neq in Z. specialize (O Z). cbn [g_slot set_slot sl_EpisodeSlotMillis sl_OpenAttemptAt sl_BudgetStartedAt]. split; [|done].
    rewrite (proj2 (Z.ltb_ge (now - sl_OpenAttemptAt (g_slot g)) 0)) by lia. set (e := Z.min (now - sl_OpenAttemptAt (g_slot g)) AuthoringAttemptSlotLimit).
    assert (0 <= e <= AuthoringAttemptSlotLimit) as E by (subst e; unfold AuthoringAttemptSlotLimit, minute in *; lia). rewrite Z.max_r by lia.
    destruct (Z.ltb_spec 0 e) as [P|P]; [|unfold millisecond; lia]. pose proof (charged_bounds e P) as B.
    rewrite wrap64_id; [lia|]. unfold in_int64, int64_min, int64_max, AuthoringAttemptSlotLimit, minute, millisecond in *. lia.
Qed.

Lemma open_turn_bounds clock now g : slot_ok clock g -> 0 <= open_turn now g <= AuthoringAttemptSlotLimit.
Proof. intros _. unfold open_turn, AuthoringAttemptSlotLimit, minute. destruct (is_zero_time _); lia. Qed.

Lemma settled_bounds clock now g : slot_ok clock g -> clock <= now ->
  0 <= sl_EpisodeSlotMillis (settled now g) <= 10200000
  /\ (episodeSlotTime now g < AuthoringEpisodeDispatchBudget -> sl_EpisodeSlotMillis (settled now g) <= 7200000).
Proof.
  intros W C. destruct (settled_spec clock now g W C) as (B & _). pose proof (open_turn_bounds _ now _ W) as T. pose proof (episode_exact _ now _ W) as ->.
  destruct W as [M O _]. unfold AuthoringAttemptSlotLimit, AuthoringEpisodeDispatchBudget, minute, millisecond in *. split; [|lia].
  unfold open_turn in *. destruct (is_zero_time _) eqn:Z; [lia|]. apply is_zero_neq in Z. destruct (O Z) as [_ L]. unfold AuthoringAttemptSlotLimit, minute in *. lia.
Qed.

Lemma started_slot clock now g : slot_ok clock g -> zero_time <= clock -> clock <= now -> zero_time < now ->
  slot_ok clock (startBudget now g) /\ episodeSlotTime now (startBudget now g) = episodeSlotTime now g
  /\ sl_BudgetStartedAt (g_slot (startBudget now g)) <> zero_time /\ open_turn now (startBudget now g) = open_turn now g
  /\ sl_EpisodeSlotMillis (g_slot (startBudget now g)) = sl_EpisodeSlotMillis (g_slot g).
Proof.
  intros W Z0 C P. unfold startBudget. destruct (is_zero_time (sl_BudgetStartedAt (g_slot g))) eqn:Z; cbn [negb].
  - apply is_zero_eq in Z. destruct W as [M O S]. destruct (S Z) as [E1 E2]. unfold episodeSlotTime, open_turn. cbn. rewrite E1, E2. cbn.
    split; [|split; [done|split; [lia|done]]]. split; cbn; [lia|done|lia].
  - apply is_zero_neq in Z. done.
Qed.

(** Both settle and start, as every transition does first. *)
Lemma opened_slot clock now g : slot_ok clock g -> zero_time <= clock -> clock <= now -> zero_time < now ->
  let s := settled now (startBudget now g) in
  0 <= sl_EpisodeSlotMillis s <= 10200000 /\ (episodeSlotTime now g < AuthoringEpisodeDispatchBudget -> sl_EpisodeSlotMillis s <= 7200000)
  /\ sl_OpenAttemptAt s = zero_time /\ sl_BudgetStartedAt s <> zero_time
  /\ sl_EpisodeSlotMillis (g_slot g) * millisecond + open_turn now g <= sl_EpisodeSlotMillis s * millisecond.
Proof.
  intros W Z0 C P s. destruct (started_slot _ _ _ W Z0 C P) as (W' & E & B & T & M). destruct (settled_bounds _ _ _ W' C) as [B1 B2].
  destruct (settled_spec _ _ _ W' C) as (B3 & O & Bs). rewrite E in B2. rewrite T, M in B3. subst s. rewrite O, Bs. split; [done|]. split; [done|]. split; [done|]. split; [done|lia].
Qed.

(** ** Withholding *)

Lemma evaluate_eq now g : exists h, evaluate now g = set_hold h g.
Proof. unfold evaluate, withhold. repeat case_match; eauto; exists (g_hold g); by rewrite set_hold_same. Qed.

Lemma hold_of_evaluate now g : zero_time < now -> g_NoOutput g <= AuthoringNoOutputQuarantine ->
  (pe_EvidenceIdentity (g_evidence g) <> "peer-v1" -> pe_NoSymbolBy (g_evidence g) = ∅ /\ pe_UnsupportedBy (g_evidence g) = ∅) ->
  (wh_QuarantinedAt (g_hold g) = zero_time -> wh_QuarantineReason (g_hold g) = NoReason) ->
  (wh_QuarantinedAt (g_hold g) <> zero_time -> hold_ok now g) -> hold_ok now (evaluate now g).
Proof.
  intros P N I R H. unfold evaluate. destruct (is_zero_time (wh_QuarantinedAt (g_hold g))) eqn:Z; cbn [negb]; [|by apply H, is_zero_neq].
  apply is_zero_eq in Z. specialize (R Z). unfold AuthoringNoSymbolQuarantine, AuthoringUnsupportedQuarantine.
  destruct (Nat.leb_spec 2 (size (pe_NoSymbolBy (g_evidence g)))); [split; cbn; done || lia|].
  destruct (Nat.leb_spec 2 (size (pe_UnsupportedBy (g_evidence g)))); [split; cbn; done || lia|].
  destruct (_ <=? episodeSlotTime now g); [split; cbn; done || lia|].
  destruct (Z.leb_spec AuthoringNoOutputQuarantine (g_NoOutput g)); [split; cbn; done || lia|].
  split; [done|by intros _|by rewrite Z|by rewrite R].
Qed.

Lemma hold_later clock now g : clock <= now -> hold_ok clock g -> hold_ok now g.
Proof. intros C [I A B R]. split; [done|done| |done]. intros H. specialize (B H). lia. Qed.
Lemma slot_later clock now g : clock <= now -> slot_ok clock g -> slot_ok now g.
Proof. intros C [M O S]. split; [done| |done]. intros H. destruct (O H). lia. Qed.

Lemma clear_ok now claimed g : zero_time < now -> gate_ok now claimed (clearGates now g).
Proof.
  intros P. split; [lia|cbn; unfold AuthoringNoOutputQuarantine; lia|cbn; unfold AuthoringExcusedAttempts; lia|..].
  - split; cbn; done || lia.
  - split; cbn; done || lia.
  - split; cbn; [intros s; rewrite lookup_empty; cbn; unfold AuthoringMaxSessionHandouts; lia|intros s; rewrite lookup_empty; cbn; unfold AuthoringSessionRefunds; lia|intros s; rewrite lookup_empty; cbn; lia|].
    rewrite map_size_empty. change (gate_count _) with 0. destruct claimed; lia.
Qed.

Lemma new_gate_ok : gate_ok zero_time false new_gate.
Proof.
  split; [lia|cbn; unfold AuthoringNoOutputQuarantine; lia|cbn; unfold AuthoringExcusedAttempts; lia|..].
  - split; cbn; done || lia.
  - split; cbn; done || lia.
  - split; cbn; [intros s; rewrite lookup_empty; cbn; unfold AuthoringMaxSessionHandouts; lia|intros s; rewrite lookup_empty; cbn; unfold AuthoringSessionRefunds; lia|intros s; rewrite lookup_empty; cbn; lia|].
    rewrite map_size_empty. change (gate_count _) with 0. lia.
Qed.

(** ** Handouts *)

(** A gate that is open to a writer: not withheld, with budget left, and the
    writer below its count. *)
Record open_to (sessionID : string) (now : Z) (g : authoringAxisLedger) : Prop := {
  ot_hold : wh_QuarantinedAt (g_hold g) = zero_time;
  ot_budget : episodeSlotTime now g < AuthoringEpisodeDispatchBudget;
  ot_count : handout_cooled sessionID now g = true \/ default 0 (wc_SessionHandouts (g_writers g) !! sessionID) < AuthoringMaxSessionHandouts
}.

Definition lapsed (now : Z) (g : authoringAxisLedger) : bool := negb (is_zero_time (wh_QuarantinedAt (g_hold g))) && negb (Withheld now g).
Definition revived (now : Z) (g : authoringAxisLedger) : authoringAxisLedger := if lapsed now g then clearGates now g else g.

Definition select (t : attempt_totals) (a : string) (g : authoringAxisLedger) : authoringAxisLedger := set_totals t (set_axis a g).

Lemma not_barred claimed axis s now t a g : writers_ok claimed g -> gate_barred axis s now g = false -> open_to s now (revived now (select t a g)).
Proof.
  intros [_ _ Wd _]. unfold gate_barred, revived, lapsed. change (g_hold (select t a g)) with (g_hold g). change (Withheld now (select t a g)) with (Withheld now g).
  destruct (is_zero_time (wh_QuarantinedAt (g_hold g))) eqn:Z; cbn [negb andb].
  - destruct (Z.leb_spec AuthoringEpisodeDispatchBudget (episodeSlotTime now g)); [done|]. destruct (bool_decide (s ∈ wc_SessionExclusions (g_writers g))) eqn:Ex; [done|]. apply bool_decide_eq_false in Ex.
    destruct (_ || _); [done|]. destruct (reported_terminal _ _ _); [done|]. intros H'. split; [by apply is_zero_eq|done|].
    change (g_writers (select t a g)) with (g_writers g). destruct (Z.ltb_spec 0 (default 0 (wc_SessionHandouts (g_writers g) !! s))) as [Hp|Hp]; [|right; unfold AuthoringMaxSessionHandouts; lia].
    destruct (Wd s Hp) as [?|(t' & At & Tz)]; [done|]. assert (Same : handout_cooled s now (select t a g) = handout_cooled s now g).
    { unfold handout_cooled, last_handout. change (g_writers (select t a g)) with (g_writers g). rewrite At. cbn [from_option]. change (id t') with t'. by rewrite (later_not_zero _ Tz). }
    rewrite Same. destruct (handout_cooled s now g); [by left|right]. by apply Z.leb_gt in H'.
  - intros ->. cbn [negb]. split; [done| |].
    + by change (episodeSlotTime now (clearGates now (select t a g))) with 0.
    + right. cbn. rewrite lookup_empty. done.
Qed.

Lemma revived_ok clock claimed now g : gate_ok clock claimed g -> clock <= now -> zero_time < now -> gate_ok now claimed (revived now g).
Proof.
  intros W C P. unfold revived. destruct (lapsed now g); [by apply clear_ok|]. destruct W as [A B D E F G]. split; [lia|done|done|by eapply hold_later|by eapply slot_later|done].
Qed.

Definition opened (now : Z) (g : authoringAxisLedger) : slot_time := settled now (startBudget now g).
Lemma opened_eq now g : settleOpenAttempt now (startBudget now g) = set_slot (opened now g) g.
Proof. unfold opened. rewrite settle_eq. unfold startBudget. by destruct (negb _). Qed.

Lemma cool_writer_slot s now S g : cool_writer s now (set_slot S g) = set_slot S (cool_writer s now g).
Proof. unfold cool_writer, handout_cooled, last_handout. cbn. by destruct (_ && _). Qed.

Definition handed_writers (s : string) (now : Z) (g : authoringAxisLedger) : writer_counts := count_handout s now (g_writers (cool_writer s now g)).

(** A handout changes the counts, the writers, the slot and the audit trail,
    and then the thresholds apply. *)
Lemma handout_eq kind s p now g : exists kind' totals,
  gate_handout kind s p now g =
    evaluate now (let g := revived now g in
      mkGate kind' (g_Axis g) (wrap64 (g_NoOutput g + 1)) (g_Excused g) (g_HistoryGateResetAt g) totals
        (mkSlot (sl_EpisodeSlotMillis (opened now g)) (sl_BudgetStartedAt (opened now g)) now s) (g_hold g) (handed_writers s now g) (g_evidence g)).
Proof.
  unfold gate_handout. change (if _ && _ then clearGates now g else g) with (revived now g). generalize (revived now g). intros g0. cbv zeta.
  rewrite opened_eq, cool_writer_slot. unfold push, handed_writers, cool_writer. destruct (handout_cooled s now g0), (String.eqb kind ""); do 2 eexists; reflexivity.
Qed.

Definition theta (s : string) (w : writer_counts) : Z := default 0 (wc_SessionHandouts w !! s) + default 0 (wc_SessionRefunds w !! s).

Lemma handed_spec claimed s now g : writers_ok claimed g -> 0 <= gate_count g <= 10 ->
  handout_cooled s now g = true \/ default 0 (wc_SessionHandouts (g_writers g) !! s) < AuthoringMaxSessionHandouts ->
  let w := g_writers g in let w' := handed_writers s now g in
  (forall x, 0 <= default 0 (wc_SessionHandouts w' !! x) <= AuthoringMaxSessionHandouts)
  /\ (forall x, 0 <= default 0 (wc_SessionRefunds w' !! x) <= AuthoringSessionRefunds)
  /\ (zero_time < now -> forall x, 0 < default 0 (wc_SessionHandouts w' !! x) -> x ∈ wc_SessionExclusions w' \/ exists t, wc_SessionHandoutAt w' !! x = Some t /\ zero_time < t)
  /\ (size (wc_SessionHandouts w') <= size (wc_SessionHandouts w) + 1)%nat
  /\ (forall x, x <> s -> theta x w' = theta x w /\ wc_SessionHandoutAt w' !! x = wc_SessionHandoutAt w !! x)
  /\ wc_SessionHandoutAt w' !! s = Some now
  /\ 1 <= theta s w' /\ (handout_cooled s now g = false -> theta s w' = theta s w + 1).
Proof.
  intros [H R Wd Z] C L w w'. set (n := if handout_cooled s now g then 0 else default 0 (wc_SessionHandouts w !! s)).
  set (r := if handout_cooled s now g then 0 else default 0 (wc_SessionRefunds w !! s)).
  assert (N : 0 <= n < AuthoringMaxSessionHandouts).
  { subst n w. specialize (H s). unfold AuthoringMaxSessionHandouts in *. destruct (handout_cooled s now g); [lia|]. destruct L; [done|lia]. }
  assert (Rr : 0 <= r <= AuthoringSessionRefunds) by (subst r w; specialize (R s); unfold AuthoringSessionRefunds in *; destruct (handout_cooled s now g); lia).
  assert (E : wc_SessionHandouts w' = <[s := n + 1]> (wc_SessionHandouts w) /\ wc_SessionHandoutAt w' = <[s := now]> (wc_SessionHandoutAt w) /\ wc_SessionExclusions w' = wc_SessionExclusions w
              /\ forall x, default 0 (wc_SessionRefunds w' !! x) = if decide (x = s) then r else default 0 (wc_SessionRefunds w !! x)).
  { assert (Sz : (size (wc_SessionHandouts w) < authoringMaxTrackedSessions)%nat) by (subst w; unfold authoringMaxTrackedSessions; destruct claimed; lia).
    assert (Wn : wrap64 (n + 1) = n + 1) by (apply wrap64_id; unfold in_int64, int64_min, int64_max, AuthoringMaxSessionHandouts in *; lia).
    subst w' n r. unfold handed_writers, cool_writer, count_handout. destruct (handout_cooled s now g) eqn:K; cbn [g_writers set_writers wc_SessionHandouts].
    - rewrite lookup_insert_eq. cbn [is_some orb from_option]. change (wrap64 (id 0 + 1)) with (wrap64 (0 + 1)). rewrite Wn. cbn. rewrite insert_insert_eq. split; [done|]. split; [done|]. split; [done|].
      intros x. rewrite lookup_insert. repeat case_decide; subst; done.
    - fold w. rewrite (proj2 (Nat.ltb_lt (size (wc_SessionHandouts w)) _) Sz), orb_true_r. cbn [wc_SessionHandouts wc_SessionHandoutAt wc_SessionRefunds]. rewrite Wn. split; [done|]. split; [done|]. split; [done|]. intros x. case_decide; subst; done. }
  destruct E as (E1 & E2 & E4 & E3). assert (K : handout_cooled s now g = false -> n + r = theta s w) by (intros K; subst n r; by rewrite K).
  assert (D : forall x, default 0 (<[s := n + 1]> (wc_SessionHandouts w) !! x) = if decide (x = s) then n + 1 else default 0 (wc_SessionHandouts w !! x)).
  { intros x. rewrite lookup_insert. repeat case_decide; subst; done. }
  clearbody n r. unfold theta in *. rewrite E1, E2, E4. split; [|split; [|split; [|split; [|split; [|split; [|split]]]]]].
  - intros x. rewrite D. case_decide; [lia|apply H].
  - intros x. rewrite E3. case_decide; [lia|apply R].
  - intros P x. rewrite D, lookup_insert. case_decide; subst; [intros _; right; rewrite decide_True by done; eauto|]. rewrite decide_False by done. apply Wd.
  - rewrite map_size_insert. destruct (wc_SessionHandouts w !! s); unfold id; subst w; lia.
  - intros x Ne. rewrite D, E3, !decide_False, lookup_insert_ne by done. done.
  - apply lookup_insert_eq.
  - rewrite D, E3, !decide_True by done. lia.
  - intros F. rewrite D, E3, !decide_True by done. specialize (K F). lia.
Qed.

Lemma count_bounds clock claimed g : gate_ok clock claimed g -> 0 <= gate_count g <= 10.
Proof. intros [_ A B _ _ _]. unfold gate_count, AuthoringNoOutputQuarantine, AuthoringExcusedAttempts in *. lia. Qed.

Lemma handout_spec clock claimed kind s p now g : gate_ok clock claimed g -> clock <= now -> zero_time < now -> open_to s now (revived now g) ->
  let g0 := revived now g in let g' := gate_handout kind s p now g in
  gate_ok now true g' /\ gate_count g' = gate_count g0 + 1
  /\ sl_OpenAttemptAt (g_slot g') = now
  /\ sl_EpisodeSlotMillis (g_slot g0) * millisecond + open_turn now g0 <= sl_EpisodeSlotMillis (g_slot g') * millisecond <= AuthoringEpisodeDispatchBudget
  /\ g_writers g' = handed_writers s now g0 /\ g_evidence g' = g_evidence g0.
Proof.
  intros W C P B g0 g'. pose proof (revived_ok _ _ _ _ W C P) as W0. destruct B as [Oh Ob Oc]. fold g0 in W0, Oh, Ob, Oc.
  destruct (handout_eq kind s p now g) as (k' & t' & E). fold g0 g' in E. cbv zeta in E. pose proof (count_bounds _ _ _ W0) as Cb.
  pose proof W0 as [Z A X H S Wr]. destruct (handed_spec _ s now g0 Wr Cb Oc) as (H1 & H2 & Hd & H3 & _).
  destruct (opened_slot now now g0 S) as (M1 & M2 & M3 & M4 & M5); [lia|lia|done|]. fold (opened now g0) in M1, M2, M3, M4, M5. specialize (M2 Ob).
  assert (N : wrap64 (g_NoOutput g0 + 1) = g_NoOutput g0 + 1) by (apply wrap64_id; unfold in_int64, int64_min, int64_max, AuthoringNoOutputQuarantine in *; lia).
  destruct (ho_none _ _ H Oh) as [Hr Hn]. set (G := mkGate k' _ _ _ _ _ _ _ _ _) in E. destruct (evaluate_eq now G) as [h Eh].
  assert (Hk : hold_ok now g').
  { rewrite E. apply hold_of_evaluate; [done|subst G; cbn; lia|exact (ho_identity _ _ H)|by intros _|]. intros Q. by destruct Q. }
  assert (Eg : g' = set_hold h G) by (by rewrite E). assert (Cg : gate_count g' = gate_count g0 + 1) by (rewrite Eg; unfold gate_count; subst G; cbn; lia).
  split; [|split; [exact Cg|split; [by rewrite Eg|split; [|split; by rewrite Eg]]]].
  - split; [lia|rewrite Eg; subst G; cbn; lia|rewrite Eg; exact X|exact Hk|..].
    + rewrite Eg. subst G. split; cbn; [lia| |by intros ?]. intros _. lia.
    + split; [rewrite Eg; exact H1|rewrite Eg; exact H2|rewrite Eg; exact (Hd P)|]. rewrite Cg, Eg. cbn [g_writers set_hold G]. subst G. cbn [g_writers]. destruct Wr as [_ _ _ Sz]. destruct claimed; lia.
  - rewrite Eg. cbn [g_slot set_hold G]. subst G. cbn [g_slot sl_EpisodeSlotMillis]. unfold AuthoringEpisodeDispatchBudget, minute, millisecond in *. lia.
Qed.

(** ** Reports *)

Definition classified (s p : string) (o : AuthoringOutcome) (g : authoringAxisLedger) : authoringAxisLedger :=
  match o with
  | Infrastructure | Transient => refund s g
  | NoCallableSymbol => measured_impossible s p g
  | UnsupportedEnvironment => measured_unsupported s p g
  | _ => g
  end.

Record classifies (g g' : authoringAxisLedger) : Prop := {
  cf_slot : g_slot g' = g_slot g;
  cf_hold : g_hold g' = g_hold g;
  cf_out : 0 <= g_NoOutput g' <= g_NoOutput g;
  cf_excused : 0 <= g_Excused g' <= AuthoringExcusedAttempts;
  cf_count : gate_count g <= gate_count g';
  cf_writers : writers_ok false g';
  cf_theta : forall x, theta x (g_writers g) <= theta x (g_writers g');
  cf_at : wc_SessionHandoutAt (g_writers g') = wc_SessionHandoutAt (g_writers g);
  cf_impossible : pe_NoSymbolBy (g_evidence g) ⊆ pe_NoSymbolBy (g_evidence g');
  cf_unsupported : pe_UnsupportedBy (g_evidence g) ⊆ pe_UnsupportedBy (g_evidence g');
  cf_identity : pe_EvidenceIdentity (g_evidence g') <> "peer-v1" -> pe_NoSymbolBy (g_evidence g') = ∅ /\ pe_UnsupportedBy (g_evidence g') = ∅
}.

Definition evidence_tagged (g : authoringAxisLedger) : Prop :=
  pe_EvidenceIdentity (g_evidence g) <> "peer-v1" -> pe_NoSymbolBy (g_evidence g) = ∅ /\ pe_UnsupportedBy (g_evidence g) = ∅.

Lemma writers_unclaimed g : writers_ok true g -> writers_ok false g.
Proof. intros [A B D C]. split; [done|done|done|lia]. Qed.

Lemma classifies_same g : 0 <= g_NoOutput g -> 0 <= g_Excused g <= AuthoringExcusedAttempts -> writers_ok true g -> evidence_tagged g -> classifies g g.
Proof. intros A B W T. split; try done; try lia. by apply writers_unclaimed. Qed.

Lemma refund_classifies s g : 0 <= g_NoOutput g -> 0 <= g_Excused g <= AuthoringExcusedAttempts -> writers_ok true g -> evidence_tagged g -> classifies g (refund s g).
Proof.
  intros A B W T. unfold refund. destruct (Z.ltb_spec (g_Excused g) AuthoringExcusedAttempts) as [L|L]; [|by apply classifies_same].
  pose proof W as [W1 W2 W4 W3]. set (n := if 0 <? g_NoOutput g then g_NoOutput g - 1 else g_NoOutput g).
  assert (N : 0 <= n <= g_NoOutput g /\ g_NoOutput g <= n + 1) by (subst n; destruct (Z.ltb_spec 0 (g_NoOutput g)); lia). clearbody n. cbn [set_counts g_writers].
  destruct (_ && _) eqn:K.
  - apply andb_true_iff in K as [K1 K2]. apply Z.ltb_lt in K1, K2. set (w := g_writers g) in *.
    set (r := default 0 (wc_SessionRefunds w !! s)) in *. set (h := default 0 (wc_SessionHandouts w !! s)) in *.
    assert (Hd : forall x, default 0 (<[s := h - 1]> (wc_SessionHandouts w) !! x) = if decide (x = s) then h - 1 else default 0 (wc_SessionHandouts w !! x)).
    { intros x. rewrite lookup_insert. repeat case_decide; subst; done. }
    assert (Rd : forall x, default 0 (<[s := r + 1]> (wc_SessionRefunds w) !! x) = if decide (x = s) then r + 1 else default 0 (wc_SessionRefunds w !! x)).
    { intros x. rewrite lookup_insert. repeat case_decide; subst; done. }
    assert (Sz : size (<[s := h - 1]> (wc_SessionHandouts w)) = size (wc_SessionHandouts w)).
    { rewrite map_size_insert. subst h. destruct (wc_SessionHandouts w !! s); [done|]. cbn in K2. lia. }
    pose proof (W1 s) as Hs. pose proof (W2 s) as Rs. fold w h in Hs. fold w r in Rs.
    split; cbn [g_slot g_hold g_NoOutput g_Excused g_writers g_evidence set_writers set_counts]; try done; try lia; unfold gate_count; cbn [g_NoOutput g_Excused set_writers set_counts]; try lia.
    + split; cbn [g_writers set_writers set_counts wc_SessionHandouts wc_SessionRefunds].
      * intros x. rewrite Hd. case_decide; [lia|apply W1].
      * intros x. rewrite Rd. case_decide; [lia|apply W2].
      * cbn [wc_SessionExclusions wc_SessionHandoutAt]. intros x. rewrite Hd. case_decide; [subst x; intros _|]; apply W4. fold w h. lia.
      * rewrite Sz. unfold gate_count in *. cbn. lia.
    + intros x. unfold theta. change (g_writers g) with w. cbn [wc_SessionHandouts wc_SessionRefunds]. rewrite Hd, Rd. case_decide; [subst x; change (default 0 (wc_SessionHandouts w !! s)) with h; change (default 0 (wc_SessionRefunds w !! s)) with r; lia|lia].
  - split; cbn [g_slot g_hold g_NoOutput g_Excused g_writers g_evidence set_counts]; try done; try lia; unfold gate_count; cbn [g_NoOutput g_Excused set_counts]; try lia.
    split; [exact W1|exact W2|exact W4|]. unfold gate_count in *. cbn. lia.
Qed.

Lemma excluded_classifies s g g1 : g_slot g1 = g_slot g -> g_hold g1 = g_hold g -> g_NoOutput g1 = g_NoOutput g -> g_Excused g1 = g_Excused g -> g_writers g1 = g_writers g ->
  pe_EvidenceIdentity (g_evidence g1) = "peer-v1" -> pe_NoSymbolBy (g_evidence g) ⊆ pe_NoSymbolBy (g_evidence g1) -> pe_UnsupportedBy (g_evidence g) ⊆ pe_UnsupportedBy (g_evidence g1) ->
  0 <= g_NoOutput g -> 0 <= g_Excused g <= AuthoringExcusedAttempts -> writers_ok true g -> classifies g (exclude_writer s g1).
Proof.
  intros Es Eh En Ex Ew I U1 U2 A B W. pose proof W as [W1 W2 W4 W3].
  assert (Hd : forall x, default 0 (<[s := AuthoringMaxSessionHandouts]> (wc_SessionHandouts (g_writers g)) !! x)
               = if decide (x = s) then AuthoringMaxSessionHandouts else default 0 (wc_SessionHandouts (g_writers g) !! x)).
  { intros x. rewrite lookup_insert. repeat case_decide; subst; done. }
  unfold exclude_writer. rewrite Ew. split; unfold gate_count; cbn [g_slot g_hold g_NoOutput g_Excused g_writers g_evidence set_writers]; rewrite ?En, ?Ex; try done; try lia.
  - split; cbn [g_writers set_writers wc_SessionHandouts wc_SessionRefunds].
    + intros x. rewrite Hd. case_decide; [unfold AuthoringMaxSessionHandouts; lia|apply W1].
    + exact W2.
    + cbn [wc_SessionExclusions wc_SessionHandoutAt]. intros x. rewrite Hd. case_decide; [subst x; intros _; left; set_solver|]. intros Hx. destruct (W4 x Hx) as [Y|Y]; [left; set_solver|by right].
    + unfold gate_count in *. cbn [g_NoOutput g_Excused set_writers]. rewrite En, Ex, map_size_insert. destruct (_ !! s); unfold id; lia.
  - intros x. unfold theta. cbn [wc_SessionHandouts wc_SessionRefunds]. rewrite Hd. pose proof (W1 x). case_decide; lia.
Qed.

Lemma ensured_evidence g : evidence_tagged g ->
  pe_NoSymbolBy (g_evidence (ensurePeerEvidence g)) = pe_NoSymbolBy (g_evidence g) /\ pe_UnsupportedBy (g_evidence (ensurePeerEvidence g)) = pe_UnsupportedBy (g_evidence g)
  /\ pe_EvidenceIdentity (g_evidence (ensurePeerEvidence g)) = "peer-v1".
Proof.
  intros T. unfold ensurePeerEvidence. destruct (String.eqb_spec (pe_EvidenceIdentity (g_evidence g)) "peer-v1") as [E|E]; [done|].
  destruct (T E) as [-> ->]. done.
Qed.

Lemma classified_classifies s p o g : 0 <= g_NoOutput g -> 0 <= g_Excused g <= AuthoringExcusedAttempts -> writers_ok true g -> evidence_tagged g -> classifies g (classified s p o g).
Proof.
  intros A B W T. destruct (ensured_evidence g T) as (E1 & E2 & E3).
  assert (Es : forall e, let g1 := set_evidence e (ensurePeerEvidence g) in g_slot g1 = g_slot g /\ g_hold g1 = g_hold g /\ g_NoOutput g1 = g_NoOutput g /\ g_Excused g1 = g_Excused g /\ g_writers g1 = g_writers g).
  { intros e. cbn. unfold ensurePeerEvidence. by destruct (String.eqb _ _). }
  destruct o; cbn [classified]; try (by apply classifies_same); try (by apply refund_classifies).
  - unfold measured_impossible. edestruct Es as (? & ? & ? & ? & ?). apply excluded_classifies; try done; cbn; [rewrite E1; set_solver|by rewrite E2].
  - unfold measured_unsupported. edestruct Es as (? & ? & ? & ? & ?). apply excluded_classifies; try done; cbn; [by rewrite E1|rewrite E2; set_solver].
Qed.

Lemma report_eq s p o d now g : exists totals,
  gate_report s p o d now g = evaluate now (classified s (if String.eqb p "" then s else p) o (set_totals totals (set_slot (opened now g) g))).
Proof. unfold gate_report. rewrite opened_eq. eexists. unfold push. by destruct o. Qed.

Lemma report_spec clock s p o d now g : gate_ok clock true g -> clock <= now -> zero_time < now ->
  let g' := gate_report s p o d now g in
  gate_ok now false g' /\ gate_count g <= gate_count g'
  /\ sl_OpenAttemptAt (g_slot g') = zero_time
  /\ sl_EpisodeSlotMillis (g_slot g) * millisecond + open_turn now g <= sl_EpisodeSlotMillis (g_slot g') * millisecond
  /\ (forall x, theta x (g_writers g) <= theta x (g_writers g')) /\ wc_SessionHandoutAt (g_writers g') = wc_SessionHandoutAt (g_writers g)
  /\ (wh_QuarantinedAt (g_hold g) <> zero_time -> g_hold g' = g_hold g).
Proof.
  intros W C P g'. destruct (report_eq s p o d now g) as [t E]. fold g' in E. set (g1 := set_totals t (set_slot (opened now g) g)) in E.
  destruct W as [Z A X H S Wr]. destruct (opened_slot clock now g S) as (M1 & _ & M3 & M4 & M5); [lia|lia|done|]. fold (opened now g) in M1, M3, M4, M5.
  destruct (classified_classifies s (if String.eqb p "" then s else p) o g1) as [Cs Ch Co Cx Cc Cw Ct Ca C1 C2 Ci].
  { exact (proj1 A). } { exact X. } { destruct Wr as [W1 W2 W4 W3]. split; [exact W1|exact W2|exact W4|exact W3]. } { exact (ho_identity _ _ H). }
  set (c := classified _ _ _ g1) in *. destruct (evaluate_eq now c) as [h Eh]. assert (Eg : g' = set_hold h c) by (by rewrite E).
  assert (Q : wh_QuarantinedAt (g_hold g) <> zero_time -> g_hold g' = g_hold g).
  { intros Q. rewrite E. unfold evaluate. rewrite Ch. change (g_hold g1) with (g_hold g). rewrite (proj2 (is_zero_neq _) Q). exact Ch. }
  change (g_NoOutput g1) with (g_NoOutput g) in *.
  assert (Hk : hold_ok now g').
  { rewrite E. apply hold_of_evaluate; [done|lia|exact Ci|..]; rewrite Ch; change (g_hold g1) with (g_hold g); intros Q'.
    - by apply (ho_none _ _ H).
    - destruct (hold_later _ _ _ C H) as [_ B1 B2 B3]. split; [exact Ci|..]; rewrite ?Ch; change (g_hold g1) with (g_hold g); [done|exact B2|].
      destruct (wh_QuarantineReason (g_hold g)); [done|destruct B3 as [-> B3]|destruct B3 as [-> B3]|done|done]; (split; [done|]);
        (etrans; [exact B3|]); apply subseteq_size; [exact C1|exact C2]. }
  split; [|split; [|split; [|split; [|split; [|split]]]]].
  - split; [lia|rewrite Eg; cbn; lia|rewrite Eg; cbn; lia|exact Hk|..].
    + rewrite Eg. split; cbn [g_slot set_hold]; rewrite Cs; subst g1; cbn [g_slot set_totals set_slot]; [exact M1|intros Q'; by destruct Q'|intros Q'; by destruct M4].
    + rewrite Eg. destruct Cw as [W1 W2 W4 W3]. split; [exact W1|exact W2|exact W4|exact W3].
  - rewrite Eg. exact Cc.
  - rewrite Eg. cbn [g_slot set_hold]. rewrite Cs. exact M3.
  - rewrite Eg. cbn [g_slot set_hold]. rewrite Cs. exact M5.
  - intros x. rewrite Eg. exact (Ct x).
  - rewrite Eg. exact Ca.
  - exact Q.
Qed.

Lemma reconcile_spec clock claimed now g : gate_ok clock claimed g -> clock <= now -> zero_time < now ->
  let g' := reconcile_gate now g in
  gate_ok now claimed g' /\ gate_count g' = gate_count g /\ g_writers g' = g_writers g /\ g_evidence g' = g_evidence g
  /\ (g' = g \/ wh_QuarantinedAt (g_hold g) = zero_time /\ wh_QuarantinedAt (g_hold g') = now
      /\ sl_EpisodeSlotMillis (g_slot g) * millisecond + open_turn now g <= sl_EpisodeSlotMillis (g_slot g') * millisecond /\ sl_OpenAttemptAt (g_slot g') = zero_time).
Proof.
  intros W C P g'. destruct W as [Z A X H S Wr]. subst g'. unfold reconcile_gate. destruct (exhausted now g) eqn:Ex.
  - apply andb_true_iff in Ex as [Q _]. apply is_zero_eq in Q. rewrite settle_eq.
    destruct (settled_bounds _ _ _ S C) as [B _]. destruct (settled_spec _ _ _ S C) as (B3 & O & Bs).
    assert (Bt : sl_BudgetStartedAt (g_slot g) = zero_time -> sl_EpisodeSlotMillis (settled now g) = 0).
    { intros Q'. destruct (so_start _ _ S Q') as [E1 E2]. assert (T : open_turn now g = 0) by (unfold open_turn; by rewrite E2). rewrite E1, T in B3. unfold millisecond in B3. lia. }
    split; [|split; [done|split; [done|split; [done|right; split; [done|split; [done|split; [cbn; lia|exact O]]]]]]].
    split; [lia|done|done|..]; [|split; cbn; [lia|intros Q'; by destruct Q'|rewrite Bs; auto]|destruct Wr; by split].
    split; cbn; [exact (ho_identity _ _ H)|intros Q'; lia|lia|done].
  - split; [split; [lia|done|done|by eapply hold_later|by eapply slot_later|done]|]. auto.
Qed.

Lemma select_ok clock claimed t a g : gate_ok clock claimed g -> gate_ok clock claimed (select t a g).
Proof. intros [Z A X H S Wr]. destruct H, S, Wr. split; [done|done|done|by split|by split|by split]. Qed.

Lemma gate_step_ok axis now e s : gate_ok (gs_clock s) (gs_claimed s) (gs_gate s) -> gate_allows axis now e s = true ->
  gate_ok now (next_claimed e (gs_claimed s)) (gate_next now e (gs_gate s)).
Proof.
  destruct s as [clock claimed g]. cbn [gs_clock gs_claimed gs_gate]. intros W L. unfold gate_allows in L. cbn [gs_clock gs_claimed gs_gate] in L.
  rewrite !andb_true_iff in L. destruct L as [[P%Z.ltb_lt C%Z.leb_le] L].
  destruct e as [kind sid p t a|sid p o d|sid| | |t a]; cbn [gate_next next_claimed].
  - apply negb_true_iff in L. refine (proj1 (handout_spec clock claimed kind _ p _ _ (select_ok _ _ t a _ W) C P (not_barred claimed axis _ _ t a _ (go_writers _ _ _ W) L))).
  - apply andb_true_iff in L as [-> _]. exact (proj1 (report_spec _ _ _ _ _ _ _ W C P)).
  - unfold gate_authored. by apply clear_ok.
  - unfold reopen_gate. destruct (Withheld now g); [by apply clear_ok|]. destruct W as [Z A X H S Wr]. split; [lia|done|done|by eapply hold_later|by eapply slot_later|done].
  - exact (proj1 (reconcile_spec _ _ _ _ W C P)).
  - destruct W as [Z A X H S Wr]. apply (hold_later _ _ _ C) in H. apply (slot_later _ _ _ C) in S. destruct H, S, Wr. split; [lia|done|done|by split|by split|by split].
Qed.

Lemma gate_run_ok axis evs s s' : gate_ok (gs_clock s) (gs_claimed s) (gs_gate s) -> gate_run axis evs s = Some s' -> gate_ok (gs_clock s') (gs_claimed s') (gs_gate s').
Proof.
  revert s. induction evs as [|[now e] evs IH]; intros s W; cbn [gate_run]; [by intros [= <-]|]. destruct (gate_allows axis now e s) eqn:L; [|done].
  apply IH. exact (gate_step_ok _ _ _ _ W L).
Qed.

Lemma run_clock axis evs s s' : gate_run axis evs s = Some s' -> gs_clock s <= gs_clock s'.
Proof.
  revert s. induction evs as [|[now e] evs IH]; intros s; cbn [gate_run]; [intros [= <-]; lia|]. destruct (gate_allows axis now e s) eqn:L; [|done].
  intros R%IH. unfold gate_allows in L. rewrite !andb_true_iff in L. destruct L as [[_ C%Z.leb_le] _]. cbn [gs_clock] in R. lia.
Qed.

(** ** A window of time

    [n] handouts so far, [m] of them to the writer [x], slot time [a] used by
    turns that ended, [o] the start of a turn that has not. *)
Section window.
  Context (t0 until : Z) (x : string).

Definition quarantined (g : authoringAxisLedger) : Prop := wh_QuarantinedAt (g_hold g) <> zero_time.
(** A withholding that was there before the window. *)
Definition old_hold (g : authoringAxisLedger) : Prop := quarantined g /\ wh_QuarantinedAt (g_hold g) < t0.

Record in_window (n m a : Z) (o : option Z) (g : authoringAxisLedger) : Prop := {
  iw_count : n <= gate_count g;
  iw_writer : until < t0 + AuthoringSessionHandoutCooldown -> 0 < m ->
              m <= theta x (g_writers g) /\ exists t, wc_SessionHandoutAt (g_writers g) !! x = Some t /\ t0 <= t /\ zero_time < t;
  iw_free : ~ quarantined g -> a <= sl_EpisodeSlotMillis (g_slot g) * millisecond /\ forall t, o = Some t -> sl_OpenAttemptAt (g_slot g) = t /\ t <> zero_time;
  iw_held : quarantined g -> a + (if o then AuthoringAttemptSlotLimit else 0) <= AuthoringEpisodeSlotLimit
}.
Definition window_ok (n m a : Z) (o : option Z) (g : authoringAxisLedger) : Prop :=
  (old_hold g /\ n = 0 /\ m = 0 /\ a = 0 /\ o = None) \/ (~ old_hold g /\ in_window n m a o g).

Lemma turn_open clock now o g : slot_ok clock g -> clock <= now -> (forall t, o = Some t -> sl_OpenAttemptAt (g_slot g) = t /\ t <> zero_time) ->
  turn_time o now <= open_turn now g.
Proof.
  intros S C F. pose proof (open_turn_bounds _ now _ S) as B. unfold turn_time. destruct o as [t|]; [|lia]. destruct (F t eq_refl) as [E N].
  unfold open_turn. rewrite E, (proj2 (is_zero_neq _) N). lia.
Qed.

Lemma turn_limit o now : turn_time o now <= if o then AuthoringAttemptSlotLimit else 0.
Proof. destruct o; cbn; lia. Qed.

(** A withholding that began in the window outlives it. *)
Lemma not_lapsed clock now g : hold_ok clock g -> ~ old_hold g -> now <= until -> until < t0 + AuthoringQuarantineCooldown -> lapsed now g = false.
Proof.
  intros H N L U. unfold lapsed, Withheld. destruct (is_zero_time (wh_QuarantinedAt (g_hold g))) eqn:Z; [done|]. apply is_zero_neq in Z. cbn [negb andb].
  destruct (is_zero_time (wh_ReopensAt (g_hold g))) eqn:Zr; [done|]. apply is_zero_neq in Zr. apply negb_false_iff, Z.ltb_lt.
  assert (T : t0 <= wh_QuarantinedAt (g_hold g)) by (destruct (Z.le_gt_cases t0 (wh_QuarantinedAt (g_hold g))); [done|]; destruct N; by split).
  pose proof (ho_reason _ _ H) as R. destruct (wh_QuarantineReason (g_hold g)); [done|by destruct R|by destruct R|lia|lia].
Qed.

Lemma handout_window clock claimed kind s p now g n m a o : gate_ok clock claimed g -> clock <= now -> zero_time < now -> t0 <= now -> now <= until ->
  until < t0 + AuthoringQuarantineCooldown -> open_to s now (revived now g) -> window_ok n m a o g -> 0 <= m ->
  window_ok (n + 1) (m + if String.eqb s x then 1 else 0) (a + turn_time o now) (Some now) (gate_handout kind s p now g).
Proof.
  intros W C P T U L B Wd M0. destruct (handout_spec clock claimed kind s p now g W C P B) as (W' & Cn & Op & Sl & Wr & _).
  pose proof (revived_ok _ _ _ _ W C P) as W0. destruct B as [Oh Ob Oc]. set (g0 := revived now g) in *. set (g' := gate_handout kind s p now g) in *.
  pose proof (count_bounds _ _ _ W0) as Cb. destruct (handed_spec _ s now g0 (go_writers _ _ _ W0) Cb Oc) as (_ & _ & _ & _ & Ho & Ha & Ht & Hc). rewrite <- Wr in *.
  assert (Pre : exists n0 m0 a0 o0, in_window n0 m0 a0 o0 g0 /\ n <= n0 /\ m <= m0 /\ (0 < m -> m0 = m) /\ a + turn_time o now <= a0 + turn_time o0 now /\ (o0 = None \/ o0 = o)).
  { destruct Wd as [(_ & -> & -> & -> & ->)|[No Iw]].
    - exists 0, 0, 0, None. split; [|repeat split; auto; lia]. split; [lia|done| |by intros Q]. intros _. destruct (so_millis _ _ (go_slot _ _ _ W0)) as [Q _]. unfold millisecond. split; [lia|done].
    - assert (g0 = g) as -> by (subst g0; unfold revived; by rewrite (not_lapsed clock now g (go_hold _ _ _ W) No U L)).
      exists n, m, a, o. split; [exact Iw|]. repeat split; try lia; auto. }
  destruct Pre as (n0 & m0 & a0 & o0 & [I1 I2 I3 I4] & En & Em & Em' & Ea & Eo). right.
  assert (Nq : ~ old_hold g').
  { intros [Q1 Q2]. unfold quarantined in Q1. subst g'. destruct (handout_eq kind s p now g) as (k' & t' & E). rewrite E in Q1, Q2. cbv zeta in Q1, Q2. fold g0 in Q1, Q2.
    revert Q1 Q2. unfold evaluate. cbn [g_hold]. rewrite Oh. cbn [is_zero_time negb]. change (is_zero_time zero_time) with true. cbn [negb]. repeat case_match; cbn; intros; lia || done. }
  split; [exact Nq|]. destruct (I3 (fun Q => Q Oh)) as [J1 J2]. pose proof (turn_open now now o0 g0 (go_slot _ _ _ W0) (Z.le_refl _) J2) as Tt.
  split.
  - lia.
  - intros Sh Mp. destruct (String.eqb_spec s x) as [->|Ne].
    + split; [|exists now; auto]. destruct (Z.eq_dec m 0) as [->|Mn]; [lia|]. assert (0 < m) as Mm by lia.
      destruct (I2 Sh ltac:(lia)) as (Th & t & At & Tt0 & Tz). rewrite Hc; [rewrite (Em' Mm) in Th; lia|].
      unfold handout_cooled, last_handout. rewrite At. cbn [from_option]. change (id t) with t. rewrite (later_not_zero _ Tz). cbn [negb andb].
      rewrite (later_not_zero _ Tz). cbn [negb andb]. apply negb_false_iff, Z.ltb_lt. lia.
    + destruct (Ho x (not_eq_sym Ne)) as [Hx1 Hx2]. destruct (I2 Sh ltac:(lia)) as (Th & t & At & Tt0). rewrite Hx1, Hx2. split; [rewrite (Em' ltac:(lia)) in Th; lia|eauto].
  - intros _. split; [lia|]. intros t [= <-]. split; [done|lia].
  - intros _. unfold AuthoringEpisodeSlotLimit. lia.
Qed.

Lemma report_window clock s p o' d now g n m a o : gate_ok clock true g -> clock <= now -> zero_time < now -> t0 <= now -> window_ok n m a o g ->
  window_ok n m (a + turn_time o now) None (gate_report s p o' d now g).
Proof.
  intros W C P T Wd. destruct (report_spec clock s p o' d now g W C P) as (W' & Cn & Op & Sl & Th & At & Q). set (g' := gate_report s p o' d now g) in *.
  destruct Wd as [((Q1 & Q2) & -> & -> & -> & ->)|[No [I1 I2 I3 I4]]].
  - left. unfold old_hold, quarantined. rewrite (Q Q1). done.
  - right. assert (Nq : ~ old_hold g').
    { intros [Q1 Q2]. unfold quarantined in Q1. destruct (Z.eq_dec (wh_QuarantinedAt (g_hold g)) zero_time) as [Z|Z]; [|rewrite (Q Z) in Q1, Q2; by apply No].
      destruct (report_eq s p o' d now g) as [t E]. fold g' in E. set (c := classified _ _ _ _) in E. assert (Hc : g_hold c = g_hold g).
      { destruct W as [_ A X H S Wr]. assert (Cf : classifies (set_totals t (set_slot (opened now g) g)) c) by (apply classified_classifies; [exact (proj1 A)|exact X|destruct Wr; by split|exact (ho_identity _ _ H)]).
        exact (cf_hold _ _ Cf). }
      revert Q1 Q2. rewrite E. unfold evaluate. rewrite Hc, Z. change (is_zero_time zero_time) with true. cbn [negb]. repeat case_match; cbn; rewrite ?Hc; intros; lia || done. }
    split; [exact Nq|]. pose proof (turn_limit o now) as Tl. destruct (Z.eq_dec (wh_QuarantinedAt (g_hold g)) zero_time) as [Z|Z].
    + destruct (I3 (fun K => K Z)) as [J1 J2]. pose proof (turn_open _ now o g (go_slot _ _ _ W) C J2) as Tt.
      assert (a + turn_time o now <= sl_EpisodeSlotMillis (g_slot g') * millisecond) as B by lia. destruct (so_millis _ _ (go_slot _ _ _ W')) as [_ Mm]. split; [lia| |done|].
      * intros Sh Mp. destruct (I2 Sh Mp) as (Th' & At'). rewrite At. split; [specialize (Th x); lia|done].
      * intros _. unfold AuthoringEpisodeSlotLimit, AuthoringEpisodeDispatchBudget, AuthoringAttemptSlotLimit, minute, millisecond in *. lia.
    + specialize (I4 Z). split; [lia| | |intros _; destruct o; lia].
      * intros Sh Mp. destruct (I2 Sh Mp) as (Th' & At'). rewrite At. split; [specialize (Th x); lia|done].
      * intros K. destruct K. unfold quarantined. by rewrite (Q Z).
Qed.

Lemma reconcile_window clock claimed now g n m a o : gate_ok clock claimed g -> clock <= now -> zero_time < now -> t0 <= now -> window_ok n m a o g ->
  window_ok n m a o (reconcile_gate now g).
Proof.
  intros W C P T Wd. destruct (reconcile_spec clock claimed now g W C P) as (W' & Cn & Wr & _ & [->|(Z & Q & Sl & Op)]); [done|].
  destruct Wd as [([Q1 _] & _)|[No [I1 I2 I3 I4]]]; [done|]. right. split; [intros [_ K]; lia|]. destruct (I3 (fun K => K Z)) as [J1 J2].
  split; [lia|rewrite Wr; exact I2| |].
  - intros K. destruct K. unfold quarantined. lia.
  - intros _. destruct (so_millis _ _ (go_slot _ _ _ W)) as [_ Mm]. unfold AuthoringEpisodeSlotLimit, AuthoringEpisodeDispatchBudget, AuthoringAttemptSlotLimit, minute, millisecond in *.
    destruct o as [t|]; [|lia]. destruct (J2 t eq_refl) as [<- N]. destruct (so_open _ _ (go_slot _ _ _ W) N) as [_ L]. lia.
Qed.

Lemma select_window n m a o t ax g : window_ok n m a o g -> window_ok n m a o (select t ax g).
Proof. intros [Wd|[No [I1 I2 I3 I4]]]; [by left|right]. split; [done|by split]. Qed.

Lemma window_run axis evs : forall s s' n m a o, gate_ok (gs_clock s) (gs_claimed s) (gs_gate s) -> window_ok n m a o (gs_gate s) -> 0 <= m ->
  gate_run axis evs s = Some s' -> undisturbed evs = true -> Forall (fun e => t0 <= fst e) evs -> gs_clock s' <= until -> until < t0 + AuthoringQuarantineCooldown ->
  n + handouts evs <= 10 /\ (until < t0 + AuthoringSessionHandoutCooldown -> m + handouts_to x evs <= 4) /\ a + slot_used o evs until <= AuthoringEpisodeSlotLimit.
Proof.
  induction evs as [|[now e] evs IH]; intros [clock claimed g] s' n m a o W Wd M0; cbn [gate_run gs_clock gs_claimed gs_gate] in *.
  - intros [= <-] _ _ _ _. cbn [handouts handouts_to length List.filter slot_used]. unfold handouts, handouts_to. cbn [List.filter length].
    pose proof (count_bounds _ _ _ W) as Cb. pose proof (turn_limit o until) as Tl. destruct Wd as [(_ & -> & -> & -> & ->)|[No [I1 I2 I3 I4]]].
    + cbn. unfold AuthoringEpisodeSlotLimit, AuthoringEpisodeDispatchBudget, AuthoringAttemptSlotLimit, minute. lia.
    + split; [lia|]. split.
      * intros Sh. destruct (Z.eq_dec m 0); [lia|]. destruct (I2 Sh ltac:(lia)) as [Th _]. destruct W as [_ _ _ _ _ [W1 W2 _ _]]. specialize (W1 x). specialize (W2 x).
        unfold theta, AuthoringMaxSessionHandouts, AuthoringSessionRefunds in *. lia.
      * destruct (Z.eq_dec (wh_QuarantinedAt (g_hold g)) zero_time) as [Z|Z]; [|specialize (I4 Z); lia]. destruct (I3 (fun K => K Z)) as [J1 J2].
        destruct (so_millis _ _ (go_slot _ _ _ W)) as [_ Mm]. unfold AuthoringEpisodeSlotLimit, AuthoringEpisodeDispatchBudget, AuthoringAttemptSlotLimit, minute, millisecond in *.
        destruct o as [t|]; [|lia]. destruct (J2 t eq_refl) as [<- N]. destruct (so_open _ _ (go_slot _ _ _ W) N) as [_ L]. lia.
  - destruct (gate_allows axis now e (mkGateState clock claimed g)) eqn:L; [|done]. intros R Un F Cu U. apply Forall_cons_1 in F as [T F]. cbn [fst] in T.
    pose proof (gate_step_ok axis now e (mkGateState clock claimed g) W L) as W'. pose proof (run_clock _ _ _ _ R) as Ck. cbn [gs_clock] in Ck. cbn [undisturbed forallb snd] in Un. apply andb_true_iff in Un as [Ue Un].
    unfold gate_allows in L. cbn [gs_clock gs_claimed gs_gate] in *. rewrite !andb_true_iff in L. destruct L as [[P%Z.ltb_lt C%Z.leb_le] L].
    destruct e as [kind sid p t ax|sid p oc d|sid| | |t ax]; try done; cbn [gate_next next_claimed] in *.
    + apply negb_true_iff in L. assert (now <= until) as Nu by lia. pose proof (handout_window clock claimed kind sid p now (select t ax g) n m a o (select_ok _ _ t ax _ W) C P T Nu U (not_barred claimed axis _ _ t ax _ (go_writers _ _ _ W) L) (select_window n m a o t ax g Wd) M0) as Wd'.
      destruct (IH (mkGateState now true (gate_handout kind sid p now (select t ax g))) s' _ _ _ _ W' Wd' ltac:(destruct (String.eqb sid x); lia) R Un F Cu U) as (A1 & A2 & A3).
      cbn [slot_used]. unfold handouts, handouts_to in *. cbn [List.filter is_handout handout_to snd]. split; [cbn [length]; lia|]. split; [|lia]. intros Sh. specialize (A2 Sh).
      destruct (String.eqb sid x); cbn [length]; lia.
    + apply andb_true_iff in L as [-> Vo]. destruct (IH (mkGateState now false (gate_report sid p oc d now g)) s' _ _ _ _ W' (report_window _ sid p oc d now g _ _ _ _ W C P T Wd) M0 R Un F Cu U) as (A1 & A2 & A3).
      cbn [slot_used]. unfold handouts, handouts_to in *. cbn [List.filter is_handout handout_to snd]. split; [lia|]. split; [done|lia].
    + exact (IH (mkGateState now claimed (reconcile_gate now g)) s' _ _ _ _ W' (reconcile_window _ _ now g _ _ _ _ W C P T Wd) M0 R Un F Cu U).
    + exact (IH (mkGateState now claimed (select t ax g)) s' _ _ _ _ W' (select_window n m a o t ax g Wd) M0 R Un F Cu U).
Qed.
End window.

(** The ledger bounds what one coordinate can cost.  In any window of less than
    thirty days in which no sample of the coordinate is written and no
    operator reopens it, its work is handed out at most ten times and takes at
    most two hours and fifty minutes of slot time, and in a window of less
    than a day one writer gets it at most four times - whatever the writers
    report, when they stop, and whatever happened before the window. *)
Theorem authoring_cost_is_bounded axis before during s0 s1 t0 until sessionID :
  gate_run axis before fresh_gate = Some s0 -> gate_run axis during s0 = Some s1 ->
  undisturbed during = true -> Forall (fun e => t0 <= fst e) during -> gs_clock s1 <= until < t0 + AuthoringQuarantineCooldown ->
  handouts during <= 10 /\ slot_used None during until <= AuthoringEpisodeSlotLimit
  /\ (until < t0 + AuthoringSessionHandoutCooldown -> handouts_to sessionID during <= 4).
Proof.
  intros R0 R1 Un F [C U]. pose proof (gate_run_ok axis before fresh_gate s0 new_gate_ok R0) as W.
  assert (Wd : window_ok t0 until sessionID 0 0 0 None (gs_gate s0)).
  { destruct (decide (wh_QuarantinedAt (g_hold (gs_gate s0)) <> zero_time /\ wh_QuarantinedAt (g_hold (gs_gate s0)) < t0)) as [O|O]; [by left|right]. split; [done|]. pose proof (count_bounds _ _ _ W) as Cb.
    destruct (so_millis _ _ (go_slot _ _ _ W)) as [M _]. split; [lia|intros; lia| |].
    - intros _. unfold millisecond. split; [lia|done].
    - intros _. unfold AuthoringEpisodeSlotLimit, AuthoringEpisodeDispatchBudget, AuthoringAttemptSlotLimit, minute. lia. }
  destruct (window_run t0 until sessionID axis during s0 s1 0 0 0 None W Wd ltac:(lia) R1 Un F C U) as (A1 & A2 & A3). split; [lia|]. split; [lia|]. intros Sh. specialize (A2 Sh). lia.
Qed.

(** ** A measured impossibility *)

Definition speaker (sessionID peerID : string) : string := if String.eqb peerID "" then sessionID else peerID.
Definition measured_by (o : AuthoringOutcome) (evs : list (Z * gate_event)) (peer : string) : Prop :=
  exists now s p d, In (now, GReport s p o d) evs /\ peer = speaker s p.

Definition evidence_for (o : AuthoringOutcome) (g : authoringAxisLedger) : gset string :=
  match o with NoCallableSymbol => pe_NoSymbolBy (g_evidence g) | UnsupportedEnvironment => pe_UnsupportedBy (g_evidence g) | _ => ∅ end.

Lemma evaluate_evidence now g : g_evidence (evaluate now g) = g_evidence g.
Proof. by destruct (evaluate_eq now g) as [h ->]. Qed.

Lemma classified_evidence s p o o' g : evidence_for o (classified s p o' g) ⊆ evidence_for o g ∪ (if decide (o = o') then {[p]} else ∅).
Proof.
  assert (E : forall c, evidence_for c (ensurePeerEvidence g) ⊆ evidence_for c g).
  { intros c. unfold ensurePeerEvidence. destruct (String.eqb _ _); [done|]. destruct c; cbn; set_solver. }
  destruct o; cbn [evidence_for]; try set_solver.
  - pose proof (E NoCallableSymbol) as En. cbn [evidence_for] in En.
    destruct o'; cbn [classified]; unfold refund, measured_impossible, measured_unsupported, exclude_writer; repeat case_match; cbn; set_solver.
  - pose proof (E UnsupportedEnvironment) as En. cbn [evidence_for] in En.
    destruct o'; cbn [classified]; unfold refund, measured_impossible, measured_unsupported, exclude_writer; repeat case_match; cbn; set_solver.
Qed.

Lemma next_evidence o now e g : evidence_for o (gate_next now e g) ⊆
  evidence_for o g ∪ match e with GReport s p o' _ => if decide (o = o') then {[speaker s p]} else ∅ | _ => ∅ end.
Proof.
  assert (Cl : forall g, evidence_for o (clearGates now g) = ∅) by (intros g1; by destruct o).
  assert (Ev : forall g1 g2, g_evidence g1 = g_evidence g2 -> evidence_for o g1 = evidence_for o g2) by (intros g1 g2 E; unfold evidence_for; by rewrite E).
  destruct e as [kind s p t a|s p o' d|s| | |t a]; cbn [gate_next].
  - fold (select t a g). destruct (handout_eq kind s p now (select t a g)) as (k' & t' & ->). rewrite (Ev _ (revived now (select t a g))) by (by rewrite evaluate_evidence).
    unfold revived. destruct (lapsed now _); [rewrite Cl; set_solver|]. rewrite (Ev _ g) by done. set_solver.
  - destruct (report_eq s p o' d now g) as [t ->]. erewrite (Ev (evaluate _ _)) by apply evaluate_evidence. etrans; [apply classified_evidence|]. by rewrite (Ev _ g).
  - unfold gate_authored. rewrite Cl. set_solver.
  - unfold reopen_gate. destruct (Withheld now g); [rewrite Cl|]; set_solver.
  - unfold reconcile_gate. destruct (exhausted now g); [|set_solver]. rewrite settle_eq. rewrite (Ev _ g) by done. set_solver.
  - rewrite (Ev _ g) by done. set_solver.
Qed.

Lemma run_evidence axis o evs s s' : gate_run axis evs s = Some s' -> forall p, p ∈ evidence_for o (gs_gate s') -> p ∈ evidence_for o (gs_gate s) \/ measured_by o evs p.
Proof.
  revert s. induction evs as [|[now e] evs IH]; intros s; cbn [gate_run]; [intros [= <-]; auto|]. destruct (gate_allows axis now e s); [|done]. intros R p H.
  destruct (IH _ R p H) as [K|(t & a & b & d & I & E)]; [|right; exists t, a, b, d; split; [by right|done]]. cbn [gs_gate] in K.
  apply next_evidence in K. apply elem_of_union in K as [K|K]; [by left|]. destruct e as [ | a b o' d| | | | ]; try set_solver. case_decide as D; [|set_solver]. subst o'.
  apply elem_of_singleton in K as ->. right. exists now, a, b, d. split; [by left|done].
Qed.

Lemma two_members (X : gset string) : (2 <= size X)%nat -> exists p q, p <> q /\ p ∈ X /\ q ∈ X.
Proof.
  intros H. pose proof (NoDup_elements X) as N. assert (L : length (elements X) = size X) by done. destruct (elements X) as [|p [|q l]] eqn:E; cbn in L; [lia|lia|].
  exists p, q. apply list.NoDup_cons in N as [N _]. split; [intros ->; apply N; by left|]. rewrite <- !elem_of_elements, E. split; [by left|by right; left].
Qed.

Definition terminal_reason (o : AuthoringOutcome) : AuthoringReason :=
  match o with NoCallableSymbol => ReasonNoCallableSymbol | UnsupportedEnvironment => ReasonUnsupportedEnvironment | _ => NoReason end.
Definition terminal (o : AuthoringOutcome) : Prop := o = NoCallableSymbol \/ o = UnsupportedEnvironment.

(** A permanent withholding is not touched by anything but a sample or an
    operator. *)
Lemma held_for_good axis evs s s' : gate_ok (gs_clock s) (gs_claimed s) (gs_gate s) -> quarantined (gs_gate s) -> wh_ReopensAt (g_hold (gs_gate s)) = zero_time ->
  undisturbed evs = true -> gate_run axis evs s = Some s' -> handouts evs = 0 /\ g_hold (gs_gate s') = g_hold (gs_gate s).
Proof.
  revert s. induction evs as [|[now e] evs IH]; intros [clock claimed g] W Q R Un; cbn [gate_run gs_gate gs_clock gs_claimed] in *; [by intros [= <-]|].
  destruct (gate_allows axis now e (mkGateState clock claimed g)) eqn:L; [|done]. pose proof (gate_step_ok axis now e (mkGateState clock claimed g) W L) as W'.
  cbn [undisturbed forallb snd] in Un. apply andb_true_iff in Un as [Ue Un]. unfold gate_allows in L. cbn [gs_clock gs_claimed gs_gate] in L, W'.
  rewrite !andb_true_iff in L. destruct L as [[P%Z.ltb_lt C%Z.leb_le] L]. intros Run.
  assert (Nx : is_handout (now, e) = false /\ g_hold (gate_next now e g) = g_hold g).
  { destruct e as [kind s p t a|s p o d|s| | |t a]; try done; cbn [gate_next].
    - apply negb_true_iff in L. unfold gate_barred, Withheld in L. rewrite (proj2 (is_zero_neq _) Q), R in L. done.
    - apply andb_true_iff in L as [-> _]. split; [done|]. by apply (report_spec _ s p o d now g W C P).
    - split; [done|]. unfold reconcile_gate, exhausted. by rewrite (proj2 (is_zero_neq _) Q). }
  destruct Nx as [N1 N2]. destruct (IH (mkGateState now (next_claimed e claimed) (gate_next now e g)) W') as [H1 H2]; [cbn [gs_gate]; unfold quarantined; by rewrite N2..|done|done|].
  cbn [gs_gate] in H2. rewrite H2, N2. split; [|done]. unfold handouts in *. cbn [List.filter]. by rewrite N1.
Qed.

(** A coordinate is given up only on the word of two.  Work withheld because
    nothing there can be called, or because no image can build it, was measured
    so by two different peers; it is then not handed out again, however much
    time passes, until a sample is written or an operator reopens it. *)
Theorem given_up_on_two_words axis o evs s :
  gate_run axis evs fresh_gate = Some s -> terminal o -> wh_QuarantineReason (g_hold (gs_gate s)) = terminal_reason o ->
  (exists p q, p <> q /\ measured_by o evs p /\ measured_by o evs q)
  /\ forall more s', undisturbed more = true -> gate_run axis more s = Some s' -> handouts more = 0 /\ forall now, Withheld now (gs_gate s') = true.
Proof.
  intros R T E. pose proof (gate_run_ok axis evs fresh_gate s new_gate_ok R) as W. pose proof (ho_reason _ _ (go_hold _ _ _ W)) as Hr. rewrite E in Hr.
  assert (K : wh_ReopensAt (g_hold (gs_gate s)) = zero_time /\ (2 <= size (evidence_for o (gs_gate s)))%nat) by (by destruct T as [-> | ->]).
  assert (Q : quarantined (gs_gate s)).
  { intros Z. destruct (ho_none _ _ (go_hold _ _ _ W) Z) as [N _]. rewrite E in N. by destruct T as [-> | ->]. }
  destruct K as [Z K]. split.
  - apply two_members in K as (p & q & N & Ip & Iq). exists p, q. split; [done|].
    destruct (run_evidence _ o _ _ _ R p Ip) as [F|Mp]; [by destruct o|]. destruct (run_evidence _ o _ _ _ R q Iq) as [F|Mq]; [by destruct o|]. done.
  - intros more s' Un R'. destruct (held_for_good axis more s s' W Q Z Un R') as [H0 Hh]. split; [done|]. intros now. unfold Withheld. rewrite Hh, (proj2 (is_zero_neq _) Q), Z. done.
Qed.

(** A first look that measured nothing, and a second one. *)
Definition quiet_day : list (Z * gate_event) :=
  [(minute, GHandout "WANTED" "s1" "m1" no_totals AuthoringAxisSample); (4 * minute, GReport "s1" "m1" Transient "registry down"); (10 * minute, GHandout "WANTED" "s1" "m1" no_totals AuthoringAxisSample);
   (20 * minute, GReport "s1" "m1" NoOutputOutcome "")].

Lemma authoring_cost_is_bounded_witness :
  slot_used None quiet_day (30 * minute) = 13 * minute
  /\ handouts quiet_day <= 10 /\ slot_used None quiet_day (30 * minute) <= AuthoringEpisodeSlotLimit /\ handouts_to "s1" quiet_day <= 4.
Proof.
  split; [reflexivity|]. assert (R : exists s, gate_run AuthoringAxisSample quiet_day fresh_gate = Some s /\ gs_clock s = 20 * minute) by (eexists; split; vm_compute; reflexivity).
  destruct R as (s & R & C). destruct (authoring_cost_is_bounded AuthoringAxisSample [] quiet_day fresh_gate s 0 (30 * minute) "s1") as (H1 & H2 & H3);
    [reflexivity|exact R|reflexivity|repeat constructor; vm_compute; discriminate|rewrite C; vm_compute; split; [discriminate|reflexivity]|].
  split; [exact H1|]. split; [exact H2|]. apply H3. vm_compute. reflexivity.
Defined.

(** Two machines find nothing to call. *)
Definition two_words : list (Z * gate_event) :=
  [(minute, GHandout "WANTED" "s1" "m1" no_totals AuthoringAxisSample); (4 * minute, GReport "s1" "m1" NoCallableSymbol "a pom"); (10 * minute, GHandout "WANTED" "s2" "m2" no_totals AuthoringAxisSample);
   (20 * minute, GReport "s2" "m2" NoCallableSymbol "no jar")].

Lemma given_up_on_two_words_witness :
  exists p q, p <> q /\ measured_by NoCallableSymbol two_words p /\ measured_by NoCallableSymbol two_words q.
Proof.
  assert (R : exists s, gate_run AuthoringAxisSample two_words fresh_gate = Some s /\ wh_QuarantineReason (g_hold (gs_gate s)) = ReasonNoCallableSymbol)
    by (eexists; split; vm_compute; reflexivity).
  destruct R as (s & R & E). exact (proj1 (given_up_on_two_words AuthoringAxisSample NoCallableSymbol two_words s R (or_introl eq_refl) E)).
Defined.
