(* ===== verification/Authoring.v ===== *)
(** * Authoring sessions and assignments (internal/serverstore/authoring.go,
      authoring_fake.go)

    The reference store of the writers' side: the sessions of the farm, the
    coordinates they hold, and the ledger of attempts behind each coordinate
    (Ledger.v).  An operation runs under the store's mutex and is given one
    reading of the clock.  A [range] over the assignments visits them in any
    order, so the operations that leave the loop early take the order from
    [GoMapRange]; a session is found by its id, which at most one row has. *)

From stdpp Require Import gmap.
From S2P Require Import Prelude GoStrings GoUnicode GoStd StringFacts WordFacts Calendar Purl Env Targets Validate Queue Ledger.

#[local] Open Scope csx_scope.

(** ** Rows *)

Definition MaxAuthoringSessions : Z := 64.

Inductive session_error := ErrAuthoringSessionLimit | ErrAuthoringSessionMissing | ErrAuthoringSessionExpired.

Record AuthoringSessionRow := mkSession {
  se_TokenHash : string; se_SessionID : string; se_Label : string; se_Model : string; se_Reasoning : string; se_IssuedAt : Z; se_LastRefreshAt : Z;
  se_IdleExpiresAt : Z; se_LastRefreshIP : string; se_ComputerName : string; se_RevokedAt : Z }.

(** What a claim reads of a [WantedRow]. *)
Record WantedRow := mkWanted {
  wa_Ecosystem : string; wa_Name : string; wa_Version : string; wa_Symbol : string; wa_Asks : Z; wa_Kind : string; wa_Score : Z; wa_Axis : string }.

(** [strings.LastIndex]. *)
Fixpoint LastIndex (s sub : string) : option nat :=
  match s with
  | "" => if HasPrefix "" sub then Some O else None
  | String _ s' => match LastIndex s' sub with Some i => Some (S i) | None => if HasPrefix s sub then Some O else None end
  end%string.

Definition authoringPeerIdentity (sessionID label computerName : string) : string :=
  let peer := TrimSpace computerName in
  if negb (String.eqb peer "") then peer
  else
    let peer := TrimSpace label in
    let peer := match LastIndex peer "-slot" with Some (S i) => str_take (S i) peer | _ => peer end in
    if negb (String.eqb peer "") then peer else sessionID.

Record authoring_store := mkAuthoring {
  au_authoring : gmap string AuthoringSessionRow;
  au_authoringWork : gmap work_key AuthoringWorkRow;
  au_authoringAttempts : gmap work_key authoringLedger }.
Definition new_authoring_store : authoring_store := mkAuthoring ∅ ∅ ∅.

Definition set_sessions v st := mkAuthoring v (au_authoringWork st) (au_authoringAttempts st).
Definition set_assignments v st := mkAuthoring (au_authoring st) v (au_authoringAttempts st).
Definition set_attempts v st := mkAuthoring (au_authoring st) (au_authoringWork st) v.

(** ** Sessions *)

Definition session_live (now : Z) (row : AuthoringSessionRow) : bool := is_zero_time (se_RevokedAt row) && (now <? se_IdleExpiresAt row).

Definition session_rows (st : authoring_store) : list AuthoringSessionRow := map snd (map_to_list (au_authoring st)).
Definition find_session (sessionID : string) (st : authoring_store) : option AuthoringSessionRow :=
  find (fun row => String.eqb (se_SessionID row) sessionID) (session_rows st).

(** The rows are checked one after the other against the store and against
    those before them. *)
Fixpoint issue_clash (st : authoring_store) (seenTokens seenSessions : list string) (rows : list AuthoringSessionRow) : bool :=
  match rows with
  | [] => false
  | row :: rows =>
      is_some (au_authoring st !! se_TokenHash row) || str_in (se_TokenHash row) seenTokens
      || existsb (fun existing => String.eqb (se_SessionID existing) (se_SessionID row)) (session_rows st)
      || str_in (se_SessionID row) seenSessions
      || issue_clash st (se_TokenHash row :: seenTokens) (se_SessionID row :: seenSessions) rows
  end.

Definition active_sessions (now : Z) (st : authoring_store) : list AuthoringSessionRow := List.filter (session_live now) (session_rows st).

Definition IssueAuthoringSessions (rows : list AuthoringSessionRow) (now : Z) (st : authoring_store) : authoring_store * option session_error :=
  if MaxAuthoringSessions <? Z.of_nat (length (active_sessions now st)) + Z.of_nat (length rows) then (st, Some ErrAuthoringSessionLimit)
  else if issue_clash st [] [] rows then (st, Some ErrAuthoringSessionMissing)
  else (set_sessions (fold_left (fun m row => <[se_TokenHash row := row]> m) rows (au_authoring st)) st, None).

Definition rotated (tokenHash : string) (idleExpiresAt : Z) (r : AuthoringSessionRow) : AuthoringSessionRow :=
  mkSession tokenHash (se_SessionID r) (se_Label r) (se_Model r) (se_Reasoning r) (se_IssuedAt r) zero_time idleExpiresAt "" "" (se_RevokedAt r).

Definition RotateAuthoringSession (sessionID tokenHash : string) (now idleExpiresAt : Z) (st : authoring_store) : authoring_store * (AuthoringSessionRow + session_error) :=
  match au_authoring st !! tokenHash with
  | Some _ => (st, inr ErrAuthoringSessionMissing)
  | None =>
      match find (fun x => String.eqb (se_SessionID (snd x)) sessionID && session_live now (snd x)) (map_to_list (au_authoring st)) with
      | Some (oldHash, row) =>
          let row := rotated tokenHash idleExpiresAt row in (set_sessions (<[tokenHash := row]> (delete oldHash (au_authoring st))) st, inl row)
      | None => (st, inr ErrAuthoringSessionMissing)
      end
  end.

Definition refreshed (ip computerName : string) (now idleExpiresAt : Z) (r : AuthoringSessionRow) : AuthoringSessionRow :=
  mkSession (se_TokenHash r) (se_SessionID r) (se_Label r) (se_Model r) (se_Reasoning r) (se_IssuedAt r) now idleExpiresAt
    (if String.eqb ip "" then se_LastRefreshIP r else ip) (if String.eqb computerName "" then se_ComputerName r else computerName) (se_RevokedAt r).

Definition RefreshAuthoringSession (tokenHash ip computerName : string) (now idleExpiresAt : Z) (st : authoring_store) :
    authoring_store * (AuthoringSessionRow + session_error) :=
  match au_authoring st !! tokenHash with
  | Some row =>
      if negb (is_zero_time (se_RevokedAt row)) then (st, inr ErrAuthoringSessionMissing)
      else if negb (now <? se_IdleExpiresAt row) then (st, inr ErrAuthoringSessionExpired)
      else if is_zero_time (se_LastRefreshAt row) || negb (now - 5 * minute <? se_LastRefreshAt row)
      then let row := refreshed ip computerName now idleExpiresAt row in (set_sessions (<[tokenHash := row]> (au_authoring st)) st, inl row)
      else (st, inl row)
  | None => (st, inr ErrAuthoringSessionMissing)
  end.

Definition revoked (now : Z) (r : AuthoringSessionRow) : AuthoringSessionRow :=
  mkSession (se_TokenHash r) (se_SessionID r) (se_Label r) (se_Model r) (se_Reasoning r) (se_IssuedAt r) (se_LastRefreshAt r) (se_IdleExpiresAt r)
    (se_LastRefreshIP r) (se_ComputerName r) now.

(** An assignment somebody still works on. *)
Definition open_work (w : AuthoringWorkRow) : bool := String.eqb (aw_SampleID w) "".

Definition RevokeAuthoringSession (sessionID : string) (now : Z) (st : authoring_store) : authoring_store * bool :=
  match find (fun x => String.eqb (se_SessionID (snd x)) sessionID && is_zero_time (se_RevokedAt (snd x))) (map_to_list (au_authoring st)) with
  | Some (key, row) =>
      (mkAuthoring (<[key := revoked now row]> (au_authoring st))
         (filter (fun x => String.eqb (aw_SessionID (snd x)) sessionID && open_work (snd x) = false) (au_authoringWork st)) (au_authoringAttempts st), true)
  | None => (st, false)
  end.

Definition session_lt (a b : AuthoringSessionRow) : bool :=
  if se_IssuedAt a =? se_IssuedAt b then str_lt (se_SessionID a) (se_SessionID b) else se_IssuedAt b <? se_IssuedAt a.
Definition ListAuthoringSessions `{!GoSort} `{!GoMapRange} (now limit : Z) (st : authoring_store) : list AuthoringSessionRow :=
  let limit := if (limit <? 1) || (MaxAuthoringSessions <? limit) then MaxAuthoringSessions else limit in
  firstn (Z.to_nat limit) (sort_slice session_lt (List.filter (session_live now) (range_order (session_rows st)))).

(** ** Assignments *)

Definition authoringWorkKey (ecosystem name version symbol : string) : work_key := (ecosystem, name, version, symbol).
Definition work_coordinate (w : AuthoringWorkRow) : work_key := authoringWorkKey (aw_Ecosystem w) (aw_Name w) (aw_Version w) (aw_Symbol w).
Definition candidate_key (c : WantedRow) : work_key := authoringWorkKey (wa_Ecosystem c) (wa_Name c) (wa_Version c) (wa_Symbol c).
(** [authoringAxisWorkKey]. *)
Definition authoringAxisWorkKey (k : work_key) (axis : string) : work_key * string := (k, normalizeAuthoringAxis axis).

Definition authoringPeerID (sessionID : string) (st : authoring_store) : string :=
  match find_session sessionID st with Some row => authoringPeerIdentity sessionID (se_Label row) (se_ComputerName row) | None => sessionID end.

(** A session the store never saw is not judged dead. *)
Definition sessionLive (now : Z) (id : string) (st : authoring_store) : bool :=
  match find_session id st with Some row => session_live now row | None => true end.

Definition ledger_at (key : work_key) (st : authoring_store) : authoringLedger := default (newAuthoringLedger key) (au_authoringAttempts st !! key).

Definition noteAuthoringHandout (key : work_key) (kind axis sessionID peerID : string) (now : Z) (st : authoring_store) : authoring_store :=
  set_attempts (<[key := handout kind axis sessionID peerID now (ledger_at key st)]> (au_authoringAttempts st)) st.

Definition release (key : work_key) (st : authoring_store) : authoring_store := set_assignments (delete key (au_authoringWork st)) st.

(** [ledger.reconcileBudget], then [ledger.barred]. *)
Definition reconcile_at (key : work_key) (axis : string) (now : Z) (st : authoring_store) : authoring_store :=
  set_attempts (alter (reconcileBudget axis now) key (au_authoringAttempts st)) st.
Definition barred_at (key : work_key) (axis sessionID : string) (now : Z) (st : authoring_store) : bool :=
  match au_authoringAttempts st !! key with Some l => barred axis sessionID now l | None => false end.
(** The ledger is due another turn of the same claim. *)
Definition debounced (key : work_key) (now : Z) (st : authoring_store) : bool :=
  match au_authoringAttempts st !! key with Some l => negb (now <? tt_LastAttemptAt (g_totals (l_gate l)) + AuthoringAttemptDebounce) | None => true end.

(** How the walk over the assignments ends: with the claim the session already
    holds, or with nothing held. *)
Inductive swept := Kept (work : AuthoringWorkRow) (st : authoring_store) | Free (st : authoring_store).

Section claim.
  Context (sessionID peerID : string) (candidates : list WantedRow) (now : Z).

Definition eligible (work : AuthoringWorkRow) : bool :=
  existsb (fun c => bool_decide (authoringAxisWorkKey (candidate_key c) (wa_Axis c) = authoringAxisWorkKey (work_coordinate work) (aw_Axis work))) candidates.

Definition keep_claim (key : work_key) (work : AuthoringWorkRow) (st : authoring_store) : swept :=
  let st := reconcile_at key (aw_Axis work) now st in
  if barred_at key (aw_Axis work) sessionID now st then Free (release key st)
  else Kept work (if debounced key now st then noteAuthoringHandout key (aw_Kind work) (aw_Axis work) sessionID peerID now st else st).

Fixpoint sweep (entries : list (work_key * AuthoringWorkRow)) (st : authoring_store) : swept :=
  match entries with
  | [] => Free st
  | (key, work) :: entries =>
      if open_work work && negb (now <? aw_LeaseExpiresAt work) then sweep entries (release key st)
      else if open_work work && negb (sessionLive now (aw_SessionID work) st) then sweep entries (release key st)
      else if String.eqb (aw_SessionID work) sessionID && open_work work && (now <? aw_LeaseExpiresAt work)
      then if eligible work then keep_claim key work st else sweep entries (release key st)
      else sweep entries st
  end.

Definition new_claim (c : WantedRow) (leaseExpiresAt : Z) : AuthoringWorkRow :=
  mkWork (wa_Ecosystem c) (wa_Name c) (wa_Version c) (wa_Symbol c) (wa_Asks c) (if String.eqb (wa_Kind c) "" then "WANTED" else wa_Kind c)
    (normalizeAuthoringAxis (wa_Axis c)) (wa_Score c) sessionID now leaseExpiresAt "".

(** The coordinate is taken, unless by a finished assignment of another axis. *)
Definition taken (c : WantedRow) (st : authoring_store) : bool :=
  match au_authoringWork st !! candidate_key c with
  | Some existing => open_work existing || String.eqb (normalizeAuthoringAxis (aw_Axis existing)) (normalizeAuthoringAxis (wa_Axis c))
  | None => false
  end.

Fixpoint pick_candidate (sampleOnly : bool) (leaseExpiresAt : Z) (cs : list WantedRow) (st : authoring_store) : authoring_store * option AuthoringWorkRow :=
  match cs with
  | [] => (st, None)
  | c :: cs =>
      if sampleOnly && negb (String.eqb (normalizeAuthoringAxis (wa_Axis c)) AuthoringAxisSample) then pick_candidate sampleOnly leaseExpiresAt cs st
      else if taken c st then pick_candidate sampleOnly leaseExpiresAt cs st
      else
        let key := candidate_key c in
        let st := reconcile_at key (wa_Axis c) now (release key st) in
        if barred_at key (wa_Axis c) sessionID now st then pick_candidate sampleOnly leaseExpiresAt cs st
        else
          let work := new_claim c leaseExpiresAt in
          (noteAuthoringHandout key (aw_Kind work) (aw_Axis work) sessionID peerID now (set_assignments (<[key := work]> (au_authoringWork st)) st), Some work)
  end.
End claim.

Definition claimAuthoringWork `{!GoMapRange} (sessionID : string) (candidates : list WantedRow) (now leaseExpiresAt : Z) (sampleOnly : bool) (st : authoring_store) :
    authoring_store * option AuthoringWorkRow :=
  let peerID := authoringPeerID sessionID st in
  match sweep sessionID peerID candidates now (range_order (map_to_list (au_authoringWork st))) st with
  | Kept work st => (st, Some work)
  | Free st => pick_candidate sessionID peerID now sampleOnly leaseExpiresAt candidates st
  end.
Definition ClaimAuthoringWork `{!GoMapRange} sessionID candidates now leaseExpiresAt := claimAuthoringWork sessionID candidates now leaseExpiresAt false.
Definition ClaimAuthoringSampleWork `{!GoMapRange} sessionID candidates now leaseExpiresAt := claimAuthoringWork sessionID candidates now leaseExpiresAt true.

Definition ReportAuthoringOutcome `{!GoMapRange} (sessionID : string) (outcome : AuthoringOutcome) (detail : string) (now : Z) (st : authoring_store) :
    authoring_store * option AuthoringWorkRow :=
  match find (fun x => String.eqb (aw_SessionID (snd x)) sessionID && open_work (snd x) && (now <? aw_LeaseExpiresAt (snd x)))
          (range_order (map_to_list (au_authoringWork st))) with
  | Some (key, work) =>
      (release key (set_attempts (<[key := report sessionID (authoringPeerID sessionID st) outcome detail now (ledger_at key st)]> (au_authoringAttempts st)) st), Some work)
  | None => (st, None)
  end.

Definition ListAuthoringQuarantine `{!GoMapRange} (now limit : Z) (st : authoring_store) : list AuthoringAttemptState :=
  if limit <? 1 then []
  else firstn (Z.to_nat limit) (sortAuthoringQuarantine
         (omap (fun x => quarantineState now (snd x)) (range_order (map_to_list (au_authoringAttempts st))))).

Definition AuthoringAttemptState_of (key : work_key) (st : authoring_store) : option (AuthoringAttemptState * gmap string AuthoringAttemptState) :=
  option_map state (au_authoringAttempts st !! key).

Definition ReopenAuthoringQuarantine (key : work_key) (now : Z) (st : authoring_store) : authoring_store * bool :=
  match au_authoringAttempts st !! key with
  | Some l => let '(l, reopened) := reopen now l in (set_attempts (<[key := l]> (au_authoringAttempts st)) st, reopened)
  | None => (st, false)
  end.

Fixpoint submission_walk (sessionID sampleID : string) (now : Z) (entries : list (work_key * AuthoringWorkRow)) (st : authoring_store) : authoring_store * option AuthoringWorkRow :=
  match entries with
  | [] => (st, None)
  | (key, work) :: entries =>
      if open_work work && negb (now <? aw_LeaseExpiresAt work) then submission_walk sessionID sampleID now entries (release key st)
      else if String.eqb (aw_SessionID work) sessionID && ((open_work work && (now <? aw_LeaseExpiresAt work)) || String.eqb (aw_SampleID work) sampleID)
      then (st, Some work)
      else submission_walk sessionID sampleID now entries st
  end.
Definition AuthoringWorkForSubmission `{!GoMapRange} (sessionID sampleID : string) (now : Z) (st : authoring_store) : authoring_store * option AuthoringWorkRow :=
  submission_walk sessionID sampleID now (range_order (map_to_list (au_authoringWork st))) st.

Definition with_sample (sampleID : string) (w : AuthoringWorkRow) : AuthoringWorkRow :=
  mkWork (aw_Ecosystem w) (aw_Name w) (aw_Version w) (aw_Symbol w) (aw_Asks w) (aw_Kind w) (aw_Axis w) (aw_Score w) (aw_SessionID w) (aw_ClaimedAt w)
    (aw_LeaseExpiresAt w) sampleID.

Definition AttachAuthoringWorkSample (sessionID : string) (work : AuthoringWorkRow) (sampleID : string) (now : Z) (st : authoring_store) : authoring_store * bool :=
  if negb (String.eqb (normalizeAuthoringAxis (aw_Axis work)) AuthoringAxisSample) then (st, false)
  else
    let key := work_coordinate work in
    match au_authoringWork st !! key with
    | Some current =>
        if negb (String.eqb (aw_SessionID current) sessionID) || negb (open_work current) || negb (now <? aw_LeaseExpiresAt current) then (st, false)
        else if negb (String.eqb (normalizeAuthoringAxis (aw_Axis current)) AuthoringAxisSample) then (st, false)
        else
          let st := set_attempts (alter (authored sessionID now) key (au_authoringAttempts st)) st in
          if (String.eqb (aw_Kind current) "EXPANSION" || String.eqb (aw_Kind current) "DEPENDENCY") && String.eqb (aw_Symbol current) ""
          then (release key st, true)
          else (set_assignments (<[key := with_sample sampleID current]> (au_authoringWork st)) st, true)
    | None => (st, false)
    end.

(** ** Runs of the store

    Each step has its own reading of the clock, which does not go back, and its
    own orders of iteration.  Outcomes are validated before they reach the
    store and a sample has an id.  [OJudged] is the receipt that ends the
    assignments of a sample (Queue.v). *)
Inductive authoring_op :=
| OIssue (rows : list AuthoringSessionRow)
| ORotate (sessionID tokenHash : string) (idleExpiresAt : Z)
| ORefresh (tokenHash ip computerName : string) (idleExpiresAt : Z)
| ORevoke (sessionID : string)
| OClaim (sessionID : string) (candidates : list WantedRow) (leaseExpiresAt : Z) (sampleOnly : bool)
| OReport (sessionID : string) (outcome : AuthoringOutcome) (detail : string)
| OReopen (key : work_key)
| OSubmission (sessionID sampleID : string)
| OAttach (sessionID : string) (work : AuthoringWorkRow) (sampleID : string)
| OJudged (sampleID : string).

Record authoring_step := mkAStep { sp_now : Z; sp_range : GoMapRange; sp_op : authoring_op }.

Definition authoring_next (x : authoring_step) (st : authoring_store) : authoring_store :=
  let now := sp_now x in
  let range := sp_range x in
  match sp_op x with
  | OIssue rows => fst (IssueAuthoringSessions rows now st)
  | ORotate sessionID tokenHash idleExpiresAt => fst (RotateAuthoringSession sessionID tokenHash now idleExpiresAt st)
  | ORefresh tokenHash ip computerName idleExpiresAt => fst (RefreshAuthoringSession tokenHash ip computerName now idleExpiresAt st)
  | ORevoke sessionID => fst (RevokeAuthoringSession sessionID now st)
  | OClaim sessionID candidates leaseExpiresAt sampleOnly => fst (claimAuthoringWork sessionID candidates now leaseExpiresAt sampleOnly st)
  | OReport sessionID outcome detail => fst (ReportAuthoringOutcome sessionID outcome detail now st)
  | OReopen key => fst (ReopenAuthoringQuarantine key now st)
  | OSubmission sessionID sampleID => fst (AuthoringWorkForSubmission sessionID sampleID now st)
  | OAttach sessionID work sampleID => fst (AttachAuthoringWorkSample sessionID work sampleID now st)
  | OJudged sampleID => set_assignments (filter (fun x => aw_SampleID (snd x) <> sampleID) (au_authoringWork st)) st
  end.

Definition step_allowed (clock : Z) (x : authoring_step) : bool :=
  (zero_time <? sp_now x) && (clock <=? sp_now x)
  && match sp_op x with
     | OReport _ outcome _ => ValidAuthoringOutcome outcome
     | OAttach _ _ sampleID => negb (String.eqb sampleID "")
     | OJudged sampleID => negb (String.eqb sampleID "")
     | _ => true
     end.

Fixpoint authoring_run (xs : list authoring_step) (clock : Z) (st : authoring_store) : option (Z * authoring_store) :=
  match xs with
  | [] => Some (clock, st)
  | x :: xs => if step_allowed clock x then authoring_run xs (sp_now x) (authoring_next x st) else None
  end.

(** ** The gate of one axis of one coordinate *)

Definition gate_at (key : work_key) (axis : string) (st : authoring_store) : authoringAxisLedger := default new_gate (axisGate axis (ledger_at key st)).

Definition attempts (key : work_key) (st : authoring_store) : Z := tt_Attempts (g_totals (l_gate (ledger_at key st))).

(** The step opened a turn on the axis: the coordinate's count of attempts
    moved, and the axis is the one attempted. *)
Definition opens_turn (key : work_key) (axis : string) (st st' : authoring_store) : bool :=
  negb (attempts key st' =? attempts key st) && String.eqb (active_axis (ledger_at key st')) axis.

Definition claimant (x : authoring_step) : option string := match sp_op x with OClaim s _ _ _ => Some s | _ => None end.

Fixpoint turns (key : work_key) (axis : string) (xs : list authoring_step) (st : authoring_store) : Z :=
  match xs with
  | [] => 0
  | x :: xs => let st' := authoring_next x st in (if opens_turn key axis st st' then 1 else 0) + turns key axis xs st'
  end.
Fixpoint turns_of (sessionID : string) (key : work_key) (axis : string) (xs : list authoring_step) (st : authoring_store) : Z :=
  match xs with
  | [] => 0
  | x :: xs =>
      let st' := authoring_next x st in
      (if opens_turn key axis st st' && bool_decide (claimant x = Some sessionID) then 1 else 0) + turns_of sessionID key axis xs st'
  end.

(** No sample of the coordinate is attached and nobody reopens it. *)
Definition leaves_alone (key : work_key) (x : authoring_step) : bool :=
  match sp_op x with OReopen k => negb (bool_decide (k = key)) | OAttach _ w _ => negb (bool_decide (work_coordinate w = key)) | _ => true end.

(** The machines that reported the outcome. *)
Fixpoint reporters (o : AuthoringOutcome) (xs : list authoring_step) (st : authoring_store) : list string :=
  match xs with
  | [] => []
  | x :: xs =>
      match sp_op x with OReport s o' _ => if decide (o = o') then [speaker s (authoringPeerID s st)] else [] | _ => [] end ++ reporters o xs (authoring_next x st)
  end.

(** ** The gates of a ledger *)

Lemma normalize_idem axis : normalizeAuthoringAxis (normalizeAuthoringAxis axis) = normalizeAuthoringAxis axis.
Proof. unfold normalizeAuthoringAxis at 2 3. destruct (str_in axis _) eqn:E; [unfold normalizeAuthoringAxis; by rewrite E|done]. Qed.

Definition normal (axis : string) : Prop := normalizeAuthoringAxis axis = axis.
Definition gate_of (axis : string) (l : authoringLedger) : authoringAxisLedger := default new_gate (axisGate axis l).

Lemma gate_of_active l : gate_of (active_axis l) l = l_gate l.
Proof. unfold gate_of, axisGate, active_axis. by rewrite normalize_idem, String.eqb_refl. Qed.

Lemma gate_of_set a g l : normal a -> normalizeAuthoringAxis (g_Axis g) = active_axis l ->
  gate_of a (set_gate g l) = if String.eqb (active_axis l) a then g else gate_of a l.
Proof. intros N E. unfold gate_of, axisGate, active_axis at 1, set_gate. cbn [l_gate l_Axes]. rewrite E, N. by destruct (String.eqb _ a). Qed.

Lemma reconcile_axis now g : g_Axis (reconcile_gate now g) = g_Axis g /\ tt_Attempts (g_totals (reconcile_gate now g)) = tt_Attempts (g_totals g).
Proof. unfold reconcile_gate. destruct (exhausted now g); [|done]. by rewrite settle_eq. Qed.

Lemma reconcile_active axis now l :
  active_axis (reconcileBudget axis now l) = active_axis l /\ tt_Attempts (g_totals (l_gate (reconcileBudget axis now l))) = tt_Attempts (g_totals (l_gate l)).
Proof.
  unfold reconcileBudget, active_axis. destruct (String.eqb _ _); [|done]. cbn [l_gate set_gate]. destruct (reconcile_axis now (l_gate l)) as [-> ->]. done.
Qed.

Lemma gate_of_reconcile a axis now l : normal a ->
  gate_of a (reconcileBudget axis now l) = if String.eqb (normalizeAuthoringAxis axis) a then reconcile_gate now (gate_of a l) else gate_of a l.
Proof.
  intros N. unfold reconcileBudget. destruct (String.eqb_spec (active_axis l) (normalizeAuthoringAxis axis)) as [E|E].
  - rewrite gate_of_set; [|done|unfold active_axis; by rewrite (proj1 (reconcile_axis now _))]. rewrite E.
    destruct (String.eqb_spec (normalizeAuthoringAxis axis) a) as [F|F]; [|done]. by rewrite <- F, <- E, gate_of_active.
  - unfold gate_of, axisGate, active_axis in *. cbn [l_gate l_Axes]. rewrite N. destruct (String.eqb_spec (normalizeAuthoringAxis (g_Axis (l_gate l))) a) as [F|F].
    + destruct (String.eqb_spec (normalizeAuthoringAxis axis) a); [congruence|done].
    + destruct (String.eqb_spec (normalizeAuthoringAxis axis) a) as [G|G]; [rewrite G, lookup_alter_eq|by rewrite lookup_alter_ne].
      by destruct (l_Axes l !! a).
Qed.

Lemma handout_kept kind s p now g : g_Axis (gate_handout kind s p now g) = g_Axis g
  /\ tt_Attempts (g_totals (gate_handout kind s p now g)) = wrap64 (tt_Attempts (g_totals g) + 1).
Proof.
  unfold gate_handout. set (g0 := if _ && _ then _ else g). assert (E0 : g_Axis g0 = g_Axis g /\ g_totals g0 = g_totals g) by (unfold g0; by destruct (_ && _)).
  clearbody g0. rewrite opened_eq. match goal with |- context [evaluate now ?x] => destruct (evaluate_eq now x) as [h ->] end.
  unfold push, cool_writer. destruct E0 as [<- <-]. by destruct (String.eqb kind ""), (handout_cooled _ _ _).
Qed.

Lemma selected_gate axis l : l_gate (selectAxis axis l)
  = set_totals (g_totals (l_gate l)) (set_axis (normalizeAuthoringAxis axis) (gate_of (normalizeAuthoringAxis axis) l)).
Proof.
  unfold selectAxis, gate_of, axisGate. rewrite normalize_idem. destruct (String.eqb_spec (active_axis l) (normalizeAuthoringAxis axis)) as [E|E].
  - cbn [l_gate set_gate default]. by destruct (l_gate l).
  - cbn [l_gate]. by rewrite lookup_insert_ne.
Qed.

Lemma selected_other a axis l : normal a -> a <> normalizeAuthoringAxis axis ->
  gate_of a (selectAxis axis l) = if String.eqb (active_axis l) a then without_history (l_gate l) else gate_of a l.
Proof.
  intros N D. unfold gate_of at 1, axisGate at 1. unfold active_axis at 1. rewrite selected_gate. cbn [g_Axis set_totals set_axis]. rewrite normalize_idem, N.
  destruct (String.eqb_spec (normalizeAuthoringAxis axis) a); [congruence|]. unfold selectAxis.
  destruct (String.eqb_spec (active_axis l) (normalizeAuthoringAxis axis)) as [E|E]; cbn [l_Axes set_gate].
  - destruct (String.eqb_spec (active_axis l) a); [congruence|]. unfold gate_of, axisGate. rewrite N. by destruct (String.eqb_spec (active_axis l) a).
  - rewrite lookup_delete_ne by done. destruct (String.eqb_spec (active_axis l) a) as [F|F]; [by rewrite F, lookup_insert_eq|]. rewrite lookup_insert_ne by done.
    unfold gate_of, axisGate. rewrite N. by destruct (String.eqb_spec (active_axis l) a).
Qed.

Lemma selected_active axis l : active_axis (selectAxis axis l) = normalizeAuthoringAxis axis.
Proof. unfold active_axis. rewrite selected_gate. apply normalize_idem. Qed.

Lemma handout_active kind axis s p now l : active_axis (handout kind axis s p now l) = normalizeAuthoringAxis axis
  /\ tt_Attempts (g_totals (l_gate (handout kind axis s p now l))) = wrap64 (tt_Attempts (g_totals (l_gate l)) + 1).
Proof.
  unfold handout, active_axis. cbn [l_gate set_gate]. destruct (handout_kept kind s p now (l_gate (selectAxis axis l))) as [-> ->].
  rewrite selected_gate. cbn [g_Axis g_totals set_totals set_axis]. by rewrite normalize_idem.
Qed.

Lemma gate_of_handout a kind axis s p now l : normal a ->
  gate_of a (handout kind axis s p now l)
  = if String.eqb (normalizeAuthoringAxis axis) a then gate_next now (GHandout kind s p (g_totals (l_gate l)) a) (gate_of a l)
    else if String.eqb (active_axis l) a then without_history (gate_of a l) else gate_of a l.
Proof.
  intros N. unfold handout. rewrite gate_of_set; [|done|by rewrite (proj1 (handout_kept _ _ _ _ _))]. rewrite selected_active.
  destruct (String.eqb_spec (normalizeAuthoringAxis axis) a) as [E|E]; [rewrite selected_gate; by rewrite E|].
  rewrite selected_other by done. destruct (String.eqb_spec (active_axis l) a) as [F|F]; [|done]. by rewrite <- F, gate_of_active.
Qed.

(** A gate kept aside has seen [GOther]. *)
Lemma kept_aside now g : without_history g = gate_next now (GOther (g_totals (without_history g)) (g_Axis g)) g.
Proof. by destruct g. Qed.

Lemma report_kept s p o d now g : g_Axis (gate_report s p o d now g) = g_Axis g /\ tt_Attempts (g_totals (gate_report s p o d now g)) = tt_Attempts (g_totals g).
Proof.
  unfold gate_report. rewrite opened_eq. match goal with |- context [evaluate now ?x] => destruct (evaluate_eq now x) as [h ->] end.
  destruct o; unfold refund, measured_impossible, measured_unsupported, exclude_writer, ensurePeerEvidence, push; repeat case_match; done.
Qed.

Lemma authored_kept s now g : g_Axis (gate_authored s now g) = g_Axis g /\ tt_Attempts (g_totals (gate_authored s now g)) = tt_Attempts (g_totals g).
Proof. unfold gate_authored. by rewrite opened_eq. Qed.

Lemma reopen_kept now g : g_Axis (reopen_gate now g) = g_Axis g /\ g_totals (reopen_gate now g) = g_totals g.
Proof. unfold reopen_gate. by destruct (Withheld now g). Qed.

Lemma gate_of_reopen a now l : gate_of a (fst (reopen now l)) = reopen_gate now (gate_of a l).
Proof.
  unfold gate_of, axisGate, active_axis, reopen. cbn [fst l_gate l_Axes]. rewrite (proj1 (reopen_kept now _)), lookup_fmap.
  destruct (String.eqb _ _); [done|]. by destruct (l_Axes l !! _).
Qed.

(** ** The board

    Assignments are filed under their coordinate, a writer holds at most one of
    them, and the ledger of a coordinate somebody works on is on the axis of
    the assignment. *)
Record board_ok (st : authoring_store) : Prop := {
  bo_key : forall k w, au_authoringWork st !! k = Some w -> work_coordinate w = k;
  bo_ledger : forall k w, au_authoringWork st !! k = Some w -> open_work w = true -> is_Some (au_authoringAttempts st !! k) /\ active_axis (ledger_at k st) = normalizeAuthoringAxis (aw_Axis w);
  bo_one : forall k k' w w', au_authoringWork st !! k = Some w -> au_authoringWork st !! k' = Some w' -> open_work w = true -> open_work w' = true ->
    aw_SessionID w = aw_SessionID w' -> k = k' }.

(** Assignments only go, and the ledgers keep their axes. *)
Record shrinks (st st' : authoring_store) : Prop := {
  sh_work : forall k w, au_authoringWork st' !! k = Some w -> au_authoringWork st !! k = Some w;
  sh_ledger : forall k, is_Some (au_authoringAttempts st !! k) -> is_Some (au_authoringAttempts st' !! k);
  sh_axis : forall k, active_axis (ledger_at k st') = active_axis (ledger_at k st);
  sh_count : forall k, attempts k st' = attempts k st }.

#[export] Instance shrinks_preorder : PreOrder shrinks.
Proof.
  split; [by split|]. intros s1 s2 s3 [W1 L1 A1 C1] [W2 L2 A2 C2]. split; auto; intros k; [by rewrite A2, A1|by rewrite C2, C1].
Qed.

Lemma shrinks_ok st st' : shrinks st st' -> board_ok st -> board_ok st'.
Proof.
  intros [W L A _] [K B O]. split; [eauto| |eauto 10]. intros k w Hw Ho. rewrite A. destruct (B k w (W _ _ Hw) Ho) as [H1 H2]. auto.
Qed.

Lemma release_shrinks key st : shrinks st (release key st).
Proof. split; [|done|done|done]. intros k w. cbn. intros H%lookup_delete_Some. tauto. Qed.

Lemma ledger_at_alter f key k st : ledger_at k (set_attempts (alter f key (au_authoringAttempts st)) st)
  = if decide (k = key /\ is_Some (au_authoringAttempts st !! key)) then f (ledger_at k st) else ledger_at k st.
Proof.
  unfold ledger_at. cbn. case_decide as D.
  - destruct D as [-> [l E]]. by rewrite lookup_alter_eq, E.
  - destruct (decide (k = key)) as [->|N]; [|by rewrite lookup_alter_ne]. rewrite lookup_alter_eq. destruct (au_authoringAttempts st !! key) eqn:E; [|done]. exfalso. eauto.
Qed.

Lemma ledger_at_insert l key k st : ledger_at k (set_attempts (<[key := l]> (au_authoringAttempts st)) st) = if decide (k = key) then l else ledger_at k st.
Proof. unfold ledger_at. cbn. case_decide as D; [subst k; by rewrite lookup_insert_eq|by rewrite lookup_insert_ne]. Qed.

Lemma alter_known f key st k : is_Some (au_authoringAttempts st !! k) -> is_Some (alter f key (au_authoringAttempts st) !! k).
Proof. intros [l E]. destruct (decide (k = key)) as [->|N]; [rewrite lookup_alter_eq, E; by eexists|rewrite lookup_alter_ne by done; by eexists]. Qed.

Lemma reconcile_shrinks key axis now st : shrinks st (reconcile_at key axis now st).
Proof.
  split; [done|intros k; apply alter_known| |]; intros k; unfold reconcile_at, attempts; rewrite ledger_at_alter; case_decide; (apply reconcile_active || done).
Qed.

#[export] Hint Resolve release_shrinks reconcile_shrinks : csx.

(** ** What a step does to one gate *)

Section one_gate.
  Context (now : Z) (k : work_key) (a : string).

(** The gate of the store, and what is known of the claim. *)
Record tracks (st : authoring_store) (s : axis_state) : Prop := {
  tr_gate : gs_gate s = gate_at k a st;
  tr_clock : gs_clock s <= now;
  tr_claimed : forall w, au_authoringWork st !! k = Some w -> open_work w = true -> normalizeAuthoringAxis (aw_Axis w) = a -> gs_claimed s = true }.

Definition moves (evs : list (Z * gate_event)) (st st' : authoring_store) : Prop :=
  Forall (fun e => fst e = now) evs /\ forall s, tracks st s -> exists s', gate_run a evs s = Some s' /\ tracks st' s'.

Lemma gate_run_app axis e1 e2 s : gate_run axis (e1 ++ e2) s = gate_run axis e1 s ≫= gate_run axis e2.
Proof. revert s. induction e1 as [|[t e] e1 IH]; intros s; cbn; [done|]. by destruct (gate_allows axis t e s). Qed.

Lemma moves_refl st : moves [] st st.
Proof. split; [constructor|]. eauto. Qed.

Lemma moves_trans e1 e2 s1 s2 s3 : moves e1 s1 s2 -> moves e2 s2 s3 -> moves (e1 ++ e2) s1 s3.
Proof.
  intros [F1 M1] [F2 M2]. split; [by apply Forall_app|]. intros s T. destruct (M1 s T) as (s' & R & T'). destruct (M2 s' T') as (s'' & R' & T'').
  exists s''. by rewrite gate_run_app, R.
Qed.

(** Steps that leave the gate alone and give no work away. *)
Lemma moves_still st st' : gate_at k a st' = gate_at k a st ->
  (forall w, au_authoringWork st' !! k = Some w -> open_work w = true -> normalizeAuthoringAxis (aw_Axis w) = a -> au_authoringWork st !! k = Some w) -> moves [] st st'.
Proof. intros G W. split; [constructor|]. intros s [Tg Tc Tk]. exists s. split; [done|]. split; [by rewrite G|done|eauto]. Qed.

Lemma moves_release key st : moves [] st (release key st).
Proof. apply moves_still; [done|]. intros w H _ _. by apply (sh_work _ _ (release_shrinks key st)). Qed.

Lemma moves_event e st st' : zero_time < now -> (forall s, tracks st s -> gate_allows a now e s = true) -> gate_at k a st' = gate_next now e (gate_at k a st) ->
  (forall s w, tracks st s -> au_authoringWork st' !! k = Some w -> open_work w = true -> normalizeAuthoringAxis (aw_Axis w) = a -> next_claimed e (gs_claimed s) = true) ->
  moves [(now, e)] st st'.
Proof.
  intros P A G C. split; [by repeat constructor|]. intros s T. eexists. cbn. rewrite A by done. split; [done|]. split; cbn; [|lia|eauto].
  by rewrite G, (tr_gate _ _ T).
Qed.

Context (N : normal a) (P : zero_time < now).

Lemma allows_tick e s : gs_clock s <= now -> match e with GReopen | GReconcile | GOther _ _ => True | _ => False end -> gate_allows a now e s = true.
Proof using P. intros C E. unfold gate_allows. rewrite (proj2 (Z.ltb_lt _ _) P), (proj2 (Z.leb_le _ _) C). by destruct e. Qed.

Lemma gate_at_alter f key st : gate_at k a (set_attempts (alter f key (au_authoringAttempts st)) st)
  = if decide (k = key /\ is_Some (au_authoringAttempts st !! key)) then gate_of a (f (ledger_at k st)) else gate_at k a st.
Proof. unfold gate_at. rewrite ledger_at_alter. by case_decide. Qed.

Lemma new_gate_of key : gate_of a (newAuthoringLedger key) = new_gate.
Proof. unfold gate_of, axisGate, newAuthoringLedger. cbn. by destruct (String.eqb _ _). Qed.

Lemma moves_reconcile key axis st : exists evs, moves evs st (reconcile_at key axis now st) /\ handouts evs = 0 /\ undisturbed evs = true
  /\ forall x, In x evs -> snd x = GReconcile.
Proof using N P.
  destruct (decide (k = key /\ is_Some (au_authoringAttempts st !! key) /\ normalizeAuthoringAxis axis = a)) as [(-> & L & E)|D].
  - exists [(now, GReconcile)]. split; [|split; [done|split; [done|by intros x [<-|[]]]]]. apply moves_event; [done|intros s T; apply allows_tick; [apply T|done]| |intros s w T; apply (tr_claimed _ _ T)].
    unfold reconcile_at. rewrite gate_at_alter, decide_True by done. rewrite gate_of_reconcile, E, String.eqb_refl by done. done.
  - exists []. split; [|split; [done|split; [done|by intros x []]]]. apply moves_still; [|done]. unfold reconcile_at. rewrite gate_at_alter. case_decide as H; [|done]. rewrite gate_of_reconcile by done.
    destruct (String.eqb_spec (normalizeAuthoringAxis axis) a); [|done]. tauto.
Qed.

Lemma barred_normal axis s st : gate_barred (normalizeAuthoringAxis axis) s now st = gate_barred axis s now st.
Proof. unfold gate_barred, reported_terminal. by rewrite normalize_idem. Qed.

Lemma not_barred_gate key axis s st : barred_at key axis s now st = false -> gate_barred (normalizeAuthoringAxis axis) s now (gate_at key (normalizeAuthoringAxis axis) st) = false.
Proof.
  rewrite barred_normal. unfold barred_at, barred, gate_at, ledger_at, gate_of. assert (F : gate_barred axis s now new_gate = false).
  { unfold gate_barred, handout_cooled, last_handout. cbn. done. }
  destruct (au_authoringAttempts st !! key) as [l|].
  - change (default (newAuthoringLedger key) (Some l)) with l. assert (E : axisGate (normalizeAuthoringAxis axis) l = axisGate axis l) by (unfold axisGate; by rewrite normalize_idem). rewrite E. by destruct (axisGate axis l).
  - intros _. change (default (newAuthoringLedger key) None) with (newAuthoringLedger key). unfold axisGate. cbn [l_Axes newAuthoringLedger l_gate]. rewrite lookup_empty. by destruct (String.eqb _ _).
Qed.

(** The events of a claim. *)
Definition claim_event (s : string) (e : gate_event) : Prop :=
  match e with GReconcile | GOther _ _ => True | GHandout _ s' _ _ _ => s' = s | _ => False end.

(** A turn for the writer, with the assignments the step leaves. *)
Lemma moves_handout key kind axis s p W st : barred_at key axis s now st = false ->
  (forall w, W !! k = Some w -> open_work w = true -> k = key \/ au_authoringWork st !! k = Some w) ->
  (k = key -> forall w, W !! k = Some w -> open_work w = true -> normalizeAuthoringAxis (aw_Axis w) = normalizeAuthoringAxis axis) ->
  exists evs, moves evs st (noteAuthoringHandout key kind axis s p now (set_assignments W st)) /\ Forall (fun e => claim_event s (snd e)) evs
    /\ (k = key -> a = normalizeAuthoringAxis axis -> handouts_to s evs = 1).
Proof using N P.
  intros B W1 W2. set (st' := noteAuthoringHandout _ _ _ _ _ _ _). assert (G : gate_at k a st' = if decide (k = key) then gate_of a (handout kind axis s p now (ledger_at key st)) else gate_at k a st).
  { unfold st', gate_at, noteAuthoringHandout. change (ledger_at key (set_assignments W st)) with (ledger_at key st). rewrite ledger_at_insert.
    unfold gate_of. destruct (decide (k = key)); reflexivity. }
  destruct (decide (k = key)) as [<-|D]; [|exists []; split; [|split; [constructor|done]]; apply moves_still; [done|]; intros w H O _; by destruct (W1 w H O)].
  rewrite gate_of_handout in G by done. destruct (String.eqb_spec (normalizeAuthoringAxis axis) a) as [E|E].
  - exists [(now, GHandout kind s p (g_totals (l_gate (ledger_at k st))) a)]. split; [|split; [by repeat constructor|]].
    + apply moves_event; [done| |done|done]. intros s0 T. unfold gate_allows. rewrite (tr_gate _ _ T), (proj2 (Z.ltb_lt _ _) P), (proj2 (Z.leb_le _ _) (tr_clock _ _ T)).
      apply not_barred_gate in B. rewrite E in B. by rewrite B.
    + intros _ _. unfold handouts_to. cbn. by rewrite String.eqb_refl.
  - destruct (String.eqb_spec (active_axis (ledger_at k st)) a) as [F|F].
    + exists [(now, GOther (g_totals (without_history (gate_of a (ledger_at k st)))) (g_Axis (gate_of a (ledger_at k st))))]. split; [|split; [|intros _ H; congruence]].
      * apply moves_event; [done|intros s0 T; apply allows_tick; [apply T|done]| |]; [rewrite G; exact (kept_aside now _)|]. intros s0 w T H O A. destruct E. by rewrite <- (W2 eq_refl w H O).
      * by repeat constructor.
    + exists []. split; [|split; [constructor|intros _ H; congruence]]. apply moves_still; [done|]. intros w H O A. destruct E. by rewrite <- (W2 eq_refl w H O).
Qed.
End one_gate.

(** ** Claims *)

(** What a claim of [s] does before it gives work. *)
Definition quiet (now : Z) (s : string) (st st' : authoring_store) : Prop :=
  shrinks st st' /\ forall k a, normal a -> exists evs, moves now k a evs st st' /\ Forall (fun e => claim_event s (snd e)) evs.

#[export] Instance quiet_preorder now s : PreOrder (quiet now s).
Proof.
  split.
  - intros st. split; [done|]. intros k a _. exists []. split; [apply moves_refl|constructor].
  - intros s1 s2 s3 [H1 M1] [H2 M2]. split; [by etrans|]. intros k a N. destruct (M1 k a N) as (e1 & E1 & F1), (M2 k a N) as (e2 & E2 & F2).
    exists (e1 ++ e2)%list. split; [by eapply moves_trans|by apply Forall_app].
Qed.

Lemma quiet_release now s key st : quiet now s st (release key st).
Proof. split; [auto with csx|]. intros k a _. exists []. split; [apply moves_release|constructor]. Qed.

Lemma quiet_reconcile now s key axis st : zero_time < now -> quiet now s st (reconcile_at key axis now st).
Proof.
  intros P. split; [auto with csx|]. intros k a N. destruct (moves_reconcile now k a N P key axis st) as (evs & M & _ & _ & E). exists evs. split; [done|].
  apply List.Forall_forall. intros x I. by rewrite (E x I).
Qed.

#[export] Hint Resolve quiet_release quiet_reconcile : csx.

(** Assignments under their coordinates, one for each writer. *)
Record filed (W : gmap work_key AuthoringWorkRow) : Prop := {
  fi_key : forall k w, W !! k = Some w -> work_coordinate w = k;
  fi_one : forall k k' w w', W !! k = Some w -> W !! k' = Some w' -> open_work w = true -> open_work w' = true -> aw_SessionID w = aw_SessionID w' -> k = k' }.

Lemma board_filed st : board_ok st -> filed (au_authoringWork st).
Proof. intros [K _ O]. by split. Qed.

(** The writer has a turn on the coordinate of an assignment of its own. *)
Definition gives (now : Z) (s p : string) (st st' : authoring_store) : Prop :=
  exists key W w, barred_at key (aw_Axis w) s now st = false /\ W !! key = Some w /\ aw_SessionID w = s
    /\ filed W /\ (forall k w', W !! k = Some w' -> k = key \/ au_authoringWork st !! k = Some w')
    /\ st' = noteAuthoringHandout key (aw_Kind w) (aw_Axis w) s p now (set_assignments W st).

Section claims.
  Context (s p : string) (candidates : list WantedRow) (now : Z) (P : zero_time < now).

Definition open_of (w : AuthoringWorkRow) : bool := String.eqb (aw_SessionID w) s && open_work w.
Definition holds_nothing (st : authoring_store) : Prop := forall k w, au_authoringWork st !! k = Some w -> open_of w = false.

Lemma holds_nothing_shrinks st st' : shrinks st st' -> holds_nothing st -> holds_nothing st'.
Proof. intros [W _ _ _] H k w Hw. eauto. Qed.

(** The entries still to visit. *)
Record ahead (entries : list (work_key * AuthoringWorkRow)) (st : authoring_store) : Prop := {
  ah_there : forall k w, In (k, w) entries -> au_authoringWork st !! k = Some w;
  ah_keys : NoDup (map fst entries);
  ah_mine : forall k w, au_authoringWork st !! k = Some w -> open_of w = true -> In (k, w) entries }.

Lemma ahead_release key w entries st : ahead ((key, w) :: entries) st -> ahead entries (release key st).
Proof.
  intros [T K M]. apply list.NoDup_cons in K as [K1 K2]. split; [|done|].
  - intros k w' I. cbn. rewrite lookup_delete_ne; [apply T; by right|]. intros ->. apply K1. apply list_elem_of_In, (in_map fst _ _ I).
  - intros k w' H O. cbn in H. apply lookup_delete_Some in H as [D H]. destruct (M k w' H O) as [[= -> ->]|I]; done.
Qed.

Lemma ahead_skip key w entries st : ahead ((key, w) :: entries) st -> open_of w = false -> ahead entries st.
Proof.
  intros [T K M] O. apply list.NoDup_cons in K as [K1 K2]. split; [intros; apply T; by right|done|].
  intros k w' H O'. destruct (M k w' H O') as [[= -> ->]|I]; [congruence|done].
Qed.

Lemma keep_cases key w st : board_ok st -> au_authoringWork st !! key = Some w -> open_of w = true ->
  match keep_claim s p now key w st with
  | Free st' => quiet now s st st' /\ holds_nothing st'
  | Kept w' st' => w' = w /\ (quiet now s st st' \/ exists st1, quiet now s st st1 /\ gives now s p st1 st')
  end.
Proof using P.
  intros B H O. unfold keep_claim. set (st1 := reconcile_at key (aw_Axis w) now st). assert (Q : quiet now s st st1) by (apply quiet_reconcile; done).
  destruct (barred_at key (aw_Axis w) s now st1) eqn:Ba.
  - split; [etrans; [exact Q|apply quiet_release]|]. intros k w' Hw. destruct (open_of w') eqn:O'; [|done]. cbn in Hw. apply lookup_delete_Some in Hw as [D Hw]. destruct D.
    unfold open_of in *. rewrite andb_true_iff, String.eqb_eq in O, O'. destruct O, O'. apply (bo_one _ B _ _ _ _ H Hw); congruence.
  - split; [done|]. destruct (debounced key now st1); [right|by left]. exists st1. split; [done|]. exists key, (au_authoringWork st1), w. split; [done|]. split; [done|].
    unfold open_of in O. rewrite andb_true_iff, String.eqb_eq in O. split; [tauto|]. split; [apply board_filed, (shrinks_ok st); [apply Q|done]|]. split; [auto|]. by destruct st1.
Qed.

Lemma sweep_cases entries st : board_ok st -> ahead entries st ->
  match sweep s p candidates now entries st with
  | Free st' => quiet now s st st' /\ holds_nothing st'
  | Kept w st' => quiet now s st st' \/ exists st1, quiet now s st st1 /\ gives now s p st1 st'
  end.
Proof using P.
  revert st. induction entries as [|[key w] entries IH]; intros st B A; cbn [sweep].
  - split; [done|]. intros k w Hw. destruct (open_of w) eqn:O; [|done]. destruct (ah_mine _ _ A k w Hw O).
  - assert (R : match sweep s p candidates now entries (release key st) with
                | Free st' => quiet now s st st' /\ holds_nothing st'
                | Kept w st' => quiet now s st st' \/ exists st1, quiet now s st st1 /\ gives now s p st1 st'
                end).
    { pose proof (IH (release key st) (shrinks_ok _ _ (release_shrinks key st) B) (ahead_release _ _ _ _ A)) as R. pose proof (quiet_release now s key st) as Q.
      destruct (sweep _ _ _ _ _ _); [destruct R as [R|(st1 & R1 & R2)]; [left; by etrans|right; exists st1; split; [by etrans|done]]|destruct R; split; [by etrans|done]]. }
    destruct (open_work w && negb (now <? aw_LeaseExpiresAt w)) eqn:C1; [exact R|]. destruct (open_work w && negb (sessionLive now (aw_SessionID w) st)); [exact R|].
    destruct (String.eqb (aw_SessionID w) s && open_work w && (now <? aw_LeaseExpiresAt w)) eqn:C2.
    + destruct (eligible candidates w); [|exact R]. apply andb_true_iff in C2 as [C2 _].
      pose proof (keep_cases key w st B (ah_there _ _ A key w (or_introl eq_refl)) C2) as K. destruct (keep_claim _ _ _ _ _ _); tauto.
    + apply IH; [done|]. apply (ahead_skip key w); [done|]. unfold open_of. destruct (String.eqb (aw_SessionID w) s); [|done]. destruct (open_work w); [|done]. by destruct (now <? _).
Qed.

Lemma pick_cases sampleOnly lease cs st : board_ok st -> holds_nothing st ->
  let st' := fst (pick_candidate s p now sampleOnly lease cs st) in quiet now s st st' \/ exists st1, quiet now s st st1 /\ gives now s p st1 st'.
Proof using P.
  revert st. induction cs as [|c cs IH]; intros st B H; cbn [pick_candidate]; [by left|].
  destruct (sampleOnly && _); [by apply IH|]. destruct (taken c st); [by apply IH|]. set (st1 := reconcile_at _ _ _ _).
  assert (Q : quiet now s st st1) by (etrans; [apply quiet_release|apply quiet_reconcile; done]).
  assert (B1 : board_ok st1) by (by apply (shrinks_ok st); [apply Q|]). assert (H1 : holds_nothing st1) by (by apply (holds_nothing_shrinks st); [apply Q|]).
  destruct (barred_at (candidate_key c) (wa_Axis c) s now st1) eqn:Ba.
  - destruct (IH st1 B1 H1) as [R|(st2 & Q2 & R)]; [left; by etrans|right; exists st2; split; [by etrans|exact R]].
  - right. exists st1. split; [done|]. set (w := new_claim s now c lease). exists (candidate_key c), (<[candidate_key c := w]> (au_authoringWork st1)), w. split; [|split; [by apply lookup_insert_eq|split; [done|]]].
    + unfold barred_at in *. destruct (au_authoringAttempts st1 !! candidate_key c) as [l|]; [|done]. change (aw_Axis w) with (normalizeAuthoringAxis (wa_Axis c)).
      unfold barred, axisGate in *. rewrite normalize_idem. destruct (if String.eqb _ _ then _ else _) as [g|]; [|done]. by rewrite barred_normal.
    + split; [|split; [|done]].
      * split; [intros k w' [[<- <-]|[_ Hk]]%lookup_insert_Some; [done|by apply (bo_key _ B1)]|].
        assert (F : forall k' w', au_authoringWork st1 !! k' = Some w' -> open_work w' = true -> s = aw_SessionID w' -> False).
        { intros k' w' Hk O E. specialize (H1 k' w' Hk). unfold open_of in H1. by rewrite <- E, String.eqb_refl, O in H1. }
        intros k k' w1 w2 [[<- <-]|[_ Hk]]%lookup_insert_Some [[<- <-]|[_ Hk']]%lookup_insert_Some O1 O2 E; [done|by destruct (F k' w2)|by destruct (F k w1)|by apply (bo_one _ B1 k k' w1 w2)].
      * intros k w' [[<- _]|[_ Hk]]%lookup_insert_Some; auto.
Qed.

Lemma gives_board st st' : board_ok st -> gives now s p st st' -> board_ok st'.
Proof.
  intros B (key & W & w & Ba & Hw & Hs & F & Sub & ->). split; [exact (fi_key _ F)| |exact (fi_one _ F)]. intros k w' Hk O. cbn in Hk. unfold noteAuthoringHandout. rewrite ledger_at_insert.
  cbn [au_authoringAttempts set_attempts]. destruct (decide (k = key)) as [->|D].
  - rewrite lookup_insert_eq. split; [by eexists|]. rewrite (proj1 (handout_active _ _ _ _ _ _)). congruence.
  - rewrite lookup_insert_ne by done. destruct (Sub k w' Hk) as [->|Hk']; [done|]. exact (bo_ledger _ B k w' Hk' O).
Qed.

Lemma gives_moves st st' k a : normal a -> gives now s p st st' -> exists evs, moves now k a evs st st' /\ Forall (fun e => claim_event s (snd e)) evs
  /\ (opens_turn k a st st' = true -> handouts_to s evs = 1).
Proof using P.
  intros N (key & W & w & Ba & Hw & Hs & F & Sub & ->). destruct (moves_handout now k a N P key (aw_Kind w) (aw_Axis w) s p W st Ba) as (evs & M & C & T).
  - intros w' Hk _. by apply Sub.
  - intros -> w' Hk _. congruence.
  - exists evs. split; [done|]. split; [done|]. intros Op. unfold opens_turn, attempts, noteAuthoringHandout in Op. change (ledger_at key (set_assignments W st)) with (ledger_at key st) in Op.
    rewrite ledger_at_insert in Op. destruct (decide (k = key)) as [->|D].
    + apply T; [done|]. apply andb_true_iff in Op as [_ Op]. rewrite (proj1 (handout_active _ _ _ _ _ _)) in Op. by apply String.eqb_eq in Op.
    + change (ledger_at k (set_assignments W st)) with (ledger_at k st) in Op. by rewrite Z.eqb_refl in Op.
Qed.

End claims.

Lemma handouts_to_app s e1 e2 : handouts_to s (e1 ++ e2)%list = handouts_to s e1 + handouts_to s e2.
Proof. unfold handouts_to. rewrite List.filter_app, length_app. lia. Qed.
Lemma handouts_app e1 e2 : handouts (e1 ++ e2)%list = handouts e1 + handouts e2.
Proof. unfold handouts. rewrite List.filter_app, length_app. lia. Qed.
Lemma handouts_to_pos s evs : 0 <= handouts_to s evs.
Proof. unfold handouts_to. lia. Qed.
Lemma handouts_to_all s evs : handouts_to s evs <= handouts evs.
Proof.
  induction evs as [|x evs IH]; [done|]. unfold handouts_to, handouts in *. cbn. unfold is_handout at 1, handout_to at 1. destruct (snd x); cbn; try lia.
  destruct (String.eqb _ s); cbn; lia.
Qed.

Lemma range_ahead {GM : GoMapRange} s st : ahead s (range_order (map_to_list (au_authoringWork st))) st.
Proof.
  pose proof (range_order_perm _ (map_to_list (au_authoringWork st))) as Pm. split.
  - intros k w I. apply (Permutation_in _ (Permutation_sym Pm)) in I. by apply elem_of_map_to_list, list_elem_of_In.
  - change (NoDup ((range_order (map_to_list (au_authoringWork st))).*1)). rewrite <- Pm. apply NoDup_fst_map_to_list.
  - intros k w H _. apply (Permutation_in _ Pm). by apply list_elem_of_In, elem_of_map_to_list.
Qed.

Lemma claim_effect {GM : GoMapRange} s cs now lease only st : zero_time < now -> board_ok st ->
  let st' := fst (claimAuthoringWork s cs now lease only st) in
  board_ok st' /\ forall k a, normal a -> exists evs, moves now k a evs st st' /\ Forall (fun e => claim_event s (snd e)) evs /\ (opens_turn k a st st' = true -> 1 <= handouts_to s evs).
Proof.
  intros P B. set (p := authoringPeerID s st).
  assert (R : let st' := fst (claimAuthoringWork s cs now lease only st) in quiet now s st st' \/ exists st1, quiet now s st st1 /\ gives now s p st1 st').
  { unfold claimAuthoringWork. fold p. pose proof (sweep_cases s p cs now P _ st B (range_ahead s st)) as S. destruct (sweep _ _ _ _ _ _) as [w st'|st1]; [exact S|].
    destruct S as [Q H]. destruct (pick_cases s p now P only lease cs st1) as [R|(st2 & Q2 & G)]; [by apply (shrinks_ok st); [apply Q|]|done|left; by etrans|].
    right. exists st2. split; [by etrans|done]. }
  cbv zeta in *. destruct R as [[S M]|(st1 & [S M] & G)]; [split; [by apply (shrinks_ok st)|]|].
  - intros k a N. destruct (M k a N) as (evs & Mv & C). exists evs. split; [done|]. split; [done|]. unfold opens_turn. by rewrite (sh_count _ _ S), Z.eqb_refl.
  - split; [apply (gives_board s p now st1); [by apply (shrinks_ok st)|done]|]. intros k a N. destruct (M k a N) as (e1 & M1 & C1), (gives_moves s p now P st1 _ k a N G) as (e2 & M2 & C2 & T).
    exists (e1 ++ e2)%list. split; [by eapply moves_trans|]. split; [by apply Forall_app|]. intros Op. rewrite handouts_to_app. pose proof (handouts_to_pos s e1). rewrite T; [lia|].
    unfold opens_turn in *. by rewrite (sh_count _ _ S).
Qed.

(** ** Every step *)

Record gate_effect (x : authoring_step) (st st' : authoring_store) (k : work_key) (a : string) (evs : list (Z * gate_event)) : Prop := {
  ge_moves : moves (sp_now x) k a evs st st';
  ge_turn : opens_turn k a st st' = true -> exists s, claimant x = Some s /\ 1 <= handouts_to s evs;
  ge_alone : leaves_alone k x = true -> undisturbed evs = true;
  ge_report : forall t s p o d, In (t, GReport s p o d) evs -> exists d', sp_op x = OReport s o d' /\ p = authoringPeerID s st }.

Definition step_effect (x : authoring_step) (st st' : authoring_store) : Prop :=
  board_ok st' /\ forall k a, normal a -> exists evs, gate_effect x st st' k a evs.

Lemma no_turn k a st st' : shrinks st st' -> opens_turn k a st st' = false.
Proof. intros S. unfold opens_turn. by rewrite (sh_count _ _ S), Z.eqb_refl. Qed.

(** Steps that only let assignments go. *)
Lemma still_effect x st st' : board_ok st -> shrinks st st' -> (forall k, ledger_at k st' = ledger_at k st) -> step_effect x st st'.
Proof.
  intros B S L. split; [by apply (shrinks_ok st)|]. intros k a N. exists []. split; [|by rewrite no_turn|done|done].
  apply moves_still; [unfold gate_at; by rewrite L|]. intros w H _ _. by apply (sh_work _ _ S).
Qed.

Lemma claim_step x s cs lease only st : zero_time < sp_now x -> board_ok st -> sp_op x = OClaim s cs lease only -> step_effect x st (authoring_next x st).
Proof.
  intros P B E. unfold authoring_next. rewrite E. pose (range := sp_range x). destruct (claim_effect s cs (sp_now x) lease only st P B) as [B' M]. split; [done|].
  intros k a N. destruct (M k a N) as (evs & Mv & C & T). rewrite List.Forall_forall in C. exists evs. split; [done|..].
  - intros Op. exists s. unfold claimant. rewrite E. auto.
  - intros _. apply forallb_forall. intros e I. specialize (C e I). by destruct (snd e).
  - intros t s' p o d I. by destruct (C _ I).
Qed.

(** A step that changes the ledger of one coordinate and lets its assignment go. *)
Lemma replace_shrinks key f st : (forall l, active_axis (f l) = active_axis l /\ tt_Attempts (g_totals (l_gate (f l))) = tt_Attempts (g_totals (l_gate l))) ->
  shrinks st (set_attempts (<[key := f (ledger_at key st)]> (au_authoringAttempts st)) st).
Proof.
  intros F. split; [done|..]; intros k.
  - intros K. cbn. destruct (decide (k = key)) as [->|D]; [rewrite lookup_insert_eq; by eexists|by rewrite lookup_insert_ne].
  - rewrite ledger_at_insert. case_decide; [subst; apply F|done].
  - unfold attempts. rewrite ledger_at_insert. case_decide; [subst; apply F|done].
Qed.

Lemma set_gate_kept g l : g_Axis g = g_Axis (l_gate l) -> tt_Attempts (g_totals g) = tt_Attempts (g_totals (l_gate l)) ->
  active_axis (set_gate g l) = active_axis l /\ tt_Attempts (g_totals (l_gate (set_gate g l))) = tt_Attempts (g_totals (l_gate l)).
Proof. intros A T. unfold active_axis. cbn. by rewrite A. Qed.

Lemma report_step x s o d st : zero_time < sp_now x -> board_ok st -> sp_op x = OReport s o d -> ValidAuthoringOutcome o = true -> step_effect x st (authoring_next x st).
Proof.
  intros P B E V. unfold authoring_next. rewrite E. pose (range := sp_range x). set (now := sp_now x) in *. unfold ReportAuthoringOutcome.
  destruct (find _ _) as [[key w]|] eqn:F; [|by apply still_effect]. cbn [fst]. apply find_some in F as [I C]. cbn [snd] in C. apply andb_true_iff in C as [C _].
  assert (Hw : au_authoringWork st !! key = Some w) by (by apply (ah_there s _ _ (range_ahead s st))). pose proof (andb_prop _ _ C) as [_ O]. destruct (bo_ledger _ B key w Hw O) as [_ Ax].
  set (p := authoringPeerID s st). set (st1 := set_attempts _ st).
  assert (S1 : shrinks st st1). { apply (replace_shrinks key (report s p o d now)). intros l. apply set_gate_kept; apply report_kept. }
  assert (S : shrinks st (release key st1)) by (etrans; [exact S1|apply release_shrinks]). split; [by apply (shrinks_ok st)|]. intros k a N.
  assert (G : gate_at k a (release key st1) = if decide (k = key) then gate_of a (report s p o d now (ledger_at key st)) else gate_at k a st).
  { change (gate_at k a (release key st1)) with (gate_of a (ledger_at k st1)). unfold st1. rewrite ledger_at_insert. by case_decide. }
  destruct (decide (k = key /\ active_axis (ledger_at key st) = a)) as [[-> Ea]|D].
  - exists [(now, GReport s p o d)]. split; [|by rewrite no_turn|done|intros t s' p' o' d' [[= _ <- <- <- <-]|[]]; eauto]. apply moves_event; [done|..].
    + intros s0 T. unfold gate_allows. rewrite (proj2 (Z.ltb_lt _ _) P), (proj2 (Z.leb_le _ _) (tr_clock _ _ _ _ _ T)), (tr_claimed _ _ _ _ _ T w Hw O), V; [done|congruence].
    + rewrite G, decide_True by done. unfold report. rewrite gate_of_set; [|done|unfold active_axis; by rewrite (proj1 (report_kept _ _ _ _ _ _))].
      rewrite Ea, String.eqb_refl. unfold gate_at. fold (gate_of a (ledger_at key st)). by rewrite <- Ea, gate_of_active.
    + intros s0 w' T Hk. cbn in Hk. by rewrite lookup_delete_eq in Hk.
  - exists []. split; [|by rewrite no_turn|done|done]. apply moves_still; [|intros w' Hk _ _; by apply (sh_work _ _ S)]. rewrite G. case_decide as K; [|done]. subst k.
    unfold report. rewrite gate_of_set; [|done|unfold active_axis; by rewrite (proj1 (report_kept _ _ _ _ _ _))]. destruct (String.eqb_spec (active_axis (ledger_at key st)) a); [tauto|done].
Qed.

Lemma reopen_step x key st : zero_time < sp_now x -> board_ok st -> sp_op x = OReopen key -> step_effect x st (authoring_next x st).
Proof.
  intros P B E. unfold authoring_next. rewrite E. set (now := sp_now x) in *. unfold ReopenAuthoringQuarantine. destruct (au_authoringAttempts st !! key) as [l|] eqn:L; [|by apply still_effect].
  assert (Ll : ledger_at key st = l) by (unfold ledger_at; by rewrite L). rewrite (surjective_pairing (reopen now l)). cbn [fst]. rewrite <- Ll. set (st1 := set_attempts _ st).
  assert (S : shrinks st st1). { apply (replace_shrinks key (fun l => fst (reopen now l))). intros l0. unfold active_axis. cbn. by destruct (reopen_kept now (l_gate l0)) as [-> ->]. }
  split; [by apply (shrinks_ok st)|]. intros k a N.
  assert (G : gate_at k a st1 = if decide (k = key) then gate_of a (fst (reopen now (ledger_at key st))) else gate_at k a st).
  { unfold st1, gate_at. rewrite ledger_at_insert. by case_decide. }
  destruct (decide (k = key)) as [->|D]; [|exists []; split; [by apply moves_still|by rewrite no_turn|done|done]].
  exists [(now, GReopen)]. split; [|by rewrite no_turn| |by intros t s' p' o' d' [|[]]].
  - apply moves_event; [done|intros s0 T; apply allows_tick; [done|apply T|done]| |intros s0 w T; apply (tr_claimed _ _ _ _ _ T)]. rewrite G, gate_of_reopen. done.
  - unfold leaves_alone. rewrite E. by rewrite bool_decide_true.
Qed.

Lemma finished_board key w st : board_ok st -> work_coordinate w = key -> open_work w = false -> board_ok (set_assignments (<[key := w]> (au_authoringWork st)) st).
Proof.
  intros [K L O] Hk Ho. split.
  - intros k w'. cbn. intros [[<- <-]|[_ H]]%lookup_insert_Some; [done|by apply K].
  - intros k w'. cbn. intros [[<- <-]|[_ H]]%lookup_insert_Some Ow; [congruence|]. by apply L.
  - intros k k' w1 w2. cbn. intros [[<- <-]|[_ H]]%lookup_insert_Some [[<- <-]|[_ H']]%lookup_insert_Some; try congruence. by apply O.
Qed.

Lemma authored_gate a s now l : normal a -> gate_of a (authored s now l) = if String.eqb (active_axis l) a then gate_authored s now (gate_of a l) else gate_of a l.
Proof.
  intros N. unfold authored. rewrite gate_of_set; [|done|unfold active_axis; by rewrite (proj1 (authored_kept _ _ _))]. destruct (String.eqb_spec (active_axis l) a) as [E|E]; [|done].
  by rewrite <- E, gate_of_active.
Qed.

Lemma attach_step x s work sample st : zero_time < sp_now x -> board_ok st -> sp_op x = OAttach s work sample -> sample <> "" -> step_effect x st (authoring_next x st).
Proof.
  intros P B E Sa. unfold authoring_next. rewrite E. set (now := sp_now x) in *. unfold AttachAuthoringWorkSample. set (key := work_coordinate work).
  destruct (negb (String.eqb (normalizeAuthoringAxis (aw_Axis work)) _)); [by apply still_effect|]. destruct (au_authoringWork st !! key) as [w|] eqn:Hw; [|by apply still_effect].
  destruct (negb _ || negb (open_work w) || _) eqn:C; [by apply still_effect|]. destruct (negb (String.eqb (normalizeAuthoringAxis (aw_Axis w)) _)); [by apply still_effect|].
  assert (O : open_work w = true). { rewrite !orb_false_iff, !negb_false_iff in C. tauto. }
  destruct (bo_ledger _ B key w Hw O) as [[l L] Ax]. assert (Ll : ledger_at key st = l) by (unfold ledger_at; by rewrite L).
  set (st1 := set_attempts (alter (authored s now) key (au_authoringAttempts st)) st).
  assert (S1 : shrinks st st1).
  { split; [done|intros k; apply alter_known|..]; intros k; unfold st1, attempts; rewrite ledger_at_alter; case_decide; try done; apply set_gate_kept; apply authored_kept. }
  set (st2 := release key st1). assert (S2 : shrinks st st2) by (etrans; [exact S1|apply release_shrinks]).
  assert (G : forall k a, normal a -> gate_at k a st1 = if decide (k = key /\ active_axis l = a) then gate_authored s now (gate_at k a st) else gate_at k a st).
  { intros k a N. unfold st1. rewrite gate_at_alter. destruct (decide (k = key)) as [->|D]; [|rewrite !decide_False by tauto; done]. rewrite decide_True by eauto. rewrite authored_gate, Ll by done.
    destruct (String.eqb_spec (active_axis l) a) as [Ea|Ea]; [rewrite decide_True by done|rewrite decide_False by tauto]; unfold gate_at; by rewrite Ll. }
  assert (Ef : forall st', au_authoringAttempts st' = au_authoringAttempts st1 -> (forall k w', au_authoringWork st' !! k = Some w' -> open_work w' = true -> k <> key /\ au_authoringWork st !! k = Some w') ->
            board_ok st' -> step_effect x st st').
  { intros st' Ea Ew B'. split; [done|]. intros k a N. assert (Lk : ledger_at k st' = ledger_at k st1) by (unfold ledger_at; by rewrite Ea).
    assert (T : opens_turn k a st st' = false). { rewrite <- (no_turn k a st st1 S1). unfold opens_turn, attempts. by rewrite Lk. }
    assert (G' : gate_at k a st' = gate_at k a st1) by (unfold gate_at; by rewrite Lk). rewrite G in G' by done.
    destruct (decide (k = key /\ active_axis l = a)) as [[-> Al]|D].
    - exists [(now, GAuthored s)]. split; [|by rewrite T|unfold leaves_alone; rewrite E; by rewrite bool_decide_true|by intros t s' p' o' d' [|[]]]. apply moves_event; [done| |exact G'|].
      + intros s0 T0. unfold gate_allows. rewrite (proj2 (Z.ltb_lt _ _) P), (proj2 (Z.leb_le _ _) (tr_clock _ _ _ _ _ T0)), (tr_claimed _ _ _ _ _ T0 w Hw O); [done|congruence].
      + intros s0 w' _ Hk Ow. by destruct (Ew key w' Hk Ow).
    - exists []. split; [|by rewrite T|done|done]. apply moves_still; [exact G'|]. intros w' Hk Ow _. by apply Ew. }
  destruct (_ && String.eqb (aw_Symbol w) ""); cbn [fst]; apply Ef; try done.
  - intros k w' Hk _. cbn in Hk. apply lookup_delete_Some in Hk as [D Hk]. auto.
  - by apply (shrinks_ok st).
  - intros k w' Hk Ow. cbn in Hk. apply lookup_insert_Some in Hk as [[<- <-]|[D Hk]]; [|auto]. unfold open_work in Ow. cbn in Ow. by apply String.eqb_eq in Ow.
  - apply finished_board; [by apply (shrinks_ok st)|exact (bo_key _ B key w Hw)|]. unfold open_work. cbn. by apply String.eqb_neq.
Qed.

Lemma submission_still s sample now entries st : let st' := fst (submission_walk s sample now entries st) in shrinks st st' /\ forall k, ledger_at k st' = ledger_at k st.
Proof.
  revert st. induction entries as [|[key w] entries IH]; intros st; cbn [submission_walk]; [done|]. destruct (open_work w && _).
  - destruct (IH (release key st)) as [S L]. split; [etrans; [apply release_shrinks|exact S]|]. intros k. by rewrite L.
  - destruct (_ && _); [done|apply IH].
Qed.

Lemma authoring_step_ok clock x st : board_ok st -> step_allowed clock x = true -> step_effect x st (authoring_next x st).
Proof.
  intros B A. unfold step_allowed in A. rewrite !andb_true_iff in A. destruct A as [[P%Z.ltb_lt _] A].
  assert (Same : forall sessions, step_effect x st (set_sessions sessions st)) by (intros m; by apply still_effect).
  assert (Sub : forall W, (forall k w, W !! k = Some w -> au_authoringWork st !! k = Some w) -> forall m, step_effect x st (mkAuthoring m W (au_authoringAttempts st))).
  { intros W H m. by apply still_effect. }
  assert (Fl : forall Pr {D : forall y, Decision (Pr y)} k w, filter Pr (au_authoringWork st) !! k = Some w -> au_authoringWork st !! k = Some w).
  { intros Pr D k w H. by apply map_lookup_filter_Some in H as [H _]. }
  destruct (sp_op x) as [rows|s t i|t ip cn i|s|s cs le so|s o d|key|s sa|s w sa|sa] eqn:E;
    [..|by apply (claim_step x s cs le so)|by apply (report_step x s o d)|by apply (reopen_step x key)| |by apply (attach_step x s w sa); [..|by apply String.eqb_neq, negb_true_iff]|]; unfold authoring_next; rewrite E.
  - unfold IssueAuthoringSessions. repeat case_match; cbn [fst]; by (apply Same || apply still_effect).
  - unfold RotateAuthoringSession. repeat case_match; cbn [fst]; by (apply Same || apply still_effect).
  - unfold RefreshAuthoringSession. repeat case_match; cbn [fst]; by (apply Same || apply still_effect).
  - unfold RevokeAuthoringSession. repeat case_match; cbn [fst]; [apply Sub; apply Fl|by apply still_effect].
  - pose proof (submission_still s sa (sp_now x) (@range_order (sp_range x) _ (map_to_list (au_authoringWork st))) st) as [S L]. by apply still_effect.
  - apply Sub. apply Fl.
Qed.

(** ** Sessions over a run *)

Definition live (t : Z) (m : gmap string AuthoringSessionRow) : gset string := dom (filter (fun x => session_live t (snd x) = true) m).

Lemma elem_of_live t m k : k ∈ live t m <-> exists r, m !! k = Some r /\ session_live t r = true.
Proof.
  unfold live. rewrite elem_of_dom. split; intros [r H]; exists r; [by apply map_lookup_filter_Some in H|by apply map_lookup_filter_Some].
Qed.

Lemma active_live t st : length (active_sessions t st) = size (live t (au_authoring st)).
Proof.
  unfold live. rewrite size_dom, map_filter_alt, <- length_map_to_list. unfold active_sessions, session_rows.
  assert (N : NoDup ((filter (fun x => session_live t (snd x) = true) (map_to_list (au_authoring st))).*1)).
  { eapply sublist_NoDup; [exact (NoDup_fst_map_to_list (au_authoring st))|apply fmap_sublist, sublist_filter]. }
  rewrite map_to_list_to_map by done. clear N. induction (map_to_list (au_authoring st)) as [|[k r] l IH]; [done|]. cbn. unfold filter in *. cbn. destruct (session_live t r); cbn; by rewrite IH.
Qed.

Lemma live_insert t k r m : live t (<[k := r]> m) ⊆ {[k]} ∪ live t m.
Proof.
  intros k'. rewrite elem_of_union, elem_of_singleton, !elem_of_live. intros (r' & [[<- _]|[_ H]]%lookup_insert_Some & L); [by left|right; eauto].
Qed.

Lemma live_fold t rows m : (size (live t (fold_left (fun m row => <[se_TokenHash row := row]> m) rows m)) <= size (live t m) + length rows)%nat.
Proof.
  revert m. induction rows as [|r rows IH]; intros m; cbn [fold_left length]; [lia|]. etrans; [apply IH|].
  pose proof (subseteq_size _ _ (live_insert t (se_TokenHash r) r m)) as H. pose proof (size_union_alt ({[se_TokenHash r]} : gset string) (live t m)) as U.
  rewrite size_singleton in U. pose proof (subseteq_size (live t m ∖ {[se_TokenHash r]}) (live t m) ltac:(set_solver)). lia.
Qed.

(** Sessions filed under their token, one row each, and room for no more than
    the limit from now on. *)
Record sessions_ok (clock : Z) (m : gmap string AuthoringSessionRow) : Prop := {
  ss_token : forall k r, m !! k = Some r -> se_TokenHash r = k;
  ss_one : forall k k' r r', m !! k = Some r -> m !! k' = Some r' -> se_SessionID r = se_SessionID r' -> k = k';
  ss_limit : forall t, clock <= t -> Z.of_nat (size (live t m)) <= MaxAuthoringSessions }.

Lemma live_later now t m : now <= t -> live t m ⊆ live now m.
Proof.
  intros L k. rewrite !elem_of_live. intros (r & H & S). exists r. split; [done|]. unfold session_live in *. rewrite andb_true_iff, Z.ltb_lt in *. split; [tauto|lia].
Qed.

(** A session that was live now may be live later, and the others no longer
    than before. *)
Lemma renewed_ok clock now k r m : sessions_ok clock m -> clock <= now -> m !! k = Some r -> forall r', se_TokenHash r' = k -> se_SessionID r' = se_SessionID r ->
  (session_live now r = true \/ forall t, session_live t r' = false) -> sessions_ok now (<[k := r']> m).
Proof.
  intros [T O Li] C H r' Hk Hs Lv. split.
  - intros k0 r0 [[<- <-]|[_ H0]]%lookup_insert_Some; [done|by apply T].
  - intros k1 k2 r1 r2 [[<- <-]|[_ H1]]%lookup_insert_Some [[<- <-]|[_ H2]]%lookup_insert_Some E; [done|eapply O; [exact H|exact H2|congruence]|eapply O; [exact H1|exact H|congruence]|by eapply O].
  - intros t Lt. etrans; [|apply (Li now C)]. apply inj_le, subseteq_size. intros k0. rewrite !elem_of_live. intros (r0 & [[<- <-]|[_ H0]]%lookup_insert_Some & L0).
    + destruct Lv as [Lv|Lv]; [eauto|by rewrite Lv in L0].
    + apply elem_of_live, (live_later now t); [done|]. apply elem_of_live. eauto.
Qed.

Lemma later_ok clock now m : clock <= now -> sessions_ok clock m -> sessions_ok now m.
Proof. intros C [T O L]. split; [done|done|]. intros t Ht. apply L. lia. Qed.

Lemma rotated_ok clock now k r tok idle m : sessions_ok clock m -> clock <= now -> m !! k = Some r -> m !! tok = None -> session_live now r = true ->
  sessions_ok now (<[tok := rotated tok idle r]> (delete k m)).
Proof.
  intros [T O Li] C H Nk Lv. split.
  - intros k0 r0 [[<- <-]|[_ H0]]%lookup_insert_Some; [done|]. apply lookup_delete_Some in H0 as [_ H0]. by apply T.
  - assert (F : forall k' r', delete k m !! k' = Some r' -> se_SessionID r = se_SessionID r' -> False) by (intros k' r' [D H']%lookup_delete_Some E; apply D; by eapply O).
    intros k1 k2 r1 r2 [[<- <-]|[_ H1]]%lookup_insert_Some [[<- <-]|[_ H2]]%lookup_insert_Some E; [done|by destruct (F k2 r2)|by destruct (F k1 r1)|].
    apply lookup_delete_Some in H1 as [_ H1], H2 as [_ H2]. by eapply O.
  - intros t Lt. etrans; [|apply (Li now C)]. apply inj_le. assert (K : k ∈ live now m) by (apply elem_of_live; eauto).
    assert (Sb : live t (<[tok := rotated tok idle r]> (delete k m)) ⊆ {[tok]} ∪ (live now m ∖ {[k]})).
    { etrans; [apply live_insert|]. apply union_mono_l. intros k0. rewrite elem_of_difference, elem_of_singleton, elem_of_live. intros (r0 & [D H0]%lookup_delete_Some & L0). split; [|congruence].
      apply (live_later now t); [done|]. apply elem_of_live. eauto. }
    apply subseteq_size in Sb. rewrite size_union_alt, size_singleton in Sb.
    pose proof (subseteq_size (live now m ∖ {[k]} ∖ {[tok]}) (live now m ∖ {[k]}) ltac:(set_solver)) as S1. pose proof (size_difference (live now m) {[k]} ltac:(set_solver)) as S2.
    rewrite size_singleton in S2. assert (size (live now m) <> 0)%nat by (intros E0%size_empty_iff; set_solver). lia.
Qed.

Lemma issued_spec st seenT seenS rows : issue_clash st seenT seenS rows = false ->
  NoDup (map se_TokenHash rows) /\ NoDup (map se_SessionID rows) /\ Forall (fun r => au_authoring st !! se_TokenHash r = None
    /\ (forall k r', au_authoring st !! k = Some r' -> se_SessionID r' <> se_SessionID r) /\ ~ In (se_TokenHash r) seenT /\ ~ In (se_SessionID r) seenS) rows.
Proof.
  revert seenT seenS. induction rows as [|r rows IH]; intros sT sS H; cbn in *; [by repeat constructor|]. rewrite !orb_false_iff in H. destruct H as ((((H1 & H2) & H3) & H4) & H5).
  destruct (IH _ _ H5) as (N1 & N2 & F). rewrite List.Forall_forall in F. split; [|split].
  - apply list.NoDup_cons. split; [|done]. rewrite list_elem_of_In, in_map_iff. intros (x & E & I). destruct (F x I) as (_ & _ & K & _). apply K. left. by rewrite E.
  - apply list.NoDup_cons. split; [|done]. rewrite list_elem_of_In, in_map_iff. intros (x & E & I). destruct (F x I) as (_ & _ & _ & K). apply K. left. by rewrite E.
  - apply List.Forall_forall. intros x [<-|I].
    + split; [by destruct (au_authoring st !! se_TokenHash r)|]. split; [|rewrite <- !str_in_In, H2, H4; done].
      intros k r' Hk E. apply not_true_iff_false in H3. apply H3. apply existsb_exists. exists r'. split; [|by apply String.eqb_eq].
      unfold session_rows. apply in_map_iff. exists (k, r'). split; [done|]. by apply list_elem_of_In, elem_of_map_to_list.
    + destruct (F x I) as (A1 & A2 & A3 & A4). split; [done|]. split; [done|]. split; intros K; [apply A3|apply A4]; by right.
Qed.

Lemma lookup_issued rows (m : gmap string AuthoringSessionRow) k r : NoDup (map se_TokenHash rows) -> fold_left (fun m row => <[se_TokenHash row := row]> m) rows m !! k = Some r ->
  (In r rows /\ se_TokenHash r = k) \/ m !! k = Some r.
Proof.
  revert m. induction rows as [|x rows IH]; intros m N; cbn [fold_left]; [auto|]. cbn [map] in N. apply list.NoDup_cons in N as [Nx N]. intros H.
  destruct (IH _ N H) as [[I E]|[[E1 E2]|[_ H0]]%lookup_insert_Some]; [left; split; [by right|done]|subst x; left; split; [by left|done]|by right].
Qed.

Lemma same_session rows r1 r2 : NoDup (map se_SessionID rows) -> In r1 rows -> In r2 rows -> se_SessionID r1 = se_SessionID r2 -> r1 = r2.
Proof.
  induction rows as [|x rows IH]; [done|]. cbn [map]. intros [Nx N]%list.NoDup_cons I1 I2 E. rewrite list_elem_of_In, in_map_iff in Nx.
  destruct I1 as [<-|I1], I2 as [<-|I2]; [done|destruct Nx; eauto|destruct Nx; eauto|auto].
Qed.

Lemma issued_ok clock now rows st : sessions_ok clock (au_authoring st) -> clock <= now -> sessions_ok now (au_authoring (fst (IssueAuthoringSessions rows now st))).
Proof.
  intros S C. pose proof S as [T O Li]. unfold IssueAuthoringSessions. destruct (Z.ltb_spec MaxAuthoringSessions (Z.of_nat (length (active_sessions now st)) + Z.of_nat (length rows))) as [|Lm]; [by apply (later_ok clock)|].
  destruct (issue_clash st [] [] rows) eqn:Cl; [by apply (later_ok clock)|]. cbn [fst au_authoring set_sessions]. destruct (issued_spec _ _ _ _ Cl) as (N1 & N2 & F). rewrite List.Forall_forall in F. split.
  - intros k r H. destruct (lookup_issued _ _ _ _ N1 H) as [[_ E]|H']; [done|by apply T].
  - intros k k' r r' H H' E. destruct (lookup_issued _ _ _ _ N1 H) as [[I Ek]|H1], (lookup_issued _ _ _ _ N1 H') as [[I' Ek']|H1'].
    + rewrite (same_session rows r r' N2 I I' E) in Ek. congruence.
    + by destruct (proj1 (proj2 (F r I)) k' r' H1').
    + by destruct (proj1 (proj2 (F r' I')) k r H1).
    + by eapply O.
  - intros t Lt. pose proof (live_fold t rows (au_authoring st)) as H. pose proof (subseteq_size _ _ (live_later now t (au_authoring st) Lt)) as H'. rewrite active_live in Lm. lia.
Qed.

Lemma sweep_sessions s p cs now entries st : au_authoring match sweep s p cs now entries st with Kept _ st' | Free st' => st' end = au_authoring st.
Proof.
  revert st. induction entries as [|[key w] entries IH]; intros st; cbn [sweep]; [done|]. destruct (_ && _); [by rewrite IH|]. destruct (_ && _); [by rewrite IH|].
  destruct (_ && _); [|by rewrite IH]. destruct (eligible cs w); [|by rewrite IH]. unfold keep_claim. destruct (barred_at _ _ _ _ _); [done|]. by destruct (debounced _ _ _).
Qed.
Lemma pick_sessions s p now only lease cs st : au_authoring (fst (pick_candidate s p now only lease cs st)) = au_authoring st.
Proof.
  revert st. induction cs as [|c cs IH]; intros st; cbn [pick_candidate]; [done|]. destruct (_ && _); [apply IH|]. destruct (taken c st); [apply IH|]. cbv zeta. destruct (barred_at _ _ _ _ _); [by rewrite IH|done].
Qed.
Lemma claim_sessions {GM : GoMapRange} s cs now lease only st : au_authoring (fst (claimAuthoringWork s cs now lease only st)) = au_authoring st.
Proof.
  unfold claimAuthoringWork. pose proof (sweep_sessions s (authoringPeerID s st) cs now (range_order (map_to_list (au_authoringWork st))) st) as E.
  destruct (sweep _ _ _ _ _ _); [exact E|]. by rewrite pick_sessions.
Qed.
Lemma submission_sessions s sample now entries st : au_authoring (fst (submission_walk s sample now entries st)) = au_authoring st.
Proof.
  revert st. induction entries as [|[key w] entries IH]; intros st; cbn [submission_walk]; [done|]. destruct (_ && _); [by rewrite IH|]. destruct (_ && _); [done|apply IH].
Qed.

Lemma sessions_step clock x st : sessions_ok clock (au_authoring st) -> step_allowed clock x = true -> sessions_ok (sp_now x) (au_authoring (authoring_next x st)).
Proof.
  intros S A. unfold step_allowed in A. rewrite !andb_true_iff in A. destruct A as [[P%Z.ltb_lt C%Z.leb_le] _]. pose proof (later_ok clock (sp_now x) _ C S) as S'.
  unfold authoring_next. destruct (sp_op x) as [rows|s t i|t ip cn i|s|s cs le so|s o d|key|s sa|s w sa|sa].
  - by apply (issued_ok clock).
  - unfold RotateAuthoringSession. destruct (au_authoring st !! t) eqn:Et; [done|]. destruct (find _ _) as [[k r]|] eqn:F; [|done]. apply find_some in F as [I Pr]. cbn [fst snd au_authoring set_sessions] in *.
    apply andb_true_iff in Pr as [_ Lv]. apply (rotated_ok clock); [done|done|by apply elem_of_map_to_list, list_elem_of_In|done|done].
  - unfold RefreshAuthoringSession. destruct (au_authoring st !! t) as [r|] eqn:Et; [|done]. destruct (is_zero_time (se_RevokedAt r)) eqn:Rv; [|done]. cbn [negb].
    destruct (sp_now x <? se_IdleExpiresAt r) eqn:Ex; [|done]. cbn [negb]. destruct (_ || _); [|done]. cbn [fst au_authoring set_sessions]. apply (renewed_ok clock _ t r); [done|done|done|exact (ss_token _ _ S t r Et)|done|].
    left. unfold session_live. by rewrite Rv, Ex.
  - unfold RevokeAuthoringSession. destruct (find _ _) as [[k r]|] eqn:F; [|done]. apply find_some in F as [I Pr]. cbn [fst snd au_authoring] in *. apply list_elem_of_In, elem_of_map_to_list in I.
    apply (renewed_ok clock _ k r); [done|done|done|exact (ss_token _ _ S k r I)|done|]. right. intros t. unfold session_live. cbn. by rewrite later_not_zero.
  - by rewrite claim_sessions.
  - unfold ReportAuthoringOutcome. by destruct (find _ _) as [[key w]|].
  - unfold ReopenAuthoringQuarantine. destruct (au_authoringAttempts st !! key); [|done]. by rewrite (surjective_pairing (reopen _ _)).
  - unfold AuthoringWorkForSubmission. by rewrite submission_sessions.
  - unfold AttachAuthoringWorkSample. by repeat case_match.
  - done.
Qed.

(** ** Theorems *)

Lemma undisturbed_app e1 e2 : undisturbed (e1 ++ e2)%list = undisturbed e1 && undisturbed e2.
Proof. apply forallb_app. Qed.

(** A run of the store is a history of each of its gates. *)
Record run_effect (xs : list authoring_step) (st : authoring_store) (k : work_key) (a : string) (evs : list (Z * gate_event)) : Prop := {
  re_turns : turns k a xs st <= handouts evs;
  re_turns_of : forall s, turns_of s k a xs st <= handouts_to s evs;
  re_alone : forallb (leaves_alone k) xs = true -> undisturbed evs = true;
  re_times : forall t0, Forall (fun x => t0 <= sp_now x) xs -> Forall (fun e => t0 <= fst e) evs;
  re_reports : forall o q, measured_by o evs q -> In q (reporters o xs st) }.

Lemma run_effect_cons x xs st k a e1 e2 : gate_effect x st (authoring_next x st) k a e1 -> run_effect xs (authoring_next x st) k a e2 -> run_effect (x :: xs) st k a (e1 ++ e2).
Proof.
  intros [[F M] T A R] [T2 To2 A2 Ti2 R2]. split.
  - cbn [turns]. rewrite handouts_app. destruct (opens_turn _ _ _ _); [|unfold handouts; unfold handouts in T2; lia]. destruct (T eq_refl) as (s & _ & H). pose proof (handouts_to_all s e1). lia.
  - intros s. cbn [turns_of]. rewrite handouts_to_app. specialize (To2 s). pose proof (handouts_to_pos s e1). destruct (opens_turn _ _ _ _); cbn [andb]; [|lia]. destruct (T eq_refl) as (s' & E & Hh).
    rewrite E. case_bool_decide as D; [|lia]. injection D as ->. lia.
  - cbn [forallb]. rewrite andb_true_iff, undisturbed_app. intros [H1 H2]. by rewrite A, A2.
  - intros t0 H. inversion H; subst. apply Forall_app. split; [|by apply Ti2]. eapply List.Forall_impl; [|exact F]. cbn. intros e ->. done.
  - intros o q (t & s & p & d & I & E). cbn [reporters]. apply in_or_app. apply in_app_or in I as [I|I].
    + left. destruct (R _ _ _ _ _ I) as (d' & -> & ->). rewrite decide_True by done. left. done.
    + right. apply R2. exists t, s, p, d. done.
Qed.

Lemma tracks_later now now' k a st s : now <= now' -> tracks now k a st s -> tracks now' k a st s.
Proof. intros L [G C K]. split; [done|lia|done]. Qed.

Lemma run_tracks k a xs : normal a -> forall clock st clock' st' s, authoring_run xs clock st = Some (clock', st') -> board_ok st -> sessions_ok clock (au_authoring st) -> tracks clock k a st s ->
  exists evs s', gate_run a evs s = Some s' /\ tracks clock' k a st' s' /\ board_ok st' /\ sessions_ok clock' (au_authoring st') /\ run_effect xs st k a evs.
Proof.
  intros N. induction xs as [|x xs IH]; intros clock st clock' st' s R B S T; cbn [authoring_run] in R.
  - injection R as <- <-. exists [], s. do 4 (split; [done|]). split; [done|done|done|done|]. by intros o q (t & ? & ? & ? & [] & _).
  - destruct (step_allowed clock x) eqn:A; [|done]. destruct (authoring_step_ok clock x st B A) as [B' Ef]. destruct (Ef k a N) as [e1 G]. pose proof (sessions_step clock x st S A) as S'.
    assert (C : clock <= sp_now x) by (unfold step_allowed in A; rewrite !andb_true_iff in A; destruct A as [[_ C%Z.leb_le] _]; done).
    destruct (proj2 (ge_moves _ _ _ _ _ _ G) s (tracks_later _ _ _ _ _ _ C T)) as (s1 & R1 & T1). destruct (IH _ _ _ _ s1 R B' S' T1) as (e2 & s2 & R2 & T2 & B2 & S2 & E2).
    exists (e1 ++ e2)%list, s2. rewrite gate_run_app, R1. split; [done|]. split; [done|]. split; [done|]. split; [done|]. by apply run_effect_cons.
Qed.

Lemma new_board : board_ok new_authoring_store.
Proof. split; intros k w; try done. Qed.
Lemma new_sessions : sessions_ok zero_time (au_authoring new_authoring_store).
Proof. split; [done|done|]. intros t _. unfold live. cbn. by rewrite map_filter_empty, dom_empty_L, size_empty. Qed.
Lemma new_tracks k a : normal a -> tracks zero_time k a new_authoring_store fresh_gate.
Proof. intros N. split; [|cbn; lia|done]. unfold gate_at, ledger_at. cbn [new_authoring_store au_authoringAttempts]. rewrite lookup_empty. symmetry. exact (new_gate_of a k). Qed.

(** The board is sound.  However sessions are issued, rotated, refreshed and
    revoked and work is claimed, reported, submitted and judged, a writer holds
    at most one open assignment, every assignment is filed under its own
    coordinate, session ids are unique, and no more sessions than the limit
    are live, now or later. *)
Theorem authoring_board_is_sound xs clock st : authoring_run xs zero_time new_authoring_store = Some (clock, st) ->
  (forall k w, au_authoringWork st !! k = Some w -> work_coordinate w = k)
  /\ (forall k k' w w', au_authoringWork st !! k = Some w -> au_authoringWork st !! k' = Some w' -> open_work w = true -> open_work w' = true -> aw_SessionID w = aw_SessionID w' -> k = k')
  /\ (forall k k' r r', au_authoring st !! k = Some r -> au_authoring st !! k' = Some r' -> se_SessionID r = se_SessionID r' -> k = k')
  /\ forall t, clock <= t -> Z.of_nat (length (active_sessions t st)) <= MaxAuthoringSessions.
Proof.
  intros R. destruct (run_tracks ("", "", "", "") AuthoringAxisSample xs eq_refl _ _ _ _ _ R new_board new_sessions (new_tracks _ _ eq_refl)) as (evs & s & _ & _ & [K _ O] & [_ So Li] & _).
  split; [done|]. split; [done|]. split; [done|]. intros t H. rewrite active_live. by apply Li.
Qed.

(** C36.  The store bounds what one coordinate can cost.  In less than thirty days
    in which nobody attaches a sample to the coordinate or reopens it, at most
    ten turns are opened on each of its axes, and in less than a day one
    writer has at most four of them, whatever sessions come and go, whatever
    they claim, report or leave lying, and in whatever order the store walks
    its assignments. *)
Theorem authoring_turns_are_bounded before during c0 st0 c1 st1 t0 key axis sessionID :
  authoring_run before zero_time new_authoring_store = Some (c0, st0) -> authoring_run during c0 st0 = Some (c1, st1) ->
  forallb (leaves_alone key) during = true -> Forall (fun x => t0 <= sp_now x) during -> c1 < t0 + AuthoringQuarantineCooldown ->
  turns key (normalizeAuthoringAxis axis) during st0 <= 10
  /\ (c1 < t0 + AuthoringSessionHandoutCooldown -> turns_of sessionID key (normalizeAuthoringAxis axis) during st0 <= 4).
Proof.
  intros R0 R1 Al Ti C. assert (N : normal (normalizeAuthoringAxis axis)) by apply normalize_idem. set (a := normalizeAuthoringAxis axis) in *.
  destruct (run_tracks key a before N _ _ _ _ _ R0 new_board new_sessions (new_tracks _ _ N)) as (e0 & s0 & G0 & T0 & B0 & S0 & _).
  destruct (run_tracks key a during N _ _ _ _ _ R1 B0 S0 T0) as (e1 & s1 & G1 & T1 & _ & _ & E1).
  pose proof (authoring_cost_is_bounded a e0 e1 s0 s1 t0 c1 sessionID G0 G1 (re_alone _ _ _ _ _ E1 Al) (re_times _ _ _ _ _ E1 t0 Ti) (conj (tr_clock _ _ _ _ _ T1) C)) as (H1 & _ & H2).
  pose proof (re_turns _ _ _ _ _ E1). pose proof (re_turns_of _ _ _ _ _ E1 sessionID). split; [lia|]. intros D. specialize (H2 D). lia.
Qed.


(** Two machines, one coordinate. *)
Definition farm_session (token session computer : string) : AuthoringSessionRow :=
  mkSession token session "" "model" "high" minute zero_time (60 * minute) "" computer zero_time.
Definition wanted_call : WantedRow := mkWanted "npm" "left-pad" "1.3.0" "leftPad" 7 "" 7 "".
Definition farm_start : list authoring_step := [mkAStep minute range_in_order (OIssue [farm_session "t1" "s1" "m1"; farm_session "t2" "s2" "m2"])].
Definition farm_turn (at_minute : Z) (session : string) (o : AuthoringOutcome) : list authoring_step :=
  [mkAStep (at_minute * minute) range_in_order (OClaim session [wanted_call] ((at_minute + 1440) * minute) false);
   mkAStep ((at_minute + 3) * minute) range_in_order (OReport session o "")].
Definition farm_day : list authoring_step := (farm_turn 2 "s1" Transient ++ farm_turn 6 "s1" NoOutputOutcome ++ farm_turn 10 "s2" NoOutputOutcome)%list.
Definition farm_gives_up : list authoring_step := (farm_start ++ farm_turn 2 "s1" NoCallableSymbol ++ farm_turn 6 "s2" NoCallableSymbol)%list.
Definition farm_key : work_key := ("npm", "left-pad", "1.3.0", "leftPad").

Lemma authoring_board_is_sound_witness :
  exists clock st, authoring_run (farm_start ++ [mkAStep (2 * minute) range_in_order (OClaim "s1" [wanted_call] (90 * minute) false)])%list zero_time new_authoring_store = Some (clock, st)
    /\ size (au_authoringWork st) = 1%nat /\ length (active_sessions clock st) = 2%nat /\ forall t, clock <= t -> Z.of_nat (length (active_sessions t st)) <= MaxAuthoringSessions.
Proof.
  eexists _, _. split; [vm_compute; reflexivity|]. split; [vm_compute; reflexivity|]. split; [vm_compute; reflexivity|].
  eapply (authoring_board_is_sound (farm_start ++ [mkAStep (2 * minute) range_in_order (OClaim "s1" [wanted_call] (90 * minute) false)])%list). vm_compute. reflexivity.
Defined.

Lemma authoring_turns_are_bounded_witness :
  exists c0 st0, authoring_run farm_start zero_time new_authoring_store = Some (c0, st0) /\ turns farm_key AuthoringAxisSample farm_day st0 = 3 /\ turns_of "s1" farm_key AuthoringAxisSample farm_day st0 = 2
    /\ turns farm_key AuthoringAxisSample farm_day st0 <= 10 /\ turns_of "s1" farm_key AuthoringAxisSample farm_day st0 <= 4.
Proof.
  assert (R : exists c0 st0 c1 st1, authoring_run farm_start zero_time new_authoring_store = Some (c0, st0) /\ authoring_run farm_day c0 st0 = Some (c1, st1) /\ c1 = 13 * minute
    /\ turns farm_key AuthoringAxisSample farm_day st0 = 3 /\ turns_of "s1" farm_key AuthoringAxisSample farm_day st0 = 2)
    by (do 4 eexists; split; [vm_compute; reflexivity|]; split; [vm_compute; reflexivity|]; split; [reflexivity|]; split; vm_compute; reflexivity).
  destruct R as (c0 & st0 & c1 & st1 & R0 & R1 & C & T & To). exists c0, st0. split; [exact R0|]. split; [exact T|]. split; [exact To|].
  destruct (authoring_turns_are_bounded farm_start farm_day c0 st0 c1 st1 minute farm_key "" "s1" R0 R1) as [H1 H2];
    [reflexivity|repeat constructor; vm_compute; discriminate|rewrite C; vm_compute; reflexivity|]. split; [exact H1|]. apply H2. rewrite C. vm_compute. reflexivity.
Defined.

