(* ===== verification/Images.v ===== *)
(** * Verifier images (internal/sandbox)

    Which pinned container image a sample is verified in, and what the receipt
    says about it: the registry (images.go), the selection by manifest and the
    environment a run reports (docker.go), the pre-claim decision of a worker,
    and the command line of a stage. *)

From stdpp Require Import gmap.
From S2P Require Import Prelude GoStrings GoUnicode GoStd StringFacts UnicodeFacts WordFacts Regexp Calendar Float Hash Json.
From S2P Require Import Purl Env Targets Failure Search Anomaly Candidate Measured Queue.

#[local] Open Scope csx_scope.

(** ** The registry (images.go) *)

Record verifierImage := mkPinned {
  im_alias : string;
  im_digest : string;
  im_bucket : string;
  im_distro : string;
  im_libc : string
}.

#[export] Instance verifierImage_eq_dec : EqDecision verifierImage.
Proof. solve_decision. Defined.

Definition image_ref (v : verifierImage) : string := im_alias v +:+ "@" +:+ im_digest v.

(** The map's values; the key of each is its alias. *)
Definition verifierImages : list verifierImage :=
  [mkPinned "node:22-alpine" "sha256:c610fcdfb1d5b4740dd70c284ed3cb16bb857e0f7166196e36a5501df7a3aa32" "alpine" "" "musl";
   mkPinned "node:22" "sha256:8a34c4ab3ea2c5cd194f07e317b2a8f09461d3c8b05c4e34c8ccd56d56024c4d" "debian" "" "glibc";
   mkPinned "oven/bun:1-alpine" "sha256:07235578f79ef8c6f97d94aee7938e76f5cdba5f21ae5dbfdd3d3d38058437eb" "alpine" "" "musl";
   mkPinned "denoland/deno:alpine" "sha256:b49ac52f05c3d8d0da890b6628168e9bfb5721f7bccc00305bb3ad29ed0e40af" "alpine" "" "musl";
   mkPinned "python:3.12-slim" "sha256:09f7da3bc104798d0afb40bc08d23ab2da20a76130cec1f2ef170848f5d85217" "debian" "" "glibc";
   mkPinned "python:3.14-slim" "sha256:cae66f2ef0ec51a9891263eeee7f987dacf0a9879e8aa9353d5606e0530619a5" "debian" "" "glibc";
   mkPinned "python:3.12-alpine" "sha256:d09d15e60962ca365d1cd544a48773bac9d33f2fb1b00f2aa0deec78ade7dc31" "alpine" "" "musl";
   mkPinned "python:3.14-alpine" "sha256:05b2b8b732ecd268fee8727a369f936f022d1321b59befd13c30ede22769dcdc" "alpine" "" "musl";
   mkPinned "golang:1.26-alpine" "sha256:28d89ee9cc0ff9fec75c82ca201e6bf7fdf9a679d4b7b24dfa04f2bb766bb468" "alpine" "" "musl";
   mkPinned "golang:1.26" "sha256:e30143be198ab04cf7ba25fba83ab3a692ca584c994aad0bf131fa0eb32dd8c1" "debian" "" "glibc";
   mkPinned "rust:1-alpine" "sha256:a10e64dd139b7387337c7fbe8aca31b959b57b2fd4c8ae20a02cf1d6ea424dce" "alpine" "" "musl";
   mkPinned "composer:2" "sha256:4d71c3c2109c61d5415544264b59ad4087e4c5b7244481723664138fd36d5040" "alpine" "" "musl";
   mkPinned "ruby:3" "sha256:364bd08657bc1106373e8c2fc1b39b68f384f339decc5867374caf6e2e112927" "debian" "" "glibc";
   mkPinned "dart:3.13.0" "sha256:8b6175f6c6b89aaf31ffdace4a22d17715c07f1cf3a772dadb10c658f779e23d" "debian" "" "glibc";
   mkPinned "elixir:1.20.1-alpine" "sha256:f50894ff69b0d07b310fe9c97b48b3475568ecccb7f0ccd7c350a789feb395a3" "alpine" "" "musl";
   mkPinned "ghcr.io/puppeteer/puppeteer:24.4.0" "sha256:ca2087099ad5769b74c89135c663cbb2a76e07d3e261bb3e2da83be98409a68a" "debian" "" "glibc";
   mkPinned "maven:3.9.11-eclipse-temurin-21-alpine" "sha256:922927df2c662cdd47ddb116443d6bec4696cfae3de1a0ddac8fcc7b87ce61ae" "alpine" "" "musl";
   mkPinned "gradle:8.14.3-jdk21-alpine" "sha256:d20561a56ff27350ea778b8151f6af913c76e9d35b6a135f927ee16e3ce8193c" "alpine" "" "musl";
   mkPinned "maven:3.9.11-amazoncorretto-8-al2023" "sha256:80f411ee8dc37def5bb6808f3b2698d5fac5a16b6797ffc8fc1fbce2df71b49e" "2023" "amzn" "glibc";
   mkPinned "maven:3.9.11-amazoncorretto-11-al2023" "sha256:07b7514c1fce56f9dece12a9daea49312fff36f4b3449e8c314667587f997be0" "2023" "amzn" "glibc";
   mkPinned "maven:3.9.11-amazoncorretto-17-al2023" "sha256:6374befde1891b069f5297714525d2a6c03cd0f410070fb53b2842b4d8118c63" "2023" "amzn" "glibc";
   mkPinned "maven:3.9.11-amazoncorretto-21-al2023" "sha256:b0e00d2581674e0c12392bb88075a2835e73af86af48bbdb8eeec3d2e993ea40" "2023" "amzn" "glibc";
   mkPinned "maven:3.9.11-amazoncorretto-25-al2023" "sha256:3d55eb28eae103300391509a5ac8cfc918d4a35dbfd087ef5472023949682791" "2023" "amzn" "glibc";
   mkPinned "gradle:8.14.3-jdk8-corretto-al2023" "sha256:ec6379bf6453a09b608f7feb4e52a53f28edc2a1acc8a07aff6328b906bf20d6" "2023" "amzn" "glibc";
   mkPinned "gradle:8.14.3-jdk11-corretto-al2023" "sha256:93d9f84a044faf9b345b7c126772ba719195318b0e848e322c6f1a977232e012" "2023" "amzn" "glibc";
   mkPinned "gradle:8.14.3-jdk17-corretto-al2023" "sha256:9a40f91169b9685e9d25c73722b7f8dea9e1e7aa43dc4fc8a1acda1614a05eca" "2023" "amzn" "glibc";
   mkPinned "gradle:8.14.3-jdk21-corretto-al2023" "sha256:05cb2f8b4a77587b3de1cd7ae003204eb8c1dc9db48a52c9cebd29d0041c949b" "2023" "amzn" "glibc";
   mkPinned "gradle:9.7.0-jdk25-corretto-al2023" "sha256:bb35f016497202d8342ff68fe5d45b74a94a3d9043a3d2cced0061818abebeef" "2023" "amzn" "glibc";
   mkPinned "golang:1.26-windowsservercore-ltsc2022" "sha256:2a3365ef5cb38e4ebaafe073a68a97989322fda2a582ee067ef9fd59a0551692" "windowsservercore" "" "";
   mkPinned "python:3.12-windowsservercore-ltsc2022" "sha256:035418c04b5e8fcb13c6b23f6c801a52c510c43e8bf27e2379d26ad8c40c87a7" "windowsservercore" "" "";
   mkPinned "python:3.14-windowsservercore-ltsc2022" "sha256:f7af89224fd778159f655fceca89562fb978e12a6c66e191fd2c27800ec994e5" "windowsservercore" "" ""].

(** The lookup of an alias the registry lacks is a panic at start; see
    [selected_images_exist]. *)
Definition registered (alias : string) : option verifierImage := List.find (fun v => String.eqb (im_alias v) alias) verifierImages.
Definition pinned (alias : string) : string := match registered alias with Some v => image_ref v | None => "" end.

Definition registryEntryFor (ref : string) : option verifierImage := List.find (fun v => String.eqb (image_ref v) ref) verifierImages.

Definition PublishedImage (reference : string) : option VerifierImage :=
  option_map (fun v => mkImage (image_ref v) (im_digest v)) (registryEntryFor reference).

Definition PublishedReferences : list string := sort_strings (map image_ref verifierImages).

Definition imageBase (image : string) : string * string :=
  match registryEntryFor image with
  | Some v => (im_bucket v, im_libc v)
  | None => if Contains image "alpine" then ("alpine", "musl") else ("debian", "glibc")
  end.

Definition verifierImageOf (ref : string) : option VerifierImage := PublishedImage ref.

(** ** Selecting an image (docker.go) *)

Definition ContainerOSLinux : string := "linux".
Definition ContainerOSWindows : string := "windows".
Definition containerOSOrLinux (os : string) : string := if String.eqb os ContainerOSWindows then ContainerOSWindows else ContainerOSLinux.

Inductive image_error :=
| NoEcosystemImage (ecosystem : string)
| NoRuntimeImage (ecosystem runtime : string)
| NoVersionImage (version : string)
| JavaRuntime (runtime : string)
| JavaContext (ctx : string)
| JavaBrowser
| JavaAdapter (adapter : string)
| JavaVersion (adapter version : string)
| JavaLanguage (version : string)
| JavaLanguageExceeds (language runtime : string)
| NoWindowsBrowser
| NoWindowsJava
| NoWindowsImage (ecosystem detail : string)
| LibcMismatch (alias libc declared : string)
| BrowserDimensions
| VersionMismatch (provided requested : string)
| NoContextImage (ctx : string)
| BrowserNeedsNode
| NoBrowserImage (family major : string)
| WrongEngine (engine : string)
| WrongEngineVersion (version : string).

Definition windowsImageFor (ecosystem runtime runtimeVersion : string) : result string image_error :=
  if String.eqb ecosystem "golang" then
    if negb (String.eqb runtime "") && negb (String.eqb runtime "go") then Err (NoWindowsImage ecosystem runtime)
    else Ok (pinned "golang:1.26-windowsservercore-ltsc2022")
  else if String.eqb ecosystem "pypi" then
    if negb (String.eqb runtime "") && negb (String.eqb runtime "python") then Err (NoWindowsImage ecosystem runtime)
    else if str_in runtimeVersion [""; "3.12"] then Ok (pinned "python:3.12-windowsservercore-ltsc2022")
    else if String.eqb runtimeVersion "3.14" then Ok (pinned "python:3.14-windowsservercore-ltsc2022")
    else Err (NoWindowsImage ecosystem runtimeVersion)
  else Err (NoWindowsImage ecosystem "").

Definition SupportsWindows (ecosystem : string) : bool := is_ok (windowsImageFor ecosystem "" "").

Definition chrome134Image : string := pinned "ghcr.io/puppeteer/puppeteer:24.4.0".
Definition mavenJavaImage : string := pinned "maven:3.9.11-eclipse-temurin-21-alpine".
Definition gradleJavaImage : string := pinned "gradle:8.14.3-jdk21-alpine".
Definition python314Image : string := pinned "python:3.14-slim".

Record javaVerifierImage := mkJava { jv_image : string; jv_runtimeVersion : string; jv_packageManagerVersion : string }.

Definition mavenJavaImages : list (string * javaVerifierImage) :=
  [("", mkJava mavenJavaImage "21" "3.9");
   ("8", mkJava (pinned "maven:3.9.11-amazoncorretto-8-al2023") "8" "3.9.11");
   ("11", mkJava (pinned "maven:3.9.11-amazoncorretto-11-al2023") "11" "3.9.11");
   ("17", mkJava (pinned "maven:3.9.11-amazoncorretto-17-al2023") "17" "3.9.11");
   ("21", mkJava (pinned "maven:3.9.11-amazoncorretto-21-al2023") "21" "3.9.11");
   ("25", mkJava (pinned "maven:3.9.11-amazoncorretto-25-al2023") "25" "3.9.11")].

Definition gradleJavaImages : list (string * javaVerifierImage) :=
  [("8", mkJava (pinned "gradle:8.14.3-jdk8-corretto-al2023") "8" "8.14.3");
   ("11", mkJava (pinned "gradle:8.14.3-jdk11-corretto-al2023") "11" "8.14.3");
   ("17", mkJava (pinned "gradle:8.14.3-jdk17-corretto-al2023") "17" "8.14.3");
   ("21", mkJava (pinned "gradle:8.14.3-jdk21-corretto-al2023") "21" "8.14.3");
   ("25", mkJava (pinned "gradle:9.7.0-jdk25-corretto-al2023") "25" "9.7.0")].

Definition javaReleaseNumber (version : string) : option Z :=
  if String.eqb version "8" then Some 8 else if String.eqb version "11" then Some 11 else if String.eqb version "17" then Some 17
  else if String.eqb version "21" then Some 21 else if String.eqb version "25" then Some 25 else None.

Definition java_line (images : list (string * javaVerifierImage)) (version : string) : option javaVerifierImage :=
  option_map snd (List.find (fun x => String.eqb (fst x) version) images).

Definition java_images (adapter : string) : option (list (string * javaVerifierImage)) :=
  if str_in adapter ["maven-java@1"; ""] then Some mavenJavaImages
  else if String.eqb adapter "gradle-java@1" then Some gradleJavaImages else None.

Definition java_language (language : string) (spec : javaVerifierImage) : result javaVerifierImage image_error :=
  if String.eqb language "" then Ok spec
  else match javaReleaseNumber language with
  | None => Err (JavaLanguage language)
  | Some l =>
      let runtime := default 0 (javaReleaseNumber (jv_runtimeVersion spec)) in
      if runtime <? l then Err (JavaLanguageExceeds language (jv_runtimeVersion spec)) else Ok spec
  end.

(** [javaImageForManifest] reads the environment and the adapter; [None] is
    "not Java". *)
Definition javaImageFor (e : EnvironmentFingerprint) (adapter : string) : option (result javaVerifierImage image_error) :=
  let env := env_Normalize e in
  if negb (String.eqb (env_Ecosystem env) "maven") then None
  else Some (
    if negb (String.eqb (env_Runtime env) "") && negb (String.eqb (env_Runtime env) "java") then Err (JavaRuntime (env_Runtime env))
    else if negb (String.eqb (env_ExecutionContext env) "") && negb (String.eqb (env_ExecutionContext env) "java")
    then Err (JavaContext (env_ExecutionContext env))
    else if negb (String.eqb (env_BrowserFamily env) "") || negb (String.eqb (env_BrowserMajor env) "")
            || negb (String.eqb (env_Engine env) "") || negb (String.eqb (env_EngineVersion env) "") then Err JavaBrowser
    else match java_images adapter with
    | None => Err (JavaAdapter adapter)
    | Some images =>
        let version := if String.eqb (env_RuntimeVersion env) "" && String.eqb (env_Libc env) "glibc" then "21" else env_RuntimeVersion env in
        match java_line images version with
        | None => Err (JavaVersion adapter (env_RuntimeVersion env))
        | Some spec => java_language (env_LanguageVersion env) spec
        end
    end).

Definition javaImageForManifest (m : SampleManifest) : option (result javaVerifierImage image_error) :=
  javaImageFor (mf_Environment m) (mf_VerifierAdapter m).

Definition env_of (ecosystem runtime runtimeVersion ctx family major engine engineVersion : string) : EnvironmentFingerprint :=
  mkEnv 1 ecosystem "" "" "" runtime runtimeVersion "" "" "" "" "" "" "" [] ctx family major engine engineVersion "" "" "" "" "" false.

Definition python_image (libc runtimeVersion : string) : result string image_error :=
  if String.eqb libc "musl" then
    if str_in runtimeVersion [""; "3.12"] then Ok (pinned "python:3.12-alpine")
    else if String.eqb runtimeVersion "3.14" then Ok (pinned "python:3.14-alpine")
    else Err (NoVersionImage runtimeVersion)
  else if str_in runtimeVersion [""; "3.12"] then Ok (pinned "python:3.12-slim")
  else if String.eqb runtimeVersion "3.14" then Ok python314Image
  else Err (NoVersionImage runtimeVersion).

Definition imageForRuntimeVersion (ecosystem runtime runtimeVersion libc : string) : result string image_error :=
  if String.eqb ecosystem "npm" then
    if str_in runtime [""; "node"] then Ok (if String.eqb libc "glibc" then pinned "node:22" else pinned "node:22-alpine")
    else if String.eqb runtime "bun" then Ok (pinned "oven/bun:1-alpine")
    else if String.eqb runtime "deno" then Ok (pinned "denoland/deno:alpine")
    else Err (NoRuntimeImage ecosystem runtime)
  else if String.eqb ecosystem "pypi" then
    if negb (String.eqb runtime "") && negb (String.eqb runtime "python") then Err (NoRuntimeImage ecosystem runtime)
    else python_image libc runtimeVersion
  else if String.eqb ecosystem "golang" then Ok (if String.eqb libc "glibc" then pinned "golang:1.26" else pinned "golang:1.26-alpine")
  else if String.eqb ecosystem "cargo" then Ok (pinned "rust:1-alpine")
  else if String.eqb ecosystem "composer" then Ok (pinned "composer:2")
  else if String.eqb ecosystem "gem" then Ok (pinned "ruby:3")
  else if String.eqb ecosystem "pub" then Ok (pinned "dart:3.13.0")
  else if String.eqb ecosystem "hex" then Ok (pinned "elixir:1.20.1-alpine")
  else if String.eqb ecosystem "maven" then
    match javaImageFor (env_of "maven" runtime runtimeVersion "" "" "" "" "") "maven-java@1" with
    | Some (Ok spec) => Ok (jv_image spec)
    | Some (Err e) => Err e
    | None => Ok ""
    end
  else Err (NoEcosystemImage ecosystem).

Definition imageFor (ecosystem runtime : string) : result string image_error := imageForRuntimeVersion ecosystem runtime "" "".

Definition runtimeVersionMatches (provided requested : string) : bool :=
  String.eqb requested provided || HasPrefix requested (provided +:+ ".").

(** The runtime, its version and the language an image provides. *)
Definition imageRuntimeForVersion (ecosystem runtime runtimeVersion : string) : string * string * string :=
  if String.eqb ecosystem "npm" then
    if String.eqb runtime "bun" then ("bun", "1", "javascript") else if String.eqb runtime "deno" then ("deno", "2", "javascript")
    else ("node", "22", "javascript")
  else if String.eqb ecosystem "pypi" then
    if String.eqb runtimeVersion "3.14" then ("python", "3.14", "python") else ("python", "3.12", "python")
  else if String.eqb ecosystem "golang" then ("go", "1.26", "go")
  else if String.eqb ecosystem "cargo" then ("rust", "1", "rust")
  else if String.eqb ecosystem "composer" then ("php", "8", "php")
  else if String.eqb ecosystem "gem" then ("ruby", "3", "ruby")
  else if String.eqb ecosystem "pub" then ("dart", "3", "dart")
  else if String.eqb ecosystem "hex" then ("elixir", "1", "elixir")
  else if String.eqb ecosystem "maven" then
    if String.eqb runtimeVersion "" then ("java", "21", "java") else ("java", runtimeVersion, "java")
  else ("", "", "").

(** [None]: nothing to refuse. *)
Definition refuseLibcMismatch (image declared : string) : option image_error :=
  if String.eqb declared "" then None
  else match registryEntryFor image with
  | None => None
  | Some v => if String.eqb (im_libc v) "" || EqualFold (im_libc v) declared then None
              else Some (LibcMismatch (im_alias v) (im_libc v) declared)
  end.

Definition guarded (image declared : string) : result string image_error :=
  match refuseLibcMismatch image declared with Some e => Err e | None => Ok image end.

Definition plain_image (env : EnvironmentFingerprint) : result string image_error :=
  if negb (String.eqb (env_BrowserFamily env) "") || negb (String.eqb (env_BrowserMajor env) "")
     || negb (String.eqb (env_Engine env) "") || negb (String.eqb (env_EngineVersion env) "") then Err BrowserDimensions
  else match imageForRuntimeVersion (env_Ecosystem env) (env_Runtime env) (env_RuntimeVersion env) (env_Libc env) with
  | Err e => Err e
  | Ok img =>
      match refuseLibcMismatch img (env_Libc env) with
      | Some e => Err e
      | None =>
          let '(rt, provided, _) := imageRuntimeForVersion (env_Ecosystem env) (env_Runtime env) (env_RuntimeVersion env) in
          if negb (String.eqb (env_RuntimeVersion env) "") && negb (String.eqb (env_Ecosystem env) "pypi")
             && negb (runtimeVersionMatches provided (env_RuntimeVersion env)) then Err (VersionMismatch provided (env_RuntimeVersion env))
          else if negb (String.eqb (env_ExecutionContext env) "") && negb (String.eqb (env_ExecutionContext env) rt)
          then Err (NoContextImage (env_ExecutionContext env))
          else Ok img
      end
  end.

Definition browser_image (env : EnvironmentFingerprint) : result string image_error :=
  if negb (String.eqb (env_Ecosystem env) "npm") || (negb (String.eqb (env_Runtime env) "") && negb (String.eqb (env_Runtime env) "node"))
  then Err BrowserNeedsNode
  else if negb (String.eqb (env_BrowserFamily env) "chrome") || negb (String.eqb (env_BrowserMajor env) "134")
  then Err (NoBrowserImage (env_BrowserFamily env) (env_BrowserMajor env))
  else if negb (String.eqb (env_Engine env) "") && negb (String.eqb (env_Engine env) "chromium") then Err (WrongEngine (env_Engine env))
  else if negb (String.eqb (env_EngineVersion env) "") && negb (String.eqb (env_EngineVersion env) "134")
  then Err (WrongEngineVersion (env_EngineVersion env))
  else Ok chrome134Image.

Definition linux_image (e : EnvironmentFingerprint) (adapter : string) : result string image_error :=
  let env := env_Normalize e in
  match javaImageFor e adapter with
  | Some (Err err) => Err err
  | Some (Ok spec) => guarded (jv_image spec) (env_Libc env)
  | None => if negb (String.eqb (env_ExecutionContext env) "browser") then plain_image env else browser_image env
  end.

Definition imageForManifestLinux (m : SampleManifest) : result string image_error := linux_image (mf_Environment m) (mf_VerifierAdapter m).

(** The image of an environment and adapter under a daemon; a manifest is read
    for nothing else. *)
Definition image_on (containerOS : string) (e : EnvironmentFingerprint) (adapter : string) : result string image_error :=
  if String.eqb (containerOSOrLinux containerOS) ContainerOSWindows then
    let env := env_Normalize e in
    if String.eqb (env_ExecutionContext env) "browser" || negb (String.eqb (env_BrowserFamily env) "") then Err NoWindowsBrowser
    else match javaImageFor e adapter with
    | Some _ => Err NoWindowsJava
    | None => windowsImageFor (env_Ecosystem env) (env_Runtime e) (env_RuntimeVersion env)
    end
  else linux_image e adapter.

Definition imageForManifestOn (containerOS : string) (m : SampleManifest) : result string image_error :=
  image_on containerOS (mf_Environment m) (mf_VerifierAdapter m).

Definition ContainerSupports (ecosystem runtime : string) : bool := is_ok (imageFor ecosystem runtime).

Definition ContainerSupportsRequirementsOn (containerOS : string) (w : WorkerRequirements) : bool :=
  if negb (String.eqb (wr_OS w) "") && negb (EqualFold (wr_OS w) (containerOSOrLinux containerOS)) then false
  else if String.eqb (wr_Ecosystem w) "" then
    if String.eqb (containerOSOrLinux containerOS) ContainerOSWindows then false
    else String.eqb (wr_Runtime w) "" && String.eqb (wr_RuntimeVersion w) "" && String.eqb (wr_ExecutionContext w) ""
         && String.eqb (wr_BrowserFamily w) "" && String.eqb (wr_BrowserMajor w) "" && String.eqb (wr_Engine w) "" && String.eqb (wr_EngineVersion w) ""
  else is_ok (image_on containerOS (env_of (wr_Ecosystem w) (wr_Runtime w) (wr_RuntimeVersion w) (wr_ExecutionContext w)
                                      (wr_BrowserFamily w) (wr_BrowserMajor w) (wr_Engine w) (wr_EngineVersion w)) (wr_VerifierAdapter w)).

Definition ContainerSupportsRequirements (w : WorkerRequirements) : bool := ContainerSupportsRequirementsOn ContainerOSLinux w.

(** ** What a run reports *)

Definition NPMResolver (runtime : string) : string :=
  let r := ToLower (TrimSpace runtime) in
  if String.eqb r "bun" then "bun" else if String.eqb r "deno" then "deno" else "npm".

(** [imageForManifestOn] errors leave the reference empty. *)
Definition selected (containerOS : string) (e : EnvironmentFingerprint) (adapter : string) : string :=
  match image_on containerOS e adapter with Ok img => img | Err _ => "" end.

Definition stage_manager (eco adapter runtime declared : string) : string :=
  if String.eqb eco "npm" then NPMResolver runtime
  else if String.eqb adapter "gradle-java@1" then "gradle"
  else if String.eqb eco "maven" then "maven" else declared.

(** The Java entry, when there is one, names base, distro and libc. *)
Definition java_entry (e : EnvironmentFingerprint) (adapter : string) : option (javaVerifierImage * verifierImage) :=
  match javaImageFor e adapter with
  | Some (Ok spec) => option_map (fun v => (spec, v)) (registryEntryFor (jv_image spec))
  | _ => None
  end.

(** [StageEnvironment] of the docker runner. *)
Definition StageEnvironment (containerOS : string) (host : EnvironmentFingerprint) (m : SampleManifest) : EnvironmentFingerprint :=
  let e := mf_Environment m in
  let adapter := mf_VerifierAdapter m in
  let eco := if String.eqb (env_Ecosystem e) "" then env_Ecosystem host else env_Ecosystem e in
  let img := selected containerOS e adapter in
  let '(rt, ver, lang) := imageRuntimeForVersion eco (env_Runtime e) (env_RuntimeVersion e) in
  let '(bucket, libc) := imageBase img in
  let arch := if String.eqb (env_Arch (env_Normalize host)) "" then "x64" else env_Arch (env_Normalize host) in
  let osName := containerOSOrLinux containerOS in
  let windows := String.eqb osName ContainerOSWindows in
  let bucket := if windows then "windowsservercore" else bucket in
  let libc := if windows then "" else libc in
  let '(bucket, distro, libc) :=
    match java_entry e adapter with Some (_, v) => (im_bucket v, im_distro v, im_libc v) | None => (bucket, "", libc) end in
  let chrome := String.eqb img chrome134Image in
  let maven := String.eqb eco "maven" in
  env_Normalize
    (mkEnv 1 eco osName bucket arch rt ver lang
       (if maven then if String.eqb (env_LanguageVersion e) "" then ver else env_LanguageVersion e else "")
       (if maven then "javac" else "") (if maven then ver else "")
       (stage_manager eco adapter (env_Runtime e) (env_PackageManager e))
       (if maven then match javaImageFor e adapter with Some (Ok spec) => jv_packageManagerVersion spec | _ => "" end else "")
       (env_ModuleSystem e) []
       (if chrome then "browser" else rt) (if chrome then "chrome" else "") (if chrome then "134" else "")
       (if chrome then "chromium" else "") (if chrome then "134" else "")
       "container" "docker" libc "" distro (env_CI host)).

(** [DockerRunner.VerifierImage]. *)
Definition runner_VerifierImage (containerOS : string) (m : SampleManifest) : option VerifierImage :=
  match imageForManifestOn containerOS m with Ok img => verifierImageOf img | Err _ => None end.

(** ** The command line of a stage *)

Definition vendorDir : string := "/work/.csx-vendor".

Definition stageEnv (ecosystem runtime : string) : list string :=
  if String.eqb ecosystem "npm" && String.eqb runtime "deno" then ["DENO_DIR=" +:+ vendorDir +:+ "/deno"]
  else if String.eqb ecosystem "composer" then ["COMPOSER_HOME=" +:+ vendorDir +:+ "/composer"; "COMPOSER_CACHE_DIR=" +:+ vendorDir +:+ "/composer/cache"]
  else if String.eqb ecosystem "gem" then
    ["GEM_HOME=" +:+ vendorDir +:+ "/gems"; "GEM_PATH=" +:+ vendorDir +:+ "/gems"; "BUNDLE_PATH__SYSTEM=true"; "BUNDLE_FROZEN=true";
     "BUNDLE_APP_CONFIG=" +:+ vendorDir +:+ "/bundle"]
  else if String.eqb ecosystem "pub" then ["PUB_CACHE=" +:+ vendorDir +:+ "/pub"]
  else if String.eqb ecosystem "hex" then ["MIX_HOME=" +:+ vendorDir +:+ "/mix"; "HEX_HOME=" +:+ vendorDir +:+ "/hex"; "MIX_ENV=test"]
  else if String.eqb ecosystem "maven" then ["CLASSPATH=" +:+ vendorDir +:+ "/maven-jars/*"]
  else if String.eqb ecosystem "pypi" then ["PYTHONPATH=" +:+ vendorDir +:+ "/py"; "PYTHONDONTWRITEBYTECODE=1"]
  else if String.eqb ecosystem "golang" then
    ["GOMODCACHE=" +:+ vendorDir +:+ "/gomod"; "GOCACHE=" +:+ vendorDir +:+ "/gobuild"; "GOFLAGS=-mod=readonly"]
  else if String.eqb ecosystem "cargo" then ["CARGO_HOME=" +:+ vendorDir +:+ "/cargo"; "CARGO_TARGET_DIR=" +:+ vendorDir +:+ "/target"]
  else [].

Definition isGradleJavaImage (image : string) : bool :=
  existsb (fun x => String.eqb (jv_image (snd x)) image) gradleJavaImages || String.eqb image gradleJavaImage.

Definition chrome134Executable : string := "/home/pptruser/.cache/puppeteer/chrome/linux-134.0.6998.35/chrome-linux64/chrome".

Definition stageEnvironmentForImage (image ecosystem runtime : string) : list string :=
  let env := if isGradleJavaImage image
             then ["GRADLE_USER_HOME=" +:+ vendorDir +:+ "/gradle-home"; "JAVA_TOOL_OPTIONS=-Dfile.encoding=UTF-8"]
             else stageEnv ecosystem runtime in
  if String.eqb image chrome134Image
  then (env ++ ["PUPPETEER_CACHE_DIR=/home/pptruser/.cache/puppeteer"; "PUPPETEER_EXECUTABLE_PATH=" +:+ chrome134Executable])%list
  else env.

Definition env_flags (env : list string) : list string := flat_map (fun e => ["--env"; e]) env.

Definition dockerArgsOn (containerOS image dir : string) (networkOff : bool) (env cmd : list string) (name : string) : list string :=
  (["docker"; "run"; "--rm"]
   ++ (if String.eqb name "" then [] else ["--name"; name])
   ++ (if networkOff then ["--network=none"] else [])
   ++ (if String.eqb (containerOSOrLinux containerOS) ContainerOSWindows
       then ["--memory=512m"] ++ env_flags env ++ ["-v"; dir +:+ ":C:\work"; "-w"; "C:\work"; image]
       else (if String.eqb image chrome134Image || isGradleJavaImage image then ["--init"; "--user"; "0:0"] else [])
            ++ ["--memory=512m"; "--pids-limit=256"] ++ env_flags env ++ ["-v"; dir +:+ ":/work"; "-w"; "/work"; image])
   ++ cmd)%list.

(** ** The registry is sound *)

Definition entry_ok (v : verifierImage) : bool :=
  PinnedImageReference (image_ref v) && sha256_id (im_digest v) && String.eqb (pinned (im_alias v)) (image_ref v).

Lemma registry_ok : forallb entry_ok verifierImages = true.
Proof. vm_compute. reflexivity. Qed.

(** The references a Linux and a Windows daemon can be handed. *)
Definition linux_refs : list string :=
  map image_ref (List.filter (fun v => negb (String.eqb (im_libc v) "")) verifierImages).
Definition windows_refs : list string :=
  map image_ref (List.filter (fun v => String.eqb (im_bucket v) "windowsservercore") verifierImages).

Ltac listed := vm_compute; reflexivity.

Lemma windows_selects ecosystem runtime version img : windowsImageFor ecosystem runtime version = Ok img -> str_in img windows_refs = true.
Proof. unfold windowsImageFor. repeat case_match; intros [= <-]; listed. Qed.

Lemma java_lines_listed : forallb (fun x => str_in (jv_image (snd x)) linux_refs) (mavenJavaImages ++ gradleJavaImages)%list = true.
Proof. listed. Qed.

Lemma java_selects e adapter spec : javaImageFor e adapter = Some (Ok spec) -> str_in (jv_image spec) linux_refs = true.
Proof.
  unfold javaImageFor. destruct (negb (String.eqb (env_Ecosystem _) _)); [done|]. intros [= E]. repeat (case_match; [discriminate E|]).
  destruct (java_images adapter) as [images|] eqn:A; [|discriminate E]. destruct (java_line images _) as [s|] eqn:L; [|discriminate E].
  assert (s = spec) as ->. { unfold java_language in E. repeat case_match; congruence. }
  unfold java_line in L. destruct (List.find _ images) as [x|] eqn:F; [|discriminate L]. injection L as <-. apply find_some in F as [I _].
  pose proof java_lines_listed as K. rewrite forallb_forall in K. apply K, in_app_iff. unfold java_images in A.
  repeat case_match; simplify_eq; auto.
Qed.

Lemma runtime_selects ecosystem runtime version libc img :
  imageForRuntimeVersion ecosystem runtime version libc = Ok img -> ecosystem <> "maven" -> str_in img linux_refs = true.
Proof.
  intros H N. unfold imageForRuntimeVersion, python_image in H. repeat case_match; try discriminate H; injection H as <-; try listed.
  all: exfalso; apply N; by apply String.eqb_eq.
Qed.

Lemma plain_image_ok env img : plain_image env = Ok img ->
  imageForRuntimeVersion (env_Ecosystem env) (env_Runtime env) (env_RuntimeVersion env) (env_Libc env) = Ok img
  /\ refuseLibcMismatch img (env_Libc env) = None.
Proof.
  unfold plain_image. case_match; [done|]. destruct (imageForRuntimeVersion _ _ _ _) as [i|]; [|done].
  destruct (refuseLibcMismatch i _) eqn:R; [done|]. destruct (imageRuntimeForVersion _ _ _) as [[rt v] l].
  repeat case_match; intros [= <-]; done.
Qed.

(** [env_Normalize] keeps the ecosystem unless it is a placeholder. *)
Lemma not_java_ecosystem e adapter : javaImageFor e adapter = None -> env_Ecosystem (env_Normalize e) <> "maven".
Proof. unfold javaImageFor. destruct (String.eqb_spec (env_Ecosystem (env_Normalize e)) "maven"); [done|]. by intros _. Qed.

Lemma linux_selects e adapter img : linux_image e adapter = Ok img -> str_in img linux_refs = true.
Proof.
  unfold linux_image. destruct (javaImageFor e adapter) as [[spec|err]|] eqn:J; [| |destruct (negb _)].
  - unfold guarded. case_match; [done|]. intros [= <-]. by eapply java_selects.
  - done.
  - intros H. apply plain_image_ok in H as [H _]. by eapply runtime_selects, not_java_ecosystem.
  - unfold browser_image. repeat case_match; intros [= <-]. listed.
Qed.

Lemma str_in_app x a b : str_in x (a ++ b)%list = str_in x a || str_in x b.
Proof. apply existsb_app. Qed.

Lemma selects_listed containerOS e adapter img : image_on containerOS e adapter = Ok img -> str_in img (linux_refs ++ windows_refs)%list = true.
Proof.
  unfold image_on. intros H. rewrite str_in_app. destruct (String.eqb (containerOSOrLinux _) _).
  - cbv zeta in H. destruct (_ || _); [done|]. destruct (javaImageFor e adapter); [done|]. rewrite (windows_selects _ _ _ _ H). apply orb_true_r.
  - by rewrite (linux_selects _ _ _ H).
Qed.

#[local] Strategy opaque [verifierImages].

Lemma listed_registered img : str_in img (linux_refs ++ windows_refs)%list = true -> exists v, In v verifierImages /\ image_ref v = img.
Proof.
  intros I. apply str_in_In in I. unfold linux_refs, windows_refs in I. rewrite in_app_iff, !in_map_iff in I.
  destruct I as [(w & E & I)|(w & E & I)]; apply filter_In in I as [I _]; by exists w.
Qed.

Lemma registered_entry v : In v verifierImages -> exists w, registryEntryFor (image_ref v) = Some w /\ In w verifierImages /\ image_ref w = image_ref v.
Proof.
  intros I. unfold registryEntryFor. destruct (List.find _ _) as [w|] eqn:F.
  - apply find_some in F as [Iw F]. exists w. apply String.eqb_eq in F. auto.
  - exfalso. apply (find_none _ _ F) in I. by rewrite String.eqb_refl in I.
Qed.

(** Every image a worker can be handed is an entry of the registry: an
    immutable reference whose digest the receipt reports beside it. *)
Theorem selected_images_are_published containerOS m img : imageForManifestOn containerOS m = Ok img ->
  PinnedImageReference img = true
  /\ exists v, registryEntryFor img = Some v /\ image_ref v = img /\ entry_ok v = true
       /\ runner_VerifierImage containerOS m = Some (mkImage img (im_digest v)).
Proof.
  intros H. unfold runner_VerifierImage. rewrite H. apply selects_listed, listed_registered in H as (v & I & <-).
  destruct (registered_entry v I) as (w & R & Iw & E). pose proof registry_ok as K. rewrite forallb_forall in K. specialize (K w Iw).
  split.
  - unfold entry_ok in K. rewrite E in K. apply andb_true_iff in K as [K _]. by apply andb_true_iff in K as [K _].
  - exists w. repeat (split; [assumption|]). unfold verifierImageOf, PublishedImage. rewrite R. cbn [option_map]. by rewrite E.
Qed.

Lemma registry_refs_distinct : forallb (fun v => forallb (fun w => implb (String.eqb (image_ref v) (image_ref w)) (bool_decide (v = w))) verifierImages) verifierImages = true.
Proof. vm_compute. reflexivity. Qed.

Lemma registry_unique v w : In v verifierImages -> In w verifierImages -> image_ref v = image_ref w -> v = w.
Proof.
  intros Iv Iw E. pose proof registry_refs_distinct as K. rewrite forallb_forall in K. specialize (K v Iv). rewrite forallb_forall in K.
  specialize (K w Iw). rewrite E, String.eqb_refl in K. by apply bool_decide_eq_true in K.
Qed.

(** A Linux lane other than the browser's provides the libc a sample
    declares. *)
Theorem declared_libc_is_provided e adapter img : linux_image e adapter = Ok img ->
  env_Libc (env_Normalize e) <> "" -> env_ExecutionContext (env_Normalize e) <> "browser" ->
  exists v, registryEntryFor img = Some v /\ EqualFold (im_libc v) (env_Libc (env_Normalize e)) = true.
Proof.
  intros H D B. pose proof (linux_selects _ _ _ H) as S.
  assert (R : refuseLibcMismatch img (env_Libc (env_Normalize e)) = None).
  { unfold linux_image in H. destruct (javaImageFor e adapter) as [[spec|err]|]; [|done|].
    - unfold guarded in H. case_match; [done|]. by injection H as <-.
    - apply String.eqb_neq in B. rewrite B in H. cbn [negb] in H. by apply plain_image_ok in H as [_ H]. }
  assert (L : exists v, registryEntryFor img = Some v /\ im_libc v <> "").
  { apply str_in_In in S. unfold linux_refs in S. apply in_map_iff in S as (v & <- & I). apply filter_In in I as [I N].
    destruct (registered_entry v I) as (w & F & Iw & E). exists w. split; [exact F|]. rewrite (registry_unique w v Iw I E).
    intros C. rewrite C in N. discriminate N. }
  destruct L as (v & F & N). exists v. split; [exact F|]. unfold refuseLibcMismatch in R. apply String.eqb_neq in D, N. rewrite D, F, N in R.
  cbn [orb] in R. by destruct (EqualFold _ _).
Qed.

(** The browser lane is the exception: a sample that declares musl is handed
    the Chrome image, which has glibc. *)
Lemma browser_lane_ignores_libc :
  let e := mkEnv 1 "npm" "linux" "" "x64" "node" "" "" "" "" "" "" "" "" [] "browser" "chrome" "134" "" "" "" "" "musl" "" "" false in
  linux_image e "" = Ok chrome134Image /\ snd (imageBase chrome134Image) = "glibc"
  /\ refuseLibcMismatch chrome134Image "musl" <> None.
Proof. split; [vm_compute; reflexivity|]. split; [vm_compute; reflexivity|]. vm_compute. discriminate. Qed.
