(* ===== verification/Cross.v ===== *)
(** * Cross verification work (internal/httpapi/samples.go)

    What a sample asks of the machine that reproduces it, whether the fleet
    can run it, and every place the server puts a cross job in the queue,
    reconsiders one, or gives up on a sample. *)

From stdpp Require Import gmap.
From S2P Require Import Prelude GoStrings GoUnicode GoStd StringFacts UnicodeFacts WordFacts Regexp Calendar Float Hash Json.
From S2P Require Import Purl Env Targets Failure Search Anomaly Sanitizer Validate Candidate Measured Aggregate Jdk Queue Images.

#[local] Open Scope csx_scope.

Definition crossJobOS (e : EnvironmentFingerprint) : string :=
  if negb (EqualFold (TrimSpace (env_Virtualization e)) "container") then "" else ToLower (TrimSpace (env_OS e)).

Definition drop_version (w : WorkerRequirements) : WorkerRequirements :=
  mkReq (wr_SandboxCapability w) (wr_VerifierAdapter w) (wr_OS w) (wr_Ecosystem w) (wr_Runtime w) "" (wr_ExecutionContext w)
    (wr_BrowserFamily w) (wr_BrowserMajor w) (wr_Engine w) (wr_EngineVersion w) (wr_Frameworks w).
Definition drop_context (w : WorkerRequirements) : WorkerRequirements :=
  mkReq (wr_SandboxCapability w) (wr_VerifierAdapter w) (wr_OS w) (wr_Ecosystem w) (wr_Runtime w) (wr_RuntimeVersion w) ""
    (wr_BrowserFamily w) (wr_BrowserMajor w) (wr_Engine w) (wr_EngineVersion w) (wr_Frameworks w).

Definition crossRequirementsAFleetCanRun (want : WorkerRequirements) : WorkerRequirements * bool :=
  match List.find ContainerSupportsRequirements [want; drop_version want; drop_context want; drop_context (drop_version want)] with
  | Some candidate => (candidate, true)
  | None => (want, false)
  end.

(** The requirements before they are relaxed. *)
Definition cross_requirements (m : SampleManifest) : WorkerRequirements :=
  let e := mf_Environment m in
  mkReq CapContainerRun (mf_VerifierAdapter m) (crossJobOS e) (env_Ecosystem e) (env_Runtime e)
    (RuntimeLine (env_Runtime e) (env_RuntimeVersion e)) (env_ExecutionContext e) (env_BrowserFamily e) (env_BrowserMajor e)
    (env_Engine e) (env_EngineVersion e)
    (List.filter (fun f => is_some (WantedTargetFromFramework f)) (env_Frameworks e)).

Definition crossJobFor (sampleID : string) (m : SampleManifest) : JobRow :=
  let '(requirements, runnable) := crossRequirementsAFleetCanRun (cross_requirements m) in
  mkJob 0 sampleID "cross" (Some requirements) (if runnable then "open" else JobStatusUnsupported) "" zero_time zero_time.

(** ** Queueing *)

Definition maxCrossAttempts : Z := 4.
Definition maxTimedOutCrossAttempts : Z := 2.

Definition verified_name (status : string) : bool := str_in (ToUpper status) ["CROSS_PASS"; "MATRIX_PASS"; "STABLE"].

Definition zero_manifest : SampleManifest :=
  mkManifest 0 (mkCase 0 "" "" "" [] [] ∅ [] "") true true [] [] "" env_zero "" [] None "".

(** A cross job that is queued, in flight, or recorded as unrunnable. *)
Definition queued_already (j : JobRow) : bool :=
  String.eqb (j_Reason j) "cross" && str_in (j_Status j) ["open"; "claimed"; JobStatusUnsupported].

(** [None]: the stored manifest does not decode. *)
Definition queueCrossVerificationOn (now : Z) (sampleID : string) (st : verify_store) : option verify_store :=
  let ensure m :=
    if existsb queued_already (JobsForSample sampleID st) then Some st
    else option_map fst (EnsureCrossJob now (crossJobFor sampleID m) st) in
  match GetSample sampleID st with
  | None => ensure zero_manifest
  | Some row =>
      if verified_name (sm_Status (ss_row row)) then Some st
      else match ss_manifest row with None => None | Some m => ensure m end
  end.

Definition crossWorkIsOutOfTime (rows : list stored_receipt) : bool :=
  forallb (fun r => negb (judged r)) rows
  && (maxTimedOutCrossAttempts <=? Z.of_nat (length (List.filter (fun r => String.eqb (ReceiptTerminationKind (sr_doc r)) "timeout") rows))).

Definition recordCrossWorkOutOfTime (now : Z) (sampleID : string) (m : SampleManifest) (st : verify_store) : verify_store :=
  match EnsureCrossJob now (with_job_status JobStatusUnsupported (crossJobFor sampleID m)) st with Some (st', _) => st' | None => st end.

Definition crossAttemptsSpent (sampleID : string) (st : verify_store) : bool :=
  maxCrossAttempts <=? Z.of_nat (length (List.filter (fun j => String.eqb (j_Reason j) "cross") (JobsForSample sampleID st))).

Definition requeueCrossVerification (now : Z) (sampleID contractResult : string) (st : verify_store) : verify_store :=
  if negb (EqualFold (TrimSpace contractResult) "SKIPPED") then st
  else if crossAttemptsSpent sampleID st then st
  else default st (queueCrossVerificationOn now sampleID st).

(** ** At start *)

Definition ReconcileStrandedDrafts (now limit : Z) (st : verify_store) : verify_store * Z :=
  fold_left (fun acc id =>
    match queueCrossVerificationOn now id (fst acc) with Some st' => (st', snd acc + 1) | None => acc end)
    (StrandedDrafts maxCrossAttempts limit st) (st, 0).

(** One job of [ReconcileCrossJobLanes]: what is asked of the store, if
    anything. *)
Definition lane_review (st : verify_store) (job : JobRow) : option (WorkerRequirements * string) :=
  match j_WantEnv job with
  | None => None
  | Some want =>
      let '(runnable, ok) := crossRequirementsAFleetCanRun want in
      let status := if ok then "open" else JobStatusUnsupported in
      if bool_decide (runnable = want) && String.eqb status (j_Status job) then None
      else if String.eqb status "open" && String.eqb (j_Status job) JobStatusUnsupported && crossAttemptsSpent (j_SampleID job) st then None
      else Some (runnable, status)
  end.

Definition ReconcileCrossJobLanes (now limit : Z) (st : verify_store) : verify_store * Z * Z :=
  fold_left (fun acc job =>
    let '(st, repaired, unsupported) := acc in
    match lane_review st job with
    | None => acc
    | Some (runnable, status) =>
        let st := SetJobRequirements now (j_ID job) (Some runnable) status st in
        if String.eqb status "open" then (st, repaired + 1, unsupported) else (st, repaired, unsupported + 1)
    end)
    (CrossJobsForLaneReview now limit st) (st, 0, 0).
