(* ===== verification/Reports.v ===== *)
(** * Anomaly reports on the server (internal/serverstore/anomaly*.go,
    internal/httpapi/anomalies.go)

    A report is a question until a signed receipt answers it.  The store keeps
    one row per fingerprint; the endpoint admits, redacts and stores a report
    and queues the re-run of the sample it contests; a claim marks it, a
    receipt closes it.  The row keeps the report where the source keeps its
    canonical JSON, and a reason for the absence of a lane as a value where
    the source builds a sentence. *)

From stdpp Require Import gmap.
From S2P Require Import Prelude GoStrings GoUnicode GoStd StringFacts UnicodeFacts WordFacts Regexp Calendar Float Hash Json.
From S2P Require Import Purl Env Targets Failure Search Anomaly Sanitizer Validate Candidate Measured Aggregate Jdk Merge Ingest Evidence Queue Images Cross.

#[local] Open Scope csx_scope.

(** ** The store *)

Definition AnomalyCooldown : Z := 6 * 3600 * 1000000000.
Definition AnomalyStatusQueued : string := "queued".
Definition AnomalyStatusVerifying : string := "verifying".
Definition AnomalyStatusVerified : string := "verified".
Definition AnomalyStatusUnsupported : string := "unsupported-verifier-lane".

Inductive no_lane :=
| LaneFound
| UnknownSample (sampleID : string)
| NoSample (package : string)
| SampleLookupFailed
| ManifestUnreadable
| NoImage (ecosystem runtime : string)
| JobFailed.

Record AnomalyReportRow := mkReportRow {
  an_ID : Z;
  an_Fingerprint : string;
  an_Report : option AnomalyReport;
  an_AnomalyType : string;
  an_PURL : string;
  an_Symbol : string;
  an_SampleID : string;
  an_Status : string;
  an_Verdict : string;
  an_UnsupportedReason : no_lane;
  an_JobID : Z;
  an_Reports : Z;
  an_ReporterBucket : string;
  an_FirstSeen : Z;
  an_LastSeen : Z;
  an_VerdictAt : Z
}.

(** [Fake.anomalies] by fingerprint, and the counter. *)
Record report_store := mkReports { rs_anomalies : gmap string AnomalyReportRow; rs_nextAnomalyID : Z }.

Definition new_report_store : report_store := mkReports ∅ 0.

Definition seen_again (now : Z) (r : AnomalyReportRow) : AnomalyReportRow :=
  mkReportRow (an_ID r) (an_Fingerprint r) (an_Report r) (an_AnomalyType r) (an_PURL r) (an_Symbol r) (an_SampleID r) (an_Status r)
    (an_Verdict r) (an_UnsupportedReason r) (an_JobID r) (wrap64 (an_Reports r + 1)) (an_ReporterBucket r) (an_FirstSeen r) now (an_VerdictAt r).

Definition RecordAnomalyReport (row : AnomalyReportRow) (now : Z) (st : report_store) : report_store * AnomalyReportRow * bool :=
  match rs_anomalies st !! an_Fingerprint row with
  | Some existing =>
      let e := seen_again now existing in
      (mkReports (<[an_Fingerprint row := e]> (rs_anomalies st)) (rs_nextAnomalyID st), e, true)
  | None =>
      let id := rs_nextAnomalyID st + 1 in
      let r := mkReportRow id (an_Fingerprint row) (an_Report row) (an_AnomalyType row) (an_PURL row) (an_Symbol row) (an_SampleID row)
                 (if String.eqb (an_Status row) "" then AnomalyStatusQueued else an_Status row)
                 (an_Verdict row) (an_UnsupportedReason row) (an_JobID row) 1 (an_ReporterBucket row) now now (an_VerdictAt row) in
      (mkReports (<[an_Fingerprint row := r]> (rs_anomalies st)) id, r, false)
  end.

(** [findAnomalyLocked]: the row with an id, for the operations that change
    it in place.  Ids are distinct ([reports_wf]), so the order in which the
    map is ranged over does not matter. *)
Definition findAnomaly (id : Z) (st : report_store) : option AnomalyReportRow :=
  List.find (fun r => an_ID r =? id) (map snd (map_to_list (rs_anomalies st))).
Definition AnomalyReportByID := findAnomaly.

Definition update_report (id : Z) (f : AnomalyReportRow -> AnomalyReportRow) (st : report_store) : report_store :=
  mkReports (fmap (fun r => if an_ID r =? id then f r else r) (rs_anomalies st)) (rs_nextAnomalyID st).

Definition attached (jobID : Z) (status : string) (why : no_lane) (r : AnomalyReportRow) : AnomalyReportRow :=
  mkReportRow (an_ID r) (an_Fingerprint r) (an_Report r) (an_AnomalyType r) (an_PURL r) (an_Symbol r) (an_SampleID r) status
    (an_Verdict r) why jobID (an_Reports r) (an_ReporterBucket r) (an_FirstSeen r) (an_LastSeen r) (an_VerdictAt r).

Definition AttachAnomalyVerificationJob (id jobID : Z) (status : string) (why : no_lane) (st : report_store) : report_store :=
  update_report id (attached jobID status why) st.

Definition decided (verdict : string) (at_ : Z) (r : AnomalyReportRow) : AnomalyReportRow :=
  mkReportRow (an_ID r) (an_Fingerprint r) (an_Report r) (an_AnomalyType r) (an_PURL r) (an_Symbol r) (an_SampleID r) AnomalyStatusVerified
    verdict (an_UnsupportedReason r) (an_JobID r) (an_Reports r) (an_ReporterBucket r) (an_FirstSeen r) (an_LastSeen r) at_.

Definition SetAnomalyVerdict (id : Z) (verdict : string) (at_ : Z) (st : report_store) : report_store * bool :=
  match findAnomaly id st with
  | Some r => if negb (String.eqb (an_Verdict r) "") then (st, false) else (update_report id (decided verdict at_) st, true)
  | None => (st, false)
  end.

Section listings.
  Context `{!GoSort, !GoMapRange}.

Definition report_rows (st : report_store) : list AnomalyReportRow := map snd (range_order (map_to_list (rs_anomalies st))).

Definition OpenAnomalyReportsForSample (sampleID : string) (st : report_store) : list AnomalyReportRow :=
  sort_slice (fun a b => an_ID a <? an_ID b)
    (List.filter (fun r => String.eqb (an_SampleID r) sampleID && String.eqb (an_Verdict r) "") (report_rows st)).

Definition ListAnomalyReports (limit : Z) (st : report_store) : list AnomalyReportRow :=
  let out := sort_slice (fun a b => an_ID b <? an_ID a) (report_rows st) in
  if (0 <? limit) && (limit <? Z.of_nat (length out)) then firstn (Z.to_nat limit) out else out.
End listings.

(** ** The operator's summary *)

Record AnomalyInsights := mkInsights {
  ai_WindowStart : Z; ai_WindowEnd : Z;
  ai_Reports : Z; ai_Unique : Z; ai_Duplicates : Z;
  ai_Queued : Z; ai_Verifying : Z; ai_Verified : Z; ai_Unsupported : Z;
  ai_Verdicts : list (string * Z); ai_Confirmed : Z; ai_CSXDefects : Z; ai_Insufficient : Z;
  ai_LatencyTotal : Z; ai_LatencyCount : Z; ai_LatencyMax : Z; ai_BusiestReporter : Z
}.

Definition MeanVerdictLatency (i : AnomalyInsights) : option Z :=
  if ai_LatencyCount i =? 0 then None else Some (Z.quot (ai_LatencyTotal i) (ai_LatencyCount i)).

Definition count_rows (p : AnomalyReportRow -> bool) (rows : list AnomalyReportRow) : Z := Z.of_nat (length (List.filter p rows)).
Definition sum_rows (f : AnomalyReportRow -> Z) (rows : list AnomalyReportRow) : Z := fold_left (fun n r => wrap64 (n + f r)) rows 0.

(** [Sub] of the two times, never negative; a report without them has none. *)
Definition latency (r : AnomalyReportRow) : option Z :=
  if String.eqb (an_Verdict r) "" || is_zero_time (an_VerdictAt r) || is_zero_time (an_FirstSeen r) then None
  else Some (Z.min int64_max (Z.max 0 (an_VerdictAt r - an_FirstSeen r))).

Definition tally_rows (key : AnomalyReportRow -> string) (n : AnomalyReportRow -> Z) (rows : list AnomalyReportRow) : gmap string Z :=
  fold_left (fun m r => <[key r := wrap64 (default 0 (m !! key r) + n r)]> m) rows ∅.

Definition verdict_lt (a b : string * Z) : bool := if negb (snd a =? snd b) then snd b <? snd a else str_lt (fst a) (fst b).

Definition AnomalyInsightsOf `{!GoSort, !GoMapRange} (now days : Z) (st : report_store) : AnomalyInsights :=
  let start := AddDays now (- days) in
  let rows := List.filter (fun r => negb (an_LastSeen r <? start)) (report_rows st) in
  let has s r := String.eqb (an_Status r) s in
  let answered := List.filter (fun r => negb (String.eqb (an_Verdict r) "")) rows in
  let lats := flat_map (fun r => match latency r with Some l => [l] | None => [] end) rows in
  let reports := sum_rows an_Reports rows in
  let unique := Z.of_nat (length rows) in
  mkInsights start now reports unique (wrap64 (reports - unique))
    (count_rows (has AnomalyStatusQueued) rows) (count_rows (has AnomalyStatusVerifying) rows)
    (count_rows (has AnomalyStatusVerified) rows) (count_rows (has AnomalyStatusUnsupported) rows)
    (sort_slice verdict_lt (range_order (map_to_list (tally_rows an_Verdict (fun _ => 1) answered))))
    (count_rows (fun r => AnomalyVerdictConfirmed (an_Verdict r)) answered)
    (count_rows (fun r => String.eqb (an_Verdict r) AnomalyVerdictCSXDefect) answered)
    (count_rows (fun r => String.eqb (an_Verdict r) AnomalyVerdictInsufficientEvidence) answered)
    (fold_left (fun n l => wrap64 (n + l)) lats 0) (Z.of_nat (length lats)) (fold_left Z.max lats 0)
    (fold_left (fun n x => Z.max n (snd x)) (range_order (map_to_list (tally_rows an_ReporterBucket an_Reports rows))) 0).

(** ** Admission at the endpoint *)

Section endpoint.
  Context (h : host).

(** Every free-text field goes through [Redact]; [map_report] says which. *)
Definition map_observation (f : string -> string) (o : AnomalyObservation) : AnomalyObservation :=
  mkObservation (ao_Result o) (ao_Stage o) (f (ao_Detail o)).
Definition map_environment (f : string -> string) (e : EnvironmentFingerprint) : EnvironmentFingerprint :=
  mkEnv (env_SchemaVersion e) (f (env_Ecosystem e)) (f (env_OS e)) (f (env_OSVersionBucket e)) (f (env_Arch e)) (f (env_Runtime e))
    (f (env_RuntimeVersion e)) (f (env_Language e)) (f (env_LanguageVersion e)) (f (env_Compiler e)) (f (env_CompilerVersion e))
    (f (env_PackageManager e)) (f (env_PackageManagerVersion e)) (f (env_ModuleSystem e)) (map f (env_Frameworks e))
    (f (env_ExecutionContext e)) (f (env_BrowserFamily e)) (f (env_BrowserMajor e)) (f (env_Engine e)) (f (env_EngineVersion e))
    (f (env_Virtualization e)) (f (env_ContainerRuntime e)) (f (env_Libc e)) (f (env_LibcVersion e)) (f (env_Distro e)) (env_CI e).
Definition map_report (f : string -> string) (r : AnomalyReport) : AnomalyReport :=
  mkReport (ar_SchemaVersion r) (ar_AnomalyType r) (ar_Package r) (f (ar_Symbol r)) (map_environment f (ar_Environment r)) (ar_SampleID r)
    (ar_EvidenceID r) (ar_SearchFingerprint r) (map_observation f (ar_CSXObserved r)) (map_observation f (ar_LocalObserved r))
    (ar_Reproducible r) (ar_Confidence r) (ar_ErrorCode r) (ar_ErrorFingerprint r) (f (ar_ErrorTemplate r)) (ar_RelatedIDs r)
    (f (ar_LLMHypothesis r)).

Definition environment_texts (e : EnvironmentFingerprint) : list string :=
  ([env_Ecosystem e; env_OS e; env_OSVersionBucket e; env_Arch e; env_Runtime e; env_RuntimeVersion e; env_Language e; env_LanguageVersion e;
    env_Compiler e; env_CompilerVersion e; env_PackageManager e; env_PackageManagerVersion e; env_ModuleSystem e; env_ExecutionContext e;
    env_BrowserFamily e; env_BrowserMajor e; env_Engine e; env_EngineVersion e; env_Virtualization e; env_ContainerRuntime e; env_Libc e;
    env_LibcVersion e; env_Distro e] ++ env_Frameworks e)%list.
Definition free_texts (r : AnomalyReport) : list string :=
  ([ao_Detail (ar_CSXObserved r); ao_Detail (ar_LocalObserved r); ar_ErrorTemplate r; ar_LLMHypothesis r; ar_Symbol r]
   ++ environment_texts (ar_Environment r))%list.

Definition redactAnomalyFreeText (r : AnomalyReport) : AnomalyReport * bool :=
  (map_report (fun s => fst (Redact h s)) r, existsb (fun s => snd (Redact h s)) (free_texts r)).

Definition anomalyIdentifierIsSafe (s : string) : bool :=
  String.eqb s "" || ((str_len s =? 7 + 64) && HasPrefix s "sha256:") || IsNamespacedContentID s || negb (snd (Redact h s)).

Definition anomalyIdentifiersAreSafe (r : AnomalyReport) : bool :=
  forallb anomalyIdentifierIsSafe
    ([ar_SampleID r; ar_EvidenceID r; ar_SearchFingerprint r; ar_ErrorCode r; ar_ErrorFingerprint r] ++ ar_RelatedIDs r)%list.

(** [unicode.IsControl] on the runes of a valid string. *)
Definition is_control (r : Z) : bool := (r <? 32) || ((127 <=? r) && (r <? 160)).
Definition anomalyStructuredValueIsSafe (maxBytes : Z) (s : string) : bool :=
  String.eqb s "" || ((str_len s <=? maxBytes) && ValidString s && forallb (fun r => negb (is_control r)) (runes s)).
Definition anomalyStructuredFieldsAreSafe (r : AnomalyReport) : bool :=
  anomalyStructuredValueIsSafe 256 (ar_Symbol r) && forallb (anomalyStructuredValueIsSafe 128) (environment_texts (ar_Environment r)).

Definition reporterBucketIsCanonical (epoch anonID : string) : bool :=
  negb (is_some (validEpoch epoch)) && (str_len anonID =? 16) && str_forall lower_hex anonID.

Inductive report_refusal :=
| BadEnvelope
| BadReporter
| NotAdmitted (e : anomaly_error)
| UnsafeIdentifiers
| PackageUnparsable
| NoPublicnessCheck
| PackageNotPublic
| UnsafeText.

Definition anomalyPackageIsPublic (trust : bool) (check : option (PURL -> string)) (purl : string) : option report_refusal :=
  if trust then None
  else match ParsePURL purl with
  | Err _ => Some PackageUnparsable
  | Ok p =>
      if String.eqb (publicTargetPublicness p) PublicnessPublic then None
      else match check with
      | None => Some NoPublicnessCheck
      | Some c => if negb (String.eqb (c p) PublicnessPublic) then Some PackageNotPublic else None
      end
  end.

(** The checks before anything is stored: the report as it will be kept, and
    whether it was redacted. *)
Definition admit_report (trust : bool) (check : option (PURL -> string)) (schema : Z) (epoch anonID : string) (r : AnomalyReport) :
    result (AnomalyReport * bool) report_refusal :=
  if negb (schema =? AnomalyReportSchemaVersion) then Err BadEnvelope
  else if negb (reporterBucketIsCanonical (TrimSpace epoch) (TrimSpace anonID)) then Err BadReporter
  else
    let report := report_Normalize r in
    match report_Validate report with
    | Some e => Err (NotAdmitted e)
    | None =>
        if negb (anomalyIdentifiersAreSafe report) then Err UnsafeIdentifiers
        else match anomalyPackageIsPublic trust check (ar_Package report) with
        | Some e => Err e
        | None =>
            let '(report, redacted) := redactAnomalyFreeText report in
            if negb (anomalyStructuredFieldsAreSafe report) then Err UnsafeText else Ok (report, redacted)
        end
    end.

(** ** Queueing the re-run *)

Definition queueAnomalyVerification (now : Z) (report : AnomalyReport) (sampleKnown : bool) (q : verify_store) : verify_store * Z * no_lane :=
  if negb sampleKnown then
    (q, 0, if negb (String.eqb (ar_SampleID report) "") then UnknownSample (ar_SampleID report) else NoSample (ar_Package report))
  else match GetSample (ar_SampleID report) q with
  | None => (q, 0, SampleLookupFailed)
  | Some s =>
      match ss_manifest s with
      | None => (q, 0, ManifestUnreadable)
      | Some m =>
          let job := crossJobFor (ar_SampleID report) m in
          if String.eqb (j_Status job) JobStatusUnsupported
          then (q, 0, NoImage (TrimSpace (env_Ecosystem (mf_Environment m))) (TrimSpace (env_Runtime (mf_Environment m))))
          else match EnsureCrossJob now job q with
          | Some (q', id) => if id =? 0 then (q', 0, JobFailed) else (q', id, LaneFound)
          | None => (q, 0, JobFailed)
          end
      end
  end.

Inductive verification_state := StateVerified | StateClaimed | StateNotQueued | StateQueuedJob | StateQueued.
Definition anomalyVerificationState (row : AnomalyReportRow) : verification_state :=
  if String.eqb (an_Status row) AnomalyStatusVerified then StateVerified
  else if String.eqb (an_Status row) AnomalyStatusVerifying then StateClaimed
  else if String.eqb (an_Status row) AnomalyStatusUnsupported then StateNotQueued
  else if negb (an_JobID row =? 0) then StateQueuedJob else StateQueued.

Inductive anomaly_note := NotePending | NoteDuplicate | NoteUnsupported.

(** [anomalyResponse]; [ap_duplicate] is its status. *)
Record anomaly_answer := mkAnswer {
  ap_ReportID : Z; ap_duplicate : bool; ap_ReportStatus : string; ap_Verdict : string; ap_State : verification_state; ap_JobID : Z;
  ap_MatchedReportID : Z; ap_Submissions : Z; ap_RetryAfterSeconds : Z; ap_Redacted : bool; ap_Reason : no_lane; ap_Note : anomaly_note
}.

Definition report_row (report : AnomalyReport) (sampleKnown : bool) (bucket : string) : AnomalyReportRow :=
  mkReportRow 0 (report_Fingerprint report) (Some report) (ar_AnomalyType report) (ar_Package report) (ar_Symbol report)
    (if sampleKnown then ar_SampleID report else "") AnomalyStatusQueued "" LaneFound 0 0 bucket zero_time zero_time zero_time.

Definition duplicate_answer (now : Z) (redacted : bool) (stored : AnomalyReportRow) : anomaly_answer :=
  let wait := AnomalyCooldown - (now - an_FirstSeen stored) in
  mkAnswer (an_ID stored) true (an_Status stored) (an_Verdict stored) (anomalyVerificationState stored) (an_JobID stored) (an_ID stored)
    (an_Reports stored) (if String.eqb (an_Verdict stored) "" && (0 <? wait) then Z.quot wait 1000000000 else 0) redacted
    (if String.eqb (an_Status stored) AnomalyStatusUnsupported then an_UnsupportedReason stored else LaneFound) NoteDuplicate.

(** [handleAnomalyReport], after decoding: the two stores, and the answer. *)
Definition handleAnomalyReport (trust : bool) (check : option (PURL -> string)) (now schema : Z) (epoch anonID : string) (r : AnomalyReport)
    (rs : report_store) (q : verify_store) : report_store * verify_store * result anomaly_answer report_refusal :=
  match admit_report trust check schema epoch anonID r with
  | Err e => (rs, q, Err e)
  | Ok (report, redacted) =>
      let sampleKnown := negb (String.eqb (ar_SampleID report) "") && is_some (GetSample (ar_SampleID report) q) in
      let '(rs, stored, duplicate) := RecordAnomalyReport (report_row report sampleKnown (TrimSpace epoch +:+ "/" +:+ TrimSpace anonID)) now rs in
      if duplicate then (rs, q, Ok (duplicate_answer now redacted stored))
      else
        let '(q, jobID, reason) := queueAnomalyVerification now report sampleKnown q in
        let status := if negb (jobID =? 0) then AnomalyStatusQueued else AnomalyStatusUnsupported in
        let rs := AttachAnomalyVerificationJob (an_ID stored) (if negb (jobID =? 0) then jobID else 0) status
                    (if negb (jobID =? 0) then LaneFound else reason) rs in
        (rs, q, Ok (mkAnswer (an_ID stored) false status "" (anomalyVerificationState (attached jobID status reason stored))
                      (if negb (jobID =? 0) then jobID else 0) 0 (an_Reports stored) 0 redacted
                      (if negb (jobID =? 0) then LaneFound else reason) (if negb (jobID =? 0) then NotePending else NoteUnsupported)))
  end.
End endpoint.

(** ** What a claim and a receipt do to the reports *)

Section resolve.
  Context `{!GoSort, !GoMapRange}.

Definition sampleHasVerificationComing (sampleID : string) (q : verify_store) : bool :=
  existsb (fun j => String.eqb (j_Reason j) "cross" && str_in (j_Status j) ["open"; "claimed"]) (JobsForSample sampleID q).

(** The verdict one receipt gives one open report, if it gives one. *)
Definition verdict_for (q : verify_store) (receipt : VerificationReceipt) (row : AnomalyReportRow) : option string :=
  match an_Report row with
  | None => None
  | Some report =>
      let '(v, ok) := AnomalyVerdictFromReceipt report receipt in
      if ok then Some v
      else if sampleHasVerificationComing (vr_SampleID receipt) q then None
      else Some AnomalyVerdictInsufficientEvidence
  end.

Definition resolveAnomalyReports (now : Z) (receipt : VerificationReceipt) (q : verify_store) (rs : report_store) : report_store :=
  fold_left (fun rs row => match verdict_for q receipt row with Some v => fst (SetAnomalyVerdict (an_ID row) v now rs) | None => rs end)
    (OpenAnomalyReportsForSample (vr_SampleID receipt) rs) rs.

Definition markAnomalyReportsVerifying (jobID : Z) (q : verify_store) (rs : report_store) : report_store :=
  match Job jobID q with
  | None => rs
  | Some job =>
      if String.eqb (j_SampleID job) "" then rs
      else fold_left (fun rs row =>
             if negb (an_JobID row =? jobID) || negb (String.eqb (an_Status row) AnomalyStatusQueued) then rs
             else AttachAnomalyVerificationJob (an_ID row) jobID AnomalyStatusVerifying LaneFound rs)
             (OpenAnomalyReportsForSample (j_SampleID job) rs) rs
  end.
End resolve.

(** ** The rows *)

Record reports_wf (st : report_store) : Prop := {
  rw_next : 0 <= rs_nextAnomalyID st;
  rw_row : forall k r, rs_anomalies st !! k = Some r -> an_Fingerprint r = k /\ 1 <= an_ID r <= rs_nextAnomalyID st;
  rw_ids : forall k1 k2 r1 r2, rs_anomalies st !! k1 = Some r1 -> rs_anomalies st !! k2 = Some r2 -> an_ID r1 = an_ID r2 -> k1 = k2
}.

(** A change of a row that keeps what identifies it. *)
Definition keeps_identity (f : AnomalyReportRow -> AnomalyReportRow) : Prop :=
  forall r, an_ID (f r) = an_ID r /\ an_Fingerprint (f r) = an_Fingerprint r.

Lemma wf_fmap f st : keeps_identity f -> reports_wf st -> reports_wf (mkReports (f <$> rs_anomalies st) (rs_nextAnomalyID st)).
Proof.
  intros K [N R I]. split; cbn; [done|..].
  - intros k r L. apply lookup_fmap_Some in L as (x & <- & L). destruct (K x) as [-> ->]. by apply R.
  - intros k1 k2 r1 r2 L1 L2 E. apply lookup_fmap_Some in L1 as (x & <- & L1), L2 as (y & <- & L2).
    destruct (K x) as [Ex _], (K y) as [Ey _]. rewrite Ex, Ey in E. eauto.
Qed.

Lemma keeps_if id f : keeps_identity f -> keeps_identity (fun r => if an_ID r =? id then f r else r).
Proof. intros K r. destruct (an_ID r =? id); [apply K|done]. Qed.

Lemma keeps_decided v t : keeps_identity (decided v t). Proof. by intros []. Qed.
Lemma keeps_attached j s w : keeps_identity (attached j s w). Proof. by intros []. Qed.
Lemma keeps_seen now : keeps_identity (seen_again now). Proof. by intros []. Qed.

Lemma find_report id st : reports_wf st -> forall r, findAnomaly id st = Some r <-> exists k, rs_anomalies st !! k = Some r /\ an_ID r = id.
Proof.
  intros W r. unfold findAnomaly. split.
  - intros F. apply find_some in F as [I E]. apply in_map_iff in I as ([k x] & <- & I). apply list_elem_of_In, elem_of_map_to_list in I.
    exists k. split; [done|]. simpl in *. lia.
  - intros (k & L & E). destruct (List.find _ _) as [x|] eqn:F.
    + apply find_some in F as [I Ex]. apply in_map_iff in I as ([k' y] & <- & I). apply list_elem_of_In, elem_of_map_to_list in I. simpl in *.
      assert (k = k') as <- by (eapply (rw_ids _ W); eauto; lia). congruence.
    + assert (I : In r (map snd (map_to_list (rs_anomalies st)))).
      { apply in_map_iff. exists (k, r). split; [done|]. by apply list_elem_of_In, elem_of_map_to_list. }
      apply (find_none _ _ F) in I. simpl in I. lia.
Qed.

Lemma record_wf row now st : reports_wf st -> reports_wf (fst (fst (RecordAnomalyReport row now st))).
Proof.
  intros [N R I]. unfold RecordAnomalyReport. destruct (rs_anomalies st !! an_Fingerprint row) as [e|] eqn:L; split; cbn; try lia.
  - intros k r. destruct (R _ _ L) as [Fe Be]. rewrite lookup_insert. case_decide as E; [|apply R]. intros [= <-]. destruct e; cbn in *. by subst.
  - intros k1 k2 r1 r2. rewrite !lookup_insert. repeat case_decide; subst; intros H1 H2 E; try done.
    + injection H1 as <-. eapply I; eauto.
    + injection H2 as <-. eapply I; eauto.
    + eauto.
  - intros k r. rewrite lookup_insert. case_decide as E; [intros [= <-]; cbn; split; [done|lia]|]. intros H. apply R in H as [? ?]. split; [done|lia].
  - intros k1 k2 r1 r2. rewrite !lookup_insert. repeat case_decide; subst; intros H1 H2 E; try done.
    + injection H1 as <-. apply R in H2. cbn in E. lia.
    + injection H2 as <-. apply R in H1. cbn in E. lia.
    + eauto.
Qed.

Section resolution.
  Context `{!GoSort, !GoMapRange}.

Definition answer_row (now : Z) (q : verify_store) (receipt : VerificationReceipt) (r : AnomalyReportRow) : AnomalyReportRow :=
  match verdict_for q receipt r with Some v => decided v now r | None => r end.

Lemma resolve_fold now q receipt L rs : reports_wf rs -> NoDup (map an_ID L) ->
  (forall row, In row L -> rs_anomalies rs !! an_Fingerprint row = Some row /\ an_Verdict row = "") ->
  let rs' := fold_left (fun rs row => match verdict_for q receipt row with Some v => fst (SetAnomalyVerdict (an_ID row) v now rs) | None => rs end) L rs in
  rs_anomalies rs' = (fun r => if existsb (fun row => an_ID row =? an_ID r) L then answer_row now q receipt r else r) <$> rs_anomalies rs
  /\ rs_nextAnomalyID rs' = rs_nextAnomalyID rs.
Proof.
  revert rs. induction L as [|row L IH]; intros rs W D Ho; cbn [fold_left].
  { cbn [existsb]. split; [|done]. by rewrite map_fmap_id. }
  cbn [map] in D. apply list.NoDup_cons in D as [D1 D2]. destruct (Ho row (or_introl eq_refl)) as [Hr Hv].
  set (f := fun r => if an_ID r =? an_ID row then answer_row now q receipt r else r).
  assert (Step : let rs1 := match verdict_for q receipt row with Some v => fst (SetAnomalyVerdict (an_ID row) v now rs) | None => rs end in
                 rs_anomalies rs1 = f <$> rs_anomalies rs /\ rs_nextAnomalyID rs1 = rs_nextAnomalyID rs /\ reports_wf rs1).
  { assert (U : forall k r, rs_anomalies rs !! k = Some r -> an_ID r = an_ID row -> r = row).
    { intros k r L1 E. assert (k = an_Fingerprint row) as -> by (eapply (rw_ids _ W); eauto). congruence. }
    unfold f, answer_row. destruct (verdict_for q receipt row) as [v|] eqn:V; cbv zeta.
    - unfold SetAnomalyVerdict. rewrite (proj2 (find_report (an_ID row) rs W row)); [|by exists (an_Fingerprint row)]. rewrite Hv. cbn [String.eqb negb fst].
      split; [|split; [done|apply wf_fmap; [apply keeps_if, keeps_decided|done]]]. cbn [update_report rs_anomalies]. apply map_fmap_ext. intros k r L1.
      destruct (Z.eqb_spec (an_ID r) (an_ID row)) as [E|]; [|done]. rewrite (U _ _ L1 E), V. done.
    - split; [|done]. symmetry. rewrite <- (map_fmap_id (rs_anomalies rs)) at 2. apply map_fmap_ext. intros k r L1.
      destruct (Z.eqb_spec (an_ID r) (an_ID row)) as [E|]; [|done]. by rewrite (U _ _ L1 E), V. }
  cbv zeta in Step. destruct Step as (S1 & S2 & S3). set (rs1 := match verdict_for q receipt row with Some _ => _ | None => _ end) in *.
  assert (Hf : forall r, an_ID (f r) = an_ID r) by (intros r; unfold f, answer_row; destruct (an_ID r =? an_ID row); [by destruct (verdict_for q receipt r)|done]).
  assert (Dn : forall x, In x L -> an_ID x <> an_ID row) by (intros x I E; apply D1; rewrite <- E; apply list_elem_of_In; by apply in_map).
  destruct (IH rs1 S3 D2) as [I1 I2].
  { intros x I. rewrite S1, lookup_fmap. destruct (Ho x (or_intror I)) as [-> Vx]. cbn. unfold f. destruct (Z.eqb_spec (an_ID x) (an_ID row)); [by edestruct Dn|done]. }
  rewrite I1, I2, S1, S2. split; [|done]. rewrite <- map_fmap_compose. apply map_fmap_ext. intros k r L1. cbn [existsb]. unfold compose. rewrite Hf.
  rewrite (Z.eqb_sym (an_ID row)). unfold f. destruct (Z.eqb_spec (an_ID r) (an_ID row)) as [E|E]; [|done]. cbn [orb].
  assert (Nx : existsb (fun x => an_ID x =? an_ID r) L = false); [|by rewrite Nx].
  apply not_true_is_false. intros T. apply existsb_exists in T as (x & I & T). apply (Dn x I). lia.
Qed.

Lemma open_reports sampleID rs r : In r (OpenAnomalyReportsForSample sampleID rs) <->
  (exists k, rs_anomalies rs !! k = Some r) /\ an_SampleID r = sampleID /\ an_Verdict r = "".
Proof.
  unfold OpenAnomalyReportsForSample, report_rows. rewrite <- (Permutation_in' eq_refl (sort_slice_perm _ (fun a b => an_ID a <? an_ID b) _)).
  rewrite filter_In, andb_true_iff, !String.eqb_eq, in_map_iff.
  split.
  - intros (([k x] & <- & I) & S & V). rewrite <- (Permutation_in' eq_refl (range_order_perm _ _)) in I. apply list_elem_of_In, elem_of_map_to_list in I. eauto.
  - intros ((k & L) & S & V). split; [|done]. exists (k, r). split; [done|]. rewrite <- (Permutation_in' eq_refl (range_order_perm _ _)).
    by apply list_elem_of_In, elem_of_map_to_list.
Qed.

Lemma open_reports_ids sampleID rs : reports_wf rs -> NoDup (map an_ID (OpenAnomalyReportsForSample sampleID rs)).
Proof.
  intros W. unfold OpenAnomalyReportsForSample, report_rows. rewrite <- (Permutation_map an_ID (sort_slice_perm _ (fun a b => an_ID a <? an_ID b) _)).
  assert (D : NoDup (map an_ID (map snd (range_order (map_to_list (rs_anomalies rs)))))).
  { rewrite <- (Permutation_map an_ID (Permutation_map snd (range_order_perm _ _))), map_map. change (NoDup ((fun p => an_ID p.2) <$> map_to_list (rs_anomalies rs))). apply NoDup_fmap_2_strong; [|apply NoDup_map_to_list].
    intros [k r] [k' r'] I1%elem_of_map_to_list I2%elem_of_map_to_list E. cbn in E. assert (k = k') as -> by (eapply (rw_ids _ W); eauto). congruence. }
  induction (map snd (range_order _)) as [|r l IH]; cbn; [constructor|]. cbn [map] in D. apply list.NoDup_cons in D as [D1 D2].
  destruct (_ && _); [|auto]. cbn [map]. apply list.NoDup_cons. split; [|auto]. intros I. apply D1. apply list_elem_of_In in I. apply list_elem_of_In.
  apply in_map_iff in I as (x & <- & I). apply filter_In in I as [I _]. by apply in_map.
Qed.

(** What a receipt does to the table of reports: the open reports of its
    sample get the verdict the receipt gives them, nothing else changes. *)
Lemma resolve_exact now q receipt rs : reports_wf rs -> forall k,
  rs_anomalies (resolveAnomalyReports now receipt q rs) !! k =
    (fun r => if String.eqb (an_SampleID r) (vr_SampleID receipt) && String.eqb (an_Verdict r) "" then answer_row now q receipt r else r)
      <$> rs_anomalies rs !! k.
Proof.
  intros W k. unfold resolveAnomalyReports.
  destruct (resolve_fold now q receipt (OpenAnomalyReportsForSample (vr_SampleID receipt) rs) rs W) as [-> _].
  - by apply open_reports_ids.
  - intros row ((k' & L) & S & V)%open_reports. by destruct (rw_row _ W _ _ L) as [-> _].
  - rewrite lookup_fmap. destruct (rs_anomalies rs !! k) as [r|] eqn:L; [|done]. cbn. f_equal.
    assert (existsb (fun row => an_ID row =? an_ID r) (OpenAnomalyReportsForSample (vr_SampleID receipt) rs)
            = String.eqb (an_SampleID r) (vr_SampleID receipt) && String.eqb (an_Verdict r) "") as ->; [|done].
    apply eq_true_iff_eq. rewrite existsb_exists, andb_true_iff, !String.eqb_eq. split.
    + intros (x & ((k' & Lx) & S & V)%open_reports & E%Z.eqb_eq). assert (k' = k) as -> by (eapply (rw_ids _ W); eauto). by simplify_eq.
    + intros [S V]. exists r. split; [|lia]. apply open_reports. eauto.
Qed.

Lemma resolve_wf now q receipt rs : reports_wf rs -> reports_wf (resolveAnomalyReports now receipt q rs).
Proof.
  unfold resolveAnomalyReports. generalize (OpenAnomalyReportsForSample (vr_SampleID receipt) rs). intros L. revert rs.
  induction L as [|row L IH]; intros rs W; cbn [fold_left]; [done|]. apply IH. destruct (verdict_for q receipt row); [|done].
  unfold SetAnomalyVerdict. destruct (findAnomaly _ rs) as [x|]; [|done]. destruct (negb _); [done|]. cbn [fst].
  apply wf_fmap; [apply keeps_if, keeps_decided|done].
Qed.

Lemma verdict_text report receipt v : AnomalyVerdictFromReceipt report receipt = (v, true) -> v <> "".
Proof. unfold AnomalyVerdictFromReceipt. cbv zeta. repeat case_match; intros [= <-]; done. Qed.


End resolution.

(** ** A report is a question *)

Lemma verdict_attached j s w r : an_Verdict (attached j s w r) = an_Verdict r. Proof. by destruct r. Qed.

Lemma record_verdicts row now st k : an_Verdict row = "" ->
  from_option an_Verdict "" (rs_anomalies (fst (fst (RecordAnomalyReport row now st))) !! k) = from_option an_Verdict "" (rs_anomalies st !! k).
Proof.
  intros V. unfold RecordAnomalyReport. destruct (rs_anomalies st !! an_Fingerprint row) as [e|] eqn:L; cbn; rewrite lookup_insert; case_decide as E; try done; subst; rewrite L; cbn; [by destruct e|done].
Qed.

Lemma attach_verdicts id j s w st k :
  from_option an_Verdict "" (rs_anomalies (AttachAnomalyVerificationJob id j s w st) !! k) = from_option an_Verdict "" (rs_anomalies st !! k).
Proof. cbn. rewrite lookup_fmap. destruct (rs_anomalies st !! k) as [r|]; [|done]. cbn. by destruct (_ =? _); [destruct r|]. Qed.

Lemma queue_anomaly_jobs now report known q q' id why : queueAnomalyVerification now report known q = (q', id, why) ->
  q' = q \/ exists s m j, GetSample (ar_SampleID report) q = Some s /\ ss_manifest s = Some m
    /\ j_SampleID j = ar_SampleID report /\ j_Reason j = "cross" /\ j_Status j = "open" /\ j_WantEnv j = j_WantEnv (crossJobFor (ar_SampleID report) m)
    /\ ~ (exists e, In e (vs_jobs q) /\ live_cross false (ar_SampleID report) e = true)
    /\ q' = set_jobs (vs_jobs q ++ [j])%list (set_next (vs_nextJobID q + 1) q).
Proof.
  unfold queueAnomalyVerification. destruct known; cbn [negb]; [|intros [= <- _ _]; by left].
  destruct (GetSample _ q) as [s|] eqn:G; [|intros [= <- _ _]; by left]. destruct (ss_manifest s) as [m|] eqn:M; [|intros [= <- _ _]; by left].
  set (job := crossJobFor _ m). destruct (String.eqb (j_Status job) JobStatusUnsupported) eqn:U; [intros [= <- _ _]; by left|].
  unfold EnsureCrossJob. destruct (_ || _) eqn:C; [intros [= <- _ _]; by left|]. rewrite U.
  destruct (List.find _ _) as [e|] eqn:F; [destruct (_ =? _); intros [= <- _ _]; by left|].
  unfold new_job. intros E. right.
  set (j := mkJob _ _ _ _ _ _ _ _) in E. exists s, m, j. split; [done|]. split; [done|]. assert (q' = set_jobs (vs_jobs q ++ [j])%list (set_next (vs_nextJobID q + 1) q)) as -> by (destruct (_ =? 0) in E; by injection E).
  assert (Es : j_SampleID job = ar_SampleID report /\ j_Reason job = "cross" /\ (j_Status job = "open" \/ j_Status job = JobStatusUnsupported)).
  { unfold job, crossJobFor. repeat case_match; cbn; auto. }
  destruct Es as (Es & Er & [Eo|Eo]); [|by rewrite Eo in U]. rewrite Es in F.
  split; [done|]. split; [done|]. split; [cbn; by rewrite Eo|]. split; [done|]. split; [|done]. intros (e & I & L). by rewrite (find_none _ _ F e I) in L.
Qed.

(** A report only asks: whatever was submitted, no verdict of any report, no
    sample and no receipt changes, and the queue gains at most one job - an
    open cross job of a stored sample that had none in flight, and only for a
    report not seen before. *)
Theorem report_only_asks h trust check now schema epoch anonID r rs q :
  let '(rs', q', ans) := handleAnomalyReport h trust check now schema epoch anonID r rs q in
  (forall k, from_option an_Verdict "" (rs_anomalies rs' !! k) = from_option an_Verdict "" (rs_anomalies rs !! k))
  /\ vs_samples q' = vs_samples q /\ vs_receipts q' = vs_receipts q
  /\ (vs_jobs q' = vs_jobs q
      \/ exists j a, ans = Ok a /\ ap_duplicate a = false /\ vs_jobs q' = (vs_jobs q ++ [j])%list /\ j_Reason j = "cross" /\ j_Status j = "open"
         /\ is_some (GetSample (j_SampleID j) q) = true /\ ~ (exists e, In e (vs_jobs q) /\ live_cross false (j_SampleID j) e = true)).
Proof.
  unfold handleAnomalyReport. destruct (admit_report _ _ _ _ _ _ _) as [[report redacted]|e]; [|by auto].
  set (known := negb _ && _). set (row := report_row _ _ _).
  pose proof (record_verdicts row now rs) as V. destruct (RecordAnomalyReport row now rs) as [[rs1 stored] dup]. cbn [fst] in V.
  destruct dup; [by auto|]. destruct (queueAnomalyVerification now report known q) as [[q1 id] why] eqn:Q.
  split; [intros k; by rewrite attach_verdicts, V|]. apply queue_anomaly_jobs in Q as [->|(s & m & j & G & _ & Es & Er & Eo & _ & N & ->)]; [by auto|].
  split; [done|]. split; [done|]. right. exists j. eexists. split; [done|]. split; [done|]. split; [done|]. split; [done|]. split; [done|].
  rewrite Es, G. done.
Qed.

(** A report about a sample whose attempts are spent, answered by a run whose
    contract never ran. *)
Definition waiting_report : AnomalyReportRow :=
  mkReportRow 1 "f" (Some report_example) "" "" "" "s" AnomalyStatusQueued "" LaneFound 1 1 "" 0 0 zero_time.
Definition waiting_store : report_store := mkReports {[ "f" := waiting_report ]} 1.
Definition skipped_run : VerificationReceipt :=
  mkReceipt 1 "s" "" "" env_example {[ "contract" := "SKIPPED" ]} ∅ [] None "" "" "" "" "" "" "".

Lemma waiting_store_wf : reports_wf waiting_store.
Proof.
  split; cbn; [lia|..].
  - intros k r [<- <-]%lookup_singleton_Some. split; [done|cbn; lia].
  - by intros k1 k2 r1 r2 [<- _]%lookup_singleton_Some [<- _]%lookup_singleton_Some.
Qed.

