(* ===== verification/Issues.v ===== *)
(** * Product issue reports (internal/domain/csxissue.go,
      internal/serverstore/csxissue*.go and report_queue.go,
      internal/httpapi/csxissues.go, the review of internal/admin/reports.go)

    The other half of the feedback channel: a report says this product
    behaved wrongly.  One defect is one row whose count goes up; only a person
    decides, and only a confirmed defect is tied to a bug.  The operator's queue
    lists these rows beside the anomaly reports of Reports.v.  As there, a row
    keeps the report where the source keeps its canonical JSON, and the reason
    for the absence of a replay lane is a value where the source builds a
    sentence. *)

From stdpp Require Import gmap.
From S2P Require Import Prelude GoStrings GoUnicode GoStd StringFacts UnicodeFacts WordFacts Regexp Calendar Float Hash Json.
From S2P Require Import Purl Env Targets Failure Search Boundaries Anomaly Sanitizer Validate Candidate Measured Aggregate Jdk Clusters Merge Ingest Evidence Queue Images Cross Reports.

#[local] Open Scope csx_scope.

(** ** The report *)

Definition CSXIssueReportSchemaVersion : Z := 1.
Definition CSXSurfaceServer : string := "server".
Definition CSXSurfaces : list string := ["mcp"; CSXSurfaceServer; "web"; "verifier"; "farm"].
Definition CSXIssueKinds : list string :=
  ["answer-masks-original-failure"; "irrelevant-recommendation"; "tool-contract-misleads"; "nondeterministic-response"; "broken-internal-reference"; "runtime-behavior"].
Definition CSXIssueStatusTriage : string := "triage".
Definition CSXIssueStatusReplayQueued : string := "replay-queued".
Definition CSXIssueStatusNoReplayLane : string := "no-replay-lane".
Definition CSXIssueStatusResolved : string := "resolved".
Definition CSXIssueVerdictDefect : string := "confirmed-csx-defect".
Definition CSXIssueVerdicts : list string :=
  [CSXIssueVerdictDefect; "expected-behavior"; "client-difference"; "not-reproducible"; "insufficient-evidence"; "duplicate"].
Definition ValidCSXIssueVerdict (verdict : string) : bool := str_in verdict CSXIssueVerdicts.
Definition CSXIssueVerdictConfirmed (verdict : string) : bool := String.eqb verdict CSXIssueVerdictDefect.

Record CSXIssuePublicInput := mkPublicInput {
  pi_Endpoint : string; pi_Packages : list string; pi_Symbols : list string; pi_Environment : EnvironmentFingerprint }.

Record CSXIssueReport := mkIssue {
  ci_SchemaVersion : Z; ci_AffectedSurface : string; ci_IssueKind : string; ci_Component : string; ci_RequestFingerprint : string;
  ci_PublicInput : option CSXIssuePublicInput; ci_ActualBehavior : string; ci_ExpectedBehavior : string; ci_Reproducible : string; ci_Confidence : string;
  ci_RelatedIDs : list string; ci_LLMHypothesis : string }.

Inductive issue_error := ErrCSXIssueSchema | ErrCSXIssueSurface | ErrCSXIssueKind | ErrCSXIssueComponent | ErrCSXIssueBehavior | ErrCSXIssueNoEvidence
| ErrCSXIssueReproducible | ErrCSXIssueConfidence.

Definition normalize_input (i : CSXIssuePublicInput) : CSXIssuePublicInput :=
  mkPublicInput (TrimSpace (pi_Endpoint i)) (pi_Packages i) (pi_Symbols i) (env_Normalize (pi_Environment i)).

Definition or_default (d s : string) : string := if String.eqb s "" then d else s.

Definition issue_Normalize (r : CSXIssueReport) : CSXIssueReport :=
  mkIssue (ci_SchemaVersion r) (normalizeLower (ci_AffectedSurface r)) (normalizeLower (ci_IssueKind r)) (TrimSpace (ci_Component r))
    (ToLower (TrimSpace (ci_RequestFingerprint r))) (option_map normalize_input (ci_PublicInput r)) (TrimSpace (ci_ActualBehavior r)) (TrimSpace (ci_ExpectedBehavior r))
    (or_default "unknown" (normalizeLower (ci_Reproducible r))) (or_default "medium" (normalizeLower (ci_Confidence r))) (ci_RelatedIDs r) (ci_LLMHypothesis r).

Definition issue_Validate (r : CSXIssueReport) : option issue_error :=
  refuse (negb (ci_SchemaVersion r =? CSXIssueReportSchemaVersion)) ErrCSXIssueSchema andalso
  refuse (negb (str_in (ci_AffectedSurface r) CSXSurfaces)) ErrCSXIssueSurface andalso
  refuse (negb (str_in (ci_IssueKind r) CSXIssueKinds)) ErrCSXIssueKind andalso
  refuse (String.eqb (ci_Component r) "") ErrCSXIssueComponent andalso
  refuse (String.eqb (ci_ActualBehavior r) "" || String.eqb (ci_ExpectedBehavior r) "" || EqualFold (ci_ActualBehavior r) (ci_ExpectedBehavior r)) ErrCSXIssueBehavior andalso
  refuse (String.eqb (ci_RequestFingerprint r) "" && match ci_PublicInput r with Some i => String.eqb (pi_Endpoint i) "" | None => true end) ErrCSXIssueNoEvidence andalso
  refuse (negb (str_in (ci_Reproducible r) ["yes"; "no"; "unknown"])) ErrCSXIssueReproducible andalso
  refuse (negb (str_in (ci_Confidence r) ["low"; "medium"; "high"])) ErrCSXIssueConfidence.

(** The request of the dedupe key, and the text that is digested. *)
Definition issue_request (n : CSXIssueReport) : string :=
  match ci_RequestFingerprint n, ci_PublicInput n with
  | "", Some i => Join ([pi_Endpoint i] ++ pi_Packages i ++ pi_Symbols i ++ [anomalyEnvKey (pi_Environment i)])%list ","
  | request, _ => request
  end.
Definition issue_text (r : CSXIssueReport) : string :=
  let n := issue_Normalize r in Join ["csx-issue"; "v1"; ci_AffectedSurface n; ci_IssueKind n; ci_Component n; issue_request n] "|".
Definition issue_Fingerprint (r : CSXIssueReport) : string := SHA256Hex (issue_text r).

(** ** The replay lane *)

Inductive replay_reason := LaneOpen | NotServerSurface (surface : string) | OnlyFingerprint | NotAReadRoute (route : string).

Definition publicReplayEndpoints : list string :=
  ["/v1/registry/packages"; "/v1/registry/symbols"; "/v1/shards"; "/v1/samples"; "/v1/wanted"; "/v1/adapters"; "/v1/stats"].

Definition CSXIssueReplayLane (r : CSXIssueReport) : result string replay_reason :=
  let n := issue_Normalize r in
  if negb (String.eqb (ci_AffectedSurface n) CSXSurfaceServer) then Err (NotServerSurface (ci_AffectedSurface n))
  else match ci_PublicInput n with
  | None => Err OnlyFingerprint
  | Some i =>
      if String.eqb (pi_Endpoint i) "" then Err OnlyFingerprint
      else
        let route := "/" +:+ TrimSet (pi_Endpoint i) "/" in
        if existsb (fun p => String.eqb route p || HasPrefix route (p +:+ "/")) publicReplayEndpoints then Ok route else Err (NotAReadRoute route)
  end.

(** ** The store *)

Record CSXIssueReportRow := mkIssueRow {
  is_ID : Z; is_Fingerprint : string; is_Report : option CSXIssueReport; is_Surface : string; is_IssueKind : string; is_Component : string;
  is_Status : string; is_Verdict : string; is_ReviewNote : string; is_ReplayReason : replay_reason; is_CanonicalRef : string;
  is_Occurrences : Z; is_ReporterBucket : string; is_FirstSeen : Z; is_LastSeen : Z; is_VerdictAt : Z }.

Record issue_store := mkIssues { st_csxIssues : gmap string CSXIssueReportRow; st_nextCSXIssueID : Z }.
Definition new_issue_store : issue_store := mkIssues ∅ 0.

Definition occurs_again (now : Z) (r : CSXIssueReportRow) : CSXIssueReportRow :=
  mkIssueRow (is_ID r) (is_Fingerprint r) (is_Report r) (is_Surface r) (is_IssueKind r) (is_Component r) (is_Status r) (is_Verdict r) (is_ReviewNote r)
    (is_ReplayReason r) (is_CanonicalRef r) (wrap64 (is_Occurrences r + 1)) (is_ReporterBucket r) (is_FirstSeen r) now (is_VerdictAt r).

Definition RecordCSXIssueReport (row : CSXIssueReportRow) (now : Z) (st : issue_store) : issue_store * CSXIssueReportRow * bool :=
  match st_csxIssues st !! is_Fingerprint row with
  | Some existing =>
      let e := occurs_again now existing in (mkIssues (<[is_Fingerprint row := e]> (st_csxIssues st)) (st_nextCSXIssueID st), e, true)
  | None =>
      let id := st_nextCSXIssueID st + 1 in
      let r := mkIssueRow id (is_Fingerprint row) (is_Report row) (is_Surface row) (is_IssueKind row) (is_Component row)
                 (or_default CSXIssueStatusTriage (is_Status row)) (is_Verdict row) (is_ReviewNote row) (is_ReplayReason row) (is_CanonicalRef row)
                 1 (is_ReporterBucket row) now now (is_VerdictAt row) in
      (mkIssues (<[is_Fingerprint row := r]> (st_csxIssues st)) id, r, false)
  end.

(** [findCSXIssueLocked]; ids are distinct, so the order of the map does not
    matter. *)
Definition findCSXIssue (id : Z) (st : issue_store) : option CSXIssueReportRow :=
  List.find (fun r => is_ID r =? id) (map snd (map_to_list (st_csxIssues st))).
Definition CSXIssueReportByID := findCSXIssue.
Definition ProductReviewNote (id : Z) (st : issue_store) : string := match findCSXIssue id st with Some r => is_ReviewNote r | None => "" end.

Definition update_issue (id : Z) (f : CSXIssueReportRow -> CSXIssueReportRow) (st : issue_store) : issue_store :=
  mkIssues (fmap (fun r => if is_ID r =? id then f r else r) (st_csxIssues st)) (st_nextCSXIssueID st).

Definition triaged (status : string) (why : replay_reason) (r : CSXIssueReportRow) : CSXIssueReportRow :=
  mkIssueRow (is_ID r) (is_Fingerprint r) (is_Report r) (is_Surface r) (is_IssueKind r) (is_Component r) status (is_Verdict r) (is_ReviewNote r)
    why (is_CanonicalRef r) (is_Occurrences r) (is_ReporterBucket r) (is_FirstSeen r) (is_LastSeen r) (is_VerdictAt r).
Definition SetCSXIssueTriage (id : Z) (status : string) (why : replay_reason) : issue_store -> issue_store := update_issue id (triaged status why).

Definition closed_with (verdict note ref : string) (at_ : Z) (r : CSXIssueReportRow) : CSXIssueReportRow :=
  mkIssueRow (is_ID r) (is_Fingerprint r) (is_Report r) (is_Surface r) (is_IssueKind r) (is_Component r) CSXIssueStatusResolved verdict note
    (is_ReplayReason r) ref (is_Occurrences r) (is_ReporterBucket r) (is_FirstSeen r) (is_LastSeen r) at_.

Definition SetCSXIssueVerdict (id : Z) (verdict : string) (at_ : Z) (st : issue_store) : issue_store * bool :=
  match findCSXIssue id st with
  | Some r => if negb (String.eqb (is_Verdict r) "") then (st, false)
              else (update_issue id (fun r => closed_with verdict (is_ReviewNote r) (is_CanonicalRef r) at_ r) st, true)
  | None => (st, false)
  end.

Definition linked_to (ref : string) (r : CSXIssueReportRow) : CSXIssueReportRow :=
  mkIssueRow (is_ID r) (is_Fingerprint r) (is_Report r) (is_Surface r) (is_IssueKind r) (is_Component r) (is_Status r) (is_Verdict r) (is_ReviewNote r)
    (is_ReplayReason r) ref (is_Occurrences r) (is_ReporterBucket r) (is_FirstSeen r) (is_LastSeen r) (is_VerdictAt r).

Definition LinkCSXIssueCanonical (id : Z) (ref : string) (st : issue_store) : issue_store * bool :=
  match findCSXIssue id st with
  | Some r =>
      if negb (CSXIssueVerdictConfirmed (is_Verdict r)) || (negb (String.eqb (is_CanonicalRef r) "") && negb (String.eqb (is_CanonicalRef r) ref)) then (st, false)
      else (update_issue id (linked_to ref) st, true)
  | None => (st, false)
  end.

Definition ReviewProductReport (id : Z) (verdict note ref : string) (at_ : Z) (st : issue_store) : issue_store * bool :=
  match findCSXIssue id st with
  | Some r => if negb (String.eqb (is_Verdict r) "") then (st, false) else (update_issue id (closed_with verdict note ref at_) st, true)
  | None => (st, false)
  end.

Section issue_listings.
  Context `{!GoSort, !GoMapRange}.

Definition issue_rows (st : issue_store) : list CSXIssueReportRow := map snd (range_order (map_to_list (st_csxIssues st))).

Definition ListCSXIssueReports (limit : Z) (st : issue_store) : list CSXIssueReportRow :=
  let out := sort_slice (fun a b => is_ID b <? is_ID a) (issue_rows st) in
  if (0 <? limit) && (limit <? Z.of_nat (length out)) then firstn (Z.to_nat limit) out else out.

(** ** The operator's summary *)

Record CSXIssueInsights := mkIssueInsights {
  ii_WindowStart : Z; ii_WindowEnd : Z; ii_Occurrences : Z; ii_Unique : Z; ii_Duplicates : Z;
  ii_Triage : Z; ii_ReplayQueued : Z; ii_NoReplayLane : Z; ii_Resolved : Z; ii_Confirmed : Z; ii_Linked : Z }.

Definition count_issues (p : CSXIssueReportRow -> bool) (rows : list CSXIssueReportRow) : Z := Z.of_nat (length (List.filter p rows)).

Definition CSXIssueInsightsOf (now days : Z) (st : issue_store) : CSXIssueInsights :=
  let start := AddDays now (- days) in
  let rows := List.filter (fun r => negb (is_LastSeen r <? start)) (issue_rows st) in
  let has s r := String.eqb (is_Status r) s in
  let occurrences := fold_left (fun n r => wrap64 (n + is_Occurrences r)) rows 0 in
  let unique := Z.of_nat (length rows) in
  mkIssueInsights start now occurrences unique (wrap64 (occurrences - unique))
    (count_issues (has CSXIssueStatusTriage) rows) (count_issues (has CSXIssueStatusReplayQueued) rows)
    (count_issues (has CSXIssueStatusNoReplayLane) rows) (count_issues (has CSXIssueStatusResolved) rows)
    (count_issues (fun r => CSXIssueVerdictConfirmed (is_Verdict r)) rows) (count_issues (fun r => negb (String.eqb (is_CanonicalRef r) "")) rows).
End issue_listings.

(** ** The queue of both channels *)

Record ReportFilter := mkFilter { rf_Channel : string; rf_State : string; rf_Query : string; rf_Offset : Z; rf_Limit : Z }.
Record ReportSummary := mkReportSummary {
  sm_ID : Z; sm_Channel : string; sm_Kind : string; sm_Target : string; sm_Status : string; sm_Verdict : string; sm_Reason : string;
  sm_CanonicalRef : string; sm_Occurrences : Z; sm_FirstSeen : Z; sm_LastSeen : Z }.
Record ReportCounts := mkCounts { rc_Total : Z; rc_Open : Z; rc_Blocked : Z; rc_Resolved : Z; rc_Unlinked : Z }.
Record ReportPage := mkPage { pg_Rows : list ReportSummary; pg_Total : Z; pg_Counts : ReportCounts }.

Definition filter_normalized (f : ReportFilter) : ReportFilter :=
  mkFilter (rf_Channel f) (rf_State f) (ToLower (TrimSpace (rf_Query f))) (if rf_Offset f <? 0 then 0 else rf_Offset f)
    (if (rf_Limit f <? 1) || (100 <? rf_Limit f) then 25 else rf_Limit f).

Definition reportBlocked (r : ReportSummary) : bool :=
  String.eqb (sm_Verdict r) "" && (String.eqb (sm_Status r) "unsupported" || String.eqb (sm_Status r) "no-replay-lane").
Definition reportUnlinked (r : ReportSummary) : bool :=
  String.eqb (sm_Verdict r) "confirmed-csx-defect" && String.eqb (sm_CanonicalRef r) "" && String.eqb (sm_Channel r) "product".

(** The sentences the two reasons stand for. *)
Definition replay_text (why : replay_reason) : string :=
  match why with
  | LaneOpen => ""
  | NotServerSurface surface => "no replay lane: only server-surface requests can be re-run here. A " +:+ surface
      +:+ " report is triaged by a person, which is why it is not left pending"
  | OnlyFingerprint => "no replay lane: the report carries a request fingerprint but no public input, and a fingerprint cannot be re-run. For a search, the input that would have to be replayed is the caller's question, which this network deliberately never receives — so this one is triaged by a person"
  | NotAReadRoute route => "no replay lane: " +:+ route +:+ " is not a public read route this server may re-run. Replaying a write would mean performing it a second time"
  end.

Definition no_lane_text (why : no_lane) : string :=
  match why with
  | LaneFound => ""
  | UnknownSample id => "the report names sample " +:+ id +:+ ", which this server does not hold, so there is no artifact any verifier could re-run"
  | NoSample package => "no verifier lane: the report names no sample this network published, and the fleet reproduces published sample artifacts rather than arbitrary coordinates. Publishing a minimal sample for " +:+ package +:+ " would make it reproducible"
  | SampleLookupFailed => "sample lookup failed while queueing verification"
  | ManifestUnreadable => "the stored sample manifest cannot be read, so no reproduction can be built from it"
  | NoImage ecosystem runtime => "no verifier image in this network serves " +:+ ecosystem +:+ "/" +:+ runtime +:+ ", so the sample cannot be re-run here"
  | JobFailed => "creating the verification job failed"
  end.

Definition productSummary (r : CSXIssueReportRow) : ReportSummary :=
  mkReportSummary (is_ID r) "product" (is_IssueKind r) (is_Surface r +:+ " · " +:+ is_Component r) (is_Status r) (is_Verdict r) (replay_text (is_ReplayReason r))
    (is_CanonicalRef r) (is_Occurrences r) (is_FirstSeen r) (is_LastSeen r).
Definition anomalySummary (r : AnomalyReportRow) : ReportSummary :=
  mkReportSummary (an_ID r) "anomaly" (an_AnomalyType r) (an_PURL r +:+ " · " +:+ an_Symbol r) (an_Status r) (an_Verdict r) (no_lane_text (an_UnsupportedReason r))
    "" (an_Reports r) (an_FirstSeen r) (an_LastSeen r).

Definition in_channel (f : ReportFilter) (r : ReportSummary) : bool :=
  negb (negb (String.eqb (rf_Channel f) "all") && negb (String.eqb (sm_Channel r) (rf_Channel f))).
Definition in_state (f : ReportFilter) (r : ReportSummary) : bool :=
  negb ((String.eqb (rf_State f) "open" && negb (String.eqb (sm_Verdict r) "")) || (String.eqb (rf_State f) "resolved" && String.eqb (sm_Verdict r) "")
        || (String.eqb (rf_State f) "blocked" && negb (reportBlocked r)) || (String.eqb (rf_State f) "unlinked" && negb (reportUnlinked r))).
Definition search_text (r : ReportSummary) : string :=
  ToLower (Itoa (sm_ID r) +:+ " " +:+ sm_Kind r +:+ " " +:+ sm_Target r +:+ " " +:+ sm_Status r +:+ " " +:+ sm_Verdict r +:+ " " +:+ sm_Reason r +:+ " " +:+ sm_CanonicalRef r).
Definition report_matches (f : ReportFilter) (r : ReportSummary) : bool := in_state f r && Contains (search_text r) (rf_Query f).

Definition report_before (a b : ReportSummary) : bool :=
  if sm_LastSeen a =? sm_LastSeen b
  then if sm_ID a =? sm_ID b then str_lt (sm_Channel a) (sm_Channel b) else sm_ID b <? sm_ID a
  else sm_LastSeen b <? sm_LastSeen a.

Definition count_summaries (p : ReportSummary -> bool) (rows : list ReportSummary) : Z := Z.of_nat (length (List.filter p rows)).
Definition page_of (offset limit : Z) (rows : list ReportSummary) : list ReportSummary :=
  if offset <? Z.of_nat (length rows) then firstn (Z.to_nat limit) (skipn (Z.to_nat offset) rows) else [].

Section queue.
  Context `{!GoSort, !GoMapRange}.

Definition all_summaries (iss : issue_store) (rs : report_store) : list ReportSummary :=
  (map productSummary (issue_rows iss) ++ map anomalySummary (report_rows rs))%list.

Definition ReportQueue (filter : ReportFilter) (iss : issue_store) (rs : report_store) : ReportPage :=
  let f := filter_normalized filter in
  let rows := List.filter (in_channel f) (all_summaries iss rs) in
  let matched := sort_slice report_before (List.filter (report_matches f) rows) in
  mkPage (page_of (rf_Offset f) (rf_Limit f) matched) (Z.of_nat (length matched))
    (mkCounts (Z.of_nat (length rows)) (count_summaries (fun r => String.eqb (sm_Verdict r) "") rows) (count_summaries reportBlocked rows)
       (count_summaries (fun r => negb (String.eqb (sm_Verdict r) "")) rows) (count_summaries reportUnlinked rows)).
End queue.

(** ** The endpoint *)

Section issue_endpoint.
  Context (h : host).

Definition redactCSXIssueProse (r : CSXIssueReport) : CSXIssueReport * bool :=
  (mkIssue (ci_SchemaVersion r) (ci_AffectedSurface r) (ci_IssueKind r) (ci_Component r) (ci_RequestFingerprint r) (ci_PublicInput r)
     (fst (Redact h (ci_ActualBehavior r))) (fst (Redact h (ci_ExpectedBehavior r))) (ci_Reproducible r) (ci_Confidence r) (ci_RelatedIDs r)
     (fst (Redact h (ci_LLMHypothesis r))),
   snd (Redact h (ci_ActualBehavior r)) || snd (Redact h (ci_ExpectedBehavior r)) || snd (Redact h (ci_LLMHypothesis r))).

Inductive issue_refusal := IssueEnvelope | IssueReporter | IssueInvalid (e : issue_error) | IssuePackage (e : report_refusal).

Definition admit_issue (trust : bool) (check : option (PURL -> string)) (schema : Z) (epoch anonID : string) (r : CSXIssueReport) :
    result (CSXIssueReport * bool) issue_refusal :=
  if negb (schema =? CSXIssueReportSchemaVersion) then Err IssueEnvelope
  else if negb (reporterBucketIsCanonical (TrimSpace epoch) (TrimSpace anonID)) then Err IssueReporter
  else
    let report := issue_Normalize r in
    match issue_Validate report with
    | Some e => Err (IssueInvalid e)
    | None =>
        match first_refusal (anomalyPackageIsPublic trust check) match ci_PublicInput report with Some i => pi_Packages i | None => [] end with
        | Some e => Err (IssuePackage e)
        | None => Ok (redactCSXIssueProse report)
        end
    end.

Definition issue_row (report : CSXIssueReport) (bucket : string) : CSXIssueReportRow :=
  mkIssueRow 0 (issue_Fingerprint report) (Some report) (ci_AffectedSurface report) (ci_IssueKind report) (ci_Component report)
    CSXIssueStatusTriage "" "" LaneOpen "" 0 bucket zero_time zero_time zero_time.

(** [csxIssueResponse]; the note is the one of the status. *)
Record issue_answer := mkIssueAnswer {
  ia_ReportID : Z; ia_duplicate : bool; ia_ReportStatus : string; ia_Verdict : string; ia_CanonicalRef : string; ia_Occurrences : Z;
  ia_MatchedReportID : Z; ia_RetryAfterSeconds : Z; ia_Redacted : bool; ia_ReplayReason : replay_reason }.

Definition handleCSXIssueReport (trust : bool) (check : option (PURL -> string)) (now schema : Z) (epoch anonID : string) (r : CSXIssueReport)
    (st : issue_store) : issue_store * result issue_answer issue_refusal :=
  match admit_issue trust check schema epoch anonID r with
  | Err e => (st, Err e)
  | Ok (report, redacted) =>
      let '(st, stored, duplicate) := RecordCSXIssueReport (issue_row report (TrimSpace epoch +:+ "/" +:+ TrimSpace anonID)) now st in
      if duplicate then
        let wait := AnomalyCooldown - (now - is_FirstSeen stored) in
        (st, Ok (mkIssueAnswer (is_ID stored) true (is_Status stored) (is_Verdict stored) (is_CanonicalRef stored) (is_Occurrences stored) (is_ID stored)
                   (if String.eqb (is_Verdict stored) "" && (0 <? wait) then Z.quot wait 1000000000 else 0) redacted (is_ReplayReason stored)))
      else
        let '(status, why) := match CSXIssueReplayLane report with
                              | Ok _ => (CSXIssueStatusReplayQueued, is_ReplayReason stored)
                              | Err why => (CSXIssueStatusNoReplayLane, why)
                              end in
        (SetCSXIssueTriage (is_ID stored) status why st,
         Ok (mkIssueAnswer (is_ID stored) false status (is_Verdict stored) (is_CanonicalRef stored) (is_Occurrences stored) 0 0 redacted why))
  end.
End issue_endpoint.

(** ** The operator's routes (internal/admin/csxissuetriage.go, reports.go) *)

(** The answers of the three routes once the request is decoded and the
    caller is an operator. *)
Inductive triage_answer := BadTriage | NoSuchReport | AlreadyDecided | Applied (done : bool).

Definition setCSXIssueVerdict (now id : Z) (verdict : string) (st : issue_store) : issue_store * triage_answer :=
  if id <=? 0 then (st, BadTriage)
  else let v := TrimSpace verdict in
    if negb (ValidCSXIssueVerdict v) then (st, BadTriage)
    else let '(st, applied) := SetCSXIssueVerdict id v now st in (st, Applied applied).

Definition linkCSXIssueCanonical (id : Z) (ref : string) (st : issue_store) : issue_store * triage_answer :=
  if id <=? 0 then (st, BadTriage)
  else let ref := TrimSpace ref in
    if String.eqb ref "" || (128 <? str_len ref) then (st, BadTriage)
    else let '(st, linked) := LinkCSXIssueCanonical id ref st in (st, Applied linked).

Definition review_refused (id : Z) (verdict note ref : string) : bool :=
  (id <? 1) || negb (ValidCSXIssueVerdict verdict) || (str_len note <? 10) || (4000 <? str_len note) || (128 <? str_len ref)
  || (negb (String.eqb ref "") && negb (String.eqb verdict CSXIssueVerdictDefect)).

Definition reviewReport (now id : Z) (verdict note ref : string) (st : issue_store) : issue_store * triage_answer :=
  let note := TrimSpace note in
  let ref := TrimSpace ref in
  if review_refused id verdict note ref then (st, BadTriage)
  else match CSXIssueReportByID id st with
  | None => (st, NoSuchReport)
  | Some _ =>
      let '(st, applied) := ReviewProductReport id verdict note ref now st in
      if applied then (st, Applied true) else (st, AlreadyDecided)
  end.

(** [reports]: the filter of a request, with its defaults. *)
Definition reports_filter (channel state q offset : string) : option ReportFilter :=
  let channel := or_default "product" channel in
  let state := or_default "open" state in
  let q := TrimSpace q in
  if negb (str_in channel ["all"; "product"; "anomaly"]) || negb (str_in state ["all"; "open"; "resolved"; "blocked"; "unlinked"]) || (200 <? str_len q) then None
  else if String.eqb offset "" then Some (mkFilter channel state q 0 25)
  else let '(value, ok) := Atoi offset in
    if negb ok || (value <? 0) || (1000000 <? value) then None else Some (mkFilter channel state q value 25).

(** ** Rows after any run of the routes *)

(** The requests that change the table, each run to its end. *)
Inductive issue_request_op :=
| Submit (h : host) (trust : bool) (check : option (PURL -> string)) (now schema : Z) (epoch anonID : string) (r : CSXIssueReport)
| GiveVerdict (now id : Z) (verdict : string)
| LinkBug (id : Z) (ref : string)
| Review (now id : Z) (verdict note ref : string).

Definition issue_step (st : issue_store) (op : issue_request_op) : issue_store :=
  match op with
  | Submit h trust check now schema epoch anonID r => fst (handleCSXIssueReport h trust check now schema epoch anonID r st)
  | GiveVerdict now id verdict => fst (setCSXIssueVerdict now id verdict st)
  | LinkBug id ref => fst (linkCSXIssueCanonical id ref st)
  | Review now id verdict note ref => fst (reviewReport now id verdict note ref st)
  end.
Definition issue_run (ops : list issue_request_op) (st : issue_store) : issue_store := fold_left issue_step ops st.

(** The admitted submissions of a run: which defect, and when. *)
Definition submission (op : issue_request_op) : list (string * Z) :=
  match op with
  | Submit h trust check now schema epoch anonID r =>
      match admit_issue h trust check schema epoch anonID r with Ok (report, _) => [(issue_Fingerprint report, now)] | Err _ => [] end
  | _ => []
  end.
Definition times (k : string) (hist : list (string * Z)) : list Z := map snd (List.filter (fun x => String.eqb (fst x) k) hist).

(** What a row says about the submissions counted in it. *)
Record row_ok (k : string) (seen : list Z) (r : CSXIssueReportRow) : Prop := {
  ro_report : exists report, is_Report r = Some report /\ issue_Fingerprint report = k;
  ro_count : is_Occurrences r = wrap64 (Z.of_nat (length seen));
  ro_first : list.head seen = Some (is_FirstSeen r);
  ro_last : list.last seen = Some (is_LastSeen r);
  ro_verdict : is_Verdict r = "" \/ In (is_Verdict r) CSXIssueVerdicts;
  ro_status : is_Status r = CSXIssueStatusResolved <-> is_Verdict r <> "";
  ro_ref : is_CanonicalRef r <> "" -> is_Verdict r = CSXIssueVerdictDefect
}.

Record issues_ok (hist : list (string * Z)) (st : issue_store) : Prop := {
  io_next : 0 <= st_nextCSXIssueID st;
  io_row : forall k r, st_csxIssues st !! k = Some r -> is_Fingerprint r = k /\ 1 <= is_ID r <= st_nextCSXIssueID st /\ row_ok k (times k hist) r;
  io_ids : forall k1 k2 r1 r2, st_csxIssues st !! k1 = Some r1 -> st_csxIssues st !! k2 = Some r2 -> is_ID r1 = is_ID r2 -> k1 = k2;
  io_missing : forall k, st_csxIssues st !! k = None -> times k hist = []
}.

#[local] Arguments wrap64 : simpl never.
#[local] Arguments issue_Fingerprint : simpl never.
#[local] Opaque issue_Fingerprint.

Lemma seen_snoc k hist x : times k (hist ++ [x])%list = (times k hist ++ if String.eqb (fst x) k then [snd x] else [])%list.
Proof. unfold times. rewrite List.filter_app, map_app. cbn. by destruct (String.eqb (fst x) k). Qed.

Lemma find_issue hist id st : issues_ok hist st -> forall r, findCSXIssue id st = Some r <-> exists k, st_csxIssues st !! k = Some r /\ is_ID r = id.
Proof.
  intros W r. unfold findCSXIssue. split.
  - intros F. apply find_some in F as [I E]. apply in_map_iff in I as ([k x] & <- & I). apply list_elem_of_In, elem_of_map_to_list in I.
    exists k. split; [done|]. simpl in *. lia.
  - intros (k & L & E). destruct (List.find _ _) as [x|] eqn:F.
    + apply find_some in F as [I Ex]. apply in_map_iff in I as ([k' y] & <- & I). apply list_elem_of_In, elem_of_map_to_list in I. simpl in *.
      assert (k = k') as <- by (eapply (io_ids _ _ W); eauto; lia). congruence.
    + assert (I : In r (map snd (map_to_list (st_csxIssues st)))).
      { apply in_map_iff. exists (k, r). split; [done|]. by apply list_elem_of_In, elem_of_map_to_list. }
      apply (find_none _ _ F) in I. simpl in I. lia.
Qed.

(** An update by id is an update of the one row that has it. *)
Lemma update_one hist id f st r : issues_ok hist st -> findCSXIssue id st = Some r ->
  st_csxIssues (update_issue id f st) = <[is_Fingerprint r := f r]> (st_csxIssues st).
Proof.
  intros W (k & L & E)%(find_issue _ _ _ W). destruct (io_row _ _ W _ _ L) as [-> _]. apply map_eq. intros k'. cbn. rewrite lookup_fmap, lookup_insert.
  case_decide as D; [subst; rewrite L; cbn; by rewrite Z.eqb_refl|]. destruct (st_csxIssues st !! k') as [r'|] eqn:L'; [|done]. cbn.
  destruct (Z.eqb_spec (is_ID r') id) as [E'|]; [|done]. exfalso. apply D. eapply (io_ids _ _ W); eauto. congruence.
Qed.

Lemma ok_update hist st k r r' : issues_ok hist st -> st_csxIssues st !! k = Some r -> is_ID r' = is_ID r -> is_Fingerprint r' = is_Fingerprint r ->
  row_ok k (times k hist) r' -> issues_ok hist (mkIssues (<[k := r']> (st_csxIssues st)) (st_nextCSXIssueID st)).
Proof.
  intros [N R I M] L Ei Ef O. destruct (R _ _ L) as (Fr & Br & _). split; cbn; [done|..].
  - intros k' x. rewrite lookup_insert. case_decide as D; [|apply R]. intros [= <-]. subst k'. rewrite Ef, Ei. auto.
  - intros k1 k2 r1 r2. rewrite !lookup_insert. repeat case_decide; intros H1 H2 E; simplify_eq; try done; eapply I; eauto; congruence.
  - intros k'. rewrite lookup_insert. case_decide; [done|apply M].
Qed.

Lemma ok_record hist st row now : issues_ok hist st ->
  (exists report, is_Report row = Some report /\ issue_Fingerprint report = is_Fingerprint row) ->
  is_Verdict row = "" -> is_CanonicalRef row = "" -> is_Status row = CSXIssueStatusTriage ->
  let '(st', stored, dup) := RecordCSXIssueReport row now st in
  issues_ok (hist ++ [(is_Fingerprint row, now)])%list st' /\ st_csxIssues st' !! is_Fingerprint row = Some stored
  /\ (dup = false -> is_Verdict stored = "" /\ is_CanonicalRef stored = "").
Proof.
  intros [N R I M] Hr Hv Hc Hs. unfold RecordCSXIssueReport. destruct (st_csxIssues st !! is_Fingerprint row) as [e|] eqn:L.
  - destruct (R _ _ L) as (Fe & Be & [O1 O2 O3 O4 O5 O6 O7]). split; [|split; [apply lookup_insert_eq|done]]. split; cbn; [done|..].
    + intros k r. rewrite lookup_insert, seen_snoc. cbn. case_decide as D.
      * intros [= <-]. subst k. rewrite String.eqb_refl. split; [done|]. split; [done|]. split; cbn; auto.
        -- rewrite length_app. cbn. rewrite O2, wrap64_add_l. f_equal. lia.
        -- destruct (times _ hist); [done|exact O3].
        -- apply last_snoc.
      * intros H. rewrite (proj2 (String.eqb_neq _ _) D), app_nil_r. by apply R.
    + intros k1 k2 r1 r2. rewrite !lookup_insert. repeat case_decide; intros H1 H2 E; simplify_eq; try done; cbn in E; eapply I; eauto.
    + intros k. rewrite lookup_insert, seen_snoc. cbn. case_decide as D; [done|]. rewrite (proj2 (String.eqb_neq _ _) D), app_nil_r. apply M.
  - split; [|split; [apply lookup_insert_eq|by intros _; cbn]]. split; cbn; [lia|..].
    + intros k r. rewrite lookup_insert, seen_snoc. cbn. case_decide as D.
      * intros [= <-]. subst k. rewrite String.eqb_refl, (M _ L). split; [done|]. split; [cbn; lia|]. split; cbn; auto.
        rewrite Hs, Hv. done. by rewrite Hc.
      * intros H. rewrite (proj2 (String.eqb_neq _ _) D), app_nil_r. destruct (R _ _ H) as (? & ? & ?). split; [done|]. split; [lia|done].
    + intros k1 k2 r1 r2. rewrite !lookup_insert. repeat case_decide; intros H1 H2 E; simplify_eq; try done; cbn in E.
      * destruct (R _ _ H2) as (_ & ? & _). lia.
      * destruct (R _ _ H1) as (_ & ? & _). lia.
      * eapply I; eauto.
    + intros k. rewrite lookup_insert, seen_snoc. cbn. case_decide as D; [done|]. rewrite (proj2 (String.eqb_neq _ _) D), app_nil_r. apply M.
Qed.

(** A change of the decided fields keeps what a row says of its submissions. *)
Lemma ok_update_by_id hist id f st r : issues_ok hist st -> findCSXIssue id st = Some r ->
  is_ID (f r) = is_ID r -> is_Fingerprint (f r) = is_Fingerprint r ->
  (row_ok (is_Fingerprint r) (times (is_Fingerprint r) hist) r -> row_ok (is_Fingerprint r) (times (is_Fingerprint r) hist) (f r)) ->
  issues_ok hist (update_issue id f st).
Proof.
  intros W F Ei Ef O. pose proof (update_one hist id f st r W F) as U. apply (find_issue _ _ _ W) in F as (k & L & E). destruct (io_row _ _ W _ _ L) as (<- & _ & Hr).
  replace (update_issue id f st) with (mkIssues (<[is_Fingerprint r := f r]> (st_csxIssues st)) (st_nextCSXIssueID st)); [|by rewrite <- U; destruct st].
  eapply ok_update; eauto.
Qed.

Lemma valid_verdict v : ValidCSXIssueVerdict v = true -> In v CSXIssueVerdicts /\ v <> "".
Proof. unfold ValidCSXIssueVerdict. intros H. split; [by apply str_in_In|]. by intros ->. Qed.

Lemma ok_triaged k seen status why r : status <> CSXIssueStatusResolved -> is_Verdict r = "" -> row_ok k seen r -> row_ok k seen (triaged status why r).
Proof. intros S V [O1 O2 O3 O4 O5 O6 O7]. split; cbn; auto. rewrite V. done. Qed.
Lemma ok_closed k seen v note ref t r : In v CSXIssueVerdicts -> v <> "" -> (ref <> "" -> v = CSXIssueVerdictDefect) -> row_ok k seen r -> row_ok k seen (closed_with v note ref t r).
Proof. intros V N R [O1 O2 O3 O4 O5 O6 O7]. split; cbn; auto. done. Qed.
Lemma ok_linked k seen ref r : is_Verdict r = CSXIssueVerdictDefect -> row_ok k seen r -> row_ok k seen (linked_to ref r).
Proof. intros V [O1 O2 O3 O4 O5 O6 O7]. split; cbn; auto. Qed.

Lemma lane_status report (why0 : replay_reason) :
  let '(status, _) := match CSXIssueReplayLane report with Ok _ => (CSXIssueStatusReplayQueued, why0) | Err why => (CSXIssueStatusNoReplayLane, why) end in
  status <> CSXIssueStatusResolved.
Proof. by destruct (CSXIssueReplayLane report). Qed.

Lemma ok_submit hist st h trust check now schema epoch anonID r : issues_ok hist st ->
  issues_ok (hist ++ submission (Submit h trust check now schema epoch anonID r))%list (fst (handleCSXIssueReport h trust check now schema epoch anonID r st)).
Proof.
  intros W. unfold handleCSXIssueReport, submission. destruct (admit_issue _ _ _ _ _ _ _) as [[report redacted]|e]; [|by rewrite app_nil_r].
  set (row := issue_row report _). pose proof (ok_record hist st row now W) as R.
  destruct (RecordCSXIssueReport row now st) as [[st1 stored] dup]. destruct R as (W1 & L & D); [by exists report|done..|].
  change (is_Fingerprint row) with (issue_Fingerprint report) in *. destruct dup; [done|].
  pose proof (lane_status report (is_ReplayReason stored)) as S. destruct (match CSXIssueReplayLane report with Ok _ => _ | Err _ => _ end) as [status why].
  cbn [fst]. destruct D as [V C]; [done|]. unfold SetCSXIssueTriage. eapply ok_update_by_id; eauto.
  - apply (find_issue _ _ _ W1). eauto.
  - by apply ok_triaged.
Qed.

Lemma ok_verdict hist st now id verdict : issues_ok hist st -> issues_ok hist (fst (setCSXIssueVerdict now id verdict st)).
Proof.
  intros W. unfold setCSXIssueVerdict. destruct (id <=? 0); [done|]. destruct (ValidCSXIssueVerdict _) eqn:V; [|done]. cbn [negb].
  unfold SetCSXIssueVerdict. destruct (findCSXIssue id st) as [r|] eqn:F; [|done]. destruct (String.eqb_spec (is_Verdict r) "") as [E|]; [|done]. cbn [negb fst].
  apply valid_verdict in V as [V1 V2]. eapply ok_update_by_id; eauto. intros O. apply ok_closed; auto. intros H. pose proof (ro_ref _ _ _ O H). by rewrite E in *.
Qed.

Lemma ok_link hist st id ref : issues_ok hist st -> issues_ok hist (fst (linkCSXIssueCanonical id ref st)).
Proof.
  intros W. unfold linkCSXIssueCanonical. destruct (id <=? 0); [done|]. destruct (_ || _); [done|]. unfold LinkCSXIssueCanonical.
  destruct (findCSXIssue id st) as [r|] eqn:F; [|done]. unfold CSXIssueVerdictConfirmed. destruct (String.eqb_spec (is_Verdict r) CSXIssueVerdictDefect) as [E|]; [|done].
  cbn [negb orb]. destruct (_ && _); [done|]. cbn [fst]. eapply ok_update_by_id; eauto. by apply ok_linked.
Qed.

Lemma ok_review hist st now id verdict note ref : issues_ok hist st -> issues_ok hist (fst (reviewReport now id verdict note ref st)).
Proof.
  intros W. unfold reviewReport. destruct (review_refused _ _ _ _) eqn:G; [done|]. unfold CSXIssueReportByID. destruct (findCSXIssue id st) as [r|] eqn:F; [|done].
  unfold ReviewProductReport. rewrite F. destruct (String.eqb_spec (is_Verdict r) "") as [E|]; [|done]. cbn [negb fst].
  unfold review_refused in G. rewrite !orb_false_iff, andb_false_iff, !negb_false_iff in G. destruct G as [[[[[_ V%valid_verdict] _] _] _] C].
  eapply ok_update_by_id; eauto. intros O. apply ok_closed; [by apply V..| |done]. intros H. destruct C as [C|C]; apply String.eqb_eq in C; congruence.
Qed.

Lemma issue_step_ok hist st op : issues_ok hist st -> issues_ok (hist ++ submission op)%list (issue_step st op).
Proof.
  intros W. destruct op; cbn [issue_step]; [by apply ok_submit|..]; cbn [submission]; rewrite app_nil_r;
    [by apply ok_verdict|by apply ok_link|by apply ok_review].
Qed.

Lemma issue_run_ok ops hist st : issues_ok hist st -> issues_ok (hist ++ flat_map submission ops)%list (issue_run ops st).
Proof.
  revert hist st. induction ops as [|op ops IH]; intros hist st W; cbn [flat_map]; [by rewrite app_nil_r|].
  rewrite app_assoc. apply (IH _ (issue_step st op)). by apply issue_step_ok.
Qed.

Lemma new_store_ok : issues_ok [] new_issue_store.
Proof. split; cbn; [done|..]; intros; simplify_map_eq; done. Qed.

(** Once decided, always decided the same way. *)
Definition keeps_decision (r r' : CSXIssueReportRow) : Prop :=
  is_ID r' = is_ID r /\ is_FirstSeen r' = is_FirstSeen r /\ is_Report r' = is_Report r /\ (is_Verdict r <> "" -> is_Verdict r' = is_Verdict r /\ is_ReviewNote r' = is_ReviewNote r /\ is_VerdictAt r' = is_VerdictAt r)
  /\ (is_CanonicalRef r <> "" -> is_CanonicalRef r' = is_CanonicalRef r).

#[local] Instance keeps_refl : Reflexive keeps_decision. Proof. by intros r. Qed.
#[local] Instance keeps_trans : Transitive keeps_decision.
Proof.
  intros a b c (A1 & A2 & A3 & A4 & A5) (B1 & B2 & B3 & B4 & B5). split; [congruence|]. split; [congruence|]. split; [congruence|]. split.
  - intros V. destruct (A4 V) as (E & E' & E''). rewrite E in B4. destruct (B4 V) as (F & F' & F''). repeat split; congruence.
  - intros V. rewrite <- (A5 V). apply B5. by rewrite (A5 V).
Qed.

Lemma step_keeps hist st op k r : issues_ok hist st -> st_csxIssues st !! k = Some r ->
  exists r', st_csxIssues (issue_step st op) !! k = Some r' /\ keeps_decision r r'.
Proof.
  intros W L. assert (Same : exists r', st_csxIssues st !! k = Some r' /\ keeps_decision r r') by (by exists r).
  assert (Up : forall id f x, findCSXIssue id st = Some x -> (x = r -> keeps_decision r (f r)) -> exists r', st_csxIssues (update_issue id f st) !! k = Some r' /\ keeps_decision r r').
  { intros id f x F K. rewrite (update_one _ _ f _ _ W F), lookup_insert. case_decide as D; [|eauto]. exists (f x). split; [done|].
    apply (find_issue _ _ _ W) in F as (k' & L' & _). destruct (io_row _ _ W _ _ L') as (E & _ & _). assert (k' = k) as -> by congruence. assert (x = r) as -> by congruence. auto. }
  destruct op as [h trust check now schema epoch anonID rep|now id v|id ref|now id v note ref]; cbn [issue_step].
  - unfold handleCSXIssueReport. destruct (admit_issue _ _ _ _ _ _ _) as [[report redacted]|e]; [|done].
    unfold RecordCSXIssueReport. destruct (st_csxIssues st !! is_Fingerprint _) as [e|] eqn:Le.
    + cbn [fst st_csxIssues]. rewrite lookup_insert. case_decide as D; [|eauto]. rewrite D, L in Le. injection Le as <-. exists (occurs_again now r). done.
    + destruct (match CSXIssueReplayLane report with Ok _ => _ | Err _ => _ end) as [status why]. cbn [fst]. unfold SetCSXIssueTriage. cbn [st_csxIssues update_issue].
      rewrite lookup_fmap, lookup_insert. case_decide as D; [by rewrite D, L in Le|]. rewrite L. cbn [fmap option_fmap option_map is_ID].
      destruct (io_row _ _ W _ _ L) as (_ & B & _). rewrite (proj2 (Z.eqb_neq _ _)) by lia. by exists r.
  - unfold setCSXIssueVerdict, SetCSXIssueVerdict. destruct (id <=? 0); [done|]. destruct (negb _); [done|]. destruct (findCSXIssue id st) as [x|] eqn:F; [|done].
    destruct (String.eqb_spec (is_Verdict x) "") as [E|]; [|done]. cbn [negb fst]. eapply Up; [done|]. intros ->. by unfold keeps_decision; cbn.
  - unfold linkCSXIssueCanonical, LinkCSXIssueCanonical. destruct (id <=? 0); [done|]. destruct (_ || _); [done|]. destruct (findCSXIssue id st) as [x|] eqn:F; [|done].
    destruct (negb (CSXIssueVerdictConfirmed _)); [done|]. cbn [orb]. destruct (String.eqb_spec (is_CanonicalRef x) "") as [E|E]; cbn [negb andb].
    + cbn [fst]. eapply Up; [done|]. intros ->. by unfold keeps_decision; cbn.
    + destruct (String.eqb_spec (is_CanonicalRef x) (TrimSpace ref)) as [E'|]; [|done]. cbn [negb fst]. eapply Up; [done|]. intros ->. by unfold keeps_decision; cbn.
  - unfold reviewReport, CSXIssueReportByID, ReviewProductReport. destruct (review_refused _ _ _ _) eqn:G; [done|]. destruct (findCSXIssue id st) as [x|] eqn:F; [|done].
    destruct (String.eqb_spec (is_Verdict x) "") as [E|]; [|done]. cbn [negb fst]. eapply Up; [done|]. intros ->. unfold keeps_decision. cbn. split; [done|]. split; [done|]. split; [done|]. split; [done|].
    intros C. destruct (io_row _ _ W _ _ L) as (_ & _ & O). pose proof (ro_ref _ _ _ O C). by rewrite E in *.
Qed.

Lemma run_keeps ops hist st k r : issues_ok hist st -> st_csxIssues st !! k = Some r ->
  exists r', st_csxIssues (issue_run ops st) !! k = Some r' /\ keeps_decision r r'.
Proof.
  revert hist st r. induction ops as [|op ops IH]; intros hist st r W L; [by exists r|].
  destruct (step_keeps _ _ op _ _ W L) as (r1 & L1 & K1). destruct (IH _ _ _ (issue_step_ok _ _ op W) L1) as (r2 & L2 & K2).
  exists r2. split; [done|]. by etransitivity.
Qed.


(** ** The key *)

Definition with_issue_prose (actual expected hypothesis : string) (r : CSXIssueReport) : CSXIssueReport :=
  mkIssue (ci_SchemaVersion r) (ci_AffectedSurface r) (ci_IssueKind r) (ci_Component r) (ci_RequestFingerprint r) (ci_PublicInput r) actual expected
    (ci_Reproducible r) (ci_Confidence r) (ci_RelatedIDs r) hypothesis.

Lemma normalize_input_idem i : normalize_input (normalize_input i) = normalize_input i.
Proof. unfold normalize_input. cbn. by rewrite TrimSpace_idem, (proj1 (Normalize_idem _)). Qed.

Lemma issue_text_normalized r : issue_text (issue_Normalize r) = issue_text r.
Proof.
  unfold issue_text. cbv zeta. destruct r as [v s k c f i a e rp cf rel hyp]. unfold issue_Normalize, issue_request. cbn [ci_SchemaVersion ci_AffectedSurface ci_IssueKind ci_Component ci_RequestFingerprint ci_PublicInput].
  rewrite !normalizeLower_idem, TrimSpace_idem, TrimSpace_ToLower, ToLower_idem. destruct i as [i|]; cbn [option_map]; [by rewrite normalize_input_idem|done].
Qed.

(** The key of the stored report is the key of the report that was sent, and
    the prose is not in it. *)
Lemma admitted_key h trust check schema epoch anonID r report redacted :
  admit_issue h trust check schema epoch anonID r = Ok (report, redacted) -> issue_Fingerprint report = issue_Fingerprint r.
Proof.
  unfold admit_issue. destruct (negb _); [done|]. destruct (negb _); [done|]. destruct (issue_Validate _); [done|]. destruct (first_refusal _ _); [done|].
  intros [= <- _]. with_strategy transparent [issue_Fingerprint] unfold issue_Fingerprint. f_equal. rewrite <- (issue_text_normalized r). done.
Qed.

Lemma key_ignores_prose a e hyp r : issue_Fingerprint (with_issue_prose a e hyp r) = issue_Fingerprint r.
Proof. done. Qed.

(** With a separator inside a field two admitted reports about different
    components share one key. *)
Definition issue_example (component request : string) : CSXIssueReport :=
  mkIssue 1 "mcp" "runtime-behavior" component request None "hangs" "answers" "yes" "high" [] "".
Example issue_key_collision :
  let r1 := issue_example "search|v2" "q" in let r2 := issue_example "search" "v2|q" in
  issue_Validate (issue_Normalize r1) = None /\ issue_Validate (issue_Normalize r2) = None
  /\ ci_Component r1 <> ci_Component r2 /\ ci_RequestFingerprint r1 <> ci_RequestFingerprint r2 /\ issue_text r1 = issue_text r2.
Proof. repeat split; try discriminate; vm_compute; reflexivity. Qed.

(** Only a listed read route, reported about the server itself, is ever
    replayed. *)
Lemma replay_is_a_public_read r route : CSXIssueReplayLane r = Ok route ->
  ci_AffectedSurface (issue_Normalize r) = CSXSurfaceServer
  /\ exists p, In p publicReplayEndpoints /\ (route = p \/ HasPrefix route (p +:+ "/") = true).
Proof.
  unfold CSXIssueReplayLane. destruct (String.eqb_spec (ci_AffectedSurface (issue_Normalize r)) CSXSurfaceServer) as [E|]; [|done]. cbn [negb].
  destruct (ci_PublicInput _) as [i|]; [|done]. destruct (String.eqb _ ""); [done|]. destruct (existsb _ _) eqn:X; [|done]. intros [= <-]. split; [done|].
  apply existsb_exists in X as (p & I & X). exists p. split; [done|]. apply orb_true_iff in X as [X%String.eqb_eq|X]; auto.
Qed.

(** ** The queue *)

Lemma sorted_unique_on {A} (cmp : A -> A -> Z) `{!CmpOrder cmp} l1 l2 : (forall x y, In x l1 -> In y l1 -> cmp x y = 0 -> x = y) ->
  StronglySorted (fun a b => cmp a b <= 0) l1 -> StronglySorted (fun a b => cmp a b <= 0) l2 -> Permutation l1 l2 -> l1 = l2.
Proof.
  intros U H1. revert l2 U. induction H1 as [|x l1 Hs IH Hf]; intros l2 U H2 HP; [by apply Permutation_nil in HP|].
  destruct H2 as [|y l2 Hs2 Hf2]; [by apply Permutation_sym, Permutation_nil in HP|].
  assert (Iy : In y (x :: l1)) by (rewrite HP; by left). assert (Ix : In x (y :: l2)) by (rewrite <- HP; by left).
  assert (x = y) as ->.
  { apply U; [by left|done|]. destruct Ix as [->|Ix]; [apply cmp_refl|]. destruct Iy as [->|Iy]; [apply cmp_refl|].
    rewrite List.Forall_forall in Hf, Hf2. specialize (Hf _ Iy). specialize (Hf2 _ Ix). pose proof (cmp_antisym (cmp:=cmp) x y). lia. }
  f_equal. apply IH; [intros; apply U; auto; by right|done|]. by apply Permutation_cons_inv in HP.
Qed.

Definition report_cmp : ReportSummary -> ReportSummary -> Z :=
  cmp_then (cmp_flip (cmp_on sm_LastSeen cmp_Z)) (cmp_then (cmp_flip (cmp_on sm_ID cmp_Z)) (cmp_on sm_Channel str_cmp)).

Lemma report_before_less : less_of report_cmp report_before.
Proof.
  split; [unfold report_cmp; apply _|]. intros a b. unfold report_cmp, report_before, cmp_then, cmp_flip, cmp_on. destruct str_lt_less as [_ L].
  unfold cmp_Z. destruct (Z.eqb_spec (sm_LastSeen a) (sm_LastSeen b)) as [->|]; rewrite ?Z.ltb_irrefl; cbn [Z.eqb].
  - destruct (Z.eqb_spec (sm_ID a) (sm_ID b)) as [->|]; rewrite ?Z.ltb_irrefl; cbn [Z.eqb]; [apply L|]. repeat case_match; bool_facts; try lia; done.
  - repeat case_match; bool_facts; try lia; done.
Qed.

Section queue_facts.
  Context `{GS : !GoSort, GM : !GoMapRange}.

Lemma summaries_in iss rs x : In x (all_summaries iss rs) <->
  (exists k r, st_csxIssues iss !! k = Some r /\ x = productSummary r) \/ (exists k r, rs_anomalies rs !! k = Some r /\ x = anomalySummary r).
Proof.
  unfold all_summaries, issue_rows, report_rows. rewrite in_app_iff, !in_map_iff. setoid_rewrite in_map_iff.
  setoid_rewrite <- (Permutation_in' eq_refl (range_order_perm _ _)). setoid_rewrite <- list_elem_of_In.
  split.
  - intros [(r & <- & [k y] & <- & I)|(r & <- & [k y] & <- & I)]; apply elem_of_map_to_list in I; eauto.
  - intros [(k & r & L & ->)|(k & r & L & ->)]; [left|right]; exists r; (split; [done|]); exists (k, r); (split; [done|]); by apply elem_of_map_to_list.
Qed.

(** No two reports share their channel and their id. *)
Lemma summaries_identified hist iss rs x y : issues_ok hist iss -> reports_wf rs -> In x (all_summaries iss rs) -> In y (all_summaries iss rs) ->
  sm_ID x = sm_ID y -> sm_Channel x = sm_Channel y -> x = y.
Proof.
  intros W1 W2 Ix Iy. apply summaries_in in Ix as [(k & r & L & ->)|(k & r & L & ->)], Iy as [(k' & r' & L' & ->)|(k' & r' & L' & ->)]; try done; cbn; intros E _.
  - assert (k = k') as <- by (eapply (io_ids _ _ W1); eauto). congruence.
  - assert (k = k') as <- by (eapply (rw_ids _ W2); eauto). congruence.
Qed.

Lemma NoDup_values {A B} (f : A -> B) (m : gmap string A) : (forall k k' r r', m !! k = Some r -> m !! k' = Some r' -> f r = f r' -> k = k') ->
  NoDup (map f (map snd (range_order (map_to_list m)))).
Proof.
  intros U. rewrite <- (Permutation_map f (Permutation_map snd (range_order_perm _ _))), map_map.
  change (NoDup ((fun p : string * A => f p.2) <$> map_to_list m)). apply NoDup_fmap_2_strong; [|apply NoDup_map_to_list].
  intros [k r] [k' r'] I1%elem_of_map_to_list I2%elem_of_map_to_list E. cbn in E. assert (k = k') as -> by eauto. congruence.
Qed.

Lemma summaries_distinct hist iss rs : issues_ok hist iss -> reports_wf rs -> NoDup (all_summaries iss rs).
Proof.
  intros W1 W2. unfold all_summaries, issue_rows, report_rows. apply list.NoDup_app. split; [|split].
  - apply NoDup_values. intros k k' r r' L L' E. eapply (io_ids _ _ W1); eauto. by injection E.
  - intros x I J. apply list_elem_of_In, in_map_iff in I as (r & <- & _), J as (r' & E & _). done.
  - apply NoDup_values. intros k k' r r' L L' E. eapply (rw_ids _ W2); eauto. by injection E.
Qed.

Definition ranked (f : ReportFilter) (iss : issue_store) (rs : report_store) : list ReportSummary :=
  sort_slice report_before (List.filter (report_matches (filter_normalized f)) (List.filter (in_channel (filter_normalized f)) (all_summaries iss rs))).

Lemma ranked_in f iss rs x : In x (ranked f iss rs) <->
  In x (all_summaries iss rs) /\ in_channel (filter_normalized f) x = true /\ report_matches (filter_normalized f) x = true.
Proof. unfold ranked. rewrite <- (Permutation_in' eq_refl (sort_slice_perm _ _ _)), !filter_In. tauto. Qed.

Lemma NoDup_List_filter {A} (p : A -> bool) l : NoDup l -> NoDup (List.filter p l).
Proof.
  induction 1 as [|x l N D IH]; cbn; [constructor|]. destruct (p x); [|done]. constructor; [|done]. intros I. apply N.
  apply list_elem_of_In in I. apply list_elem_of_In. by apply filter_In in I as [I _].
Qed.

Lemma ranked_distinct hist f iss rs : issues_ok hist iss -> reports_wf rs -> NoDup (ranked f iss rs).
Proof. intros W1 W2. unfold ranked. rewrite <- sort_slice_perm. by eapply NoDup_List_filter, NoDup_List_filter, summaries_distinct. Qed.

Lemma report_cmp_key x y : report_cmp x y = 0 -> sm_ID x = sm_ID y /\ sm_Channel x = sm_Channel y.
Proof.
  unfold report_cmp, cmp_then, cmp_flip, cmp_on. destruct (_ =? 0) eqn:E1; [|bool_facts; lia]. destruct (cmp_Z (sm_ID y) _ =? 0) eqn:E2; [|bool_facts; lia].
  apply Z.eqb_eq, cmp_Z_eq in E2. by intros ->%str_cmp_eq.
Qed.

Lemma ranked_sorted hist f iss rs : issues_ok hist iss -> reports_wf rs -> StronglySorted (fun a b => report_before a b = true) (ranked f iss rs).
Proof.
  intros W1 W2. pose proof (ranked_distinct _ f _ _ W1 W2) as N. pose proof (fun x => proj1 (ranked_in f iss rs x)) as I. revert N I.
  pose proof (sort_slice_sorted _ _ _ (List.filter (report_matches (filter_normalized f)) (List.filter (in_channel (filter_normalized f)) (all_summaries iss rs))) report_before_less) as S.
  fold (ranked f iss rs) in S. revert S. generalize (ranked f iss rs). destruct report_before_less as [_ L].
  induction 1 as [|a l S IH F]; intros N I; constructor; apply list.NoDup_cons in N as [Na N].
  - apply IH; [done|]. intros x Ix. apply I. by right.
  - rewrite List.Forall_forall in F |- *. intros b Ib. rewrite L. apply Z.ltb_lt. pose proof (F b Ib). destruct (Z.eq_dec (report_cmp a b) 0) as [Z|]; [|lia].
    apply report_cmp_key in Z as [E1 E2]. exfalso. apply Na. replace a with b; [by apply list_elem_of_In|].
    symmetry. eapply summaries_identified; eauto; apply I; [by left|by right].
Qed.
End queue_facts.

Lemma summaries_perm {G1 G2 : GoMapRange} iss rs : Permutation (@all_summaries G1 iss rs) (@all_summaries G2 iss rs).
Proof.
  unfold all_summaries, issue_rows, report_rows. apply Permutation_app; apply Permutation_map, Permutation_map; by rewrite <- !range_order_perm.
Qed.

(** The ranking depends neither on the sort nor on the order of the maps. *)
Lemma ranked_unique {S1 S2 : GoSort} {G1 G2 : GoMapRange} hist f iss rs : issues_ok hist iss -> reports_wf rs ->
  @ranked S1 G1 f iss rs = @ranked S2 G2 f iss rs.
Proof.
  intros W1 W2. pose proof report_before_less as [O _]. apply (sorted_unique_on report_cmp).
  - intros x y (Ix & _)%ranked_in (Iy & _)%ranked_in [E1 E2]%report_cmp_key. exact (summaries_identified _ _ _ _ _ W1 W2 Ix Iy E1 E2).
  - exact (sort_slice_sorted _ _ _ _ report_before_less).
  - exact (sort_slice_sorted _ _ _ _ report_before_less).
  - unfold ranked. rewrite <- !sort_slice_perm. apply filter_perm, filter_perm, summaries_perm.
Qed.

Lemma pages_tile limit rows n : 0 < limit -> (length rows <= n * Z.to_nat limit)%nat ->
  flat_map (fun i => page_of (Z.of_nat i * limit) limit rows) (seq 0 n) = rows.
Proof.
  intros P. assert (G : forall k n, flat_map (fun i => page_of (Z.of_nat i * limit) limit rows) (seq k n) = firstn (n * Z.to_nat limit) (skipn (k * Z.to_nat limit) rows)).
  { intros k m. revert k. induction m as [|m IH]; intros k; [done|]. cbn [seq flat_map]. rewrite IH. cbn [Nat.mul]. unfold page_of.
    rewrite Z2Nat.inj_mul, Nat2Z.id by lia. destruct (Z.ltb_spec (Z.of_nat k * limit) (Z.of_nat (length rows))) as [H|H].
    - rewrite <- (skipn_skipn (Z.to_nat limit) (k * Z.to_nat limit)). generalize (skipn (k * Z.to_nat limit) rows). intros l.
      rewrite <- (firstn_skipn (Z.to_nat limit) l) at 3. rewrite firstn_app, firstn_firstn, length_firstn, Nat.min_r by lia. f_equal.
      destruct (Nat.le_gt_cases (Z.to_nat limit) (length l)) as [H'|H']; [f_equal; lia|]. by rewrite !(skipn_all2 l), !firstn_nil by lia.
    - rewrite !skipn_all2 by (apply Nat2Z.inj_le; nia). by rewrite !firstn_nil. }
  intros L. rewrite G. cbn [Nat.mul skipn]. by apply firstn_all2.
Qed.

Lemma count_split {A} (p : A -> bool) l : (length (List.filter p l) + length (List.filter (fun x => negb (p x)) l) = length l)%nat.
Proof. induction l as [|x l IH]; cbn; [done|]. destruct (p x); cbn; lia. Qed.
Lemma count_le {A} (p q : A -> bool) l : (forall x, p x = true -> q x = true) -> (length (List.filter p l) <= length (List.filter q l))%nat.
Proof. intros H. induction l as [|x l IH]; cbn; [done|]. destruct (p x) eqn:P; [rewrite (H _ P); cbn; lia|]. destruct (q x); cbn; lia. Qed.

(** The operator's queue shows every report once: the reports of the chosen
    channel and state that match the query, most recent first, the same list
    whatever the sort and the order of the maps; the pages of one limit laid
    end to end are that list; and the counts are consistent. *)
Theorem report_queue_is_exact ops f rs :
  reports_wf rs ->
  let iss := issue_run ops new_issue_store in
  let n := filter_normalized f in
  exists rows : list ReportSummary,
    (forall x, In x rows <->
       ((exists k r, st_csxIssues iss !! k = Some r /\ x = productSummary r) \/ (exists k r, rs_anomalies rs !! k = Some r /\ x = anomalySummary r))
       /\ in_channel n x = true /\ report_matches n x = true)
    /\ NoDup rows /\ StronglySorted (fun a b => report_before a b = true) rows
    /\ 1 <= rf_Limit n <= 100
    /\ (forall pages, (length rows <= pages * Z.to_nat (rf_Limit n))%nat -> flat_map (fun i => page_of (Z.of_nat i * rf_Limit n) (rf_Limit n) rows) (seq 0 pages) = rows)
    /\ forall (GS : GoSort) (GM : GoMapRange),
         let page := ReportQueue f iss rs in
         pg_Rows page = page_of (rf_Offset n) (rf_Limit n) rows /\ pg_Total page = Z.of_nat (length rows)
         /\ rc_Open (pg_Counts page) + rc_Resolved (pg_Counts page) = rc_Total (pg_Counts page)
         /\ rc_Blocked (pg_Counts page) <= rc_Open (pg_Counts page) /\ rc_Unlinked (pg_Counts page) <= rc_Resolved (pg_Counts page).
Proof.
  intros W2. cbv zeta. pose proof (issue_run_ok ops [] _ new_store_ok) as W1. set (iss := issue_run ops new_issue_store) in *.
  exists (@ranked no_sort range_in_order f iss rs). repeat split.
  - apply ranked_in in H as (I & _). by apply summaries_in in I.
  - by apply ranked_in in H as (_ & C & _).
  - by apply ranked_in in H as (_ & _ & M).
  - intros (I & C & M). apply ranked_in. split; [by apply summaries_in|done].
  - by eapply ranked_distinct.
  - by eapply ranked_sorted.
  - cbn. split_ifs; bool_facts; lia.
  - cbn. split_ifs; bool_facts; lia.
  - intros pages. apply pages_tile. cbn. split_ifs; bool_facts; lia.
  - cbn [pg_Rows ReportQueue]. by rewrite (ranked_unique (S1:=no_sort) (S2:=GS) (G1:=range_in_order) (G2:=GM) _ f _ _ W1 W2).
  - cbn [pg_Total ReportQueue]. by rewrite (ranked_unique (S1:=no_sort) (S2:=GS) (G1:=range_in_order) (G2:=GM) _ f _ _ W1 W2).
  - cbn [pg_Counts ReportQueue rc_Open rc_Resolved rc_Total]. unfold count_summaries. rewrite <- Nat2Z.inj_add. f_equal. apply count_split.
  - cbn [pg_Counts ReportQueue rc_Open rc_Blocked]. unfold count_summaries. apply inj_le, count_le. unfold reportBlocked. by intros x [-> _]%andb_true_iff.
  - cbn [pg_Counts ReportQueue rc_Unlinked rc_Resolved]. unfold count_summaries. apply inj_le, count_le. unfold reportUnlinked.
    intros x [[->%String.eqb_eq _]%andb_true_iff _]%andb_true_iff. done.
Qed.

(** An anomaly that no lane can re-run is not among the blocked reports,
    whichever of the statuses of its channel it has. *)
Example unsupported_anomaly_is_not_blocked r :
  In (an_Status r) [AnomalyStatusQueued; AnomalyStatusVerifying; AnomalyStatusVerified; AnomalyStatusUnsupported] -> reportBlocked (anomalySummary r) = false.
Proof.
  unfold reportBlocked, anomalySummary. cbn [sm_Verdict sm_Status]. intros [<-|[<-|[<-|[<-|[]]]]]; by rewrite andb_false_r.
Qed.

Lemma report_queue_is_exact_witness :
  let f := mkFilter "all" "open" "" 0 25 in
  exists rows : list ReportSummary,
    (forall x, In x rows -> (exists k r, st_csxIssues new_issue_store !! k = Some r /\ x = productSummary r) \/ (exists k r, rs_anomalies waiting_store !! k = Some r /\ x = anomalySummary r))
    /\ NoDup rows /\ pg_Total (@ReportQueue no_sort range_in_order f new_issue_store waiting_store) = Z.of_nat (length rows).
Proof.
  cbv zeta. destruct (report_queue_is_exact [] (mkFilter "all" "open" "" 0 25) waiting_store waiting_store_wf) as (rows & I & N & _ & _ & _ & Q).
  exists rows. split; [intros x Ix; by apply I in Ix as [Ix _]|]. split; [exact N|]. apply (Q no_sort range_in_order).
Defined.
