(* ===== verification/Receipts.v ===== *)
(** * Signed receipts (internal/httpapi/verifications.go, receiptobservation.go,
    internal/domain/types.go)

    What the server checks of a receipt before it stores it, the status the
    stored receipts give a sample, and the observations a receipt already
    proves.  A receipt is the value the closed decoder yields, so its strings
    are valid UTF-8; what the value cannot say of the document (a nil map, a
    present empty list) is kept beside it. *)

From stdpp Require Import gmap.
From S2P Require Import Prelude GoStrings GoUnicode GoStd StringFacts UnicodeFacts WordFacts Regexp Calendar Float Hash Json.
From S2P Require Import Purl Env Targets Failure Search Boundaries Anomaly Sanitizer Validate Candidate Measured Aggregate Jdk Footprint Identity Queue Images Cross.

#[local] Open Scope csx_scope.

(** ** The document *)

Record wire_receipt := mkWire {
  w_receipt : VerificationReceipt;
  w_nilStages : bool;
  w_hasResolved : bool;
  w_hasFailures : bool
}.

Definition omit_ptr (k : string) (o : option json) : list (string * json) := match o with Some v => [(k, v)] | None => [] end.

Definition failure_json (f : FailureEvidence) : json :=
  JObj (omit_str "terminationKind" (fe_TerminationKind f)
    ++ omit_ptr "exitCode" (option_map jint (fe_ExitCode f))
    ++ omit_str "signal" (fe_Signal f)
    ++ omit_int "timeoutMillis" (fe_TimeoutMillis f)
    ++ omit_str "errorSummary" (fe_ErrorSummary f)
    ++ omit_str "errorCode" (fe_ErrorCode f)
    ++ omit_str "fingerprint" (fe_Fingerprint f)
    ++ field "evidenceQuality" (JStr (fe_EvidenceQuality f))
    ++ omit_str "outerCommand" (fe_OuterCommand f)
    ++ omit_str "outerStage" (fe_OuterStage f)
    ++ omit_str "actualToolchain" (fe_ActualToolchain f)
    ++ omit_str "stageEvidence" (fe_StageEvidence f)
    ++ omit_str "evidenceGap" (fe_EvidenceGap f))%list.

Definition image_json (i : VerifierImage) : json :=
  JObj (field "reference" (JStr (vi_Reference i)) ++ field "digest" (JStr (vi_Digest i)))%list.

Definition receipt_json (nilStages : bool) (r : VerificationReceipt) : json :=
  JObj (field "schemaVersion" (jint (vr_SchemaVersion r))
    ++ field "sampleId" (JStr (vr_SampleID r))
    ++ field "caseId" (JStr (vr_CaseID r))
    ++ field "environmentHash" (JStr (vr_EnvironmentHash r))
    ++ field "environment" (env_json (vr_Environment r))
    ++ field "stages" (if nilStages then JNull else JObj (map (fun x => (fst x, JStr (snd x))) (map_to_list (vr_Stages r))))
    ++ (if decide (vr_StageFailures r = ∅) then [] else field "stageFailures" (JObj (map (fun x => (fst x, failure_json (snd x))) (map_to_list (vr_StageFailures r)))))
    ++ omit_strs "resolvedPackages" (vr_ResolvedPackages r)
    ++ omit_ptr "verifierImage" (option_map image_json (vr_VerifierImage r))
    ++ field "verifierAdapter" (JStr (vr_VerifierAdapter r))
    ++ field "sandboxCapability" (JStr (vr_SandboxCapability r))
    ++ field "logsDigest" (JStr (vr_LogsDigest r))
    ++ field "createdAt" (JStr (vr_CreatedAt r))
    ++ field "peerId" (JStr (vr_PeerID r))
    ++ field "peerPubkey" (JStr (vr_PeerPubkey r))
    ++ field "peerSignature" (JStr (vr_PeerSignature r)))%list.

Definition with_signature (sig : string) (r : VerificationReceipt) : VerificationReceipt :=
  mkReceipt (vr_SchemaVersion r) (vr_SampleID r) (vr_CaseID r) (vr_EnvironmentHash r) (vr_Environment r) (vr_Stages r) (vr_StageFailures r)
    (vr_ResolvedPackages r) (vr_VerifierImage r) (vr_VerifierAdapter r) (vr_SandboxCapability r) (vr_LogsDigest r) (vr_CreatedAt r)
    (vr_PeerID r) (vr_PeerPubkey r) sig.

Definition SigningBytes (w : wire_receipt) : string := CanonicalJSON (receipt_json (w_nilStages w) (with_signature "" (w_receipt w))).
Definition receipt_document (w : wire_receipt) : string := CanonicalJSON (receipt_json (w_nilStages w) (w_receipt w)).
Definition ReceiptID (w : wire_receipt) : string := SHA256Hex (receipt_document w).

(** ** What is refused *)

Inductive receipt_error :=
| NotAContainer
| NotAContainerOS
| HashMismatch
| ImageNotPinned
| ImageDigestMismatch
| FailuresInV1
| FailureWithoutFail (stage : string)
| ExitCodeRange (stage : string)
| InvalidTermination (stage : string)
| MismatchedTermination (stage : string)
| NotCanonicalEvidence (stage : string)
| InvalidLineage (stage : string) (e : batch_error)
| CompleteWithout (stage : string)
| PartialNotOne (stage : string)
| MissingWithReason (stage : string)
| InvalidQuality (stage : string)
| FingerprintMismatch (stage : string)
| ResolvedEmpty
| ResolvedWithoutPass
| EcosystemsDiffer
| ResolvedInvalid
| ResolvedNotCanonical
| ResolvedNotConcrete
| ResolvedForeign
| ResolvedDuplicate
| ResolvedUnsorted
| ResolvedUndeclared.

Definition receiptDescribesWhereItRan (r : VerificationReceipt) : option receipt_error :=
  let env := vr_Environment r in
  let container := String.eqb (vr_SandboxCapability r) CapContainerRun in
  refuse (container && negb (String.eqb (env_Virtualization env) "container")) NotAContainer andalso
  refuse (container && negb (String.eqb (env_OS env) "linux") && negb (String.eqb (env_OS env) "windows")) NotAContainerOS andalso
  refuse (has_text (vr_EnvironmentHash r) && negb (String.eqb (vr_EnvironmentHash r) (env_Hash env))) HashMismatch.

(** The group of [PinnedImageReference] is what follows the only [@]. *)
Definition pinned_digest (s : string) : option string :=
  if PinnedImageReference s then Some (let '(_, digest, _) := Cut s "@" in digest) else None.

Definition receiptVerifierImageIsPinned (r : VerificationReceipt) : option receipt_error :=
  match vr_VerifierImage r with
  | None => None
  | Some img =>
      match pinned_digest (vi_Reference img) with
      | None => Some ImageNotPinned
      | Some d => refuse (negb (String.eqb (vi_Digest img) d)) ImageDigestMismatch
      end
  end.

(** The fingerprint the evidence of a stage must carry. *)
Definition receipt_fingerprint (stage : string) (f : FailureEvidence) : string :=
  if has_text (fe_ActualToolchain f)
  then ClassifiedFailureFingerprint (ToUpper stage) (fe_ActualToolchain f) (fe_Termination f) (fe_ErrorCode f) (fe_ErrorSummary f)
  else FailureFingerprint (ToUpper stage) (fe_Termination f) (fe_ErrorCode f) (fe_ErrorSummary f).

Definition stage_failure_error (stages : gmap string string) (x : string * FailureEvidence) : option receipt_error :=
  let '(name, f) := x in
  let structured := Structured (fe_Termination f) in
  let hasSummary := has_text (fe_ErrorSummary f) in
  refuse (negb (String.eqb (stage stages name) ResultFail)) (FailureWithoutFail name) andalso
  refuse (match fe_ExitCode f with Some c => negb (is_some (CanonicalExitCode c)) | None => false end) (ExitCodeRange name) andalso
  refuse (has_text (fe_TerminationKind f) && negb structured) (InvalidTermination name) andalso
  refuse ((is_some (fe_ExitCode f) && negb (String.eqb (fe_TerminationKind f) TerminationExit))
          || (has_text (fe_Signal f) && negb (String.eqb (fe_TerminationKind f) TerminationSignal))
          || (negb (fe_TimeoutMillis f =? 0) && negb (String.eqb (fe_TerminationKind f) TerminationTimeout))
          || (fe_TimeoutMillis f <? 0)) (MismatchedTermination name) andalso
  refuse (negb (String.eqb (CanonicalPublicErrorSummary (fe_ErrorSummary f) (ToUpper name)) (fe_ErrorSummary f))
          || (512 <? str_len (fe_ErrorSummary f)) || (32 <? str_len (fe_Signal f)) || (64 <? str_len (fe_ErrorCode f)))
    (NotCanonicalEvidence name) andalso
  option_map (InvalidLineage name) (ValidateFailureLineage f) andalso
  (if String.eqb (fe_EvidenceQuality f) EvidenceComplete then refuse (negb structured || negb hasSummary) (CompleteWithout name)
   else if String.eqb (fe_EvidenceQuality f) EvidencePartial then refuse (Bool.eqb structured hasSummary) (PartialNotOne name)
   else if String.eqb (fe_EvidenceQuality f) EvidenceMissing
   then refuse (structured || hasSummary || has_text (fe_ErrorCode f) || has_text (fe_Fingerprint f)) (MissingWithReason name)
   else Some (InvalidQuality name)) andalso
  refuse (negb (String.eqb (fe_EvidenceQuality f) EvidenceMissing) && negb (String.eqb (fe_Fingerprint f) (receipt_fingerprint name f)))
    (FingerprintMismatch name).

Definition receiptFailureEvidenceIsSafe `{!GoMapRange} (w : wire_receipt) : option receipt_error :=
  let r := w_receipt w in
  refuse ((vr_SchemaVersion r =? 1) && w_hasFailures w) FailuresInV1 andalso
  first_refusal (stage_failure_error (vr_Stages r)) (range_order (map_to_list (vr_StageFailures r))).

(** The loop over the resolved packages; [prev] is the entry before. *)
Fixpoint resolved_loop (ecosystem : string) (prev : option string) (raws : list string) : result (list PURL) receipt_error :=
  match raws with
  | [] => Ok []
  | raw :: rest =>
      match ParsePURL raw with
      | Err _ => Err ResolvedInvalid
      | Ok p =>
          if negb (String.eqb (purl_String p) raw) then Err ResolvedNotCanonical
          else if negb (ConcreteResolvedVersion (purl_Version p)) then Err ResolvedNotConcrete
          else if negb (String.eqb (purl_Ecosystem p) ecosystem) then Err ResolvedForeign
          else if match prev with Some q => String.eqb raw q | None => false end then Err ResolvedDuplicate
          else if match prev with Some q => str_lt raw q | None => false end then Err ResolvedUnsorted
          else match resolved_loop ecosystem (Some raw) rest with Ok ps => Ok (p :: ps) | Err e => Err e end
      end
  end.

Definition declared_keys (m : SampleManifest) : list (string * string) :=
  flat_map (fun raw => match ParsePURL raw with Ok p => [(purl_Ecosystem p, purl_Name p)] | Err _ => [] end) (mf_Packages m).

Definition receiptResolvedPackagesMatchSample (w : wire_receipt) (m : SampleManifest) : option receipt_error :=
  let r := w_receipt w in
  if negb (w_hasResolved w) then None
  else
    let receiptEcosystem := ToLower (TrimSpace (env_Ecosystem (vr_Environment r))) in
    let manifestEcosystem := ToLower (TrimSpace (env_Ecosystem (mf_Environment m))) in
    refuse (Nat.eqb (length (vr_ResolvedPackages r)) 0) ResolvedEmpty andalso
    refuse (negb (String.eqb (stage (vr_Stages r) "resolve") ResultPass)) ResolvedWithoutPass andalso
    refuse (String.eqb receiptEcosystem "" || String.eqb manifestEcosystem "" || negb (String.eqb receiptEcosystem manifestEcosystem)) EcosystemsDiffer andalso
    match resolved_loop receiptEcosystem None (vr_ResolvedPackages r) with
    | Err e => Some e
    | Ok parsed =>
        refuse (negb (forallb (fun p => bool_decide ((purl_Ecosystem p, purl_Name p) ∈ declared_keys m)) parsed)) ResolvedUndeclared
    end.

(** ** What a job asked for *)

Fixpoint parts_agree (want got : list string) : bool :=
  match want, got with
  | [], _ => true
  | w :: want', g :: got' => String.eqb w g && parts_agree want' got'
  | _ :: _, [] => false
  end.

Definition versionSatisfies (want got : string) : bool :=
  let want := TrimSpace want in
  let got := TrimSpace got in
  if String.eqb want "" then true
  else if String.eqb want got then true
  else parts_agree (Split want ".") (Split got ".").

Definition asked (want got : string) : bool := String.eqb want "" || String.eqb want got.

Definition receiptMatchesRequirements (r : VerificationReceipt) (want : WorkerRequirements) : bool :=
  let env := env_Normalize (vr_Environment r) in
  asked (wr_SandboxCapability want) (vr_SandboxCapability r)
  && asked (wr_VerifierAdapter want) (vr_VerifierAdapter r)
  && negb (has_text (wr_OS want) && negb (EqualFold (wr_OS want) (env_OS env)))
  && asked (wr_Ecosystem want) (env_Ecosystem env) && asked (wr_Runtime want) (env_Runtime env)
  && asked (wr_ExecutionContext want) (env_ExecutionContext env) && asked (wr_BrowserFamily want) (env_BrowserFamily env)
  && asked (wr_Engine want) (env_Engine env)
  && versionSatisfies (wr_RuntimeVersion want) (env_RuntimeVersion env)
  && versionSatisfies (wr_BrowserMajor want) (env_BrowserMajor env)
  && versionSatisfies (wr_EngineVersion want) (env_EngineVersion env)
  && forallb (fun f => existsb (fun g => EqualFold (TrimSpace f) (TrimSpace g)) (env_Frameworks env)) (wr_Frameworks want).

Definition java_lines : list (string * Z) := [("8", 8); ("11", 11); ("17", 17); ("21", 21); ("25", 25)].
Definition java_line_of (s : string) : Z := match List.find (fun x => String.eqb (fst x) s) java_lines with Some x => snd x | None => 0 end.

Definition exactSupportedMatrixRequirements (want : WorkerRequirements) : bool :=
  String.eqb (wr_SandboxCapability want) CapContainerRun
  && str_in (wr_VerifierAdapter want) ["maven-java@1"; "gradle-java@1"]
  && String.eqb (wr_Ecosystem want) "maven" && String.eqb (wr_Runtime want) "java" && negb (java_line_of (wr_RuntimeVersion want) =? 0)
  && String.eqb (wr_ExecutionContext want) "java" && String.eqb (wr_BrowserFamily want) "" && String.eqb (wr_BrowserMajor want) ""
  && String.eqb (wr_Engine want) "" && String.eqb (wr_EngineVersion want) "" && Nat.eqb (length (wr_Frameworks want)) 0.

Definition matrixRequirementsMatchManifest (r : VerificationReceipt) (want : WorkerRequirements) (m : SampleManifest) : bool :=
  let env := env_Normalize (mf_Environment m) in
  if negb (String.eqb (mf_VerifierAdapter m) (wr_VerifierAdapter want)) || negb (String.eqb (env_Ecosystem env) (wr_Ecosystem want))
     || negb (String.eqb (env_Runtime env) (wr_Runtime want))
     || (has_text (env_ExecutionContext env) && negb (String.eqb (env_ExecutionContext env) (wr_ExecutionContext want)))
     || (has_text (env_Language env) && negb (String.eqb (env_Language env) "java")) then false
  else
    let target := if String.eqb (env_LanguageVersion env) "" then wr_RuntimeVersion want else env_LanguageVersion env in
    negb (java_line_of target =? 0) && (java_line_of target <=? java_line_of (wr_RuntimeVersion want))
    && String.eqb (env_LanguageVersion (env_Normalize (vr_Environment r))) target.

(** ** The status receipts give a sample *)

Definition stableWindow : Z := 30 * 24 * 3600 * 1000000000.

Definition majorSeg (v : string) : string := let '(b, _, _) := Cut v "." in b.

(** [runtimeLine] of search.go; [SplitN] with three parts. *)
Definition search_runtimeLine (runtime version : string) : string :=
  if String.eqb version "" then ""
  else if str_in (ToLower runtime) ["go"; "golang"; "python"; "elixir"; "dart"] then
    let '(a, rest, more) := Cut version "." in
    if more then a +:+ "." +:+ majorSeg rest else a
  else majorSeg version.

Definition describesAnEnvironment (e : EnvironmentFingerprint) : bool :=
  has_text (env_OS e) && has_text (env_Runtime e) && has_text (env_RuntimeVersion e).

Definition distinct_count (l : list string) : Z := Z.of_nat (size (list_to_set l : gset string)).

Definition spansContextBoundary (infos : list ReceiptInfo) : bool :=
  let envs := List.filter describesAnEnvironment (map ri_Env infos) in
  (2 <=? distinct_count (map env_OS envs))
  || (2 <=? distinct_count (map (fun e => env_Runtime e +:+ "@" +:+ search_runtimeLine (env_Runtime e) (env_RuntimeVersion e)) envs))
  || (2 <=? distinct_count (List.filter has_text (map env_BrowserFamily envs))).

Definition sampleRank (status : string) : Z :=
  if String.eqb status "STABLE" then 4 else if String.eqb status "MATRIX_PASS" then 3
  else if String.eqb status "CROSS_PASS" then 2 else if String.eqb status "PUBLISHED" then 1 else 0.

Definition passed (r : stored_receipt) : bool := String.eqb (rr_ContractResult (sr_row r)) ResultPass.
Definition peer_of (r : stored_receipt) : string := rr_PeerID (sr_row r).

(** The first peer to attest a pass, or to write a row. *)
Definition attesting_origin (rows : list stored_receipt) : string :=
  match List.find passed rows with
  | Some r => peer_of r
  | None => match rows with r :: _ => peer_of r | [] => "" end
  end.

Definition recent_fail (now : Z) (r : stored_receipt) : bool :=
  String.eqb (rr_ContractResult (sr_row r)) ResultFail
  && (is_zero_time (rr_CreatedAt (sr_row r)) || (now - rr_CreatedAt (sr_row r) <=? stableWindow)).

Definition sampleStatusFromReceipts (current : string) (rows : list stored_receipt) (now : Z) : string :=
  match rows with
  | [] => current
  | _ =>
      let origin := attesting_origin rows in
      let passes := List.filter passed rows in
      let crossPass := existsb (fun r => negb (String.eqb (peer_of r) origin)) passes in
      let infos := flat_map (fun r => match ParseReceiptRow (sr_doc r) (sr_row r) with Some i => [i] | None => [] end) passes in
      let recentFail := existsb (recent_fail now) rows in
      let '(status, rank) := if crossPass && (sampleRank current <? sampleRank "CROSS_PASS") then ("CROSS_PASS", sampleRank "CROSS_PASS") else (current, sampleRank current) in
      let '(status, rank) := if crossPass && spansContextBoundary infos && (rank <? sampleRank "MATRIX_PASS") then ("MATRIX_PASS", sampleRank "MATRIX_PASS") else (status, rank) in
      if (3 <=? distinct_count (map peer_of passes)) && negb recentFail && (rank <? sampleRank "STABLE") then "STABLE" else status
  end.

Definition RecomputeStatus (rows : list stored_receipt) (now : Z) : string := sampleStatusFromReceipts "PUBLISHED" rows now.

(** ** The observations a receipt proves (receiptobservation.go) *)

Definition receiptStageToObservation : list (string * string) :=
  [("resolve", "USED"); ("compile", "PROJECT_COMPILE"); ("load", "PROJECT_LOAD"); ("contract", "PROJECT_TEST")].

Definition receiptStageResult (verdict : string) : option string :=
  let v := ToUpper (TrimSpace verdict) in
  if String.eqb v "PASS" then Some ResultPass else if String.eqb v "FAIL" then Some ResultFail else None.

Definition receiptProjectBucket (sampleID : string) : string := SampleProjectBucket sampleID.

(** A batch of a receipt: everything else is empty. *)
Definition receipt_batch (epoch peer sampleID purl symbol confidence : string) (env : EnvironmentFingerprint) (stage result : string)
    (dependsOn : list string) (none : bool) : ObservationBatch :=
  mkBatch 1 epoch peer (receiptProjectBucket sampleID) purl symbol confidence env stage result 1 "" "" "" None "" 0 "" "" "" "" "" "" ""
    true [] dependsOn none.

Fixpoint receipt_symbols (seen : list string) (symbols : list string) : list string :=
  match symbols with
  | [] => []
  | s :: rest =>
      let s := TrimSpace s in
      if String.eqb s "" || str_in s seen then receipt_symbols seen rest else s :: receipt_symbols (s :: seen) rest
  end.

Definition receipt_children (resolved : list string) : list string :=
  firstn (Z.to_nat maxDependsOnPerBatch)
    (flat_map (fun k => match ParsePURL k with
                        | Ok p => if ConcreteResolvedVersion (purl_Version p) then [purl_String p] else []
                        | Err _ => [] end) (skipn 1 resolved)).

(** One stage of one resolved package. *)
Definition stage_observations (row : ReceiptRow) (doc : VerificationReceipt) (symbols : list string) (idx : nat) (purl : PURL) (x : string * string) :
    list ObservationBatch :=
  let '(name, st) := x in
  let env := env_Normalize (vr_Environment doc) in
  let epoch := format_day (rr_CreatedAt row) in
  let ran := match receiptStageResult (stage (vr_Stages doc) name) with
             | Some v => Some v
             | None => if String.eqb name "contract" && has_text (rr_ContractResult row) then receiptStageResult (rr_ContractResult row) else None
             end in
  match ran with
  | None => []
  | Some result =>
      let one := Nat.eqb (length (vr_ResolvedPackages doc)) 1 in
      let used := String.eqb st "USED" in
      receipt_batch epoch (rr_PeerID row) (rr_SampleID row) (purl_String purl) "" "UNKNOWN" env st result
        (if used && negb one && Nat.eqb idx 0 then receipt_children (vr_ResolvedPackages doc) else []) (used && one)
      :: (if String.eqb st "PROJECT_TEST" && Nat.eqb idx 0
          then map (fun sym => receipt_batch epoch (rr_PeerID row) (rr_SampleID row) (purl_String purl) sym "EXACT" env st result [] false)
                 (receipt_symbols [] symbols)
          else [])
  end.

Fixpoint package_observations `{!GoMapRange} (row : ReceiptRow) (doc : VerificationReceipt) (symbols : list string) (idx : nat) (raws : list string) :
    list ObservationBatch :=
  match raws with
  | [] => []
  | raw :: rest =>
      (match ParsePURL raw with
       | Ok p => if ConcreteResolvedVersion (purl_Version p)
                 then flat_map (stage_observations row doc symbols idx p) (range_order receiptStageToObservation) else []
       | Err _ => []
       end ++ package_observations row doc symbols (S idx) rest)%list
  end.

Definition ObservationsFromReceipt `{!GoMapRange} (r : stored_receipt) (symbols : list string) : list ObservationBatch :=
  match sr_doc r with
  | None => []
  | Some doc =>
      let row := sr_row r in
      let env := env_Normalize (vr_Environment doc) in
      if Nat.eqb (length (vr_ResolvedPackages doc)) 0 || String.eqb (rr_PeerID row) "" || String.eqb (rr_SampleID row) "" then []
      else if String.eqb (env_Ecosystem env) "" || String.eqb (env_OS env) "" || String.eqb (env_Arch env) "" then []
      else package_observations row doc symbols 0 (vr_ResolvedPackages doc)
  end.

(** ** The status is earned by independent reproduction *)

(** What receipts earn: by the number of peers whose runs passed, whether the
    passing runs span a boundary, and whether a failure is recent. *)
Definition earned (peers : Z) (spans recentFail : bool) : option string :=
  if (3 <=? peers) && negb recentFail then Some "STABLE"
  else if (2 <=? peers) && spans then Some "MATRIX_PASS"
  else if 2 <=? peers then Some "CROSS_PASS" else None.

Definition raised (current : string) (e : option string) : string :=
  match e with Some s => if sampleRank current <? sampleRank s then s else current | None => current end.

Definition passing_peers (rows : list stored_receipt) : Z := distinct_count (map peer_of (List.filter passed rows)).
Definition passing_infos (rows : list stored_receipt) : list ReceiptInfo :=
  flat_map (fun r => match ParseReceiptRow (sr_doc r) (sr_row r) with Some i => [i] | None => [] end) (List.filter passed rows).

Lemma distinct_two x l : In x l -> 2 <= distinct_count l <-> exists y, In y l /\ y <> x.
Proof.
  intros I. unfold distinct_count. set (S := list_to_set l : gset string).
  assert (M : forall y, y ∈ S <-> In y l) by (intros y; unfold S; by rewrite elem_of_list_to_set, list_elem_of_In).
  split.
  - intros L. destruct (decide (S ⊆ {[x]})) as [Q|Q].
    + exfalso. apply subseteq_size in Q. rewrite size_singleton in Q. lia.
    + apply not_set_Forall_Exists in Q; [|apply _]. destruct Q as (y & Iy & N). exists y. rewrite <- M. split; [done|]. set_solver.
  - intros (y & Iy & N). assert (Q : {[x; y]} ⊆ S) by (intros z; rewrite M; set_solver). apply subseteq_size in Q.
    rewrite size_union, !size_singleton in Q by set_solver. lia.
Qed.

Lemma cross_pass_two rows : existsb (fun r => negb (String.eqb (peer_of r) (attesting_origin rows))) (List.filter passed rows)
  = (2 <=? passing_peers rows).
Proof.
  unfold attesting_origin, passing_peers. destruct (List.find passed rows) as [r|] eqn:F.
  - apply find_some in F as [I P]. assert (Ir : In (peer_of r) (map peer_of (List.filter passed rows))) by (apply in_map, filter_In; done).
    apply eq_true_iff_eq. rewrite Z.leb_le, (distinct_two _ _ Ir), existsb_exists. split.
    + intros (x & Ix & N%negb_true_iff%String.eqb_neq). exists (peer_of x). split; [by apply in_map|done].
    + intros (y & Iy & N). apply in_map_iff in Iy as (x & <- & Ix). exists x. split; [done|]. by apply negb_true_iff, String.eqb_neq.
  - assert (E : List.filter passed rows = []).
    { destruct (List.filter passed rows) as [|y l] eqn:E; [done|]. assert (Iy : In y (List.filter passed rows)) by (rewrite E; by left).
      apply filter_In in Iy as [Iy Py]. by rewrite (find_none _ _ F y Iy) in Py. }
    by rewrite E.
Qed.

Lemma status_earned current rows now : sampleStatusFromReceipts current rows now
  = raised current (earned (passing_peers rows) (spansContextBoundary (passing_infos rows)) (existsb (recent_fail now) rows)).
Proof.
  destruct rows as [|r rows]; [done|]. set (rs := r :: rows). unfold sampleStatusFromReceipts. fold (passing_infos rs) (passing_peers rs).
  change (match rs with [] => current | _ :: _ => ?x end) with x.
  rewrite cross_pass_two. generalize (passing_peers rs) (spansContextBoundary (passing_infos rs)) (existsb (recent_fail now) rs). intros n sp rf.
  unfold earned, raised.
  assert (R : 0 <= sampleRank current <= 4) by (unfold sampleRank; repeat case_match; lia).
  destruct (Z.leb_spec 2 n), (Z.leb_spec 3 n), sp, rf; try lia; cbn [andb negb];
    change (sampleRank "STABLE") with 4; change (sampleRank "MATRIX_PASS") with 3; change (sampleRank "CROSS_PASS") with 2;
    destruct (Z.ltb_spec (sampleRank current) 2), (Z.ltb_spec (sampleRank current) 3), (Z.ltb_spec (sampleRank current) 4); try lia; done.
Qed.

Lemma distinct_perm l l' : Permutation l l' -> distinct_count l = distinct_count l'.
Proof. intros P. unfold distinct_count. do 2 f_equal. apply set_eq. intros x. by rewrite !elem_of_list_to_set, P. Qed.

Lemma existsb_perm {A} (p : A -> bool) l l' : Permutation l l' -> existsb p l = existsb p l'.
Proof.
  intros P. apply eq_true_iff_eq. rewrite !existsb_exists. split; intros (x & I & Q); exists x; (split; [|done]);
    [by rewrite <- (Permutation_in' eq_refl P)|by rewrite (Permutation_in' eq_refl P)].
Qed.

Lemma spans_perm infos infos' : Permutation infos infos' -> spansContextBoundary infos = spansContextBoundary infos'.
Proof.
  intros P. unfold spansContextBoundary. assert (Q := filter_perm describesAnEnvironment _ _ (Permutation_map ri_Env P)).
  rewrite (distinct_perm _ _ (Permutation_map env_OS Q)).
  rewrite (distinct_perm _ _ (Permutation_map (fun e => env_Runtime e +:+ "@" +:+ search_runtimeLine (env_Runtime e) (env_RuntimeVersion e)) Q)).
  by rewrite (distinct_perm _ _ (filter_perm has_text _ _ (Permutation_map env_BrowserFamily Q))).
Qed.

Lemma raised_rank current e : sampleRank current <= sampleRank (raised current e).
Proof. unfold raised. destruct e as [s|]; [|lia]. destruct (Z.ltb_spec (sampleRank current) (sampleRank s)); lia. Qed.

(** C19.  The status of a sample says how many peers reproduced it: two passing
    peers for CROSS_PASS, two of them across a context boundary for
    MATRIX_PASS, three and no recent failure for STABLE.  Who filed a receipt
    first, and in which order the store returns them, does not matter, and
    receipts only raise it. *)
Theorem status_counts_independent_peers current rows rows' now : Permutation rows rows' ->
  sampleStatusFromReceipts current rows now
    = raised current (earned (passing_peers rows) (spansContextBoundary (passing_infos rows)) (existsb (recent_fail now) rows))
  /\ sampleStatusFromReceipts current rows' now = sampleStatusFromReceipts current rows now
  /\ sampleRank current <= sampleRank (sampleStatusFromReceipts current rows now).
Proof.
  intros P. rewrite !status_earned. split; [done|]. split; [|apply raised_rank].
  assert (Q := filter_perm passed _ _ P). unfold passing_peers, passing_infos.
  rewrite (distinct_perm _ _ (Permutation_map peer_of Q)), (existsb_perm _ _ _ P). do 2 f_equal. symmetry. apply spans_perm. by apply Permutation_flat_map.
Qed.

Definition receipt_by (peer result : string) : stored_receipt :=
  mkStoredReceipt (mkReceiptRow ("sha256:" +:+ peer) "s" peer "" "" result 0) None.

(** A stranger's failing receipt filed first buys the author nothing. *)
Lemma status_counts_independent_peers_witness :
  sampleStatusFromReceipts "PUBLISHED" [receipt_by "stranger" "FAIL"; receipt_by "author" "PASS"] 0 = "PUBLISHED"
  /\ sampleStatusFromReceipts "PUBLISHED" [receipt_by "peer" "PASS"; receipt_by "author" "PASS"] 0
     = sampleStatusFromReceipts "PUBLISHED" [receipt_by "author" "PASS"; receipt_by "peer" "PASS"] 0
  /\ sampleStatusFromReceipts "PUBLISHED" [receipt_by "author" "PASS"; receipt_by "peer" "PASS"] 0 = "CROSS_PASS".
Proof.
  split; [vm_compute; reflexivity|]. split; [|vm_compute; reflexivity].
  refine (proj1 (proj2 (status_counts_independent_peers "PUBLISHED" [receipt_by "author" "PASS"; receipt_by "peer" "PASS"] [receipt_by "peer" "PASS"; receipt_by "author" "PASS"] 0 _))).
  apply perm_swap.
Defined.

(** ** What a receipt proves, the store accepts *)

Lemma lower_hex_bucket c : lower_hex c = true -> bucket_byte c = true.
Proof. unfold lower_hex, is_digit, bucket_byte. lia. Qed.

Lemma peer_bucket peer : validPeerID peer = true -> validBucket "anonId" peer = None.
Proof.
  unfold validPeerID, validBucket. intros [[L P]%andb_true_iff F]%andb_true_iff. apply Z.eqb_eq in L. apply String.eqb_eq in P.
  rewrite !andalso_None, !refuse_None. split; [|split].
  - apply String.eqb_neq. intros ->. by cbn in L.
  - lia.
  - apply negb_false_iff. rewrite <- (str_take_drop 8 peer), P, str_forall_app. apply andb_true_iff. split; [done|].
    eapply str_forall_impl; [|exact F]. apply lower_hex_bucket.
Qed.

Lemma sample_bucket id : validSHA256ID id = true -> validBucket "projectBucket" (receiptProjectBucket id) = None.
Proof.
  unfold validSHA256ID, receiptProjectBucket, SampleProjectBucket, TrimPrefix. destruct (CutPrefix id "sha256:") as [h|]; [|done].
  intros [L F]%andb_true_iff. apply Z.eqb_eq in L. unfold validBucket. rewrite !andalso_None, !refuse_None. split; [|split].
  - apply String.eqb_neq. intros ->. by cbn in L.
  - lia.
  - apply negb_false_iff. eapply str_forall_impl; [|exact F]. apply lower_hex_bucket.
Qed.

Lemma day_epoch t : plain_day (day_of t) -> validEpoch (format_day t) = None.
Proof. intros P. apply validEpoch_ok. exists (date_of_day (day_of t)). split; [by apply plain_day_date|done]. Qed.

Definition observed_stages : list string := map snd receiptStageToObservation.

(** One batch of a receipt is admitted when its parts are. *)
Lemma receipt_batch_admitted t peer sampleID p symbol confidence env st result deps none :
  plain_day (day_of t) -> validPeerID peer = true -> validSHA256ID sampleID = true ->
  ParsePURL (purl_String p) = Ok p -> In (purl_Ecosystem p) AllowedEcosystems ->
  str_len symbol <= 512 -> In confidence ["EXACT"; "UNKNOWN"] ->
  In st observed_stages -> In result [ResultPass; ResultFail] -> validEnv env = None ->
  (none = true -> deps = []) -> validDependsOn p deps = None ->
  let b := receipt_batch (format_day t) peer sampleID (purl_String p) symbol confidence env st result deps none in
  ValidateBatch (CanonicalizeObservationFailure b) = None.
Proof.
  intros D P S Q A L Cf St R E N Dp b. change (CanonicalizeObservationFailure b) with b. unfold b, ValidateBatch, receipt_batch.
  cbn [b_SchemaVersion b_Epoch b_AnonID b_ProjectBucket b_Package b_Symbol b_SymbolConfidence b_Environment b_Stage b_Result b_ObservationCount
       b_ErrorFingerprint b_ErrorCode b_Coresident b_DependsOn b_DependsOnNone].
  rewrite day_epoch, peer_bucket, sample_bucket, Q by done.
  assert (Ad : admitted_purl p = true) by (unfold admitted_purl, str_in; apply orb_true_iff; left; apply existsb_exists; exists (purl_Ecosystem p); by rewrite String.eqb_refl).
  rewrite Ad, E, Dp. assert (Ls : (512 <? str_len symbol) = false) by lia. rewrite Ls.
  assert (Nd : none && negb (Nat.eqb (length deps) 0) = false) by (destruct none; [by rewrite N|done]). rewrite Nd.
  unfold validFailureEvidence, is_cli. cbn [b_Package b_Result]. generalize (HasPrefix (purl_String p) "pkg:generic/cli/"). intros cli.
  destruct Cf as [<-|[<-|[]]]; destruct R as [<-|[<-|[]]]; destruct St as [<-|[<-|[<-|[<-|[]]]]]; destruct cli; reflexivity.
Qed.

(** Receipts whose observations are admitted: what the server checked of them,
    and the lengths the store bounds. *)
Record observable (r : stored_receipt) (doc : VerificationReceipt) (symbols : list string) : Prop := {
  ob_doc : sr_doc r = Some doc;
  ob_peer : validPeerID (rr_PeerID (sr_row r)) = true;
  ob_sample : validSHA256ID (rr_SampleID (sr_row r)) = true;
  ob_day : plain_day (day_of (rr_CreatedAt (sr_row r)));
  ob_env : env_SchemaVersion (vr_Environment doc) = 1;
  ob_resolved : exists ecosystem ps, In ecosystem AllowedEcosystems /\ resolved_loop ecosystem None (vr_ResolvedPackages doc) = Ok ps;
  ob_lengths : Forall (fun raw => str_len raw <= maxDependsOnBytes) (vr_ResolvedPackages doc);
  ob_symbols : Forall (fun s => str_len (TrimSpace s) <= 512) symbols
}.

(** An entry the loop accepted. *)
Definition canonical_entry (ecosystem raw : string) : Prop :=
  exists p, ParsePURL raw = Ok p /\ purl_String p = raw /\ ConcreteResolvedVersion (purl_Version p) = true /\ purl_Ecosystem p = ecosystem.

Lemma resolved_loop_entries ecosystem prev raws ps : resolved_loop ecosystem prev raws = Ok ps -> Forall (canonical_entry ecosystem) raws.
Proof.
  revert prev ps. induction raws as [|raw raws IH]; intros prev ps; [constructor|]. cbn [resolved_loop].
  destruct (ParsePURL raw) as [p|] eqn:P; [|done]. destruct (String.eqb_spec (purl_String p) raw) as [E|]; [|done]. cbn [negb].
  destruct (ConcreteResolvedVersion _) eqn:V; [|done]. cbn [negb]. destruct (String.eqb_spec (purl_Ecosystem p) ecosystem) as [Ec|]; [|done]. cbn [negb].
  destruct (match prev with Some q => String.eqb raw q | None => false end); [done|]. destruct (match prev with Some q => str_lt raw q | None => false end); [done|].
  destruct (resolved_loop ecosystem (Some raw) raws) as [ps'|] eqn:L; [|done]. intros _. constructor; [|by eapply IH]. by exists p.
Qed.

Lemma children_depend ecosystem p raws : purl_Ecosystem p = ecosystem -> Forall (canonical_entry ecosystem) raws ->
  Forall (fun raw => str_len raw <= maxDependsOnBytes) raws -> validDependsOn p (receipt_children raws) = None.
Proof.
  intros Ep F L. unfold validDependsOn, receipt_children. set (kids := flat_map _ _). rewrite andalso_None, refuse_None, first_refusal_None. split.
  { pose proof (firstn_le_length (Z.to_nat maxDependsOnPerBatch) kids). unfold maxDependsOnPerBatch in *. lia. }
  assert (K : Forall (fun raw => valid_edge p raw = None) kids).
  { apply List.Forall_forall. intros raw I. unfold kids in I. apply in_flat_map in I as (k & Ik & I).
    assert (Ir : In k raws) by (rewrite <- (firstn_skipn 1 raws); apply in_app_iff; by right).
    rewrite List.Forall_forall in F, L. destruct (F k Ir) as (q & Q & Qs & Qv & Qe). rewrite Q, Qv in I. destruct I as [<-|[]].
    unfold valid_edge. rewrite Qs, Q, Qe, Ep, String.eqb_refl, Qv. pose proof (L k Ir). cbn [negb]. destruct (Z.ltb_spec maxDependsOnBytes (str_len k)); [lia|done]. }
  apply List.Forall_forall. intros x I. rewrite List.Forall_forall in K. apply K. rewrite <- (firstn_skipn (Z.to_nat maxDependsOnPerBatch) kids). apply in_app_iff. by left.
Qed.

Lemma distinct_symbols_In seen symbols s : In s (receipt_symbols seen symbols) -> exists raw, In raw symbols /\ s = TrimSpace raw.
Proof.
  revert seen. induction symbols as [|x xs IH]; intros seen; [done|]. cbn [receipt_symbols]. destruct (_ || _).
  - intros (raw & I & E)%IH. exists raw. cbn. auto.
  - intros [<-|(raw & I & E)%IH]; [exists x; cbn; auto|exists raw; cbn; auto].
Qed.

Lemma normalized_env_valid e : env_SchemaVersion e = 1 -> let env := env_Normalize e in
  (String.eqb (env_Ecosystem env) "" || String.eqb (env_OS env) "" || String.eqb (env_Arch env) "") = false -> validEnv env = None.
Proof.
  intros V env N. unfold validEnv. rewrite N. assert (env_SchemaVersion env = 1) as ->; [|done].
  unfold env, env_Normalize, fill_engine, fill_context, clear_placeholders. repeat case_match; done.
Qed.

Lemma package_observations_In `{!GoMapRange} row doc symbols idx raws b : In b (package_observations row doc symbols idx raws) ->
  exists i raw p x, In raw raws /\ ParsePURL raw = Ok p /\ ConcreteResolvedVersion (purl_Version p) = true /\ In x receiptStageToObservation
    /\ In b (stage_observations row doc symbols i p x).
Proof.
  revert idx. induction raws as [|raw raws IH]; intros idx; [done|]. cbn [package_observations]. rewrite in_app_iff. intros [I|I].
  - destruct (ParsePURL raw) as [p|] eqn:P; [|done]. destruct (ConcreteResolvedVersion _) eqn:V; [|done]. apply in_flat_map in I as (x & Ix & I).
    rewrite <- (Permutation_in' eq_refl (range_order_perm _ _)) in Ix. exists idx, raw, p, x. cbn [In]. auto.
  - destruct (IH _ I) as (i & raw' & p & x & I1 & I2). exists i, raw', p, x. cbn [In]. auto.
Qed.

Lemma receiptStageResult_range v res : receiptStageResult v = Some res -> In res [ResultPass; ResultFail].
Proof. unfold receiptStageResult. repeat case_match; intros [= <-]; cbn; auto. Qed.

(** What the server derives from a receipt it accepted, the store accepts
    too: every observation of an observable receipt passes the checks of the
    ingest path, whatever order the stages are visited in. *)
Theorem receipt_observations_admitted `{!GoMapRange} r doc symbols : observable r doc symbols ->
  Forall (fun b => ValidateBatch (CanonicalizeObservationFailure b) = None) (ObservationsFromReceipt r symbols).
Proof.
  intros [Od Op Os Oy Oe (eco & ps & Ae & Lp) Ol Osy]. apply List.Forall_forall. intros b. unfold ObservationsFromReceipt. rewrite Od.
  destruct (_ || _ || _); [done|]. destruct (String.eqb (env_Ecosystem _) "" || _ || _) eqn:En; [done|].
  intros (i & raw & p & [name st] & Ir & P & V & Ix & I)%package_observations_In. apply resolved_loop_entries in Lp as Fc.
  rewrite List.Forall_forall in Fc. destruct (Fc raw Ir) as (p' & P' & Ps & _ & Pe). rewrite P in P'. injection P' as <-.
  assert (Pr : ParsePURL (purl_String p) = Ok p) by congruence. assert (Pa : In (purl_Ecosystem p) AllowedEcosystems) by congruence.
  pose proof (normalized_env_valid _ Oe En) as Ve. assert (St : In st observed_stages) by (apply (in_map snd _ _ Ix)).
  unfold stage_observations in I. set (ran := match receiptStageResult _ with Some _ => _ | None => _ end) in I. destruct ran as [res|] eqn:Er; [|done].
  assert (Rr : In res [ResultPass; ResultFail]).
  { unfold ran in Er. destruct (receiptStageResult (stage _ name)) as [v|] eqn:Q; [injection Er as <-; by apply receiptStageResult_range in Q|].
    destruct (_ && _); [by apply receiptStageResult_range in Er|done]. }
  destruct I as [<-|I].
  - apply receipt_batch_admitted; try done; [cbn; auto|..].
    + intros [_ ->]%andb_true_iff. cbn [negb]. by rewrite andb_false_r.
    + destruct (String.eqb st "USED" && _ && _); [eapply children_depend; [exact Pe|by apply List.Forall_forall|done]|done].
  - destruct (String.eqb st "PROJECT_TEST" && _); [|done]. apply in_map_iff in I as (sym & <- & I). apply distinct_symbols_In in I as (raw' & I & ->).
    rewrite List.Forall_forall in Osy. apply receipt_batch_admitted; try done; [by apply Osy|cbn; auto].
Qed.

(** The row the endpoint converts has no time yet: its observations are filed
    under the first day of the calendar. *)
Lemma undated_observations `{!GoMapRange} r symbols : rr_CreatedAt (sr_row r) = zero_time ->
  Forall (fun b => b_Epoch b = "0001-01-01") (ObservationsFromReceipt r symbols).
Proof.
  intros Z0. apply List.Forall_forall. intros b. unfold ObservationsFromReceipt. destruct (sr_doc r) as [doc|]; [|done]. destruct (_ || _ || _); [done|].
  destruct (_ || _ || _); [done|]. intros (i & raw & p & [name st] & _ & _ & _ & _ & I)%package_observations_In. unfold stage_observations in I.
  rewrite Z0 in I. destruct (match receiptStageResult _ with Some _ => _ | None => _ end); [|done]. destruct I as [<-|I]; [vm_compute; reflexivity|].
  destruct (_ && _); [|done]. apply in_map_iff in I as (sym & <- & _). vm_compute. reflexivity.
Qed.

Definition observable_doc : VerificationReceipt :=
  mkReceipt 2 "" "" "" env_linux {[ "resolve" := "PASS"; "contract" := "FAIL" ]} ∅ ["pkg:npm/axios@1.7.9"; "pkg:npm/qs@6.11.0"] None "" "" "" "" "" "" "".
Definition observable_receipt : stored_receipt :=
  mkStoredReceipt (mkReceiptRow "" ("sha256:" +:+ sha256_hex "sample") "ed25519:0123456789abcdef" "" "" "FAIL" 0) (Some observable_doc).

Lemma observable_receipt_ok : observable observable_receipt observable_doc ["axios.get"; " axios.get"; "axios.post"].
Proof.
  split; [reflexivity|vm_compute; reflexivity|vm_compute; reflexivity|vm_compute; split; discriminate|reflexivity| |repeat constructor; vm_compute; discriminate..].
  exists "npm", [mkPURL "npm" "axios" "1.7.9"; mkPURL "npm" "qs" "6.11.0"]. split; [cbn; auto|vm_compute; reflexivity].
Qed.

Lemma receipt_observations_admitted_witness :
  length (@ObservationsFromReceipt range_in_order observable_receipt ["axios.get"; " axios.get"; "axios.post"]) = 6%nat
  /\ Forall (fun b => ValidateBatch (CanonicalizeObservationFailure b) = None) (@ObservationsFromReceipt range_in_order observable_receipt ["axios.get"; " axios.get"; "axios.post"]).
Proof. split; [vm_compute; reflexivity|]. exact (@receipt_observations_admitted range_in_order _ _ _ observable_receipt_ok). Defined.
