(* ===== verification/Verification.v ===== *)
(** * The verification endpoints (internal/httpapi/verifications.go)

    A verifier lists the jobs it may do, claims one, and posts the receipt it
    signed; the server checks the receipt, stores it, closes the job, files
    what the run proved as observations, recomputes the status of the sample,
    queues the next attempt and answers the reports that were waiting.  The
    stores a request goes through are one state; a request reads the clock
    once, and the store's own failures (the 5xx paths of a database) are not
    modelled. *)

From stdpp Require Import gmap.
From S2P Require Import Prelude GoStrings GoUnicode GoStd StringFacts UnicodeFacts WordFacts Regexp Calendar Float Hash Json.
From S2P Require Import Purl Env Targets Failure Search Boundaries Anomaly Sanitizer Validate Merge Candidate Measured Aggregate Jdk Footprint Ingest Evidence.
From S2P Require Import Identity Queue Images Cross Reports Receipts.

#[local] Open Scope csx_scope.

(** ** State *)

Record server := mkServer { sv_queue : verify_store; sv_ingest : ingest_store; sv_reports : report_store }.

Inductive verification_error :=
| ResolvedInV1
| ImageInV1
| ResolvedPresentEmpty
| BadReceiptSchema
| ReceiptFieldsMissing
| BadSignature
| PeerMismatch
| ReceiptRefused (e : receipt_error)
| UnknownVerifiedSample
| StoredManifestInvalid
| BadJobID
| JobNotFound
| JobMismatch
| JobEnvironmentMismatch
| MatrixWithoutEnvironment
| ClaimExpired
| ReloadFailed.

(** The answer of an accepted receipt: the status the sample now has. *)
Definition answer : Type := result string verification_error.

(** ** Jobs offered to a verifier *)

Record jobOut := mkJobOut { jo_ID : Z; jo_SampleID : string; jo_Reason : string; jo_WantEnv : option WorkerRequirements }.

Definition job_out (j : JobRow) : jobOut := mkJobOut (j_ID j) (j_SampleID j) (j_Reason j) (j_WantEnv j).

Definition jobs_page_size : Z := 100.

(** What one page adds to the answer: the jobs whose blob is there, up to the
    limit. *)
Fixpoint take_jobs (has : string -> bool) (limit : Z) (out : list jobOut) (jobs : list JobRow) : list jobOut :=
  match jobs with
  | [] => out
  | j :: jobs' =>
      if negb (has (j_SampleID j)) then take_jobs has limit out jobs'
      else
        let out := (out ++ [job_out j])%list in
        if limit <=? Z.of_nat (length out) then out else take_jobs has limit out jobs'
  end.

(** [has] is false of every sample when the server keeps no blobs.  The loop
    over pages; [fuel] bounds their number. *)
Fixpoint list_pages (fuel : nat) (has : string -> bool) (page : Z -> list JobRow) (limit offset : Z) (out : list jobOut) : list jobOut :=
  match fuel with
  | O => out
  | S fuel' =>
      if negb (Z.of_nat (length out) <? limit) then out
      else
        let jobs := page offset in
        let out := take_jobs has limit out jobs in
        let offset := offset + Z.of_nat (length jobs) in
        if Z.of_nat (length jobs) <? jobs_page_size then out else list_pages fuel' has page limit offset out
  end.

(** The limit of the query: ten, or what it asks up to a hundred. *)
Definition jobs_limit (v : string) : Z :=
  if String.eqb v "" then 10 else let '(n, ok) := Atoi v in if ok && (0 <? n) && (n <=? 100) then n else 10.

(** One page more than the jobs fill is enough. *)
Definition pages_fuel (st : verify_store) : nat := S (length (vs_jobs st)).

(** [None]: a reason that is neither. *)
Definition handleJobsList (now : Z) (has : string -> bool) (capability peerID reason containerOs limit : string) (st : verify_store) : option (list jobOut) :=
  if negb (String.eqb reason "") && negb (String.eqb reason "cross") && negb (String.eqb reason "matrix") then None
  else
    let page offset := OpenJobsPage now capability peerID reason containerOs jobs_page_size offset st in
    Some (list_pages (pages_fuel st) has page (jobs_limit limit) 0 []).

(** ** Claims *)

Inductive claim_answer := BadClaimID | BadPeerID | ClaimRefused | Claimed (id : Z).

Section server.
  Context `{!GoSort, !GoMapRange, !Ed25519}.

Definition handleJobClaim (now : Z) (rawID peerID : string) (sv : server) : server * claim_answer :=
  let '(id, ok) := Atoi rawID in
  if negb ok then (sv, BadClaimID)
  else if negb (validPeerID peerID) then (sv, BadPeerID)
  else
    let '(q, claimed) := ClaimJob now id peerID (sv_queue sv) in
    if negb claimed then (sv, ClaimRefused)
    else (mkServer q (sv_ingest sv) (markAnomalyReportsVerifying id q (sv_reports sv)), Claimed id).

(** ** Receipts *)

(** What is checked before any store is read. *)
Definition wire_refusal (w : wire_receipt) : option verification_error :=
  let r := w_receipt w in
  (if vr_SchemaVersion r =? 1 then
     refuse (w_hasResolved w) ResolvedInV1 andalso refuse (is_some (vr_VerifierImage r)) ImageInV1
   else if vr_SchemaVersion r =? 2 then
     refuse (w_hasResolved w && Nat.eqb (length (vr_ResolvedPackages r)) 0) ResolvedPresentEmpty
   else Some BadReceiptSchema) andalso
  refuse (negb (has_text (vr_SampleID r) && has_text (vr_PeerID r) && has_text (vr_PeerPubkey r) && has_text (vr_PeerSignature r)))
    ReceiptFieldsMissing andalso
  refuse (negb (Verify (vr_PeerPubkey r) (vr_PeerSignature r) (SigningBytes w))) BadSignature andalso
  refuse (negb (String.eqb (derivePeerID (vr_PeerPubkey r)) (vr_PeerID r))) PeerMismatch andalso
  option_map ReceiptRefused (receiptDescribesWhereItRan r) andalso
  option_map ReceiptRefused (receiptVerifierImageIsPinned r) andalso
  option_map ReceiptRefused (receiptFailureEvidenceIsSafe w).

(** Whether a receipt may answer the job it names; 0 for no job.  Stored
    requirements decode: the server wrote them. *)
Definition job_refusal (header : string) (r : VerificationReceipt) (m : SampleManifest) (q : verify_store) : result Z verification_error :=
  let raw := TrimSpace header in
  if String.eqb raw "" then Ok 0
  else
    let '(id, ok) := Atoi raw in
    if negb ok || (id <=? 0) then Err BadJobID
    else match Job id q with
    | None => Err JobNotFound
    | Some job =>
        if negb (String.eqb (j_Status job) "claimed") || negb (String.eqb (j_ClaimedBy job) (vr_PeerID r))
           || negb (String.eqb (j_SampleID job) (vr_SampleID r))
           || (negb (String.eqb (j_Reason job) "cross") && negb (String.eqb (j_Reason job) "matrix")) then Err JobMismatch
        else match j_WantEnv job with
        | Some want =>
            if (String.eqb (j_Reason job) "matrix" && (negb (exactSupportedMatrixRequirements want) || negb (matrixRequirementsMatchManifest r want m)))
               || negb (receiptMatchesRequirements r want) then Err JobEnvironmentMismatch else Ok id
        | None => if String.eqb (j_Reason job) "matrix" then Err MatrixWithoutEnvironment else Ok id
        end
    end.

(** The row the endpoint builds; the store dates it when it saves it. *)
Definition receipt_row (w : wire_receipt) : stored_receipt :=
  let r := w_receipt w in
  mkStoredReceipt (mkReceiptRow (ReceiptID w) (vr_SampleID r) (vr_PeerID r) (vr_EnvironmentHash r) (receipt_document w)
                     (stage (vr_Stages r) "contract") zero_time) (Some r).

(** Saving: the queue afterwards and the sample as the status rules see it. *)
Definition save_receipt (now : Z) (w : wire_receipt) (jobID : Z) (sample : stored_sample) (q : verify_store) :
    result (verify_store * stored_sample) (verify_store * verification_error) :=
  let row := receipt_row w in
  let r := w_receipt w in
  if negb (jobID =? 0) then
    let '(q', accepted) := SaveReceiptForJob now row jobID q in
    if negb accepted then Err (q', ClaimExpired)
    else match GetSample (vr_SampleID r) q' with
    | None => Err (q', ReloadFailed)
    | Some s => Ok (q', s)
    end
  else Ok (CompleteJobsForSample (vr_SampleID r) (vr_PeerID r) (SaveReceipt now row q), sample).

(** After the receipt is stored: the observations, the status, the next
    attempt and the reports. *)
Definition after_receipt (now : Z) (w : wire_receipt) (jobID : Z) (m : SampleManifest) (sample : stored_sample) (q : verify_store) (sv : server) :
    server * string :=
  let r := w_receipt w in
  let ingest := fst (IngestBatches (fun _ => now) (sv_ingest sv) (ObservationsFromReceipt (receipt_row w) (mf_Symbols m))) in
  let receipts := ReceiptsForSample (vr_SampleID r) q in
  let status := sm_Status (ss_row sample) in
  let newStatus := sampleStatusFromReceipts status receipts now in
  let q := if String.eqb newStatus status then q else default q (SetSampleStatus (vr_SampleID r) newStatus q) in
  let q := if negb (jobID =? 0) && (sampleRank newStatus <? sampleRank "CROSS_PASS")
           then if crossWorkIsOutOfTime receipts then recordCrossWorkOutOfTime now (vr_SampleID r) m q
                else requeueCrossVerification now (vr_SampleID r) (stage (vr_Stages r) "contract") q
           else q in
  (mkServer q ingest (resolveAnomalyReports now r q (sv_reports sv)), newStatus).

Definition handleVerification (now : Z) (header : string) (w : wire_receipt) (sv : server) : server * answer :=
  let r := w_receipt w in
  match wire_refusal w with
  | Some e => (sv, Err e)
  | None =>
      match GetSample (vr_SampleID r) (sv_queue sv) with
      | None => (sv, Err UnknownVerifiedSample)
      | Some sample =>
          match ss_manifest sample with
          | None => (sv, Err StoredManifestInvalid)
          | Some m =>
              match (if vr_SchemaVersion r =? 2 then receiptResolvedPackagesMatchSample w m else None) with
              | Some e => (sv, Err (ReceiptRefused e))
              | None =>
                  match job_refusal header r m (sv_queue sv) with
                  | Err e => (sv, Err e)
                  | Ok jobID =>
                      match save_receipt now w jobID sample (sv_queue sv) with
                      | Err (q, e) => (mkServer q (sv_ingest sv) (sv_reports sv), Err e)
                      | Ok (q, sample) => let '(sv', status) := after_receipt now w jobID m sample q sv in (sv', Ok status)
                      end
                  end
              end
          end
      end
  end.
End server.

(** ** The listing *)

Definition with_blob (has : string -> bool) (j : JobRow) : bool := has (j_SampleID j).

Lemma take_jobs_eq has limit out jobs : Z.of_nat (length out) < limit ->
  take_jobs has limit out jobs = (out ++ map job_out (firstn (Z.to_nat limit - length out) (List.filter (with_blob has) jobs)))%list.
Proof.
  revert out. induction jobs as [|j jobs IH]; intros out L; cbn [take_jobs List.filter].
  { by rewrite firstn_nil, app_nil_r. }
  unfold with_blob at 1. destruct (has (j_SampleID j)); cbn [negb]; [|by apply IH].
  assert (Ln : length (out ++ [job_out j])%list = S (length out)) by (rewrite length_app; cbn; lia). rewrite Ln.
  destruct (Z.leb_spec limit (Z.of_nat (S (length out)))).
  - replace (Z.to_nat limit - length out)%nat with 1%nat by lia. cbn. done.
  - rewrite IH by (rewrite Ln; lia). rewrite Ln, <- app_assoc. replace (Z.to_nat limit - length out)%nat with (S (Z.to_nat limit - S (length out))) by lia. done.
Qed.

(** Pages of a hundred over a list, [offset] entries already seen. *)
Lemma list_pages_eq fuel has (open : list JobRow) limit offset :
  let page o := firstn 100 (skipn (Z.to_nat o) open) in
  let seen := map job_out (firstn (Z.to_nat limit) (List.filter (with_blob has) (firstn (Z.to_nat offset) open))) in
  0 <= offset -> (length open < fuel + Z.to_nat offset)%nat ->
  list_pages fuel has page limit offset seen = map job_out (firstn (Z.to_nat limit) (List.filter (with_blob has) open)).
Proof.
  intros page. revert offset. induction fuel as [|fuel IH]; intros offset seen O F; cbn [list_pages].
  { unfold seen. by rewrite (firstn_all2 open) by lia. }
  pose proof (filter_app (with_blob has) (firstn (Z.to_nat offset) open) (skipn (Z.to_nat offset) open)) as Fa. rewrite firstn_skipn in Fa.
  set (a := List.filter (with_blob has) (firstn (Z.to_nat offset) open)) in *.
  destruct (Z.ltb_spec (Z.of_nat (length seen)) limit) as [L|L]; cbn [negb].
  - assert (Ea : seen = map job_out a).
    { unfold seen. rewrite firstn_all2; [done|]. unfold seen in L. rewrite length_map, length_firstn in L. lia. }
    assert (La : length seen = length a) by (by rewrite Ea, length_map).
    rewrite take_jobs_eq by done.
    assert (Next : (seen ++ map job_out (firstn (Z.to_nat limit - length seen) (List.filter (with_blob has) (page offset))))%list
      = map job_out (firstn (Z.to_nat limit) (List.filter (with_blob has) (firstn (Z.to_nat (offset + Z.of_nat (length (page offset)))) open)))).
    { assert (Ep : firstn (Z.to_nat (offset + Z.of_nat (length (page offset)))) open = (firstn (Z.to_nat offset) open ++ page offset)%list).
      { unfold page. rewrite length_firstn, length_skipn. set (n := Z.to_nat offset). replace (Z.to_nat (offset + _)) with (n + Nat.min 100 (length open - n))%nat by lia.
        rewrite take_take_drop. destruct (Nat.le_gt_cases 100 (length open - n)); [by rewrite Nat.min_l by lia|]. rewrite !take_ge by lia. done. }
      rewrite Ep, filter_app. fold a. rewrite firstn_app, map_app. rewrite La, Ea. f_equal. rewrite firstn_all2; [done|]. lia. }
    rewrite Next. destruct (Z.ltb_spec (Z.of_nat (length (page offset))) jobs_page_size) as [S|S].
    + unfold page in S |- *. unfold jobs_page_size in S. rewrite length_firstn, length_skipn in S. do 3 f_equal. apply firstn_all2.
      rewrite length_firstn, length_skipn. lia.
    + apply IH; [lia|]. unfold page. unfold jobs_page_size in S. unfold page in S. lia.
  - unfold seen in *. rewrite Fa, firstn_app. rewrite length_map, length_firstn in L.
    replace (Z.to_nat limit - length a)%nat with 0%nat by lia. cbn. by rewrite app_nil_r.
Qed.


(** ** What a posted receipt does *)

Definition keeps_records (q q' : verify_store) : Prop := vs_samples q' = vs_samples q /\ vs_receipts q' = vs_receipts q.

Lemma ensure_keeps now j q q' id : EnsureCrossJob now j q = Some (q', id) -> keeps_records q q'.
Proof. unfold EnsureCrossJob. destruct (_ || _); [done|]. destruct (List.find _ _); intros [= <- _]; done. Qed.

Lemma queue_cross_keeps now id q q' : queueCrossVerificationOn now id q = Some q' -> keeps_records q q'.
Proof.
  unfold queueCrossVerificationOn. assert (En : forall m q', (if existsb queued_already (JobsForSample id q) then Some q
    else option_map fst (EnsureCrossJob now (crossJobFor id m) q)) = Some q' -> keeps_records q q').
  { intros m x. destruct (existsb _ _); [by intros [= <-]|]. destruct (EnsureCrossJob now _ q) as [[y i]|] eqn:E; [|done]. intros [= <-]. by eapply ensure_keeps. }
  destruct (GetSample id q) as [row|]; [|apply En]. destruct (verified_name _); [by intros [= <-]|]. destruct (ss_manifest row); [apply En|done].
Qed.

Lemma out_of_time_keeps now id m q : keeps_records q (recordCrossWorkOutOfTime now id m q).
Proof. unfold recordCrossWorkOutOfTime. destruct (EnsureCrossJob _ _ q) as [[q' i]|] eqn:E; [by eapply ensure_keeps|done]. Qed.

Lemma requeue_keeps now id c q : keeps_records q (requeueCrossVerification now id c q).
Proof.
  unfold requeueCrossVerification. destruct (negb _); [done|]. destruct (crossAttemptsSpent _ _); [done|].
  destruct (queueCrossVerificationOn _ _ _) as [q'|] eqn:E; [by eapply queue_cross_keeps|done].
Qed.

Lemma has_receipt_appended now r q : has_receipt (rr_ReceiptID (sr_row r)) (receipts_of (rr_SampleID (sr_row r)) (append_receipt now r q)) = true.
Proof.
  rewrite receipts_append, String.eqb_refl. unfold has_receipt. rewrite existsb_app. cbn. unfold stamped.
  destruct (is_zero_time _); cbn; by rewrite String.eqb_refl, orb_true_r.
Qed.

Lemma has_receipt_saved now r q : has_receipt (rr_ReceiptID (sr_row r)) (receipts_of (rr_SampleID (sr_row r)) (SaveReceipt now r q)) = true.
Proof. unfold SaveReceipt. destruct (has_receipt _ (receipts_of _ q)) eqn:R; [done|apply has_receipt_appended]. Qed.

Lemma save_for_job_refused now r id q q' : SaveReceiptForJob now r id q = (q', false) -> q' = q.
Proof.
  unfold SaveReceiptForJob. destruct (Job id q); [|by intros [= <-]]. destruct (negb _); [by intros [= <-]|]. destruct (has_receipt _ _); [by intros [= <-]|done].
Qed.

(** Saving for a job changes at most the sample it is about. *)
Lemma save_for_job_samples now r id q q' ok x : SaveReceiptForJob now r id q = (q', ok) ->
  (x <> rr_SampleID (sr_row r) -> vs_samples q' !! x = vs_samples q !! x)
  /\ (is_Some (vs_samples q !! x) -> is_Some (vs_samples q' !! x)).
Proof.
  intros E. destruct ok; [|by apply save_for_job_refused in E as ->]. revert E. unfold SaveReceiptForJob. destruct (Job id q) as [j|]; [|done].
  destruct (negb _); [done|]. destruct (has_receipt _ _); [done|]. intros [= <-]. destruct (_ && _); [|by destruct (_ && _)].
  unfold release_draft. cbn. destruct (vs_samples q !! rr_SampleID (sr_row r)) as [s|] eqn:L; [|done]. destruct (_ && _); [|done]. cbn. split.
  - intros N. by rewrite lookup_insert_ne by congruence.
  - intros S. rewrite lookup_insert. by case_decide.
Qed.

Section outcome.
  Context `{!GoSort, !GoMapRange, !Ed25519}.

Lemma save_receipt_cases now w id sample q : GetSample (vr_SampleID (w_receipt w)) q = Some sample ->
  match save_receipt now w id sample q with
  | Err (q', _) => q' = q
  | Ok (q', s) =>
      GetSample (vr_SampleID (w_receipt w)) q' = Some s
      /\ has_receipt (ReceiptID w) (receipts_of (vr_SampleID (w_receipt w)) q') = true
      /\ (forall x, exists extra, receipts_of x q' = (receipts_of x q ++ extra)%list)
      /\ (forall x, x <> vr_SampleID (w_receipt w) -> vs_samples q' !! x = vs_samples q !! x)
  end.
Proof.
  intros G. unfold save_receipt. destruct (id =? 0); cbn [negb].
  - assert (Sm : vs_samples (CompleteJobsForSample (vr_SampleID (w_receipt w)) (vr_PeerID (w_receipt w)) (SaveReceipt now (receipt_row w) q)) = vs_samples q).
    { cbn. unfold SaveReceipt. by destruct (has_receipt _ _). }
    split; [unfold GetSample; by rewrite Sm|]. split; [apply (has_receipt_saved now (receipt_row w) q)|]. split; [|intros x _; by rewrite Sm].
    intros x. destruct (receipts_grow now (OpReceipt (receipt_row w)) q x) as [extra E]. exists extra. exact E.
  - destruct (SaveReceiptForJob now (receipt_row w) id q) as [q' []] eqn:E; cbn [negb].
    + destruct (save_for_job_samples _ _ _ _ _ _ (vr_SampleID (w_receipt w)) E) as [_ K]. unfold GetSample in *. rewrite G in K.
      destruct (vs_samples q' !! vr_SampleID (w_receipt w)) as [s|] eqn:Ls; [|by destruct (K (mk_is_Some _ _ eq_refl))].
      split; [done|]. split; [|split].
      * apply receipt_for_job_true in E as (_ & _ & _ & _ & _ & _ & R). unfold receipts_of. rewrite R. exact (has_receipt_appended now (receipt_row w) q).
      * intros x. destruct (receipts_grow now (OpReceiptForJob (receipt_row w) id) q x) as [extra Ex]. cbn [queue_step] in Ex. rewrite E in Ex. by exists extra.
      * intros x N. by apply (save_for_job_samples _ _ _ _ _ _ x E).
    + by apply save_for_job_refused in E.
Qed.

Lemma after_receipt_queue now w id m sample q sv : GetSample (vr_SampleID (w_receipt w)) q = Some sample ->
  let '(sv', status) := after_receipt now w id m sample q sv in
  vs_receipts (sv_queue sv') = vs_receipts q
  /\ (forall x, x <> vr_SampleID (w_receipt w) -> vs_samples (sv_queue sv') !! x = vs_samples q !! x)
  /\ status = sampleStatusFromReceipts (sm_Status (ss_row sample)) (receipts_of (vr_SampleID (w_receipt w)) q) now
  /\ exists s, GetSample (vr_SampleID (w_receipt w)) (sv_queue sv') = Some s /\ sm_Status (ss_row s) = status.
Proof.
  intros G. unfold after_receipt, ReceiptsForSample. set (sid := vr_SampleID (w_receipt w)). set (old := sm_Status (ss_row sample)). set (new := sampleStatusFromReceipts old (receipts_of sid q) now).
  set (q1 := if String.eqb new old then q else _).
  assert (K1 : vs_receipts q1 = vs_receipts q /\ (forall x, x <> sid -> vs_samples q1 !! x = vs_samples q !! x)
               /\ exists s, vs_samples q1 !! sid = Some s /\ sm_Status (ss_row s) = new).
  { unfold q1. destruct (String.eqb_spec new old) as [E|]; [by split; [|split; [|exists sample]]|]. unfold SetSampleStatus. unfold GetSample in G. fold sid in G. rewrite G. cbn.
    split; [done|]. split; [intros x N; by rewrite lookup_insert_ne by congruence|]. eexists. rewrite lookup_insert_eq. split; [done|]. done. }
  set (q2 := if negb (id =? 0) && _ then _ else _).
  assert (K2 : keeps_records q1 q2).
  { unfold q2. destruct (_ && _); [|done]. destruct (crossWorkIsOutOfTime _); [apply out_of_time_keeps|apply requeue_keeps]. }
  destruct K1 as (R1 & S1 & s & L & St), K2 as [S2 R2]. cbn [sv_queue]. unfold GetSample. rewrite R2, S2. split; [done|]. split; [done|]. split; [done|]. eauto.
Qed.

End outcome.

(** ** Where the pieces do not fit *)

(** The row the endpoint converts into observations is the one it built, not
    the one the store dated: what a receipt proves is filed under the first
    day of the calendar. *)
Lemma observations_filed_in_year_one `{!GoMapRange} w symbols :
  Forall (fun b => b_Epoch b = "0001-01-01") (ObservationsFromReceipt (receipt_row w) symbols).
Proof. by apply undated_observations. Qed.

Definition rust_sample : SampleManifest :=
  mkManifest 1 (mkCase 1 "" "" "" ["pkg:cargo/serde@1.0.200"] [] ∅ [] "") false false ["pkg:cargo/serde@1.0.200"] [] ""
    (mkEnv 1 "cargo" "linux" "" "x64" "rust" "1.75.0" "" "" "" "" "" "" "" [] "" "" "" "" "" "container" "" "" "" "" false)
    "MIT-0" [] None "cargo@1".

(** A receipt of the sample from the image the fleet runs it in. *)
Definition rust_receipt (host : EnvironmentFingerprint) : VerificationReceipt :=
  mkReceipt 2 "s" "" "" (StageEnvironment "linux" host rust_sample) {[ "contract" := "PASS" ]} ∅ [] None (mf_VerifierAdapter rust_sample)
    CapContainerRun "" "" "p" "" "".

(** The queue asks for the release line of the sample and the image reports
    the line it was built for: the job is open, and the receipt of the very
    image it runs in does not answer it. *)
Lemma rust_job_has_no_answer :
  j_Status (crossJobFor "s" rust_sample) = "open"
  /\ is_ok (imageForManifestOn "linux" rust_sample) = true
  /\ exists want, j_WantEnv (crossJobFor "s" rust_sample) = Some want /\ receiptMatchesRequirements (rust_receipt env_example) want = false.
Proof. split; [vm_compute; reflexivity|]. split; [vm_compute; reflexivity|]. eexists. split; [vm_compute; reflexivity|]. vm_compute. reflexivity. Qed.

(** A receipt that names no job closes every cross job of the sample, even
    when its contract never ran, and nothing is queued in their place: only a
    receipt bound to a job is followed by a requeue. *)
Lemma unbound_receipt_ends_the_search `{!GoSort, !GoMapRange} now w m sample q sv :
  let sid := vr_SampleID (w_receipt w) in
  let q1 := SaveReceipt now (receipt_row w) q in
  origin_of (receipts_of sid q1) <> vr_PeerID (w_receipt w) ->
  sampleHasVerificationComing sid (sv_queue (fst (after_receipt now w 0 m sample (CompleteJobsForSample sid (vr_PeerID (w_receipt w)) q1) sv))) = false.
Proof.
  intros sid q1 O. set (q2 := CompleteJobsForSample _ _ q1). unfold after_receipt. fold sid. change (negb (0 =? 0)) with false. cbn [andb fst sv_queue].
  set (q3 := if String.eqb _ _ then q2 else _). assert (J : vs_jobs q3 = vs_jobs q2).
  { unfold q3. destruct (String.eqb _ _); [done|]. unfold SetSampleStatus. by destruct (vs_samples q2 !! sid). }
  unfold sampleHasVerificationComing, JobsForSample. rewrite J. apply not_true_is_false. intros T. apply existsb_exists in T as (j & I & T).
  apply filter_In in I as [I S]. apply andb_true_iff in T as [R L]. unfold q2, CompleteJobsForSample in I. cbn [set_jobs vs_jobs] in I.
  apply in_map_iff in I as (j0 & E & _). apply String.eqb_eq in S, R.
  destruct (negb (String.eqb (j_SampleID j0) sid) || _ || _) eqn:Sk.
  - subst j. rewrite S, R, !String.eqb_refl in Sk. cbn [negb orb] in Sk. apply andb_true_iff in Sk as [S1 S2].
    unfold str_in in L. cbn [existsb] in L. by destruct (String.eqb (j_Status j0) "open"), (String.eqb (j_Status j0) "claimed").
  - destruct (_ && _ && _) eqn:Or; [|by subst j].
    apply andb_true_iff in Or as [_ Or]. apply String.eqb_eq in Or. congruence.
Qed.

(** The store's origin is the peer of the first receipt, the status rules' the
    first peer to pass: an author whose pass follows a stranger's failure
    closes the job that asks another peer to reproduce it. *)
Definition contested_store : verify_store :=
  set_jobs [mkJob 1 "s" "cross" None "open" "" zero_time 0]
    (set_receipts {[ "s" := [receipt_by "stranger" "FAIL"; receipt_by "author" "PASS"] ]} new_verify_store).

Lemma origins_disagree :
  attesting_origin (receipts_of "s" contested_store) = "author" /\ origin_of (receipts_of "s" contested_store) = "stranger"
  /\ map j_Status (vs_jobs (CompleteJobsForSample "s" "author" contested_store)) = ["done"]
  /\ sampleStatusFromReceipts "PUBLISHED" (receipts_of "s" contested_store) 0 = "PUBLISHED".
Proof. repeat split; vm_compute; reflexivity. Qed.
