(* ===== verification/Lease.v ===== *)
(** * The Builder lease (internal/serverstore/lease.go and fake.go)

    One compatibility Builder runs at a time.  Which one is decided by a row
    of the table builder_lease: an owner, a fencing token and an expiry, and
    beside them the deadline of a pause.  This file has the rows and the
    statements lease.go executes on them, the in-memory store of fake.go that
    the program's tests run against, the interface both offer to the leader
    loop with the laws it relies on, and the proof that the second store
    behaves as the first.

    Instants and durations are integers (nanoseconds).  A statement reads the
    time at which it started.  What [$3 * interval '1 second'] adds to an
    instant is [PgInterval]: PostgreSQL rounds it to its own resolution. *)

From stdpp Require Import gmap strings.
From S2P Require Import Prelude.

(** ** Data *)

Inductive lease_error := ErrLeaseTTL | ErrLeaseHeld | ErrLeaseLost | ErrLeaseStore.

Record BuilderLeaseState := mkLease {
  bl_Name : string;
  bl_Owner : string;
  bl_Fence : Z;
  bl_AcquiredAt : Z;
  bl_ExpiresAt : Z
}.

Definition Expired (s : BuilderLeaseState) (now : Z) : bool := negb (now <? bl_ExpiresAt s).

Definition with_expiry (t : Z) (s : BuilderLeaseState) : BuilderLeaseState :=
  mkLease (bl_Name s) (bl_Owner s) (bl_Fence s) (bl_AcquiredAt s) t.

(** The WHERE clause of renew and release. *)
Definition held_by (owner : string) (fence : Z) (s : BuilderLeaseState) : bool :=
  String.eqb (bl_Owner s) owner && (bl_Fence s =? fence).

(** ** PostgreSQL *)

Class PgInterval := { pg_interval : Z -> Z }.

(** A row; [paused_until] may be NULL. *)
Record lease_row := mkRow { lr_state : BuilderLeaseState; lr_paused : option Z }.

Notation builder_lease := (gmap string lease_row).

Definition pauseHolder : string := "csx-server-governor".

Section pg.
  Context {PI : PgInterval}.

(** The insert, or the update of the row in its way: the fence of a row the
    statement may overwrite grows by one, and bigint refuses to overflow. *)
Definition AcquireBuilderLease (now : Z) (name owner : string) (ttl : Z) (t : builder_lease) :
    result BuilderLeaseState lease_error * builder_lease :=
  if ttl <=? 0 then (Err ErrLeaseTTL, t)
  else match t !! name with
  | None =>
      let st := mkLease name owner 1 now (now + pg_interval ttl) in
      (Ok st, <[name := mkRow st None]> t)
  | Some row =>
      if (bl_ExpiresAt (lr_state row) <? now) || String.eqb (bl_Owner (lr_state row)) owner then
        if bl_Fence (lr_state row) =? int64_max then (Err ErrLeaseStore, t)
        else
          let st := mkLease name owner (bl_Fence (lr_state row) + 1) now (now + pg_interval ttl) in
          (Ok st, <[name := mkRow st (lr_paused row)]> t)
      else (Err ErrLeaseHeld, t)
  end.

Definition RenewBuilderLease (now : Z) (name owner : string) (fence ttl : Z) (t : builder_lease) :
    result BuilderLeaseState lease_error * builder_lease :=
  if ttl <=? 0 then (Err ErrLeaseTTL, t)
  else match t !! name with
  | None => (Err ErrLeaseLost, t)
  | Some row =>
      if held_by owner fence (lr_state row) then
        let st := with_expiry (now + pg_interval ttl) (lr_state row) in
        (Ok st, <[name := mkRow st (lr_paused row)]> t)
      else (Err ErrLeaseLost, t)
  end.

Definition ReleaseBuilderLease (name owner : string) (fence : Z) (t : builder_lease) :
    result unit lease_error * builder_lease :=
  match t !! name with
  | None => (Err ErrLeaseLost, t)
  | Some row => if held_by owner fence (lr_state row) then (Ok tt, delete name t) else (Err ErrLeaseLost, t)
  end.

Definition PauseBuilderLease (now : Z) (name : string) (ttl : Z) (t : builder_lease) :
    result unit lease_error * builder_lease :=
  if ttl <=? 0 then (Err ErrLeaseTTL, t)
  else
    let state := match t !! name with
                 | None => mkLease name pauseHolder 0 now now
                 | Some row => lr_state row
                 end in
    (Ok tt, <[name := mkRow state (Some (now + pg_interval ttl))]> t).

Definition ResumeBuilderLease (name : string) (t : builder_lease) : result unit lease_error * builder_lease :=
  (Ok tt, match t !! name with Some (mkRow st (Some _)) => <[name := mkRow st None]> t | _ => t end).

Definition BuilderLeasePaused (now : Z) (name : string) (t : builder_lease) : result bool lease_error :=
  Ok (match t !! name with Some (mkRow _ (Some until)) => now <? until | _ => false end).

Definition GetBuilderLease (name : string) (t : builder_lease) : option BuilderLeaseState :=
  lr_state <$> t !! name.
End pg.

(** ** The in-memory store *)

(** Leases are pointers in the program; no operation keeps one across a
    call.  [fk_pausedErr] is the error a test makes the pause flag return. *)
Record Fake := mkFake {
  fk_leases : gmap string BuilderLeaseState;
  fk_pauses : gmap string Z;
  fk_pausedErr : option lease_error
}.

Definition fake_Acquire (now : Z) (name owner : string) (ttl : Z) (f : Fake) :
    result BuilderLeaseState lease_error * Fake :=
  if ttl <=? 0 then (Err ErrLeaseTTL, f)
  else
    let cur := fk_leases f !! name in
    match cur with
    | Some c => if negb (Expired c now) && negb (String.eqb (bl_Owner c) owner) then (Err ErrLeaseHeld, f)
                else
                  let st := mkLease name owner (wrap64 (bl_Fence c + 1)) now (now + ttl) in
                  (Ok st, mkFake (<[name := st]> (fk_leases f)) (fk_pauses f) (fk_pausedErr f))
    | None =>
        let st := mkLease name owner 1 now (now + ttl) in
        (Ok st, mkFake (<[name := st]> (fk_leases f)) (fk_pauses f) (fk_pausedErr f))
    end.

Definition fake_Renew (now : Z) (name owner : string) (fence ttl : Z) (f : Fake) :
    result BuilderLeaseState lease_error * Fake :=
  if ttl <=? 0 then (Err ErrLeaseTTL, f)
  else match fk_leases f !! name with
  | Some c =>
      if held_by owner fence c then
        let st := with_expiry (now + ttl) c in
        (Ok st, mkFake (<[name := st]> (fk_leases f)) (fk_pauses f) (fk_pausedErr f))
      else (Err ErrLeaseLost, f)
  | None => (Err ErrLeaseLost, f)
  end.

Definition fake_Release (name owner : string) (fence : Z) (f : Fake) : result unit lease_error * Fake :=
  match fk_leases f !! name with
  | Some c =>
      if held_by owner fence c
      then (Ok tt, mkFake (delete name (fk_leases f)) (delete name (fk_pauses f)) (fk_pausedErr f))
      else (Err ErrLeaseLost, f)
  | None => (Err ErrLeaseLost, f)
  end.

Definition fake_Pause (now : Z) (name : string) (ttl : Z) (f : Fake) : result unit lease_error * Fake :=
  if ttl <=? 0 then (Err ErrLeaseTTL, f)
  else (Ok tt, mkFake (fk_leases f) (<[name := now + ttl]> (fk_pauses f)) (fk_pausedErr f)).

Definition fake_Resume (name : string) (f : Fake) : result unit lease_error * Fake :=
  (Ok tt, mkFake (fk_leases f) (delete name (fk_pauses f)) (fk_pausedErr f)).

Definition fake_Paused (now : Z) (name : string) (f : Fake) : result bool lease_error :=
  match fk_pausedErr f with
  | Some e => Err e
  | None => Ok (match fk_pauses f !! name with Some until => now <? until | None => false end)
  end.

Definition fake_Get (name : string) (f : Fake) : option BuilderLeaseState := fk_leases f !! name.

(** ** The interface the leader loop uses *)

Class LeaseStore (S : Type) := {
  ls_acquire : Z -> string -> string -> Z -> S -> result BuilderLeaseState lease_error * S;
  ls_renew : Z -> string -> string -> Z -> Z -> S -> result BuilderLeaseState lease_error * S;
  ls_release : string -> string -> Z -> S -> result unit lease_error * S;
  ls_pause : Z -> string -> Z -> S -> result unit lease_error * S;
  ls_resume : string -> S -> result unit lease_error * S;
  ls_paused : Z -> string -> S -> result bool lease_error;
  ls_get : string -> S -> option BuilderLeaseState;
  (** how far a duration moves an instant *)
  ls_extent : Z -> Z;
  (** the deadline of the pause, if there is one *)
  ls_deadline : string -> S -> option Z
}.

(** The calls that write, as data. *)
Inductive lease_call :=
| CAcquire (now : Z) (name owner : string) (ttl : Z)
| CRenew (now : Z) (name owner : string) (fence ttl : Z)
| CRelease (name owner : string) (fence : Z)
| CPause (now : Z) (name : string) (ttl : Z)
| CResume (name : string).

Definition call_name (c : lease_call) : string :=
  match c with
  | CAcquire _ name _ _ | CRenew _ name _ _ _ | CRelease name _ _ | CPause _ name _ | CResume name => name
  end.

Definition no_state {A E} (r : result A E) : result (option BuilderLeaseState) E :=
  match r with Ok _ => Ok None | Err e => Err e end.
Definition a_state {E} (r : result BuilderLeaseState E) : result (option BuilderLeaseState) E :=
  match r with Ok st => Ok (Some st) | Err e => Err e end.

Definition ls_call {S} `{LeaseStore S} (c : lease_call) (s : S) :
    result (option BuilderLeaseState) lease_error * S :=
  match c with
  | CAcquire now name owner ttl => let '(r, s') := ls_acquire now name owner ttl s in (a_state r, s')
  | CRenew now name owner fence ttl => let '(r, s') := ls_renew now name owner fence ttl s in (a_state r, s')
  | CRelease name owner fence => let '(r, s') := ls_release name owner fence s in (no_state r, s')
  | CPause now name ttl => let '(r, s') := ls_pause now name ttl s in (no_state r, s')
  | CResume name => let '(r, s') := ls_resume name s in (no_state r, s')
  end.

(** What a store promises.  A refused call changes nothing; a call touches
    one name; a lease changes hands only when it has expired or its owner
    asks; a renewal or release needs the owner and the fence; a pause never
    touches a lease, and only a pause, a resume or a release touches a
    pause. *)
Class LeaseLaws (S : Type) `{LeaseStore S} := {
  call_refused : forall c (s : S) e s', ls_call c s = (Err e, s') -> s' = s;
  call_frame : forall c (s : S) r s' name, ls_call c s = (r, s') -> name <> call_name c ->
    ls_get name s' = ls_get name s /\ ls_deadline name s' = ls_deadline name s;
  acquired : forall now name owner ttl (s : S) st s', ls_acquire now name owner ttl s = (Ok st, s') ->
    bl_Name st = name /\ bl_Owner st = owner /\ bl_ExpiresAt st = now + ls_extent ttl /\ ls_get name s' = Some st
    /\ ls_deadline name s' = ls_deadline name s
    /\ forall cur, ls_get name s = Some cur -> bl_Owner cur = owner \/ bl_ExpiresAt cur <= now;
  acquire_expired : forall now name owner ttl (s : S), 0 < ttl ->
    (forall cur, ls_get name s = Some cur -> bl_ExpiresAt cur < now /\ bl_Fence cur < int64_max) ->
    exists st s', ls_acquire now name owner ttl s = (Ok st, s');
  renewed : forall now name owner fence ttl (s : S) st s', ls_renew now name owner fence ttl s = (Ok st, s') ->
    exists cur, ls_get name s = Some cur /\ bl_Owner cur = owner /\ bl_Fence cur = fence
      /\ st = with_expiry (now + ls_extent ttl) cur /\ ls_get name s' = Some st
      /\ ls_deadline name s' = ls_deadline name s;
  released : forall name owner fence (s : S) s', ls_release name owner fence s = (Ok tt, s') ->
    (exists cur, ls_get name s = Some cur /\ bl_Owner cur = owner /\ bl_Fence cur = fence) /\ ls_get name s' = None
    /\ ls_deadline name s' = None;
  paused : forall now name ttl (s : S) r s', ls_pause now name ttl s = (r, s') ->
    (forall cur, ls_get name s = Some cur -> ls_get name s' = Some cur)
    /\ (r = Ok tt -> ls_deadline name s' = Some (now + ls_extent ttl));
  resumed : forall name (s : S) r s', ls_resume name s = (r, s') ->
    ls_get name s' = ls_get name s /\ ls_deadline name s' = None;
  pause_answers : forall now name ttl (s : S), 0 < ttl -> fst (ls_pause now name ttl s) = Ok tt;
  resume_answers : forall name (s : S), fst (ls_resume name s) = Ok tt;
  flag_is_deadline : forall now name (s : S) b, ls_paused now name s = Ok b ->
    b = match ls_deadline name s with Some until => now <? until | None => false end
}.

#[export] Instance pg_store `{PgInterval} : LeaseStore builder_lease := {
  ls_acquire := AcquireBuilderLease;
  ls_renew := RenewBuilderLease;
  ls_release := ReleaseBuilderLease;
  ls_pause := PauseBuilderLease;
  ls_resume := ResumeBuilderLease;
  ls_paused := BuilderLeasePaused;
  ls_get := GetBuilderLease;
  ls_extent := pg_interval;
  ls_deadline := fun name t => t !! name ≫= lr_paused
}.

#[export] Instance fake_store : LeaseStore Fake := {
  ls_acquire := fake_Acquire;
  ls_renew := fake_Renew;
  ls_release := fake_Release;
  ls_pause := fake_Pause;
  ls_resume := fake_Resume;
  ls_paused := fake_Paused;
  ls_get := fake_Get;
  ls_extent := fun ttl => ttl;
  ls_deadline := fun name f => fk_pauses f !! name
}.

Lemma held_by_spec owner fence s : held_by owner fence s = true <-> bl_Owner s = owner /\ bl_Fence s = fence.
Proof. unfold held_by. rewrite andb_true_iff, String.eqb_eq, Z.eqb_eq. done. Qed.

Ltac lease_cases :=
  repeat match goal with
  | H : context [match ?m !! ?k with _ => _ end] |- _ => destruct (m !! k) eqn:?
  | H : context [if ?b then _ else _] |- _ => destruct b eqn:?
  | x : lease_row |- _ => destruct x; cbn in *
  | H : context [match ?o with Some _ => _ | None => _ end] |- _ => is_var o; destruct o
  end; simplify_eq/=.

(** One call on the store at hand, by cases. *)
Ltac lease_call :=
  cbn in *; unfold AcquireBuilderLease, RenewBuilderLease, ReleaseBuilderLease, PauseBuilderLease, ResumeBuilderLease,
    BuilderLeasePaused, GetBuilderLease, fake_Acquire, fake_Renew, fake_Release, fake_Pause, fake_Resume, fake_Paused,
    fake_Get in *; lease_cases.

Ltac lease_lookup :=
  repeat first
    [ match goal with H : ?m !! ?k = _ |- context [?m !! ?k] => rewrite H end
    | rewrite lookup_insert_eq
    | rewrite lookup_delete_eq
    | rewrite lookup_insert_ne by congruence
    | rewrite lookup_delete_ne by congruence ]; cbn.

#[export] Instance pg_laws `{PgInterval} : LeaseLaws builder_lease.
Proof.
  split.
  - intros [] t e t' E; lease_call; done.
  - intros [] t r t' n E N; lease_call; lease_lookup; done.
  - intros now name owner ttl t st t' E; lease_call; lease_lookup; repeat split; try done; intros cur [= <-].
    bool_facts. destruct Heqb0 as [B|B]; bool_facts; cbn in *; [right; lia|by left].
  - intros now name owner ttl t T F. lease_call. destruct (Z.leb_spec ttl 0); [lia|].
    destruct (t !! name) as [row|]; [|by eauto]. destruct (F _ eq_refl) as [X Y].
    destruct (Z.ltb_spec (bl_ExpiresAt (lr_state row)) now); [|lia]. cbn.
    destruct (Z.eqb_spec (bl_Fence (lr_state row)) int64_max); [lia|]. by eauto.
  - intros now name owner fence ttl t st t' E; lease_call; lease_lookup.
    match goal with B : held_by _ _ _ = true |- _ => apply held_by_spec in B as [? ?] end. by eauto 10.
  - intros name owner fence t t' E; lease_call; lease_lookup.
    match goal with B : held_by _ _ _ = true |- _ => apply held_by_spec in B as [? ?] end. split; [by eauto|done].
  - intros now name ttl t r t' E; lease_call; lease_lookup; split; try done; congruence.
  - intros name t r t' E; lease_call; lease_lookup; done.
  - intros now name ttl t T. cbn. unfold PauseBuilderLease. by destruct (Z.leb_spec ttl 0); [lia|].
  - done.
  - intros now name t b E; lease_call; lease_lookup; done.
Qed.

#[export] Instance fake_laws : LeaseLaws Fake.
Proof.
  split.
  - intros [] f e f' E; lease_call; done.
  - intros [] f r f' n E N; lease_call; lease_lookup; done.
  - intros now name owner ttl f st f' E; lease_call; lease_lookup; repeat split; try done; intros cur [= <-].
    unfold Expired in *. bool_facts. destruct Heqb1 as [B|B]; bool_facts; [right; lia|by left].
  - intros now name owner ttl f T F. lease_call. destruct (Z.leb_spec ttl 0); [lia|].
    destruct (fk_leases f !! name) as [c|]; [|by eauto]. destruct (F _ eq_refl) as [X _].
    unfold Expired. destruct (Z.ltb_spec now (bl_ExpiresAt c)); [lia|]. by eauto.
  - intros now name owner fence ttl f st f' E; lease_call; lease_lookup.
    match goal with B : held_by _ _ _ = true |- _ => apply held_by_spec in B as [? ?] end. by eauto 10.
  - intros name owner fence f f' E; lease_call; lease_lookup.
    match goal with B : held_by _ _ _ = true |- _ => apply held_by_spec in B as [? ?] end. split; [by eauto|done].
  - intros now name ttl f r f' E; lease_call; lease_lookup; done.
  - intros name f r f' E; lease_call; lease_lookup; done.
  - intros now name ttl f T. cbn. unfold fake_Pause. by destruct (Z.leb_spec ttl 0); [lia|].
  - done.
  - intros now name f b E; lease_call; by destruct (fk_pausedErr f); simplify_eq.
Qed.

(** ** The in-memory store behaves as the database

    The two keep different things: the database has a placeholder row where
    the in-memory store has only a pause, and at the very instant a lease
    expires they disagree about whether it has. *)

Definition placeholder (st : BuilderLeaseState) : Prop := bl_Owner st = pauseHolder /\ bl_Fence st = 0.

Definition mirrors (row : option lease_row) (lease : option BuilderLeaseState) (pause : option Z) : Prop :=
  match row, lease with
  | Some r, Some st => lr_state r = st /\ lr_paused r = pause /\ 0 < bl_Fence st
  | Some r, None => placeholder (lr_state r) /\ lr_paused r = pause
  | None, None => pause = None
  | None, Some _ => False
  end.

Definition simulates (f : Fake) (t : builder_lease) : Prop :=
  fk_pausedErr f = None /\ forall name, mirrors (t !! name) (fk_leases f !! name) (fk_pauses f !! name).

(** A call both stores read alike: durations PostgreSQL represents exactly,
    an owner that is not the name reserved for placeholders, fences that have
    not run out, and no acquisition at the very instant a row expires, nor
    before one that a pause has just written. *)
Definition unambiguous_call `{PgInterval} (c : lease_call) (t : builder_lease) : Prop :=
  match c with
  | CAcquire now name owner ttl =>
      pg_interval ttl = ttl /\ owner <> pauseHolder
      /\ forall r, t !! name = Some r -> 0 <= bl_Fence (lr_state r) < int64_max /\ bl_ExpiresAt (lr_state r) <> now
           /\ (placeholder (lr_state r) -> bl_ExpiresAt (lr_state r) < now)
  | CRenew _ _ owner _ ttl => pg_interval ttl = ttl /\ owner <> pauseHolder
  | CRelease _ owner _ => owner <> pauseHolder
  | CPause _ _ ttl => pg_interval ttl = ttl
  | CResume _ => True
  end.

(** A run of calls, each unambiguous where it happens, with its answers. *)
Fixpoint answers_of {S} `{LeaseStore S} (cs : list lease_call) (s : S) :
    list (result (option BuilderLeaseState) lease_error) * S :=
  match cs with
  | [] => ([], s)
  | c :: cs => let '(r, s1) := ls_call c s in let '(rs, s2) := answers_of cs s1 in (r :: rs, s2)
  end.

Fixpoint unambiguous_run `{PgInterval} (cs : list lease_call) (t : builder_lease) : Prop :=
  match cs with
  | [] => True
  | c :: cs => unambiguous_call c t /\ unambiguous_run cs (snd (ls_call c t))
  end.

(** The stores stay in step when both write one name. *)
Lemma simulates_write f t name row lease pause : simulates f t ->
  (forall n, n <> name -> fk_leases lease !! n = fk_leases f !! n /\ fk_pauses lease !! n = fk_pauses f !! n
     /\ pause !! n = t !! n) ->
  fk_pausedErr lease = None ->
  pause !! name = row -> mirrors row (fk_leases lease !! name) (fk_pauses lease !! name) -> simulates lease pause.
Proof.
  intros [E M] O E' <- Mn. split; [done|]. intros n. destruct (decide (n = name)) as [->|N]; [done|].
  destruct (O n N) as (-> & -> & ->). apply M.
Qed.

(** Both sides of the call, looked up. *)
Ltac both_stores name :=
  match goal with M : forall n, mirrors (?t !! n) (fk_leases ?f !! n) _ |- _ =>
    let X := fresh "Mn" in pose proof (M name) as X; unfold mirrors in X;
    destruct (t !! name) as [[row pause]|] eqn:?, (fk_leases f !! name) eqn:?; cbn in X; try done; destruct_and? X; subst; cbn
  end.

(** Close a case in which both stores wrote [name]. *)
Ltac both_wrote S name :=
  split; [done|]; eapply (simulates_write _ _ name _ _ _ S); cbn; [intros ? ?; lease_lookup; done|done|by lease_lookup|lease_lookup].

Lemma simulates_acquire `{PgInterval} now name owner ttl f t : simulates f t ->
  unambiguous_call (CAcquire now name owner ttl) t ->
  fst (fake_Acquire now name owner ttl f) = fst (AcquireBuilderLease now name owner ttl t)
  /\ simulates (snd (fake_Acquire now name owner ttl f)) (snd (AcquireBuilderLease now name owner ttl t)).
Proof.
  intros S (I & O & R). pose proof S as [E M]. unfold AcquireBuilderLease, fake_Acquire.
  destruct (Z.leb_spec ttl 0); [done|]. rewrite I. both_stores name.
  - destruct (R _ eq_refl) as ([F0 F1] & X & _). cbn in *. unfold Expired.
    replace (negb (negb (now <? bl_ExpiresAt b)) && negb (String.eqb (bl_Owner b) owner))
      with (negb ((bl_ExpiresAt b <? now) || String.eqb (bl_Owner b) owner))
      by (destruct (Z.ltb_spec now (bl_ExpiresAt b)), (Z.ltb_spec (bl_ExpiresAt b) now), (String.eqb (bl_Owner b) owner); cbn; lia).
    destruct ((bl_ExpiresAt b <? now) || _); cbn; [|done].
    destruct (Z.eqb_spec (bl_Fence b) int64_max); [lia|]. rewrite wrap64_id by (unfold in_int64, int64_min in *; lia).
    both_wrote S name. cbn. repeat split; lia.
  - destruct (R _ eq_refl) as (_ & _ & X). cbn in *. match goal with P : placeholder row |- _ => pose proof (X P); destruct P as [P F] end.
    destruct (Z.ltb_spec (bl_ExpiresAt row) now); [|lia]. cbn. rewrite F. change (0 =? int64_max) with false. cbn. both_wrote S name. done.
  - both_wrote S name. done.
Qed.

Lemma simulates_held `{PgInterval} name owner fence f t : simulates f t -> owner <> pauseHolder ->
  match fk_leases f !! name with Some c => held_by owner fence c | None => false end
  = match t !! name with Some row => held_by owner fence (lr_state row) | None => false end.
Proof.
  intros [E M] O. both_stores name; [done|]. symmetry. apply not_true_iff_false. rewrite held_by_spec. intros [X _].
  match goal with P : placeholder row |- _ => destruct P end. congruence.
Qed.

Lemma simulates_call `{PgInterval} c f t : simulates f t -> unambiguous_call c t ->
  fst (ls_call c f) = fst (ls_call c t) /\ simulates (snd (ls_call c f)) (snd (ls_call c t)).
Proof.
  intros S U. pose proof S as [E M].
  destruct c as [now name owner ttl|now name owner fence ttl|name owner fence|now name ttl|name]; cbn in U |- *.
  - destruct (simulates_acquire _ _ _ _ _ _ S U) as [R S'].
    destruct (fake_Acquire now name owner ttl f), (AcquireBuilderLease now name owner ttl t). cbn in *. by subst.
  - destruct U as [I O]. pose proof (simulates_held name owner fence f t S O) as Hd.
    unfold RenewBuilderLease, fake_Renew. destruct (Z.leb_spec ttl 0); [done|]. rewrite I.
    both_stores name; [|by cbn in Hd; rewrite <- Hd]. destruct (held_by owner fence b); [|done]. both_wrote S name. done.
  - pose proof (simulates_held name owner fence f t S U) as Hd. unfold ReleaseBuilderLease, fake_Release.
    both_stores name; [|by cbn in Hd; rewrite <- Hd]. destruct (held_by owner fence b); [|done]. both_wrote S name. done.
  - unfold PauseBuilderLease, fake_Pause. destruct (Z.leb_spec ttl 0); [done|]. rewrite U.
    both_stores name; both_wrote S name; done.
  - unfold ResumeBuilderLease, fake_Resume. both_stores name;
      try destruct (fk_pauses f !! name) eqn:?; both_wrote S name; done.
Qed.

Lemma simulates_run `{PgInterval} cs f t : simulates f t -> unambiguous_run cs t ->
  fst (answers_of cs f) = fst (answers_of cs t) /\ simulates (snd (answers_of cs f)) (snd (answers_of cs t)).
Proof.
  revert f t. induction cs as [|c cs IH]; intros f t S U; [done|]. destruct U as [U Us]. cbn.
  destruct (simulates_call c f t S U) as [R S']. destruct (ls_call c f) as [r f1], (ls_call c t) as [r' t1]. cbn in *. subst.
  destruct (IH _ _ S' Us) as [Rs S2]. destruct (answers_of cs f1), (answers_of cs t1). cbn in *. by subst.
Qed.

Definition empty_fake : Fake := mkFake ∅ ∅ None.

Lemma simulates_empty : simulates empty_fake ∅.
Proof. split; [done|]. intros n. cbn. by rewrite !lookup_empty. Qed.


(** Microsecond timestamps, with the fraction cut off. *)
Definition pg_microseconds : PgInterval := {| pg_interval := fun ttl => ttl / 1000 * 1000 |}.

(** A pause before any Builder, a takeover after a crash, a renewal that
    comes too late. *)
Definition example_calls : list lease_call :=
  [CPause 1000 "builder" 60000; CAcquire 2000 "builder" "a" 45000; CAcquire 3000 "builder" "b" 45000;
   CRenew 17000 "builder" "a" 1 45000; CAcquire 63000 "builder" "b" 45000; CRenew 64000 "builder" "a" 1 45000;
   CResume "builder"; CRelease "builder" "b" 2; CRelease "builder" "b" 2].


(** [Expired] is documented as the test PostgreSQL applies, but at the
    instant of expiry the two differ: the lease counts as expired, and the
    database still refuses it to another owner. *)
Lemma expired_at_the_instant `{PgInterval} :
  let held := mkLease "builder" "a" 1 0 45000 in
  Expired held 45000 = true
  /\ fst (AcquireBuilderLease 45000 "builder" "b" 45000 {["builder" := mkRow held None]}) = Err ErrLeaseHeld.
Proof. done. Qed.

(** [ErrLeaseLost] is documented to cover a lease that was released and taken
    again since the caller's last call.  Releasing deletes the row, so the
    fence starts again at one, and a renewal with the fence of the first
    lease extends the second. *)
Lemma fence_restarts_after_release `{PgInterval} :
  let '(answers, _) := answers_of
    [CAcquire 0 "builder" "a" 45000; CRelease "builder" "a" 1; CAcquire 1000 "builder" "a" 45000;
     CRenew 2000 "builder" "a" 1 45000] (∅ : builder_lease) in
  map is_ok answers = [true; true; true; true].
Proof. done. Qed.
