(* ===== verification/Leader.v ===== *)
(** * Leader election and the loop of passes (internal/compatibility/leader.go,
    and the loop of builder.go)

    Any number of Builder processes contend for one lease through the
    interface of [Lease]; each of them runs its passes while it holds it.
    The processes, their calls and the governor's pauses interleave freely.
    A call reads the time at which it started, takes effect later, and its
    answer may be lost on the way, before or after it took effect; a process
    may die at any point. *)

From stdpp Require Import gmap strings list.
From S2P Require Import Prelude RetryPolicy Lease.

(** ** Configuration and status *)

Definition DefaultLeaseName : string := "compatibility-builder".
Definition DefaultLeaseTTL : Z := 45 * Second.
Definition DefaultLeaseRenewInterval : Z := 15 * Second.
Definition DefaultLeaseRetryInterval : Z := 10 * Second.
Definition DefaultPauseTTL : Z := Minute.

Record LeaseConfig := mkConfig {
  lc_Name : string;
  lc_Owner : string;
  lc_TTL : Z;
  lc_RenewEvery : Z;
  lc_RetryEvery : Z;
  lc_PauseTTL : Z
}.

Definition config_normalize (c : LeaseConfig) : LeaseConfig :=
  mkConfig (if String.eqb (lc_Name c) "" then DefaultLeaseName else lc_Name c) (lc_Owner c)
    (if lc_TTL c <=? 0 then DefaultLeaseTTL else lc_TTL c)
    (if lc_RenewEvery c <=? 0 then DefaultLeaseRenewInterval else lc_RenewEvery c)
    (if lc_RetryEvery c <=? 0 then DefaultLeaseRetryInterval else lc_RetryEvery c)
    (if lc_PauseTTL c <=? 0 then DefaultPauseTTL else lc_PauseTTL c).

(** The zero value of the lease in a fresh status. *)
Definition lease_zero : BuilderLeaseState := mkLease "" "" 0 0 0.

(** [LastError] is the error itself; the program keeps its text. *)
Record LeaderStatus := mkStatus {
  ld_Held : bool;
  ld_Lease : BuilderLeaseState;
  ld_LastAttempt : Z;
  ld_LastError : option lease_error;
  ld_Paused : bool
}.

Definition status_zero : LeaderStatus := mkStatus false lease_zero 0 None false.

Definition set_Held (b : bool) (s : LeaderStatus) : LeaderStatus :=
  mkStatus b (ld_Lease s) (ld_LastAttempt s) (ld_LastError s) (ld_Paused s).
Definition set_Paused (b : bool) (s : LeaderStatus) : LeaderStatus :=
  mkStatus (ld_Held s) (ld_Lease s) (ld_LastAttempt s) (ld_LastError s) b.

(** The status after an attempt to acquire, [at_] being the process's clock. *)
Definition status_attempt (at_ : Z) (r : result BuilderLeaseState lease_error) (s : LeaderStatus) : LeaderStatus :=
  match r with
  | Err e => mkStatus false (ld_Lease s) at_ (Some e) (ld_Paused s)
  | Ok st => mkStatus true st at_ None (ld_Paused s)
  end.

(** The status after a renewal. *)
Definition status_renew (r : result BuilderLeaseState lease_error) (s : LeaderStatus) : LeaderStatus :=
  match r with
  | Err e => mkStatus false (ld_Lease s) (ld_LastAttempt s) (Some e) (ld_Paused s)
  | Ok st => mkStatus (ld_Held s) st (ld_LastAttempt s) (ld_LastError s) (ld_Paused s)
  end.

(** ** What the network does with a call *)

Inductive reply := Heard | LostBefore | LostAfter.

Definition observed {A S} (rp : reply) (s : S) (x : result A lease_error * S) : result A lease_error * S :=
  match rp with
  | Heard => x
  | LostBefore => (Err ErrLeaseStore, s)
  | LostAfter => (Err ErrLeaseStore, snd x)
  end.

Section leader.
  Context {S : Type} `{LeaseLaws S}.

(** ** Pausing, from any process *)

Definition leader_Pause (rp : reply) (now : Z) (cfg : LeaseConfig) (st : LeaderStatus) (s : S) :
    result unit lease_error * LeaderStatus * S :=
  let cfg := config_normalize cfg in
  let '(r, s') := observed rp s (ls_pause now (lc_Name cfg) (lc_PauseTTL cfg) s) in
  (r, match r with Ok _ => set_Paused true st | Err _ => st end, s').

Definition leader_Resume (rp : reply) (cfg : LeaseConfig) (st : LeaderStatus) (s : S) :
    result unit lease_error * LeaderStatus * S :=
  let cfg := config_normalize cfg in
  let '(r, s') := observed rp s (ls_resume (lc_Name cfg) s) in
  (r, match r with Ok _ => set_Paused false st | Err _ => st end, s').

(** Reading the flag; the call may stay without an answer. *)
Definition IsPaused (heard : bool) (now : Z) (cfg : LeaseConfig) (st : LeaderStatus) (s : S) :
    result bool lease_error * LeaderStatus :=
  let cfg := config_normalize cfg in
  match if heard then ls_paused now (lc_Name cfg) s else Err ErrLeaseStore with
  | Err e => (Err e, st)
  | Ok b => (Ok b, set_Paused b st)
  end.

(** [PauseGate]: the closure's two variables, its answer, and whether it
    logged a line.  A failed read comes as the text of its error. *)
Definition PauseGate (vars : bool * string) (r : result bool string) : (bool * string) * bool * bool :=
  let '(wasPaused, lastErr) := vars in
  match r with
  | Err msg => ((wasPaused, msg), false, negb (String.eqb msg lastErr))
  | Ok paused => ((paused, ""), paused, negb (Bool.eqb paused wasPaused))
  end.

(** ** The leader loop as a machine

    Where a process is: about to acquire; leading, with the lease it last saw
    and the renewal loop alive; still in [runWhileLeader] after the renewal
    loop gave up; about to release; gone. *)
Inductive lphase :=
| Trying
| Leading (st : BuilderLeaseState)
| Yielding (st : BuilderLeaseState)
| Releasing (st : BuilderLeaseState)
| Stopped.

Record process := mkProcess {
  pr_cfg : LeaseConfig;
  pr_phase : lphase;
  pr_status : LeaderStatus;
  (** when it last moved: its next call starts after that *)
  pr_last : Z
}.

Inductive action :=
| Acquire (now at_ : Z) (rp : reply)
| Renew (now : Z) (rp : reply) (ctxDone : bool)
| Return
| Release (rp : reply)
| Stop.

(** One move of a process at time [t]; [None] when it cannot make it. *)
Definition act (t : Z) (a : action) (p : process) (s : S) : option (process * S) :=
  let cfg := config_normalize (pr_cfg p) in
  let move ph st := mkProcess (pr_cfg p) ph st t in
  match a, pr_phase p with
  | Acquire now at_ rp, Trying =>
      let '(r, s') := observed rp s (ls_acquire now (lc_Name cfg) (lc_Owner cfg) (lc_TTL cfg) s) in
      Some (move (match r with Ok st => Leading st | Err _ => Trying end) (status_attempt at_ r (pr_status p)), s')
  | Renew now rp ctxDone, Leading st =>
      let '(r, s') := observed rp s (ls_renew now (lc_Name cfg) (lc_Owner cfg) (bl_Fence st) (lc_TTL cfg) s) in
      Some (match r with
            | Ok st' => move (Leading st') (status_renew r (pr_status p))
            | Err _ => move (Yielding st) (if ctxDone then pr_status p else status_renew r (pr_status p))
            end, s')
  | Return, Leading st | Return, Yielding st => Some (move (Releasing st) (set_Held false (pr_status p)), s)
  | Release rp, Releasing st =>
      let '(_, s') := observed rp s (ls_release (lc_Name cfg) (lc_Owner cfg) (bl_Fence st) s) in
      Some (move Trying (pr_status p), s')
  | Stop, _ => Some (move Stopped (pr_status p), s)
  | _, _ => None
  end.

Definition started (a : action) : option Z :=
  match a with Acquire now _ _ | Renew now _ _ => Some now | _ => None end.

Record system := mkSystem { sy_now : Z; sy_store : S; sy_procs : list process }.

Inductive sstep : system -> system -> Prop :=
| s_tick sy t : sy_now sy <= t -> sstep sy (mkSystem t (sy_store sy) (sy_procs sy))
| s_act sy i p a p' s' : sy_procs sy !! i = Some p ->
    (forall now, started a = Some now -> pr_last p <= now <= sy_now sy) ->
    act (sy_now sy) a p (sy_store sy) = Some (p', s') ->
    sstep sy (mkSystem (sy_now sy) s' (<[i := p']> (sy_procs sy)))
| s_pause sy rp now cfg st r st' s' : now <= sy_now sy -> leader_Pause rp now cfg st (sy_store sy) = (r, st', s') ->
    sstep sy (mkSystem (sy_now sy) s' (sy_procs sy))
| s_resume sy rp cfg st r st' s' : leader_Resume rp cfg st (sy_store sy) = (r, st', s') ->
    sstep sy (mkSystem (sy_now sy) s' (sy_procs sy)).

(** Any processes, about to start, on any store. *)
Definition fresh_process (t : Z) (cfg : LeaseConfig) : process := mkProcess cfg Trying status_zero t.

Inductive sreachable : system -> Prop :=
| sr_start t s cfgs : sreachable (mkSystem t s (fresh_process t <$> cfgs))
| sr_step sy sy' : sreachable sy -> sstep sy sy' -> sreachable sy'.

(** Whether [runWhileLeader] is executing, and under which lease. *)
Definition running (p : process) : option BuilderLeaseState :=
  match pr_phase p with Leading st | Yielding st => Some st | _ => None end.

Definition name_of (p : process) : string := lc_Name (config_normalize (pr_cfg p)).
Definition owner_of (p : process) : string := lc_Owner (pr_cfg p).

(** ** Exclusion *)

(** What a running process may rely on: while the lease it last saw has not
    expired, the store has it under its name, with at least that expiry. *)
Definition backed (t : Z) (s : S) (p : process) : Prop :=
  pr_last p <= t /\ forall st, running p = Some st ->
    bl_ExpiresAt st <= pr_last p + ls_extent (lc_TTL (config_normalize (pr_cfg p)))
    /\ (t < bl_ExpiresAt st -> exists cur, ls_get (name_of p) s = Some cur /\ bl_Owner cur = owner_of p
          /\ bl_Fence cur = bl_Fence st /\ bl_ExpiresAt st <= bl_ExpiresAt cur).

Definition system_ok (sy : system) : Prop :=
  NoDup (owner_of <$> sy_procs sy) /\ forall i p, sy_procs sy !! i = Some p -> backed (sy_now sy) (sy_store sy) p.

(** Who makes a call, and when it started. *)
Definition caller_ok (owner : string) (t : Z) (c : lease_call) : Prop :=
  match c with
  | CAcquire now _ o _ => o <> owner /\ now <= t
  | CRenew _ _ o _ _ | CRelease _ o _ => o <> owner
  | CPause _ _ _ | CResume _ => True
  end.

(** Nobody else's call touches a lease that has not expired. *)
Lemma unexpired_lease_kept c (s : S) r s' t name cur : ls_call c s = (r, s') -> caller_ok (bl_Owner cur) t c ->
  ls_get name s = Some cur -> t < bl_ExpiresAt cur -> ls_get name s' = Some cur.
Proof.
  intros E C G T. destruct (decide (name = call_name c)) as [->|N].
  2: { by destruct (call_frame c s r s' name E N) as [-> _]. }
  destruct r as [x|e]; [|by rewrite (call_refused _ _ _ _ E)].
  destruct c as [now name owner ttl|now name owner fence ttl|name owner fence|now name ttl|name]; cbn in *.
  - destruct (ls_acquire now name owner ttl s) as [[st|] s1] eqn:A; cbn in E; simplify_eq.
    destruct (acquired _ _ _ _ _ _ _ A) as (_ & _ & _ & _ & _ & K). destruct C, (K _ G); [congruence|lia].
  - destruct (ls_renew now name owner fence ttl s) as [[st|] s1] eqn:A; cbn in E; simplify_eq.
    destruct (renewed _ _ _ _ _ _ _ _ A) as (c & ? & ? & _). congruence.
  - destruct (ls_release name owner fence s) as [[[]|] s1] eqn:A; cbn in E; simplify_eq.
    destruct (released _ _ _ _ _ A) as [(c & ? & ? & _) _]. congruence.
  - destruct (ls_pause now name ttl s) as [r s1] eqn:A; cbn in E; simplify_eq. by apply (paused _ _ _ _ _ _ A).
  - destruct (ls_resume name s) as [r s1] eqn:A; cbn in E; simplify_eq. by rewrite (proj1 (resumed _ _ _ _ A)).
Qed.

Lemma observed_call {A} rp (s : S) (x : result A lease_error * S) r s' : observed rp s x = (r, s') ->
  s' = s \/ s' = snd x.
Proof. destruct rp; cbn; intros E; simplify_eq; auto. Qed.

Lemma backed_kept c (s : S) t p : caller_ok (owner_of p) t c -> backed t s p -> backed t (snd (ls_call c s)) p.
Proof.
  intros C [L B]. split; [done|]. intros st R. destruct (B st R) as [X Y]. split; [done|]. intros T.
  destruct (Y T) as (cur & G & O & F & Z). exists cur. split; [|done].
  destruct (ls_call c s) as [r s'] eqn:E. eapply unexpired_lease_kept; [done|by rewrite O|done|cbn; lia].
Qed.

(** A move makes at most one call, in the process's own name. *)
Lemma act_call t a p (s : S) p' s' : act t a p s = Some (p', s') ->
  (forall now, started a = Some now -> now <= t) ->
  pr_cfg p' = pr_cfg p /\ pr_last p' = t
  /\ (s' = s \/ exists c, s' = snd (ls_call c s) /\ forall owner, owner <> owner_of p -> caller_ok owner t c).
Proof.
  intros E St. unfold act in E. destruct a, (pr_phase p); try discriminate; cbn in *; try (simplify_eq/=; by auto).
  - match type of E with context [observed ?rp ?s ?x] => destruct (observed rp s x) as [r s1] eqn:Ob end. simplify_eq/=.
    split_and!; [done..|]. destruct (observed_call _ _ _ _ _ Ob) as [->| ->]; [by left|right].
    exists (CAcquire now (name_of p) (owner_of p) (lc_TTL (config_normalize (pr_cfg p)))). cbn. split.
    + unfold name_of, owner_of. by destruct (ls_acquire _ _ _ _ s) as [r' ?].
    + intros o N. split; [congruence|by apply St].
  - match type of E with context [observed ?rp ?s ?x] => destruct (observed rp s x) as [r s1] eqn:Ob end.
    destruct r; simplify_eq/=; (split_and!; [done..|]);
    (destruct (observed_call _ _ _ _ _ Ob) as [->| ->]; [by left|right];
     exists (CRenew now (name_of p) (owner_of p) (bl_Fence st) (lc_TTL (config_normalize (pr_cfg p)))); cbn; split;
     [unfold name_of, owner_of; by destruct (ls_renew _ _ _ _ _ s) as [r' ?]|congruence]).
  - match type of E with context [observed ?rp ?s ?x] => destruct (observed rp s x) as [r s1] eqn:Ob end. simplify_eq/=.
    split_and!; [done..|]. destruct (observed_call _ _ _ _ _ Ob) as [->| ->]; [by left|right].
    exists (CRelease (name_of p) (owner_of p) (bl_Fence st)). cbn. split; [|congruence].
    unfold name_of, owner_of. by destruct (ls_release _ _ _ s) as [r' ?].
Qed.

(** A renewal that took effect, whether or not its answer arrived. *)
Lemma renewal_effect rp now name owner fence ttl (s : S) r s' :
  observed rp s (ls_renew now name owner fence ttl s) = (r, s') ->
  s' = s \/ exists cur, ls_get name s = Some cur /\ bl_Owner cur = owner /\ bl_Fence cur = fence
    /\ ls_get name s' = Some (with_expiry (now + ls_extent ttl) cur).
Proof.
  intros E. destruct (observed_call _ _ _ _ _ E) as [->|X]; [by left|].
  destruct (ls_renew now name owner fence ttl s) as [[st|e] s1] eqn:R; cbn in X; subst.
  - right. destruct (renewed _ _ _ _ _ _ _ _ R) as (cur & ? & ? & ? & -> & ? & _). by exists cur.
  - left. assert (C : ls_call (CRenew now name owner fence ttl) s = (Err e, s1)) by (cbn; by rewrite R).
    by rewrite (call_refused _ _ _ _ C).
Qed.

Lemma act_backed t a p (s : S) p' s' : act t a p s = Some (p', s') ->
  (forall now, started a = Some now -> pr_last p <= now <= t) -> backed t s p -> backed t s' p'.
Proof.
  intros E St [L B]. destruct (act_call t a p s p' s' E) as (_ & L' & _); [intros n Hn; apply (St n Hn)|].
  split; [lia|]. clear L'. intros st' R. unfold act in E. destruct a as [now at_ rp|now rp done| |rp|], (pr_phase p) eqn:Ph;
    try discriminate; cbn in *; try by simplify_eq/=.
  - match type of E with context [observed ?rp ?s ?x] => destruct (observed rp s x) as [r s1] eqn:Ob end. simplify_eq/=.
    destruct r as [st|e]; cbn in R; simplify_eq/=. destruct rp; cbn in Ob; simplify_eq/=.
    destruct (acquired _ _ _ _ _ _ _ Ob) as (_ & O & X & G & _). destruct (St now eq_refl). split; [lia|].
    intros _. exists st'. by split_and!.
  - match type of E with context [observed ?rp ?s ?x] => destruct (observed rp s x) as [r s1] eqn:Ob end.
    destruct (St now eq_refl) as [L1 L2]. assert (Run : running p = Some st) by (unfold running; by rewrite Ph).
    destruct (B st Run) as [X Y]. destruct r as [st''|e]; injection E as <- <-; cbn in R; simplify_eq.
    + destruct rp; cbn in Ob; simplify_eq/=.
      destruct (renewed _ _ _ _ _ _ _ _ Ob) as (cur & G & O & F & -> & G' & _). cbn. split; [lia|]. intros _.
      eexists. split_and!; [exact G'|done..|cbn; lia].
    + split; [cbn in *; lia|]. intros T. destruct (Y T) as (cur & G & O & F & Z).
      destruct (renewal_effect _ _ _ _ _ _ _ _ _ Ob) as [->|(c & G1 & O1 & F1 & G2)]; [by exists cur|].
      eexists. split_and!; [exact G2|done..|cbn in *; lia].
  - match type of E with context [observed ?rp ?s ?x] => destruct (observed rp s x) as [r s1] eqn:Ob end. by simplify_eq/=.
Qed.

Lemma act_owner t a p (s : S) p' s' : act t a p s = Some (p', s') -> pr_cfg p' = pr_cfg p.
Proof.
  unfold act. intros E. destruct a, (pr_phase p); try discriminate; cbn in *; try (simplify_eq/=; done);
    match type of E with context [observed ?rp ?s ?x] => destruct (observed rp s x) as [[] s1] end; by simplify_eq/=.
Qed.

Lemma step_system_ok sy sy' : system_ok sy -> sstep sy sy' -> system_ok sy'.
Proof.
  intros [N B] St. destruct St as [sy t T|sy i p a p' s' Pi Ti A|sy rp now cfg st r st' s' T P|sy rp cfg st r st' s' P];
    unfold system_ok; cbn.
  - split; [done|]. intros i p Pi. destruct (B i p Pi) as [L K]. split; [lia|]. intros st R.
    destruct (K st R) as [X Y]. split; [done|]. intros T'. apply Y. lia.
  - destruct (act_call _ _ _ _ _ _ A) as (C & _ & K); [intros n Hn; apply (Ti n Hn)|]. split.
    { rewrite list_fmap_insert, list_insert_id; [done|]. rewrite list_lookup_fmap, Pi. cbn. unfold owner_of. by rewrite C. }
    intros j q Qj. destruct (decide (i = j)) as [<-|Nij].
    + rewrite list_lookup_insert_eq in Qj by (by eapply lookup_lt_Some). simplify_eq. eapply act_backed; eauto.
    + rewrite list_lookup_insert_ne in Qj by done. destruct K as [->|(c & -> & Cc)]; [by eapply B|].
      apply backed_kept; [|by eapply B]. apply Cc. intros Eo. apply Nij.
      eapply NoDup_lookup; [exact N|by rewrite list_lookup_fmap, Pi|rewrite list_lookup_fmap, Qj; cbn; by f_equal].
  - split; [done|]. intros i p Pi. unfold leader_Pause in P.
    match type of P with context [observed ?rp ?s ?x] => destruct (observed rp s x) as [r1 s1] eqn:Ob end. simplify_eq.
    destruct (observed_call _ _ _ _ _ Ob) as [->| ->]; [by eapply B|].
    replace (snd _) with (snd (ls_call (CPause now (lc_Name (config_normalize cfg)) (lc_PauseTTL (config_normalize cfg))) (sy_store sy)))
      by (cbn; by destruct (ls_pause _ _ _ _)). apply backed_kept; [done|by eapply B].
  - split; [done|]. intros i p Pi. unfold leader_Resume in P.
    match type of P with context [observed ?rp ?s ?x] => destruct (observed rp s x) as [r1 s1] eqn:Ob end. simplify_eq.
    destruct (observed_call _ _ _ _ _ Ob) as [->| ->]; [by eapply B|].
    replace (snd _) with (snd (ls_call (CResume (lc_Name (config_normalize cfg))) (sy_store sy)))
      by (cbn; by destruct (ls_resume _ _)). apply backed_kept; [done|by eapply B].
Qed.

Lemma step_owners sy sy' : sstep sy sy' -> owner_of <$> sy_procs sy' = owner_of <$> sy_procs sy.
Proof.
  intros []; cbn; try done. rewrite list_fmap_insert, list_insert_id; [done|].
  rewrite list_lookup_fmap. match goal with H : _ !! _ = Some _ |- _ => rewrite H end. cbn.
  match goal with H : act _ _ _ _ = Some _ |- _ => unfold owner_of; by rewrite (act_owner _ _ _ _ _ _ H) end.
Qed.

Lemma reachable_system_ok sy : sreachable sy -> NoDup (owner_of <$> sy_procs sy) -> system_ok sy.
Proof.
  induction 1 as [t s cfgs|sy sy' R IH St]; intros N.
  - split; [done|]. intros i p Pi. cbn in Pi. rewrite list_lookup_fmap in Pi.
    destruct (cfgs !! i); cbn in Pi; simplify_eq. split; [cbn; lia|]. done.
  - apply (step_system_ok sy); [|done]. apply IH. by rewrite <- (step_owners _ _ St).
Qed.

Lemma normalized_ttl cfg : 0 < lc_TTL (config_normalize cfg).
Proof. cbn. destruct (Z.leb_spec (lc_TTL cfg) 0); [done|lia]. Qed.

(** C16.  One Builder at a time.  Whatever the processes, the network and
    the governor do: of two processes with owners of their own that run
    their passes under one name, at most one holds a lease that has not
    expired; a leader whose lease was taken over or released gets no renewal,
    changes nothing and stops its passes at the first answer it hears; and
    once a lease has expired, any process that asks and hears an answer
    leads. *)
Theorem one_builder_at_a_time sy : sreachable sy -> NoDup (owner_of <$> sy_procs sy) ->
  (forall i j p q st st', i <> j -> sy_procs sy !! i = Some p -> sy_procs sy !! j = Some q -> name_of p = name_of q ->
     running p = Some st -> running q = Some st' -> sy_now sy < bl_ExpiresAt st -> bl_ExpiresAt st' <= sy_now sy)
  /\ (forall p st now done, pr_phase p = Leading st ->
     (forall cur, ls_get (name_of p) (sy_store sy) = Some cur -> bl_Owner cur = owner_of p -> bl_Fence cur <> bl_Fence st) ->
     exists p', act (sy_now sy) (Renew now Heard done) p (sy_store sy) = Some (p', sy_store sy) /\ pr_phase p' = Yielding st)
  /\ (forall p now at_, pr_phase p = Trying ->
     (forall cur, ls_get (name_of p) (sy_store sy) = Some cur -> bl_ExpiresAt cur < now /\ bl_Fence cur < int64_max) ->
     exists p' st s', act (sy_now sy) (Acquire now at_ Heard) p (sy_store sy) = Some (p', s')
       /\ pr_phase p' = Leading st /\ ls_get (name_of p) s' = Some st).
Proof.
  intros R N. pose proof (reachable_system_ok sy R N) as [_ B]. split_and!.
  - intros i j p q st st' Nij Pi Qj En Rp Rq T. destruct (Z_lt_le_dec (sy_now sy) (bl_ExpiresAt st')) as [T'|]; [|done].
    destruct (proj2 (B i p Pi) st Rp) as [_ X], (proj2 (B j q Qj) st' Rq) as [_ Y].
    destruct (X T) as (c & G & O & _), (Y T') as (c' & G' & O' & _). rewrite En in G. simplify_eq.
    exfalso. apply Nij. eapply NoDup_lookup; [exact N|by rewrite list_lookup_fmap, Pi|].
    rewrite list_lookup_fmap, Qj. cbn. congruence.
  - intros p st now done Ph F. unfold act. rewrite Ph. cbn [observed].
    destruct (ls_renew now _ _ (bl_Fence st) _ (sy_store sy)) as [[st'|e] s'] eqn:E.
    { destruct (renewed _ _ _ _ _ _ _ _ E) as (cur & G & O & Fc & _). by destruct (F cur G O). }
    assert (s' = sy_store sy) as ->.
    { eapply (call_refused (CRenew _ _ _ _ _) _ e). cbn. by rewrite E. }
    eexists. split; [done|]. by destruct done.
  - intros p now at_ Ph F. unfold act. rewrite Ph. cbn [observed].
    destruct (acquire_expired now (name_of p) (owner_of p) _ (sy_store sy) (normalized_ttl (pr_cfg p)) F) as (st & s' & E).
    change (lc_Owner (config_normalize (pr_cfg p))) with (owner_of p). fold (name_of p). rewrite E.
    eexists _, st, s'. split_and!; [done..|]. by destruct (acquired _ _ _ _ _ _ _ E) as (_ & _ & _ & G & _).
Qed.

(** ** How long a pause lasts *)

(** The moves that are not the governor's. *)
Inductive quiet_step : system -> system -> Prop :=
| q_tick sy t : sy_now sy <= t -> quiet_step sy (mkSystem t (sy_store sy) (sy_procs sy))
| q_act sy i p a p' s' : sy_procs sy !! i = Some p -> act (sy_now sy) a p (sy_store sy) = Some (p', s') ->
    quiet_step sy (mkSystem (sy_now sy) s' (<[i := p']> (sy_procs sy))).

Inductive quiet : system -> system -> Prop :=
| q_refl sy : quiet sy sy
| q_step sy sy1 sy2 : quiet sy sy1 -> quiet_step sy1 sy2 -> quiet sy sy2.

(** A Builder's call never moves the deadline of a pause; releasing the
    lease may drop it. *)
Lemma deadline_kept c (s : S) name d : (forall now n ttl, c <> CPause now n ttl) ->
  ls_deadline name (snd (ls_call c s)) = Some d -> ls_deadline name s = Some d.
Proof.
  intros NP D. destruct (ls_call c s) as [[x|e] s'] eqn:E; cbn in D; [|by rewrite (call_refused _ _ _ _ E) in D].
  destruct (decide (name = call_name c)) as [->|N].
  2: { by destruct (call_frame _ _ _ _ name E N) as [_ <-]. }
  destruct c as [now name owner ttl|now name owner fence ttl|name owner fence|now name ttl|name]; cbn in *.
  - destruct (ls_acquire now name owner ttl s) as [[st|] s1] eqn:A; cbn in E; simplify_eq.
    destruct (acquired _ _ _ _ _ _ _ A) as (_ & _ & _ & _ & K & _). congruence.
  - destruct (ls_renew now name owner fence ttl s) as [[st|] s1] eqn:A; cbn in E; simplify_eq.
    destruct (renewed _ _ _ _ _ _ _ _ A) as (cu & _ & _ & _ & _ & _ & K). congruence.
  - destruct (ls_release name owner fence s) as [[[]|] s1] eqn:A; cbn in E; simplify_eq.
    destruct (released _ _ _ _ _ A) as (_ & _ & K). congruence.
  - by destruct (NP now name ttl).
  - destruct (ls_resume name s) as [r s1] eqn:A; cbn in E; simplify_eq. destruct (resumed _ _ _ _ A) as [_ K]. congruence.
Qed.

Lemma act_deadline t a p (s : S) p' s' name d : act t a p s = Some (p', s') ->
  ls_deadline name s' = Some d -> ls_deadline name s = Some d.
Proof.
  intros E D. unfold act in E. destruct a as [now at_ rp|now rp over| |rp|], (pr_phase p); try discriminate; cbn in *;
    try (injection E as <- <-; exact D);
    match type of E with context [observed ?rp ?s ?x] => destruct (observed rp s x) as [r s1] eqn:Ob end;
    destruct (observed_call _ _ _ _ _ Ob) as [X|X]; destruct r; injection E as <- <-; rewrite X in D; try done.
  1-2: eapply (deadline_kept (CAcquire now (name_of p) (owner_of p) (lc_TTL (config_normalize (pr_cfg p))))); [done|];
    cbn in *; by destruct (ls_acquire _ _ _ _ s).
  1-2: eapply (deadline_kept (CRenew now (name_of p) (owner_of p) (bl_Fence st) (lc_TTL (config_normalize (pr_cfg p))))); [done|];
    cbn in *; by destruct (ls_renew _ _ _ _ _ s).
  all: eapply (deadline_kept (CRelease (name_of p) (owner_of p) (bl_Fence st))); [done|]; cbn in *; by destruct (ls_release _ _ _ s).
Qed.

Lemma quiet_deadline sy sy' name d : quiet sy sy' -> ls_deadline name (sy_store sy') = Some d ->
  ls_deadline name (sy_store sy) = Some d.
Proof.
  induction 1 as [|sy sy1 sy2 Q IH St]; [done|]. intros D. apply IH. destruct St; [done|]. cbn in D. by eapply act_deadline.
Qed.

(** Nobody has to lift a pause: a pause that was the governor's last word is
    over when its time is up, whatever the Builders do. *)
Theorem pause_ends sy now cfg st st' s' sy' t b : leader_Pause Heard now cfg st (sy_store sy) = (Ok tt, st', s') ->
  quiet (mkSystem (sy_now sy) s' (sy_procs sy)) sy' ->
  now + ls_extent (lc_PauseTTL (config_normalize cfg)) <= t ->
  ls_paused t (lc_Name (config_normalize cfg)) (sy_store sy') = Ok b -> b = false.
Proof.
  intros P Q T F. unfold leader_Pause in P. cbn [observed] in P.
  destruct (ls_pause now _ _ (sy_store sy)) as [r s1] eqn:A. destruct r; simplify_eq.
  destruct (paused _ _ _ _ _ _ A) as [_ D]. rewrite (flag_is_deadline _ _ _ _ F).
  destruct (ls_deadline _ (sy_store sy')) as [d|] eqn:E; [|done].
  pose proof (quiet_deadline _ _ _ _ Q E) as E'. cbn in E', D. rewrite D in E' by done. injection E' as <-.
  apply Z.ltb_ge. done.
Qed.
End leader.

(** ** The loop of passes (builder.go) *)

(** How a pass ended: not started because of a pause, failed, or stopped at
    its ceiling, which keeps the error it wraps. *)
Inductive pass_error := errBuilderPaused | PassFailed | DeadlineExceeded | CeilingExceeded (e : pass_error).

Fixpoint is_paused (e : pass_error) : bool :=
  match e with errBuilderPaused => true | CeilingExceeded e => is_paused e | _ => false end.

Definition builderPausePoll : Z := 15 * Second.

Definition pausePollDelay (interval : Z) : Z := Z.min interval builderPausePoll.

(** [gateOnPause]: the run function, behind the pause flag if there is one. *)
Definition gateOnPause (paused : option bool) (run : option pass_error) : option pass_error :=
  match paused with
  | None => run
  | Some true => Some errBuilderPaused
  | Some false => run
  end.

(** [runBoundedPass]: [fired] says whether the pass's own deadline passed,
    [ctxDone] whether the loop's context has ended. *)
Definition runBoundedPass (ctxDone : bool) (passTimeout : Z) (fired : bool) (err : option pass_error) : option pass_error :=
  if ctxDone || negb ((0 <? passTimeout) && fired) then err
  else match err with
  | None => Some (CeilingExceeded DeadlineExceeded)
  | Some e => Some (CeilingExceeded e)
  end.

(** [RunLoop]'s interval. *)
Definition loop_interval (interval : Z) : Z := if interval <=? 0 then 5 * Minute else interval.

(** The two variables of the loop; [lp_retrying] also chooses the budget the
    next pass runs under. *)
Record loop_state := mkLoop { lp_series : Series; lp_retrying : bool }.
Definition loop_start : loop_state := mkLoop fresh false.

(** One round: the delay before the next pass, and the state after it. *)
Definition loop_round (int64n : Z -> Z) (draw : option (Z -> Z)) (interval : Z) (err : option pass_error)
    (l : loop_state) : Z * loop_state :=
  match err with
  | Some e =>
      if is_paused e then (pausePollDelay interval, l)
      else
        let '(s, (retry, st)) := Failure (lp_series l) in
        let '(delay, retrying) :=
          if is_waiting st then (match Delay int64n retry draw with Some d => d | None => 0 end, true)
          else (interval, false) in
        (delay, mkLoop (if is_deferred (state s) then Reset s else s) retrying)
  | None =>
      let s := Reset (lp_series l) in
      (interval, mkLoop (if is_deferred (state s) then Reset s else s) false)
  end.

Fixpoint loop_run (int64n : Z -> Z) (draw : option (Z -> Z)) (interval : Z) (errs : list (option pass_error))
    (l : loop_state) : list Z * loop_state :=
  match errs with
  | [] => ([], l)
  | err :: errs =>
      let '(d, l1) := loop_round int64n draw interval err l in
      let '(ds, l2) := loop_run int64n draw interval errs l1 in (d :: ds, l2)
  end.

Definition is_pause (err : option pass_error) : bool := match err with Some e => is_paused e | None => false end.

(** The failures since the last success or the last deferral, pauses apart. *)
Fixpoint open_failures (n : nat) (errs : list (option pass_error)) : nat :=
  match errs with
  | [] => n
  | err :: errs =>
      open_failures (if is_pause err then n else match err with None => O | Some _ => if Nat.eqb n 5 then O else S n end) errs
  end.

Lemma loop_round_spec int64n draw interval err n : (n <= 5)%nat -> int64n_ok int64n ->
  let '(d, l) := loop_round int64n draw interval err (mkLoop (after n) (negb (Nat.eqb n 0))) in
  l = mkLoop (after (open_failures n [err])) (negb (Nat.eqb (open_failures n [err]) 0))
  /\ (is_pause err = true -> d = pausePollDelay interval)
  /\ (err = None -> d = interval)
  /\ (is_pause err = false -> err <> None ->
      if Nat.eqb n 5 then d = interval
      else 2 ^ Z.of_nat n * Second <= d <= 2 ^ Z.of_nat n * Second + 2 ^ Z.of_nat n * Second / 4).
Proof.
  intros Hn Hi. destruct err as [e|]; cbn [loop_round is_pause open_failures].
  2: { by split_and!. }
  destruct (is_paused e) eqn:P; [by split_and!|]. cbn [lp_series]. rewrite after_Failure.
  assert (n = 5%nat \/ (n < 5)%nat) as [->|L] by lia; [by split_and!|].
  destruct (Nat.eqb_spec n 5) as [->|_]; [lia|]. destruct (Z.ltb_spec (Z.of_nat n) MaxRetries); [|unfold MaxRetries in *; lia].
  cbn [is_waiting]. destruct (Delay_bounds int64n (Z.of_nat n + 1) draw Hi) as (d & -> & B); [unfold MaxRetries; lia|].
  replace (Z.of_nat n + 1 - 1) with (Z.of_nat n) in B by lia. split_and!; try done.
  do 5 (destruct n as [|n]; [reflexivity|]). lia.
Qed.

(** The loop never gives up and a pause costs nothing.  Whatever happened so
    far, a pass that was not allowed to start is asked again after fifteen
    seconds at most and leaves the series as it was; a success waits the
    interval; the failures since the last success or deferral wait 1, 2, 4,
    8 and 16 seconds with at most a quarter more, the next one waits the
    interval and opens a new series. *)
Theorem builder_loop_delays int64n draw interval errs err : int64n_ok int64n ->
  let n := open_failures 0 errs in
  let '(d, l) := loop_round int64n draw interval err (snd (loop_run int64n draw interval errs loop_start)) in
  (n <= 5)%nat
  /\ (is_pause err = true -> d = pausePollDelay interval /\ l = snd (loop_run int64n draw interval errs loop_start))
  /\ (err = None -> d = interval)
  /\ (is_pause err = false -> err <> None ->
      if Nat.eqb n 5 then d = interval
      else 2 ^ Z.of_nat n * Second <= d <= 2 ^ Z.of_nat n * Second + 2 ^ Z.of_nat n * Second / 4).
Proof.
  intros Hi n.
  assert (Run : forall errs m, (m <= 5)%nat ->
    snd (loop_run int64n draw interval errs (mkLoop (after m) (negb (Nat.eqb m 0))))
      = mkLoop (after (open_failures m errs)) (negb (Nat.eqb (open_failures m errs) 0)) /\ (open_failures m errs <= 5)%nat).
  { clear -Hi. induction errs as [|e errs IH]; intros m Hm; [done|]. cbn [loop_run].
    pose proof (loop_round_spec int64n draw interval e m Hm Hi) as R.
    destruct (loop_round int64n draw interval e _) as [d l]. destruct R as [-> _].
    assert (Hm' : (open_failures m [e] <= 5)%nat) by (cbn [open_failures]; destruct (is_pause e), e, (Nat.eqb_spec m 5); lia).
    specialize (IH _ Hm') as [IH1 IH2]. destruct (loop_run _ _ _ errs _) as [ds l2]. cbn in *. done. }
  destruct (Run errs O) as [E N5]; [lia|]. fold n in E, N5. change (mkLoop (after 0) _) with loop_start in E. rewrite E.
  pose proof (loop_round_spec int64n draw interval err n N5 Hi) as R.
  destruct (loop_round int64n draw interval err _) as [d l]. destruct R as (-> & P & O & F).
  split_and!; try done. intros I. split; [auto|]. cbn. by rewrite I.
Qed.

(** Two Builders with their own names; the second takes over after the first
    has gone silent for a minute. *)
Definition example_config (owner : string) : LeaseConfig := mkConfig "" owner 0 0 0 0.

Definition example_start : @system Fake :=
  mkSystem 0 empty_fake (fresh_process 0 <$> [example_config "a"; example_config "b"]).

(** A move of process [i], if it can make it. *)
Definition perform {S} `{LeaseStore S} (i : nat) (a : action) (sy : system) : @system S :=
  match sy_procs sy !! i with
  | Some p => match act (sy_now sy) a p (sy_store sy) with
              | Some (p', s') => mkSystem (sy_now sy) s' (<[i := p']> (sy_procs sy))
              | None => sy
              end
  | None => sy
  end.

Definition wait_until {S} (t : Z) (sy : system) : @system S := mkSystem t (sy_store sy) (sy_procs sy).

Lemma perform_reachable {S} `{LeaseStore S} i a (sy : @system S) : sreachable sy ->
  (forall p now, sy_procs sy !! i = Some p -> started a = Some now -> pr_last p <= now <= sy_now sy) ->
  sreachable (perform i a sy).
Proof.
  intros R St. unfold perform. destruct (sy_procs sy !! i) as [p|] eqn:P; [|done].
  destruct (act (sy_now sy) a p (sy_store sy)) as [[p' s']|] eqn:A; [|done]. eapply sr_step; [done|]. eapply s_act; eauto.
Qed.

Definition taken_over : @system Fake :=
  perform 1 (Acquire Minute 0 Heard) (wait_until Minute (perform 0 (Acquire 0 0 Heard) example_start)).

Lemma taken_over_reachable : sreachable taken_over.
Proof.
  apply perform_reachable.
  - eapply sr_step; [apply (perform_reachable 0 (Acquire 0 0 Heard) example_start); [apply sr_start|]|apply s_tick; discriminate].
    by intros p now [= <-] [= <-].
  - by intros p now [= <-] [= <-].
Qed.

Lemma one_builder_at_a_time_witness :
  running <$> sy_procs taken_over
    = [Some (mkLease DefaultLeaseName "a" 1 0 (45 * Second)); Some (mkLease DefaultLeaseName "b" 2 Minute (105 * Second))]
  /\ 45 * Second <= sy_now taken_over.
Proof.
  split; [reflexivity|].
  refine (proj1 (one_builder_at_a_time taken_over taken_over_reachable _) 1%nat 0%nat _ _
            (mkLease DefaultLeaseName "b" 2 Minute (105 * Second)) (mkLease DefaultLeaseName "a" 1 0 (45 * Second)) _ _ _ _ _ _ _);
    try reflexivity; try discriminate.
  apply (bool_decide_unpack (NoDup _)). vm_compute. exact I.
Defined.
