(* ===== verification/Governor.v ===== *)
(** * The resource governor (cmd/csx-server/governor.go,
    internal/hostpressure/steal.go, and [stat] of serverstore/pool.go)

    Every few seconds the governor looks at what the pool refused since the
    last look and at the CPU time the hypervisor took, and pauses background
    work: the Builder through its lease, farm ingest through its ceiling in
    the pool.  The governor is modelled with the pool ([Pool]), the lease and
    the Builders ([Lease], [Leader]) it acts on.  Files of /proc enter as
    their text, or as the failure to read them. *)

From stdpp Require Import gmap strings list.
From S2P Require Import Prelude GoStrings GoStd Float Lease Leader Pool.

Definition uint64_max : Z := 2 ^ 64 - 1.
Definition wrap_uint64 (n : Z) : Z := n mod 2 ^ 64.

(** ** Steal time *)

Record procStatSample := mkSample { StealTicks : Z; TotalTicks : Z }.

Inductive host_error :=
| ErrUnsupportedPlatform
| ErrProcStatRead
| ErrProcStatEmpty
| ErrProcStatTooLong
| ErrProcStatLabel (line : string)
| ErrProcStatFields (n : nat)
| ErrProcStatTick (i : nat) (field : string)
| ErrLoadAvgRead
| ErrLoadAvgEmpty
| ErrLoadAvgNumber (field : string).

(** [strconv.ParseUint(s, 10, 64)]. *)
Definition ParseUint (s : string) : option Z :=
  if String.eqb s "" then None
  else match digits_value 0 s with
  | Some v => if uint64_max <? v then None else Some v
  | None => None
  end.

(** The first token of a [bufio.Scanner]: up to a newline, without a trailing
    carriage return; a line that does not fit its buffer is an error. *)
Definition scan_buffer : nat := Z.to_nat (64 * 1024).
Definition raw_line (text : string) : string := fst (fst (Cut text (chr 10))).
Definition first_line (text : string) : string := TrimSuffix (raw_line text) (single (chr 13)).

(** The loop over the fields: the sum of all, and the eighth. *)
Fixpoint sum_ticks (i : nat) (fields : list string) (sample : procStatSample) : result procStatSample host_error :=
  match fields with
  | [] => Ok sample
  | f :: fields =>
      match ParseUint f with
      | None => Err (ErrProcStatTick i f)
      | Some v =>
          sum_ticks (S i) fields
            (mkSample (if Nat.eqb i 7 then v else StealTicks sample) (wrap_uint64 (TotalTicks sample + v)))
      end
  end.

Definition parseProcStat (text : string) : result procStatSample host_error :=
  if String.eqb text "" then Err ErrProcStatEmpty
  else if (scan_buffer <=? String.length (raw_line text))%nat then Err ErrProcStatTooLong
  else
    let line := first_line text in
    match Fields line with
    | label :: fields =>
        if negb (String.eqb label "cpu") then Err (ErrProcStatLabel line)
        else if (length fields <? 8)%nat then Err (ErrProcStatFields (length fields))
        else sum_ticks 0 fields (mkSample 0 0)
    | [] => Err (ErrProcStatLabel line)
    end.

Definition stealPercent (prev cur : procStatSample) : float64 :=
  if (TotalTicks cur <=? TotalTicks prev) || (StealTicks cur <? StealTicks prev) then fzero
  else
    let deltaSteal := StealTicks cur - StealTicks prev in
    let deltaTotal := TotalTicks cur - TotalTicks prev in
    fmul (fdiv (float_of deltaSteal) (float_of deltaTotal)) (float_of 100).

(** One reading; the instant it was taken is not used by anything here. *)
Record Reading := mkReading { StealPercent : float64; LoadAvg1 : float64 }.
Definition reading_zero : Reading := mkReading fzero fzero.

Record Sampler := mkSampler { sm_last : procStatSample; sm_haveLast : bool }.
Definition NewSampler : Sampler := mkSampler (mkSample 0 0) false.

(** [strconv.ParseFloat] of the load average. *)
Class GoParseFloat := { parse_float : string -> option float64 }.

Section host.
  Context {PF : GoParseFloat}.

Definition readProcStat (file : option string) : result procStatSample host_error :=
  match file with None => Err ErrProcStatRead | Some text => parseProcStat text end.

Definition readLoadAvg1 (file : option string) : result float64 host_error :=
  match file with
  | None => Err ErrLoadAvgRead
  | Some text =>
      match Fields text with
      | [] => Err ErrLoadAvgEmpty
      | f :: _ => match parse_float f with Some v => Ok v | None => Err (ErrLoadAvgNumber f) end
      end
  end.

(** What [host_Sample] finds: the platform, and the two files. *)
Record host_files := mkFiles { hf_linux : bool; hf_stat : option string; hf_loadavg : option string }.

Definition host_Sample (h : host_files) (s : Sampler) : result Reading host_error * Sampler :=
  if negb (hf_linux h) then (Err ErrUnsupportedPlatform, s)
  else match readProcStat (hf_stat h) with
  | Err e => (Err e, s)
  | Ok cur =>
      match readLoadAvg1 (hf_loadavg h) with
      | Err e => (Err e, s)
      | Ok loadAvg1 =>
          let stealPct := if sm_haveLast s then stealPercent (sm_last s) cur else fzero in
          (Ok (mkReading stealPct loadAvg1), mkSampler cur true)
      end
  end.
End host.

(** ** The pool's statistics *)

Record ClassPoolStats := mkClassStats {
  cs_Class : string; cs_Limit : Z; cs_InUse : Z; cs_Attempts : Z; cs_First : Z; cs_Retries : Z; cs_Followups : Z;
  cs_Acquired : Z; cs_Waited : Z; cs_WaitTotal : Z; cs_WaitMax : Z; cs_Busy : Z; cs_Suppressed : Z; cs_Canceled : Z;
  cs_Failed : Z; cs_Timeouts : Z
}.

Definition class_stats_zero : ClassPoolStats := mkClassStats "" 0 0 0 0 0 0 0 0 0 0 0 0 0 0 0.

Record PoolStats := mkStats {
  ps_Enabled : bool; ps_MaxConns : Z; ps_Open : Z; ps_InUse : Z; ps_Idle : Z; ps_Classes : list ClassPoolStats
}.

Definition stats_zero : PoolStats := mkStats false 0 0 0 0 [].

(** The limit shown for a class: the live ceiling for the farm. *)
Definition class_limit (p : PoolPolicy) (s : shared) (c : QueryClass) : Z :=
  if Enabled p then
    match c with
    | ClassBackground => BackgroundConns p
    | ClassInteractive => InteractiveConns p
    | ClassProbe => Z.max (ProbeReserve p) 1
    | ClassFarmIngest => sh_farmConns s
    | ClassAuthoring => AuthoringConns p
    end
  else MaxConns p.

Definition class_stat (p : PoolPolicy) (s : shared) (c : QueryClass) : ClassPoolStats :=
  let t := sh_stats s c in
  mkClassStats (class_String c) (class_limit p s c) (ct_inUse t) (ct_attempts t) (ct_first t) (ct_retries t)
    (ct_followups t) (ct_acquired t) (ct_waited t) (ct_waitNS t) (ct_waitMaxNS t) (ct_busy t) (ct_suppressed t)
    (ct_canceled t) (ct_failed t) (ct_timeouts t).

Definition pool_stat (p : PoolPolicy) (s : shared) : PoolStats :=
  mkStats (Enabled p) (MaxConns p) (sh_sem s) (Z.max (sh_sem s - sh_idle s) 0) (sh_idle s)
    (class_stat p s <$> [ClassInteractive; ClassBackground; ClassProbe; ClassFarmIngest; ClassAuthoring]).

(** ** The policy *)

Record governorThresholds := mkThresholds { InteractiveRefusalRate : float64; HostStealPercent : float64 }.

Definition defaultGovernorThresholds : governorThresholds := mkThresholds (hundredths 10) (float_of 20).

Record governorDecision := mkDecision { PauseBuilder : bool; PauseFarmIngest : bool; Reason : string }.

#[export] Instance governorDecision_eq_dec : EqDecision governorDecision.
Proof. solve_decision. Defined.

Definition decision_zero : governorDecision := mkDecision false false "".

Definition reasonNone : string := "".
Definition reasonInteractivePoolPressure : string := "interactive-pool-pressure".
Definition reasonHostCPUSteal : string := "host-cpu-steal".

(** Whether a class's window is the interactive one, with too many refusals. *)
Definition refusing (th : governorThresholds) (c : ClassPoolStats) : bool :=
  String.eqb (cs_Class c) (class_String ClassInteractive) && negb (cs_Attempts c =? 0)
  && fleb (InteractiveRefusalRate th) (fdiv (float_of (cs_Busy c)) (float_of (cs_Attempts c))).

Definition decide_governor (stats : PoolStats) (host : Reading) (th : governorThresholds) : governorDecision :=
  if existsb (refusing th) (ps_Classes stats) then mkDecision true true reasonInteractivePoolPressure
  else if fleb (HostStealPercent th) (StealPercent host) then mkDecision true false reasonHostCPUSteal
  else decision_zero.

Definition monotoneDelta (prev cur : Z) : Z := if cur <? prev then 0 else cur - prev.

(** [before[c.Class] = c], the last entry of a name. *)
Definition stats_before (prev : PoolStats) : gmap string ClassPoolStats :=
  fold_left (fun m c => <[cs_Class c := c]> m) (ps_Classes prev) ∅.

Definition class_window (p c : ClassPoolStats) : ClassPoolStats :=
  mkClassStats (cs_Class c) (cs_Limit c) (cs_InUse c) (monotoneDelta (cs_Attempts p) (cs_Attempts c)) (cs_First c)
    (cs_Retries c) (cs_Followups c) (monotoneDelta (cs_Acquired p) (cs_Acquired c))
    (monotoneDelta (cs_Waited p) (cs_Waited c)) (cs_WaitTotal c) (cs_WaitMax c) (monotoneDelta (cs_Busy p) (cs_Busy c))
    (monotoneDelta (cs_Suppressed p) (cs_Suppressed c)) (monotoneDelta (cs_Canceled p) (cs_Canceled c))
    (monotoneDelta (cs_Failed p) (cs_Failed c)) (monotoneDelta (cs_Timeouts p) (cs_Timeouts c)).

Definition poolStatsWindow (prev cur : PoolStats) : PoolStats :=
  let before := stats_before prev in
  mkStats (ps_Enabled cur) (ps_MaxConns cur) (ps_Open cur) (ps_InUse cur) (ps_Idle cur)
    ((fun c => class_window (default class_stats_zero (before !! cs_Class c)) c) <$> ps_Classes cur).

Definition interactiveWindow (stats : PoolStats) : ClassPoolStats :=
  default class_stats_zero
    (List.find (fun c => String.eqb (cs_Class c) (class_String ClassInteractive)) (ps_Classes stats)).

(** ** The loop *)

Definition defaultGovernorInterval : Z := 5 * second.
Definition minGovernorControlTimeout : Z := second.

(** Errors are logged by their text, and a repeated text only once. *)
Record governor := mkGovernor {
  gv_farmConns : Z;
  gv_thresholds : governorThresholds;
  gv_interval : Z;
  gv_prev : PoolStats;
  gv_havePrev : bool;
  gv_state : governorDecision;
  gv_needResume : bool;
  gv_hostErrLogged : string;
  gv_ctrlErrLogged : string
}.

Inductive log_line :=
| LogNoHostSignal (msg : string)
| LogControl (action msg : string)
| LogPaused (reason builder farm : string) (busy attempts : Z)
| LogResumed (after : string) (farm : Z).

(** [newGovernor]: the ceiling to restore is the one in force. *)
Definition newGovernor (s : shared) (interval : Z) : governor :=
  mkGovernor (sh_farmConns s) defaultGovernorThresholds interval stats_zero false decision_zero true "" "".

(** [run]'s interval, and the budget of one tick's control call. *)
Definition run_interval (g : governor) : Z := if gv_interval g <=? 0 then defaultGovernorInterval else gv_interval g.
Definition controlTimeout (g : governor) : Z := Z.max (gv_interval g) minGovernorControlTimeout.

Definition set_prev (cur : PoolStats) (g : governor) : governor :=
  mkGovernor (gv_farmConns g) (gv_thresholds g) (gv_interval g) cur true (gv_state g) (gv_needResume g)
    (gv_hostErrLogged g) (gv_ctrlErrLogged g).
Definition set_state (d : governorDecision) (g : governor) : governor :=
  mkGovernor (gv_farmConns g) (gv_thresholds g) (gv_interval g) (gv_prev g) (gv_havePrev g) d (gv_needResume g)
    (gv_hostErrLogged g) (gv_ctrlErrLogged g).
Definition set_needResume (b : bool) (g : governor) : governor :=
  mkGovernor (gv_farmConns g) (gv_thresholds g) (gv_interval g) (gv_prev g) (gv_havePrev g) (gv_state g) b
    (gv_hostErrLogged g) (gv_ctrlErrLogged g).
Definition set_hostErr (msg : string) (g : governor) : governor :=
  mkGovernor (gv_farmConns g) (gv_thresholds g) (gv_interval g) (gv_prev g) (gv_havePrev g) (gv_state g)
    (gv_needResume g) msg (gv_ctrlErrLogged g).
Definition set_ctrlErr (msg : string) (g : governor) : governor :=
  mkGovernor (gv_farmConns g) (gv_thresholds g) (gv_interval g) (gv_prev g) (gv_havePrev g) (gv_state g)
    (gv_needResume g) (gv_hostErrLogged g) msg.

(** [sampleHost]; [None] is a governor without a sampler, and an error comes
    as its text. *)
Definition sampleHost (sample : option (result Reading string)) (g : governor) : Reading * governor * list log_line :=
  match sample with
  | None => (reading_zero, g, [])
  | Some (Ok r) => (r, set_hostErr "" g, [])
  | Some (Err msg) =>
      if String.eqb msg (gv_hostErrLogged g) then (reading_zero, g, [])
      else (reading_zero, set_hostErr msg g, [LogNoHostSignal msg])
  end.

Definition logPauseError (action err : string) (g : governor) : governor * list log_line :=
  let msg := action +:+ ": " +:+ err in
  if String.eqb msg (gv_ctrlErrLogged g) then (g, []) else (set_ctrlErr msg g, [LogControl action err]).

Definition pausedWord (paused : bool) : string := if paused then "paused" else "running".

(** The lines a change of decision writes. *)
Definition log_change (d : governorDecision) (window : PoolStats) (g : governor) : governor * list log_line :=
  if decide (d = gv_state g) then (g, [])
  else
    (set_state d g,
     if negb (String.eqb (Reason d) reasonNone) then
       let i := interactiveWindow window in
       [LogPaused (Reason d) (pausedWord (PauseBuilder d))
          (if PauseFarmIngest d then "paused" else Itoa (gv_farmConns g)) (cs_Busy i) (cs_Attempts i)]
     else [LogResumed (Reason (gv_state g)) (gv_farmConns g)]).

Section governing.
  Context {S : Type} `{LeaseLaws S}.
  Context (p : PoolPolicy) (cfg : LeaseConfig) (err_text : lease_error -> string).

(** The Builder's lever: a call to the lease, when one is due. *)
Definition control (rp : reply) (now : Z) (d : governorDecision) (g : governor) (st : LeaderStatus) (s : S) :
    governor * LeaderStatus * S * list log_line :=
  if PauseBuilder d then
    let '(r, st', s') := leader_Pause rp now cfg st s in
    let '(g, logs) := match r with Err e => logPauseError "pause" (err_text e) g | Ok _ => (set_ctrlErr "" g, []) end in
    (set_needResume true g, st', s', logs)
  else if gv_needResume g then
    let '(r, st', s') := leader_Resume rp cfg st s in
    let '(g, logs) := match r with
      | Err e => logPauseError "resume" (err_text e) g
      | Ok _ => (set_needResume false (set_ctrlErr "" g), [])
      end in
    (g, st', s', logs)
  else (g, st, s, []).

(** [apply]: the farm first, then the Builder, then the log. *)
Definition apply_decision (rp : reply) (now : Z) (d : governorDecision) (window : PoolStats) (g : governor)
    (sh : shared) (st : LeaderStatus) (s : S) : governor * shared * LeaderStatus * S * list log_line :=
  let sh := SetFarmIngestConns p (if PauseFarmIngest d then 0 else gv_farmConns g) sh in
  let '(g, st, s, logs) := control rp now d g st s in
  let '(g, more) := log_change d window g in
  (g, sh, st, s, (logs ++ more)%list).

(** [tick], on the pool's statistics and the sample it was given. *)
Definition tick (rp : reply) (now : Z) (cur : PoolStats) (sample : option (result Reading string)) (g : governor)
    (sh : shared) (st : LeaderStatus) (s : S) :
    governorDecision * (governor * shared * LeaderStatus * S * list log_line) :=
  let window := if gv_havePrev g then poolStatsWindow (gv_prev g) cur else stats_zero in
  let g := set_prev cur g in
  let '(host, g, logs) := sampleHost sample g in
  let d := decide_governor window host (gv_thresholds g) in
  let '(g, sh, st, s, more) := apply_decision rp now d window g sh st s in
  (d, (g, sh, st, s, (logs ++ more)%list)).

(** ** The governor among the callers of the pool and the Builders *)

Record world := mkWorld { w_pool : pool; w_sys : @system S; w_gov : governor; w_status : LeaderStatus }.

(** The statistics of a tick were read before it acts, while callers moved
    on; nothing below depends on what they say. *)
Inductive wstep : world -> world -> Prop :=
| w_tick w sh ths rp now cur sample d g' sh' st' s' logs : w_pool w = (sh, ths) -> now <= sy_now (w_sys w) ->
    tick rp now cur sample (w_gov w) sh (w_status w) (sy_store (w_sys w)) = (d, (g', sh', st', s', logs)) ->
    wstep w (mkWorld (sh', ths) (mkSystem (sy_now (w_sys w)) s' (sy_procs (w_sys w))) g' st')
| w_caller w m pl : m <> Governor -> step p m (w_pool w) pl -> wstep w (mkWorld pl (w_sys w) (w_gov w) (w_status w))
| w_builder w sy : quiet_step (w_sys w) sy -> wstep w (mkWorld (w_pool w) sy (w_gov w) (w_status w)).

(** A server that starts: a new pool, a new governor, and whatever an earlier
    process left in the lease table. *)
Inductive wreachable : world -> Prop :=
| wr_start pl sy interval : initial p pl ->
    wreachable (mkWorld pl sy (newGovernor (fst pl) interval) status_zero)
| wr_step w w' : wreachable w -> wstep w w' -> wreachable w'.

Definition lease_name : string := lc_Name (config_normalize cfg).

(** Between ticks: the live ceiling is the one the decision in force asks
    for, and while no resume is owed nothing is paused. *)
Definition governed (w : world) : Prop :=
  let g := w_gov w in
  reachable p (w_pool w) /\ gv_farmConns g = FarmIngestConns p
  /\ sh_farmConns (fst (w_pool w)) = (if PauseFarmIngest (gv_state g) then 0 else FarmIngestConns p)
  /\ (gv_needResume g = false ->
        ls_deadline lease_name (sy_store (w_sys w)) = None /\ PauseBuilder (gv_state g) = false).

Lemma SetFarm_exact n s : 0 <= n <= FarmIngestConns p -> sh_farmConns (SetFarmIngestConns p n s) = n.
Proof.
  intros B. unfold SetFarmIngestConns. cbn. destruct (Z.ltb_spec n 0); [lia|]. destruct (Z.ltb_spec (FarmIngestConns p) n); lia.
Qed.

Lemma sampleHost_spec sample g : let '(_, g', _) := sampleHost sample g in
  gv_farmConns g' = gv_farmConns g /\ gv_state g' = gv_state g /\ gv_needResume g' = gv_needResume g
  /\ gv_thresholds g' = gv_thresholds g.
Proof. unfold sampleHost. destruct sample as [[r|msg]|]; try done. by destruct (String.eqb msg _). Qed.

Lemma normalized_pause : 0 < lc_PauseTTL (config_normalize cfg).
Proof. cbn. destruct (Z.leb_spec (lc_PauseTTL cfg) 0); [done|lia]. Qed.

(** What [control] does to the pause, by decision and answer. *)
Lemma control_spec rp now d g st (s : S) : let '(g', _, s', _) := control rp now d g st s in
  gv_farmConns g' = gv_farmConns g /\ gv_state g' = gv_state g
  /\ (if PauseBuilder d then gv_needResume g' = true
         /\ (rp = Heard -> ls_deadline lease_name s' = Some (now + ls_extent (lc_PauseTTL (config_normalize cfg))))
       else if gv_needResume g then
         (rp = Heard -> gv_needResume g' = false) /\ (gv_needResume g' = false -> ls_deadline lease_name s' = None)
       else s' = s /\ gv_needResume g' = false).
Proof.
  unfold control. destruct (PauseBuilder d).
  - unfold leader_Pause. fold lease_name. pose proof (pause_answers now lease_name _ s normalized_pause) as A.
    destruct (ls_pause now lease_name _ s) as [r s1] eqn:P. cbn in A. subst r.
    destruct (paused _ _ _ _ _ _ P) as [_ D]. specialize (D eq_refl). destruct rp; cbn [observed snd]; unfold logPauseError;
      try destruct (String.eqb _ _); cbn; by split_and!.
  - destruct (gv_needResume g) eqn:N; [|by cbn].
    unfold leader_Resume. fold lease_name. pose proof (resume_answers lease_name s) as A.
    destruct (ls_resume lease_name s) as [r s1] eqn:P. cbn in A. subst r.
    destruct (resumed _ _ _ _ P) as [_ D]. destruct rp; cbn [observed snd]; unfold logPauseError;
      try destruct (String.eqb _ _); cbn; split_and!; try done; congruence.
Qed.

Lemma log_change_spec d window g : let '(g', _) := log_change d window g in
  gv_farmConns g' = gv_farmConns g /\ gv_state g' = d /\ gv_needResume g' = gv_needResume g.
Proof. unfold log_change. destruct (decide (d = gv_state g)); by subst. Qed.

(** One tick, from a governed state. *)
Lemma tick_spec rp now cur sample g sh st (s : S) : gv_farmConns g = FarmIngestConns p -> 0 <= FarmIngestConns p ->
  let '(d, (g', sh', _, s', _)) := tick rp now cur sample g sh st s in
  gv_farmConns g' = FarmIngestConns p /\ gv_state g' = d
  /\ sh' = SetFarmIngestConns p (if PauseFarmIngest d then 0 else FarmIngestConns p) sh
  /\ (if PauseBuilder d then gv_needResume g' = true
         /\ (rp = Heard -> ls_deadline lease_name s' = Some (now + ls_extent (lc_PauseTTL (config_normalize cfg))))
       else if gv_needResume g then
         (rp = Heard -> gv_needResume g' = false) /\ (gv_needResume g' = false -> ls_deadline lease_name s' = None)
       else s' = s /\ gv_needResume g' = false).
Proof.
  intros F P. unfold tick. set (g1 := set_prev cur g). pose proof (sampleHost_spec sample g1) as Hs.
  destruct (sampleHost sample g1) as [[host g2] logs]. destruct Hs as (F2 & _ & N2 & _). cbn in F2, N2.
  set (d := decide_governor _ _ _). unfold apply_decision. pose proof (control_spec rp now d g2 st s) as Hc.
  destruct (control rp now d g2 st s) as [[[g3 st'] s'] logs'] eqn:C. destruct Hc as (F3 & _ & Hc).
  pose proof (log_change_spec d (if gv_havePrev g then poolStatsWindow (gv_prev g) cur else stats_zero) g3) as Hl.
  destruct (log_change d _ g3) as [g4 more]. destruct Hl as (F4 & S4 & N4).
  split_and!; [congruence|done|by rewrite F2, F|]. rewrite N4, <- N2. done.
Qed.

Lemma step_farmConns m pl pl' : step p m pl pl' -> m <> Governor -> sh_farmConns (fst pl') = sh_farmConns (fst pl).
Proof.
  intros [i s0 ths ph s1 ph' _ T| | |] N; try done. cbn.
  destruct T; unfold record_failure, record_success; cbn; rewrite ?farmConns_on_budget; cbn; rewrite ?farmConns_attempt; done.
Qed.

Lemma initial_farmConns pl : initial p pl -> sh_farmConns (fst pl) = FarmIngestConns p.
Proof. by intros []. Qed.

Lemma quiet_step_deadline sy sy' name : quiet_step sy sy' -> ls_deadline name (sy_store sy) = None ->
  ls_deadline name (sy_store sy') = None.
Proof.
  intros Q D. destruct (ls_deadline name (sy_store sy')) as [d|] eqn:E; [|done].
  assert (Q' : quiet sy sy') by (eapply q_step; [apply q_refl|done]). rewrite (quiet_deadline _ _ _ _ Q' E) in D. done.
Qed.

Lemma wreachable_governed w : 0 <= FarmIngestConns p -> wreachable w -> governed w.
Proof.
  intros P. induction 1 as [pl sy interval I|w w' R IH St].
  - unfold governed. cbn. rewrite (initial_farmConns pl I). split_and!; try done. by apply r_init.
  - destruct IH as (Rp & F & C & N). destruct St as [w sh ths rp now cur sample d g' sh' st' s' logs E T Tk|w m pl M Sp|w sy Q];
      unfold governed; cbn.
    + pose proof (tick_spec rp now cur sample (w_gov w) sh (w_status w) (sy_store (w_sys w)) F P) as K. rewrite Tk in K.
      destruct K as (F' & S' & -> & K). rewrite E in Rp. split_and!; [|done| |].
      * eapply r_step; [exact Rp|]. apply s_governor.
      * rewrite S', SetFarm_exact; [done|]. destruct (PauseFarmIngest d); lia.
      * intros N'. rewrite S'. destruct (PauseBuilder d); [destruct K; congruence|].
        destruct (gv_needResume (w_gov w)); [by destruct K; auto|]. destruct K as [-> _]. split; [|done]. by apply N.
    + split_and!; try done; [by eapply r_step|]. by rewrite (step_farmConns _ _ _ Sp M).
    + split_and!; try done. intros N'. destruct (N N'). split; [|done]. by eapply quiet_step_deadline.
Qed.
End governing.

Lemma normalized_farm pol : 0 <= FarmIngestConns (policy_normalize pol).
Proof.
  destruct (normalize_ok pol) as [_ K]. destruct (Enabled pol) eqn:E.
  - assert (En : Enabled (policy_normalize pol) = true) by (unfold policy_normalize; by rewrite E).
    destruct (K En) as (_ & C & _). specialize (C (FarmIngestConns (policy_normalize pol))). cbn in C. lia.
  - unfold policy_normalize. rewrite E. cbn. lia.
Qed.

(** C15.  The governor sheds and gives back.  Whatever the callers of the
    pool and the Builders do between its ticks, and whatever its statistics
    and its sampler say: the farm's live ceiling is zero while the decision
    in force sheds the farm and otherwise exactly the ceiling the pool was
    normalised to, under which no farm caller is turned away for the ceiling;
    a tick that pauses the Builder and is heard pauses it until its time is
    up and no longer; a tick that does not, and is heard, leaves nothing
    paused; and while no resume is owed nothing is paused. *)
Theorem governor_sheds_and_restores {S} `{LeaseLaws S} pol cfg err_text (w : @world S) :
  let p := policy_normalize pol in
  let name := lease_name cfg in
  wreachable p cfg err_text w ->
  sh_farmConns (fst (w_pool w)) = (if PauseFarmIngest (gv_state (w_gov w)) then 0 else FarmIngestConns p)
  /\ (Enabled p = true -> PauseFarmIngest (gv_state (w_gov w)) = false -> farmAdmitted (fst (w_pool w)) = true)
  /\ (gv_needResume (w_gov w) = false -> forall t b, ls_paused t name (sy_store (w_sys w)) = Ok b -> b = false)
  /\ forall rp now cur sample,
      let '(d, (_, sh', _, s', _)) :=
        tick p cfg err_text rp now cur sample (w_gov w) (fst (w_pool w)) (w_status w) (sy_store (w_sys w)) in
      sh_farmConns sh' = (if PauseFarmIngest d then 0 else FarmIngestConns p)
      /\ (rp = Heard -> forall t b, ls_paused t name s' = Ok b ->
            b = PauseBuilder d && (t <? now + ls_extent (lc_PauseTTL (config_normalize cfg)))).
Proof.
  intros p name R. pose proof (normalized_farm pol : 0 <= FarmIngestConns p) as P.
  destruct (wreachable_governed p cfg err_text w P R) as (Rp & F & C & N). split_and!; [done| | |].
  - intros E D. pose proof (reachable_ok p _ (normalize_ok pol) Rp) as K. unfold farmAdmitted. rewrite C, D.
    apply Z.leb_le. by apply (ok_gates _ _ K GFarm).
  - intros Nr t b Fl. rewrite (flag_is_deadline _ _ _ _ Fl). unfold name. by destruct (N Nr) as [-> _].
  - intros rp now cur sample.
    pose proof (tick_spec p cfg err_text rp now cur sample (w_gov w) (fst (w_pool w)) (w_status w) (sy_store (w_sys w)) F P) as K.
    destruct (tick _ _ _ _ _ _ _ _ _ _ _) as [d [[[[g' sh'] st'] s'] logs]]. destruct K as (_ & _ & -> & K). split.
    { apply SetFarm_exact. destruct (PauseFarmIngest d); lia. }
    intros Hd t b Fl. rewrite (flag_is_deadline _ _ _ _ Fl). unfold name. destruct (PauseBuilder d); cbn [andb].
    + destruct K as [_ K]. by rewrite (K Hd).
    + destruct (gv_needResume (w_gov w)).
      * destruct K as [K1 K2]. by rewrite (K2 (K1 Hd)).
      * destruct K as [-> _]. by destruct (N eq_refl) as [-> _].
Qed.


(** What the interactive class was refused between two looks at the pool. *)
Definition refused_between (th : governorThresholds) (s1 s2 : shared) : bool :=
  let count f := monotoneDelta (f (sh_stats s1 ClassInteractive)) (f (sh_stats s2 ClassInteractive)) in
  negb (count ct_attempts =? 0)
  && fleb (InteractiveRefusalRate th) (fdiv (float_of (count ct_busy)) (float_of (count ct_attempts))).

(** The decision looks at the interactive class alone, and only at what
    happened since the previous look: refusals before it never keep a pause
    alive.  Too many of them shed both producers; stolen CPU time alone
    pauses the Builder and leaves the farm. *)
Theorem governor_decision_exact p s1 s2 host th :
  decide_governor (poolStatsWindow (pool_stat p s1) (pool_stat p s2)) host th
  = if refused_between th s1 s2 then mkDecision true true reasonInteractivePoolPressure
    else if fleb (HostStealPercent th) (StealPercent host) then mkDecision true false reasonHostCPUSteal
    else decision_zero.
Proof.
  unfold decide_governor, poolStatsWindow. cbn [ps_Classes pool_stat fmap list_fmap existsb].
  replace (stats_before (pool_stat p s1) !! cs_Class (class_stat p s2 ClassInteractive))
    with (Some (class_stat p s1 ClassInteractive)) by (vm_compute; reflexivity).
  cbn [default]. unfold refusing at 2 3 4 5. cbn [class_window cs_Class class_stat class_String String.eqb Ascii.eqb Bool.eqb andb orb].
  rewrite orb_false_r. done.
Qed.

(** A reading that fails leaves the sampler as it was, so the next one is
    measured against the last good sample. *)
Lemma Sample_failed `{GoParseFloat} h s e s' : host_Sample h s = (Err e, s') -> s' = s.
Proof.
  unfold host_Sample. destruct (negb (hf_linux h)); [congruence|]. destruct (readProcStat (hf_stat h)); [|congruence].
  destruct (readLoadAvg1 (hf_loadavg h)); congruence.
Qed.

Example proc_stat_line : parseProcStat ("cpu  10 0 5 80 1 0 0 4 0 0" +:+ single (chr 10) +:+ "cpu0 1 2 3") = Ok (mkSample 4 100).
Proof. vm_compute. reflexivity. Qed.

Example steal_quarter : StealPercent (mkReading (stealPercent (mkSample 4 100) (mkSample 29 200)) fzero) = float_of 25.
Proof. vm_compute. reflexivity. Qed.

(** The comment on [parseProcStat] says that counting guest time twice
    cancels out in the ratio.  It does not: of 100 ticks, 80 spent in a guest
    (and counted as user time as well) and 20 stolen, the host lost a fifth
    of its time and the reading stays below the threshold of a fifth. *)
Lemma guest_time_does_not_cancel :
  match parseProcStat "cpu 0 0 0 0 0 0 0 0 0 0", parseProcStat "cpu 80 0 0 0 0 0 0 20 80 0" with
  | Ok prev, Ok cur =>
      StealTicks cur - StealTicks prev = 20
      /\ fltb (stealPercent prev cur) (float_of 12) = true
      /\ decide_governor stats_zero (mkReading (stealPercent prev cur) fzero) defaultGovernorThresholds = decision_zero
  | _, _ => False
  end.
Proof. vm_compute. by split_and!. Qed.

(** A server whose host loses a quarter of its time. *)
Definition example_pool : pool :=
  (mkShared 0 0 false (FarmIngestConns DefaultPoolPolicy) (fun _ => 0) (fun _ => counters_zero)
     (fun _ => NewQueryBudget ClassBackground), replicate 1 Out).
Definition example_governor_cfg : LeaseConfig := mkConfig "" "csx-server-governor-1" 0 0 0 0.
Definition example_world : @world Fake :=
  mkWorld example_pool (mkSystem 0 empty_fake []) (newGovernor (fst example_pool) 0) status_zero.

Lemma governor_sheds_and_restores_witness :
  let '(d, (_, sh', _, s', _)) :=
    tick (policy_normalize DefaultPoolPolicy) example_governor_cfg (fun _ => "") Heard 0
      (pool_stat DefaultPoolPolicy (fst example_pool)) (Some (Ok (mkReading (float_of 25) fzero)))
      (w_gov example_world) (fst (w_pool example_world)) (w_status example_world) (sy_store (w_sys example_world)) in
  d = mkDecision true false reasonHostCPUSteal /\ sh_farmConns sh' = 2
  /\ forall t b, ls_paused t DefaultLeaseName s' = Ok b -> b = (t <? 60 * second).
Proof.
  pose proof (governor_sheds_and_restores DefaultPoolPolicy example_governor_cfg (fun _ => "") example_world
    (wr_start _ _ _ example_pool (mkSystem 0 empty_fake []) 0 (initial_pool _ (fun _ => NewQueryBudget ClassBackground) 1)))
    as (_ & _ & _ & T).
  specialize (T Heard 0 (pool_stat DefaultPoolPolicy (fst example_pool)) (Some (Ok (mkReading (float_of 25) fzero)))).
  match type of T with context [tick ?a ?b ?c ?d ?e ?f ?g ?h ?i ?j ?k] =>
    assert (D : fst (tick a b c d e f g h i j k) = mkDecision true false reasonHostCPUSteal) by (vm_compute; reflexivity);
    destruct (tick a b c d e f g h i j k) as [dd [[[[g' sh'] st'] s'] logs]] end.
  cbn in D. subst. destruct T as [T1 T2]. split_and!; [reflexivity|exact T1|exact (T2 eq_refl)].
Defined.
